(* ===== verification/_CoqProject ===== *)
-Q . S2P
Prelude.v
Windows.v
GuestMemory.v
Esr.v
MmioBus.v
VirtioQueue.v
QueueDevice.v
VirtioIrq.v
Platform.v
VirtioCore.v
VirtioMmio.v
Psci.v
Smp.v
PciConfig.v
PciIntx.v
PciMsix.v
PciBus.v
VirtioPci.v
Flash.v
FwCfg.v
Rtc.v
Uart.v
AgentProto.v
AgentServer.v
Snapshot.v
Blk.v
Vsock.v
Tpm.v
GpuProto.v
Gpu.v
Usb.v
Xhci.v
NetPacket.v
NetPolicy.v
UserNet.v
AcpiSdt.v
AcpiLeaf.v
AcpiAml.v
AcpiBuild.v
AcpiPlatform.v
AcpiLoader.v
Virtiofs.v
VirtiofsSafe.v
VirtiofsDev.v
QueueWorker.v
VirtioNet.v
VirtioNetSafe.v
VirtioRng.v
VirtioConsole.v
VirtioBalloon.v
VirtioInput.v
InputKicks.v
VirtioSound.v
VirtioP9.v
LinuxBoot.v
GicRedist.v
Metrics.v
