(* ===== verification/Prelude.v ===== *)
(** * A verified model of the Ternvale virtual machine monitor

    Ternvale runs an arm64 guest on Apple's Hypervisor.framework.  A vCPU thread
    runs the guest until it exits; the exit is decoded ([esr.rs]), completed
    against the device that owns the address ([mmio.rs]) or answered as a PSCI
    call ([psci.rs], [smp.rs]).  Devices are virtio devices behind the
    virtio-mmio transport or functions of a PCI root complex, and share guest
    memory with the guest through split virtqueues.  Everything a guest writes
    (registers, config space, rings, descriptors, PSCI arguments) is untrusted:
    the theorems quantify over all of it.

    This library translates that core into executable Rocq definitions and
    proves what makes it correct.  Names follow the Rust source; the crate paths
    below are under [src/].

    ** Files

    - [Prelude]: [Result] and its bind notation, machine integers ([wrap],
      [fits], [checked_add], ...), bit masks, little-endian byte strings, vector
      operations, the hint databases [tern] and [ternrw] and the tactics
      [bitwise] and [zbool].
    - [Windows]: address windows as a class, and the sorted-and-disjoint
      invariant that memory regions, MMIO slots, the platform map and assigned
      BARs share.
    - [GuestMemory]: [ternvale-vmm/src/memory/mod.rs], [error.rs], [host.rs].
      State [Memory] (regions sorted by base, contents per region); operations
      [add_region], [map], [find], [read_bytes], [write_bytes], integer
      accessors, [copy_region], [advise].  The class [ByteMemory] is what devices
      rely on; the region vector is its instance.
    - [Platform]: [platform.rs], the address map and [Layout::validate].
    - [Esr]: [esr.rs], ESR_EL2 decoding, and the second decoder of
      [vcpu/exit.rs].
    - [MmioBus]: [mmio.rs].  The traits [MmioDevice] and [GuestRegs] as classes,
      registration, lookup with the per-thread cache, dispatch of one exit.
    - [VirtioQueue]: [ternvale-devices/src/virtio/queue.rs].  [SplitQueue] over
      any [ByteMemory]; [walk], [walk_indirect], [pop], [chains], [add_used],
      [notification_needed] in a monad with the outcomes value, stop and panic.
    - [VirtioIrq]: [virtio/irq.rs], status bits and level line as a step relation
      of interleaved threads.
    - [VirtioCore]: [virtio.rs], [virtio/core.rs], [core/status.rs],
      [core/queue.rs].  Negotiation, queue registers, notify, reset.
    - [VirtioMmio]: [virtio/mmio.rs] and [notify_hub.rs], the register file and
      the lock-free kick, as an [MmioDevice].
    - [Psci]: [psci.rs], the exception path of [vcpu/exit.rs], [exit_reason].
    - [Smp]: [smp.rs], the CPU power table, and the creation protocol of
      [own_vcpu] in [machine_vcpu.rs].
    - [PciConfig]: [pci/config.rs], [pci/capability.rs], [Bdf] and [PciError].
    - [PciIntx]: [pci/intx.rs], pins and shared lines as a step relation.
    - [PciMsix]: [pci/msix.rs].
    - [PciBus]: [pci.rs] ([PciFunction]), [pci/bus.rs], [pci/root.rs],
      [pci/host_bridge.rs], [pci/identity.rs].
    - [VirtioPci]: [virtio/pci.rs], [pci/common.rs], [pci/caps.rs], the
      virtio-pci transport as a [PciFunction] over [VirtioCore], [ConfigSpace]
      and [Msix], and its hook from the interrupt to the INTx pin.
    - [Flash]: [ternvale-vmm/src/firmware/pflash.rs] (the CFI command machine),
      [vars.rs] (the variable store and its mapping window), [nvram.rs] (its
      file) and the layout checks of [firmware.rs].
    - [FwCfg]: [fw_cfg.rs]; [Rtc]: [rtc.rs]; [Uart]: [uart.rs] and
      [uart/output.rs], each as an [MmioDevice].
    - [AgentProto]: [ternvale-agent-proto/src], messages, version negotiation and
      framing; [AgentServer]: [ternvale-devices/src/agent.rs] and [agent/], the
      host's end of that protocol as steps of its threads.
    - [Snapshot]: [ternvale-snapshot/src/format.rs], [delta.rs], [stack.rs].
    - [Blk]: [virtio/blk/request.rs], [vectored.rs], [backend.rs], [media.rs].
    - [QueueDevice]: what every queue device shares (a buffer list and its bytes
      in guest memory, the loop over the chains of one kick).
    - [Vsock]: [virtio/vsock.rs] and [vsock/]: packet headers, connections with
      credit, the multiplexer, the worker over its three queues, CID leases.
    - [Tpm]: [ternvale-tpm/src]: the CRB register window, locality arbitration,
      commands inline and on the worker thread, the redacted history.
    - [GpuProto]: [ternvale-gpu/src/protocol.rs] (the 2D commands) and [edid.rs];
      [Gpu]: [resource.rs], [scanout.rs], [gpu2d.rs], [worker.rs] and the
      configuration of [device.rs].
    - [Usb]: [ternvale-usb/src]: TRBs, event ring, virtual keyboard and mouse,
      slots and ports, input contexts, in a monad whose state survives errors;
      [Xhci]: command ring, transfers, registers, the passthrough worker and the
      lock order of the threads.
    - [NetPacket]: [ternvale-net/src/user/packet.rs], headers and the Internet
      checksum; [NetPolicy]: [policy.rs] and [parse_cidr] of [ternvale-config];
      [UserNet]: [user.rs] and [user/], the user-mode NAT over host sockets that
      answer anything.
    - [ternvale-acpi/src] in six files: [AcpiSdt] (headers, checksums, root
      tables), [AcpiLeaf] (configuration, the leaf tables and their decoders),
      [AcpiAml] (the AML writer and the DSDT), [AcpiBuild] (layout, writing,
      walking back and [verify]), [AcpiPlatform] ([acpi_check.rs] and [install] of
      [ternvale-vmm]), [AcpiLoader] (the firmware's loader files).
    - [ternvale-virtiofs/src] in three files: [Virtiofs] (the FUSE server: wire
      formats, names, inode and handle tables, every request, over system calls
      answered by a parameter), [VirtiofsSafe] (the share's reference monitor and
      the proof that the server obeys it), [VirtiofsDev] (the queue worker).
    - [QueueWorker]: what the smaller devices share (a queue bound by a
      notification, draining it, chains taken one at a time, scattering).
    - [VirtioNet]: [virtio/net.rs] and [net/], the device, its backends and
      captures; [VirtioNetSafe]: its proofs.
    - [VirtioRng]: [virtio/rng.rs] and [ternvale-hv/src/entropy.rs];
      [VirtioConsole]: [virtio/console.rs] and [console/]; [VirtioBalloon]:
      [virtio/balloon.rs] and [balloon/]; [VirtioSound]: [virtio/sound.rs] and
      [sound/]; [VirtioP9]: [virtio/p9.rs] and [p9/server.rs].
    - [VirtioInput]: [virtio/input.rs] and [input/]; [InputKicks]: the locks of
      [input/sink.rs] as a step function of several threads.
    - [LinuxBoot]: [ternvale-vmm/src/linux.rs]; [GicRedist]:
      [ternvale-vmm/src/gic_redist.rs]; [Metrics]: the crate [ternvale-metrics].

    ** How the model reads

    A [u8]..[u64] is a [Z] with its range stated ([fits w]); [as] casts and
    wrapping operations are [wrap], plain [+] wraps as in release builds,
    [checked_] and [saturating_] operations are themselves.  Fallible code
    returns [result]; code that could panic (an out-of-bounds index) returns a
    value that says so, and a theorem shows it never does.  Mutable objects are
    records passed through; objects shared between threads ([VirtioIrq],
    [IntxPin], [IntxLine], the notify hub, the creation protocol) are step
    relations, one step per critical section or atomic access.  A trait is a
    class over the implementing type, with its laws as a second class where a
    client needs them ([ByteMemory], [PciFunctionLaws]).  Calls into the host
    ([mmap], hypervisor register access, the WFI wait, device back ends) are
    parameters that may fail.  Logging and tracing are left out: they do not
    change state; the counters of [Metrics] are a component of their own.

    ** What the theorems show

    - Memory: an access is classified exactly as inside one region, crossing
      or unmapped; the accessors implement a partial byte map; integers round
      trip.
    - Exits: syndrome fields; lookup with the cache equals a linear search;
      registration keeps windows disjoint and refuses the rest; dispatch
      changes exactly one device and one register, and never indexes out of
      bounds; exception handling moves PC and x0 as PSCI and the exit classes
      require.
    - Virtqueues: the walk returns the chain the rings describe, and breaks the
      queue on every malformed one; draining terminates; completion writes
      exactly one used element and then the index; no guest input makes a queue
      method panic or write outside the used ring.
    - Virtio devices: the status machine only moves in order, features freeze at
      FEATURES_OK, a ready queue's addresses freeze, the interrupt line follows
      the status bits under every interleaving, and the lock-free kick equals
      the locked one for a driver that negotiates before it makes queues ready.
    - SMP: the power table stays consistent under every PSCI call and thread
      event, CPU_ON hands its entry point over exactly once, affinities and
      indices correspond.
    - PCI: guest writes change only writable bits, BAR sizing and programming,
      the capability walk terminates on any bytes and finds what was declared,
      BAR assignment is aligned, disjoint, inside the window and complete when
      the window is large enough, ECAM and BAR accesses reach the right function
      with in-range offsets, shared INTx lines are high iff a pin drives them.

    - Transports: virtio-pci keeps its invariant under every configuration and
      BAR access, drives the same core as virtio-mmio does for the same driver
      program, and its configuration access window is the BAR.
    - Flash and firmware devices: what is programmed survives a restart, the
      mapped window always shows the array, files offered through fw_cfg are read
      back exactly, a clock alarm latches at its second and not before and stays
      until it is cleared, and the UART's FIFO is bounded, its line follows its
      status and its output reaches both sinks.
    - Storage: a request touches only its own buffers and sectors; written data
      is read back by any later request, whatever buffers, however short the host's
      transfers and whatever other requests that leave its sectors alone come in
      between; the layered image reads the newest layer and writes only the range
      asked.
    - vsock: bytes reach the other end once and in order within the credit each
      side granted, the connection table stays well formed under every packet and
      host event, the worker writes only into buffers the driver offered, and a
      pending packet is delivered.
    - TPM: the CRB keeps its invariant under every access, running the backend on
      the worker thread is indistinguishable from running it inline once polled,
      locality requests follow the arbitration table, and the history never holds
      bytes of a command that is not public.
    - GPU: every command keeps the processor's invariant (memory budget, rectangles
      inside their resource, frames of the mode's size), a flush shows exactly the
      bytes the guest's backing held at the transfer, and the worker touches only
      the driver's writable buffers.
    - USB: no guest access, host report or device answer breaks the controller;
      the queued commands are executed in order, the input contexts they name
      included, and one completion for each stands in the next entries of the event
      ring, with the controller's cycle bit.
    - Network: packets built are parsed back and their checksums verify; the
      policy engine lets out exactly what the documented rules permit and two
      exceptions, datagrams to a DHCP port and datagrams from 0.0.0.0; whatever the
      guest sends and the host's sockets answer, the NAT's queue and table stay
      bounded and every frame the guest gets is well formed; the data of in-order
      TCP segments reaches the host in order and is what is acknowledged.  The
      virtio-net worker takes every frame from its transmit chain to the backend and
      from the backend into a receive chain's buffers once and in order, and its
      counters and capture are the account of them.
    - ACPI: every table decodes to what it was built from; a boot installs its
      tables exactly for the CPU counts the platform has room for, finds them again
      from the root pointer byte for byte, and changes nothing else in guest
      memory; the loader script, run as the repository's own [edk2_install] runs it
      ([AcpiLoader.edk2_pass1]), gives the same tables at any addresses with room.
    - Shared directories: whatever the guest sends, every system call of the
      virtio-fs server is one the share's monitor accepts (descriptors seen under
      the root, single-component names, no link followed, nothing written on a
      read-only share), no descriptor is lost or used after its close, and a
      directory read in pages shows every entry once if every request lists it the
      same, and is cut after a page if the listings share their offset.
    - Agent: framing stays in step with the stream under partial reads, time-outs
      and bad frames; the server's books agree with its connections under every
      interleaving of accepting, spawning, session and calling threads.

    - Boot: a Linux image is refused with nothing changed, or is in guest memory
      byte for byte at the lowest layout the boot protocol allows, with the boot
      registers set; after bring-up a CPU's walk over the redistributor frames ends
      at its own.
    - Metrics: a percentile brackets the sample of its rank whatever the threads'
      interleaving; concurrent registrations of a name agree on its cell; every
      policy drop is counted under its rule.
    - Small devices: the input device writes the accepted events, in order, into
      the guest's buffers, the keys it holds are those the guest will see down, and
      a release is never dropped; the host pages the balloon has marked reusable are
      those fully inflated or reported free, failed calls aside, and its target
      leaves the guest its floor and what it uses; the console's socket is open only while the port is; the entropy
      and sound devices write only the buffers offered; the 9p server's replies
      are framed and its host paths stay under the export.

    Lemmas record behaviour that differs from what the code means to do: the USB
    passthrough worker takes its two locks in the opposite order of the vCPUs,
    completions batched before one notification check can lose an interrupt, a
    delta layer written out of order returns the wrong blocks, a retransmitted TCP
    segment is written twice, datagrams the parser refuses and datagrams from
    0.0.0.0 pass the policy, a directory listed through a shared offset is cut, the
    first events of a new USB controller carry a cycle bit the guest does not
    expect, a failed clipboard request blocks later ones, a guest's chmod sets the mode to
    its group, an input kick can be left to a thread that no longer looks, the
    balloon's policy changes its target silently, short sound and 9p requests
    panic their workers, an unowned redistributor frame answers as CPU 0, a
    histogram read while it is written can report the largest integer.

    ** Fuel and bounds

    Loops over guest data are structural where the source bounds them (the
    descriptor walk runs at most the queue size, the indirect walk at most the
    table length).  [VirtioQueue.chains] takes fuel for the iterator, and the
    16-bit distance to the published available index is enough; [PciConfig.cap_walk] takes 64,
    and 48 distinct pointers exist; [Smp.find_index] runs over the CPU count.
    The INTx count needs fewer than 2^32 - 1 pins; a bus has 32.  [Blk.vectored]
    runs once per chunk of 64 buffers and [Blk.transfer] once per system call,
    with one more than the bytes wanted as fuel, which suffices while the host
    makes progress; the frame readers take the number of read events, and the
    stack's loops one step per byte at most.  The queue workers drain with
    fuel 2^16, the most chains a 16-bit index can publish; [Vsock]'s
    free-port search takes the number of connections plus one, and its theorems
    hold for every number of receive rounds.  The checksum's carry loop takes 3
    rounds, enough for 32 bits; option searches take the length of the packet.  The
    readers of ACPI tables take the length of the table.  The virtio-fs theorems
    ask for fewer than 2^63 system calls, so that no 64-bit id wraps.  Loops that
    take a chain, write into guest memory and take the next ([QueueWorker.pop_loop],
    [VirtioNet.deliver_loop]) take fuel, say whether they ended by themselves or
    how many chains they took, and their theorems hold for every fuel; taking the
    transmit chains needs no more than 2^16 ([VirtioNetSafe.net_chains_end]).  The
    command ring of [Xhci] runs 32 TRBs per doorbell, as the source does.  A registration takes two steps per
    cell and two more ([Metrics.register_returns]), the redistributor walk one per
    frame.

    ** Not modelled, and the plan

    Not modelled: device back ends that are host I/O (sockets, audio, display,
    USB capture), the hypervisor bindings, logging, the command line, and the run
    loop that waits on the host.  Candidates for later: the device tree, whose
    writer is a third-party package; the blk worker pool; profile validation. *)

From Stdlib Require Export ZArith Lia.
From stdpp Require Export base list gmap numbers option.

#[export] Set Default Goal Selector "!".
Global Open Scope Z_scope.

(** ** Results *)

(** [Result<A, E>] with the error type first, so that [result E] is the type
    constructor the bind notation [x ← c; k] (Rust's [?]) works over. *)
Inductive result (E A : Type) : Type :=
| Ok (a : A)
| Err (e : E).
Arguments Ok {E A} _.
Arguments Err {E A} _.

#[export] Instance result_ret E : MRet (result E) := fun _ a => Ok a.
#[export] Instance result_bind E : MBind (result E) := fun _ _ k c =>
  match c with Ok a => k a | Err e => Err e end.
#[export] Instance result_fmap E : FMap (result E) := fun _ _ f c =>
  match c with Ok a => Ok (f a) | Err e => Err e end.

(** [Result::is_ok]. *)
Definition is_ok {E A} (r : result E A) : bool :=
  match r with Ok _ => true | Err _ => false end.

(** [Option::ok_or]. *)
Definition ok_or {E A} (o : option A) (e : E) : result E A :=
  match o with Some a => Ok a | None => Err e end.

Lemma bind_Ok {E A B} (c : result E A) (k : A -> result E B) b :
  (c ≫= k) = Ok b <-> exists a, c = Ok a /\ k a = Ok b.
Proof. destruct c; simpl; naive_solver. Qed.

(** ** Machine integers

    A [w]-bit unsigned integer is a [Z] in [0, 2^w); [wrap w] is the
    wrap-around of release builds (and of the [wrapping_*] methods and the
    [as] casts). *)

Definition wrap (w x : Z) : Z := x mod 2 ^ w.
Definition fits (w x : Z) : Prop := 0 <= x < 2 ^ w.

#[export] Instance fits_dec w x : Decision (fits w x).
Proof. unfold fits. apply _. Defined.

(** [checked_add], [saturating_add] and the plain [+] of an unsigned type. *)
Definition checked_add (w a b : Z) : option Z :=
  if a + b <? 2 ^ w then Some (a + b) else None.
Definition saturating_add (w a b : Z) : Z := Z.min (a + b) (2 ^ w - 1).
Definition add_w (w a b : Z) : Z := wrap w (a + b).
Definition wrapping_sub (w a b : Z) : Z := wrap w (a - b).

(** [is_power_of_two]: exactly one bit set. *)
Definition is_power_of_two (x : Z) : bool := (0 <? x) && (x =? 2 ^ Z.log2 x).

(** [!x] of a [w]-bit value. *)
Definition not_w (w x : Z) : Z := 2 ^ w - 1 - x.

Lemma wrap_fits w x : 0 <= w -> fits w (wrap w x).
Proof. intros. apply Z.mod_pos_bound, Z.pow_pos_nonneg; lia. Qed.

Lemma wrap_small w x : fits w x -> wrap w x = x.
Proof. intros. by apply Z.mod_small. Qed.

Lemma fits_weaken w w' x : w <= w' -> fits w x -> fits w' x.
Proof.
  intros Hw [H1 H2]. split; [done|]. eapply Z.lt_le_trans; [done|].
  destruct (decide (0 <= w)); [apply Z.pow_le_mono_r; lia|rewrite Z.pow_neg_r in H2; lia].
Qed.

Lemma checked_add_Some w a b c :
  checked_add w a b = Some c <-> c = a + b /\ a + b < 2 ^ w.
Proof. unfold checked_add. destruct (Z.ltb_spec (a + b) (2 ^ w)); naive_solver lia. Qed.

Lemma checked_add_None w a b :
  checked_add w a b = None <-> 2 ^ w <= a + b.
Proof. unfold checked_add. destruct (Z.ltb_spec (a + b) (2 ^ w)); naive_solver lia. Qed.

Lemma is_power_of_two_spec x :
  is_power_of_two x = true <-> exists k, 0 <= k /\ x = 2 ^ k.
Proof.
  unfold is_power_of_two. split.
  - intros [Hpos Heq]%andb_true_iff. exists (Z.log2 x).
    split; [apply Z.log2_nonneg | lia].
  - intros (k & Hk & ->). rewrite Z.log2_pow2, Z.eqb_refl by done.
    pose proof (Z.pow_pos_nonneg 2 k). lia.
Qed.

(** *** Masks and shifts *)

Lemma land_low x k m : 0 <= k -> m = Z.ones k -> Z.land x m = x mod 2 ^ k.
Proof. intros Hk ->. by apply Z.land_ones. Qed.

Lemma land_low_bound x k m :
  0 <= k -> m = Z.ones k -> 0 <= Z.land x m < 2 ^ k.
Proof.
  intros Hk Hm. rewrite (land_low x k m) by done.
  apply Z.mod_pos_bound, Z.pow_pos_nonneg; lia.
Qed.

Lemma testbit_high x w i : 0 <= x < 2 ^ w -> w <= i -> Z.testbit x i = false.
Proof.
  intros Hx Hi. destruct (decide (x = 0)) as [->|]; [apply Z.testbit_0_l|].
  apply Z.bits_above_log2; [lia|].
  assert (0 <= w) by (destruct (decide (0 <= w)); [done|rewrite Z.pow_neg_r in Hx; lia]).
  destruct Hx as [? Hx]. apply Z.log2_lt_pow2 in Hx; lia.
Qed.

Lemma log2_fits w a : 0 < w -> fits w a -> Z.log2 a < w.
Proof.
  intros Hw [? Ha]. destruct (decide (a = 0)) as [->|]; [done|].
  apply Z.log2_lt_pow2; lia.
Qed.

Lemma lor_fits w a b : 0 <= w -> fits w a -> fits w b -> fits w (Z.lor a b).
Proof.
  intros Hw Ha Hb. destruct (decide (w = 0)) as [->|].
  { unfold fits in *. replace a with 0 by lia. replace b with 0 by lia. done. }
  assert (0 <= Z.lor a b) by (apply Z.lor_nonneg; unfold fits in *; lia).
  split; [done|]. destruct (decide (Z.lor a b = 0)) as [->|];
    [apply Z.pow_pos_nonneg; lia|].
  apply Z.log2_lt_pow2; [lia|]. rewrite Z.log2_lor by (unfold fits in *; lia).
  apply Z.max_lub_lt; apply log2_fits; auto; lia.
Qed.

Lemma land_fits_l w a b : fits w a -> 0 <= b -> fits w (Z.land a b).
Proof.
  intros [Ha1 Ha2] Hb. split; [apply Z.land_nonneg; lia|].
  destruct (decide (a = 0)) as [->|]; [rewrite Z.land_0_l; lia|].
  destruct (decide (Z.land a b = 0)) as [->|]; [lia|].
  assert (0 <= Z.land a b) by (apply Z.land_nonneg; lia).
  assert (0 < w) by (destruct (decide (0 < w)); [done|];
    destruct (decide (w = 0)) as [->|]; [lia|rewrite Z.pow_neg_r in Ha2; lia]).
  apply Z.log2_lt_pow2; [lia|].
  pose proof (Z.log2_land a b). apply Z.log2_lt_pow2 in Ha2; lia.
Qed.

Lemma not_w_ldiff w x : fits w x -> not_w w x = Z.ldiff (Z.ones w) x.
Proof.
  intros [Hx1 Hx2]. assert (0 <= w) by (destruct (decide (0 <= w)); [done|rewrite Z.pow_neg_r in Hx2; lia]).
  unfold not_w. replace (2 ^ w - 1) with (Z.ones w) by (rewrite Z.ones_equiv; lia).
  apply Z.sub_nocarry_ldiff. apply Z.bits_inj'. intros i Hi.
  rewrite Z.ldiff_spec, Z.bits_0. destruct (decide (i < w)).
  - rewrite Z.ones_spec_low by lia. apply andb_false_r.
  - by rewrite (testbit_high x w) by lia.
Qed.

(** [!x] flips the bits below [w]. *)
Lemma not_w_testbit w x i :
  fits w x -> 0 <= i -> Z.testbit (not_w w x) i = (i <? w) && negb (Z.testbit x i).
Proof.
  intros Hx Hi. rewrite not_w_ldiff by done. rewrite Z.ldiff_spec.
  assert (0 <= w) by (destruct Hx as [? Hx2]; destruct (decide (0 <= w)); [done|rewrite Z.pow_neg_r in Hx2; lia]).
  destruct (Z.ltb_spec i w); [by rewrite Z.ones_spec_low by lia|by rewrite Z.ones_spec_high by lia].
Qed.

Lemma not_w_fits w x : fits w x -> fits w (not_w w x).
Proof. unfold fits, not_w. lia. Qed.

(** Masking to [w] bits clears exactly the bits of a complement. *)
Lemma land_not_w_zero w a x :
  fits w a -> fits w x ->
  Z.land a (not_w w x) = 0 <-> forall i, 0 <= i -> Z.testbit a i = true -> Z.testbit x i = true.
Proof.
  intros Ha Hx. split.
  - intros H i Hi Hb. apply (f_equal (fun z => Z.testbit z i)) in H. cbv beta in H.
    rewrite Z.land_spec, Z.bits_0, Hb, not_w_testbit in H by done.
    destruct (Z.ltb_spec i w); [by destruct (Z.testbit x i)|].
    by rewrite (testbit_high a w) in Hb by done.
  - intros H. apply Z.bits_inj'. intros i Hi. rewrite Z.land_spec, Z.bits_0, not_w_testbit by done.
    specialize (H i Hi). destruct (Z.testbit a i); [|done]. by rewrite H, andb_false_r.
Qed.

(** Joining a high part and a low part of [n] bits. *)
Lemma lor_shiftl_add a n v : 0 <= n -> 0 <= v < 2 ^ n -> Z.lor (Z.shiftl a n) v = a * 2 ^ n + v.
Proof.
  intros Hn Hv. rewrite <- Z.shiftl_mul_pow2 by done. symmetry. apply Z.add_nocarry_lor.
  apply Z.bits_inj'. intros i Hi. rewrite Z.land_spec, Z.bits_0.
  destruct (decide (i < n)); [by rewrite Z.shiftl_spec_low by lia|].
  by rewrite (testbit_high v n), andb_false_r by lia.
Qed.

(** Clearing the low half of a double word. *)
Lemma land_high_half n a m :
  0 <= n -> fits (2 * n) a -> m = Z.shiftl (Z.ones n) n ->
  Z.land a m = Z.shiftl (a / 2 ^ n) n.
Proof.
  intros Hn Ha ->. apply Z.bits_inj'. intros i Hi.
  rewrite Z.land_spec, !Z.shiftl_spec by done. rewrite <- Z.shiftr_div_pow2 by done.
  destruct (decide (i < n)); [rewrite !(Z.testbit_neg_r _ (i - n)) by lia; by rewrite andb_false_r|].
  rewrite Z.shiftr_spec by lia. replace (i - n + n) with i by lia.
  destruct (decide (i - n < n)); [rewrite Z.ones_spec_low by lia; apply andb_true_r|].
  rewrite Z.ones_spec_high by lia. by rewrite (testbit_high a (2 * n)) by (done || lia).
Qed.

(** Bitwise equality: case on the index ranges, then decide by [testbit]. *)
Ltac bitwise :=
  apply Z.bits_inj'; intros ?i ?Hi;
  repeat first [ rewrite Z.land_spec | rewrite Z.lor_spec | rewrite Z.ldiff_spec
               | rewrite Z.lnot_spec by lia | rewrite Z.shiftl_spec by lia
               | rewrite Z.shiftr_spec by lia | rewrite Z.testbit_0_l ].

(** ** Little-endian byte strings ([to_le_bytes], [from_le_bytes]) *)

Fixpoint le_bytes (n : nat) (v : Z) : list Z :=
  match n with
  | O => []
  | S n' => v mod 256 :: le_bytes n' (v / 256)
  end.

Fixpoint of_le (bs : list Z) : Z :=
  match bs with
  | [] => 0
  | b :: bs' => b + 256 * of_le bs'
  end.

Lemma length_le_bytes n v : length (le_bytes n v) = n.
Proof. revert v. induction n as [|n IH]; intros v; simpl; [done|]. by rewrite IH. Qed.

Lemma le_bytes_fits n v : Forall (fits 8) (le_bytes n v).
Proof.
  revert v. induction n as [|n IH]; intros v; simpl; constructor; [|done].
  by apply Z.mod_pos_bound.
Qed.

Lemma of_le_le_bytes n v : of_le (le_bytes n v) = v mod 256 ^ Z.of_nat n.
Proof.
  revert v. induction n as [|n IH]; intros v; cbn [of_le le_bytes].
  - by rewrite Z.mod_1_r.
  - rewrite IH. replace (Z.of_nat (S n)) with (1 + Z.of_nat n) by lia.
    rewrite Z.pow_add_r, Z.pow_1_r by lia.
    rewrite Z.rem_mul_r by (try apply Z.pow_nonzero; lia). done.
Qed.

Lemma of_le_bound bs : Forall (fits 8) bs -> 0 <= of_le bs < 256 ^ Z.of_nat (length bs).
Proof.
  induction 1 as [|b bs Hb _ IH]; cbn [of_le length]; [done|].
  replace (Z.of_nat (S (length bs))) with (1 + Z.of_nat (length bs)) by lia.
  rewrite Z.pow_add_r, Z.pow_1_r by lia. unfold fits in Hb. lia.
Qed.

Lemma le_bytes_of_le bs : Forall (fits 8) bs -> le_bytes (length bs) (of_le bs) = bs.
Proof.
  induction 1 as [|b bs Hb _ IH]; cbn [of_le length le_bytes]; [done|].
  rewrite Z.add_comm, Z.mul_comm, Z.div_add_l, Z.div_small, Z.add_0_r by (unfold fits in Hb; lia).
  rewrite Z.add_comm, Z.mod_add, Z.mod_small by (unfold fits in Hb; lia).
  by rewrite IH.
Qed.

Lemma of_le_le_bytes_fits n v :
  fits (8 * Z.of_nat n) v -> of_le (le_bytes n v) = v.
Proof.
  intros [Hv1 Hv2]. rewrite of_le_le_bytes. apply Z.mod_small.
  change 256 with (2 ^ 8). rewrite <- Z.pow_mul_r by lia. lia.
Qed.

(** Big-endian byte strings ([to_be_bytes], [from_be_bytes]). *)
Definition be_bytes (n : nat) (v : Z) : list Z := reverse (le_bytes n v).
Definition of_be (bs : list Z) : Z := of_le (reverse bs).

Lemma of_be_be_bytes n v : fits (8 * Z.of_nat n) v -> of_be (be_bytes n v) = v.
Proof. intros. unfold of_be, be_bytes. rewrite reverse_involutive. by apply of_le_le_bytes_fits. Qed.

Lemma length_be_bytes n v : length (be_bytes n v) = n.
Proof. unfold be_bytes. by rewrite length_reverse, length_le_bytes. Qed.

Lemma be_bytes_fits n v : Forall (fits 8) (be_bytes n v).
Proof. unfold be_bytes. apply Forall_reverse, le_bytes_fits. Qed.

(** Bit [8 * j + b] of a little-endian string is bit [b] of byte [j]. *)
Lemma of_le_testbit bs (j : nat) b :
  Forall (fits 8) bs -> 0 <= b < 8 ->
  Z.testbit (of_le bs) (8 * Z.of_nat j + b) = Z.testbit (default 0 (bs !! j)) b.
Proof.
  intros Hbs Hb. revert j. induction Hbs as [|x bs Hx _ IH]; intros j; cbn [of_le].
  - rewrite lookup_nil. simpl. by rewrite !Z.testbit_0_l.
  - rewrite Z.add_comm, Z.mul_comm. change 256 with (2 ^ 8) at 1.
    rewrite <- lor_shiftl_add by (unfold fits in Hx; lia).
    rewrite Z.lor_spec, Z.shiftl_spec by lia. destruct j as [|j]; cbn [lookup list_lookup default].
    + rewrite Z.testbit_neg_r by lia. by replace (8 * Z.of_nat 0 + b) with b by lia.
    + rewrite (testbit_high x 8), orb_false_r by (unfold fits in Hx; lia).
      rewrite <- IH. f_equal. lia.
Qed.

Lemma le_bytes_testbit n v (j : nat) b :
  (j < n)%nat -> 0 <= b < 8 ->
  Z.testbit (default 0 (le_bytes n v !! j)) b = Z.testbit v (8 * Z.of_nat j + b).
Proof.
  intros Hj Hb. revert v j Hj. induction n as [|n IH]; intros v j Hj; [lia|].
  cbn [le_bytes]. destruct j as [|j]; cbn [lookup list_lookup default].
  - change (Z.testbit (v mod 2 ^ 8) b = Z.testbit v (8 * Z.of_nat 0 + b)).
    rewrite Z.mod_pow2_bits_low by lia. by replace (8 * Z.of_nat 0 + b) with b by lia.
  - etransitivity; [apply (IH (v / 256) j); lia|]. change 256 with (2 ^ 8).
    rewrite Z.div_pow2_bits by lia. f_equal. lia.
Qed.

(** Two bytes are equal when their eight bits are. *)
Lemma byte_ext a b :
  fits 8 a -> fits 8 b -> (forall i, 0 <= i < 8 -> Z.testbit a i = Z.testbit b i) -> a = b.
Proof.
  intros Ha Hb H. apply Z.bits_inj'. intros i Hi. destruct (decide (i < 8)); [apply H; lia|].
  by rewrite !(testbit_high _ 8) by (done || lia).
Qed.

(** ** Vectors *)

(** [slice::partition_point]: the length of the prefix satisfying [p], which
    is what the standard library documents for a partitioned slice. *)
Fixpoint partition_point {A} (p : A -> bool) (l : list A) : nat :=
  match l with
  | [] => 0
  | x :: l' => if p x then S (partition_point p l') else 0
  end.

(** [Vec::insert]. *)
Definition insert_at {A} (i : nat) (x : A) (l : list A) : list A :=
  take i l ++ x :: drop i l.

(** [Iterator::position] (first index satisfying [p]). *)
Fixpoint position {A} (p : A -> bool) (l : list A) : option nat :=
  match l with
  | [] => None
  | x :: l' => if p x then Some 0%nat else S <$> position p l'
  end.

(** [Iterator::find_map]. *)
Fixpoint find_map {A B} (f : A -> option B) (l : list A) : option B :=
  match l with
  | [] => None
  | x :: l' => match f x with Some b => Some b | None => find_map f l' end
  end.

(** Index a vector with an unsigned machine integer ([get(i as usize)]). *)
Definition get {A} (l : list A) (i : Z) : option A :=
  if i <? 0 then None else l !! Z.to_nat i.
(** [get_mut] followed by an update of the slot. *)
Definition update_at {A} (l : list A) (i : Z) (f : A -> A) : list A :=
  if i <? 0 then l else alter f (Z.to_nat i) l.

(** [&l[at..at + n]] and [l[at..].copy_from_slice(new)]; [None] is the panic of
    a range that is out of bounds. *)
Definition slice {A} (l : list A) (at_ n : nat) : option (list A) :=
  if bool_decide (at_ + n <= length l)%nat then Some (take n (drop at_ l)) else None.
Definition put_slice {A} (l : list A) (at_ : nat) (new : list A) : option (list A) :=
  if bool_decide (at_ + length new <= length l)%nat
  then Some (take at_ l ++ new ++ drop (at_ + length new) l) else None.

(** An [n]-byte little-endian field of a slice. *)
Definition le_at (n : nat) (bs : list Z) (at_ : nat) : option Z := of_le <$> slice bs at_ n.

Lemma slice_Some {A} (l : list A) i n : (i + n <= length l)%nat -> slice l i n = Some (take n (drop i l)).
Proof. intros Hl. unfold slice. by rewrite bool_decide_true. Qed.

Lemma slice_prefix {A} (l : list A) n : (n <= length l)%nat -> slice l 0 n = Some (take n l).
Proof. intros Hl. by rewrite slice_Some. Qed.

Lemma le_at_Some n bs i :
  (i + n <= length bs)%nat -> Forall (fits 8) bs ->
  exists v, le_at n bs i = Some v /\ fits (8 * Z.of_nat n) v.
Proof.
  intros Hl Hf. unfold le_at. rewrite slice_Some by done. eexists. split; [reflexivity|].
  pose proof (of_le_bound (take n (drop i bs)) ltac:(by apply Forall_take, Forall_drop)) as Hb.
  rewrite length_take, length_drop, Nat.min_l in Hb by lia. unfold fits.
  change 256 with (2 ^ 8) in Hb. by rewrite <- Z.pow_mul_r in Hb by lia.
Qed.

Lemma put_slice_Some {A} (l new : list A) i :
  (i + length new <= length l)%nat ->
  put_slice l i new = Some (take i l ++ new ++ drop (i + length new) l).
Proof. intros Hl. unfold put_slice. by rewrite bool_decide_true. Qed.

Lemma put_slice_length {A} (l new l' : list A) i : put_slice l i new = Some l' -> length l' = length l.
Proof.
  unfold put_slice. case_bool_decide; [|done]. intros [= <-].
  rewrite !length_app, length_take, length_drop. lia.
Qed.

Lemma put_slice_lookup {A} (l new l' : list A) i k :
  put_slice l i new = Some l' ->
  l' !! k = if decide (i <= k < i + length new)%nat then new !! (k - i)%nat else l !! k.
Proof.
  unfold put_slice. case_bool_decide as Hb; [|done]. intros [= <-].
  assert (length (take i l) = i) as Hi by (rewrite length_take; lia).
  case_decide as Hk.
  - rewrite lookup_app_r, Hi by lia. by rewrite lookup_app_l by lia.
  - destruct (decide (k < i)%nat).
    + rewrite lookup_app_l by lia. by rewrite lookup_take_lt by lia.
    + rewrite lookup_app_r, Hi by lia. rewrite lookup_app_r by lia. rewrite lookup_drop. f_equal. lia.
Qed.

Lemma position_Some {A} (p : A -> bool) l i :
  position p l = Some i ->
  exists x, l !! i = Some x /\ p x = true /\
    forall j y, (j < i)%nat -> l !! j = Some y -> p y = false.
Proof.
  revert i. induction l as [|x l IH]; intros i; simpl; [done|].
  destruct (p x) eqn:Hp.
  - intros [= <-]. exists x. split_and!; [done..|]. intros; lia.
  - destruct (position p l) as [k|]; simpl; [|done]. intros [= <-].
    destruct (IH k eq_refl) as (y & Hy & Hpy & Hlt). exists y. split_and!; [done..|].
    intros [|j] z Hj; simpl; [congruence|]. apply Hlt. lia.
Qed.

Lemma position_None {A} (p : A -> bool) l :
  position p l = None <-> Forall (fun x => p x = false) l.
Proof.
  induction l as [|x l IH]; simpl; [done|]. rewrite Forall_cons_iff.
  destruct (p x), (position p l); simpl; naive_solver.
Qed.

Lemma find_map_Some_lookup {A B} (f : A -> option B) l b :
  find_map f l = Some b -> exists i x, l !! i = Some x /\ f x = Some b.
Proof.
  induction l as [|x l IH]; simpl; [done|]. destruct (f x) eqn:Hf.
  - intros [= ->]. by exists 0%nat, x.
  - intros (i & y & Hy & Hfy)%IH. by exists (S i), y.
Qed.

Lemma find_map_None {A B} (f : A -> option B) l :
  find_map f l = None <-> Forall (fun x => f x = None) l.
Proof.
  induction l as [|x l IH]; simpl; [done|]. rewrite Forall_cons_iff.
  destruct (f x); naive_solver.
Qed.

Lemma find_map_app {A B} (f : A -> option B) l1 l2 :
  find_map f (l1 ++ l2) = match find_map f l1 with Some b => Some b | None => find_map f l2 end.
Proof. induction l1 as [|x l1 IH]; simpl; [done|]. by destruct (f x). Qed.

Lemma find_map_insert_at {A B} (f : A -> option B) i x l :
  f x = None -> find_map f (insert_at i x l) = find_map f l.
Proof.
  intros Hx. unfold insert_at. rewrite <- (take_drop i l) at 3.
  rewrite !find_map_app. simpl. by rewrite Hx.
Qed.

Lemma insert_at_cons {A} (p : A -> bool) (x y : A) l :
  insert_at (partition_point p (y :: l)) x (y :: l) =
  if p y then y :: insert_at (partition_point p l) x l else x :: y :: l.
Proof. simpl. by destruct (p y). Qed.

Lemma get_lookup {A} (l : list A) i : 0 <= i -> get l i = l !! Z.to_nat i.
Proof. unfold get. intros. by destruct (Z.ltb_spec i 0); [lia|]. Qed.

Lemma get_Some_range {A} (l : list A) i x :
  get l i = Some x -> 0 <= i < Z.of_nat (length l).
Proof.
  unfold get. destruct (Z.ltb_spec i 0); [done|].
  intros Hl%lookup_lt_Some. lia.
Qed.

Lemma get_update_at {A} (l : list A) i j f :
  get (update_at l i f) j = if decide (i = j) then f <$> get l j else get l j.
Proof.
  unfold get, update_at. destruct (Z.ltb_spec j 0), (Z.ltb_spec i 0);
    destruct (decide (i = j)) as [->|Hne]; try done; try lia.
  - apply list_lookup_alter_eq.
  - apply list_lookup_alter_ne. lia.
Qed.

Lemma length_update_at {A} (l : list A) i f : length (update_at l i f) = length l.
Proof. unfold update_at. destruct (i <? 0); [done|]. apply length_alter. Qed.

(** ** Automation *)

Create HintDb tern.
#[export] Hint Resolve wrap_fits lor_fits land_fits_l le_bytes_fits : tern.
#[export] Hint Resolve Z.log2_nonneg : tern.
Create Rewrite HintDb ternrw.
#[export] Hint Rewrite @length_update_at @length_le_bytes @length_insert @length_inserts : ternrw.

(** Split every boolean comparison the goal or a hypothesis branches on. *)
Ltac zbool :=
  repeat match goal with
  | |- context [?a <? ?b] => destruct (Z.ltb_spec a b)
  | |- context [?a <=? ?b] => destruct (Z.leb_spec a b)
  | |- context [?a =? ?b] => destruct (Z.eqb_spec a b)
  | H : context [?a <? ?b] |- _ => destruct (Z.ltb_spec a b)
  | H : context [?a <=? ?b] |- _ => destruct (Z.leb_spec a b)
  | H : context [?a =? ?b] |- _ => destruct (Z.eqb_spec a b)
  end.

(** [fits] of a closed number. *)
Ltac fits_closed := unfold fits; vm_compute; split; [discriminate|reflexivity].

Definition all_bytes (l : list Z) : bool := forallb (fun b => (0 <=? b) && (b <? 256)) l.

Lemma zeros_fit n : Forall (fits 8) (replicate n 0).
Proof. by apply Forall_replicate. Qed.

(** The bytes of a constant table, checked by evaluation. *)
Lemma all_bytes_fits l : all_bytes l = true -> Forall (fits 8) l.
Proof.
  unfold all_bytes. rewrite forallb_forall. intros H. apply list.Forall_forall. intros b Hb%list_elem_of_In. apply H in Hb.
  unfold fits. lia.
Qed.

(** ** UTF-8 ([core::str::from_utf8]) *)

Definition in_range (lo hi b : Z) : bool := (lo <=? b) && (b <=? hi).

(** Well-formed byte sequences (Unicode, table 3-7). *)
Fixpoint utf8_valid (l : list Z) : bool :=
  match l with
  | [] => true
  | a :: l =>
      if in_range 0 0x7f a then utf8_valid l
      else if in_range 0xc2 0xdf a then match l with b :: l => in_range 0x80 0xbf b && utf8_valid l | _ => false end
      else if in_range 0xe0 0xef a then
        match l with
        | b :: c :: l =>
            in_range (if a =? 0xe0 then 0xa0 else 0x80) (if a =? 0xed then 0x9f else 0xbf) b && in_range 0x80 0xbf c && utf8_valid l
        | _ => false
        end
      else if in_range 0xf0 0xf4 a then
        match l with
        | b :: c :: d :: l =>
            in_range (if a =? 0xf0 then 0x90 else 0x80) (if a =? 0xf4 then 0x8f else 0xbf) b
            && in_range 0x80 0xbf c && in_range 0x80 0xbf d && utf8_valid l
        | _ => false
        end
      else false
  end.

Lemma utf8_ascii l : Forall (fits 7) l -> utf8_valid l = true.
Proof.
  induction 1 as [|b l Hb _ IH]; [done|]. cbn [utf8_valid]. unfold in_range at 1. unfold fits in Hb.
  destruct (Z.leb_spec 0 b); [|lia]. by destruct (Z.leb_spec b 127); [|lia].
Qed.
