(* ===== verification/Windows.v ===== *)
(** * Address windows

    Guest-physical ranges appear three times in the program: RAM regions
    ([memory/mod.rs]), MMIO device windows ([mmio.rs]) and the platform map
    ([platform.rs]).  Each keeps a vector of [(base, size)] windows sorted by
    base and pairwise disjoint.  This file states that invariant once, over any
    type with a [Window] instance, with the facts the components share:
    sorted insertion keeps it, a byte lies in at most one window, and the
    binary-search lookup agrees with a linear scan. *)

From S2P Require Import Prelude.

Class Window (A : Type) := { w_base : A -> Z; w_size : A -> Z }.

Section windows.
Context {A : Type} `{!Window A}.
Implicit Types (x y : A) (l : list A).

Definition w_end x : Z := w_base x + w_size x.

(** One window is well formed: non-empty and inside the 64-bit space. *)
Definition valid x : Prop := 0 <= w_base x /\ 0 < w_size x /\ w_end x < 2 ^ 64.

#[export] Instance valid_dec x : Decision (valid x).
Proof. unfold valid. apply _. Defined.

(** Windows in ascending order, none reaching into a later one. *)
Fixpoint separated l : Prop :=
  match l with
  | [] => True
  | x :: l' => Forall (fun y => w_end x <= w_base y) l' /\ separated l'
  end.

Definition sorted_windows l : Prop := Forall valid l /\ separated l.

#[export] Instance separated_dec l : Decision (separated l).
Proof. induction l as [|x l IH]; simpl; apply _. Defined.

#[export] Instance sorted_windows_dec l : Decision (sorted_windows l).
Proof. unfold sorted_windows. apply _. Defined.

(** [b, e) shares a byte with window [x]. *)
Definition overlaps (b e : Z) x : bool := (b <? w_end x) && (w_base x <? e).

(** [b, e) lies inside window [x]. *)
Definition contains (b e : Z) x : bool := (w_base x <=? b) && (e <=? w_end x).

Lemma overlaps_true b e x : overlaps b e x = true <-> b < w_end x /\ w_base x < e.
Proof. unfold overlaps. rewrite andb_true_iff. lia. Qed.

Lemma overlaps_false b e x : overlaps b e x = false <-> w_end x <= b \/ e <= w_base x.
Proof. unfold overlaps. rewrite andb_false_iff. lia. Qed.

Lemma contains_true b e x : contains b e x = true <-> w_base x <= b /\ e <= w_end x.
Proof. unfold contains. rewrite andb_true_iff. lia. Qed.

Lemma separated_lookup l i j x y :
  separated l -> (i < j)%nat -> l !! i = Some x -> l !! j = Some y ->
  w_end x <= w_base y.
Proof.
  revert i j. induction l as [|z l IH]; intros [|i] [|j]; simpl; try lia; try done.
  - intros [Hall _] _ [= ->] Hy. by eapply Forall_lookup_1 in Hall.
  - intros [_ Hsep] Hij. apply (IH i j); [done|lia].
Qed.

Lemma sorted_valid l i x : sorted_windows l -> l !! i = Some x -> valid x.
Proof. intros [Hv _] Hx. by eapply Forall_lookup_1 in Hv. Qed.

(** A byte belongs to at most one window. *)
Lemma windows_unique l i j x y g :
  sorted_windows l -> l !! i = Some x -> l !! j = Some y ->
  w_base x <= g < w_end x -> w_base y <= g < w_end y -> i = j.
Proof.
  intros [_ Hs] Hx Hy Hgx Hgy.
  destruct (Nat.lt_trichotomy i j) as [Hij|[->|Hij]]; [|done|].
  - pose proof (separated_lookup l i j x y). naive_solver lia.
  - pose proof (separated_lookup l j i y x). naive_solver lia.
Qed.

(** Two different windows that both meet [b, e) force [b, e) to cross the
    end of the first. *)
Lemma windows_cross l i j x y b e :
  sorted_windows l -> (i < j)%nat -> l !! i = Some x -> l !! j = Some y ->
  overlaps b e x = true -> overlaps b e y = true -> b < w_end x < e.
Proof.
  intros Hs Hij Hx Hy [? ?]%overlaps_true [? ?]%overlaps_true.
  assert (w_end x <= w_base y) by (destruct Hs; eapply separated_lookup; eauto). lia.
Qed.

(** Inserting a window that meets none keeps the vector sorted. *)
Lemma insert_sorted l x :
  sorted_windows l -> valid x ->
  Forall (fun y => overlaps (w_base x) (w_end x) y = false) l ->
  sorted_windows (insert_at (partition_point (fun y => w_base y <? w_base x) l) x l).
Proof.
  intros [Hv Hs] Hx Hno. induction l as [|y l IH].
  { unfold insert_at. simpl. split; [by apply Forall_singleton|]. by repeat constructor. }
  rewrite insert_at_cons. destruct Hs as [Hy Hs].
  apply Forall_cons_iff in Hv as [Hvy Hvl], Hno as [Hny Hnl].
  apply overlaps_false in Hny. unfold valid, w_end in *.
  destruct (Z.ltb_spec (w_base y) (w_base x)).
  - destruct (IH Hvl Hs Hnl) as [IHv IHs]. split; [by constructor|]. split; [|done].
    unfold insert_at. apply Forall_app; split; [by apply Forall_take|].
    constructor; [unfold w_end; lia|]. by apply Forall_drop.
  - split; [by do 2 (constructor; [done|])|]. simpl. split; [|done].
    constructor; [unfold w_end in *; lia|].
    eapply Forall_impl; [|apply Hy]. simpl. unfold w_end in *. intros; lia.
Qed.

Lemma insert_at_perm (p : A -> bool) l x : insert_at (partition_point p l) x l ≡ₚ x :: l.
Proof.
  unfold insert_at. rewrite <- Permutation_middle. by rewrite take_drop.
Qed.

Lemma position_all_false (p : A -> bool) l :
  Forall (fun y => p y = false) l -> position p l = None.
Proof. apply position_None. Qed.

(** [partition_point] on the base, then one containment test, finds the same
    window as scanning every window. *)
Definition lookup_sorted l (b e : Z) : option nat :=
  match partition_point (fun y => w_base y <=? b) l with
  | O => None
  | S i => match l !! i with
           | Some x => if contains b e x then Some i else None
           | None => None
           end
  end.

Lemma lookup_sorted_position l b e :
  sorted_windows l -> b < e -> lookup_sorted l b e = position (contains b e) l.
Proof.
  unfold lookup_sorted. intros [Hv Hs] Hbe. induction l as [|x l IH]; [done|].
  destruct Hs as [Hx Hs]. apply Forall_cons_iff in Hv as [Hvx Hvl].
  specialize (IH Hvl Hs). unfold valid in *. simpl.
  destruct (Z.leb_spec (w_base x) b) as [Hle|Hgt].
  - destruct (partition_point _ l) as [|k] eqn:Hpp; simpl.
    + unfold contains at 1 2. destruct (Z.leb_spec (w_base x) b); [|lia].
      destruct (e <=? w_end x); simpl; [done|]. by rewrite <- IH.
    + assert (exists y, l !! k = Some y /\ w_base y <= b) as (y & Hy & Hyb).
      { clear -Hpp. revert k Hpp. induction l as [|z l IH]; simpl; [done|].
        destruct (Z.leb_spec (w_base z) b); [|done]. intros k [= <-].
        destruct (partition_point _ l) as [|k]; simpl; [eauto|]. by apply IH. }
      assert (w_end x <= w_base y) by (by eapply Forall_lookup_1 in Hx).
      unfold contains at 2. destruct (Z.leb_spec e (w_end x)); [lia|].
      rewrite andb_false_r, <- IH, Hy. by destruct (contains b e y).
  - unfold contains at 1. destruct (Z.leb_spec (w_base x) b); [lia|]. simpl.
    symmetry. replace (position (contains b e) l) with (@None nat); [done|].
    symmetry. apply position_None. eapply Forall_impl; [|apply Hx]. simpl. intros y Hxy.
    unfold contains. unfold w_end in *.
    destruct (Z.leb_spec (w_base y) b); [lia|done].
Qed.

End windows.

#[export] Hint Resolve insert_sorted sorted_valid : tern.
