(* ===== verification/GuestMemory.v ===== *)
(** * Guest physical memory

    Model of [ternvale-vmm/src/memory/mod.rs] (with [error.rs] and [host.rs]):
    the vector of RAM regions, its checked registration, and the byte and
    integer accessors every device goes through.

    A [Region] owns an anonymous host mapping.  The mapping is modelled by its
    host address and its contents: a finite map from offset to byte, where an
    absent offset is a byte of the zero-filled mapping that was never written.
    What the operating system and the hypervisor answer to one call ([mmap],
    [hv_vm_map], [madvise], [sysconf]) is the argument [Host] of that call.

    The second half gives the abstract view of a memory, the partial map
    [byte_at] from guest address to byte, and shows that the accessors refine
    reads and updates of it.  [ByteMemory] is the interface the virtqueue code
    is verified against; [GuestMemory] is its instance. *)

From S2P Require Import Prelude Windows.

Definition HOST_PAGE_SIZE : Z := 16 * 1024.

(** [io::Error] and [HvError] sources are kept as their raw codes. *)
Inductive MemoryError : Type :=
| MisalignedGpa (gpa align : Z)
| MisalignedSize (size align : Z)
| MisalignedHost (addr align : Z)
| Overflow (gpa size : Z)
| Overlap (gpa size other_gpa other_size : Z)
| Mmap (size source : Z)
| Munmap (addr size source : Z)
| PageSize
| UnexpectedPageSize (bytes expected : Z)
| Map (gpa size source : Z)
| Unmap (gpa size source : Z)
| OutOfRange (gpa size : Z)
| CrossRegion (gpa size : Z)
| Advise (gpa size source : Z).

Inductive MemAdvice : Type := FreeReusable | FreeReuse.

(** Replies of the host to the system calls of one operation. *)
Record Host := {
  h_pagesize : Z;          (* sysconf(_SC_PAGESIZE), an i64 *)
  h_mmap : Z;              (* pointer returned by mmap *)
  h_errno : Z;             (* last_os_error *)
  h_vm_map : option Z;     (* hv_vm_map: None is HV_SUCCESS *)
  h_madvise : Z;           (* return code of madvise *)
}.

Definition MAP_FAILED : Z := 2 ^ 64 - 1.

(** ** Data *)

Record Region := {
  r_gpa : Z;
  r_size : Z;
  r_host : Z;
  r_bytes : gmap Z Z;
  r_guest_mapped : bool;
}.

#[export] Instance Region_Window : Window Region :=
  {| w_base := r_gpa; w_size := r_size |}.

(** [Region::end]. *)
Definition region_end (r : Region) : Z := add_w 64 (r_gpa r) (r_size r).

(** Host calls a dropped region makes, in order ([Drop for Region]). *)
Inductive HostCall : Type := HvVmUnmap (gpa size : Z) | HostMunmap (host size : Z).

Definition region_drop (r : Region) : list HostCall :=
  (if r_guest_mapped r then [HvVmUnmap (r_gpa r) (r_size r)] else []) ++
  [HostMunmap (r_host r) (r_size r)].

Record Memory := { m_regions : list Region }.

(** ** Host calls *)

Definition host_page_size (h : Host) : result MemoryError Z :=
  if 0 <=? h_pagesize h then Ok (h_pagesize h) else Err PageSize.

Definition require_host_alignment (addr : Z) : result MemoryError unit :=
  if addr mod HOST_PAGE_SIZE =? 0 then Ok tt
  else Err (MisalignedHost addr HOST_PAGE_SIZE).

Definition mmap_anonymous (h : Host) (size : Z) : result MemoryError Z :=
  let ptr := h_mmap h in
  if (ptr =? 0) || (ptr =? MAP_FAILED) then Err (Mmap size (h_errno h))
  else _ ← require_host_alignment ptr; Ok ptr.

(** ** Registration *)

Definition new (h : Host) : result MemoryError Memory :=
  bytes ← host_page_size h;
  if bytes =? HOST_PAGE_SIZE then Ok {| m_regions := [] |}
  else Err (UnexpectedPageSize bytes HOST_PAGE_SIZE).

(** [usize] is 64 bits wide on aarch64. *)
Definition usize_try_from (v : Z) : option Z := if v <? 2 ^ 64 then Some v else None.

Definition check_layout (gpa size : Z) : result MemoryError Z :=
  if negb (gpa mod HOST_PAGE_SIZE =? 0) then Err (MisalignedGpa gpa HOST_PAGE_SIZE)
  else if (size =? 0) || negb (size mod HOST_PAGE_SIZE =? 0) then
    Err (MisalignedSize size HOST_PAGE_SIZE)
  else match checked_add 64 gpa size with
       | None => Err (Overflow gpa size)
       | Some _ => ok_or (usize_try_from size) (MisalignedSize size HOST_PAGE_SIZE)
       end.

Definition overlap (m : Memory) (gpa size : Z) : option (Z * Z) :=
  let e := add_w 64 gpa size in
  find_map (fun r => if (gpa <? region_end r) && (r_gpa r <? e)
                     then Some (r_gpa r, r_size r) else None) (m_regions m).

Definition reserve (m : Memory) (gpa size : Z) : result MemoryError Z :=
  bytes ← check_layout gpa size;
  match overlap m gpa size with
  | Some (other_gpa, other_size) => Err (Overlap gpa size other_gpa other_size)
  | None => Ok bytes
  end.

Definition alloc_region (m : Memory) (h : Host) (gpa size : Z) : result MemoryError Region :=
  bytes ← reserve m gpa size;
  host ← mmap_anonymous h bytes;
  Ok {| r_gpa := gpa; r_size := bytes; r_host := host; r_bytes := ∅; r_guest_mapped := false |}.

Definition insert_region (m : Memory) (r : Region) : Memory :=
  let index := partition_point (fun existing => r_gpa existing <? r_gpa r) (m_regions m) in
  {| m_regions := insert_at index r (m_regions m) |}.

Definition add_region (m : Memory) (h : Host) (gpa size : Z) : result MemoryError Memory :=
  region ← alloc_region m h gpa size;
  Ok (insert_region m region).

Definition set_guest_mapped (r : Region) : Region :=
  {| r_gpa := r_gpa r; r_size := r_size r; r_host := r_host r;
     r_bytes := r_bytes r; r_guest_mapped := true |}.

(** [hv_vm_map] failing drops the fresh region and leaves the map unchanged. *)
Definition map_flags (m : Memory) (h : Host) (gpa size flags : Z) : result MemoryError Memory :=
  region ← alloc_region m h gpa size;
  match h_vm_map h with
  | Some source => Err (Map gpa size source)
  | None => Ok (insert_region m (set_guest_mapped region))
  end.

Definition HV_MEMORY_RWX : Z := 7.
Definition map (m : Memory) (h : Host) (gpa size : Z) : result MemoryError Memory :=
  map_flags m h gpa size HV_MEMORY_RWX.

(** [GuestMemory::regions]. *)
Definition regions (m : Memory) : list (Z * Z) :=
  (fun r => (r_gpa r, r_size r)) <$> m_regions m.

(** ** Access *)

(** The scan of [find]: remember the one region that meets [gpa, e). *)
Fixpoint find_scan (gpa size e : Z) (rs : list Region) (index : nat) (matched : option nat)
  : result MemoryError (option nat) :=
  match rs with
  | [] => Ok matched
  | r :: rs' =>
      if (gpa <? region_end r) && (r_gpa r <? e) then
        match matched with
        | Some _ => Err (CrossRegion gpa size)
        | None => find_scan gpa size e rs' (S index) (Some index)
        end
      else find_scan gpa size e rs' (S index) matched
  end.

Definition find (m : Memory) (gpa size : Z) : result MemoryError nat :=
  match checked_add 64 gpa size with
  | None => Err (OutOfRange gpa size)
  | Some e =>
      matched ← find_scan gpa size e (m_regions m) 0 None;
      match matched with
      | None => Err (OutOfRange gpa size)
      | Some index =>
          match m_regions m !! index with
          | None => Err (OutOfRange gpa size)
          | Some r => if (gpa <? r_gpa r) || (region_end r <? e)
                      then Err (OutOfRange gpa size) else Ok index
          end
      end
  end.

(** [access]: the region behind the index [find] returns. *)
Definition access (m : Memory) (gpa size : Z) : result MemoryError (nat * Region) :=
  index ← find m gpa size;
  match m_regions m !! index with
  | Some r => Ok (index, r)
  | None => Err (OutOfRange gpa size)
  end.

(** A byte of the mapping, zero when never written. *)
Definition host_byte (r : Region) (off : Z) : Z := default 0 (r_bytes r !! off).

Fixpoint load (r : Region) (off : Z) (n : nat) : list Z :=
  match n with
  | O => []
  | S n' => host_byte r off :: load r (off + 1) n'
  end.

Fixpoint store (bytes : gmap Z Z) (off : Z) (src : list Z) : gmap Z Z :=
  match src with
  | [] => bytes
  | b :: src' => store (<[off := b]> bytes) (off + 1) src'
  end.

Definition read_bytes (m : Memory) (gpa : Z) (n : nat) : result MemoryError (list Z) :=
  match n with
  | O => Ok []
  | S _ => '(_, r) ← access m gpa (Z.of_nat n);
           Ok (load r (gpa - r_gpa r) n)
  end.

Definition region_store (r : Region) (off : Z) (src : list Z) : Region :=
  {| r_gpa := r_gpa r; r_size := r_size r; r_host := r_host r;
     r_bytes := store (r_bytes r) off src; r_guest_mapped := r_guest_mapped r |}.

Definition write_bytes (m : Memory) (gpa : Z) (src : list Z) : result MemoryError Memory :=
  match src with
  | [] => Ok m
  | _ => '(index, r) ← access m gpa (Z.of_nat (length src));
         Ok {| m_regions := <[index := region_store r (gpa - r_gpa r) src]> (m_regions m) |}
  end.

Definition copy_region (m : Memory) (gpa size : Z) : result MemoryError (list Z) :=
  bytes ← ok_or (usize_try_from size) (OutOfRange gpa (2 ^ 64 - 1));
  read_bytes m gpa (Z.to_nat bytes).

(** A zero-length pointer is dangling ([None]); otherwise the host address. *)
Definition host_ptr (m : Memory) (gpa len : Z) : result MemoryError (option Z) :=
  if len =? 0 then Ok None
  else '(_, r) ← access m gpa len; Ok (Some (r_host r + (gpa - r_gpa r))).

Definition advise (m : Memory) (h : Host) (gpa len : Z) (advice : MemAdvice)
  : result MemoryError unit :=
  if len =? 0 then Ok tt
  else _ ← host_ptr m gpa len;
       if h_madvise h =? 0 then Ok tt else Err (Advise gpa len (h_errno h)).

(** The [guest_int!] accessors, by width in bytes. *)
Definition read_le (n : nat) (m : Memory) (gpa : Z) : result MemoryError Z :=
  bs ← read_bytes m gpa n; Ok (of_le bs).
Definition write_le (n : nat) (m : Memory) (gpa v : Z) : result MemoryError Memory :=
  write_bytes m gpa (le_bytes n v).

(** ** Invariant *)

Definition region_ok (r : Region) : Prop :=
  r_gpa r mod HOST_PAGE_SIZE = 0 /\ r_size r mod HOST_PAGE_SIZE = 0 /\
  r_host r mod HOST_PAGE_SIZE = 0 /\ map_Forall (fun _ b => fits 8 b) (r_bytes r).

(** Regions are page aligned, sorted and disjoint, and hold bytes. *)
Definition wf (m : Memory) : Prop :=
  sorted_windows (m_regions m) /\ Forall region_ok (m_regions m).

#[export] Instance region_ok_dec r : Decision (region_ok r).
Proof. unfold region_ok. apply _. Defined.

#[export] Instance wf_dec m : Decision (wf m).
Proof. unfold wf. apply _. Defined.

(** The guest address [a] as the guest sees it: the byte stored there, if any
    region covers it. *)
Definition byte_at (m : Memory) (a : Z) : option Z :=
  find_map (fun r => if contains a (a + 1) r then Some (host_byte r (a - r_gpa r)) else None)
           (m_regions m).

(** [n] bytes at [a] lie in one region. *)
Definition span_ok (m : Memory) (a n : Z) : Prop :=
  exists i r, m_regions m !! i = Some r /\ r_gpa r <= a /\ a + n <= r_gpa r + r_size r.

Lemma region_end_valid r : valid r -> region_end r = w_end r.
Proof.
  intros (H1 & H2 & H3). unfold region_end, add_w, w_end in *. simpl in *.
  apply wrap_small. unfold fits. lia.
Qed.

(** In a well-formed memory the byte is the one of the covering region. *)
Lemma byte_at_region m i r a :
  wf m -> m_regions m !! i = Some r -> r_gpa r <= a < r_gpa r + r_size r ->
  byte_at m a = Some (host_byte r (a - r_gpa r)).
Proof.
  intros [Hs _] Hr Ha. unfold byte_at.
  destruct (find_map _ _) as [b|] eqn:Hf.
  - apply find_map_Some_lookup in Hf as (j & r' & Hj & Hb).
    destruct (contains a (a + 1) r') eqn:Hc; [|done]. injection Hb as <-.
    apply contains_true in Hc. unfold w_end in Hc. simpl in Hc.
    assert (j = i) as -> by (eapply windows_unique with (g := a); eauto; unfold w_end; simpl; lia).
    congruence.
  - rewrite find_map_None in Hf. eapply Forall_lookup_1 in Hf; [|done].
    simpl in Hf. destruct (contains a (a + 1) r) eqn:Hc; [done|].
    unfold contains, w_end in Hc. simpl in Hc. lia.
Qed.

Lemma byte_at_outside m a :
  Forall (fun r => ~ r_gpa r <= a < r_gpa r + r_size r) (m_regions m) -> byte_at m a = None.
Proof.
  intros Hall. apply find_map_None. eapply Forall_impl; [|done]. simpl. intros r Hr.
  unfold contains, w_end. simpl. zbool; simpl; [lia|done..].
Qed.

(** ** [find] *)

Section find.
Context (m : Memory) (Hwf : wf m).

Lemma meets_overlaps i r gpa e :
  m_regions m !! i = Some r ->
  (gpa <? region_end r) && (r_gpa r <? e) = overlaps gpa e r.
Proof.
  intros Hr. rewrite region_end_valid; [done|].
  destruct Hwf as [Hs _]. by eapply sorted_valid.
Qed.

(** What the scan returns from position [k] on: the first meeting region if
    it is the only one, [CrossRegion] otherwise. *)
Lemma find_scan_spec gpa size e rs k matched :
  (forall i r, rs !! i = Some r -> m_regions m !! (k + i)%nat = Some r) ->
  find_scan gpa size e rs k matched =
  match matched, position (overlaps gpa e) rs with
  | None, None => Ok None
  | Some j, None => Ok (Some j)
  | Some _, Some _ => Err (CrossRegion gpa size)
  | None, Some i =>
      match position (overlaps gpa e) (drop (S i) rs) with
      | Some _ => Err (CrossRegion gpa size)
      | None => Ok (Some (k + i)%nat)
      end
  end.
Proof.
  revert k matched. induction rs as [|r rs IH]; intros k matched Hrs; [by destruct matched|].
  assert (Hk : forall i r', rs !! i = Some r' -> m_regions m !! (S k + i)%nat = Some r').
  { intros i r' Hr'. replace (S k + i)%nat with (k + S i)%nat by lia. by apply Hrs. }
  cbn [find_scan position]. rewrite (meets_overlaps (k + 0)) by (by apply Hrs).
  destruct (overlaps gpa e r) eqn:Ho; rewrite ?IH by done.
  - destruct matched; [done|]. cbn [drop]. rewrite drop_0, Nat.add_0_r. done.
  - destruct matched, (position (overlaps gpa e) rs) as [i|]; simpl; try done.
    by rewrite Nat.add_succ_r.
Qed.

(** A span inside region [i] meets no other region. *)
Lemma inside_only_overlap i k r y b e :
  m_regions m !! i = Some r -> m_regions m !! k = Some y -> b < e ->
  w_base r <= b -> e <= w_end r -> overlaps b e y = true -> k = i.
Proof.
  intros Hr Hy Hbe ? ? [? ?]%overlaps_true. destruct Hwf as [Hs _].
  pose proof (sorted_valid _ _ _ Hs Hy) as (? & ? & ?).
  eapply (windows_unique _ k i y r (Z.max b (w_base y))); eauto; unfold w_end in *; lia.
Qed.

(** ... so the scan returns that region. *)
Lemma find_scan_inside gpa size i r :
  m_regions m !! i = Some r -> 0 < size ->
  r_gpa r <= gpa -> gpa + size <= r_gpa r + r_size r ->
  find_scan gpa size (gpa + size) (m_regions m) 0 None = Ok (Some i).
Proof.
  intros Hr Hsz Hlo Hhi. rewrite find_scan_spec by done.
  assert (Honly : forall k y, m_regions m !! k = Some y ->
                    overlaps gpa (gpa + size) y = true -> k = i).
  { intros k y Hk Hy. apply (inside_only_overlap i k r y gpa (gpa + size)); try done; unfold w_end; simpl; lia. }
  destruct (position _ _) as [j|] eqn:Hp.
  - apply position_Some in Hp as (y & Hy & Ho & _). pose proof (Honly _ _ Hy Ho) as ->.
    destruct (position _ (drop _ _)) as [k|] eqn:Hp'; [|done].
    apply position_Some in Hp' as (z & Hz & Hoz & _). rewrite lookup_drop in Hz.
    pose proof (Honly _ _ Hz Hoz). lia.
  - rewrite position_None in Hp. eapply Forall_lookup_1 in Hp; [|done].
    apply overlaps_false in Hp. unfold w_end in Hp. simpl in Hp. lia.
Qed.

(** [find] succeeds exactly when one region holds the whole span, and returns
    its index. *)
Lemma find_Ok gpa size i :
  0 <= gpa -> 0 < size ->
  find m gpa size = Ok i <->
  exists r, m_regions m !! i = Some r /\ r_gpa r <= gpa /\ gpa + size <= r_gpa r + r_size r.
Proof.
  intros Hg Hsz. unfold find.
  assert (Hv : forall j r, m_regions m !! j = Some r -> valid r) by (destruct Hwf; eauto with tern).
  split.
  - destruct (checked_add 64 gpa size) as [e|] eqn:Hadd; [|done].
    apply checked_add_Some in Hadd as [-> _]. rewrite bind_Ok.
    intros ([j|] & _ & Hj); [|done].
    destruct (m_regions m !! j) as [r|] eqn:Hr; [|done].
    rewrite region_end_valid in Hj by eauto. unfold w_end in Hj. simpl in Hj.
    destruct (Z.ltb_spec gpa (r_gpa r)), (Z.ltb_spec (r_gpa r + r_size r) (gpa + size));
      simplify_eq/=. exists r. split_and!; [done|lia..].
  - intros (r & Hr & Hlo & Hhi). pose proof (Hv _ _ Hr) as (? & ? & Hlt).
    unfold w_end in Hlt. simpl in Hlt.
    rewrite (proj2 (checked_add_Some 64 gpa size _)) by (split; [done|lia]).
    rewrite (find_scan_inside _ _ i r) by done. simpl. rewrite Hr, region_end_valid by eauto.
    unfold w_end. simpl.
    destruct (Z.ltb_spec gpa (r_gpa r)), (Z.ltb_spec (r_gpa r + r_size r) (gpa + size)); [lia..|done].
Qed.

End find.

Lemma access_Ok m gpa size i r :
  wf m -> 0 <= gpa -> 0 < size ->
  access m gpa size = Ok (i, r) <->
  m_regions m !! i = Some r /\ r_gpa r <= gpa /\ gpa + size <= r_gpa r + r_size r.
Proof.
  intros Hwf Hg Hs. unfold access. rewrite bind_Ok. split.
  - intros (j & Hf & Hj). rewrite (find_Ok m Hwf) in Hf by done.
    destruct Hf as (r' & Hr' & ? & ?). rewrite Hr' in Hj. by simplify_eq.
  - intros (Hr & ? & ?). exists i. rewrite (find_Ok m Hwf), Hr by done. eauto.
Qed.

Lemma span_ok_access m gpa size :
  wf m -> 0 <= gpa -> 0 < size ->
  span_ok m gpa size <-> exists i r, access m gpa size = Ok (i, r).
Proof.
  intros Hwf Hg Hsz. unfold span_ok. split; intros (i & r & Hr); exists i, r;
    by apply access_Ok.
Qed.

(** ** Loads and stores *)

Lemma length_load r off n : length (load r off n) = n.
Proof. revert off. induction n as [|n IH]; intros off; simpl; [done|]. by rewrite IH. Qed.

Lemma load_lookup r off n i :
  (i < n)%nat -> load r off n !! i = Some (host_byte r (off + Z.of_nat i)).
Proof.
  revert off i. induction n as [|n IH]; intros off [|i] Hi; simpl; [lia..| |].
  - by rewrite Z.add_0_r.
  - rewrite IH by lia. do 2 f_equal. lia.
Qed.

Lemma store_lookup bytes off src a :
  store bytes off src !! a =
  if decide (off <= a < off + Z.of_nat (length src))
  then src !! Z.to_nat (a - off) else bytes !! a.
Proof.
  revert bytes off. induction src as [|b src IH]; intros bytes off; simpl.
  { case_decide; [lia|done]. }
  rewrite IH. destruct (decide (a = off)) as [->|Hne].
  - rewrite decide_False, decide_True by lia. rewrite Z.sub_diag. simpl.
    by rewrite lookup_insert_eq.
  - case_decide; [rewrite decide_True by lia|].
    + by replace (Z.to_nat (a - off)) with (S (Z.to_nat (a - (off + 1)))) by lia.
    + rewrite decide_False by lia. by rewrite lookup_insert_ne.
Qed.

Lemma store_fits bytes off src :
  map_Forall (fun _ b => fits 8 b) bytes -> Forall (fits 8) src ->
  map_Forall (fun _ b => fits 8 b) (store bytes off src).
Proof.
  intros Hb Hsrc a b. rewrite store_lookup. case_decide.
  - intros Hl. by eapply Forall_lookup_1 in Hsrc.
  - by apply Hb.
Qed.

Lemma host_byte_fits r off : region_ok r -> fits 8 (host_byte r off).
Proof.
  intros (_ & _ & _ & Hb). unfold host_byte. destruct (r_bytes r !! off) eqn:E; simpl; [|done].
  by apply Hb in E.
Qed.

Lemma load_fits r off n : region_ok r -> Forall (fits 8) (load r off n).
Proof.
  intros Hr. revert off. induction n as [|n IH]; intros off; simpl; constructor; [|done].
  by apply host_byte_fits.
Qed.

Lemma wf_region m i r : wf m -> m_regions m !! i = Some r -> region_ok r.
Proof. intros [_ Hr] Hi. by eapply Forall_lookup_1 in Hr. Qed.

(** Replacing a region by one with the same range keeps the windows. *)
Lemma separated_same_range (l : list Region) i r r' :
  l !! i = Some r -> r_gpa r' = r_gpa r -> r_size r' = r_size r ->
  sorted_windows l -> sorted_windows (<[i := r']> l).
Proof.
  intros Hi Hg Hz [Hv Hs]. split.
  - apply Forall_insert; [done|]. eapply Forall_lookup_1 in Hv; [|done].
    unfold valid, w_end in *. simpl in *. by rewrite Hg, Hz.
  - clear Hv. revert i Hi. induction l as [|x l IH]; intros [|i] Hi; simplify_eq/=.
    + destruct Hs as [Hx Hs]. split; [|done]. eapply Forall_impl; [|apply Hx].
      unfold w_end. simpl. intros y. by rewrite Hg, Hz.
    + destruct Hs as [Hx Hs]. split; [|by apply IH].
      apply Forall_insert; [done|]. eapply Forall_lookup_1 in Hx; [|done].
      unfold w_end in *. simpl in *. by rewrite Hg.
Qed.

(** ** Accessors against the abstract view *)

Lemma read_bytes_Ok m gpa n bs :
  wf m -> 0 <= gpa -> (0 < n)%nat ->
  read_bytes m gpa n = Ok bs <->
  exists i r, m_regions m !! i = Some r /\ r_gpa r <= gpa /\
    gpa + Z.of_nat n <= r_gpa r + r_size r /\ bs = load r (gpa - r_gpa r) n.
Proof.
  intros Hwf Hg Hn. destruct n as [|n]; [lia|]. cbn [read_bytes]. rewrite bind_Ok. split.
  - intros ([i r] & Ha & [= <-]). rewrite access_Ok in Ha by (done || lia).
    destruct Ha as (? & ? & ?). exists i, r. split_and!; try done; lia.
  - intros (i & r & ? & ? & ? & ->). exists (i, r). split; [|done].
    apply access_Ok; [done|lia..|]. split_and!; try done; lia.
Qed.

Lemma write_bytes_Ok m gpa src m' :
  wf m -> 0 <= gpa -> src <> [] ->
  write_bytes m gpa src = Ok m' <->
  exists i r, m_regions m !! i = Some r /\ r_gpa r <= gpa /\
    gpa + Z.of_nat (length src) <= r_gpa r + r_size r /\
    m' = {| m_regions := <[i := region_store r (gpa - r_gpa r) src]> (m_regions m) |}.
Proof.
  intros Hwf Hg Hne. destruct src as [|b src]; [done|]. cbn [write_bytes]. rewrite bind_Ok. split.
  - intros ([i r] & Ha & [= <-]). rewrite access_Ok in Ha by (done || simpl; lia).
    destruct Ha as (? & ? & ?). exists i, r. split_and!; try done; lia.
  - intros (i & r & ? & ? & ? & ->). exists (i, r). split; [|done].
    apply access_Ok; [done|done|simpl; lia|]. split_and!; try done; lia.
Qed.

Lemma write_bytes_wf m gpa src m' :
  wf m -> 0 <= gpa -> Forall (fits 8) src -> write_bytes m gpa src = Ok m' -> wf m'.
Proof.
  intros Hwf Hg Hsrc Hw. destruct (decide (src = [])) as [->|Hne]; [by simplify_eq/=|].
  apply write_bytes_Ok in Hw as (i & r & Hr & ? & ? & ->); [|done..]. split; simpl.
  - destruct Hwf. by eapply separated_same_range.
  - destruct (wf_region _ _ _ Hwf Hr) as (? & ? & ? & Hb). destruct Hwf as [_ Hok].
    apply Forall_insert; [done|]. split_and!; try done. by apply store_fits.
Qed.

Lemma write_bytes_byte_at m gpa src m' a :
  wf m -> 0 <= gpa -> Forall (fits 8) src -> write_bytes m gpa src = Ok m' ->
  byte_at m' a =
  if decide (gpa <= a < gpa + Z.of_nat (length src))
  then src !! Z.to_nat (a - gpa) else byte_at m a.
Proof.
  intros Hwf Hg Hsrc Hw. pose proof (write_bytes_wf _ _ _ _ Hwf Hg Hsrc Hw) as Hwf'.
  destruct (decide (src = [])) as [->|Hne].
  { simplify_eq/=. case_decide; [lia|done]. }
  apply write_bytes_Ok in Hw as (i & r & Hr & Hlo & Hhi & ->); [|done..].
  set (r' := region_store r (gpa - r_gpa r) src) in *.
  assert (Hi : <[i:=r']> (m_regions m) !! i = Some r').
  { apply list_lookup_insert_eq. by eapply lookup_lt_Some. }
  destruct (decide (r_gpa r <= a < r_gpa r + r_size r)) as [Hin|Hout].
  - rewrite (byte_at_region _ i r' a Hwf' Hi Hin). unfold host_byte. simpl. rewrite store_lookup.
    destruct (decide (gpa <= a < gpa + Z.of_nat (length src))).
    + rewrite decide_True by lia.
      replace (a - r_gpa r - (gpa - r_gpa r)) with (a - gpa) by lia.
      destruct (lookup_lt_is_Some_2 src (Z.to_nat (a - gpa))) as [b ->]; [lia|done].
    + rewrite decide_False by lia. symmetry. by apply (byte_at_region _ i).
  - rewrite decide_False by lia. unfold byte_at. simpl.
    rewrite <- (take_drop_middle _ _ _ Hr) at 2.
    rewrite insert_take_drop by (by eapply lookup_lt_Some).
    clear -Hout. induction (take i (m_regions m)) as [|y l IH]; simpl; [|by rewrite IH].
    unfold contains, w_end. simpl. zbool; simpl; try done; lia.
Qed.

Lemma write_bytes_span m gpa src m' a n :
  wf m -> 0 <= gpa -> write_bytes m gpa src = Ok m' -> span_ok m' a n <-> span_ok m a n.
Proof.
  intros Hwf Hg Hw. destruct (decide (src = [])) as [->|Hne]; [by simplify_eq/=|].
  apply write_bytes_Ok in Hw as (i & r & Hr & ? & ? & ->); [|done..].
  unfold span_ok. simpl. split; intros (j & x & Hx & ? & ?).
  - destruct (decide (i = j)) as [<-|].
    + rewrite list_lookup_insert_eq in Hx by (by eapply lookup_lt_Some). simplify_eq. eauto.
    + rewrite list_lookup_insert_ne in Hx by done. eauto.
  - destruct (decide (i = j)) as [<-|].
    + simplify_eq. eexists i, _. rewrite list_lookup_insert_eq by (by eapply lookup_lt_Some). eauto.
    + exists j, x. by rewrite list_lookup_insert_ne.
Qed.

(** ** Registration *)

Definition layout_ok (gpa size : Z) : Prop :=
  gpa mod HOST_PAGE_SIZE = 0 /\ 0 < size /\ size mod HOST_PAGE_SIZE = 0 /\ gpa + size < 2 ^ 64.

(** No registered region shares a byte with [gpa, gpa + size). *)
Definition disjoint_from (m : Memory) (gpa size : Z) : Prop :=
  forall i r, m_regions m !! i = Some r ->
    gpa + size <= r_gpa r \/ r_gpa r + r_size r <= gpa.

Definition host_ok (h : Host) : Prop :=
  h_mmap h <> 0 /\ h_mmap h <> MAP_FAILED /\ h_mmap h mod HOST_PAGE_SIZE = 0.

Lemma check_layout_Ok gpa size b :
  0 <= gpa -> 0 <= size ->
  check_layout gpa size = Ok b <-> layout_ok gpa size /\ b = size.
Proof.
  intros Hg Hs. unfold check_layout, layout_ok, checked_add, usize_try_from, HOST_PAGE_SIZE.
  destruct (Z.eqb_spec (gpa mod (16 * 1024)) 0); simpl; [|naive_solver].
  destruct (Z.eqb_spec size 0); simpl; [naive_solver lia|].
  destruct (Z.eqb_spec (size mod (16 * 1024)) 0); simpl; [|naive_solver].
  destruct (Z.ltb_spec (gpa + size) (2 ^ 64)); simpl; [|naive_solver lia].
  destruct (Z.ltb_spec size (2 ^ 64)); simpl; [naive_solver lia|lia].
Qed.

Lemma overlap_None m gpa size :
  wf m -> 0 <= gpa -> 0 <= size -> gpa + size < 2 ^ 64 ->
  overlap m gpa size = None <-> disjoint_from m gpa size.
Proof.
  intros Hwf Hg Hs Hlt. unfold overlap, disjoint_from. rewrite find_map_None, Forall_lookup.
  unfold add_w. rewrite wrap_small by (unfold fits; lia).
  split; intros Hall i r Hr; specialize (Hall i r Hr); simpl in *;
    rewrite (meets_overlaps m Hwf i) in * by done; unfold overlaps, w_end in *; simpl in *.
  - destruct (Z.ltb_spec gpa (r_gpa r + r_size r)), (Z.ltb_spec (r_gpa r) (gpa + size)); simpl in *; naive_solver lia.
  - destruct (Z.ltb_spec gpa (r_gpa r + r_size r)), (Z.ltb_spec (r_gpa r) (gpa + size)); simpl in *; naive_solver lia.
Qed.

Lemma mmap_anonymous_Ok h size p :
  mmap_anonymous h size = Ok p <-> host_ok h /\ p = h_mmap h.
Proof.
  unfold mmap_anonymous, host_ok, require_host_alignment.
  destruct (Z.eqb_spec (h_mmap h) 0); simpl; [naive_solver|].
  destruct (Z.eqb_spec (h_mmap h) MAP_FAILED); simpl; [naive_solver|].
  destruct (Z.eqb_spec (h_mmap h mod HOST_PAGE_SIZE) 0); simpl; naive_solver.
Qed.

Definition fresh_region (h : Host) (gpa size : Z) : Region :=
  {| r_gpa := gpa; r_size := size; r_host := h_mmap h; r_bytes := ∅; r_guest_mapped := false |}.

Lemma alloc_region_Ok m h gpa size r :
  wf m -> 0 <= gpa -> 0 <= size ->
  alloc_region m h gpa size = Ok r <->
  layout_ok gpa size /\ disjoint_from m gpa size /\ host_ok h /\ r = fresh_region h gpa size.
Proof.
  intros Hwf Hg Hs. unfold alloc_region, reserve. split.
  - intros (b & Hres & (p & [Hh ->]%mmap_anonymous_Ok & [= <-])%bind_Ok)%bind_Ok.
    apply bind_Ok in Hres as (b' & [Hlay ->]%check_layout_Ok & Ho); [|done..].
    destruct (overlap m gpa size) as [[]|] eqn:E; simplify_eq.
    split_and!; try done. apply overlap_None; try done. by destruct Hlay as (_ & _ & _ & ?).
  - intros (Hlay & Hd & Hh & ->). apply bind_Ok. exists size. split.
    + apply bind_Ok. exists size. split; [by apply check_layout_Ok|].
      apply overlap_None in Hd as ->; try done. by destruct Hlay as (_ & _ & _ & ?).
    + apply bind_Ok. exists (h_mmap h). by rewrite mmap_anonymous_Ok.
Qed.

(** Inserting a page-aligned region that meets none keeps the invariant; its
    bytes become readable as they are, every other byte is unchanged. *)
Lemma insert_region_spec m r :
  wf m -> valid r -> region_ok r -> disjoint_from m (r_gpa r) (r_size r) ->
  wf (insert_region m r) /\
  forall a, byte_at (insert_region m r) a =
    if decide (r_gpa r <= a < r_gpa r + r_size r)
    then Some (host_byte r (a - r_gpa r)) else byte_at m a.
Proof.
  intros Hwf Hv Hok Hd.
  assert (Hw : wf (insert_region m r)).
  { split; simpl.
    - refine (insert_sorted (m_regions m) r _ _ _); [by destruct Hwf|done|]. apply Forall_lookup. intros i y Hy.
      apply overlaps_false. unfold w_end. simpl. destruct (Hd i y Hy); lia.
    - rewrite insert_at_perm. constructor; [done|]. by destruct Hwf. }
  split; [done|]. intros a. case_decide as Ha.
  - assert (exists i, m_regions (insert_region m r) !! i = Some r) as [i Hi].
    { apply list_elem_of_lookup. simpl. rewrite insert_at_perm. left. }
    by eapply byte_at_region.
  - apply find_map_insert_at.
    assert (contains a (a + 1) r = false) as ->; [|done].
    unfold contains, w_end. simpl. zbool; simpl; try done; lia.
Qed.

Lemma fresh_region_spec m h gpa size (mapped : bool) :
  wf m -> 0 <= gpa -> layout_ok gpa size -> disjoint_from m gpa size -> host_ok h ->
  let r := if mapped then set_guest_mapped (fresh_region h gpa size)
           else fresh_region h gpa size in
  wf (insert_region m r) /\
  forall a, byte_at (insert_region m r) a =
    if decide (gpa <= a < gpa + size) then Some 0 else byte_at m a.
Proof.
  intros Hwf Hg (? & ? & ? & ?) Hd (_ & _ & ?) r.
  assert (r_gpa r = gpa /\ r_size r = size /\ r_bytes r = ∅ /\ r_host r = h_mmap h)
    as (Hrg & Hrs & Hrb & Hrh) by (by destruct mapped).
  destruct (insert_region_spec m r) as [Hw Hb]; [done| | | |].
  - unfold valid, w_end. simpl. rewrite Hrg, Hrs. lia.
  - unfold region_ok. rewrite Hrg, Hrs, Hrb, Hrh. by split_and!.
  - by rewrite Hrg, Hrs.
  - split; [done|]. intros a. rewrite Hb, Hrg, Hrs. case_decide; [|done].
    unfold host_byte. by rewrite Hrb, lookup_empty.
Qed.

(** ** The interface of guest memory towards the devices *)

(** What a virtqueue relies on: reads return the bytes of an abstract map
    when the span is mapped, writes update it, and nothing else changes. *)
Class ByteMemory (M : Type) := {
  bm_read : M -> Z -> nat -> result MemoryError (list Z);
  bm_write : M -> Z -> list Z -> result MemoryError M;
  bm_inv : M -> Prop;
  bm_byte : M -> Z -> option Z;
  bm_span : M -> Z -> Z -> Prop;
  bm_read_spec m a n bs :
    bm_inv m -> 0 <= a -> (0 < n)%nat ->
    bm_read m a n = Ok bs <->
    bm_span m a (Z.of_nat n) /\ length bs = n /\
    forall i, (i < n)%nat -> bs !! i = bm_byte m (a + Z.of_nat i);
  bm_read_fits m a n bs : bm_inv m -> 0 <= a -> bm_read m a n = Ok bs -> Forall (fits 8) bs;
  bm_span_read m a n :
    bm_inv m -> 0 <= a -> (0 < n)%nat ->
    bm_span m a (Z.of_nat n) -> exists bs, bm_read m a n = Ok bs;
  bm_write_Ok m a src :
    bm_inv m -> 0 <= a -> src <> [] ->
    (exists m', bm_write m a src = Ok m') <-> bm_span m a (Z.of_nat (length src));
  bm_write_spec m a src m' :
    bm_inv m -> 0 <= a -> Forall (fits 8) src -> bm_write m a src = Ok m' ->
    bm_inv m' /\
    (forall x, bm_byte m' x = if decide (a <= x < a + Z.of_nat (length src))
                             then src !! Z.to_nat (x - a) else bm_byte m x) /\
    (forall x n, bm_span m' x n <-> bm_span m x n);
  bm_span_sub m a n a' n' :
    bm_span m a n -> a <= a' -> a' + n' <= a + n -> bm_span m a' n';
}.

Lemma read_bytes_view m a n bs :
  wf m -> 0 <= a -> (0 < n)%nat ->
  read_bytes m a n = Ok bs <->
  span_ok m a (Z.of_nat n) /\ length bs = n /\
  forall i, (i < n)%nat -> bs !! i = byte_at m (a + Z.of_nat i).
Proof.
  intros Hwf Ha Hn. rewrite read_bytes_Ok by done.
  assert (Hb : forall i r k, m_regions m !! i = Some r -> r_gpa r <= a ->
            a + Z.of_nat n <= r_gpa r + r_size r -> (k < n)%nat ->
            byte_at m (a + Z.of_nat k) = load r (a - r_gpa r) n !! k).
  { intros i r k Hr ? ? Hk. rewrite load_lookup, (byte_at_region m i r) by (done || lia).
    do 2 f_equal. lia. }
  split.
  - intros (i & r & Hr & ? & ? & ->). split_and!; [by exists i, r|apply length_load|].
    intros k Hk. symmetry. by eapply Hb.
  - intros ((i & r & Hr & ? & ?) & Hlen & Hall). exists i, r. split_and!; try done.
    apply list_eq. intros k. destruct (decide (k < n)%nat).
    + rewrite Hall by done. by eapply Hb.
    + rewrite !lookup_ge_None_2; [done|rewrite length_load|]; lia.
Qed.

Lemma read_bytes_fits m a n bs :
  wf m -> 0 <= a -> read_bytes m a n = Ok bs -> Forall (fits 8) bs.
Proof.
  intros Hwf Ha Hr. destruct n as [|n]; [by simplify_eq/=|].
  apply read_bytes_Ok in Hr as (i & r & Hi & _ & _ & ->); [|done|done|lia].
  apply load_fits. by eapply wf_region.
Qed.

Lemma write_bytes_is_Ok m a src :
  wf m -> 0 <= a -> src <> [] ->
  (exists m', write_bytes m a src = Ok m') <-> span_ok m a (Z.of_nat (length src)).
Proof.
  intros Hwf Ha Hne. split.
  - intros [m' (i & r & Hr & ? & ? & _)%write_bytes_Ok]; try done. by exists i, r.
  - intros (i & r & Hr & ? & ?). eexists. apply write_bytes_Ok; eauto 10.
Qed.

#[export] Program Instance Memory_ByteMemory : ByteMemory Memory := {|
  bm_read := read_bytes; bm_write := write_bytes; bm_inv := wf;
  bm_byte := byte_at; bm_span := span_ok;
  bm_read_spec := read_bytes_view; bm_read_fits := read_bytes_fits;
  bm_write_Ok := write_bytes_is_Ok;
|}.
Next Obligation.
  intros m a n Hwf Ha Hn (i & r & Hr & ? & ?). eexists. apply read_bytes_Ok; eauto 10.
Qed.
Next Obligation.
  intros m a src m' Hwf Ha Hsrc Hw. split_and!.
  - by eapply write_bytes_wf.
  - intros x. by eapply write_bytes_byte_at.
  - intros x n. by eapply write_bytes_span.
Qed.
Next Obligation.
  intros m a n a' n' (i & r & Hr & ? & ?) ? ?. exists i, r. split_and!; try done; lia.
Qed.

(** ** Properties *)

(** [find] classifies every non-empty access of a well-formed memory.  It
    returns an index exactly when one region holds the whole span; otherwise
    no region holds it, and it reports [CrossRegion] only if two regions share
    bytes with the span, else [OutOfRange], and never any other error. *)
Theorem find_classifies m gpa size :
  wf m -> 0 <= gpa -> 0 < size ->
  match find m gpa size with
  | Ok i => exists r, m_regions m !! i = Some r /\
              r_gpa r <= gpa /\ gpa + size <= r_gpa r + r_size r
  | Err (CrossRegion g s) => g = gpa /\ s = size /\ ~ span_ok m gpa size /\
      exists i j r r', (i < j)%nat /\ m_regions m !! i = Some r /\ m_regions m !! j = Some r' /\
        overlaps gpa (gpa + size) r = true /\ overlaps gpa (gpa + size) r' = true
  | Err (OutOfRange g s) => g = gpa /\ s = size /\ ~ span_ok m gpa size
  | Err _ => False
  end.
Proof.
  intros Hwf Hg Hs. destruct (find m gpa size) as [i|e] eqn:Hf.
  { by apply find_Ok in Hf. }
  assert (Hno : ~ span_ok m gpa size).
  { intros (i & r & Hr). assert (find m gpa size = Ok i) as Hf' by (apply find_Ok; eauto).
    congruence. }
  unfold find in Hf. destruct (checked_add 64 gpa size) as [x|] eqn:Hc; [|by simplify_eq].
  apply checked_add_Some in Hc as [-> _]. rewrite (find_scan_spec m Hwf) in Hf by done.
  destruct (position _ (m_regions m)) as [i|] eqn:Hp; simpl in Hf; [|by simplify_eq].
  apply position_Some in Hp as (r & Hr & Ho & _).
  destruct (position _ (drop _ _)) as [k|] eqn:Hp'; simpl in Hf.
  - simplify_eq. apply position_Some in Hp' as (r' & Hr' & Ho' & _).
    rewrite lookup_drop in Hr'. split_and!; try done.
    exists i, (S i + k)%nat, r, r'. split_and!; try done. lia.
  - rewrite Hr in Hf. by destruct (_ || _); simplify_eq.
Qed.

(** Registration through [alloc_region], as [add_region] and [map_flags] do it. *)
Lemma alloc_region_cases m h gpa size :
  wf m -> 0 <= gpa -> 0 <= size ->
  match alloc_region m h gpa size with
  | Ok r => r = fresh_region h gpa size /\ layout_ok gpa size /\
            disjoint_from m gpa size /\ host_ok h
  | Err _ => ~ (layout_ok gpa size /\ disjoint_from m gpa size /\ host_ok h)
  end.
Proof.
  intros Hwf Hg Hs. destruct (alloc_region m h gpa size) as [r|e] eqn:Ha.
  - apply alloc_region_Ok in Ha as (? & ? & ? & ->); done.
  - intros (? & ? & ?).
    assert (alloc_region m h gpa size = Ok (fresh_region h gpa size))
      by (by apply alloc_region_Ok). congruence.
Qed.

(** [map_flags] accepts exactly the page-aligned, non-empty ranges below
    2^64 that share no byte with a registered region (when the host calls
    succeed).  The accepted map is again well formed, the new range reads as
    zero and no other byte of the guest changes. *)
Theorem map_flags_spec m h gpa size flags :
  wf m -> fits 64 gpa -> fits 64 size ->
  match map_flags m h gpa size flags with
  | Ok m' => layout_ok gpa size /\ disjoint_from m gpa size /\ wf m' /\
      forall a, byte_at m' a = if decide (gpa <= a < gpa + size) then Some 0 else byte_at m a
  | Err _ => ~ (layout_ok gpa size /\ disjoint_from m gpa size /\ host_ok h /\ h_vm_map h = None)
  end.
Proof.
  intros Hwf [Hg _] [Hs _]. unfold map_flags.
  pose proof (alloc_region_cases m h gpa size Hwf Hg Hs) as Ha.
  destruct (alloc_region m h gpa size) as [r|e]; simpl; [|naive_solver].
  destruct Ha as (-> & Hlay & Hd & Hh). destruct (h_vm_map h) as [c|] eqn:Hc; [naive_solver|].
  destruct (fresh_region_spec m h gpa size true Hwf Hg Hlay Hd Hh). done.
Qed.

(** C5: [write_bytes] succeeds exactly when one region holds the span, and then
    it is the pointwise update of the guest's bytes; [read_bytes] of any span
    it accepts returns exactly those bytes, so the accessors refine a partial
    byte map. *)
Theorem accessors_refine_byte_map m gpa src :
  wf m -> 0 <= gpa -> src <> [] -> Forall (fits 8) src ->
  match write_bytes m gpa src with
  | Ok m' => span_ok m gpa (Z.of_nat (length src)) /\ wf m' /\
      (forall a, byte_at m' a = if decide (gpa <= a < gpa + Z.of_nat (length src))
                                then src !! Z.to_nat (a - gpa) else byte_at m a) /\
      (forall a n bs, 0 <= a -> (0 < n)%nat -> read_bytes m' a n = Ok bs ->
         forall i, (i < n)%nat -> bs !! i = byte_at m' (a + Z.of_nat i))
  | Err _ => ~ span_ok m gpa (Z.of_nat (length src))
  end.
Proof.
  intros Hwf Hg Hne Hsrc. destruct (write_bytes m gpa src) as [m'|e] eqn:Hw.
  - pose proof (proj1 (write_bytes_is_Ok m gpa src Hwf Hg Hne) (ex_intro _ m' Hw)).
    pose proof (write_bytes_wf _ _ _ _ Hwf Hg Hsrc Hw). split_and!; try done.
    { intros a. by eapply write_bytes_byte_at. }
    intros a n bs Ha Hn Hr. by apply (read_bytes_view m' a n bs) in Hr as (_ & _ & ?).
  - intros Hsp. apply write_bytes_is_Ok in Hsp as [m' Hm']; [congruence|done..].
Qed.

(** Reading back an integer just written, and any read it does not touch, over
    every [ByteMemory]. *)
Section integers.
Context {M} `{!ByteMemory M}.

Definition bm_read_le (n : nat) (m : M) (a : Z) : result MemoryError Z :=
  bs ← bm_read m a n; Ok (of_le bs).
Definition bm_write_le (n : nat) (m : M) (a v : Z) : result MemoryError M :=
  bm_write m a (le_bytes n v).

Lemma bm_read_le_bound n (m : M) a v :
  bm_inv m -> 0 <= a -> (0 < n)%nat -> bm_read_le n m a = Ok v -> fits (8 * Z.of_nat n) v.
Proof.
  intros Hi Ha Hn (bs & Hr & [= <-])%bind_Ok. pose proof (bm_read_fits _ _ _ _ Hi Ha Hr) as Hf.
  apply bm_read_spec in Hr as (_ & Hlen & _); [|done..].
  apply of_le_bound in Hf. rewrite Hlen in Hf. unfold fits.
  change 256 with (2 ^ 8) in Hf. rewrite <- Z.pow_mul_r in Hf by lia. done.
Qed.

Lemma bm_write_read_same n (m m' : M) a v :
  bm_inv m -> 0 <= a -> (0 < n)%nat -> fits (8 * Z.of_nat n) v ->
  bm_write_le n m a v = Ok m' -> bm_read_le n m' a = Ok v.
Proof.
  intros Hi Ha Hn Hv Hw.
  assert (Hne : le_bytes n v <> []) by (destruct n; [lia|done]).
  pose proof (proj1 (bm_write_Ok m a _ Hi Ha Hne) (ex_intro _ m' Hw)) as Hsp.
  destruct (bm_write_spec m a _ m' Hi Ha (le_bytes_fits n v) Hw) as (Hi' & Hb & Hspan).
  rewrite length_le_bytes in *. unfold bm_read_le.
  rewrite (proj2 (bm_read_spec m' a n (le_bytes n v) Hi' Ha Hn)); simpl.
  - by rewrite of_le_le_bytes_fits.
  - split_and!; [by apply Hspan|apply length_le_bytes|].
    intros i Hlt. rewrite Hb, decide_True by lia. f_equal. lia.
Qed.

Lemma bm_write_read_other k (m m' : M) a b src v :
  bm_inv m -> 0 <= a -> 0 <= b -> (0 < k)%nat -> Forall (fits 8) src ->
  b + Z.of_nat k <= a \/ a + Z.of_nat (length src) <= b ->
  bm_write m a src = Ok m' -> bm_read_le k m' b = Ok v <-> bm_read_le k m b = Ok v.
Proof.
  intros Hi Ha Hb Hk Hsrc Hd Hw.
  destruct (bm_write_spec m a src m' Hi Ha Hsrc Hw) as (Hi' & Hbyte & Hspan).
  unfold bm_read_le. rewrite !bind_Ok.
  split; intros (bs & Hr & Hv); exists bs; (split; [|done]);
    (apply bm_read_spec in Hr as (? & ? & Hall); [|done..]);
    (apply bm_read_spec; [done..|]); (split_and!; [by apply Hspan|done|]);
    intros i Hlt; rewrite Hall by done; rewrite Hbyte, decide_False by lia; done.
Qed.

Lemma bm_write_le_inv n (m m' : M) a v :
  bm_inv m -> 0 <= a -> bm_write_le n m a v = Ok m' ->
  bm_inv m' /\ (forall x k, bm_span m' x k <-> bm_span m x k).
Proof.
  intros Hi Ha Hw. destruct (bm_write_spec m a _ m' Hi Ha (le_bytes_fits n v) Hw) as (? & _ & ?).
  done.
Qed.

End integers.

#[export] Hint Resolve bm_read_le_bound bm_write_read_same : tern.

(** An [n]-byte little-endian integer written at [gpa] reads back as
    written, and every integer stored outside those [n] bytes keeps its value. *)
Theorem guest_int_roundtrip n k m m' gpa v b w :
  wf m -> 0 <= gpa -> 0 <= b -> (0 < n)%nat -> (0 < k)%nat -> fits (8 * Z.of_nat n) v ->
  b + Z.of_nat k <= gpa \/ gpa + Z.of_nat n <= b ->
  write_le n m gpa v = Ok m' ->
  read_le n m' gpa = Ok v /\ (read_le k m' b = Ok w <-> read_le k m b = Ok w).
Proof.
  intros Hwf Hg Hb Hn Hk Hv Hd Hw. split.
  - exact (bm_write_read_same (M := Memory) n m m' gpa v Hwf Hg Hn Hv Hw).
  - refine (bm_write_read_other (M := Memory) k m m' gpa b (le_bytes n v) w Hwf Hg Hb Hk _ _ Hw);
      [apply le_bytes_fits|]. by rewrite length_le_bytes.
Qed.

(** *** A small machine: 32 KiB of RAM and a 16 KiB flash page *)

Definition demo_host : Host :=
  {| h_pagesize := 16384; h_mmap := 2 ^ 32; h_errno := 0; h_vm_map := None; h_madvise := 0 |}.

Definition demo_memory : Memory :=
  {| m_regions :=
       [ {| r_gpa := 0; r_size := 16384; r_host := 2 ^ 33; r_bytes := ∅; r_guest_mapped := true |};
         {| r_gpa := 2 ^ 30; r_size := 32768; r_host := 2 ^ 32; r_bytes := {[ 5 := 171 ]};
            r_guest_mapped := true |} ] |}.

Lemma demo_memory_wf : wf demo_memory.
Proof. apply (bool_decide_unpack _). vm_compute. exact I. Qed.

Lemma find_classifies_witness :
  wf demo_memory /\
  match find demo_memory 16380 8 with
  | Err (OutOfRange g s) => g = 16380 /\ s = 8 /\ ~ span_ok demo_memory 16380 8
  | _ => False
  end.
Proof.
  split; [exact demo_memory_wf|].
  exact (find_classifies demo_memory 16380 8 demo_memory_wf ltac:(lia) ltac:(lia)).
Defined.

Lemma map_flags_spec_witness :
  match map_flags demo_memory demo_host (2 ^ 30 + 32768) 16384 7 with
  | Ok m' => wf m' /\ byte_at m' (2 ^ 30 + 32768) = Some 0 /\ byte_at m' (2 ^ 30 + 5) = Some 171
  | Err _ => False
  end.
Proof.
  pose proof (map_flags_spec demo_memory demo_host (2 ^ 30 + 32768) 16384 7 demo_memory_wf
                ltac:(done) ltac:(done)) as H.
  destruct (map_flags _ _ _ _ _) as [m'|e] eqn:E; [|by vm_compute in E].
  destruct H as (_ & _ & Hwf & Hb). split; [exact Hwf|]. rewrite !Hb. done.
Defined.

Lemma accessors_refine_byte_map_witness :
  match write_bytes demo_memory (2 ^ 30 + 4) [1; 2; 3] with
  | Ok m' => byte_at m' (2 ^ 30 + 5) = Some 2 /\ byte_at m' (2 ^ 30 + 7) = Some 0
  | Err _ => False
  end.
Proof.
  pose proof (accessors_refine_byte_map demo_memory (2 ^ 30 + 4) [1; 2; 3] demo_memory_wf
                ltac:(done) ltac:(done) ltac:(repeat constructor; done)) as H.
  destruct (write_bytes _ _ _) as [m'|e] eqn:E; [|by vm_compute in E].
  destruct H as (_ & _ & Hb & _). rewrite !Hb. done.
Defined.

Lemma guest_int_roundtrip_witness :
  exists m', write_le 4 demo_memory (2 ^ 30) 305419896 = Ok m' /\
    read_le 4 m' (2 ^ 30) = Ok 305419896 /\
    (read_le 2 m' (2 ^ 30 + 4) = Ok 43776 <-> read_le 2 demo_memory (2 ^ 30 + 4) = Ok 43776).
Proof.
  eexists. split; [reflexivity|].
  apply (guest_int_roundtrip 4 2 demo_memory _ (2 ^ 30) 305419896 (2 ^ 30 + 4) 43776);
    [exact demo_memory_wf|lia|lia|lia|lia|done|lia|reflexivity].
Defined.
