(* ===== verification/Esr.v ===== *)
(** * ESR_EL2 decoding

    Model of [ternvale-vmm/src/esr.rs]: the exception syndrome of a vCPU exit
    becomes an [ExitEvent].  [kind_from_esr] is the metrics classifier of
    [vcpu/exit.rs], which decodes the same register a second time without
    calling [decode]; the two are proved to agree. *)

From S2P Require Import Prelude.

Definition EC_WFI : Z := 0x01.
Definition EC_HVC64 : Z := 0x16.
Definition EC_SMC64 : Z := 0x17.
Definition EC_SYSREG : Z := 0x18.
Definition EC_IABT_LOWER : Z := 0x20.
Definition EC_IABT_SAME : Z := 0x21.
Definition EC_DABT_LOWER : Z := 0x24.
Definition EC_DABT_SAME : Z := 0x25.
Definition EC_BRK : Z := 0x3c.

Inductive ExitEvent : Type :=
| Mmio (gpa size : Z) (write : bool) (reg : Z)
| Hvc (imm16 : Z)
| Smc (imm16 : Z)
| Wfi (wfe : bool)
| SysReg (op0 op1 crn crm op2 reg : Z) (write : bool)
| Unknown (ec iss : Z).

#[export] Instance ExitEvent_eq_dec : EqDecision ExitEvent.
Proof. solve_decision. Defined.

(** [(x >> k) & m]. *)
Definition field (x k m : Z) : Z := Z.land (Z.shiftr x k) m.

Definition decode_sysreg (iss : Z) : ExitEvent :=
  SysReg (wrap 8 (field iss 20 0x3)) (wrap 8 (field iss 14 0x7)) (wrap 8 (field iss 10 0xf))
         (wrap 8 (field iss 1 0xf)) (wrap 8 (field iss 17 0x7)) (wrap 8 (field iss 5 0x1f))
         (Z.land iss 1 =? 0).

Definition decode_data_abort (ec iss gpa : Z) : ExitEvent :=
  let isv := field iss 24 1 =? 1 in
  let sas := field iss 22 0x3 in
  let reg := wrap 8 (field iss 16 0x1f) in
  let write := field iss 6 1 =? 1 in
  if negb isv then Unknown ec iss
  else Mmio gpa (wrap 8 (Z.shiftl 1 sas)) write reg.

Definition decode (esr gpa : Z) : ExitEvent :=
  let ec := field esr 26 0x3f in
  let iss := wrap 32 (Z.land esr 0x1ffffff) in
  if ec =? EC_WFI then Wfi (Z.land iss 1 =? 1)
  else if ec =? EC_HVC64 then Hvc (wrap 16 (Z.land iss 0xffff))
  else if ec =? EC_SMC64 then Smc (wrap 16 (Z.land iss 0xffff))
  else if ec =? EC_SYSREG then decode_sysreg iss
  else if (ec =? EC_DABT_LOWER) || (ec =? EC_DABT_SAME) then decode_data_abort (wrap 8 ec) iss gpa
  else if (ec =? EC_IABT_LOWER) || (ec =? EC_IABT_SAME) || (ec =? EC_BRK)
       then Unknown (wrap 8 ec) iss
  else Unknown (wrap 8 ec) iss.

(** The classes of [ternvale_metrics::ExitKind] the ESR path uses. *)
Inductive ExitKind : Type :=
| KWfe | KWfi | KHvc | KSmc | KSysReg | KMmio | KUnknown.

Definition kind_from_esr (esr : Z) : ExitKind :=
  let ec := field esr 26 0x3f in
  let iss := Z.land esr 0x1ffffff in
  if (ec =? 0x01) && (Z.land iss 1 =? 1) then KWfe
  else if ec =? 0x01 then KWfi
  else if ec =? 0x16 then KHvc
  else if ec =? 0x17 then KSmc
  else if ec =? 0x18 then KSysReg
  else if ((ec =? 0x24) || (ec =? 0x25)) && (field iss 24 1 =? 1) then KMmio
  else KUnknown.

(** ** Fields *)

Lemma field_bound x k m n : 0 <= n -> m = Z.ones n -> 0 <= field x k m < 2 ^ n.
Proof. intros. by apply land_low_bound. Qed.

Lemma field_value x k m n :
  0 <= n -> 0 <= k -> m = Z.ones n -> field x k m = x / 2 ^ k mod 2 ^ n.
Proof. intros Hn Hk Hm. unfold field. by rewrite (land_low _ n), Z.shiftr_div_pow2. Qed.

(** The documented layout: [n] bits of [x] from bit [k]. *)
Definition slice (x k n : Z) : Z := x / 2 ^ k mod 2 ^ n.

Lemma slice_bound x k n : 0 <= n -> 0 <= slice x k n < 2 ^ n.
Proof. intros. apply Z.mod_pos_bound, Z.pow_pos_nonneg; lia. Qed.

Lemma iss_value esr : wrap 32 (Z.land esr 0x1ffffff) = slice esr 0 25.
Proof.
  rewrite (land_low esr 25) by done. unfold slice. rewrite Z.pow_0_r, Z.div_1_r.
  apply wrap_small. pose proof (Z.mod_pos_bound esr (2 ^ 25)). unfold fits. lia.
Qed.

(** A field of the ISS is the same field of the whole syndrome. *)
Lemma iss_field esr k n m :
  0 <= k -> 0 <= n -> k + n <= 25 -> m = Z.ones n ->
  field (slice esr 0 25) k m = slice esr k n.
Proof.
  intros Hk Hn Hkn Hm. rewrite (field_value _ k m n) by done. unfold slice.
  rewrite Z.pow_0_r, Z.div_1_r.
  replace 25 with (k + (25 - k)) by lia. rewrite Z.pow_add_r by lia.
  rewrite Z.rem_mul_r by (try apply Z.pow_nonzero; lia).
  rewrite Z.mul_comm, Z.div_add by (apply Z.pow_nonzero; lia).
  rewrite Z.div_small, Z.add_0_l by (apply Z.mod_pos_bound, Z.pow_pos_nonneg; lia).
  replace (25 - k) with (n + (25 - k - n)) by lia. rewrite Z.pow_add_r by lia.
  rewrite Z.rem_mul_r by (try apply Z.pow_nonzero; lia).
  rewrite Z.mul_comm, Z.mod_add by (apply Z.pow_nonzero; lia).
  apply Z.mod_mod, Z.pow_nonzero; lia.
Qed.

Lemma slice_bit x k : 0 <= k -> (slice x k 1 =? 1) = Z.testbit x k.
Proof.
  intros Hk. unfold slice. pose proof (Z.testbit_spec' x k Hk) as Hb. rewrite Z.pow_1_r, <- Hb.
  by destruct (Z.testbit x k).
Qed.

Lemma land_1_field x : Z.land x 1 = field x 0 1.
Proof. unfold field. by rewrite Z.shiftr_0_r. Qed.

Lemma wrap8_slice x k n : 0 <= n <= 8 -> wrap 8 (slice x k n) = slice x k n.
Proof.
  intros Hn. apply wrap_small. pose proof (slice_bound x k n ltac:(lia)).
  assert (2 ^ n <= 2 ^ 8) by (apply Z.pow_le_mono_r; lia). unfold fits. lia.
Qed.

(** The event as a function of the documented fields. *)
Lemma decode_fields esr gpa :
  decode esr gpa =
  let ec := slice esr 26 6 in
  if ec =? EC_WFI then Wfi (Z.testbit esr 0)
  else if ec =? EC_HVC64 then Hvc (slice esr 0 16)
  else if ec =? EC_SMC64 then Smc (slice esr 0 16)
  else if ec =? EC_SYSREG then
    SysReg (slice esr 20 2) (slice esr 14 3) (slice esr 10 4) (slice esr 1 4) (slice esr 17 3)
           (slice esr 5 5) (negb (Z.testbit esr 0))
  else if ((ec =? EC_DABT_LOWER) || (ec =? EC_DABT_SAME)) && Z.testbit esr 24 then
    Mmio gpa (2 ^ slice esr 22 2) (Z.testbit esr 6) (slice esr 16 5)
  else Unknown ec (slice esr 0 25).
Proof.
  unfold decode, decode_sysreg, decode_data_abort.
  rewrite (field_value esr 26 0x3f 6) by done. fold (slice esr 26 6).
  rewrite iss_value. set (iss := slice esr 0 25). cbv zeta.
  rewrite (wrap8_slice esr 26 6) by lia.
  rewrite !land_1_field.
  assert (Himm : wrap 16 (Z.land iss 0xffff) = slice esr 0 16).
  { transitivity (wrap 16 (field iss 0 0xffff)); [unfold field; by rewrite Z.shiftr_0_r|].
    unfold iss. rewrite (iss_field esr 0 16) by done. apply wrap_small, slice_bound. lia. }
  assert (Hf : forall k n m, 0 <= k -> 0 <= n <= 8 -> k + n <= 25 -> m = Z.ones n ->
                 field iss k m = slice esr k n) by (intros; apply iss_field; lia).
  rewrite Himm, (Hf 0 1), (Hf 20 2), (Hf 14 3), (Hf 10 4), (Hf 1 4), (Hf 17 3), (Hf 5 5), (Hf 24 1),
    (Hf 22 2), (Hf 16 5), (Hf 6 1) by done.
  rewrite !wrap8_slice, !slice_bit by lia.
  assert (slice esr 0 1 =? 0 = negb (Z.testbit esr 0)) as ->.
  { rewrite <- slice_bit by lia. pose proof (slice_bound esr 0 1). zbool; simpl; lia. }
  assert (wrap 8 (Z.shiftl 1 (slice esr 22 2)) = 2 ^ slice esr 22 2) as ->.
  { pose proof (slice_bound esr 22 2 ltac:(lia)). rewrite Z.shiftl_1_l. apply wrap_small.
    split; [lia|]. apply Z.pow_lt_mono_r; lia. }
  destruct (Z.testbit esr 24); simpl; rewrite ?andb_true_r, ?andb_false_r;
    zbool; simpl; done.
Qed.

(** A data abort always describes an access the MMIO bus accepts. *)
Lemma decode_mmio_range esr gpa g size w reg :
  decode esr gpa = Mmio g size w reg ->
  g = gpa /\ (size = 1 \/ size = 2 \/ size = 4 \/ size = 8) /\ 0 <= reg <= 31.
Proof.
  rewrite decode_fields. cbv zeta. intros H.
  repeat match type of H with (if ?b then _ else _) = _ => destruct b; [first [done|idtac]|] end;
    simplify_eq.
  pose proof (slice_bound esr 16 5 ltac:(lia)). pose proof (slice_bound esr 22 2 ltac:(lia)) as Hs.
  split; [done|]. split; [|lia].
  assert (slice esr 22 2 = 0 \/ slice esr 22 2 = 1 \/ slice esr 22 2 = 2 \/ slice esr 22 2 = 3) as Hc by lia.
  destruct Hc as [-> | [-> | [-> | ->]]]; auto.
Qed.

(** ** Properties *)

(** [decode] reads exactly the architectural bit fields of ESR_EL2 (EC in
    31:26, ISS in 24:0, ISV 24, SAS 23:22, SRT 20:16, WnR 6, ...): no mask,
    shift or narrowing cast loses a bit, a data abort without ISV stays
    [Unknown], and its access size is 1, 2, 4 or 8 with a register up to 31. *)
Theorem decode_layout esr gpa :
  (decode esr gpa =
  let ec := slice esr 26 6 in
  if ec =? EC_WFI then Wfi (Z.testbit esr 0)
  else if ec =? EC_HVC64 then Hvc (slice esr 0 16)
  else if ec =? EC_SMC64 then Smc (slice esr 0 16)
  else if ec =? EC_SYSREG then
    SysReg (slice esr 20 2) (slice esr 14 3) (slice esr 10 4) (slice esr 1 4) (slice esr 17 3)
           (slice esr 5 5) (negb (Z.testbit esr 0))
  else if ((ec =? EC_DABT_LOWER) || (ec =? EC_DABT_SAME)) && Z.testbit esr 24 then
    Mmio gpa (2 ^ slice esr 22 2) (Z.testbit esr 6) (slice esr 16 5)
  else Unknown ec (slice esr 0 25)) /\
  (forall g size w reg, decode esr gpa = Mmio g size w reg ->
     g = gpa /\ (size = 1 \/ size = 2 \/ size = 4 \/ size = 8) /\ 0 <= reg <= 31).
Proof. split; [apply decode_fields|apply decode_mmio_range]. Qed.

(** The class of a decoded event. *)
Definition event_kind (e : ExitEvent) : ExitKind :=
  match e with
  | Mmio _ _ _ _ => KMmio
  | Hvc _ => KHvc
  | Smc _ => KSmc
  | Wfi wfe => if wfe then KWfe else KWfi
  | SysReg _ _ _ _ _ _ _ => KSysReg
  | Unknown _ _ => KUnknown
  end.

(** The metrics classifier of [vcpu/exit.rs] puts every syndrome in the
    class of the event [decode] turns it into, whatever the guest address. *)
Theorem kind_from_esr_agrees esr gpa : kind_from_esr esr = event_kind (decode esr gpa).
Proof.
  unfold kind_from_esr, decode, decode_data_abort, decode_sysreg.
  rewrite iss_value. rewrite (land_low esr 25) by done.
  replace (esr mod 2 ^ 25) with (slice esr 0 25)
    by (unfold slice; by rewrite Z.pow_0_r, Z.div_1_r).
  set (iss := slice esr 0 25). set (ec := field esr 26 0x3f).
  unfold EC_WFI, EC_HVC64, EC_SMC64, EC_SYSREG, EC_DABT_LOWER, EC_DABT_SAME, EC_IABT_LOWER,
    EC_IABT_SAME, EC_BRK.
  destruct (Z.land iss 1 =? 1), (field iss 24 1 =? 1); zbool; simpl; done.
Qed.
