(* ===== verification/MmioBus.v ===== *)
(** * MMIO dispatch

    Model of [ternvale-vmm/src/mmio.rs]: the sorted vector of device windows,
    registration, the lookup with its per-thread last-hit cache, and the
    completion of one MMIO exit against a device and the guest's registers.

    [MmioDevice] and [GuestRegs] are the Rust traits.  A device's lock-free
    [KickPort] shares the device's state, so [dev_try_kick] acts on the same
    [D].  The access trace and the latency metrics only observe accesses and
    are not modelled. *)

From stdpp Require Import strings.
From S2P Require Import Prelude Windows Esr.

(** ** Traits *)

Class MmioDevice (D : Type) := {
  dev_name : D -> string;
  dev_read : D -> Z -> Z -> Z * D;
  dev_write : D -> Z -> Z -> Z -> D;
  (** [kick_port().try_kick]: [Some] when the write was a notify. *)
  dev_try_kick : D -> Z -> Z -> option D;
}.

(** Register access can fail with a vCPU error code. *)
Class GuestRegs (R : Type) := {
  get_reg : R -> Z -> result Z Z;
  set_reg : R -> Z -> Z -> result Z R;
}.

(** ** Data *)

Inductive MmioError : Type :=
| Overlap (base size other_base other_size : Z)
| Empty (base : Z)
| Overflow (base size : Z)
| BadSize (size : Z)
| BadReg (reg : Z)
| NotMmio
| VcpuError (code : Z)
(** Out-of-bounds [self.devices[index]]; [dispatch] never returns it. *)
| IndexPanic.

Section bus.
Context {D R : Type} `{!MmioDevice D} `{!GuestRegs R}.

Record Slot := {
  s_base : Z;
  s_size : Z;
  s_name : string;
  s_device : D;
  s_accesses : Z;
}.

#[export] Instance Slot_Window : Window Slot := {| w_base := s_base; w_size := s_size |}.

Record MmioBus := { b_devices : list Slot; b_generation : Z }.

(** The thread-local [LAST_HIT] cell: bus address, generation, index. *)
Record LastHit := { c_bus : Z; c_gen : Z; c_idx : Z }.

(** What one vCPU thread works on: the shared bus, its cell, its registers. *)
Record Thread := { t_bus : MmioBus; t_hit : LastHit; t_regs : R }.

(** ** Registration *)

Definition new : MmioBus := {| b_devices := []; b_generation := 1 |}.

Definition register (bus : MmioBus) (base size : Z) (device : D) : result MmioError MmioBus :=
  if size =? 0 then Err (Empty base)
  else match checked_add 64 base size with
       | None => Err (Overflow base size)
       | Some e =>
           let meets slot :=
             (base <? saturating_add 64 (s_base slot) (s_size slot)) && (s_base slot <? e) in
           match find_map (fun slot => if meets slot then Some slot else None) (b_devices bus) with
           | Some other => Err (Overlap base size (s_base other) (s_size other))
           | None =>
               let slot := {| s_base := base; s_size := size; s_name := dev_name device;
                              s_device := device; s_accesses := 0 |} in
               let index := partition_point (fun other => s_base other <? base) (b_devices bus) in
               Ok {| b_devices := insert_at index slot (b_devices bus);
                     b_generation := add_w 64 (b_generation bus) 1 |}
           end
       end.

(** ** Lookup *)

(** [Slot::contains]. *)
Definition slot_contains (gpa e : Z) (slot : Slot) : bool :=
  (s_base slot <=? gpa) && (e <=? add_w 64 (s_base slot) (s_size slot)).

(** [MmioBus::lookup_sorted]. *)
Definition bus_lookup_sorted (bus : MmioBus) (gpa e : Z) : option nat :=
  match partition_point (fun slot => s_base slot <=? gpa) (b_devices bus) with
  | O => None
  | S index =>
      match b_devices bus !! index with
      | Some slot => if slot_contains gpa e slot then Some index else None
      | None => None
      end
  end.

(** [MmioBus::lookup]; [self_addr] is the address of this bus. *)
Definition lookup (self_addr : Z) (bus : MmioBus) (hit : LastHit) (gpa e : Z)
  : option nat * LastHit :=
  let gen := b_generation bus in
  let miss :=
    match bus_lookup_sorted bus gpa e with
    | Some index => (Some index, {| c_bus := self_addr; c_gen := gen; c_idx := Z.of_nat index |})
    | None => (None, hit)
    end in
  if (c_bus hit =? self_addr) && (c_gen hit =? gen) then
    match get (b_devices bus) (c_idx hit) with
    | Some slot => if slot_contains gpa e slot then (Some (Z.to_nat (c_idx hit)), hit) else miss
    | None => miss
    end
  else miss.

Definition access_count (bus : MmioBus) (name : string) : option Z :=
  find_map (fun slot => if bool_decide (s_name slot = name) then Some (s_accesses slot) else None)
           (b_devices bus).

(** ** Dispatch *)

Definition mask (value size : Z) : Z :=
  if size =? 1 then Z.land value 0xff
  else if size =? 2 then Z.land value 0xffff
  else if size =? 4 then Z.land value 0xffffffff
  else value.

Definition set_bus (t : Thread) (bus : MmioBus) : Thread :=
  {| t_bus := bus; t_hit := t_hit t; t_regs := t_regs t |}.
Definition set_regs (t : Thread) (regs : R) : Thread :=
  {| t_bus := t_bus t; t_hit := t_hit t; t_regs := regs |}.
Definition set_hit (t : Thread) (hit : LastHit) : Thread :=
  {| t_bus := t_bus t; t_hit := hit; t_regs := t_regs t |}.

Definition slot_set_device (d : D) (slot : Slot) : Slot :=
  {| s_base := s_base slot; s_size := s_size slot; s_name := s_name slot;
     s_device := d; s_accesses := s_accesses slot |}.
(** [accesses.fetch_add(1)]. *)
Definition slot_count (slot : Slot) : Slot :=
  {| s_base := s_base slot; s_size := s_size slot; s_name := s_name slot;
     s_device := s_device slot; s_accesses := add_w 64 (s_accesses slot) 1 |}.
Definition update_slot (index : nat) (f : Slot -> Slot) (t : Thread) : Thread :=
  set_bus t {| b_devices := alter f index (b_devices (t_bus t));
               b_generation := b_generation (t_bus t) |}.

(** The raw value of a write: [XZR] reads as zero. *)
Definition read_src (t : Thread) (reg : Z) : result MmioError Z :=
  if reg =? 31 then Ok 0
  else match get_reg (t_regs t) reg with Ok v => Ok v | Err c => Err (VcpuError c) end.

(** Store a read's result: a read into [XZR] is discarded. *)
Definition write_dst (t : Thread) (reg value : Z) : Thread * result MmioError unit :=
  if reg =? 31 then (t, Ok tt)
  else match set_reg (t_regs t) reg value with
       | Ok regs => (set_regs t regs, Ok tt)
       | Err c => (t, Err (VcpuError c))
       end.

(** [MmioBus::unmapped]. *)
Definition unmapped (t : Thread) (gpa size : Z) (write : bool) (reg : Z)
  : Thread * result MmioError unit :=
  if write then
    match read_src t reg with Ok _ => (t, Ok tt) | Err e => (t, Err e) end
  else write_dst t reg 0.

(** The access to the matching slot, then its counter. *)
Definition mapped (t : Thread) (index : nat) (slot : Slot) (gpa size : Z) (write : bool) (reg : Z)
  : Thread * result MmioError unit :=
  let offset := gpa - s_base slot in
  if write then
    match read_src t reg with
    | Err e => (t, Err e)
    | Ok raw =>
        let value := mask raw size in
        let d := match dev_try_kick (s_device slot) offset value with
                 | Some d => d
                 | None => dev_write (s_device slot) offset size value
                 end in
        (update_slot index slot_count (update_slot index (slot_set_device d) t), Ok tt)
    end
  else
    let '(raw, d) := dev_read (s_device slot) offset size in
    let t1 := update_slot index (slot_set_device d) t in
    match write_dst t1 reg (mask raw size) with
    | (t2, Ok _) => (update_slot index slot_count t2, Ok tt)
    | (t2, Err e) => (t2, Err e)
    end.

Definition dispatch (self_addr : Z) (t : Thread) (event : ExitEvent)
  : Thread * result MmioError unit :=
  match event with
  | Mmio gpa size write reg =>
      if negb ((size =? 1) || (size =? 2) || (size =? 4) || (size =? 8)) then (t, Err (BadSize size))
      else if 31 <? reg then (t, Err (BadReg reg))
      else match checked_add 64 gpa size with
           | None => (t, Err (Overflow gpa size))
           | Some e =>
               let '(found, hit) := lookup self_addr (t_bus t) (t_hit t) gpa e in
               let t := set_hit t hit in
               match found with
               | None => unmapped t gpa size write reg
               | Some index =>
                   match b_devices (t_bus t) !! index with
                   | Some slot => mapped t index slot gpa size write reg
                   | None => (t, Err IndexPanic)
                   end
               end
           end
  | _ => (t, Err NotMmio)
  end.

End bus.
Arguments Slot : clear implicits.
Arguments MmioBus : clear implicits.
Arguments Thread : clear implicits.

(** ** Invariant and lookup *)

Section facts.
Context {D R : Type} `{!MmioDevice D} `{!GuestRegs R}.
Implicit Types (bus : MmioBus D) (t : Thread D R) (slot : Slot D).

(** Windows are non-empty, below 2^64, sorted and disjoint. *)
Definition wf_bus bus : Prop := sorted_windows (b_devices bus).

#[export] Instance wf_bus_dec bus : Decision (wf_bus bus).
Proof. unfold wf_bus. apply _. Defined.

Lemma slot_contains_valid gpa e slot : valid slot -> slot_contains gpa e slot = contains gpa e slot.
Proof.
  intros (? & ? & ?). unfold slot_contains, contains, add_w, w_end in *. simpl in *.
  rewrite wrap_small by (unfold fits; lia). done.
Qed.

Lemma bus_lookup_sorted_eq bus gpa e :
  wf_bus bus -> bus_lookup_sorted bus gpa e = lookup_sorted (b_devices bus) gpa e.
Proof.
  intros Hwf. unfold bus_lookup_sorted, lookup_sorted. simpl.
  destruct (partition_point _ _) as [|i]; [done|].
  destruct (b_devices bus !! i) as [slot|] eqn:Hs; [|done].
  rewrite slot_contains_valid; [done|]. by eapply sorted_valid.
Qed.

(** Whatever the last-hit cell holds, the cached lookup returns the window a
    linear scan of all windows finds. *)
Lemma lookup_linear addr bus hit gpa e :
  wf_bus bus -> gpa < e ->
  fst (lookup addr bus hit gpa e) = position (contains gpa e) (b_devices bus).
Proof.
  intros Hwf Hlt. unfold lookup. rewrite bus_lookup_sorted_eq by done.
  rewrite (lookup_sorted_position (b_devices bus)) by done.
  assert (Hmiss : forall r : option nat,
    fst match r with
        | Some index => (Some index, {| c_bus := addr; c_gen := b_generation bus;
                                        c_idx := Z.of_nat index |})
        | None => (None, hit) end = r) by (by intros []).
  destruct (_ && _); [|apply Hmiss].
  destruct (get (b_devices bus) (c_idx hit)) as [slot|] eqn:Hg; [|apply Hmiss].
  pose proof (get_Some_range _ _ _ Hg). rewrite get_lookup in Hg by lia.
  assert (valid slot) by (by eapply sorted_valid). rewrite slot_contains_valid by done.
  destruct (contains gpa e slot) eqn:Hc; [|apply Hmiss]. simpl.
  destruct (position (contains gpa e) (b_devices bus)) as [j|] eqn:Hp.
  - apply position_Some in Hp as (x & Hx & Hcx & _). f_equal.
    apply contains_true in Hc, Hcx. symmetry.
    eapply (windows_unique (b_devices bus) j (Z.to_nat (c_idx hit)) x slot gpa); eauto; lia.
  - rewrite position_None in Hp. eapply Forall_lookup_1 in Hp; [|done]. congruence.
Qed.

(** ** Registration *)

Lemma meets_valid base e slot :
  valid slot ->
  (base <? saturating_add 64 (s_base slot) (s_size slot)) && (s_base slot <? e)
  = overlaps base e slot.
Proof.
  intros (? & ? & ?). unfold saturating_add, overlaps, w_end in *. simpl in *.
  by rewrite Z.min_l by lia.
Qed.

Definition new_slot (base size : Z) (device : D) : Slot D :=
  {| s_base := base; s_size := size; s_name := dev_name device; s_device := device; s_accesses := 0 |}.

(** ** Dispatch *)

Definition mmio_size (size : Z) : Prop := size = 1 \/ size = 2 \/ size = 4 \/ size = 8.

Lemma mask_fits v size : mmio_size size -> fits 64 v -> fits (8 * size) (mask v size).
Proof.
  intros [->|[->|[->| ->]]] Hv; unfold mask; simpl.
  - by apply (land_low_bound v 8).
  - by apply (land_low_bound v 16).
  - by apply (land_low_bound v 32).
  - done.
Qed.

Lemma mask_mod v size : mmio_size size -> fits 64 v -> mask v size = v mod 2 ^ (8 * size).
Proof.
  intros [->|[->|[->| ->]]] Hv; unfold mask; simpl.
  - by apply (land_low v 8).
  - by apply (land_low v 16).
  - by apply (land_low v 32).
  - symmetry. by apply Z.mod_small.
Qed.

Lemma alter_same_window (f : Slot D -> Slot D) i (l : list (Slot D)) :
  (forall s, s_base (f s) = s_base s /\ s_size (f s) = s_size s) ->
  sorted_windows l -> sorted_windows (alter f i l).
Proof.
  intros Hf [Hv Hs]. split.
  - clear Hs. revert i. induction Hv as [|x l Hx Hv IH]; intros [|i]; simpl; constructor; [|done|done|apply IH].
    destruct (Hf x) as [Hb Hz]. unfold valid, w_end in *. simpl in *. by rewrite Hb, Hz.
  - clear Hv. revert i. induction l as [|x l IH]; intros [|i]; simpl in *; try done.
    + destruct Hs as [Hx Hs]. split; [|done]. destruct (Hf x) as [Hb Hz].
      eapply Forall_impl; [|apply Hx]. unfold w_end. simpl. intros y. by rewrite Hb, Hz.
    + destruct Hs as [Hx Hs]. split; [|by apply IH]. clear -Hf Hx. revert i.
      induction Hx as [|y l Hy Hx IH]; intros [|i]; simpl; constructor; [|done|done|apply IH].
      destruct (Hf y) as [Hb _]. unfold w_end in *. simpl in *. by rewrite Hb.
Qed.

Lemma update_slot_wf i f t :
  (forall s, s_base (f s) = s_base s /\ s_size (f s) = s_size s) ->
  wf_bus (t_bus t) -> wf_bus (t_bus (update_slot i f t)).
Proof. intros Hf Hwf. by apply alter_same_window. Qed.

Lemma write_dst_bus t reg v : t_bus (fst (write_dst t reg v)) = t_bus t.
Proof. unfold write_dst. destruct (_ =? _); [done|]. by destruct (set_reg _ _ _). Qed.

Lemma unmapped_bus t gpa size w reg : t_bus (fst (unmapped t gpa size w reg)) = t_bus t.
Proof.
  unfold unmapped. destruct w; [by destruct (read_src t reg)|]. apply write_dst_bus.
Qed.

Lemma mapped_wf t i slot gpa size w reg :
  wf_bus (t_bus t) -> wf_bus (t_bus (fst (mapped t i slot gpa size w reg))).
Proof.
  intros Hwf. unfold mapped. destruct w.
  - destruct (read_src t reg); [|done]. cbn [fst].
    apply update_slot_wf; [done|]. by apply update_slot_wf.
  - destruct (dev_read _ _ _) as [raw d]. set (t1 := update_slot _ _ t).
    assert (wf_bus (t_bus t1)) by (by apply update_slot_wf).
    pose proof (write_dst_bus t1 reg (mask raw size)) as Hb.
    destruct (write_dst t1 reg (mask raw size)) as [t2 []]; cbn [fst] in *;
      [apply update_slot_wf; [done|]|]; by rewrite Hb.
Qed.

Lemma read_src_no_panic t reg : read_src t reg <> Err IndexPanic.
Proof. unfold read_src. destruct (_ =? _); [done|]. by destruct (get_reg _ _). Qed.

Lemma write_dst_no_panic t reg v : snd (write_dst t reg v) <> Err IndexPanic.
Proof. unfold write_dst. destruct (_ =? _); [done|]. by destruct (set_reg _ _ _). Qed.

Lemma unmapped_no_panic t gpa size w reg : snd (unmapped t gpa size w reg) <> Err IndexPanic.
Proof.
  unfold unmapped. destruct w; [|apply write_dst_no_panic].
  pose proof (read_src_no_panic t reg). destruct (read_src t reg); simpl; [done|congruence].
Qed.

Lemma mapped_no_panic t i slot gpa size w reg :
  snd (mapped t i slot gpa size w reg) <> Err IndexPanic.
Proof.
  unfold mapped. destruct w.
  - pose proof (read_src_no_panic t reg). destruct (read_src t reg); simpl; [done|congruence].
  - destruct (dev_read _ _ _) as [raw d].
    match goal with |- context [write_dst ?t1 ?r ?v] => pose proof (write_dst_no_panic t1 r v);
      destruct (write_dst t1 r v) as [? []]; simpl in *; [done|congruence] end.
Qed.

(** The three shapes of an accepted event, after the guards and the lookup. *)
Lemma dispatch_cases addr t gpa size w reg :
  wf_bus (t_bus t) -> mmio_size size -> 0 <= reg <= 31 ->
  exists hit, dispatch addr t (Mmio gpa size w reg) =
  if gpa + size <? 2 ^ 64 then
    match position (contains gpa (gpa + size)) (b_devices (t_bus t)) with
    | None => unmapped (set_hit t hit) gpa size w reg
    | Some i => match b_devices (t_bus t) !! i with
                | Some slot => mapped (set_hit t hit) i slot gpa size w reg
                | None => (set_hit t hit, Err IndexPanic)
                end
    end
  else (t, Err (Overflow gpa size)).
Proof.
  intros Hwf Hsz Hreg. unfold dispatch.
  assert (negb ((size =? 1) || (size =? 2) || (size =? 4) || (size =? 8)) = false) as ->.
  { by destruct Hsz as [->|[->|[->| ->]]]. }
  destruct (Z.ltb_spec 31 reg); [lia|]. unfold checked_add.
  destruct (gpa + size <? 2 ^ 64); [|by exists (t_hit t)].
  pose proof (lookup_linear addr (t_bus t) (t_hit t) gpa (gpa + size) Hwf) as Hl.
  destruct (lookup _ _ _ _ _) as [found hit]. simpl in Hl. exists hit.
  rewrite <- Hl by (unfold mmio_size in Hsz; lia). done.
Qed.

(** ** Properties *)

(** [register] accepts exactly the non-empty windows below 2^64 that share
    no byte with a registered one; the accepted bus is again sorted and
    disjoint, holds the old slots plus the new one, and has a new generation. *)
Theorem register_spec bus base size device :
  wf_bus bus -> fits 64 base -> fits 64 size ->
  match register bus base size device with
  | Ok bus' => wf_bus bus' /\ b_devices bus' ≡ₚ new_slot base size device :: b_devices bus /\
      b_generation bus' = wrap 64 (b_generation bus + 1)
  | Err (Empty b) => b = base /\ size = 0
  | Err (Overflow b z) => b = base /\ z = size /\ 2 ^ 64 <= base + size
  | Err (Overlap b z ob oz) => b = base /\ z = size /\
      exists i slot, b_devices bus !! i = Some slot /\ ob = s_base slot /\ oz = s_size slot /\
        base < ob + oz /\ ob < base + size
  | Err _ => False
  end.
Proof.
  intros Hwf [Hb _] [Hs _]. unfold register.
  destruct (Z.eqb_spec size 0) as [->|]; [done|].
  destruct (checked_add 64 base size) as [e|] eqn:Hadd.
  2: { by apply checked_add_None in Hadd. }
  apply checked_add_Some in Hadd as [-> Hlt].
  assert (Hmeets : forall i slot, b_devices bus !! i = Some slot ->
    (base <? saturating_add 64 (s_base slot) (s_size slot)) && (s_base slot <? base + size)
    = overlaps base (base + size) slot).
  { intros i slot Hi. apply meets_valid. by eapply sorted_valid. }
  destruct (find_map _ _) as [other|] eqn:Hf.
  - apply find_map_Some_lookup in Hf as (i & slot & Hi & Hm).
    rewrite (Hmeets _ _ Hi) in Hm. destruct (overlaps _ _ slot) eqn:Ho; simplify_eq.
    apply overlaps_true in Ho as [? ?]. unfold w_end in *. simpl in *.
    split_and!; try done. by exists i, other.
  - rewrite find_map_None, Forall_lookup in Hf. split_and!; [|apply insert_at_perm|done].
    refine (insert_sorted (b_devices bus) (new_slot base size device) Hwf _ _).
    + unfold valid, w_end. simpl. lia.
    + apply Forall_lookup. intros i slot Hi. specialize (Hf i slot Hi).
      rewrite (Hmeets _ _ Hi) in Hf. unfold w_end. simpl. by destruct (overlaps _ _ slot).
Qed.

(** The cached binary-search lookup returns what a linear scan for the
    window containing the access returns, whatever a thread's last-hit cell
    holds (another bus, a stale generation, any index). *)
Theorem lookup_reference addr bus hit gpa e :
  wf_bus bus -> gpa < e ->
  fst (lookup addr bus hit gpa e) = position (contains gpa e) (b_devices bus).
Proof. apply lookup_linear. Qed.

(** The access a device sees is inside its window and masked to its size. *)
Section contract.
Context (P : Z -> D -> Prop).
Hypothesis reg_u64 : forall (r : R) i v, get_reg r i = Ok v -> fits 64 v.
Hypothesis read_keeps : forall n d off size,
  P n d -> 0 <= off -> off + size <= n -> mmio_size size -> P n (snd (dev_read d off size)).
Hypothesis write_keeps : forall n d off size v,
  P n d -> 0 <= off -> off + size <= n -> mmio_size size -> fits (8 * size) v ->
  P n (dev_write d off size v).
Hypothesis kick_keeps : forall n d off v d',
  P n d -> 0 <= off < n -> fits 64 v -> dev_try_kick d off v = Some d' -> P n d'.

Definition devices_ok bus : Prop := Forall (fun s => P (s_size s) (s_device s)) (b_devices bus).

Lemma update_device_ok i slot d t :
  b_devices (t_bus t) !! i = Some slot -> devices_ok (t_bus t) -> P (s_size slot) d ->
  devices_ok (t_bus (update_slot i (slot_set_device d) t)).
Proof.
  intros Hi Hall Hd. unfold devices_ok in *. rewrite Forall_lookup in *. simpl.
  intros j x. rewrite list_lookup_alter. case_decide as Hij.
  - rewrite Hi. intros [= <-]. done.
  - apply Hall.
Qed.

Lemma count_ok i t : devices_ok (t_bus t) -> devices_ok (t_bus (update_slot i slot_count t)).
Proof.
  unfold devices_ok. rewrite !Forall_lookup. simpl. intros Hall j x.
  rewrite list_lookup_alter. case_decide as Hij; [|apply Hall].
  destruct (b_devices (t_bus t) !! i) as [s|] eqn:Hs; intros [= <-].
  exact (Hall i s Hs).
Qed.

Lemma read_src_u64 t reg v : read_src t reg = Ok v -> fits 64 v.
Proof.
  unfold read_src. destruct (_ =? _); [by intros [= <-]|].
  destruct (get_reg _ _) eqn:Hg; [|done]. intros [= <-]. by eapply reg_u64.
Qed.

Lemma mapped_ok t i slot gpa size w reg :
  b_devices (t_bus t) !! i = Some slot -> contains gpa (gpa + size) slot = true ->
  mmio_size size -> devices_ok (t_bus t) ->
  devices_ok (t_bus (fst (mapped t i slot gpa size w reg))).
Proof.
  intros Hi [Hlo Hhi]%contains_true Hsz Hall. unfold w_end in Hhi. simpl in *.
  assert (HP : P (s_size slot) (s_device slot)) by (by eapply Forall_lookup_1 in Hall).
  assert (0 < size) by (unfold mmio_size in Hsz; lia).
  unfold mapped. destruct w.
  - destruct (read_src t reg) as [raw|e] eqn:Hr; [|done]. cbn [fst].
    apply read_src_u64 in Hr as Hraw. apply count_ok, (update_device_ok i slot); try done.
    pose proof (mask_fits raw size Hsz Hraw) as Hm.
    assert (fits 64 (mask raw size)).
    { destruct Hm. split; [done|]. eapply Z.lt_le_trans; [done|].
      apply Z.pow_le_mono_r; unfold mmio_size in Hsz; lia. }
    destruct (dev_try_kick _ _ _) as [d|] eqn:Hk.
    + eapply kick_keeps; eauto. lia.
    + apply write_keeps; try done; lia.
  - pose proof (read_keeps (s_size slot) (s_device slot) (gpa - s_base slot) size HP
                  ltac:(lia) ltac:(lia) Hsz) as Hd.
    destruct (dev_read _ _ _) as [raw d]. set (t1 := update_slot _ _ t).
    assert (devices_ok (t_bus t1)) by (by apply (update_device_ok i slot)).
    pose proof (write_dst_bus t1 reg (mask raw size)) as Hb.
    destruct (write_dst t1 reg (mask raw size)) as [t2 []]; cbn [fst] in *;
      [apply count_ok|]; by rewrite Hb.
Qed.

Lemma dispatch_keeps addr t event :
  wf_bus (t_bus t) -> devices_ok (t_bus t) ->
  (forall gpa size w reg, event = Mmio gpa size w reg -> 0 <= reg) ->
  let '(t', r) := dispatch addr t event in
  wf_bus (t_bus t') /\ devices_ok (t_bus t') /\ r <> Err IndexPanic.
Proof.
  intros Hwf Hok Hreg. destruct event as [gpa size w reg| | | | |]; try done.
  destruct (decide (mmio_size size /\ reg <= 31)) as [[Hsz Hr]|Hbad].
  2: { unfold dispatch. destruct (negb _) eqn:Hn; [done|].
       destruct (Z.ltb_spec 31 reg); [done|]. exfalso. apply Hbad. split; [|lia].
       unfold mmio_size. zbool; simpl in *; try done; auto. }
  specialize (Hreg gpa size w reg eq_refl).
  destruct (dispatch_cases addr t gpa size w reg) as [hit ->]; [done..|].
  destruct (gpa + size <? 2 ^ 64); [|done].
  destruct (position _ _) as [i|] eqn:Hp.
  - apply position_Some in Hp as (slot & Hi & Hc & _). rewrite Hi.
    pose proof (mapped_wf (set_hit t hit) i slot gpa size w reg Hwf).
    pose proof (mapped_ok (set_hit t hit) i slot gpa size w reg Hi Hc Hsz Hok).
    pose proof (mapped_no_panic (set_hit t hit) i slot gpa size w reg).
    by destruct (mapped _ _ _ _ _ _ _) as [t' r].
  - pose proof (unmapped_bus (set_hit t hit) gpa size w reg) as Hb.
    pose proof (unmapped_no_panic (set_hit t hit) gpa size w reg).
    destruct (unmapped _ _ _ _ _) as [t' r]. simpl in Hb. by rewrite Hb.
Qed.

(** [dispatch] only makes calls that respect the [MmioDevice] contract: the
    offset and size lie inside the device's window, the size is 1, 2, 4 or 8
    and a written value is masked to it.  So any device invariant kept by such
    calls is kept by every exit event, the bus stays well formed, and indexing
    the slot never panics. *)
Theorem dispatch_contract addr t event :
  wf_bus (t_bus t) -> devices_ok (t_bus t) ->
  (forall gpa size w reg, event = Mmio gpa size w reg -> 0 <= reg) ->
  let '(t', r) := dispatch addr t event in
  wf_bus (t_bus t') /\ devices_ok (t_bus t') /\ r <> Err IndexPanic.
Proof. apply dispatch_keeps. Qed.

End contract.

Lemma write_dst_regs t reg v t' :
  write_dst t reg v = (t', Ok tt) ->
  t_bus t' = t_bus t /\
  if reg =? 31 then t_regs t' = t_regs t else set_reg (t_regs t) reg v = Ok (t_regs t').
Proof.
  unfold write_dst. destruct (reg =? 31); [by intros [= <-]|].
  destruct (set_reg _ _ _) eqn:Hs; [|done]. intros [= <-]. done.
Qed.

(** The matching slot after an access: same window, device and counter moved. *)
(** What the device becomes: a write is offered to the kick port first. *)
Definition device_after (d : D) (off size : Z) (write : bool) (value : Z) : D :=
  if write then match dev_try_kick d off value with Some d' => d' | None => dev_write d off size value end
  else snd (dev_read d off size).

(** The value a store instruction puts on the bus. *)
Definition store_value (r : R) (reg value : Z) : Prop :=
  if reg =? 31 then value = 0 else get_reg r reg = Ok value.

Lemma mapped_slot t i slot gpa size w reg t' :
  b_devices (t_bus t) !! i = Some slot ->
  mapped t i slot gpa size w reg = (t', Ok tt) ->
  (exists slot' raw, b_devices (t_bus t') !! i = Some slot' /\
     s_accesses slot' = wrap 64 (s_accesses slot + 1) /\
     (w = true -> read_src t reg = Ok raw) /\
     s_device slot' = device_after (s_device slot) (gpa - s_base slot) size w (mask raw size)) /\
  (forall j, j <> i -> b_devices (t_bus t') !! j = b_devices (t_bus t) !! j).
Proof.
  intros Hi. unfold mapped, device_after. destruct w.
  - destruct (read_src t reg) as [raw|]; [|done]. intros [= <-]. simpl. split.
    + eexists _, raw. rewrite !list_lookup_alter_eq, Hi. done.
    + intros j Hj. by rewrite !list_lookup_alter_ne.
  - destruct (dev_read _ _ _) as [raw d].
    destruct (write_dst _ _ _) as [t2 []] eqn:Hw; [|done]. destruct a.
    apply write_dst_regs in Hw as [Hb _]. intros [= <-]. simpl. rewrite Hb. simpl. split.
    + eexists _, 0. rewrite !list_lookup_alter_eq, Hi. done.
    + intros j Hj. by rewrite !list_lookup_alter_ne.
Qed.

(** A refused access is a refused register access. *)
Definition reg_refused (r : R) (w : bool) (reg : Z) (e : MmioError) : Prop :=
  reg <> 31 /\ exists c, e = VcpuError c /\
    if w then get_reg r reg = Err c else exists v, set_reg r reg v = Err c.

Lemma write_dst_refused t reg v e :
  snd (write_dst t reg v) = Err e -> reg_refused (t_regs t) false reg e.
Proof.
  unfold write_dst, reg_refused. destruct (Z.eqb_spec reg 31); [done|].
  destruct (set_reg _ _ _) eqn:Hs; simpl; intros [= <-]. eauto.
Qed.

Lemma read_src_refused t reg e : read_src t reg = Err e -> reg_refused (t_regs t) true reg e.
Proof.
  unfold read_src, reg_refused. destruct (Z.eqb_spec reg 31); [done|].
  destruct (get_reg _ _) eqn:Hs; simpl; intros [= <-]. eauto.
Qed.

Lemma mapped_refused t i slot gpa size w reg e :
  snd (mapped t i slot gpa size w reg) = Err e -> reg_refused (t_regs t) w reg e.
Proof.
  unfold mapped. destruct w.
  - destruct (read_src t reg) eqn:Hr; [done|]. intros [= <-]. by apply read_src_refused in Hr.
  - destruct (dev_read _ _ _) as [raw d]. destruct (write_dst _ _ _) as [t2 []] eqn:Hw; [done|].
    intros [= <-]. apply (f_equal snd) in Hw. by apply write_dst_refused in Hw.
Qed.

Lemma unmapped_refused t gpa size w reg e :
  snd (unmapped t gpa size w reg) = Err e -> reg_refused (t_regs t) w reg e.
Proof.
  unfold unmapped. destruct w.
  - destruct (read_src t reg) eqn:Hr; [done|]. intros [= <-]. by apply read_src_refused in Hr.
  - apply write_dst_refused.
Qed.

Lemma mapped_regs t i slot gpa size w reg t' :
  mapped t i slot gpa size w reg = (t', Ok tt) ->
  if w || (reg =? 31) then t_regs t' = t_regs t
  else set_reg (t_regs t) reg (mask (fst (dev_read (s_device slot) (gpa - s_base slot) size)) size)
       = Ok (t_regs t').
Proof.
  unfold mapped. destruct w; simpl.
  - destruct (read_src t reg); [|done]. by intros [= <-].
  - destruct (dev_read _ _ _) as [raw d]. simpl.
    destruct (write_dst _ _ _) as [t2 []] eqn:Hw; [|done]. destruct a.
    apply write_dst_regs in Hw as [_ Hr]. intros [= <-]. simpl. by destruct (reg =? 31).
Qed.

(** C8: Effect of an access.  It fails only if it would end past 2^64 or if the
    hypervisor refuses the register access.  Otherwise: an unmapped one leaves
    the bus alone and a read of it puts 0 in the register; a mapped one changes
    only the slot whose window contains it, whose counter goes up by one; a
    write hands the device the register's low bytes (0 for register 31), kick
    port first; a read puts the device's value, truncated to the access size
    and zero-extended, in the register; writes, and reads into register 31,
    leave the registers alone. *)
Theorem dispatch_effect addr t gpa size w reg :
  wf_bus (t_bus t) -> mmio_size size -> 0 <= reg <= 31 ->
  (forall d off, fits 64 (fst (dev_read d off size))) ->
  (forall v, get_reg (t_regs t) reg = Ok v -> fits 64 v) ->
  let '(t', r) := dispatch addr t (Mmio gpa size w reg) in
  match r with
  | Err e => (e = Overflow gpa size /\ 2 ^ 64 <= gpa + size /\ t' = t) \/ reg_refused (t_regs t) w reg e
  | Ok _ =>
      gpa + size < 2 ^ 64 /\
      match position (contains gpa (gpa + size)) (b_devices (t_bus t)) with
      | None => t_bus t' = t_bus t /\
          if w || (reg =? 31) then t_regs t' = t_regs t else set_reg (t_regs t) reg 0 = Ok (t_regs t')
      | Some i => exists slot slot' raw,
          b_devices (t_bus t) !! i = Some slot /\ b_devices (t_bus t') !! i = Some slot' /\
          s_accesses slot' = wrap 64 (s_accesses slot + 1) /\
          (w = true -> store_value (t_regs t) reg raw) /\
          s_device slot' =
            device_after (s_device slot) (gpa - s_base slot) size w (raw mod 2 ^ (8 * size)) /\
          (forall j, j <> i -> b_devices (t_bus t') !! j = b_devices (t_bus t) !! j) /\
          if w || (reg =? 31) then t_regs t' = t_regs t
          else set_reg (t_regs t) reg
                 (fst (dev_read (s_device slot) (gpa - s_base slot) size) mod 2 ^ (8 * size))
               = Ok (t_regs t')
      end
  end.
Proof.
  intros Hwf Hsz Hreg Hu64 Hr64.
  destruct (dispatch_cases addr t gpa size w reg) as [hit ->]; [done..|].
  destruct (Z.ltb_spec (gpa + size) (2 ^ 64)); [|by left].
  destruct (position _ _) as [i|] eqn:Hp.
  - apply position_Some in Hp as (slot & Hi & _ & _). rewrite Hi.
    destruct (mapped _ _ _ _ _ _ _) as [t' [[]|e]] eqn:Hm.
    2: { right. apply (f_equal snd) in Hm. by apply mapped_refused in Hm. }
    split; [done|].
    destruct (mapped_slot (set_hit t hit) i slot gpa size w reg t' Hi Hm)
      as [(slot' & raw & Hi' & Hc & Hraw & Hd) Hother].
    apply mapped_regs in Hm. simpl in *. rewrite mask_mod in Hm by done.
    exists slot, slot', raw. split_and!; [done..| | |done|done].
    + intros ->. specialize (Hraw eq_refl). unfold read_src, store_value in *. simpl in *.
      destruct (reg =? 31); [by injection Hraw|]. destruct (get_reg _ _); [by injection Hraw as ->|done].
    + rewrite Hd. destruct w; [|done]. rewrite mask_mod; [done..|].
      specialize (Hraw eq_refl). unfold read_src in Hraw. simpl in Hraw.
      destruct (reg =? 31); [by injection Hraw as <-|].
      destruct (get_reg _ _) eqn:Hg; [injection Hraw as ->; by apply Hr64|done].
  - destruct (unmapped _ _ _ _ _) as [t' [[]|e]] eqn:Hm.
    2: { right. apply (f_equal snd) in Hm. by apply unmapped_refused in Hm. }
    split; [done|]. unfold unmapped in Hm. destruct w; simpl.
    + destruct (read_src _ _); [|done]. by injection Hm as <-.
    + by apply write_dst_regs in Hm.
Qed.

End facts.

(** *** A machine with one scratch register and one array of [x] registers *)

Record Scratch := { sc_value : Z }.

#[export] Instance Scratch_device : MmioDevice Scratch := {|
  dev_name _ := "scratch";
  dev_read d off size := (wrap 64 (sc_value d), d);
  dev_write d off size v := {| sc_value := v |};
  dev_try_kick d off v := if off =? 0x50 then Some d else None;
|}.

#[export] Instance Xregs_regs : GuestRegs (list Z) := {|
  get_reg r i := match get r i with Some v => if v <? 0 then Err 1 else if v <? 2 ^ 64 then Ok v else Err 1
                 | None => Err 1 end;
  set_reg r i v := match get r i with Some _ => Ok (update_at r i (fun _ => v)) | None => Err 1 end;
|}.

Definition demo_bus : MmioBus Scratch :=
  {| b_devices :=
       [ {| s_base := 0x9000000; s_size := 0x1000; s_name := "uart"; s_device := {| sc_value := 7 |};
            s_accesses := 0 |};
         {| s_base := 0xa000000; s_size := 0x200; s_name := "blk"; s_device := {| sc_value := 0x1234 |};
            s_accesses := 4 |} ];
     b_generation := 3 |}.

Definition demo_thread : Thread Scratch (list Z) :=
  {| t_bus := demo_bus; t_hit := {| c_bus := 0; c_gen := 0; c_idx := 2 ^ 64 - 1 |};
     t_regs := [0x11; 0x22; 0x33] |}.

Lemma demo_bus_wf : wf_bus demo_bus.
Proof. apply (bool_decide_unpack _). vm_compute. exact I. Qed.

Lemma register_spec_witness :
  match register demo_bus 0xa000100 0x200 {| sc_value := 0 |} with
  | Err (Overlap b z ob oz) => b = 0xa000100 /\ z = 0x200 /\
      exists i slot, b_devices demo_bus !! i = Some slot /\ ob = s_base slot /\ oz = s_size slot /\
        b < ob + oz /\ ob < b + z
  | _ => False
  end.
Proof.
  exact (register_spec demo_bus 0xa000100 0x200 {| sc_value := 0 |} demo_bus_wf
           ltac:(done) ltac:(done)).
Defined.

Lemma lookup_reference_witness :
  fst (lookup 64 demo_bus {| c_bus := 64; c_gen := 3; c_idx := 0 |} 0xa000010 0xa000014)
  = position (contains 0xa000010 0xa000014) (b_devices demo_bus) /\
  position (contains 0xa000010 0xa000014) (b_devices demo_bus) = Some 1%nat.
Proof.
  split; [|reflexivity].
  apply (lookup_reference 64 demo_bus {| c_bus := 64; c_gen := 3; c_idx := 0 |} 0xa000010 0xa000014);
    [exact demo_bus_wf|lia].
Defined.

Lemma dispatch_contract_witness :
  let '(t', r) := dispatch 64 demo_thread (Mmio 0xa000010 2 true 2) in
  wf_bus (t_bus t') /\ devices_ok (fun _ d => fits 64 (sc_value d)) (t_bus t') /\ r <> Err IndexPanic.
Proof.
  apply (dispatch_contract (fun _ d => fits 64 (sc_value d))).
  - intros r i v. simpl. repeat case_match; try done. intros [= <-]. unfold fits. lia.
  - intros n d off size H _ _ _. exact H.
  - intros n d off size v _ _ _ Hs Hv. simpl. destruct Hv. split; [done|].
    eapply Z.lt_le_trans; [done|]. apply Z.pow_le_mono_r; [lia|]. unfold mmio_size in Hs. lia.
  - intros n d off v d' H _ _. simpl. case_match; [|done]. intros [= <-]. exact H.
  - exact demo_bus_wf.
  - repeat constructor; done.
  - intros gpa size w reg [= <- <- <- <-]. lia.
Defined.

Lemma dispatch_effect_witness :
  exists t', dispatch 64 demo_thread (Mmio 0xa000010 1 false 2) = (t', Ok tt) /\
    set_reg [0x11; 0x22; 0x33] 2 0x34 = Ok (t_regs t').
Proof.
  pose proof (dispatch_effect 64 demo_thread 0xa000010 1 false 2 demo_bus_wf
    ltac:(by left) ltac:(lia) ltac:(intros d off; simpl; by apply wrap_fits)
    ltac:(intros v [= <-]; done)) as H.
  assert (Hok : snd (dispatch 64 demo_thread (Mmio 0xa000010 1 false 2)) = Ok tt) by (vm_compute; reflexivity).
  destruct (dispatch 64 demo_thread (Mmio 0xa000010 1 false 2)) as [t' r]. cbn [snd] in Hok. subst r.
  exists t'. split; [reflexivity|]. destruct H as [_ H].
  assert (Hpos : position (contains 0xa000010 (0xa000010 + 1)) (b_devices (t_bus demo_thread))
                 = Some 1%nat) by reflexivity.
  rewrite Hpos in H. destruct H as (slot & slot' & raw & Hs & _ & _ & _ & _ & _ & Hr).
  injection Hs as <-. exact Hr.
Defined.
