(* ===== verification/VirtioQueue.v ===== *)
(** * Split virtqueues

    Model of [ternvale-devices/src/virtio/queue.rs]: binding a queue, walking
    descriptor chains (direct and indirect), popping the available ring,
    publishing used elements and deciding on notifications.

    The methods take [&mut self] and return [Option]: they are programs of the
    monad [Q], a queue passed along with an [outcome].  [Stop] is [None] (or
    [false]); [Panic] is an index out of bounds or a remainder by zero, which
    no method reaches on a well-formed queue.  The reasons given to
    [break_queue] are only logged and are not kept.

    Guest memory is any [ByteMemory]; [GuestMemory.Memory] is the instance the
    program uses. *)

From S2P Require Import Prelude Windows GuestMemory.

Definition NEXT : Z := 1.
Definition WRITE : Z := 2.
Definition INDIRECT : Z := 4.
Definition NO_INTERRUPT : Z := 1.

Record Buffer := { buf_addr : Z; buf_len : Z }.
Record Chain := { c_head : Z; c_readable : list Buffer; c_writable : list Buffer }.
Record Desc := { d_addr : Z; d_len : Z; d_flags : Z; d_next : Z }.

Record SplitQueue := {
  q_size : Z;
  q_desc : Z;
  q_avail : Z;
  q_used : Z;
  q_last_avail : Z;
  q_used_idx : Z;
  q_broken : bool;
  q_indirect : bool;
  q_event_idx : bool;
}.

(** ** The monad of the queue's methods *)

Inductive outcome (A : Type) : Type := Ret (a : A) | Stop | Panic.
Arguments Ret {A} _.
Arguments Stop {A}.
Arguments Panic {A}.

Definition Q (A : Type) : Type := SplitQueue -> SplitQueue * outcome A.

#[export] Instance Q_ret : MRet Q := fun A a q => (q, Ret a).
#[export] Instance Q_bind : MBind Q := fun A B k c q =>
  match c q with
  | (q', Ret a) => k a q'
  | (q', Stop) => (q', Stop)
  | (q', Panic) => (q', Panic)
  end.

Definition break_queue (q : SplitQueue) : SplitQueue :=
  {| q_size := q_size q; q_desc := q_desc q; q_avail := q_avail q; q_used := q_used q;
     q_last_avail := q_last_avail q; q_used_idx := q_used_idx q; q_broken := true;
     q_indirect := q_indirect q; q_event_idx := q_event_idx q |}.

(** [self.break_queue(..); return None]. *)
Definition reject {A} : Q A := fun q => (break_queue q, Stop).
Definition stop {A} : Q A := fun q => (q, Stop).
Definition self : Q SplitQueue := fun q => (q, Ret q).
(** [vec[index]] and [a % b]. *)
Definition index_vec {A} (l : list A) (i : Z) : Q A := fun q =>
  match get l i with Some x => (q, Ret x) | None => (q, Panic) end.
Definition rem (a b : Z) : Q Z := fun q =>
  if b =? 0 then (q, Panic) else (q, Ret (a mod b)).
(** [let Ok(x) = r else { break_queue; return }]. *)
Definition or_reject {E A} (r : result E A) : Q A :=
  match r with Ok a => mret a | Err _ => reject end.

Definition set_last_avail (v : Z) : Q unit := fun q =>
  ({| q_size := q_size q; q_desc := q_desc q; q_avail := q_avail q; q_used := q_used q;
      q_last_avail := v; q_used_idx := q_used_idx q; q_broken := q_broken q;
      q_indirect := q_indirect q; q_event_idx := q_event_idx q |}, Ret tt).
Definition set_used_idx (v : Z) (q : SplitQueue) : SplitQueue :=
  {| q_size := q_size q; q_desc := q_desc q; q_avail := q_avail q; q_used := q_used q;
     q_last_avail := q_last_avail q; q_used_idx := v; q_broken := q_broken q;
     q_indirect := q_indirect q; q_event_idx := q_event_idx q |}.

Definition flag (flags bit : Z) : bool := negb (Z.land flags bit =? 0).

(** ** Operations *)

Definition new (size desc avail used : Z) (indirect event_idx : bool) : SplitQueue :=
  let queue := {| q_size := size; q_desc := desc; q_avail := avail; q_used := used;
                  q_last_avail := 0; q_used_idx := 0; q_broken := false;
                  q_indirect := indirect; q_event_idx := event_idx |} in
  if (size =? 0) || negb (is_power_of_two size) then break_queue queue
  else if negb (desc mod 16 =? 0) || negb (avail mod 2 =? 0) || negb (used mod 4 =? 0)
  then break_queue queue
  else queue.

Definition offset (base add : Z) : Q Z :=
  match checked_add 64 base add with Some v => mret v | None => reject end.

Section ops.
Context {M : Type} `{!ByteMemory M}.

Definition span_mapped (mem : M) (addr len : Z) : bool :=
  match checked_add 64 addr (wrapping_sub 64 len 1) with
  | None => false
  | Some last => is_ok (bm_read_le 1 mem addr) && is_ok (bm_read_le 1 mem last)
  end.

Definition read_desc_at (mem : M) (addr : Z) : Q Desc :=
  e ← offset addr 14;
  match bm_read_le 8 mem addr, bm_read_le 4 mem (add_w 64 addr 8),
        bm_read_le 2 mem (add_w 64 addr 12), bm_read_le 2 mem e with
  | Ok a, Ok l, Ok f, Ok n => mret {| d_addr := a; d_len := l; d_flags := f; d_next := n |}
  | _, _, _, _ => reject
  end.

Definition read_desc (mem : M) (table index : Z) : Q Desc :=
  addr ← offset table (index * 16);
  read_desc_at mem addr.

(** [true] is [Ret] of the extended vector. *)
Definition push_buf (mem : M) (out : list Buffer) (addr len : Z) : Q (list Buffer) :=
  if (0 <? len) && negb (span_mapped mem addr len) then reject
  else mret (out ++ [{| buf_addr := addr; buf_len := len |}]).

(** The buffers gathered so far and the [writing] flag. *)
Record Bufs := { b_readable : list Buffer; b_writable : list Buffer; b_writing : bool }.

Definition push_desc (mem : M) (desc : Desc) (bs : Bufs) : Q Bufs :=
  if flag (d_flags desc) WRITE then
    out ← push_buf mem (b_writable bs) (d_addr desc) (d_len desc);
    mret {| b_readable := b_readable bs; b_writable := out; b_writing := true |}
  else if b_writing bs then reject
  else
    out ← push_buf mem (b_readable bs) (d_addr desc) (d_len desc);
    mret {| b_readable := out; b_writable := b_writable bs; b_writing := b_writing bs |}.

(** The [for _ in 0..count] loop of [walk_indirect]; [fuel] is the range. *)
Fixpoint indirect_loop (mem : M) (table : Desc) (count : Z) (fuel : nat)
    (index : Z) (seen : list bool) (bs : Bufs) : Q Bufs :=
  match fuel with
  | O => reject
  | S fuel =>
      s ← index_vec seen index;
      if (s : bool) then reject
      else
        let seen := update_at seen index (fun _ => true) in
        addr ← offset (d_addr table) (index * 16);
        desc ← read_desc_at mem addr;
        if flag (d_flags desc) INDIRECT then reject
        else
          bs ← push_desc mem desc bs;
          if negb (flag (d_flags desc) NEXT) then mret bs
          else if count <=? d_next desc then reject
          else indirect_loop mem table count fuel (d_next desc) seen bs
  end.

Definition walk_indirect (mem : M) (table : Desc) (bs : Bufs) : Q Bufs :=
  q ← self;
  if (d_len table =? 0) || negb (d_len table mod 16 =? 0) then reject
  else
    let count := d_len table / 16 in
    if q_size q <? count then reject
    else indirect_loop mem table count (Z.to_nat count) 0 (replicate (Z.to_nat count) false)
           {| b_readable := b_readable bs; b_writable := b_writable bs; b_writing := false |}.

Definition chain_of (head : Z) (bs : Bufs) : Chain :=
  {| c_head := head; c_readable := b_readable bs; c_writable := b_writable bs |}.

(** The [for _ in 0..self.size] loop of [walk]. *)
Fixpoint walk_loop (mem : M) (head : Z) (fuel : nat) (index : Z) (seen : list bool) (bs : Bufs)
  : Q Chain :=
  match fuel with
  | O => reject
  | S fuel =>
      s ← index_vec seen index;
      if (s : bool) then reject
      else
        let seen := update_at seen index (fun _ => true) in
        q ← self;
        desc ← read_desc mem (q_desc q) index;
        if flag (d_flags desc) INDIRECT then
          if negb (q_indirect q) || flag (d_flags desc) NEXT then reject
          else bs ← walk_indirect mem desc bs; mret (chain_of head bs)
        else
          bs ← push_desc mem desc bs;
          if negb (flag (d_flags desc) NEXT) then mret (chain_of head bs)
          else if q_size q <=? d_next desc then reject
          else walk_loop mem head fuel (d_next desc) seen bs
  end.

Definition walk (mem : M) (head : Z) : Q Chain :=
  q ← self;
  if q_size q <=? head then reject
  else walk_loop mem head (Z.to_nat (q_size q)) head (replicate (Z.to_nat (q_size q)) false)
         {| b_readable := []; b_writable := []; b_writing := false |}.

Definition pop (mem : M) : Q Chain :=
  q ← self;
  if q_broken q then stop
  else
    idx_at ← offset (q_avail q) 2;
    idx ← or_reject (bm_read_le 2 mem idx_at);
    if q_last_avail q =? idx then stop
    else
      slot ← rem (q_last_avail q) (q_size q);
      ring ← offset (q_avail q) (4 + slot * 2);
      head ← or_reject (bm_read_le 2 mem ring);
      chain ← walk mem head;
      _ ← set_last_avail (add_w 16 (q_last_avail q) 1);
      mret chain.

(** A [for chain in queue.chains(mem)] loop, at most [fuel] rounds; the flag
    says that the iterator returned [None] within them. *)
Fixpoint chains (mem : M) (fuel : nat) (q : SplitQueue) : SplitQueue * list Chain * bool :=
  match fuel with
  | O => (q, [], false)
  | S fuel =>
      match pop mem q with
      | (q', Ret c) =>
          let '(q'', cs, fin) := chains mem fuel q' in (q'', c :: cs, fin)
      | (q', _) => (q', [], true)
      end
  end.

(** [add_used] returns the memory too: a failing second write leaves the first. *)
Definition add_used (q : SplitQueue) (mem : M) (head len : Z) : SplitQueue * M * outcome bool :=
  if q_broken q then (q, mem, Ret false)
  else if q_size q <=? head then (break_queue q, mem, Ret false)
  else
    match rem (q_used_idx q) (q_size q) q with
    | (_, Ret slot) =>
        match checked_add 64 (q_used q) (4 + slot * 8) with
        | None => (break_queue q, mem, Ret false)
        | Some elem =>
            match checked_add 64 elem 4 with
            | None => (break_queue q, mem, Ret false)
            | Some len_at =>
                match bm_write_le 4 mem elem head with
                | Err _ => (break_queue q, mem, Ret false)
                | Ok mem =>
                    match bm_write_le 4 mem len_at len with
                    | Err _ => (break_queue q, mem, Ret false)
                    | Ok mem =>
                        let next := add_w 16 (q_used_idx q) 1 in
                        match checked_add 64 (q_used q) 2 with
                        | None => (break_queue q, mem, Ret false)
                        | Some idx_at =>
                            match bm_write_le 2 mem idx_at next with
                            | Err _ => (break_queue q, mem, Ret false)
                            | Ok mem => (set_used_idx next q, mem, Ret true)
                            end
                        end
                    end
                end
            end
        end
    | (_, _) => (q, mem, Panic)
    end.

Definition notification_needed (q : SplitQueue) (mem : M) : SplitQueue * bool :=
  if q_broken q then (q, false)
  else if q_event_idx q then
    match checked_add 64 (q_avail q) (4 + q_size q * 2) with
    | None => (break_queue q, false)
    | Some event_at =>
        match bm_read_le 2 mem event_at with
        | Err _ => (break_queue q, false)
        | Ok used_event =>
            let new := q_used_idx q in
            let old := wrapping_sub 16 new 1 in
            (q, wrapping_sub 16 new (add_w 16 used_event 1) <? wrapping_sub 16 new old)
        end
    end
  else
    (q, match bm_read_le 2 mem (q_avail q) with
        | Ok flags => Z.land flags NO_INTERRUPT =? 0
        | Err _ => false
        end).

End ops.

(** ** Invariant *)

(** Fields fit their types; a queue that is not broken has a power-of-two size
    and aligned rings. *)
Definition wf_queue (q : SplitQueue) : Prop :=
  fits 16 (q_size q) /\ fits 64 (q_desc q) /\ fits 64 (q_avail q) /\ fits 64 (q_used q) /\
  fits 16 (q_last_avail q) /\ fits 16 (q_used_idx q) /\
  (q_broken q = false -> is_power_of_two (q_size q) = true /\
     q_desc q mod 16 = 0 /\ q_avail q mod 2 = 0 /\ q_used q mod 4 = 0).

#[export] Instance wf_queue_dec q : Decision (wf_queue q).
Proof. unfold wf_queue. apply _. Defined.

(** Ring entries the driver published and the device has not taken yet. *)
Definition published (q : SplitQueue) (idx : Z) : Z := (idx - q_last_avail q) mod 2 ^ 16.

Lemma wf_break q : wf_queue q -> wf_queue (break_queue q).
Proof. intros (? & ? & ? & ? & ? & ? & _). unfold wf_queue. by split_and!. Qed.

Lemma wf_size_pos q : wf_queue q -> q_broken q = false -> 0 < q_size q.
Proof.
  intros Hwf Hb. destruct Hwf as (_ & _ & _ & _ & _ & _ & H). destruct (H Hb) as [Hp _].
  unfold is_power_of_two in Hp. lia.
Qed.

#[export] Hint Resolve wf_break wf_size_pos : tern.

Lemma queue_new_wf size desc avail used indirect event_idx :
  fits 16 size -> fits 64 desc -> fits 64 avail -> fits 64 used ->
  wf_queue (new size desc avail used indirect event_idx).
Proof.
  intros. unfold new, wf_queue. destruct (is_power_of_two size) eqn:Hp.
  - destruct (Z.eqb_spec size 0); [by split_and!|]. cbn [orb negb].
    destruct (Z.eqb_spec (desc mod 16) 0), (Z.eqb_spec (avail mod 2) 0),
      (Z.eqb_spec (used mod 4) 0); by split_and!.
  - rewrite orb_true_r. by split_and!.
Qed.

Lemma offset_eq base add q :
  offset base add q = if base + add <? 2 ^ 64 then (q, Ret (base + add)) else (break_queue q, Stop).
Proof. unfold offset, checked_add. by destruct (_ <? _). Qed.

(** ** Descriptor tables as the specification sees them *)

Section spec.
Context {M : Type} `{!ByteMemory M}.
Implicit Types (mem : M) (q : SplitQueue) (d : Desc) (bs : Bufs).

(** The descriptor stored at [a], when its 16 bytes can be read. *)
Definition fetch mem (a : Z) : option Desc :=
  if a + 14 <? 2 ^ 64 then
    match bm_read_le 8 mem a, bm_read_le 4 mem (a + 8), bm_read_le 2 mem (a + 12),
          bm_read_le 2 mem (a + 14) with
    | Ok v, Ok l, Ok f, Ok n => Some {| d_addr := v; d_len := l; d_flags := f; d_next := n |}
    | _, _, _, _ => None
    end
  else None.

(** Entry [i] of the descriptor table at [base]. *)
Definition entry mem (base i : Z) : option Desc :=
  if base + i * 16 <? 2 ^ 64 then fetch mem (base + i * 16) else None.

(** [path rd limit i ix ds]: following [next] from entry [i] visits the
    entries [ix], which hold the descriptors [ds]; the last has no [NEXT]. *)
Inductive path (rd : Z -> option Desc) (limit : Z) : Z -> list Z -> list Desc -> Prop :=
| path_last i d : rd i = Some d -> flag (d_flags d) NEXT = false -> path rd limit i [i] [d]
| path_next i d ix ds : rd i = Some d -> flag (d_flags d) NEXT = true -> d_next d < limit ->
    path rd limit (d_next d) ix ds -> path rd limit i (i :: ix) (d :: ds).

Definition buf_of d : Buffer := {| buf_addr := d_addr d; buf_len := d_len d |}.
Definition mapped mem d : Prop := 0 < d_len d -> span_mapped mem (d_addr d) (d_len d) = true.
Definition direct d : Prop := flag (d_flags d) INDIRECT = false.

(** [ds] is device-readable descriptors [rs], then device-writable [ws]. *)
Definition split_rw mem (ds rs ws : list Desc) : Prop :=
  ds = rs ++ ws /\ Forall (fun d => flag (d_flags d) WRITE = false) rs /\
  Forall (fun d => flag (d_flags d) WRITE = true) ws /\ Forall (mapped mem) ds.

(** The chains the device must accept at [head]: an acyclic direct chain, or
    one that ends in a descriptor of an indirect table holding an acyclic
    chain from entry 0. *)
Inductive is_chain mem q (head : Z) : Chain -> Prop :=
| chain_direct ix ds rs ws :
    path (entry mem (q_desc q)) (q_size q) head ix ds -> NoDup ix -> Forall direct ds ->
    split_rw mem ds rs ws ->
    is_chain mem q head
      {| c_head := head; c_readable := buf_of <$> rs; c_writable := buf_of <$> ws |}
| chain_indirect ix ds t js ts rs ws rs' ws' :
    path (entry mem (q_desc q)) (q_size q) head ix (ds ++ [t]) -> NoDup ix -> Forall direct ds ->
    split_rw mem ds rs ws ->
    flag (d_flags t) INDIRECT = true -> q_indirect q = true ->
    0 < d_len t -> d_len t mod 16 = 0 -> d_len t / 16 <= q_size q ->
    path (entry mem (d_addr t)) (d_len t / 16) 0 js ts -> NoDup js -> Forall direct ts ->
    split_rw mem ts rs' ws' ->
    is_chain mem q head
      {| c_head := head; c_readable := buf_of <$> rs ++ rs'; c_writable := buf_of <$> ws ++ ws' |}.

(** ** Pure descriptions of the monadic steps *)

Definition ok_desc mem d : bool := negb ((0 <? d_len d) && negb (span_mapped mem (d_addr d) (d_len d))).

Definition push mem d bs : option Bufs :=
  if flag (d_flags d) WRITE then
    if ok_desc mem d then
      Some {| b_readable := b_readable bs; b_writable := b_writable bs ++ [buf_of d]; b_writing := true |}
    else None
  else if b_writing bs then None
  else if ok_desc mem d then
    Some {| b_readable := b_readable bs ++ [buf_of d]; b_writable := b_writable bs; b_writing := false |}
  else None.

(** Lift a pure step: failure breaks the queue. *)
Definition lift {A} (o : option A) : Q A :=
  match o with Some a => mret a | None => reject end.

Lemma lift_bind {A B} (o : option A) (k : A -> Q B) q :
  (lift o ≫= k) q = match o with Some a => k a q | None => (break_queue q, Stop) end.
Proof. by destruct o. Qed.

Lemma push_desc_lift mem d bs q : push_desc mem d bs q = lift (push mem d bs) q.
Proof.
  unfold push_desc, push, push_buf, ok_desc, lift.
  destruct (flag _ _); [|destruct (b_writing bs) eqn:Hw; [done|]]; by destruct (_ && _).
Qed.

Lemma read_desc_at_lift mem a q : 0 <= a -> read_desc_at mem a q = lift (fetch mem a) q.
Proof.
  intros Ha. unfold read_desc_at, fetch, mbind, Q_bind. rewrite offset_eq.
  destruct (Z.ltb_spec (a + 14) (2 ^ 64)); [|done]. unfold add_w.
  rewrite !wrap_small by (unfold fits; lia).
  by destruct (bm_read_le 8 mem a), (bm_read_le 4 mem (a + 8)), (bm_read_le 2 mem (a + 12)),
    (bm_read_le 2 mem (a + 14)).
Qed.

Lemma read_entry_bind {B} mem base i (k : Desc -> Q B) q :
  0 <= base -> 0 <= i ->
  (addr ← offset base (i * 16); desc ← read_desc_at mem addr; k desc) q =
  match entry mem base i with Some d => k d q | None => (break_queue q, Stop) end.
Proof.
  intros Hb Hi. unfold entry, mbind, Q_bind. rewrite offset_eq.
  destruct (_ <? _); [|done]. rewrite read_desc_at_lift by lia. by destruct (fetch _ _).
Qed.

Lemma read_desc_bind {B} mem base i (k : Desc -> Q B) q :
  0 <= base -> 0 <= i ->
  (desc ← read_desc mem base i; k desc) q =
  match entry mem base i with Some d => k d q | None => (break_queue q, Stop) end.
Proof.
  intros. rewrite <- (read_entry_bind mem) by done. unfold read_desc, mbind, Q_bind.
  by destruct (offset _ _ q) as [q' []].
Qed.

Lemma push_bind {B} mem d bs (k : Bufs -> Q B) q :
  (bs ← push_desc mem d bs; k bs) q =
  match push mem d bs with Some bs => k bs q | None => (break_queue q, Stop) end.
Proof. unfold mbind, Q_bind. rewrite push_desc_lift. by destruct (push _ _ _). Qed.

Lemma index_bind {A B} (l : list A) i (k : A -> Q B) q :
  0 <= i < Z.of_nat (length l) ->
  exists x, get l i = Some x /\ (x ← index_vec l i; k x) q = k x q.
Proof.
  intros Hi. destruct (lookup_lt_is_Some_2 l (Z.to_nat i)) as [x Hx]; [lia|].
  exists x. unfold mbind, Q_bind, index_vec. rewrite get_lookup, Hx by lia. done.
Qed.

Lemma entry_fits mem base i d :
  bm_inv mem -> 0 <= base -> 0 <= i -> entry mem base i = Some d ->
  fits 64 (d_addr d) /\ fits 32 (d_len d) /\ fits 16 (d_flags d) /\ fits 16 (d_next d).
Proof.
  intros Hm Hb Hi. unfold entry, fetch. repeat case_match; try done. intros [= <-].
  split_and!; simpl; match goal with
  | H : bm_read_le _ _ ?a = Ok ?v |- fits _ ?v =>
      assert (0 <= a) by lia; apply bm_read_le_bound in H; [exact H|done..|lia]
  end.
Qed.

(** The two walking loops compute this scan; with [allow], an indirect
    descriptor ends it. *)
Fixpoint scan mem (rd : Z -> option Desc) (limit : Z) (allow : bool) (fuel : nat)
    (i : Z) (seen : list bool) bs : option (Bufs * option Desc) :=
  match fuel with
  | O => None
  | S fuel =>
      match get seen i with
      | Some false =>
          d ← rd i;
          if flag (d_flags d) INDIRECT then
            if allow && negb (flag (d_flags d) NEXT) then Some (bs, Some d) else None
          else
            bs ← push mem d bs;
            if negb (flag (d_flags d) NEXT) then Some (bs, None)
            else if limit <=? d_next d then None
            else scan mem rd limit allow fuel (d_next d) (update_at seen i (fun _ => true)) bs
      | _ => None
      end
  end.

Lemma indirect_loop_scan mem t count fuel i seen bs q :
  bm_inv mem -> 0 <= d_addr t -> Z.of_nat (length seen) = count -> 0 <= i < count ->
  indirect_loop mem t count fuel i seen bs q =
  match scan mem (entry mem (d_addr t)) count false fuel i seen bs with
  | Some (bs', _) => (q, Ret bs')
  | None => (break_queue q, Stop)
  end.
Proof.
  intros Hm Ht Hlen. revert i seen bs Hlen.
  induction fuel as [|fuel IH]; intros i seen bs Hlen Hi; [done|]. cbn [indirect_loop scan].
  match goal with |- (_ ≫= ?k) q = _ => destruct (index_bind seen i k q) as (s & -> & ->) end; [lia|].
  destruct s; [done|]. rewrite read_entry_bind by lia. unfold mbind at 2; simpl.
  destruct (entry mem (d_addr t) i) as [d|] eqn:Hd; [|done]. simpl.
  destruct (flag (d_flags d) INDIRECT); [done|]. rewrite push_bind.
  destruct (push mem d bs) as [bs'|]; [|done]. simpl.
  destruct (negb _); [done|]. destruct (Z.leb_spec count (d_next d)); [done|].
  apply entry_fits in Hd as (_ & _ & _ & [? _]); [|done|done|lia].
  apply IH; [|lia]. by rewrite length_update_at.
Qed.

Lemma walk_loop_scan mem head fuel i seen bs q :
  bm_inv mem -> 0 <= q_desc q -> Z.of_nat (length seen) = q_size q -> 0 <= i < q_size q ->
  walk_loop mem head fuel i seen bs q =
  match scan mem (entry mem (q_desc q)) (q_size q) (q_indirect q) fuel i seen bs with
  | Some (bs', None) => (q, Ret (chain_of head bs'))
  | Some (bs', Some t) => (bs'' ← walk_indirect mem t bs'; mret (chain_of head bs'')) q
  | None => (break_queue q, Stop)
  end.
Proof.
  intros Hm Hq. revert i seen bs.
  induction fuel as [|fuel IH]; intros i seen bs Hlen Hi; [done|]. cbn [walk_loop scan].
  match goal with |- (_ ≫= ?k) q = _ => destruct (index_bind seen i k q) as (s & -> & ->) end; [lia|].
  destruct s; [done|]. unfold mbind at 1, Q_bind at 1. cbn [self].
  rewrite read_desc_bind by lia. unfold mbind at 2; simpl.
  destruct (entry mem (q_desc q) i) as [d|] eqn:Hd; [|done]. simpl.
  destruct (flag (d_flags d) INDIRECT); [by destruct (q_indirect q), (flag _ _)|].
  rewrite push_bind. destruct (push mem d bs) as [bs'|]; [|done]. simpl.
  destruct (negb _); [done|]. destruct (Z.leb_spec (q_size q) (d_next d)); [done|].
  apply entry_fits in Hd as (_ & _ & _ & [? _]); [|done|done|lia].
  apply IH; [|lia]. by rewrite length_update_at.
Qed.

(** ** Pushing a list of descriptors *)

Fixpoint pushes mem (ds : list Desc) bs : option Bufs :=
  match ds with
  | [] => Some bs
  | d :: ds => bs ← push mem d bs; pushes mem ds bs
  end.

Lemma ok_desc_true mem d : ok_desc mem d = true <-> mapped mem d.
Proof.
  unfold ok_desc, mapped. destruct (Z.ltb_spec 0 (d_len d)), (span_mapped _ _ _); simpl;
    split; try done; lia || naive_solver.
Qed.

Lemma pushes_sound mem ds bs bs' :
  pushes mem ds bs = Some bs' ->
  exists rs ws, split_rw mem ds rs ws /\ (b_writing bs = true -> rs = []) /\
    b_readable bs' = b_readable bs ++ (buf_of <$> rs) /\
    b_writable bs' = b_writable bs ++ (buf_of <$> ws).
Proof.
  revert bs. induction ds as [|d ds IH]; intros bs; simpl.
  { intros [= <-]. exists [], []. rewrite !app_nil_r. repeat split; by constructor. }
  unfold push. destruct (flag (d_flags d) WRITE) eqn:HW; [|destruct (b_writing bs) eqn:Hwr; [done|]];
    (destruct (ok_desc mem d) eqn:Hok; [|done]); apply ok_desc_true in Hok; simpl;
    intros (rs & ws & (-> & Hrs & Hws & Hall) & Hw & Hr' & Hw')%IH; simpl in *.
  - rewrite Hw in * by done. exists [], (d :: ws). rewrite Hr', Hw', <- app_assoc.
    repeat split; try done; by constructor.
  - exists (d :: rs), ws. rewrite Hr', Hw', <- app_assoc.
    repeat split; try done; by constructor.
Qed.

Lemma pushes_complete mem ds rs ws bs :
  split_rw mem ds rs ws -> (b_writing bs = true -> rs = []) ->
  exists bs', pushes mem ds bs = Some bs' /\
    b_readable bs' = b_readable bs ++ (buf_of <$> rs) /\
    b_writable bs' = b_writable bs ++ (buf_of <$> ws).
Proof.
  intros (-> & Hrs & Hws & Hall) Hw. revert bs Hw Hall.
  induction Hrs as [|d rs Hd Hrs IH]; intros bs Hw Hall; simpl in *.
  - clear Hw. revert bs. induction Hws as [|d ws Hd Hws IH]; intros bs; simpl.
    { exists bs. by rewrite !app_nil_r. }
    apply Forall_cons_iff in Hall as [Hok%ok_desc_true Hall].
    unfold push. rewrite Hd, Hok. simpl.
    destruct (IH Hall {| b_readable := b_readable bs; b_writable := b_writable bs ++ [buf_of d];
                         b_writing := true |}) as (bs' & -> & Hr & Hw').
    exists bs'. rewrite Hr, Hw'. simpl. by rewrite <- app_assoc.
  - apply Forall_cons_iff in Hall as [Hok%ok_desc_true Hall].
    destruct (b_writing bs) eqn:Hwr; [by specialize (Hw eq_refl)|].
    unfold push. rewrite Hd, Hok, Hwr. simpl.
    destruct (IH {| b_readable := b_readable bs ++ [buf_of d]; b_writable := b_writable bs;
                    b_writing := false |} ltac:(done) Hall) as (bs' & -> & Hr & Hw').
    exists bs'. rewrite Hr, Hw'. simpl. by rewrite <- app_assoc.
Qed.

(** ** Scans and paths *)

Section scan.
Context (mem : M) (rd : Z -> option Desc) (limit : Z) (allow : bool).
Hypothesis rd_next : forall i d, 0 <= i -> rd i = Some d -> 0 <= d_next d.

Definition ends (t : option Desc) : Prop :=
  match t with Some d => flag (d_flags d) INDIRECT = true /\ allow = true | None => True end.

Lemma get_unseen seen i j :
  get (update_at seen i (fun _ => true)) j = Some false <-> i <> j /\ get seen j = Some false.
Proof.
  rewrite get_update_at. destruct (decide (i = j)) as [<-|]; [|naive_solver].
  destruct (get seen i); simpl; naive_solver.
Qed.

Lemma scan_sound fuel i seen bs bs' t :
  scan mem rd limit allow fuel i seen bs = Some (bs', t) ->
  exists ix ds, path rd limit i ix (ds ++ option_list t) /\ NoDup ix /\
    Forall (fun j => get seen j = Some false) ix /\ Forall direct ds /\
    pushes mem ds bs = Some bs' /\ ends t.
Proof.
  revert i seen bs. induction fuel as [|fuel IH]; intros i seen bs; cbn [scan]; [done|].
  destruct (get seen i) as [[]|] eqn:Hs; [done| |done].
  destruct (rd i) as [d|] eqn:Hd; simpl; [|done].
  destruct (flag (d_flags d) INDIRECT) eqn:HI.
  - destruct allow eqn:Hal, (flag (d_flags d) NEXT) eqn:HN; simpl; try done. intros [= <- <-].
    exists [i], []. split_and!; [by apply path_last|apply NoDup_singleton|by constructor|done..].
  - destruct (push mem d bs) as [b|] eqn:Hp; simpl; [|done].
    destruct (flag (d_flags d) NEXT) eqn:HN; simpl.
    + destruct (Z.leb_spec limit (d_next d)); [done|].
      intros (ix & ds & Hpath & Hnd & Hun & Hdir & Hpu & He)%IH.
      exists (i :: ix), (d :: ds). split_and!; simpl; [by apply path_next| | | | |done].
      * apply NoDup_cons_2; [|done]. intros Hin.
        eapply list.Forall_forall in Hun; [|done]. by apply get_unseen in Hun as [].
      * constructor; [done|]. eapply Forall_impl; [|apply Hun].
        intros j Hj. by apply get_unseen in Hj as [].
      * by constructor.
      * by rewrite Hp.
    + intros [= <- <-]. exists [i], [d]. simpl. rewrite Hp.
      split_and!; [by apply path_last|apply NoDup_singleton|by constructor|by constructor|done..].
Qed.

Lemma scan_complete fuel i seen bs bs' ix l ds t :
  path rd limit i ix l -> l = ds ++ option_list t -> NoDup ix ->
  Forall (fun j => get seen j = Some false) ix -> Forall direct ds ->
  pushes mem ds bs = Some bs' -> ends t -> (length ix <= fuel)%nat ->
  scan mem rd limit allow fuel i seen bs = Some (bs', t).
Proof.
  intros Hpath. revert fuel seen bs ds.
  induction Hpath as [i d Hd HN|i d ix l Hd HN Hlt Hpath IH];
    intros [|fuel] seen bs ds Hl Hnd Hun Hdir Hpu He Hf; simpl in Hf; try lia; cbn [scan];
    apply Forall_cons_iff in Hun as [-> Hun]; rewrite Hd; simpl.
  - destruct ds as [|d' ds]; simpl in *.
    + destruct t as [t|]; simplify_eq/=. destruct He as [-> ->]. by rewrite HN.
    + destruct ds, t; simplify_eq/=. apply Forall_cons_iff in Hdir as [-> _].
      destruct (push mem d' bs); simplify_eq/=. by rewrite HN.
  - destruct ds as [|d' ds]; simpl in *.
    { destruct t; simplify_eq/=. inversion Hpath. }
    simplify_eq/=. apply Forall_cons_iff in Hdir as [-> Hdir].
    destruct (push mem d' bs) as [b|]; simplify_eq/=. rewrite HN. simpl.
    destruct (Z.leb_spec limit (d_next d')); [lia|].
    apply list.NoDup_cons in Hnd as [Hni Hnd].
    apply (IH fuel _ b ds); try done; [|lia].
    apply list.Forall_forall. intros j Hj. apply get_unseen.
    split; [by intros <-|]. by eapply list.Forall_forall in Hun.
Qed.

Lemma path_range i ix ds :
  path rd limit i ix ds -> 0 <= i < limit -> Forall (fun j => 0 <= j < limit) ix.
Proof.
  induction 1 as [i d Hd HN|i d ix ds Hd HN Hlt Hp IH]; intros Hi; constructor; try done.
  apply IH. split; [|done]. apply (rd_next i); [lia|done].
Qed.

End scan.

Lemma NoDup_bounded (l : list Z) (n : Z) :
  NoDup l -> Forall (fun j => 0 <= j < n) l -> (length l <= Z.to_nat n)%nat.
Proof.
  intros Hnd Hall. rewrite <- (length_seqZ 0 n). apply submseteq_length.
  apply NoDup_submseteq; [done|]. intros j Hj. eapply list.Forall_forall in Hall; [|done].
  apply elem_of_seqZ. lia.
Qed.

Lemma get_fresh n j : get (replicate (Z.to_nat n) false) j = Some false <-> 0 <= j < n.
Proof.
  unfold get. destruct (Z.ltb_spec j 0); [split; [done|lia]|].
  rewrite lookup_replicate. split; [intros [_ ?]; lia|]. intros; split; [done|lia].
Qed.

(** A scan from fresh state visits exactly the acyclic paths. *)
Lemma scan_iff mem rd limit allow i bs bs' t :
  (forall j d, 0 <= j -> rd j = Some d -> 0 <= d_next d) -> 0 <= i < limit ->
  scan mem rd limit allow (Z.to_nat limit) i (replicate (Z.to_nat limit) false) bs = Some (bs', t) <->
  exists ix ds, path rd limit i ix (ds ++ option_list t) /\ NoDup ix /\ Forall direct ds /\
    pushes mem ds bs = Some bs' /\ ends allow t.
Proof.
  intros Hrd Hi. split.
  - intros (ix & ds & ? & ? & _ & ? & ? & ?)%scan_sound. by exists ix, ds.
  - intros (ix & ds & Hp & Hnd & ? & ? & ?).
    pose proof (path_range rd limit Hrd i ix _ Hp Hi) as Hr.
    eapply scan_complete; eauto; [|by apply NoDup_bounded].
    eapply Forall_impl; [|apply Hr]. intros j Hj. by apply get_fresh.
Qed.

(** ** Walking *)

Definition table_ok q t : bool :=
  negb ((d_len t =? 0) || negb (d_len t mod 16 =? 0)) && negb (q_size q <? d_len t / 16).

Definition no_bufs : Bufs := {| b_readable := []; b_writable := []; b_writing := false |}.
Definition restart bs : Bufs :=
  {| b_readable := b_readable bs; b_writable := b_writable bs; b_writing := false |}.

Definition scan_from mem base limit allow i bs : option (Bufs * option Desc) :=
  scan mem (entry mem base) limit allow (Z.to_nat limit) i (replicate (Z.to_nat limit) false) bs.

Lemma table_ok_true q t :
  0 <= d_len t -> table_ok q t = true <->
  0 < d_len t /\ d_len t mod 16 = 0 /\ d_len t / 16 <= q_size q.
Proof.
  intros Ht. unfold table_ok.
  destruct (Z.eqb_spec (d_len t) 0), (Z.eqb_spec (d_len t mod 16) 0),
    (Z.ltb_spec (q_size q) (d_len t / 16)); simpl; naive_solver lia.
Qed.

Lemma walk_indirect_scan mem t bs q :
  bm_inv mem -> 0 <= d_addr t -> 0 <= d_len t ->
  walk_indirect mem t bs q =
  if table_ok q t then
    match scan_from mem (d_addr t) (d_len t / 16) false 0 (restart bs) with
    | Some (bs', _) => (q, Ret bs')
    | None => (break_queue q, Stop)
    end
  else (break_queue q, Stop).
Proof.
  intros Hm Ha Hl. destruct (table_ok q t) eqn:Ht.
  - apply table_ok_true in Ht as (Hpos & Hmod & Hle); [|done].
    unfold walk_indirect, mbind, Q_bind, self.
    destruct (Z.eqb_spec (d_len t) 0), (Z.eqb_spec (d_len t mod 16) 0),
      (Z.ltb_spec (q_size q) (d_len t / 16)); try lia; simpl.
    assert (1 <= d_len t / 16) by (apply Z.div_le_lower_bound; [|apply Z.mod_divide in Hmod as [k Hk]]; lia).
    apply indirect_loop_scan; try done; [rewrite length_replicate; lia|lia].
  - unfold walk_indirect, mbind, Q_bind, self, table_ok in *.
    by destruct (_ || _), (_ <? _).
Qed.

Lemma walk_scan mem head q :
  bm_inv mem -> 0 <= q_desc q -> 0 <= head ->
  walk mem head q =
  if head <? q_size q then
    match scan_from mem (q_desc q) (q_size q) (q_indirect q) head no_bufs with
    | Some (bs', None) => (q, Ret (chain_of head bs'))
    | Some (bs', Some t) => (bs'' ← walk_indirect mem t bs'; mret (chain_of head bs'')) q
    | None => (break_queue q, Stop)
    end
  else (break_queue q, Stop).
Proof.
  intros Hm Hd Hh. unfold walk, mbind at 1, Q_bind at 1. cbn [self].
  destruct (Z.ltb_spec head (q_size q)), (Z.leb_spec (q_size q) head); try lia; [|done].
  apply walk_loop_scan; try done. rewrite length_replicate. lia.
Qed.

(** The descriptor an accepted scan ends in was read from the table. *)
Lemma path_last_entry rd limit i ix ds t :
  path rd limit i ix (ds ++ [t]) ->
  (forall j d, 0 <= j -> rd j = Some d -> 0 <= d_next d) -> 0 <= i -> exists j, 0 <= j /\ rd j = Some t.
Proof.
  intros Hp Hrd. remember (ds ++ [t]) as l eqn:Hl. revert ds Hl.
  induction Hp as [i d Hd HN|i d ix l Hd HN Hlt Hp IH]; intros ds Hl Hi.
  - destruct ds as [|? [|? ds]]; simplify_eq/=. by exists i.
  - destruct ds as [|d' ds]; simplify_eq/=; [inversion Hp|].
    apply (IH ds eq_refl). by apply (Hrd i).
Qed.

Lemma entry_next mem base :
  bm_inv mem -> 0 <= base -> forall i d, 0 <= i -> entry mem base i = Some d -> 0 <= d_next d.
Proof. intros Hm Hb i d Hi Hd. apply entry_fits in Hd as (_ & _ & _ & [? _]); done. Qed.

Section walk.
Context (mem : M) (q : SplitQueue) (Hm : bm_inv mem) (Hdesc : 0 <= q_desc q).

Lemma walk_indirect_iff t bs bs' :
  0 <= d_addr t -> 0 <= d_len t ->
  (exists bs'', walk_indirect mem t bs q = (q, Ret bs'') /\
     b_readable bs'' = b_readable bs' /\ b_writable bs'' = b_writable bs') <->
  0 < d_len t /\ d_len t mod 16 = 0 /\ d_len t / 16 <= q_size q /\
  exists js ts rs ws, path (entry mem (d_addr t)) (d_len t / 16) 0 js ts /\ NoDup js /\
    Forall direct ts /\ split_rw mem ts rs ws /\
    b_readable bs' = b_readable bs ++ (buf_of <$> rs) /\
    b_writable bs' = b_writable bs ++ (buf_of <$> ws).
Proof.
  intros Ha Hl. pose proof (entry_next mem (d_addr t) Hm Ha) as Hn.
  assert (Hpos : 0 < d_len t -> d_len t mod 16 = 0 -> 0 < d_len t / 16).
  { intros ? [k Hk]%Z.mod_divide; [|lia]. apply Z.div_str_pos. lia. }
  rewrite walk_indirect_scan by done. split.
  - intros (b & Hw & <- & <-). destruct (table_ok q t) eqn:Ht; [|done].
    apply table_ok_true in Ht as (H1 & H2 & H3); [|done].
    unfold scan_from in Hw. destruct (scan _ _ _ _ _ _ _ _) as [[bs1 [t'|]]|] eqn:Hs;
      [|injection Hw as <-|done].
    { apply scan_sound in Hs as (? & ? & _ & _ & _ & _ & _ & [_ ?]); done. }
    apply scan_iff in Hs as (ix & ds & Hp & Hnd & Hdir & Hpu & _); [|done|split; [lia|auto]].
    simpl in Hp. rewrite app_nil_r in Hp.
    apply pushes_sound in Hpu as (rs & ws & Hsp & _ & Hr & Hw).
    split_and!; try done. by exists ix, ds, rs, ws.
  - intros (H1 & H2 & H3 & js & ts & rs & ws & Hp & Hnd & Hdir & Hsp & Hr & Hw).
    destruct (pushes_complete mem ts rs ws (restart bs) Hsp) as (b & Hb & Hbr & Hbw); [done|].
    exists b. rewrite (proj2 (table_ok_true q t Hl)) by done. unfold scan_from.
    rewrite (proj2 (scan_iff mem (entry mem (d_addr t)) (d_len t / 16) false 0 (restart bs) b None Hn
      ltac:(split; [lia|auto]))).
    + split; [done|]. rewrite Hbr, Hbw, Hr, Hw. done.
    + exists js, ts. simpl. by rewrite app_nil_r.
Qed.

Lemma walk_sound head c :
  0 <= head -> walk mem head q = (q, Ret c) -> head < q_size q /\ is_chain mem q head c.
Proof.
  intros Hh. pose proof (entry_next mem (q_desc q) Hm Hdesc) as Hn. rewrite walk_scan by done.
  destruct (Z.ltb_spec head (q_size q)) as [Hlt|]; [|done]. unfold scan_from.
  destruct (scan _ _ _ _ _ _ _ _) as [[bs1 t]|] eqn:Hs; [|done].
  apply scan_iff in Hs as (ix & ds & Hp & Hnd & Hdir & Hpu & He); [|done|lia].
  apply pushes_sound in Hpu as (rs & ws & Hsp & _ & Hr & Hw).
  destruct t as [t|]; simpl in Hp, Hr, Hw.
  - destruct He as [HI Hal].
    destruct (path_last_entry _ _ _ _ _ _ Hp Hn Hh) as (j & Hj & Ht).
    apply entry_fits in Ht as ([Hta _] & [Htl _] & _ & _); [|done..].
    unfold mbind, Q_bind. destruct (walk_indirect mem t bs1 q) as [q' [b| |]] eqn:Hwi; intros [= -> <-].
    destruct (proj1 (walk_indirect_iff t bs1 b Hta Htl)) as (H1 & H2 & H3 & js & ts & rs' & ws' & Hrest).
    { by exists b. }
    destruct Hrest as (Hp' & Hnd' & Hdir' & Hsp' & Hr' & Hw'). split; [done|].
    unfold chain_of. rewrite Hr', Hw', Hr, Hw, <- !fmap_app. by eapply chain_indirect.
  - rewrite app_nil_r in Hp. intros [= <-]. split; [done|]. unfold chain_of.
    rewrite Hr, Hw. by eapply chain_direct.
Qed.

Lemma walk_complete head c :
  0 <= head -> head < q_size q -> is_chain mem q head c -> walk mem head q = (q, Ret c).
Proof.
  intros Hh. pose proof (entry_next mem (q_desc q) Hm Hdesc) as Hn. rewrite walk_scan by done.
  intros Hlt Hc. destruct (Z.ltb_spec head (q_size q)); [|lia]. unfold scan_from.
  destruct Hc as [ix ds rs ws Hp Hnd Hdir Hsp
                 |ix ds t js ts rs ws rs' ws' Hp Hnd Hdir Hsp HI Hal H1 H2 H3 Hp' Hnd' Hdir' Hsp'];
  destruct (pushes_complete mem ds rs ws no_bufs Hsp) as (b & Hb & Hbr & Hbw); try done.
  - rewrite (proj2 (scan_iff mem (entry mem (q_desc q)) (q_size q) (q_indirect q) head no_bufs b None Hn
      ltac:(lia))).
    + unfold chain_of. by rewrite Hbr, Hbw.
    + exists ix, ds. simpl. by rewrite app_nil_r.
  - rewrite (proj2 (scan_iff mem (entry mem (q_desc q)) (q_size q) (q_indirect q) head no_bufs b (Some t) Hn
      ltac:(lia))) by (by exists ix, ds).
    destruct (path_last_entry _ _ _ _ _ _ Hp Hn Hh) as (j & Hj & Ht).
    apply entry_fits in Ht as ([Hta _] & [Htl _] & _ & _); [|done..].
    destruct (proj2 (walk_indirect_iff t b {| b_readable := b_readable b ++ (buf_of <$> rs');
        b_writable := b_writable b ++ (buf_of <$> ws'); b_writing := false |} Hta Htl))
      as (b' & Hw' & Hr1 & Hr2).
    { split_and!; try done. by exists js, ts, rs', ws'. }
    unfold mbind, Q_bind. rewrite Hw'. simpl in *. unfold chain_of.
    by rewrite Hr1, Hr2, Hbr, Hbw, !fmap_app.
Qed.

Lemma walk_outcome head :
  0 <= head -> (exists c, walk mem head q = (q, Ret c)) \/ walk mem head q = (break_queue q, Stop).
Proof.
  intros Hh. rewrite walk_scan by done. destruct (_ <? _); [|by right]. unfold scan_from.
  destruct (scan _ _ _ _ _ _ _ _) as [[b [t|]]|] eqn:Hs; [| |by right].
  - apply scan_sound in Hs as (ix & ds & Hp & _).
    destruct (path_last_entry _ _ _ _ _ _ Hp (entry_next mem (q_desc q) Hm Hdesc) Hh) as (j & Hj & Ht).
    apply entry_fits in Ht as ([Hta _] & [Htl _] & _ & _); [|done..].
    unfold mbind, Q_bind. rewrite walk_indirect_scan by done.
    destruct (table_ok q t); [|by right]. destruct (scan_from _ _ _ _ _ _) as [[]|]; [|by right].
    left. by eexists.
  - left. by eexists.
Qed.

End walk.

(** ** The available ring *)

(** The available index, and the ring entry for running index [k]. *)
Definition avail_idx mem q : option Z :=
  if q_avail q + 2 <? 2 ^ 64 then
    match bm_read_le 2 mem (q_avail q + 2) with Ok v => Some v | Err _ => None end
  else None.
Definition ring_entry mem q (k : Z) : option Z :=
  let at_ := q_avail q + (4 + (k mod q_size q) * 2) in
  if at_ <? 2 ^ 64 then
    match bm_read_le 2 mem at_ with Ok v => Some v | Err _ => None end
  else None.

Definition advance q : SplitQueue := fst (set_last_avail (add_w 16 (q_last_avail q) 1) q).

Lemma advance_wf q : wf_queue q -> wf_queue (advance q).
Proof.
  intros (? & ? & ? & ? & ? & ? & ?). unfold wf_queue, advance. simpl.
  split_and!; try done. by apply wrap_fits.
Qed.

Lemma is_chain_advance mem q head c : is_chain mem (advance q) head c -> is_chain mem q head c.
Proof. intros []; [by eapply chain_direct|by eapply chain_indirect]. Qed.

Lemma pop_eq mem q :
  q_broken q = false -> 0 < q_size q ->
  pop mem q =
  match avail_idx mem q with
  | None => (break_queue q, Stop)
  | Some idx =>
      if q_last_avail q =? idx then (q, Stop)
      else match ring_entry mem q (q_last_avail q) with
           | None => (break_queue q, Stop)
           | Some head => (chain ← walk mem head;
                           _ ← set_last_avail (add_w 16 (q_last_avail q) 1); mret chain) q
           end
  end.
Proof.
  intros Hb Hs. unfold pop, avail_idx, ring_entry, mbind, Q_bind, self, rem. rewrite Hb, offset_eq.
  destruct (q_avail q + 2 <? 2 ^ 64); [|done].
  destruct (bm_read_le 2 mem (q_avail q + 2)) as [idx|]; [|done]. simpl.
  destruct (q_last_avail q =? idx); [done|]. destruct (Z.eqb_spec (q_size q) 0); [lia|].
  rewrite offset_eq. destruct (_ <? 2 ^ 64); [|done].
  by destruct (bm_read_le 2 mem (q_avail q + _)).
Qed.

Lemma ring_entry_nonneg mem q k head :
  bm_inv mem -> wf_queue q -> 0 < q_size q -> ring_entry mem q k = Some head -> fits 16 head.
Proof.
  intros Hm (_ & _ & [Ha _] & _) Hs. unfold ring_entry.
  pose proof (Z.mod_pos_bound k (q_size q) Hs).
  destruct (_ <? _); [|done]. destruct (bm_read_le 2 mem _) eqn:Hr; [|done]. intros [= <-].
  apply bm_read_le_bound in Hr; [exact Hr|done|lia..].
Qed.

(** One pop of a live queue: empty, rejected, or the next ring entry. *)
Lemma pop_cases mem q :
  bm_inv mem -> wf_queue q -> q_broken q = false ->
  pop mem q = (break_queue q, Stop) \/
  (pop mem q = (q, Stop) /\ avail_idx mem q = Some (q_last_avail q)) \/
  exists idx head c, avail_idx mem q = Some idx /\ idx <> q_last_avail q /\
    ring_entry mem q (q_last_avail q) = Some head /\
    head < q_size q /\ is_chain mem q head c /\ pop mem q = (advance q, Ret c).
Proof.
  intros Hm Hwf Hb. pose proof (wf_size_pos q Hwf Hb) as Hs. rewrite pop_eq by done.
  destruct (avail_idx mem q) as [idx|]; [|by left].
  destruct (Z.eqb_spec (q_last_avail q) idx) as [<-|Hne]; [right; by left|].
  destruct (ring_entry mem q _) as [head|] eqn:Hr; [|by left].
  pose proof (ring_entry_nonneg _ _ _ _ Hm Hwf Hs Hr) as [Hh _].
  assert (0 <= q_desc q) as Hd by (by destruct Hwf as (_ & [? _] & _)).
  unfold mbind, Q_bind.
  destruct (walk_outcome mem q Hm Hd head Hh) as [[c Hw]| ->]; [|by left]. rewrite Hw.
  apply walk_sound in Hw as [? ?]; [|done..].
  right; right. exists idx, head, c. by split_and!.
Qed.

Lemma published_advance q idx :
  fits 16 (q_last_avail q) -> fits 16 idx -> idx <> q_last_avail q ->
  published (advance q) idx = published q idx - 1.
Proof.
  intros Hl Hi Hne. unfold published, advance, add_w, wrap, fits in *. simpl.
  change (2 ^ 16) with 65536 in *. Z.div_mod_to_equations. lia.
Qed.

Lemma advance_last q k :
  wrap 16 (q_last_avail (advance q) + k) = wrap 16 (q_last_avail q + (k + 1)).
Proof. unfold advance, add_w, wrap. simpl. rewrite Zdiv.Zplus_mod_idemp_l. f_equal. lia. Qed.

Lemma avail_idx_fits mem q idx : bm_inv mem -> wf_queue q -> avail_idx mem q = Some idx -> fits 16 idx.
Proof.
  intros Hm (_ & _ & [Ha _] & _). unfold avail_idx. destruct (_ <? _); [|done].
  destruct (bm_read_le 2 mem _) eqn:Hr; [|done]. intros [= <-].
  apply bm_read_le_bound in Hr; [exact Hr|done|lia..].
Qed.

(** ** Publishing used elements *)

(** Address of the used element for running index [k]. *)
Definition used_elem q (k : Z) : Z := q_used q + (4 + (k mod q_size q) * 8).

(** The three writes of [add_used], when they succeed. *)
Definition used_writes mem q head len : option M :=
  if q_used q + 4 + (q_used_idx q mod q_size q) * 8 + 4 <? 2 ^ 64 then
    match bm_write_le 4 mem (used_elem q (q_used_idx q)) head with
    | Ok m1 =>
        match bm_write_le 4 m1 (used_elem q (q_used_idx q) + 4) len with
        | Ok m2 =>
            match bm_write_le 2 m2 (q_used q + 2) (add_w 16 (q_used_idx q) 1) with
            | Ok m3 => Some m3
            | Err _ => None
            end
        | Err _ => None
        end
    | Err _ => None
    end
  else None.

Lemma add_used_eq q mem head len :
  wf_queue q -> q_broken q = false ->
  match used_writes mem q head len with
  | Some mem' => head < q_size q ->
      add_used q mem head len = (set_used_idx (add_w 16 (q_used_idx q) 1) q, mem', Ret true)
  | None => exists mem', add_used q mem head len = (break_queue q, mem', Ret false)
  end.
Proof.
  intros Hwf Hb. pose proof (wf_size_pos q Hwf Hb) as Hs.
  pose proof (Z.mod_pos_bound (q_used_idx q) (q_size q) Hs).
  unfold add_used, used_writes, used_elem, rem, checked_add. rewrite Hb.
  destruct (Z.eqb_spec (q_size q) 0); [lia|].
  destruct (Z.leb_spec (q_size q) head).
  { repeat case_match; solve [eauto|intros; lia]. }
  destruct (Z.ltb_spec (q_used q + 4 + (q_used_idx q mod q_size q) * 8 + 4) (2 ^ 64)).
  - destruct (Z.ltb_spec (q_used q + (4 + (q_used_idx q mod q_size q) * 8)) (2 ^ 64)); [|lia].
    destruct (Z.ltb_spec (q_used q + (4 + (q_used_idx q mod q_size q) * 8) + 4) (2 ^ 64)); [|lia].
    destruct (Z.ltb_spec (q_used q + 2) (2 ^ 64)); [|lia].
    destruct (bm_write_le 4 mem _ head) as [m1|]; [|eauto].
    destruct (bm_write_le 4 m1 _ len) as [m2|]; [|eauto].
    destruct (bm_write_le 2 m2 _ _) as [m3|]; [done|eauto].
  - destruct (Z.ltb_spec (q_used q + (4 + (q_used_idx q mod q_size q) * 8)) (2 ^ 64)); [|eauto].
    destruct (Z.ltb_spec (q_used q + (4 + (q_used_idx q mod q_size q) * 8) + 4) (2 ^ 64)); [lia|eauto].
Qed.

(** What the three writes leave in memory. *)
Lemma used_writes_spec mem q head len mem' :
  bm_inv mem -> wf_queue q -> 0 < q_size q -> fits 32 head -> fits 32 len ->
  used_writes mem q head len = Some mem' ->
  bm_inv mem' /\
  bm_read_le 4 mem' (used_elem q (q_used_idx q)) = Ok head /\
  bm_read_le 4 mem' (used_elem q (q_used_idx q) + 4) = Ok len /\
  bm_read_le 2 mem' (q_used q + 2) = Ok (wrap 16 (q_used_idx q + 1)) /\
  forall a, ~ (used_elem q (q_used_idx q) <= a < used_elem q (q_used_idx q) + 8) ->
    ~ (q_used q + 2 <= a < q_used q + 4) -> bm_byte mem' a = bm_byte mem a.
Proof.
  intros Hm Hwf Hs Hh Hl. destruct Hwf as (_ & _ & _ & [Hu _] & _).
  pose proof (Z.mod_pos_bound (q_used_idx q) (q_size q) Hs).
  assert (He : q_used q + 4 <= used_elem q (q_used_idx q)) by (unfold used_elem; lia).
  unfold used_writes. set (e := used_elem q (q_used_idx q)) in *.
  destruct (_ <? _); [|done].
  destruct (bm_write_le 4 mem e head) as [m1|] eqn:W1; [|done].
  destruct (bm_write_le 4 m1 (e + 4) len) as [m2|] eqn:W2; [|done].
  destruct (bm_write_le 2 m2 _ _) as [m3|] eqn:W3; [|done]. intros [= <-].
  destruct (bm_write_le_inv 4 mem m1 e head Hm ltac:(lia) W1) as [I1 _].
  destruct (bm_write_le_inv 4 m1 m2 (e + 4) len I1 ltac:(lia) W2) as [I2 _].
  destruct (bm_write_le_inv 2 m2 m3 (q_used q + 2) _ I2 ltac:(lia) W3) as [I3 _].
  pose proof (bm_write_read_same 4 mem m1 e head Hm ltac:(lia) ltac:(lia) Hh W1) as R1.
  pose proof (bm_write_read_same 4 m1 m2 (e + 4) len I1 ltac:(lia) ltac:(lia) Hl W2) as R2.
  split_and!; [done| | | |].
  - refine (proj2 (bm_write_read_other 4 m2 m3 _ e _ head I2 _ _ _ (le_bytes_fits _ _) _ W3) _);
      rewrite ?length_le_bytes; try lia.
    refine (proj2 (bm_write_read_other 4 m1 m2 _ e _ head I1 _ _ _ (le_bytes_fits _ _) _ W2) R1);
      rewrite ?length_le_bytes; lia.
  - refine (proj2 (bm_write_read_other 4 m2 m3 _ (e + 4) _ len I2 _ _ _ (le_bytes_fits _ _) _ W3) R2);
      rewrite ?length_le_bytes; lia.
  - apply (bm_write_read_same 2 m2 m3 (q_used q + 2)); try done; try lia. by apply wrap_fits.
  - intros a Ha1 Ha2.
    destruct (bm_write_spec m2 (q_used q + 2) _ m3 I2 ltac:(lia) (le_bytes_fits _ _) W3) as (_ & -> & _).
    destruct (bm_write_spec m1 (e + 4) _ m2 I1 ltac:(lia) (le_bytes_fits _ _) W2) as (_ & -> & _).
    destruct (bm_write_spec mem e _ m1 Hm ltac:(lia) (le_bytes_fits _ _) W1) as (_ & -> & _).
    rewrite !length_le_bytes, !decide_False by lia. done.
Qed.

Lemma used_wf q v : wf_queue q -> fits 16 v -> wf_queue (set_used_idx v q).
Proof. intros (? & ? & ? & ? & ? & ? & ?) ?. unfold wf_queue. by split_and!. Qed.

(** ** Properties *)

(** C1: [walk] returns exactly the chains of the specification: following
    [next] from [head] inside the table without revisiting an entry, readable
    buffers before writable ones, every non-empty buffer with its first and
    last byte mapped, possibly ending in one indirect table treated the same way.  It never fails to
    terminate or panics: anything else breaks the queue. *)
Theorem walk_correct mem q head :
  bm_inv mem -> wf_queue q -> 0 <= head ->
  match walk mem head q with
  | (q', Ret c) => q' = q /\ head < q_size q /\ is_chain mem q head c
  | (q', Stop) => q' = break_queue q /\ forall c, ~ (head < q_size q /\ is_chain mem q head c)
  | (_, Panic) => False
  end.
Proof.
  intros Hm (_ & [Hd _] & _) Hh.
  destruct (walk_outcome mem q Hm Hd head Hh) as [[c Hw]|Hw]; rewrite Hw.
  - split; [done|]. by apply walk_sound.
  - split; [done|]. intros c [Hlt Hc].
    pose proof (walk_complete mem q Hm Hd head c Hh Hlt Hc). congruence.
Qed.

Lemma chains_S mem n q :
  chains mem (S n) q =
  match pop mem q with
  | (q', Ret c) => let '(q'', cs, fin) := chains mem n q' in (q'', c :: cs, fin)
  | (q', _) => (q', [], true)
  end.
Proof. done. Qed.

Lemma chains_broken mem n q : q_broken q = true -> chains mem (S n) q = (q, [], true).
Proof. intros Hb. simpl. unfold pop, mbind, Q_bind, self. by rewrite Hb. Qed.

(** C36: Draining the iterator while the driver does not move its index ends
    after at most [(idx - last_avail) mod 2^16] chains.  The [k]-th chain
    returned is the one the [k]-th unseen ring entry points to, in ring order,
    and unless the queue broke every published entry was returned. *)
Theorem chains_drain mem q idx :
  bm_inv mem -> wf_queue q -> q_broken q = false -> avail_idx mem q = Some idx ->
  let '(q', cs, fin) := chains mem (S (Z.to_nat (published q idx))) q in
  fin = true /\ wf_queue q' /\ Z.of_nat (length cs) <= published q idx /\
  q_last_avail q' = wrap 16 (q_last_avail q + Z.of_nat (length cs)) /\
  (q_broken q' = false -> Z.of_nat (length cs) = published q idx) /\
  forall k c, cs !! k = Some c -> exists head,
    ring_entry mem q (wrap 16 (q_last_avail q + Z.of_nat k)) = Some head /\
    head < q_size q /\ is_chain mem q head c.
Proof.
  intros Hm Hwf Hb Hidx. pose proof (avail_idx_fits _ _ _ Hm Hwf Hidx) as Hfi.
  assert (Hp : exists n, published q idx = Z.of_nat n).
  { exists (Z.to_nat (published q idx)). rewrite Z2Nat.id; [done|]. by apply Z.mod_pos_bound. }
  destruct Hp as [n Hn]. rewrite Hn, Nat2Z.id.
  revert q Hwf Hb Hidx Hn. induction n as [|n IH]; intros q Hwf Hb Hidx Hn;
    assert (Hla : fits 16 (q_last_avail q)) by (by destruct Hwf as (_ & _ & _ & _ & ? & _));
    rewrite chains_S; destruct (pop_cases mem q Hm Hwf Hb)
      as [Hpop|[[Hpop Heq]|(i & head & c & Hi & Hne & Hr & Hlt & Hc & Hpop)]]; rewrite Hpop;
    cbn [length]; rewrite ?Z.add_0_r, ?wrap_small by done.
  - split_and!; eauto with tern; try done.
  - by split_and!.
  - simplify_eq. pose proof (published_advance q idx Hla Hfi Hne).
    pose proof (Z.mod_pos_bound (idx - q_last_avail (advance q)) (2 ^ 16) ltac:(lia)).
    unfold published in *. lia.
  - split_and!; eauto with tern; try done; simpl; lia.
  - simplify_eq. unfold published in Hn. rewrite Z.sub_diag in Hn. by rewrite Z.mod_0_l in Hn.
  - simplify_eq. pose proof (published_advance q idx Hla Hfi Hne) as Hpa.
    specialize (IH (advance q) (advance_wf q Hwf) Hb Hidx ltac:(lia)).
    destruct (chains mem (S n) (advance q)) as [[q' cs] fin].
    destruct IH as (-> & Hwf' & Hlen & Hlast & Hall & Hk). cbn [length].
    split_and!; try done; [lia| |intros Hq; specialize (Hall Hq); lia|].
    + rewrite Hlast, advance_last. do 2 f_equal. lia.
    + intros [|k] x; simpl.
      * intros [= <-]. exists head. rewrite Z.add_0_r, wrap_small by done. done.
      * intros (h & Hh & Hhl & Hch)%Hk. exists h. split_and!; [|done|by apply is_chain_advance].
        rewrite advance_last in Hh. replace (Z.of_nat (S k)) with (Z.of_nat k + 1) by lia. exact Hh.
Qed.

(** C9: [add_used] on a live queue either publishes the element and then the
    index, with [(head, len)] in slot [used_idx mod size], the 16-bit index
    advanced by one and no other guest byte changed, or returns [false] with
    the queue broken and the index where it was.  It never panics. *)
Theorem add_used_spec mem q head len :
  bm_inv mem -> wf_queue q -> q_broken q = false -> fits 16 head -> fits 32 len ->
  match add_used q mem head len with
  | (q', mem', Ret true) =>
      head < q_size q /\ q' = set_used_idx (wrap 16 (q_used_idx q + 1)) q /\ bm_inv mem' /\
      bm_read_le 4 mem' (used_elem q (q_used_idx q)) = Ok head /\
      bm_read_le 4 mem' (used_elem q (q_used_idx q) + 4) = Ok len /\
      bm_read_le 2 mem' (q_used q + 2) = Ok (q_used_idx q') /\
      (forall a, ~ (used_elem q (q_used_idx q) <= a < used_elem q (q_used_idx q) + 8) ->
         ~ (q_used q + 2 <= a < q_used q + 4) -> bm_byte mem' a = bm_byte mem a)
  | (q', _, Ret false) => q' = break_queue q
  | _ => False
  end.
Proof.
  intros Hm Hwf Hb Hh Hl. pose proof (wf_size_pos q Hwf Hb) as Hs.
  assert (Hh32 : fits 32 head) by (unfold fits in *; lia).
  pose proof (add_used_eq q mem head len Hwf Hb) as Heq.
  pose proof (used_writes_spec mem q head len) as Hsp.
  destruct (Z.leb_spec (q_size q) head) as [Hge|Hlt].
  { unfold add_used. rewrite Hb. by rewrite (proj2 (Z.leb_le _ _) Hge). }
  destruct (used_writes mem q head len) as [mem'|].
  - rewrite Heq by done. destruct (Hsp mem' Hm Hwf Hs Hh32 Hl eq_refl) as (? & ? & ? & ? & ?).
    by split_and!.
  - by destruct Heq as [mem' ->].
Qed.

Definition queue_ok {A} (r : SplitQueue * outcome A) : Prop :=
  wf_queue (fst r) /\ snd r <> Panic.

(** No method of a well-formed queue panics or leaves it ill-formed, and a
    broken queue is inert: nothing is popped, published or notified and
    neither the queue nor the memory changes. *)
Theorem queue_methods_safe mem q head len :
  bm_inv mem -> wf_queue q -> fits 16 head -> fits 32 len ->
  queue_ok (pop mem q) /\
  (let '(q', _, r) := add_used q mem head len in queue_ok (q', r)) /\
  wf_queue (fst (notification_needed q mem)) /\
  (q_broken q = true ->
     pop mem q = (q, Stop) /\ add_used q mem head len = (q, mem, Ret false) /\
     notification_needed q mem = (q, false)).
Proof.
  intros Hm Hwf Hh Hl.
  assert (Hnw : wf_queue (fst (notification_needed q mem))).
  { unfold notification_needed. repeat case_match; simpl; by auto with tern. }
  destruct (q_broken q) eqn:Hb.
  - assert (Hpop : pop mem q = (q, Stop)) by (unfold pop, mbind, Q_bind, self; by rewrite Hb).
    assert (Hadd : add_used q mem head len = (q, mem, Ret false)) by (unfold add_used; by rewrite Hb).
    rewrite Hpop, Hadd. split_and!; try done. intros _. split_and!; try done.
    unfold notification_needed. by rewrite Hb.
  - split_and!; try done.
    + destruct (pop_cases mem q Hm Hwf Hb) as [->|[[-> _]|(? & ? & ? & _ & _ & _ & _ & _ & ->)]];
        split; simpl; auto using advance_wf with tern.
    + pose proof (add_used_eq q mem head len Hwf Hb) as Heq.
      destruct (Z.leb_spec (q_size q) head) as [Hge|Hlt].
      { unfold add_used. rewrite Hb, (proj2 (Z.leb_le _ _) Hge). split; simpl; auto with tern. }
      destruct (used_writes mem q head len) as [mem'|].
      * rewrite Heq by done. split; [|done]. apply used_wf; [done|]. by apply wrap_fits.
      * destruct Heq as [mem' ->]. split; simpl; auto with tern.
Qed.

(** ** Notifications *)

(** The [used_event] field behind the available ring. *)
Definition used_event mem q : option Z :=
  if q_avail q + (4 + q_size q * 2) <? 2 ^ 64 then
    match bm_read_le 2 mem (q_avail q + (4 + q_size q * 2)) with Ok v => Some v | Err _ => None end
  else None.

(** The rule of the VIRTIO specification: an interrupt is due when the used
    index moved from [old] to [new] past [event]. *)
Definition vring_need_event (event new old : Z) : bool :=
  wrap 16 (new - event - 1) <? wrap 16 (new - old).

Lemma need_event_last ev new :
  fits 16 ev -> fits 16 new ->
  (wrapping_sub 16 new (add_w 16 ev 1) <? wrapping_sub 16 new (wrapping_sub 16 new 1)) =
  bool_decide (ev = wrap 16 (new - 1)).
Proof.
  unfold wrapping_sub, add_w, wrap, fits. change (2 ^ 16) with 65536. intros.
  replace ((new - (new - 1) mod 65536) mod 65536) with 1 by (Z.div_mod_to_equations; lia).
  symmetry. case_bool_decide as Hc; symmetry; [apply Z.ltb_lt|apply Z.ltb_ge];
    Z.div_mod_to_equations; lia.
Qed.

Lemma used_event_fits mem q ev : bm_inv mem -> wf_queue q -> used_event mem q = Some ev -> fits 16 ev.
Proof.
  intros Hm ([? _] & _ & [Ha _] & _). unfold used_event. destruct (_ <? _); [|done].
  destruct (bm_read_le 2 mem _) eqn:Hr; [|done]. intros [= <-].
  apply bm_read_le_bound in Hr; [exact Hr|done|lia..].
Qed.

Lemma notification_event mem q ev :
  bm_inv mem -> wf_queue q -> q_broken q = false -> q_event_idx q = true ->
  used_event mem q = Some ev ->
  notification_needed q mem = (q, bool_decide (ev = wrap 16 (q_used_idx q - 1))).
Proof.
  intros Hm Hwf Hb He Hev. pose proof (used_event_fits _ _ _ Hm Hwf Hev) as Hf.
  destruct Hwf as (_ & _ & _ & _ & _ & Hu & _).
  unfold notification_needed, checked_add. rewrite Hb, He. unfold used_event in Hev.
  destruct (_ <? _); [|done]. destruct (bm_read_le 2 mem _); [|done]. injection Hev as ->.
  by rewrite need_event_last.
Qed.

(** What the driver is told.  With the event index negotiated the answer is
    yes exactly when [used_event] names the element published last; without it,
    exactly when the driver did not set the no-interrupt flag; and no in every
    case where the field cannot be read. *)
Theorem notification_needed_spec mem q :
  bm_inv mem -> wf_queue q -> q_broken q = false ->
  snd (notification_needed q mem) =
  if q_event_idx q then
    match used_event mem q with
    | Some ev => bool_decide (ev = wrap 16 (q_used_idx q - 1))
    | None => false
    end
  else match bm_read_le 2 mem (q_avail q) with
       | Ok flags => negb (Z.testbit flags 0)
       | Err _ => false
       end.
Proof.
  intros Hm Hwf Hb. destruct (q_event_idx q) eqn:He.
  - destruct (used_event mem q) as [ev|] eqn:Hev; [by rewrite (notification_event mem q ev)|].
    unfold notification_needed, checked_add, used_event in *. rewrite Hb, He.
    destruct (_ <? _); [|done]. by destruct (bm_read_le 2 mem _).
  - unfold notification_needed. rewrite Hb, He. simpl.
    destruct (bm_read_le 2 mem (q_avail q)) as [f|]; [|done].
    unfold NO_INTERRUPT. rewrite (land_low f 1) by done. change (2 ^ 1) with 2. rewrite <- Z.bit0_mod.
    rewrite Z.bit0_odd. by destruct (Z.odd f).
Qed.

Lemma add_used_true mem q head len q' mem' :
  wf_queue q -> q_broken q = false -> add_used q mem head len = (q', mem', Ret true) ->
  q' = set_used_idx (wrap 16 (q_used_idx q + 1)) q.
Proof.
  intros Hwf Hb H. pose proof (add_used_eq q mem head len Hwf Hb) as Heq.
  destruct (Z.leb_spec (q_size q) head) as [Hge|Hlt].
  { unfold add_used in H. by rewrite Hb, (proj2 (Z.leb_le _ _) Hge) in H. }
  destruct (used_writes mem q head len); [by rewrite Heq in H by done; simplify_eq|].
  destruct Heq as [? Heq]. by rewrite Heq in H.
Qed.

(** The check looks at the last element only.  When two elements are
    published before one check, as the balloon and sound queues do, and the
    driver had asked to be interrupted for the first of them, the rule of the
    VIRTIO specification demands an interrupt and the code raises none. *)
Theorem batched_completion_misses_event mem q h1 l1 q1 m1 h2 l2 q2 m2 :
  bm_inv m2 -> wf_queue q -> q_broken q = false -> q_event_idx q = true ->
  add_used q mem h1 l1 = (q1, m1, Ret true) -> add_used q1 m1 h2 l2 = (q2, m2, Ret true) ->
  used_event m2 q2 = Some (q_used_idx q) ->
  vring_need_event (q_used_idx q) (q_used_idx q2) (q_used_idx q) = true /\
  notification_needed q2 m2 = (q2, false).
Proof.
  intros Hm Hwf Hb He H1 H2 Hev.
  apply add_used_true in H1 as ->; [|done..].
  assert (Hwf1 : wf_queue (set_used_idx (wrap 16 (q_used_idx q + 1)) q))
    by (apply used_wf; [done|by apply wrap_fits]).
  apply add_used_true in H2 as ->; [|done..].
  destruct (Hwf) as (_ & _ & _ & _ & _ & Hu & _). unfold fits in Hu. split.
  - unfold vring_need_event, wrap. simpl. apply Z.ltb_lt.
    change (2 ^ 16) with 65536 in *. Z.div_mod_to_equations; lia.
  - rewrite (notification_event m2 _ (q_used_idx q)); try done.
    + rewrite bool_decide_false; [done|]. simpl. unfold wrap.
      change (2 ^ 16) with 65536 in *. Z.div_mod_to_equations; lia.
    + apply used_wf; [done|]. by apply wrap_fits.
Qed.

Lemma read_u8_ok mem a : bm_inv mem -> 0 <= a -> is_ok (bm_read_le 1 mem a) = true <-> bm_span mem a 1.
Proof.
  intros Hm Ha. unfold bm_read_le. split.
  - destruct (bm_read mem a 1) as [bs|] eqn:Hr; [|done]. intros _.
    by apply bm_read_spec in Hr as [? _]; [|done|done|lia].
  - intros [bs ->]%(bm_span_read mem a 1); [done|done|done|lia].
Qed.

(** The mapping check of a buffer is about its first and last byte: it
    holds exactly when the buffer does not wrap and both ends are mapped.  A
    buffer whose middle is unmapped passes it. *)
Theorem span_mapped_endpoints mem addr len :
  bm_inv mem -> 0 <= addr -> 0 < len < 2 ^ 32 ->
  span_mapped mem addr len = true <->
  addr + len <= 2 ^ 64 /\ bm_span mem addr 1 /\ bm_span mem (addr + len - 1) 1.
Proof.
  intros Hm Ha Hl. unfold span_mapped, wrapping_sub. rewrite wrap_small by (unfold fits; lia).
  destruct (checked_add 64 addr (len - 1)) as [last|] eqn:Hc.
  - apply checked_add_Some in Hc as [-> Hlt]. rewrite andb_true_iff, !read_u8_ok by (done || lia).
    replace (addr + (len - 1)) with (addr + len - 1) in * by lia. naive_solver lia.
  - apply checked_add_None in Hc. split; [done|lia].
Qed.
End spec.

(** *** A queue of four descriptors in a small machine *)

(** Descriptor 0 (readable) links to 1 (writable); 2 is an indirect table of
    two entries at [base + 0x800]; the driver published 0 and 2 and wants an
    interrupt for the first completion. *)
Definition demo_base : Z := 2 ^ 30.
Definition demo_desc (addr len flags next : Z) : list Z :=
  le_bytes 8 addr ++ le_bytes 4 len ++ le_bytes 2 flags ++ le_bytes 2 next.
Definition demo_writes : list (Z * list Z) :=
  [ (0x1000, demo_desc (demo_base + 0x4000) 16 1 1 ++ demo_desc (demo_base + 0x4100) 512 2 0
             ++ demo_desc (demo_base + 0x800) 32 4 0);
    (0x800, demo_desc (demo_base + 0x5000) 8 1 1 ++ demo_desc (demo_base + 0x5100) 1 2 0);
    (0x2000, le_bytes 2 0 ++ le_bytes 2 2 ++ le_bytes 2 0 ++ le_bytes 2 2) ].
Definition demo_ram : Memory :=
  foldl (fun m '(off, bs) => match write_bytes m (demo_base + off) bs with Ok m => m | Err _ => m end)
        demo_memory demo_writes.
Definition demo_queue : SplitQueue :=
  new 4 (demo_base + 0x1000) (demo_base + 0x2000) (demo_base + 0x3000) true true.

Lemma demo_ram_wf : bm_inv demo_ram.
Proof. apply (bool_decide_unpack (wf demo_ram)). vm_compute. exact I. Qed.
Lemma demo_memory_inv : bm_inv demo_memory.
Proof. exact demo_memory_wf. Qed.
Lemma demo_queue_wf : wf_queue demo_queue.
Proof. apply (bool_decide_unpack _). vm_compute. exact I. Qed.

Lemma walk_correct_witness :
  exists c, walk demo_ram 2 demo_queue = (demo_queue, Ret c) /\ is_chain demo_ram demo_queue 2 c /\
    c_readable c = [{| buf_addr := demo_base + 0x5000; buf_len := 8 |}].
Proof.
  pose proof (walk_correct demo_ram demo_queue 2 demo_ram_wf demo_queue_wf ltac:(lia)) as H.
  destruct (walk demo_ram 2 demo_queue) as [q' [c| |]] eqn:E; [|vm_compute in E; discriminate E..].
  destruct H as (-> & _ & Hc). exists c. split_and!; [reflexivity|exact Hc|].
  vm_compute in E. injection E as <-. reflexivity.
Defined.

Lemma chains_drain_witness :
  exists q' c1 c2, chains demo_ram 3 demo_queue = (q', [c1; c2], true) /\
    q_last_avail q' = 2 /\ is_chain demo_ram demo_queue 0 c1.
Proof.
  pose proof (chains_drain demo_ram demo_queue 2 demo_ram_wf demo_queue_wf
                ltac:(reflexivity) ltac:(vm_compute; reflexivity)) as H.
  change (S (Z.to_nat (published demo_queue 2))) with 3%nat in H.
  destruct (chains demo_ram 3 demo_queue) as [[q' cs] fin] eqn:E.
  destruct H as (-> & _ & _ & Hlast & _ & Hk).
  assert (Hcs : exists c1 c2, cs = [c1; c2]).
  { vm_compute in E. injection E as _ <-. eexists _, _. reflexivity. }
  destruct Hcs as (c1 & c2 & ->). exists q', c1, c2. split_and!; [reflexivity|exact Hlast|].
  destruct (Hk 0%nat c1 eq_refl) as (head & Hr & _ & Hc).
  replace head with 0 in Hc by (vm_compute in Hr; congruence). exact Hc.
Defined.

Lemma add_used_spec_witness :
  exists mem', add_used demo_queue demo_ram 2 1 = (set_used_idx 1 demo_queue, mem', Ret true) /\
    read_le 2 mem' (demo_base + 0x3002) = Ok 1.
Proof.
  pose proof (add_used_spec demo_ram demo_queue 2 1 demo_ram_wf demo_queue_wf
                ltac:(reflexivity) ltac:(done) ltac:(done)) as H.
  destruct (add_used demo_queue demo_ram 2 1) as [[q' mem'] [[]| |]] eqn:E;
    [|vm_compute in E; discriminate E..].
  destruct H as (_ & -> & _ & _ & _ & Hr & _). exists mem'. split; [reflexivity|exact Hr].
Defined.

Lemma queue_methods_safe_witness :
  queue_ok (pop demo_ram demo_queue) /\
  add_used (break_queue demo_queue) demo_ram 2 1 = (break_queue demo_queue, demo_ram, Ret false).
Proof.
  destruct (queue_methods_safe demo_ram demo_queue 0 0 demo_ram_wf demo_queue_wf
              ltac:(done) ltac:(done)) as (Hpop & _).
  destruct (queue_methods_safe demo_ram (break_queue demo_queue) 2 1 demo_ram_wf
              (wf_break _ demo_queue_wf) ltac:(done) ltac:(done)) as (_ & _ & _ & Hb).
  split; [exact Hpop|]. destruct (Hb eq_refl) as (_ & Hadd & _). exact Hadd.
Defined.

Lemma notification_needed_spec_witness :
  snd (notification_needed (set_used_idx 1 demo_queue) demo_ram) = true.
Proof.
  rewrite (notification_needed_spec demo_ram (set_used_idx 1 demo_queue) demo_ram_wf
             (used_wf demo_queue 1 demo_queue_wf ltac:(done)) ltac:(reflexivity)).
  vm_compute. reflexivity.
Defined.

Lemma batched_completion_misses_event_witness :
  exists q1 m1 q2 m2,
    add_used demo_queue demo_ram 0 512 = (q1, m1, Ret true) /\
    add_used q1 m1 2 1 = (q2, m2, Ret true) /\
    vring_need_event 0 (q_used_idx q2) 0 = true /\ notification_needed q2 m2 = (q2, false).
Proof.
  destruct (add_used demo_queue demo_ram 0 512) as [[q1 m1] r1] eqn:E1.
  destruct (add_used q1 m1 2 1) as [[q2 m2] r2] eqn:E2.
  assert (Hv : r1 = Ret true /\ r2 = Ret true /\ used_event m2 q2 = Some 0 /\
               bool_decide (wf m2) = true).
  { vm_compute in E1. injection E1 as <- <- <-. vm_compute in E2. injection E2 as <- <- <-.
    vm_compute. done. }
  destruct Hv as (-> & -> & Hev & Hw%bool_decide_eq_true_1). change (bm_inv m2) in Hw. exists q1, m1, q2, m2.
  split; [reflexivity|]. split; [exact E2|].
  exact (batched_completion_misses_event demo_ram demo_queue 0 512 q1 m1 2 1 q2 m2 Hw
           demo_queue_wf ltac:(reflexivity) ltac:(reflexivity) E1 E2 Hev).
Defined.

(** The two ends of this buffer are in RAM and flash, the bytes between are not. *)
Lemma span_mapped_endpoints_witness :
  span_mapped demo_memory 16383 (2 ^ 30 - 16383 + 1) = true /\ byte_at demo_memory 16384 = None.
Proof.
  split; [|reflexivity].
  apply (span_mapped_endpoints demo_memory 16383 (2 ^ 30 - 16383 + 1) demo_memory_inv); [lia|lia|].
  split; [lia|]. split.
  - exists 0%nat. eexists. split; [reflexivity|]. simpl. lia.
  - exists 1%nat. eexists. split; [reflexivity|]. simpl. lia.
Defined.
