(* ===== verification/QueueDevice.v ===== *)
(** * What a queue promises to a device worker

    Facts about [VirtioQueue] that every device back end uses: the chains it
    hands out have buffers in the 64-bit address space, and taking chains,
    completing them and asking for a notification keep the queue well-formed and
    the memory sound and never panic.  The workers of [Blk] and [Vsock] are
    proved against these. *)

From S2P Require Import Prelude GuestMemory VirtioQueue.

(** A buffer inside the address space. *)
Definition buf_ok (b : Buffer) : Prop := 0 <= buf_addr b /\ fits 32 (buf_len b) /\ buf_addr b + buf_len b <= 2 ^ 64.

#[export] Instance buf_ok_dec b : Decision (buf_ok b).
Proof. unfold buf_ok. apply _. Defined.

Record chain_ok (c : Chain) : Prop := {
  cn_head : fits 16 (c_head c);
  cn_readable : Forall buf_ok (c_readable c);
  cn_writable : Forall buf_ok (c_writable c);
}.

Section facts.
Context {M : Type} `{!ByteMemory M}.
Implicit Types (mem : M) (q : SplitQueue).

Lemma path_fits mem base limit i ix ds :
  bm_inv mem -> 0 <= base -> 0 <= i -> path (entry mem base) limit i ix ds ->
  Forall (fun d => fits 64 (d_addr d) /\ fits 32 (d_len d)) ds.
Proof.
  intros Hm Hb Hi Hp. revert Hi. induction Hp as [i d Hd _|i d ix ds Hd _ _ Hp IH]; intros Hi;
    pose proof (entry_fits mem base i d Hm Hb Hi Hd) as (H1 & H2 & _ & [H3 _]).
  - constructor; [done|constructor].
  - constructor; [done|by apply IH].
Qed.

Lemma mapped_buf_ok mem d : fits 64 (d_addr d) /\ fits 32 (d_len d) -> mapped mem d -> buf_ok (buf_of d).
Proof.
  intros [[Ha1 Ha2] [Hl1 Hl2]] Hm. unfold buf_ok, buf_of, mapped, span_mapped, wrapping_sub in *. cbn.
  split; [done|]. split; [done|]. destruct (decide (0 < d_len d)) as [Hp|]; [|lia]. specialize (Hm Hp).
  rewrite wrap_small in Hm by (unfold fits; lia). destruct (checked_add 64 (d_addr d) (d_len d - 1)) eqn:E; [|done].
  apply checked_add_Some in E as [_ E]. lia.
Qed.

Lemma split_bufs mem ds rs ws :
  Forall (fun d => fits 64 (d_addr d) /\ fits 32 (d_len d)) ds -> split_rw mem ds rs ws ->
  Forall buf_ok (buf_of <$> rs) /\ Forall buf_ok (buf_of <$> ws).
Proof.
  intros Hf (-> & _ & _ & Hmap). rewrite Forall_app in Hf, Hmap. rewrite !Forall_fmap.
  split; apply list.Forall_forall; intros d Hd; apply (mapped_buf_ok mem).
  - by eapply list.Forall_forall in Hd; [|exact (proj1 Hf)].
  - by eapply list.Forall_forall in Hd; [|exact (proj1 Hmap)].
  - by eapply list.Forall_forall in Hd; [|exact (proj2 Hf)].
  - by eapply list.Forall_forall in Hd; [|exact (proj2 Hmap)].
Qed.

Lemma is_chain_ok mem q head c : bm_inv mem -> wf_queue q -> fits 16 head -> is_chain mem q head c -> chain_ok c.
Proof.
  intros Hm (_ & [Hd _] & _) Hh Hc. pose proof Hh as [Hh0 _]. destruct Hc as [ix ds rs ws Hp _ _ Hs|ix ds t js ts rs ws rs' ws' Hp _ _ Hs _ _ _ _ _ Hp' _ _ Hs'].
  - destruct (split_bufs mem ds rs ws (path_fits _ _ _ _ _ _ Hm Hd Hh0 Hp) Hs). by split.
  - pose proof (path_fits _ _ _ _ _ _ Hm Hd Hh0 Hp) as Hf. rewrite Forall_app in Hf. destruct Hf as [Hf Ht].
    apply Forall_cons_iff in Ht as [[[Ht _] _] _].
    destruct (split_bufs mem ds rs ws Hf Hs). destruct (split_bufs mem ts rs' ws' (path_fits _ _ _ _ _ _ Hm Ht (Z.le_refl 0) Hp') Hs').
    split; cbn; [done|..]; rewrite fmap_app, Forall_app; done.
Qed.

Lemma pop_keeps mem q :
  bm_inv mem -> wf_queue q ->
  match pop mem q with
  | (q', Ret c) => wf_queue q' /\ chain_ok c
  | (q', Stop) => wf_queue q'
  | (_, Panic) => False
  end.
Proof.
  intros Hm Hwf. destruct (q_broken q) eqn:Hb.
  - unfold pop, mbind, Q_bind, self. by rewrite Hb.
  - destruct (pop_cases mem q Hm Hwf Hb) as [->|[[-> _]|(i & head & c & _ & _ & Hr & _ & Hc & ->)]]; [by apply wf_break|done|].
    split; [by apply advance_wf|]. apply (is_chain_ok mem q head); try done. eapply ring_entry_nonneg; try done. by apply wf_size_pos.
Qed.

Lemma chains_keeps mem fuel q :
  bm_inv mem -> wf_queue q -> wf_queue (chains mem fuel q).1.1 /\ Forall chain_ok (chains mem fuel q).1.2.
Proof.
  intros Hm. revert q. induction fuel as [|fuel IH]; intros q Hwf; [by split|]. cbn [chains].
  pose proof (pop_keeps mem q Hm Hwf) as H. destruct (pop mem q) as [q' [c| |]]; [|by split|done].
  destruct H as [Hq Hc]. specialize (IH q' Hq). destruct (chains mem fuel q') as [[q'' cs] fin]. cbn in *. split; [apply IH|]. constructor; [done|apply IH].
Qed.

Lemma add_used_keeps mem q head len :
  bm_inv mem -> wf_queue q -> 
  match add_used q mem head len with
  | (q', mem', Ret _) => wf_queue q' /\ bm_inv mem' /\ forall x n, bm_span mem' x n <-> bm_span mem x n
  | _ => False
  end.
Proof.
  intros Hm Hwf. unfold add_used. destruct (q_broken q) eqn:Hb; [done|]. pose proof (wf_size_pos q Hwf Hb) as Hs.
  pose proof (wf_break q Hwf) as Hbr. destruct (_ <=? head); [done|]. unfold rem. destruct (Z.eqb_spec (q_size q) 0); [lia|].
  pose proof Hwf as (_ & _ & _ & [Hu0 Hu1] & _). pose proof (Z.mod_pos_bound (q_used_idx q) (q_size q) Hs).
  destruct (checked_add 64 (q_used q) _) as [elem|] eqn:E1; [|done]. apply checked_add_Some in E1 as [-> _].
  destruct (checked_add 64 _ 4) as [len_at|] eqn:E2; [|done]. apply checked_add_Some in E2 as [-> _].
  destruct (bm_write_le 4 mem _ head) as [m1|] eqn:W1; [|done].
  destruct (bm_write_le_inv 4 mem m1 (q_used q + (4 + q_used_idx q mod q_size q * 8)) head Hm ltac:(lia) W1) as [I1 S1].
  destruct (bm_write_le 4 m1 _ len) as [m2|] eqn:W2; [|done].
  destruct (bm_write_le_inv 4 m1 m2 ((q_used q + (4 + q_used_idx q mod q_size q * 8)) + 4) len I1 ltac:(lia) W2) as [I2 S2].
  assert (S12 : forall x k, bm_span m2 x k <-> bm_span mem x k) by (intros x k; by rewrite S2, S1).
  destruct (checked_add 64 (q_used q) 2) as [ia|] eqn:E3; [|done]. apply checked_add_Some in E3 as [-> _].
  destruct (bm_write_le 2 m2 _ _) as [m3|] eqn:W3; [|done]. destruct (bm_write_le_inv 2 m2 m3 (q_used q + 2) _ I2 ltac:(lia) W3) as [I3 S3].
  split; [apply used_wf; [done|by apply wrap_fits]|]. split; [done|]. intros x k. by rewrite S3, S12.
Qed.

Lemma notification_keeps mem q : wf_queue q -> wf_queue (notification_needed q mem).1.
Proof. intros Hwf. unfold notification_needed. repeat case_match; cbn; auto using wf_break. Qed.

(** The loop of a worker over the chains it took: [step] serves one chain, [None]
    when it panics, and its length is what the used ring reports. *)
Section loop.
Context {S : Type} (step : M -> Chain -> S -> option (M * S * Z)).

Fixpoint serve_loop (mem : M) (q : SplitQueue) (cs : list Chain) (s : S) (completed : bool) : option (M * SplitQueue * S * bool) :=
  match cs with
  | [] => Some (mem, q, s, completed)
  | c :: cs =>
      '(mem, s, used) ← step mem c s;
      match add_used q mem (c_head c) used with
      | (q, mem, Ret b) => serve_loop mem q cs s (completed || b)
      | (_, _, _) => None
      end
  end.

Context (P : S -> Prop).
Hypothesis step_ok : forall mem c s, bm_inv mem -> chain_ok c -> P s ->
  exists mem' s' used, step mem c s = Some (mem', s', used) /\ bm_inv mem' /\ P s'.

Lemma serve_loop_ok mem q cs s completed :
  bm_inv mem -> wf_queue q -> Forall chain_ok cs -> P s ->
  exists mem' q' s' completed', serve_loop mem q cs s completed = Some (mem', q', s', completed') /\ bm_inv mem' /\ wf_queue q' /\ P s'.
Proof.
  intros Hm Hq Hcs. revert mem q s completed Hm Hq. induction Hcs as [|c cs Hc _ IH]; intros mem q s completed Hm Hq Hs; cbn [serve_loop].
  - eexists _, _, _, _. done.
  - destruct (step_ok mem c s Hm Hc Hs) as (mem1 & s1 & used & -> & Hm1 & Hs1). cbn [mbind option_bind].
    pose proof (add_used_keeps mem1 q (c_head c) used Hm1 Hq) as Hu.
    destruct (add_used q mem1 (c_head c) used) as [[q1 mem2] [b| |]]; try done. destruct Hu as (Hq1 & Hm2 & _). by apply IH.
Qed.
End loop.
End facts.
