(* ===== verification/VirtioIrq.v ===== *)
(** * The virtio interrupt line

    Model of [ternvale-devices/src/virtio/irq.rs].  [raise] runs on device
    threads while [ack] runs on the vCPU: both update the atomic [bits], and
    some of them then call [sync_line], which copies "bits are non-zero" to the
    line under a mutex.

    The first part is the code of one call run without interference.  The
    second part is a step relation in which any number of threads interleave at
    the granularity of single atomic accesses (a [fetch_or], a load, a
    compare-exchange, taking the mutex).  All shared accesses are to one atomic
    location or under one mutex, so interleaving them is enough.  The calls made
    to the hook are logged, latest first. *)

From S2P Require Import Prelude.

Record Irq := { i_bits : Z; i_hook : bool; i_level : bool; i_calls : list bool }.

Definition set_bits (v : Z) (s : Irq) : Irq :=
  {| i_bits := v; i_hook := i_hook s; i_level := i_level s; i_calls := i_calls s |}.
Definition install (s : Irq) : Irq :=
  {| i_bits := i_bits s; i_hook := true; i_level := i_level s; i_calls := i_calls s |}.

(** Some status bit is set. *)
Definition pending (s : Irq) : bool := negb (i_bits s =? 0).

(** ** One call at a time *)

Definition new : Irq := {| i_bits := 0; i_hook := false; i_level := false; i_calls := [] |}.

Definition status (s : Irq) : Z := i_bits s.

(** The part of [sync_line] after the load of [bits]. *)
Definition drive (level : bool) (s : Irq) : Irq :=
  if Bool.eqb (i_level s) level then s
  else if i_hook s then
    {| i_bits := i_bits s; i_hook := i_hook s; i_level := level; i_calls := level :: i_calls s |}
  else s.

Definition sync_line (s : Irq) : Irq := drive (pending s) s.

Definition set_hook (s : Irq) : Irq := sync_line (install s).

Definition raise (bits : Z) (s : Irq) : Irq :=
  let bits := Z.land bits 3 in
  if bits =? 0 then s
  else
    let prev := i_bits s in
    let s := set_bits (Z.lor prev bits) s in
    if prev =? 0 then sync_line s else s.

Definition ack (bits : Z) (s : Irq) : Irq :=
  let bits := Z.land bits 3 in
  let prev := i_bits s in
  let next := Z.land prev (not_w 32 bits) in
  let s := set_bits next s in
  if negb (prev =? 0) && (next =? 0) then sync_line s else s.

(** ** Interleaved threads *)

(** What a thread does next. *)
Inductive pc : Type :=
| Idle
| RaiseOr (bits : Z)            (* fetch_or, [bits] already masked *)
| AckLoad (bits : Z)            (* the first load of [ack] *)
| AckCas (bits prev : Z)        (* the compare_exchange, [prev] expected *)
| HookSet                       (* lock, store the hook, unlock *)
| SyncLock                      (* sync_line: take the mutex *)
| SyncLoad                      (* holding it: load [bits] *)
| SyncDrive (level : bool).     (* holding it: compare, call the hook, unlock *)

#[export] Instance pc_eq_dec : EqDecision pc.
Proof. solve_decision. Defined.

Record conf := { cf_irq : Irq; cf_locked : bool; cf_pcs : list pc }.

(** One atomic action of a thread: next program counter, shared state, mutex. *)
Inductive action : pc -> Irq -> bool -> pc -> Irq -> bool -> Prop :=
| act_raise s l bits : Z.land bits 3 <> 0 -> action Idle s l (RaiseOr (Z.land bits 3)) s l
| act_ack s l bits : action Idle s l (AckLoad (Z.land bits 3)) s l
| act_set_hook s l : action Idle s l HookSet s l
| act_or s l bits :
    action (RaiseOr bits) s l (if i_bits s =? 0 then SyncLock else Idle)
           (set_bits (Z.lor (i_bits s) bits) s) l
| act_load s l bits : action (AckLoad bits) s l (AckCas bits (i_bits s)) s l
| act_cas_ok s l bits :
    let next := Z.land (i_bits s) (not_w 32 bits) in
    action (AckCas bits (i_bits s)) s l
           (if negb (i_bits s =? 0) && (next =? 0) then SyncLock else Idle) (set_bits next s) l
| act_cas_fail s l bits prev :
    prev <> i_bits s -> action (AckCas bits prev) s l (AckCas bits (i_bits s)) s l
| act_hook s : action HookSet s false SyncLock (install s) false
| act_lock s : action SyncLock s false SyncLoad s true
| act_sync_load s : action SyncLoad s true (SyncDrive (pending s)) s true
| act_drive s level : action (SyncDrive level) s true Idle (drive level s) false.

Inductive step : conf -> conf -> Prop :=
| step_thread c i p p' s' l' :
    cf_pcs c !! i = Some p -> action p (cf_irq c) (cf_locked c) p' s' l' ->
    step c {| cf_irq := s'; cf_locked := l'; cf_pcs := <[i := p']> (cf_pcs c) |}.

(** [n] threads around a fresh line. *)
Definition start (n : nat) : conf :=
  {| cf_irq := new; cf_locked := false; cf_pcs := replicate n Idle |}.

Inductive reachable (n : nat) : conf -> Prop :=
| reach_start : reachable n (start n)
| reach_step c c' : reachable n c -> step c c' -> reachable n c'.

(** ** Invariant *)

Definition in_section (p : pc) : bool :=
  match p with SyncLoad | SyncDrive _ => true | _ => false end.

(** A thread that will bring the line to [want]: it still has to load, or it
    loaded the current value. *)
Definition will_sync (want : bool) (p : pc) : bool :=
  match p with
  | SyncLock | SyncLoad => true
  | SyncDrive l => Bool.eqb l want
  | _ => false
  end.

Record inv (c : conf) : Prop := {
  (** the mutex excludes *)
  inv_lock : forall i p, cf_pcs c !! i = Some p -> in_section p = true -> cf_locked c = true;
  inv_excl : forall i j p q, cf_pcs c !! i = Some p -> cf_pcs c !! j = Some q ->
    in_section p = true -> in_section q = true -> i = j;
  (** a wrong line has a thread that will fix it *)
  inv_fix : i_hook (cf_irq c) = true -> i_level (cf_irq c) <> pending (cf_irq c) ->
    exists i p, cf_pcs c !! i = Some p /\ will_sync (pending (cf_irq c)) p = true;
  (** a thread about to drive a stale value has a successor *)
  inv_stale : forall i l, cf_pcs c !! i = Some (SyncDrive l) -> l <> pending (cf_irq c) ->
    exists j, cf_pcs c !! j = Some SyncLock;
  inv_calls : i_level (cf_irq c) = default false (head (i_calls (cf_irq c)));
}.

Lemma inv_start n : inv (start n).
Proof.
  split; simpl; try done.
  - intros i p [-> _]%lookup_replicate. done.
  - intros i j p q [-> _]%lookup_replicate. done.
  - intros i l [? _]%lookup_replicate. done.
Qed.

(** Case on whether a looked-up thread is the one that moved. *)
Ltac moved H := apply list_lookup_insert_Some in H as [(-> & ? & _)|[? H]]; simplify_eq/=; try congruence.

(** A step outside the critical section that leaves the line alone either keeps
    "bits are non-zero" and the hook, or queues up for the mutex. *)
Lemma inv_outside c i p p' s' :
  cf_pcs c !! i = Some p -> inv c -> in_section p = false -> in_section p' = false ->
  p <> SyncLock -> i_level s' = i_level (cf_irq c) -> i_calls s' = i_calls (cf_irq c) ->
  p' = SyncLock \/ (pending s' = pending (cf_irq c) /\ i_hook s' = i_hook (cf_irq c)) ->
  inv {| cf_irq := s'; cf_locked := cf_locked c; cf_pcs := <[i := p']> (cf_pcs c) |}.
Proof.
  intros Hi [Hlock Hexcl Hfix Hstale Hcalls] Hp Hp' Hns Hlev Hc Hch.
  assert (Hlen : (i < length (cf_pcs c))%nat) by (by eapply lookup_lt_Some).
  assert (Hsl : forall j, cf_pcs c !! j = Some SyncLock -> <[i:=p']> (cf_pcs c) !! j = Some SyncLock).
  { intros j Hj. rewrite list_lookup_insert_ne; [done|]. intros ->. congruence. }
  assert (Hself : p' = SyncLock -> <[i:=p']> (cf_pcs c) !! i = Some SyncLock).
  { intros ->. by apply list_lookup_insert_eq. }
  split; simpl.
  - intros j q Hj Hq. moved Hj; eauto.
  - intros j k q r Hj Hk Hq Hr. moved Hj. moved Hk. eauto.
  - intros Hh Hne. destruct Hch as [Heq|[Hpe Hho]]; [by exists i, SyncLock; auto|].
    rewrite Hpe, Hlev, Hho in *. destruct (Hfix Hh Hne) as (j & q & Hj & Hq).
    exists j, q. rewrite list_lookup_insert_ne; [done|]. intros ->. simplify_eq. by destruct p.
  - intros j l Hj Hne. moved Hj.
    destruct Hch as [Heq|[Hpe Hho]]; [by exists i; auto|]. rewrite Hpe in Hne.
    destruct (Hstale j l Hj Hne) as [k Hk]. eauto.
  - by rewrite Hlev, Hc.
Qed.

(** Taking the mutex: nobody else was inside. *)
Lemma inv_lock_step c i :
  cf_pcs c !! i = Some SyncLock -> cf_locked c = false -> inv c ->
  inv {| cf_irq := cf_irq c; cf_locked := true; cf_pcs := <[i := SyncLoad]> (cf_pcs c) |}.
Proof.
  intros Hi Hl [Hlock Hexcl Hfix Hstale Hcalls].
  assert (Hlen : (i < length (cf_pcs c))%nat) by (by eapply lookup_lt_Some).
  assert (Hout : forall j q, cf_pcs c !! j = Some q -> in_section q = true -> False).
  { intros j q Hj Hq. specialize (Hlock j q Hj Hq). congruence. }
  split; simpl; try done.
  - intros j k q r Hj Hk Hq Hr. moved Hj; moved Hk; exfalso; eauto.
  - intros _ _. exists i, SyncLoad. by rewrite list_lookup_insert_eq.
  - intros j l Hj. moved Hj. exfalso; eauto.
Qed.

Lemma inv_load_step c i :
  cf_pcs c !! i = Some SyncLoad -> inv c ->
  inv {| cf_irq := cf_irq c; cf_locked := cf_locked c;
         cf_pcs := <[i := SyncDrive (pending (cf_irq c))]> (cf_pcs c) |}.
Proof.
  intros Hi [Hlock Hexcl Hfix Hstale Hcalls].
  assert (Hlen : (i < length (cf_pcs c))%nat) by (by eapply lookup_lt_Some).
  split; simpl; try done.
  - intros j q Hj Hq. moved Hj; eauto.
  - intros j k q r Hj Hk Hq Hr. moved Hj; moved Hk; eauto.
  - intros _ _. exists i, (SyncDrive (pending (cf_irq c))).
    rewrite list_lookup_insert_eq by done. simpl. by rewrite eqb_reflx.
  - intros j l Hj Hne. moved Hj.
    pose proof (Hexcl i j SyncLoad (SyncDrive l) Hi Hj eq_refl eq_refl). congruence.
Qed.

Lemma drive_pending l s : pending (drive l s) = pending s.
Proof. unfold drive, pending. by destruct (Bool.eqb _ _), (i_hook s). Qed.
Lemma drive_hook l s : i_hook (drive l s) = i_hook s.
Proof. unfold drive. destruct (Bool.eqb _ _); [done|]. by destruct (i_hook s) eqn:?. Qed.
Lemma drive_level l s : i_hook s = true -> i_level (drive l s) = l.
Proof. unfold drive. intros ->. destruct (i_level s) eqn:H, l; simpl; done. Qed.
Lemma drive_calls l s :
  i_level s = default false (head (i_calls s)) ->
  i_level (drive l s) = default false (head (i_calls (drive l s))).
Proof. unfold drive. by destruct (Bool.eqb _ _), (i_hook s). Qed.

Lemma inv_drive_step c i l :
  cf_pcs c !! i = Some (SyncDrive l) -> inv c ->
  inv {| cf_irq := drive l (cf_irq c); cf_locked := false; cf_pcs := <[i := Idle]> (cf_pcs c) |}.
Proof.
  intros Hi [Hlock Hexcl Hfix Hstale Hcalls].
  assert (Hout : forall j q, i <> j -> cf_pcs c !! j = Some q -> in_section q = true -> False).
  { intros j q Hne Hj Hq. by apply Hne, (Hexcl i j _ q Hi Hj). }
  split; simpl; rewrite ?drive_pending, ?drive_hook; [| | | |by apply drive_calls].
  - intros j q Hj Hq. moved Hj. exfalso; eauto.
  - intros j k q r Hj Hk Hq Hr. moved Hj. exfalso; eauto.
  - intros Hh. rewrite drive_level by done. intros Hne.
    destruct (Hstale i l Hi Hne) as [j Hj]. exists j, SyncLock.
    rewrite list_lookup_insert_ne; [done|]. intros ->. congruence.
  - intros j l' Hj _. moved Hj. exfalso; eauto.
Qed.

Lemma or_pending bits s :
  i_bits s <> 0 -> pending (set_bits (Z.lor (i_bits s) bits) s) = pending s.
Proof.
  intros H. unfold pending, set_bits. simpl.
  destruct (Z.eqb_spec (Z.lor (i_bits s) bits) 0) as [[? _]%Z.lor_eq_0_iff|], (Z.eqb_spec (i_bits s) 0); done.
Qed.

Lemma inv_step c c' : inv c -> step c c' -> inv c'.
Proof.
  intros Hinv Hs. destruct Hs as [c0 i p p' s' l' Hi Hact].
  inversion Hact; subst; try (eapply inv_outside; eauto; done).
  - eapply inv_outside; eauto; try done; [by destruct (_ =? _)|].
    destruct (Z.eqb_spec (i_bits (cf_irq c0)) 0); [by left|right]. by rewrite or_pending.
  - eapply inv_outside; eauto; try done; [by destruct (_ && _)|].
    unfold pending, next. simpl.
    destruct (Z.eqb_spec (i_bits (cf_irq c0)) 0) as [->|Hne]; simpl; [by right|].
    destruct (Z.eqb_spec (Z.land (i_bits (cf_irq c0)) (not_w 32 bits)) 0); [by left|by right].
  - rewrite H2. eapply inv_outside; eauto; done.
  - apply inv_lock_step; auto.
  - rewrite H2. apply inv_load_step; auto.
  - apply inv_drive_step; auto.
Qed.

Lemma inv_reachable n c : reachable n c -> inv c.
Proof. induction 1; [apply inv_start|by eapply inv_step]. Qed.

(** ** Calls without interference are runs of the step relation *)

(** [n] threads of which only [i] moves. *)
Inductive solo (i : nat) : conf -> conf -> Prop :=
| solo_refl c : solo i c c
| solo_step c p p' s' l' c' :
    cf_pcs c !! i = Some p -> action p (cf_irq c) (cf_locked c) p' s' l' ->
    solo i {| cf_irq := s'; cf_locked := l'; cf_pcs := <[i := p']> (cf_pcs c) |} c' ->
    solo i c c'.

Lemma solo_reachable n i c c' : reachable n c -> solo i c c' -> reachable n c'.
Proof.
  intros Hr Hs. induction Hs as [|c p p' s' l' c' Hp Ha _ IH]; [done|].
  apply IH. eapply reach_step; [done|]. by eapply step_thread.
Qed.

Definition at_pc (s : Irq) (l : bool) (pcs : list pc) (i : nat) (p : pc) : conf :=
  {| cf_irq := s; cf_locked := l; cf_pcs := <[i := p]> pcs |}.

Lemma solo_cons i pcs p p' s l s' l' c' :
  (i < length pcs)%nat -> action p s l p' s' l' -> solo i (at_pc s' l' pcs i p') c' ->
  solo i (at_pc s l pcs i p) c'.
Proof.
  intros Hi Ha Hs. eapply solo_step; simpl; [by apply list_lookup_insert_eq|exact Ha|].
  simpl. by rewrite list_insert_insert_eq.
Qed.

Lemma solo_sync i pcs s :
  (i < length pcs)%nat ->
  solo i (at_pc s false pcs i SyncLock) (at_pc (sync_line s) false pcs i Idle).
Proof.
  intros Hi. eapply solo_cons; [done|apply act_lock|].
  eapply solo_cons; [done|apply act_sync_load|].
  eapply solo_cons; [done|apply act_drive|]. apply solo_refl.
Qed.

Lemma solo_raise i pcs s bits :
  (i < length pcs)%nat ->
  solo i (at_pc s false pcs i Idle) (at_pc (raise bits s) false pcs i Idle).
Proof.
  intros Hi. unfold raise. destruct (Z.eqb_spec (Z.land bits 3) 0); [apply solo_refl|].
  eapply solo_cons; [done|by apply act_raise|].
  eapply solo_cons; [done|apply act_or|].
  destruct (i_bits s =? 0); [by apply solo_sync|apply solo_refl].
Qed.

Lemma solo_ack i pcs s bits :
  (i < length pcs)%nat ->
  solo i (at_pc s false pcs i Idle) (at_pc (ack bits s) false pcs i Idle).
Proof.
  intros Hi. unfold ack. eapply solo_cons; [done|apply (act_ack _ _ bits)|].
  eapply solo_cons; [done|apply act_load|]. eapply solo_cons; [done|apply act_cas_ok|].
  cbv zeta. destruct (_ && _); [by apply solo_sync|apply solo_refl].
Qed.

Lemma solo_set_hook i pcs s :
  (i < length pcs)%nat ->
  solo i (at_pc s false pcs i Idle) (at_pc (set_hook s) false pcs i Idle).
Proof.
  intros Hi. eapply solo_cons; [done|apply act_set_hook|].
  eapply solo_cons; [done|apply act_hook|]. by apply solo_sync.
Qed.

(** ** Properties *)

(** No interleaving of [raise], [ack] and [set_hook] calls loses an
    interrupt or leaves one stuck: whenever every started call has returned and
    a hook is installed, the line is high exactly when a status bit is set, and
    the hook was last told that level. *)
Theorem line_matches_bits n c :
  reachable n c -> i_hook (cf_irq c) = true -> Forall (eq Idle) (cf_pcs c) ->
  i_level (cf_irq c) = pending (cf_irq c) /\
  pending (cf_irq c) = default false (head (i_calls (cf_irq c))).
Proof.
  intros Hr Hh Hidle. destruct (inv_reachable n c Hr) as [_ _ Hfix _ Hcalls].
  destruct (decide (i_level (cf_irq c) = pending (cf_irq c))) as [He|Hne]; [by rewrite <- He at 2|].
  destruct (Hfix Hh Hne) as (i & p & Hi & Hp).
  eapply Forall_lookup_1 in Hidle; [|exact Hi]. by rewrite <- Hidle in Hp.
Qed.

(** The calls as written, run without interference, are runs of the
    interleaving relation from and to an idle thread: any sequence of them
    stays inside the reachable configurations. *)
Theorem calls_refine_steps n c i bits :
  reachable n c -> cf_locked c = false -> cf_pcs c !! i = Some Idle ->
  let done s := {| cf_irq := s; cf_locked := false; cf_pcs := cf_pcs c |} in
  reachable n (done (raise bits (cf_irq c))) /\
  reachable n (done (ack bits (cf_irq c))) /\
  reachable n (done (set_hook (cf_irq c))).
Proof.
  intros Hr Hl Hi done.
  assert (Hlen : (i < length (cf_pcs c))%nat) by (by eapply lookup_lt_Some).
  assert (Hat : forall s, at_pc s false (cf_pcs c) i Idle = done s).
  { intros s. unfold at_pc, done. by rewrite list_insert_id. }
  assert (Hc : c = at_pc (cf_irq c) false (cf_pcs c) i Idle).
  { rewrite Hat. unfold done. destruct c. simpl in *. by subst. }
  rewrite <- !Hat. rewrite Hc in Hr.
  split_and!; (eapply solo_reachable; [exact Hr|]);
    auto using solo_raise, solo_ack, solo_set_hook.
Qed.

Lemma line_matches_bits_witness :
  reachable 2 {| cf_irq := raise 1 (set_hook new); cf_locked := false; cf_pcs := [Idle; Idle] |} /\
  i_level (raise 1 (set_hook new)) = true.
Proof.
  assert (Hr : reachable 2
    {| cf_irq := raise 1 (set_hook new); cf_locked := false; cf_pcs := [Idle; Idle] |}).
  { apply (solo_reachable 2 1 {| cf_irq := set_hook new; cf_locked := false; cf_pcs := [Idle; Idle] |});
      [|apply (solo_raise 1 [Idle; Idle]); simpl; lia].
    apply (solo_reachable 2 0 (start 2)); [apply reach_start|].
    apply (solo_set_hook 0 [Idle; Idle] new). simpl; lia. }
  split; [exact Hr|].
  apply (line_matches_bits 2 _ Hr); [reflexivity|repeat constructor].
Defined.

Lemma calls_refine_steps_witness :
  reachable 1 {| cf_irq := raise 3 new; cf_locked := false; cf_pcs := [Idle] |}.
Proof.
  apply (calls_refine_steps 1 (start 1) 0 3 (reach_start 1)); reflexivity.
Defined.
