(* ===== verification/Platform.v ===== *)
(** * The guest physical map

    Model of [ternvale-vmm/src/platform.rs]: the addresses of the machine, the
    layout built from them and its validation.  [Layout::dump] only logs. *)

From stdpp Require Import strings.
From S2P Require Import Prelude Windows GuestMemory.

Definition RAM_BASE : Z := 0x40000000.
Definition FLASH_BASE : Z := 0.
Definition FLASH_SIZE : Z := 0x08000000.
Definition FLASH_BANK_SIZE : Z := FLASH_SIZE / 2.
Definition FLASH_CODE_BASE : Z := FLASH_BASE.
Definition FLASH_VARS_BASE : Z := FLASH_BASE + FLASH_BANK_SIZE.
Definition GIC_DIST_BASE : Z := 0x08000000.
Definition GIC_DIST_SIZE : Z := 0x00010000.
Definition GIC_REDIST_BASE : Z := 0x080a0000.
Definition GIC_REDIST_SIZE : Z := 0x00f60000.
Definition UART_BASE : Z := 0x09000000.
Definition UART_SIZE : Z := HOST_PAGE_SIZE.
Definition RTC_BASE : Z := 0x09010000.
Definition RTC_SIZE : Z := HOST_PAGE_SIZE.
Definition FW_CFG_BASE : Z := 0x09020000.
Definition FW_CFG_SIZE : Z := HOST_PAGE_SIZE.
Definition ACPI_BASE : Z := 0x09100000.
Definition ACPI_SIZE : Z := 0x00020000.
Definition TPM_CRB_BASE : Z := 0x09140000.
Definition TPM_CRB_SIZE : Z := 0x8000.
Definition XHCI_BASE : Z := 0x091c0000.
Definition XHCI_SIZE : Z := 0x8000.
Definition VIRTIO_MMIO_BASE : Z := 0x0a000000.
Definition VIRTIO_MMIO_SLOTS : Z := 32.
Definition VIRTIO_MMIO_SLOT_SIZE : Z := 0x200.
Definition VIRTIO_MMIO_SIZE : Z := VIRTIO_MMIO_SLOTS * VIRTIO_MMIO_SLOT_SIZE.
Definition PCIE_MMIO_BASE : Z := 0x10000000.
Definition PCIE_MMIO_SIZE : Z := 0x2f000000.
Definition PCIE_ECAM_BASE : Z := 0x3f000000.
Definition PCIE_ECAM_SIZE : Z := 0x01000000.

Record Region := { p_name : string; p_base : Z; p_size : Z }.

#[export] Instance Region_Window : Window Region := {| w_base := p_base; w_size := p_size |}.

Record Layout := { l_regions : list Region }.

Inductive PlatformError : Type :=
| Misaligned (name : string) (base size align : Z)
| Overlap (name : string) (base size : Z) (other : string) (other_base other_size : Z).

Definition region (name : string) (base size : Z) : Region :=
  {| p_name := name; p_base := base; p_size := size |}.

Definition virt (ram_bytes : Z) : Layout :=
  {| l_regions :=
       [ region "flash" FLASH_BASE FLASH_SIZE;
         region "gic-dist" GIC_DIST_BASE GIC_DIST_SIZE;
         region "gic-redist" GIC_REDIST_BASE GIC_REDIST_SIZE;
         region "uart" UART_BASE UART_SIZE;
         region "rtc" RTC_BASE RTC_SIZE;
         region "fw-cfg" FW_CFG_BASE FW_CFG_SIZE;
         region "acpi" ACPI_BASE ACPI_SIZE;
         region "tpm-crb" TPM_CRB_BASE TPM_CRB_SIZE;
         region "xhci" XHCI_BASE XHCI_SIZE;
         region "virtio-mmio" VIRTIO_MMIO_BASE VIRTIO_MMIO_SIZE;
         region "pcie-mmio" PCIE_MMIO_BASE PCIE_MMIO_SIZE;
         region "pcie-ecam" PCIE_ECAM_BASE PCIE_ECAM_SIZE;
         region "ram" RAM_BASE ram_bytes ] |}.

Definition misaligned (r : Region) : PlatformError :=
  Misaligned (p_name r) (p_base r) (p_size r) HOST_PAGE_SIZE.

(** First loop: sizes and alignment. *)
Fixpoint check_pages (rs : list Region) : result PlatformError unit :=
  match rs with
  | [] => Ok tt
  | r :: rs =>
      if (p_size r =? 0) || negb (p_base r mod HOST_PAGE_SIZE =? 0)
         || negb (p_size r mod HOST_PAGE_SIZE =? 0)
      then Err (misaligned r) else check_pages rs
  end.

(** Inner loop: [r] against the regions before it. *)
Fixpoint check_against (r : Region) (e : Z) (before : list Region) : result PlatformError unit :=
  match before with
  | [] => Ok tt
  | other :: before =>
      if (p_base r <? add_w 64 (p_base other) (p_size other)) && (p_base other <? e) then
        Err (Overlap (p_name r) (p_base r) (p_size r) (p_name other) (p_base other) (p_size other))
      else check_against r e before
  end.

(** Second loop; [before] is [self.regions[..index]]. *)
Fixpoint check_overlaps (before rs : list Region) : result PlatformError unit :=
  match rs with
  | [] => Ok tt
  | r :: rs =>
      match checked_add 64 (p_base r) (p_size r) with
      | None => Err (misaligned r)
      | Some e => _ ← check_against r e before; check_overlaps (before ++ [r]) rs
      end
  end.

Definition validate (l : Layout) : result PlatformError unit :=
  _ ← check_pages (l_regions l); check_overlaps [] (l_regions l).

(** ** Facts *)

Definition pages_ok (r : Region) : Prop :=
  0 < p_size r /\ p_base r mod HOST_PAGE_SIZE = 0 /\ p_size r mod HOST_PAGE_SIZE = 0.

Definition apart (r r' : Region) : Prop :=
  p_base r + p_size r <= p_base r' \/ p_base r' + p_size r' <= p_base r.

(** A usable map: page-aligned, inside the address space, pairwise apart. *)
Definition usable (rs : list Region) : Prop :=
  Forall pages_ok rs /\ Forall (fun r => p_base r + p_size r < 2 ^ 64) rs /\
  forall i j r r', (i < j)%nat -> rs !! i = Some r -> rs !! j = Some r' -> apart r' r.

Definition in_u64 (r : Region) : Prop := fits 64 (p_base r) /\ fits 64 (p_size r).

Lemma check_pages_Ok rs : Forall in_u64 rs -> check_pages rs = Ok tt <-> Forall pages_ok rs.
Proof.
  induction 1 as [|r rs [Hb Hs] _ IH]; simpl; [done|].
  rewrite Forall_cons_iff, <- IH. unfold pages_ok, fits in *.
  destruct (Z.eqb_spec (p_size r) 0), (Z.eqb_spec (p_base r mod HOST_PAGE_SIZE) 0),
    (Z.eqb_spec (p_size r mod HOST_PAGE_SIZE) 0); simpl; naive_solver lia.
Qed.

Lemma check_against_Ok r before :
  Forall in_u64 before -> Forall (fun o => p_base o + p_size o < 2 ^ 64) before -> 0 < p_size r ->
  Forall (fun o => 0 < p_size o) before ->
  check_against r (p_base r + p_size r) before = Ok tt <-> Forall (apart r) before.
Proof.
  intros Hu Hlt Hr Hpos. induction before as [|o before IH]; simpl; [done|].
  apply Forall_cons_iff in Hu as [[Hb Hs] Hu], Hlt as [Hl Hlt], Hpos as [Hp Hpos].
  rewrite Forall_cons_iff, <- IH by done. unfold add_w, apart, fits in *.
  rewrite wrap_small by (unfold fits; lia).
  destruct (Z.ltb_spec (p_base r) (p_base o + p_size o)), (Z.ltb_spec (p_base o) (p_base r + p_size r));
    simpl; naive_solver lia.
Qed.

(** The checks of the suffix [rs] once [before] passed. *)
Lemma check_overlaps_Ok before rs :
  Forall in_u64 (before ++ rs) -> Forall pages_ok (before ++ rs) ->
  Forall (fun o => p_base o + p_size o < 2 ^ 64) before ->
  check_overlaps before rs = Ok tt <->
  Forall (fun r => p_base r + p_size r < 2 ^ 64) rs /\
  forall j r', rs !! j = Some r' -> Forall (apart r') (before ++ take j rs).
Proof.
  revert before. induction rs as [|r rs IH]; intros before Hu Hp Hlt; cbn [check_overlaps].
  { split; [|done]. intros _. split; [constructor|]. intros j r' Hj. by rewrite lookup_nil in Hj. }
  pose proof Hu as [Hub [[Hb Hs] _]%Forall_cons_iff]%Forall_app.
  pose proof Hp as [Hpb [[Hpr _] _]%Forall_cons_iff]%Forall_app.
  destruct (checked_add 64 (p_base r) (p_size r)) as [e|] eqn:Hc.
  2: { apply checked_add_None in Hc. split; [done|]. intros [[? _]%Forall_cons_iff _]. lia. }
  apply checked_add_Some in Hc as [-> Hlt'].
  rewrite bind_Ok.
  assert (Hpos : Forall (fun o => 0 < p_size o) before).
  { eapply Forall_impl; [|exact Hpb]. by intros o (? & _). }
  assert (Happ : before ++ r :: rs = (before ++ [r]) ++ rs) by (by rewrite <- app_assoc).
  rewrite Happ in Hu, Hp.
  specialize (IH (before ++ [r]) Hu Hp ltac:(apply Forall_app; split; [done|by constructor])).
  rewrite Forall_cons_iff. split.
  - intros ([] & Hag & Hrest). rewrite check_against_Ok in Hag by done.
    apply IH in Hrest as [Hl Hd]. split; [done|]. intros [|j] r' Hj; simpl in *.
    + rewrite app_nil_r. by simplify_eq.
    + specialize (Hd j r' Hj). by rewrite <- app_assoc in Hd.
  - intros [[_ Hl] Hd]. exists tt. split.
    + apply check_against_Ok; try done. specialize (Hd 0%nat r eq_refl). simpl in Hd.
      by rewrite app_nil_r in Hd.
    + apply IH. split; [done|]. intros j r' Hj. specialize (Hd (S j) r' Hj). simpl in Hd.
      by rewrite <- app_assoc.
Qed.

(** Every window of the machine but RAM. *)
Definition devices : list Region := removelast (l_regions (virt 0)).

Lemma virt_split ram : l_regions (virt ram) = devices ++ [region "ram" RAM_BASE ram].
Proof. reflexivity. Qed.

Lemma devices_usable : usable devices.
Proof.
  assert (Hu : Forall in_u64 devices) by (repeat constructor; done).
  assert (Hp : Forall pages_ok devices) by (apply check_pages_Ok; [done|vm_compute; done]).
  assert (Ho : check_overlaps [] devices = Ok tt) by (vm_compute; done).
  apply check_overlaps_Ok in Ho as [Hl Hd]; [|done..]. split_and!; [done..|].
  intros i j r r' Hij Hi Hj. specialize (Hd j r' Hj).
  eapply (Forall_lookup_1 _ _ i); [exact Hd|]. simpl. by rewrite lookup_take_lt.
Qed.

Lemma devices_below_ram : Forall (fun r => p_base r + p_size r <= RAM_BASE) devices.
Proof. repeat constructor; done. Qed.

(** ** Properties *)

(** [validate] accepts exactly the maps whose windows are non-empty, 16 KiB
    aligned, end below 2^64 and share no byte pairwise. *)
Theorem validate_spec l :
  Forall in_u64 (l_regions l) -> validate l = Ok tt <-> usable (l_regions l).
Proof.
  intros Hu. unfold validate, usable. rewrite bind_Ok. split.
  - intros ([] & Hp & Ho). rewrite check_pages_Ok in Hp by done.
    apply check_overlaps_Ok in Ho as [Hl Hd]; [|done..]. split_and!; [done..|].
    intros i j r r' Hij Hi Hj. specialize (Hd j r' Hj). simpl in Hd.
    eapply (Forall_lookup_1 _ _ i); [exact Hd|]. by rewrite lookup_take_lt.
  - intros (Hp & Hl & Hd). exists tt. split; [by apply check_pages_Ok|].
    apply check_overlaps_Ok; [done..|]. split; [done|]. intros j r' Hj. simpl.
    apply Forall_lookup. intros i r Hi. apply lookup_take_Some in Hi as [Hi Hij]. eauto.
Qed.

(** The machine's own map is valid for every RAM size that is a positive
    multiple of 16 KiB and ends below 2^64, and for no other. *)
Theorem virt_valid ram :
  fits 64 ram ->
  validate (virt ram) = Ok tt <->
  0 < ram /\ ram mod HOST_PAGE_SIZE = 0 /\ RAM_BASE + ram < 2 ^ 64.
Proof.
  intros Hram.
  assert (Hu : Forall in_u64 (l_regions (virt ram))) by (repeat constructor; (done || apply Hram)).
  rewrite virt_split in *. split.
  - unfold validate. rewrite virt_split, bind_Ok. intros ([] & Hp & Ho).
    rewrite check_pages_Ok in Hp by done.
    apply check_overlaps_Ok in Ho as [Hl _]; [|done..].
    apply Forall_app in Hp as [_ [(? & _ & ?) _]%Forall_cons_iff],
      Hl as [_ [? _]%Forall_cons_iff]. by split_and!.
  - intros (Hpos & Hal & Hend). unfold validate. rewrite virt_split, bind_Ok. exists tt.
    assert (Hp : Forall pages_ok (devices ++ [region "ram" RAM_BASE ram])).
    { apply Forall_app. split; [apply devices_usable|]. by repeat constructor. }
    destruct devices_usable as (_ & Hl & Hd). split; [by apply check_pages_Ok|].
    apply check_overlaps_Ok; [done..|]. split.
    { apply Forall_app. split; [done|by repeat constructor]. }
    intros j r' Hj. apply Forall_lookup. intros i r Hi.
    apply lookup_take_Some in Hi as [Hi Hij]. apply lookup_app_Some in Hj as [Hj|[Hge Hj]].
    + rewrite lookup_app_l in Hi by (apply lookup_lt_Some in Hj; lia). by apply (Hd i j).
    + assert (j = length devices) as ->.
      { apply list_lookup_singleton_Some in Hj as [? _]. lia. }
      rewrite Nat.sub_diag in Hj. injection Hj as <-. rewrite lookup_app_l in Hi by done.
      right. exact (Forall_lookup_1 _ _ _ _ devices_below_ram Hi).
Qed.

Lemma validate_spec_witness :
  usable (l_regions (virt 0x10000000)) /\
  validate {| l_regions := [region "a" 0 0x8000; region "b" 0x4000 0x4000] |} <> Ok tt.
Proof.
  split.
  - apply (validate_spec (virt 0x10000000)); [|vm_compute; reflexivity]. repeat constructor; done.
  - intros H. apply validate_spec in H as (_ & _ & H); [|repeat constructor; done].
    specialize (H 0%nat 1%nat _ _ ltac:(lia) eq_refl eq_refl). unfold apart in H. simpl in H. lia.
Defined.

Lemma virt_valid_witness : validate (virt 0x80000000) = Ok tt /\ validate (virt 0x1000) <> Ok tt.
Proof.
  split.
  - apply (virt_valid 0x80000000); [done|]. done.
  - intros H. apply virt_valid in H as (_ & H & _); [|done]. discriminate H.
Defined.
