(* ===== verification/VirtioCore.v ===== *)
(** * Transport-independent virtio state

    Model of [ternvale-devices/src/virtio/core.rs], [core/status.rs] and
    [core/queue.rs] (with the trait and constants of [virtio.rs]): the driver's
    status machine, feature negotiation, queue configuration, kicks and reset,
    shared by the MMIO and the PCI transport.

    A device is any type with a [VirtioDevice] instance; its [&self] methods may
    change interior state, so they return the device.  Log messages are not
    modelled; the reasons a status write is rejected for are. *)

From stdpp Require Import strings.
From S2P Require Import Prelude VirtioQueue VirtioIrq.

Definition VIRTIO_F_VERSION_1 : Z := Z.shiftl 1 32.
Definition VIRTIO_F_INDIRECT_DESC : Z := Z.shiftl 1 28.
Definition VIRTIO_F_EVENT_IDX : Z := Z.shiftl 1 29.

Definition STATUS_ACKNOWLEDGE : Z := 1.
Definition STATUS_DRIVER : Z := 2.
Definition STATUS_DRIVER_OK : Z := 4.
Definition STATUS_FEATURES_OK : Z := 8.
Definition STATUS_DEVICE_NEEDS_RESET : Z := 64.
Definition STATUS_FAILED : Z := 128.

Record QueueNotify := {
  n_index : Z;
  n_size : Z;
  n_desc : Z;
  n_avail : Z;
  n_used : Z;
  n_features : Z;
}.

(** The trait of [virtio.rs]. *)
Class VirtioDevice (V : Type) := {
  device_id : V -> Z;
  vendor_id : V -> Z;
  device_features : V -> Z;
  num_queues : V -> Z;
  queue_num_max : V -> Z -> Z;
  read_config : V -> Z -> Z -> Z * V;
  write_config : V -> Z -> Z -> Z -> V;
  dev_notify : V -> QueueNotify -> V;
  status_changed : V -> Z -> V;
  config_generation : V -> Z;
}.

(** [FixedDevice], with the trait's default methods. *)
Record FixedDevice := { fd_id : Z; fd_queues : Z }.

#[export] Instance FixedDevice_VirtioDevice : VirtioDevice FixedDevice := {|
  device_id d := fd_id d;
  vendor_id _ := 0x554d4551;
  device_features _ := 0;
  num_queues d := fd_queues d;
  queue_num_max _ _ := 256;
  read_config d _ _ := (0, d);
  write_config d _ _ _ := d;
  dev_notify d _ := d;
  status_changed d _ := d;
  config_generation _ := 0;
|}.

(** ** State *)

Record Queue := {
  q_num_max : Z;
  q_num : Z;
  q_ready : bool;
  q_desc : Z;
  q_driver : Z;
  q_device : Z;
}.

Inductive QueueAddr : Type := Desc | Driver | Device.

Definition DRIVER_STATUS_BITS : Z :=
  Z.lor (Z.lor (Z.lor (Z.lor STATUS_ACKNOWLEDGE STATUS_DRIVER) STATUS_DRIVER_OK)
               STATUS_FEATURES_OK) STATUS_FAILED.
Definition ACK : Z := STATUS_ACKNOWLEDGE.
Definition DRIVER : Z := Z.lor STATUS_ACKNOWLEDGE STATUS_DRIVER.
Definition FEATURES : Z := Z.lor (Z.lor STATUS_ACKNOWLEDGE STATUS_DRIVER) STATUS_FEATURES_OK.
Definition DRIVER_OK : Z :=
  Z.lor (Z.lor (Z.lor STATUS_ACKNOWLEDGE STATUS_DRIVER) STATUS_FEATURES_OK) STATUS_DRIVER_OK.

Definition status_prefix (status : Z) : bool :=
  (status =? 0) || (status =? ACK) || (status =? DRIVER) || (status =? FEATURES)
  || (status =? DRIVER_OK).

Definition status_step (status : Z) : Z :=
  if status =? 0 then 0
  else if status =? ACK then 1
  else if status =? DRIVER then 2
  else if status =? FEATURES then 3
  else if status =? DRIVER_OK then 4
  else 5.

Definition feature_word (features sel : Z) : Z :=
  if sel =? 0 then wrap 32 features
  else if sel =? 1 then wrap 32 (Z.shiftr features 32)
  else 0.

Definition mask (value size : Z) : Z :=
  if size =? 1 then Z.land value 0xff
  else if size =? 2 then Z.land value 0xffff
  else if size =? 4 then Z.land value 0xffffffff
  else value.

Section core.
Context {V : Type} `{!VirtioDevice V}.

Record VirtioCore := {
  co_device : V;
  co_name : string;
  co_driver_features : Z;
  co_queues : list Queue;
  co_status : Z;
  co_interrupt : Irq;
}.

Definition set_device (d : V) (c : VirtioCore) : VirtioCore :=
  {| co_device := d; co_name := co_name c; co_driver_features := co_driver_features c;
     co_queues := co_queues c; co_status := co_status c; co_interrupt := co_interrupt c |}.
Definition set_features (f : Z) (c : VirtioCore) : VirtioCore :=
  {| co_device := co_device c; co_name := co_name c; co_driver_features := f;
     co_queues := co_queues c; co_status := co_status c; co_interrupt := co_interrupt c |}.
Definition set_queues (qs : list Queue) (c : VirtioCore) : VirtioCore :=
  {| co_device := co_device c; co_name := co_name c; co_driver_features := co_driver_features c;
     co_queues := qs; co_status := co_status c; co_interrupt := co_interrupt c |}.
Definition set_status (s : Z) (c : VirtioCore) : VirtioCore :=
  {| co_device := co_device c; co_name := co_name c; co_driver_features := co_driver_features c;
     co_queues := co_queues c; co_status := s; co_interrupt := co_interrupt c |}.
Definition set_interrupt (i : Irq) (c : VirtioCore) : VirtioCore :=
  {| co_device := co_device c; co_name := co_name c; co_driver_features := co_driver_features c;
     co_queues := co_queues c; co_status := co_status c; co_interrupt := i |}.

(** ** Operations of core.rs *)

Definition fresh_queue (num_max : Z) : Queue :=
  {| q_num_max := num_max; q_num := 0; q_ready := false; q_desc := 0; q_driver := 0; q_device := 0 |}.

Definition new (name : string) (device : V) (interrupt : Irq) : VirtioCore :=
  {| co_device := device; co_name := name; co_driver_features := 0;
     co_queues := (fun index => fresh_queue (queue_num_max device index))
                    <$> seqZ 0 (num_queues device);
     co_status := 0; co_interrupt := interrupt |}.

Definition offered (c : VirtioCore) : Z := Z.lor (device_features (co_device c)) VIRTIO_F_VERSION_1.

Definition queue (c : VirtioCore) (index : Z) : option Queue := get (co_queues c) index.

(** [queue_mut(index)] followed by a change of the queue. *)
Definition queue_mut (c : VirtioCore) (index : Z) (f : Queue -> Queue) : VirtioCore :=
  set_queues (update_at (co_queues c) index f) c.

(** ** Status ([core/status.rs]) *)

Definition write_driver_features (sel value : Z) (c : VirtioCore) : VirtioCore :=
  if negb (Z.land (co_status c) STATUS_FEATURES_OK =? 0) then c
  else if sel =? 0 then
    set_features (Z.lor (Z.land (co_driver_features c) (not_w 64 0xffffffff)) value) c
  else if sel =? 1 then
    set_features (Z.lor (Z.land (co_driver_features c) 0xffffffff) (wrap 64 (Z.shiftl value 32))) c
  else c.

Definition check_features (c : VirtioCore) : result string unit :=
  if negb (Z.land (co_driver_features c) (not_w 64 (offered c)) =? 0) then
    Err "driver features are not a subset of device features"
  else if Z.land (co_driver_features c) VIRTIO_F_VERSION_1 =? 0 then
    Err "missing VIRTIO_F_VERSION_1"
  else Ok tt.

Definition check_status (c : VirtioCore) (requested : Z) : result string unit :=
  if negb (Z.land requested (not_w 32 DRIVER_STATUS_BITS) =? 0) then Err "unknown status bit"
  else
    let old := Z.land (co_status c) (not_w 32 STATUS_FAILED) in
    let new := Z.land requested (not_w 32 STATUS_FAILED) in
    if negb (Z.land new old =? old) then Err "status bits cleared without reset"
    else if negb (status_prefix new) then Err "out of order"
    else if status_step old + 1 <? status_step new then Err "skipped status step"
    else if negb (Z.land new STATUS_FEATURES_OK =? 0) && (Z.land old STATUS_FEATURES_OK =? 0)
    then check_features c
    else Ok tt.

Definition reset_queue (q : Queue) : Queue := fresh_queue (q_num_max q).

Definition reset (c : VirtioCore) : VirtioCore :=
  set_queues (reset_queue <$> co_queues c)
    (set_interrupt (ack 3 (co_interrupt c)) (set_status 0 (set_features 0 c))).

Definition write_status (requested : Z) (c : VirtioCore) : VirtioCore :=
  if requested =? 0 then
    let c := reset c in set_device (status_changed (co_device c) 0) c
  else match check_status c requested with
       | Err _ => c
       | Ok _ =>
           if requested =? co_status c then c
           else let c := set_status requested c in
                set_device (status_changed (co_device c) requested) c
       end.

(** ** Queues ([core/queue.rs]) *)

Definition with_num (v : Z) (q : Queue) : Queue :=
  {| q_num_max := q_num_max q; q_num := v; q_ready := q_ready q; q_desc := q_desc q;
     q_driver := q_driver q; q_device := q_device q |}.
Definition with_ready (q : Queue) : Queue :=
  {| q_num_max := q_num_max q; q_num := q_num q; q_ready := true; q_desc := q_desc q;
     q_driver := q_driver q; q_device := q_device q |}.

Definition set_queue_num (sel value : Z) (c : VirtioCore) : VirtioCore :=
  match queue c sel with
  | None => c
  | Some q =>
      if q_ready q then c
      else if negb (value =? 0) && ((q_num_max q <? value) || negb (is_power_of_two value)) then c
      else queue_mut c sel (with_num value)
  end.

Definition set_queue_ready (sel value : Z) (c : VirtioCore) : VirtioCore :=
  match queue c sel with
  | None => c
  | Some q =>
      if value =? 0 then c
      else if negb (value =? 1) then c
      else if (q_num q =? 0) || (q_desc q =? 0) || (q_driver q =? 0) || (q_device q =? 0) then c
      else queue_mut c sel with_ready
  end.

(** The message a ready queue's kick carries. *)
Definition notify_of (c : VirtioCore) (index : Z) (q : Queue) : QueueNotify :=
  {| n_index := wrap 16 index; n_size := wrap 16 (q_num q); n_desc := q_desc q;
     n_avail := q_driver q; n_used := q_device q; n_features := co_driver_features c |}.

Definition notify (index : Z) (c : VirtioCore) : VirtioCore :=
  match queue c index with
  | None => c
  | Some q =>
      if negb (q_ready q) then c
      else set_device (dev_notify (co_device c) (notify_of c index q)) c
  end.

Definition addr_word (high : bool) (value addr : Z) : Z :=
  if high then Z.lor (Z.land addr 0xffffffff) (wrap 64 (Z.shiftl value 32))
  else Z.lor (Z.land addr 0xffffffff00000000) value.

Definition with_addr (which : QueueAddr) (high : bool) (value : Z) (q : Queue) : Queue :=
  {| q_num_max := q_num_max q; q_num := q_num q; q_ready := q_ready q;
     q_desc := match which with Desc => addr_word high value (q_desc q) | _ => q_desc q end;
     q_driver := match which with Driver => addr_word high value (q_driver q) | _ => q_driver q end;
     q_device := match which with Device => addr_word high value (q_device q) | _ => q_device q end |}.

Definition set_queue_addr (sel : Z) (which : QueueAddr) (high : bool) (value : Z) (c : VirtioCore)
  : VirtioCore :=
  match queue c sel with
  | None => c
  | Some q => if q_ready q then c else queue_mut c sel (with_addr which high value)
  end.

End core.
Arguments VirtioCore : clear implicits.

(** ** The status machine as a chain of levels

    [Some n]: the first [n] initialisation steps are done (with or without
    [FAILED]); [None]: not a status the driver may write. *)
Definition level (s : Z) : option Z :=
  if (s =? 0) || (s =? 128) then Some 0
  else if (s =? 1) || (s =? 129) then Some 1
  else if (s =? 3) || (s =? 131) then Some 2
  else if (s =? 11) || (s =? 139) then Some 3
  else if (s =? 15) || (s =? 143) then Some 4
  else None.

(** The checks of [check_status] that do not look at features. *)
Definition status_ok (status requested : Z) : bool :=
  (Z.land requested (not_w 32 DRIVER_STATUS_BITS) =? 0) &&
  let old := Z.land status (not_w 32 STATUS_FAILED) in
  let new := Z.land requested (not_w 32 STATUS_FAILED) in
  (Z.land new old =? old) && status_prefix new && negb (status_step old + 1 <? status_step new).

Definition level_ok (status requested : Z) : bool :=
  match level status, level requested with
  | Some l, Some l' => (l =? l') || (l + 1 =? l')
  | _, _ => false
  end.

(** Negotiation happens on the step from level 2 to level 3. *)
Definition negotiates (status requested : Z) : bool :=
  match level status, level requested with
  | Some l, Some l' => (l =? 2) && (l' =? 3)
  | _, _ => false
  end.

Definition legal : list Z := [0; 1; 3; 11; 15; 128; 129; 131; 139; 143].

Lemma level_legal s l : level s = Some l -> s ∈ legal /\ 0 <= l <= 4.
Proof.
  unfold level, legal. intros H.
  repeat match type of H with context [s =? ?b] =>
    destruct (Z.eqb_spec s b) as [->|]; [split; [set_solver|naive_solver lia]|]
  end. done.
Qed.

Lemma known_bits_small r : fits 32 r -> Z.land r (not_w 32 DRIVER_STATUS_BITS) = 0 -> 0 <= r < 256.
Proof.
  intros [Hr1 Hr2] H. split; [done|].
  assert (Z.shiftr r 8 = 0) as H8.
  { apply Z.bits_inj'. intros i Hi. rewrite Z.shiftr_spec, Z.bits_0 by done.
    destruct (decide (i + 8 < 32)).
    - pose proof (f_equal (fun z => Z.testbit z (i + 8)) H) as Hb. simpl in Hb.
      rewrite Z.land_spec, Z.bits_0 in Hb.
      assert (Z.testbit (not_w 32 DRIVER_STATUS_BITS) (i + 8) = true) as Ht; [|by rewrite Ht, andb_true_r in Hb].
      assert (i + 8 ∈ seqZ 8 24) as Hin by (apply elem_of_seqZ; lia).
      revert Hin. generalize (i + 8). apply list.Forall_forall. vm_compute. repeat constructor.
    - eapply testbit_high; [split; [done|exact Hr2]|lia]. }
  rewrite Z.shiftr_div_pow2 in H8 by done. change (2 ^ 8) with 256 in H8.
  pose proof (Z.div_mod r 256 ltac:(done)). pose proof (Z.mod_pos_bound r 256 ltac:(done)). lia.
Qed.

Lemma status_ok_level s r : s ∈ legal -> fits 32 r -> status_ok s r = level_ok s r.
Proof.
  intros Hs Hr. destruct (decide (0 <= r < 256)) as [Hsm|Hbig].
  - assert (Hall : Forall (fun s => Forall (fun r => status_ok s r = level_ok s r) (seqZ 0 256)) legal).
    { apply (bool_decide_unpack _). vm_compute. exact I. }
    rewrite list.Forall_forall in Hall. specialize (Hall s Hs). rewrite list.Forall_forall in Hall.
    apply Hall, elem_of_seqZ. lia.
  - assert (level r = None) as Hn.
    { destruct (level r) as [l|] eqn:Hl; [|done]. apply level_legal in Hl as [Hin _].
      exfalso. apply Hbig. revert Hin. unfold legal. rewrite !elem_of_cons, elem_of_nil. lia. }
    unfold level_ok. rewrite Hn. replace (match level s with Some _ => false | None => false end)
      with false by (by destruct (level s)).
    unfold status_ok. destruct (Z.eqb_spec (Z.land r (not_w 32 DRIVER_STATUS_BITS)) 0) as [H|]; [|done].
    by apply known_bits_small in H.
Qed.

(** On legal statuses the feature check runs exactly on the step to level 3. *)
Lemma negotiates_spec s r :
  s ∈ legal -> r ∈ legal -> level_ok s r = true ->
  negb (Z.land (Z.land r (not_w 32 STATUS_FAILED)) STATUS_FEATURES_OK =? 0) &&
  (Z.land (Z.land s (not_w 32 STATUS_FAILED)) STATUS_FEATURES_OK =? 0) = negotiates s r.
Proof.
  assert (Hall : Forall (fun s => Forall (fun r => level_ok s r = true ->
    negb (Z.land (Z.land r (not_w 32 STATUS_FAILED)) STATUS_FEATURES_OK =? 0) &&
    (Z.land (Z.land s (not_w 32 STATUS_FAILED)) STATUS_FEATURES_OK =? 0) = negotiates s r) legal) legal).
  { apply (bool_decide_unpack _). vm_compute. exact I. }
  intros Hs Hr. rewrite list.Forall_forall in Hall. specialize (Hall s Hs).
  rewrite list.Forall_forall in Hall. by apply Hall.
Qed.

(** The [FEATURES_OK] bit is set from level 3 on. *)
Lemma features_ok_level s l :
  level s = Some l -> (Z.land s STATUS_FEATURES_OK =? 0) = (l <? 3).
Proof.
  intros H. apply level_legal in H as Hin. destruct Hin as [Hin _].
  assert (Hall : Forall (fun s => forall l, level s = Some l ->
    (Z.land s STATUS_FEATURES_OK =? 0) = (l <? 3)) legal).
  { unfold legal. repeat constructor; intros l' [= <-]; reflexivity. }
  rewrite list.Forall_forall in Hall. by apply Hall.
Qed.

(** ** Driver actions and invariant *)

Inductive Act : Type :=
| ADriverFeatures (sel value : Z)
| AStatus (value : Z)
| AQueueNum (sel value : Z)
| AQueueReady (sel value : Z)
| ANotify (index : Z)
| AQueueAddr (sel : Z) (which : QueueAddr) (high : bool) (value : Z).

#[export] Instance QueueAddr_eq_dec : EqDecision QueueAddr.
Proof. solve_decision. Defined.
#[export] Instance Act_eq_dec : EqDecision Act.
Proof. solve_decision. Defined.

Lemma status_act a : (exists r, a = AStatus r) \/ (forall r, a <> AStatus r).
Proof. destruct a; naive_solver. Qed.

(** Register values are 32 bits wide. *)
Definition act_ok (a : Act) : Prop :=
  match a with
  | ADriverFeatures _ v | AStatus v | AQueueNum _ v | AQueueReady _ v | AQueueAddr _ _ _ v => fits 32 v
  | ANotify _ => True
  end.

Definition is_reset (a : Act) : Prop := a = AStatus 0.

(** A configured queue: a power-of-two size within the maximum; ready only with
    a size and three addresses. *)
Definition wf_vq (q : Queue) : Prop :=
  fits 16 (q_num_max q) /\ fits 64 (q_desc q) /\ fits 64 (q_driver q) /\ fits 64 (q_device q) /\
  (q_num q = 0 \/ is_power_of_two (q_num q) = true /\ q_num q <= q_num_max q) /\
  (q_ready q = true -> q_num q <> 0 /\ q_desc q <> 0 /\ q_driver q <> 0 /\ q_device q <> 0).

Section facts.
Context {V : Type} `{!VirtioDevice V}.
Implicit Types (c : VirtioCore V) (q : Queue) (a : Act).

Definition act a c : VirtioCore V :=
  match a with
  | ADriverFeatures sel v => write_driver_features sel v c
  | AStatus v => write_status v c
  | AQueueNum sel v => set_queue_num sel v c
  | AQueueReady sel v => set_queue_ready sel v c
  | ANotify i => notify i c
  | AQueueAddr sel w h v => set_queue_addr sel w h v c
  end.

Definition run (acts : list Act) c : VirtioCore V := foldl (fun c a => act a c) c acts.

(** Accepted features: a subset of the offered ones, with [VERSION_1]. *)
Definition negotiated c : Prop :=
  (forall i, 0 <= i -> Z.testbit (co_driver_features c) i = true -> Z.testbit (offered c) i = true) /\
  Z.testbit (co_driver_features c) 32 = true.

Record wf_core c : Prop := {
  wf_status : is_Some (level (co_status c));
  wf_features : fits 64 (co_driver_features c);
  wf_queues : Forall wf_vq (co_queues c);
  wf_negotiated : Z.land (co_status c) STATUS_FEATURES_OK <> 0 -> negotiated c;
}.

Lemma check_status_Ok c r :
  is_Some (level (co_status c)) -> fits 32 r ->
  check_status c r = Ok tt <->
  level_ok (co_status c) r = true /\
  (negotiates (co_status c) r = true -> check_features c = Ok tt).
Proof.
  intros [l Hl] Hr. apply level_legal in Hl as [Hs _].
  rewrite <- status_ok_level by done.
  pose proof (status_ok_level _ r Hs Hr) as Heq. unfold check_status, status_ok in *.
  destruct (Z.land r (not_w 32 DRIVER_STATUS_BITS) =? 0); simpl in *; [|naive_solver].
  destruct (_ =? Z.land (co_status c) _); simpl in *; [|naive_solver].
  destruct (status_prefix _); simpl in *; [|naive_solver].
  destruct (_ <? _); simpl in *; [naive_solver|].
  assert (Hlr : r ∈ legal).
  { unfold level_ok in Heq. destruct (level (co_status c)), (level r) as [l'|] eqn:Hl'; try done.
    by apply level_legal in Hl' as [? _]. }
  rewrite negotiates_spec by auto.
  destruct (negotiates _ _); [|naive_solver].
  destruct (check_features c) as [[]|]; naive_solver.
Qed.

Lemma addr_word_eq high v addr :
  fits 64 addr -> fits 32 v ->
  addr_word high v addr =
  if high then v * 2 ^ 32 + addr mod 2 ^ 32 else addr / 2 ^ 32 * 2 ^ 32 + v.
Proof.
  intros Ha [Hv1 Hv2]. unfold addr_word. destruct high.
  - rewrite (land_low addr 32) by done. rewrite wrap_small.
    + rewrite Z.lor_comm. apply lor_shiftl_add; [done|]. by apply Z.mod_pos_bound.
    + rewrite Z.shiftl_mul_pow2 by done. unfold fits. lia.
  - rewrite (land_high_half 32 addr) by done. by apply lor_shiftl_add.
Qed.

Lemma addr_word_fits high v addr : fits 64 addr -> fits 32 v -> fits 64 (addr_word high v addr).
Proof.
  intros Ha Hv. rewrite addr_word_eq by done. unfold fits in *.
  pose proof (Z.mod_pos_bound addr (2 ^ 32) ltac:(lia)).
  pose proof (Z.div_lt_upper_bound addr (2 ^ 32) (2 ^ 32) ltac:(lia) ltac:(lia)).
  pose proof (Z.div_pos addr (2 ^ 32) ltac:(lia) ltac:(lia)).
  destruct high; lia.
Qed.

Lemma write_driver_features_eq sel v c :
  write_driver_features sel v c =
  if negb (Z.land (co_status c) STATUS_FEATURES_OK =? 0) then c
  else if sel =? 0 then set_features (addr_word false v (co_driver_features c)) c
  else if sel =? 1 then set_features (addr_word true v (co_driver_features c)) c
  else c.
Proof. done. Qed.

(** What the trait's types and the transports rely on: feature words are 64
    bits wide and do not change while the device runs. *)
Section device.
Hypothesis features_u64 : forall d : V, fits 64 (device_features d).
Hypothesis notify_keeps : forall (d : V) n, device_features (dev_notify d n) = device_features d.
Hypothesis status_keeps : forall (d : V) s, device_features (status_changed d s) = device_features d.

Lemma offered_fits c : fits 64 (offered c).
Proof. apply lor_fits; [done|apply features_u64|done]. Qed.

Lemma check_features_Ok c : fits 64 (co_driver_features c) -> check_features c = Ok tt <-> negotiated c.
Proof.
  intros Hf. unfold check_features, negotiated.
  rewrite <- (land_not_w_zero 64) by (done || apply offered_fits).
  assert (Hv : Z.land (co_driver_features c) VIRTIO_F_VERSION_1 = 0 <->
               Z.testbit (co_driver_features c) 32 = false).
  { unfold VIRTIO_F_VERSION_1. rewrite Z.shiftl_1_l. split.
    - intros H. apply (f_equal (fun z => Z.testbit z 32)) in H. cbv beta in H.
      by rewrite Z.land_spec, Z.pow2_bits_true, andb_true_r, Z.bits_0 in H.
    - intros H. apply Z.bits_inj'. intros i Hi. rewrite Z.land_spec, Z.bits_0.
      destruct (decide (i = 32)) as [->|]; [by rewrite H|].
      by rewrite Z.pow2_bits_false, andb_false_r by done. }
  destruct (Z.eqb_spec (Z.land (co_driver_features c) (not_w 64 (offered c))) 0); cbn [negb]; [|naive_solver].
  destruct (Z.eqb_spec (Z.land (co_driver_features c) VIRTIO_F_VERSION_1) 0) as [H|H].
  - apply Hv in H. rewrite H. naive_solver.
  - rewrite Hv in H. destruct (Z.testbit _ _); naive_solver.
Qed.

(** Every action keeps what the driver was offered. *)
Lemma act_offered a c : offered (act a c) = offered c.
Proof.
  unfold offered. f_equal.
  destruct a; simpl; unfold write_driver_features, write_status, set_queue_num, set_queue_ready, notify,
    set_queue_addr; repeat case_match; simpl; rewrite ?status_keeps, ?notify_keeps; done.
Qed.

Lemma queue_mut_wf c sel f q :
  Forall wf_vq (co_queues c) -> queue c sel = Some q -> wf_vq (f q) ->
  Forall wf_vq (co_queues (queue_mut c sel f)).
Proof.
  intros Hall Hq Hf. simpl. unfold update_at, queue, get in *. destruct (sel <? 0); [done|].
  apply Forall_lookup. intros i x. rewrite list_lookup_alter. case_decide as Hi.
  - rewrite Hq. intros [= <-]. done.
  - intros Hx. by eapply Forall_lookup_1 in Hall.
Qed.

Lemma queue_wf c sel q : Forall wf_vq (co_queues c) -> queue c sel = Some q -> wf_vq q.
Proof. unfold queue, get. destruct (sel <? 0); [done|]. intros H Hq. by eapply Forall_lookup_1 in H. Qed.

Lemma act_queues_wf a c :
  act_ok a -> Forall wf_vq (co_queues c) -> Forall wf_vq (co_queues (act a c)).
Proof.
  intros Ha Hwf. destruct a as [sel v|v|sel v|sel v|i|sel w h v]; simpl in *.
  - unfold write_driver_features. by repeat case_match.
  - unfold write_status. repeat case_match; simpl; try done. apply Forall_fmap.
    eapply Forall_impl; [|exact Hwf]. intros q (? & _). unfold wf_vq. simpl. split_and!; auto; done.
  - unfold set_queue_num. destruct (queue c sel) as [q|] eqn:Hq; [|done].
    destruct (q_ready q) eqn:Hr; [done|].
    destruct (negb _ && _) eqn:Hc; [done|]. apply (queue_mut_wf c sel _ q); try done.
    destruct (queue_wf _ _ _ Hwf Hq) as (? & ? & ? & ? & _). unfold wf_vq. simpl. rewrite Hr.
    split_and!; try done. destruct (Z.eqb_spec v 0); [by left|right].
    destruct (Z.ltb_spec (q_num_max q) v), (is_power_of_two v); simpl in Hc; try done; lia.
  - unfold set_queue_ready. destruct (queue c sel) as [q|] eqn:Hq; [|done].
    destruct (v =? 0); [done|]. destruct (negb _); [done|].
    destruct (_ || _) eqn:Hc; [done|]. apply (queue_mut_wf c sel _ q); try done.
    destruct (queue_wf _ _ _ Hwf Hq) as (? & ? & ? & ? & ? & _). unfold wf_vq. simpl.
    split_and!; try done. intros _. zbool; simpl in Hc; try done; auto.
  - unfold notify. by repeat case_match.
  - unfold set_queue_addr. destruct (queue c sel) as [q|] eqn:Hq; [|done].
    destruct (q_ready q) eqn:Hr; [done|]. apply (queue_mut_wf c sel _ q); try done.
    destruct (queue_wf _ _ _ Hwf Hq) as (? & ? & ? & ? & ? & _). unfold wf_vq. simpl. rewrite Hr.
    destruct w; split_and!; try done; by apply addr_word_fits.
Qed.

(** A status write other than reset: accepted with its device call, or ignored. *)
Lemma write_status_cases c r :
  wf_core c -> fits 32 r -> r <> 0 ->
  (level_ok (co_status c) r = true /\ (negotiates (co_status c) r = true -> negotiated c) /\
   (write_status r c = c /\ co_status c = r \/
    write_status r c = set_device (status_changed (co_device c) r) (set_status r c))) \/
  (~ (level_ok (co_status c) r = true /\ (negotiates (co_status c) r = true -> negotiated c)) /\
   write_status r c = c).
Proof.
  intros [Hs Hf _ _] Hr Hne. unfold write_status. destruct (Z.eqb_spec r 0); [done|].
  pose proof (check_status_Ok c r Hs Hr) as Hck. rewrite check_features_Ok in Hck by done.
  destruct (check_status c r) as [[]|e].
  - left. destruct (proj1 Hck eq_refl) as [? ?]. split_and!; [done..|].
    destruct (Z.eqb_spec r (co_status c)); [by left|by right].
  - right. split; [|done]. by intros H%Hck.
Qed.

Lemma level_ok_next s r l : level s = Some l -> level_ok s r = true ->
  level r = Some l \/ level r = Some (l + 1).
Proof.
  unfold level_ok. intros ->. destruct (level r) as [l'|]; [|done].
  intros H. destruct (Z.eqb_spec l l') as [->|]; [by left|]. right. f_equal. lia.
Qed.

Lemma negotiated_same c c' :
  co_driver_features c' = co_driver_features c -> offered c' = offered c ->
  negotiated c -> negotiated c'.
Proof. unfold negotiated. by intros -> ->. Qed.

(** Outside status writes the status stays. *)
Lemma act_status a c :
  (forall r, a <> AStatus r) -> co_status (act a c) = co_status c.
Proof.
  intros Ha. destruct a as [sel v|v|sel v|sel v|i|sel w h v]; simpl; [|by destruct (Ha v)|..];
    unfold write_driver_features, set_queue_num, set_queue_ready, notify, set_queue_addr;
    by repeat case_match.
Qed.

(** Once [FEATURES_OK] is set only a reset changes the features. *)
Lemma act_features a c :
  ~ is_reset a -> Z.land (co_status c) STATUS_FEATURES_OK <> 0 ->
  co_driver_features (act a c) = co_driver_features c.
Proof.
  intros Ha Hf. destruct a as [sel v|v|sel v|sel v|i|sel w h v]; simpl.
  - unfold write_driver_features. by destruct (Z.eqb_spec (Z.land (co_status c) STATUS_FEATURES_OK) 0).
  - unfold write_status. destruct (Z.eqb_spec v 0) as [->|]; [by destruct Ha|]. by repeat case_match.
  - unfold set_queue_num. by repeat case_match.
  - unfold set_queue_ready. by repeat case_match.
  - unfold notify. by repeat case_match.
  - unfold set_queue_addr. by repeat case_match.
Qed.

(** Without a reset the level never goes down. *)
Lemma act_level a c l :
  wf_core c -> act_ok a -> ~ is_reset a -> level (co_status c) = Some l ->
  exists l', level (co_status (act a c)) = Some l' /\ l <= l' <= l + 1.
Proof.
  intros Hwf Ha Hr Hl.
  destruct (status_act a) as [[r ->]|Hn].
  - simpl in *. destruct (write_status_cases c r Hwf Ha) as [(Hok & _ & Hw)|[_ ->]].
    + intros ->. by apply Hr.
    + apply (level_ok_next _ _ l) in Hok; [|done].
      assert (co_status (write_status r c) = r) as -> by (by destruct Hw as [[-> ?]| ->]).
      destruct Hok; eauto with lia.
    + exists l. auto with lia.
  - rewrite act_status by done. exists l. auto with lia.
Qed.

Lemma act_features_ok a c :
  wf_core c -> act_ok a -> ~ is_reset a ->
  Z.land (co_status c) STATUS_FEATURES_OK <> 0 ->
  Z.land (co_status (act a c)) STATUS_FEATURES_OK <> 0.
Proof.
  intros Hwf Ha Hr Hok. destruct (wf_status c Hwf) as [l Hl].
  destruct (act_level a c l Hwf Ha Hr Hl) as (l1 & Hl1 & Hle).
  pose proof (features_ok_level _ _ Hl) as F. pose proof (features_ok_level _ _ Hl1) as F1.
  apply Z.eqb_neq in Hok. rewrite Hok in F. symmetry in F. apply Z.eqb_neq. rewrite F1. lia.
Qed.

Lemma act_wf a c : act_ok a -> wf_core c -> wf_core (act a c).
Proof.
  intros Ha Hwf. destruct (Hwf) as [[l Hl] Hf Hq Hn].
  assert (Hfit : fits 64 (co_driver_features (act a c))).
  { destruct a; cbn [act act_ok] in *; [rewrite write_driver_features_eq|unfold write_status
      |unfold set_queue_num|unfold set_queue_ready|unfold notify|unfold set_queue_addr];
      repeat case_match; try done; by apply addr_word_fits. }
  destruct (decide (a = AStatus 0)) as [->|Hnr].
  { split; simpl in *; try done; [by apply (act_queues_wf (AStatus 0))]. }
  destruct (act_level a c l Hwf Ha Hnr Hl) as (l' & Hl' & Hle).
  split; [by exists l'|done|by apply act_queues_wf|].
  intros Hok. destruct (Z.eqb_spec (Z.land (co_status c) STATUS_FEATURES_OK) 0) as [H0|Hset].
  - destruct (status_act a) as [[r ->]|Hns].
    + simpl in *. assert (r <> 0) by (by intros ->).
      destruct (write_status_cases c r Hwf Ha) as [(Hlo & Hneg & Hw)|[_ Hw]]; [done| |by rewrite Hw in Hok].
      destruct Hw as [[Hw Heq]|Hw]; rewrite Hw in *; [by rewrite H0 in Hok|]. simpl in *.
      apply (negotiated_same c); [done|unfold offered; simpl; by rewrite status_keeps|].
      apply Hneg. unfold negotiates. rewrite Hl, Hl'.
      pose proof (features_ok_level _ _ Hl) as F1. pose proof (features_ok_level _ _ Hl') as F2.
      rewrite H0 in F1. apply Z.eqb_neq in Hok. rewrite Hok in F2. simpl in F1.
      symmetry in F1, F2. lia.
    + rewrite act_status in Hok by done. by rewrite H0 in Hok.
  - apply (negotiated_same c); [by apply act_features|apply act_offered|by apply Hn].
Qed.

Lemma run_wf acts c : Forall act_ok acts -> wf_core c -> wf_core (run acts c).
Proof.
  intros Hall. revert c. induction Hall as [|a acts Ha _ IH]; intros c Hwf; [done|].
  simpl. apply IH. by apply act_wf.
Qed.

Lemma core_new_wf name (d : V) irq :
  (forall i, fits 16 (queue_num_max d i)) -> wf_core (new name d irq).
Proof.
  intros Hmax. split; simpl; try done.
  apply Forall_fmap. apply list.Forall_forall. intros i _. unfold wf_vq. simpl.
  split_and!; auto; done.
Qed.

(** ** Properties *)

(** C2: From creation on, whatever the driver writes: the status is always one
    of the legal prefixes of the initialisation sequence, accepted features are
    a subset of the offered ones including [VERSION_1], every queue size is 0 or
    a power of two within the device's maximum, and a ready queue has a size and
    three non-zero ring addresses. *)
Theorem driver_cannot_corrupt_core name (d : V) irq acts :
  (forall i, fits 16 (queue_num_max d i)) -> Forall act_ok acts ->
  wf_core (run acts (new name d irq)).
Proof. intros Hmax Hacts. apply run_wf; [done|]. by apply core_new_wf. Qed.

(** C10: A non-zero status write is accepted exactly when it stays at the current
    initialisation level or advances it by one, and, on the step that sets
    [FEATURES_OK], the features are negotiated; otherwise nothing changes and
    the device is not told. *)
Theorem write_status_spec c r :
  wf_core c -> fits 32 r -> r <> 0 ->
  (level_ok (co_status c) r = true /\ (negotiates (co_status c) r = true -> negotiated c) /\
   co_status (write_status r c) = r) \/
  (~ (level_ok (co_status c) r = true /\ (negotiates (co_status c) r = true -> negotiated c)) /\
   write_status r c = c).
Proof.
  intros Hwf Hr Hne.
  destruct (write_status_cases c r Hwf Hr Hne) as [(? & ? & [[-> ?]| ->])|[? ?]]; auto.
Qed.

(** After [FEATURES_OK], no sequence of driver actions without a reset
    changes the negotiated features, clears [FEATURES_OK] or takes the status
    back to an earlier level. *)
Theorem negotiation_frozen c acts l :
  wf_core c -> Forall (fun a => act_ok a /\ ~ is_reset a) acts ->
  Z.land (co_status c) STATUS_FEATURES_OK <> 0 -> level (co_status c) = Some l ->
  co_driver_features (run acts c) = co_driver_features c /\
  Z.land (co_status (run acts c)) STATUS_FEATURES_OK <> 0 /\
  exists l', level (co_status (run acts c)) = Some l' /\ l <= l'.
Proof.
  intros Hwf Hall. revert c l Hwf.
  induction Hall as [|a acts [Ha Hr] _ IH]; intros c l Hwf Hok Hl.
  { simpl. split_and!; [done..|]. exists l. auto with lia. }
  destruct (act_level a c l Hwf Ha Hr Hl) as (l1 & Hl1 & Hle). simpl.
  pose proof (act_features_ok a c Hwf Ha Hr Hok) as Hok1.
  destruct (IH (act a c) l1 (act_wf a c Ha Hwf) Hok1 Hl1) as (-> & ? & l' & ? & ?).
  rewrite act_features by done. split_and!; [done..|]. exists l'. split; [done|lia].
Qed.

Lemma queue_update c i j f : queue (queue_mut c i f) j = if decide (i = j) then f <$> queue c j else queue c j.
Proof. apply get_update_at. Qed.

Lemma act_ready a c i q :
  ~ is_reset a -> queue c i = Some q -> q_ready q = true ->
  queue (act a c) i = Some q.
Proof.
  intros Ha Hq Hr. destruct a as [sel v|v|sel v|sel v|k|sel w h v]; simpl.
  - unfold write_driver_features. by repeat case_match.
  - unfold write_status. destruct (Z.eqb_spec v 0) as [->|]; [by destruct Ha|]. by repeat case_match.
  - unfold set_queue_num. destruct (queue c sel) as [q'|] eqn:Hs; [|done].
    destruct (q_ready q') eqn:Hr'; [done|]. destruct (_ && _); [done|].
    rewrite queue_update. case_decide; [congruence|done].
  - unfold set_queue_ready. destruct (queue c sel) as [q'|] eqn:Hs; [|done].
    repeat (case_match; [done|]). rewrite queue_update. case_decide as Hi; [|done]. subst.
    rewrite Hq. simpl. f_equal. destruct q. simpl in *. unfold with_ready. simpl. by subst.
  - unfold notify. by repeat case_match.
  - unfold set_queue_addr. destruct (queue c sel) as [q'|] eqn:Hs; [|done].
    destruct (q_ready q') eqn:Hr'; [done|]. rewrite queue_update. case_decide; [congruence|done].
Qed.

(** A ready queue is frozen: its size, addresses and ready flag survive any
    sequence of driver actions without a reset. *)
Theorem ready_queue_frozen c acts i q :
  Forall (fun a => ~ is_reset a) acts -> queue c i = Some q -> q_ready q = true ->
  queue (run acts c) i = Some q.
Proof.
  intros Hall. revert c. induction Hall as [|a acts Ha _ IH]; intros c Hq Hr; [done|].
  simpl. apply IH; [|done]. by apply act_ready.
Qed.

(** A kick reaches the device only for a ready queue, and the message it
    carries binds to a well-formed split queue of the size the driver chose:
    unless a ring is misaligned the queue is live. *)
Theorem notify_binds_live_queue c i indirect event :
  wf_core c ->
  notify i c = c \/
  exists q, queue c i = Some q /\ q_ready q = true /\
    let n := notify_of c i q in
    notify i c = set_device (dev_notify (co_device c) n) c /\
    n_size n = q_num q /\ is_power_of_two (n_size n) = true /\ n_size n <= q_num_max q /\
    n_features n = co_driver_features c /\
    let sq := VirtioQueue.new (n_size n) (n_desc n) (n_avail n) (n_used n) indirect event in
    wf_queue sq /\
    (q_broken sq = false <-> n_desc n mod 16 = 0 /\ n_avail n mod 2 = 0 /\ n_used n mod 4 = 0).
Proof.
  intros [_ _ Hq _]. unfold notify. destruct (queue c i) as [q|] eqn:Hi; [|by left].
  destruct (q_ready q) eqn:Hr; [|by left]. right. exists q. split; [done|]. split; [done|].
  destruct (queue_wf _ _ _ Hq Hi) as (Hm & Hd & Hdr & Hde & Hn & Hrd).
  destruct (Hrd Hr) as (Hnz & _). destruct Hn as [?|[Hp Hle]]; [done|].
  assert (Hfit : fits 16 (q_num q)).
  { unfold is_power_of_two in Hp. unfold fits in *. lia. }
  simpl. rewrite wrap_small by done. split_and!; try done.
  - by apply VirtioQueue.queue_new_wf.
  - unfold VirtioQueue.new. rewrite Hp. destruct (Z.eqb_spec (q_num q) 0); [done|]. cbn [orb negb].
    destruct (Z.eqb_spec (q_desc q mod 16) 0), (Z.eqb_spec (q_driver q mod 2) 0),
      (Z.eqb_spec (q_device q mod 4) 0); simpl; naive_solver.
Qed.

(** A ring address written as two 32-bit halves, in either order, is the
    64-bit address, and no other queue changes. *)
Theorem queue_addr_roundtrip c sel which lo hi (high_first : bool) q :
  wf_core c -> fits 32 lo -> fits 32 hi -> queue c sel = Some q -> q_ready q = false ->
  let c' := set_queue_addr sel which (negb high_first) (if high_first then lo else hi)
              (set_queue_addr sel which high_first (if high_first then hi else lo) c) in
  (exists q', queue c' sel = Some q' /\
    match which with Desc => q_desc q' | Driver => q_driver q' | Device => q_device q' end
      = hi * 2 ^ 32 + lo) /\
  forall j, j <> sel -> queue c' j = queue c j.
Proof.
  intros [_ _ Hqs _] Hlo Hhi Hq Hr c'.
  destruct (queue_wf _ _ _ Hqs Hq) as (_ & Hd & Hdr & Hde & _).
  assert (Hjoin : forall addr, fits 64 addr ->
    addr_word (negb high_first) (if high_first then lo else hi)
      (addr_word high_first (if high_first then hi else lo) addr) = hi * 2 ^ 32 + lo).
  { intros addr Ha. destruct high_first; simpl negb;
      rewrite !addr_word_eq by (done || by apply addr_word_fits).
    all: unfold fits in *; change (2 ^ 32) with 4294967296 in *; Z.div_mod_to_equations; lia. }
  unfold c', set_queue_addr. rewrite Hq, Hr. rewrite queue_update, decide_True, Hq by done. simpl. rewrite Hr.
  split.
  - eexists. rewrite !queue_update, !decide_True, Hq by done. split; [reflexivity|].
    destruct which; simpl; by apply Hjoin.
  - intros j Hj. by rewrite !queue_update, !decide_False by done.
Qed.

Lemma act_num_max a c : q_num_max <$> co_queues (act a c) = q_num_max <$> co_queues c.
Proof.
  assert (Hm : forall sel f, (forall q, q_num_max (f q) = q_num_max q) ->
    q_num_max <$> update_at (co_queues c) sel f = q_num_max <$> co_queues c).
  { intros sel f Hf. unfold update_at. destruct (sel <? 0); [done|].
    apply list_eq. intros j. rewrite !list_lookup_fmap, list_lookup_alter.
    case_decide as Hj; [|done]. subst. destruct (co_queues c !! _); simpl; [|done]. by rewrite Hf. }
  destruct a; simpl; [unfold write_driver_features|unfold write_status|unfold set_queue_num
    |unfold set_queue_ready|unfold notify|unfold set_queue_addr]; repeat case_match; simpl; auto.
  rewrite <- list_fmap_compose. done.
Qed.

(** Writing 0 to the status undoes everything the driver did: whatever came
    before, features, status and every queue are as they were at creation. *)
Theorem reset_restores name (d : V) irq acts :
  let c := write_status 0 (run acts (new name d irq)) in
  co_driver_features c = 0 /\ co_status c = 0 /\ co_queues c = co_queues (new name d irq).
Proof.
  intros c. split_and!; [done..|].
  assert (H : q_num_max <$> co_queues (run acts (new name d irq)) = q_num_max <$> co_queues (new name d irq)).
  { generalize (new name d irq). induction acts as [|a acts IH]; intros c0; [done|].
    simpl. by rewrite IH, act_num_max. }
  unfold c. simpl. unfold reset_queue.
  change (fun q => fresh_queue (q_num_max q)) with (fresh_queue ∘ q_num_max).
  rewrite list_fmap_compose, H. simpl. rewrite <- !list_fmap_compose. done.
Qed.
End device.
End facts.

(** *** A device with one queue, brought up by its driver *)

Definition demo_core : VirtioCore FixedDevice := new "demo" {| fd_id := 4; fd_queues := 1 |} VirtioIrq.new.

(** Acknowledge, negotiate [VERSION_1], configure queue 0 and start. *)
Definition bring_up : list Act :=
  [AStatus 1; AStatus 3; ADriverFeatures 1 1; AStatus 11; AQueueNum 0 64;
   AQueueAddr 0 Desc false 0x1000; AQueueAddr 0 Driver false 0x2000; AQueueAddr 0 Device false 0x3000;
   AQueueReady 0 1; AStatus 15].

Lemma demo_features : forall d : FixedDevice, fits 64 (device_features d).
Proof. done. Qed.
Lemma demo_notify : forall (d : FixedDevice) n, device_features (dev_notify d n) = device_features d.
Proof. done. Qed.
Lemma demo_status : forall (d : FixedDevice) s, device_features (status_changed d s) = device_features d.
Proof. done. Qed.

Lemma demo_core_wf : wf_core (run bring_up demo_core).
Proof.
  apply run_wf; [exact demo_features|exact demo_notify|exact demo_status| |by apply core_new_wf].
  repeat constructor; done.
Qed.

Lemma driver_cannot_corrupt_core_witness :
  wf_core (run bring_up demo_core) /\ co_status (run bring_up demo_core) = 15.
Proof.
  split; [|reflexivity].
  apply (driver_cannot_corrupt_core demo_features demo_notify demo_status); [done|].
  repeat constructor; done.
Defined.

Lemma write_status_spec_witness :
  write_status 11 (run [AStatus 1; AStatus 3] demo_core) = run [AStatus 1; AStatus 3] demo_core.
Proof.
  assert (Hwf : wf_core (run [AStatus 1; AStatus 3] demo_core)).
  { apply run_wf; [exact demo_features|exact demo_notify|exact demo_status| |by apply core_new_wf].
    repeat constructor; done. }
  destruct (write_status_spec demo_features _ 11 Hwf ltac:(done) ltac:(done))
    as [(_ & Hneg & _)|[_ H]]; [|exact H].
  destruct (Hneg eq_refl) as [_ Hv]. discriminate Hv.
Defined.

Lemma negotiation_frozen_witness :
  co_driver_features (run [ADriverFeatures 0 7; AStatus 1; AQueueNum 0 8] (run bring_up demo_core)) = 2 ^ 32.
Proof.
  destruct (negotiation_frozen demo_features demo_notify demo_status (run bring_up demo_core)
    [ADriverFeatures 0 7; AStatus 1; AQueueNum 0 8] 4 demo_core_wf) as [H _].
  - repeat constructor; try done; intros H; discriminate H.
  - by vm_compute.
  - reflexivity.
  - exact H.
Defined.

Lemma ready_queue_frozen_witness :
  queue (run [AQueueNum 0 8; AQueueReady 0 0; AQueueAddr 0 Desc false 0] (run bring_up demo_core)) 0 =
  Some {| q_num_max := 256; q_num := 64; q_ready := true; q_desc := 0x1000; q_driver := 0x2000;
          q_device := 0x3000 |}.
Proof.
  apply (ready_queue_frozen (run bring_up demo_core)); [|reflexivity|reflexivity].
  repeat constructor; intros H; discriminate H.
Defined.

(** A device that only remembers its kicks. *)
#[export] Instance KickLog_VirtioDevice : VirtioDevice (list QueueNotify) := {|
  device_id _ := 4; vendor_id _ := 0x554d4551; device_features _ := 0; num_queues _ := 1;
  queue_num_max _ _ := 256; read_config d _ _ := (0, d); write_config d _ _ _ := d;
  dev_notify d n := n :: d; status_changed d _ := d; config_generation _ := 0;
|}.

Definition kick_core : VirtioCore (list QueueNotify) := run bring_up (new "kicks" [] VirtioIrq.new).

Lemma notify_binds_live_queue_witness :
  exists q n, queue kick_core 0 = Some q /\ co_device (notify 0 kick_core) = [n] /\ n_size n = 64 /\
    wf_queue (VirtioQueue.new (n_size n) (n_desc n) (n_avail n) (n_used n) false true).
Proof.
  assert (Hwf : wf_core kick_core).
  { apply run_wf; [done|done|done| |by apply core_new_wf]. repeat constructor; done. }
  destruct (notify_binds_live_queue kick_core 0 false true Hwf)
    as [H|(q & Hq & _ & Hn & _ & _ & _ & _ & Hwq & _)].
  - apply (f_equal co_device) in H. vm_compute in H. discriminate H.
  - assert (Hsz : q_num q = 64) by (vm_compute in Hq; injection Hq as <-; reflexivity).
    exists q, (notify_of kick_core 0 q). split_and!; [exact Hq| | |exact Hwq].
    + rewrite Hn. reflexivity.
    + simpl. rewrite Hsz. reflexivity.
Defined.

Lemma queue_addr_roundtrip_witness :
  let c := set_queue_addr 0 Device true 0x12 (set_queue_addr 0 Device false 0x34 demo_core) in
  exists q, queue c 0 = Some q /\ q_device q = 0x12 * 2 ^ 32 + 0x34.
Proof.
  destruct (queue_addr_roundtrip demo_core 0 Device 0x34 0x12 false (fresh_queue 256)) as [H _];
    [by apply core_new_wf|done|done|reflexivity|reflexivity|exact H].
Defined.
