(* ===== verification/VirtioMmio.v ===== *)
(** * The virtio-mmio transport

    Model of [ternvale-devices/src/virtio/mmio.rs] and [notify_hub.rs]: the
    register file over [VirtioCore], its select registers, the lock-free kick
    path and its registration on the MMIO bus.

    [NotifyHub] shares the device with the core (an [Arc] clone), so a kick acts
    on [co_device]; its atomics are plain fields here, one access at a time.
    Register traces and warnings are not modelled. *)

From stdpp Require Import strings pretty.
From S2P Require Import Prelude Windows Platform MmioBus VirtioQueue VirtioIrq VirtioCore.

Definition MAGIC : Z := 0x74726976.
Definition VERSION : Z := 2.
Definition MAGIC_VALUE : Z := 0x000.
Definition VERSION_REG : Z := 0x004.
Definition DEVICE_ID : Z := 0x008.
Definition VENDOR_ID : Z := 0x00c.
Definition DEVICE_FEATURES : Z := 0x010.
Definition DEVICE_FEATURES_SEL : Z := 0x014.
Definition DRIVER_FEATURES : Z := 0x020.
Definition DRIVER_FEATURES_SEL : Z := 0x024.
Definition QUEUE_SEL : Z := 0x030.
Definition QUEUE_NUM_MAX : Z := 0x034.
Definition QUEUE_NUM : Z := 0x038.
Definition QUEUE_READY : Z := 0x044.
Definition QUEUE_NOTIFY : Z := 0x050.
Definition INTERRUPT_STATUS : Z := 0x060.
Definition INTERRUPT_ACK : Z := 0x064.
Definition STATUS : Z := 0x070.
Definition QUEUE_DESC_LOW : Z := 0x080.
Definition QUEUE_DESC_HIGH : Z := 0x084.
Definition QUEUE_DRIVER_LOW : Z := 0x090.
Definition QUEUE_DRIVER_HIGH : Z := 0x094.
Definition QUEUE_DEVICE_LOW : Z := 0x0a0.
Definition QUEUE_DEVICE_HIGH : Z := 0x0a4.
Definition SHM_SEL : Z := 0x0ac.
Definition SHM_LEN_LOW : Z := 0x0b0.
Definition SHM_LEN_HIGH : Z := 0x0b4.
Definition SHM_BASE_LOW : Z := 0x0b8.
Definition SHM_BASE_HIGH : Z := 0x0bc.
Definition NO_SHM_REGION : Z := 2 ^ 32 - 1.
Definition CONFIG_GENERATION : Z := 0x0fc.
Definition CONFIG : Z := 0x100.

Definition slot_base (slot : Z) : option Z :=
  if VIRTIO_MMIO_SLOTS <=? slot then None
  else Some (VIRTIO_MMIO_BASE + slot * VIRTIO_MMIO_SLOT_SIZE).

Inductive VirtioMmioError : Type :=
| ESlot (slot slots : Z)
| EBus (slot base : Z) (source : MmioError).

(** ** The kick hub ([notify_hub.rs]) *)

Record Snap := {
  s_ready : bool;
  s_size : Z;
  s_desc : Z;
  s_avail : Z;
  s_used : Z;
  s_features : Z;
}.

Definition empty_snap : Snap :=
  {| s_ready := false; s_size := 0; s_desc := 0; s_avail := 0; s_used := 0; s_features := 0 |}.

Definition hub_new (queues : Z) : list Snap := replicate (Z.to_nat queues) empty_snap.

Definition publish (hub : list Snap) (index : Z) (queue : Queue) (features : Z) : list Snap :=
  update_at hub index (fun _ =>
    {| s_ready := q_ready queue; s_size := wrap 16 (q_num queue); s_desc := q_desc queue;
       s_avail := q_driver queue; s_used := q_device queue; s_features := features |}).

Definition unready (s : Snap) : Snap :=
  {| s_ready := false; s_size := s_size s; s_desc := s_desc s; s_avail := s_avail s;
     s_used := s_used s; s_features := s_features s |}.
Definition clear (hub : list Snap) : list Snap := unready <$> hub.

Definition snap_notify (index : Z) (s : Snap) : QueueNotify :=
  {| n_index := wrap 16 index; n_size := s_size s; n_desc := s_desc s; n_avail := s_avail s;
     n_used := s_used s; n_features := s_features s |}.

Section transport.
Context {V : Type} `{!VirtioDevice V}.

(** [Some]: the device was notified ([true]). *)
Definition kick_index (hub : list Snap) (d : V) (index : Z) : option V :=
  match get hub index with
  | None => None
  | Some s => if s_ready s then Some (dev_notify d (snap_notify index s)) else None
  end.

Definition try_kick (hub : list Snap) (d : V) (offset val : Z) : option V :=
  if negb (offset =? QUEUE_NOTIFY) then None else kick_index hub d (wrap 32 val).

(** ** The transport *)

Record VirtioMmio := {
  m_core : VirtioCore V;
  m_hub : list Snap;
  m_device_features_sel : Z;
  m_driver_features_sel : Z;
  m_queue_sel : Z;
}.

Definition set_core (c : VirtioCore V) (m : VirtioMmio) : VirtioMmio :=
  {| m_core := c; m_hub := m_hub m; m_device_features_sel := m_device_features_sel m;
     m_driver_features_sel := m_driver_features_sel m; m_queue_sel := m_queue_sel m |}.
Definition set_hub (h : list Snap) (m : VirtioMmio) : VirtioMmio :=
  {| m_core := m_core m; m_hub := h; m_device_features_sel := m_device_features_sel m;
     m_driver_features_sel := m_driver_features_sel m; m_queue_sel := m_queue_sel m |}.
Definition set_sels (device_sel driver_sel queue_sel : Z) (m : VirtioMmio) : VirtioMmio :=
  {| m_core := m_core m; m_hub := m_hub m; m_device_features_sel := device_sel;
     m_driver_features_sel := driver_sel; m_queue_sel := queue_sel |}.

Definition with_irq (slot : Z) (device : V) (interrupt : Irq) : VirtioMmio :=
  let core := VirtioCore.new (String.append "virtio-mmio-" (pretty slot)) device interrupt in
  {| m_core := core; m_hub := hub_new (wrap 16 (Z.of_nat (length (co_queues core))));
     m_device_features_sel := 0; m_driver_features_sel := 0; m_queue_sel := 0 |}.

Definition mmio_new (slot : Z) (device : V) : VirtioMmio := with_irq slot device VirtioIrq.new.

Definition raise_interrupt (m : VirtioMmio) (bits : Z) : VirtioMmio :=
  set_core (set_interrupt (raise bits (co_interrupt (m_core m))) (m_core m)) m.

Definition read_reg (m : VirtioMmio) (offset : Z) : Z :=
  let core := m_core m in
  if offset =? MAGIC_VALUE then MAGIC
  else if offset =? VERSION_REG then VERSION
  else if offset =? DEVICE_ID then device_id (co_device core)
  else if offset =? VENDOR_ID then vendor_id (co_device core)
  else if offset =? DEVICE_FEATURES then feature_word (offered core) (m_device_features_sel m)
  else if offset =? QUEUE_NUM_MAX then
    match queue core (m_queue_sel m) with Some q => q_num_max q | None => 0 end
  else if offset =? QUEUE_READY then
    match queue core (m_queue_sel m) with Some q => Z.b2z (q_ready q) | None => 0 end
  else if offset =? INTERRUPT_STATUS then VirtioIrq.status (co_interrupt core)
  else if offset =? STATUS then co_status core
  else if offset =? CONFIG_GENERATION then config_generation (co_device core)
  else if (offset =? SHM_LEN_LOW) || (offset =? SHM_LEN_HIGH) || (offset =? SHM_BASE_LOW)
          || (offset =? SHM_BASE_HIGH) then NO_SHM_REGION
  else 0.

Definition read (m : VirtioMmio) (offset size : Z) : Z * VirtioMmio :=
  if CONFIG <=? offset then
    let '(value, d) := read_config (co_device (m_core m)) (offset - CONFIG) size in
    (mask value size, set_core (set_device d (m_core m)) m)
  else if negb (size =? 4) then (mask 0 size, m)
  else (mask (read_reg m offset) size, m).

(** A kick: the hub first, the locked core when it declines. *)
Definition kick (m : VirtioMmio) (offset value : Z) : VirtioMmio :=
  match try_kick (m_hub m) (co_device (m_core m)) offset value with
  | Some d => set_core (set_device d (m_core m)) m
  | None => set_core (notify value (m_core m)) m
  end.

Definition write_reg (m : VirtioMmio) (offset value : Z) : VirtioMmio :=
  let sel := m_queue_sel m in
  if offset =? DEVICE_FEATURES_SEL then
    set_sels value (m_driver_features_sel m) sel m
  else if offset =? DRIVER_FEATURES_SEL then
    set_sels (m_device_features_sel m) value sel m
  else if offset =? DRIVER_FEATURES then
    set_core (write_driver_features (m_driver_features_sel m) value (m_core m)) m
  else if offset =? QUEUE_SEL then
    set_sels (m_device_features_sel m) (m_driver_features_sel m) value m
  else if offset =? QUEUE_NUM then set_core (set_queue_num sel value (m_core m)) m
  else if offset =? QUEUE_READY then
    let core := set_queue_ready sel value (m_core m) in
    let m := set_core core m in
    match queue core sel with
    | Some q => set_hub (publish (m_hub m) sel q (co_driver_features core)) m
    | None => m
    end
  else if offset =? QUEUE_NOTIFY then kick m offset value
  else if offset =? INTERRUPT_ACK then
    set_core (set_interrupt (ack value (co_interrupt (m_core m))) (m_core m)) m
  else if offset =? STATUS then
    let m := if value =? 0 then set_hub (clear (m_hub m)) (set_sels 0 0 0 m) else m in
    set_core (write_status value (m_core m)) m
  else if offset =? QUEUE_DESC_LOW then set_core (set_queue_addr sel Desc false value (m_core m)) m
  else if offset =? QUEUE_DESC_HIGH then set_core (set_queue_addr sel Desc true value (m_core m)) m
  else if offset =? QUEUE_DRIVER_LOW then set_core (set_queue_addr sel Driver false value (m_core m)) m
  else if offset =? QUEUE_DRIVER_HIGH then set_core (set_queue_addr sel Driver true value (m_core m)) m
  else if offset =? QUEUE_DEVICE_LOW then set_core (set_queue_addr sel Device false value (m_core m)) m
  else if offset =? QUEUE_DEVICE_HIGH then set_core (set_queue_addr sel Device true value (m_core m)) m
  else m.

Definition write (m : VirtioMmio) (offset size value : Z) : VirtioMmio :=
  if CONFIG <=? offset then
    set_core (set_device (write_config (co_device (m_core m)) (offset - CONFIG) size value) (m_core m)) m
  else if negb (size =? 4) then m
  else write_reg m offset (wrap 32 value).

(** [impl MmioDevice for VirtioMmio]; the kick port is the hub. *)
#[export] Instance VirtioMmio_MmioDevice : MmioDevice VirtioMmio := {|
  dev_name m := co_name (m_core m);
  dev_read := read;
  dev_write := write;
  dev_try_kick m offset val :=
    d ← try_kick (m_hub m) (co_device (m_core m)) offset val;
    Some (set_core (set_device d (m_core m)) m);
|}.

Definition mmio_register (bus : MmioBus VirtioMmio) (slot : Z) (device : V)
  : result VirtioMmioError (MmioBus VirtioMmio) :=
  match slot_base slot with
  | None => Err (ESlot slot VIRTIO_MMIO_SLOTS)
  | Some base =>
      match register bus base VIRTIO_MMIO_SLOT_SIZE (mmio_new slot device) with
      | Ok bus => Ok bus
      | Err source => Err (EBus slot base source)
      end
  end.

End transport.
Arguments VirtioMmio : clear implicits.

(** ** Invariant *)

Section facts.
Context {V : Type} `{!VirtioDevice V}.
Implicit Types (m : VirtioMmio V) (c : VirtioCore V).

(** The hub's snapshot of a queue: ready when the queue is, with its size and
    addresses. *)
Definition snap_of (q : Queue) (s : Snap) : Prop :=
  s_ready s = q_ready q /\
  (q_ready q = true -> s_size s = wrap 16 (q_num q) /\ s_desc s = q_desc q /\
     s_avail s = q_driver q /\ s_used s = q_device q).

Definition coherent c (hub : list Snap) : Prop :=
  length hub = length (co_queues c) /\
  forall i q s, queue c i = Some q -> get hub i = Some s -> snap_of q s.

Record mmio_ok m : Prop := {
  ok_core : wf_core (m_core m);
  ok_hub : coherent (m_core m) (m_hub m);
}.

(** Published features are the negotiated ones. *)
Definition fresh m : Prop := forall i s,
  get (m_hub m) i = Some s -> s_ready s = true ->
  s_features s = co_driver_features (m_core m) /\
  Z.land (co_status (m_core m)) STATUS_FEATURES_OK <> 0.

Lemma wf_core_ext c c' :
  co_status c' = co_status c -> co_driver_features c' = co_driver_features c ->
  co_queues c' = co_queues c -> offered c' = offered c -> wf_core c -> wf_core c'.
Proof.
  intros Hs Hf Hq Ho [H1 H2 H3 H4]. split; rewrite ?Hs, ?Hf, ?Hq; try done.
  intros H. by apply (negotiated_same c); [..|apply H4; congruence].
Qed.

Lemma coherent_ext c c' hub : co_queues c' = co_queues c -> coherent c hub -> coherent c' hub.
Proof. unfold coherent, queue. by intros ->. Qed.

(** Actions other than reset and ready keep the ready flags, and ready queues. *)
Lemma act_ready_flag a c i q' :
  ~ is_reset a -> (forall sel v, a <> AQueueReady sel v) -> queue (act a c) i = Some q' ->
  exists q, queue c i = Some q /\ q_ready q' = q_ready q /\ (q_ready q = true -> q' = q).
Proof.
  intros Hr Hn Hq'. destruct (queue c i) as [q|] eqn:Hq.
  - exists q. split; [done|]. destruct (q_ready q) eqn:Hrd.
    { rewrite (act_ready a c i q Hr Hq Hrd) in Hq'. by simplify_eq. }
    split; [|done]. destruct a as [sel v|v|sel v|sel v|k|sel w h v]; simpl in Hq'.
    + unfold write_driver_features in Hq'. repeat case_match; unfold queue in *; simpl in *; congruence.
    + unfold write_status in Hq'. destruct (Z.eqb_spec v 0) as [->|]; [by destruct Hr|].
      repeat case_match; unfold queue in *; simpl in *; congruence.
    + unfold set_queue_num in Hq'. repeat case_match; try congruence.
      rewrite queue_update in Hq'. case_decide; [|congruence]. rewrite Hq in Hq'. by simplify_eq/=.
    + by destruct (Hn sel v).
    + unfold notify in Hq'. repeat case_match; unfold queue in *; simpl in *; congruence.
    + unfold set_queue_addr in Hq'. repeat case_match; try congruence.
      rewrite queue_update in Hq'. case_decide; [|congruence]. rewrite Hq in Hq'. by simplify_eq/=.
  - exfalso. pose proof (act_num_max a c) as Hmax. apply (f_equal length) in Hmax.
    rewrite !length_fmap in Hmax. unfold queue, get in *. destruct (i <? 0); [done|].
    apply lookup_lt_Some in Hq'. apply lookup_ge_None in Hq. lia.
Qed.

Lemma act_length a c : length (co_queues (act a c)) = length (co_queues c).
Proof. pose proof (act_num_max a c) as H. apply (f_equal length) in H. by rewrite !length_fmap in H. Qed.

Lemma act_coherent a c hub :
  ~ is_reset a -> (forall sel v, a <> AQueueReady sel v) -> coherent c hub -> coherent (act a c) hub.
Proof.
  intros Hr Hn [Hl Hc]. split; [by rewrite act_length|]. intros i q' s Hq' Hs.
  destruct (act_ready_flag a c i q' Hr Hn Hq') as (q & Hq & Hf & Heq).
  destruct (Hc i q s Hq Hs) as [H1 H2]. split; [congruence|].
  intros Hrd. rewrite Hf in Hrd. rewrite (Heq Hrd). auto.
Qed.

Lemma ready_coherent sel v c hub q :
  coherent c hub -> queue (set_queue_ready sel v c) sel = Some q ->
  coherent (set_queue_ready sel v c) (publish hub sel q (co_driver_features (set_queue_ready sel v c))).
Proof.
  intros [Hl Hc] Hq. split.
  { unfold publish. rewrite length_update_at, Hl. symmetry. apply (act_length (AQueueReady sel v)). }
  intros i qi s Hqi Hs. unfold publish in Hs. rewrite get_update_at in Hs. case_decide as Hi.
  - subst. destruct (get hub i); [|done]. simpl in Hs. injection Hs as <-.
    assert (qi = q) as -> by congruence. split; [done|]. by intros _.
  - apply (Hc i); [|done]. revert Hqi. unfold set_queue_ready. destruct (queue c sel); [|done].
    repeat (case_match; [done|]). rewrite queue_update. by rewrite decide_False.
Qed.

Lemma reset_coherent c c' hub :
  co_queues c' = reset_queue <$> co_queues c -> coherent c hub -> coherent c' (clear hub).
Proof.
  intros Hq [Hl Hc]. split; [by rewrite Hq; unfold clear; rewrite !length_fmap|].
  unfold queue, get, clear. rewrite Hq. intros i q s.
  destruct (i <? 0); [done|]. rewrite !list_lookup_fmap.
  destruct (co_queues c !! _); [|done]. destruct (hub !! _); [|done].
  intros [= <-] [= <-]. split; done.
Qed.

(** Behaviour of a device the transport relies on: widths and fixed features. *)
Section device.
Hypothesis features_u64 : forall d : V, fits 64 (device_features d).
Hypothesis notify_keeps : forall (d : V) n, device_features (dev_notify d n) = device_features d.
Hypothesis status_keeps : forall (d : V) s, device_features (status_changed d s) = device_features d.
Hypothesis read_keeps : forall (d : V) o n, device_features (snd (read_config d o n)) = device_features d.
Hypothesis write_keeps : forall (d : V) o n v, device_features (write_config d o n v) = device_features d.

Lemma device_ok m d :
  device_features d = device_features (co_device (m_core m)) -> mmio_ok m ->
  mmio_ok (set_core (set_device d (m_core m)) m).
Proof.
  intros Hd [Hc Hh]. split; simpl; [|by apply (coherent_ext (m_core m))].
  apply (wf_core_ext (m_core m)); try done. unfold offered. simpl. by rewrite Hd.
Qed.

Lemma act_ok_mmio a m :
  act_ok a -> ~ is_reset a -> (forall sel v, a <> AQueueReady sel v) -> mmio_ok m ->
  mmio_ok (set_core (act a (m_core m)) m).
Proof. intros Ha Hr Hn [Hc Hh]. split; simpl; [by apply act_wf|by apply act_coherent]. Qed.

Lemma try_kick_features m off v d :
  try_kick (m_hub m) (co_device (m_core m)) off v = Some d ->
  device_features d = device_features (co_device (m_core m)).
Proof. unfold try_kick, kick_index. repeat case_match; try done. intros [= <-]. apply notify_keeps. Qed.

(** Which core action a register write performs. *)
Lemma write_reg_ok m off v : fits 32 v -> mmio_ok m -> mmio_ok (write_reg m off v).
Proof.
  intros Hv Hm. pose proof Hm as [Hc Hh]. unfold write_reg.
  repeat match goal with |- mmio_ok (if ?b then _ else _) => destruct b eqn:? end; try done.
  - by apply (act_ok_mmio (ADriverFeatures _ v)).
  - by apply (act_ok_mmio (AQueueNum _ v)).
  - destruct (queue _ _) as [q|] eqn:Hq; split; simpl.
    + by apply (act_wf features_u64 notify_keeps status_keeps (AQueueReady (m_queue_sel m) v)).
    + by apply ready_coherent.
    + by apply (act_wf features_u64 notify_keeps status_keeps (AQueueReady (m_queue_sel m) v)).
    + unfold set_queue_ready in *. destruct (queue (m_core m) (m_queue_sel m)) eqn:Hq0; [|done].
      exfalso. revert Hq. repeat (case_match; [congruence|]). rewrite queue_update, decide_True, Hq0; done.
  - unfold kick. destruct (try_kick _ _ _ _) as [d|] eqn:Hk.
    + apply device_ok; [|done]. by eapply try_kick_features.
    + by apply (act_ok_mmio (ANotify v)).
  - split; simpl; [by apply (wf_core_ext (m_core m))|by apply (coherent_ext (m_core m))].
  - destruct (Z.eqb_spec v 0) as [->|Hne]; split; simpl.
    + by apply (act_wf features_u64 notify_keeps status_keeps (AStatus 0)).
    + by apply (reset_coherent (m_core m)).
    + by apply (act_wf features_u64 notify_keeps status_keeps (AStatus v)).
    + apply (act_coherent (AStatus v)); try done. by intros [= ->].
  - by apply (act_ok_mmio (AQueueAddr _ Desc false v)).
  - by apply (act_ok_mmio (AQueueAddr _ Desc true v)).
  - by apply (act_ok_mmio (AQueueAddr _ Driver false v)).
  - by apply (act_ok_mmio (AQueueAddr _ Driver true v)).
  - by apply (act_ok_mmio (AQueueAddr _ Device false v)).
  - by apply (act_ok_mmio (AQueueAddr _ Device true v)).
Qed.

Lemma read_ok m off size : mmio_ok m -> mmio_ok (snd (read m off size)).
Proof.
  intros Hm. unfold read. destruct (_ <=? _).
  - pose proof (read_keeps (co_device (m_core m)) (off - CONFIG) size) as Hk.
    destruct (read_config _ _ _) as [v d]. by apply device_ok.
  - by destruct (negb _).
Qed.

Lemma write_ok m off size v : mmio_ok m -> mmio_ok (write m off size v).
Proof.
  intros Hm. unfold write. destruct (_ <=? _); [apply device_ok; [apply write_keeps|done]|].
  destruct (negb _); [done|]. apply write_reg_ok; [by apply wrap_fits|done].
Qed.

Lemma with_irq_ok slot (d : V) irq :
  fits 16 (num_queues d) -> (forall i, fits 16 (queue_num_max d i)) -> mmio_ok (with_irq slot d irq).
Proof.
  intros Hn Hmax. split; unfold with_irq; cbn [m_core m_hub]; [by apply VirtioCore.core_new_wf|].
  assert (Hlen : Z.of_nat (length (co_queues (VirtioCore.new (String.append "virtio-mmio-" (pretty slot)) d irq)))
    = num_queues d) by (simpl; rewrite length_fmap, length_seqZ; unfold fits in Hn; lia).
  split.
  - unfold hub_new. rewrite length_replicate, wrap_small by (by rewrite Hlen). lia.
  - intros i q s Hq Hs. unfold hub_new, queue, get in *. destruct (i <? 0); [done|].
    apply lookup_replicate in Hs as [-> _]. simpl in Hq. rewrite list_lookup_fmap in Hq.
    destruct (seqZ _ _ !! _); [|done]. injection Hq as <-. by split.
Qed.

(** ** Features seen by kicks *)

Lemma fresh_act a m :
  act_ok a -> ~ is_reset a -> wf_core (m_core m) -> fresh m -> fresh (set_core (act a (m_core m)) m).
Proof.
  intros Ha Hr Hwf Hf i s Hs Hrd. destruct (Hf i s Hs Hrd) as [H1 H2]. simpl.
  split; [by rewrite act_features|by apply act_features_ok].
Qed.

Lemma fresh_ext m m' :
  m_hub m' = m_hub m -> co_status (m_core m') = co_status (m_core m) ->
  co_driver_features (m_core m') = co_driver_features (m_core m) -> fresh m -> fresh m'.
Proof. unfold fresh. by intros -> -> ->. Qed.

Lemma fresh_publish m sel v q :
  Z.land (co_status (m_core m)) STATUS_FEATURES_OK <> 0 -> fresh m ->
  let c := set_queue_ready sel v (m_core m) in
  fresh (set_hub (publish (m_hub m) sel q (co_driver_features c)) (set_core c m)).
Proof.
  intros Hok Hf c i s Hs Hrd. simpl in *.
  assert (Hst : co_status c = co_status (m_core m)) by (by apply (act_status (AQueueReady sel v))).
  assert (Hfe : co_driver_features c = co_driver_features (m_core m))
    by (by apply (act_features (AQueueReady sel v))).
  rewrite Hst, Hfe in *. unfold publish in Hs. rewrite get_update_at in Hs. case_decide.
  - destruct (get (m_hub m) i); [|done]. simpl in Hs. by injection Hs as <-.
  - by apply (Hf i).
Qed.

Lemma fresh_clear m c : fresh (set_core c (set_hub (clear (m_hub m)) (set_sels 0 0 0 m))).
Proof.
  intros i s Hs Hrd. simpl in Hs. unfold clear, get in Hs. destruct (i <? 0); [done|].
  rewrite list_lookup_fmap in Hs. destruct (m_hub m !! _); [|done]. by injection Hs as <-.
Qed.

(** A driver that makes queues ready only after feature negotiation. *)
Definition compliant m (off : Z) : Prop :=
  off = QUEUE_READY -> Z.land (co_status (m_core m)) STATUS_FEATURES_OK <> 0.

Lemma write_reg_fresh m off v :
  fits 32 v -> mmio_ok m -> compliant m off -> fresh m -> fresh (write_reg m off v).
Proof.
  intros Hv [Hc _] Hco Hf. unfold write_reg.
  repeat match goal with |- fresh (if ?b then _ else _) => destruct b eqn:? end; try done;
    try (by apply (fresh_ext m)).
  - by apply (fresh_act (ADriverFeatures _ v)).
  - by apply (fresh_act (AQueueNum _ v)).
  - destruct (queue _ _) as [q|].
    + apply (fresh_publish m (m_queue_sel m) v q); [|done]. apply Hco. lia.
    + by apply (fresh_act (AQueueReady _ v)).
  - unfold kick. destruct (try_kick _ _ _ _); [by apply (fresh_ext m)|by apply (fresh_act (ANotify v))].
  - destruct (Z.eqb_spec v 0) as [->|Hne]; [apply fresh_clear|].
    apply (fresh_act (AStatus v)); try done. by intros [= ->].
  - by apply (fresh_act (AQueueAddr _ Desc false v)).
  - by apply (fresh_act (AQueueAddr _ Desc true v)).
  - by apply (fresh_act (AQueueAddr _ Driver false v)).
  - by apply (fresh_act (AQueueAddr _ Driver true v)).
  - by apply (fresh_act (AQueueAddr _ Device false v)).
  - by apply (fresh_act (AQueueAddr _ Device true v)).
Qed.

(** ** Accesses of the guest and of the device's worker *)

Inductive Access : Type :=
| Rd (off size : Z)
| Wr (off size value : Z)
| Raise (bits : Z).

Definition do_access (a : Access) m : VirtioMmio V :=
  match a with
  | Rd off size => snd (read m off size)
  | Wr off size v => write m off size v
  | Raise bits => raise_interrupt m bits
  end.

Fixpoint compliant_run (acts : list Access) m : Prop :=
  match acts with
  | [] => True
  | a :: acts =>
      match a with Wr off _ _ => compliant m off | _ => True end /\ compliant_run acts (do_access a m)
  end.

#[export] Instance compliant_run_dec acts m : Decision (compliant_run acts m).
Proof.
  revert m. induction acts as [|a acts IH]; intros m; simpl; [apply _|].
  destruct a; unfold compliant; apply _.
Defined.

Definition accesses (acts : list Access) m : VirtioMmio V := foldl (fun m a => do_access a m) m acts.

Lemma access_ok a m : mmio_ok m -> mmio_ok (do_access a m).
Proof.
  intros Hm. destruct a; simpl; [by apply read_ok|by apply write_ok|].
  destruct Hm. split; simpl; [by apply (wf_core_ext (m_core m))|by apply (coherent_ext (m_core m))].
Qed.

Lemma accesses_ok acts m : mmio_ok m -> mmio_ok (accesses acts m).
Proof.
  revert m. induction acts as [|a acts IH]; intros m Hm; [done|]. simpl. by apply IH, access_ok.
Qed.

Lemma access_fresh a m :
  mmio_ok m -> match a with Wr off _ _ => compliant m off | _ => True end -> fresh m ->
  fresh (do_access a m).
Proof.
  intros Hm Hc Hf. destruct a as [off size|off size v|bits]; simpl.
  - apply (fresh_ext m); unfold read; repeat case_match; done.
  - unfold write. destruct (_ <=? _); [by apply (fresh_ext m)|].
    destruct (negb _); [done|]. apply write_reg_fresh; try done. by apply wrap_fits.
  - by apply (fresh_ext m).
Qed.

Lemma run_ok_fresh acts m :
  mmio_ok m -> fresh m -> compliant_run acts m -> mmio_ok (accesses acts m) /\ fresh (accesses acts m).
Proof.
  revert m. induction acts as [|a acts IH]; intros m Hm Hf; [done|]. intros [Hc Hr].
  simpl. apply IH; [by apply access_ok|by apply access_fresh|done].
Qed.

Lemma with_irq_fresh slot (d : V) irq : fresh (with_irq slot d irq).
Proof.
  intros i s Hs. simpl in Hs. unfold hub_new, get in Hs. destruct (i <? 0); [done|].
  by apply lookup_replicate in Hs as [-> _].
Qed.

(** With a coherent and fresh hub the snapshot is the core's own message. *)
Lemma snap_notify_of m i q s :
  mmio_ok m -> fresh m -> queue (m_core m) i = Some q -> get (m_hub m) i = Some s ->
  s_ready s = true -> snap_notify i s = notify_of (m_core m) i q.
Proof.
  intros [_ [_ Hco]] Hf Hq Hs Hr. destruct (Hco i q s Hq Hs) as [Hrd Hsn].
  destruct (Hf i s Hs Hr) as [Hfe _]. rewrite Hr in Hrd.
  destruct (Hsn (eq_sym Hrd)) as (H1 & H2 & H3 & H4).
  unfold snap_notify, notify_of. by rewrite H1, H2, H3, H4, Hfe.
Qed.

Lemma hub_queue m i s : mmio_ok m -> get (m_hub m) i = Some s -> exists q, queue (m_core m) i = Some q.
Proof.
  intros [_ [Hlen _]] Hs. apply get_Some_range in Hs. unfold queue. rewrite get_lookup by lia.
  apply lookup_lt_is_Some_2. lia.
Qed.

Lemma kick_equiv m v :
  mmio_ok m -> fresh m -> fits 32 v -> kick m QUEUE_NOTIFY v = set_core (notify v (m_core m)) m.
Proof.
  intros Hm Hf Hv. unfold kick, try_kick, kick_index. simpl. rewrite wrap_small by done.
  destruct (get (m_hub m) v) as [s|] eqn:Hs; [|done]. destruct (s_ready s) eqn:Hr; [|done].
  destruct (hub_queue m v s Hm Hs) as [q Hq]. rewrite (snap_notify_of m v q s) by done.
  destruct Hm as [_ [_ Hco]]. destruct (Hco v q s Hq Hs) as [Hrd _].
  unfold notify. rewrite Hq, <- Hrd, Hr. done.
Qed.

(** ** Properties *)

(** C6: A transport stays well formed whatever the guest reads and writes, at
    any offset and size, and whatever interrupts the device raises: the core's
    invariant holds and the lock-free hub agrees with the core on which queues
    are ready, their sizes and their ring addresses. *)
Theorem mmio_transport_invariant slot (d : V) irq acts :
  fits 16 (num_queues d) -> (forall i, fits 16 (queue_num_max d i)) ->
  mmio_ok (accesses acts (with_irq slot d irq)).
Proof.
  intros Hn Hmax. by apply accesses_ok, with_irq_ok.
Qed.

(** For a driver that makes queues ready only after [FEATURES_OK], the
    lock-free kick is equivalent to the locked one: a write to [QueueNotify]
    has exactly the effect of [VirtioCore::notify]. *)
Theorem lock_free_kick_equiv slot (d : V) irq acts v :
  fits 16 (num_queues d) -> (forall i, fits 16 (queue_num_max d i)) ->
  compliant_run acts (with_irq slot d irq) -> fits 32 v ->
  let m := accesses acts (with_irq slot d irq) in
  write m QUEUE_NOTIFY 4 v = set_core (notify v (m_core m)) m.
Proof.
  intros Hn Hmax Hco Hv m.
  destruct (run_ok_fresh acts (with_irq slot d irq)) as [Hm Hf];
    [by apply with_irq_ok|apply with_irq_fresh|done|].
  unfold write. simpl. rewrite wrap_small by done. by apply kick_equiv.
Qed.

(** A bus of virtio-mmio transports keeps every one of them well formed
    through any exit event of any vCPU, whether the access takes the register
    path or the kick port. *)
Theorem virtio_bus_invariant {R} `{!GuestRegs R} addr (t : Thread (VirtioMmio V) R) event :
  (forall (r : R) i v, get_reg r i = Ok v -> fits 64 v) ->
  wf_bus (t_bus t) -> devices_ok (fun _ m => mmio_ok m) (t_bus t) ->
  (forall gpa size w reg, event = Esr.Mmio gpa size w reg -> 0 <= reg) ->
  let '(t', r) := dispatch addr t event in
  wf_bus (t_bus t') /\ devices_ok (fun _ m => mmio_ok m) (t_bus t') /\ r <> Err IndexPanic.
Proof.
  intros Hregs Hwf Hok Hreg. apply dispatch_keeps; try done.
  - intros n m off size Hm _ _ _. by apply read_ok.
  - intros n m off size v Hm _ _ _ _. by apply write_ok.
  - intros n m off v m' Hm _ _ Hk. simpl in Hk.
    destruct (try_kick _ _ _ _) as [d|] eqn:Hd; [|done]. simpl in Hk. injection Hk as <-.
    apply device_ok; [|done]. by eapply try_kick_features.
Qed.

(** Register reads have no side effect, and every read is truncated to the
    access size: a register access that is not 4 bytes wide reads as 0. *)
Theorem register_read_pure m off size :
  0 <= off < CONFIG -> mmio_size size ->
  snd (read m off size) = m /\
  (size <> 4 -> fst (read m off size) = 0) /\
  (size = 4 -> fst (read m off size) = read_reg m off mod 2 ^ 32).
Proof.
  intros Ho Hs. unfold read. destruct (Z.leb_spec CONFIG off); [lia|].
  destruct (Z.eqb_spec size 4) as [->|Hne]; simpl; split_and!; try done.
  - intros _. by apply (land_low _ 32).
  - intros _. unfold mask. by repeat case_match.
Qed.
End device.
End facts.

(** *** A slot driven by a guest *)

(** The register writes of a driver that follows the specification. *)
Definition mmio_bring_up : list Access :=
  [Wr STATUS 4 1; Wr STATUS 4 3; Wr DRIVER_FEATURES_SEL 4 1; Wr DRIVER_FEATURES 4 1; Wr STATUS 4 11;
   Wr QUEUE_SEL 4 0; Wr QUEUE_NUM 4 64; Wr QUEUE_DESC_LOW 4 0x1000; Wr QUEUE_DRIVER_LOW 4 0x2000;
   Wr QUEUE_DEVICE_LOW 4 0x3000; Wr QUEUE_READY 4 1; Wr STATUS 4 15; Rd STATUS 4; Raise 1].

(** One that makes the queue ready first and negotiates afterwards. *)
Definition mmio_ready_first : list Access :=
  [Wr STATUS 4 1; Wr STATUS 4 3; Wr QUEUE_NUM 4 64; Wr QUEUE_DESC_LOW 4 0x1000;
   Wr QUEUE_DRIVER_LOW 4 0x2000; Wr QUEUE_DEVICE_LOW 4 0x3000; Wr QUEUE_READY 4 1;
   Wr DRIVER_FEATURES_SEL 4 1; Wr DRIVER_FEATURES 4 1; Wr STATUS 4 11; Wr STATUS 4 15].

Notation demo_mmio := (with_irq (V := list QueueNotify) 3 [] VirtioIrq.new).

Lemma mmio_transport_invariant_witness :
  mmio_ok (accesses mmio_bring_up demo_mmio) /\ fst (read (accesses mmio_bring_up demo_mmio) STATUS 4) = 15.
Proof.
  split; [|vm_compute; reflexivity].
  exact (mmio_transport_invariant (V := list QueueNotify) ltac:(done) ltac:(done) ltac:(done)
           ltac:(done) ltac:(done) 3 [] VirtioIrq.new mmio_bring_up ltac:(done) ltac:(done)).
Defined.

Lemma lock_free_kick_equiv_witness :
  let m := accesses mmio_bring_up demo_mmio in
  write m QUEUE_NOTIFY 4 0 = set_core (notify 0 (m_core m)) m /\
  co_device (notify 0 (m_core m)) =
    [{| n_index := 0; n_size := 64; n_desc := 0x1000; n_avail := 0x2000; n_used := 0x3000;
        n_features := 2 ^ 32 |}].
Proof.
  intros m. split; [|vm_compute; reflexivity].
  refine (lock_free_kick_equiv (V := list QueueNotify) ltac:(done) ltac:(done) ltac:(done)
            ltac:(done) ltac:(done) 3 [] VirtioIrq.new mmio_bring_up 0 ltac:(done) ltac:(done) _ ltac:(done)).
  apply (bool_decide_unpack _). vm_compute. exact I.
Defined.

Definition demo_virtio_bus : MmioBus (VirtioMmio (list QueueNotify)) :=
  {| b_devices := [ {| s_base := 0x0a000600; MmioBus.s_size := 0x200; s_name := "virtio-mmio-3";
                       s_device := accesses mmio_bring_up demo_mmio; s_accesses := 0 |} ];
     b_generation := 2 |}.

Lemma virtio_bus_invariant_witness :
  let t := {| t_bus := demo_virtio_bus; t_hit := {| c_bus := 0; c_gen := 0; c_idx := 0 |};
              t_regs := [0; 5] |} in
  let '(t', r) := dispatch 64 t (Esr.Mmio 0x0a000650 4 true 0) in
  devices_ok (fun _ m => mmio_ok m) (t_bus t') /\ is_ok r = true.
Proof.
  intros t.
  pose proof (virtio_bus_invariant (V := list QueueNotify)
    ltac:(done) ltac:(done) ltac:(done) ltac:(done) ltac:(done) 64 t (Esr.Mmio 0x0a000650 4 true 0)) as H.
  assert (Hr : is_ok (snd (dispatch 64 t (Esr.Mmio 0x0a000650 4 true 0))) = true) by (vm_compute; reflexivity).
  destruct (dispatch 64 t (Esr.Mmio 0x0a000650 4 true 0)) as [t' r].
  split; [|exact Hr]. apply H.
  - intros rs i v. simpl. repeat case_match; try done. intros [= <-]. unfold fits. lia.
  - apply (bool_decide_unpack _). vm_compute. exact I.
  - constructor; [|constructor]. cbn beta. cbn [s_device].
    exact (accesses_ok (V := list QueueNotify) ltac:(done) ltac:(done) ltac:(done) ltac:(done)
             ltac:(done) mmio_bring_up _ (with_irq_ok 3 [] VirtioIrq.new ltac:(done) ltac:(done))).
  - intros gpa size w reg [= <- <- <- <-]. lia.
Defined.

Lemma register_read_pure_witness :
  snd (read demo_mmio MAGIC_VALUE 4) = demo_mmio /\ fst (read demo_mmio MAGIC_VALUE 4) = 0x74726976 /\
  fst (read demo_mmio STATUS 2) = 0.
Proof.
  assert (H4 : mmio_size 4 /\ mmio_size 2) by (unfold mmio_size; lia). destruct H4 as [H4 H2].
  pose proof (register_read_pure demo_mmio MAGIC_VALUE 4 ltac:(done) H4) as Ha.
  pose proof (register_read_pure demo_mmio STATUS 2 ltac:(done) H2) as Hb.
  split; [exact (proj1 Ha)|]. split; [|exact (proj1 (proj2 Hb) ltac:(done))].
  rewrite (proj2 (proj2 Ha) eq_refl). reflexivity.
Defined.

(** Nothing makes a driver negotiate before it makes a queue ready, and then
    the hub's features are stale: the kick that the device receives carries
    features 0 although [VERSION_1] was negotiated, while the locked path would
    carry the negotiated ones. *)
Theorem ready_before_negotiation_stale_features :
  let m := accesses mmio_ready_first demo_mmio in
  co_driver_features (m_core m) = VIRTIO_F_VERSION_1 /\ co_status (m_core m) = 15 /\
  n_features <$> co_device (m_core (write m QUEUE_NOTIFY 4 0)) = [0] /\
  n_features <$> co_device (notify 0 (m_core m)) = [VIRTIO_F_VERSION_1].
Proof. vm_compute. done. Qed.
