(* ===== verification/Psci.v ===== *)
(** * PSCI calls and exception exits

    Model of [ternvale-vmm/src/psci.rs] and of the exception path of
    [vcpu/exit.rs] ([on_exception], [on_psci]): what one trapped HVC, SMC, WFI
    or WFE does to the vCPU's registers and what the run loop does next.

    [VcpuRegs] is the register access of [Vcpu], each call of which the
    hypervisor may refuse with an error code.  How long a WFI waits
    ([wait_for_interrupt]) is host time and is not modelled: its outcome is the
    argument [waited]. *)

From S2P Require Import Prelude Esr.

Definition TRAP_PC_ADVANCE : Z := 4.

Definition PSCI_VERSION : Z := 0x84000000.
Definition PSCI_CPU_OFF : Z := 0x84000002.
Definition PSCI_MIGRATE_INFO_TYPE : Z := 0x84000006.
Definition PSCI_SYSTEM_OFF : Z := 0x84000008.
Definition PSCI_SYSTEM_RESET : Z := 0x84000009.
Definition PSCI_FEATURES : Z := 0x8400000a.
Definition PSCI_CPU_ON : Z := 0xc4000003.
Definition PSCI_AFFINITY_INFO : Z := 0xc4000004.
Definition SMCCC_FAST_CALL : Z := 0x80000000.

(** [i32] status codes. *)
Definition SUCCESS : Z := 0.
Definition NOT_SUPPORTED : Z := -1.
Definition INVALID_PARAMS : Z := -2.
Definition ALREADY_ON : Z := -4.
Definition ON_PENDING : Z := -5.
Definition INVALID_ADDRESS : Z := -9.
Definition AFFINITY_ON : Z := 0.
Definition AFFINITY_OFF : Z := 1.
Definition AFFINITY_ON_PENDING : Z := 2.
Definition VERSION_1_1 : Z := 0x00010001.
Definition TOS_NOT_PRESENT_MP : Z := 2.

Inductive PowerRequest : Type :=
| CpuOn (target entry context : Z)
| AffinityInfo (target level : Z).

Inductive PsciAction : Type :=
| Return (x0 : Z)
| Power (request : PowerRequest)
| ACpuOff
| ASystemOff
| ASystemReset.

(** [i64::from(code) as u64]. *)
Definition sign (code : Z) : Z := wrap 64 code.

Definition features (id : Z) : Z :=
  if (id =? PSCI_VERSION) || (id =? PSCI_CPU_OFF) || (id =? PSCI_CPU_ON)
     || (id =? PSCI_AFFINITY_INFO) || (id =? PSCI_SYSTEM_OFF) || (id =? PSCI_SYSTEM_RESET)
     || (id =? PSCI_MIGRATE_INFO_TYPE) || (id =? PSCI_FEATURES)
  then SUCCESS else NOT_SUPPORTED.

Definition is_fast_call (function : Z) : bool :=
  (Z.shiftr function 32 =? 0) && negb (Z.land function SMCCC_FAST_CALL =? 0).

Definition call (function x1 x2 x3 : Z) : option PsciAction :=
  if function =? PSCI_VERSION then Some (Return (sign VERSION_1_1))
  else if function =? PSCI_FEATURES then Some (Return (sign (features x1)))
  else if function =? PSCI_CPU_ON then Some (Power (CpuOn x1 x2 x3))
  else if function =? PSCI_AFFINITY_INFO then Some (Power (AffinityInfo x1 x2))
  else if function =? PSCI_CPU_OFF then Some ACpuOff
  else if function =? PSCI_SYSTEM_OFF then Some ASystemOff
  else if function =? PSCI_SYSTEM_RESET then Some ASystemReset
  else if function =? PSCI_MIGRATE_INFO_TYPE then Some (Return (sign TOS_NOT_PRESENT_MP))
  else if is_fast_call function then Some (Return (sign NOT_SUPPORTED))
  else None.

(** ** The vCPU *)

Inductive ExitReason : Type :=
| RException (syndrome virtual_address physical_address : Z)
| RVtimerActivated
| RCpuOff
| RPsci (request : PowerRequest)
| RSystemOff
| RSystemReset
| RWfi
| RCanceled
| RUnknown (reason : Z).

(** [hv_exit_reason_t] values. *)
Definition HV_EXIT_REASON_CANCELED : Z := 0.
Definition HV_EXIT_REASON_EXCEPTION : Z := 1.
Definition HV_EXIT_REASON_VTIMER_ACTIVATED : Z := 2.
Definition HV_EXIT_REASON_UNKNOWN : Z := 3.

Definition exit_reason (reason syndrome virtual_address physical_address : Z) : ExitReason :=
  if reason =? HV_EXIT_REASON_EXCEPTION then RException syndrome virtual_address physical_address
  else if reason =? HV_EXIT_REASON_VTIMER_ACTIVATED then RVtimerActivated
  else if reason =? HV_EXIT_REASON_CANCELED then RCanceled
  else if reason =? HV_EXIT_REASON_UNKNOWN then RUnknown HV_EXIT_REASON_UNKNOWN
  else RUnknown reason.

Inductive Loop : Type := Again | Done (reason : ExitReason).

Class VcpuRegs (R : Type) := {
  get_x : R -> Z -> result Z Z;
  set_x : R -> Z -> Z -> result Z R;
  get_pc : R -> result Z Z;
  set_pc : R -> Z -> result Z R;
}.

Section vcpu.
Context {R : Type} `{!VcpuRegs R}.

Record Vcpu := { v_regs : R; v_stop : bool }.

Definition with_regs (v : Vcpu) (r : R) : Vcpu := {| v_regs := r; v_stop := v_stop v |}.
Definition stopped (v : Vcpu) : Vcpu := {| v_regs := v_regs v; v_stop := true |}.

(** Programs that change the vCPU and may fail with a hypervisor code; what was
    done before a failure stays done. *)
Definition VM (A : Type) : Type := Vcpu -> Vcpu * result Z A.

#[export] Instance VM_ret : MRet VM := fun A a v => (v, Ok a).
#[export] Instance VM_bind : MBind VM := fun A B k c v =>
  match c v with (v', Ok a) => k a v' | (v', Err e) => (v', Err e) end.

Definition reads {A} (f : R -> result Z A) : VM A := fun v => (v, f (v_regs v)).
Definition writes (f : R -> result Z R) : VM unit := fun v =>
  match f (v_regs v) with Ok r => (with_regs v r, Ok tt) | Err e => (v, Err e) end.
Definition store_stop : VM unit := fun v => (stopped v, Ok tt).

Definition advance_pc : VM unit :=
  pc ← reads get_pc;
  writes (fun r => set_pc r (add_w 64 pc TRAP_PC_ADVANCE)).

Definition advance_if (advance : bool) : VM unit := if advance then advance_pc else mret tt.

Definition on_psci (syndrome virtual_address physical_address : Z) (advance : bool) : VM Loop :=
  x0 ← reads (fun r => get_x r 0);
  x1 ← reads (fun r => get_x r 1);
  x2 ← reads (fun r => get_x r 2);
  x3 ← reads (fun r => get_x r 3);
  match call x0 x1 x2 x3 with
  | None => mret (Done (RException syndrome virtual_address physical_address))
  | Some (Return x0) =>
      _ ← writes (fun r => set_x r 0 x0); _ ← advance_if advance; mret Again
  | Some (Power request) =>
      _ ← advance_if advance; mret (Done (RPsci request))
  | Some ACpuOff =>
      _ ← writes (fun r => set_x r 0 0); _ ← advance_if advance; mret (Done RCpuOff)
  | Some ASystemOff => _ ← store_stop; mret (Done RSystemOff)
  | Some ASystemReset => _ ← store_stop; mret (Done RSystemReset)
  end.

Definition on_exception (waited : result Z unit) (syndrome virtual_address physical_address : Z)
  : VM Loop :=
  match decode syndrome physical_address with
  | Hvc _ => on_psci syndrome virtual_address physical_address false
  | Smc _ => on_psci syndrome virtual_address physical_address true
  | Wfi _ => _ ← (fun v => (v, waited)); _ ← advance_pc; mret (Done RWfi)
  | _ => mret (Done (RException syndrome virtual_address physical_address))
  end.

End vcpu.
Arguments Vcpu : clear implicits.

(** ** Facts *)

(** The function ids [call] implements. *)
Definition implemented : list Z :=
  [PSCI_VERSION; PSCI_CPU_OFF; PSCI_MIGRATE_INFO_TYPE; PSCI_SYSTEM_OFF; PSCI_SYSTEM_RESET;
   PSCI_FEATURES; PSCI_CPU_ON; PSCI_AFFINITY_INFO].

Lemma features_spec id : features id = if decide (id ∈ implemented) then SUCCESS else NOT_SUPPORTED.
Proof.
  unfold features, implemented. case_decide as H.
  - rewrite !elem_of_cons, elem_of_nil in H. destruct H as [->|[->|[->|[->|[->|[->|[->|[->|[]]]]]]]]]; done.
  - rewrite !elem_of_cons, elem_of_nil in H.
    destruct (Z.eqb_spec id PSCI_VERSION), (Z.eqb_spec id PSCI_CPU_OFF), (Z.eqb_spec id PSCI_CPU_ON),
      (Z.eqb_spec id PSCI_AFFINITY_INFO), (Z.eqb_spec id PSCI_SYSTEM_OFF),
      (Z.eqb_spec id PSCI_SYSTEM_RESET), (Z.eqb_spec id PSCI_MIGRATE_INFO_TYPE),
      (Z.eqb_spec id PSCI_FEATURES); naive_solver.
Qed.

(** A 64-bit value is a fast call when its upper half is clear and bit 31 set. *)
Lemma is_fast_call_spec f :
  fits 64 f -> is_fast_call f = bool_decide (2 ^ 31 <= f < 2 ^ 32).
Proof.
  intros [H1 H2]. unfold is_fast_call, SMCCC_FAST_CALL. rewrite Z.shiftr_div_pow2 by done.
  destruct (Z.eqb_spec (f / 2 ^ 32) 0) as [Hhi|Hhi]; simpl.
  - assert (f < 2 ^ 32) by (apply Z.div_small_iff in Hhi; lia).
    assert (Hbit : Z.land f 0x80000000 = (f / 2 ^ 31) * 2 ^ 31).
    { rewrite <- Z.shiftl_mul_pow2, <- Z.shiftr_div_pow2 by done.
      apply Z.bits_inj'. intros i Hi. rewrite Z.land_spec, Z.shiftl_spec by done.
      change 0x80000000 with (2 ^ 31).
      destruct (decide (i = 31)) as [->|Hne].
      - rewrite Z.pow2_bits_true, andb_true_r, Z.shiftr_spec by lia. done.
      - rewrite Z.pow2_bits_false, andb_false_r by lia.
        destruct (decide (i < 31)); [by rewrite Z.testbit_neg_r by lia|].
        rewrite Z.shiftr_spec by lia. symmetry. apply (testbit_high _ 32); lia. }
    rewrite Hbit. case_bool_decide as Hc.
    + assert (f / 2 ^ 31 = 1) as -> by (symmetry; apply (Z.div_unique _ _ _ (f - 2 ^ 31)); lia). done.
    + rewrite (Z.div_small f (2 ^ 31)) by lia. done.
  - rewrite bool_decide_false; [done|]. intros [_ Hlt]. apply Hhi. apply Z.div_small. lia.
Qed.

(** ** Registers *)

Section effects.
Context {R : Type} `{!VcpuRegs R}.
Implicit Types (v : Vcpu R) (r : R).

(** What a register file is: a write is read back and touches nothing else. *)
Hypothesis set_x_spec : forall r i x r', set_x r i x = Ok r' ->
  get_x r' i = Ok x /\ (forall j, j <> i -> get_x r' j = get_x r j) /\ get_pc r' = get_pc r.
Hypothesis set_pc_spec : forall r p r', set_pc r p = Ok r' ->
  get_pc r' = Ok p /\ forall j, get_x r' j = get_x r j.

Lemma VM_bind_Ok {A B} (c : VM A) (k : A -> VM B) v v' (b : B) :
  (c ≫= k) v = (v', Ok b) <-> exists v1 a, c v = (v1, Ok a) /\ k a v1 = (v', Ok b).
Proof.
  unfold mbind, VM_bind. destruct (c v) as [v1 [a|e]]; [|naive_solver].
  split; [eauto|]. intros (? & ? & [= <- <-] & ?). done.
Qed.

Lemma advance_pc_Ok v v' :
  advance_pc v = (v', Ok tt) ->
  exists pc, get_pc (v_regs v) = Ok pc /\ get_pc (v_regs v') = Ok (wrap 64 (pc + 4)) /\
    (forall j, get_x (v_regs v') j = get_x (v_regs v) j) /\ v_stop v' = v_stop v.
Proof.
  intros (v1 & pc & Hr & Hw)%VM_bind_Ok. unfold reads in Hr. injection Hr as <- Hpc.
  unfold writes in Hw. destruct (set_pc _ _) as [r'|] eqn:Hs; [|done]. injection Hw as <-.
  apply set_pc_spec in Hs as [? ?]. exists pc. by split_and!.
Qed.

Lemma advance_if_Ok b v v' :
  advance_if b v = (v', Ok tt) ->
  (if b then exists pc, get_pc (v_regs v) = Ok pc /\ get_pc (v_regs v') = Ok (wrap 64 (pc + 4))
   else get_pc (v_regs v') = get_pc (v_regs v)) /\
  (forall j, get_x (v_regs v') j = get_x (v_regs v) j) /\ v_stop v' = v_stop v.
Proof.
  destruct b; simpl.
  - intros (pc & ? & ? & ? & ?)%advance_pc_Ok. split_and!; eauto.
  - intros [= <-]. done.
Qed.

Lemma set_x0_Ok v v' x :
  writes (fun r => set_x r 0 x) v = (v', Ok tt) ->
  get_x (v_regs v') 0 = Ok x /\ (forall j, j <> 0 -> get_x (v_regs v') j = get_x (v_regs v) j) /\
  get_pc (v_regs v') = get_pc (v_regs v) /\ v_stop v' = v_stop v.
Proof.
  unfold writes. destruct (set_x _ _ _) as [r'|] eqn:Hs; [|done]. intros [= <-].
  apply set_x_spec in Hs as (? & ? & ?). by split_and!.
Qed.

(** The PC moved past a 4-byte instruction, or not at all. *)
Definition pc_moves (b : bool) v v' : Prop :=
  if b then exists pc, get_pc (v_regs v) = Ok pc /\ get_pc (v_regs v') = Ok (wrap 64 (pc + 4))
  else get_pc (v_regs v') = get_pc (v_regs v).

Definition same_x v v' (from : Z) : Prop :=
  forall j, from <= j -> get_x (v_regs v') j = get_x (v_regs v) j.

(** What a completed PSCI trap did, by outcome of [call]. *)
Lemma on_psci_Ok syn va pa adv v v' out :
  on_psci syn va pa adv v = (v', Ok out) ->
  exists x0 x1 x2 x3, get_x (v_regs v) 0 = Ok x0 /\ get_x (v_regs v) 1 = Ok x1 /\
    get_x (v_regs v) 2 = Ok x2 /\ get_x (v_regs v) 3 = Ok x3 /\ same_x v v' 1 /\
    match call x0 x1 x2 x3 with
    | None => out = Done (RException syn va pa) /\ v' = v
    | Some (Return y) => out = Again /\ get_x (v_regs v') 0 = Ok y /\ pc_moves adv v v' /\
        v_stop v' = v_stop v
    | Some (Power rq) => out = Done (RPsci rq) /\ get_x (v_regs v') 0 = Ok x0 /\ pc_moves adv v v' /\
        v_stop v' = v_stop v
    | Some ACpuOff => out = Done RCpuOff /\ get_x (v_regs v') 0 = Ok 0 /\ pc_moves adv v v' /\
        v_stop v' = v_stop v
    | Some ASystemOff => out = Done RSystemOff /\ v' = stopped v
    | Some ASystemReset => out = Done RSystemReset /\ v' = stopped v
    end.
Proof.
  unfold on_psci. rewrite VM_bind_Ok. intros (v0 & x0 & [= <- H0] & H).
  apply VM_bind_Ok in H as (v1 & x1 & [= <- H1] & H).
  apply VM_bind_Ok in H as (v2 & x2 & [= <- H2] & H).
  apply VM_bind_Ok in H as (v3 & x3 & [= <- H3] & H).
  exists x0, x1, x2, x3. do 4 (split; [done|]).
  destruct (call x0 x1 x2 x3) as [[y|rq| | |]|].
  - apply VM_bind_Ok in H as (va1 & [] & Hx & H). apply VM_bind_Ok in H as (vb & [] & Ha & [= <- <-]).
    apply set_x0_Ok in Hx as (Hx0 & Hxj & Hpc & Hst). apply advance_if_Ok in Ha as (Hpc' & Hx' & Hst').
    split; [intros j Hj; rewrite Hx'; apply Hxj; lia|].
    split_and!; [done|by rewrite Hx'| |congruence]. unfold pc_moves. by destruct adv; rewrite <- Hpc.
  - apply VM_bind_Ok in H as (vb & [] & Ha & [= <- <-]).
    apply advance_if_Ok in Ha as (Hpc' & Hx' & Hst'). split; [intros j Hj; apply Hx'|].
    split_and!; try done. by rewrite Hx'.
  - apply VM_bind_Ok in H as (va1 & [] & Hx & H). apply VM_bind_Ok in H as (vb & [] & Ha & [= <- <-]).
    apply set_x0_Ok in Hx as (Hx0 & Hxj & Hpc & Hst). apply advance_if_Ok in Ha as (Hpc' & Hx' & Hst').
    split; [intros j Hj; rewrite Hx'; apply Hxj; lia|].
    split_and!; [done|by rewrite Hx'| |congruence]. unfold pc_moves. by destruct adv; rewrite <- Hpc.
  - apply VM_bind_Ok in H as (vb & [] & [= <-] & [= <- <-]). by split.
  - apply VM_bind_Ok in H as (vb & [] & [= <-] & [= <- <-]). by split.
  - injection H as <- <-. by split.
Qed.

(** Outcomes after which the guest continues behind the trapped instruction. *)
Definition resumes (out : Loop) : bool :=
  match out with
  | Again | Done (RPsci _) | Done RCpuOff | Done RWfi => true
  | _ => false
  end.

(** ** Properties *)

(** What the run loop is told, and what x0 holds, after a PSCI trap. *)
Definition psci_outcome (syn va pa : Z) (action : option PsciAction) : Loop :=
  match action with
  | None => Done (RException syn va pa)
  | Some (Return _) => Again
  | Some (Power rq) => Done (RPsci rq)
  | Some ACpuOff => Done RCpuOff
  | Some ASystemOff => Done RSystemOff
  | Some ASystemReset => Done RSystemReset
  end.

Definition x0_after (action : option PsciAction) (x0 : Z) : Z :=
  match action with Some (Return y) => y | Some ACpuOff => 0 | _ => x0 end.

(** A hypervisor that refuses no register access. *)
Definition regs_total : Prop := forall r : R,
  (forall j, 0 <= j <= 3 -> is_ok (get_x r j) = true) /\ (forall x, is_ok (set_x r 0 x) = true) /\
  is_ok (get_pc r) = true /\ (forall p, is_ok (set_pc r p) = true).

Lemma VM_bind_total {A B} (c : VM A) (k : A -> VM B) v :
  is_ok (snd (c v)) = true -> (forall a v', is_ok (snd (k a v')) = true) ->
  is_ok (snd ((c ≫= k) v)) = true.
Proof. unfold mbind, VM_bind. destruct (c v) as [v' [a|]]; naive_solver. Qed.

Lemma reads_total {A} (f : R -> result Z A) v :
  (forall r, is_ok (f r) = true) -> is_ok (snd (reads f v)) = true.
Proof. intros H. apply H. Qed.

Lemma writes_total f v : (forall r, is_ok (f r) = true) -> is_ok (snd (writes f v)) = true.
Proof. unfold writes. intros H. specialize (H (v_regs v)). by destruct (f (v_regs v)). Qed.

Lemma advance_pc_total v : regs_total -> is_ok (snd (advance_pc v)) = true.
Proof.
  intros H. apply VM_bind_total; [apply reads_total; intros r; apply H|].
  intros pc v'. apply writes_total. intros r. apply H.
Qed.

Lemma advance_if_total b v : regs_total -> is_ok (snd (advance_if b v)) = true.
Proof. intros H. destruct b; [by apply advance_pc_total|done]. Qed.

Lemma on_psci_total syn va pa adv v : regs_total -> is_ok (snd (on_psci syn va pa adv v)) = true.
Proof.
  intros H. unfold on_psci.
  do 4 (apply VM_bind_total; [apply reads_total; intros r; apply H; lia|]; intros ? ?).
  destruct (call _ _ _ _) as [[y|rq| | |]|]; try done.
  - apply VM_bind_total; [apply writes_total; intros r; apply H|]. intros ? ?.
    apply VM_bind_total; [by apply advance_if_total|done].
  - apply VM_bind_total; [by apply advance_if_total|done].
  - apply VM_bind_total; [apply writes_total; intros r; apply H|]. intros ? ?.
    apply VM_bind_total; [by apply advance_if_total|done].
Qed.

(** A completed PSCI trap, in the terms of the theorem below. *)
Lemma psci_effect syn va pa adv v v' out :
  on_psci syn va pa adv v = (v', Ok out) ->
  (exists x0 x1 x2 x3, get_x (v_regs v) 0 = Ok x0 /\ get_x (v_regs v) 1 = Ok x1 /\
     get_x (v_regs v) 2 = Ok x2 /\ get_x (v_regs v) 3 = Ok x3 /\
     out = psci_outcome syn va pa (call x0 x1 x2 x3) /\
     get_x (v_regs v') 0 = Ok (x0_after (call x0 x1 x2 x3) x0)) /\
  pc_moves (adv && resumes out) v v' /\ same_x v v' 1 /\
  v_stop v' = (v_stop v || match out with Done RSystemOff | Done RSystemReset => true | _ => false end).
Proof.
  intros (x0 & x1 & x2 & x3 & H0 & H1 & H2 & H3 & Hx & Hc)%on_psci_Ok.
  destruct (call x0 x1 x2 x3) as [[y|rq| | |]|] eqn:Hcall; destruct Hc as (-> & Hc);
    try (destruct Hc as (Hx0 & Hp & Hst)); subst;
    (split; [exists x0, x1, x2, x3; rewrite Hcall; by split_and!|]);
    rewrite ?Hst, ?orb_false_r, ?orb_true_r, ?andb_false_r, ?andb_true_r; by split_and!.
Qed.

(** What an exception exit does.  A PSCI trap (HVC or SMC) reports the
    outcome of [call] on x0..x3 to the run loop and leaves its status in x0; WFI
    and WFE report a wait, everything else is handed to the machine unchanged.
    The PC moves by exactly one 4-byte instruction, modulo 2^64, when the trap
    was an SMC, WFI or WFE the guest continues behind, and stays otherwise (the
    hardware already moved it for an HVC).  x1 and up never change, and the stop
    flag is set exactly by system off and reset.  The exit completes whenever
    the hypervisor refuses no register access and the wait succeeds. *)
Theorem exception_effect waited syn va pa v :
  (regs_total -> waited = Ok tt -> is_ok (snd (on_exception waited syn va pa v)) = true) /\
  forall v' out, on_exception waited syn va pa v = (v', Ok out) ->
  match decode syn pa with
  | Hvc _ | Smc _ => exists x0 x1 x2 x3,
      get_x (v_regs v) 0 = Ok x0 /\ get_x (v_regs v) 1 = Ok x1 /\
      get_x (v_regs v) 2 = Ok x2 /\ get_x (v_regs v) 3 = Ok x3 /\
      out = psci_outcome syn va pa (call x0 x1 x2 x3) /\
      get_x (v_regs v') 0 = Ok (x0_after (call x0 x1 x2 x3) x0)
  | Wfi _ => out = Done RWfi /\ get_x (v_regs v') 0 = get_x (v_regs v) 0
  | _ => out = Done (RException syn va pa) /\ v' = v
  end /\
  pc_moves (match decode syn pa with Smc _ | Wfi _ => resumes out | _ => false end) v v' /\
  same_x v v' 1 /\
  v_stop v' = (v_stop v || match out with Done RSystemOff | Done RSystemReset => true | _ => false end).
Proof.
  unfold on_exception. destruct (decode syn pa) as [g sz w reg|i|i|wfe|a b c d e f w|ec iss];
    try (split; [done|]; intros v' out [= <- <-]; by rewrite orb_false_r).
  - split; [intros; by apply on_psci_total|]. intros v' out. apply psci_effect.
  - split; [intros; by apply on_psci_total|]. intros v' out. apply psci_effect.
  - split.
    + intros Ht ->. apply VM_bind_total; [done|]. intros ? ?.
      apply VM_bind_total; [by apply advance_pc_total|done].
    + intros v' out (v1 & u & Hw & H)%VM_bind_Ok. injection Hw as <- ->.
      apply VM_bind_Ok in H as (v2 & [] & (pc & ? & ? & Hx & Hst)%advance_pc_Ok & [= <- <-]).
      split_and!; [done|apply Hx|by exists pc|by intros j _|by rewrite Hst, orb_false_r].
Qed.
End effects.

(** PSCI_FEATURES advertises exactly the functions [call] implements.  Any
    other SMCCC fast call (a 32-bit id with bit 31 set) gets NOT_SUPPORTED,
    which is -1 sign-extended to 64 bits, and anything else is not a PSCI call. *)
Theorem psci_advertises_what_it_handles f x1 x2 x3 :
  fits 64 f ->
  (features f = SUCCESS <-> f ∈ implemented) /\
  (f ∈ implemented -> is_Some (call f x1 x2 x3) /\
     (call f x1 x2 x3 = Some (Return (sign NOT_SUPPORTED)) -> f = PSCI_FEATURES /\ x1 ∉ implemented)) /\
  (f ∉ implemented ->
     call f x1 x2 x3 = if decide (2 ^ 31 <= f < 2 ^ 32) then Some (Return (2 ^ 64 - 1)) else None).
Proof.
  intros Hf. rewrite features_spec. split_and!.
  - case_decide; naive_solver.
  - unfold implemented at 1. rewrite !elem_of_cons, elem_of_nil.
    intros [->|[->|[->|[->|[->|[->|[->|[->|[]]]]]]]]]; (split; [by eexists|]); try done.
    change (call PSCI_FEATURES x1 x2 x3) with (Some (Return (sign (features x1)))).
    rewrite features_spec. by case_decide.
  - unfold implemented. rewrite !elem_of_cons, elem_of_nil. intros Hn.
    pose proof (is_fast_call_spec f Hf) as Hfc. unfold call.
    repeat match goal with |- context [f =? ?b] => destruct (Z.eqb_spec f b) as [->|]; [naive_solver|] end.
    rewrite Hfc. by case_bool_decide; case_decide.
Qed.

(** *** A concrete register file *)

#[export] Instance Xfile_regs : VcpuRegs ((Z -> Z) * Z) := {|
  get_x r i := Ok (fst r i);
  set_x r i x := Ok (fun j => if j =? i then x else fst r j, snd r);
  get_pc r := Ok (snd r);
  set_pc r p := Ok (fst r, p);
|}.

(** An SMC of PSCI_VERSION at the top of the address space. *)
Definition demo_vcpu : Vcpu ((Z -> Z) * Z) :=
  {| v_regs := (fun i => if i =? 0 then PSCI_VERSION else i, 2 ^ 64 - 4); v_stop := false |}.

Lemma exception_effect_witness :
  exists v', on_exception (Ok tt) (Z.shiftl 0x17 26) 0 0 demo_vcpu = (v', Ok Again) /\
    get_pc (v_regs v') = Ok 0 /\ same_x demo_vcpu v' 1 /\ get_x (v_regs v') 0 = Ok VERSION_1_1.
Proof.
  assert (Hx : forall (r : (Z -> Z) * Z) i x r', set_x r i x = Ok r' -> get_x r' i = Ok x /\
    (forall j, j <> i -> get_x r' j = get_x r j) /\ get_pc r' = get_pc r).
  { intros [xs p] i x r' [= <-]. simpl. split_and!; [by rewrite Z.eqb_refl| |done].
    intros j Hj. by destruct (Z.eqb_spec j i). }
  assert (Hp : forall (r : (Z -> Z) * Z) p r', set_pc r p = Ok r' -> get_pc r' = Ok p /\
    forall j, get_x r' j = get_x r j) by (by intros [xs p] q r' [= <-]).
  destruct (exception_effect Hx Hp (Ok tt) (Z.shiftl 0x17 26) 0 0 demo_vcpu) as [Hok H].
  assert (Ht : @regs_total _ Xfile_regs) by (intros r; by split_and!).
  specialize (Hok Ht eq_refl).
  destruct (on_exception (Ok tt) (Z.shiftl 0x17 26) 0 0 demo_vcpu) as [v' [out|]]; [|discriminate Hok].
  destruct (H v' out eq_refl) as ((x0 & x1 & x2 & x3 & H0 & _ & _ & _ & -> & Hx0) & Hpc & Hs & _).
  injection H0 as <-. exists v'. split; [reflexivity|].
  destruct Hpc as (pc & Hpc & Hnext). injection Hpc as <-. split; [exact Hnext|]. split; [exact Hs|exact Hx0].
Defined.

Lemma psci_advertises_what_it_handles_witness :
  call 0x84000050 0 0 0 = Some (Return (2 ^ 64 - 1)) /\ features 0x84000050 <> SUCCESS.
Proof.
  destruct (psci_advertises_what_it_handles 0x84000050 0 0 0 ltac:(done)) as (Hf & _ & Hn).
  assert (Hni : 0x84000050 ∉ implemented) by (apply (bool_decide_unpack _); vm_compute; exact I).
  split; [rewrite (Hn Hni); vm_compute; reflexivity|]. intros H. by apply Hni, Hf.
Defined.
