(* ===== verification/Smp.v ===== *)
(** * SMP power state

    Model of [ternvale-vmm/src/smp.rs] and of the power protocol of [own_vcpu]
    in [machine_vcpu.rs]: the table of CPU power states shared by every vCPU
    thread.  Each method runs under the table mutex, so it is one function on the
    table.  A blocking method is the function of one look at the table: [Wait]
    means the thread goes back to sleep on the condition variable.

    [VcpuStop] handles are their kernel ids.  The calls to [hv_vcpus_exit] are
    logged in [p_exits] with the kind of call, latest first. *)

From S2P Require Import Prelude Esr Psci.

Definition MPIDR_RES1 : Z := Z.shiftl 1 31.
Definition MPIDR_AFFINITY_MASK : Z := 0xff00ffffff.
Definition CLUSTER : Z := 16.

Definition mpidr (index : Z) : Z :=
  Z.lor (Z.lor MPIDR_RES1 (wrap 64 (Z.shiftl (index / CLUSTER) 8))) (index mod CLUSTER).

Definition dt_cpu_reg (index : Z) : Z := wrap 32 (Z.land (mpidr index) 0x00ffffff).

Definition gicr_affinity (mpidr : Z) : Z :=
  Z.lor (wrap 64 (Z.shiftl (Z.land (Z.shiftr mpidr 32) 0xff) 24)) (Z.land mpidr 0x00ffffff).

Inductive CpuState : Type :=
| Off
| OnPending (entry context : Z)
| On.

#[export] Instance CpuState_eq_dec : EqDecision CpuState.
Proof. solve_decision. Defined.

(** What [hv_vcpus_exit] was called for. *)
Inductive ExitCall : Type := StopAll (ids : list Z) | NudgeOne (id : Z) | NudgeAll (ids : list Z).

(** [CpuPower] with its [Table]. *)
Record CpuPower := {
  p_ram_base : Z;
  p_ram_end : Z;
  p_cpus : list CpuState;
  p_stops : list (option Z);
  p_ready : list bool;
  p_created : Z;
  p_stopping : option ExitReason;
  p_exits : list ExitCall;
}.

Definition set_cpus (l : list CpuState) (p : CpuPower) : CpuPower :=
  {| p_ram_base := p_ram_base p; p_ram_end := p_ram_end p; p_cpus := l; p_stops := p_stops p;
     p_ready := p_ready p; p_created := p_created p; p_stopping := p_stopping p; p_exits := p_exits p |}.
Definition set_stops (l : list (option Z)) (p : CpuPower) : CpuPower :=
  {| p_ram_base := p_ram_base p; p_ram_end := p_ram_end p; p_cpus := p_cpus p; p_stops := l;
     p_ready := p_ready p; p_created := p_created p; p_stopping := p_stopping p; p_exits := p_exits p |}.
Definition set_ready (l : list bool) (p : CpuPower) : CpuPower :=
  {| p_ram_base := p_ram_base p; p_ram_end := p_ram_end p; p_cpus := p_cpus p; p_stops := p_stops p;
     p_ready := l; p_created := p_created p; p_stopping := p_stopping p; p_exits := p_exits p |}.
Definition set_created (n : Z) (p : CpuPower) : CpuPower :=
  {| p_ram_base := p_ram_base p; p_ram_end := p_ram_end p; p_cpus := p_cpus p; p_stops := p_stops p;
     p_ready := p_ready p; p_created := n; p_stopping := p_stopping p; p_exits := p_exits p |}.
Definition set_stopping (r : option ExitReason) (p : CpuPower) : CpuPower :=
  {| p_ram_base := p_ram_base p; p_ram_end := p_ram_end p; p_cpus := p_cpus p; p_stops := p_stops p;
     p_ready := p_ready p; p_created := p_created p; p_stopping := r; p_exits := p_exits p |}.
Definition log_exit (e : ExitCall) (p : CpuPower) : CpuPower :=
  {| p_ram_base := p_ram_base p; p_ram_end := p_ram_end p; p_cpus := p_cpus p; p_stops := p_stops p;
     p_ready := p_ready p; p_created := p_created p; p_stopping := p_stopping p;
     p_exits := e :: p_exits p |}.

(** One look of a waiting thread. *)
Inductive poll (A : Type) : Type := Wait | Ready (a : A).
Arguments Wait {A}.
Arguments Ready {A} _.

(** ** Methods *)

Definition new (count ram_base ram_size : Z) : CpuPower :=
  let cpus := replicate (Z.to_nat count) Off in
  {| p_ram_base := ram_base; p_ram_end := saturating_add 64 ram_base ram_size;
     p_cpus := match cpus with [] => [] | _ :: rest => On :: rest end;
     p_stops := replicate (Z.to_nat count) None; p_ready := replicate (Z.to_nat count) false;
     p_created := 0; p_stopping := None; p_exits := [] |}.

Definition count (p : CpuPower) : Z := wrap 32 (Z.of_nat (length (p_cpus p))).

(** [(0..n).find(..)], scanning upwards from [i]. *)
Fixpoint find_index (target : Z) (fuel : nat) (i : Z) : option Z :=
  match fuel with
  | O => None
  | S fuel => if Z.land (mpidr i) MPIDR_AFFINITY_MASK =? target then Some i
              else find_index target fuel (i + 1)
  end.

Definition index_of (p : CpuPower) (target : Z) : option Z :=
  if negb (Z.land target (not_w 64 MPIDR_AFFINITY_MASK) =? 0) then None
  else find_index target (Z.to_nat (count p)) 0.

Definition is_stopping (p : CpuPower) : bool :=
  match p_stopping p with Some _ => true | None => false end.

Definition wait_create_turn (p : CpuPower) (index : Z) : poll bool :=
  if is_stopping p then Ready false
  else if index <=? p_created p then Ready true
  else Wait.

Definition mark_created (index : Z) (p : CpuPower) : CpuPower :=
  set_created (Z.max (p_created p) (add_w 32 index 1)) p.

Definition register (index stop : Z) (p : CpuPower) : CpuPower * bool :=
  if is_stopping p then (p, false)
  else (set_stops (update_at (p_stops p) index (fun _ => Some stop)) p, true).

Definition deregister (index : Z) (p : CpuPower) : CpuPower :=
  set_stops (update_at (p_stops p) index (fun _ => None)) p.

Definition mark_ready (index : Z) (p : CpuPower) : CpuPower :=
  set_ready (update_at (p_ready p) index (fun _ => true)) p.

Definition wait_all_ready (p : CpuPower) : poll bool :=
  if is_stopping p then Ready false
  else if forallb (fun r => r) (p_ready p) then Ready true
  else Wait.

Definition wait_for_on (index : Z) (p : CpuPower) : CpuPower * poll (option (Z * Z)) :=
  if is_stopping p then (p, Ready None)
  else match get (p_cpus p) index with
       | Some (OnPending entry context) =>
           (set_cpus (update_at (p_cpus p) index (fun _ => On)) p, Ready (Some (entry, context)))
       | _ => (p, Wait)
       end.

(** [stops.iter().flatten()]. *)
Definition registered (p : CpuPower) : list Z := omap (fun s => s) (p_stops p).

(** [VcpuStop::nudge_all] and [request_all] make no call for an empty list. *)
Definition exit_all (mk : list Z -> ExitCall) (p : CpuPower) : CpuPower :=
  match registered p with [] => p | ids => log_exit (mk ids) p end.

Definition stop_locked (reason : ExitReason) (p : CpuPower) : CpuPower :=
  let p := match p_stopping p with Some _ => p | None => set_stopping (Some reason) p end in
  exit_all StopAll p.

Definition request_stop (reason : ExitReason) (p : CpuPower) : CpuPower := stop_locked reason p.

Definition nudge (index : Z) (p : CpuPower) : CpuPower :=
  match get (p_stops p) index with
  | Some (Some id) => log_exit (NudgeOne id) p
  | _ => p
  end.

Definition nudge_all (p : CpuPower) : CpuPower := exit_all NudgeAll p.

Definition stop_reason (p : CpuPower) : option ExitReason := p_stopping p.

Definition cpu_off (index : Z) (p : CpuPower) : CpuPower :=
  let p := set_cpus (update_at (p_cpus p) index (fun _ => Off)) p in
  if forallb (fun s => bool_decide (s = Off)) (p_cpus p) then stop_locked RCpuOff p else p.

(** [None] is an out-of-bounds [table.cpus[index]]. *)
Definition cpu_on (caller target entry context : Z) (p : CpuPower) : option (CpuPower * Z) :=
  match index_of p target with
  | None => Some (p, INVALID_PARAMS)
  | Some index =>
      if negb (entry mod 4 =? 0) || (entry <? p_ram_base p) || (p_ram_end p <=? entry)
      then Some (p, INVALID_ADDRESS)
      else match get (p_cpus p) index with
           | None => None
           | Some On => Some (p, ALREADY_ON)
           | Some (OnPending _ _) => Some (p, ON_PENDING)
           | Some Off =>
               Some (set_cpus (update_at (p_cpus p) index (fun _ => OnPending entry context)) p, SUCCESS)
           end
  end.

Definition affinity_info (target level : Z) (p : CpuPower) : option Z :=
  if negb (level =? 0) then Some INVALID_PARAMS
  else match index_of p target with
       | None => Some INVALID_PARAMS
       | Some index =>
           match get (p_cpus p) index with
           | None => None
           | Some On => Some AFFINITY_ON
           | Some Off => Some AFFINITY_OFF
           | Some (OnPending _ _) => Some AFFINITY_ON_PENDING
           end
       end.

Definition handle (caller : Z) (request : PowerRequest) (p : CpuPower) : option (CpuPower * Z) :=
  match request with
  | CpuOn target entry context =>
      '(p, code) ← cpu_on caller target entry context p; Some (p, sign code)
  | AffinityInfo target level =>
      code ← affinity_info target level p; Some (p, sign code)
  end.

(** ** Affinities *)

(** The affinity of CPU [i]: Aff1 = i / 16, Aff0 = i mod 16. *)
Definition affinity (i : Z) : Z := i / 16 * 256 + i mod 16.

Lemma land_mask24 v : fits 24 v -> Z.land v MPIDR_AFFINITY_MASK = v.
Proof.
  intros Hv. apply Z.bits_inj'. intros i Hi. rewrite Z.land_spec. destruct (decide (i < 24)).
  - assert (Forall (fun i => Z.testbit MPIDR_AFFINITY_MASK i = true) (seqZ 0 24)) as Hall
      by (vm_compute; repeat constructor).
    rewrite list.Forall_forall in Hall. rewrite Hall by (apply elem_of_seqZ; lia). apply andb_true_r.
  - by rewrite (testbit_high v 24) by (done || lia).
Qed.

Lemma mpidr_affinity i : 0 <= i < 2 ^ 20 -> Z.land (mpidr i) MPIDR_AFFINITY_MASK = affinity i.
Proof.
  intros Hi. unfold mpidr, CLUSTER, affinity.
  assert (0 <= i / 16 < 2 ^ 16) by (split; [apply Z.div_pos; lia|apply Z.div_lt_upper_bound; lia]).
  pose proof (Z.mod_pos_bound i 16 ltac:(lia)).
  rewrite wrap_small by (rewrite Z.shiftl_mul_pow2 by done; unfold fits; lia).
  rewrite <- Z.lor_assoc, Z.land_lor_distr_l, lor_shiftl_add by (done || lia).
  rewrite (land_mask24 (i / 16 * 2 ^ 8 + i mod 16)) by (unfold fits; lia). by rewrite Z.lor_0_l.
Qed.

Lemma affinity_inj i j : 0 <= i -> 0 <= j -> affinity i = affinity j -> i = j.
Proof. unfold affinity. intros. Z.div_mod_to_equations. lia. Qed.

Lemma find_index_spec t fuel i k :
  find_index t fuel i = Some k <->
  i <= k < i + Z.of_nat fuel /\ Z.land (mpidr k) MPIDR_AFFINITY_MASK = t /\
  forall j, i <= j < k -> Z.land (mpidr j) MPIDR_AFFINITY_MASK <> t.
Proof.
  revert i. induction fuel as [|fuel IH]; intros i; cbn [find_index].
  { split; [done|lia]. }
  destruct (Z.eqb_spec (Z.land (mpidr i) MPIDR_AFFINITY_MASK) t) as [He|Hne].
  - split.
    + intros [= <-]. split_and!; [lia|lia|done|lia].
    + intros (Hk & Ht & Hmin). f_equal. destruct (decide (i = k)); [done|].
      exfalso. apply (Hmin i); [lia|done].
  - rewrite IH. split; intros (Hk & Ht & Hmin); (split_and!; [|lia|done|]).
    + lia.
    + intros j Hj. destruct (decide (i = j)) as [<-|]; [done|]. apply Hmin. lia.
    + destruct (decide (i = k)) as [->|]; [done|lia].
    + intros j Hj. apply Hmin. lia.
Qed.

(** ** Invariant *)

Definition pending_ok (p : CpuPower) (s : CpuState) : Prop :=
  match s with
  | OnPending entry _ => entry mod 4 = 0 /\ p_ram_base p <= entry < p_ram_end p
  | _ => True
  end.

Record power_ok (p : CpuPower) : Prop := {
  ok_count : 0 < Z.of_nat (length (p_cpus p)) <= 2 ^ 20;
  ok_stops : length (p_stops p) = length (p_cpus p);
  ok_ready : length (p_ready p) = length (p_cpus p);
  ok_pending : Forall (pending_ok p) (p_cpus p);
  ok_alive : p_stopping p = None -> Exists (fun s => s <> Off) (p_cpus p);
}.

(** The operations of the vCPU and host threads. *)
Inductive Op : Type :=
| OMarkCreated (index : Z)
| ORegister (index stop : Z)
| ODeregister (index : Z)
| OMarkReady (index : Z)
| OWaitOn (index : Z)
| OHandle (caller : Z) (request : PowerRequest)
| OCpuOff (index : Z)
| OStop (reason : ExitReason)
| ONudge (index : Z)
| ONudgeAll.

(** [None] is a panic. *)
Definition op (o : Op) (p : CpuPower) : option CpuPower :=
  match o with
  | OMarkCreated i => Some (mark_created i p)
  | ORegister i s => Some (fst (register i s p))
  | ODeregister i => Some (deregister i p)
  | OMarkReady i => Some (mark_ready i p)
  | OWaitOn i => Some (fst (wait_for_on i p))
  | OHandle c rq => fst <$> handle c rq p
  | OCpuOff i => Some (cpu_off i p)
  | OStop r => Some (request_stop r p)
  | ONudge i => Some (nudge i p)
  | ONudgeAll => Some (nudge_all p)
  end.

Fixpoint ops (l : list Op) (p : CpuPower) : option CpuPower :=
  match l with
  | [] => Some p
  | o :: l => p' ← op o p; ops l p'
  end.

Lemma count_eq p : power_ok p -> count p = Z.of_nat (length (p_cpus p)).
Proof. intros [? _ _ _ _]. apply wrap_small. unfold fits. lia. Qed.

Lemma index_of_range p t i : power_ok p -> index_of p t = Some i -> exists s, get (p_cpus p) i = Some s.
Proof.
  intros Hp. unfold index_of. destruct (negb _); [done|]. intros ([? ?] & _)%find_index_spec.
  rewrite count_eq in * by done. rewrite get_lookup by lia. apply lookup_lt_is_Some_2. lia.
Qed.

(** [index_of] finds exactly the CPU with that affinity. *)
Lemma index_of_spec p t i :
  power_ok p -> fits 64 t ->
  index_of p t = Some i <-> 0 <= i < Z.of_nat (length (p_cpus p)) /\ affinity i = t.
Proof.
  intros Hp Ht. pose proof (ok_count p Hp) as Hc. pose proof (count_eq p Hp) as Hn.
  unfold index_of. rewrite Hn, Nat2Z.id.
  destruct (Z.eqb_spec (Z.land t (not_w 64 MPIDR_AFFINITY_MASK)) 0) as [Hz|Hz]; simpl negb; cbn iota.
  - rewrite find_index_spec. split.
    + intros (Hi & Ha & _). split; [lia|]. rewrite <- Ha, mpidr_affinity by lia. done.
    + intros (Hi & <-). split_and!; [lia|lia|by apply mpidr_affinity; lia|].
      intros j Hj. rewrite mpidr_affinity by lia. intros He%affinity_inj; lia.
  - split; [done|]. intros (Hi & <-). exfalso. apply Hz.
    rewrite <- mpidr_affinity by lia. apply land_not_w_zero; [|done|].
    + rewrite mpidr_affinity by lia. unfold affinity, fits. Z.div_mod_to_equations. lia.
    + intros k Hk. rewrite Z.land_spec. by intros [_ ?]%andb_true_iff.
Qed.

Lemma update_at_Forall {A} (P : A -> Prop) l i f :
  Forall P l -> (forall x, P x -> P (f x)) -> Forall P (update_at l i f).
Proof.
  intros Hl Hf. unfold update_at. destruct (i <? 0); [done|].
  apply Forall_lookup. intros j x. rewrite list_lookup_alter. case_decide as Hj.
  - destruct (l !! _) as [y|] eqn:Hy; [|done]. intros [= <-]. apply Hf. by eapply Forall_lookup_1 in Hl.
  - intros Hx. by eapply Forall_lookup_1 in Hl.
Qed.

Lemma Exists_update {A} (P : A -> Prop) l i (f : A -> A) :
  (forall x, P x -> P (f x)) -> Exists P l -> Exists P (update_at l i f).
Proof.
  rewrite !list.Exists_exists. intros Hf (x & (j & Hj)%list_elem_of_lookup & Hx).
  unfold update_at. destruct (i <? 0); [exists x; split; [by eapply list_elem_of_lookup_2|done]|].
  destruct (decide (Z.to_nat i = j)) as [<-|Hne].
  - exists (f x). split; [|auto]. apply (list_elem_of_lookup_2 _ (Z.to_nat i)).
    by rewrite list_lookup_alter_eq, Hj.
  - exists x. split; [|done]. apply (list_elem_of_lookup_2 _ j). by rewrite list_lookup_alter_ne.
Qed.

(** Changing one CPU to a state that keeps the VM alive and is well formed. *)
Lemma set_cpu_ok p i s :
  power_ok p -> pending_ok p s -> s <> Off ->
  power_ok (set_cpus (update_at (p_cpus p) i (fun _ => s)) p).
Proof.
  intros [H1 H2 H3 H4 H5] Hs Hne. split; simpl; rewrite ?length_update_at; try done.
  - by apply update_at_Forall.
  - intros Hn. apply Exists_update; [done|auto].
Qed.

Lemma ext_ok p p' :
  p_cpus p' = p_cpus p -> length (p_stops p') = length (p_stops p) ->
  length (p_ready p') = length (p_ready p) -> p_ram_base p' = p_ram_base p ->
  p_ram_end p' = p_ram_end p -> (p_stopping p' = None -> p_stopping p = None) ->
  power_ok p -> power_ok p'.
Proof.
  intros Hc Hs Hr Hb He Hst [H1 H2 H3 H4 H5]. split; rewrite ?Hc, ?Hs, ?Hr; try done.
  - eapply Forall_impl; [|exact H4]. intros s. unfold pending_ok. by rewrite Hb, He.
  - auto.
Qed.

Lemma exit_all_ok mk p : power_ok p -> power_ok (exit_all mk p).
Proof. unfold exit_all. destruct (registered p); [done|]. by apply ext_ok. Qed.

Lemma stop_locked_ok r p :
  length (p_stops p) = length (p_cpus p) -> length (p_ready p) = length (p_cpus p) ->
  0 < Z.of_nat (length (p_cpus p)) <= 2 ^ 20 -> Forall (pending_ok p) (p_cpus p) ->
  power_ok (stop_locked r p).
Proof.
  intros. unfold stop_locked. apply exit_all_ok.
  destruct (p_stopping p) eqn:Hst; split; simpl; try done; congruence.
Qed.

Lemma stop_locked_stopping r p : is_Some (p_stopping (stop_locked r p)).
Proof. unfold stop_locked, exit_all. destruct (p_stopping p) eqn:H; simpl; case_match; simpl; eauto. Qed.

Lemma cpu_off_ok i p : power_ok p -> power_ok (cpu_off i p).
Proof.
  intros [H1 H2 H3 H4 H5]. unfold cpu_off. destruct (forallb _ _) eqn:Hall.
  - apply stop_locked_ok; simpl; rewrite ?length_update_at; try done. by apply update_at_Forall.
  - split; simpl in *; rewrite ?length_update_at; try done; [by apply update_at_Forall|].
    intros _. apply list.Exists_exists.
    destruct (decide (Forall (eq Off) (update_at (p_cpus p) i (fun _ => Off)))) as [Hf|Hf].
    + exfalso. apply not_true_iff_false in Hall. apply Hall, forallb_forall.
      intros s Hs. rewrite list.Forall_forall in Hf. apply bool_decide_eq_true_2. symmetry.
      apply Hf. by apply list_elem_of_In.
    + apply not_Forall_Exists, list.Exists_exists in Hf; [|apply _].
      destruct Hf as (s & Hs & Hne). exists s. split; [done|congruence].
Qed.

Lemma cpu_on_Some c t e x p : power_ok p -> exists p' code, cpu_on c t e x p = Some (p', code) /\ power_ok p'.
Proof.
  intros Hp. unfold cpu_on. destruct (index_of p t) as [i|] eqn:Hi; [|eauto].
  destruct (negb _ || _ || _) eqn:Hc; [eauto|].
  destruct (index_of_range p t i Hp Hi) as [s ->].
  destruct s; eauto. eexists _, _. split; [done|]. apply set_cpu_ok; [done| |done]. simpl.
  destruct (Z.eqb_spec (e mod 4) 0), (Z.ltb_spec e (p_ram_base p)), (Z.leb_spec (p_ram_end p) e);
    simpl in Hc; try done; (split; [done|lia]).
Qed.

Lemma op_total o p : power_ok p -> exists p', op o p = Some p' /\ power_ok p'.
Proof.
  intros Hp. destruct o as [i|i s|i|i|i|c [t e x|t l]|i|r|i|]; simpl; try (eexists; split; [done|]).
  - by apply (ext_ok p).
  - unfold register. destruct (is_stopping p); [done|]. apply (ext_ok p); simpl; rewrite ?length_update_at; done.
  - apply (ext_ok p); simpl; rewrite ?length_update_at; done.
  - apply (ext_ok p); simpl; rewrite ?length_update_at; done.
  - unfold wait_for_on. destruct (is_stopping p); [done|].
    destruct (get (p_cpus p) i) as [[]|]; try done. by apply set_cpu_ok.
  - destruct (cpu_on_Some c t e x p Hp) as (p' & code & -> & Hp'). simpl. eauto.
  - unfold affinity_info. destruct (negb _); [simpl; eauto|].
    destruct (index_of p t) as [i|] eqn:Hi; [|simpl; eauto].
    destruct (index_of_range p t i Hp Hi) as [s ->]. destruct s; simpl; eauto.
  - by apply cpu_off_ok.
  - destruct Hp. by apply stop_locked_ok.
  - unfold nudge. destruct (get _ _) as [[]|]; [|done..]. by apply (ext_ok p).
  - by apply exit_all_ok.
Qed.

Lemma ops_total l p : power_ok p -> exists p', ops l p = Some p' /\ power_ok p'.
Proof.
  revert p. induction l as [|o l IH]; intros p Hp; simpl; [eauto|].
  destruct (op_total o p Hp) as (p1 & -> & Hp1). simpl. by apply IH.
Qed.

Lemma new_ok n base size : 0 < n <= 2 ^ 20 -> power_ok (new n base size).
Proof.
  intros Hn. unfold new. destruct (Z.to_nat n) as [|k] eqn:Hk; [lia|].
  split; simpl; rewrite ?length_replicate; try done; try lia.
  - constructor; [done|]. apply list.Forall_forall. intros s Hs.
    apply elem_of_replicate in Hs as [-> _]. done.
  - intros _. by left.
Qed.

(** ** Properties *)

(** C4: Every operation sequence of the vCPU and host threads runs without
    panic, and at every point: the tables have one entry per CPU, every pending
    entry point is 4-byte aligned guest RAM, and a VM that is not stopping has a
    CPU that is on or about to be. *)
Theorem power_table_invariant n base size l :
  0 < n <= 2 ^ 20 -> exists p, ops l (new n base size) = Some p /\ power_ok p.
Proof. intros Hn. apply ops_total. by apply new_ok. Qed.

(** MPIDR affinities identify CPUs: each CPU is found under its own
    affinity, and any affinity that is found belongs to that CPU. *)
Theorem affinity_roundtrip p i t :
  power_ok p -> fits 64 t ->
  (0 <= i < Z.of_nat (length (p_cpus p)) ->
     index_of p (Z.land (mpidr i) MPIDR_AFFINITY_MASK) = Some i) /\
  (index_of p t = Some i -> Z.land (mpidr i) MPIDR_AFFINITY_MASK = t).
Proof.
  intros Hp Ht. pose proof (ok_count p Hp). split.
  - intros Hi. rewrite mpidr_affinity by lia. apply index_of_spec; [done| |done].
    unfold affinity, fits. Z.div_mod_to_equations. lia.
  - intros [Hi <-]%index_of_spec; [|done..]. apply mpidr_affinity. lia.
Qed.

(** CPU_ON answers: unknown target, bad entry point, already on, pending,
    or success.  Only success changes the table, and it changes the target from
    off to pending with the given entry and context. *)
Theorem cpu_on_spec p caller target entry context :
  power_ok p -> fits 64 target ->
  exists p' code, handle caller (CpuOn target entry context) p = Some (p', sign code) /\
  ((code = INVALID_PARAMS /\ p' = p /\
     forall i, 0 <= i < Z.of_nat (length (p_cpus p)) -> affinity i <> target) \/
   exists i, 0 <= i < Z.of_nat (length (p_cpus p)) /\ affinity i = target /\
     ((code = INVALID_ADDRESS /\ p' = p /\
         ~ (entry mod 4 = 0 /\ p_ram_base p <= entry < p_ram_end p)) \/
      (entry mod 4 = 0 /\ p_ram_base p <= entry < p_ram_end p /\
       ((code = ALREADY_ON /\ p' = p /\ get (p_cpus p) i = Some On) \/
        (code = ON_PENDING /\ p' = p /\ exists e c, get (p_cpus p) i = Some (OnPending e c)) \/
        (code = SUCCESS /\ get (p_cpus p) i = Some Off /\
         get (p_cpus p') i = Some (OnPending entry context) /\
         forall j, j <> i -> get (p_cpus p') j = get (p_cpus p) j))))).
Proof.
  intros Hp Ht. unfold handle, cpu_on. destruct (index_of p target) as [i|] eqn:Hi.
  - destruct (index_of_range p target i Hp Hi) as [s Hs].
    apply index_of_spec in Hi as [Hir Ha]; [|done..].
    destruct (negb _ || _ || _) eqn:Hc.
    + eexists p, _. split; [done|]. right. exists i. split; [done|]. split; [done|]. left.
      split; [done|]. split; [done|]. intros (He & Hr). destruct (Z.eqb_spec (entry mod 4) 0), (Z.ltb_spec entry (p_ram_base p)),
        (Z.leb_spec (p_ram_end p) entry); simpl in Hc; try done; lia.
    + rewrite Hs.
      assert (entry mod 4 = 0 /\ p_ram_base p <= entry < p_ram_end p) as [He Hr].
      { destruct (Z.eqb_spec (entry mod 4) 0), (Z.ltb_spec entry (p_ram_base p)),
          (Z.leb_spec (p_ram_end p) entry); simpl in Hc; try done; lia. }
      destruct s as [|e c|]; eexists _, _; (split; [done|]); right; exists i;
        (split; [done|]); (split; [done|]); right; (split; [done|]); (split; [done|]).
      * right; right. simpl. split_and!; [done|done|by rewrite get_update_at, decide_True, Hs by done|].
        intros j Hj. by rewrite get_update_at, decide_False.
      * right; left. eauto.
      * left. eauto.
  - eexists p, _. split; [done|]. left. split_and!; [done..|]. intros i Hir Ha.
    assert (index_of p target = Some i) by (by apply index_of_spec). congruence.
Qed.

(** The operations with which CPU [i] itself leaves the pending state. *)
Definition owns (i : Z) (o : Op) : Prop := o = OWaitOn i \/ o = OCpuOff i.

Lemma exit_all_cpus mk p : p_cpus (exit_all mk p) = p_cpus p /\ p_stopping (exit_all mk p) = p_stopping p.
Proof. unfold exit_all. by destruct (registered p). Qed.

Lemma stop_locked_cpus r p : p_cpus (stop_locked r p) = p_cpus p.
Proof. unfold stop_locked. destruct (p_stopping p); by rewrite (proj1 (exit_all_cpus _ _)). Qed.

Lemma stop_locked_first r p :
  p_stopping (stop_locked r p) = match p_stopping p with Some first => Some first | None => Some r end.
Proof. unfold stop_locked. destruct (p_stopping p) eqn:H; by rewrite (proj2 (exit_all_cpus _ _)). Qed.

(** Only the CPU itself changes a pending state. *)
Lemma op_pending o p p' i e c :
  op o p = Some p' -> ~ owns i o -> get (p_cpus p) i = Some (OnPending e c) ->
  get (p_cpus p') i = Some (OnPending e c).
Proof.
  intros Ho Hown Hi. destruct o as [j|j s|j|j|j|k [t e' x|t l]|j|r|j|]; simpl in Ho; simplify_eq; try done.
  - unfold register. by destruct (is_stopping p).
  - unfold wait_for_on. destruct (is_stopping p); [done|]. destruct (get (p_cpus p) j) as [[]|] eqn:Hj; try done.
    simpl. rewrite get_update_at, decide_False; [done|]. intros ->. apply Hown. by left.
  - unfold cpu_on in Ho. destruct (index_of p t) as [j|]; [|by simplify_eq/=].
    destruct (_ || _); [by simplify_eq/=|]. destruct (get (p_cpus p) j) as [[]|] eqn:Hj; simplify_eq/=; try done.
    rewrite get_update_at, decide_False; [done|]. intros ->. congruence.
  - destruct (affinity_info t l p); by simplify_eq/=.
  - unfold cpu_off. assert (j <> i) by (intros ->; apply Hown; by right).
    case_match; rewrite ?stop_locked_cpus; simpl; by rewrite get_update_at, decide_False.
  - unfold request_stop. by rewrite stop_locked_cpus.
  - unfold nudge. by destruct (get (p_stops p) j) as [[]|].
  - unfold nudge_all. by rewrite (proj1 (exit_all_cpus _ _)).
Qed.

(** A CPU_ON is not lost: whatever the other threads do before the target
    looks, the target is still pending with the caller's entry point and
    context, and its next look takes exactly those and marks it on (or tells it
    that the VM stops). *)
Theorem cpu_on_handover p l p' i e c :
  get (p_cpus p) i = Some (OnPending e c) -> Forall (fun o => ~ owns i o) l -> ops l p = Some p' ->
  get (p_cpus p') i = Some (OnPending e c) /\
  let '(p'', r) := wait_for_on i p' in
  if is_stopping p' then r = Ready None /\ p'' = p'
  else r = Ready (Some (e, c)) /\ get (p_cpus p'') i = Some On.
Proof.
  intros Hi Hall. revert p Hi. induction Hall as [|o l Ho _ IH]; intros p Hi Hops; simpl in Hops.
  - injection Hops as ->. split; [done|]. unfold wait_for_on. destruct (is_stopping p') eqn:Hs; [done|].
    rewrite Hi. simpl. split; [done|]. by rewrite get_update_at, decide_True, Hi.
  - destruct (op o p) as [p1|] eqn:Hop; [|done]. simpl in Hops. apply (IH p1); [|done].
    by eapply op_pending.
Qed.

Lemma op_stopping o p p' r : op o p = Some p' -> p_stopping p = Some r -> p_stopping p' = Some r.
Proof.
  intros Ho Hr. destruct o as [j|j s|j|j|j|k [t e' x|t l]|j|r'|j|]; simpl in Ho; simplify_eq; try done.
  - unfold register. by destruct (is_stopping p).
  - unfold wait_for_on. destruct (is_stopping p); [done|]. by destruct (get (p_cpus p) j) as [[]|].
  - unfold cpu_on in Ho. repeat case_match; by simplify_eq/=.
  - destruct (affinity_info t l p); by simplify_eq/=.
  - unfold cpu_off. case_match; rewrite ?stop_locked_first; simpl; by rewrite ?Hr.
  - unfold request_stop. by rewrite stop_locked_first, Hr.
  - unfold nudge. by destruct (get (p_stops p) j) as [[]|].
  - unfold nudge_all. by rewrite (proj2 (exit_all_cpus _ _)).
Qed.

(** Stopping is final.  The first reason wins over every later request,
    every registered vCPU is asked to leave the guest in one call, and from then
    on no thread can block: each of the three waits returns at its next look,
    telling its caller to stop. *)
Theorem stop_is_final p reason l p' :
  p_stopping p = None -> ops l (request_stop reason p) = Some p' ->
  p_stopping p' = Some reason /\
  (registered p <> [] -> p_exits (request_stop reason p) = StopAll (registered p) :: p_exits p) /\
  forall i, wait_create_turn p' i = Ready false /\ wait_all_ready p' = Ready false /\
    wait_for_on i p' = (p', Ready None).
Proof.
  intros Hn Hops.
  assert (Hst : p_stopping p' = Some reason).
  { assert (H0 : p_stopping (request_stop reason p) = Some reason)
      by (unfold request_stop; by rewrite stop_locked_first, Hn).
    revert H0 Hops. generalize (request_stop reason p). induction l as [|o l IH]; intros p1 H1 Hops.
    - by injection Hops as <-.
    - simpl in Hops. destruct (op o p1) as [p2|] eqn:Ho; [|done]. apply (IH p2); [|done].
      by eapply op_stopping. }
  split_and!; [done| |].
  - intros Hr. unfold request_stop, stop_locked, exit_all. rewrite Hn.
    unfold registered in *. simpl. by destruct (omap _ (p_stops p)).
  - intros i. unfold wait_create_turn, wait_all_ready, wait_for_on, is_stopping. by rewrite Hst.
Qed.

(** ** Creating vCPUs in index order ([own_vcpu]) *)

(** Where CPU [i]'s thread is in [own_vcpu] up to [mark_created]. *)
Inductive boot_pc : Type :=
| BWaiting                    (* in wait_create_turn *)
| BTurn                       (* about to call hv_vcpu_create *)
| BCreated (id : Z)           (* created, mark_created not yet called *)
| BMarked (id : Z)            (* past mark_created *)
| BGone.                      (* the VM stopped first *)

(** [bt_next] is the id the hypervisor hands out next. *)
Record boot := { bt_power : CpuPower; bt_next : Z; bt_pcs : list boot_pc }.

Definition bt_set (i : nat) (pc : boot_pc) (b : boot) : boot :=
  {| bt_power := bt_power b; bt_next := bt_next b; bt_pcs := <[i := pc]> (bt_pcs b) |}.

Inductive boot_step : boot -> boot -> Prop :=
| boot_turn b i :
    bt_pcs b !! i = Some BWaiting -> wait_create_turn (bt_power b) (Z.of_nat i) = Ready true ->
    boot_step b (bt_set i BTurn b)
| boot_gone b i :
    bt_pcs b !! i = Some BWaiting -> wait_create_turn (bt_power b) (Z.of_nat i) = Ready false ->
    boot_step b (bt_set i BGone b)
| boot_create b i :
    bt_pcs b !! i = Some BTurn ->
    boot_step b {| bt_power := bt_power b; bt_next := bt_next b + 1;
                   bt_pcs := <[i := BCreated (bt_next b)]> (bt_pcs b) |}
| boot_mark b i id :
    bt_pcs b !! i = Some (BCreated id) ->
    boot_step b {| bt_power := mark_created (Z.of_nat i) (bt_power b); bt_next := bt_next b;
                   bt_pcs := <[i := BMarked id]> (bt_pcs b) |}
(* every other operation on the table, by any thread *)
| boot_other b o p' :
    (forall i, o <> OMarkCreated i) -> op o (bt_power b) = Some p' ->
    boot_step b {| bt_power := p'; bt_next := bt_next b; bt_pcs := bt_pcs b |}.

Inductive boot_reachable (n : Z) (base size : Z) : boot -> Prop :=
| boot_start : boot_reachable n base size
    {| bt_power := new n base size; bt_next := 0; bt_pcs := replicate (Z.to_nat n) BWaiting |}
| boot_next b b' : boot_reachable n base size b -> boot_step b b' -> boot_reachable n base size b'.

(** CPUs below [created] are marked with their own index; at [created] one may
    be creating; above it nobody has a turn. *)
Record boot_inv (b : boot) : Prop := {
  bi_range : 0 <= p_created (bt_power b) <= Z.of_nat (length (bt_pcs b));
  bi_size : Z.of_nat (length (bt_pcs b)) <= 2 ^ 20;
  bi_pcs : forall i pc, bt_pcs b !! i = Some pc ->
    match pc with
    | BMarked id => Z.of_nat i < p_created (bt_power b) /\ id = Z.of_nat i
    | BCreated id => Z.of_nat i = p_created (bt_power b) /\ id = Z.of_nat i /\ bt_next b = id + 1
    | BTurn => Z.of_nat i = p_created (bt_power b) /\ bt_next b = Z.of_nat i
    | BWaiting | BGone => p_created (bt_power b) <= Z.of_nat i
    end;
  bi_next : (exists i id, bt_pcs b !! i = Some (BCreated id)) \/ bt_next b = p_created (bt_power b);
}.

Lemma op_created o p p' :
  op o p = Some p' -> (forall i, o <> OMarkCreated i) -> p_created p' = p_created p.
Proof.
  intros Ho Hn. destruct o as [j|j s|j|j|j|k [t e' x|t l]|j|r'|j|]; simpl in Ho; simplify_eq; try done.
  - by destruct (Hn j).
  - unfold register. by destruct (is_stopping p).
  - unfold wait_for_on. destruct (is_stopping p); [done|]. by destruct (get (p_cpus p) j) as [[]|].
  - unfold cpu_on in Ho. repeat case_match; by simplify_eq/=.
  - destruct (affinity_info t l p); by simplify_eq/=.
  - unfold cpu_off, stop_locked, exit_all. repeat case_match; done.
  - unfold request_stop, stop_locked, exit_all. repeat case_match; done.
  - unfold nudge. by destruct (get (p_stops p) j) as [[]|].
  - unfold nudge_all, exit_all. by repeat case_match.
Qed.

(** Case on whether a looked-up thread is the one that moved. *)
Ltac stepped H := apply list_lookup_insert_Some in H as [(<- & <- & _)|[? H]].

Lemma wait_turn_true p i : wait_create_turn p i = Ready true -> i <= p_created p.
Proof. unfold wait_create_turn. repeat case_match; try done. lia. Qed.

Lemma boot_mark_inv b i id :
  bt_pcs b !! i = Some (BCreated id) -> boot_inv b ->
  boot_inv {| bt_power := mark_created (Z.of_nat i) (bt_power b); bt_next := bt_next b;
              bt_pcs := <[i := BMarked id]> (bt_pcs b) |}.
Proof.
  intros Hi [Hr Hs Hp Hn]. destruct (Hp i _ Hi) as (Hic & -> & Hnext).
  assert (Hlen : (i < length (bt_pcs b))%nat) by (by eapply lookup_lt_Some).
  assert (Hc : p_created (mark_created (Z.of_nat i) (bt_power b)) = Z.of_nat i + 1).
  { simpl. unfold add_w. rewrite wrap_small by (unfold fits; lia). lia. }
  split; cbn [bt_power bt_next bt_pcs]; rewrite ?length_insert, ?Hc; try lia.
  intros j pc Hj. stepped Hj; [lia|]. pose proof (Hp j pc Hj) as H'.
  destruct pc; try lia; destruct (decide (j = i)) as [->|]; try done; lia.
Qed.

Lemma boot_create_inv b i :
  bt_pcs b !! i = Some BTurn -> boot_inv b ->
  boot_inv {| bt_power := bt_power b; bt_next := bt_next b + 1;
              bt_pcs := <[i := BCreated (bt_next b)]> (bt_pcs b) |}.
Proof.
  intros Hi [Hr Hs Hp Hn]. destruct (Hp i _ Hi) as (Hic & Hnext).
  assert (Hlen : (i < length (bt_pcs b))%nat) by (by eapply lookup_lt_Some).
  split; simpl; rewrite ?length_insert; try lia.
  - intros j pc Hj. stepped Hj; [lia|]. pose proof (Hp j pc Hj) as H'. destruct pc; lia.
  - left. exists i, (bt_next b). by apply list_lookup_insert_eq.
Qed.

Lemma boot_step_inv b b' : boot_inv b -> boot_step b b' -> boot_inv b'.
Proof.
  intros Hinv Hstep. destruct Hstep as [b i Hi Ht|b i Hi Ht|b i Hi|b i id Hi|b o p' Ho Hop].
  - apply wait_turn_true in Ht. destruct Hinv as [Hr Hs Hp Hn]. pose proof (Hp i _ Hi) as Hge. simpl in Hge.
    assert (Hnext : bt_next b = p_created (bt_power b)).
    { destruct Hn as [(j & id & Hj)|]; [|done]. destruct (Hp j _ Hj) as (Hjc & _).
      assert (j = i) as -> by lia. congruence. }
    split; simpl; rewrite ?length_insert; try done; [|by right].
    intros j pc Hj. stepped Hj; [lia|]. exact (Hp j pc Hj).
  - destruct Hinv as [Hr Hs Hp Hn]. split; simpl; rewrite ?length_insert; try done.
    + intros j pc Hj. stepped Hj; [exact (Hp i _ Hi)|]. exact (Hp j pc Hj).
    + destruct Hn as [(j & id & Hj)|]; [left|by right]. exists j, id.
      rewrite list_lookup_insert_ne; [done|]. intros ->. congruence.
  - by apply boot_create_inv.
  - by apply boot_mark_inv.
  - apply op_created in Hop; [|done]. destruct Hinv as [Hr Hs Hp Hn].
    split; simpl; rewrite ?Hop; done.
Qed.

Lemma boot_reachable_inv n base size b : 0 < n <= 2 ^ 20 -> boot_reachable n base size b -> boot_inv b.
Proof.
  intros Hn. induction 1 as [|b b' _ IH Hs]; [|by eapply boot_step_inv].
  split; simpl; rewrite ?length_replicate; [lia|lia| |by right].
  intros i pc [-> _]%lookup_replicate. lia.
Qed.

(** VCPU ids are CPU indices: whatever the interleaving of the vCPU threads'
    start-up with each other and with any other operation on the table, every
    vCPU the hypervisor creates gets the index of its CPU as id. *)
Theorem vcpu_id_is_cpu_index n base size b i id :
  0 < n <= 2 ^ 20 -> boot_reachable n base size b ->
  bt_pcs b !! i = Some (BCreated id) \/ bt_pcs b !! i = Some (BMarked id) -> id = Z.of_nat i.
Proof.
  intros Hn Hr Hi. destruct (boot_reachable_inv n base size b Hn Hr) as [_ _ Hp _].
  destruct Hi as [Hi|Hi]; pose proof (Hp i _ Hi) as H; simpl in H; lia.
Qed.

(** *** A machine with four CPUs *)

Definition demo_power : CpuPower := new 4 0x40000000 0x10000000.

Lemma demo_power_ok : power_ok demo_power.
Proof. by apply new_ok. Qed.

Lemma power_table_invariant_witness :
  exists p, ops [OHandle 0 (CpuOn 1 0x40001000 7); OWaitOn 1; OCpuOff 0; OCpuOff 1] demo_power = Some p /\
    power_ok p /\ stop_reason p = Some RCpuOff.
Proof.
  destruct (power_table_invariant 4 0x40000000 0x10000000
    [OHandle 0 (CpuOn 1 0x40001000 7); OWaitOn 1; OCpuOff 0; OCpuOff 1] ltac:(lia)) as (p & Hp & Hok).
  exists p. split; [exact Hp|]. split; [exact Hok|]. vm_compute in Hp. injection Hp as <-. reflexivity.
Defined.

Lemma affinity_roundtrip_witness :
  index_of (new 20 0 0) (Z.land (mpidr 17) MPIDR_AFFINITY_MASK) = Some 17 /\ Z.land (mpidr 17) MPIDR_AFFINITY_MASK = 0x101.
Proof.
  split; [|reflexivity].
  apply (affinity_roundtrip (new 20 0 0) 17 0 (new_ok 20 0 0 ltac:(lia)) ltac:(done)). simpl. lia.
Defined.

Lemma cpu_on_spec_witness :
  exists p', handle 0 (CpuOn 2 0x40001000 7) demo_power = Some (p', 0) /\
    get (p_cpus p') 2 = Some (OnPending 0x40001000 7).
Proof.
  destruct (cpu_on_spec demo_power 0 2 0x40001000 7 demo_power_ok ltac:(done)) as (p' & code & Hh & Hc).
  exists p'. assert (Hcode : sign code = 0).
  { assert (Hx : snd <$> handle 0 (CpuOn 2 0x40001000 7) demo_power = Some 0) by (vm_compute; reflexivity).
    rewrite Hh in Hx. injection Hx as Hx. exact Hx. }
  rewrite Hcode in Hh. split; [exact Hh|].
  destruct Hc as [(-> & _)|(i & Hi & Ha & Hc)]; [discriminate Hcode|].
  assert (i = 2) as -> by (apply affinity_inj; [lia|lia|exact Ha]).
  destruct Hc as [(-> & _)|(_ & _ & [(-> & _)|[(-> & _)|(_ & _ & H & _)]])]; try discriminate Hcode. exact H.
Defined.

Definition demo_pending : CpuPower := set_cpus [On; OnPending 0x40001000 7; Off; Off] demo_power.

Lemma cpu_on_handover_witness :
  exists p', handle 0 (CpuOn 1 0x40001000 7) demo_power = Some (demo_pending, 0) /\
    ops [OHandle 0 (CpuOn 1 0x40002000 8); OCpuOff 0; ONudgeAll] demo_pending = Some p' /\
    get (p_cpus p') 1 = Some (OnPending 0x40001000 7).
Proof.
  destruct (ops [OHandle 0 (CpuOn 1 0x40002000 8); OCpuOff 0; ONudgeAll] demo_pending) as [p'|] eqn:Hops;
    [|vm_compute in Hops; discriminate Hops].
  exists p'. split; [vm_compute; reflexivity|]. split; [reflexivity|].
  refine (proj1 (cpu_on_handover demo_pending _ _ 1 0x40001000 7 eq_refl _ Hops)).
  repeat constructor; intros [H|H]; discriminate H.
Defined.

Lemma stop_is_final_witness :
  exists p', ops [OStop RCpuOff; OCpuOff 0] (request_stop RSystemReset demo_power) = Some p' /\
    stop_reason p' = Some RSystemReset /\ wait_all_ready p' = Ready false.
Proof.
  destruct (ops_total [OStop RCpuOff; OCpuOff 0] (request_stop RSystemReset demo_power)) as (p' & Hp & _).
  { destruct demo_power_ok. by apply stop_locked_ok. }
  destruct (stop_is_final demo_power RSystemReset [OStop RCpuOff; OCpuOff 0] p' eq_refl Hp) as (H1 & _ & H2).
  exists p'. split; [exact Hp|]. split; [exact H1|]. apply (H2 0).
Defined.

Lemma vcpu_id_is_cpu_index_witness :
  exists b, boot_reachable 2 0 0 b /\ bt_pcs b !! 0%nat = Some (BMarked 0) /\ 0 = Z.of_nat 0.
Proof.
  set (b := {| bt_power := mark_created 0 (new 2 0 0); bt_next := 1; bt_pcs := [BMarked 0; BWaiting] |}).
  assert (Hr : boot_reachable 2 0 0 b).
  { set (b0 := {| bt_power := new 2 0 0; bt_next := 0; bt_pcs := [BWaiting; BWaiting] |}).
    set (b1 := bt_set 0 BTurn b0).
    set (b2 := {| bt_power := new 2 0 0; bt_next := 1; bt_pcs := [BCreated 0; BWaiting] |}).
    apply (boot_next 2 0 0 b2); [apply (boot_next 2 0 0 b1); [apply (boot_next 2 0 0 b0)|]|].
    - exact (boot_start 2 0 0).
    - exact (boot_turn b0 0 eq_refl eq_refl).
    - exact (boot_create b1 0 eq_refl).
    - exact (boot_mark b2 0 0 eq_refl). }
  exists b. split; [exact Hr|]. split; [reflexivity|].
  apply (vcpu_id_is_cpu_index 2 0 0 b 0 0 ltac:(lia) Hr). by right.
Defined.
