(* ===== verification/PciConfig.v ===== *)
(** * PCI configuration space

    Model of [ternvale-vmm/src/pci/config.rs] and [pci/capability.rs], with
    [Bdf] and [PciError] of [pci.rs]: 256 bytes of type 0 config space, the
    per-byte masks of the bits a guest may change, the declared BARs, and the
    capability list.

    [ConfigSpace] keeps the Rust fields.  Bytes outside the array are
    handled as the code handles them: reads give 0, guest writes stop, [put]
    truncates.  The walk of [capabilities] is a [while] loop over guest-visible
    pointers and takes fuel; [capabilities_some] shows 64 always suffices. *)

From stdpp Require Import strings.
From S2P Require Import Prelude MmioBus.

(** ** Data *)

Definition CONFIG_SPACE_SIZE : nat := 256.
Definition COMMAND : nat := 0x04.
Definition STATUS : nat := 0x06.
Definition CAP_PTR : nat := 0x34.
Definition INTERRUPT_LINE : nat := 0x3c.
Definition INTERRUPT_PIN : nat := 0x3d.
Definition COMMAND_MEMORY : Z := Z.shiftl 1 1.
Definition COMMAND_INTX_DISABLE : Z := Z.shiftl 1 10.
Definition STATUS_INTERRUPT : Z := Z.shiftl 1 3.
Definition STATUS_CAP_LIST : Z := Z.shiftl 1 4.
Definition BAR0 : nat := 0x10.
Definition BARS : nat := 6.
Definition FIRST_CAP : nat := 0x40.
Definition COMMAND_WRITABLE : Z := 0x0546.
Definition CAP_SPACE_START : Z := 0x40.

Record Bdf := { bdf_bus : Z; bdf_device : Z; bdf_function : Z }.

Definition bdf_new (device : Z) : Bdf :=
  {| bdf_bus := 0; bdf_device := device; bdf_function := 0 |}.
(** [Bdf::devfn]; the shift is on a [u8]. *)
Definition devfn (b : Bdf) : Z :=
  Z.lor (wrap 8 (Z.shiftl (bdf_device b) 3)) (Z.land (bdf_function b) 7).

Record Header := {
  h_vendor_id : Z; h_device_id : Z; h_class_code : Z; h_revision : Z;
  h_subsystem_vendor_id : Z; h_subsystem_id : Z; h_interrupt_pin : Z;
}.

Inductive BarKind := Mem32 | Mem64.
#[export] Instance BarKind_eq_dec : EqDecision BarKind.
Proof. solve_decision. Defined.
Record Bar := { bar_size : Z; bar_kind : BarKind; prefetchable : bool }.
Inductive BarSlot := SlotEmpty | SlotBar (b : Bar) | SlotUpper.

Inductive PciError : Type :=
| BusFull
| BarIndex (index : nat) (kind : BarKind)
| BarSize (size : Z) (kind : BarKind)
| BarTaken (index : nat)
| CapabilitySpace (id : Z) (len : nat)
| CapabilityList (offset : Z) (reason : string)
| Build (bdf : Bdf) (reason : string)
| Mmio (e : MmioError).

Record ConfigSpace := {
  cs_data : list Z;
  cs_wmask : list Z;
  cs_bars : list BarSlot;
  cs_next_cap : nat;
  cs_last_cap : option nat;
}.

Record Capability := { cap_offset : Z; cap_id : Z; cap_next : Z }.

Definition set_data (c : ConfigSpace) (d : list Z) : ConfigSpace :=
  {| cs_data := d; cs_wmask := cs_wmask c; cs_bars := cs_bars c;
     cs_next_cap := cs_next_cap c; cs_last_cap := cs_last_cap c |}.
Definition set_wmask (c : ConfigSpace) (m : list Z) : ConfigSpace :=
  {| cs_data := cs_data c; cs_wmask := m; cs_bars := cs_bars c;
     cs_next_cap := cs_next_cap c; cs_last_cap := cs_last_cap c |}.
Definition set_bars (c : ConfigSpace) (b : list BarSlot) : ConfigSpace :=
  {| cs_data := cs_data c; cs_wmask := cs_wmask c; cs_bars := b;
     cs_next_cap := cs_next_cap c; cs_last_cap := cs_last_cap c |}.

(** ** Raw bytes *)

(** [ConfigSpace::put]. *)
Definition put (c : ConfigSpace) (offset : nat) (bytes : list Z) : ConfigSpace :=
  let e := Nat.min (offset + length bytes) CONFIG_SPACE_SIZE in
  if (offset <? e)%nat
  then set_data c (list_inserts offset (take (e - offset) bytes) (cs_data c))
  else c.

(** [self.wmask[at..at + n].copy_from_slice(bytes)]; every use is in range. *)
Definition put_mask (c : ConfigSpace) (offset : nat) (bytes : list Z) : ConfigSpace :=
  set_wmask c (list_inserts offset bytes (cs_wmask c)).

Definition set_bytes (c : ConfigSpace) (offset : nat) (bytes : list Z) : ConfigSpace :=
  put c offset bytes.

Definition bytes (c : ConfigSpace) (offset len : nat) : list Z :=
  let e := Nat.min (offset + len) CONFIG_SPACE_SIZE in
  let s := Nat.min offset e in
  take (e - s) (drop s (cs_data c)).

(** ** Guest accesses *)

(** [self.data.get(at).copied().unwrap_or(0)]. *)
Definition byte_at (l : list Z) (at_ : nat) : Z := default 0 (l !! at_).

Definition read (c : ConfigSpace) (offset size : Z) : Z :=
  let start := Z.to_nat offset in
  fold_left
    (fun value i =>
       Z.lor value (Z.shiftl (byte_at (cs_data c) (start + i)) (8 * Z.of_nat i)))
    (seq 0 (Z.to_nat (Z.min size 4))) 0.

(** The write loop from byte [i], [n] bytes to go. *)
Fixpoint write_loop (c : ConfigSpace) (start : nat) (value : Z) (i n : nat) : ConfigSpace :=
  match n with
  | O => c
  | S n' =>
      match cs_wmask c !! (start + i)%nat with
      | None => c
      | Some mask =>
          let byte := wrap 8 (Z.shiftr value (8 * Z.of_nat i)) in
          let old := byte_at (cs_data c) (start + i) in
          let byte' := Z.lor (Z.land old (not_w 8 mask)) (Z.land byte mask) in
          write_loop (set_data c (<[(start + i)%nat := byte']> (cs_data c)))
                     start value (S i) n'
      end
  end.

Definition write (c : ConfigSpace) (offset size value : Z) : ConfigSpace :=
  write_loop c (Z.to_nat offset) value 0 (Z.to_nat (Z.min size 4)).

Definition u16_at (c : ConfigSpace) (offset : nat) : Z :=
  wrap 16 (read c (wrap 16 (Z.of_nat offset)) 2).
Definition u32_at (c : ConfigSpace) (offset : nat) : Z :=
  read c (wrap 16 (Z.of_nat offset)) 4.

Definition command (c : ConfigSpace) : Z := u16_at c COMMAND.
Definition memory_enabled (c : ConfigSpace) : bool :=
  negb (Z.land (command c) COMMAND_MEMORY =? 0).
Definition intx_disabled (c : ConfigSpace) : bool :=
  negb (Z.land (command c) COMMAND_INTX_DISABLE =? 0).

(** ** Construction *)

Definition new (header : Header) : ConfigSpace :=
  let space := {| cs_data := replicate CONFIG_SPACE_SIZE 0;
                  cs_wmask := replicate CONFIG_SPACE_SIZE 0;
                  cs_bars := replicate BARS SlotEmpty;
                  cs_next_cap := FIRST_CAP; cs_last_cap := None |} in
  let space := put space 0x00 (le_bytes 2 (h_vendor_id header)) in
  let space := put space 0x02 (le_bytes 2 (h_device_id header)) in
  let space := set_data space (<[0x08%nat := h_revision header]> (cs_data space)) in
  let space := put space 0x09 (take 3 (le_bytes 4 (h_class_code header))) in
  let space := put space 0x2c (le_bytes 2 (h_subsystem_vendor_id header)) in
  let space := put space 0x2e (le_bytes 2 (h_subsystem_id header)) in
  let space := set_data space (<[INTERRUPT_PIN := h_interrupt_pin header]> (cs_data space)) in
  let space := put_mask space COMMAND (le_bytes 2 COMMAND_WRITABLE) in
  let space := set_wmask space (<[0x0c%nat := 0xff]> (cs_wmask space)) in
  let space := set_wmask space (<[0x0d%nat := 0xff]> (cs_wmask space)) in
  set_wmask space (<[INTERRUPT_LINE := 0xff]> (cs_wmask space)).

Definition bar_regs (kind : BarKind) : nat := match kind with Mem64 => 2 | Mem32 => 1 end.
Definition bar_max (kind : BarKind) : Z :=
  match kind with Mem64 => Z.shiftl 1 63 | Mem32 => Z.shiftl 1 31 end.
Definition bar_flags (b : Bar) : Z :=
  Z.lor (match bar_kind b with Mem64 => 4 | Mem32 => 0 end)
        (if prefetchable b then 8 else 0).
(** [!(bar.size - 1)] and the mask words of the BAR's registers. *)
Definition address_mask (b : Bar) : Z := not_w 64 (bar_size b - 1).
Definition low_mask (b : Bar) : Z := Z.land (wrap 32 (address_mask b)) (not_w 32 0xf).
Definition high_mask (b : Bar) : Z := wrap 32 (Z.shiftr (address_mask b) 32).
Definition bar_reg (index : nat) : nat := BAR0 + index * 4.

Definition slot_used (c : ConfigSpace) (i : nat) : option nat :=
  match cs_bars c !! i with Some SlotEmpty | None => None | Some _ => Some i end.

Definition add_bar (c : ConfigSpace) (index : nat) (b : Bar) : result PciError ConfigSpace :=
  let kind := bar_kind b in
  let regs := bar_regs kind in
  if (BARS <? index + regs)%nat then Err (BarIndex index kind)
  else if (bar_size b <? 16) || (bar_max kind <? bar_size b) || negb (is_power_of_two (bar_size b))
  then Err (BarSize (bar_size b) kind)
  else match find_map (slot_used c) (seq index regs) with
       | Some taken => Err (BarTaken taken)
       | None =>
           let reg := bar_reg index in
           let c := put c reg (le_bytes 4 (bar_flags b)) in
           let c := put_mask c reg (le_bytes 4 (low_mask b)) in
           let c := set_bars c (<[index := SlotBar b]> (cs_bars c)) in
           match kind with
           | Mem64 =>
               let high := (reg + 4)%nat in
               let c := put_mask c high (le_bytes 4 (high_mask b)) in
               Ok (set_bars c (<[S index := SlotUpper]> (cs_bars c)))
           | Mem32 => Ok c
           end
       end.

(** The bytes of a new entry at [offset]: id, next pointer, body and its mask. *)
Definition put_entry (c : ConfigSpace) (offset : nat) (id : Z) (body body_wmask : list Z) : ConfigSpace :=
  let c := set_data c (<[offset := id]> (cs_data c)) in
  let c := set_data c (<[S offset := 0]> (cs_data c)) in
  let c := put c (offset + 2) body in
  put_mask c (offset + 2) body_wmask.

(** The byte that must point at the next entry. *)
Definition link_at (c : ConfigSpace) : nat :=
  match cs_last_cap c with Some prev => S prev | None => CAP_PTR end.

(** Set status bit 4. *)
Definition put_status (c : ConfigSpace) : ConfigSpace :=
  put c STATUS (le_bytes 2 (Z.lor (u16_at c STATUS) STATUS_CAP_LIST)).

Definition add_capability (c : ConfigSpace) (id : Z) (body body_wmask : list Z)
  : result PciError (Z * ConfigSpace) :=
  let len := (2 + length body)%nat in
  let offset := cs_next_cap c in
  if (CONFIG_SPACE_SIZE <? offset + len)%nat || (length body <? length body_wmask)%nat
  then Err (CapabilitySpace id len)
  else
    let c := put_entry c offset id body body_wmask in
    let c := set_data c (<[link_at c := wrap 8 (Z.of_nat offset)]> (cs_data c)) in
    let c := put_status c in
    Ok (wrap 8 (Z.of_nat offset),
        {| cs_data := cs_data c; cs_wmask := cs_wmask c; cs_bars := cs_bars c;
           cs_next_cap := Nat.ldiff (offset + len + 3) 3; cs_last_cap := Some offset |}).

(** ** BARs *)

Definition bar (c : ConfigSpace) (index : nat) : option Bar :=
  match cs_bars c !! index with Some (SlotBar b) => Some b | _ => None end.

Definition bar_address (c : ConfigSpace) (index : nat) : option Z :=
  b ← bar c index;
  let reg := bar_reg index in
  let low := Z.land (u32_at c reg) (not_w 32 0xf) in
  let high := match bar_kind b with Mem32 => 0 | Mem64 => u32_at c (reg + 4) end in
  Some (Z.lor (Z.shiftl high 32) low).

Definition set_bar_address (c : ConfigSpace) (index : nat) (address : Z) : ConfigSpace :=
  match bar c index with
  | None => c
  | Some b =>
      let address := Z.land address (not_w 64 (bar_size b - 1)) in
      let reg := bar_reg index in
      let flags := Z.land (u32_at c reg) 0xf in
      let c := put c reg (le_bytes 4 (Z.lor (wrap 32 address) flags)) in
      match bar_kind b with
      | Mem64 => put c (reg + 4) (le_bytes 4 (wrap 32 (Z.shiftr address 32)))
      | Mem32 => c
      end
  end.

Definition decoded_bars (c : ConfigSpace) : list (nat * Z * Z) :=
  if negb (memory_enabled c) then []
  else omap (fun index =>
               b ← bar c index;
               base ← bar_address c index;
               if base =? 0 then None else Some (index, base, bar_size b))
            (seq 0 BARS).

(** ** Capabilities *)

(** [ConfigSpace::capabilities]' loop; [None] is out of fuel. *)
Fixpoint cap_walk (fuel : nat) (c : ConfigSpace) (caps : list Capability) (at_ : Z)
  : option (result PciError (list Capability)) :=
  match fuel with
  | O => None
  | S fuel' =>
      if at_ =? 0 then Some (Ok caps)
      else if at_ <? CAP_SPACE_START
      then Some (Err (CapabilityList at_ "pointer into the type 0 header"))
      else if existsb (fun cap => cap_offset cap =? at_) caps
      then Some (Err (CapabilityList at_ "pointer loops back to an earlier capability"))
      else
        let id := wrap 8 (read c at_ 1) in
        let next := Z.land (wrap 8 (read c (at_ + 1) 1)) (not_w 8 3) in
        cap_walk fuel' c
          (caps ++ [{| cap_offset := at_; cap_id := id; cap_next := next |}]) next
  end.

Definition capabilities (c : ConfigSpace) : option (result PciError (list Capability)) :=
  if Z.land (u16_at c STATUS) STATUS_CAP_LIST =? 0 then Some (Ok [])
  else cap_walk 64 c [] (Z.land (wrap 8 (read c (Z.of_nat CAP_PTR) 1)) (not_w 8 3)).

(** ** Views: the byte and the 32-bit word at an offset *)

(** Both arrays hold 256 bytes. *)
Definition arrays_ok (c : ConfigSpace) : Prop :=
  length (cs_data c) = CONFIG_SPACE_SIZE /\ length (cs_wmask c) = CONFIG_SPACE_SIZE /\
  Forall (fits 8) (cs_data c) /\ Forall (fits 8) (cs_wmask c).

#[export] Instance arrays_ok_dec c : Decision (arrays_ok c).
Proof. unfold arrays_ok. apply _. Defined.

Definition word_at (l : list Z) (at_ : nat) : Z := of_le (byte_at l <$> seq at_ 4).

Lemma byte_at_fits l k : Forall (fits 8) l -> fits 8 (byte_at l k).
Proof.
  unfold byte_at. intros H. destruct (l !! k) eqn:Hk; simpl; [|done].
  by eapply Forall_lookup_1.
Qed.

Lemma byte_at_insert l i x k :
  (i < length l)%nat -> byte_at (<[i := x]> l) k = if decide (i = k) then x else byte_at l k.
Proof.
  intros Hi. unfold byte_at. case_decide as Hk.
  - subst. by rewrite list_lookup_insert_eq.
  - by rewrite list_lookup_insert_ne.
Qed.

Lemma byte_at_inserts l i bs k :
  (i + length bs <= length l)%nat ->
  byte_at (list_inserts i bs l) k =
  if decide (i <= k < i + length bs)%nat then byte_at bs (k - i) else byte_at l k.
Proof.
  intros Hl. unfold byte_at. case_decide as Hk.
  - by rewrite list_lookup_inserts by lia.
  - destruct (decide (k < i)%nat); [by rewrite list_lookup_inserts_lt|].
    by rewrite list_lookup_inserts_ge by lia.
Qed.

Lemma Forall_inserts (P : Z -> Prop) i bs l :
  Forall P bs -> Forall P l -> Forall P (list_inserts i bs l).
Proof.
  intros Hb Hl. revert i. induction Hb as [|b bs Hb _ IH]; intros i; simpl; [done|].
  apply Forall_insert; auto.
Qed.

Lemma list_ext_byte_at l1 l2 :
  length l1 = length l2 -> (forall k, byte_at l1 k = byte_at l2 k) -> l1 = l2.
Proof.
  intros Hl H. apply list_eq. intros k. specialize (H k). unfold byte_at in H.
  destruct (decide (k < length l1)%nat) as [Hk|Hk].
  - destruct (lookup_lt_is_Some_2 l1 k) as [x Hx]; [done|].
    destruct (lookup_lt_is_Some_2 l2 k) as [y Hy]; [lia|].
    rewrite Hx, Hy in *. simpl in H. by subst.
  - by rewrite !lookup_ge_None_2 by lia.
Qed.

Lemma word_at_testbit l k (j : nat) b :
  Forall (fits 8) l -> (j < 4)%nat -> 0 <= b < 8 ->
  Z.testbit (word_at l k) (8 * Z.of_nat j + b) = Z.testbit (byte_at l (k + j)) b.
Proof.
  intros Hl Hj Hb. unfold word_at. rewrite of_le_testbit.
  - rewrite list_lookup_fmap, lookup_seq_lt by done. done.
  - apply Forall_fmap, Forall_true. intros. by apply byte_at_fits.
  - done.
Qed.

Lemma word_at_fits l k : Forall (fits 8) l -> fits 32 (word_at l k).
Proof.
  intros Hl. unfold word_at, fits.
  pose proof (of_le_bound (byte_at l <$> seq k 4)) as H. rewrite length_fmap, length_seq in H.
  apply H. apply Forall_fmap, Forall_true. intros. by apply byte_at_fits.
Qed.

Lemma word_at_ext l1 l2 k :
  (forall j, (k <= j < k + 4)%nat -> byte_at l1 j = byte_at l2 j) -> word_at l1 k = word_at l2 k.
Proof.
  intros H. unfold word_at. f_equal. apply list_fmap_ext. intros i x Hx%lookup_seq.
  apply H. lia.
Qed.

Lemma word_at_inserts l k v :
  (k + 4 <= length l)%nat -> fits 32 v -> word_at (list_inserts k (le_bytes 4 v) l) k = v.
Proof.
  intros Hl Hv. unfold word_at.
  rewrite <- (of_le_le_bytes_fits 4 v) at 2 by done. f_equal.
  apply list_eq. intros i. rewrite list_lookup_fmap. destruct (decide (i < 4)%nat) as [Hi|Hi].
  - rewrite lookup_seq_lt by done. cbn [fmap option_fmap option_map].
    rewrite byte_at_inserts by (autorewrite with ternrw; lia). rewrite length_le_bytes.
    rewrite decide_True by lia. unfold byte_at.
    replace (k + i - k)%nat with i by lia.
    destruct (lookup_lt_is_Some_2 (le_bytes 4 v) i) as [x ->]; [by rewrite length_le_bytes|done].
  - rewrite !lookup_ge_None_2; [done| |]; [rewrite length_le_bytes; lia|rewrite length_seq; lia].
Qed.

(** Splitting a bit index of a 32-bit word into byte and bit. *)
Lemma word_bits_inj a b :
  fits 32 a -> fits 32 b ->
  (forall (j : nat) i, (j < 4)%nat -> 0 <= i < 8 ->
     Z.testbit a (8 * Z.of_nat j + i) = Z.testbit b (8 * Z.of_nat j + i)) -> a = b.
Proof.
  intros Ha Hb H. apply Z.bits_inj'. intros i Hi. destruct (decide (i < 32)).
  - specialize (H (Z.to_nat (i / 8)) (i mod 8)). rewrite Z2Nat.id in H by (apply Z.div_pos; lia).
    rewrite <- Z.div_mod in H by lia. apply H; [|apply Z.mod_pos_bound; lia].
    assert (i / 8 < 4) by (apply Z.div_lt_upper_bound; lia). lia.
  - by rewrite !(testbit_high _ 32) by (done || lia).
Qed.

(** The read loop is the little-endian value of the bytes it covers. *)
Lemma read_fold l start n acc i0 :
  Forall (fits 8) l -> fits (8 * Z.of_nat i0) acc ->
  fold_left (fun value i => Z.lor value (Z.shiftl (byte_at l (start + i)) (8 * Z.of_nat i)))
    (seq i0 n) acc
  = acc + 2 ^ (8 * Z.of_nat i0) * of_le (byte_at l <$> seq (start + i0) n).
Proof.
  intros Hl. revert acc i0. induction n as [|n IH]; intros acc i0 Hacc; cbn [seq fold_left].
  - cbn [fmap list_fmap of_le]. lia.
  - pose proof (byte_at_fits l (start + i0) Hl) as Hb.
    rewrite Z.lor_comm, lor_shiftl_add by (unfold fits in Hacc; lia).
    rewrite IH.
    + rewrite fmap_cons. cbn [of_le]. rewrite Nat.add_succ_r.
      replace (8 * Z.of_nat (S i0)) with (8 * Z.of_nat i0 + 8) by lia.
      rewrite Z.pow_add_r by lia. change (2 ^ 8) with 256. ring.
    + unfold fits in *. replace (8 * Z.of_nat (S i0)) with (8 + 8 * Z.of_nat i0) by lia.
      rewrite Z.pow_add_r by lia. change (2 ^ 8) with 256 in *. nia.
Qed.

Lemma read_of_le c offset size :
  arrays_ok c ->
  read c offset size =
  of_le (byte_at (cs_data c) <$> seq (Z.to_nat offset) (Z.to_nat (Z.min size 4))).
Proof.
  intros (_ & _ & Hd & _). unfold read. rewrite read_fold; [|done|done].
  rewrite Nat.add_0_r. change (2 ^ (8 * Z.of_nat 0)) with 1. lia.
Qed.

Lemma u32_at_word c k :
  arrays_ok c -> (k < 256)%nat -> u32_at c k = word_at (cs_data c) k.
Proof.
  intros Hc Hk. unfold u32_at. rewrite wrap_small by (split; lia). rewrite read_of_le by done.
  by rewrite Nat2Z.id.
Qed.

Lemma read_byte c k :
  arrays_ok c -> 0 <= k -> wrap 8 (read c k 1) = byte_at (cs_data c) (Z.to_nat k).
Proof.
  intros Hc Hk. rewrite read_of_le by done. cbn [Z.min Z.compare Z.to_nat Pos.to_nat].
  simpl. rewrite Z.add_0_r. apply wrap_small, byte_at_fits, Hc.
Qed.

(** ** Guest writes *)

(** Bits of [v] where the mask is set, of [old] elsewhere. *)
Definition merge (w old mask v : Z) : Z := Z.lor (Z.land old (not_w w mask)) (Z.land v mask).

Lemma merge_testbit w old mask v i :
  fits w mask -> fits w old -> 0 <= i ->
  Z.testbit (merge w old mask v) i =
  if Z.testbit mask i then Z.testbit v i else Z.testbit old i.
Proof.
  intros Hm Ho Hi. unfold merge. rewrite Z.lor_spec, !Z.land_spec, not_w_testbit by done.
  destruct (Z.testbit mask i), (Z.testbit v i); simpl;
    rewrite ?andb_false_r, ?andb_true_r, ?orb_false_r; try done.
  - destruct (Z.ltb_spec i w); simpl; [by rewrite andb_true_r|].
    by rewrite (testbit_high old w), andb_false_l by done.
  - destruct (Z.ltb_spec i w); simpl; [by rewrite andb_true_r|].
    by rewrite (testbit_high old w), andb_false_l by done.
Qed.

Lemma merge_fits w old mask v :
  0 <= w -> fits w mask -> fits w old -> 0 <= v -> fits w (merge w old mask v).
Proof.
  intros Hw Hm Ho Hv. unfold merge. apply lor_fits; [done| |].
  - apply land_fits_l; [done|]. by apply not_w_fits.
  - rewrite Z.land_comm. by apply land_fits_l.
Qed.

(** The byte of [value] at position [j]. *)
Definition byte_of (value : Z) (j : nat) : Z := wrap 8 (Z.shiftr value (8 * Z.of_nat j)).

Lemma byte_of_testbit value j b :
  0 <= b < 8 -> Z.testbit (byte_of value j) b = Z.testbit value (8 * Z.of_nat j + b).
Proof.
  intros Hb. unfold byte_of, wrap. rewrite Z.mod_pow2_bits_low by lia.
  rewrite Z.shiftr_spec by lia. f_equal. lia.
Qed.

(** Two configs that share everything but the data bytes. *)
Definition same_shape (c c' : ConfigSpace) : Prop :=
  cs_wmask c' = cs_wmask c /\ cs_bars c' = cs_bars c /\
  cs_next_cap c' = cs_next_cap c /\ cs_last_cap c' = cs_last_cap c.

Lemma write_loop_spec c start value i n :
  arrays_ok c ->
  let c' := write_loop c start value i n in
  arrays_ok c' /\ same_shape c c' /\
  forall k, byte_at (cs_data c') k =
    if decide (start + i <= k < start + i + n /\ k < CONFIG_SPACE_SIZE)%nat
    then merge 8 (byte_at (cs_data c) k) (byte_at (cs_wmask c) k) (byte_of value (k - start))
    else byte_at (cs_data c) k.
Proof.
  revert c i. induction n as [|n IH]; intros c i Hc; cbn [write_loop].
  { split_and!; [done..|]. intros k. rewrite decide_False by lia. done. }
  pose proof Hc as (Hld & Hlm & Hfd & Hfm).
  destruct (cs_wmask c !! (start + i)%nat) as [m|] eqn:Hm.
  - assert (Hk : (start + i < CONFIG_SPACE_SIZE)%nat) by (apply lookup_lt_Some in Hm; lia).
    set (v := Z.lor _ _). set (c1 := set_data c _).
    assert (Hmk : byte_at (cs_wmask c) (start + i) = m) by (unfold byte_at; by rewrite Hm).
    assert (Hv : v = merge 8 (byte_at (cs_data c) (start + i)) m (byte_of value i)) by done.
    assert (Hc1 : arrays_ok c1).
    { unfold arrays_ok, c1. cbn. rewrite length_insert. split_and!; [done..| |done].
      apply Forall_insert; [done|]. rewrite Hv. subst m. apply merge_fits; [done| | |].
      - by apply byte_at_fits.
      - by apply byte_at_fits.
      - by apply wrap_fits. }
    destruct (IH c1 (S i) Hc1) as (H1 & H2 & H3). split_and!; [done|done|].
    intros k. rewrite H3. unfold c1. cbn [cs_data cs_wmask set_data].
    rewrite byte_at_insert by (rewrite Hld; done).
    destruct (decide (start + i = k)%nat) as [<- | Hne].
    + rewrite decide_False, decide_True by lia. rewrite Hv, Hmk. do 2 f_equal. lia.
    + repeat case_decide; (done || lia).
  - apply lookup_ge_None in Hm. split_and!; [done..|]. intros k. rewrite decide_False; [done|].
    rewrite Hlm in Hm. lia.
Qed.

Lemma write_bytes c offset size value :
  arrays_ok c ->
  let c' := write c offset size value in
  arrays_ok c' /\ same_shape c c' /\
  forall k, byte_at (cs_data c') k =
    if decide (Z.to_nat offset <= k < Z.to_nat offset + Z.to_nat (Z.min size 4) /\
               k < CONFIG_SPACE_SIZE)%nat
    then merge 8 (byte_at (cs_data c) k) (byte_at (cs_wmask c) k)
               (byte_of value (k - Z.to_nat offset))
    else byte_at (cs_data c) k.
Proof.
  intros Hc. destruct (write_loop_spec c (Z.to_nat offset) value 0 (Z.to_nat (Z.min size 4)) Hc)
    as (H1 & H2 & H3).
  split_and!; [done..|]. intros k. unfold write. rewrite H3, Nat.add_0_r. done.
Qed.

(** [c'] has the masks of [c] and differs from it only in writable bits. *)
Definition writable_change (c c' : ConfigSpace) : Prop :=
  arrays_ok c' /\ same_shape c c' /\
  forall k b, 0 <= b < 8 -> Z.testbit (byte_at (cs_wmask c) k) b = false ->
    Z.testbit (byte_at (cs_data c') k) b = Z.testbit (byte_at (cs_data c) k) b.

Lemma write_writable_change c offset size value :
  arrays_ok c -> writable_change c (write c offset size value).
Proof.
  intros Hc. destruct (write_bytes c offset size value Hc) as (H1 & H2 & H3).
  split_and!; [done..|]. intros k b Hb Hm. rewrite H3. case_decide; [|done].
  rewrite merge_testbit by (try apply byte_at_fits; try apply Hc; lia). by rewrite Hm.
Qed.

#[export] Instance writable_change_trans : Transitive writable_change.
Proof.
  intros c1 c2 c3 (_ & (E1 & E2 & E3 & E4) & H1) (Ha & (F1 & F2 & F3 & F4) & H2).
  split_and!; [done|unfold same_shape; split_and!; congruence|].
  intros k b Hb Hm. rewrite H2, H1; [done..|]. by rewrite E1.
Qed.

(** A guest config write: offset, size and value. *)
Definition guest_writes (c : ConfigSpace) (ws : list (Z * Z * Z)) : ConfigSpace :=
  fold_left (fun c '(offset, size, value) => write c offset size value) ws c.

Lemma guest_writes_change c ws : arrays_ok c -> writable_change c (guest_writes c ws).
Proof.
  revert c. induction ws as [|[[o n] v] ws IH]; intros c Hc; cbn [guest_writes fold_left].
  - split_and!; done.
  - pose proof (write_writable_change c o n v Hc) as H1.
    etransitivity; [exact H1|]. apply IH, H1.
Qed.

(** Writing an aligned register is storing the merged word. *)
Lemma put_inserts c offset bs :
  (0 < length bs)%nat -> (offset + length bs <= CONFIG_SPACE_SIZE)%nat ->
  put c offset bs = set_data c (list_inserts offset bs (cs_data c)).
Proof.
  intros H0 H. unfold put. rewrite Nat.min_l by lia.
  destruct (Nat.ltb_spec offset (offset + length bs)); [|lia].
  by rewrite take_ge by lia.
Qed.

Lemma arrays_ok_put c offset bs :
  arrays_ok c -> Forall (fits 8) bs -> arrays_ok (put c offset bs).
Proof.
  intros (H1 & H2 & H3 & H4) Hb. unfold put. case_match; [|done].
  unfold arrays_ok. cbn. rewrite length_inserts. split_and!; [done..| |done].
  apply Forall_inserts; [by apply Forall_take|done].
Qed.

Lemma put_shape c offset bs : same_shape c (put c offset bs).
Proof. unfold put. case_match; done. Qed.

Lemma write_word c k v :
  arrays_ok c -> (k + 4 <= CONFIG_SPACE_SIZE)%nat -> 0 <= v ->
  write c (Z.of_nat k) 4 v =
  put c k (le_bytes 4 (merge 32 (word_at (cs_data c) k) (word_at (cs_wmask c) k) v)).
Proof.
  intros Hc Hk Hv. destruct (write_bytes c (Z.of_nat k) 4 v Hc) as (H1 & (S1 & S2 & S3 & S4) & H3).
  set (m := merge 32 _ _ _).
  assert (Hl : length (le_bytes 4 m) = 4%nat) by apply length_le_bytes.
  rewrite put_inserts by (rewrite Hl; lia).
  destruct (write c (Z.of_nat k) 4 v) as [d' m' b' n' l'].
  cbn [cs_data cs_wmask cs_bars cs_next_cap cs_last_cap] in *. subst.
  unfold set_data. f_equal. apply list_ext_byte_at.
  { rewrite length_inserts. destruct H1 as (H1 & _), Hc as (H2 & _). cbn [cs_data] in H1. congruence. }
  intros j. rewrite H3. rewrite byte_at_inserts by (rewrite Hl; destruct Hc as (-> & _); lia).
  rewrite Hl, Nat2Z.id. change (Pos.to_nat 4) with 4%nat. unfold CONFIG_SPACE_SIZE in *.
  destruct (decide (k <= j < k + 4)%nat) as [Hj|Hj]; [|rewrite decide_False by lia; done].
  rewrite decide_True by lia. destruct Hc as (_ & _ & Hd & Hm).
  assert (fits 8 (byte_of v (j - k))) by by apply wrap_fits.
  apply byte_ext.
  - apply merge_fits; [done|by apply byte_at_fits..|unfold fits in *; lia].
  - apply byte_at_fits, le_bytes_fits.
  - intros b Hb. unfold byte_at at 3. rewrite le_bytes_testbit by lia.
    unfold m. rewrite !merge_testbit by (try apply byte_at_fits; try apply word_at_fits; done || lia).
    rewrite !word_at_testbit, byte_of_testbit by (done || lia).
    by replace (k + (j - k))%nat with j by lia.
Qed.

(** ** BAR invariant *)

Definition bar_valid (b : Bar) : Prop :=
  16 <= bar_size b <= bar_max (bar_kind b) /\ is_power_of_two (bar_size b) = true.

(** BAR [b] declared at [i]: its mask words are those of its size, and the
    read-only bits of its registers hold the type flags. *)
Definition bar_wf (c : ConfigSpace) (i : nat) (b : Bar) : Prop :=
  bar_valid b /\ (i + bar_regs (bar_kind b) <= BARS)%nat /\
  word_at (cs_wmask c) (bar_reg i) = low_mask b /\
  Z.land (word_at (cs_data c) (bar_reg i)) (not_w 32 (low_mask b)) = bar_flags b /\
  (bar_kind b = Mem64 ->
     cs_bars c !! S i = Some SlotUpper /\
     word_at (cs_wmask c) (bar_reg i + 4) = high_mask b /\
     Z.land (word_at (cs_data c) (bar_reg i + 4)) (not_w 32 (high_mask b)) = 0).

Definition bars_ok (c : ConfigSpace) : Prop :=
  length (cs_bars c) = BARS /\
  (forall i b, cs_bars c !! i = Some (SlotBar b) -> bar_wf c i b) /\
  (forall i, cs_bars c !! i = Some SlotEmpty ->
     word_at (cs_wmask c) (bar_reg i) = 0 /\ word_at (cs_data c) (bar_reg i) = 0).

Lemma bar_valid_log b :
  bar_valid b ->
  exists s, bar_size b = 2 ^ s /\ 4 <= s <= (match bar_kind b with Mem64 => 63 | Mem32 => 31 end).
Proof.
  intros [Hs (s & Hs0 & Hp)%is_power_of_two_spec]. exists s. split; [done|].
  assert (Hmax : bar_max (bar_kind b) = 2 ^ (match bar_kind b with Mem64 => 63 | Mem32 => 31 end))
    by (by destruct (bar_kind b)).
  rewrite Hmax, Hp in Hs. change 16 with (2 ^ 4) in Hs.
  destruct Hs as [H1%Z.pow_le_mono_r_iff H2%Z.pow_le_mono_r_iff]; try lia.
  destruct (bar_kind b); lia.
Qed.

(** The mask of a BAR of size [2^s] is the bits from [s] up. *)
Lemma size_mask_testbit b s i :
  bar_size b = 2 ^ s -> 0 <= s <= 63 -> 0 <= i ->
  Z.testbit (address_mask b) i = (i <? 64) && (s <=? i).
Proof.
  intros Hs Hs' Hi. unfold address_mask. rewrite Hs.
  assert (0 < 2 ^ s <= 2 ^ 63) by (split; [apply Z.pow_pos_nonneg; lia|apply Z.pow_le_mono_r; lia]).
  rewrite not_w_testbit by (unfold fits; lia). f_equal.
  replace (2 ^ s - 1) with (Z.ones s) by (rewrite Z.ones_equiv; lia).
  destruct (Z.leb_spec s i); [by rewrite Z.ones_spec_high by lia|by rewrite Z.ones_spec_low by lia].
Qed.

Lemma low_mask_testbit b s i :
  bar_size b = 2 ^ s -> 4 <= s <= 63 -> 0 <= i ->
  Z.testbit (low_mask b) i = (i <? 32) && (s <=? i).
Proof.
  intros Hs Hs' Hi. unfold low_mask, wrap. rewrite Z.land_spec, not_w_testbit by done.
  destruct (Z.ltb_spec i 32); [|by rewrite andb_false_r].
  rewrite Z.mod_pow2_bits_low, (size_mask_testbit b s) by (done || lia).
  destruct (Z.ltb_spec i 64); [|lia]. simpl. destruct (Z.leb_spec s i); [|done].
  by rewrite (testbit_high 0xf 4) by lia.
Qed.

Lemma high_mask_testbit b s i :
  bar_size b = 2 ^ s -> 0 <= s <= 63 -> 0 <= i ->
  Z.testbit (high_mask b) i = (i <? 32) && (s <=? i + 32).
Proof.
  intros Hs Hs' Hi. unfold high_mask, wrap. destruct (Z.ltb_spec i 32).
  - rewrite Z.mod_pow2_bits_low, Z.shiftr_spec, (size_mask_testbit b s) by (done || lia).
    destruct (Z.ltb_spec (i + 32) 64); [done|lia].
  - by rewrite Z.mod_pow2_bits_high by lia.
Qed.

Lemma low_mask_fits b : fits 32 (low_mask b).
Proof. unfold low_mask. apply land_fits_l; [by apply wrap_fits|done]. Qed.
Lemma high_mask_fits b : fits 32 (high_mask b).
Proof. by apply wrap_fits. Qed.
Lemma bar_flags_fits b : fits 4 (bar_flags b).
Proof. unfold bar_flags. destruct (bar_kind b), (prefetchable b); done. Qed.
#[export] Hint Resolve low_mask_fits high_mask_fits : tern.

(** The read-only bits determine a masked word. *)
Lemma land_not_w_ext a b m :
  fits 32 a -> fits 32 b -> fits 32 m ->
  (forall i, 0 <= i < 32 -> Z.testbit m i = false -> Z.testbit a i = Z.testbit b i) ->
  Z.land a (not_w 32 m) = Z.land b (not_w 32 m).
Proof.
  intros Ha Hb Hm H. apply Z.bits_inj'. intros i Hi.
  rewrite !Z.land_spec, not_w_testbit by done.
  destruct (Z.ltb_spec i 32); [|by rewrite !andb_false_r].
  destruct (Z.testbit m i) eqn:Hmi; [by rewrite !andb_false_r|]. simpl. rewrite !andb_true_r.
  apply H; [lia|done].
Qed.

(** Splitting a bit index of a word into byte and bit, as an elimination. *)
Lemma word_bit_split i :
  0 <= i < 32 -> exists (j : nat) b, i = 8 * Z.of_nat j + b /\ (j < 4)%nat /\ 0 <= b < 8.
Proof.
  intros Hi. exists (Z.to_nat (i / 8)), (i mod 8).
  rewrite Z2Nat.id by (apply Z.div_pos; lia).
  pose proof (Z.div_mod i 8). pose proof (Z.mod_pos_bound i 8).
  assert (i / 8 < 4) by (apply Z.div_lt_upper_bound; lia). lia.
Qed.

(** [c'] keeps the BAR registers' masks and their read-only bits. *)
Definition bar_frame (c c' : ConfigSpace) : Prop :=
  arrays_ok c' /\ cs_bars c' = cs_bars c /\
  forall k, (BAR0 <= k < BAR0 + 4 * BARS)%nat ->
    byte_at (cs_wmask c') k = byte_at (cs_wmask c) k /\
    forall b, 0 <= b < 8 -> Z.testbit (byte_at (cs_wmask c) k) b = false ->
      Z.testbit (byte_at (cs_data c') k) b = Z.testbit (byte_at (cs_data c) k) b.

Lemma bar_frame_word c c' i m :
  arrays_ok c -> bar_frame c c' -> (i < BARS)%nat -> word_at (cs_wmask c) (bar_reg i) = m ->
  word_at (cs_wmask c') (bar_reg i) = m /\
  Z.land (word_at (cs_data c') (bar_reg i)) (not_w 32 m) =
  Z.land (word_at (cs_data c) (bar_reg i)) (not_w 32 m).
Proof.
  intros (_ & _ & Hd & Hm) ((_ & _ & Hd' & Hm') & _ & H) Hi <-. unfold bar_reg in *.
  split.
  - apply word_at_ext. intros j Hj. apply H. unfold BARS in *. lia.
  - apply land_not_w_ext; try (by apply word_at_fits).
    intros i' (j & b & -> & Hj & Hb)%word_bit_split. rewrite !word_at_testbit by done.
    apply H; [unfold BARS in *; lia|done].
Qed.

Lemma bars_ok_frame c c' : arrays_ok c -> bars_ok c -> bar_frame c c' -> bars_ok c'.
Proof.
  intros Hc (Hl & Hb & He) Hf. pose proof Hf as (Hc' & Hbars & _).
  unfold bars_ok. rewrite Hbars. split_and!; [done| |].
  - intros i b Hi. destruct (Hb i b Hi) as (V & R & M & D & H64).
    assert (Hi6 : (i < BARS)%nat) by (destruct (bar_kind b); cbn in R; lia).
    destruct (bar_frame_word c c' i _ Hc Hf Hi6 M) as [M' D'].
    split_and!; [done..|congruence|]. intros K. destruct (H64 K) as (U & M1 & D1).
    rewrite K in R. cbn in R.
    destruct (bar_frame_word c c' (S i) (high_mask b) Hc Hf) as [M2 D2]; [lia| |].
    { replace (bar_reg (S i)) with (bar_reg i + 4)%nat by (unfold bar_reg; lia). done. }
    replace (bar_reg (S i)) with (bar_reg i + 4)%nat in * by (unfold bar_reg; lia).
    rewrite Hbars. split_and!; [done..|congruence].
  - intros i Hi. destruct (He i Hi) as [M D].
    assert (Hi6 : (i < BARS)%nat) by (apply lookup_lt_Some in Hi; lia).
    destruct (bar_frame_word c c' i 0 Hc Hf Hi6 M) as [M' D']. split; [done|].
    change (not_w 32 0) with (Z.ones 32) in D'. rewrite D, Z.land_0_l in D'.
    destruct Hc' as (_ & _ & Hd' & _).
    rewrite Z.land_ones, Z.mod_small in D' by (done || by apply word_at_fits). done.
Qed.

(** ** Declaring a BAR *)

Lemma find_used_None c index n :
  find_map (slot_used c) (seq index n) = None ->
  (index + n <= length (cs_bars c))%nat ->
  forall i, (index <= i < index + n)%nat -> cs_bars c !! i = Some SlotEmpty.
Proof.
  intros H%find_map_None Hl i Hi. rewrite list.Forall_forall in H.
  specialize (H i). unfold slot_used in H.
  destruct (lookup_lt_is_Some_2 (cs_bars c) i) as [x Hx]; [lia|]. rewrite Hx in *.
  destruct x; [done|..]; (exfalso; enough (Some i = None) by done; apply H, elem_of_seq; lia).
Qed.

Lemma inserts_app i (a b l : list Z) :
  (i + length a + length b <= length l)%nat ->
  list_inserts i (a ++ b) l = list_inserts (i + length a) b (list_inserts i a l).
Proof.
  intros Hl. apply list_ext_byte_at; [by rewrite !length_inserts|]. intros k.
  rewrite !byte_at_inserts; rewrite ?length_inserts, ?length_app; try lia.
  repeat case_decide; try lia; try done; unfold byte_at.
  - rewrite lookup_app_r by lia. do 2 f_equal. lia.
  - by rewrite lookup_app_l by lia.
Qed.

(** What [add_bar] leaves behind, in one place: the new registers, and every
    byte outside them as it was. *)
Lemma add_bar_inv c index b c' :
  arrays_ok c -> bars_ok c -> add_bar c index b = Ok c' ->
  bar_valid b /\ (index + bar_regs (bar_kind b) <= BARS)%nat /\
  (forall i, (index <= i < index + bar_regs (bar_kind b))%nat -> cs_bars c !! i = Some SlotEmpty) /\
  c' = {| cs_data := list_inserts (bar_reg index) (le_bytes 4 (bar_flags b)) (cs_data c);
          cs_wmask := list_inserts (bar_reg index)
            (le_bytes 4 (low_mask b) ++
             match bar_kind b with Mem64 => le_bytes 4 (high_mask b) | Mem32 => [] end) (cs_wmask c);
          cs_bars := match bar_kind b with
                     | Mem64 => <[S index := SlotUpper]> (<[index := SlotBar b]> (cs_bars c))
                     | Mem32 => <[index := SlotBar b]> (cs_bars c)
                     end;
          cs_next_cap := cs_next_cap c; cs_last_cap := cs_last_cap c |}.
Proof.
  intros (Hld & Hlm & _) (Hlb & _) H. unfold add_bar in H.
  destruct (Nat.ltb_spec BARS (index + bar_regs (bar_kind b))) as [|Hr]; [done|].
  destruct ((bar_size b <? 16) || _ || _) eqn:Hv; [done|].
  destruct (find_map _ _) eqn:Hf; [done|].
  assert (Hreg : (bar_reg index + 4 * bar_regs (bar_kind b) <= CONFIG_SPACE_SIZE)%nat).
  { unfold bar_reg, BAR0, CONFIG_SPACE_SIZE, BARS in *. lia. }
  assert (Hreg4 : (bar_reg index + 4 <= CONFIG_SPACE_SIZE)%nat).
  { destruct (bar_kind b); unfold bar_regs in Hreg; lia. }
  assert (V : bar_valid b).
  { unfold bar_valid. destruct (is_power_of_two (bar_size b)); [|by rewrite orb_true_r in Hv].
    rewrite orb_false_r in Hv. apply orb_false_iff in Hv as [?%Z.ltb_ge ?%Z.ltb_ge]. done. }
  split_and!; [done..| |].
  - apply (find_used_None c); [done|]. rewrite Hlb. lia.
  - rewrite put_inserts in H by (autorewrite with ternrw; lia).
    destruct (bar_kind b); injection H as <-; unfold set_bars, put_mask, set_wmask, set_data;
      cbn [cs_data cs_wmask cs_bars cs_next_cap cs_last_cap]; [by rewrite app_nil_r|].
    by rewrite inserts_app, length_le_bytes by (autorewrite with ternrw; unfold bar_regs in Hreg; lia).
Qed.

Lemma word_at_inserts_ne l k bs j :
  (k + length bs <= length l)%nat -> (j + 4 <= k \/ k + length bs <= j)%nat ->
  word_at (list_inserts k bs l) j = word_at l j.
Proof.
  intros Hl Hj. apply word_at_ext. intros i Hi. rewrite byte_at_inserts by done.
  rewrite decide_False by lia. done.
Qed.

Lemma flags_read_only b :
  bar_valid b -> Z.land (bar_flags b) (not_w 32 (low_mask b)) = bar_flags b.
Proof.
  intros (s & Hs & Hr)%bar_valid_log. apply Z.bits_inj'. intros i Hi.
  rewrite Z.land_spec, not_w_testbit, (low_mask_testbit b s) by (auto with tern; destruct (bar_kind b); lia).
  pose proof (bar_flags_fits b). destruct (decide (i < 4)).
  - destruct (Z.ltb_spec i 32), (Z.leb_spec s i); [lia|by rewrite andb_true_r|lia..].
  - by rewrite (testbit_high (bar_flags b) 4) by (done || lia).
Qed.

(** The registers of [add_bar]'s result, word by word. *)
Lemma add_bar_words c index b c' :
  arrays_ok c -> bars_ok c -> add_bar c index b = Ok c' ->
  arrays_ok c' /\
  word_at (cs_wmask c') (bar_reg index) = low_mask b /\
  word_at (cs_data c') (bar_reg index) = bar_flags b /\
  (bar_kind b = Mem64 -> word_at (cs_wmask c') (bar_reg index + 4) = high_mask b /\
                         word_at (cs_data c') (bar_reg index + 4) = 0) /\
  forall j, (j < index \/ index + bar_regs (bar_kind b) <= j)%nat ->
    word_at (cs_wmask c') (bar_reg j) = word_at (cs_wmask c) (bar_reg j) /\
    word_at (cs_data c') (bar_reg j) = word_at (cs_data c) (bar_reg j).
Proof.
  intros Hc Hb H. pose proof (add_bar_inv c index b c' Hc Hb H) as (V & R & E & ->).
  destruct Hc as (Hld & Hlm & Hfd & Hfm), Hb as (_ & _ & Hemp).
  pose proof (bar_flags_fits b). assert (fits 32 (bar_flags b)) by (by eapply (fits_weaken 4)).
  assert (L : forall x, length (le_bytes 4 x) = 4%nat) by (intros; apply length_le_bytes).
  assert (Hreg : (bar_reg index + 4 * bar_regs (bar_kind b) <= CONFIG_SPACE_SIZE)%nat).
  { unfold bar_reg, BAR0, CONFIG_SPACE_SIZE, BARS in *. lia. }
  set (hi := match bar_kind b with Mem64 => le_bytes 4 (high_mask b) | Mem32 => [] end).
  assert (Lh : length hi = (4 * bar_regs (bar_kind b) - 4)%nat /\ (1 <= bar_regs (bar_kind b))%nat)
    by (unfold hi; destruct (bar_kind b); unfold bar_regs; rewrite ?L; simpl; lia).
  cbn [cs_data cs_wmask]. split_and!.
  - unfold arrays_ok. cbn [cs_data cs_wmask]. rewrite !length_inserts. split_and!; [done..| |].
    + apply Forall_inserts; [apply le_bytes_fits|done].
    + apply Forall_inserts; [|done]. apply Forall_app. split; [apply le_bytes_fits|].
      unfold hi. destruct (bar_kind b); [constructor|apply le_bytes_fits].
  - rewrite inserts_app, word_at_inserts_ne by (rewrite ?length_inserts, ?L; lia).
    apply word_at_inserts; [lia|apply low_mask_fits].
  - apply word_at_inserts; [lia|done].
  - intros K. unfold hi in *. rewrite K in *. unfold bar_regs in *. split.
    + rewrite inserts_app, L by (rewrite ?L; lia).
      apply word_at_inserts; [rewrite length_inserts; lia|apply high_mask_fits].
    + rewrite word_at_inserts_ne by (rewrite ?L; lia).
      destruct (Hemp (S index)) as [_ D]; [apply E; lia|].
      replace (bar_reg index + 4)%nat with (bar_reg (S index)) by (unfold bar_reg; lia). done.
  - intros j Hj. unfold bar_reg in *. split; rewrite word_at_inserts_ne; rewrite ?length_app, ?L; lia || done.
Qed.

Lemma add_bar_ok c index b c' :
  arrays_ok c -> bars_ok c -> add_bar c index b = Ok c' -> arrays_ok c' /\ bars_ok c'.
Proof.
  intros Hc Hb H. destruct (add_bar_words c index b c' Hc Hb H) as (Ha & M & D & H64 & Hw).
  pose proof (add_bar_inv c index b c' Hc Hb H) as (V & R & E & Hc').
  destruct Hb as (Hl & Hbs & Hemp). split; [done|].
  assert (Hbars : forall j, cs_bars c' !! j =
    if decide (j = index) then Some (SlotBar b)
    else if decide (bar_kind b = Mem64 /\ j = S index) then Some SlotUpper else cs_bars c !! j).
  { intros j. rewrite Hc'. cbn [cs_bars]. unfold BARS in *. clear -R Hl.
    destruct (bar_kind b); unfold bar_regs in R.
    - destruct (decide (j = index)) as [-> |]; [by rewrite list_lookup_insert_eq by lia|].
      rewrite list_lookup_insert_ne by done. by rewrite decide_False by (intros [? _]; done).
    - destruct (decide (j = index)) as [-> |];
        [rewrite list_lookup_insert_ne, list_lookup_insert_eq by lia; done|].
      destruct (decide (j = S index)) as [-> |].
      + rewrite list_lookup_insert_eq by (rewrite length_insert; lia). by rewrite decide_True.
      + rewrite !list_lookup_insert_ne by done. by rewrite decide_False by (intros [_ ?]; done). }
  assert (Hout : forall j, j <> index -> ~ (bar_kind b = Mem64 /\ j = S index) ->
            (j < index \/ index + bar_regs (bar_kind b) <= j)%nat).
  { intros j H1 H2. destruct (bar_kind b); unfold bar_regs; [lia|].
    assert (j <> S index) by naive_solver. lia. }
  split_and!.
  - rewrite Hc'. cbn [cs_bars]. destruct (bar_kind b); by rewrite ?length_insert.
  - intros i b'. rewrite Hbars. destruct (decide (i = index)) as [Hi|Hi];
      [|destruct (decide (bar_kind b = Mem64 /\ i = S index)) as [Hu|Hu]; [intros [=]|]].
    + intros [= <-]. subst i. split_and!; [done..| |].
      * rewrite D. by apply flags_read_only.
      * intros K. destruct (H64 K) as [M1 D1]. rewrite Hbars, decide_False, decide_True by (done || lia).
        rewrite D1. split_and!; [done..|apply Z.land_0_l].
    + intros Hb'. destruct (Hbs i b' Hb') as (V' & R' & M' & D' & K').
      destruct (Hw i (Hout i Hi Hu)) as [W1 W2]. split_and!; [done..|congruence|congruence|].
      intros K. destruct (K' K) as (U & M1 & D1).
      assert (Hs1 : S i <> index).
      { intros Hsi. rewrite Hsi, E in U by (destruct (bar_kind b); unfold bar_regs; lia). done. }
      assert (Hs2 : ~ (bar_kind b = Mem64 /\ S i = S index)) by naive_solver.
      destruct (Hw (S i) (Hout _ Hs1 Hs2)) as [W3 W4].
      replace (bar_reg (S i)) with (bar_reg i + 4)%nat in * by (unfold bar_reg; lia).
      rewrite Hbars, decide_False, decide_False by done. split_and!; [done|congruence|congruence].
  - intros i. rewrite Hbars. destruct (decide (i = index)) as [Hi|Hi]; [intros [=]|].
    destruct (decide (bar_kind b = Mem64 /\ i = S index)) as [Hu|Hu]; [intros [=]|].
    intros Hb'. destruct (Hw i (Hout i Hi Hu)) as [W1 W2]. rewrite W1, W2. by apply Hemp.
Qed.

(** ** Programming a BAR *)

(** What a driver does to program BAR [index] of kind [kind]: one or two
    32-bit config writes. *)
Definition guest_program (c : ConfigSpace) (index : nat) (kind : BarKind) (a : Z) : ConfigSpace :=
  let reg := bar_reg index in
  let c := write c (Z.of_nat reg) 4 (wrap 32 a) in
  match kind with
  | Mem64 => write c (Z.of_nat (reg + 4)) 4 (wrap 32 (Z.shiftr a 32))
  | Mem32 => c
  end.

Lemma bar_slot c i b : bar c i = Some b -> cs_bars c !! i = Some (SlotBar b).
Proof. unfold bar. destruct (cs_bars c !! i) as [[]|]; intros [=]; by subst. Qed.

Lemma bar_reg_range c i b :
  bar_wf c i b -> (bar_reg i + 4 * bar_regs (bar_kind b) <= BAR0 + 4 * BARS)%nat.
Proof. intros (_ & R & _). unfold bar_reg. lia. Qed.

Lemma wrap_testbit w x i : 0 <= w -> 0 <= i -> Z.testbit (wrap w x) i = (i <? w) && Z.testbit x i.
Proof.
  intros Hw Hi. unfold wrap. destruct (Z.ltb_spec i w).
  - by rewrite Z.mod_pow2_bits_low by lia.
  - by rewrite Z.mod_pow2_bits_high by lia.
Qed.

(** The read-only bits of a BAR register, bit by bit. *)
Lemma read_only_bits w m f i :
  fits 32 m -> 0 <= i < 32 -> Z.land w (not_w 32 m) = f -> Z.testbit m i = false ->
  Z.testbit w i = Z.testbit f i.
Proof.
  intros Hm Hi <- Hmi. rewrite Z.land_spec, not_w_testbit, Hmi by (done || lia).
  destruct (Z.ltb_spec i 32); [|lia]. by rewrite andb_true_r.
Qed.

(** Merging an address into a BAR register gives the masked address and the flags. *)
Lemma merge_low c i b a :
  arrays_ok c -> bar_wf c i b ->
  merge 32 (word_at (cs_data c) (bar_reg i)) (word_at (cs_wmask c) (bar_reg i)) (wrap 32 a) =
  Z.lor (Z.land (wrap 32 a) (low_mask b)) (bar_flags b).
Proof.
  intros (_ & _ & Hd & Hm) (_ & _ & M & D & _). rewrite M. unfold merge. by rewrite D, Z.lor_comm.
Qed.

Lemma merge_high c i b a :
  arrays_ok c -> bar_wf c i b -> bar_kind b = Mem64 ->
  merge 32 (word_at (cs_data c) (bar_reg i + 4)) (word_at (cs_wmask c) (bar_reg i + 4)) a =
  Z.land a (high_mask b).
Proof.
  intros (_ & _ & Hd & Hm) (_ & _ & _ & _ & H64) K. destruct (H64 K) as (_ & M & D).
  rewrite M. unfold merge. by rewrite D.
Qed.

(** The words [set_bar_address] stores are the words a guest's writes leave. *)
Lemma set_low_word c i b a :
  arrays_ok c -> bar_wf c i b -> 0 <= a ->
  Z.lor (wrap 32 (Z.land a (not_w 64 (bar_size b - 1)))) (Z.land (word_at (cs_data c) (bar_reg i)) 0xf) =
  Z.lor (Z.land (wrap 32 a) (low_mask b)) (bar_flags b).
Proof.
  intros (_ & _ & Hd & Hm) (V & _ & M & D & _) Ha.
  pose proof (bar_valid_log b V) as (s & Hs & Hr). pose proof (bar_flags_fits b) as Hf.
  assert (Hs4 : 4 <= s <= 63) by (destruct (bar_kind b); lia).
  fold (address_mask b). apply Z.bits_inj'. intros j Hj.
  rewrite !Z.lor_spec, !Z.land_spec, !wrap_testbit, Z.land_spec by lia.
  rewrite (size_mask_testbit b s), (low_mask_testbit b s) by (done || lia).
  destruct (decide (j < 4)).
  - assert (Hro : Z.testbit (low_mask b) j = false).
    { rewrite (low_mask_testbit b s) by (done || lia). destruct (Z.leb_spec s j); [lia|].
      by rewrite andb_false_r. }
    rewrite (read_only_bits (word_at (cs_data c) (bar_reg i)) (low_mask b) (bar_flags b) j (low_mask_fits b)) by (done || lia).
    change 0xf with (Z.ones 4). rewrite Z.ones_spec_low by lia.
    destruct (Z.leb_spec s j); [lia|]. by rewrite !andb_false_r, andb_true_r.
  - rewrite (testbit_high 0xf 4), (testbit_high (bar_flags b) 4), andb_false_r, !orb_false_r by (done || lia).
    destruct (Z.ltb_spec j 32), (Z.ltb_spec j 64); simpl; rewrite ?andb_false_r; done || lia.
Qed.

Lemma set_high_word b a :
  bar_valid b -> 0 <= a ->
  wrap 32 (Z.shiftr (Z.land a (not_w 64 (bar_size b - 1))) 32) =
  Z.land (wrap 32 (Z.shiftr a 32)) (high_mask b).
Proof.
  intros V Ha. pose proof (bar_valid_log b V) as (s & Hs & Hr).
  assert (Hs4 : 4 <= s <= 63) by (destruct (bar_kind b); lia).
  fold (address_mask b). apply Z.bits_inj'. intros j Hj.
  rewrite Z.land_spec, !wrap_testbit, !Z.shiftr_spec, Z.land_spec by lia.
  rewrite (size_mask_testbit b s), (high_mask_testbit b s) by (done || lia).
  destruct (Z.ltb_spec j 32), (Z.ltb_spec (j + 32) 64); simpl; done || lia.
Qed.

Lemma put_word_at c k v j :
  (k + 4 <= CONFIG_SPACE_SIZE)%nat -> arrays_ok c -> fits 32 v ->
  (j = k \/ j + 4 <= k \/ k + 4 <= j)%nat ->
  word_at (cs_data (put c k (le_bytes 4 v))) j =
  if decide (j = k) then v else word_at (cs_data c) j.
Proof.
  intros Hk (Hl & _) Hv Hj. rewrite put_inserts by (autorewrite with ternrw; lia).
  cbn [set_data cs_data]. case_decide; [subst; by apply word_at_inserts; [lia|]|].
  apply word_at_inserts_ne; rewrite length_le_bytes; lia.
Qed.

Lemma put_mask_same c k bs : cs_wmask (put c k bs) = cs_wmask c.
Proof. apply put_shape. Qed.

Lemma set_bar_address_guest c i b a :
  arrays_ok c -> bars_ok c -> bar c i = Some b -> 0 <= a ->
  set_bar_address c i a = guest_program c i (bar_kind b) a.
Proof.
  intros Hc (_ & Hbs & _) Hb Ha. pose proof (Hbs i b (bar_slot c i b Hb)) as W.
  pose proof (bar_reg_range c i b W) as R.
  assert (Hr : (bar_reg i + 4 <= CONFIG_SPACE_SIZE)%nat)
    by (unfold CONFIG_SPACE_SIZE, BAR0, BARS in *; destruct (bar_kind b); unfold bar_regs in R; lia).
  unfold set_bar_address, guest_program. rewrite Hb.
  rewrite write_word by (done || apply wrap_fits; done).
  rewrite (merge_low c i b) by done. rewrite u32_at_word by (unfold CONFIG_SPACE_SIZE in *; done || lia).
  rewrite (set_low_word c i b) by done. destruct (bar_kind b) eqn:K; [done|].
  unfold bar_regs, CONFIG_SPACE_SIZE, BAR0, BARS in *. set (v := Z.lor _ _).
  assert (fits 32 v).
  { apply lor_fits; [done| |by eapply (fits_weaken 4); [|apply bar_flags_fits]].
    apply land_fits_l; [by apply wrap_fits|apply low_mask_fits]. }
  rewrite write_word; [|by apply arrays_ok_put; [|apply le_bytes_fits]|unfold CONFIG_SPACE_SIZE; lia|by apply wrap_fits].
  rewrite put_word_at, decide_False, put_mask_same by (unfold CONFIG_SPACE_SIZE; done || lia).
  rewrite (merge_high c i b) by done. rewrite set_high_word by (done || apply W). done.
Qed.

Lemma guest_program_change c i k a : arrays_ok c -> writable_change c (guest_program c i k a).
Proof.
  intros Hc. unfold guest_program.
  pose proof (write_writable_change c (Z.of_nat (bar_reg i)) 4 (wrap 32 a) Hc) as H1.
  destruct k; [done|]. etransitivity; [exact H1|]. apply write_writable_change, H1.
Qed.

(** The registers after programming, word by word. *)
Lemma guest_program_words c i b a :
  arrays_ok c -> bar_wf c i b ->
  let c' := guest_program c i (bar_kind b) a in
  word_at (cs_data c') (bar_reg i) = Z.lor (Z.land (wrap 32 a) (low_mask b)) (bar_flags b) /\
  (bar_kind b = Mem64 ->
     word_at (cs_data c') (bar_reg i + 4) = Z.land (wrap 32 (Z.shiftr a 32)) (high_mask b)) /\
  forall j, (j < i \/ i + bar_regs (bar_kind b) <= j)%nat ->
    word_at (cs_data c') (bar_reg j) = word_at (cs_data c) (bar_reg j).
Proof.
  intros Hc W. pose proof (bar_reg_range c i b W) as R.
  assert (Hw : forall x, 0 <= wrap 32 x) by (intros; by apply wrap_fits).
  set (v := Z.lor _ _). set (h := Z.land (wrap 32 (Z.shiftr a 32)) _).
  assert (Hv : fits 32 v).
  { apply lor_fits; [done| |by eapply (fits_weaken 4); [|apply bar_flags_fits]].
    apply land_fits_l; [by apply wrap_fits|apply low_mask_fits]. }
  assert (Hh : fits 32 h) by (apply land_fits_l; [by apply wrap_fits|apply high_mask_fits]).
  assert (Hr : (bar_reg i + 4 <= CONFIG_SPACE_SIZE)%nat)
    by (unfold CONFIG_SPACE_SIZE, BAR0, BARS in *; destruct (bar_kind b); unfold bar_regs in R; lia).
  unfold guest_program. rewrite write_word by done. rewrite (merge_low c i b) by done. fold v.
  destruct (bar_kind b) eqn:K; unfold bar_regs in *.
  - split_and!; [by rewrite put_word_at, decide_True by tauto|done|].
    intros j Hj. unfold bar_reg in *. rewrite put_word_at, decide_False by (done || lia). done.
  - assert (Hc1 : arrays_ok (put c (bar_reg i) (le_bytes 4 v)))
      by (apply arrays_ok_put; [done|apply le_bytes_fits]).
    unfold CONFIG_SPACE_SIZE, BAR0, BARS in *.
    rewrite write_word by (unfold CONFIG_SPACE_SIZE; done || lia).
    rewrite (put_word_at c (bar_reg i) v (bar_reg i + 4)), decide_False, put_mask_same
      by (unfold CONFIG_SPACE_SIZE; done || lia).
    rewrite (merge_high c i b) by done. fold h. unfold CONFIG_SPACE_SIZE, BAR0, BARS in *. split_and!.
    + rewrite put_word_at, decide_False, put_word_at, decide_True by (unfold CONFIG_SPACE_SIZE; done || lia).
      done.
    + intros _. rewrite put_word_at, decide_True by (unfold CONFIG_SPACE_SIZE; done || lia). done.
    + intros j Hj. unfold bar_reg in *.
      rewrite put_word_at, decide_False, put_word_at, decide_False by (unfold CONFIG_SPACE_SIZE; done || lia).
      done.
Qed.

Lemma bar_address_word c i b :
  arrays_ok c -> bar_wf c i b -> bar c i = Some b ->
  bar_address c i =
  Some (Z.lor (Z.shiftl (match bar_kind b with Mem32 => 0
                         | Mem64 => word_at (cs_data c) (bar_reg i + 4) end) 32)
              (Z.land (word_at (cs_data c) (bar_reg i)) (not_w 32 0xf))).
Proof.
  intros Hc W Hb. pose proof (bar_reg_range c i b W) as R. unfold bar_address. rewrite Hb.
  cbn [mbind option_bind]. unfold BAR0, BARS in R.
  destruct (bar_kind b); unfold bar_regs in R; by rewrite !u32_at_word by (done || lia).
Qed.

(** Address bits a BAR register pair can hold. *)
Definition bar_width (kind : BarKind) : Z := match kind with Mem32 => 32 | Mem64 => 64 end.

Lemma join_address b a :
  bar_valid b -> 0 <= a ->
  Z.lor (Z.shiftl (match bar_kind b with Mem32 => 0
                   | Mem64 => Z.land (wrap 32 (Z.shiftr a 32)) (high_mask b) end) 32)
        (Z.land (Z.lor (Z.land (wrap 32 a) (low_mask b)) (bar_flags b)) (not_w 32 0xf)) =
  Z.land (wrap (bar_width (bar_kind b)) a) (address_mask b).
Proof.
  intros V Ha. pose proof (bar_valid_log b V) as (s & Hs & Hr). pose proof (bar_flags_fits b) as Hf.
  assert (Hs4 : 4 <= s <= 63) by (destruct (bar_kind b); lia).
  apply Z.bits_inj'. intros j Hj.
  rewrite Z.lor_spec, Z.shiftl_spec, !Z.land_spec, Z.lor_spec, !Z.land_spec, not_w_testbit by done.
  rewrite !wrap_testbit, (size_mask_testbit b s), (low_mask_testbit b s)
    by (destruct (bar_kind b); done || lia).
  assert (Hhi : j < 32 -> forall x, Z.testbit x (j - 32) = false)
    by (intros; by rewrite Z.testbit_neg_r by lia).
  destruct (decide (j < 4)) as [H4|H4].
  { rewrite Hhi by lia. change 0xf with (Z.ones 4). rewrite Z.ones_spec_low by lia. simpl.
    destruct (Z.leb_spec s j); [lia|]. by rewrite !andb_false_r. }
  rewrite (testbit_high 0xf 4), (testbit_high (bar_flags b) 4), orb_false_r, andb_true_r by (done || lia).
  destruct (decide (j < 32)) as [H32|H32].
  { rewrite Hhi by lia. destruct (bar_kind b); unfold bar_width;
      destruct (Z.ltb_spec j 32), (Z.ltb_spec j 64); try lia; simpl; by rewrite andb_true_r. }
  destruct (Z.ltb_spec j 32); [lia|]. simpl. rewrite ?andb_false_r, orb_false_r.
  destruct (bar_kind b); unfold bar_width; [destruct (Z.ltb_spec j 32); [lia|by rewrite Z.testbit_0_l]|].
  rewrite Z.land_spec, wrap_testbit, Z.shiftr_spec, (high_mask_testbit b s) by (done || lia).
  replace (j - 32 + 32) with j by lia.
  destruct (Z.ltb_spec (j - 32) 32), (Z.ltb_spec j 64); simpl; done || lia.
Qed.

(** Programming one BAR leaves every other BAR's address alone. *)
Lemma guest_program_other c i b a j :
  arrays_ok c -> bars_ok c -> bar c i = Some b -> j <> i ->
  bar_address (guest_program c i (bar_kind b) a) j = bar_address c j.
Proof.
  intros Hc (_ & Hbs & _) Hb Hij. pose proof (bar_slot c i b Hb) as Si.
  pose proof (Hbs i b Si) as W.
  pose proof (guest_program_change c i (bar_kind b) a Hc) as (Hc' & (_ & Sb & _) & _).
  destruct (guest_program_words c i b a Hc W) as (_ & _ & Hw).
  set (c' := guest_program _ _ _ _) in *.
  destruct (bar c j) as [bj|] eqn:Hj.
  2: { unfold bar_address. replace (bar c' j) with (bar c j) by (unfold bar; by rewrite Sb). by rewrite Hj. }
  pose proof (bar_slot c j bj Hj) as Sj. pose proof (Hbs j bj Sj) as Wj.
  pose proof (bar_reg_range c j bj Wj) as R.
  assert (Hj' : bar c' j = Some bj) by (unfold bar in *; by rewrite Sb).
  assert (Hd : forall n, (n < bar_regs (bar_kind bj))%nat ->
            (j + n < i \/ i + bar_regs (bar_kind b) <= j + n)%nat).
  { intros n Hn. destruct W as (_ & _ & _ & _ & U), Wj as (_ & _ & _ & _ & Uj).
    destruct (bar_kind b), (bar_kind bj); unfold bar_regs in *; try lia.
    - assert (S j <> i) by (intros E; destruct (Uj eq_refl) as [E' _]; rewrite E in E'; congruence). lia.
    - assert (j <> S i) by (intros E; destruct (U eq_refl) as [E' _]; rewrite <- E in E'; congruence). lia.
    - assert (S j <> i) by (intros E; destruct (Uj eq_refl) as [E' _]; rewrite E in E'; congruence).
      assert (j <> S i) by (intros E; destruct (U eq_refl) as [E' _]; rewrite <- E in E'; congruence). lia. }
  unfold bar_address. rewrite Hj, Hj'. cbn [mbind option_bind]. unfold BAR0, BARS in R.
  assert (Hlow : word_at (cs_data c') (bar_reg j) = word_at (cs_data c) (bar_reg j)).
  { apply Hw. rewrite <- (Nat.add_0_r j). apply Hd. destruct (bar_kind bj); unfold bar_regs; lia. }
  destruct (bar_kind bj); unfold bar_regs in *; rewrite !u32_at_word, Hlow by (done || lia); [done|].
  replace (bar_reg j + 4)%nat with (bar_reg (j + 1)) by (unfold bar_reg; lia).
  rewrite Hw by (apply Hd; lia). done.
Qed.

(** ** Capability list *)

(** The pointer byte that leads to an entry: 0 ends the list. *)
Definition ptr (e : option (nat * Z)) : Z := match e with Some (o, _) => Z.of_nat o | None => 0 end.

(** The list in config space is [l], entries as (offset, id) in list order, in
    read-only bytes, and there is room from [cs_next_cap] on. *)
Record caps_ok (c : ConfigSpace) (l : list (nat * Z)) : Prop := {
  co_entry : forall i o id, l !! i = Some (o, id) ->
    (FIRST_CAP <= o /\ S o < cs_next_cap c /\ o `mod` 4 = 0)%nat /\
    byte_at (cs_data c) o = id /\ byte_at (cs_data c) (S o) = ptr (l !! S i) /\
    byte_at (cs_wmask c) o = 0 /\ byte_at (cs_wmask c) (S o) = 0;
  co_ascending : forall i j o o' id id', (i < j)%nat ->
    l !! i = Some (o, id) -> l !! j = Some (o', id') -> (o < o')%nat;
  co_next : (FIRST_CAP <= cs_next_cap c <= CONFIG_SPACE_SIZE /\ cs_next_cap c `mod` 4 = 0)%nat;
  co_last : cs_last_cap c = fst <$> l !! pred (length l);
  co_ptr : byte_at (cs_data c) CAP_PTR = ptr (l !! 0%nat) /\ byte_at (cs_wmask c) CAP_PTR = 0;
  co_status : Z.testbit (byte_at (cs_data c) STATUS) 4 = bool_decide (l <> []) /\
              byte_at (cs_wmask c) STATUS = 0;
  co_free : forall k, (cs_next_cap c <= k)%nat -> byte_at (cs_wmask c) k = 0;
}.

(** Outside the BAR registers [c'] has the masks of [c] and its read-only bytes. *)
Definition cap_frame (c c' : ConfigSpace) : Prop :=
  cs_next_cap c' = cs_next_cap c /\ cs_last_cap c' = cs_last_cap c /\
  forall k, (k < BAR0 \/ BAR0 + 4 * BARS <= k)%nat ->
    byte_at (cs_wmask c') k = byte_at (cs_wmask c) k /\
    (byte_at (cs_wmask c) k = 0 -> byte_at (cs_data c') k = byte_at (cs_data c) k).

Lemma caps_ok_frame c c' l : caps_ok c l -> cap_frame c c' -> caps_ok c' l.
Proof.
  intros [He Ha Hn Hl [Hp Hpm] [Hs Hsm] Hf] (N & L & F).
  assert (Hn' := Hn). unfold FIRST_CAP, CONFIG_SPACE_SIZE, BAR0, BARS, CAP_PTR, STATUS in *.
  split; rewrite ?N, ?L; try done.
  - intros i o id Hi. destruct (He i o id Hi) as (R & D1 & D2 & M1 & M2). split; [done|].
    destruct (F o) as [F1 F2]; [lia|]. destruct (F (S o)) as [F3 F4]; [lia|].
    rewrite F1, F3, F2, F4 by done. done.
  - unfold CAP_PTR. destruct (F 0x34%nat) as [F1 F2]; [lia|]. by rewrite F1, F2.
  - unfold STATUS. destruct (F 0x06%nat) as [F1 F2]; [lia|]. by rewrite F1, F2.
  - intros k Hk. destruct (F k) as [F1 _]; [lia|]. rewrite F1. by apply Hf.
Qed.

Lemma writable_change_frames c c' :
  arrays_ok c -> writable_change c c' -> bar_frame c c' /\ cap_frame c c'.
Proof.
  intros (_ & _ & Hd & _) (Ha & (S1 & S2 & S3 & S4) & H). split.
  - split_and!; [done..|]. intros k _. rewrite S1. split; [done|]. apply H.
  - split_and!; [done..|]. intros k _. rewrite S1. split; [done|]. intros Hm.
    apply byte_ext; [apply byte_at_fits, Ha|by apply byte_at_fits|].
    intros b Hb. apply H; [done|]. rewrite Hm. apply Z.testbit_0_l.
Qed.

Lemma add_bar_cap_frame c index b c' :
  arrays_ok c -> bars_ok c -> add_bar c index b = Ok c' -> cap_frame c c'.
Proof.
  intros Hc Hb H. pose proof (add_bar_inv c index b c' Hc Hb H) as (V & R & E & ->).
  destruct Hc as (Hld & Hlm & _). split_and!; [done..|]. intros k Hk. cbn [cs_data cs_wmask].
  assert (L : forall x, length (le_bytes 4 x) = 4%nat) by (intros; apply length_le_bytes).
  unfold bar_reg, BAR0, BARS, CONFIG_SPACE_SIZE in *.
  destruct (bar_kind b); unfold bar_regs in R;
    rewrite !byte_at_inserts; rewrite ?length_app, ?L; simpl length; try lia;
    rewrite !decide_False by lia; done.
Qed.

Lemma ldiff3_spec n : (Nat.ldiff n 3 mod 4 = 0 /\ n <= Nat.ldiff n 3 + 3 /\ Nat.ldiff n 3 <= n)%nat.
Proof.
  replace (Nat.ldiff n 3) with (Nat.ldiff n (Nat.ones 2)) by done. rewrite Nat.ldiff_ones_r.
  rewrite Nat.shiftl_mul_pow2, Nat.shiftr_div_pow2. change (2 ^ 2)%nat with 4%nat.
  rewrite Nat.Div0.mod_mul. split; [done|].
  pose proof (Nat.div_mod_eq n 4). pose proof (Nat.mod_upper_bound n 4 ltac:(lia)). lia.
Qed.

(** [(n + 3) & !3] rounds up to a multiple of 4, inside the array. *)
Lemma round_up4 n :
  (n <= CONFIG_SPACE_SIZE)%nat ->
  (n <= Nat.ldiff (n + 3) 3 <= CONFIG_SPACE_SIZE /\ Nat.ldiff (n + 3) 3 mod 4 = 0)%nat.
Proof.
  intros Hn. pose proof (ldiff3_spec (n + 3)) as D. revert D. generalize (Nat.ldiff (n + 3) 3).
  intros z D. pose proof (Nat.div_mod_eq z 4). unfold CONFIG_SPACE_SIZE in *. lia.
Qed.

Lemma byte_at_put c k bs j :
  arrays_ok c -> (k + length bs <= CONFIG_SPACE_SIZE)%nat ->
  byte_at (cs_data (put c k bs)) j =
  if decide (k <= j < k + length bs)%nat then byte_at bs (j - k) else byte_at (cs_data c) j.
Proof.
  intros (Hl & _) Hk. destruct (decide (length bs = 0%nat)) as [H0|H0].
  - unfold put. rewrite decide_False by lia. rewrite Nat.min_l by lia.
    destruct (Nat.ltb_spec k (k + length bs)); [lia|done].
  - rewrite put_inserts by lia. cbn [set_data cs_data]. apply byte_at_inserts. lia.
Qed.

Lemma arrays_ok_set c i x :
  arrays_ok c -> fits 8 x -> arrays_ok (set_data c (<[i := x]> (cs_data c))).
Proof.
  intros (H1 & H2 & H3 & H4) Hx. unfold arrays_ok. cbn [set_data cs_data cs_wmask].
  rewrite length_insert. split_and!; [done..|by apply Forall_insert|done].
Qed.

Lemma arrays_ok_put_mask c k bs : arrays_ok c -> Forall (fits 8) bs -> arrays_ok (put_mask c k bs).
Proof.
  intros (H1 & H2 & H3 & H4) Hx. unfold arrays_ok. cbn [put_mask set_wmask cs_data cs_wmask].
  rewrite length_inserts. split_and!; [done..|by apply Forall_inserts].
Qed.

(** The status bit survives the store of the status word. *)
Lemma status_bit x : Z.testbit (byte_at (le_bytes 2 (Z.lor x STATUS_CAP_LIST)) 0) 4 = true.
Proof.
  unfold byte_at. rewrite le_bytes_testbit by lia. rewrite Z.lor_spec. apply orb_true_r.
Qed.

(** The slot that gets the new pointer lies before the new entry and outside
    the status register. *)
Lemma link_at_range c l :
  caps_ok c l ->
  (link_at c < cs_next_cap c)%nat /\ link_at c <> STATUS /\ link_at c <> S STATUS /\
  match l !! pred (length l) with
  | Some (p, _) => link_at c = S p
  | None => l = [] /\ link_at c = CAP_PTR
  end.
Proof.
  intros Hl. destruct (co_next c l Hl) as [Hr _]. unfold link_at, STATUS, CAP_PTR, FIRST_CAP in *.
  rewrite (co_last c l Hl). destruct (l !! pred (length l)) as [[p pid]|] eqn:Hp; simpl.
  - apply (co_entry c l Hl) in Hp as ((? & ? & _) & _). unfold FIRST_CAP in *. lia.
  - apply lookup_ge_None in Hp. destruct l; [|simpl in Hp; lia]. split_and!; (done || lia).
Qed.

Lemma put_entry_bytes c o id body wm :
  arrays_ok c -> fits 8 id -> Forall (fits 8) body -> Forall (fits 8) wm ->
  (o + (2 + length body) <= CONFIG_SPACE_SIZE)%nat -> (length wm <= length body)%nat ->
  let c' := put_entry c o id body wm in
  arrays_ok c' /\ cs_bars c' = cs_bars c /\ cs_last_cap c' = cs_last_cap c /\
  (forall k, byte_at (cs_wmask c') k =
     if decide (o + 2 <= k < o + 2 + length wm)%nat
     then byte_at wm (k - (o + 2)) else byte_at (cs_wmask c) k) /\
  (forall k, (k < o + 2 \/ o + 2 + length body <= k)%nat ->
     byte_at (cs_data c') k =
     if decide (k = S o) then 0 else if decide (k = o) then id else byte_at (cs_data c) k).
Proof.
  intros Hc Hid Hbody Hwm Hfit Hlen. unfold put_entry. set (c1 := set_data c _). set (c2 := set_data c1 _).
  assert (A1 : arrays_ok c1) by by apply arrays_ok_set.
  assert (A2 : arrays_ok c2) by by apply arrays_ok_set.
  destruct (put_shape c2 (o + 2) body) as (M3 & B3 & _ & L3). split_and!.
  - apply arrays_ok_put_mask; [by apply arrays_ok_put|done].
  - exact B3.
  - exact L3.
  - intros k. cbn [put_mask set_wmask cs_wmask]. rewrite M3. unfold c2, c1. cbn [set_data cs_wmask].
    apply byte_at_inserts. destruct Hc as (_ & -> & _). lia.
  - intros k Hk. cbn [put_mask set_wmask cs_data]. rewrite byte_at_put, decide_False by (done || lia).
    unfold c2. cbn [set_data cs_data]. rewrite byte_at_insert by (destruct A1 as (-> & _); lia).
    destruct (decide (S o = k)) as [E1|E1]; [by rewrite decide_True by done|rewrite decide_False by done].
    unfold c1. cbn [set_data cs_data]. rewrite byte_at_insert by (destruct Hc as (-> & _); lia).
    destruct (decide (o = k)) as [E2|E2]; [by rewrite decide_True by done|by rewrite decide_False by done].
Qed.

Lemma put_status_bytes c :
  arrays_ok c ->
  arrays_ok (put_status c) /\ same_shape c (put_status c) /\
  Z.testbit (byte_at (cs_data (put_status c)) STATUS) 4 = true /\
  (forall k, k <> STATUS -> k <> S STATUS -> byte_at (cs_data (put_status c)) k = byte_at (cs_data c) k).
Proof.
  intros Hc. unfold put_status. set (st := Z.lor _ _).
  assert (Lst : length (le_bytes 2 st) = 2%nat) by apply length_le_bytes.
  split_and!; [by apply arrays_ok_put; [|apply le_bytes_fits]|apply put_shape..| |].
  - rewrite byte_at_put by (rewrite ?Lst; unfold CONFIG_SPACE_SIZE, STATUS; done || lia).
    rewrite Lst, decide_True, Nat.sub_diag by lia. apply status_bit.
  - intros k K1 K2. unfold STATUS in *.
    rewrite byte_at_put by (rewrite ?Lst; unfold CONFIG_SPACE_SIZE; done || lia).
    by rewrite Lst, decide_False by lia.
Qed.

(** The data and the masks after [add_capability], byte by byte. *)
Lemma add_capability_bytes c l id body wm o c' :
  arrays_ok c -> caps_ok c l -> fits 8 id -> Forall (fits 8) body -> Forall (fits 8) wm ->
  add_capability c id body wm = Ok (o, c') ->
  o = Z.of_nat (cs_next_cap c) /\ arrays_ok c' /\ cs_bars c' = cs_bars c /\
  cs_last_cap c' = Some (cs_next_cap c) /\
  (cs_next_cap c + 2 + length body <= cs_next_cap c' <= CONFIG_SPACE_SIZE /\
   cs_next_cap c' mod 4 = 0)%nat /\
  (forall k, byte_at (cs_wmask c') k =
     if decide (cs_next_cap c + 2 <= k < cs_next_cap c + 2 + length wm)%nat
     then byte_at wm (k - (cs_next_cap c + 2)) else byte_at (cs_wmask c) k) /\
  (length wm <= length body)%nat /\
  Z.testbit (byte_at (cs_data c') STATUS) 4 = true /\
  (forall k, k <> STATUS -> k <> S STATUS -> (k < cs_next_cap c + 2 \/ cs_next_cap c + 2 + length body <= k)%nat ->
     byte_at (cs_data c') k =
     if decide (k = link_at c) then Z.of_nat (cs_next_cap c)
     else if decide (k = S (cs_next_cap c)) then 0
     else if decide (k = cs_next_cap c) then id
     else byte_at (cs_data c) k).
Proof.
  intros Hc Hl Hid Hbody Hwm H. unfold add_capability in H.
  destruct (Nat.ltb_spec CONFIG_SPACE_SIZE (cs_next_cap c + (2 + length body))) as [|Hfit]; [done|].
  destruct (Nat.ltb_spec (length body) (length wm)) as [|Hlen]; [done|]. cbn [orb] in H.
  destruct (co_next c l Hl) as [Hr _]. destruct (link_at_range c l Hl) as (Hat & _).
  set (o0 := cs_next_cap c) in *.
  destruct (put_entry_bytes c o0 id body wm Hc Hid Hbody Hwm Hfit Hlen) as (A3 & B3 & L3 & M3 & D3).
  set (c3 := put_entry c o0 id body wm) in *. replace (link_at c3) with (link_at c) in H
    by (unfold link_at; by rewrite L3).
  assert (Ho : wrap 8 (Z.of_nat o0) = Z.of_nat o0)
    by (apply wrap_small; unfold CONFIG_SPACE_SIZE in *; split; lia).
  assert (F0 : fits 8 (Z.of_nat o0)) by (rewrite <- Ho; by apply wrap_fits). rewrite Ho in H.
  set (c4 := set_data c3 _) in H. assert (A4 : arrays_ok c4) by by apply arrays_ok_set.
  destruct (put_status_bytes c4 A4) as (A5 & (M5 & B5 & _) & St & D5).
  set (c5 := put_status c4) in *. clearbody c5.
  pose proof (round_up4 (o0 + (2 + length body)) Hfit) as D4.
  injection H as <- <-. cbn [cs_data cs_wmask cs_bars cs_next_cap cs_last_cap].
  split_and!; [done|exact A5|by rewrite B5|done|rewrite <- Nat.add_assoc; apply D4|apply D4|apply D4| |done|done|].
  - intros k. rewrite M5. apply M3.
  - intros k K1 K2 K3. rewrite D5 by done. unfold c4. cbn [set_data cs_data].
    rewrite byte_at_insert by (destruct A3 as (-> & _); lia).
    destruct (decide (link_at c = k)) as [E|E]; [by rewrite decide_True by done|rewrite decide_False by done].
    by apply D3.
Qed.

Lemma add_capability_bar_frame c l id body wm o c' :
  arrays_ok c -> caps_ok c l -> fits 8 id -> Forall (fits 8) body -> Forall (fits 8) wm ->
  add_capability c id body wm = Ok (o, c') -> bar_frame c c'.
Proof.
  intros Hc Hl Hid Hb Hw H.
  destruct (add_capability_bytes c l id body wm o c' Hc Hl Hid Hb Hw H)
    as (_ & A & B & _ & _ & M & _ & _ & D).
  pose proof (co_next c l Hl) as [N _]. destruct (link_at_range c l Hl) as (_ & _ & _ & Hat).
  split_and!; [done..|]. unfold BAR0, BARS, FIRST_CAP, CONFIG_SPACE_SIZE in *. intros k Hk.
  rewrite M, decide_False by lia. split; [done|]. intros b _ _.
  rewrite D by (unfold STATUS; lia). rewrite !decide_False; [done|lia..|].
  destruct (l !! pred (length l)) as [[p pid]|] eqn:Hp.
  - apply (co_entry c l Hl) in Hp as ((? & _) & _). unfold FIRST_CAP in *. lia.
  - destruct Hat as [_ ->]. unfold CAP_PTR. lia.
Qed.

Lemma lookup_snoc_cases {A} (l : list A) x i y :
  (l ++ [x]) !! i = Some y -> l !! i = Some y \/ (i = length l /\ y = x).
Proof.
  intros H. apply lookup_app_Some in H as [H|[Hle H]]; [by left|].
  apply list_lookup_singleton_Some in H as [E <-]. right. split; [lia|done].
Qed.

(** An old entry after [add_capability]: only the last one's pointer changed. *)
Lemma old_entry c l id body wm o c' i p pid :
  arrays_ok c -> caps_ok c l -> fits 8 id -> Forall (fits 8) body -> Forall (fits 8) wm ->
  add_capability c id body wm = Ok (o, c') -> l !! i = Some (p, pid) ->
  byte_at (cs_data c') p = pid /\
  byte_at (cs_data c') (S p) = ptr ((l ++ [(cs_next_cap c, id)]) !! S i) /\
  byte_at (cs_wmask c') p = 0 /\ byte_at (cs_wmask c') (S p) = 0.
Proof.
  intros Hc Hl Hid Hb Hw H Hi.
  destruct (add_capability_bytes c l id body wm o c' Hc Hl Hid Hb Hw H) as (_ & _ & _ & _ & _ & M & Lw & _ & D).
  destruct (co_entry c l Hl i p pid Hi) as ((R1 & R2 & R3) & D1 & D2 & M1 & M2).
  destruct (link_at_range c l Hl) as (_ & _ & _ & Hat). pose proof (Nat.div_mod_eq p 4) as Hpd.
  apply lookup_lt_Some in Hi as Hil. unfold FIRST_CAP in R1.
  destruct (l !! pred (length l)) as [[q qid]|] eqn:Hq; [|apply lookup_ge_None in Hq; lia].
  destruct (co_entry c l Hl _ q qid Hq) as ((_ & _ & Hq4) & _). pose proof (Nat.div_mod_eq q 4).
  rewrite !M, !decide_False by lia. rewrite !D, Hat by (unfold STATUS; lia).
  rewrite (decide_False (P := p = S q)), (decide_False (P := p = S (cs_next_cap c))),
    (decide_False (P := p = cs_next_cap c)) by lia.
  split_and!; [done| |done|done]. destruct (decide (S i < length l)%nat) as [Hin|Hin].
  - rewrite lookup_app_l by done.
    assert (p < q)%nat by (by eapply (co_ascending c l Hl i (pred (length l))); [lia|..]).
    by rewrite !decide_False by lia.
  - replace (S i) with (length l) by lia. rewrite lookup_app_r, Nat.sub_diag by done.
    replace (pred (length l)) with i in Hq by lia. rewrite Hi in Hq. injection Hq as <- <-.
    by rewrite decide_True.
Qed.

(** The new entry: its id, an end-of-list pointer, read-only. *)
Lemma new_entry c l id body wm o c' :
  arrays_ok c -> caps_ok c l -> fits 8 id -> Forall (fits 8) body -> Forall (fits 8) wm ->
  add_capability c id body wm = Ok (o, c') ->
  byte_at (cs_data c') (cs_next_cap c) = id /\ byte_at (cs_data c') (S (cs_next_cap c)) = 0 /\
  byte_at (cs_wmask c') (cs_next_cap c) = 0 /\ byte_at (cs_wmask c') (S (cs_next_cap c)) = 0.
Proof.
  intros Hc Hl Hid Hb Hw H.
  destruct (add_capability_bytes c l id body wm o c' Hc Hl Hid Hb Hw H) as (_ & _ & _ & _ & _ & M & Lw & _ & D).
  destruct (co_next c l Hl) as [N _]. destruct (link_at_range c l Hl) as (Hlt & _).
  pose proof (co_free c l Hl) as Hfree. unfold FIRST_CAP in N.
  rewrite !M, !decide_False by lia. rewrite !Hfree by lia. rewrite !D by (unfold STATUS; lia).
  rewrite (decide_False (P := cs_next_cap c = link_at c)), (decide_False (P := S (cs_next_cap c) = link_at c)),
    (decide_False (P := cs_next_cap c = S (cs_next_cap c))), !decide_True by (done || lia).
  done.
Qed.

Lemma add_capability_caps c l id body wm o c' :
  arrays_ok c -> caps_ok c l -> fits 8 id -> Forall (fits 8) body -> Forall (fits 8) wm ->
  add_capability c id body wm = Ok (o, c') -> caps_ok c' (l ++ [(cs_next_cap c, id)]).
Proof.
  intros Hc Hl Hid Hb Hw H.
  destruct (add_capability_bytes c l id body wm o c' Hc Hl Hid Hb Hw H)
    as (_ & A & _ & L' & N' & M & Lw & St & D).
  destruct (co_next c l Hl) as [N N4]. destruct (link_at_range c l Hl) as (_ & _ & _ & Hat).
  assert (Hent : forall i p pid, l !! i = Some (p, pid) -> (FIRST_CAP <= p /\ S p < cs_next_cap c /\ p mod 4 = 0)%nat).
  { intros i p pid Hi. by apply (co_entry c l Hl) in Hi as (? & _). }
  unfold FIRST_CAP, CONFIG_SPACE_SIZE in *. split.
  - intros i p pid [Hi|[-> [= -> ->]]]%lookup_snoc_cases.
    + pose proof (Hent i p pid Hi). split; [unfold FIRST_CAP; lia|].
      exact (old_entry _ _ _ _ _ _ _ _ _ _ Hc Hl Hid Hb Hw H Hi).
    + destruct (new_entry _ _ _ _ _ _ _ Hc Hl Hid Hb Hw H) as (E1 & E2 & E3 & E4).
      unfold FIRST_CAP. split_and!; [lia|lia|done|done| |done|done].
      by rewrite E2, lookup_ge_None_2 by (rewrite length_app; simpl; lia).
  - intros i j p q pid qid Hij [Hi|[-> [= -> ->]]]%lookup_snoc_cases [Hj|[-> [= -> ->]]]%lookup_snoc_cases.
    + by eapply (co_ascending c l Hl i j).
    + apply Hent in Hi. lia.
    + apply lookup_lt_Some in Hj. lia.
    + lia.
  - unfold FIRST_CAP, CONFIG_SPACE_SIZE. split; [lia|apply N'].
  - rewrite L', length_app. simpl. replace (pred (length l + 1)) with (length l) by lia.
    by rewrite lookup_app_r, Nat.sub_diag by done.
  - unfold CAP_PTR in *. rewrite M, decide_False by lia. destruct (co_ptr c l Hl) as [P Pm].
    split; [|done]. rewrite D by (unfold STATUS; lia).
    destruct (l !! pred (length l)) as [[q qid]|] eqn:Hq.
    + pose proof (Hent _ _ _ Hq). rewrite !decide_False by lia. by destruct l.
    + destruct Hat as [-> Hat]. by rewrite decide_True by done.
  - split; [rewrite bool_decide_true; [done|by destruct l]|].
    rewrite M, decide_False by (unfold STATUS; lia). apply (co_status c l Hl).
  - intros k Hk. rewrite M, decide_False by lia. apply (co_free c l Hl). lia.
Qed.

(** ** Every config space the program can hold *)

Definition config_inv (c : ConfigSpace) (l : list (nat * Z)) : Prop :=
  arrays_ok c /\ bars_ok c /\ caps_ok c l.

(** Config spaces reachable from [new], with the capabilities declared so far:
    BARs and capabilities added by the device, guest writes, and host BAR
    assignment, in any order. *)
Inductive built : ConfigSpace -> list (nat * Z) -> Prop :=
| built_new h : fits 8 (h_revision h) -> fits 8 (h_interrupt_pin h) -> built (new h) []
| built_bar c l i b c' : built c l -> add_bar c i b = Ok c' -> built c' l
| built_cap c l id body wm o c' :
    built c l -> fits 8 id -> Forall (fits 8) body -> Forall (fits 8) wm ->
    add_capability c id body wm = Ok (o, c') -> built c' (l ++ [(Z.to_nat o, id)])
| built_write c l offset size value : built c l -> built (write c offset size value) l
| built_assign c l i a : built c l -> 0 <= a -> built (set_bar_address c i a) l.

Lemma new_arrays h : fits 8 (h_revision h) -> fits 8 (h_interrupt_pin h) -> arrays_ok (new h).
Proof.
  intros Hr Hp. unfold new.
  assert (H0 : forall c i, arrays_ok c -> arrays_ok (set_wmask c (<[i := 0xff]> (cs_wmask c)))).
  { intros c i (H1 & H2 & H3 & H4). unfold arrays_ok. cbn [set_wmask cs_data cs_wmask].
    rewrite length_insert. split_and!; [done..|by apply Forall_insert]. }
  do 3 apply H0. apply arrays_ok_put_mask; [|apply le_bytes_fits]. apply arrays_ok_set; [|done].
  do 2 (apply arrays_ok_put; [|apply le_bytes_fits]).
  apply arrays_ok_put; [|apply Forall_take, le_bytes_fits]. apply arrays_ok_set; [|done].
  do 2 (apply arrays_ok_put; [|apply le_bytes_fits]).
  unfold arrays_ok. cbn [cs_data cs_wmask]. rewrite length_replicate.
  split_and!; [done..|by apply Forall_replicate|by apply Forall_replicate].
Qed.

Lemma new_bars h : bars_ok (new h).
Proof.
  split_and!; [done| |].
  - intros i b Hi. exfalso. do 6 (destruct i as [|i]; [done|]). done.
  - intros i Hi. do 6 (destruct i as [|i]; [by split; lazy|]). done.
Qed.

(** Nothing from the first capability on is writable in a fresh config space. *)
Lemma new_masks h k : (cs_next_cap (new h) <= k)%nat -> byte_at (cs_wmask (new h)) k = 0.
Proof.
  intros Hk. change (cs_next_cap (new h)) with FIRST_CAP in Hk. unfold FIRST_CAP in Hk.
  destruct (decide (k < 256)%nat) as [Hlt|Hge].
  - assert (Hall : Forall (fun k => byte_at (cs_wmask (new h)) k = 0) (seq 64 192))
      by (apply (bool_decide_unpack _); vm_compute; exact I).
    rewrite list.Forall_forall in Hall. apply Hall, elem_of_seq. lia.
  - unfold byte_at. rewrite lookup_ge_None_2; [done|]. change (length (cs_wmask (new h))) with 256%nat. lia.
Qed.

Lemma new_caps h : caps_ok (new h) [].
Proof.
  split.
  - done.
  - done.
  - change (cs_next_cap (new h)) with FIRST_CAP. unfold FIRST_CAP, CONFIG_SPACE_SIZE. split; [lia|done].
  - done.
  - by split; lazy.
  - by split; lazy.
  - apply new_masks.
Qed.

Lemma write_inv c l c' : config_inv c l -> writable_change c c' -> config_inv c' l.
Proof.
  intros (A & B & K) W. destruct (writable_change_frames c c' A W) as [F1 F2]. split_and!.
  - apply W.
  - by eapply bars_ok_frame.
  - by eapply caps_ok_frame.
Qed.

Lemma set_bar_address_change c i a :
  arrays_ok c -> bars_ok c -> 0 <= a -> writable_change c (set_bar_address c i a).
Proof.
  intros A B Ha. destruct (bar c i) as [b|] eqn:Hb.
  - rewrite (set_bar_address_guest c i b a A B Hb Ha). by apply guest_program_change.
  - unfold set_bar_address. rewrite Hb. split_and!; done.
Qed.

Lemma built_inv c l : built c l -> config_inv c l.
Proof.
  induction 1 as [h Hr Hp|c l i b c' _ (A & B & K) H|c l id body wm o c' _ (A & B & K) Hid Hb Hw H
                 |c l o n v _ IH|c l i a _ IH Ha].
  - split_and!; [by apply new_arrays|apply new_bars|apply new_caps].
  - destruct (add_bar_ok c i b c' A B H) as [A' B']. split_and!; [done..|].
    eapply caps_ok_frame; [done|]. by eapply add_bar_cap_frame.
  - pose proof (add_capability_bytes c l id body wm o c' A K Hid Hb Hw H) as (-> & A' & _).
    rewrite Nat2Z.id. split_and!; [done| |exact (add_capability_caps _ _ _ _ _ _ _ A K Hid Hb Hw H)].
    eapply bars_ok_frame; [exact A|done|].
    exact (add_capability_bar_frame _ _ _ _ _ _ _ A K Hid Hb Hw H).
  - eapply write_inv; [done|]. apply write_writable_change, IH.
  - eapply write_inv; [done|]. by apply set_bar_address_change; [apply IH..|].
Qed.

(** ** The capability walk *)

Lemma masked_pointer x :
  fits 8 x -> exists n : nat, Z.land x (not_w 8 3) = 4 * Z.of_nat n /\ (n < 64)%nat.
Proof.
  intros Hx. pose proof (land_fits_l 8 x (not_w 8 3) Hx ltac:(done)) as Hl.
  assert (Hall : Forall (fun n => Z.land (Z.of_nat n) (not_w 8 3) mod 4 = 0) (seq 0 256))
    by (apply (bool_decide_unpack _); vm_compute; exact I).
  rewrite list.Forall_forall in Hall. specialize (Hall (Z.to_nat x)).
  rewrite elem_of_seq, Z2Nat.id in Hall by (unfold fits in Hx; lia).
  unfold fits in *. set (y := Z.land x _) in *. exists (Z.to_nat (y / 4)).
  assert (0 <= y / 4) by (apply Z.div_pos; lia). assert (y / 4 < 64) by (apply Z.div_lt_upper_bound; lia).
  pose proof (Z.div_mod y 4). rewrite Hall in * by lia. lia.
Qed.

Lemma aligned_pointer o :
  (o < 256)%nat -> (o mod 4 = 0)%nat -> Z.land (Z.of_nat o) (not_w 8 3) = Z.of_nat o.
Proof.
  intros Ho. assert (Hall : Forall (fun n => (n mod 4 = 0)%nat ->
    Z.land (Z.of_nat n) (not_w 8 3) = Z.of_nat n) (seq 0 256))
    by (apply (bool_decide_unpack _); vm_compute; exact I).
  rewrite list.Forall_forall in Hall. apply Hall, elem_of_seq. lia.
Qed.

(** Every pointer the walk follows is one of 48 offsets. *)
Definition cap_slots : list Z := (fun n => 4 * Z.of_nat n) <$> seq 16 48.

Lemma cap_walk_total c fuel caps (n : nat) :
  NoDup (cap_offset <$> caps) -> (forall x, x ∈ cap_offset <$> caps -> x ∈ cap_slots) ->
  (n < 64)%nat -> (49 <= fuel + length caps)%nat ->
  is_Some (cap_walk fuel c caps (4 * Z.of_nat n)).
Proof.
  revert caps n. induction fuel as [|fuel IH]; intros caps n Hnd Hin Hn Hf.
  - exfalso. assert (Hs : cap_offset <$> caps ⊆+ cap_slots) by by apply NoDup_submseteq.
    apply submseteq_length in Hs. unfold cap_slots in Hs.
    rewrite !length_fmap, length_seq in Hs. lia.
  - cbn [cap_walk]. destruct (Z.eqb_spec (4 * Z.of_nat n) 0) as [|H0]; [done|].
    destruct (Z.ltb_spec (4 * Z.of_nat n) CAP_SPACE_START) as [|H1]; [done|].
    destruct (existsb _ caps) eqn:He; [done|].
    destruct (masked_pointer (wrap 8 (read c (4 * Z.of_nat n + 1) 1))) as (m & -> & Hm);
      [by apply wrap_fits|].
    apply IH; [| |done|rewrite length_app; simpl; lia].
    + rewrite fmap_app. apply list.NoDup_app. split_and!; [done| |apply NoDup_singleton].
      intros x Hx Hx'. apply list_elem_of_singleton in Hx' as ->.
      apply list_elem_of_fmap in Hx as (cap & Hoff & Hcap).
      assert (existsb (fun cap => cap_offset cap =? 4 * Z.of_nat n) caps = true); [|congruence].
      apply existsb_exists. exists cap. split; [by apply list_elem_of_In|]. by apply Z.eqb_eq.
    + intros x. rewrite fmap_app, elem_of_app. intros [Hx|Hx]; [by apply Hin|].
      apply list_elem_of_singleton in Hx as ->. apply list_elem_of_fmap. exists n. split; [done|].
      unfold CAP_SPACE_START in H1. apply elem_of_seq. lia.
Qed.

(** A walk that has collected the first [k] declared entries collects them all. *)
Lemma cap_walk_declared c l fuel caps k r :
  config_inv c l -> (k <= length l)%nat ->
  (fun cap => (Z.to_nat (cap_offset cap), cap_id cap)) <$> caps = take k l ->
  cap_walk fuel c caps (ptr (l !! k)) = Some r ->
  exists caps', r = Ok caps' /\ (fun cap => (Z.to_nat (cap_offset cap), cap_id cap)) <$> caps' = l.
Proof.
  intros (A & B & K). revert caps k. induction fuel as [|fuel IH]; intros caps k Hk Hm; [done|].
  cbn [cap_walk]. destruct (l !! k) as [[o id]|] eqn:Ho; cbn [ptr].
  2: { apply lookup_ge_None in Ho. intros [= <-]. exists caps. split; [done|].
       rewrite Hm. apply take_ge. lia. }
  destruct (co_entry c l K k o id Ho) as ((R1 & R2 & R3) & D1 & D2 & _ & _).
  pose proof (proj1 (co_next c l K)) as R4. unfold FIRST_CAP, CONFIG_SPACE_SIZE in *.
  destruct (Z.eqb_spec (Z.of_nat o) 0); [lia|].
  destruct (Z.ltb_spec (Z.of_nat o) CAP_SPACE_START) as [Hlt|_]; [unfold CAP_SPACE_START in Hlt; lia|].
  destruct (existsb _ caps) eqn:He.
  { exfalso. apply existsb_exists in He as (cap & Hcap%list_elem_of_In & Heq%Z.eqb_eq).
    assert (Hin : (o, cap_id cap) ∈ take k l).
    { rewrite <- Hm. apply list_elem_of_fmap. exists cap. split; [|done]. by rewrite Heq, Nat2Z.id. }
    apply list_elem_of_lookup in Hin as (i & Hi). apply lookup_take_Some in Hi as [Hi Hik].
    assert (o < o)%nat; [|lia]. by eapply (co_ascending c l K i k). }
  rewrite !read_byte by (done || lia). rewrite Nat2Z.id, D1.
  replace (Z.to_nat (Z.of_nat o + 1)) with (S o) by lia. rewrite D2.
  assert (Hp : Z.land (ptr (l !! S k)) (not_w 8 3) = ptr (l !! S k)).
  { destruct (l !! S k) as [[o' id']|] eqn:Ho'; cbn [ptr]; [|done].
    destruct (co_entry c l K (S k) o' id' Ho') as ((S1 & S2 & S3) & _).
    apply aligned_pointer; [lia|done]. }
  rewrite Hp. apply IH; [apply lookup_lt_Some in Ho; lia|].
  rewrite fmap_app, Hm, (take_S_r l k (o, id)) by done. do 2 f_equal. cbn. by rewrite Nat2Z.id.
Qed.

Lemma capabilities_some c : is_Some (capabilities c).
Proof.
  unfold capabilities. destruct (_ =? 0); [done|].
  destruct (masked_pointer (wrap 8 (read c (Z.of_nat CAP_PTR) 1))) as (n & -> & Hn);
    [by apply wrap_fits|].
  apply cap_walk_total; [by apply list.NoDup_nil| |done|simpl; lia].
  intros x Hx. by apply not_elem_of_nil in Hx.
Qed.

(** Status bit 4 is how the guest learns whether there is a list. *)
Lemma status_cap_list c l :
  config_inv c l -> (Z.land (u16_at c STATUS) STATUS_CAP_LIST =? 0) = bool_decide (l = []).
Proof.
  intros (A & _ & K). destruct (co_status c l K) as [S _].
  assert (T : Z.testbit (u16_at c STATUS) 4 = Z.testbit (byte_at (cs_data c) STATUS) 4).
  { unfold u16_at. rewrite wrap_testbit by lia. rewrite read_of_le by done.
    change (Z.to_nat (wrap 16 (Z.of_nat STATUS))) with STATUS. change (Z.to_nat (Z.min 2 4)) with 2%nat.
    refine (of_le_testbit (byte_at (cs_data c) <$> seq STATUS 2) 0 4 _ _); [|lia].
    apply Forall_fmap, Forall_true. intros. apply byte_at_fits, A. }
  change STATUS_CAP_LIST with (2 ^ 4).
  assert (E : Z.land (u16_at c STATUS) (2 ^ 4) = if Z.testbit (u16_at c STATUS) 4 then 2 ^ 4 else 0).
  { apply Z.bits_inj'. intros i Hi. rewrite Z.land_spec, Z.pow2_bits_eqb by lia.
    destruct (Z.eqb_spec 4 i) as [<- |].
    - destruct (Z.testbit (u16_at c STATUS) 4); done.
    - rewrite andb_false_r. destruct (Z.testbit (u16_at c STATUS) 4); [|by rewrite Z.bits_0].
      symmetry. by apply Z.pow2_bits_false. }
  rewrite E, T, S. destruct l; done.
Qed.

(** ** Demonstration data for the witnesses *)

Definition demo_header : Header :=
  {| h_vendor_id := 0x1af4; h_device_id := 0x1042; h_class_code := 0x010000; h_revision := 1;
     h_subsystem_vendor_id := 0x1af4; h_subsystem_id := 0x1100; h_interrupt_pin := 1 |}.
Definition demo_bar : Bar := {| bar_size := 0x4000; bar_kind := Mem64; prefetchable := true |}.
Definition or_new (r : result PciError ConfigSpace) : ConfigSpace :=
  match r with Ok c => c | Err _ => new demo_header end.
Definition demo_with_bar : ConfigSpace := or_new (add_bar (new demo_header) 4 demo_bar).
Definition demo_config : ConfigSpace :=
  or_new (snd <$> add_capability demo_with_bar 0x09 [0x10; 1; 4] [0; 0xff]).

Lemma demo_with_bar_built : built demo_with_bar [].
Proof.
  refine (built_bar (new demo_header) [] 4 demo_bar _ _ _).
  - by apply built_new.
  - vm_compute. reflexivity.
Qed.

Lemma demo_config_built : built demo_config [(0x40%nat, 0x09)].
Proof.
  refine (built_cap demo_with_bar [] 0x09 [0x10; 1; 4] [0; 0xff] 0x40 _ demo_with_bar_built _ _ _ _).
  - done.
  - apply (bool_decide_unpack _). vm_compute. exact I.
  - apply (bool_decide_unpack _). vm_compute. exact I.
  - vm_compute. reflexivity.
Qed.

(** A guest config write changes exactly the writable bits of the bytes it
    covers: every bit of every byte is the written bit where the write covers it
    and its mask bit is set, and is untouched otherwise; masks, declared BARs
    and capability bookkeeping are untouched, and after any sequence of guest
    writes every read-only bit still has its old value. *)
Theorem config_write_spec (c : ConfigSpace) (offset size value : Z) (ws : list (Z * Z * Z)) :
  arrays_ok c -> 0 <= offset -> 0 <= size ->
  let c' := write c offset size value in
  arrays_ok c' /\ same_shape c c' /\
  (forall (k : nat) b, (k < CONFIG_SPACE_SIZE)%nat -> 0 <= b < 8 ->
     Z.testbit (byte_at (cs_data c') k) b =
     if (offset <=? Z.of_nat k) && (Z.of_nat k <? offset + Z.min size 4) &&
        Z.testbit (byte_at (cs_wmask c) k) b
     then Z.testbit value (8 * (Z.of_nat k - offset) + b)
     else Z.testbit (byte_at (cs_data c) k) b) /\
  (forall k b, 0 <= b < 8 -> Z.testbit (byte_at (cs_wmask c) k) b = false ->
     Z.testbit (byte_at (cs_data (guest_writes c ws)) k) b = Z.testbit (byte_at (cs_data c) k) b).
Proof.
  intros Hc Ho Hs. destruct (write_bytes c offset size value Hc) as (A & S & D).
  split_and!; [done..| |apply (guest_writes_change c ws Hc)].
  intros k b Hk Hb. rewrite D.
  destruct (Z.leb_spec offset (Z.of_nat k)), (Z.ltb_spec (Z.of_nat k) (offset + Z.min size 4));
    cbn [andb]; [|rewrite decide_False by lia; done..].
  rewrite decide_True by lia.
  rewrite merge_testbit by (try apply byte_at_fits; try apply Hc; lia).
  rewrite byte_of_testbit by done. by replace (Z.of_nat (k - Z.to_nat offset)) with (Z.of_nat k - offset) by lia.
Qed.

Lemma config_write_spec_witness :
  u16_at (write demo_config 0x04 2 0xffff) COMMAND = COMMAND_WRITABLE /\
  Z.testbit (byte_at (cs_data (guest_writes demo_config [(0, 4, 0); (0x34, 1, 0)])) 0x34) 6 = true.
Proof.
  split; [vm_compute; reflexivity|].
  destruct (config_write_spec demo_config 4 2 0xffff [(0, 4, 0); (0x34, 1, 0)]) as (_ & _ & _ & H).
  - apply (bool_decide_unpack _). vm_compute. exact I.
  - lia.
  - lia.
  - rewrite H; [vm_compute; reflexivity|lia|vm_compute; reflexivity].
Defined.

Lemma guest_program_facts (c : ConfigSpace) (l : list (nat * Z)) (i : nat) (b : Bar) (a : Z) :
  built c l -> bar c i = Some b -> 0 <= a ->
  let c' := guest_program c i (bar_kind b) a in
  bar_address c' i = Some (Z.land (wrap (bar_width (bar_kind b)) a) (not_w 64 (bar_size b - 1))) /\
  u32_at c' (bar_reg i) = Z.lor (Z.land (wrap 32 a) (low_mask b)) (bar_flags b) /\
  set_bar_address c i a = c' /\
  (forall j, j <> i -> bar_address c' j = bar_address c j).
Proof.
  intros Hbuilt Hb Ha. destruct (built_inv c l Hbuilt) as (A & B & _).
  pose proof (proj1 (proj2 B) i b (bar_slot c i b Hb)) as W.
  destruct (guest_program_words c i b a A W) as (W1 & W2 & _).
  pose proof (guest_program_change c i (bar_kind b) a A) as Hch.
  destruct (writable_change_frames c _ A Hch) as [F _].
  pose proof (bars_ok_frame c _ A B F) as B'. set (c' := guest_program _ _ _ _) in *.
  assert (A' : arrays_ok c') by apply Hch.
  assert (Hb' : bar c' i = Some b) by (unfold bar in *; destruct Hch as (_ & (_ & -> & _) & _); done).
  pose proof (proj1 (proj2 B') i b (bar_slot c' i b Hb')) as W'.
  pose proof (bar_reg_range c i b W) as R. unfold BAR0, BARS in R. split_and!.
  - rewrite (bar_address_word c' i b A' W' Hb'), W1. f_equal. rewrite <- join_address by (done || apply W).
    destruct (bar_kind b); [done|]. by rewrite W2.
  - rewrite u32_at_word by (done || destruct (bar_kind b); unfold bar_regs in R; lia). done.
  - by apply set_bar_address_guest.
  - intros j Hj. by apply guest_program_other.
Qed.

(** Programming a BAR.  In every reachable config space the register writes
    of a driver leave BAR [i] holding exactly the address bits its size allows,
    with the type flags in the low nibble (so all-ones reads back the size
    mask); host assignment with [set_bar_address] has the same effect as those
    writes; and no other BAR moves. *)
Theorem bar_programming (c : ConfigSpace) (l : list (nat * Z)) (i : nat) (b : Bar) (a : Z) :
  built c l -> bar c i = Some b -> fits 64 a ->
  let c' := guest_program c i (bar_kind b) a in
  bar_address c' i = Some (Z.land (wrap (bar_width (bar_kind b)) a) (not_w 64 (bar_size b - 1))) /\
  u32_at c' (bar_reg i) = Z.lor (Z.land (wrap 32 a) (low_mask b)) (bar_flags b) /\
  set_bar_address c i a = c' /\
  (forall j, j <> i -> bar_address c' j = bar_address c j).
Proof. intros Hc Hb [Ha _]. exact (guest_program_facts c l i b a Hc Hb Ha). Qed.

Lemma bar_programming_witness :
  u32_at (guest_program demo_config 4 Mem64 (2 ^ 64 - 1)) (bar_reg 4) = 0xffffc00c /\
  bar_address (guest_program demo_config 4 Mem64 0x123456789) 4 = Some 0x123454000.
Proof.
  assert (Hb : bar demo_config 4 = Some demo_bar) by (vm_compute; reflexivity).
  destruct (bar_programming demo_config _ 4 demo_bar (2 ^ 64 - 1) demo_config_built Hb) as (_ & H1 & _);
    [by apply (bool_decide_unpack _)|].
  destruct (bar_programming demo_config _ 4 demo_bar 0x123456789 demo_config_built Hb) as (H2 & _);
    [by apply (bool_decide_unpack _)|].
  change Mem64 with (bar_kind demo_bar).
  split; [rewrite H1; vm_compute; reflexivity|rewrite H2; vm_compute; reflexivity].
Defined.

(** In every reachable config space, whatever the guest has written, the
    capability walk succeeds and returns exactly the capabilities the device
    declared, in declaration order. *)
Theorem capabilities_complete (c : ConfigSpace) (l : list (nat * Z)) :
  built c l ->
  exists caps, capabilities c = Some (Ok caps) /\
    (fun cap => (Z.to_nat (cap_offset cap), cap_id cap)) <$> caps = l.
Proof.
  intros Hb. pose proof (built_inv c l Hb) as I. destruct (capabilities_some c) as [r Hr].
  unfold capabilities in *. rewrite (status_cap_list c l I) in *.
  destruct (bool_decide_reflect (l = [])) as [-> |Hne]; [by exists []|].
  destruct (co_ptr c l (proj2 (proj2 I))) as [P _].
  rewrite read_byte in * by (apply I || done). rewrite Nat2Z.id, P in *.
  assert (Hmask : Z.land (ptr (l !! 0%nat)) (not_w 8 3) = ptr (l !! 0%nat)).
  { destruct l as [|[o id] l]; [done|]. cbn [lookup list_lookup ptr].
    destruct (co_entry c _ (proj2 (proj2 I)) 0 o id eq_refl) as ((R1 & R2 & R3) & _).
    pose proof (proj1 (co_next c _ (proj2 (proj2 I)))). by apply aligned_pointer; unfold CONFIG_SPACE_SIZE in *; [lia|]. }
  rewrite Hmask in *.
  destruct (cap_walk_declared c l 64 [] 0 r I ltac:(lia) eq_refl Hr) as (caps & -> & Hl).
  by exists caps.
Qed.

Lemma capabilities_complete_witness :
  exists caps, capabilities (write demo_config 0x40 4 0xffffffff) = Some (Ok caps) /\
    (fun cap => (Z.to_nat (cap_offset cap), cap_id cap)) <$> caps = [(0x40%nat, 0x09)].
Proof.
  apply (capabilities_complete (write demo_config 0x40 4 0xffffffff)).
  apply built_write, demo_config_built.
Defined.

(** The capability walk terminates on any config space, malformed or not:
    64 iterations of its loop always reach a result. *)
Theorem capabilities_total (c : ConfigSpace) : is_Some (capabilities c).
Proof. apply capabilities_some. Qed.
