(* ===== verification/PciIntx.v ===== *)
(** * Legacy INTx lines

    Model of [ternvale-vmm/src/pci/intx.rs]: four level-triggered lines shared
    by the pins of all functions.  A line counts the pins that drive it and
    calls its hook under its lock when the count leaves or reaches zero; the
    calls are kept as a trace, [l_calls], newest first.

    [update] runs under the pin's lock and takes the line's lock only for
    [adjust], so on several threads other pins may act between the two; [step]
    is that interleaving for all pins of one line. *)

From S2P Require Import Prelude.

Definition PCI_INTX_LINES : Z := 4.
Definition PCI_INTX_SPI0 : Z := 3.

(** Line index for [pin] of [device]. *)
Definition swizzle (device pin : Z) : Z := (device + Z.max pin 1 - 1) mod PCI_INTX_LINES.

(** ** Line *)

Record IntxLine := { l_spi : Z; l_asserted : Z; l_calls : list bool }.

Definition line_new (spi : Z) : IntxLine := {| l_spi := spi; l_asserted := 0; l_calls := [] |}.

Definition saturating_sub (a b : Z) : Z := Z.max (a - b) 0.

Definition adjust (line : IntxLine) (up : bool) : IntxLine :=
  let before := l_asserted line in
  let count := if up then saturating_add 32 before 1 else saturating_sub before 1 in
  {| l_spi := l_spi line; l_asserted := count;
     l_calls := if negb (eqb (before =? 0) (count =? 0))
                then negb (count =? 0) :: l_calls line else l_calls line |}.

(** The level of the interrupt controller's input: the last hook call. *)
Definition level (line : IntxLine) : bool := default false (head (l_calls line)).

(** ** Pin *)

Record PinState := { requested : bool; disabled : bool; driving : bool }.

Definition pin_new : PinState := {| requested := false; disabled := false; driving := false |}.

(** The closures [set], [refresh] (with the level read inside the lock) and
    [set_disabled] pass to [update]. *)
Inductive change := Request (level : bool) | Disable (off : bool).

Definition apply_change (ch : change) (s : PinState) : PinState :=
  match ch with
  | Request b => {| requested := b; disabled := disabled s; driving := driving s |}
  | Disable b => {| requested := requested s; disabled := b; driving := driving s |}
  end.

(** [update] up to the call of [adjust]: the new pin state and the direction. *)
Definition update_pin (ch : change) (s : PinState) : PinState * option bool :=
  let s := apply_change ch s in
  let want := requested s && negb (disabled s) in
  if negb (eqb want (driving s))
  then ({| requested := requested s; disabled := disabled s; driving := want |}, Some want)
  else (s, None).

(** The whole of [update], with no other thread on the line. *)
Definition update (ch : change) (s : PinState) (line : IntxLine) : PinState * IntxLine :=
  match update_pin ch s with
  | (s', Some want) => (s', adjust line want)
  | (s', None) => (s', line)
  end.

Definition set (b : bool) := update (Request b).
Definition set_disabled (b : bool) := update (Disable b).
Definition asserted (s : PinState) : bool := requested s.

(** ** Interleaving *)

(** A pin and, while its lock is held across [adjust], the pending direction. *)
Definition Pin : Type := PinState * option bool.
Record System := { y_pins : list Pin; y_line : IntxLine }.

Inductive step : System -> System -> Prop :=
| step_begin y i s ch :
    y_pins y !! i = Some (s, None) ->
    step y {| y_pins := <[i := update_pin ch s]> (y_pins y); y_line := y_line y |}
| step_adjust y i s up :
    y_pins y !! i = Some (s, Some up) ->
    step y {| y_pins := <[i := (s, None)]> (y_pins y); y_line := adjust (y_line y) up |}.

Definition start (n : nat) (spi : Z) : System :=
  {| y_pins := replicate n (pin_new, None); y_line := line_new spi |}.

Inductive reachable (n : nat) (spi : Z) : System -> Prop :=
| reach_start : reachable n spi (start n spi)
| reach_step y y' : reachable n spi y -> step y y' -> reachable n spi y'.

(** ** Invariant *)

(** Whether the line's count includes this pin. *)
Definition counted (p : Pin) : bool :=
  match p with (s, None) => driving s | (_, Some up) => negb up end.
Definition weight (p : Pin) : Z := if counted p then 1 else 0.
Fixpoint total (ps : list Pin) : Z :=
  match ps with [] => 0 | p :: ps' => weight p + total ps' end.

Definition pin_ok (p : Pin) : Prop :=
  driving p.1 = requested p.1 && negb (disabled p.1) /\
  (forall up, p.2 = Some up -> driving p.1 = up).

(** Hook calls alternate, starting with a rise. *)
Fixpoint alternating (calls : list bool) : Prop :=
  match calls with
  | [] => True
  | b :: calls' => b = negb (default false (head calls')) /\ alternating calls'
  end.

Record inv (n : nat) (y : System) : Prop := {
  inv_len : length (y_pins y) = n;
  inv_pins : Forall pin_ok (y_pins y);
  inv_count : l_asserted (y_line y) = total (y_pins y);
  inv_level : level (y_line y) = negb (l_asserted (y_line y) =? 0);
  inv_calls : alternating (l_calls (y_line y));
}.

Lemma weight_range p : 0 <= weight p <= 1.
Proof. unfold weight. destruct (counted p); lia. Qed.

Lemma total_range ps : 0 <= total ps <= Z.of_nat (length ps).
Proof. induction ps as [|p ps IH]; simpl; [lia|]. pose proof (weight_range p). lia. Qed.

Lemma total_insert ps i p q :
  ps !! i = Some p -> total (<[i := q]> ps) = total ps - weight p + weight q.
Proof.
  revert i. induction ps as [|x ps IH]; intros [|i] H; simplify_eq/=; [lia|].
  rewrite (IH i H). lia.
Qed.

Lemma total_pos ps : total ps <> 0 <-> exists p, p ∈ ps /\ counted p = true.
Proof.
  induction ps as [|x ps IH]; simpl.
  - split; [done|]. intros (p & Hp & _). by apply not_elem_of_nil in Hp.
  - pose proof (total_range ps) as [Ht _]. unfold weight. destruct (counted x) eqn:Hx.
    + split; [|lia]. intros _. exists x. split; [left|done].
    + rewrite Z.add_0_l, IH. split; intros (p & Hp & Hc); exists p; split; try done.
      * by right.
      * apply elem_of_cons in Hp as [-> |]; [congruence|done].
Qed.

Lemma update_pin_ok ch s : pin_ok (update_pin ch s).
Proof.
  unfold update_pin, pin_ok. set (s' := apply_change ch s).
  destruct (requested s') eqn:Hr, (disabled s') eqn:Hx, (driving s') eqn:Hd; simpl;
    rewrite ?Hr, ?Hx, ?Hd; (split; [done|]); intros up; congruence.
Qed.

(** Between the pin's part and [adjust] the line's count is still right. *)
Lemma update_pin_counted ch s : counted (update_pin ch s) = driving s.
Proof.
  unfold update_pin. assert (Hd : driving (apply_change ch s) = driving s) by (by destruct ch).
  rewrite Hd. destruct (eqb _ (driving s)) eqn:E; cbn [negb counted]; [done|].
  destruct (_ && _), (driving s); done.
Qed.

Lemma adjust_count line up :
  0 <= l_asserted line -> l_asserted line < 2 ^ 32 - 1 -> (up = false -> 0 < l_asserted line) ->
  l_asserted (adjust line up) = l_asserted line + (if up then 1 else -1).
Proof.
  intros H0 H1 Hup. unfold adjust, saturating_add, saturating_sub. cbn [l_asserted].
  destruct up; [lia|]. specialize (Hup eq_refl). lia.
Qed.

Lemma adjust_level line up :
  level line = negb (l_asserted line =? 0) -> alternating (l_calls line) ->
  level (adjust line up) = negb (l_asserted (adjust line up) =? 0) /\
  alternating (l_calls (adjust line up)).
Proof.
  unfold level, adjust. cbn [l_calls l_asserted]. set (count := if up then _ else _).
  intros Hl Ha. destruct (l_asserted line =? 0), (count =? 0); simpl; auto;
    rewrite Hl; auto.
Qed.

Lemma step_inv n y y' : Z.of_nat n < 2 ^ 32 - 1 -> inv n y -> step y y' -> inv n y'.
Proof.
  intros Hn [Hl Hp Hc Hv Ha] H. destruct H as [y i s ch Hi|y i s up Hi].
  - pose proof (Forall_lookup_1 _ _ _ _ Hp Hi) as [_ _].
    split; cbn [y_pins y_line]; [by rewrite length_insert| | |done..].
    + apply Forall_insert; [done|]. apply update_pin_ok.
    + rewrite (total_insert _ i (s, None)) by done. unfold weight at 2.
      rewrite update_pin_counted. unfold weight. simpl. lia.
  - pose proof (Forall_lookup_1 _ _ _ _ Hp Hi) as [Hd Hup]. cbn [fst snd] in *.
    specialize (Hup up eq_refl). pose proof (total_range (y_pins y)) as Hr. rewrite <- Hc, Hl in Hr.
    assert (Hpos : up = false -> 0 < l_asserted (y_line y)).
    { intros ->. rewrite Hc. pose proof (total_pos (y_pins y)) as [_ Ht].
      pose proof (total_range (y_pins y)). enough (total (y_pins y) <> 0) by lia.
      apply Ht. exists (s, Some false). split; [by eapply list_elem_of_lookup_2|done]. }
    destruct (adjust_level (y_line y) up Hv Ha) as [Hv' Ha'].
    split; cbn [y_pins y_line]; [by rewrite length_insert| | |done..].
    + apply Forall_insert; [done|]. split; [done|]. by intros.
    + rewrite (total_insert _ i (s, Some up)) by done. rewrite adjust_count by (done || lia).
      unfold weight. cbn [counted]. rewrite Hup. destruct up; simpl; lia.
Qed.

Lemma reachable_inv n spi y : Z.of_nat n < 2 ^ 32 - 1 -> reachable n spi y -> inv n y.
Proof.
  intros Hn. induction 1 as [|y y' _ IH Hs]; [|by eapply step_inv].
  split; cbn [start y_pins y_line]; [apply length_replicate|by apply Forall_replicate|
    |done..].
  clear Hn. induction n; simpl; [done|]. by rewrite <- IHn.
Qed.

(** [update] run alone is a begin step followed, when needed, by its adjust step. *)
Lemma update_steps ch s line y i :
  y_pins y !! i = Some (s, None) -> y_line y = line ->
  exists y', (step y y' \/ exists y1, step y y1 /\ step y1 y') /\
    y_pins y' !! i = Some ((update ch s line).1, None) /\ y_line y' = (update ch s line).2.
Proof.
  intros Hi <-. pose proof (step_begin y i s ch Hi) as H1. unfold update.
  assert (Hlt : (i < length (y_pins y))%nat) by (by eapply lookup_lt_Some).
  destruct (update_pin ch s) as [s' [up|]].
  - eexists. split; [right; eexists; split; [exact H1|]|].
    + eapply step_adjust. cbn [y_pins]. by rewrite list_lookup_insert_eq.
    + cbn [y_pins y_line]. by rewrite list_lookup_insert_eq by (by rewrite length_insert).
  - eexists. split; [left; exact H1|]. cbn [y_pins y_line]. by rewrite list_lookup_insert_eq.
Qed.

(** A shared line is high exactly while some pin drives it.  In every state
    the interleaved pins of one line can reach, the hook calls alternate rise
    and fall and the interrupt controller's level is "the count is not zero";
    whenever no pin is in the middle of an update, the level is high iff some
    pin is requested and not disabled. *)
Theorem intx_level (n : nat) (spi : Z) (y : System) :
  Z.of_nat n < 2 ^ 32 - 1 -> reachable n spi y ->
  alternating (l_calls (y_line y)) /\
  level (y_line y) = negb (l_asserted (y_line y) =? 0) /\
  (Forall (fun p => p.2 = None) (y_pins y) ->
   level (y_line y) = existsb (fun p => requested p.1 && negb (disabled p.1)) (y_pins y)).
Proof.
  intros Hn Hr. destruct (reachable_inv n spi y Hn Hr) as [Hl Hp Hc Hv Ha]. split_and!; [done..|].
  intros Hq. rewrite Hv, Hc. rewrite list.Forall_forall in Hq, Hp.
  apply eq_true_iff_eq. rewrite negb_true_iff, Z.eqb_neq, total_pos, existsb_exists.
  split; intros (p & Hin & H).
  - exists p. split; [by apply list_elem_of_In|]. destruct (Hp p Hin) as [<- _].
    specialize (Hq p Hin). destruct p as [s o]. simpl in *. by subst.
  - apply list_elem_of_In in Hin. exists p. split; [done|]. destruct (Hp p Hin) as [E _].
    specialize (Hq p Hin). destruct p as [s o]. simpl in *. subst. simpl. congruence.
Qed.

(** Two pins request the line and one drops it: still high, one rise. *)
Lemma intx_level_witness :
  exists y, reachable 2 3 y /\ level (y_line y) = true /\ l_calls (y_line y) = [true].
Proof.
  set (on := {| requested := true; disabled := false; driving := true |}).
  set (off := {| requested := false; disabled := false; driving := false |}).
  assert (Hr : reachable 2 3 {| y_pins := [(off, None); (on, None)];
                 y_line := {| l_spi := 3; l_asserted := 1; l_calls := [true] |} |}).
  { eapply reach_step; [eapply reach_step; [eapply reach_step; [eapply reach_step;
      [eapply reach_step; [eapply reach_step; [apply reach_start|]|]|]|]|]|].
    - by eapply (step_begin _ 0 pin_new (Request true)).
    - by eapply (step_begin _ 1 pin_new (Request true)).
    - by eapply (step_adjust _ 1 on true).
    - by eapply (step_adjust _ 0 on true).
    - by eapply (step_begin _ 0 on (Request false)).
    - match goal with |- step ?y _ => exact (step_adjust y 0 off false eq_refl) end. }
  eexists. split; [exact Hr|]. split; [|reflexivity].
  destruct (intx_level 2 3 _ ltac:(lia) Hr) as (_ & _ & H).
  rewrite H; [reflexivity|]. by repeat constructor.
Defined.
