(* ===== verification/PciMsix.v ===== *)
(** * MSI-X table and capability

    Model of [ternvale-vmm/src/pci/msix.rs]: the vector table and pending-bit
    array a function exposes in one of its BARs, the capability in config
    space, and the enable bit mirrored from it.  Delivery is a logged stub in
    the code ([signal] always answers false) and here.

    Indexing the table or an entry out of bounds would panic; [table_read] and
    [table_write] return [None] there, and [msix_table_access] shows they never
    do. *)

From S2P Require Import Prelude PciConfig.

Definition MSIX_CAP_ID : Z := 0x11.
Definition MSIX_ENTRY_SIZE : Z := 16.
Definition CONTROL_ENABLE : Z := Z.shiftl 1 15.
Definition CONTROL_FUNCTION_MASK : Z := Z.shiftl 1 14.
Definition ENTRY_MASKED : Z := 1.

Record Msix := {
  x_bar : Z;
  x_table_offset : Z;
  x_pba_offset : Z;
  x_table : list (list Z);
  x_cap : option Z;
  x_enabled : bool;
}.

Definition set_table (m : Msix) (t : list (list Z)) : Msix :=
  {| x_bar := x_bar m; x_table_offset := x_table_offset m; x_pba_offset := x_pba_offset m;
     x_table := t; x_cap := x_cap m; x_enabled := x_enabled m |}.

Definition msix_new (vectors bar table_offset pba_offset : Z) : Msix :=
  {| x_bar := bar; x_table_offset := table_offset; x_pba_offset := pba_offset;
     x_table := replicate (Z.to_nat (Z.max vectors 1)) [0; 0; 0; ENTRY_MASKED];
     x_cap := None; x_enabled := false |}.

Definition table_len (m : Msix) : Z := Z.of_nat (length (x_table m)) * MSIX_ENTRY_SIZE.
Definition pba_len (m : Msix) : Z := (Z.of_nat (length (x_table m)) + 63) / 64 * 8.

Definition in_table (m : Msix) (offset : Z) : bool :=
  (x_table_offset m <=? offset) && (offset <? x_table_offset m + table_len m).
Definition in_pba (m : Msix) (offset : Z) : bool :=
  (x_pba_offset m <=? offset) && (offset <? x_pba_offset m + pba_len m).
Definition claims (m : Msix) (bar offset : Z) : bool :=
  (bar =? x_bar m) && (in_table m offset || in_pba m offset).

(** [Msix::add_capability]: the capability's offset, both objects updated. *)
Definition msix_add_capability (m : Msix) (c : ConfigSpace)
  : result PciError (Z * Msix * ConfigSpace) :=
  let control := le_bytes 2 (wrapping_sub 16 (wrap 16 (Z.of_nat (length (x_table m)))) 1) in
  let table := le_bytes 4 (Z.lor (x_table_offset m) (x_bar m)) in
  let pba := le_bytes 4 (Z.lor (x_pba_offset m) (x_bar m)) in
  let body := control ++ table ++ pba in
  let wmask := le_bytes 2 (Z.lor CONTROL_ENABLE CONTROL_FUNCTION_MASK) in
  '(offset, c) ← add_capability c MSIX_CAP_ID body wmask;
  Ok (offset,
      {| x_bar := x_bar m; x_table_offset := x_table_offset m; x_pba_offset := x_pba_offset m;
         x_table := x_table m; x_cap := Some offset; x_enabled := x_enabled m |}, c).

Definition sync (m : Msix) (c : ConfigSpace) : Msix :=
  match x_cap m with
  | None => m
  | Some cap =>
      let control := u16_at c (Z.to_nat cap + 2) in
      let enabled := negb (Z.land control CONTROL_ENABLE =? 0) in
      {| x_bar := x_bar m; x_table_offset := x_table_offset m; x_pba_offset := x_pba_offset m;
         x_table := x_table m; x_cap := x_cap m; x_enabled := enabled |}
  end.

(** [size == 8 && word % 2 == 0]: the access covers two dwords. *)
Definition wide (size : Z) (word : nat) : bool := (size =? 8) && Nat.even word.

Definition table_read (m : Msix) (offset size : Z) : option Z :=
  if negb (in_table m offset) then Some 0
  else
    let rel := offset - x_table_offset m in
    entry ← x_table m !! Z.to_nat (rel / MSIX_ENTRY_SIZE);
    let word := Z.to_nat (rel mod MSIX_ENTRY_SIZE / 4) in
    value ← entry !! word;
    if wide size word then
      high ← entry !! S word; Some (Z.lor value (Z.shiftl high 32))
    else Some value.

(** [entry[i] = v], which panics out of bounds. *)
Definition store (entry : list Z) (i : nat) (v : Z) : option (list Z) :=
  if (i <? length entry)%nat then Some (<[i := v]> entry) else None.

Definition table_write (m : Msix) (offset size value : Z) : option Msix :=
  if negb (in_table m offset) then Some m
  else
    let rel := offset - x_table_offset m in
    let vector := Z.to_nat (rel / MSIX_ENTRY_SIZE) in
    let word := Z.to_nat (rel mod MSIX_ENTRY_SIZE / 4) in
    entry ← x_table m !! vector;
    entry ← store entry word (wrap 32 value);
    entry ← (if wide size word then store entry (S word) (wrap 32 (Z.shiftr value 32))
             else Some entry);
    Some (set_table m (<[vector := entry]> (x_table m))).

(** [Msix::signal]: nothing is delivered. *)
Definition signal (m : Msix) (vector : Z) : bool := false.

(** ** Properties *)

(** The table of a constructed [Msix]: four 32-bit dwords per vector. *)
Definition msix_ok (m : Msix) : Prop :=
  0 <= x_table_offset m /\
  Forall (fun e => length e = 4%nat /\ Forall (fits 32) e) (x_table m).

#[export] Instance msix_ok_dec m : Decision (msix_ok m).
Proof. unfold msix_ok. apply _. Defined.

(** The vector and dword an offset inside the table names. *)
Definition slot_of (m : Msix) (offset : Z) : nat * nat :=
  let rel := offset - x_table_offset m in
  (Z.to_nat (rel / MSIX_ENTRY_SIZE), Z.to_nat (rel mod MSIX_ENTRY_SIZE / 4)).

Lemma in_table_spec m offset :
  in_table m offset = true <->
  x_table_offset m <= offset < x_table_offset m + table_len m.
Proof. unfold in_table. rewrite andb_true_iff. lia. Qed.

(** An offset inside the table names an existing vector and a dword of it. *)
Lemma in_table_slot m offset :
  msix_ok m -> in_table m offset = true ->
  exists entry value, x_table m !! (slot_of m offset).1 = Some entry /\
    length entry = 4%nat /\ Forall (fits 32) entry /\
    ((slot_of m offset).2 < 4)%nat /\ entry !! (slot_of m offset).2 = Some value.
Proof.
  intros [H0 Hf] Hin%in_table_spec. unfold table_len, MSIX_ENTRY_SIZE in Hin.
  unfold slot_of, MSIX_ENTRY_SIZE. cbn [fst snd].
  set (rel := offset - x_table_offset m) in *.
  assert (Hrel : 0 <= rel < Z.of_nat (length (x_table m)) * 16) by lia.
  assert (0 <= rel / 16) by (apply Z.div_pos; lia).
  assert (rel / 16 < Z.of_nat (length (x_table m))) by (apply Z.div_lt_upper_bound; lia).
  pose proof (Z.mod_pos_bound rel 16 ltac:(lia)).
  assert (0 <= rel mod 16 / 4) by (apply Z.div_pos; lia).
  assert (rel mod 16 / 4 < 4) by (apply Z.div_lt_upper_bound; lia).
  destruct (lookup_lt_is_Some_2 (x_table m) (Z.to_nat (rel / 16))) as [e He]; [lia|].
  pose proof (Forall_lookup_1 _ _ _ _ Hf He) as [Hl Hfe].
  destruct (lookup_lt_is_Some_2 e (Z.to_nat (rel mod 16 / 4))) as [v Hv]; [lia|].
  exists e, v. split_and!; [done..|lia|done].
Qed.

Lemma even_next w : (w < 4)%nat -> Nat.even w = true -> (S w < 4)%nat.
Proof. intros Hw He. destruct w as [|[|[|[|w]]]]; simpl in *; discriminate || lia. Qed.

(** Writing inside the table: the entry after the write. *)
Lemma table_write_entry m offset size value entry :
  msix_ok m -> in_table m offset = true -> x_table m !! (slot_of m offset).1 = Some entry ->
  let w := (slot_of m offset).2 in
  let e1 := <[w := wrap 32 value]> entry in
  table_write m offset size value =
  Some (set_table m (<[(slot_of m offset).1 :=
    if wide size w then <[S w := wrap 32 (Z.shiftr value 32)]> e1 else e1]> (x_table m))).
Proof.
  intros Hm Hin He. destruct (in_table_slot m offset Hm Hin) as (e & v & He' & Hl & _ & Hw & _).
  rewrite He' in He. injection He as ->. unfold table_write. rewrite Hin. cbn [negb].
  unfold slot_of in *. cbn [fst snd] in *. rewrite He'. cbn [mbind option_bind].
  unfold store. rewrite Hl. destruct (Nat.ltb_spec (Z.to_nat ((offset - x_table_offset m) mod MSIX_ENTRY_SIZE / 4)) 4); [|lia].
  cbn [mbind option_bind]. destruct (wide size _) eqn:Hwd; [|done].
  rewrite length_insert, Hl. apply andb_true_iff in Hwd as [_ Hev].
  pose proof (even_next _ Hw Hev). destruct (Nat.ltb_spec (S (Z.to_nat ((offset - x_table_offset m) mod MSIX_ENTRY_SIZE / 4))) 4); [done|lia].
Qed.

Lemma join_words value : 0 <= value -> Z.lor (wrap 32 value) (Z.shiftl (wrap 32 (Z.shiftr value 32)) 32) = wrap 64 value.
Proof.
  intros Hv. apply Z.bits_inj'. intros i Hi.
  rewrite Z.lor_spec, Z.shiftl_spec, (wrap_testbit 32 value i), (wrap_testbit 64 value i) by lia.
  destruct (Z.ltb_spec i 32).
  - rewrite (Z.testbit_neg_r _ (i - 32)) by lia. rewrite orb_false_r.
    destruct (Z.ltb_spec i 64); [done|lia].
  - simpl. rewrite wrap_testbit, Z.shiftr_spec by lia. replace (i - 32 + 32) with i by lia.
    destruct (Z.ltb_spec (i - 32) 32), (Z.ltb_spec i 64); done || lia.
Qed.

(** Guest access to the MSI-X table never indexes out of bounds; outside the
    table (the PBA) reads give 0 and writes change nothing; inside it, a write
    keeps the table's shape, reads back at the same offset and size as the bits
    the access covers, and leaves every other vector as it was. *)
Theorem msix_table_access (m : Msix) (offset size value : Z) :
  msix_ok m -> 0 <= value ->
  is_Some (table_read m offset size) /\
  exists m', table_write m offset size value = Some m' /\ msix_ok m' /\
    length (x_table m') = length (x_table m) /\
    (in_table m offset = false -> table_read m offset size = Some 0 /\ m' = m) /\
    (in_table m offset = true ->
       table_read m' offset size =
         Some (wrap (if wide size (slot_of m offset).2 then 64 else 32) value) /\
       forall k, k <> (slot_of m offset).1 -> x_table m' !! k = x_table m !! k).
Proof.
  intros Hm Hv. destruct (in_table m offset) eqn:Hin.
  2: { unfold table_read, table_write. rewrite Hin. cbn [negb]. split; [done|]. by exists m. }
  destruct (in_table_slot m offset Hm Hin) as (e & v & He & Hl & Hfe & Hw & Hval).
  pose proof (table_write_entry m offset size value e Hm Hin He) as Hwr.
  set (w := (slot_of m offset).2) in *. set (vec := (slot_of m offset).1) in *. cbv zeta in Hwr.
  assert (Hlt : (vec < length (x_table m))%nat) by (by eapply lookup_lt_Some).
  assert (HS : wide size w = true -> (S w < 4)%nat) by (intros [_ Hev]%andb_true_iff; by apply even_next).
  set (e' := if wide size w then _ else _) in Hwr.
  assert (He' : length e' = 4%nat /\ Forall (fits 32) e').
  { unfold e'. destruct (wide size w); rewrite ?length_insert; (split; [done|]);
      repeat apply Forall_insert; try done; by apply wrap_fits. }
  split.
  - unfold table_read. rewrite Hin. cbn [negb].
    change (Z.to_nat ((offset - x_table_offset m) / MSIX_ENTRY_SIZE)) with vec. rewrite He.
    cbn [mbind option_bind]. change (Z.to_nat ((offset - x_table_offset m) mod MSIX_ENTRY_SIZE / 4)) with w.
    rewrite Hval. cbn [mbind option_bind]. destruct (wide size w) eqn:Hwd; [|done].
    destruct (lookup_lt_is_Some_2 e (S w)) as [h ->]; [rewrite Hl; by apply HS|done].
  - eexists. split; [exact Hwr|]. split_and!.
    + split; [apply Hm|]. cbn [set_table x_table]. apply Forall_insert; [apply Hm|done].
    + cbn [set_table x_table]. by rewrite length_insert.
    + done.
    + intros _. split; [|intros k Hk; cbn [set_table x_table]; by rewrite list_lookup_insert_ne].
      unfold table_read, in_table, table_len. cbn [set_table x_table x_table_offset].
      rewrite length_insert. fold (table_len m). fold (in_table m offset). rewrite Hin. cbn [negb].
      change (Z.to_nat ((offset - x_table_offset m) / MSIX_ENTRY_SIZE)) with vec.
      change (Z.to_nat ((offset - x_table_offset m) mod MSIX_ENTRY_SIZE / 4)) with w.
      rewrite list_lookup_insert_eq by done. cbn [mbind option_bind]. unfold e'.
      destruct (wide size w) eqn:Hwd.
      * specialize (HS eq_refl). rewrite (list_lookup_insert_ne _ (S w) w), (list_lookup_insert_eq _ w) by (rewrite ?Hl; lia).
        cbn [mbind option_bind]. rewrite list_lookup_insert_eq by (rewrite length_insert, Hl; lia).
        cbn [mbind option_bind]. by rewrite join_words.
      * rewrite list_lookup_insert_eq by (rewrite Hl; lia). done.
Qed.

Lemma msix_table_access_witness :
  exists m', table_write (msix_new 4 1 0 0x800) 0x10 8 0x123456789abcdef0 = Some m' /\
    table_read m' 0x10 8 = Some 0x123456789abcdef0.
Proof.
  destruct (msix_table_access (msix_new 4 1 0 0x800) 0x10 8 0x123456789abcdef0) as (_ & m' & H & _ & _ & _ & Hin).
  - apply (bool_decide_unpack _). vm_compute. exact I.
  - lia.
  - exists m'. split; [exact H|]. destruct (Hin ltac:(vm_compute; reflexivity)) as [-> _].
    vm_compute. reflexivity.
Defined.
