(* ===== verification/PciBus.v ===== *)
(** * PCI bus 0 and the root complex

    Model of [ternvale-vmm/src/pci/bus.rs], [pci/root.rs] and
    [pci/host_bridge.rs], with the [PciFunction] trait of [pci.rs]: the 32
    function slots, config and BAR routing, firmware-style BAR assignment, the
    ECAM window and the BAR window.

    [PciFunction] is the trait as a class over the function type [F];
    [config_mut] is the lens [fn_config]/[fn_set_config].  [PciFunctionLaws] is
    what the bus relies on: the lens law, and that a function's own handlers
    keep its config space one that [PciConfig.built] describes.  INTx pins are
    shared with device threads ([Arc<IntxPin>]); a slot holds the index of its
    pin in [Intx], the store of pins and lines of [PciIntx]. *)

From stdpp Require Import strings sorting.
From S2P Require Import Prelude Windows Platform PciConfig PciIntx.

(** ** The function trait *)

Class PciFunction (F : Type) := {
  fn_name : F -> string;
  fn_config : F -> ConfigSpace;
  fn_set_config : F -> ConfigSpace -> F;
  read_config : F -> Z -> Z -> Z * F;
  write_config : F -> Z -> Z -> Z -> F;
  read_bar : F -> nat -> Z -> Z -> Z * F;
  write_bar : F -> nat -> Z -> Z -> Z -> F;
}.

(** The trait's default methods. *)
Definition default_read_config {F} (config : F -> ConfigSpace) (f : F) (offset size : Z) : Z * F :=
  (PciConfig.read (config f) offset size, f).
Definition default_write_config {F} (config : F -> ConfigSpace) (set : F -> ConfigSpace -> F)
    (f : F) (offset size value : Z) : F :=
  set f (PciConfig.write (config f) offset size value).
Definition default_read_bar {F} (f : F) (bar : nat) (offset size : Z) : Z * F := (2 ^ 64 - 1, f).
Definition default_write_bar {F} (f : F) (bar : nat) (offset size value : Z) : F := f.

(** ** Host bridge *)

Definition HOST_BRIDGE_VENDOR_ID : Z := 0x1b36.
Definition HOST_BRIDGE_DEVICE_ID : Z := 0x0008.
Definition CLASS_HOST_BRIDGE : Z := 0x060000.

Record HostBridge := { hb_config : ConfigSpace }.

Definition host_bridge_new : HostBridge :=
  {| hb_config := PciConfig.new
       {| h_vendor_id := HOST_BRIDGE_VENDOR_ID; h_device_id := HOST_BRIDGE_DEVICE_ID;
          h_class_code := CLASS_HOST_BRIDGE; h_revision := 0;
          h_subsystem_vendor_id := HOST_BRIDGE_VENDOR_ID; h_subsystem_id := 0x1100;
          h_interrupt_pin := 0 |} |}.

#[export] Instance HostBridge_PciFunction : PciFunction HostBridge := {|
  fn_name := fun _ => "pci-host-bridge"%string;
  fn_config := hb_config;
  fn_set_config := fun _ c => {| hb_config := c |};
  read_config := default_read_config hb_config;
  write_config := default_write_config hb_config (fun _ c => {| hb_config := c |});
  read_bar := default_read_bar;
  write_bar := default_write_bar;
|}.

Definition DEVICES : nat := 32.

Definition all_ones (size : Z) : Z :=
  if size =? 1 then 0xff else if size =? 2 then 0xffff else 0xffffffff.

(** ** Shared INTx state *)

Record Intx := { ix_pins : list (PinState * nat); ix_lines : list IntxLine }.

(** [IntxPin::update] on pin [id] of the store. *)
Definition pin_update (ch : change) (id : nat) (ix : Intx) : Intx :=
  match ix_pins ix !! id with
  | None => ix
  | Some (s, line) =>
      match ix_lines ix !! line with
      | None => ix
      | Some l =>
          let '(s', l') := PciIntx.update ch s l in
          {| ix_pins := <[id := (s', line)]> (ix_pins ix);
             ix_lines := <[line := l']> (ix_lines ix) |}
      end
  end.

Definition pin_asserted (ix : Intx) (id : nat) : bool :=
  match ix_pins ix !! id with Some (s, _) => PciIntx.asserted s | None => false end.

Section bus.
Context {F : Type} `{!PciFunction F}.

Record Slot := { sl_function : F; sl_pin : option nat }.

Record PciBus := { pb_slots : list (option Slot); pb_base : Z; pb_size : Z }.

Definition set_slots (bus : PciBus) (slots : list (option Slot)) : PciBus :=
  {| pb_slots := slots; pb_base := pb_base bus; pb_size := pb_size bus |}.

Definition bus_new (window_base window_size : Z) : PciBus :=
  {| pb_slots := replicate DEVICES None; pb_base := window_base; pb_size := window_size |}.

Definition is_none {A} (o : option A) : bool := match o with None => true | Some _ => false end.

Definition free_device (bus : PciBus) : option Z :=
  (fun d => wrap 8 (Z.of_nat d)) <$> position is_none (pb_slots bus).

Definition insert (bus : PciBus) (device : Z) (function : F) (pin : option nat) : PciBus :=
  set_slots bus (update_at (pb_slots bus) device
                           (fun _ => Some {| sl_function := function; sl_pin := pin |})).

(** [PciBus::slot], and the update through the reference it returns. *)
Definition slot (bus : PciBus) (b : Bdf) : option Slot :=
  if negb (bdf_bus b =? 0) || negb (bdf_function b =? 0) then None
  else match get (pb_slots bus) (bdf_device b) with Some o => o | None => None end.

Definition set_function (bus : PciBus) (device : Z) (f : F) : PciBus :=
  set_slots bus (update_at (pb_slots bus) device
    (option_map (fun s => {| sl_function := f; sl_pin := sl_pin s |}))).

(** ** Config routing *)

Definition config_read (bus : PciBus) (ix : Intx) (b : Bdf) (reg size : Z) : option Z * PciBus :=
  match slot bus b with
  | None => (None, bus)
  | Some s =>
      let '(value, f) := read_config (sl_function s) reg size in
      let status := Z.of_nat STATUS in
      let value :=
        if (reg <=? status) && (status <? add_w 16 reg size) &&
           match sl_pin s with Some p => pin_asserted ix p | None => false end
        then Z.lor value (wrap 32 (Z.shiftl STATUS_INTERRUPT (8 * (status - reg))))
        else value in
      (Some value, set_function bus (bdf_device b) f)
  end.

Definition config_write (bus : PciBus) (ix : Intx) (b : Bdf) (reg size value : Z)
  : option Z * PciBus * Intx :=
  match slot bus b with
  | None => (None, bus, ix)
  | Some s =>
      let f := write_config (sl_function s) reg size value in
      let ix := match sl_pin s with
                | Some p => pin_update (Disable (intx_disabled (fn_config f))) p ix
                | None => ix
                end in
      (Some (PciConfig.read (fn_config f) reg size), set_function bus (bdf_device b) f, ix)
  end.

(** ** BAR routing *)

(** [(device, slot)] pairs of [slots.iter().enumerate()]. *)
Definition enumerate {A} (l : list A) : list (nat * A) := imap pair l.

Definition route (bus : PciBus) (gpa size : Z) : option (nat * nat * Z) :=
  e ← checked_add 64 gpa size;
  find_map (fun '(device, slot) =>
    s ← slot;
    find_map (fun '(bar, base, len) =>
      if (base <=? gpa) && (e <=? saturating_add 64 base len)
      then Some (device, bar, gpa - base) else None)
      (decoded_bars (fn_config (sl_function s))))
    (enumerate (pb_slots bus)).

Definition mmio_read (bus : PciBus) (gpa size : Z) : option Z * PciBus :=
  match route bus gpa size with
  | None => (None, bus)
  | Some (device, bar, offset) =>
      match pb_slots bus !! device with
      | Some (Some s) =>
          let '(value, f) := read_bar (sl_function s) bar offset size in
          (Some value, set_function bus (Z.of_nat device) f)
      | _ => (None, bus)
      end
  end.

Definition mmio_write (bus : PciBus) (gpa size value : Z) : bool * PciBus :=
  match route bus gpa size with
  | None => (false, bus)
  | Some (device, bar, offset) =>
      match pb_slots bus !! device with
      | Some (Some s) =>
          (true, set_function bus (Z.of_nat device) (write_bar (sl_function s) bar offset size value))
      | _ => (false, bus)
      end
  end.

(** ** BAR assignment *)

(** One wanted BAR: size, device and index. *)
Definition want : Type := Z * nat * nat.

Definition wanted (slots : list (option Slot)) : list want :=
  enumerate slots ≫= fun '(device, slot) =>
    match slot with
    | None => []
    | Some s => omap (fun index => b ← bar (fn_config (sl_function s)) index;
                                   Some (bar_size b, device, index)) (seq 0 6)
    end.

(** The comparison of [sort_by]: size descending, then device, then index. *)
Definition want_le (a b : want) : Prop :=
  let '(sa, da, ia) := a in let '(sb, db, ib) := b in
  sb < sa \/ (sa = sb /\ ((da < db)%nat \/ (da = db /\ (ia <= ib)%nat))).

#[export] Instance want_le_dec : RelDecision want_le.
Proof. intros [[sa da] ia] [[sb db] ib]. unfold want_le. apply _. Defined.

Definition next_multiple_of (x n : Z) : Z := wrap 64 ((x + n - 1) / n * n).

(** Program BAR [index] of the function in [device]. *)
Definition program (slots : list (option Slot)) (device index : nat) (base : Z)
  : list (option Slot) :=
  alter (option_map (fun s =>
    {| sl_function := fn_set_config (sl_function s)
                        (set_bar_address (fn_config (sl_function s)) index base);
       sl_pin := sl_pin s |})) device slots.

Fixpoint assign_loop (slots : list (option Slot)) (next e : Z) (assigned : nat) (ws : list want)
  : list (option Slot) * nat :=
  match ws with
  | [] => (slots, assigned)
  | (size, device, index) :: ws' =>
      let base := next_multiple_of next size in
      match slots !! device with
      | Some (Some _) =>
          if e <? saturating_add 64 base size then assign_loop slots next e assigned ws'
          else assign_loop (program slots device index base) (add_w 64 base size) e (S assigned) ws'
      | _ => assign_loop slots next e assigned ws'
      end
  end.

Definition assign_bars (bus : PciBus) : PciBus * nat :=
  let ws := merge_sort want_le (wanted (pb_slots bus)) in
  let e := add_w 64 (pb_base bus) (pb_size bus) in
  let '(slots, assigned) := assign_loop (pb_slots bus) (pb_base bus) e 0 ws in
  (set_slots bus slots, assigned).

Definition functions (bus : PciBus) : list (Bdf * string) :=
  omap (fun '(device, slot) => s ← slot;
          Some (bdf_new (wrap 8 (Z.of_nat device)), fn_name (sl_function s)))
       (enumerate (pb_slots bus)).

(** ** Root complex *)

Record PciRoot := { rt_bus : PciBus; rt_intx : Intx }.

Definition ECAM_BUSES : Z := wrap 8 (Z.shiftr PCIE_ECAM_SIZE 20).

Definition root_new (host_bridge : F) : PciRoot :=
  {| rt_bus := insert (bus_new PCIE_MMIO_BASE PCIE_MMIO_SIZE) 0 host_bridge None;
     rt_intx := {| ix_pins := [];
                   ix_lines := (fun i => line_new (PCI_INTX_SPI0 + Z.of_nat i)) <$> seq 0 4 |} |}.

(** [PciRoot::add]; [build] gets the address and the new pin's index. *)
Definition add (r : PciRoot) (build : Bdf -> nat -> result string F) : result PciError (Bdf * PciRoot) :=
  match free_device (rt_bus r) with
  | None => Err BusFull
  | Some device =>
      let bdf := bdf_new device in
      let line := Z.to_nat (swizzle device 1) in
      let pin := length (ix_pins (rt_intx r)) in
      match build bdf pin with
      | Err reason => Err (Build bdf reason)
      | Ok f =>
          match capabilities (fn_config f) with
          | Some (Ok _) =>
              Ok (bdf, {| rt_bus := insert (rt_bus r) device f (Some pin);
                          rt_intx := {| ix_pins := ix_pins (rt_intx r) ++ [(pin_new, line)];
                                        ix_lines := ix_lines (rt_intx r) |} |})
          | Some (Err e) => Err e
          | None => Err BusFull (* unreachable: [capabilities_some] *)
          end
      end
  end.

Definition function_count (r : PciRoot) : nat := length (functions (rt_bus r)).

(** [ecam_decode]; [None] is the rejected access. *)
Definition ecam_decode (offset size : Z) : option (Bdf * Z) :=
  if negb ((size =? 1) || (size =? 2) || (size =? 4)) then None
  else if negb (offset mod size =? 0) then None
  else Some ({| bdf_bus := wrap 8 (Z.shiftr offset 20);
                bdf_device := Z.land (Z.shiftr offset 15) 0x1f;
                bdf_function := Z.land (Z.shiftr offset 12) 7 |},
             Z.land offset 0xfff).

Definition root_config_read (r : PciRoot) (b : Bdf) (reg size : Z) : Z * PciRoot :=
  let '(v, bus) := config_read (rt_bus r) (rt_intx r) b reg size in
  (default (all_ones size) v, {| rt_bus := bus; rt_intx := rt_intx r |}).

Definition root_config_write (r : PciRoot) (b : Bdf) (reg size value : Z) : option Z * PciRoot :=
  let '(v, bus, ix) := config_write (rt_bus r) (rt_intx r) b reg size value in
  (v, {| rt_bus := bus; rt_intx := ix |}).

(** [MmioDevice] for [PciEcam] and for [PciWindow]. *)
Definition ecam_read (r : PciRoot) (offset size : Z) : Z * PciRoot :=
  match ecam_decode offset size with
  | None => (all_ones (Z.min size 4), r)
  | Some (b, reg) => root_config_read r b reg size
  end.

Definition ecam_write (r : PciRoot) (offset size val : Z) : PciRoot :=
  match ecam_decode offset size with
  | None => r
  | Some (b, reg) => (root_config_write r b reg size (wrap 32 val)).2
  end.

Definition window_read (r : PciRoot) (offset size : Z) : Z * PciRoot :=
  let gpa := add_w 64 PCIE_MMIO_BASE offset in
  let '(v, bus) := mmio_read (rt_bus r) gpa size in
  (default (2 ^ 64 - 1) v, {| rt_bus := bus; rt_intx := rt_intx r |}).

Definition window_write (r : PciRoot) (offset size val : Z) : PciRoot :=
  let gpa := add_w 64 PCIE_MMIO_BASE offset in
  {| rt_bus := (mmio_write (rt_bus r) gpa size val).2; rt_intx := rt_intx r |}.

Definition root_assign_bars (r : PciRoot) : PciRoot * nat :=
  let '(bus, n) := assign_bars (rt_bus r) in ({| rt_bus := bus; rt_intx := rt_intx r |}, n).

(** ** Identity *)

Record PciIdentity := {
  id_bdf : Bdf; id_vendor : Z; id_device : Z; id_revision : Z; id_class : Z;
  id_subsystem_vendor : Z; id_subsystem : Z;
}.

(** [PciIdentity::read]; the config reads thread the root's state. *)
Definition identity_read (r : PciRoot) (b : Bdf) : option PciIdentity * PciRoot :=
  let '(vendor, r) := root_config_read r b 0x00 2 in
  let vendor := wrap 16 vendor in
  if vendor =? 0xffff then (None, r)
  else
    let '(device, r) := root_config_read r b 0x02 2 in
    let '(revision, r) := root_config_read r b 0x08 1 in
    let '(class, r) := root_config_read r b 0x08 4 in
    let '(sv, r) := root_config_read r b 0x2c 2 in
    let '(sd, r) := root_config_read r b 0x2e 2 in
    (Some {| id_bdf := b; id_vendor := vendor; id_device := wrap 16 device;
             id_revision := wrap 8 revision; id_class := Z.shiftr class 8;
             id_subsystem_vendor := wrap 16 sv; id_subsystem := wrap 16 sd |}, r).

End bus.
Arguments Slot F : clear implicits.
Arguments PciBus F : clear implicits.
Arguments PciRoot F : clear implicits.

(** ** The interface the bus relies on *)

Definition fn_ok {F} `{!PciFunction F} (f : F) : Prop := exists l, built (fn_config f) l.

Class PciFunctionLaws (F : Type) `{!PciFunction F} : Prop := {
  config_set_config : forall (f : F) c, fn_config (fn_set_config f c) = c;
  read_config_ok : forall (f : F) reg size, fn_ok f -> fn_ok (read_config f reg size).2;
  write_config_ok : forall (f : F) reg size v, fn_ok f -> fn_ok (write_config f reg size v);
  read_bar_ok : forall (f : F) b off size, fn_ok f -> fn_ok (read_bar f b off size).2;
  write_bar_ok : forall (f : F) b off size v, fn_ok f -> fn_ok (write_bar f b off size v);
  (** Only config writes change the command register. *)
  read_config_command : forall (f : F) reg size,
    command (fn_config (read_config f reg size).2) = command (fn_config f);
  read_bar_command : forall (f : F) b off size,
    command (fn_config (read_bar f b off size).2) = command (fn_config f);
  write_bar_command : forall (f : F) b off size v,
    command (fn_config (write_bar f b off size v)) = command (fn_config f);
}.

#[export] Instance HostBridge_laws : PciFunctionLaws HostBridge.
Proof.
  split; try done. intros f reg size v [l Hl]. exists l. by apply built_write.
Qed.

Lemma host_bridge_ok : fn_ok host_bridge_new.
Proof. exists []. by apply built_new. Qed.

(** ** Assignment *)

(** A planned BAR: device, index, base and size. *)
Record Planned := { pl_device : nat; pl_index : nat; pl_base : Z; pl_size : Z }.
#[export] Instance Planned_Window : Window Planned := {| w_base := pl_base; w_size := pl_size |}.

(** The addresses [assign_loop] hands out, when every wanted device is present. *)
Fixpoint plan (next e : Z) (ws : list want) : list Planned :=
  match ws with
  | [] => []
  | (size, device, index) :: ws' =>
      let base := next_multiple_of next size in
      if e <? saturating_add 64 base size then plan next e ws'
      else {| pl_device := device; pl_index := index; pl_base := base; pl_size := size |}
           :: plan (add_w 64 base size) e ws'
  end.

(** A size some valid BAR can have. *)
Definition size_ok (size : Z) : Prop := exists b, bar_valid b /\ bar_size b = size.

Lemma size_ok_pow size : size_ok size -> exists s, size = 2 ^ s /\ 4 <= s <= 63.
Proof.
  intros (b & V & <-). destruct (bar_valid_log b V) as (s & Hs & Hr).
  exists s. split; [done|]. destruct (bar_kind b); lia.
Qed.

Lemma size_ok_range size : size_ok size -> 16 <= size <= 2 ^ 63.
Proof.
  intros (s & -> & Hs)%size_ok_pow. change 16 with (2 ^ 4).
  split; apply Z.pow_le_mono_r; lia.
Qed.

Lemma next_multiple_of_spec x n :
  0 <= x -> 0 < n -> x + n < 2 ^ 64 ->
  x <= next_multiple_of x n < x + n /\ next_multiple_of x n mod n = 0.
Proof.
  intros Hx Hn Hb. unfold next_multiple_of.
  pose proof (Z.div_mod (x + n - 1) n ltac:(lia)) as Hd.
  pose proof (Z.mod_pos_bound (x + n - 1) n Hn) as Hm.
  rewrite wrap_small by (split; nia). split; [nia|]. apply Z.mod_mul. lia.
Qed.

Section plan.
Context (e : Z) (He : 0 <= e <= 2 ^ 32).

(** One round of the loop at an in-window [next]. *)
Lemma plan_round next size :
  0 <= next <= e -> size_ok size ->
  let base := next_multiple_of next size in
  next <= base < next + size /\ base mod size = 0 /\
  ((e <? saturating_add 64 base size) = false -> base + size <= e /\ add_w 64 base size = base + size) /\
  (base + size <= e -> (e <? saturating_add 64 base size) = false).
Proof.
  intros Hn Hs. pose proof (size_ok_range size Hs) as Hr.
  destruct (next_multiple_of_spec next size) as [Hb Hm]; [lia..|].
  cbv zeta. split_and!; [lia..|done| |].
  - intros Hlt%Z.ltb_ge. unfold saturating_add in Hlt. split; [lia|].
    unfold add_w. apply wrap_small. split; lia.
  - intros Hle. apply Z.ltb_ge. unfold saturating_add. lia.
Qed.

Definition planned_ok (next : Z) (x : Planned) : Prop :=
  next <= pl_base x /\ pl_base x + pl_size x <= e /\ pl_base x mod pl_size x = 0 /\ size_ok (pl_size x).

Lemma plan_ok next ws :
  0 <= next <= e -> Forall (fun w => size_ok w.1.1) ws ->
  Forall (planned_ok next) (plan next e ws) /\ separated (plan next e ws).
Proof.
  intros Hn Hws. revert next Hn. induction Hws as [|[[size d] i] ws Hs _ IH]; intros next Hn; cbn [plan].
  { split; constructor. }
  cbn [fst] in Hs. destruct (plan_round next size Hn Hs) as (Hb & Hm & Hin & _).
  destruct (e <? _); [by apply IH|]. destruct (Hin eq_refl) as [Hle ->].
  pose proof (size_ok_range size Hs) as Hr.
  destruct (IH (next_multiple_of next size + size)) as [IH1 IH2]; [lia|].
  split; [constructor|split].
  - unfold planned_ok. cbn [pl_base pl_size]. split_and!; [lia..|done|done].
  - eapply Forall_impl; [|exact IH1]. intros x (H1 & H2 & H3 & H4). unfold planned_ok. split_and!; [lia..|done|done].
  - eapply Forall_impl; [|exact IH1]. intros x (H1 & _). done.
  - done.
Qed.

(** The keys of the plan are keys of the request, in its order. *)
Definition pl_key (x : Planned) : nat * nat := (pl_device x, pl_index x).
Definition want_key (w : want) : nat * nat := (w.1.2, w.2).

Lemma plan_keys next ws : pl_key <$> plan next e ws `sublist_of` want_key <$> ws.
Proof.
  revert next. induction ws as [|[[size d] i] ws IH]; intros next; cbn [plan]; [constructor|].
  destruct (e <? _); [by apply sublist_cons|]. by apply sublist_skip.
Qed.

Lemma plan_in next ws x :
  x ∈ plan next e ws -> (pl_size x, pl_device x, pl_index x) ∈ ws.
Proof.
  revert next. induction ws as [|[[size d] i] ws IH]; intros next; cbn [plan].
  { intros H. by apply not_elem_of_nil in H. }
  destruct (e <? _); [intros; right; by eapply IH|].
  intros [-> |H]%elem_of_cons; [left|right; by eapply IH].
Qed.

Fixpoint sum_sizes (ws : list want) : Z :=
  match ws with [] => 0 | w :: ws' => w.1.1 + sum_sizes ws' end.

(** Sorted by descending size from an aligned start, nothing is wasted. *)
Lemma plan_complete next ws :
  0 <= next -> next + sum_sizes ws <= e -> Forall (fun w => size_ok w.1.1) ws ->
  StronglySorted want_le ws -> Forall (fun w => next mod w.1.1 = 0) ws ->
  length (plan next e ws) = length ws.
Proof.
  intros Hn Hsum Hws Hsort. revert next Hn Hsum.
  induction Hsort as [|[[size d] i] ws Hsort IH Hall]; intros next Hn Hsum Hal; [done|].
  apply list.Forall_cons in Hws as [Hs Hws]. apply list.Forall_cons in Hal as [Hal0 Hal].
  cbn [sum_sizes fst plan] in *.
  assert (Hpos : 0 <= sum_sizes ws).
  { clear -Hws. induction Hws as [|w ws Hw _ IH]; cbn [sum_sizes]; [lia|].
    pose proof (size_ok_range _ Hw). lia. }
  pose proof (size_ok_range size Hs) as Hr.
  destruct (plan_round next size ltac:(lia) Hs) as (Hb & Hm & Hin & Hfit).
  assert (Hnext : next_multiple_of next size = next).
  { apply Z.mod_divide in Hal0 as [q Hq]; [|lia]. apply Z.mod_divide in Hm as [p Hp]; [|lia].
    rewrite Hp, Hq in *. assert (p = q) by nia. by subst. }
  rewrite Hnext in *. rewrite Hfit by lia. destruct (Hin (Hfit ltac:(lia))) as [_ ->].
  cbn [length]. f_equal. apply IH; [done|lia|lia|].
  rewrite list.Forall_forall in *. intros [[size' d'] i'] Hw. cbn [fst].
  specialize (Hall _ Hw). specialize (Hal _ Hw). specialize (Hws _ Hw). cbn [fst] in *.
  assert (Hle : size' <= size) by (unfold want_le in Hall; lia).
  apply size_ok_pow in Hs as (s & -> & Hs'). apply size_ok_pow in Hws as (t & -> & Ht).
  assert (t <= s) by (apply Z.pow_le_mono_r_iff in Hle; lia).
  replace (2 ^ s) with (2 ^ (s - t) * 2 ^ t) by (rewrite <- Z.pow_add_r by lia; f_equal; lia).
  rewrite Z.mod_add by (apply Z.pow_nonzero; lia). done.
Qed.

End plan.

Section assign.
Context {F : Type} `{!PciFunction F, !PciFunctionLaws F}.

(** Every populated slot holds a function with a reachable config space. *)
Definition slots_ok (slots : list (option (Slot F))) : Prop :=
  forall d s, slots !! d = Some (Some s) -> fn_ok (sl_function s).

Definition config_of (slots : list (option (Slot F))) (d : nat) : option ConfigSpace :=
  match slots !! d with Some (Some s) => Some (fn_config (sl_function s)) | _ => None end.
Definition bar_of (slots : list (option (Slot F))) (d i : nat) : option Bar :=
  c ← config_of slots d; bar c i.
Definition addr_of (slots : list (option (Slot F))) (d i : nat) : option Z :=
  c ← config_of slots d; bar_address c i.

Lemma config_of_ok slots d c :
  slots_ok slots -> config_of slots d = Some c -> exists l, built c l.
Proof.
  intros Hs. unfold config_of. destruct (slots !! d) as [[s|]|] eqn:Hd; intros [=]. subst.
  by eapply Hs.
Qed.

Lemma config_of_program slots d i a d' :
  config_of (program slots d i a) d' =
  if decide (d = d') then (fun c => set_bar_address c i a) <$> config_of slots d'
  else config_of slots d'.
Proof.
  unfold config_of, program. case_decide as Hd.
  - subst. rewrite list_lookup_alter_eq. destruct (slots !! d') as [[s|]|]; simpl; [|done..].
    by rewrite config_set_config.
  - by rewrite list_lookup_alter_ne.
Qed.

Lemma program_ok slots d i a : 0 <= a -> slots_ok slots -> slots_ok (program slots d i a).
Proof.
  intros Ha Hs d' s'. unfold program. destruct (decide (d = d')) as [<- |Hne].
  - rewrite list_lookup_alter_eq. destruct (slots !! d) as [[s|]|] eqn:Hd; simpl; intros [=]. subst.
    destruct (Hs d s Hd) as [l Hl]. exists l. cbn [sl_function]. rewrite config_set_config.
    by apply built_assign.
  - rewrite list_lookup_alter_ne by done. apply Hs.
Qed.

Lemma set_bar_address_bar c i a j :
  (exists l, built c l) -> 0 <= a -> bar (set_bar_address c i a) j = bar c j.
Proof.
  intros [l Hl] Ha. destruct (built_inv c l Hl) as (A & B & _).
  pose proof (set_bar_address_change c i a A B Ha) as (_ & (_ & E & _) & _).
  unfold bar. by rewrite E.
Qed.

Lemma bar_of_program slots d i a d' i' :
  slots_ok slots -> 0 <= a -> bar_of (program slots d i a) d' i' = bar_of slots d' i'.
Proof.
  intros Hs Ha. unfold bar_of. rewrite config_of_program. case_decide as Hd; [|done].
  destruct (config_of slots d') as [c|] eqn:Hc; simpl; [|done].
  apply set_bar_address_bar; [by eapply config_of_ok|done].
Qed.

(** An aligned address inside the register's width is stored as it is. *)
Lemma aligned_masked b a :
  bar_valid b -> 0 <= a < 2 ^ 32 -> a mod bar_size b = 0 ->
  Z.land (wrap (bar_width (bar_kind b)) a) (not_w 64 (bar_size b - 1)) = a.
Proof.
  intros V Ha Hal. pose proof (bar_valid_log b V) as (s & Hs & Hr).
  assert (Hs4 : 4 <= s <= 63) by (destruct (bar_kind b); lia).
  rewrite wrap_small by (destruct (bar_kind b); unfold bar_width, fits; lia).
  apply Z.bits_inj'. intros i Hi. rewrite Z.land_spec. fold (address_mask b).
  rewrite (size_mask_testbit b s) by (done || lia). destruct (Z.leb_spec s i).
  - destruct (Z.ltb_spec i 64); [by rewrite andb_true_r|]. by rewrite (testbit_high a 32) by lia.
  - rewrite andb_false_r, andb_false_r. rewrite Hs in Hal.
    apply Z.mod_divide in Hal as [q ->]; [|apply Z.pow_nonzero; lia].
    by rewrite Z.mul_pow2_bits_low by lia.
Qed.

Lemma addr_of_program_same slots d i a b :
  slots_ok slots -> bar_of slots d i = Some b -> 0 <= a < 2 ^ 32 -> a mod bar_size b = 0 ->
  addr_of (program slots d i a) d i = Some a.
Proof.
  intros Hs Hb Ha Hal. unfold addr_of, bar_of in *. rewrite config_of_program, decide_True by done.
  destruct (config_of slots d) as [c|] eqn:Hc; [|done]. cbn in Hb |- *.
  destruct (config_of_ok slots d c Hs Hc) as [l Hl]. destruct (built_inv c l Hl) as (A & B & _).
  destruct (guest_program_facts c l i b a Hl Hb ltac:(lia)) as (E & _ & -> & _).
  rewrite E. f_equal. apply aligned_masked; [|lia|done].
  by apply (proj1 (proj2 B) i b), bar_slot.
Qed.

Lemma addr_of_program_other slots d i a d' i' :
  slots_ok slots -> 0 <= a -> (d', i') <> (d, i) ->
  addr_of (program slots d i a) d' i' = addr_of slots d' i'.
Proof.
  intros Hs Ha Hne. unfold addr_of. rewrite config_of_program. case_decide as Hd; [|done]. subst d'.
  destruct (config_of slots d) as [c|] eqn:Hc; cbn; [|done].
  destruct (config_of_ok slots d c Hs Hc) as [l Hl].
  destruct (bar c i) as [b|] eqn:Hb.
  - destruct (guest_program_facts c l i b a Hl Hb Ha) as (_ & _ & -> & H). apply H. congruence.
  - unfold set_bar_address. by rewrite Hb.
Qed.

(** Programming a whole plan. *)
Definition apply_plan (slots : list (option (Slot F))) (ps : list Planned) : list (option (Slot F)) :=
  fold_left (fun sl x => program sl (pl_device x) (pl_index x) (pl_base x)) ps slots.

Lemma apply_plan_ok slots ps :
  slots_ok slots -> Forall (fun x => 0 <= pl_base x) ps ->
  slots_ok (apply_plan slots ps) /\
  (forall d i, bar_of (apply_plan slots ps) d i = bar_of slots d i) /\
  (forall d i, (d, i) ∉ pl_key <$> ps -> addr_of (apply_plan slots ps) d i = addr_of slots d i).
Proof.
  intros Hs Hps. revert slots Hs. induction Hps as [|x ps Hx _ IH]; intros slots Hs; [done|].
  cbn [apply_plan fold_left]. pose proof (program_ok slots (pl_device x) (pl_index x) (pl_base x) Hx Hs) as Hs'.
  destruct (IH _ Hs') as (I1 & I2 & I3). split_and!; [done| |].
  - intros d i. etransitivity; [apply I2|]. by apply bar_of_program.
  - intros d i Hin. rewrite fmap_cons, not_elem_of_cons in Hin. destruct Hin as [Hne Hin].
    etransitivity; [by apply I3|]. by apply addr_of_program_other.
Qed.

Lemma apply_plan_addr slots ps x b :
  slots_ok slots -> Forall (fun x => 0 <= pl_base x < 2 ^ 32) ps -> NoDup (pl_key <$> ps) ->
  x ∈ ps -> bar_of slots (pl_device x) (pl_index x) = Some b -> pl_base x mod bar_size b = 0 ->
  addr_of (apply_plan slots ps) (pl_device x) (pl_index x) = Some (pl_base x).
Proof.
  intros Hs Hps. revert slots Hs. induction Hps as [|y ps Hy Hps IH]; intros slots Hs Hnd Hx Hb Hal.
  { by apply not_elem_of_nil in Hx. }
  cbn [apply_plan fold_left]. rewrite fmap_cons, list.NoDup_cons in Hnd. destruct Hnd as [Hny Hnd].
  pose proof (program_ok slots (pl_device y) (pl_index y) (pl_base y) ltac:(lia) Hs) as Hs'.
  apply elem_of_cons in Hx as [-> |Hx].
  - destruct (apply_plan_ok _ ps Hs') as (_ & _ & I3).
    { eapply Forall_impl; [|exact Hps]. simpl. lia. }
    etransitivity; [by apply I3|]. by eapply addr_of_program_same.
  - apply IH; [done|done|done| |done]. by rewrite bar_of_program by (done || lia).
Qed.

(** The loop is the plan, applied. *)
Lemma assign_loop_plan slots next e n ws :
  slots_ok slots -> 0 <= next <= e -> e <= 2 ^ 32 ->
  Forall (fun w => size_ok w.1.1 /\ is_Some (bar_of slots w.1.2 w.2)) ws ->
  assign_loop slots next e n ws =
  (apply_plan slots (plan next e ws), (n + length (plan next e ws))%nat).
Proof.
  intros Hs Hn He Hws. revert slots next n Hs Hn Hws.
  induction ws as [|[[size d] i] ws IH]; intros slots next n Hs Hn Hws; cbn [assign_loop plan].
  { cbn. f_equal. lia. }
  apply list.Forall_cons in Hws as [[Hsz [b Hb]] Hws]. cbn [fst snd] in *.
  destruct (plan_round e ltac:(lia) next size Hn Hsz) as (Hbs & Hm & Hin & _).
  unfold bar_of, config_of in Hb. destruct (slots !! d) as [[s|]|] eqn:Hd; [|done..].
  destruct (e <? _); [by apply IH|]. destruct (Hin eq_refl) as [Hle ->].
  pose proof (size_ok_range size Hsz).
  rewrite IH; [|by apply program_ok; [lia|]|lia|].
  - cbn [length apply_plan fold_left pl_device pl_index pl_base]. f_equal. lia.
  - eapply Forall_impl; [|exact Hws]. intros w [H1 H2]. split; [done|]. by rewrite bar_of_program by (done || lia).
Qed.
End assign.

Section bus_properties.
Context {F : Type} `{!PciFunction F, !PciFunctionLaws F}.
Implicit Types (bus : PciBus F) (slots : list (option (Slot F))).

(** ** What is requested *)

Lemma enumerate_elem {A} (l : list A) d x : (d, x) ∈ enumerate l <-> l !! d = Some x.
Proof.
  unfold enumerate. rewrite list_elem_of_lookup. split.
  - intros (i & Hi). rewrite list_lookup_imap in Hi. destruct (l !! i) eqn:E; simplify_eq/=. done.
  - intros Hd. exists d. by rewrite list_lookup_imap, Hd.
Qed.

Lemma wanted_elem slots size d i :
  slots_ok slots ->
  (size, d, i) ∈ wanted slots <-> exists b, bar_of slots d i = Some b /\ bar_size b = size.
Proof.
  intros Hs. unfold wanted. rewrite list_elem_of_bind. split.
  - intros ([d' o] & Hin & He%enumerate_elem). destruct o as [s|]; [|by apply not_elem_of_nil in Hin].
    apply list_elem_of_omap in Hin as (i' & Hi' & Hsome).
    destruct (bar (fn_config (sl_function s)) i') as [b|] eqn:Hb; simplify_eq/=.
    exists b. split; [|done]. unfold bar_of, config_of. by rewrite He.
  - intros (b & Hb & <-). unfold bar_of, config_of in Hb.
    destruct (slots !! d) as [[s|]|] eqn:Hd; [|done..]. cbn in Hb. exists (d, Some s).
    split; [|by apply enumerate_elem]. apply list_elem_of_omap. exists i. rewrite Hb. split; [|done].
    destruct (Hs d s Hd) as [l Hl]. destruct (built_inv _ l Hl) as (_ & (Hlen & _) & _).
    apply bar_slot, lookup_lt_Some in Hb. rewrite Hlen in Hb. apply elem_of_seq. unfold BARS in Hb. lia.
Qed.

Lemma wanted_size_ok slots : slots_ok slots -> Forall (fun w => size_ok w.1.1 /\ is_Some (bar_of slots w.1.2 w.2)) (wanted slots).
Proof.
  intros Hs. apply list.Forall_forall. intros [[size d] i] Hw. cbn [fst snd].
  apply wanted_elem in Hw as (b & Hb & <-); [|done]. split; [|by exists b].
  exists b. split; [|done]. unfold bar_of in Hb. destruct (config_of slots d) as [c|] eqn:Hc; [|done].
  destruct (config_of_ok slots d c Hs Hc) as [l Hl]. destruct (built_inv c l Hl) as (_ & (_ & Hbars & _) & _).
  by apply (Hbars i b), bar_slot.
Qed.

Lemma omap_keys {A B} (f : A -> option B) (g : B -> A) l :
  (forall x y, f x = Some y -> g y = x) -> NoDup l -> NoDup (omap f l).
Proof.
  intros Hg Hnd. induction Hnd as [|x l Hx _ IH]; simpl; [by apply list.NoDup_nil|].
  destruct (f x) as [y|] eqn:Hy; simpl; [|done]. apply list.NoDup_cons. split; [|done].
  intros (x' & Hx' & Hy')%list_elem_of_omap. apply Hg in Hy, Hy'. congruence.
Qed.

Lemma wanted_NoDup slots : slots_ok slots -> NoDup (want_key <$> wanted slots).
Proof.
  intros Hs. apply NoDup_fmap_2_strong.
  - intros [[s1 d1] i1] [[s2 d2] i2] H1 H2 [= -> ->].
    apply wanted_elem in H1 as (b1 & Hb1 & <-), H2 as (b2 & Hb2 & <-); [|done..]. congruence.
  - unfold wanted. apply NoDup_bind.
    + intros [d1 o1] [d2 o2] w H1%enumerate_elem H2%enumerate_elem Hw1 Hw2.
      destruct o1 as [s1|]; [|by apply not_elem_of_nil in Hw1].
      destruct o2 as [s2|]; [|by apply not_elem_of_nil in Hw2].
      apply list_elem_of_omap in Hw1 as (i1 & _ & E1), Hw2 as (i2 & _ & E2).
      destruct (bar _ i1), (bar _ i2); simplify_eq/=. done.
    + intros [d [s|]] _; [|by apply list.NoDup_nil].
      apply (omap_keys _ (fun w => w.2)); [|apply NoDup_seq].
      intros i w. destruct (bar _ i); intros; simplify_eq/=. done.
    + apply (NoDup_fmap_1 fst). unfold enumerate.
      replace (fst <$> imap pair slots) with (seq 0 (length slots)); [apply NoDup_seq|].
      apply list_eq. intros k. rewrite list_lookup_fmap, list_lookup_imap.
      destruct (slots !! k) eqn:Hk; simpl.
      * apply lookup_lt_Some in Hk. by rewrite lookup_seq_lt.
      * apply lookup_ge_None in Hk. by rewrite lookup_seq_ge.
Qed.

#[local] Instance want_le_trans : Transitive want_le.
Proof. intros [[? ?] ?] [[? ?] ?] [[? ?] ?]. unfold want_le. lia. Qed.
#[local] Instance want_le_total : Total want_le.
Proof. intros [[? ?] ?] [[? ?] ?]. unfold want_le. lia. Qed.

Definition requests (bus : PciBus F) : list want := merge_sort want_le (wanted (pb_slots bus)).

(** ** The two windows and the bus, as properties *)

Definition window_ok (bus : PciBus F) : Prop :=
  0 <= pb_base bus /\ 0 <= pb_size bus /\ pb_base bus + pb_size bus <= 2 ^ 32.

Lemma Forall_perm {A} (P : A -> Prop) (l l' : list A) : l ≡ₚ l' -> Forall P l -> Forall P l'.
Proof. intros E H. by rewrite <- E. Qed.

Lemma sum_sizes_perm ws ws' : ws ≡ₚ ws' -> sum_sizes ws = sum_sizes ws'.
Proof. induction 1; cbn [sum_sizes]; lia. Qed.

(** C3: firmware-style BAR assignment.  For any functions on the bus, the BARs
    that get an address get naturally aligned, pairwise disjoint ranges inside
    the window, and the addresses are what the config registers then hold;
    [n] is their number and every other BAR keeps its address.  Sorting by size
    makes it complete: if the window starts aligned to every BAR and the sizes
    add up to no more than the window, every BAR gets an address. *)
Theorem assign_bars_spec (bus : PciBus F) :
  slots_ok (pb_slots bus) -> window_ok bus ->
  let slots' := pb_slots (assign_bars bus).1 in
  exists ps : list Planned,
    (assign_bars bus).2 = length ps /\ slots_ok slots' /\
    NoDup (pl_key <$> ps) /\ separated ps /\
    Forall (fun x => pb_base bus <= pl_base x /\ pl_base x + pl_size x <= pb_base bus + pb_size bus /\
                     pl_base x mod pl_size x = 0 /\
                     (exists b, bar_of slots' (pl_device x) (pl_index x) = Some b /\ bar_size b = pl_size x) /\
                     addr_of slots' (pl_device x) (pl_index x) = Some (pl_base x)) ps /\
    (forall d i, (d, i) ∉ pl_key <$> ps -> addr_of slots' d i = addr_of (pb_slots bus) d i) /\
    (Forall (fun w => pb_base bus mod w.1.1 = 0) (wanted (pb_slots bus)) ->
     sum_sizes (wanted (pb_slots bus)) <= pb_size bus ->
     length ps = length (wanted (pb_slots bus))).
Proof.
  intros Hs (W1 & W2 & W3). pose proof (wanted_size_ok _ Hs) as Hws.
  pose proof (wanted_NoDup _ Hs) as Hnd. pose proof (merge_sort_Permutation want_le (wanted (pb_slots bus))) as Hp.
  set (e := pb_base bus + pb_size bus) in *.
  assert (He : add_w 64 (pb_base bus) (pb_size bus) = e) by (unfold add_w; apply wrap_small; unfold fits; lia).
  assert (Hws' := Forall_perm _ _ _ (symmetry Hp) Hws). fold (requests bus) in *.
  assert (Hsz : Forall (fun w => size_ok w.1.1) (requests bus)) by (eapply Forall_impl; [|exact Hws']; by intros ? [? _]).
  destruct (plan_ok e ltac:(lia) (pb_base bus) (requests bus) ltac:(lia) Hsz) as [P1 P2].
  set (ps := plan (pb_base bus) e (requests bus)) in *.
  assert (Hnk : NoDup (pl_key <$> ps)).
  { eapply sublist_NoDup; [|apply plan_keys]. by rewrite Hp. }
  assert (Ha : assign_bars bus = (set_slots bus (apply_plan (pb_slots bus) ps), length ps)).
  { unfold assign_bars. fold (requests bus). rewrite He.
    rewrite assign_loop_plan by (done || lia). fold ps. done. }
  rewrite Ha. cbn [fst snd set_slots pb_slots]. exists ps.
  assert (Hb0 : Forall (fun x => 0 <= pl_base x < 2 ^ 32) ps).
  { eapply Forall_impl; [|exact P1]. intros x (H1 & H2 & _ & H4). pose proof (size_ok_range _ H4). lia. }
  destruct (apply_plan_ok (pb_slots bus) ps Hs) as (A1 & A2 & A3).
  { eapply Forall_impl; [|exact Hb0]. simpl. lia. }
  split_and!; [done..| |done|].
  - rewrite list.Forall_forall in P1 |- *. intros x Hx. destruct (P1 x Hx) as (H1 & H2 & H3 & H4).
    pose proof (plan_in e _ _ _ Hx) as Hin. rewrite Hp in Hin.
    apply wanted_elem in Hin as (b & Hb & Hsize); [|done].
    split_and!; [done..| |].
    + exists b. by rewrite A2.
    + eapply apply_plan_addr; [done..|]. by rewrite Hsize.
  - intros Hal Hsum. unfold ps. rewrite plan_complete; [by rewrite Hp|lia|lia| |done| |].
    + rewrite (sum_sizes_perm _ _ Hp). lia.
    + apply StronglySorted_merge_sort; apply _.
    + eapply Forall_perm; [symmetry; exact Hp|done].
Qed.
(** ** Routing window accesses *)

Lemma decoded_bars_elem c i base len :
  (i, base, len) ∈ decoded_bars c <->
  memory_enabled c = true /\ (i < BARS)%nat /\ base <> 0 /\ bar_address c i = Some base /\
  exists b, bar c i = Some b /\ bar_size b = len.
Proof.
  unfold decoded_bars. destruct (memory_enabled c); cbn [negb].
  2: { split; [intros H; by apply not_elem_of_nil in H|by intros [? _]]. }
  rewrite list_elem_of_omap. split.
  - intros (i' & Hi & H). apply elem_of_seq in Hi. destruct (bar c i') as [b|] eqn:Hb; [|done]. cbn in H.
    destruct (bar_address c i') as [a|] eqn:Ha; [|done]. cbn in H.
    destruct (Z.eqb_spec a 0); [done|]. simplify_eq. split_and!; [done|lia|done|done|by exists b].
  - intros (_ & Hi & H0 & Ha & b & Hb & <-). exists i. split; [apply elem_of_seq; lia|].
    rewrite Hb. cbn. rewrite Ha. cbn. destruct (Z.eqb_spec base 0); done.
Qed.

(** BAR [i] of device [d] decodes all of [[gpa, gpa + size)]. *)
Definition decodes slots (gpa size : Z) (d i : nat) (base len : Z) : Prop :=
  exists s, slots !! d = Some (Some s) /\
    (i, base, len) ∈ decoded_bars (fn_config (sl_function s)) /\
    base <= gpa /\ gpa + size <= base + len.

Lemma route_Some bus gpa size d i off :
  0 <= gpa -> 0 <= size -> route bus gpa size = Some (d, i, off) ->
  exists base len, decodes (pb_slots bus) gpa size d i base len /\ off = gpa - base /\
    0 <= off /\ off + size <= len.
Proof.
  intros Hg Hs H. unfold route in H. destruct (checked_add 64 gpa size) as [e|] eqn:He; [|done].
  apply checked_add_Some in He as [-> He]. cbn in H.
  apply find_map_Some_lookup in H as (k & [d' o] & Hk & H).
  apply list_elem_of_lookup_2, enumerate_elem in Hk. destruct o as [s|]; [|done]. cbn in H.
  apply find_map_Some_lookup in H as (j & [[i' base] len] & Hj & H).
  apply list_elem_of_lookup_2 in Hj.
  destruct (Z.leb_spec base gpa); [|done].
  destruct (Z.leb_spec (gpa + size) (saturating_add 64 base len)) as [Hle|]; [|done].
  unfold saturating_add in Hle. simplify_eq/=. exists base, len. split_and!; [|lia..].
  exists s. split_and!; [done..|lia].
Qed.

Lemma route_None bus gpa size :
  0 <= gpa -> 0 <= size -> gpa + size < 2 ^ 64 -> route bus gpa size = None ->
  forall d i base len, ~ decodes (pb_slots bus) gpa size d i base len.
Proof.
  intros Hg Hs Hlt H d i base len (s & Hd & Hin & Hb & He). unfold route in H.
  assert (Hc : checked_add 64 gpa size = Some (gpa + size)) by (by apply checked_add_Some).
  rewrite Hc in H. cbn in H. apply find_map_None in H. rewrite list.Forall_forall in H.
  specialize (H (d, Some s)). rewrite enumerate_elem in H. specialize (H Hd). cbn in H.
  apply find_map_None in H. rewrite list.Forall_forall in H. specialize (H _ Hin). cbn in H.
  unfold saturating_add in H.
  destruct (Z.leb_spec base gpa); [|lia]. destruct (Z.leb_spec (gpa + size) (Z.min (base + len) (2 ^ 64 - 1))); [done|lia].
Qed.

(** A window access reaches a function exactly when one of its BARs decodes
    the whole access, memory decode being on: the function then sees the right
    BAR and an offset with [offset + size] inside it, and nothing but that
    function's state changes; otherwise the access is refused and nothing
    changes. *)
Theorem window_route_spec (bus : PciBus F) (gpa size value : Z) :
  0 <= gpa -> 0 <= size -> gpa + size < 2 ^ 64 ->
  (exists d s i base len,
     pb_slots bus !! d = Some (Some s) /\ decodes (pb_slots bus) gpa size d i base len /\
     0 <= gpa - base /\ gpa - base + size <= len /\
     (mmio_read bus gpa size).1 = Some (read_bar (sl_function s) i (gpa - base) size).1 /\
     (mmio_read bus gpa size).2 =
       set_function bus (Z.of_nat d) (read_bar (sl_function s) i (gpa - base) size).2 /\
     mmio_write bus gpa size value =
       (true, set_function bus (Z.of_nat d) (write_bar (sl_function s) i (gpa - base) size value))) \/
  ((forall d i base len, ~ decodes (pb_slots bus) gpa size d i base len) /\
   mmio_read bus gpa size = (None, bus) /\ mmio_write bus gpa size value = (false, bus)).
Proof.
  intros Hg Hs Hlt. unfold mmio_read, mmio_write.
  destruct (route bus gpa size) as [[[d i] off]|] eqn:Hr.
  - left. destruct (route_Some bus gpa size d i off Hg Hs Hr) as (base & len & Hd & -> & H1 & H2).
    pose proof Hd as (s & Hslot & _). exists d, s, i, base, len. rewrite Hslot.
    destruct (read_bar _ _ _ _). split_and!; done.
  - right. split_and!; [|done..]. by apply route_None.
Qed.

(** ** Config access through the ECAM window *)

Lemma ecam_decode_encode bus_no dev fn reg size :
  0 <= bus_no < 256 -> 0 <= dev < 32 -> 0 <= fn < 8 -> 0 <= reg < 4096 ->
  size = 1 \/ size = 2 \/ size = 4 -> reg mod size = 0 ->
  ecam_decode (bus_no * 2 ^ 20 + dev * 2 ^ 15 + fn * 2 ^ 12 + reg) size =
  Some ({| bdf_bus := bus_no; bdf_device := dev; bdf_function := fn |}, reg).
Proof.
  intros Hb Hd Hf Hr Hs Hal. unfold ecam_decode.
  replace (negb ((size =? 1) || (size =? 2) || (size =? 4))) with false
    by (destruct Hs as [-> |[-> | ->]]; done).
  set (o := _ + reg). assert (Ho : o = bus_no * 2 ^ 20 + dev * 2 ^ 15 + fn * 2 ^ 12 + reg) by done.
  change (2 ^ 20) with 1048576 in Ho. change (2 ^ 15) with 32768 in Ho. change (2 ^ 12) with 4096 in Ho.
  assert (Hm : o mod size = 0).
  { clearbody o. destruct Hs as [-> |[-> | ->]]; Z.div_mod_to_equations; lia. }
  rewrite Hm. cbn [Z.eqb negb].
  rewrite !Z.shiftr_div_pow2 by lia.
  rewrite (land_low _ 5 0x1f), (land_low _ 3 7), (land_low _ 12 0xfff) by done. unfold wrap.
  change (2 ^ 20) with 1048576. change (2 ^ 15) with 32768. change (2 ^ 12) with 4096.
  change (2 ^ 8) with 256. change (2 ^ 5) with 32. change (2 ^ 3) with 8. clearbody o.
  f_equal. f_equal; [f_equal|]; Z.div_mod_to_equations; lia.
Qed.

(** ** The root's invariant *)

(** Every populated slot has a reachable config space; pins belong to one slot
    each, are routed to an existing line, and mirror INTx disable. *)
Record root_ok (r : PciRoot F) : Prop := {
  ro_len : length (pb_slots (rt_bus r)) = DEVICES;
  ro_slots : slots_ok (pb_slots (rt_bus r));
  ro_pins : forall d s p, pb_slots (rt_bus r) !! d = Some (Some s) -> sl_pin s = Some p ->
    exists st line, ix_pins (rt_intx r) !! p = Some (st, line) /\
      (line < length (ix_lines (rt_intx r)))%nat /\
      disabled st = intx_disabled (fn_config (sl_function s));
  ro_unique : forall d d' s s' p, pb_slots (rt_bus r) !! d = Some (Some s) ->
    pb_slots (rt_bus r) !! d' = Some (Some s') -> sl_pin s = Some p -> sl_pin s' = Some p -> d = d';
}.

Lemma slot_lookup bus (b : Bdf) (s : Slot F) :
  slot bus b = Some s ->
  bdf_bus b = 0 /\ bdf_function b = 0 /\ 0 <= bdf_device b /\
  pb_slots bus !! Z.to_nat (bdf_device b) = Some (Some s).
Proof.
  unfold slot. destruct (Z.eqb_spec (bdf_bus b) 0), (Z.eqb_spec (bdf_function b) 0); cbn; try done.
  destruct (get (pb_slots bus) (bdf_device b)) as [o|] eqn:Hg; [|done]. intros ->.
  pose proof (get_Some_range _ _ _ Hg). rewrite get_lookup in Hg by lia. split_and!; [done..|lia|done].
Qed.

Lemma set_function_lookup bus (k : nat) (f : F) d :
  pb_slots (set_function bus (Z.of_nat k) f) !! d =
  if decide (k = d) then option_map (fun s => {| sl_function := f; sl_pin := sl_pin s |}) <$> (pb_slots bus !! d)
  else pb_slots bus !! d.
Proof.
  unfold set_function, update_at. cbn [set_slots pb_slots].
  destruct (Z.ltb_spec (Z.of_nat k) 0); [lia|]. rewrite Nat2Z.id. case_decide as Hk.
  - subst. apply list_lookup_alter_eq.
  - by apply list_lookup_alter_ne.
Qed.

Lemma length_set_function bus d (f : F) :
  length (pb_slots (set_function bus d f)) = length (pb_slots bus).
Proof. apply length_update_at. Qed.

(** Replacing one function by a later state of itself keeps the invariant when
    its INTx disable bit is still what its pin says. *)
Lemma set_function_ok r (k : nat) s (f : F) ix :
  root_ok r -> pb_slots (rt_bus r) !! k = Some (Some s) -> fn_ok f ->
  (forall p st line, sl_pin s = Some p -> ix_pins (rt_intx r) !! p = Some (st, line) ->
     (line < length (ix_lines (rt_intx r)))%nat ->
     exists st', ix_pins ix !! p = Some (st', line) /\ disabled st' = intx_disabled (fn_config f)) ->
  (forall p, sl_pin s <> Some p -> ix_pins ix !! p = ix_pins (rt_intx r) !! p) ->
  length (ix_lines ix) = length (ix_lines (rt_intx r)) ->
  root_ok {| rt_bus := set_function (rt_bus r) (Z.of_nat k) f; rt_intx := ix |}.
Proof.
  intros [H1 H2 H3 H4] Hk Hf Hpin Hother Hlen. split; cbn [rt_bus rt_intx].
  - by rewrite length_set_function.
  - intros d s'. rewrite set_function_lookup. case_decide as Hd; [|apply H2].
    subst. rewrite Hk. cbn. intros [= <-]. done.
  - intros d s' p. rewrite set_function_lookup. case_decide as Hd.
    + subst d. rewrite Hk. cbn. intros [= <-] Hp. cbn [sl_pin sl_function] in *.
      destruct (H3 k s p Hk Hp) as (st & line & Hst & Hline & _).
      destruct (Hpin p st line Hp Hst Hline) as (st' & Hst' & Hdis). exists st', line.
      rewrite Hlen. done.
    + intros Hs' Hp. destruct (H3 d s' p Hs' Hp) as (st & line & Hst & Hline & Hdis).
      exists st, line. rewrite Hlen, Hother; [done|]. intros E.
      apply Hd. by apply (H4 k d s s' p).
  - intros d d' s1 s2 p. rewrite !set_function_lookup.
    repeat case_decide; subst; rewrite ?Hk; cbn; try (intros; lia).
    + intros [= <-] Hs2. cbn [sl_pin]. by apply H4.
    + intros Hs1 [= <-]. cbn [sl_pin]. by apply H4.
    + apply H4.
Qed.

Lemma intx_disabled_command c c' : command c = command c' -> intx_disabled c = intx_disabled c'.
Proof. unfold intx_disabled. by intros ->. Qed.

(** The same, for an access that leaves command and pins alone. *)
Lemma set_function_ok_same r (k : nat) s (f : F) :
  root_ok r -> pb_slots (rt_bus r) !! k = Some (Some s) -> fn_ok f ->
  command (fn_config f) = command (fn_config (sl_function s)) ->
  root_ok {| rt_bus := set_function (rt_bus r) (Z.of_nat k) f; rt_intx := rt_intx r |}.
Proof.
  intros Hr Hk Hf Hc. eapply set_function_ok; [done..| |done|done].
  intros p st line Hp Hst _. exists st. split; [done|].
  destruct (ro_pins r Hr k s p Hk Hp) as (st' & line' & Hst' & _ & Hdis).
  rewrite Hst in Hst'. injection Hst' as <- <-. rewrite Hdis. symmetry. by apply intx_disabled_command.
Qed.

Lemma root_eta (r : PciRoot F) : {| rt_bus := rt_bus r; rt_intx := rt_intx r |} = r.
Proof. by destruct r. Qed.

Lemma mmio_read_root_ok r gpa size :
  root_ok r -> root_ok {| rt_bus := (mmio_read (rt_bus r) gpa size).2; rt_intx := rt_intx r |}.
Proof.
  intros Hr. unfold mmio_read. destruct (route _ _ _) as [[[d i] off]|]; [|cbn [snd]; by rewrite root_eta].
  destruct (pb_slots (rt_bus r) !! d) as [[s|]|] eqn:Hd; [|cbn [snd]; by rewrite root_eta..].
  pose proof (read_bar_ok (sl_function s) i off size (ro_slots r Hr d s Hd)) as Hok.
  pose proof (read_bar_command (sl_function s) i off size) as Hcmd.
  destruct (read_bar _ _ _ _) as [v f]. cbn [snd] in *. by eapply set_function_ok_same.
Qed.

Lemma mmio_write_root_ok r gpa size v :
  root_ok r -> root_ok {| rt_bus := (mmio_write (rt_bus r) gpa size v).2; rt_intx := rt_intx r |}.
Proof.
  intros Hr. unfold mmio_write. destruct (route _ _ _) as [[[d i] off]|]; [|cbn [snd]; by rewrite root_eta].
  destruct (pb_slots (rt_bus r) !! d) as [[s|]|] eqn:Hd; [|cbn [snd]; by rewrite root_eta..]. cbn [snd].
  eapply set_function_ok_same; [done..| |apply write_bar_command].
  apply write_bar_ok, (ro_slots r Hr d s Hd).
Qed.

Lemma config_read_root_ok r b reg size : root_ok r -> root_ok (root_config_read r b reg size).2.
Proof.
  intros Hr. unfold root_config_read, config_read.
  destruct (slot (rt_bus r) b) as [s|] eqn:Hs; [|cbn [snd]; by rewrite root_eta].
  apply slot_lookup in Hs as (_ & _ & Hd0 & Hd).
  pose proof (read_config_ok (sl_function s) reg size (ro_slots r Hr _ s Hd)) as Hok.
  pose proof (read_config_command (sl_function s) reg size) as Hcmd.
  destruct (read_config _ _ _) as [v f]. cbn [snd] in *.
  rewrite <- (Z2Nat.id (bdf_device b)) by done. by eapply set_function_ok_same.
Qed.

Lemma update_disabled off s l : disabled (PciIntx.update (Disable off) s l).1 = off.
Proof. unfold PciIntx.update, update_pin. cbn. destruct (negb _); done. Qed.

Lemma pin_update_disable off p ix st line :
  ix_pins ix !! p = Some (st, line) -> (line < length (ix_lines ix))%nat ->
  let ix' := pin_update (Disable off) p ix in
  (exists st', ix_pins ix' !! p = Some (st', line) /\ disabled st' = off) /\
  (forall q, q <> p -> ix_pins ix' !! q = ix_pins ix !! q) /\
  length (ix_lines ix') = length (ix_lines ix).
Proof.
  intros Hp Hline. unfold pin_update. rewrite Hp.
  destruct (lookup_lt_is_Some_2 (ix_lines ix) line Hline) as [l Hl]. rewrite Hl.
  pose proof (update_disabled off st l) as Hd. destruct (PciIntx.update _ st l) as [st' l'].
  cbn [fst ix_pins ix_lines] in *. split_and!.
  - exists st'. split; [|done]. apply list_lookup_insert_eq. by eapply lookup_lt_Some.
  - intros q Hq. by apply list_lookup_insert_ne.
  - apply length_insert.
Qed.

Lemma config_write_root_ok r b reg size v : root_ok r -> root_ok (root_config_write r b reg size v).2.
Proof.
  intros Hr. unfold root_config_write, config_write.
  destruct (slot (rt_bus r) b) as [s|] eqn:Hs; [|cbn [snd]; by rewrite root_eta].
  apply slot_lookup in Hs as (_ & _ & Hd0 & Hd). cbn [snd].
  set (f := write_config _ _ _ _). rewrite <- (Z2Nat.id (bdf_device b)) by done.
  pose proof (write_config_ok (sl_function s) reg size v (ro_slots r Hr _ s Hd)) as Hok. fold f in Hok.
  destruct (sl_pin s) as [p|] eqn:Hp.
  - destruct (ro_pins r Hr _ s p Hd Hp) as (st & line & Hst & Hline & _).
    destruct (pin_update_disable (intx_disabled (fn_config f)) p (rt_intx r) st line Hst Hline) as (E1 & E2 & E3).
    eapply set_function_ok; [done..| | |done].
    + intros q st0 line0 Hq Hst0 _. rewrite Hp in Hq. injection Hq as <-.
      rewrite Hst in Hst0. injection Hst0 as <- <-. exact E1.
    + intros q Hq. apply E2. congruence.
  - eapply set_function_ok; [done..| |done|done]. intros q st0 line0 Hq. congruence.
Qed.

Lemma set_bar_address_command c i a :
  (exists l, built c l) -> 0 <= a -> command (set_bar_address c i a) = command c.
Proof.
  intros [l Hl] Ha. destruct (built_inv c l Hl) as (A & (_ & B & _) & _).
  destruct (bar c i) as [b|] eqn:Hb; [|unfold set_bar_address; by rewrite Hb].
  pose proof (bar_reg_range c i b (B i b (bar_slot c i b Hb))) as R.
  assert (Hput : forall c k v, arrays_ok c -> (BAR0 <= k /\ k + 4 <= BAR0 + 4 * BARS)%nat ->
            arrays_ok (put c k (le_bytes 4 v)) /\ command (put c k (le_bytes 4 v)) = command c).
  { intros c0 k v A0 Hk. unfold BAR0, BARS in Hk.
    assert (A1 : arrays_ok (put c0 k (le_bytes 4 v))) by (apply arrays_ok_put; [done|apply le_bytes_fits]).
    split; [done|]. unfold command, u16_at. f_equal. rewrite !read_of_le by done. f_equal.
    apply list_fmap_ext. intros n x Hx%lookup_seq. change (Z.to_nat (wrap 16 (Z.of_nat COMMAND))) with 4%nat in Hx.
    change (Z.to_nat (Z.min 2 4)) with 2%nat in Hx.
    rewrite byte_at_put by (rewrite ?length_le_bytes; unfold CONFIG_SPACE_SIZE; done || lia).
    by rewrite decide_False by (autorewrite with ternrw; lia). }
  unfold set_bar_address. rewrite Hb. unfold bar_regs, bar_reg in *. set (v := Z.lor _ _).
  destruct (bar_kind b).
  - by apply Hput; [|lia].
  - destruct (Hput c (BAR0 + i * 4)%nat v A ltac:(lia)) as [A1 E1]. etransitivity; [|exact E1].
    by apply Hput; [|lia].
Qed.

Lemma apply_plan_root_ok r ps :
  root_ok r -> Forall (fun x => 0 <= pl_base x) ps ->
  root_ok {| rt_bus := set_slots (rt_bus r) (apply_plan (pb_slots (rt_bus r)) ps); rt_intx := rt_intx r |}.
Proof.
  intros Hr Hps. revert r Hr. induction Hps as [|x ps Hx _ IH]; intros r Hr.
  { cbn. destruct r as [[sl ba si] ix]. done. }
  cbn [apply_plan fold_left]. set (sl := program _ _ _ _).
  assert (Hr' : root_ok {| rt_bus := set_slots (rt_bus r) sl; rt_intx := rt_intx r |}); [|by apply (IH _ Hr')].
  destruct Hr as [H1 H2 H3 H4].
  assert (Hlk : forall d, sl !! d = if decide (pl_device x = d) then option_map (fun s =>
      {| sl_function := fn_set_config (sl_function s) (set_bar_address (fn_config (sl_function s)) (pl_index x) (pl_base x));
         sl_pin := sl_pin s |}) <$> (pb_slots (rt_bus r) !! d) else pb_slots (rt_bus r) !! d).
  { intros d. unfold sl, program. case_decide; [subst; apply list_lookup_alter_eq|by apply list_lookup_alter_ne]. }
  assert (Hback : forall d s, sl !! d = Some (Some s) -> exists s0,
      pb_slots (rt_bus r) !! d = Some (Some s0) /\ sl_pin s = sl_pin s0 /\
      intx_disabled (fn_config (sl_function s)) = intx_disabled (fn_config (sl_function s0))).
  { intros d s. rewrite Hlk. case_decide; [|by exists s].
    destruct (pb_slots (rt_bus r) !! d) as [[s0|]|] eqn:Hd; cbn; intros [= <-]. exists s0.
    cbn [sl_pin sl_function]. rewrite config_set_config. split_and!; [done..|].
    apply intx_disabled_command, set_bar_address_command; [by eapply H2|done]. }
  split; cbn [rt_bus rt_intx set_slots pb_slots].
  - unfold sl, program. by rewrite length_alter.
  - by apply program_ok.
  - intros d s p Hd Hp. destruct (Hback d s Hd) as (s0 & Hs0 & Ep & ->). rewrite Ep in Hp. by eapply H3.
  - intros d d' s s' p Hd Hd' Hp Hp'. destruct (Hback d s Hd) as (s0 & Hs0 & Ep & _).
    destruct (Hback d' s' Hd') as (s0' & Hs0' & Ep' & _). apply (H4 d d' s0 s0' p); congruence.
Qed.

Lemma assign_root_ok r :
  root_ok r -> window_ok (rt_bus r) -> root_ok (root_assign_bars r).1.
Proof.
  intros Hr (W1 & W2 & W3). pose proof (ro_slots r Hr) as Hs.
  assert (Hws : Forall (fun w => size_ok w.1.1 /\ is_Some (bar_of (pb_slots (rt_bus r)) w.1.2 w.2)) (requests (rt_bus r))).
  { eapply Forall_perm; [symmetry; apply merge_sort_Permutation|by apply wanted_size_ok]. }
  assert (Hsz : Forall (fun w => size_ok w.1.1) (requests (rt_bus r)))
    by (eapply Forall_impl; [|exact Hws]; by intros ? [? _]).
  set (e := pb_base (rt_bus r) + pb_size (rt_bus r)) in *.
  assert (He : add_w 64 (pb_base (rt_bus r)) (pb_size (rt_bus r)) = e)
    by (unfold add_w; apply wrap_small; unfold fits; lia).
  unfold root_assign_bars, assign_bars. fold (requests (rt_bus r)).
  rewrite He, assign_loop_plan by (done || lia). cbn [fst].
  apply apply_plan_root_ok; [done|].
  destruct (plan_ok e ltac:(lia) (pb_base (rt_bus r)) (requests (rt_bus r)) ltac:(lia) Hsz) as [P1 _].
  eapply Forall_impl; [|exact P1]. intros x (H1 & _). lia.
Qed.

Lemma insert_lookup bus (k : nat) (f : F) pin d :
  (k < length (pb_slots bus))%nat ->
  pb_slots (PciBus.insert bus (Z.of_nat k) f pin) !! d =
  if decide (k = d) then Some (Some {| sl_function := f; sl_pin := pin |}) else pb_slots bus !! d.
Proof.
  intros Hk. unfold PciBus.insert, update_at. cbn [set_slots pb_slots].
  destruct (Z.ltb_spec (Z.of_nat k) 0); [lia|]. rewrite Nat2Z.id. case_decide as Hd.
  - subst. rewrite list_lookup_alter_eq. by destruct (lookup_lt_is_Some_2 _ _ Hk) as [o ->].
  - by apply list_lookup_alter_ne.
Qed.

Lemma length_insert_bus bus d (f : F) pin :
  length (pb_slots (PciBus.insert bus d f pin)) = length (pb_slots bus).
Proof. apply length_update_at. Qed.

Lemma root_new_ok (hb : F) : fn_ok hb -> root_ok (root_new hb).
Proof.
  intros Hb.
  assert (Hlk : forall d s, pb_slots (rt_bus (root_new hb)) !! d = Some (Some s) ->
            d = 0%nat /\ s = {| sl_function := hb; sl_pin := None |}).
  { intros d s H. destruct d as [|d]; [by injection H as <-|].
    exfalso. cbn in H. do 31 (destruct d as [|d]; [done|]). done. }
  split; [done|..].
  - intros d s [_ ->]%Hlk. done.
  - by intros d s p [_ ->]%Hlk.
  - by intros d d' s s' p [_ ->]%Hlk.
Qed.

Lemma free_device_spec bus device :
  length (pb_slots bus) = DEVICES -> free_device bus = Some device ->
  exists k, device = Z.of_nat k /\ (k < DEVICES)%nat /\ pb_slots bus !! k = Some None.
Proof.
  intros Hl. unfold free_device. destruct (position is_none (pb_slots bus)) as [k|] eqn:Hp; [|done].
  apply position_Some in Hp as (o & Hk & Ho & _). intros [= <-].
  assert (k < DEVICES)%nat by (rewrite <- Hl; by eapply lookup_lt_Some).
  exists k. rewrite wrap_small by (unfold fits, DEVICES in *; lia). destruct o; [done|]. done.
Qed.

(** A builder hands back a reachable config space with INTx enabled. *)
Definition builder_ok (build : Bdf -> nat -> result string F) : Prop :=
  forall b p f, build b p = Ok f -> fn_ok f /\ intx_disabled (fn_config f) = false.

Lemma add_root_ok r build b r' :
  root_ok r -> length (ix_lines (rt_intx r)) = 4%nat -> builder_ok build ->
  add r build = Ok (b, r') ->
  root_ok r' /\ length (ix_lines (rt_intx r')) = 4%nat /\
  pb_base (rt_bus r') = pb_base (rt_bus r) /\ pb_size (rt_bus r') = pb_size (rt_bus r).
Proof.
  intros Hr Hlines Hbuild H. unfold add in H.
  destruct (free_device (rt_bus r)) as [device|] eqn:Hfree; [|done].
  destruct (free_device_spec _ _ (ro_len r Hr) Hfree) as (k & -> & Hk & Hnone).
  destruct (build _ _) as [f|] eqn:Hf; [|done]. destruct (Hbuild _ _ _ Hf) as [Hok Hdis].
  destruct (capabilities _) as [[caps|]|]; [|done..]. injection H as <- <-.
  destruct Hr as [H1 H2 H3 H4]. rewrite <- H1 in Hk.
  assert (Hold : forall d s p, pb_slots (rt_bus r) !! d = Some (Some s) -> sl_pin s = Some p ->
            (p < length (ix_pins (rt_intx r)))%nat).
  { intros d s p Hd Hp. destruct (H3 d s p Hd Hp) as (st & line & Hst & _). by eapply lookup_lt_Some. }
  split; [|done]. split; cbn [rt_bus rt_intx ix_pins ix_lines].
  - by rewrite length_insert_bus.
  - intros d s. rewrite insert_lookup by done. case_decide; [intros [= <-]; done|apply H2].
  - intros d s p. rewrite insert_lookup by done. case_decide.
    + intros [= <-] [= <-]. exists pin_new, (Z.to_nat (swizzle (Z.of_nat k) 1)).
      rewrite lookup_app_r, Nat.sub_diag by done. split_and!; [done| |done].
      rewrite Hlines. pose proof (Z.mod_pos_bound (Z.of_nat k + Z.max 1 1 - 1) 4 ltac:(lia)).
      unfold swizzle, PCI_INTX_LINES. lia.
    + intros Hd Hp. destruct (H3 d s p Hd Hp) as (st & line & Hst & Hrest). exists st, line.
      split; [|done]. rewrite lookup_app_l; [done|]. by eapply lookup_lt_Some.
  - intros d d' s s' p. rewrite !insert_lookup by done. repeat case_decide; subst; try done.
    + intros [= <-] Hs' [= <-] Hp'. apply (Hold _ _ _ Hs') in Hp'. lia.
    + intros Hs [= <-] Hp [= <-]. apply (Hold _ _ _ Hs) in Hp. lia.
    + apply H4.
Qed.

(** What happens to a root complex over its life. *)
Inductive root_reach : PciRoot F -> Prop :=
| rr_new hb : fn_ok hb -> root_reach (root_new hb)
| rr_add r build b r' : root_reach r -> builder_ok build -> add r build = Ok (b, r') -> root_reach r'
| rr_assign r : root_reach r -> root_reach (root_assign_bars r).1
| rr_ecam_read r offset size : root_reach r -> root_reach (ecam_read r offset size).2
| rr_ecam_write r offset size v : root_reach r -> root_reach (ecam_write r offset size v)
| rr_window_read r offset size : root_reach r -> root_reach (window_read r offset size).2
| rr_window_write r offset size v : root_reach r -> root_reach (window_write r offset size v).

(** The parts of the root no access changes. *)
Definition same_root (r r' : PciRoot F) : Prop :=
  length (ix_lines (rt_intx r')) = length (ix_lines (rt_intx r)) /\
  pb_base (rt_bus r') = pb_base (rt_bus r) /\ pb_size (rt_bus r') = pb_size (rt_bus r).

Lemma pin_update_lines ch p ix : length (ix_lines (pin_update ch p ix)) = length (ix_lines ix).
Proof.
  unfold pin_update. destruct (ix_pins ix !! p) as [[s line]|]; [|done].
  destruct (ix_lines ix !! line); [|done]. destruct (PciIntx.update _ _ _). apply length_insert.
Qed.

Lemma config_read_same r b reg size : same_root r (root_config_read r b reg size).2.
Proof.
  unfold root_config_read, config_read. destruct (slot _ b) as [s|]; [|done].
  destruct (read_config _ _ _). done.
Qed.

Lemma config_write_same r b reg size v : same_root r (root_config_write r b reg size v).2.
Proof.
  unfold root_config_write, config_write. destruct (slot _ b) as [s|]; [|done].
  destruct (sl_pin s); [|done]. split; [|done]. apply pin_update_lines.
Qed.

Lemma mmio_same r gpa size v :
  same_root r {| rt_bus := (mmio_read (rt_bus r) gpa size).2; rt_intx := rt_intx r |} /\
  same_root r {| rt_bus := (mmio_write (rt_bus r) gpa size v).2; rt_intx := rt_intx r |}.
Proof.
  unfold mmio_read, mmio_write. destruct (route _ _ _) as [[[d i] off]|]; [|done].
  destruct (pb_slots (rt_bus r) !! d) as [[s|]|]; [|done..]. destruct (read_bar _ _ _ _). done.
Qed.

Lemma assign_same r : same_root r (root_assign_bars r).1.
Proof. unfold root_assign_bars, assign_bars. destruct (assign_loop _ _ _ _ _). done. Qed.

(** The whole invariant of a root complex: slots, pins, lines and window. *)
Definition root_inv (r : PciRoot F) : Prop :=
  root_ok r /\ length (ix_lines (rt_intx r)) = 4%nat /\ window_ok (rt_bus r).

Lemma root_inv_same r r' : root_inv r -> same_root r r' -> root_ok r' -> root_inv r'.
Proof.
  intros (_ & L & W) (E1 & E2 & E3) H. split_and!; [done|congruence|].
  unfold window_ok. by rewrite E2, E3.
Qed.

Lemma root_invariant_of (r : PciRoot F) : root_reach r -> root_inv r.
Proof.
  induction 1 as [hb Hb|r build b r' _ (IH & L & W) Hb Ha|r _ IH|r o n _ IH|r o n v _ IH|r o n _ IH|r o n v _ IH].
  - split_and!; [by apply root_new_ok|done|done..].
  - destruct (add_root_ok r build b r' IH L Hb Ha) as (H1 & H2 & H3 & H4).
    split_and!; [done..|]. unfold window_ok. by rewrite H3, H4.
  - eapply root_inv_same; [exact IH|apply assign_same|]. by apply assign_root_ok; apply IH.
  - unfold ecam_read. destruct (ecam_decode o n) as [[b reg]|]; [|done].
    eapply root_inv_same; [exact IH|apply config_read_same|]. by apply config_read_root_ok, IH.
  - unfold ecam_write. destruct (ecam_decode o n) as [[b reg]|]; [|done].
    eapply root_inv_same; [exact IH|apply config_write_same|]. by apply config_write_root_ok, IH.
  - unfold window_read. set (gpa := add_w _ _ _). pose proof (mmio_read_root_ok r gpa n (proj1 IH)) as H.
    pose proof (proj1 (mmio_same r gpa n 0)) as S. destruct (mmio_read _ _ _). by eapply root_inv_same.
  - unfold window_write. set (gpa := add_w _ _ _).
    eapply root_inv_same; [exact IH|apply (mmio_same r gpa n v)|]. by apply mmio_write_root_ok, IH.
Qed.

(** C7: for the whole life of the root complex (creation, adding functions, BAR
    assignment, guest accesses to the ECAM and BAR windows, in any order) there
    are 32 slots, every function's config space is one its device and the guest
    could have built (so its capability list and read-only bits are intact),
    every pin belongs to one slot, is routed to one of the four lines, and has
    its disable flag equal to the function's INTx-disable command bit. *)
Theorem root_invariant (r : PciRoot F) : root_reach r -> root_inv r.
Proof. apply root_invariant_of. Qed.

(** What the ECAM window does with an aligned access to register [reg] of
    function [bus:dev.fn].  Where no function is, reads give all ones and writes
    change nothing; where one is, the read is the function's own config read with
    the INTx status bit merged in, and the write updates that function and no
    other slot, and mirrors its INTx-disable bit into its pin. *)
Theorem ecam_access_spec (r : PciRoot F) (bus_no dev fn reg size val : Z) :
  root_ok r ->
  0 <= bus_no < 256 -> 0 <= dev < 32 -> 0 <= fn < 8 -> 0 <= reg < 4096 ->
  size = 1 \/ size = 2 \/ size = 4 -> reg mod size = 0 ->
  let offset := bus_no * 2 ^ 20 + dev * 2 ^ 15 + fn * 2 ^ 12 + reg in
  match slot (rt_bus r) {| bdf_bus := bus_no; bdf_device := dev; bdf_function := fn |} with
  | None => ecam_read r offset size = (all_ones size, r) /\ ecam_write r offset size val = r
  | Some s =>
      bus_no = 0 /\ fn = 0 /\
      (let v := (read_config (sl_function s) reg size).1 in
       let pending := match sl_pin s with Some p => pin_asserted (rt_intx r) p | None => false end in
       (ecam_read r offset size).1 =
         if bool_decide (reg <= 6 < reg + size) && pending
         then Z.lor v (2 ^ (3 + 8 * (6 - reg))) else v) /\
      (let f := write_config (sl_function s) reg size (wrap 32 val) in
       (forall d, pb_slots (rt_bus (ecam_write r offset size val)) !! d =
          if decide (d = Z.to_nat dev) then Some (Some {| sl_function := f; sl_pin := sl_pin s |})
          else pb_slots (rt_bus r) !! d) /\
       forall p, sl_pin s = Some p -> exists st line,
         ix_pins (rt_intx (ecam_write r offset size val)) !! p = Some (st, line) /\
         disabled st = intx_disabled (fn_config f))
  end.
Proof.
  intros Hr Hb Hd Hf Hreg Hs Hal offset.
  pose proof (ecam_decode_encode bus_no dev fn reg size Hb Hd Hf Hreg Hs Hal) as E. fold offset in E.
  unfold ecam_read, ecam_write. rewrite E.
  unfold root_config_read, root_config_write, config_read, config_write.
  destruct (slot _ _) as [s|] eqn:Hslot.
  2: { cbn [snd]. rewrite root_eta. done. }
  apply slot_lookup in Hslot as (Hb0 & Hf0 & _ & Hlk). cbn [bdf_bus bdf_device bdf_function] in *.
  destruct (read_config (sl_function s) reg size) as [v f'] eqn:Hrd. cbn [fst snd rt_bus rt_intx].
  split_and!; [done..| | |].
  - unfold add_w. rewrite wrap_small by (unfold fits; lia). change (Z.of_nat STATUS) with 6.
    destruct (Z.leb_spec reg 6), (Z.ltb_spec 6 (reg + size)); cbn [andb from_option];
      [|by rewrite bool_decide_false by lia..].
    rewrite bool_decide_true by lia. cbn [andb]. set (pending := match sl_pin s with Some _ => _ | None => _ end).
    destruct pending; [|done]. unfold id. f_equal.
    change STATUS_INTERRUPT with (2 ^ 3). rewrite Z.shiftl_mul_pow2, <- Z.pow_add_r by lia.
    apply wrap_small. split; [apply Z.pow_nonneg; lia|apply Z.pow_lt_mono_r; lia].
  - intros d. rewrite <- (Z2Nat.id dev) at 1 by lia. rewrite set_function_lookup.
    destruct (decide (d = Z.to_nat dev)) as [-> |Hne]; [|by rewrite decide_False by congruence].
    rewrite decide_True by done. by rewrite Hlk.
  - intros p Hp. rewrite Hp. destruct (ro_pins r Hr _ s p Hlk Hp) as (st & line & Hst & Hline & _).
    destruct (pin_update_disable (intx_disabled (fn_config (write_config (sl_function s) reg size (wrap 32 val))))
                p (rt_intx r) st line Hst Hline) as ((st' & H1 & H2) & _).
    exists st', line. done.
Qed.
End bus_properties.

(** ** Demonstration data for the witnesses *)

Definition demo_function : HostBridge := {| hb_config := demo_config |}.
Definition demo_build (b : Bdf) (p : nat) : result string HostBridge := Ok demo_function.
Definition demo_root : PciRoot HostBridge :=
  match add (root_new host_bridge_new) demo_build with
  | Ok (_, r) => r
  | Err _ => root_new host_bridge_new
  end.

Lemma demo_root_reach : root_reach demo_root.
Proof.
  refine (rr_add (root_new host_bridge_new) demo_build (bdf_new 1) demo_root _ _ _).
  - apply rr_new, host_bridge_ok.
  - intros b p f [= <-]. split; [exists [(0x40%nat, 0x09)]; exact demo_config_built|].
    vm_compute. reflexivity.
  - vm_compute. reflexivity.
Qed.

Lemma root_invariant_witness : root_inv (ecam_write demo_root 0x8004 2 0x0402).
Proof. apply root_invariant, rr_ecam_write, demo_root_reach. Defined.

Lemma demo_root_ok : root_ok demo_root.
Proof. assert (H : root_inv demo_root) by exact (root_invariant_of _ demo_root_reach). apply H. Qed.

(** The 16 KiB BAR of device 1 gets an address. *)
Lemma assign_bars_spec_witness :
  exists ps : list Planned, (assign_bars (rt_bus demo_root)).2 = length ps /\ separated ps /\ length ps = 1%nat.
Proof.
  destruct (assign_bars_spec (rt_bus demo_root)) as (ps & H1 & _ & _ & H2 & _ & _ & H3).
  - apply (ro_slots _ demo_root_ok).
  - unfold window_ok. vm_compute. repeat split; discriminate.
  - exists ps. split; [exact H1|]. split; [exact H2|]. rewrite H3.
    + vm_compute. reflexivity.
    + apply (bool_decide_unpack _). vm_compute. exact I.
    + vm_compute. discriminate.
Defined.

(** Nothing decodes before the guest enables memory decode. *)
Lemma window_route_spec_witness :
  ~ decodes (pb_slots (rt_bus demo_root)) 0x10000000 4 1 4 0x10000000 0x4000.
Proof.
  assert (E : (mmio_read (rt_bus demo_root) 0x10000000 4).1 = None) by (vm_compute; reflexivity).
  destruct (window_route_spec (rt_bus demo_root) 0x10000000 4 0)
    as [(d & s & i & base & len & _ & _ & _ & _ & H & _)|(H & _)].
  - lia.
  - lia.
  - lia.
  - exfalso. rewrite E in H. discriminate H.
  - exact (H 1%nat 4%nat 0x10000000 0x4000).
Defined.

(** Device 1 answers with its vendor ID; device 2 is absent. *)
Lemma ecam_access_spec_witness :
  (ecam_read demo_root 0x8000 2).1 = 0x1af4 /\ ecam_read demo_root 0x10000 2 = (0xffff, demo_root).
Proof.
  split.
  - pose proof (ecam_access_spec demo_root 0 1 0 0 2 0 demo_root_ok ltac:(lia) ltac:(lia) ltac:(lia)
                  ltac:(lia) ltac:(auto) eq_refl) as H.
    destruct (slot (rt_bus demo_root) _) as [s|] eqn:Hs; [|vm_compute in Hs; discriminate Hs].
    destruct H as (_ & _ & H & _). change (0 * 2 ^ 20 + 1 * 2 ^ 15 + 0 * 2 ^ 12 + 0) with 0x8000 in H.
    rewrite H, bool_decide_false by lia. cbn [andb].
    assert (E : match slot (rt_bus demo_root) (bdf_new 1) with
                | Some s => (read_config (sl_function s) 0 2).1 | None => 0 end = 0x1af4)
      by (vm_compute; reflexivity).
    unfold bdf_new in E. rewrite Hs in E. exact E.
  - pose proof (ecam_access_spec demo_root 0 2 0 0 2 0 demo_root_ok ltac:(lia) ltac:(lia) ltac:(lia)
                  ltac:(lia) ltac:(auto) eq_refl) as H.
    destruct (slot (rt_bus demo_root) _) as [s|] eqn:Hs; [vm_compute in Hs; discriminate Hs|].
    exact (proj1 H).
Defined.
