(* ===== verification/VirtioPci.v ===== *)
(** * The virtio-pci transport

    Model of [ternvale-devices/src/virtio/pci.rs], [pci/common.rs] and
    [pci/caps.rs]: one PCI function per virtio device, its vendor capabilities,
    the common configuration structure over [VirtioCore], the ISR, device and
    notify regions of BAR 0, the [pci_cfg] window that reaches BAR 0 through
    config space, and the optional MSI-X table.

    The MSI-X table accessors may panic in principle, so BAR accesses return an
    option; [VirtioPci_PciFunction] keeps the old state there, a case the
    invariant excludes ([bar_access_ok]).  The interrupt hook refreshes
    the function's INTx pin; [hooked] runs it after an operation that called
    it.  Traces and warnings are not modelled. *)

From stdpp Require Import strings pretty.
From S2P Require Import Prelude Windows Platform MmioBus PciConfig PciIntx PciMsix PciBus.
From S2P Require Import VirtioQueue VirtioIrq VirtioCore VirtioMmio.

(** ** BAR layout and capabilities ([pci/caps.rs]) *)

Definition CAP_VENDOR : Z := 0x09.
Definition CFG_COMMON : Z := 1.
Definition CFG_NOTIFY : Z := 2.
Definition CFG_ISR : Z := 3.
Definition CFG_DEVICE : Z := 4.
Definition CFG_PCI : Z := 5.
Definition BAR : Z := 0.
Definition COMMON_OFFSET : Z := 0x0000.
Definition ISR_OFFSET : Z := 0x1000.
Definition DEVICE_OFFSET : Z := 0x2000.
Definition NOTIFY_OFFSET : Z := 0x3000.
Definition REGION_SIZE : Z := 0x1000.
Definition NOTIFY_MULTIPLIER : Z := 4.
Definition MSIX_TABLE_OFFSET : Z := 0x4000.
Definition MSIX_PBA_OFFSET : Z := 0x5000.
Definition BAR_SIZE : Z := 0x4000.
Definition BAR_SIZE_MSIX : Z := 0x8000.
Definition MSIX_NO_VECTOR : Z := 0xffff.

(** [PciCfgCap]: the offset of the capability. *)
Definition PciCfgCap : Type := nat.
Definition cap_data (cap : PciCfgCap) : nat := cap + 16.
Definition window (cap : PciCfgCap) (config : ConfigSpace) : Z * Z * Z :=
  (default 0 (head (bytes config (cap + 4) 1)), u32_at config (cap + 8), u32_at config (cap + 12)).

Definition body (cfg_type cap_len offset length : Z) : list Z :=
  [cap_len; cfg_type; BAR; 0; 0; 0] ++ le_bytes 4 (wrap 32 offset) ++ le_bytes 4 (wrap 32 length).

Definition pci_cfg_wmask : list Z := [0; 0; 0xff; 0; 0; 0] ++ replicate 12 0xff.

Definition add_all (config : ConfigSpace) : result PciError (PciCfgCap * ConfigSpace) :=
  '(_, config) ← add_capability config CAP_VENDOR (body CFG_COMMON 16 COMMON_OFFSET REGION_SIZE) [];
  let notify := body CFG_NOTIFY 20 NOTIFY_OFFSET REGION_SIZE ++ le_bytes 4 NOTIFY_MULTIPLIER in
  '(_, config) ← add_capability config CAP_VENDOR notify [];
  '(_, config) ← add_capability config CAP_VENDOR (body CFG_ISR 16 ISR_OFFSET REGION_SIZE) [];
  '(_, config) ← add_capability config CAP_VENDOR (body CFG_DEVICE 16 DEVICE_OFFSET REGION_SIZE) [];
  let pci_cfg := body CFG_PCI 20 0 0 ++ replicate 4 0 in
  '(cap, config) ← add_capability config CAP_VENDOR pci_cfg pci_cfg_wmask;
  Ok (Z.to_nat cap, config).

(** ** The common configuration structure ([pci/common.rs]) *)

Definition DFSELECT : Z := 0x00.
Definition DFEATURE : Z := 0x04.
Definition GFSELECT : Z := 0x08.
Definition GFEATURE : Z := 0x0c.
Definition MSIX_CONFIG : Z := 0x10.
Definition NUM_QUEUES : Z := 0x12.
Definition DEVICE_STATUS : Z := 0x14.
Definition PCI_CONFIG_GENERATION : Z := 0x15.
Definition QUEUE_SELECT : Z := 0x16.
Definition QUEUE_SIZE : Z := 0x18.
Definition QUEUE_MSIX_VECTOR : Z := 0x1a.
Definition QUEUE_ENABLE : Z := 0x1c.
Definition QUEUE_NOTIFY_OFF : Z := 0x1e.
Definition QUEUE_DESC : Z := 0x20.
Definition QUEUE_DRIVER : Z := 0x28.
Definition QUEUE_DEVICE : Z := 0x30.
Definition END : Z := 0x38.

(** [a..b] as a pattern. *)
Definition within (a b x : Z) : bool := (a <=? x) && (x <? b).

Definition addr_field (offset : Z) : QueueAddr * bool :=
  let which := if within QUEUE_DESC QUEUE_DRIVER offset then Desc
               else if within QUEUE_DRIVER QUEUE_DEVICE offset then Driver
               else Device in
  (which, offset mod 8 =? 4).

Definition field_size (offset : Z) : option Z :=
  if (offset =? DFSELECT) || (offset =? DFEATURE) || (offset =? GFSELECT) || (offset =? GFEATURE)
  then Some 4
  else if (offset =? MSIX_CONFIG) || (offset =? NUM_QUEUES) || (offset =? QUEUE_SELECT)
          || (offset =? QUEUE_SIZE) || (offset =? QUEUE_MSIX_VECTOR) || (offset =? QUEUE_ENABLE)
          || (offset =? QUEUE_NOTIFY_OFF)
  then Some 2
  else if (offset =? DEVICE_STATUS) || (offset =? PCI_CONFIG_GENERATION) then Some 1
  else if within QUEUE_DESC END offset && (offset mod 4 =? 0) then Some 4
  else None.

Definition common_size_ok (offset size : Z) : bool :=
  let wide := (size =? 8) && within QUEUE_DESC END offset && (offset mod 8 =? 0) in
  wide || bool_decide (field_size offset = Some size).

(** ** Names *)

Definition hex_digit (d : Z) : string :=
  default "" (["0"; "1"; "2"; "3"; "4"; "5"; "6"; "7"; "8"; "9"; "a"; "b"; "c"; "d"; "e"; "f"]
                !! Z.to_nat d).
(** [{:02x}] of a [u8]. *)
Definition hex2 (v : Z) : string := String.append (hex_digit (v / 16)) (hex_digit (v mod 16)).
Definition bdf_display (b : Bdf) : string :=
  String.append (hex2 (bdf_bus b)) (String.append ":" (String.append (hex2 (bdf_device b))
    (String.append "." (pretty (bdf_function b))))).

Definition VIRTIO_PCI_VENDOR_ID : Z := 0x1af4.
Definition VIRTIO_PCI_DEVICE_BASE : Z := 0x1040.

Definition class_code (device_id : Z) : Z :=
  if device_id =? 1 then 0x020000
  else if device_id =? 2 then 0x010000
  else if device_id =? 3 then 0x078000
  else if device_id =? 16 then 0x038000
  else if device_id =? 18 then 0x098000
  else 0xff0000.

Section transport.
Context {V : Type} `{!VirtioDevice V}.

(** ** State *)

Record VirtioPci := {
  p_core : VirtioCore V;
  p_config : ConfigSpace;
  p_pci_cfg : PciCfgCap;
  p_dfselect : Z;
  p_gfselect : Z;
  p_queue_select : Z;
  p_msix_config : Z;
  p_queue_vectors : list Z;
  p_msix : option Msix;
}.

Definition with_core (c : VirtioCore V) (p : VirtioPci) : VirtioPci :=
  {| p_core := c; p_config := p_config p; p_pci_cfg := p_pci_cfg p; p_dfselect := p_dfselect p;
     p_gfselect := p_gfselect p; p_queue_select := p_queue_select p;
     p_msix_config := p_msix_config p; p_queue_vectors := p_queue_vectors p; p_msix := p_msix p |}.
Definition with_config (c : ConfigSpace) (p : VirtioPci) : VirtioPci :=
  {| p_core := p_core p; p_config := c; p_pci_cfg := p_pci_cfg p; p_dfselect := p_dfselect p;
     p_gfselect := p_gfselect p; p_queue_select := p_queue_select p;
     p_msix_config := p_msix_config p; p_queue_vectors := p_queue_vectors p; p_msix := p_msix p |}.
Definition with_selects (df gf qs : Z) (p : VirtioPci) : VirtioPci :=
  {| p_core := p_core p; p_config := p_config p; p_pci_cfg := p_pci_cfg p; p_dfselect := df;
     p_gfselect := gf; p_queue_select := qs;
     p_msix_config := p_msix_config p; p_queue_vectors := p_queue_vectors p; p_msix := p_msix p |}.
Definition with_vectors (mc : Z) (qv : list Z) (p : VirtioPci) : VirtioPci :=
  {| p_core := p_core p; p_config := p_config p; p_pci_cfg := p_pci_cfg p; p_dfselect := p_dfselect p;
     p_gfselect := p_gfselect p; p_queue_select := p_queue_select p;
     p_msix_config := mc; p_queue_vectors := qv; p_msix := p_msix p |}.
Definition with_msix (m : option Msix) (p : VirtioPci) : VirtioPci :=
  {| p_core := p_core p; p_config := p_config p; p_pci_cfg := p_pci_cfg p; p_dfselect := p_dfselect p;
     p_gfselect := p_gfselect p; p_queue_select := p_queue_select p;
     p_msix_config := p_msix_config p; p_queue_vectors := p_queue_vectors p; p_msix := m |}.

(** ** Construction *)

Definition pci_header (device_id : Z) : Header :=
  {| h_vendor_id := VIRTIO_PCI_VENDOR_ID;
     h_device_id := add_w 16 VIRTIO_PCI_DEVICE_BASE (wrap 16 device_id);
     h_class_code := class_code device_id; h_revision := 1;
     h_subsystem_vendor_id := VIRTIO_PCI_VENDOR_ID; h_subsystem_id := 0x1100;
     h_interrupt_pin := 1 |}.

Definition pci_bar (msix_vectors : Z) : Bar :=
  {| bar_size := if 0 <? msix_vectors then BAR_SIZE_MSIX else BAR_SIZE;
     bar_kind := Mem32; prefetchable := false |}.

Definition pci_new (bdf : Bdf) (device : V) (interrupt : Irq) (msix_vectors : Z)
  : result PciError VirtioPci :=
  let name := String.append "virtio-pci-" (bdf_display bdf) in
  let config := PciConfig.new (pci_header (device_id device)) in
  config ← add_bar config (Z.to_nat BAR) (pci_bar msix_vectors);
  '(pci_cfg, config) ← add_all config;
  '(msix, config) ←
    (if msix_vectors =? 0 then Ok (None, config)
     else '(_, msix, config) ← msix_add_capability
                                 (msix_new msix_vectors BAR MSIX_TABLE_OFFSET MSIX_PBA_OFFSET) config;
          Ok (Some msix, config));
  let interrupt := set_hook interrupt in
  Ok {| p_core := VirtioCore.new name device interrupt; p_config := config; p_pci_cfg := pci_cfg;
        p_dfselect := 0; p_gfselect := 0; p_queue_select := 0; p_msix_config := MSIX_NO_VECTOR;
        p_queue_vectors := replicate (Z.to_nat (num_queues device)) MSIX_NO_VECTOR;
        p_msix := msix |}.

(** ** Common configuration accesses *)

Definition common_read (p : VirtioPci) (offset size : Z) : Z :=
  if negb (common_size_ok offset size) then 0
  else
    let sel := p_queue_select p in
    let q := queue (p_core p) sel in
    if offset =? DFSELECT then p_dfselect p
    else if offset =? DFEATURE then feature_word (offered (p_core p)) (p_dfselect p)
    else if offset =? GFSELECT then p_gfselect p
    else if offset =? GFEATURE then feature_word (co_driver_features (p_core p)) (p_gfselect p)
    else if offset =? MSIX_CONFIG then p_msix_config p
    else if offset =? NUM_QUEUES then Z.of_nat (length (co_queues (p_core p)))
    else if offset =? DEVICE_STATUS then co_status (p_core p)
    else if offset =? PCI_CONFIG_GENERATION then
      wrap 8 (config_generation (co_device (p_core p)))
    else if offset =? QUEUE_SELECT then p_queue_select p
    else if offset =? QUEUE_SIZE then
      match q with Some q => if q_num q =? 0 then q_num_max q else q_num q | None => 0 end
    else if offset =? QUEUE_MSIX_VECTOR then default MSIX_NO_VECTOR (get (p_queue_vectors p) sel)
    else if offset =? QUEUE_ENABLE then
      Z.b2z (match q with Some q => q_ready q | None => false end)
    else if offset =? QUEUE_NOTIFY_OFF then p_queue_select p
    else if within QUEUE_DESC END offset then
      match q with
      | None => 0
      | Some q =>
          let '(which, high) := addr_field offset in
          let addr := match which with Desc => q_desc q | Driver => q_driver q | Device => q_device q end in
          if size =? 8 then addr
          else if high then Z.shiftr addr 32
          else Z.land addr 0xffffffff
      end
    else 0.

Definition accept_vector (p : VirtioPci) (vector : Z) : Z :=
  match p_msix p with Some _ => vector | None => MSIX_NO_VECTOR end.

Definition reset_transport (p : VirtioPci) : VirtioPci :=
  with_vectors MSIX_NO_VECTOR ((fun _ => MSIX_NO_VECTOR) <$> p_queue_vectors p) (with_selects 0 0 0 p).

Definition enable_queue (sel value : Z) (c : VirtioCore V) : VirtioCore V :=
  let c :=
    if value =? 1 then
      match queue c sel with
      | Some q => if q_num q =? 0 then set_queue_num sel (q_num_max q) c else c
      | None => c
      end
    else c in
  set_queue_ready sel value c.

Definition common_write (p : VirtioPci) (offset size value : Z) : VirtioPci :=
  if negb (common_size_ok offset size) then p
  else
    let sel := p_queue_select p in
    if offset =? DFSELECT then with_selects (wrap 32 value) (p_gfselect p) sel p
    else if offset =? GFSELECT then with_selects (p_dfselect p) (wrap 32 value) sel p
    else if offset =? GFEATURE then
      with_core (write_driver_features (p_gfselect p) (wrap 32 value) (p_core p)) p
    else if offset =? MSIX_CONFIG then
      with_vectors (accept_vector p (wrap 16 value)) (p_queue_vectors p) p
    else if offset =? DEVICE_STATUS then
      let p := if value =? 0 then reset_transport p else p in
      with_core (write_status (wrap 32 value) (p_core p)) p
    else if offset =? QUEUE_SELECT then
      with_selects (p_dfselect p) (p_gfselect p) (wrap 16 value) p
    else if offset =? QUEUE_SIZE then with_core (set_queue_num sel (wrap 32 value) (p_core p)) p
    else if offset =? QUEUE_MSIX_VECTOR then
      with_vectors (p_msix_config p)
        (update_at (p_queue_vectors p) sel (fun _ => accept_vector p (wrap 16 value))) p
    else if offset =? QUEUE_ENABLE then with_core (enable_queue sel (wrap 32 value) (p_core p)) p
    else if within QUEUE_DESC END offset then
      let '(which, high) := addr_field offset in
      if size =? 8 then
        let c := set_queue_addr sel which false (wrap 32 value) (p_core p) in
        with_core (set_queue_addr sel which true (wrap 32 (Z.shiftr value 32)) c) p
      else with_core (set_queue_addr sel which high (wrap 32 value) (p_core p)) p
    else p.

(** ** BAR 0 *)

(** The MSI-X table when it claims the offset. *)
Definition claiming (p : VirtioPci) (offset : Z) : option Msix :=
  m ← p_msix p; if claims m 0 offset then Some m else None.

Definition bar0_read (p : VirtioPci) (offset size : Z) : option (Z * VirtioPci) :=
  match claiming p offset with
  | Some m => v ← table_read m offset size; Some (v, p)
  | None =>
      let rel := offset mod REGION_SIZE in
      let region := offset - rel in
      if region =? COMMON_OFFSET then Some (common_read p rel size, p)
      else if (region =? ISR_OFFSET) && (rel =? 0) then
        let bits := VirtioIrq.status (co_interrupt (p_core p)) in
        Some (bits, with_core (set_interrupt (ack bits (co_interrupt (p_core p))) (p_core p)) p)
      else if region =? DEVICE_OFFSET then
        let '(v, d) := VirtioCore.read_config (co_device (p_core p)) rel size in
        Some (v, with_core (set_device d (p_core p)) p)
      else Some (0, p)
  end.

Definition bar0_write (p : VirtioPci) (offset size value : Z) : option VirtioPci :=
  match claiming p offset with
  | Some m => m ← table_write m offset size value; Some (with_msix (Some m) p)
  | None =>
      let rel := offset mod REGION_SIZE in
      let region := offset - rel in
      if region =? COMMON_OFFSET then Some (common_write p rel size value)
      else if region =? DEVICE_OFFSET then
        Some (with_core (set_device (VirtioCore.write_config (co_device (p_core p)) rel size value)
                                    (p_core p)) p)
      else if (region =? NOTIFY_OFFSET) && (rel mod NOTIFY_MULTIPLIER =? 0) then
        Some (with_core (VirtioCore.notify (wrap 32 (rel / NOTIFY_MULTIPLIER)) (p_core p)) p)
      else Some p
  end.

(** ** The [pci_cfg] window *)

Definition pci_cfg_target (p : VirtioPci) : option (Z * Z) :=
  let '(bar, offset, length) := window (p_pci_cfg p) (p_config p) in
  if (bar =? BAR) && ((length =? 1) || (length =? 2) || (length =? 4)) && (offset mod length =? 0)
  then Some (offset, wrap 8 length)
  else None.

Definition pci_read_config (p : VirtioPci) (offset size : Z) : option (Z * VirtioPci) :=
  if offset =? Z.of_nat (cap_data (p_pci_cfg p)) then
    match pci_cfg_target p with
    | Some (bar_offset, len) =>
        '(v, p) ← bar0_read p bar_offset len;
        Some (wrap 32 (mask (wrap 32 (mask v len)) size), p)
    | None => Some (wrap 32 (mask 0 size), p)
    end
  else Some (PciConfig.read (p_config p) offset size, p).

Definition pci_write_config (p : VirtioPci) (offset size value : Z) : option VirtioPci :=
  if offset =? Z.of_nat (cap_data (p_pci_cfg p)) then
    match pci_cfg_target p with
    | Some (bar_offset, len) => bar0_write p bar_offset len (mask value len)
    | None => Some p
    end
  else
    let p := with_config (PciConfig.write (p_config p) offset size value) p in
    Some (match p_msix p with Some m => with_msix (Some (sync m (p_config p))) p | None => p end).

Definition pci_read_bar (p : VirtioPci) (bar : nat) (offset size : Z) : option (Z * VirtioPci) :=
  '(v, p) ← (if Z.of_nat bar =? BAR then bar0_read p offset size else Some (2 ^ 64 - 1, p));
  Some (mask v size, p).

Definition pci_write_bar (p : VirtioPci) (bar : nat) (offset size value : Z) : option VirtioPci :=
  if Z.of_nat bar =? BAR then bar0_write p offset size value else Some p.

(** [impl PciFunction for VirtioPci]. *)
#[export] Instance VirtioPci_PciFunction : PciFunction VirtioPci := {|
  fn_name := fun p => co_name (p_core p);
  fn_config := p_config;
  fn_set_config := fun p c => with_config c p;
  PciBus.read_config := fun p offset size => default (0, p) (pci_read_config p offset size);
  PciBus.write_config := fun p offset size value => default p (pci_write_config p offset size value);
  read_bar := fun p bar offset size => default (0, p) (pci_read_bar p bar offset size);
  write_bar := fun p bar offset size value => default p (pci_write_bar p bar offset size value);
|}.

(** ** The interrupt hook

    [new] installs a hook on the function's [VirtioIrq] that refreshes pin [id]
    with "some status bit is set".  An operation that called the hook has a
    longer call log. *)
Definition hooked (id : nat) (before after : Irq) (ix : Intx) : Intx :=
  if (length (i_calls before) <? length (i_calls after))%nat
  then pin_update (Request (pending after)) id ix else ix.

(** [attach_pci]: the function on the next free slot of the root complex. *)
Definition attach_pci (r : PciRoot VirtioPci) (device : V) (interrupt : Irq)
    (display : PciError -> string) : result PciError (Bdf * PciRoot VirtioPci) :=
  add r (fun bdf _ =>
    match pci_new bdf device interrupt 0 with
    | Ok f => Ok f
    | Err e => Err (display e)
    end).

End transport.
Arguments VirtioPci : clear implicits.

(** ** Invariant *)

Section facts.
Context {V : Type} `{!VirtioDevice V}.
Implicit Types (p : VirtioPci V) (c : VirtioCore V).

(** The vendor capabilities at 0x40, with the offsets [add_all] chooses; the
    [pci_cfg] capability is at 0x84. *)
Definition PCI_CFG_AT : nat := 0x84.
Definition layout : list Z :=
  [9; 0x50; 16; 1; 0; 0; 0; 0; 0; 0; 0; 0; 0; 0x10; 0; 0;
   9; 0x64; 20; 2; 0; 0; 0; 0; 0; 0x30; 0; 0; 0; 0x10; 0; 0; 4; 0; 0; 0;
   9; 0x74; 16; 3; 0; 0; 0; 0; 0; 0x10; 0; 0; 0; 0x10; 0; 0;
   9; 0x84; 16; 4; 0; 0; 0; 0; 0; 0x20; 0; 0; 0; 0x10; 0; 0; 9].

(** The capability bytes are in place and read-only, the window registers of
    the [pci_cfg] capability are writable. *)
Definition caps_placed (cs : ConfigSpace) : Prop :=
  (forall k, (FIRST_CAP <= k < FIRST_CAP + length layout)%nat ->
     byte_at (cs_data cs) k = byte_at layout (k - FIRST_CAP) /\ byte_at (cs_wmask cs) k = 0) /\
  (forall k, k = (PCI_CFG_AT + 4)%nat \/ (PCI_CFG_AT + 8 <= k < PCI_CFG_AT + 20)%nat ->
     byte_at (cs_wmask cs) k = 0xff).

(** The enable bit of the MSI-X capability at [cap]. *)
Definition msix_enable (cs : ConfigSpace) (cap : Z) : bool :=
  negb (Z.land (u16_at cs (Z.to_nat cap + 2)) CONTROL_ENABLE =? 0).

(** The table is in range, at the offsets of the layout, and mirrors the enable
    bit; without MSI-X every vector reads back as none. *)
Definition msix_inv p : Prop :=
  match p_msix p with
  | None => p_msix_config p = MSIX_NO_VECTOR /\ Forall (eq MSIX_NO_VECTOR) (p_queue_vectors p)
  | Some m => msix_ok m /\ (x_table_offset m = MSIX_TABLE_OFFSET /\ x_pba_offset m = MSIX_PBA_OFFSET) /\
      exists cap, x_cap m = Some cap /\ 0x40 <= cap < 0xfc /\ x_enabled m = msix_enable (p_config p) cap
  end.

Record pci_ok p : Prop := {
  po_core : wf_core (p_core p);
  po_config : exists l, built (p_config p) l;
  po_caps : caps_placed (p_config p);
  po_cfg : p_pci_cfg p = PCI_CFG_AT;
  po_selects : fits 32 (p_dfselect p) /\ fits 32 (p_gfselect p) /\ fits 16 (p_queue_select p);
  po_vectors : fits 16 (p_msix_config p) /\ Forall (fits 16) (p_queue_vectors p) /\
               length (p_queue_vectors p) = length (co_queues (p_core p));
  po_msix : msix_inv p;
}.

(** *** The function [pci_new] builds *)

Definition declared (h : Header) (v : Z) : result PciError (PciCfgCap * ConfigSpace) :=
  config ← add_bar (PciConfig.new h) (Z.to_nat BAR) (pci_bar v); add_all config.

Lemma body_fits t n o l : fits 8 t -> fits 8 n -> Forall (fits 8) (body t n o l).
Proof.
  intros Ht Hn. unfold body. apply Forall_app_2; [|apply Forall_app_2; apply le_bytes_fits].
  do 6 (constructor; [done|]). constructor.
Qed.

Lemma built_next (cs : ConfigSpace) l id body wm k r :
  built cs l -> fits 8 id -> Forall (fits 8) body -> Forall (fits 8) wm ->
  (add_capability cs id body wm ≫= k) = Ok r ->
  exists o cs' l', built cs' l' /\ k (o, cs') = (Ok r : result PciError (PciCfgCap * ConfigSpace)).
Proof.
  intros B Hid Hb Hw [[o c'] [Hc Hk]]%bind_Ok. exists o, c'. eexists. split; [|exact Hk].
  eapply built_cap; [exact B|exact Hid|exact Hb|exact Hw|exact Hc].
Qed.

Lemma declared_built h v cap cs :
  fits 8 (h_revision h) -> fits 8 (h_interrupt_pin h) -> declared h v = Ok (cap, cs) -> exists l, built cs l.
Proof.
  intros Hr Hp. unfold declared. rewrite bind_Ok. intros (c0 & H0 & H).
  assert (B : built c0 []) by (eapply built_bar; [by apply built_new|exact H0]). clear H0.
  unfold add_all in H.
  do 5 (eapply built_next in H as (? & ? & ? & ?B & H); [|exact B|done| |];
        [clear B; rename B0 into B; cbv beta iota zeta in H
        |repeat apply Forall_app_2; try (apply body_fits; done); try apply le_bytes_fits;
         apply (bool_decide_unpack _); vm_compute; exact I
        |apply (bool_decide_unpack _); vm_compute; exact I]).
  injection H as _ <-. eauto.
Qed.

(** The bytes of a segment. *)
Lemma byte_at_segment l a s k :
  take (length s) (drop a l) = s -> (a <= k < a + length s)%nat -> byte_at l k = byte_at s (k - a).
Proof.
  intros Hs Hk. unfold byte_at. rewrite <- Hs at 1.
  rewrite lookup_take_lt, lookup_drop by lia. by replace (a + (k - a))%nat with k by lia.
Qed.

Lemma caps_placed_segments (cs : ConfigSpace) :
  take 69 (drop 64 (cs_data cs)) = layout -> take 69 (drop 64 (cs_wmask cs)) = replicate 69 0 ->
  take 20 (drop 132 (cs_wmask cs)) = [0; 0] ++ pci_cfg_wmask -> caps_placed cs.
Proof.
  intros Hd Hm Hw. split.
  - intros k Hk. split; [by apply byte_at_segment|].
    rewrite (byte_at_segment _ 64 (replicate 69 0)) by (done || exact Hk).
    unfold byte_at. destruct (replicate 69 0 !! _) eqn:E; [|done]. by apply lookup_replicate in E as [-> _].
  - intros k Hk. unfold PCI_CFG_AT in Hk. rewrite (byte_at_segment _ 132 ([0; 0] ++ pci_cfg_wmask)); [|done|simpl; lia].
    assert (Hs : (k - 132 = 4 \/ 8 <= k - 132 < 20)%nat) by lia. revert Hs. generalize (k - 132)%nat.
    intros j [-> |Hj]; [done|]. do 20 (destruct j as [|j]; [done || lia|]). lia.
Qed.

(** The header's fields as variable bytes, for evaluation. *)
Lemma le_bytes2_shape v : exists a b, le_bytes 2 v = [a; b].
Proof. do 2 eexists. reflexivity. Qed.
Lemma le_bytes4_shape v : exists a b x d, le_bytes 4 v = [a; b; x; d].
Proof. do 4 eexists. reflexivity. Qed.

(** Evaluate a construction over the header's bytes. *)
Ltac header_bytes h :=
  unfold declared, pci_bar, PciConfig.new;
  destruct (le_bytes2_shape (h_vendor_id h)) as (? & ? & ->);
  destruct (le_bytes2_shape (h_device_id h)) as (? & ? & ->);
  destruct (le_bytes4_shape (h_class_code h)) as (? & ? & ? & ? & ->);
  destruct (le_bytes2_shape (h_subsystem_vendor_id h)) as (? & ? & ->);
  destruct (le_bytes2_shape (h_subsystem_id h)) as (? & ? & ->);
  generalize (h_revision h) (h_interrupt_pin h); intros ? ?.

Lemma declared_ok h v : exists cs, declared h v = Ok (PCI_CFG_AT, cs) /\ caps_placed cs.
Proof.
  header_bytes h. destruct (0 <? v).
  all: eexists; split; [vm_compute; reflexivity|].
  all: apply caps_placed_segments; vm_compute; reflexivity.
Qed.

(** The MSI-X capability's body, with table size field [ctl]. *)
Definition msix_body (ctl : Z) : list Z :=
  le_bytes 2 ctl ++ le_bytes 4 (Z.lor MSIX_TABLE_OFFSET BAR) ++ le_bytes 4 (Z.lor MSIX_PBA_OFFSET BAR).
Definition msix_wmask : list Z := le_bytes 2 (Z.lor CONTROL_ENABLE CONTROL_FUNCTION_MASK).

Lemma declared_msix h v cs ctl :
  declared h v = Ok (PCI_CFG_AT, cs) ->
  exists cs', add_capability cs MSIX_CAP_ID (msix_body ctl) msix_wmask = Ok (0x98, cs') /\
    caps_placed cs' /\ take 2 (drop 0x9a (cs_data cs')) = le_bytes 2 ctl.
Proof.
  unfold msix_body. header_bytes h. destruct (le_bytes2_shape ctl) as (? & ? & ->).
  destruct (0 <? v); vm_compute (_ ≫= _); intros [= <-].
  all: eexists; split; [vm_compute; reflexivity|].
  all: split; [apply caps_placed_segments; vm_compute; reflexivity|vm_compute; reflexivity].
Qed.

(** *** Config space *)

Lemma config_arrays (cs : ConfigSpace) : (exists l, built cs l) -> arrays_ok cs /\ bars_ok cs.
Proof. intros [l Hl]. destruct (built_inv cs l Hl) as (A & B & _). done. Qed.

(** Read-only bytes and masks survive a change of writable bits. *)
Lemma caps_placed_change (cs cs' : ConfigSpace) :
  arrays_ok cs -> writable_change cs cs' -> caps_placed cs -> caps_placed cs'.
Proof.
  intros A W [H1 H2]. pose proof W as (A' & (M & _) & D). split.
  - intros k Hk. destruct (H1 k Hk) as [Hd Hm]. rewrite M, <- Hd. split; [|done].
    apply byte_ext; [apply byte_at_fits, A'|apply byte_at_fits, A|].
    intros b Hb. apply D; [done|]. rewrite Hm. apply Z.testbit_0_l.
  - intros k Hk. rewrite M. by apply H2.
Qed.

(** Host BAR assignment leaves the bytes from 0x28 on as they are. *)
Lemma set_bar_address_bytes (cs : ConfigSpace) i a k :
  arrays_ok cs -> bars_ok cs -> (0x28 <= k)%nat ->
  byte_at (cs_data (set_bar_address cs i a)) k = byte_at (cs_data cs) k.
Proof.
  intros A B Hk. unfold set_bar_address. destruct (bar cs i) as [b|] eqn:Hb; [|done].
  assert (Hi : (i + bar_regs (bar_kind b) <= 6)%nat).
  { apply bar_slot in Hb. by destruct (proj1 (proj2 B) i b Hb) as (_ & H & _). }
  assert (L : forall x, length (le_bytes 4 x) = 4%nat) by (intros; apply length_le_bytes).
  destruct (bar_kind b); cbn [bar_regs] in Hi; unfold bar_reg, BAR0.
  - rewrite byte_at_put by (rewrite ?L; done || (unfold CONFIG_SPACE_SIZE; lia)).
    rewrite L, decide_False by lia. done.
  - rewrite !byte_at_put by (rewrite ?L; try (apply arrays_ok_put; [done|apply le_bytes_fits]);
      done || (unfold CONFIG_SPACE_SIZE; lia)).
    rewrite !L, !decide_False by lia. done.
Qed.

Lemma u16_at_bytes (cs cs' : ConfigSpace) k :
  arrays_ok cs -> arrays_ok cs' -> (k < 256)%nat ->
  (forall j, (k <= j < k + 2)%nat -> byte_at (cs_data cs') j = byte_at (cs_data cs) j) ->
  u16_at cs' k = u16_at cs k.
Proof.
  intros A A' Hk H. unfold u16_at. rewrite !read_of_le by done. f_equal. f_equal.
  apply list_fmap_ext. intros i x Hx%lookup_seq. apply H. rewrite wrap_small in Hx by (split; lia).
  change (Z.to_nat (Z.min 2 4)) with 2%nat in Hx. lia.
Qed.

(** *** The core behind the registers

    Every register write is a sequence of driver actions on the core. *)

Lemma queue_max_fits c sel q : wf_core c -> queue c sel = Some q -> fits 32 (q_num_max q).
Proof. intros W Hq. destruct (queue_wf c sel q (wf_queues c W) Hq) as ([? ?] & _). split; lia. Qed.

Lemma one_act a c : act_ok a -> exists acts, Forall act_ok acts /\ act a c = run acts c.
Proof. intros Ha. exists [a]. split; [by constructor|done]. Qed.

Lemma enable_queue_acts c sel v :
  wf_core c -> fits 32 v ->
  exists acts, Forall act_ok acts /\ enable_queue sel v c = run acts c.
Proof.
  intros W Hv. unfold enable_queue. destruct (v =? 1); [|by apply (one_act (AQueueReady sel v))].
  destruct (queue c sel) as [q|] eqn:Hq; [|by apply (one_act (AQueueReady sel v))].
  destruct (q_num q =? 0); [|by apply (one_act (AQueueReady sel v))].
  exists [AQueueNum sel (q_num_max q); AQueueReady sel v]. split; [|done].
  constructor; [by eapply queue_max_fits|by constructor].
Qed.

Lemma common_write_acts p off size v :
  wf_core (p_core p) ->
  exists acts, Forall act_ok acts /\ p_core (common_write p off size v) = run acts (p_core p).
Proof.
  intros W. unfold common_write.
  assert (W32 : forall x, fits 32 (wrap 32 x)) by (intros; by apply wrap_fits).
  assert (A0 : exists acts, Forall act_ok acts /\ p_core p = run acts (p_core p)) by (by exists []).
  repeat match goal with |- context [if ?b then _ else _] =>
    match b with negb _ => destruct b | _ =? _ => destruct b | within _ _ _ => destruct b end end;
    try exact A0; cbn [p_core with_core with_selects with_vectors reset_transport].
  - apply (one_act (ADriverFeatures _ _)), W32.
  - apply (one_act (AStatus _)), W32.
  - apply (one_act (AStatus _)), W32.
  - apply (one_act (AQueueNum _ _)), W32.
  - apply enable_queue_acts; [done|apply W32].
  - destruct (addr_field off) as [which high].
    exists [AQueueAddr (p_queue_select p) which false (wrap 32 v);
            AQueueAddr (p_queue_select p) which true (wrap 32 (Z.shiftr v 32))].
    split; [by repeat (constructor; [apply W32|])|done].
  - destruct (addr_field off) as [which high]. apply (one_act (AQueueAddr _ which high _)), W32.
Qed.

(** *** Preservation *)

Section device.
Hypothesis features_u64 : forall d : V, fits 64 (device_features d).
Hypothesis notify_keeps : forall (d : V) n, device_features (dev_notify d n) = device_features d.
Hypothesis status_keeps : forall (d : V) s, device_features (status_changed d s) = device_features d.
Hypothesis read_keeps : forall (d : V) o n,
  device_features (snd (VirtioCore.read_config d o n)) = device_features d.
Hypothesis write_keeps : forall (d : V) o n v,
  device_features (VirtioCore.write_config d o n v) = device_features d.

Lemma run_length acts c : length (co_queues (run acts c)) = length (co_queues c).
Proof.
  revert c. induction acts as [|a acts IH]; intros c; [done|]. cbn [run foldl].
  etransitivity; [apply IH|apply act_length].
Qed.

Lemma with_core_ok p c :
  wf_core c -> length (co_queues c) = length (co_queues (p_core p)) -> pci_ok p -> pci_ok (with_core c p).
Proof. intros W L [H1 H2 H3 H4 H5 H6 H7]. split; try done. cbn [with_core p_core p_queue_vectors]. by rewrite L. Qed.

Lemma with_selects_ok p df gf qs :
  fits 32 df -> fits 32 gf -> fits 16 qs -> pci_ok p -> pci_ok (with_selects df gf qs p).
Proof. intros ? ? ? [H1 H2 H3 H4 H5 H6 H7]. by split. Qed.

Lemma accept_vector_ok p v :
  fits 16 v -> fits 16 (accept_vector p v) /\ (p_msix p = None -> accept_vector p v = MSIX_NO_VECTOR).
Proof. intros Hv. unfold accept_vector. by destruct (p_msix p). Qed.

Lemma Forall_update_at {A} (P : A -> Prop) l i f :
  Forall P l -> (forall x, P x -> P (f x)) -> Forall P (update_at l i f).
Proof.
  intros Hl Hf. unfold update_at. destruct (i <? 0); [done|]. apply Forall_alter; [done|].
  intros x Hx Hp. by apply Hf.
Qed.

Lemma with_vectors_ok p mc qv :
  fits 16 mc -> Forall (fits 16) qv -> length qv = length (p_queue_vectors p) ->
  (p_msix p = None -> mc = MSIX_NO_VECTOR /\ Forall (eq MSIX_NO_VECTOR) qv) ->
  pci_ok p -> pci_ok (with_vectors mc qv p).
Proof.
  intros Hm Hq Hl Hn [H1 H2 H3 H4 H5 (_ & _ & H6) H7]. split; try done.
  - cbn [with_vectors p_msix_config p_queue_vectors p_core]. by rewrite Hl.
  - unfold msix_inv in *. cbn [with_vectors p_msix p_msix_config p_queue_vectors p_config].
    destruct (p_msix p); [done|]. by apply Hn.
Qed.

Lemma no_vectors_fill (l : list Z) :
  Forall (fits 16) ((fun _ => MSIX_NO_VECTOR) <$> l) /\
  Forall (eq MSIX_NO_VECTOR) ((fun _ => MSIX_NO_VECTOR) <$> l).
Proof. split; apply Forall_fmap, Forall_true; done. Qed.

Lemma reset_transport_ok p : pci_ok p -> pci_ok (reset_transport p).
Proof.
  intros Hp. unfold reset_transport. destruct (no_vectors_fill (p_queue_vectors p)).
  apply with_vectors_ok; [done|done|by rewrite length_fmap|done|]. by apply with_selects_ok.
Qed.

(** The core of [p'] is that of [p] after driver actions. *)
Lemma acts_ok p p' acts :
  Forall act_ok acts -> p_core p' = run acts (p_core p) -> pci_ok p -> pci_ok (with_core (p_core p) p') ->
  pci_ok p'.
Proof.
  intros Ha Hc Hp Hp'. replace p' with (with_core (run acts (p_core p)) (with_core (p_core p) p'))
    by (rewrite <- Hc; by destruct p').
  apply with_core_ok; [|by rewrite run_length|done]. apply run_wf; try done. apply Hp.
Qed.

Lemma common_write_ok p off size v : pci_ok p -> pci_ok (common_write p off size v).
Proof.
  intros Hp. destruct (common_write_acts p off size v (po_core p Hp)) as (acts & Ha & Hc).
  apply (acts_ok p _ acts Ha Hc Hp). clear acts Ha Hc. pose proof (po_selects p Hp) as (S1 & S2 & S3).
  assert (W : forall w x, 0 <= w -> fits w (wrap w x)) by (intros; by apply wrap_fits).
  destruct (accept_vector_ok p (wrap 16 v)) as [V1 V2]; [by apply W|].
  destruct (po_vectors p Hp) as (Q1 & Q2 & _).
  assert (Hpp : pci_ok (with_core (p_core p) p)) by (apply with_core_ok; try done; apply Hp).
  unfold common_write.
  repeat match goal with |- context [if ?b then _ else _] =>
    match b with negb _ => destruct b | _ =? _ => destruct b | within _ _ _ => destruct b end end;
    try exact Hpp.
  - by apply (with_selects_ok (with_core (p_core p) p)); [apply W| | |].
  - by apply (with_selects_ok (with_core (p_core p) p)); [|apply W| |].
  - apply (with_vectors_ok (with_core (p_core p) p)); [done..| |done].
    intros Hn. split; [by apply V2|]. pose proof (po_msix p Hp) as M. unfold msix_inv in M.
    cbn in Hn. rewrite Hn in M. apply M.
  - apply (reset_transport_ok (with_core (p_core p) p)). done.
  - by apply (with_selects_ok (with_core (p_core p) p)); [| |apply W|].
  - apply (with_vectors_ok (with_core (p_core p) p)).
    + done.
    + by apply Forall_update_at.
    + apply length_update_at.
    + intros Hn. pose proof (po_msix p Hp) as M. unfold msix_inv in M. cbn in Hn. rewrite Hn in M.
      split; [apply M|]. apply Forall_update_at; [apply M|]. intros _ _. symmetry. by apply V2.
    + done.
Qed.

Lemma device_core_ok p d :
  device_features d = device_features (co_device (p_core p)) -> pci_ok p ->
  pci_ok (with_core (set_device d (p_core p)) p).
Proof.
  intros Hd Hp. apply with_core_ok; [|done|done].
  apply (wf_core_ext (p_core p)); try done; [|apply Hp]. unfold offered. simpl. by rewrite Hd.
Qed.

Lemma irq_core_ok p i : pci_ok p -> pci_ok (with_core (set_interrupt i (p_core p)) p).
Proof.
  intros Hp. apply with_core_ok; [|done|done]. by apply (wf_core_ext (p_core p)); [..|apply Hp].
Qed.

Lemma claiming_msix p off m :
  pci_ok p -> claiming p off = Some m -> p_msix p = Some m /\ msix_ok m.
Proof.
  intros Hp. pose proof (po_msix p Hp) as M. unfold claiming, msix_inv in *.
  destruct (p_msix p) as [m'|]; [|done]. cbn [mbind option_bind]. case_match; [|done].
  intros [= <-]. split; [done|apply M].
Qed.

(** BAR 0 reads never fail, keep the invariant and leave config space alone. *)
Lemma bar0_read_ok p off size :
  pci_ok p -> exists v p', bar0_read p off size = Some (v, p') /\ pci_ok p' /\ p_config p' = p_config p.
Proof.
  intros Hp. unfold bar0_read. destruct (claiming p off) as [m|] eqn:Hcl.
  { destruct (claiming_msix p off m Hp Hcl) as [_ Hm].
    destruct (msix_table_access m off size 0 Hm) as [[v ->] _]; [done|]. by exists v, p. }
  destruct (_ =? COMMON_OFFSET); [by eexists _, p|]. destruct (_ && _).
  { do 2 eexists. split; [done|]. split; [by apply irq_core_ok|done]. }
  destruct (_ =? DEVICE_OFFSET); [|by eexists _, p].
  pose proof (read_keeps (co_device (p_core p)) (off mod REGION_SIZE) size) as Hk.
  destruct (VirtioCore.read_config _ _ _) as [v d]. do 2 eexists. split; [done|].
  split; [by apply device_core_ok|done].
Qed.

Lemma with_msix_ok p m m' :
  p_msix p = Some m -> msix_ok m' -> x_table_offset m' = x_table_offset m ->
  x_pba_offset m' = x_pba_offset m -> x_cap m' = x_cap m ->
  x_enabled m' = x_enabled m -> pci_ok p -> pci_ok (with_msix (Some m') p).
Proof.
  intros Hm Hok Ht Hb Hc He [H1 H2 H3 H4 H5 H6 H7]. split; try done.
  unfold msix_inv in *. rewrite Hm in H7. cbn [with_msix p_msix p_config]. rewrite Ht, Hb, Hc, He.
  split; [done|apply H7].
Qed.

Lemma table_write_fields m off size v m' :
  table_write m off size v = Some m' ->
  x_table_offset m' = x_table_offset m /\ x_pba_offset m' = x_pba_offset m /\
  x_cap m' = x_cap m /\ x_enabled m' = x_enabled m.
Proof.
  unfold table_write. destruct (negb _); [by intros [= <-]|].
  destruct (x_table m !! _) as [e|]; [|done]. cbn [mbind option_bind].
  destruct (store e _ _) as [e1|]; [|done]. cbn [mbind option_bind].
  destruct (if wide _ _ then _ else _); [|done]. by intros [= <-].
Qed.

Lemma bar0_write_ok p off size v :
  0 <= v -> pci_ok p ->
  exists p', bar0_write p off size v = Some p' /\ pci_ok p' /\ p_config p' = p_config p.
Proof.
  intros Hv Hp. unfold bar0_write. destruct (claiming p off) as [m|] eqn:Hcl.
  { destruct (claiming_msix p off m Hp Hcl) as [Hm Hok].
    destruct (msix_table_access m off size v Hok Hv) as (_ & m' & Hw & Hok' & _).
    rewrite Hw. eexists. split; [done|]. split; [|done].
    destruct (table_write_fields m off size v m' Hw) as (? & ? & ? & ?). by eapply with_msix_ok. }
  destruct (_ =? COMMON_OFFSET).
  { eexists. split; [done|]. split; [by apply common_write_ok|].
    unfold common_write. repeat case_match; done. }
  destruct (_ =? DEVICE_OFFSET).
  { eexists. split; [done|]. split; [|done]. apply device_core_ok; [apply write_keeps|done]. }
  destruct (_ && _); [|by exists p]. eexists. split; [done|]. split; [|done].
  refine (acts_ok p (with_core _ p) [ANotify _] _ eq_refl Hp _).
  - by constructor.
  - exact (with_core_ok p (p_core p) (po_core p Hp) eq_refl Hp).
Qed.

(** A config change of writable bits that also re-reads the MSI-X enable bit. *)
Lemma config_change_ok p (cs : ConfigSpace) :
  (exists l, built cs l) -> writable_change (p_config p) cs -> pci_ok p ->
  pci_ok (match p_msix p with
          | Some m => with_msix (Some (sync m cs)) (with_config cs p)
          | None => with_config cs p
          end).
Proof.
  intros B W [H1 H2 H3 H4 H5 H6 H7]. pose proof (config_arrays _ H2) as [A _].
  pose proof (caps_placed_change _ cs A W H3). unfold msix_inv in H7.
  destruct (p_msix p) as [m|] eqn:Hm; split; try done.
  - unfold msix_inv. cbn [with_msix p_msix]. destruct H7 as (Mk & Mt & cap & Mc & Mr & Me).
    unfold sync. rewrite Mc. split; [done|]. split; [done|]. by exists cap.
  - unfold msix_inv. cbn [with_config p_msix]. by rewrite Hm.
Qed.

Lemma write_config_ok' p off size v :
  0 <= v -> pci_ok p -> exists p', pci_write_config p off size v = Some p' /\ pci_ok p'.
Proof.
  intros Hv Hp. unfold pci_write_config. destruct (_ =? _).
  - destruct (pci_cfg_target p) as [[o n]|]; [|by exists p].
    destruct (bar0_write_ok p o n (mask v n)) as (p' & -> & Hp' & _); [|done|by exists p'].
    unfold mask. repeat case_match; try done; apply Z.land_nonneg; by left.
  - eexists. split; [done|]. destruct (po_config p Hp) as [l Hl].
    apply (config_change_ok p); [|apply write_writable_change; by apply (config_arrays _ (po_config p Hp))|done].
    exists l. by apply built_write.
Qed.

Lemma read_config_ok' p off size :
  pci_ok p -> exists v p', pci_read_config p off size = Some (v, p') /\ pci_ok p' /\ p_config p' = p_config p.
Proof.
  intros Hp. unfold pci_read_config. destruct (_ =? _); [|by eexists _, p].
  destruct (pci_cfg_target p) as [[o n]|]; [|by eexists _, p].
  destruct (bar0_read_ok p o n Hp) as (v & p' & -> & Hp' & Hc). by do 2 eexists.
Qed.

Lemma assign_ok p i a : 0 <= a -> pci_ok p -> pci_ok (with_config (set_bar_address (p_config p) i a) p).
Proof.
  intros Ha Hp. destruct (po_config p Hp) as [l Hl]. destruct (config_arrays _ (po_config p Hp)) as [A B].
  pose proof (set_bar_address_change (p_config p) i a A B Ha) as W.
  destruct Hp as [H1 H2 H3 H4 H5 H6 H7]. split; try done.
  - exists l. by apply built_assign.
  - by eapply caps_placed_change.
  - unfold msix_inv in *. cbn [with_config p_msix p_config p_msix_config p_queue_vectors].
    destruct (p_msix p) as [m|]; [|done]. destruct H7 as (Mk & Mt & cap & Mc & Mr & Me).
    split; [done|]. split; [done|]. exists cap. split; [done|]. split; [done|]. rewrite Me.
    unfold msix_enable. do 3 f_equal. symmetry. apply u16_at_bytes; [done|apply W|lia|].
    intros j Hj. apply set_bar_address_bytes; [done|done|lia].
Qed.

(** ** Accesses *)

Inductive PciAccess : Type :=
| CfgRd (offset size : Z)
| CfgWr (offset size value : Z)
| BarRd (bar : nat) (offset size : Z)
| BarWr (bar : nat) (offset size value : Z)
| DevRaise (bits : Z)
| Assign (index : nat) (address : Z).

Definition pci_access_ok (a : PciAccess) : Prop :=
  match a with
  | CfgWr _ _ v => fits 32 v
  | BarWr _ _ _ v => fits 64 v
  | Assign _ a => fits 64 a
  | _ => True
  end.

(** [None] is a panic. *)
Definition pci_access (a : PciAccess) p : option (VirtioPci V) :=
  match a with
  | CfgRd o n => snd <$> pci_read_config p o n
  | CfgWr o n v => pci_write_config p o n v
  | BarRd b o n => snd <$> pci_read_bar p b o n
  | BarWr b o n v => pci_write_bar p b o n v
  | DevRaise bits => Some (with_core (set_interrupt (raise bits (co_interrupt (p_core p))) (p_core p)) p)
  | Assign i a => Some (with_config (set_bar_address (p_config p) i a) p)
  end.

Fixpoint pci_accesses (acts : list PciAccess) p : option (VirtioPci V) :=
  match acts with [] => Some p | a :: acts' => p ← pci_access a p; pci_accesses acts' p end.

Lemma pci_access_keeps a p : pci_access_ok a -> pci_ok p -> exists p', pci_access a p = Some p' /\ pci_ok p'.
Proof.
  intros Ha Hp. destruct a as [o n|o n v|b o n|b o n v|bits|i a]; cbn [pci_access].
  - destruct (read_config_ok' p o n Hp) as (v & p' & -> & ? & _). by eexists.
  - apply write_config_ok'; [apply Ha|done].
  - unfold pci_read_bar. destruct (_ =? _); [|by eexists].
    destruct (bar0_read_ok p o n Hp) as (v & p' & -> & ? & _). by eexists.
  - unfold pci_write_bar. destruct (_ =? _); [|by eexists].
    destruct (bar0_write_ok p o n v) as (p' & -> & ? & _); [apply Ha|done|by eexists].
  - eexists. split; [done|]. by apply irq_core_ok.
  - eexists. split; [done|]. apply assign_ok; [apply Ha|done].
Qed.

Lemma pci_accesses_keep acts p :
  Forall pci_access_ok acts -> pci_ok p -> exists p', pci_accesses acts p = Some p' /\ pci_ok p'.
Proof.
  intros Ha. revert p. induction Ha as [|a acts Ha _ IH]; intros p Hp; [by exists p|].
  destruct (pci_access_keeps a p Ha Hp) as (p' & H & Hp'). cbn [pci_accesses]. rewrite H.
  cbn [mbind option_bind]. by apply IH.
Qed.

Lemma msix_new_ok v bar t pb : 0 <= t -> msix_ok (msix_new v bar t pb).
Proof.
  intros Ht. split; [done|]. cbn [msix_new x_table]. apply Forall_replicate. split; [done|].
  apply (bool_decide_unpack _). vm_compute. exact I.
Qed.

Lemma new_core_facts name (d : V) irq :
  fits 16 (num_queues d) -> (forall i, fits 16 (queue_num_max d i)) ->
  wf_core (VirtioCore.new name d irq) /\
  length (co_queues (VirtioCore.new name d irq)) = Z.to_nat (num_queues d).
Proof.
  intros Hn Hm. split; [by apply core_new_wf|]. simpl. by rewrite length_fmap, length_seqZ.
Qed.

(** The control word of a table of at most 2048 vectors does not set the enable bit. *)
Lemma control_disabled (cs : ConfigSpace) ctl :
  arrays_ok cs -> take 2 (drop 0x9a (cs_data cs)) = le_bytes 2 ctl -> 0 <= ctl < 2048 ->
  msix_enable cs 0x98 = false.
Proof.
  intros A Ht Hc. unfold msix_enable. change (Z.to_nat 0x98 + 2)%nat with 0x9a%nat.
  assert (E : u16_at cs 0x9a = ctl).
  { unfold u16_at. change (wrap 16 (Z.of_nat 0x9a)) with 0x9a. rewrite read_of_le by done.
    change (Z.to_nat 0x9a) with 0x9a%nat. change (Z.to_nat (Z.min 2 4)) with 2%nat.
    replace (byte_at (cs_data cs) <$> seq 0x9a 2) with (le_bytes 2 ctl).
    - rewrite of_le_le_bytes_fits by (split; lia). apply wrap_small. split; lia.
    - rewrite <- Ht at 1. cbn [seq fmap list_fmap].
      assert (L : length (le_bytes 2 ctl) = 2%nat) by apply length_le_bytes.
      rewrite (byte_at_segment _ 0x9a (le_bytes 2 ctl)), (byte_at_segment _ 0x9a (le_bytes 2 ctl) 0x9b)
        by (rewrite ?L; done || lia).
      rewrite Ht. by destruct (le_bytes2_shape ctl) as (? & ? & ->). }
  rewrite E. apply negb_false_iff, Z.eqb_eq. unfold CONTROL_ENABLE. apply Z.bits_inj'. intros i Hi.
  rewrite Z.land_spec, Z.bits_0, Z.shiftl_spec by done.
  destruct (decide (i < 11)); [by rewrite (Z.testbit_neg_r 1) by lia; rewrite andb_false_r|].
  by rewrite (testbit_high ctl 11) by lia.
Qed.

Lemma built_msix (cs cs' : ConfigSpace) l ctl :
  built cs l -> add_capability cs MSIX_CAP_ID (msix_body ctl) msix_wmask = Ok (0x98, cs') ->
  exists l', built cs' l'.
Proof.
  intros B H. eexists. refine (built_cap _ _ _ _ _ _ _ B _ _ _ H); [done| |apply le_bytes_fits].
  unfold msix_body. repeat apply Forall_app_2; apply le_bytes_fits.
Qed.

Lemma pci_new_ok bdf (d : V) irq v :
  fits 16 (num_queues d) -> (forall i, fits 16 (queue_num_max d i)) -> 0 <= v <= 2048 ->
  exists p, pci_new bdf d irq v = Ok p /\ pci_ok p /\
    p_core p = VirtioCore.new (String.append "virtio-pci-" (bdf_display bdf)) d (set_hook irq) /\
    (p_msix p = None <-> v = 0).
Proof.
  intros Hn Hm Hv. unfold pci_new. destruct (declared_ok (pci_header (device_id d)) v) as (cs & Hd & Hc).
  pose proof (declared_built (pci_header (device_id d)) v _ cs ltac:(done) ltac:(done) Hd) as B. pose proof Hd as Hd'.
  unfold declared in Hd. apply bind_Ok in Hd as (c0 & -> & Hd). cbn [mbind result_bind]. rewrite Hd.
  cbn [mbind result_bind]. destruct (new_core_facts (String.append "virtio-pci-" (bdf_display bdf)) d (set_hook irq) Hn Hm) as [W L].
  assert (Hvec : forall c, length (co_queues c) = Z.to_nat (num_queues d) ->
    let l := replicate (Z.to_nat (num_queues d)) MSIX_NO_VECTOR in
    fits 16 MSIX_NO_VECTOR /\ Forall (fits 16) l /\ length l = length (co_queues c)).
  { intros c Hl l. split; [done|]. split; [by apply Forall_replicate|]. unfold l. by rewrite length_replicate. }
  destruct (Z.eqb_spec v 0) as [-> |Hne]; cbn [mbind result_bind].
  - clear Hd Hd'. eexists. split; [reflexivity|]. split; [|split; [reflexivity|by split]].
    split; [exact W|exact B|exact Hc|reflexivity|by split_and!|exact (Hvec _ L)|].
    split; [reflexivity|by apply Forall_replicate].
  - unfold msix_add_capability. cbn [x_table x_table_offset x_bar x_pba_offset msix_new]. rewrite length_replicate.
    set (ctl := wrapping_sub 16 (wrap 16 (Z.of_nat (Z.to_nat (Z.max v 1)))) 1).
    destruct (declared_msix _ v cs ctl Hd') as (cs' & Hadd & Hc' & Ht).
    fold (msix_body ctl). change (le_bytes 2 (Z.lor CONTROL_ENABLE CONTROL_FUNCTION_MASK)) with msix_wmask.
    rewrite Hadd. destruct B as [l B]. pose proof (built_msix cs cs' l ctl B Hadd) as B'. clear Hd Hd' Hadd B.
    cbn [mbind result_bind]. eexists. split; [reflexivity|]. split; [|split; [reflexivity|by split]].
    split; [exact W|exact B'|exact Hc'|reflexivity|by split_and!|exact (Hvec _ L)|].
    unfold msix_inv. cbn [p_msix p_config]. split; [exact (msix_new_ok v BAR MSIX_TABLE_OFFSET MSIX_PBA_OFFSET ltac:(done))|]. split; [done|].
    exists 0x98. split; [done|]. split; [lia|]. cbn [x_enabled msix_new]. symmetry.
    eapply control_disabled; [by apply (config_arrays cs')|exact Ht|].
    unfold ctl, wrapping_sub. rewrite (wrap_small 16 (Z.of_nat _)) by (split; lia). rewrite wrap_small by (split; lia). lia.
Qed.

(** C12: A virtio-pci function never panics and stays well formed whatever the
    guest does: for any sequence of config and BAR reads and writes at any
    offsets and sizes, BAR assignments and device interrupts, every access
    completes, the virtio core keeps its invariant, config space keeps its
    declared BAR and capabilities at the offsets the driver was told, selectors
    and vectors stay in their widths, and the MSI-X enable flag mirrors config
    space (without MSI-X every vector stays "none"). *)
Theorem pci_transport_invariant bdf (d : V) irq v acts :
  fits 16 (num_queues d) -> (forall i, fits 16 (queue_num_max d i)) -> 0 <= v <= 2048 ->
  Forall pci_access_ok acts ->
  exists p p', pci_new bdf d irq v = Ok p /\ pci_accesses acts p = Some p' /\ pci_ok p'.
Proof.
  intros Hn Hm Hv Ha. destruct (pci_new_ok bdf d irq v Hn Hm Hv) as (p & Hp & Hok & _).
  destruct (pci_accesses_keep acts p Ha Hok) as (p' & H & Hok'). by exists p, p'.
Qed.

(** ** The two transports drive the same core *)

(** What a virtio driver does, independent of the transport. *)
Inductive DriverOp : Type :=
| OpFeatures (sel value : Z)
| OpStatus (value : Z)
| OpSize (q n : Z)
| OpAddr (q : Z) (which : QueueAddr) (addr : Z)
| OpEnable (q : Z)
| OpKick (q : Z).

(** Register writes of each operation: offset, size, value. *)
Definition field_of (which : QueueAddr) : Z :=
  match which with Desc => QUEUE_DESC | Driver => QUEUE_DRIVER | Device => QUEUE_DEVICE end.

Definition pci_program (o : DriverOp) : list (Z * Z * Z) :=
  match o with
  | OpFeatures sel v => [(GFSELECT, 4, sel); (GFEATURE, 4, v)]
  | OpStatus v => [(DEVICE_STATUS, 1, v)]
  | OpSize q n => [(QUEUE_SELECT, 2, q); (QUEUE_SIZE, 2, n)]
  | OpAddr q w a => [(QUEUE_SELECT, 2, q); (field_of w, 8, a)]
  | OpEnable q => [(QUEUE_SELECT, 2, q); (QUEUE_ENABLE, 2, 1)]
  | OpKick q => [(NOTIFY_OFFSET + NOTIFY_MULTIPLIER * q, 2, q)]
  end.

Definition mmio_low (which : QueueAddr) : Z :=
  match which with
  | Desc => QUEUE_DESC_LOW | Driver => QUEUE_DRIVER_LOW | Device => QUEUE_DEVICE_LOW
  end.

Definition mmio_program (o : DriverOp) : list (Z * Z) :=
  match o with
  | OpFeatures sel v => [(DRIVER_FEATURES_SEL, sel); (DRIVER_FEATURES, v)]
  | OpStatus v => [(VirtioMmio.STATUS, v)]
  | OpSize q n => [(QUEUE_SEL, q); (QUEUE_NUM, n)]
  | OpAddr q w a => [(QUEUE_SEL, q); (mmio_low w, wrap 32 a); (mmio_low w + 4, wrap 32 (Z.shiftr a 32))]
  | OpEnable q => [(QUEUE_SEL, q); (QUEUE_READY, 1)]
  | OpKick q => [(QUEUE_NOTIFY, q)]
  end.

(** The core actions an operation stands for. *)
Definition op_acts (o : DriverOp) : list Act :=
  match o with
  | OpFeatures sel v => [ADriverFeatures sel v]
  | OpStatus v => [AStatus v]
  | OpSize q n => [AQueueNum q n]
  | OpAddr q w a => [AQueueAddr q w false (wrap 32 a); AQueueAddr q w true (wrap 32 (Z.shiftr a 32))]
  | OpEnable q => [AQueueReady q 1]
  | OpKick q => [ANotify q]
  end.

(** Values in their registers' widths; the notify region has 1024 doorbells. *)
Definition op_fits (o : DriverOp) : Prop :=
  match o with
  | OpFeatures sel v => fits 32 sel /\ fits 32 v
  | OpStatus v => fits 8 v
  | OpSize q n => fits 16 q /\ fits 16 n
  | OpAddr q _ a => fits 16 q /\ fits 64 a
  | OpEnable q => fits 16 q
  | OpKick q => 0 <= q < 1024
  end.

(** A driver enables queues after negotiation and after giving them a size. *)
Definition op_compliant c (o : DriverOp) : Prop :=
  op_fits o /\
  match o with
  | OpEnable q => Z.land (co_status c) STATUS_FEATURES_OK <> 0 /\
      match queue c q with Some vq => q_num vq <> 0 | None => True end
  | _ => True
  end.

#[export] Instance op_compliant_dec c o : Decision (op_compliant c o).
Proof. unfold op_compliant, op_fits, fits. destruct o as [| | | |q|]; try destruct (queue c q); apply _. Defined.

Definition pci_op (o : DriverOp) p : option (VirtioPci V) :=
  pci_accesses ((fun '(off, size, v) => BarWr 0 off size v) <$> pci_program o) p.
Definition mmio_op (o : DriverOp) (m : VirtioMmio V) : VirtioMmio V :=
  accesses ((fun '(off, v) => Wr off 4 v) <$> mmio_program o) m.

(** The actions an operation performs, on the core alone. *)
Fixpoint script_compliant (ops : list DriverOp) c : Prop :=
  match ops with
  | [] => True
  | o :: ops' => op_compliant c o /\ script_compliant ops' (run (op_acts o) c)
  end.

#[export] Instance script_compliant_dec ops c : Decision (script_compliant ops c).
Proof. revert c. induction ops as [|o ops IH]; intros c; simpl; apply _. Defined.

(** Cores of two transports: the same but for the name. *)
Definition set_name (n : string) c : VirtioCore V :=
  {| co_device := co_device c; co_name := n; co_driver_features := co_driver_features c;
     co_queues := co_queues c; co_status := co_status c; co_interrupt := co_interrupt c |}.
Definition same_core c c' : Prop := c' = set_name (co_name c') c.

Lemma act_set_name a n c : act a (set_name n c) = set_name n (act a c).
Proof.
  destruct a; cbn [act]; unfold write_driver_features, write_status, set_queue_num, set_queue_ready,
    notify, set_queue_addr, check_status, check_features, offered, queue; cbn [set_name co_queues co_status co_driver_features co_device];
    repeat (case_match; try done).
Qed.

Lemma run_set_name acts n c : run acts (set_name n c) = set_name n (run acts c).
Proof.
  revert c. induction acts as [|a acts IH]; intros c; [done|]. cbn [run foldl].
  rewrite act_set_name. apply IH.
Qed.

Lemma run_name acts c : co_name (run acts c) = co_name c.
Proof.
  assert (H : run acts (set_name (co_name c) c) = run acts c) by (f_equal; by destruct c).
  by rewrite <- H, run_set_name.
Qed.

Lemma run_same_core acts c c' : same_core c c' -> same_core (run acts c) (run acts c').
Proof.
  unfold same_core. intros ->. rewrite run_set_name. cbn [co_name set_name]. done.
Qed.

(** Below 16 KiB no access reaches the MSI-X table. *)
Lemma claiming_low p off : pci_ok p -> off < MSIX_TABLE_OFFSET -> claiming p off = None.
Proof.
  intros Hp Ho. pose proof (po_msix p Hp) as M. unfold claiming, msix_inv, MSIX_TABLE_OFFSET, MSIX_PBA_OFFSET in *.
  destruct (p_msix p) as [m|]; [|done]. destruct M as (_ & [Ht Hb] & _). cbn [mbind option_bind].
  unfold claims, in_table, in_pba. rewrite Ht, Hb. rewrite (proj2 (Z.leb_gt 0x4000 off)), (proj2 (Z.leb_gt 0x5000 off)) by lia. by rewrite andb_false_r.
Qed.

Lemma common_access p off size v :
  pci_ok p -> 0 <= off < REGION_SIZE ->
  pci_access (BarWr 0 off size v) p = Some (common_write p off size v).
Proof.
  intros Hp Ho. unfold REGION_SIZE in Ho. cbn [pci_access]. unfold pci_write_bar, bar0_write.
  change (Z.of_nat 0 =? BAR) with true. cbn match. rewrite claiming_low by (done || unfold MSIX_TABLE_OFFSET; lia).
  unfold REGION_SIZE. rewrite Z.mod_small by done. by rewrite Z.sub_diag.
Qed.

Lemma notify_access p q size v :
  pci_ok p -> 0 <= q < 1024 ->
  pci_access (BarWr 0 (NOTIFY_OFFSET + NOTIFY_MULTIPLIER * q) size v) p =
  Some (with_core (notify q (p_core p)) p).
Proof.
  intros Hp Hq. cbn [pci_access]. unfold pci_write_bar, bar0_write.
  change (Z.of_nat 0 =? BAR) with true. cbn match.
  rewrite claiming_low by (done || unfold MSIX_TABLE_OFFSET, NOTIFY_OFFSET, NOTIFY_MULTIPLIER; lia).
  assert (E : (NOTIFY_OFFSET + NOTIFY_MULTIPLIER * q) mod REGION_SIZE = NOTIFY_MULTIPLIER * q).
  { unfold NOTIFY_OFFSET, NOTIFY_MULTIPLIER, REGION_SIZE. symmetry. apply (Z.mod_unique _ _ 3); lia. }
  rewrite E. replace (NOTIFY_OFFSET + NOTIFY_MULTIPLIER * q - NOTIFY_MULTIPLIER * q) with NOTIFY_OFFSET by lia.
  change (NOTIFY_OFFSET =? COMMON_OFFSET) with false. change (NOTIFY_OFFSET =? DEVICE_OFFSET) with false.
  change (NOTIFY_OFFSET =? NOTIFY_OFFSET) with true. unfold NOTIFY_MULTIPLIER.
  rewrite (Z.mul_comm 4 q), Z.mod_mul, Z.div_mul by done. cbn match. by rewrite wrap_small by (split; lia).
Qed.

Lemma enable_sized c q :
  match queue c q with Some vq => q_num vq <> 0 | None => True end ->
  enable_queue q 1 c = set_queue_ready q 1 c.
Proof.
  intros H. unfold enable_queue. change (1 =? 1) with true. cbn match.
  destruct (queue c q) as [vq|]; [|done]. by rewrite (proj2 (Z.eqb_neq _ _) H).
Qed.

Lemma addr_field_of w : addr_field (field_of w) = (w, false) /\ 0 <= field_of w < REGION_SIZE.
Proof. by destruct w. Qed.

Lemma common_write_addr p w a :
  common_write p (field_of w) 8 a =
  with_core (run (op_acts (OpAddr (p_queue_select p) w a)) (p_core p)) p.
Proof. by destruct w. Qed.

Lemma pci_two_writes p o1 n1 v1 o2 n2 v2 :
  pci_ok p -> 0 <= o1 < REGION_SIZE -> 0 <= o2 < REGION_SIZE ->
  pci_accesses [BarWr 0 o1 n1 v1; BarWr 0 o2 n2 v2] p =
  Some (common_write (common_write p o1 n1 v1) o2 n2 v2).
Proof.
  intros Hp H1 H2. cbn [pci_accesses]. rewrite common_access by done. cbn [mbind option_bind].
  rewrite common_access; [done|by apply common_write_ok|done].
Qed.

Lemma pci_op_acts p o :
  pci_ok p -> op_compliant (p_core p) o ->
  exists p', pci_op o p = Some p' /\ pci_ok p' /\ p_core p' = run (op_acts o) (p_core p).
Proof.
  intros Hp [Hf Hc]. unfold pci_op.
  destruct o as [sel v|v|q n|q w a|q|q]; cbn [pci_program fmap list_fmap op_fits] in *.
  - rewrite pci_two_writes by done. eexists. split; [reflexivity|].
    split; [by do 2 apply common_write_ok|]. destruct Hf as [Hs Hv].
    change (common_write p GFSELECT 4 sel) with (with_selects (p_dfselect p) (wrap 32 sel) (p_queue_select p) p).
    rewrite wrap_small by done. cbn [op_acts run foldl act]. rewrite <- (wrap_small 32 v) at 2 by done. done.
  - cbn [pci_accesses]. rewrite common_access by done. eexists. split; [reflexivity|].
    split; [by apply common_write_ok|]. cbn [op_acts run foldl act].
    rewrite <- (wrap_small 32 v) at 2 by (unfold fits in *; lia). unfold common_write. cbn match.
    by destruct (v =? 0).
  - rewrite pci_two_writes by done. eexists. split; [reflexivity|].
    split; [by do 2 apply common_write_ok|]. destruct Hf as [Hs Hv].
    change (common_write p QUEUE_SELECT 2 q) with (with_selects (p_dfselect p) (p_gfselect p) (wrap 16 q) p).
    rewrite wrap_small by done. cbn [op_acts run foldl act].
    rewrite <- (wrap_small 32 n) at 2 by (unfold fits in *; lia). done.
  - destruct (addr_field_of w) as [_ Hw]. rewrite pci_two_writes by done. eexists. split; [reflexivity|].
    split; [by do 2 apply common_write_ok|]. destruct Hf as [Hs Hv].
    change (common_write p QUEUE_SELECT 2 q) with (with_selects (p_dfselect p) (p_gfselect p) (wrap 16 q) p).
    rewrite wrap_small by done. by rewrite common_write_addr.
  - rewrite pci_two_writes by done. eexists. split; [reflexivity|].
    split; [by do 2 apply common_write_ok|].
    change (common_write p QUEUE_SELECT 2 q) with (with_selects (p_dfselect p) (p_gfselect p) (wrap 16 q) p).
    rewrite wrap_small by done. cbn [op_acts run foldl act]. rewrite <- enable_sized by apply Hc. done.
  - cbn [pci_accesses]. rewrite notify_access by done. eexists. split; [reflexivity|]. split; [|done].
    refine (acts_ok p (with_core _ p) [ANotify q] _ eq_refl Hp _); [by constructor|].
    exact (with_core_ok p (p_core p) (po_core p Hp) eq_refl Hp).
Qed.

Lemma mmio_op_core (m : VirtioMmio V) o :
  mmio_ok m -> fresh m -> op_compliant (m_core m) o ->
  m_core (mmio_op o m) = run (op_acts o) (m_core m).
Proof.
  intros Hm Hfr [Hf Hc]. destruct o as [sel v|v|q n|q w a|q|q]; cbn [op_fits] in Hf.
  - destruct Hf as [Hs Hv]. unfold mmio_op. simpl. unfold write. simpl.
    by rewrite !wrap_small by done.
  - unfold mmio_op. simpl. unfold write. simpl. rewrite wrap_small by (unfold fits in *; lia).
    unfold write_reg. simpl. by destruct (v =? 0).
  - destruct Hf as [Hs Hv]. unfold mmio_op. simpl. unfold write. simpl.
    by rewrite !wrap_small by (unfold fits in *; lia).
  - destruct Hf as [Hs Hv]. unfold mmio_op. cbn [mmio_program fmap list_fmap accesses foldl do_access].
    assert (W : forall x, wrap 32 (wrap 32 x) = wrap 32 x) by (intros; apply wrap_small; by apply wrap_fits).
    assert (Hq : wrap 32 q = q) by (apply wrap_small; unfold fits in *; lia).
    destruct w; unfold write; simpl; rewrite !W, Hq; done.
  - unfold mmio_op. cbn [mmio_program fmap list_fmap accesses foldl do_access]. unfold write. simpl.
    rewrite wrap_small by (unfold fits in *; lia). unfold write_reg. simpl. change (wrap 32 1) with 1. by destruct (queue (set_queue_ready q 1 (m_core m)) q).
  - unfold mmio_op. cbn [mmio_program fmap list_fmap accesses foldl do_access]. unfold write. simpl.
    rewrite wrap_small by (unfold fits in *; lia). unfold write_reg. simpl.
    rewrite kick_equiv by (try done; unfold fits in *; lia). done.
Qed.

Lemma mmio_op_ok (m : VirtioMmio V) o :
  mmio_ok m -> fresh m -> op_compliant (m_core m) o -> mmio_ok (mmio_op o m) /\ fresh (mmio_op o m).
Proof.
  intros Hm Hfr [Hf Hc]. apply run_ok_fresh; try done.
  destruct o as [sel v|v|q n|q w a|q|q]; simpl; try (split_and!; done).
  - destruct w; split_and!; done.
  - split_and!; try done. intros _. apply Hc.
Qed.

(** C11: The MMIO and the PCI transport implement the same device: from equal
    cores, any script of driver operations (features, status, queue size,
    addresses, enable and kicks), issued as the register writes each transport
    defines, leaves both cores equal in everything but the name, and keeps both
    transports well formed.  Scripts enable queues after negotiation and with a
    size set, as the specification requires. *)
Theorem transports_agree (m : VirtioMmio V) p ops :
  mmio_ok m -> fresh m -> pci_ok p -> same_core (m_core m) (p_core p) ->
  script_compliant ops (m_core m) ->
  let m' := foldl (fun m o => mmio_op o m) m ops in
  exists p', foldl (fun q o => q ≫= pci_op o) (Some p) ops = Some p' /\
    same_core (m_core m') (p_core p') /\ m_core m' = run (ops ≫= op_acts) (m_core m) /\
    mmio_ok m' /\ pci_ok p'.
Proof.
  revert m p. induction ops as [|o ops IH]; intros m p Hm Hfr Hp Hs Hc; cbv zeta; cbn [foldl].
  { exists p. done. }
  destruct Hc as [Ho Hc]. pose proof (mmio_op_core m o Hm Hfr Ho) as Em.
  destruct (mmio_op_ok m o Hm Hfr Ho) as [Hm' Hfr'].
  assert (Ho' : op_compliant (p_core p) o).
  { rewrite Hs. destruct Ho as [Ho1 Ho2]. split; [done|]. by destruct o. }
  destruct (pci_op_acts p o Hp Ho') as (p' & Ep & Hp' & Ec).
  cbn [mbind option_bind]. rewrite Ep. rewrite bind_cons. destruct (IH (mmio_op o m) p') as (p2 & E1 & E2 & E3 & E4 & E5).
  - done.
  - done.
  - done.
  - rewrite Em, Ec. by apply run_same_core.
  - by rewrite Em.
  - exists p2. split_and!; try done. rewrite E3, Em. unfold run. by rewrite <- foldl_app.
Qed.

(** ** The [pci_cfg] window *)

(** What a driver writes to point the window at [len] bytes at [off] of BAR 0. *)
Definition open_window p (off len : Z) : option (VirtioPci V) :=
  let cap := Z.of_nat (p_pci_cfg p) in
  p ← pci_write_config p (cap + 4) 1 BAR;
  p ← pci_write_config p (cap + 8) 4 off;
  pci_write_config p (cap + 12) 4 len.

Lemma window_bytes (cs : ConfigSpace) cap :
  arrays_ok cs -> (cap + 16 <= 256)%nat ->
  window cap cs = (byte_at (cs_data cs) (cap + 4), word_at (cs_data cs) (cap + 8), word_at (cs_data cs) (cap + 12)).
Proof.
  intros A Hc. unfold window. rewrite !u32_at_word by (done || lia). f_equal. f_equal.
  unfold bytes, CONFIG_SPACE_SIZE. rewrite Nat.min_l, Nat.min_l by lia.
  replace (cap + 4 + 1 - (cap + 4))%nat with 1%nat by lia. destruct A as (L & _). unfold byte_at.
  destruct (lookup_lt_is_Some_2 (cs_data cs) (cap + 4)) as [x Hx]; [unfold CONFIG_SPACE_SIZE in L; lia|].
  by rewrite (drop_S _ x _ Hx), Hx.
Qed.

(** Fully writable bytes take the written value. *)
Lemma write_open_word (cs : ConfigSpace) k v :
  arrays_ok cs -> (k + 4 <= CONFIG_SPACE_SIZE)%nat -> fits 32 v ->
  (forall j, (k <= j < k + 4)%nat -> byte_at (cs_wmask cs) j = 0xff) ->
  word_at (cs_data (PciConfig.write cs (Z.of_nat k) 4 v)) k = v.
Proof.
  intros A Hk Hv Hm. destruct A as (L & Lm & Fd & Fm). rewrite write_word by (done || apply Hv).
  assert (E : merge 32 (word_at (cs_data cs) k) (word_at (cs_wmask cs) k) v = v).
  { apply word_bits_inj; [|done|].
    - apply merge_fits; [done|by apply word_at_fits|by apply word_at_fits|apply Hv].
    - intros j i Hj Hi. rewrite merge_testbit by (try apply word_at_fits; done || lia).
      rewrite word_at_testbit, Hm by (done || lia).
      by replace (Z.testbit 0xff i) with true by (assert (i ∈ seqZ 0 8) as Hin by (apply elem_of_seqZ; lia);
        revert i Hi Hin; intros i _ Hin; revert i Hin; apply list.Forall_forall;
        apply (bool_decide_unpack _); vm_compute; exact I). }
  rewrite E, put_inserts by (rewrite ?length_le_bytes; lia). cbn [set_data cs_data].
  apply word_at_inserts; [lia|done].
Qed.

Lemma write_config_frame p off size v :
  pci_ok p -> 0 <= v -> off <> Z.of_nat (cap_data (p_pci_cfg p)) ->
  exists p', pci_write_config p off size v = Some p' /\ pci_ok p' /\ p_core p' = p_core p /\
    p_pci_cfg p' = p_pci_cfg p /\ p_config p' = PciConfig.write (p_config p) off size v.
Proof.
  intros Hp Hv Ho. destruct (write_config_ok' p off size v Hv Hp) as (p' & E & Hp').
  exists p'. split; [done|]. split; [done|]. unfold pci_write_config in E.
  rewrite (proj2 (Z.eqb_neq _ _) Ho) in E. injection E as <-. by destruct (p_msix _).
Qed.

Lemma open_window_ok p off len :
  pci_ok p -> fits 32 off -> fits 32 len ->
  exists p', open_window p off len = Some p' /\ pci_ok p' /\ p_core p' = p_core p /\
    window (p_pci_cfg p') (p_config p') = (BAR, off, len).
Proof.
  intros Hp Ho Hl. unfold open_window. rewrite (po_cfg p Hp).
  assert (Hd : forall q, pci_ok q -> cap_data (p_pci_cfg q) = 148%nat) by (intros q Hq; by rewrite (po_cfg q Hq)).
  destruct (write_config_frame p (Z.of_nat PCI_CFG_AT + 4) 1 BAR Hp) as (p1 & -> & Hp1 & C1 & _ & E1);
    [done|by rewrite Hd|]. cbn [mbind option_bind].
  destruct (write_config_frame p1 (Z.of_nat PCI_CFG_AT + 8) 4 off Hp1) as (p2 & -> & Hp2 & C2 & _ & E2);
    [apply Ho|by rewrite Hd|]. cbn [mbind option_bind].
  destruct (write_config_frame p2 (Z.of_nat PCI_CFG_AT + 12) 4 len Hp2) as (p3 & -> & Hp3 & C3 & _ & E3);
    [apply Hl|by rewrite Hd|].
  exists p3. split; [done|]. split; [done|]. split; [congruence|]. rewrite (po_cfg p3 Hp3).
  assert (A : forall q, pci_ok q -> arrays_ok (p_config q)) by (intros q Hq; apply config_arrays, Hq).
  assert (M : forall q k, pci_ok q -> (k = 136 \/ 140 <= k < 152)%nat -> byte_at (cs_wmask (p_config q)) k = 0xff)
    by (intros q k Hq Hk; by apply (proj2 (po_caps q Hq))).
  rewrite window_bytes by (auto || (unfold PCI_CFG_AT; lia)).
  destruct (write_bytes (p_config p2) (Z.of_nat 144) 4 len (A p2 Hp2)) as (_ & _ & D3).
  destruct (write_bytes (p_config p1) (Z.of_nat 140) 4 off (A p1 Hp1)) as (_ & _ & D2).
  destruct (write_bytes (p_config p) (Z.of_nat 136) 1 BAR (A p Hp)) as (_ & _ & D1).
  change (Z.of_nat PCI_CFG_AT + 4) with (Z.of_nat 136) in E1. change (Z.of_nat PCI_CFG_AT + 8) with (Z.of_nat 140) in E2.
  change (Z.of_nat PCI_CFG_AT + 12) with (Z.of_nat 144) in E3. rewrite <- E1 in D1. rewrite <- E2 in D2. rewrite <- E3 in D3.
  unfold CONFIG_SPACE_SIZE in *. rewrite Nat2Z.id in *.
  change (Z.to_nat (Z.min 4 4)) with 4%nat in *. change (Z.to_nat (Z.min 1 4)) with 1%nat in *.
  unfold PCI_CFG_AT. cbn [Nat.add]. f_equal; [f_equal|].
  - rewrite D3, decide_False, D2, decide_False, D1, decide_True by lia. rewrite (M p 136%nat) by (done || lia).
    unfold merge. change (not_w 8 0xff) with 0. by rewrite Z.land_0_r.
  - rewrite (word_at_ext _ (cs_data (p_config p2))) by (intros j Hj; rewrite D3, decide_False by lia; done).
    rewrite E2. apply write_open_word; [auto|unfold CONFIG_SPACE_SIZE; lia|done|].
    intros j Hj. apply M; [done|lia].
  - rewrite E3. apply write_open_word; [auto|unfold CONFIG_SPACE_SIZE; lia|done|].
    intros j Hj. apply M; [done|lia].
Qed.

(** The [pci_cfg] capability gives config-space access to BAR 0: after a
    driver programs bar 0, an offset and a length of 1, 2 or 4 (aligned), a read
    of [pci_cfg_data] returns what a BAR read at that offset returns and has the
    same effect on the device, a write acts as the BAR write, and programming
    the window itself leaves the device alone. *)
Theorem pci_cfg_window_equiv p off len :
  pci_ok p -> fits 32 off -> len = 1 \/ len = 2 \/ len = 4 -> off mod len = 0 ->
  exists p', open_window p off len = Some p' /\ pci_ok p' /\ p_core p' = p_core p /\
    let data := Z.of_nat (cap_data (p_pci_cfg p')) in
    pci_read_config p' data len = pci_read_bar p' 0 off len /\
    is_Some (pci_read_bar p' 0 off len) /\
    forall v, pci_write_config p' data len v = pci_write_bar p' 0 off len (mask v len).
Proof.
  intros Hp Ho Hl Hal. destruct (open_window_ok p off len Hp Ho) as (p' & E & Hp' & Hc & Hw);
    [unfold fits; lia|].
  exists p'. split; [done|]. split; [done|]. split; [done|].
  assert (Ht : pci_cfg_target p' = Some (off, len)).
  { unfold pci_cfg_target. rewrite Hw, Hal. destruct Hl as [-> |[-> | ->]]; done. }
  cbv zeta. unfold pci_read_config, pci_write_config. rewrite Z.eqb_refl, Ht. split; [|split].
  - unfold pci_read_bar. change (Z.of_nat 0 =? BAR) with true. cbn match.
    destruct (bar0_read_ok p' off len Hp') as (v & p2 & -> & _). cbn [mbind option_bind]. do 2 f_equal.
    assert (Hm : fits 32 (mask v len) /\ mask (mask v len) len = mask v len).
    { unfold mask. destruct Hl as [-> |[-> | ->]]; cbn [Z.eqb Pos.eqb].
      - rewrite !(land_low _ 8) by done. split; [|by rewrite Zmod_mod].
        pose proof (Z.mod_pos_bound v (2 ^ 8)). unfold fits. lia.
      - rewrite !(land_low _ 16) by done. split; [|by rewrite Zmod_mod].
        pose proof (Z.mod_pos_bound v (2 ^ 16)). unfold fits. lia.
      - rewrite !(land_low _ 32) by done. split; [|by rewrite Zmod_mod].
        by apply Z.mod_pos_bound. }
    destruct Hm as [Hm1 Hm2]. rewrite (wrap_small 32 (mask v len)) by done. by rewrite Hm2, wrap_small.
  - unfold pci_read_bar. change (Z.of_nat 0 =? BAR) with true. cbn match.
    destruct (bar0_read_ok p' off len Hp') as (v & p2 & -> & _). done.
  - intros v. unfold pci_write_bar. by change (Z.of_nat 0 =? BAR) with true.
Qed.

(** ** The pin follows the ISR *)

(** The interrupt is hooked and the pin was last refreshed with its level. *)
Definition pin_synced (id : nat) (i : Irq) (ix : Intx) : Prop :=
  i_hook i = true /\ i_level i = pending i /\ fits 2 (i_bits i) /\
  exists s line l, ix_pins ix !! id = Some (s, line) /\ ix_lines ix !! line = Some l /\
    requested s = pending i.

Lemma pin_update_synced id ix (b : bool) :
  (exists s line l, ix_pins ix !! id = Some (s, line) /\ ix_lines ix !! line = Some l) ->
  exists s line l, ix_pins (pin_update (Request b) id ix) !! id = Some (s, line) /\
    ix_lines (pin_update (Request b) id ix) !! line = Some l /\ requested s = b.
Proof.
  intros (s & line & l & Hp & Hl). unfold pin_update. rewrite Hp, Hl.
  destruct (PciIntx.update (Request b) s l) as [s' l'] eqn:Hu. cbn [ix_pins ix_lines].
  exists s', line, l'. rewrite !list_lookup_insert_eq by (by eapply lookup_lt_Some).
  split_and!; [done..|]. unfold PciIntx.update, update_pin in Hu. cbn [apply_change] in Hu.
  destruct (negb _) in Hu; cbn in Hu; by injection Hu as <- _.
Qed.

(** One synchronisation of the line, run to its end with its hook. *)
Lemma drive_synced id i i' ix :
  i_hook i' = true -> i_calls i' = i_calls i -> i_level i' = i_level i -> fits 2 (i_bits i') ->
  pin_synced id i ix ->
  pin_synced id (sync_line i') (hooked id i (sync_line i') ix).
Proof.
  intros H2 Hc Hl Hb (_ & Hlv & _ & s & line & l & Hp & Hli & Hr). unfold sync_line, drive.
  destruct (Bool.eqb_spec (i_level i') (pending i')) as [E|E].
  - unfold hooked. rewrite Hc, Nat.ltb_irrefl. split; [done|]. split; [done|]. split; [done|].
    exists s, line, l. split_and!; [done..|]. congruence.
  - rewrite H2. unfold hooked. cbn [i_calls]. rewrite Hc. cbn [length].
    rewrite (proj2 (Nat.ltb_lt _ _)) by lia. split; [done|]. split; [done|]. split; [done|].
    apply pin_update_synced. by exists s, line, l.
Qed.

Lemma hooked_same id i i' ix : i_calls i' = i_calls i -> hooked id i i' ix = ix.
Proof. intros E. unfold hooked. by rewrite E, Nat.ltb_irrefl. Qed.

Lemma pending_bits x s : pending (set_bits x s) = negb (x =? 0).
Proof. done. Qed.

Lemma raise_synced id bits i ix :
  pin_synced id i ix -> pin_synced id (raise bits i) (hooked id i (raise bits i) ix).
Proof.
  intros Hs. pose proof Hs as (H1 & H2 & Hb & s & line & l & Hp & Hl & Hr). unfold raise.
  assert (Hb' : fits 2 (Z.lor (i_bits i) (Z.land bits 3))).
  { apply lor_fits; [done|done|]. rewrite (land_low bits 2) by done. by apply Z.mod_pos_bound. }
  destruct (Z.eqb_spec (Z.land bits 3) 0) as [|Hne]; [by rewrite hooked_same|].
  destruct (Z.eqb_spec (i_bits i) 0) as [E|E]; [by apply drive_synced|].
  rewrite hooked_same by done. unfold pin_synced. rewrite pending_bits.
  assert (P : negb (Z.lor (i_bits i) (Z.land bits 3) =? 0) = pending i).
  { unfold pending. f_equal. rewrite (proj2 (Z.eqb_neq _ _) E). apply Z.eqb_neq. rewrite Z.lor_eq_0_iff. tauto. }
  rewrite P. split; [done|]. split; [done|]. split; [done|]. by exists s, line, l.
Qed.

Lemma ack_synced id bits i ix :
  pin_synced id i ix -> pin_synced id (ack bits i) (hooked id i (ack bits i) ix).
Proof.
  intros Hs. pose proof Hs as (H1 & H2 & Hb & s & line & l & Hp & Hl & Hr). unfold ack.
  set (next := Z.land (i_bits i) (not_w 32 (Z.land bits 3))).
  assert (Hb' : fits 2 next).
  { apply land_fits_l; [done|]. apply not_w_fits. rewrite (land_low bits 2) by done.
    pose proof (Z.mod_pos_bound bits (2 ^ 2)). unfold fits. lia. }
  destruct (negb (i_bits i =? 0) && (next =? 0)) eqn:Hc; [by apply drive_synced|].
  rewrite hooked_same by done. unfold pin_synced. rewrite pending_bits.
  assert (P : negb (next =? 0) = pending i).
  { unfold pending. destruct (Z.eqb_spec (i_bits i) 0) as [E|E].
    - unfold next. by rewrite E, Z.land_0_l.
    - cbn in Hc. by rewrite Hc. }
  rewrite P. split; [done|]. split; [done|]. split; [done|]. by exists s, line, l.
Qed.

(** An access leaves the interrupt alone, or acknowledges or raises some bits. *)
Definition irq_step (i i' : Irq) : Prop := i' = i \/ (exists b, i' = ack b i) \/ (exists b, i' = raise b i).

Lemma act_irq a c : a <> AStatus 0 -> co_interrupt (act a c) = co_interrupt c.
Proof.
  intros Ha. destruct a as [sel v|v|sel v|sel v|k|sel w h v]; cbn [act].
  - unfold write_driver_features. repeat case_match; done.
  - unfold write_status. destruct (Z.eqb_spec v 0) as [-> |]; [done|]. repeat case_match; done.
  - unfold set_queue_num. repeat case_match; done.
  - unfold set_queue_ready. repeat case_match; done.
  - unfold notify. repeat case_match; done.
  - unfold set_queue_addr. repeat case_match; done.
Qed.

Lemma common_write_irq p off size v :
  irq_step (co_interrupt (p_core p)) (co_interrupt (p_core (common_write p off size v))).
Proof.
  assert (A : forall a, a <> AStatus 0 -> irq_step (co_interrupt (p_core p)) (co_interrupt (act a (p_core p))))
    by (intros a Ha; left; by apply act_irq).
  assert (S : forall x, irq_step (co_interrupt (p_core p)) (co_interrupt (write_status x (p_core p)))).
  { intros x. destruct (decide (x = 0)) as [-> |Hx]; [|apply (A (AStatus x)); congruence].
    right. left. by exists 3. }
  unfold common_write.
  repeat match goal with |- context [if ?b then _ else _] =>
    match b with negb _ => destruct b | _ =? _ => destruct b | within _ _ _ => destruct b end end;
    try (left; reflexivity); cbn [p_core with_core with_selects with_vectors reset_transport]; try apply S.
  - by apply (A (ADriverFeatures _ _)).
  - by apply (A (AQueueNum _ _)).
  - left. unfold enable_queue. etransitivity; [by apply (act_irq (AQueueReady _ _))|].
    repeat case_match; try done. by apply (act_irq (AQueueNum _ _)).
  - destruct (addr_field off) as [w h]. left. cbn [p_core with_core].
    etransitivity; [by apply (act_irq (AQueueAddr _ _ _ _))|]. by apply (act_irq (AQueueAddr _ _ _ _)).
  - destruct (addr_field off) as [w h]. by apply (A (AQueueAddr _ w h _)).
Qed.

Lemma bar0_read_irq p off size v p' :
  bar0_read p off size = Some (v, p') -> irq_step (co_interrupt (p_core p)) (co_interrupt (p_core p')).
Proof.
  unfold bar0_read. destruct (claiming p off).
  { destruct (table_read _ _ _); [|done]. intros [= _ <-]. by left. }
  destruct (_ =? COMMON_OFFSET); [intros [= _ <-]; by left|].
  destruct (_ && _). { intros [= _ <-]. right. left. eexists. reflexivity. }
  destruct (_ =? DEVICE_OFFSET); [|intros [= _ <-]; by left].
  destruct (VirtioCore.read_config _ _ _). intros [= _ <-]. by left.
Qed.

Lemma bar0_write_irq p off size v p' :
  bar0_write p off size v = Some p' -> irq_step (co_interrupt (p_core p)) (co_interrupt (p_core p')).
Proof.
  unfold bar0_write. destruct (claiming p off).
  { destruct (table_write _ _ _ _); [|done]. intros [= <-]. by left. }
  destruct (_ =? COMMON_OFFSET); [intros [= <-]; apply common_write_irq|].
  destruct (_ =? DEVICE_OFFSET); [intros [= <-]; by left|].
  destruct (_ && _); intros [= <-]; left; [|done]. by apply (act_irq (ANotify _)).
Qed.

Lemma pci_access_irq a p p' :
  pci_access a p = Some p' -> irq_step (co_interrupt (p_core p)) (co_interrupt (p_core p')).
Proof.
  destruct a as [o n|o n v|b o n|b o n v|bits|i a]; cbn [pci_access].
  - unfold pci_read_config. destruct (_ =? _); [|intros [= <-]; by left].
    destruct (pci_cfg_target p) as [[o' n']|]; [|intros [= <-]; by left].
    destruct (bar0_read p o' n') as [[v p1]|] eqn:E; [|done]. intros [= <-]. by eapply bar0_read_irq.
  - unfold pci_write_config. destruct (_ =? _); [|intros [= <-]; left; by destruct (p_msix _)].
    destruct (pci_cfg_target p) as [[o' n']|]; [|intros [= <-]; by left]. apply bar0_write_irq.
  - unfold pci_read_bar. destruct (_ =? _); [|intros [= <-]; by left].
    destruct (bar0_read p o n) as [[v p1]|] eqn:E; [|done]. intros [= <-]. by eapply bar0_read_irq.
  - unfold pci_write_bar. destruct (_ =? _); [|intros [= <-]; by left]. apply bar0_write_irq.
  - intros [= <-]. right. right. by eexists.
  - intros [= <-]. by left.
Qed.

(** One access with the hook of the interrupt run, and for config writes the
    INTx disable bit mirrored to the pin as [PciBus::config_write] does. *)
Definition wired_access (id : nat) (a : PciAccess) (st : VirtioPci V * Intx) : option (VirtioPci V * Intx) :=
  let '(p, ix) := st in
  p' ← pci_access a p;
  let ix := hooked id (co_interrupt (p_core p)) (co_interrupt (p_core p')) ix in
  Some (p', match a with
            | CfgWr _ _ _ => pin_update (Disable (intx_disabled (p_config p'))) id ix
            | _ => ix
            end).

Fixpoint wired_run (id : nat) (acts : list PciAccess) (st : VirtioPci V * Intx) : option (VirtioPci V * Intx) :=
  match acts with [] => Some st | a :: acts' => st ← wired_access id a st; wired_run id acts' st end.

Lemma disable_synced id i ix b : pin_synced id i ix -> pin_synced id i (pin_update (Disable b) id ix).
Proof.
  intros (H1 & H2 & H3 & s & line & l & Hp & Hl & Hr). split; [done|]. split; [done|]. split; [done|].
  unfold pin_update. rewrite Hp, Hl.
  destruct (PciIntx.update (Disable b) s l) as [s' l'] eqn:Hu. cbn [ix_pins ix_lines].
  exists s', line, l'. rewrite !list_lookup_insert_eq by (by eapply lookup_lt_Some).
  split_and!; [done..|]. unfold PciIntx.update, update_pin in Hu. cbn [apply_change] in Hu.
  destruct (negb _) in Hu; cbn in Hu; by injection Hu as <- _.
Qed.

Lemma wired_access_keeps id a p ix :
  pci_access_ok a -> pci_ok p -> pin_synced id (co_interrupt (p_core p)) ix ->
  exists p' ix', wired_access id a (p, ix) = Some (p', ix') /\ pci_ok p' /\
    pin_synced id (co_interrupt (p_core p')) ix'.
Proof.
  intros Ha Hp Hs. destruct (pci_access_keeps a p Ha Hp) as (p' & E & Hp').
  unfold wired_access. rewrite E. cbn [mbind option_bind]. do 2 eexists. split; [reflexivity|]. split; [done|].
  assert (H : pin_synced id (co_interrupt (p_core p')) (hooked id (co_interrupt (p_core p)) (co_interrupt (p_core p')) ix)).
  { destruct (pci_access_irq a p p' E) as [-> |[[b ->]|[b ->]]].
    - by rewrite hooked_same.
    - by apply ack_synced.
    - by apply raise_synced. }
  destruct a; try done. by apply disable_synced.
Qed.

Lemma wired_run_keeps id acts p ix :
  Forall pci_access_ok acts -> pci_ok p -> pin_synced id (co_interrupt (p_core p)) ix ->
  exists p' ix', wired_run id acts (p, ix) = Some (p', ix') /\ pci_ok p' /\
    pin_synced id (co_interrupt (p_core p')) ix'.
Proof.
  intros Ha. revert p ix. induction Ha as [|a acts Ha _ IH]; intros p ix Hp Hs; [by exists p, ix|].
  destruct (wired_access_keeps id a p ix Ha Hp Hs) as (p' & ix' & E & Hp' & Hs').
  cbn [wired_run]. rewrite E. by apply IH.
Qed.

Lemma ack_all_bits i : fits 2 (i_bits i) -> i_bits (ack (i_bits i) i) = 0.
Proof.
  intros Hb. unfold ack. rewrite (land_low (i_bits i) 2 3) by done. rewrite Z.mod_small by exact Hb.
  assert (E : Z.land (i_bits i) (not_w 32 (i_bits i)) = 0).
  { apply (land_not_w_zero 32); [unfold fits in *; lia..|]. by intros. }
  rewrite E. destruct (_ && _); [|done]. unfold sync_line, drive. repeat case_match; done.
Qed.

(** The INTx pin of a virtio-pci function follows its ISR: from a new
    function whose interrupt and pin are idle, after any accesses and device
    interrupts the pin requests the line exactly while some ISR bit is set, and
    a guest read of the ISR register then returns the bits, clears them and
    releases the pin. *)
Theorem pin_follows_isr bdf (d : V) id ix line l acts :
  fits 16 (num_queues d) -> (forall i, fits 16 (queue_num_max d i)) ->
  ix_pins ix !! id = Some (pin_new, line) -> ix_lines ix !! line = Some l ->
  Forall pci_access_ok acts ->
  exists p p1 ix1, pci_new bdf d VirtioIrq.new 0 = Ok p /\ wired_run id acts (p, ix) = Some (p1, ix1) /\
    let isr := VirtioIrq.status (co_interrupt (p_core p1)) in
    pin_asserted ix1 id = negb (isr =? 0) /\
    exists p2 ix2, wired_access id (BarRd 0 ISR_OFFSET 1) (p1, ix1) = Some (p2, ix2) /\
      fst <$> pci_read_bar p1 0 ISR_OFFSET 1 = Some isr /\
      VirtioIrq.status (co_interrupt (p_core p2)) = 0 /\ pin_asserted ix2 id = false.
Proof.
  intros Hn Hm Hpin Hline Ha. destruct (pci_new_ok bdf d VirtioIrq.new 0 Hn Hm ltac:(lia)) as (p & E & Hp & Hi & _).
  assert (Hs : pin_synced id (co_interrupt (p_core p)) ix).
  { rewrite Hi. clear E. split; [done|]. split; [done|]. split; [done|]. by exists pin_new, line, l. }
  destruct (wired_run_keeps id acts p ix Ha Hp Hs) as (p1 & ix1 & E1 & Hp1 & Hs1).
  exists p, p1, ix1. split; [exact E|]. split; [exact E1|]. clear E E1 Hi Hs Hp. cbv zeta.
  assert (Hpa : forall i ix, pin_synced id i ix -> pin_asserted ix id = negb (i_bits i =? 0)).
  { intros i x (_ & _ & _ & s & ln & lx & Hps & _ & Hr). unfold pin_asserted. rewrite Hps. exact Hr. }
  split; [by apply Hpa|].
  destruct (wired_access_keeps id (BarRd 0 ISR_OFFSET 1) p1 ix1 I Hp1 Hs1) as (p2 & ix2 & E2 & Hp2 & Hs2).
  exists p2, ix2. split; [done|]. pose proof Hs1 as (_ & _ & Hb & _).
  unfold wired_access in E2. cbn [pci_access] in E2. unfold pci_read_bar, bar0_read in E2 |- *.
  change (Z.of_nat 0 =? BAR) with true in *. cbn match in *.
  rewrite claiming_low in * by (done || unfold MSIX_TABLE_OFFSET, ISR_OFFSET; lia).
  change (ISR_OFFSET mod REGION_SIZE) with 0 in *. change (ISR_OFFSET - 0 =? COMMON_OFFSET) with false in *.
  change ((ISR_OFFSET - 0 =? ISR_OFFSET) && (0 =? 0)) with true in *. cbn match in *.
  cbn [mbind option_bind fmap option_fmap option_map fst snd] in *. split.
  { f_equal. unfold mask. cbn [Z.eqb Pos.eqb]. rewrite (land_low _ 8) by done. apply Z.mod_small.
    unfold VirtioIrq.status, fits in *. lia. }
  assert (Z2 : i_bits (co_interrupt (p_core p2)) = 0).
  { injection E2 as E2 _. rewrite <- E2. cbn. by apply ack_all_bits. }
  split; [done|]. rewrite (Hpa _ _ Hs2), Z2. done.
Qed.

End device.
End facts.

(** ** The bus's laws *)

Lemma bar0_read_config {V} `{!VirtioDevice V} (p : VirtioPci V) off size v p' :
  bar0_read p off size = Some (v, p') -> p_config p' = p_config p.
Proof.
  unfold bar0_read. destruct (claiming p off).
  { destruct (table_read _ _ _); [|done]. by intros [= _ <-]. }
  destruct (_ =? COMMON_OFFSET); [by intros [= _ <-]|].
  destruct (_ && _); [by intros [= _ <-]|].
  destruct (_ =? DEVICE_OFFSET); [|by intros [= _ <-]].
  destruct (VirtioCore.read_config _ _ _). by intros [= _ <-].
Qed.

Lemma bar0_write_config {V} `{!VirtioDevice V} (p : VirtioPci V) off size v p' :
  bar0_write p off size v = Some p' -> p_config p' = p_config p.
Proof.
  unfold bar0_write. destruct (claiming p off).
  { destruct (table_write _ _ _ _); [|done]. by intros [= <-]. }
  destruct (_ =? COMMON_OFFSET).
  { intros [= <-]. unfold common_write. repeat case_match; done. }
  destruct (_ =? DEVICE_OFFSET); [by intros [= <-]|]. destruct (_ && _); by intros [= <-].
Qed.

Lemma read_config_same {V} `{!VirtioDevice V} (p : VirtioPci V) off size :
  fn_config (PciBus.read_config p off size).2 = fn_config p.
Proof.
  cbn. unfold pci_read_config. destruct (_ =? _); [|done]. destruct (pci_cfg_target p) as [[o n]|]; [|done].
  destruct (bar0_read p o n) as [[v p']|] eqn:E; [|done]. by eapply bar0_read_config.
Qed.

Lemma read_bar_same {V} `{!VirtioDevice V} (p : VirtioPci V) b off size :
  fn_config (read_bar p b off size).2 = fn_config p.
Proof.
  cbn. unfold pci_read_bar. destruct (_ =? _); [|done].
  destruct (bar0_read p off size) as [[v p']|] eqn:E; [|done]. by eapply bar0_read_config.
Qed.

Lemma write_bar_same {V} `{!VirtioDevice V} (p : VirtioPci V) b off size v :
  fn_config (write_bar p b off size v) = fn_config p.
Proof.
  cbn. unfold pci_write_bar. destruct (_ =? _); [|done].
  destruct (bar0_write p off size v) as [p'|] eqn:E; [|done]. by eapply bar0_write_config.
Qed.

#[export] Instance VirtioPci_laws {V} `{!VirtioDevice V} : PciFunctionLaws (VirtioPci V).
Proof.
  split.
  - done.
  - intros p off size. unfold fn_ok. by rewrite read_config_same.
  - intros p off size v [l Hl]. unfold fn_ok. cbn. unfold pci_write_config. destruct (_ =? _).
    + destruct (pci_cfg_target p) as [[o n]|]; [|by exists l].
      destruct (bar0_write p o n (mask v n)) as [p'|] eqn:E; [|by exists l].
      apply bar0_write_config in E. cbn. rewrite E. by exists l.
    + exists l. cbn. destruct (p_msix p); by apply built_write.
  - intros p b off size. unfold fn_ok. by rewrite read_bar_same.
  - intros p b off size v. unfold fn_ok. by rewrite write_bar_same.
  - intros p off size. by rewrite read_config_same.
  - intros p b off size. by rewrite read_bar_same.
  - intros p b off size v. by rewrite write_bar_same.
Qed.

(** ** A function brought up by its driver *)

Definition demo_bdf : Bdf := bdf_new 1.

(** Select BAR access widths a driver uses to bring up queue 0 and kick it. *)
Definition demo_script : list DriverOp :=
  [OpStatus 1; OpStatus 3; OpFeatures 1 1; OpStatus 11; OpSize 0 64;
   OpAddr 0 Desc 0x1000; OpAddr 0 Driver 0x2000; OpAddr 0 Device 0x123456000; OpEnable 0; OpStatus 15; OpKick 0].

Definition demo_mmio_hooked : VirtioMmio (list QueueNotify) := with_irq 3 [] (set_hook VirtioIrq.new).

(** The concrete part of a witness: a new function, with its facts. *)
Lemma demo_pci :
  exists p, pci_new demo_bdf ([] : list QueueNotify) VirtioIrq.new 4 = Ok p /\ pci_ok p /\
    p_core p = VirtioCore.new (String.append "virtio-pci-" (bdf_display demo_bdf)) [] (set_hook VirtioIrq.new).
Proof.
  destruct (pci_new_ok (V := list QueueNotify) demo_bdf [] VirtioIrq.new 4 ltac:(done) ltac:(done) ltac:(lia))
    as (p & H & Hp & Hc & _). exists p. split; [exact H|]. split; [exact Hp|exact Hc].
Qed.

Lemma pci_transport_invariant_witness :
  exists p p', pci_new demo_bdf ([] : list QueueNotify) VirtioIrq.new 4 = Ok p /\
    pci_accesses [BarWr 0 0x14 1 1; CfgWr 0x9a 2 0x8000; BarWr 0 0x4010 4 7; DevRaise 1; BarRd 0 0x1000 1;
                  Assign 0 0x10000000; CfgRd 0x94 4; BarRd 3 0 8] p = Some p' /\ pci_ok p'.
Proof.
  apply (pci_transport_invariant (V := list QueueNotify) ltac:(done) ltac:(done) ltac:(done)
    ltac:(done) ltac:(done) demo_bdf [] VirtioIrq.new 4); [done|done|lia|].
  repeat (constructor; [done|]). constructor.
Defined.

Lemma transports_agree_witness :
  exists p p', pci_new demo_bdf ([] : list QueueNotify) VirtioIrq.new 4 = Ok p /\
    foldl (fun q o => q ≫= pci_op o) (Some p) demo_script = Some p' /\
    co_device (p_core p') =
      [{| n_index := 0; n_size := 64; n_desc := 0x1000; n_avail := 0x2000; n_used := 0x123456000;
          n_features := 2 ^ 32 |}].
Proof.
  pose proof (transports_agree (V := list QueueNotify) ltac:(done) ltac:(done) ltac:(done) ltac:(done) ltac:(done))
    as T. destruct demo_pci as (p & H & Hp & Hc).
  destruct (T demo_mmio_hooked p demo_script) as (p' & E & Hs & _ & _); clear T.
  - clear H. by apply with_irq_ok.
  - apply with_irq_fresh.
  - exact Hp.
  - unfold same_core. rewrite Hc. reflexivity.
  - apply (bool_decide_unpack _). vm_compute. exact I.
  - exists p, p'. split; [exact H|]. split; [exact E|]. rewrite Hs. vm_compute. reflexivity.
Defined.

Lemma pci_cfg_window_equiv_witness :
  exists p p', pci_new demo_bdf ([] : list QueueNotify) VirtioIrq.new 4 = Ok p /\
    open_window p 0x14 1 = Some p' /\
    pci_read_config p' 0x94 1 = pci_read_bar p' 0 0x14 1.
Proof.
  pose proof (pci_cfg_window_equiv (V := list QueueNotify) ltac:(done) ltac:(done) ltac:(done) ltac:(done) ltac:(done))
    as T. destruct demo_pci as (p & H & Hp & Hc).
  destruct (T p 0x14 1 Hp) as (p' & E & Hp' & _ & Hr & _).
  - clear. by unfold fits.
  - by left.
  - reflexivity.
  - exists p, p'. split; [exact H|]. split; [exact E|]. rewrite (po_cfg p' Hp') in Hr. exact Hr.
Defined.

Lemma pin_follows_isr_witness :
  exists p p1 ix1, pci_new demo_bdf ([] : list QueueNotify) VirtioIrq.new 0 = Ok p /\
    wired_run 0 [DevRaise 1; CfgWr 4 2 0x400] (p, {| ix_pins := [(pin_new, 0%nat)]; ix_lines := [line_new 3] |})
      = Some (p1, ix1) /\
    pin_asserted ix1 0 = negb (VirtioIrq.status (co_interrupt (p_core p1)) =? 0).
Proof.
  destruct (pin_follows_isr (V := list QueueNotify) ltac:(done) ltac:(done) ltac:(done) ltac:(done) ltac:(done)
    demo_bdf [] 0 {| ix_pins := [(pin_new, 0%nat)]; ix_lines := [line_new 3] |} 0 (line_new 3)
    [DevRaise 1; CfgWr 4 2 0x400]) as (p & p1 & ix1 & H & E & Ha & _).
  - done.
  - done.
  - reflexivity.
  - reflexivity.
  - repeat (constructor; [done|]). constructor.
  - exists p, p1, ix1. split; [exact H|]. split; [exact E|exact Ha].
Defined.
