(* ===== verification/Flash.v ===== *)
(** * The variable-store flash bank

    Model of [ternvale-vmm/src/firmware/pflash.rs], [vars.rs] and [nvram.rs],
    and of [check_layout] and [map_code] of [firmware.rs]: the CFI command
    state machine, the bank's contents, the read-only window that is mapped
    into the guest while reads return the array, and the NVRAM file the
    contents are written through to.

    Slice indexing that would panic makes [cfi_write] return [None];
    [flash_never_panics] shows it cannot.  The window's [map]/[unmap] calls and
    the file's [pwrite] may fail: their outcomes are arguments of the step.
    A [pwrite] that fails may have written any part of the file, so the file's
    contents after it are an argument too. *)

From stdpp Require Import strings.
From S2P Require Import Prelude GuestMemory Platform MmioBus.

Definition BLOCK_SIZE : Z := 0x40000.
Definition MAX_BUFFER : Z := 128.
Definition SR_READY : Z := 0x80.
Definition SR_ERASE_ERROR : Z := 0x20.
Definition SR_PROGRAM_ERROR : Z := 0x10.
Definition CMD_READ_ARRAY : Z := 0xff.
Definition CMD_READ_ARRAY_ALT : Z := 0xf0.
Definition CMD_READ_STATUS : Z := 0x70.
Definition CMD_CLEAR_STATUS : Z := 0x50.
Definition CMD_READ_ID : Z := 0x90.
Definition CMD_CFI_QUERY : Z := 0x98.
Definition CMD_WORD_PROGRAM : Z := 0x40.
Definition CMD_WORD_PROGRAM_ALT : Z := 0x10.
Definition CMD_BLOCK_ERASE : Z := 0x20.
Definition CMD_LOCK_SETUP : Z := 0x60.
Definition CMD_BUFFERED_PROGRAM : Z := 0xe8.
Definition CMD_CONFIRM : Z := 0xd0.
Definition LOCK_BLOCK : Z := 0x01.
Definition LOCK_DOWN : Z := 0x2f.
Definition MANUFACTURER_ID : Z := 0x89.
Definition FLASH_DEVICE_ID : Z := 0x18.

(** ** Command state *)

Inductive Mode : Type := Array | Status | Ident | Query.
#[export] Instance Mode_eq_dec : EqDecision Mode.
Proof. solve_decision. Defined.

Inductive Pending : Type :=
| PNone
| PProgram
| PErase
| PLock
| BufferCount (start : Z)
| BufferData (start : Z) (data : list Z) (got : Z)
| BufferConfirm (start : Z) (data : list Z).
#[export] Instance Pending_eq_dec : EqDecision Pending.
Proof. solve_decision. Defined.

Record Changed := { ch_offset : Z; ch_len : Z }.

Record Cfi := { f_mode : Mode; f_pending : Pending; f_status : Z }.

Definition cfi_new : Cfi := {| f_mode := Array; f_pending := PNone; f_status := SR_READY |}.

Definition array_mode (f : Cfi) : bool :=
  bool_decide (f_mode f = Array) && bool_decide (f_pending f = PNone).

Definition fail_program (f : Cfi) : Cfi :=
  {| f_mode := f_mode f; f_pending := f_pending f; f_status := Z.lor (f_status f) SR_PROGRAM_ERROR |}.

(** ** Helpers *)

Definition dual (chip : Z) : Z :=
  let word := Z.lor chip (Z.shiftl chip 16) in Z.lor word (Z.shiftl word 32).

Definition ident (index : Z) : Z :=
  if index =? 0 then MANUFACTURER_ID else if index =? 1 then FLASH_DEVICE_ID else 0.

Definition CHIP_BLOCK : Z := BLOCK_SIZE / 2.

Definition cfi_query (index : Z) : Z :=
  if index =? 0x10 then 0x51
  else if index =? 0x11 then 0x52
  else if index =? 0x12 then 0x59
  else if index =? 0x13 then 0x01
  else if index =? 0x27 then 25
  else if index =? 0x28 then 0x01
  else if index =? 0x2a then 6
  else if index =? 0x2c then 1
  else if index =? 0x2d then 0xff
  else if index =? 0x2f then Z.land (Z.shiftr CHIP_BLOCK 8) 0xff
  else if index =? 0x30 then Z.land (Z.shiftr CHIP_BLOCK 16) 0xff
  else 0.

Definition mask (size : Z) : Z := if 8 <=? size then 2 ^ 64 - 1 else Z.shiftl 1 (size * 8) - 1.

(** [storage.get(at..at + len)]. *)
Definition get_range (l : list Z) (at_ len : Z) : option (list Z) :=
  if (0 <=? at_) && (at_ + len <=? Z.of_nat (length l))
  then Some (take (Z.to_nat len) (drop (Z.to_nat at_) l)) else None.

(** [storage[at..at + bytes.len()].copy_from_slice(bytes)]; [None] panics. *)
Definition set_range (l : list Z) (at_ : Z) (bytes : list Z) : option (list Z) :=
  if (0 <=? at_) && (at_ + Z.of_nat (length bytes) <=? Z.of_nat (length l))
  then Some (list_inserts (Z.to_nat at_) bytes l) else None.

Definition read_le (storage : list Z) (offset size : Z) : Z :=
  let len := Z.min size 8 in
  match get_range storage offset len with
  | Some src => of_le (src ++ replicate (8 - length src) 0)
  | None => of_le (replicate 8 0)
  end.

Definition write_le (storage : list Z) (offset size value : Z) : list Z :=
  let len := Z.min size 8 in
  default storage (set_range storage offset (take (Z.to_nat len) (le_bytes 8 value))).

(** ** Reads *)

Definition cfi_read (f : Cfi) (storage : list Z) (offset size : Z) : Z :=
  if array_mode f then read_le storage offset size
  else
    let lane := Z.land offset 3 * 8 in
    let value :=
      match f_mode f with
      | Ident => Z.shiftr (dual (ident (Z.shiftr (offset mod BLOCK_SIZE) 2))) lane
      | Query => Z.shiftr (dual (cfi_query (Z.shiftr offset 2))) lane
      | _ => Z.shiftr (dual (f_status f)) lane
      end in
    Z.land value (mask size).

(** ** Writes *)

(** What [write] returns: a change to persist, nothing, or a reason. *)
Definition WriteResult : Type := result string (option Changed).

Definition reject (f : Cfi) (reason : string) : Cfi * WriteResult :=
  ({| f_mode := Status; f_pending := PNone;
      f_status := Z.lor (f_status f) (Z.lor SR_ERASE_ERROR SR_PROGRAM_ERROR) |}, Err reason).

Definition start_pending (f : Cfi) (p : Pending) : Cfi :=
  {| f_mode := Status; f_pending := p; f_status := f_status f |}.

Definition set_mode (f : Cfi) (m : Mode) : Cfi :=
  {| f_mode := m; f_pending := f_pending f; f_status := f_status f |}.
Definition set_pending (f : Cfi) (p : Pending) : Cfi :=
  {| f_mode := f_mode f; f_pending := p; f_status := f_status f |}.

Definition command (f : Cfi) (offset value : Z) : Cfi * WriteResult :=
  let cmd := wrap 8 value in
  if (cmd =? CMD_READ_ARRAY) || (cmd =? CMD_READ_ARRAY_ALT) then (set_mode f Array, Ok None)
  else if cmd =? CMD_READ_STATUS then (set_mode f Status, Ok None)
  else if cmd =? CMD_CLEAR_STATUS then
    ({| f_mode := Array; f_pending := f_pending f; f_status := SR_READY |}, Ok None)
  else if cmd =? CMD_READ_ID then (set_mode f Ident, Ok None)
  else if cmd =? CMD_CFI_QUERY then (set_mode f Query, Ok None)
  else if (cmd =? CMD_WORD_PROGRAM) || (cmd =? CMD_WORD_PROGRAM_ALT) then (start_pending f PProgram, Ok None)
  else if cmd =? CMD_BLOCK_ERASE then (start_pending f PErase, Ok None)
  else if cmd =? CMD_LOCK_SETUP then (start_pending f PLock, Ok None)
  else if cmd =? CMD_BUFFERED_PROGRAM then (start_pending f (BufferCount offset), Ok None)
  else reject f "unknown flash command".

(** [Cfi::write]: the state, the bank and the result; [None] is a panic. *)
Definition cfi_write (f : Cfi) (storage : list Z) (offset size value : Z)
  : option (Cfi * list Z * WriteResult) :=
  let keep '(f, r) := Some (f, storage, r) in
  let e := saturating_add 64 offset size in
  if Z.of_nat (length storage) <? e then keep (reject f "write past the end of the bank")
  else
    let cmd := wrap 8 value in
    let pending := f_pending f in
    let f := set_pending f PNone in
    match pending with
    | PNone => keep (command f offset value)
    | PProgram =>
        Some (set_mode f Status, write_le storage offset size value,
              Ok (Some {| ch_offset := offset; ch_len := size |}))
    | PErase =>
        if cmd =? CMD_CONFIRM then
          let start := offset - offset mod BLOCK_SIZE in
          let len := Z.min BLOCK_SIZE (Z.of_nat (length storage) - start) in
          storage ← set_range storage start (replicate (Z.to_nat len) 0xff);
          Some (set_mode f Status, storage, Ok (Some {| ch_offset := start; ch_len := len |}))
        else keep (reject f "unexpected confirm cycle")
    | PLock =>
        if (cmd =? LOCK_BLOCK) || (cmd =? CMD_CONFIRM) || (cmd =? LOCK_DOWN)
        then keep (set_mode f Status, Ok None)
        else keep (reject f "unexpected confirm cycle")
    | BufferCount start =>
        let bytes := (Z.land value 0xffff + 1) * 4 in
        if (MAX_BUFFER <? bytes) || (Z.of_nat (length storage) <? start + bytes)
        then keep (reject f "buffered program count out of range")
        else keep (set_pending f (BufferData start (replicate (Z.to_nat bytes) 0xff) 0), Ok None)
    | BufferData start data got =>
        let at_ := offset - start in
        if (at_ <? 0) || (Z.of_nat (length data) <? at_ + size)
        then keep (reject f "buffered program data outside the buffer")
        else
          data ← set_range data at_ (take (Z.to_nat size) (le_bytes 8 value));
          let got := got + size in
          keep (set_pending f (if Z.of_nat (length data) <=? got then BufferConfirm start data
                               else BufferData start data got), Ok None)
    | BufferConfirm start data =>
        if cmd =? CMD_CONFIRM then
          storage ← set_range storage start data;
          Some (set_mode f Status, storage,
                Ok (Some {| ch_offset := start; ch_len := Z.of_nat (length data) |}))
        else keep (reject f "unexpected confirm cycle")
    end.

(** ** The NVRAM file *)

(** [write_all_at]: the file grows, a gap reads as zero. *)
Definition pwrite (file : list Z) (offset : Z) (bytes : list Z) : list Z :=
  let o := Z.to_nat offset in
  take o (file ++ replicate (o - length file) 0) ++ bytes ++ drop (o + length bytes) file.

(** [NvramFile::open] on a fresh zeroed bank. *)
Definition nvram_open (file : list Z) (bank : list Z) : option (list Z) :=
  if (length bank <? length file)%nat then None
  else Some (file ++ drop (length file) bank).

(** ** The bank *)

Record VarsFlash := {
  v_cfi : Cfi;
  v_storage : list Z;
  v_mapped : bool;
  v_file : list Z;
  v_dirty : bool;
}.

Definition with_cfi (v : VarsFlash) (f : Cfi) (storage : list Z) : VarsFlash :=
  {| v_cfi := f; v_storage := storage; v_mapped := v_mapped v; v_file := v_file v; v_dirty := v_dirty v |}.
Definition with_file (v : VarsFlash) (file : list Z) (dirty : bool) : VarsFlash :=
  {| v_cfi := v_cfi v; v_storage := v_storage v; v_mapped := v_mapped v; v_file := file; v_dirty := dirty |}.
Definition with_mapped (v : VarsFlash) (m : bool) : VarsFlash :=
  {| v_cfi := v_cfi v; v_storage := v_storage v; v_mapped := m; v_file := v_file v; v_dirty := v_dirty v |}.

(** Outcomes of the host calls of one write: [pwrite] ([Some file] when it
    failed, leaving the file as given) and [map]/[unmap]. *)
Record Host := { h_pwrite : option (list Z); h_window : bool }.
Definition host_ok : Host := {| h_pwrite := None; h_window := true |}.

Definition try_sync_window (h : Host) (v : VarsFlash) : result unit VarsFlash :=
  let want := array_mode (v_cfi v) in
  if Bool.eqb want (v_mapped v) then Ok v
  else if h_window h then Ok (with_mapped v want) else Err tt.

Definition sync_window (h : Host) (v : VarsFlash) : VarsFlash :=
  match try_sync_window h v with Ok v' => v' | Err _ => v end.

Definition persist (h : Host) (v : VarsFlash) (changed : Changed) : VarsFlash :=
  match get_range (v_storage v) (ch_offset changed) (ch_len changed) with
  | None => v
  | Some bytes =>
      match h_pwrite h with
      | None => with_file v (pwrite (v_file v) (ch_offset changed) bytes) true
      | Some file => with_cfi (with_file v file (v_dirty v)) (fail_program (v_cfi v)) (v_storage v)
      end
  end.

Definition flash_read (v : VarsFlash) (offset size : Z) : Z := cfi_read (v_cfi v) (v_storage v) offset size.

Definition flash_write (h : Host) (v : VarsFlash) (offset size val : Z) : option VarsFlash :=
  '(f, storage, r) ← cfi_write (v_cfi v) (v_storage v) offset size val;
  let v := with_cfi v f storage in
  let v := match r with Ok (Some changed) => persist h v changed | _ => v end in
  Some (sync_window h v).

(** [VarsFlash::with_size]: the bank over an existing file. *)
Definition with_size (h : Host) (file : list Z) (size : nat) : option VarsFlash :=
  storage ← nvram_open file (replicate size 0);
  match try_sync_window h {| v_cfi := cfi_new; v_storage := storage; v_mapped := false;
                             v_file := file; v_dirty := false |} with
  | Ok v => Some v
  | Err _ => None
  end.

(** ** Boot layout ([firmware.rs]) *)

Definition MIN_RAM : Z := Z.shiftl 128 20.
Definition DTB_LIMIT : Z := 0x4007c000.

Inductive LayoutError : Type :=
| ImageSize (bytes limit : Z)
| RamTooSmall (ram min : Z)
| DtbTooLarge (bytes base limit : Z).

Definition check_image (bytes : Z) : result LayoutError unit :=
  if (bytes =? 0) || (FLASH_BANK_SIZE <? bytes) then Err (ImageSize bytes FLASH_BANK_SIZE) else Ok tt.

Definition check_layout (ram dtb : Z) : result LayoutError unit :=
  if ram <? MIN_RAM then Err (RamTooSmall ram MIN_RAM)
  else if DTB_LIMIT <? saturating_add 64 RAM_BASE dtb then Err (DtbTooLarge dtb RAM_BASE DTB_LIMIT)
  else Ok tt.

(** ** Lemmas on ranges *)

Lemma get_range_Some l at_ len r :
  get_range l at_ len = Some r <->
  0 <= at_ /\ at_ + len <= Z.of_nat (length l) /\ r = take (Z.to_nat len) (drop (Z.to_nat at_) l).
Proof. unfold get_range. zbool; simpl; naive_solver lia. Qed.

Lemma set_range_Some l at_ bs l' :
  set_range l at_ bs = Some l' <->
  0 <= at_ /\ at_ + Z.of_nat (length bs) <= Z.of_nat (length l) /\ l' = list_inserts (Z.to_nat at_) bs l.
Proof. unfold set_range. zbool; simpl; naive_solver lia. Qed.

Lemma set_range_in l at_ bs :
  0 <= at_ -> at_ + Z.of_nat (length bs) <= Z.of_nat (length l) ->
  set_range l at_ bs = Some (list_inserts (Z.to_nat at_) bs l).
Proof. intros. by apply set_range_Some. Qed.

Lemma inserts_fits i bs l : Forall (fits 8) bs -> Forall (fits 8) l -> Forall (fits 8) (list_inserts i bs l).
Proof.
  intros Hb. revert i. induction Hb as [|b bs Hb _ IH]; intros i Hl; simpl; [done|].
  apply Forall_insert; auto.
Qed.

(** ** Invariant *)

(** The guest's access sizes. *)
Definition mmio_size (size : Z) : Prop := size = 1 \/ size = 2 \/ size = 4 \/ size = 8.

Definition pending_ok (n : Z) (p : Pending) : Prop :=
  match p with
  | PNone | PProgram | PErase | PLock => True
  | BufferCount start => 0 <= start
  | BufferData start data got =>
      0 <= start /\ start + Z.of_nat (length data) <= n /\ 0 <= got < Z.of_nat (length data) /\
      Z.of_nat (length data) <= MAX_BUFFER /\ Forall (fits 8) data
  | BufferConfirm start data =>
      0 <= start /\ start + Z.of_nat (length data) <= n /\ Forall (fits 8) data
  end.

Record cfi_ok (n : Z) (f : Cfi) : Prop := {
  ck_ready : Z.testbit (f_status f) 7 = true;
  ck_status : fits 8 (f_status f);
  ck_pending : pending_ok n (f_pending f);
  (** a command in progress is polled through the status register *)
  ck_busy : f_pending f <> PNone -> f_mode f = Status;
}.

Record flash_ok (size : nat) (v : VarsFlash) : Prop := {
  fk_cfi : cfi_ok (Z.of_nat size) (v_cfi v);
  fk_len : length (v_storage v) = size;
  fk_bytes : Forall (fits 8) (v_storage v);
}.

Lemma status_error_ok s e : Z.testbit s 7 = true -> fits 8 s -> fits 8 e ->
  Z.testbit (Z.lor s e) 7 = true /\ fits 8 (Z.lor s e).
Proof. intros H1 H2 H3. split; [by rewrite Z.lor_spec, H1|by apply lor_fits]. Qed.

Lemma reject_ok n f reason : cfi_ok n f -> cfi_ok n (reject f reason).1.
Proof.
  intros [H1 H2 H3 H4].
  destruct (status_error_ok (f_status f) (Z.lor SR_ERASE_ERROR SR_PROGRAM_ERROR) H1 H2); [done|].
  by split.
Qed.

Lemma command_ok n f offset value :
  0 <= offset -> f_pending f = PNone -> cfi_ok n f -> cfi_ok n (command f offset value).1.
Proof.
  intros Ho Hp Hf. pose proof Hf as [H1 H2 H3 H4]. unfold command.
  repeat case_match; try (apply reject_ok; done); split; cbn; rewrite ?Hp; try done.
Qed.

Lemma take_le_bytes_fits n m v : Forall (fits 8) (take n (le_bytes m v)).
Proof. apply Forall_take, le_bytes_fits. Qed.

Lemma write_size size : mmio_size size -> length (take (Z.to_nat size) (le_bytes 8 0)) = Z.to_nat size.
Proof. intros [-> |[-> |[-> | ->]]]; done. Qed.

Lemma take_le_bytes_length size v : mmio_size size -> length (take (Z.to_nat size) (le_bytes 8 v)) = Z.to_nat size.
Proof. intros Hs. rewrite length_take, length_le_bytes. destruct Hs as [-> |[-> |[-> | ->]]]; done. Qed.

(** A successful word program. *)
Lemma write_le_eq storage offset size v :
  mmio_size size -> 0 <= offset -> offset + size <= Z.of_nat (length storage) ->
  write_le storage offset size v = list_inserts (Z.to_nat offset) (take (Z.to_nat size) (le_bytes 8 v)) storage.
Proof.
  intros Hs Ho Hl. unfold write_le. replace (Z.min size 8) with size by (unfold mmio_size in Hs; lia).
  rewrite set_range_in; [done|done|]. rewrite take_le_bytes_length by done. unfold mmio_size in Hs. lia.
Qed.

(** What a write may do to the bank: nothing, or a store of bytes that are then
    reported, inside the bank. *)
Definition stored (storage storage' : list Z) (r : WriteResult) : Prop :=
  match r with
  | Ok (Some ch) => exists bytes, Forall (fits 8) bytes /\ 0 <= ch_offset ch /\
      ch_len ch = Z.of_nat (length bytes) /\ ch_offset ch + ch_len ch <= Z.of_nat (length storage) /\
      storage' = list_inserts (Z.to_nat (ch_offset ch)) bytes storage
  | _ => storage' = storage
  end.

Lemma in_bank offset size n :
  (n <? saturating_add 64 offset size) = false -> n < 2 ^ 64 - 1 -> offset + size <= n.
Proof. unfold saturating_add. intros H%Z.ltb_ge. lia. Qed.

Lemma pending_none_ok n f : cfi_ok n f -> cfi_ok n (set_pending f PNone).
Proof. intros [H1 H2 H3 H4]. by split. Qed.

Lemma set_mode_ok n f m : f_pending f = PNone -> cfi_ok n f -> cfi_ok n (set_mode f m).
Proof. intros Hp [H1 H2 H3 H4]. split; cbn; done. Qed.

Lemma set_buffer_ok n f p :
  f_mode f = Status -> pending_ok n p -> cfi_ok n f -> cfi_ok n (set_pending f p).
Proof. intros Hm Hp [H1 H2 H3 H4]. by split. Qed.

Lemma cfi_write_ok f storage offset size value :
  mmio_size size -> 0 <= offset -> Z.of_nat (length storage) < 2 ^ 64 - 1 ->
  Forall (fits 8) storage -> cfi_ok (Z.of_nat (length storage)) f ->
  exists f' storage' r, cfi_write f storage offset size value = Some (f', storage', r) /\
    cfi_ok (Z.of_nat (length storage)) f' /\ stored storage storage' r.
Proof.
  intros Hs Ho Hn Hb Hf. unfold cfi_write. set (n := Z.of_nat (length storage)) in *.
  assert (Keep : forall fr : Cfi * WriteResult, cfi_ok n fr.1 -> match fr.2 with Ok (Some _) => False | _ => True end ->
    exists f' storage' r, (let '(f, r) := fr in Some (f, storage, r)) = Some (f', storage', r) /\
      cfi_ok n f' /\ stored storage storage' r).
  { intros [f' r] H1 H2. exists f', storage, r. split; [done|]. split; [done|]. by destruct r as [[]|]. }
  destruct (n <? saturating_add 64 offset size) eqn:He; [by apply Keep; [apply reject_ok|]|].
  pose proof (in_bank offset size n He Hn) as Hin.
  pose proof (pending_none_ok n f Hf) as Hf0. pose proof (ck_pending n f Hf) as Hpo.
  pose proof (ck_busy n f Hf) as Hbu.
  destruct (f_pending f) as [| | | |start|start data got|start data] eqn:Hp.
  - apply Keep; [by apply command_ok|]. unfold command. by repeat case_match.
  - do 3 eexists. split; [reflexivity|]. split; [by apply set_mode_ok|].
    exists (take (Z.to_nat size) (le_bytes 8 value)). rewrite take_le_bytes_length by done. cbn [ch_offset ch_len].
    split; [apply take_le_bytes_fits|]. split; [done|]. unfold mmio_size in Hs.
    split; [lia|]. split; [lia|]. by apply write_le_eq.
  - destruct (_ =? _); [|by apply Keep; [apply reject_ok|]].
    pose proof (Z.mod_pos_bound offset BLOCK_SIZE ltac:(done)) as Hm.
    pose proof (Z.mod_le offset BLOCK_SIZE Ho ltac:(done)).
    assert (BLOCK_SIZE > 0) by done. unfold mmio_size in Hs.
    rewrite set_range_in; [|lia|rewrite length_replicate; lia]. cbn [mbind option_bind].
    do 3 eexists. split; [reflexivity|]. split; [by apply set_mode_ok|].
    exists (replicate (Z.to_nat (Z.min BLOCK_SIZE (n - (offset - offset mod BLOCK_SIZE)))) 0xff).
    cbn [ch_offset ch_len]. rewrite length_replicate. split; [by apply Forall_replicate|].
    split; [lia|]. split; [lia|]. split; [fold n; lia|done].
  - destruct (_ || _); [|by apply Keep; [apply reject_ok|]].
    apply (Keep (_, Ok None)); [by apply set_mode_ok|done].
  - destruct (_ || _) eqn:Hr; [by apply Keep; [apply reject_ok|]|]. apply (Keep (_, Ok None)); [|done].
    apply orb_false_iff in Hr as [R1%Z.ltb_ge R2%Z.ltb_ge]. pose proof (land_low_bound value 16 0xffff ltac:(done) ltac:(done)).
    apply set_buffer_ok; [by apply Hbu| |done]. cbn [pending_ok] in *. rewrite length_replicate.
    split_and!; [done|lia..|by apply Forall_replicate].
  - destruct (_ || _) eqn:Hr; [by apply Keep; [apply reject_ok|]|].
    apply orb_false_iff in Hr as [R1%Z.ltb_ge R2%Z.ltb_ge]. cbn [pending_ok] in Hpo.
    destruct Hpo as (P1 & P2 & P3 & P4 & P5).
    rewrite set_range_in; [|lia|rewrite take_le_bytes_length by done; unfold mmio_size in Hs; lia].
    cbn [mbind option_bind]. apply (Keep (_, Ok None)); [|done]. apply set_buffer_ok; [by apply Hbu| |done].
    assert (Forall (fits 8) (list_inserts (Z.to_nat (offset - start)) (take (Z.to_nat size) (le_bytes 8 value)) data))
      by (apply inserts_fits; [apply take_le_bytes_fits|done]).
    unfold mmio_size in Hs. rewrite length_inserts. destruct (Z.leb_spec (Z.of_nat (length data)) (got + size)).
    + cbn [pending_ok]. rewrite length_inserts. done.
    + cbn [pending_ok]. rewrite length_inserts. split_and!; (done || lia).
  - destruct (_ =? _); [|by apply Keep; [apply reject_ok|]]. destruct Hpo as (P1 & P2 & P3).
    rewrite set_range_in by done. cbn [mbind option_bind]. do 3 eexists. split; [reflexivity|].
    split; [by apply set_mode_ok|]. by exists data.
Qed.

(** ** The whole device *)

Definition one_write (h : Host) (v : VarsFlash) (w : Z * Z * Z) : option VarsFlash :=
  let '(offset, size, val) := w in flash_write h v offset size val.

Fixpoint flash_run (v : VarsFlash) (ws : list (Host * (Z * Z * Z))) : option VarsFlash :=
  match ws with [] => Some v | (h, w) :: ws' => v ← one_write h v w; flash_run v ws' end.

Definition guest_write (w : Z * Z * Z) : Prop :=
  let '(offset, size, val) := w in 0 <= offset /\ mmio_size size.

#[export] Instance guest_write_dec w : Decision (guest_write w).
Proof. destruct w as [[? ?] ?]. unfold guest_write, mmio_size. apply _. Defined.

Lemma persist_fields h v ch :
  v_storage (persist h v ch) = v_storage v /\ v_mapped (persist h v ch) = v_mapped v /\
  (v_cfi (persist h v ch) = v_cfi v \/ v_cfi (persist h v ch) = fail_program (v_cfi v)).
Proof. unfold persist. repeat case_match; split_and!; auto. Qed.

Lemma fail_program_ok n f : cfi_ok n f -> cfi_ok n (fail_program f).
Proof.
  intros [H1 H2 H3 H4]. destruct (status_error_ok (f_status f) SR_PROGRAM_ERROR H1 H2); [done|]. by split.
Qed.

Lemma sync_window_fields h v :
  v_storage (sync_window h v) = v_storage v /\ v_cfi (sync_window h v) = v_cfi v /\
  v_file (sync_window h v) = v_file v /\
  (h_window h = true -> v_mapped (sync_window h v) = array_mode (v_cfi v)).
Proof.
  unfold sync_window, try_sync_window. destruct (Bool.eqb_spec (array_mode (v_cfi v)) (v_mapped v)).
  - split_and!; done.
  - destruct (h_window h); split_and!; done.
Qed.

Lemma stored_facts storage storage' r :
  Forall (fits 8) storage -> stored storage storage' r ->
  length storage' = length storage /\ Forall (fits 8) storage'.
Proof.
  intros Hb. destruct r as [[ch|]|]; cbn [stored]; [|by intros ->..].
  intros (bs & Hbs & _ & _ & _ & ->). rewrite length_inserts. split; [done|]. by apply inserts_fits.
Qed.

Lemma flash_write_ok size v h w :
  Z.of_nat size < 2 ^ 64 - 1 -> guest_write w -> flash_ok size v ->
  exists v', one_write h v w = Some v' /\ flash_ok size v' /\
    (h_window h = true -> v_mapped v' = array_mode (v_cfi v')).
Proof.
  intros Hn Hw Hv. destruct w as [[offset sz] val]. destruct Hw as [Ho Hs]. pose proof Hv as [H1 H2 H3].
  cbn [one_write]. unfold flash_write. rewrite <- H2 in H1, Hn.
  destruct (cfi_write_ok (v_cfi v) (v_storage v) offset sz val Hs Ho Hn H3 H1) as (f & st & r & -> & Hf & Hst).
  cbn [mbind option_bind]. destruct (stored_facts _ _ _ H3 Hst) as [L B]. eexists. split; [reflexivity|].
  set (v1 := match r with Ok (Some changed) => _ | _ => _ end).
  assert (Hv1 : flash_ok size v1).
  { assert (flash_ok size (with_cfi v f st)) as [K1 K2 K3] by (split; cbn; [by rewrite <- H2|congruence|done]).
    unfold v1. destruct r as [[ch|]|]; [|done..]. destruct (persist_fields h (with_cfi v f st) ch) as (E1 & _ & E2).
    split; rewrite ?E1; try done. destruct E2 as [-> | ->]; [done|by apply fail_program_ok]. }
  destruct (sync_window_fields h v1) as (E1 & E2 & E3 & E4). split; [|by rewrite E2].
  destruct Hv1 as [K1 K2 K3]. split; rewrite ?E1, ?E2; done.
Qed.

Lemma flash_run_ok size v ws :
  Z.of_nat size < 2 ^ 64 - 1 -> Forall (fun hw => guest_write hw.2) ws -> flash_ok size v ->
  exists v', flash_run v ws = Some v' /\ flash_ok size v'.
Proof.
  intros Hn Hws. revert v. induction Hws as [|[h w] ws Hw _ IH]; intros v Hv; [by exists v|].
  cbn [flash_run]. destruct (flash_write_ok size v h w Hn Hw Hv) as (v1 & -> & Hv1 & _).
  cbn [mbind option_bind]. by apply IH.
Qed.

(** ** Persistence *)

(** The file is the bank, up to the zeros after its end. *)
Definition in_sync (v : VarsFlash) : Prop := nvram_open (v_file v) (replicate (length (v_storage v)) 0) = Some (v_storage v).

Lemma inserts_splice (l bs : list Z) o :
  (o + length bs <= length l)%nat -> list_inserts o bs l = take o l ++ bs ++ drop (o + length bs) l.
Proof.
  intros Hl. apply list_eq. intros i. destruct (decide (i < o)%nat).
  - rewrite list_lookup_inserts_lt by done. rewrite lookup_app_l by (rewrite length_take; lia).
    by rewrite lookup_take_lt.
  - rewrite lookup_app_r by (rewrite length_take; lia). rewrite length_take, Nat.min_l by lia.
    destruct (decide (i < o + length bs)%nat).
    + rewrite list_lookup_inserts by lia. by rewrite lookup_app_l by lia.
    + rewrite list_lookup_inserts_ge by lia. rewrite lookup_app_r by lia. rewrite lookup_drop. f_equal. lia.
Qed.

Lemma in_sync_pad v :
  in_sync v <-> (length (v_file v) <= length (v_storage v))%nat /\
    v_storage v = v_file v ++ replicate (length (v_storage v) - length (v_file v)) 0.
Proof.
  unfold in_sync, nvram_open. rewrite length_replicate.
  destruct (Nat.ltb_spec (length (v_storage v)) (length (v_file v))).
  - split; [done|]. intros [? _]. lia.
  - rewrite drop_replicate. split; [intros [= E]; split; [lia|done]|]. by intros [_ <-].
Qed.

(** Writing through keeps the file and the bank together. *)
Lemma pwrite_sync (file bs : list Z) o n :
  (length file <= n)%nat -> (o + length bs <= n)%nat ->
  let st := file ++ replicate (n - length file) 0 in
  (length (pwrite file (Z.of_nat o) bs) <= n)%nat /\
  list_inserts o bs st = pwrite file (Z.of_nat o) bs ++ replicate (n - length (pwrite file (Z.of_nat o) bs)) 0.
Proof.
  intros Hf Hb st. unfold pwrite. rewrite Nat2Z.id.
  assert (Ht : take o (file ++ replicate (o - length file) 0) = take o st).
  { unfold st. rewrite !take_app. f_equal. rewrite !take_replicate. f_equal. lia. }
  rewrite Ht. assert (Lst : length st = n) by (unfold st; rewrite length_app, length_replicate; lia).
  rewrite !length_app, length_take, length_drop. split; [lia|].
  rewrite inserts_splice by lia. rewrite <- !app_assoc. do 2 f_equal. unfold st.
  rewrite drop_app. f_equal. rewrite drop_replicate. f_equal. fold st. rewrite Lst. lia.
Qed.

Lemma persist_sync h v st ch bs :
  h_pwrite h = None -> in_sync v -> 0 <= ch_offset ch -> ch_len ch = Z.of_nat (length bs) ->
  ch_offset ch + ch_len ch <= Z.of_nat (length (v_storage v)) ->
  st = list_inserts (Z.to_nat (ch_offset ch)) bs (v_storage v) ->
  forall f, in_sync (persist h (with_cfi v f st) ch).
Proof.
  intros Hh Hs Ho Hl Hin -> f. apply in_sync_pad in Hs as [Hlen Hst]. unfold persist. cbn [with_cfi v_storage].
  assert (G : get_range (list_inserts (Z.to_nat (ch_offset ch)) bs (v_storage v)) (ch_offset ch) (ch_len ch) = Some bs).
  { apply get_range_Some. rewrite length_inserts. split; [done|]. split; [done|].
    rewrite inserts_splice by lia. rewrite drop_app_ge by (rewrite length_take; lia).
    rewrite length_take, Nat.min_l, Nat.sub_diag, drop_0 by lia. rewrite Hl, Nat2Z.id.
    by rewrite take_app_le, take_ge by lia. }
  rewrite G, Hh. apply in_sync_pad. cbn [with_file with_cfi v_file v_storage]. rewrite length_inserts.
  replace (ch_offset ch) with (Z.of_nat (Z.to_nat (ch_offset ch))) at 1 3 4 by lia.
  rewrite Hst at 2. apply pwrite_sync; lia.
Qed.

Lemma write_in_sync size v h w v' :
  Z.of_nat size < 2 ^ 64 - 1 -> guest_write w -> flash_ok size v -> h_pwrite h = None -> in_sync v ->
  one_write h v w = Some v' -> in_sync v'.
Proof.
  intros Hn Hw [H1 H2 H3] Hh Hs. destruct w as [[offset sz] val]. destruct Hw as [Ho Hsz].
  cbn [one_write]. unfold flash_write. rewrite <- H2 in H1, Hn.
  destruct (cfi_write_ok (v_cfi v) (v_storage v) offset sz val Hsz Ho Hn H3 H1) as (f & st & r & -> & _ & Hst).
  cbn [mbind option_bind]. intros [= <-]. set (v1 := match r with Ok (Some changed) => _ | _ => _ end).
  destruct (sync_window_fields h v1) as (E1 & _ & E3 & _). unfold in_sync. rewrite E1, E3. unfold v1.
  destruct r as [[ch|]|]; cbn [stored] in Hst.
  - destruct Hst as (bs & _ & B1 & B2 & B3 & B4). by apply (persist_sync h v st ch bs).
  - by subst.
  - by subst.
Qed.

Lemma open_ok h file size v :
  Forall (fits 8) file -> with_size h file size = Some v -> flash_ok size v /\ in_sync v.
Proof.
  intros Hf. unfold with_size, nvram_open. rewrite length_replicate.
  destruct (Nat.ltb_spec size (length file)); [done|]. cbn [mbind option_bind].
  assert (Hsz : length (file ++ drop (length file) (replicate size 0)) = size).
  { rewrite length_app, length_drop, length_replicate. lia. }
  destruct (try_sync_window h _) as [v'|] eqn:E; [|done]. intros [= <-].
  unfold try_sync_window in E. repeat case_match; simplify_eq/=; (split;
    [split; cbn; [by split|done|apply Forall_app_2; [done|]; apply Forall_drop; by apply Forall_replicate]
    |unfold in_sync; cbn [v_storage v_file with_mapped]; rewrite Hsz; unfold nvram_open; rewrite length_replicate;
     destruct (Nat.ltb_spec size (length file)); [lia|done]]).
Qed.

(** C37: The variable store survives a restart: for any sequence of guest
    writes to the flash (commands, programs, erases, malformed ones) on a bank
    opened over any file, with the file writes succeeding and whatever the
    window calls do, nothing panics and opening a new bank over the resulting
    file gives exactly the current contents. *)
Theorem nvram_roundtrip (h : Host) (file : list Z) (size : nat) (v : VarsFlash) (ws : list (Host * (Z * Z * Z))) :
  Z.of_nat size < 2 ^ 64 - 1 -> Forall (fits 8) file -> with_size h file size = Some v ->
  Forall (fun hw => h_pwrite hw.1 = None /\ guest_write hw.2) ws ->
  exists v', flash_run v ws = Some v' /\ flash_ok size v' /\
    nvram_open (v_file v') (replicate size 0) = Some (v_storage v').
Proof.
  intros Hn Hf Hv Hws. destruct (open_ok h file size v Hf Hv) as [Hok Hs]. clear Hv Hf.
  assert (G : exists v', flash_run v ws = Some v' /\ flash_ok size v' /\ in_sync v').
  { revert v Hok Hs. induction Hws as [|[h' w] ws [Hh Hw] _ IH]; intros v Hok Hs; [by exists v|].
    cbn [flash_run]. destruct (flash_write_ok size v h' w Hn Hw Hok) as (v1 & E & Hv1 & _). rewrite E.
    cbn [mbind option_bind]. apply IH; [done|]. exact (write_in_sync size v h' w v1 Hn Hw Hok Hh Hs E). }
  destruct G as (v' & E & Hok' & Hs'). exists v'. split; [done|]. split; [done|].
  unfold in_sync in Hs'. by rewrite (fk_len _ _ Hok') in Hs'.
Qed.

Lemma flash_run_app v ws1 ws2 : flash_run v (ws1 ++ ws2) = v' ← flash_run v ws1; flash_run v' ws2.
Proof.
  revert v. induction ws1 as [|[h w] ws1 IH]; intros v; [done|]. cbn [flash_run app].
  destruct (one_write h v w); [apply IH|done].
Qed.

(** The read-only window never shows the guest stale flash state: after any
    writes and any host failures, once a window call has succeeded the bank is
    mapped exactly in read-array mode, so a load from the mapping returns what
    the device would return, and while a command is pending loads trap and see
    the status register with the ready bit set. *)
Theorem flash_window_faithful (size : nat) (v : VarsFlash) ws h w :
  Z.of_nat size < 2 ^ 64 - 1 -> flash_ok size v -> Forall (fun hw => guest_write hw.2) ws ->
  guest_write w -> h_window h = true ->
  exists v', flash_run v (ws ++ [(h, w)]) = Some v' /\
    (v_mapped v' = true -> forall off sz, flash_read v' off sz = read_le (v_storage v') off sz) /\
    (f_pending (v_cfi v') <> PNone -> v_mapped v' = false /\ Z.testbit (flash_read v' 0 1) 7 = true).
Proof.
  intros Hn Hv Hws Hw Hh. destruct (flash_run_ok size v ws Hn Hws Hv) as (v1 & E & Hv1).
  destruct (flash_write_ok size v1 h w Hn Hw Hv1) as (v2 & E2 & Hv2 & Hm). specialize (Hm Hh).
  exists v2. rewrite flash_run_app, E. cbn [mbind option_bind flash_run]. rewrite E2. split; [done|]. split.
  - intros Hmap off sz. unfold flash_read, cfi_read. by rewrite <- Hm, Hmap.
  - intros Hp. destruct (fk_cfi _ _ Hv2) as [Hr Hf _ Hb]. specialize (Hb Hp).
    assert (Ha : array_mode (v_cfi v2) = false) by (unfold array_mode; by rewrite Hb).
    rewrite Hm. split; [done|]. unfold flash_read, cfi_read. rewrite Ha, Hb.
    change (Z.land 0 3 * 8) with 0. rewrite Z.shiftr_0_r, Z.land_spec. unfold dual.
    rewrite !Z.lor_spec, Hr. done.
Qed.

(** ** Buffered programming *)

Fixpoint cfi_run (f : Cfi) (storage : list Z) (ws : list (Z * Z * Z)) : option (Cfi * list Z) :=
  match ws with
  | [] => Some (f, storage)
  | (offset, size, value) :: ws' =>
      '(f, storage, _) ← cfi_write f storage offset size value; cfi_run f storage ws'
  end.

(** The data cycles for [words] from [at_]. *)
Fixpoint data_cycles (at_ : Z) (words : list Z) : list (Z * Z * Z) :=
  match words with [] => [] | w :: ws => (at_, 4, w) :: data_cycles (at_ + 4) ws end.

(** The driver's sequence: setup, count, data, confirm. *)
Definition buffered (start confirm : Z) (words : list Z) : list (Z * Z * Z) :=
  (start, 4, CMD_BUFFERED_PROGRAM) :: (start, 4, Z.of_nat (length words) - 1)
  :: data_cycles start words ++ [(confirm, 4, CMD_CONFIRM)].

Lemma take_le_bytes4 v : take 4 (le_bytes 8 v) = le_bytes 4 v.
Proof. reflexivity. Qed.

Lemma length_words (ws : list Z) : length (ws ≫= le_bytes 4) = (4 * length ws)%nat.
Proof. induction ws as [|w ws IH]; [done|]. rewrite bind_cons, length_app, IH, length_le_bytes. simpl. lia. Qed.

Lemma not_past offset n : offset + 4 <= n -> n < 2 ^ 64 - 1 -> (n <? saturating_add 64 offset 4) = false.
Proof. intros. apply Z.ltb_ge. unfold saturating_add. lia. Qed.

Lemma cfi_run_cons f storage offset size value f' storage' r ws :
  cfi_write f storage offset size value = Some (f', storage', r) ->
  cfi_run f storage ((offset, size, value) :: ws) = cfi_run f' storage' ws.
Proof. intros E. cbn [cfi_run]. by rewrite E. Qed.

(** One data cycle in order. *)
Lemma data_cycle f storage start pre w k :
  Z.of_nat (length storage) < 2 ^ 64 - 1 -> 0 <= start ->
  start + Z.of_nat (length pre + 4 * S k) <= Z.of_nat (length storage) ->
  f_pending f = BufferData start (pre ++ replicate (4 * S k) 0xff) (Z.of_nat (length pre)) ->
  let data := (pre ++ le_bytes 4 w) ++ replicate (4 * k) 0xff in
  cfi_write f storage (start + Z.of_nat (length pre)) 4 w =
  Some (set_pending f (if (k =? 0)%nat then BufferConfirm start data
                       else BufferData start data (Z.of_nat (length (pre ++ le_bytes 4 w)))), storage, Ok None).
Proof.
  intros Hn Hs Hin Hp data. unfold cfi_write. rewrite not_past by lia. rewrite Hp.
  replace (start + Z.of_nat (length pre) - start) with (Z.of_nat (length pre)) by lia.
  rewrite length_app, length_replicate.
  rewrite (proj2 (Z.ltb_ge _ 0)), (proj2 (Z.ltb_ge _ _)) by lia. cbn [orb].
  change (Z.to_nat 4) with 4%nat. rewrite take_le_bytes4.
  rewrite set_range_in by (rewrite ?length_app, ?length_replicate, ?length_le_bytes; lia).
  cbn [mbind option_bind]. rewrite length_inserts, length_app, length_replicate.
  rewrite Nat2Z.id, inserts_splice by (rewrite ?length_app, ?length_replicate, ?length_le_bytes; lia).
  rewrite length_le_bytes, take_app_length, drop_app_ge by lia. rewrite drop_replicate, app_assoc.
  replace (4 * S k - (length pre + 4 - length pre))%nat with (4 * k)%nat by lia. fold data.
  do 3 f_equal. rewrite length_app, length_le_bytes. unfold set_pending. f_equal.
  destruct (Nat.eqb_spec k 0) as [-> |Hk].
  - by rewrite (proj2 (Z.leb_le _ _)) by lia.
  - rewrite (proj2 (Z.leb_gt _ _)) by lia. f_equal. lia.
Qed.

Lemma data_cycles_run f storage start pre w words rest :
  Z.of_nat (length storage) < 2 ^ 64 - 1 -> 0 <= start ->
  start + Z.of_nat (length pre + 4 * S (length words)) <= Z.of_nat (length storage) ->
  f_pending f = BufferData start (pre ++ replicate (4 * S (length words)) 0xff) (Z.of_nat (length pre)) ->
  cfi_run f storage (data_cycles (start + Z.of_nat (length pre)) (w :: words) ++ rest) =
  cfi_run (set_pending f (BufferConfirm start (pre ++ (w :: words) ≫= le_bytes 4))) storage rest.
Proof.
  intros Hn Hs. revert f pre w. induction words as [|w' words IH]; intros f pre w Hin Hp.
  - cbn [data_cycles app]. erewrite cfi_run_cons by (by apply data_cycle). cbn [length Nat.eqb].
    rewrite bind_cons. cbn [mbind list_bind]. by rewrite !app_nil_r.
  - change (data_cycles (start + Z.of_nat (length pre)) (w :: w' :: words) ++ rest)
      with ((start + Z.of_nat (length pre), 4, w) :: data_cycles (start + Z.of_nat (length pre) + 4) (w' :: words) ++ rest).
    erewrite cfi_run_cons by (by apply data_cycle). cbn [length Nat.eqb].
    assert (L : length (pre ++ le_bytes 4 w) = (length pre + 4)%nat) by (by rewrite length_app, length_le_bytes).
    replace (start + Z.of_nat (length pre) + 4) with (start + Z.of_nat (length (pre ++ le_bytes 4 w))) by lia.
    rewrite IH; [|rewrite L; cbn [length] in *; lia|done].
    rewrite (bind_cons _ w). by rewrite app_assoc.
Qed.

(** A buffered program stores exactly its data: from any state with no
    command pending, the driver's sequence of setup, word count, 1 to 32 data
    words and confirm leaves the words at the target in little-endian order,
    every other byte of the bank as it was, no error in the status register, and
    after a read-array command loads return the words. *)
Theorem buffered_program_spec (f : Cfi) (storage : list Z) (start confirm : Z) (words : list Z) :
  f_pending f = PNone -> Z.of_nat (length storage) < 2 ^ 64 - 1 -> 0 <= start -> 0 <= confirm ->
  (1 <= length words <= 32)%nat -> start + Z.of_nat (4 * length words) <= Z.of_nat (length storage) ->
  confirm + 4 <= Z.of_nat (length storage) ->
  let storage' := list_inserts (Z.to_nat start) (words ≫= le_bytes 4) storage in
  cfi_run f storage (buffered start confirm words) =
    Some ({| f_mode := Status; f_pending := PNone; f_status := f_status f |}, storage') /\
  length storage' = length storage /\
  (forall i, (i < Z.to_nat start \/ Z.to_nat start + 4 * length words <= i)%nat -> storage' !! i = storage !! i) /\
  cfi_run f storage (buffered start confirm words ++ [(start, 4, CMD_READ_ARRAY)]) =
    Some ({| f_mode := Array; f_pending := PNone; f_status := f_status f |}, storage').
Proof.
  intros Hp Hn Hs Hc Hl Hin Hcf storage'.
  assert (Run : forall rest, cfi_run f storage (buffered start confirm words ++ rest) =
    cfi_run {| f_mode := Status; f_pending := PNone; f_status := f_status f |} storage' rest).
  { intros rest. unfold buffered. rewrite <- app_comm_cons, <- app_comm_cons, <- app_assoc.
    assert (E1 : cfi_write f storage start 4 CMD_BUFFERED_PROGRAM =
      Some (start_pending (set_pending f PNone) (BufferCount start), storage, Ok None))
      by (unfold cfi_write; rewrite not_past by lia; by rewrite Hp).
    erewrite cfi_run_cons by exact E1. destruct words as [|w ws]; [simpl in Hl; lia|].
    set (f1 := set_pending f (BufferData start (replicate (4 * S (length ws)) 0xff) 0)).
    assert (E2 : cfi_write (start_pending (set_pending f PNone) (BufferCount start)) storage start 4
        (Z.of_nat (length (w :: ws)) - 1) = Some (set_mode f1 Status, storage, Ok None)).
    { unfold cfi_write. rewrite not_past by lia. cbn [f_pending start_pending].
      assert (Hland : Z.land (Z.of_nat (length (w :: ws)) - 1) 0xffff = Z.of_nat (length (w :: ws)) - 1)
        by (rewrite (land_low _ 16) by done; apply Z.mod_small; lia).
      rewrite Hland. rewrite (proj2 (Z.ltb_ge MAX_BUFFER _)), (proj2 (Z.ltb_ge _ (start + _))) by (unfold MAX_BUFFER; lia).
      cbn [orb]. replace (Z.to_nat ((Z.of_nat (length (w :: ws)) - 1 + 1) * 4)) with (4 * S (length ws))%nat
        by (cbn [length]; lia). done. }
    erewrite cfi_run_cons by exact E2.
    pose proof (data_cycles_run (set_mode f1 Status) storage start [] w ws) as D. cbn [length app] in D.
    rewrite Z.add_0_r in D. rewrite D by (done || (cbn [length] in *; lia)).
    cbn [app]. eapply cfi_run_cons.
    unfold cfi_write. rewrite not_past by lia. cbn [f_pending set_pending].
    change (wrap 8 CMD_CONFIRM =? CMD_CONFIRM) with true. cbn match.
    rewrite set_range_in; [|done|rewrite length_words; cbn [length] in *; lia].
    cbn [mbind option_bind]. reflexivity. }
  split; [by rewrite <- (app_nil_r (buffered _ _ _)), Run|]. split; [apply length_inserts|]. split.
  - intros i Hi. unfold storage'. destruct Hi; [by apply list_lookup_inserts_lt|].
    apply list_lookup_inserts_ge. by rewrite length_words.
  - rewrite Run. cbn [cfi_run]. unfold cfi_write. unfold storage'. rewrite length_inserts, not_past by lia. reflexivity.
Qed.

(** ** A small bank *)

Definition demo_flash : VarsFlash :=
  {| v_cfi := cfi_new; v_storage := [1; 2; 3; 4; 0; 0; 0; 0; 0; 0; 0; 0; 0; 0; 0; 0]; v_mapped := true;
     v_file := [1; 2; 3; 4]; v_dirty := false |}.

Lemma nvram_roundtrip_witness :
  exists v', flash_run demo_flash [(host_ok, (4, 4, 0x400040)); (host_ok, (8, 4, 0x04030201)); (host_ok, (0, 2, 0xff))]
      = Some v' /\ nvram_open (v_file v') (replicate 16 0) = Some (v_storage v') /\
    v_file v' = [1; 2; 3; 4; 0; 0; 0; 0; 1; 2; 3; 4].
Proof.
  destruct (nvram_roundtrip host_ok [1; 2; 3; 4] 16 demo_flash
    [(host_ok, (4, 4, 0x400040)); (host_ok, (8, 4, 0x04030201)); (host_ok, (0, 2, 0xff))]) as (v' & E & _ & Hr).
  - lia.
  - apply (bool_decide_unpack _). vm_compute. exact I.
  - reflexivity.
  - apply (bool_decide_unpack _). vm_compute. exact I.
  - exists v'. split; [exact E|]. split; [exact Hr|].
    assert (F : v_file <$> flash_run demo_flash [(host_ok, (4, 4, 0x400040)); (host_ok, (8, 4, 0x04030201)); (host_ok, (0, 2, 0xff))]
      = Some [1; 2; 3; 4; 0; 0; 0; 0; 1; 2; 3; 4]) by (vm_compute; reflexivity).
    rewrite E in F. by injection F.
Defined.

Lemma demo_flash_ok : flash_ok 16 demo_flash.
Proof. split; [by split|reflexivity|]. apply (bool_decide_unpack _). vm_compute. exact I. Qed.

Lemma flash_window_faithful_witness :
  exists v', flash_run demo_flash ([({| h_pwrite := None; h_window := false |}, (0, 4, 0x900090))] ++ [(host_ok, (0, 4, 0xe8))])
      = Some v' /\ v_mapped v' = false /\ Z.testbit (flash_read v' 0 1) 7 = true.
Proof.
  destruct (flash_window_faithful 16 demo_flash [({| h_pwrite := None; h_window := false |}, (0, 4, 0x900090))]
    host_ok (0, 4, 0xe8)) as (v' & E & _ & Hp).
  - lia.
  - exact demo_flash_ok.
  - apply (bool_decide_unpack _). vm_compute. exact I.
  - apply (bool_decide_unpack _). vm_compute. exact I.
  - reflexivity.
  - exists v'. split; [exact E|]. apply Hp.
    assert (F : (fun v => bool_decide (f_pending (v_cfi v) = PNone)) <$>
      flash_run demo_flash ([({| h_pwrite := None; h_window := false |}, (0, 4, 0x900090))] ++ [(host_ok, (0, 4, 0xe8))])
      = Some false) by (vm_compute; reflexivity).
    rewrite E in F. intros Hn. simpl in F. by rewrite Hn in F.
Defined.

Lemma buffered_program_spec_witness :
  cfi_run cfi_new (replicate 16 0) (buffered 4 0 [0x04030201; 0x08070605]) =
  Some ({| f_mode := Status; f_pending := PNone; f_status := 0x80 |},
        [0; 0; 0; 0; 1; 2; 3; 4; 5; 6; 7; 8; 0; 0; 0; 0]).
Proof.
  destruct (buffered_program_spec cfi_new (replicate 16 0) 4 0 [0x04030201; 0x08070605]) as [H _];
    [reflexivity|simpl; lia..|]. exact H.
Defined.
