(* ===== verification/FwCfg.v ===== *)
(** * fw_cfg

    Model of [ternvale-vmm/src/fw_cfg.rs]: the read-only files the firmware
    fetches through a selector and a data register.  Names and contents are
    byte lists (a Rust [String] is its UTF-8 bytes).  An index that would panic
    makes a read [None]; [read_stream] shows reads always succeed.  Reads that are
    rejected return 0; the log is not modelled. *)

From stdpp Require Import strings.
From S2P Require Import Prelude MmioBus.

Definition FW_CFG_REG_SIZE : Z := 0x10.
Definition DATA : Z := 0x0.
Definition SELECTOR : Z := 0x8.
Definition ITEM_SIGNATURE : Z := 0x0000.
Definition ITEM_FEATURES : Z := 0x0001.
Definition ITEM_FILE_DIR : Z := 0x0019.
Definition FIRST_FILE : Z := 0x0020.
Definition FEATURE_TRADITIONAL : Z := 1.
Definition NAME_LEN : nat := 56.
Definition MAX_FILES : Z := 0x1000.

(** ASCII names of the built-in items, and the signature's contents. *)
Definition ascii_bytes (s : string) : list Z :=
  (fun c => Z.of_nat (Ascii.nat_of_ascii c)) <$> String.list_ascii_of_string s.
Definition SIGNATURE_NAME : list Z := ascii_bytes "signature".
Definition FEATURES_NAME : list Z := ascii_bytes "features".
Definition FILE_DIR_NAME : list Z := ascii_bytes "file-dir".
Definition QEMU : list Z := ascii_bytes "QEMU".


(** Selector, name and contents. *)
Notation Item := (Z * list Z * list Z)%type.

Record FwCfg := {
  fc_items : list Item;
  fc_selected : option nat;
  fc_key : Z;
  fc_offset : Z;
}.

(** Why a file is rejected ([FirmwareError::FwCfgFile]). *)
Inductive FileReason : Type := TooMany (count : nat) | NameLength | Duplicate | TooLarge (bytes : nat).
Inductive FileError : Type := FwCfgFile (name : list Z) (reason : FileReason).

(** ** Construction *)

Definition name_bad (name : list Z) : bool :=
  bool_decide (name = []) || (NAME_LEN <=? length name)%nat || bool_decide (0 ∈ name).

Definition dir_entry (size select : Z) (name : list Z) : list Z :=
  be_bytes 4 size ++ be_bytes 2 select ++ [0; 0] ++ (name ++ replicate (NAME_LEN - length name) 0).

Fixpoint add_files (index : nat) (files : list (list Z * list Z)) (items : list Item) (dir : list Z)
  : result FileError (list Item * list Z) :=
  match files with
  | [] => Ok (items, dir)
  | (name, bytes) :: files' =>
      if name_bad name then Err (FwCfgFile name NameLength)
      else if existsb (fun '(_, existing, _) => bool_decide (existing = name)) items
      then Err (FwCfgFile name Duplicate)
      else if negb (Z.of_nat (length bytes) <? 2 ^ 32) then Err (FwCfgFile name (TooLarge (length bytes)))
      else
        let size := Z.of_nat (length bytes) in
        let select := add_w 16 FIRST_FILE (wrap 16 (Z.of_nat index)) in
        add_files (S index) files' (items ++ [(select, name, bytes)]) (dir ++ dir_entry size select name)
  end.

Definition fw_new (files : list (list Z * list Z)) : result FileError FwCfg :=
  if MAX_FILES <? Z.of_nat (length files) then Err (FwCfgFile [0x2a] (TooMany (length files)))
  else
    let dir := be_bytes 4 (wrap 32 (Z.of_nat (length files))) in
    let items := [(ITEM_SIGNATURE, SIGNATURE_NAME, QEMU);
                  (ITEM_FEATURES, FEATURES_NAME, le_bytes 4 FEATURE_TRADITIONAL)] in
    '(items, dir) ← add_files 0 files items dir;
    Ok {| fc_items := items ++ [(ITEM_FILE_DIR, FILE_DIR_NAME, dir)];
          fc_selected := None; fc_key := 0; fc_offset := 0 |}.

Definition file_names (d : FwCfg) : list (list Z) :=
  omap (fun '(key, name, _) => if FIRST_FILE <=? key then Some name else None) (fc_items d).

(** ** Registers *)

Definition select (d : FwCfg) (key : Z) : FwCfg :=
  {| fc_items := fc_items d;
     fc_selected := position (fun '(item, _, _) => item =? key) (fc_items d);
     fc_key := key; fc_offset := 0 |}.

Definition with_offset (d : FwCfg) (offset : Z) : FwCfg :=
  {| fc_items := fc_items d; fc_selected := fc_selected d; fc_key := fc_key d; fc_offset := offset |}.

(** The bytes [read_data] copies: at most [want] of the selected item. *)
Definition item_bytes (d : FwCfg) (want : Z) : option (list Z) :=
  match fc_selected d with
  | None => Some []
  | Some index =>
      '(_, _, item) ← fc_items d !! index;
      let start := Z.min (fc_offset d) (Z.of_nat (length item)) in
      let e := Z.min (start + want) (Z.of_nat (length item)) in
      Some (take (Z.to_nat (e - start)) (drop (Z.to_nat start) item))
  end.

Definition read_data (d : FwCfg) (size : Z) : option (Z * FwCfg) :=
  let want := Z.min size 8 in
  bytes ← item_bytes d want;
  Some (of_le (bytes ++ replicate (8 - length bytes) 0),
        with_offset d (saturating_add 64 (fc_offset d) want)).

Definition data_size (size : Z) : bool := (size =? 1) || (size =? 2) || (size =? 4) || (size =? 8).

Definition fw_read (d : FwCfg) (offset size : Z) : option (Z * FwCfg) :=
  if (offset =? DATA) && data_size size then read_data d size else Some (0, d).

(** [u16::swap_bytes]. *)
Definition swap_bytes (v : Z) : Z := Z.lor (wrap 16 (Z.shiftl v 8)) (Z.shiftr v 8).

Definition fw_write (d : FwCfg) (offset size val : Z) : FwCfg :=
  if (offset =? SELECTOR) && (size =? 2) then select d (swap_bytes (wrap 16 val)) else d.

#[export] Instance FwCfg_MmioDevice : MmioDevice FwCfg := {|
  dev_name := fun _ => "fw-cfg"%string;
  dev_read := fun d offset size => default (0, d) (fw_read d offset size);
  dev_write := fw_write;
  dev_try_kick := fun _ _ _ => None;
|}.

(** ** What a guest does *)

(** A run of data loads, and the bytes they deliver in memory order. *)
Fixpoint loads (d : FwCfg) (sizes : list Z) : option (list Z * FwCfg) :=
  match sizes with
  | [] => Some ([], d)
  | s :: sizes' =>
      '(v, d) ← fw_read d DATA s;
      '(bs, d) ← loads d sizes';
      Some (take (Z.to_nat s) (le_bytes 8 v) ++ bs, d)
  end.

(** Select [key] with a big-endian store, then load. *)
Definition fetch (d : FwCfg) (key : Z) (sizes : list Z) : option (list Z * FwCfg) :=
  loads (fw_write d SELECTOR 2 (swap_bytes key)) sizes.

(** The firmware's view of a directory entry: size, selector, name field up to
    its first NUL. *)
Fixpoint until_nul (bs : list Z) : list Z :=
  match bs with [] => [] | b :: bs' => if b =? 0 then [] else b :: until_nul bs' end.

Definition parse_entry (bs : list Z) : Z * Z * list Z :=
  (of_be (take 4 bs), of_be (take 2 (drop 4 bs)), until_nul (take NAME_LEN (drop 8 bs))).

Fixpoint parse_entries (n : nat) (bs : list Z) : list (Z * Z * list Z) :=
  match n with O => [] | S n' => parse_entry bs :: parse_entries n' (drop 64 bs) end.

Definition parse_dir (bs : list Z) : list (Z * Z * list Z) :=
  parse_entries (Z.to_nat (of_be (take 4 bs))) (drop 4 bs).

(** ** Lemmas *)

Lemma until_nul_name name k :
  0 ∉ name -> (0 < k)%nat -> until_nul (name ++ replicate k 0) = name.
Proof.
  intros Hn Hk. induction name as [|b name IH]; cbn [until_nul app].
  - destruct k; [lia|done].
  - apply not_elem_of_cons in Hn as [Hb Hn]. rewrite (proj2 (Z.eqb_neq b 0)) by done. by rewrite IH.
Qed.

(** A rejected or accepted name. *)
Lemma name_ok name : name_bad name = false -> name <> [] /\ (length name < NAME_LEN)%nat /\ 0 ∉ name.
Proof.
  unfold name_bad. rewrite !orb_false_iff. intros [[H1 H2] H3].
  apply bool_decide_eq_false in H1. apply bool_decide_eq_false in H3. apply Nat.leb_gt in H2. done.
Qed.

Lemma length_dir_entry size sel name :
  (length name < NAME_LEN)%nat -> length (dir_entry size sel name) = 64%nat.
Proof.
  intros H. unfold dir_entry. rewrite !length_app, !length_be_bytes, length_replicate. unfold NAME_LEN in *. simpl. lia.
Qed.

Lemma parse_dir_entry size sel name rest :
  fits 32 size -> fits 16 sel -> (length name < NAME_LEN)%nat -> 0 ∉ name ->
  parse_entry (dir_entry size sel name ++ rest) = (size, sel, name) /\
  drop 64 (dir_entry size sel name ++ rest) = rest.
Proof.
  intros Hs Hsel Hn H0. split.
  - unfold parse_entry, dir_entry. rewrite <- !app_assoc.
    rewrite (take_app_length' (be_bytes 4 size)) by (by rewrite length_be_bytes).
    rewrite (drop_app_length' (be_bytes 4 size)) by (by rewrite length_be_bytes).
    rewrite (take_app_length' (be_bytes 2 sel)) by (by rewrite length_be_bytes).
    rewrite !of_be_be_bytes by done. f_equal.
    replace (be_bytes 4 size ++ be_bytes 2 sel ++ [0; 0] ++ name ++ replicate (NAME_LEN - length name) 0 ++ rest)
      with ((be_bytes 4 size ++ be_bytes 2 sel ++ [0; 0]) ++ (name ++ replicate (NAME_LEN - length name) 0) ++ rest)
      by (by rewrite <- !app_assoc).
    rewrite drop_app_length' by (rewrite !length_app, !length_be_bytes; done).
    rewrite take_app_length' by (rewrite length_app, length_replicate; lia).
    apply until_nul_name; [done|lia].
  - by rewrite drop_app_length' by (by rewrite length_dir_entry).
Qed.

(** *** The stream of an item *)

Definition contents (d : FwCfg) : list Z :=
  match fc_selected d with
  | Some index => match fc_items d !! index with Some (_, _, item) => item | None => [] end
  | None => []
  end.

(** The selected index exists, and the position has not wrapped. *)
Definition stream_ok (d : FwCfg) : Prop :=
  0 <= fc_offset d /\ match fc_selected d with Some i => is_Some (fc_items d !! i) | None => True end.

(** Bytes [from .. from + n) of an item padded with zeros. *)
Definition padded (item : list Z) (from n : nat) : list Z :=
  take n (drop from item ++ replicate n 0).

Lemma padded_split item from n m : padded item from (n + m) = padded item from n ++ padded item (from + n) m.
Proof.
  unfold padded. apply list_eq. intros i. rewrite <- drop_drop. set (t := drop from item).
  assert (P : forall (l : list Z) k j, (j < k)%nat -> (take k (l ++ replicate k 0)) !! j = Some (default 0 (l !! j))).
  { intros l k j Hj. rewrite lookup_take_lt by done. destruct (decide (j < length l)%nat).
    - rewrite lookup_app_l by done. destruct (lookup_lt_is_Some_2 l j) as [x ->]; done.
    - rewrite lookup_app_r by lia. rewrite lookup_replicate_2 by lia. by rewrite (lookup_ge_None_2 l) by lia. }
  assert (L : forall (l : list Z) k, length (take k (l ++ replicate k 0)) = k)
    by (intros; rewrite length_take, length_app, length_replicate; lia).
  destruct (decide (i < n + m)%nat).
  - rewrite P by done. destruct (decide (i < n)%nat).
    + rewrite lookup_app_l by (rewrite L; lia). by rewrite P.
    + rewrite lookup_app_r by (rewrite L; lia). rewrite L, P by lia. rewrite lookup_drop.
      by replace (n + (i - n))%nat with i by lia.
  - rewrite !lookup_ge_None_2; [done|rewrite length_app, !L; lia|rewrite L; lia].
Qed.

Lemma size_cases size : data_size size = true -> size = 1 \/ size = 2 \/ size = 4 \/ size = 8.
Proof. unfold data_size. rewrite !orb_true_iff. lia. Qed.

(** One load delivers the next bytes and advances. *)
Lemma load_one d size :
  stream_ok d -> Forall (fits 8) (contents d) -> data_size size = true -> fc_offset d + size < 2 ^ 64 ->
  exists v, fw_read d DATA size = Some (v, with_offset d (fc_offset d + size)) /\
    take (Z.to_nat size) (le_bytes 8 v) = padded (contents d) (Z.to_nat (fc_offset d)) (Z.to_nat size).
Proof.
  intros [H0 Hsel] Hb Hs Hlt. pose proof (size_cases size Hs) as Hsz. unfold fw_read. rewrite Hs. cbn [andb Z.eqb DATA].
  change (0 =? 0) with true. cbn [andb]. unfold read_data. replace (Z.min size 8) with size by lia.
  assert (E : item_bytes d size = Some (take (Z.to_nat size) (drop (Z.to_nat (fc_offset d)) (contents d)))).
  { unfold item_bytes, contents in *. destruct (fc_selected d) as [i|]; [|by rewrite drop_nil, take_nil].
    destruct Hsel as [[[k nm] item] Hi]. rewrite Hi. cbn [mbind option_bind]. f_equal.
    destruct (decide (fc_offset d <= Z.of_nat (length item))).
    - rewrite (Z.min_l (fc_offset d)) by lia. destruct (decide (fc_offset d + size <= Z.of_nat (length item))).
      + rewrite Z.min_l by lia. f_equal. lia.
      + rewrite Z.min_r by lia. rewrite !take_ge; [done|rewrite length_drop; lia..].
    - rewrite (Z.min_r (fc_offset d)) by lia. rewrite !drop_ge by lia. by rewrite !take_nil. }
  rewrite E. cbn [mbind option_bind]. set (src := take _ _). eexists. split; [do 2 f_equal|].
  { unfold with_offset. f_equal. unfold saturating_add. lia. }
  assert (Ls : (length src <= 8)%nat) by (unfold src; rewrite length_take; lia).
  assert (Hsrc : Forall (fits 8) (src ++ replicate (8 - length src) 0)).
  { apply Forall_app_2; [apply Forall_take, Forall_drop, Hb|by apply Forall_replicate]. }
  assert (L8 : length (src ++ replicate (8 - length src) 0) = 8%nat) by (rewrite length_app, length_replicate; lia).
  rewrite <- L8 at 1. rewrite le_bytes_of_le by done. unfold padded.
  set (t := drop (Z.to_nat (fc_offset d)) (contents d)) in *. unfold src.
  destruct (decide (length t < Z.to_nat size)%nat).
  - rewrite (take_ge t) by lia. rewrite !take_app, !take_ge by lia. f_equal. rewrite !take_replicate. f_equal. lia.
  - rewrite take_app_le by (rewrite length_take; lia). rewrite take_take, Nat.min_id.
    by rewrite take_app_le by lia.
Qed.

Definition sum_sizes (sizes : list Z) : Z := foldr Z.add 0 sizes.

Lemma loads_stream d sizes :
  stream_ok d -> Forall (fits 8) (contents d) -> Forall (fun s => data_size s = true) sizes ->
  fc_offset d + sum_sizes sizes < 2 ^ 64 ->
  exists d', loads d sizes = Some (padded (contents d) (Z.to_nat (fc_offset d)) (Z.to_nat (sum_sizes sizes)), d') /\
    fc_items d' = fc_items d.
Proof.
  intros Hok Hb Hs. revert d Hok Hb. induction Hs as [|s sizes Hs Hss IH]; intros d Hok Hb Hlt.
  { exists d. done. }
  cbn [sum_sizes foldr] in Hlt. fold (sum_sizes sizes) in Hlt. pose proof (size_cases s Hs).
  assert (Hnn : 0 <= sum_sizes sizes).
  { clear -Hss. induction Hss as [|x l Hx _ IH]; cbn; [lia|]. apply size_cases in Hx. fold (sum_sizes l). lia. }
  destruct (load_one d s Hok Hb Hs) as (v & E & Hv); [lia|]. cbn [loads]. rewrite E. cbn [mbind option_bind].
  destruct (IH (with_offset d (fc_offset d + s))) as (d' & E' & Hi).
  - destruct Hok as [H0 H1]. split; cbn; [lia|done].
  - done.
  - cbn. lia.
  - rewrite E'. cbn [mbind option_bind]. exists d'. split; [|done]. do 2 f_equal. rewrite Hv.
    change (contents (with_offset d (fc_offset d + s))) with (contents d). cbn [with_offset fc_offset sum_sizes foldr].
    fold (sum_sizes sizes). destruct Hok as [H0 _].
    rewrite (Z2Nat.inj_add s), (Z2Nat.inj_add (fc_offset d)) by lia. symmetry. apply padded_split.
Qed.

Lemma swap_swap v : fits 16 v -> swap_bytes (wrap 16 (swap_bytes v)) = v /\ fits 16 (swap_bytes v).
Proof.
  intros Hv. assert (B : forall x, fits 16 x -> fits 16 (swap_bytes x)).
  { intros x [H1 H2]. unfold swap_bytes. apply lor_fits; [done|by apply wrap_fits|].
    rewrite Z.shiftr_div_pow2 by done. split; [by apply Z.div_pos|].
    apply Z.div_lt_upper_bound; [done|]. lia. }
  split; [|by apply B]. rewrite wrap_small by by apply B. unfold swap_bytes. unfold fits in Hv.
  assert (E : forall x, 0 <= x < 2 ^ 16 -> Z.lor (wrap 16 (Z.shiftl x 8)) (Z.shiftr x 8) = x mod 256 * 256 + x / 256).
  { intros x Hx. rewrite Z.shiftl_mul_pow2, Z.shiftr_div_pow2 by done. change (2 ^ 8) with 256. unfold wrap.
    replace (x * 256 mod 2 ^ 16) with (Z.shiftl (x mod 256) 8).
    - rewrite lor_shiftl_add; [done|done|]. split; [apply Z.div_pos; lia|]. apply Z.div_lt_upper_bound; lia.
    - rewrite Z.shiftl_mul_pow2 by done. change (2 ^ 16) with (256 * 256).
      rewrite Z.mul_mod_distr_r by done. done. }
  rewrite (E v) by done. pose proof (Z.mod_pos_bound v 256 ltac:(done)). pose proof (Z.div_mod v 256 ltac:(done)).
  assert (0 <= v / 256 < 256) by (split; [apply Z.div_pos; lia|apply Z.div_lt_upper_bound; lia]).
  rewrite E by lia. rewrite (Z.add_comm (v mod 256 * 256)), Z.mod_add, Z.div_add, (Z.div_small (v / 256)), (Z.mod_small (v / 256)) by lia. lia.
Qed.

(** *** Construction *)

Definition selector (i : nat) : Z := FIRST_FILE + Z.of_nat i.

Fixpoint file_items (i : nat) (files : list (list Z * list Z)) : list Item :=
  match files with [] => [] | (name, bytes) :: fs => (selector i, name, bytes) :: file_items (S i) fs end.

Fixpoint file_dir (i : nat) (files : list (list Z * list Z)) : list Z :=
  match files with
  | [] => []
  | (name, bytes) :: fs => dir_entry (Z.of_nat (length bytes)) (selector i) name ++ file_dir (S i) fs
  end.

(** A file that may be offered beside items named [taken]. *)
Definition file_ok (f : list Z * list Z) : Prop :=
  name_bad f.1 = false /\ Z.of_nat (length f.2) < 2 ^ 32.

Definition acceptable (taken : list (list Z)) (files : list (list Z * list Z)) : Prop :=
  Forall file_ok files /\ NoDup (fst <$> files) /\ Forall (fun f => f.1 ∉ taken) files.

Definition item_names (items : list Item) : list (list Z) := (fun '(_, name, _) => name) <$> items.
Definition item_keys (items : list Item) : list Z := (fun '(key, _, _) => key) <$> items.

Lemma name_taken name (items : list Item) :
  existsb (fun '(_, existing, _) => bool_decide (existing = name)) items = true <-> name ∈ item_names items.
Proof.
  unfold item_names. induction items as [|[[k nm] b] items IH]; cbn [existsb fmap list_fmap].
  - split; [done|]. intros H. by apply not_elem_of_nil in H.
  - rewrite orb_true_iff, IH, elem_of_cons, bool_decide_eq_true. naive_solver.
Qed.

Lemma selector_eq i : Z.of_nat i < MAX_FILES -> add_w 16 FIRST_FILE (wrap 16 (Z.of_nat i)) = selector i.
Proof.
  unfold MAX_FILES, selector, add_w, FIRST_FILE. intros Hi. rewrite (wrap_small 16 (Z.of_nat i)) by (split; lia).
  apply wrap_small. split; lia.
Qed.

Lemma acceptable_cons taken name bytes files :
  acceptable taken ((name, bytes) :: files) <->
  name_bad name = false /\ Z.of_nat (length bytes) < 2 ^ 32 /\ name ∉ taken /\ acceptable (taken ++ [name]) files.
Proof.
  unfold acceptable, file_ok. rewrite !Forall_cons_iff. cbn [fmap list_fmap fst snd].
  rewrite list.NoDup_cons. rewrite !list.Forall_forall. setoid_rewrite elem_of_app.
  setoid_rewrite list_elem_of_singleton. setoid_rewrite list_elem_of_fmap. split.
  - intros ((H1 & H2) & (H3 & H4) & H5 & H6). split_and!; naive_solver.
  - intros (H1 & H2 & H3 & H4 & H5 & H6). split_and!; naive_solver.
Qed.

Lemma add_files_spec i files items dir :
  Z.of_nat (i + length files) <= MAX_FILES ->
  match add_files i files items dir with
  | Ok r => acceptable (item_names items) files /\ r = (items ++ file_items i files, dir ++ file_dir i files)
  | Err _ => ~ acceptable (item_names items) files
  end.
Proof.
  revert i items dir. induction files as [|[name bytes] files IH]; intros i items dir Hi; cbn [add_files].
  { rewrite !app_nil_r. split; [|done]. split_and!; constructor. }
  destruct (name_bad name) eqn:Hn; [intros Ha%acceptable_cons; by destruct Ha as [? _]; congruence|].
  destruct (existsb _ items) eqn:Hx; [apply name_taken in Hx; intros Ha%acceptable_cons; by destruct Ha as (_ & _ & ? & _)|].
  assert (Hx' : name ∉ item_names items) by (rewrite <- name_taken, Hx; done).
  destruct (Z.ltb_spec (Z.of_nat (length bytes)) (2 ^ 32)); cbn [negb]; [|intros Ha%acceptable_cons; lia].
  cbn [length] in Hi. rewrite selector_eq by lia.
  specialize (IH (S i) (items ++ [(selector i, name, bytes)])
    (dir ++ dir_entry (Z.of_nat (length bytes)) (selector i) name) ltac:(lia)).
  assert (E : item_names (items ++ [(selector i, name, bytes)]) = item_names items ++ [name])
    by (unfold item_names; by rewrite fmap_app).
  rewrite E in IH. destruct (add_files _ _ _ _) as [r|e].
  - destruct IH as [Ha ->]. split; [by apply acceptable_cons|]. cbn [file_items file_dir]. by rewrite <- !app_assoc.
  - intros Ha%acceptable_cons. apply IH, Ha.
Qed.

Definition builtin : list (list Z) := [SIGNATURE_NAME; FEATURES_NAME].

(** The items of a device built from [files]. *)
Definition all_items (files : list (list Z * list Z)) : list Item :=
  [(ITEM_SIGNATURE, SIGNATURE_NAME, QEMU); (ITEM_FEATURES, FEATURES_NAME, le_bytes 4 FEATURE_TRADITIONAL)]
  ++ file_items 0 files
  ++ [(ITEM_FILE_DIR, FILE_DIR_NAME, be_bytes 4 (Z.of_nat (length files)) ++ file_dir 0 files)].

Lemma fw_new_cases files :
  match fw_new files with
  | Ok d => Z.of_nat (length files) <= MAX_FILES /\ acceptable builtin files /\ fc_items d = all_items files /\
            fc_selected d = None /\ fc_offset d = 0
  | Err _ => ~ (Z.of_nat (length files) <= MAX_FILES /\ acceptable builtin files)
  end.
Proof.
  unfold fw_new. destruct (Z.ltb_spec MAX_FILES (Z.of_nat (length files))); [lia|].
  pose proof (add_files_spec 0 files
    [(ITEM_SIGNATURE, SIGNATURE_NAME, QEMU); (ITEM_FEATURES, FEATURES_NAME, le_bytes 4 FEATURE_TRADITIONAL)]
    (be_bytes 4 (wrap 32 (Z.of_nat (length files)))) ltac:(done)) as S.
  unfold MAX_FILES in *. rewrite (wrap_small 32) in * by (split; lia).
  destruct (add_files _ _ _ _) as [r|e]; cbn [mbind result_bind].
  - destruct S as [Ha ->]. cbn [fc_items fc_selected fc_offset]. split; [done|]. split; [exact Ha|].
    unfold all_items. by rewrite <- app_assoc.
  - intros [_ Ha]. by apply S.
Qed.

Lemma file_items_lookup i files k :
  file_items i files !! k = (fun f => (selector (i + k), f.1, f.2)) <$> files !! k.
Proof.
  revert i k. induction files as [|[n b] files IH]; intros i [|k]; cbn [file_items lookup list_lookup]; try done.
  - by rewrite Nat.add_0_r.
  - etransitivity; [apply IH|]. by replace (S i + k)%nat with (i + S k)%nat by lia.
Qed.

Lemma file_keys_range i files k : k ∈ item_keys (file_items i files) -> selector i <= k.
Proof.
  unfold item_keys. intros ([[k' n] b] & -> & Hin)%list_elem_of_fmap.
  apply list_elem_of_lookup_1 in Hin as [j Hj]. rewrite file_items_lookup in Hj.
  destruct (files !! j); [|done]. injection Hj as <- _ _. unfold selector. lia.
Qed.

Lemma file_keys_nodup i files : NoDup (item_keys (file_items i files)).
Proof.
  revert i. induction files as [|[n b] files IH]; intros i; [constructor|]. cbn [file_items item_keys fmap list_fmap].
  apply list.NoDup_cons. split; [|apply IH]. intros H%file_keys_range. unfold selector in H. lia.
Qed.

Lemma all_keys_nodup files : NoDup (item_keys (all_items files)).
Proof.
  unfold all_items, item_keys. rewrite !fmap_app. cbn [fmap list_fmap].
  assert (R : forall k, k ∈ item_keys (file_items 0 files) -> 0x20 <= k) by (intros k Hk; by apply file_keys_range in Hk).
  apply list.NoDup_app. split_and!.
  - apply (bool_decide_unpack _). vm_compute. exact I.
  - intros x Hx Hin. apply elem_of_app in Hin as [Hin|Hin].
    + apply R in Hin. revert Hx. rewrite !elem_of_cons, elem_of_nil. unfold ITEM_SIGNATURE, ITEM_FEATURES. lia.
    + revert Hx Hin. rewrite !elem_of_cons, !elem_of_nil. unfold ITEM_SIGNATURE, ITEM_FEATURES, ITEM_FILE_DIR. lia.
  - apply list.NoDup_app. split_and!; [apply file_keys_nodup| |apply list.NoDup_singleton].
    intros x Hx%R Hin. apply list_elem_of_singleton in Hin. unfold ITEM_FILE_DIR in Hin. lia.
Qed.

(** Selecting a key with a unique item rewinds that item. *)
Lemma position_key (items : list Item) j k n b :
  NoDup (item_keys items) -> items !! j = Some (k, n, b) ->
  position (fun '(item, _, _) => item =? k) items = Some j.
Proof.
  intros Hnd Hj. destruct (position _ items) as [i|] eqn:Hp.
  - apply position_Some in Hp as ([[k' n'] b'] & Hi & Hk & _). apply Z.eqb_eq in Hk as ->. f_equal.
    eapply (NoDup_lookup (item_keys items)); [done| |]; unfold item_keys; rewrite list_lookup_fmap.
    + by rewrite Hi.
    + by rewrite Hj.
  - apply position_None in Hp. rewrite list.Forall_forall in Hp.
    specialize (Hp _ (list_elem_of_lookup_2 _ _ _ Hj)). simpl in Hp. lia.
Qed.

Lemma fetch_item d j k n b sizes :
  NoDup (item_keys (fc_items d)) -> fc_items d !! j = Some (k, n, b) -> fits 16 k -> Forall (fits 8) b ->
  Forall (fun s => data_size s = true) sizes -> sum_sizes sizes < 2 ^ 64 ->
  exists d', fetch d k sizes = Some (padded b 0 (Z.to_nat (sum_sizes sizes)), d') /\ fc_items d' = fc_items d.
Proof.
  intros Hnd Hj Hk Hb Hs Hlt. unfold fetch, fw_write. rewrite !Z.eqb_refl. cbn [andb].
  destruct (swap_swap k Hk) as [-> _].
  pose proof (position_key _ _ _ _ _ Hnd Hj) as Hp.
  assert (Hc : contents (select d k) = b) by (unfold contents, select; cbn [fc_selected fc_items]; by rewrite Hp, Hj).
  destruct (loads_stream (select d k) sizes) as (d' & E & Hi).
  - split; [done|]. cbn [select fc_selected fc_items]. rewrite Hp. by rewrite Hj.
  - by rewrite Hc.
  - done.
  - done.
  - exists d'. rewrite E, Hc. done.
Qed.

Lemma parse_file_dir i files :
  Forall file_ok files -> Z.of_nat (i + length files) <= MAX_FILES ->
  parse_entries (length files) (file_dir i files) =
  imap (fun k f => (Z.of_nat (length f.2), selector (i + k), f.1)) files.
Proof.
  intros Hf. revert i. induction Hf as [|[n b] files [Hn Hb] _ IH]; intros i Hi; [done|].
  cbn [length fst snd] in *. cbn [parse_entries file_dir imap fst snd].
  apply name_ok in Hn as (_ & Hl & H0). unfold MAX_FILES in *.
  destruct (parse_dir_entry (Z.of_nat (length b)) (selector i) n (file_dir (S i) files)) as [-> ->];
    [unfold fits; lia|unfold fits, selector, FIRST_FILE; lia|done|done|].
  rewrite IH by lia. f_equal; [by rewrite Nat.add_0_r|]. apply imap_ext. intros k f _. unfold compose.
  do 2 f_equal. unfold selector. lia.
Qed.

Lemma file_dir_bytes i files : Forall file_ok files -> Forall (fun f => Forall (fits 8) f.1) files -> Forall (fits 8) (file_dir i files).
Proof.
  intros Hf Hn. revert i. induction Hn as [|[n b] files Hn _ IH]; intros i; [constructor|].
  apply Forall_cons_iff in Hf as [_ Hf]. cbn [file_dir]. apply Forall_app_2; [|by apply IH].
  unfold dir_entry. repeat apply Forall_app_2; try apply be_bytes_fits; try done.
  - by repeat (constructor; [done|]).
  - by apply Forall_replicate.
Qed.

Lemma file_dir_length i files : Forall file_ok files -> length (file_dir i files) = (64 * length files)%nat.
Proof.
  intros Hf. revert i. induction Hf as [|[n b] files [Hn _] _ IH]; intros i; [done|]. cbn [file_dir length fst] in *.
  apply name_ok in Hn as (_ & Hl & _). rewrite length_app, length_dir_entry, IH by done. lia.
Qed.

Lemma padded_exact item n : n = length item -> padded item 0 n = item.
Proof. intros ->. unfold padded. by rewrite drop_0, take_app_length. Qed.

(** Firmware can fetch every file it is offered: from any device state, the
    loads of the directory item (in any mix of 1, 2, 4 and 8 byte accesses)
    parse to the name, size and selector of every file, in order, and selecting
    a file and loading its size in any mix of accesses yields its contents. *)
Theorem fw_cfg_file_roundtrip (files : list (list Z * list Z)) (d0 d : FwCfg) (i : nat) name bytes sizes sizes' :
  fw_new files = Ok d0 -> fc_items d = fc_items d0 ->
  Forall (fun f => Forall (fits 8) f.1 /\ Forall (fits 8) f.2) files ->
  files !! i = Some (name, bytes) ->
  Forall (fun s => data_size s = true) sizes -> sum_sizes sizes = 4 + 64 * Z.of_nat (length files) ->
  Forall (fun s => data_size s = true) sizes' -> sum_sizes sizes' = Z.of_nat (length bytes) ->
  exists dir d1 d2, fetch d ITEM_FILE_DIR sizes = Some (dir, d1) /\
    parse_dir dir !! i = Some (Z.of_nat (length bytes), selector i, name) /\
    length (parse_dir dir) = length files /\
    fetch d1 (selector i) sizes' = Some (bytes, d2).
Proof.
  intros Hnew Hd Hbytes Hi Hs Hsum Hs' Hsum'. pose proof (fw_new_cases files) as N. rewrite Hnew in N.
  destruct N as (Hmax & (Hf & Hnd & _) & Hitems & _). rewrite Hitems in Hd.
  pose proof (lookup_lt_Some _ _ _ Hi) as Hil. unfold MAX_FILES in Hmax.
  assert (Hkeys : NoDup (item_keys (fc_items d))) by (rewrite Hd; apply all_keys_nodup).
  assert (Hfit : Forall (fun f => Forall (fits 8) f.1) files)
    by (eapply Forall_impl; [|exact Hbytes]; by intros f [? _]).
  set (dir := be_bytes 4 (Z.of_nat (length files)) ++ file_dir 0 files).
  assert (Ldir : length dir = (4 + 64 * length files)%nat)
    by (unfold dir; by rewrite length_app, length_be_bytes, file_dir_length).
  destruct (fetch_item d (2 + length (file_items 0 files)) ITEM_FILE_DIR FILE_DIR_NAME dir sizes) as (d1 & E1 & I1);
    try done.
  - rewrite Hd. unfold all_items. rewrite lookup_app_r by (simpl; lia). cbn [length].
    rewrite lookup_app_r by lia. by replace (2 + length (file_items 0 files) - 2 - length (file_items 0 files))%nat with 0%nat by lia.
  - apply Forall_app_2; [apply be_bytes_fits|by apply file_dir_bytes].
  - lia.
  - rewrite padded_exact in E1 by lia. exists dir, d1. unfold parse_dir.
    assert (E4 : of_be (take 4 dir) = Z.of_nat (length files)).
    { unfold dir. rewrite take_app_length' by (by rewrite length_be_bytes). apply of_be_be_bytes. unfold fits. lia. }
    rewrite E4, Nat2Z.id. unfold dir at 2 3. rewrite drop_app_length' by (by rewrite length_be_bytes).
    rewrite parse_file_dir by (done || lia).
    destruct (fetch_item d1 (2 + i) (selector i) name bytes sizes') as (d2 & E2 & _); try done.
    + by rewrite I1.
    + rewrite I1, Hd. unfold all_items. rewrite lookup_app_r by (simpl; lia). cbn [length].
      replace (2 + i - 2)%nat with i by lia. rewrite lookup_app_l.
      * by rewrite file_items_lookup, Hi.
      * eapply lookup_lt_Some. by rewrite file_items_lookup, Hi.
    + unfold fits, selector, FIRST_FILE. lia.
    + rewrite list.Forall_forall in Hbytes. by apply (Hbytes _ (list_elem_of_lookup_2 _ _ _ Hi)).
    + rewrite list.Forall_forall in Hf. destruct (Hf _ (list_elem_of_lookup_2 _ _ _ Hi)) as [_ Hl]. cbn in Hl. lia.
    + rewrite padded_exact in E2 by lia. exists d2. split; [done|].
      rewrite list_lookup_imap, Hi. split; [done|]. split; [apply length_imap|done].
Qed.

(** A set of files is accepted exactly when there are at most 4096 of them,
    every name has 1 to 55 bytes without NUL and is not one of the built-in
    items' names, names are distinct, and contents fit 32 bits; any other set
    is refused with an error. *)
Theorem fw_cfg_accepts (files : list (list Z * list Z)) :
  is_ok (fw_new files) = true <->
  Z.of_nat (length files) <= MAX_FILES /\
  Forall (fun f => f.1 <> [] /\ (length f.1 <= 55)%nat /\ 0 ∉ f.1 /\ Z.of_nat (length f.2) < 2 ^ 32) files /\
  NoDup (fst <$> files) /\ Forall (fun f => f.1 ∉ builtin) files.
Proof.
  assert (E : Forall file_ok files <->
    Forall (fun f => f.1 <> [] /\ (length f.1 <= 55)%nat /\ 0 ∉ f.1 /\ Z.of_nat (length f.2) < 2 ^ 32) files).
  { rewrite !list.Forall_forall. unfold file_ok, name_bad, NAME_LEN.
    split; intros H f Hf; specialize (H f Hf).
    - destruct H as [H ?]. apply name_ok in H as (? & Hl & ?). unfold NAME_LEN in Hl. split_and!; (done || lia).
    - destruct H as (H1 & H2 & H3 & H4). split; [|done]. rewrite !orb_false_iff.
      split; [split; [by apply bool_decide_eq_false|apply Nat.leb_gt; lia]|by apply bool_decide_eq_false]. }
  rewrite <- E. pose proof (fw_new_cases files) as N. unfold acceptable in N. destruct (fw_new files) as [d|e].
  - split; [|done]. intros _. destruct N as (? & (? & ? & ?) & _). done.
  - split; [done|]. intros H. exfalso. apply N. naive_solver.
Qed.

(** ** A device with two files *)

Definition demo_files : list (list Z * list Z) :=
  [(ascii_bytes "etc/table-loader", [1; 2; 3; 4; 5]); (ascii_bytes "bootorder", [0x2f; 0])].

Lemma fw_cfg_file_roundtrip_witness :
  exists d0 dir d1 d2, fw_new demo_files = Ok d0 /\ fetch d0 ITEM_FILE_DIR (4 :: replicate 16 8) = Some (dir, d1) /\
    parse_dir dir !! 0%nat = Some (5, 0x20, ascii_bytes "etc/table-loader") /\
    fetch d1 0x20 [4; 1] = Some ([1; 2; 3; 4; 5], d2).
Proof.
  destruct (fw_new demo_files) as [d0|e] eqn:E0; [|exfalso; vm_compute in E0; discriminate E0].
  destruct (fw_cfg_file_roundtrip demo_files d0 d0 0 (ascii_bytes "etc/table-loader") [1; 2; 3; 4; 5]
    (4 :: replicate 16 8) [4; 1] E0 eq_refl) as (dir & d1 & d2 & H1 & H2 & _ & H3).
  - apply (bool_decide_unpack _). vm_compute. exact I.
  - reflexivity.
  - apply (bool_decide_unpack _). vm_compute. exact I.
  - reflexivity.
  - apply (bool_decide_unpack _). vm_compute. exact I.
  - reflexivity.
  - exists d0, dir, d1, d2. split; [reflexivity|]. split; [exact H1|]. split; [exact H2|exact H3].
Defined.
