(* ===== verification/Rtc.v ===== *)
(** * The PL031 real-time clock

    Model of [ternvale-vmm/src/rtc.rs].  The clock is a closure over host time:
    here it is the function from the number of the call to what that call
    returns, and the device counts its calls, so that two readings in one access
    may differ as they may in the code.  An out-of-range index into the ID table
    is [None]; [rtc_access_typed] shows it cannot happen, and
    [rtc_alarm_rings_once] that the alarm is raised on time and acknowledged. *)

From stdpp Require Import strings.
From S2P Require Import Prelude MmioBus.

Definition PL031_REG_SIZE : Z := 0x1000.
Definition DR : Z := 0x00.
Definition MR : Z := 0x04.
Definition LR : Z := 0x08.
Definition CR : Z := 0x0c.
Definition IMSC : Z := 0x10.
Definition RIS : Z := 0x14.
Definition MIS : Z := 0x18.
Definition ICR : Z := 0x1c.
Definition ID_BASE : Z := 0xfe0.
Definition IDS : list Z := [0x31; 0x10; 0x14; 0x00; 0x0d; 0xf0; 0x05; 0xb1].

Record Pl031 := {
  r_calls : nat;
  r_offset : Z;
  r_load : Z;
  r_alarm : Z;
  r_armed : bool;
  r_mask : Z;
  r_raw : Z;
}.

(** [as i64] of a 64-bit value, and wrapping [i64] arithmetic. *)
Definition as_i64 (x : Z) : Z := let m := x mod 2 ^ 64 in if m <? 2 ^ 63 then m else m - 2 ^ 64.

Section clock.
Variable clock : nat -> Z.

Definition with_clock (calls : nat) : Pl031 :=
  {| r_calls := calls; r_offset := 0; r_load := 0; r_alarm := 0; r_armed := false; r_mask := 0; r_raw := 0 |}.

(** One call of the clock closure. *)
Definition tick (d : Pl031) : Z * Pl031 :=
  (clock (r_calls d),
   {| r_calls := S (r_calls d); r_offset := r_offset d; r_load := r_load d; r_alarm := r_alarm d;
      r_armed := r_armed d; r_mask := r_mask d; r_raw := r_raw d |}).

Definition now (d : Pl031) : Z * Pl031 :=
  let '(c, d) := tick d in (wrap 32 (as_i64 (as_i64 c + r_offset d)), d).

Definition set_alarm_state (d : Pl031) (armed : bool) (raw : Z) : Pl031 :=
  {| r_calls := r_calls d; r_offset := r_offset d; r_load := r_load d; r_alarm := r_alarm d;
     r_armed := armed; r_mask := r_mask d; r_raw := raw |}.

Definition latch_alarm (d : Pl031) : Pl031 :=
  if r_armed d then
    let '(t, d) := now d in
    if r_alarm d <=? t then set_alarm_state d false (Z.lor (r_raw d) 1) else d
  else d.

(** The register's word, or [None] for an unknown one; the outer [None] is a
    panic. *)
Definition register (d : Pl031) (reg : Z) : option (option Z * Pl031) :=
  let d := latch_alarm d in
  if reg =? DR then let '(t, d) := now d in Some (Some t, d)
  else if reg =? MR then Some (Some (r_alarm d), d)
  else if reg =? LR then Some (Some (r_load d), d)
  else if reg =? CR then Some (Some 1, d)
  else if reg =? IMSC then Some (Some (r_mask d), d)
  else if reg =? RIS then Some (Some (r_raw d), d)
  else if reg =? MIS then Some (Some (Z.land (r_raw d) (r_mask d)), d)
  else if (ID_BASE <=? reg) && (reg <=? 0xffc) then
    id ← IDS !! Z.to_nat ((reg - ID_BASE) / 4); Some (Some id, d)
  else Some (None, d).

Definition rtc_read (d : Pl031) (offset size : Z) : option (Z * Pl031) :=
  let reg := Z.land offset (not_w 64 3) in
  '(word, d) ← register d reg;
  match word with
  | None => Some (0, d)
  | Some word =>
      let lane := Z.land offset 3 * 8 in
      let mask := if 4 <=? size then 2 ^ 32 - 1 else Z.shiftl 1 (size * 8) - 1 in
      Some (Z.land (Z.shiftr word lane) mask, d)
  end.

Definition write_reg (d : Pl031) (offset value : Z) : Pl031 :=
  if offset =? LR then
    let '(c, d) := tick d in
    {| r_calls := r_calls d; r_offset := as_i64 (value - as_i64 c); r_load := value; r_alarm := r_alarm d;
       r_armed := r_armed d; r_mask := r_mask d; r_raw := r_raw d |}
  else if offset =? MR then
    {| r_calls := r_calls d; r_offset := r_offset d; r_load := r_load d; r_alarm := value;
       r_armed := true; r_mask := r_mask d; r_raw := r_raw d |}
  else if offset =? IMSC then
    {| r_calls := r_calls d; r_offset := r_offset d; r_load := r_load d; r_alarm := r_alarm d;
       r_armed := r_armed d; r_mask := Z.land value 1; r_raw := r_raw d |}
  else if offset =? ICR then
    set_alarm_state d (r_armed d) (Z.land (r_raw d) (not_w 32 (Z.land value 1)))
  else d.

Definition rtc_write (d : Pl031) (offset size val : Z) : Pl031 :=
  latch_alarm (write_reg d offset (wrap 32 val)).

#[export] Instance Pl031_MmioDevice : MmioDevice Pl031 := {|
  dev_name := fun _ => "pl031"%string;
  dev_read := fun d offset size => default (0, d) (rtc_read d offset size);
  dev_write := rtc_write;
  dev_try_kick := fun _ _ _ => None;
|}.

(** ** Types *)

Record rtc_ok (d : Pl031) : Prop := {
  rk_offset : - 2 ^ 63 <= r_offset d < 2 ^ 63;
  rk_load : fits 32 (r_load d);
  rk_alarm : fits 32 (r_alarm d);
  rk_mask : r_mask d = 0 \/ r_mask d = 1;
  rk_raw : r_raw d = 0 \/ r_raw d = 1;
}.

Lemma as_i64_range x : - 2 ^ 63 <= as_i64 x < 2 ^ 63.
Proof. unfold as_i64. pose proof (Z.mod_pos_bound x (2 ^ 64)). zbool; lia. Qed.

Lemma now_ok d : rtc_ok d -> fits 32 (fst (now d)) /\ rtc_ok (snd (now d)).
Proof. intros [H1 H2 H3 H4 H5]. split; [by apply wrap_fits|]. by split. Qed.

Lemma latch_alarm_ok d : rtc_ok d -> rtc_ok (latch_alarm d).
Proof.
  intros Hd. unfold latch_alarm. destruct (r_armed d); [|done]. destruct (now_ok d Hd) as [_ Hn].
  destruct (now d) as [t d']. cbn [snd] in Hn. destruct (_ <=? _); [|done]. destruct Hn as [H1 H2 H3 H4 H5].
  split; cbn; try done. right. destruct H5 as [-> | ->]; done.
Qed.

Lemma rtc_write_reg_ok d off v : fits 32 v -> rtc_ok d -> rtc_ok (write_reg d off v).
Proof.
  intros Hv Hd. pose proof Hd as [H1 H2 H3 H4 H5]. unfold write_reg.
  destruct (off =? LR); [split; cbn; try done; apply as_i64_range|].
  destruct (off =? MR); [by split|]. destruct (off =? IMSC).
  { split; cbn; try done. pose proof (land_low_bound v 1 1 ltac:(done) ltac:(done)). lia. }
  destruct (off =? ICR); [|done]. split; cbn; try done.
  destruct H5 as [-> | ->]; [left; apply Z.land_0_l|].
  rewrite Z.land_comm, (land_low _ 1) by done.
  pose proof (Z.mod_pos_bound (not_w 32 (Z.land v 1)) (2 ^ 1)). lia.
Qed.

(** An aligned register offset in the ID block names one of the eight bytes. *)
Lemma id_index reg : ID_BASE <= reg <= 0xffc -> exists id, IDS !! Z.to_nat ((reg - ID_BASE) / 4) = Some id /\ fits 8 id.
Proof.
  intros H. unfold ID_BASE in *. assert (0 <= (reg - 0xfe0) / 4 < 8).
  { split; [apply Z.div_pos; lia|apply Z.div_lt_upper_bound; lia]. }
  assert (Hall : Forall (fun i => exists id, IDS !! i = Some id /\ fits 8 id) (seq 0 8)).
  { repeat (constructor; [by eexists|]). constructor. }
  rewrite list.Forall_forall in Hall. apply Hall, elem_of_seq. lia.
Qed.

Lemma bit_fits x : x = 0 \/ x = 1 -> fits 32 x.
Proof. intros [-> | ->]; done. Qed.

Lemma register_ok d reg :
  rtc_ok d -> exists w d', register d reg = Some (w, d') /\ rtc_ok d' /\
    match w with Some v => fits 32 v | None => True end.
Proof.
  intros Hd. apply latch_alarm_ok in Hd. unfold register. pose proof Hd as [H1 H2 H3 H4 H5].
  destruct (reg =? DR). { destruct (now_ok _ Hd) as [Hf Hn]. destruct (now _) as [t d'].
    do 2 eexists. split; [reflexivity|done]. }
  destruct (reg =? MR); [by do 2 eexists|]. destruct (reg =? LR); [by do 2 eexists|].
  destruct (reg =? CR); [by do 2 eexists|].
  destruct (reg =? IMSC); [do 2 eexists; split; [done|]; split; [done|by apply bit_fits]|].
  destruct (reg =? RIS); [do 2 eexists; split; [done|]; split; [done|by apply bit_fits]|].
  destruct (reg =? MIS).
  { do 2 eexists. split; [done|]. split; [done|]. apply bit_fits.
    destruct H5 as [-> | ->]; [left; apply Z.land_0_l|]. destruct H4 as [-> | ->]; [by left|by right]. }
  destruct (_ && _) eqn:Hr; [|by do 2 eexists]. apply andb_true_iff in Hr as [R1%Z.leb_le R2%Z.leb_le].
  destruct (id_index reg (conj R1 R2)) as (id & -> & Hf). do 2 eexists. split; [reflexivity|]. split; [done|].
  unfold fits in *. lia.
Qed.

(** ** Accesses *)

Inductive RtcAccess : Type := RtcRd (offset size : Z) | RtcWr (offset size value : Z).

Definition rtc_access (a : RtcAccess) (d : Pl031) : option Pl031 :=
  match a with
  | RtcRd o n => snd <$> rtc_read d o n
  | RtcWr o n v => Some (rtc_write d o n v)
  end.

Fixpoint rtc_run (acts : list RtcAccess) (d : Pl031) : option Pl031 :=
  match acts with [] => Some d | a :: acts' => d ← rtc_access a d; rtc_run acts' d end.

Lemma read_value_bound word lane size :
  fits 32 word -> 0 <= lane -> 1 <= size ->
  0 <= Z.land (Z.shiftr word lane) (if 4 <=? size then 2 ^ 32 - 1 else Z.shiftl 1 (size * 8) - 1)
    < 2 ^ (8 * Z.min size 4).
Proof.
  intros [H1 H2] Hl Hs. destruct (Z.leb_spec 4 size).
  - rewrite Z.min_r by lia. change (8 * 4) with 32. apply land_low_bound; done.
  - rewrite Z.min_l by lia. rewrite (Z.mul_comm 8 size). apply land_low_bound; [lia|].
    rewrite Z.ones_equiv, Z.shiftl_1_l. lia.
Qed.

Lemma rtc_read_ok d off size :
  1 <= size -> rtc_ok d ->
  exists v d', rtc_read d off size = Some (v, d') /\ rtc_ok d' /\ 0 <= v < 2 ^ (8 * Z.min size 4).
Proof.
  intros Hs Hd. unfold rtc_read. destruct (register_ok d (Z.land off (not_w 64 3)) Hd) as (w & d' & -> & Hd' & Hw).
  cbn [mbind option_bind]. destruct w as [w|].
  - do 2 eexists. split; [reflexivity|]. split; [done|]. apply read_value_bound; [done| |done].
    pose proof (land_low_bound off 2 3 ltac:(done) ltac:(done)). lia.
  - do 2 eexists. split; [reflexivity|]. split; [done|]. split; [done|]. apply Z.pow_pos_nonneg; lia.
Qed.

Definition rtc_access_ok (a : RtcAccess) : Prop := match a with RtcRd _ n => 1 <= n | RtcWr _ _ _ => True end.

Lemma rtc_access_keeps a d : rtc_access_ok a -> rtc_ok d -> exists d', rtc_access a d = Some d' /\ rtc_ok d'.
Proof.
  intros Ha Hd. destruct a as [o n|o n v]; cbn [rtc_access].
  - destruct (rtc_read_ok d o n Ha Hd) as (v & d' & -> & Hd' & _). by eexists.
  - eexists. split; [done|]. apply latch_alarm_ok, rtc_write_reg_ok; [by apply wrap_fits|done].
Qed.

Lemma rtc_run_keeps acts d : Forall rtc_access_ok acts -> rtc_ok d -> exists d', rtc_run acts d = Some d' /\ rtc_ok d'.
Proof.
  intros Ha. revert d. induction Ha as [|a acts Ha _ IH]; intros d Hd; [by exists d|].
  cbn [rtc_run]. destruct (rtc_access_keeps a d Ha Hd) as (d' & -> & Hd'). by apply IH.
Qed.

Lemma rtc_new_ok calls : rtc_ok (with_clock calls).
Proof. split; cbn -[Z.pow]; [lia|done|done|by left|by left]. Qed.

(** The clock's registers keep their types whatever the guest does: after
    any accesses of any size at any offset, whatever the host clock returns, the
    ID table is never indexed out of range, the raw and mask registers hold a
    single bit, and every read returns a value of the access's width. *)
Theorem rtc_access_typed (calls : nat) (acts : list RtcAccess) (off size : Z) :
  Forall rtc_access_ok acts -> 1 <= size ->
  exists d v d', rtc_run acts (with_clock calls) = Some d /\ rtc_read d off size = Some (v, d') /\
    rtc_ok d /\ rtc_ok d' /\ 0 <= v < 2 ^ (8 * Z.min size 4).
Proof.
  intros Ha Hs. destruct (rtc_run_keeps acts _ Ha (rtc_new_ok calls)) as (d & E & Hd).
  destruct (rtc_read_ok d off size Hs Hd) as (v & d' & E' & Hd' & Hv). by exists d, v, d'.
Qed.

(** ** Time *)

(** Accesses that do not set the time leave the offset alone. *)
Lemma latch_alarm_offset d : r_offset (latch_alarm d) = r_offset d.
Proof. unfold latch_alarm, now, tick. repeat case_match; simplify_eq/=; done. Qed.

Lemma register_offset d reg w d' : register d reg = Some (w, d') -> r_offset d' = r_offset d.
Proof.
  unfold register. rewrite <- (latch_alarm_offset d). generalize (latch_alarm d). intros d0.
  repeat (case_match; [intros; unfold now, tick in *; simplify_eq/=; done|]).
  destruct (_ && _); [|intros; by simplify_eq]. destruct (IDS !! _); intros; by simplify_eq/=.
Qed.

Definition sets_time (a : RtcAccess) : Prop := match a with RtcWr o _ _ => o = LR | _ => False end.

Lemma rtc_access_offset a d d' : ~ sets_time a -> rtc_access a d = Some d' -> r_offset d' = r_offset d.
Proof.
  intros Ha. destruct a as [o n|o n v]; cbn [rtc_access sets_time] in *.
  - unfold rtc_read. destruct (register d _) as [[w d1]|] eqn:E; [|done]. apply register_offset in E.
    cbn [mbind option_bind]. destruct w; intros; by simplify_eq/=.
  - intros [= <-]. unfold rtc_write. rewrite latch_alarm_offset. unfold write_reg.
    rewrite (proj2 (Z.eqb_neq o LR)) by done. repeat case_match; done.
Qed.

Lemma rtc_run_offset acts d d' :
  Forall (fun a => ~ sets_time a) acts -> rtc_run acts d = Some d' -> r_offset d' = r_offset d.
Proof.
  intros Ha. revert d. induction Ha as [|a acts Ha _ IH]; intros d; cbn [rtc_run]; [by intros [= <-]|].
  destruct (rtc_access a d) as [d1|] eqn:E; [|done]. cbn [mbind option_bind]. intros H.
  rewrite (IH d1 H). by eapply rtc_access_offset.
Qed.

Lemma as_i64_small x : 0 <= x < 2 ^ 63 -> as_i64 x = x.
Proof. intros Hx. unfold as_i64. rewrite Z.mod_small by lia. zbool; lia. Qed.

Lemma as_i64_wrap x : as_i64 x mod 2 ^ 32 = x mod 2 ^ 32.
Proof.
  unfold as_i64. assert (E : (x mod 2 ^ 64) mod 2 ^ 32 = x mod 2 ^ 32).
  { apply Z.mod_mod_divide. exists (2 ^ 32). done. }
  destruct (_ <? _); [done|]. rewrite Zminus_mod, E. change (2 ^ 64 mod 2 ^ 32) with 0. by rewrite Z.sub_0_r, Zmod_mod.
Qed.

(** What [DR] reads after the last latch check. *)
Lemma read_dr d :
  exists v d', rtc_read d DR 4 = Some (v, d') /\
    v = wrap 32 (clock (r_calls (latch_alarm d)) + r_offset d).
Proof.
  unfold rtc_read. change (Z.land DR (not_w 64 3)) with DR. unfold register. rewrite Z.eqb_refl.
  unfold now, tick. cbn [r_offset mbind option_bind]. do 2 eexists. split; [reflexivity|].
  change (Z.land DR 3 * 8) with 0. rewrite Z.shiftr_0_r, (land_low _ 32) by done.
  rewrite latch_alarm_offset. unfold wrap. rewrite Zmod_mod, as_i64_wrap, Zplus_mod, as_i64_wrap, <- Zplus_mod. done.
Qed.

(** The clock keeps time from where the guest sets it: after the guest
    writes [v] to the load register, and after any further accesses that do not
    set the time again, the data register reads [v] plus the host seconds that
    have passed, modulo 2^32. *)
Theorem rtc_keeps_time (d d' : Pl031) (v size : Z) (acts : list RtcAccess) :
  fits 32 v -> Forall (fun a => ~ sets_time a) acts ->
  rtc_run acts (rtc_write d LR size v) = Some d' ->
  exists r d'', rtc_read d' DR 4 = Some (r, d'') /\
    let set_at := clock (r_calls d) in
    let read_at := clock (r_calls (latch_alarm d')) in
    r = (v + (read_at - set_at)) mod 2 ^ 32.
Proof.
  intros Hv Ha Hr. destruct (read_dr d') as (r & d'' & E & Hval). exists r, d''. split; [done|].
  apply rtc_run_offset in Hr; [|done]. cbv zeta. rewrite Hval, Hr. unfold rtc_write. rewrite latch_alarm_offset.
  unfold write_reg. rewrite Z.eqb_refl. unfold tick. cbn [r_offset]. rewrite (wrap_small 32 v) by done. unfold wrap.
  rewrite Zplus_mod, as_i64_wrap, Zminus_mod, as_i64_wrap, <- Zminus_mod, <- Zplus_mod. f_equal. lia.
Qed.

(** ** The alarm *)

(** One latch check. *)
Lemma latch_alarm_spec d :
  let t := wrap 32 (clock (r_calls d) + r_offset d) in
  r_raw (latch_alarm d) = (if r_armed d && (r_alarm d <=? t) then Z.lor (r_raw d) 1 else r_raw d) /\
  r_armed (latch_alarm d) = r_armed d && (t <? r_alarm d) /\ r_alarm (latch_alarm d) = r_alarm d /\
  r_mask (latch_alarm d) = r_mask d.
Proof.
  assert (E : wrap 32 (as_i64 (as_i64 (clock (r_calls d)) + r_offset d)) = wrap 32 (clock (r_calls d) + r_offset d)).
  { unfold wrap. by rewrite as_i64_wrap, Zplus_mod, as_i64_wrap, <- Zplus_mod. }
  cbv zeta. unfold latch_alarm, now, tick. destruct (r_armed d) eqn:Ha; [|by rewrite Ha].
  cbn [r_alarm r_offset]. rewrite E. cbn [andb]. zbool; try lia; cbn; rewrite ?Ha; done.
Qed.

(** Accesses that leave the time, the alarm and the pending bit to the device. *)
Definition quiet (a : RtcAccess) : Prop :=
  match a with RtcWr o _ _ => o <> LR /\ o <> MR /\ o <> ICR | RtcRd _ _ => True end.
Definition sets_alarm (a : RtcAccess) : Prop := match a with RtcWr o _ _ => o = MR | _ => False end.

(** The mask bit the guest wrote last. *)
Definition last_mask (mask : Z) (acts : list RtcAccess) : Z :=
  foldl (fun mask a => match a with RtcWr o _ x => if o =? IMSC then x mod 2 else mask | _ => mask end) mask acts.

(** The alarm [m] was set when the pending bit was [pending]: it has not rung
    yet, or some check since call [from] saw a time past it. *)
Record waiting (offset m pending : Z) (from : nat) (d : Pl031) : Prop := {
  wt_from : (from <= r_calls d)%nat;
  wt_offset : r_offset d = offset;
  wt_alarm : r_alarm d = m;
  wt_raw : if r_armed d then r_raw d = pending
           else r_raw d = 1 /\ exists k, (from <= k < r_calls d)%nat /\ m <= wrap 32 (clock k + offset);
}.

Lemma latch_alarm_calls d : r_calls (latch_alarm d) = (if r_armed d then S (r_calls d) else r_calls d).
Proof. unfold latch_alarm, now, tick. destruct (r_armed d); [|done]. by destruct (_ <=? _). Qed.

Lemma or_one x : x = 0 \/ x = 1 -> Z.lor x 1 = 1.
Proof. by intros [-> | ->]. Qed.

Lemma latch_waiting offset m pending from d :
  rtc_ok d -> waiting offset m pending from d -> waiting offset m pending from (latch_alarm d).
Proof.
  intros Hd [H1 H2 H3 H4]. destruct (latch_alarm_spec d) as (Er & Ea & El & _). pose proof (latch_alarm_calls d) as Ec.
  split; [rewrite Ec; destruct (r_armed d); lia|by rewrite latch_alarm_offset|by rewrite El|].
  rewrite Ea, Er, Ec. destruct (r_armed d) eqn:E; cbn [andb]; [|done]. rewrite H2, H3.
  destruct (Z.leb_spec m (wrap 32 (clock (r_calls d) + offset))), (Z.ltb_spec (wrap 32 (clock (r_calls d) + offset)) m); try lia.
  split; [apply or_one, Hd|]. exists (r_calls d). split; [lia|done].
Qed.

(** A read is the latch check, then at most one more reading of the clock. *)
Lemma register_state d reg w d' :
  register d reg = Some (w, d') -> d' = latch_alarm d \/ d' = (tick (latch_alarm d)).2.
Proof.
  unfold register. generalize (latch_alarm d). intros d0.
  destruct (reg =? DR); [unfold now; cbn; intros [= <- <-]; by right|].
  repeat (destruct (reg =? _); [intros [= <- <-]; by left|]).
  destruct (_ && _); [|intros [= <- <-]; by left]. destruct (IDS !! _); [|done]. cbn. intros [= <- <-]. by left.
Qed.

Lemma rtc_read_state d o n v d' : rtc_read d o n = Some (v, d') -> d' = latch_alarm d \/ d' = (tick (latch_alarm d)).2.
Proof.
  unfold rtc_read. destruct (register d _) as [[w d1]|] eqn:E; [|done]. apply register_state in E.
  cbn [mbind option_bind]. by destruct w; intros [= <- <-].
Qed.

Lemma tick_waiting offset m pending from d : waiting offset m pending from d -> waiting offset m pending from (tick d).2.
Proof.
  intros [H1 H2 H3 H4]. split; cbn; [lia|done|done|]. destruct (r_armed d); [done|]. destruct H4 as (Hr & k & Hk & Hm).
  split; [done|]. exists k. split; [lia|done].
Qed.

Lemma access_waiting offset m pending from a d d' :
  quiet a -> rtc_ok d -> waiting offset m pending from d -> rtc_access a d = Some d' -> waiting offset m pending from d'.
Proof.
  intros Hq Hd Hw. destruct a as [o n|o n v]; cbn [rtc_access quiet] in *.
  - destruct (rtc_read d o n) as [[v d1]|] eqn:E; [|done]. intros [= <-]. apply latch_waiting in Hw; [|done].
    destruct (rtc_read_state _ _ _ _ _ E) as [-> | ->]; [done|by apply tick_waiting].
  - intros [= <-]. destruct Hq as (Hl & Hm & Hi). unfold rtc_write, write_reg.
    rewrite (proj2 (Z.eqb_neq o LR)), (proj2 (Z.eqb_neq o MR)), (proj2 (Z.eqb_neq o ICR)) by done.
    destruct (o =? IMSC); [|by apply latch_waiting]. apply latch_waiting; [|by destruct Hw; split].
    destruct Hd. split; try done. cbn. pose proof (land_low_bound (wrap 32 v) 1 1 ltac:(done) ltac:(done)). lia.
Qed.

Lemma run_waiting offset m pending from acts d :
  Forall rtc_access_ok acts -> Forall quiet acts -> rtc_ok d -> waiting offset m pending from d ->
  exists d', rtc_run acts d = Some d' /\ rtc_ok d' /\ waiting offset m pending from d'.
Proof.
  intros Ha. revert d. induction Ha as [|a acts Ha _ IH]; intros d Hq Hd Hw; [by exists d|].
  apply list.Forall_cons in Hq as [Hqa Hq]. cbn [rtc_run].
  destruct (rtc_access_keeps a d Ha Hd) as (d1 & E & Hd1). rewrite E. cbn [mbind option_bind].
  apply IH; [done|done|]. by apply (access_waiting _ _ _ _ a d d1).
Qed.

Lemma land_one_mod x : Z.land (wrap 32 x) 1 = x mod 2.
Proof. rewrite (land_low _ 1) by done. unfold wrap. apply Z.mod_mod_divide. by exists (2 ^ 31). Qed.

Lemma latch_alarm_mask d : r_mask (latch_alarm d) = r_mask d.
Proof. by destruct (latch_alarm_spec d) as (_ & _ & _ & ->). Qed.

Lemma run_last_mask acts d d' : rtc_run acts d = Some d' -> r_mask d' = last_mask (r_mask d) acts.
Proof.
  revert d. induction acts as [|a acts IH]; intros d; cbn [rtc_run]; [by intros [= <-]|].
  destruct (rtc_access a d) as [d1|] eqn:E; [|done]. cbn [mbind option_bind]. intros H. rewrite (IH d1 H).
  unfold last_mask. cbn [foldl]. f_equal. destruct a as [o n|o n v]; cbn [rtc_access] in E.
  - destruct (rtc_read d o n) as [[v d2]|] eqn:Er; [|done]. injection E as <-.
    destruct (rtc_read_state _ _ _ _ _ Er) as [-> | ->]; apply latch_alarm_mask.
  - injection E as <-. unfold rtc_write, write_reg. rewrite latch_alarm_mask. destruct (Z.eqb_spec o LR) as [->|]; [done|].
    destruct (Z.eqb_spec o MR) as [->|]; [done|]. destruct (o =? IMSC); [apply land_one_mod|]. by destruct (o =? ICR).
Qed.

(** With no alarm set and nothing pending, nothing becomes pending. *)
Definition silent (d : Pl031) : Prop := r_armed d = false /\ r_raw d = 0.

Lemma latch_silent d : silent d -> latch_alarm d = d.
Proof. intros [E _]. unfold latch_alarm. by rewrite E. Qed.

Lemma access_silent a d d' : ~ sets_alarm a -> silent d -> rtc_access a d = Some d' -> silent d'.
Proof.
  intros Ha Hs. destruct a as [o n|o n v]; cbn [rtc_access sets_alarm] in *.
  - destruct (rtc_read d o n) as [[v d1]|] eqn:E; [|done]. intros [= <-].
    destruct (rtc_read_state _ _ _ _ _ E) as [-> | ->]; by rewrite latch_silent.
  - intros [= <-]. assert (Hw : silent (write_reg d o (wrap 32 v))); [|unfold rtc_write; by rewrite latch_silent].
    destruct Hs as [Hs1 Hs2]. unfold write_reg. rewrite (proj2 (Z.eqb_neq o MR)) by done.
    destruct (o =? LR); [done|]. destruct (o =? IMSC); [done|]. destruct (o =? ICR); [|done].
    split; [done|]. cbn. by rewrite Hs2, Z.land_0_l.
Qed.

Lemma run_silent acts d d' : Forall (fun a => ~ sets_alarm a) acts -> silent d -> rtc_run acts d = Some d' -> silent d'.
Proof.
  intros Ha. revert d. induction Ha as [|a acts Ha _ IH]; intros d Hs; cbn [rtc_run]; [by intros [= <-]|].
  destruct (rtc_access a d) as [d1|] eqn:E; [|done]. cbn [mbind option_bind]. apply IH. by eapply access_silent.
Qed.

(** What the status registers read. *)
Lemma read_bit d reg x d' :
  Z.land reg (not_w 64 3) = reg -> Z.land reg 3 = 0 -> register d reg = Some (Some x, d') -> x = 0 \/ x = 1 ->
  rtc_read d reg 4 = Some (x, d').
Proof. intros E1 E2 Er Hx. unfold rtc_read. rewrite E1, Er, E2. by destruct Hx as [-> | ->]. Qed.

Lemma read_ris d : rtc_ok d -> rtc_read d RIS 4 = Some (r_raw (latch_alarm d), latch_alarm d).
Proof. intros Hd. apply read_bit; [done|done|done|]. apply rk_raw, latch_alarm_ok, Hd. Qed.

Lemma read_mis d : rtc_ok d -> rtc_read d MIS 4 = Some (Z.land (r_raw (latch_alarm d)) (r_mask d), latch_alarm d).
Proof.
  intros Hd. pose proof (latch_alarm_ok d Hd) as [_ _ _ Hm Hr]. rewrite <- (latch_alarm_mask d). apply read_bit; [done|done|done|].
  destruct Hr as [-> | ->]; [left; apply Z.land_0_l|]. destruct Hm as [-> | ->]; auto.
Qed.

Lemma armed_waiting d m : rtc_ok d -> fits 32 m ->
  rtc_ok (rtc_write d MR 4 m) /\ waiting (r_offset d) m (r_raw d) (r_calls d) (rtc_write d MR 4 m).
Proof.
  intros Hd Hm. unfold rtc_write. rewrite (wrap_small 32 m) by done. pose proof (rtc_write_reg_ok d MR m Hm Hd) as Hw.
  split; [by apply latch_alarm_ok|]. apply latch_waiting; [done|]. unfold write_reg. cbn. by split.
Qed.

(** A check of a waiting alarm, while the 32-bit time has not wrapped. *)
Lemma waiting_latched v set_at m pending from d :
  (forall i j, (i <= j)%nat -> clock i <= clock j) -> pending = 0 \/ pending = 1 -> 0 <= v -> set_at <= clock from ->
  waiting (as_i64 (v - as_i64 set_at)) m pending from d ->
  let t := v + (clock (r_calls d) - set_at) in
  t < 2 ^ 32 ->
  r_raw (latch_alarm d) = (if (pending =? 1) || (m <=? t) then 1 else 0) /\
  (m <= t -> r_armed (latch_alarm d) = false).
Proof.
  intros Hmono Hp Hv Hset [H1 H2 H3 H4] t Ht. destruct (latch_alarm_spec d) as (-> & -> & _).
  assert (Hw : forall k, (from <= k <= r_calls d)%nat -> wrap 32 (clock k + r_offset d) = v + (clock k - set_at)).
  { intros k Hk. pose proof (Hmono from k ltac:(lia)). pose proof (Hmono k (r_calls d) ltac:(lia)). subst t. rewrite H2. unfold wrap.
    rewrite Zplus_mod, as_i64_wrap, Zminus_mod, as_i64_wrap, <- Zminus_mod, <- Zplus_mod, Z.mod_small; lia. }
  rewrite (Hw (r_calls d)) by lia. fold t. rewrite H3. destruct (r_armed d) eqn:Ea; cbn [andb].
  - rewrite H4. split; [|lia]. destruct (m <=? t); [by rewrite orb_true_r, or_one|]. rewrite orb_false_r. by destruct Hp as [-> | ->].
  - destruct H4 as (-> & k & Hk & Hm). split; [|done]. rewrite <- H2, (Hw k) in Hm by lia. pose proof (Hmono k (r_calls d) ltac:(lia)).
    rewrite (proj2 (Z.leb_le m t)) by (subst t; lia). by rewrite orb_true_r.
Qed.

(** C39: the alarm rings on time, once.  Over a host clock that does not go
    back, the guest sets the time to [v] and then an alarm at [m], and makes any
    accesses that do not set the time or the alarm or clear the interrupt.
    Then, as long as the guest's 32-bit time has not wrapped, at guest time [t]:
    the data register reads [v] plus the seconds since it was set; the raw
    status reads 1 exactly when an interrupt was already pending before the
    alarm was set or [m] is not after [t]; the masked status reads the same
    under the mask bit written last.  And after an alarm that rang is
    acknowledged, the raw status reads 0 whatever else the guest does until it
    sets an alarm again. *)
Theorem rtc_alarm_rings_once (d : Pl031) (v m : Z) (acts later : list RtcAccess) :
  (forall i j, (i <= j)%nat -> clock i <= clock j) -> rtc_ok d -> fits 32 v -> fits 32 m ->
  Forall rtc_access_ok acts -> Forall quiet acts ->
  Forall rtc_access_ok later -> Forall (fun a => ~ sets_alarm a) later ->
  let set := rtc_write d LR 4 v in
  exists d', rtc_run acts (rtc_write set MR 4 m) = Some d' /\
    let since call := v + (clock call - clock (r_calls d)) in
    let t := since (r_calls d') in
    (exists r d'', rtc_read d' DR 4 = Some (r, d'') /\ r = since (r_calls (latch_alarm d')) mod 2 ^ 32) /\
    (t < 2 ^ 32 ->
     let ringing := if (r_raw set =? 1) || (m <=? t) then 1 else 0 in
     exists d'', rtc_read d' RIS 4 = Some (ringing, d'') /\
       rtc_read d' MIS 4 = Some (Z.land ringing (last_mask (r_mask d) acts), d'') /\
       (m <= t -> exists d3, rtc_run later (rtc_write d'' ICR 4 1) = Some d3 /\ exists d4, rtc_read d3 RIS 4 = Some (0, d4))).
Proof.
  intros Hmono Hd Hv Hm Ha Hq Hla Hln set.
  assert (Hset : rtc_ok set) by (apply latch_alarm_ok, rtc_write_reg_ok; [by apply wrap_fits|done]).
  assert (Eo : r_offset set = as_i64 (v - as_i64 (clock (r_calls d))) /\ r_mask set = r_mask d /\ (r_calls d <= r_calls set)%nat).
  { subst set. unfold rtc_write. rewrite latch_alarm_offset, latch_alarm_mask, latch_alarm_calls, (wrap_small 32 v) by done. cbn.
    split; [done|]. split; [done|]. destruct (r_armed d); lia. }
  destruct Eo as (Eo & Em & Ec). destruct (armed_waiting set m Hset Hm) as [Hok2 Hw]. rewrite Eo in Hw.
  destruct (run_waiting _ _ _ _ acts _ Ha Hq Hok2 Hw) as (d' & Er & Hd' & Hw'). exists d'. split; [done|]. cbv zeta. split.
  - destruct (read_dr d') as (r & d'' & E & Hr). exists r, d''. split; [done|]. rewrite Hr, (wt_offset _ _ _ _ _ Hw'). unfold wrap.
    rewrite Zplus_mod, as_i64_wrap, Zminus_mod, as_i64_wrap, <- Zminus_mod, <- Zplus_mod. f_equal. lia.
  - intros Ht. destruct (waiting_latched v (clock (r_calls d)) m (r_raw set) _ d' Hmono (rk_raw _ Hset) (proj1 Hv) (Hmono _ _ Ec) Hw' Ht) as [Eraw Earm].
    exists (latch_alarm d'). rewrite read_ris, read_mis, Eraw, (run_last_mask acts _ _ Er) by done. split; [done|]. split.
    { do 3 f_equal. unfold rtc_write. rewrite latch_alarm_mask. cbn. by rewrite Em. }
    intros Hmt. specialize (Earm Hmt). pose proof (latch_alarm_ok d' Hd') as Hl.
    assert (Hs : silent (rtc_write (latch_alarm d') ICR 4 1) /\ rtc_ok (rtc_write (latch_alarm d') ICR 4 1)).
    { split; [|apply latch_alarm_ok, rtc_write_reg_ok; [by apply wrap_fits|done]].
      assert (silent (write_reg (latch_alarm d') ICR (wrap 32 1))); [|unfold rtc_write; by rewrite latch_silent].
      split; [done|]. cbn. by destruct (rk_raw _ Hl) as [-> | ->]. }
    destruct Hs as [Hs Hsok]. destruct (rtc_run_keeps later _ Hla Hsok) as (d3 & E3 & Hd3). exists d3. split; [done|].
    exists (latch_alarm d3). pose proof (run_silent later _ _ Hln Hs E3) as Hs3. rewrite read_ris, (latch_silent d3) by done. by destruct Hs3 as [_ ->].
Qed.

End clock.

(** *** A clock that stands at 1000 seconds and advances by 3 at each call *)

Definition sample_clock (n : nat) : Z := 1000 + 3 * Z.of_nat n.
Definition sample_accesses : list RtcAccess := [RtcWr MR 4 5; RtcRd (ID_BASE + 28) 4; RtcWr IMSC 4 1; RtcRd MIS 1].

Lemma rtc_access_typed_sample :
  exists d v d', rtc_run sample_clock (RtcWr LR 4 0 :: sample_accesses) (with_clock 7) = Some d /\
    rtc_read sample_clock d (RIS + 1) 1 = Some (v, d') /\ rtc_ok d /\ rtc_ok d' /\ 0 <= v < 2 ^ (8 * Z.min 1 4).
Proof.
  apply (rtc_access_typed sample_clock 7 (RtcWr LR 4 0 :: sample_accesses) (RIS + 1) 1); [|lia].
  repeat (constructor; [first [exact I | cbn; lia]|]). constructor.
Defined.

(** The time is set to three seconds before the 32-bit counter wraps. *)
Lemma rtc_keeps_time_witness :
  exists d', rtc_run sample_clock sample_accesses (rtc_write sample_clock (with_clock 7) LR 4 (2 ^ 32 - 3)) = Some d' /\
    exists r d'', rtc_read sample_clock d' DR 4 = Some (r, d'') /\
      r = (2 ^ 32 - 3 + (sample_clock (r_calls (latch_alarm sample_clock d')) - sample_clock 7)) mod 2 ^ 32.
Proof.
  eexists. split; [vm_compute; reflexivity|].
  apply (rtc_keeps_time sample_clock (with_clock 7) _ (2 ^ 32 - 3) 4 sample_accesses).
  - split; [lia|lia].
  - repeat (constructor; [intros H; discriminate H || exact H|]). constructor.
  - vm_compute. reflexivity.
Defined.

(** A guest at time 0 sets an alarm at 5; the clock gains 3 at each reading. *)
Lemma rtc_alarm_rings_once_witness :
  exists d', rtc_run sample_clock [RtcRd RIS 4; RtcWr IMSC 4 1] (rtc_write sample_clock (rtc_write sample_clock (with_clock 7) LR 4 0) MR 4 5) = Some d' /\
    exists d'', rtc_read sample_clock d' RIS 4 = Some (1, d'') /\ rtc_read sample_clock d' MIS 4 = Some (1, d'').
Proof.
  pose proof (rtc_alarm_rings_once sample_clock (with_clock 7) 0 5 [RtcRd RIS 4; RtcWr IMSC 4 1] []) as H.
  destruct H as (d' & E & _ & H).
  - intros i j Hij. unfold sample_clock. lia.
  - apply rtc_new_ok.
  - split; lia.
  - split; lia.
  - constructor; [cbn; lia|]. constructor; [exact I|]. constructor.
  - constructor; [exact I|]. constructor; [cbn; unfold IMSC, LR, MR, ICR; lia|]. constructor.
  - constructor.
  - constructor.
  - exists d'. split; [exact E|]. vm_compute in E. injection E as <-.
    destruct H as (d'' & H1 & H2 & _); [vm_compute; reflexivity|]. exists d''. split; [exact H1|exact H2].
Defined.
