(* ===== verification/Uart.v ===== *)
(** * The PL011 serial port

    Model of [ternvale-devices/src/uart.rs] and [uart/output.rs]: the register
    block, the receive FIFO, the interrupt level handed to the hook, the byte
    sinks and the line buffer of the log.

    The interrupt hook is the list of the levels it was called with (latest
    last), so that what the GIC line sees is part of the state.  Host output is
    fallible: the two byte streams of [StdoutFile] answer each call with
    [host n], where [n] counts the calls: [None] is success, [Some k] an error
    after the first [k] bytes were taken. *)

From stdpp Require Import strings.
From S2P Require Import Prelude MmioBus.

(** ** Byte sinks *)

Class ByteSink (S : Type) := { write_all : S -> list Z -> result unit unit * S }.

#[export] Instance Vec_ByteSink : ByteSink (list Z) := {| write_all := fun v bytes => (Ok (), v ++ bytes) |}.

Definition TX_BATCH : Z := 256.
Definition NEWLINE : Z := 10.

Record StdoutFile := {
  s_stdout : list Z;
  s_file : list Z;
  s_buf : list Z;
  s_ops : nat;
}.

Section host.
Variable host : nat -> option nat.

Definition next_op (s : StdoutFile) : StdoutFile :=
  {| s_stdout := s_stdout s; s_file := s_file s; s_buf := s_buf s; s_ops := S (s_ops s) |}.

(** [out.write_all(&self.buf)?; out.flush()?] *)
Definition to_stdout (s : StdoutFile) : result unit unit * StdoutFile :=
  let put n := {| s_stdout := s_stdout s ++ take n (s_buf s); s_file := s_file s; s_buf := s_buf s; s_ops := S (s_ops s) |} in
  match host (s_ops s) with
  | Some k => (Err (), put k)
  | None =>
      let s := put (length (s_buf s)) in
      match host (s_ops s) with Some _ => (Err (), next_op s) | None => (Ok (), next_op s) end
  end.

(** [self.file.write_all(&self.buf)?; self.file.flush()?] *)
Definition to_file (s : StdoutFile) : result unit unit * StdoutFile :=
  let put n := {| s_stdout := s_stdout s; s_file := s_file s ++ take n (s_buf s); s_buf := s_buf s; s_ops := S (s_ops s) |} in
  match host (s_ops s) with
  | Some k => (Err (), put k)
  | None =>
      let s := put (length (s_buf s)) in
      match host (s_ops s) with Some _ => (Err (), next_op s) | None => (Ok (), next_op s) end
  end.

Definition flush_buf (s : StdoutFile) : result unit unit * StdoutFile :=
  match s_buf s with
  | [] => (Ok (), s)
  | _ =>
      match to_stdout s with
      | (Err e, s) => (Err e, s)
      | (Ok _, s) =>
          match to_file s with
          | (Err e, s) => (Err e, s)
          | (Ok _, s) => (Ok (), {| s_stdout := s_stdout s; s_file := s_file s; s_buf := []; s_ops := s_ops s |})
          end
      end
  end.

Definition sink_write_all (s : StdoutFile) (bytes : list Z) : result unit unit * StdoutFile :=
  let s := {| s_stdout := s_stdout s; s_file := s_file s; s_buf := s_buf s ++ bytes; s_ops := s_ops s |} in
  if (TX_BATCH <=? Z.of_nat (length (s_buf s))) || existsb (fun b => b =? NEWLINE) bytes then flush_buf s
  else (Ok (), s).

(** [StdoutFile::create] on an existing log (append mode). *)
Definition create (log : list Z) : StdoutFile := {| s_stdout := []; s_file := log; s_buf := []; s_ops := 0 |}.

(** [Drop for StdoutFile]. *)
Definition sink_drop (s : StdoutFile) : StdoutFile := snd (flush_buf s).
End host.

Definition StdoutFile_ByteSink (host : nat -> option nat) : ByteSink StdoutFile := {| write_all := sink_write_all host |}.

(** ** The line buffer *)

(** The UTF-8 length of [char::from(byte)]. *)
Definition utf8_len (b : Z) : Z := if b <? 128 then 1 else 2.
Fixpoint line_len (buf : list Z) : Z := match buf with [] => 0 | b :: buf' => utf8_len b + line_len buf' end.

Definition line_flush (buf : list Z) : option (list Z) * list Z :=
  match buf with [] => (None, []) | _ => (Some buf, []) end.

Definition line_push (buf : list Z) (byte : Z) : option (list Z) * list Z :=
  if byte =? NEWLINE then line_flush buf
  else
    let buf := buf ++ [byte] in
    if 256 <=? line_len buf then line_flush buf else (None, buf).

(** ** Registers *)

Definition DR : Z := 0x000.
Definition FR : Z := 0x018.
Definition IBRD : Z := 0x024.
Definition FBRD : Z := 0x028.
Definition LCR_H : Z := 0x02c.
Definition CR : Z := 0x030.
Definition IMSC : Z := 0x038.
Definition RIS : Z := 0x03c.
Definition MIS : Z := 0x040.
Definition ICR : Z := 0x044.
Definition PERIPH_ID0 : Z := 0xfe0.
Definition FR_TXFE : Z := Z.shiftl 1 7.
Definition FR_RXFF : Z := Z.shiftl 1 6.
Definition FR_RXFE : Z := Z.shiftl 1 4.
Definition LCR_FEN : Z := Z.shiftl 1 4.
Definition IRQ_RX : Z := Z.shiftl 1 4.
Definition IRQ_TX : Z := Z.shiftl 1 5.
Definition CR_RESET : Z := 0x0300.
Definition PERIPH_ID : list Z := [0x11; 0x10; 0x14; 0x00].
Definition PCELL_ID : list Z := [0x0d; 0xf0; 0x05; 0xb1].

Definition mask (value size : Z) : Z :=
  if size =? 1 then Z.land value 0xff
  else if size =? 2 then Z.land value 0xffff
  else if size =? 4 then Z.land value 0xffffffff
  else value.

Definition id_byte (offset : Z) : option Z :=
  let index := (offset - PERIPH_ID0) / 4 in
  if index <? 4 then get PERIPH_ID index else get PCELL_ID (index - 4).

Section uart.
Context {S : Type} `{ByteSink S}.

Record Pl011 := {
  u_sink : S;
  u_line : list Z;
  u_rx : list Z;
  u_ibrd : Z;
  u_fbrd : Z;
  u_lcr_h : Z;
  u_cr : Z;
  u_imsc : Z;
  u_ris : Z;
  u_irq : option (list bool);
}.

Definition uart_new (sink : S) : Pl011 :=
  {| u_sink := sink; u_line := []; u_rx := []; u_ibrd := 0; u_fbrd := 0; u_lcr_h := 0; u_cr := CR_RESET;
     u_imsc := 0; u_ris := 0; u_irq := None |}.

Definition set_irq_hook (d : Pl011) : Pl011 :=
  {| u_sink := u_sink d; u_line := u_line d; u_rx := u_rx d; u_ibrd := u_ibrd d; u_fbrd := u_fbrd d;
     u_lcr_h := u_lcr_h d; u_cr := u_cr d; u_imsc := u_imsc d; u_ris := u_ris d; u_irq := Some [] |}.

(** Field updates. *)
Definition set_rx_ris (d : Pl011) (rx : list Z) (ris : Z) : Pl011 :=
  {| u_sink := u_sink d; u_line := u_line d; u_rx := rx; u_ibrd := u_ibrd d; u_fbrd := u_fbrd d;
     u_lcr_h := u_lcr_h d; u_cr := u_cr d; u_imsc := u_imsc d; u_ris := ris; u_irq := u_irq d |}.
Definition set_control (d : Pl011) (ibrd fbrd lcr_h cr : Z) : Pl011 :=
  {| u_sink := u_sink d; u_line := u_line d; u_rx := u_rx d; u_ibrd := ibrd; u_fbrd := fbrd;
     u_lcr_h := lcr_h; u_cr := cr; u_imsc := u_imsc d; u_ris := u_ris d; u_irq := u_irq d |}.
Definition set_imsc (d : Pl011) (imsc : Z) : Pl011 :=
  {| u_sink := u_sink d; u_line := u_line d; u_rx := u_rx d; u_ibrd := u_ibrd d; u_fbrd := u_fbrd d;
     u_lcr_h := u_lcr_h d; u_cr := u_cr d; u_imsc := imsc; u_ris := u_ris d; u_irq := u_irq d |}.
Definition set_output (d : Pl011) (sink : S) (line : list Z) : Pl011 :=
  {| u_sink := sink; u_line := line; u_rx := u_rx d; u_ibrd := u_ibrd d; u_fbrd := u_fbrd d;
     u_lcr_h := u_lcr_h d; u_cr := u_cr d; u_imsc := u_imsc d; u_ris := u_ris d; u_irq := u_irq d |}.

Definition level (d : Pl011) : bool := negb (Z.land (u_ris d) (u_imsc d) =? 0).

Definition note_irq (d : Pl011) : Pl011 :=
  {| u_sink := u_sink d; u_line := u_line d; u_rx := u_rx d; u_ibrd := u_ibrd d; u_fbrd := u_fbrd d;
     u_lcr_h := u_lcr_h d; u_cr := u_cr d; u_imsc := u_imsc d; u_ris := u_ris d;
     u_irq := (fun calls => calls ++ [level d]) <$> u_irq d |}.

Definition fifo_depth (d : Pl011) : Z := if Z.land (u_lcr_h d) LCR_FEN =? 0 then 1 else 16.

Definition push_rx (d : Pl011) (byte : Z) : bool * Pl011 :=
  if fifo_depth d <=? Z.of_nat (length (u_rx d)) then (false, d)
  else (true, note_irq (set_rx_ris d (u_rx d ++ [byte]) (Z.lor (u_ris d) IRQ_RX))).

Definition flags (d : Pl011) : Z :=
  let flags := FR_TXFE in
  let flags := match u_rx d with [] => Z.lor flags FR_RXFE | _ => flags end in
  if fifo_depth d <=? Z.of_nat (length (u_rx d)) then Z.lor flags FR_RXFF else flags.

Definition read_dr (d : Pl011) : Z * Pl011 :=
  match u_rx d with
  | [] => (0, d)
  | byte :: rest =>
      (byte, match rest with
             | [] => note_irq (set_rx_ris d [] (Z.land (u_ris d) (not_w 16 IRQ_RX)))
             | _ => set_rx_ris d rest (u_ris d)
             end)
  end.

(** [None] is an index panic of the ID tables. *)
Definition read_reg (d : Pl011) (offset : Z) : option (Z * Pl011) :=
  if offset =? DR then Some (read_dr d)
  else if offset =? FR then Some (flags d, d)
  else if offset =? IBRD then Some (u_ibrd d, d)
  else if offset =? FBRD then Some (u_fbrd d, d)
  else if offset =? LCR_H then Some (u_lcr_h d, d)
  else if offset =? CR then Some (u_cr d, d)
  else if offset =? IMSC then Some (u_imsc d, d)
  else if offset =? RIS then Some (u_ris d, d)
  else if offset =? MIS then Some (Z.land (u_ris d) (u_imsc d), d)
  else if offset =? ICR then Some (0, d)
  else if (PERIPH_ID0 <=? offset) && (offset <? PERIPH_ID0 + 32) && (offset mod 4 =? 0) then
    id ← id_byte offset; Some (id, d)
  else Some (0, d).

Definition transmit (d : Pl011) (byte : Z) : Pl011 :=
  let '(_, sink) := write_all (u_sink d) [byte] in
  let '(_, line) := line_push (u_line d) byte in
  let d := set_output d sink line in
  note_irq (set_rx_ris d (u_rx d) (Z.lor (u_ris d) IRQ_TX)).

Definition write_reg (d : Pl011) (offset value : Z) : Pl011 :=
  if offset =? DR then transmit d (wrap 8 value)
  else if offset =? IBRD then set_control d (wrap 16 value) (u_fbrd d) (u_lcr_h d) (u_cr d)
  else if offset =? FBRD then set_control d (u_ibrd d) (Z.land (wrap 8 value) 0x3f) (u_lcr_h d) (u_cr d)
  else if offset =? LCR_H then set_control d (u_ibrd d) (u_fbrd d) (Z.land (wrap 16 value) 0xff) (u_cr d)
  else if offset =? CR then set_control d (u_ibrd d) (u_fbrd d) (u_lcr_h d) (wrap 16 value)
  else if offset =? IMSC then note_irq (set_imsc d (Z.land (wrap 16 value) 0x7ff))
  else if offset =? ICR then note_irq (set_rx_ris d (u_rx d) (Z.land (u_ris d) (not_w 16 (wrap 16 value))))
  else d.

Definition uart_read (d : Pl011) (offset size : Z) : option (Z * Pl011) :=
  '(value, d) ← read_reg d offset; Some (mask value size, d).

Definition uart_write (d : Pl011) (offset size value : Z) : Pl011 := write_reg d offset (mask value size).

End uart.
Arguments Pl011 : clear implicits.

#[export] Instance Pl011_MmioDevice S `{ByteSink S} : MmioDevice (Pl011 S) := {|
  dev_name := fun _ => "pl011"%string;
  dev_read := fun d offset size => default (0, d) (uart_read d offset size);
  dev_write := uart_write;
  dev_try_kick := fun _ _ _ => None;
|}.

(** ** The port's state *)

Section uart_facts.
Context {S : Type} `{ByteSink S}.
Implicit Types (d : Pl011 S).

Record uart_ok d : Prop := {
  uk_rx : Forall (fits 8) (u_rx d);
  uk_depth : (length (u_rx d) <= 16)%nat;
  uk_rx_bit : u_rx d = [] -> Z.testbit (u_ris d) 4 = false;
  uk_line : line_len (u_line d) <= 255;
  uk_ibrd : fits 16 (u_ibrd d);
  uk_fbrd : fits 6 (u_fbrd d);
  uk_lcr_h : fits 8 (u_lcr_h d);
  uk_cr : fits 16 (u_cr d);
  uk_imsc : fits 11 (u_imsc d);
  uk_ris : fits 16 (u_ris d);
}.

(** The line follows the registers: the last level the hook was given (low
    before any call). *)
Definition line_follows d : Prop :=
  match u_irq d with Some calls => default false (list.last calls) = level d | None => True end.

Lemma note_irq_follows d : line_follows (note_irq d).
Proof. unfold line_follows. cbn. destruct (u_irq d); [|done]. cbn. by rewrite list.last_snoc. Qed.

Lemma note_irq_ok d : uart_ok d -> uart_ok (note_irq d).
Proof. intros []. by split. Qed.

Lemma line_len_nonneg buf : 0 <= line_len buf.
Proof. induction buf as [|b buf IH]; cbn; [done|]. unfold utf8_len. zbool; lia. Qed.

Lemma line_push_bound buf b : line_len buf <= 255 -> line_len (snd (line_push buf b)) <= 255.
Proof.
  intros Hl. unfold line_push, line_flush. destruct (_ =? _); [by destruct buf|].
  destruct (Z.leb_spec 256 (line_len (buf ++ [b]))); [|cbn; lia]. by destruct (buf ++ [b]).
Qed.

(** Setting receive state and raw interrupts. *)
Lemma set_rx_ris_ok d rx ris :
  uart_ok d -> Forall (fits 8) rx -> (length rx <= 16)%nat -> fits 16 ris ->
  (rx = [] -> Z.testbit ris 4 = false) -> uart_ok (set_rx_ris d rx ris).
Proof. intros []. by split. Qed.

Lemma fifo_depth_bound d : 1 <= fifo_depth d <= 16.
Proof. unfold fifo_depth. destruct (_ =? _); lia. Qed.

Lemma push_rx_ok d b : fits 8 b -> uart_ok d -> uart_ok (snd (push_rx d b)).
Proof.
  intros Hb Hd. unfold push_rx. pose proof (fifo_depth_bound d). destruct (Z.leb_spec (fifo_depth d) (Z.of_nat (length (u_rx d)))); [done|].
  apply note_irq_ok, set_rx_ris_ok; [done|..].
  - apply Forall_app. split; [apply Hd|by constructor].
  - rewrite length_app. cbn. lia.
  - apply lor_fits; [done|apply Hd|done].
  - by destruct (u_rx d).
Qed.

Lemma read_dr_ok d : uart_ok d -> uart_ok (snd (read_dr d)).
Proof.
  intros Hd. pose proof Hd as [Hf Hl Hbit _ _ _ _ _ _ Hris]. unfold read_dr.
  destruct (u_rx d) as [|b rest] eqn:E; [done|]. cbn [snd].
  apply Forall_cons_iff in Hf as [_ Hf]. cbn [length] in Hl. destruct rest as [|b' rest].
  - apply note_irq_ok, set_rx_ris_ok; [done|done|cbn; lia|by apply land_fits_l|].
    intros _. by rewrite Z.land_spec, andb_false_r.
  - apply set_rx_ris_ok; [done|done|lia|done|done].
Qed.

Lemma land_mask_fits w x m : 0 <= w -> m = Z.ones w -> fits w (Z.land x m).
Proof. intros. by apply land_low_bound. Qed.

Lemma uart_write_reg_ok d off v : uart_ok d -> uart_ok (write_reg d off v).
Proof.
  intros Hd. pose proof Hd as []. unfold write_reg.
  destruct (off =? DR).
  { unfold transmit. destruct (write_all _ _) as [r sink].
    pose proof (line_push_bound (u_line d) (wrap 8 v)) as Hlp. destruct (line_push _ _) as [l line]. cbn [snd] in Hlp.
    apply note_irq_ok, set_rx_ris_ok; cbn [u_rx set_output u_ris]; [|done|done|by apply lor_fits|].
    - split; cbn; auto.
    - intros Hrx. rewrite Z.lor_spec, uk_rx_bit0 by done. done. }
  destruct (off =? IBRD); [split; cbn; auto; by apply wrap_fits|].
  destruct (off =? FBRD); [split; cbn; auto; by apply land_mask_fits|].
  destruct (off =? LCR_H); [split; cbn; auto; by apply land_mask_fits|].
  destruct (off =? CR); [split; cbn; auto; by apply wrap_fits|].
  destruct (off =? IMSC); [apply note_irq_ok; split; cbn; auto; by apply land_mask_fits|].
  destruct (off =? ICR); [|done]. pose proof (wrap_fits 16 v ltac:(done)).
  apply note_irq_ok, set_rx_ris_ok; [done|done|done| |].
  - apply land_fits_l; [done|]. apply not_w_fits in H0. unfold fits in *. lia.
  - intros Hrx. rewrite Z.land_spec, uk_rx_bit0 by done. done.
Qed.

Lemma id_byte_fits off : PERIPH_ID0 <= off < PERIPH_ID0 + 32 -> exists v, id_byte off = Some v /\ fits 8 v.
Proof.
  intros Ho. unfold id_byte, PERIPH_ID0 in *. set (i := (off - 0xfe0) / 4).
  assert (0 <= i < 8) by (split; [apply Z.div_pos; lia|apply Z.div_lt_upper_bound; lia]).
  assert (Hall : Forall (fun i : Z => exists v, (if i <? 4 then get PERIPH_ID i else get PCELL_ID (i - 4)) = Some v /\ fits 8 v)
    [0; 1; 2; 3; 4; 5; 6; 7]) by (repeat (constructor; [by eexists|]); constructor).
  rewrite list.Forall_forall in Hall. apply Hall. clear Hall. rewrite !elem_of_cons. lia.
Qed.

Lemma flags_fits d : fits 8 (flags d).
Proof. unfold flags. destruct (u_rx d), (_ <=? _); done. Qed.

Lemma read_reg_ok d off :
  uart_ok d -> exists v d', read_reg d off = Some (v, d') /\ uart_ok d' /\ fits 16 v.
Proof.
  intros Hd. pose proof Hd as []. unfold read_reg.
  destruct (off =? DR).
  { do 2 eexists. rewrite (surjective_pairing (read_dr d)). split; [done|]. split; [by apply read_dr_ok|].
    unfold read_dr. destruct (u_rx d); [done|]. apply Forall_cons_iff in uk_rx0 as [Hb _]. by apply (fits_weaken 8). }
  destruct (off =? FR); [do 2 eexists; split; [done|]; split; [done|]; by apply (fits_weaken 8), flags_fits|].
  destruct (off =? IBRD); [by do 2 eexists|].
  destruct (off =? FBRD); [do 2 eexists; split; [done|]; split; [done|]; by apply (fits_weaken 6)|].
  destruct (off =? LCR_H); [do 2 eexists; split; [done|]; split; [done|]; by apply (fits_weaken 8)|].
  destruct (off =? CR); [by do 2 eexists|].
  destruct (off =? IMSC); [do 2 eexists; split; [done|]; split; [done|]; by apply (fits_weaken 11)|].
  destruct (off =? RIS); [by do 2 eexists|].
  destruct (off =? MIS); [do 2 eexists; split; [done|]; split; [done|]; apply land_fits_l; unfold fits in *; lia|].
  destruct (off =? ICR); [by do 2 eexists|].
  destruct (_ && _) eqn:E; [|by do 2 eexists].
  apply andb_true_iff in E as [[E1%Z.leb_le E2%Z.ltb_lt]%andb_true_iff _].
  destruct (id_byte_fits off (conj E1 E2)) as (v & -> & Hv). do 2 eexists. split; [done|]. split; [done|]. by apply (fits_weaken 8).
Qed.

Lemma mask_small v size : fits 8 v -> mask v size = v.
Proof.
  intros Hv. assert (Hm : forall k m, 8 <= k -> m = Z.ones k -> Z.land v m = v).
  { intros k m Hk ->. rewrite Z.land_ones by lia. apply wrap_small. by apply (fits_weaken 8); [lia|]. }
  unfold mask. destruct (size =? 1); [by apply (Hm 8)|]. destruct (size =? 2); [by apply (Hm 16)|].
  destruct (size =? 4); [by apply (Hm 32)|done].
Qed.

Lemma mask_byte_fits v size : fits 16 v -> fits 16 (mask v size).
Proof.
  intros Hv. unfold mask. repeat destruct (size =? _); try done; apply land_fits_l; done.
Qed.

(** ** Operations in sequence *)

Inductive UartOp : Type := UPush (byte : Z) | URead (offset size : Z) | UWrite (offset size value : Z).

Definition op_ok (o : UartOp) : Prop := match o with UPush b => fits 8 b | _ => True end.

#[export] Instance op_ok_dec o : Decision (op_ok o).
Proof. destruct o; apply _. Defined.

(** The state after one operation, the host byte it accepted and the received
    byte it delivered to the guest. *)
Definition uart_step (o : UartOp) (d : Pl011 S) : option (Pl011 S * list Z * list Z) :=
  match o with
  | UPush b => let '(ok, d') := push_rx d b in Some (d', if ok : bool then [b] else [], [])
  | URead off size =>
      '(v, d') ← uart_read d off size;
      Some (d', [], if off =? DR then match u_rx d with [] => [] | _ => [v] end else [])
  | UWrite off size v => Some (uart_write d off size v, [], [])
  end.

Fixpoint uart_run (os : list UartOp) (d : Pl011 S) : option (Pl011 S * list Z * list Z) :=
  match os with
  | [] => Some (d, [], [])
  | o :: os' => '(d1, i1, o1) ← uart_step o d; '(d2, i2, o2) ← uart_run os' d1; Some (d2, i1 ++ i2, o1 ++ o2)
  end.

Lemma push_rx_follows d b : line_follows d -> line_follows (snd (push_rx d b)).
Proof. intros Hd. unfold push_rx. destruct (_ <=? _); [done|apply note_irq_follows]. Qed.

Lemma read_dr_follows d : line_follows d -> line_follows (snd (read_dr d)).
Proof.
  intros Hd. unfold read_dr. destruct (u_rx d) as [|b [|b' rest]]; cbn [snd]; [done|apply note_irq_follows|done].
Qed.

Lemma read_reg_follows d off v d' : line_follows d -> read_reg d off = Some (v, d') -> line_follows d'.
Proof.
  intros Hd. unfold read_reg. destruct (off =? DR).
  { intros [= E]. replace d' with (snd (read_dr d)) by by rewrite E. by apply read_dr_follows. }
  repeat (case_match; [intros; by simplify_eq|]). destruct (_ && _); [|intros; by simplify_eq].
  destruct (id_byte off); intros; by simplify_eq/=.
Qed.

Lemma write_reg_follows d off v : line_follows d -> line_follows (write_reg d off v).
Proof.
  intros Hd. unfold write_reg, transmit. repeat case_match; try apply note_irq_follows; done.
Qed.

(** What [u_rx] is after a register access. *)
Lemma read_dr_rx d : u_rx (snd (read_dr d)) = tail (u_rx d).
Proof. unfold read_dr. destruct (u_rx d) as [|b [|b' rest]] eqn:E; cbn; [by rewrite E|done..]. Qed.

Lemma read_reg_rx d off v d' :
  off <> DR -> read_reg d off = Some (v, d') -> u_rx d' = u_rx d.
Proof.
  intros Ho. unfold read_reg. rewrite (proj2 (Z.eqb_neq off DR)) by done.
  repeat (case_match; [intros; by simplify_eq|]). destruct (_ && _); [|intros; by simplify_eq].
  destruct (id_byte off); intros; by simplify_eq/=.
Qed.

Lemma write_reg_rx d off v : u_rx (write_reg d off v) = u_rx d.
Proof. unfold write_reg, transmit. repeat case_match; done. Qed.

(** One operation keeps the invariants and the FIFO order. *)
Lemma uart_step_spec o d :
  op_ok o -> uart_ok d ->
  exists d' i out, uart_step o d = Some (d', i, out) /\ uart_ok d' /\ (line_follows d -> line_follows d') /\
    u_rx d ++ i = out ++ u_rx d'.
Proof.
  intros Ho Hd. destruct o as [b|off size|off size v]; cbn [uart_step op_ok] in *.
  - pose proof (push_rx_ok d b Ho Hd) as H1. pose proof (push_rx_follows d b) as H2.
    destruct (push_rx d b) as [ok d'] eqn:E. cbn [snd] in *. do 3 eexists. split; [done|]. split; [done|]. split; [done|].
    unfold push_rx in E. destruct (_ <=? _); injection E as <- <-; cbn; by rewrite ?app_nil_r.
  - unfold uart_read. destruct (read_reg_ok d off Hd) as (v & d' & E & Hd' & Hv). rewrite E. cbn [mbind option_bind].
    do 3 eexists. split; [done|]. split; [done|]. split; [intros Hl; by eapply read_reg_follows|].
    rewrite app_nil_r. destruct (Z.eqb_spec off DR) as [->|Hne].
    + unfold read_reg in E. rewrite Z.eqb_refl in E. assert (E1 : read_dr d = (v, d')) by congruence. clear E.
      replace (u_rx d') with (tail (u_rx d)) by (rewrite <- read_dr_rx; by rewrite E1).
      pose proof (uk_rx _ Hd) as Hf. unfold read_dr in E1. destruct (u_rx d) as [|b rest]; [done|].
      apply Forall_cons_iff in Hf as [Hb _]. simplify_eq/=. by rewrite mask_small.
    + by rewrite (read_reg_rx d off v d').
  - do 3 eexists. split; [done|]. split; [by apply uart_write_reg_ok|]. split; [by apply write_reg_follows|].
    unfold uart_write. by rewrite write_reg_rx, app_nil_r.
Qed.

Lemma uart_run_spec os d :
  Forall op_ok os -> uart_ok d ->
  exists d' i out, uart_run os d = Some (d', i, out) /\ uart_ok d' /\ (line_follows d -> line_follows d') /\
    u_rx d ++ i = out ++ u_rx d'.
Proof.
  intros Hos. revert d. induction Hos as [|o os Ho _ IH]; intros d Hd.
  { exists d, [], []. by rewrite app_nil_r. }
  cbn [uart_run]. destruct (uart_step_spec o d Ho Hd) as (d1 & i1 & o1 & -> & Hd1 & Hl1 & E1). cbn [mbind option_bind].
  destruct (IH d1 Hd1) as (d2 & i2 & o2 & -> & Hd2 & Hl2 & E2). cbn [mbind option_bind].
  do 3 eexists. split; [done|]. split; [done|]. split; [auto|]. by rewrite app_assoc, E1, <- app_assoc, E2, app_assoc.
Qed.

Lemma uart_new_ok (sink : S) : uart_ok (uart_new sink).
Proof. split; cbn; try done. lia. Qed.

Lemma set_irq_hook_ok d : uart_ok d -> uart_ok (set_irq_hook d).
Proof. intros []. by split. Qed.

(** C38: The receive path is a lossless queue of bounded size: over any sequence
    of host pushes and guest accesses the port never panics, the bytes the host
    was told were accepted are exactly the bytes the guest read followed by the
    bytes still queued, in order, and the queue, the registers and the log line
    never outgrow their limits. *)
Theorem uart_fifo_bounded (sink : S) (os : list UartOp) :
  Forall op_ok os ->
  exists d accepted delivered, uart_run os (uart_new sink) = Some (d, accepted, delivered) /\
    accepted = delivered ++ u_rx d /\ (length (u_rx d) <= 16)%nat /\ line_len (u_line d) <= 255 /\ uart_ok d.
Proof.
  intros Hos. destruct (uart_run_spec os _ Hos (uart_new_ok sink)) as (d & i & out & E & Hd & _ & Hq).
  exists d, i, out. split; [done|]. split; [done|]. split; [apply Hd|]. split; [apply Hd|done].
Qed.

(** An installed hook stays installed. *)
Lemma note_irq_hooked d : is_Some (u_irq d) -> is_Some (u_irq (note_irq d)).
Proof. intros [c Hc]. cbn. rewrite Hc. by eexists. Qed.

Lemma read_reg_hooked d off v d' : is_Some (u_irq d) -> read_reg d off = Some (v, d') -> is_Some (u_irq d').
Proof.
  intros Hd. unfold read_reg, read_dr. destruct (off =? DR).
  { destruct (u_rx d) as [|b [|b' rest]]; intros [= _ <-]; [done|by apply note_irq_hooked|done]. }
  repeat (case_match; [intros; by simplify_eq|]). destruct (_ && _); [|intros; by simplify_eq].
  destruct (id_byte off); intros; by simplify_eq/=.
Qed.

Lemma uart_step_hooked o d d' i out : uart_step o d = Some (d', i, out) -> is_Some (u_irq d) -> is_Some (u_irq d').
Proof.
  intros E Hd. destruct o as [b|off size|off size v]; cbn [uart_step] in E.
  - unfold push_rx in E. destruct (_ <=? _); injection E as <- _ _; [done|by apply note_irq_hooked].
  - unfold uart_read in E. destruct (read_reg d off) as [[v d1]|] eqn:Er; [|done]. injection E as <- _ _.
    by eapply read_reg_hooked.
  - injection E as <- _ _. unfold uart_write, write_reg, transmit. repeat case_match; try done; by apply note_irq_hooked.
Qed.

Lemma uart_run_hooked os d d' i out : uart_run os d = Some (d', i, out) -> is_Some (u_irq d) -> is_Some (u_irq d').
Proof.
  revert d i out. induction os as [|o os IH]; intros d i out; cbn [uart_run]; [by intros; simplify_eq|].
  destruct (uart_step o d) as [[[d1 i1] o1]|] eqn:E; [|done]. cbn [mbind option_bind].
  destruct (uart_run os d1) as [[[d2 i2] o2]|] eqn:E2; [|done]. cbn [mbind option_bind]. intros; simplify_eq.
  eapply IH; [done|]. by eapply uart_step_hooked.
Qed.

(** The interrupt line follows the registers: with the hook installed at
    attach, after any sequence of host pushes and guest accesses the last level
    handed to the hook is whether an unmasked interrupt is pending, and the
    receive interrupt is never pending on an empty queue. *)
Theorem uart_line_follows (sink : S) (os : list UartOp) :
  Forall op_ok os ->
  exists d accepted delivered calls, uart_run os (set_irq_hook (uart_new sink)) = Some (d, accepted, delivered) /\
    u_irq d = Some calls /\ default false (list.last calls) = negb (Z.land (u_ris d) (u_imsc d) =? 0) /\
    (u_rx d = [] -> Z.testbit (u_ris d) 4 = false).
Proof.
  intros Hos. destruct (uart_run_spec os _ Hos (set_irq_hook_ok _ (uart_new_ok sink))) as (d & i & out & E & Hd & Hl & _).
  assert (Hirq : is_Some (u_irq d)) by (eapply (uart_run_hooked os); [exact E|by eexists]).
  destruct Hirq as [calls Hc]. exists d, i, out, calls. split; [done|]. split; [done|]. split; [|apply Hd].
  specialize (Hl eq_refl). unfold line_follows in Hl. by rewrite Hc in Hl.
Qed.
End uart_facts.

(** ** Output *)

(** The bytes the guest transmits in a sequence of operations. *)
Definition tx_bytes (os : list UartOp) : list Z :=
  omap (fun o => match o with UWrite off size v => if off =? DR then Some (wrap 8 (mask v size)) else None | _ => None end) os.

Section sink_facts.
Context {S : Type} `{ByteSink S}.
Implicit Types (d : Pl011 S).

Definition send (s : S) (b : Z) : S := snd (write_all s [b]).

Lemma read_reg_sink d off v d' : read_reg d off = Some (v, d') -> u_sink d' = u_sink d.
Proof.
  unfold read_reg, read_dr. destruct (off =? DR).
  { destruct (u_rx d) as [|b [|b' rest]]; by intros [= _ <-]. }
  repeat (case_match; [intros; by simplify_eq|]). destruct (_ && _); [|intros; by simplify_eq].
  destruct (id_byte off); intros; by simplify_eq/=.
Qed.

Lemma write_reg_sink d off v :
  u_sink (write_reg d off v) = if off =? DR then send (u_sink d) (wrap 8 v) else u_sink d.
Proof.
  unfold write_reg, transmit, send. destruct (off =? DR); [|by repeat case_match].
  destruct (write_all _ _), (line_push _ _). done.
Qed.

Lemma uart_run_sink os d d' i out :
  uart_run os d = Some (d', i, out) -> u_sink d' = foldl send (u_sink d) (tx_bytes os).
Proof.
  revert d i out. induction os as [|o os IH]; intros d i out; cbn [uart_run]; [by intros; simplify_eq|].
  destruct (uart_step o d) as [[[d1 i1] o1]|] eqn:E; [|done]. cbn [mbind option_bind].
  destruct (uart_run os d1) as [[[d2 i2] o2]|] eqn:E2; [|done]. cbn [mbind option_bind]. intros; simplify_eq.
  rewrite (IH _ _ _ E2). unfold tx_bytes at 2. cbn [omap list_omap].
  destruct o as [b|off size|off size v]; cbn [uart_step] in E.
  - unfold push_rx in E. destruct (_ <=? _); injection E as <- _ _; done.
  - unfold uart_read in E. destruct (read_reg d off) as [[v d3]|] eqn:Er; [|done]. injection E as <- _ _.
    by rewrite (read_reg_sink _ _ _ _ Er).
  - injection E as <- _ _. unfold uart_write. rewrite write_reg_sink. by destruct (off =? DR).
Qed.
End sink_facts.

(** The sink when every host call succeeds: [log] was in the file before. *)
Record sink_holds (log sent : list Z) (s : StdoutFile) : Prop := {
  sh_stdout : s_stdout s ++ s_buf s = sent;
  sh_file : s_file s = log ++ s_stdout s;
  sh_batch : Z.of_nat (length (s_buf s)) < TX_BATCH;
  sh_line : Forall (fun b => b <> NEWLINE) (s_buf s);
}.

Lemma flush_buf_ok host s :
  (forall n, host n = None) ->
  exists ops, flush_buf host s = (Ok (), {| s_stdout := s_stdout s ++ s_buf s; s_file := s_file s ++ s_buf s; s_buf := []; s_ops := ops |}).
Proof.
  intros Hh. unfold flush_buf, to_stdout, to_file. destruct (s_buf s) as [|b buf] eqn:E.
  - exists (s_ops s). rewrite !app_nil_r. destruct s; by cbn in *; subst.
  - rewrite !Hh. cbn. rewrite !firstn_all. eexists. reflexivity.
Qed.

Lemma sink_write_ok host log sent s b :
  (forall n, host n = None) -> sink_holds log sent s ->
  sink_holds log (sent ++ [b]) (snd (sink_write_all host s [b])).
Proof.
  intros Hh [H1 H2 H3 H4]. unfold sink_write_all. cbn [s_buf existsb]. rewrite orb_false_r.
  destruct (_ || _) eqn:E.
  - destruct (flush_buf_ok host {| s_stdout := s_stdout s; s_file := s_file s; s_buf := s_buf s ++ [b]; s_ops := s_ops s |} Hh) as [ops ->].
    split; cbn; [|by rewrite H2, <- app_assoc|done|done]. by rewrite app_nil_r, app_assoc, H1.
  - apply orb_false_iff in E as [E1%Z.leb_gt E2%Z.eqb_neq]. split; cbn; [|done|done|].
    + by rewrite app_assoc, H1.
    + apply Forall_app. split; [done|]. by constructor.
Qed.

Lemma foldl_send_holds host log bs sent s :
  (forall n, host n = None) -> sink_holds log sent s ->
  sink_holds log (sent ++ bs) (foldl (send (H:=StdoutFile_ByteSink host)) s bs).
Proof.
  intros Hh. revert sent s. induction bs as [|b bs IH]; intros sent s Hs; cbn [foldl]; [by rewrite app_nil_r|].
  replace (sent ++ b :: bs) with ((sent ++ [b]) ++ bs) by by rewrite <- app_assoc.
  apply IH. by apply sink_write_ok.
Qed.

(** Serial output is complete and in order: on a host whose writes succeed,
    after any sequence of operations standard output and the serial log hold
    exactly the bytes the guest transmitted (appended to what the log held),
    except at most 255 held-back bytes of an unfinished line, and closing the
    sink delivers those too. *)
Theorem uart_output_complete (host : nat -> option nat) (log : list Z) (os : list UartOp) :
  (forall n, host n = None) -> Forall op_ok os ->
  let sink := StdoutFile_ByteSink host in
  exists d accepted delivered, uart_run os (uart_new (create log)) = Some (d, accepted, delivered) /\
    sink_holds log (tx_bytes os) (u_sink d) /\
    s_stdout (sink_drop host (u_sink d)) = tx_bytes os /\
    s_file (sink_drop host (u_sink d)) = log ++ tx_bytes os.
Proof.
  intros Hh Hos sink. destruct (uart_run_spec os _ Hos (uart_new_ok (create log))) as (d & i & out & E & _).
  exists d, i, out. split; [done|].
  assert (Hs : sink_holds log (tx_bytes os) (u_sink d)).
  { rewrite (uart_run_sink _ _ _ _ _ E). apply (foldl_send_holds host log (tx_bytes os) []); [done|].
    split; cbn; [done|by rewrite app_nil_r|done|done]. }
  split; [done|]. unfold sink_drop. destruct (flush_buf_ok host (u_sink d) Hh) as [ops ->]. cbn.
  destruct Hs as [H1 H2 _ _]. by rewrite H2, <- app_assoc, H1.
Qed.

(** *** A full disk *)

(** Standard output works and the log file refuses every write. *)
Definition disk_full (n : nat) : option nat := if Nat.eqb (n mod 3) 2 then Some 0%nat else None.

Lemma disk_full_flush s k :
  s_ops s = (3 * k)%nat -> s_buf s <> [] ->
  flush_buf disk_full s =
    (Err (), {| s_stdout := s_stdout s ++ s_buf s; s_file := s_file s; s_buf := s_buf s; s_ops := (3 * (k + 1))%nat |}).
Proof.
  intros Hk Hb. unfold flush_buf. destruct (s_buf s) as [|b buf] eqn:E; [done|].
  assert (Hm : forall j, disk_full (j + k * 3) = disk_full j).
  { intros j. unfold disk_full. by rewrite Nat.Div0.mod_add. }
  assert (E0 : disk_full (3 * k) = None) by (rewrite <- (Hm 0%nat : _ = None); f_equal; lia).
  assert (E1 : disk_full (Datatypes.S (3 * k)) = None) by (rewrite <- (Hm 1%nat : _ = None); f_equal; lia).
  assert (E2 : disk_full (Datatypes.S (Datatypes.S (3 * k))) = Some 0%nat) by (rewrite <- (Hm 2%nat : _ = Some 0%nat); f_equal; lia).
  unfold to_stdout, to_file, next_op. rewrite Hk, E0. cbn [s_ops s_buf s_stdout s_file]. rewrite E1.
  cbn [s_ops s_buf s_stdout s_file]. rewrite E2, E, firstn_all. cbn [firstn]. rewrite app_nil_r.
  f_equal. f_equal. lia.
Qed.

Lemma disk_full_sends s k n :
  s_ops s = (3 * k)%nat ->
  let s' := foldl (send (H:=StdoutFile_ByteSink disk_full)) s (replicate n NEWLINE) in
  s_ops s' = (3 * (k + n))%nat /\ s_file s' = s_file s /\
  length (s_buf s') = (length (s_buf s) + n)%nat /\
  (2 * length (s_stdout s') = 2 * length (s_stdout s) + n * (2 * length (s_buf s) + n + 1))%nat.
Proof.
  revert s k. induction n as [|n IH]; intros s k Hk; cbn [replicate foldl]; [cbn; split_and!; done || lia|].
  set (s1 := send s NEWLINE).
  assert (E : s1 = {| s_stdout := s_stdout s ++ s_buf s ++ [NEWLINE]; s_file := s_file s; s_buf := s_buf s ++ [NEWLINE]; s_ops := (3 * (k + 1))%nat |}).
  { subst s1. unfold send, write_all, StdoutFile_ByteSink, sink_write_all. cbn [existsb]. rewrite Z.eqb_refl, orb_true_r.
    rewrite (disk_full_flush _ k) by (cbn; first [done | by destruct (s_buf s)]). done. }
  destruct (IH s1 (k + 1)%nat) as (H1 & H2 & H3 & H4); [by rewrite E|]. cbv zeta. rewrite H1, H2, H3, H4, E.
  cbn [s_file s_buf s_stdout s_ops]. rewrite !length_app. cbn [length]. split_and!; [lia|done|lia|nia].
Qed.

(** When the serial log cannot be written (a full disk) the batch is kept
    although standard output already has it, so each later flush writes the
    whole backlog to standard output again: [n] transmitted newlines put
    n(n+1)/2 bytes on standard output. *)
Theorem full_disk_repeats_output (log : list Z) (n : nat) :
  let sink := foldl (send (H:=StdoutFile_ByteSink disk_full)) (create log) (replicate n NEWLINE) in
  s_file sink = log /\ length (s_buf sink) = n /\ (2 * length (s_stdout sink) = n * (n + 1))%nat.
Proof.
  destruct (disk_full_sends (create log) 0 n eq_refl) as (_ & H2 & H3 & H4). cbv zeta. rewrite H2, H3, H4. cbn [create s_file s_buf s_stdout length]. split_and!; lia || done.
Qed.

(** ** A sample session *)

(** FIFO on, receive and transmit interrupts unmasked, two bytes pushed, one
    read, ["A"] and a newline sent. *)
Definition sample_ops : list UartOp :=
  [UWrite LCR_H 4 0x70; UWrite IMSC 4 0x30; UPush 0x61; UPush 0x62; URead DR 1; UWrite DR 1 0x41; UWrite DR 4 NEWLINE;
   UWrite ICR 4 0x7ff; URead 0xffc 4].

Lemma sample_ops_ok : Forall op_ok sample_ops.
Proof. apply (bool_decide_unpack _). vm_compute. exact I. Qed.

Lemma uart_fifo_bounded_witness :
  exists d accepted delivered, uart_run sample_ops (uart_new ([] : list Z)) = Some (d, accepted, delivered) /\
    accepted = delivered ++ u_rx d /\ (length (u_rx d) <= 16)%nat /\ line_len (u_line d) <= 255 /\ uart_ok d.
Proof. apply (uart_fifo_bounded ([] : list Z) sample_ops). apply sample_ops_ok. Defined.

Lemma uart_line_follows_witness :
  exists d accepted delivered calls, uart_run sample_ops (set_irq_hook (uart_new ([] : list Z))) = Some (d, accepted, delivered) /\
    u_irq d = Some calls /\ default false (list.last calls) = negb (Z.land (u_ris d) (u_imsc d) =? 0) /\
    (u_rx d = [] -> Z.testbit (u_ris d) 4 = false).
Proof. apply (uart_line_follows ([] : list Z) sample_ops). apply sample_ops_ok. Defined.

Lemma uart_output_complete_witness :
  let sink := StdoutFile_ByteSink (fun _ => None) in
  exists d accepted delivered, uart_run sample_ops (uart_new (create [0x3e])) = Some (d, accepted, delivered) /\
    sink_holds [0x3e] (tx_bytes sample_ops) (u_sink d) /\
    s_stdout (sink_drop (fun _ => None) (u_sink d)) = tx_bytes sample_ops /\
    s_file (sink_drop (fun _ => None) (u_sink d)) = [0x3e] ++ tx_bytes sample_ops.
Proof. apply (uart_output_complete (fun _ => None) [0x3e] sample_ops); [reflexivity|apply sample_ops_ok]. Defined.

(** The sample's output and the bytes still queued. *)
Example sample_session :
  tx_bytes sample_ops = [0x41; NEWLINE] /\
  (fun r => (u_sink r.1.1, u_rx r.1.1, r.1.2, r.2)) <$> uart_run sample_ops (uart_new ([] : list Z))
    = Some ([0x41; NEWLINE], [0x62], [0x61; 0x62], [0x61]).
Proof. split; reflexivity. Qed.
