(* ===== verification/AgentProto.v ===== *)
(** * The guest agent protocol

    Model of [ternvale-agent-proto/src]: messages and their range checks
    ([message.rs], [window.rs]), framing ([frame.rs]), the buffered reader
    ([reader.rs]) and version negotiation ([lib.rs]).

    A Rust [String] is a byte string, so [String.length] is [str::len].  JSON is
    [serde_json], which is not part of the repository: its three uses are the
    parameters [to_vec], [from_slice] and [type_tag] (the ["type"] string of a
    payload that is any JSON value), and the one fact relied on is that a
    serialized message parses back to itself.  A socket is the list of what its
    successive reads answer. *)

From stdpp Require Import strings.
From S2P Require Import Prelude.

Import Stdlib.Strings.Ascii.AsciiSyntax.
#[local] Delimit Scope char_scope with char.

Definition PROTOCOL_VERSION : Z := 3.
Definition MIN_PROTOCOL_VERSION : Z := 1.
Definition MAX_FRAME : Z := 256 * 1024.
Definition MAX_NAME : Z := 256.
Definition MAX_DIMENSION : Z := 16384.
Definition MAX_TAG_LEN : Z := 36.
Definition MAX_MOUNT_PATH : Z := 256.
Definition MAX_WINDOWS : Z := 64.
Definition MAX_WINDOW_TITLE : Z := 256.
Definition MAX_WINDOW_DIMENSION : Z := 16384.

(** [str::len]. *)
Definition slen (s : string) : Z := Z.of_nat (String.length s).

(** ** Messages *)

Record GuestWindow := {
  w_id : Z;
  w_title : string;
  w_x : Z;
  w_y : Z;
  w_width : Z;
  w_height : Z;
}.

Inductive Message : Type :=
| Hello (version : Z) (os agent : string)
| Welcome (version : Z)
| Reject (reason : string) (min_version max_version : Z)
| Ping (seq : Z)
| Pong (seq : Z)
| SetResolution (width height : Z)
| ClipboardSet (text : string)
| ClipboardGet
| ClipboardGetOk (text : string)
| ShareMount (tag mount_point : string)
| Shutdown
| WindowListGet
| WindowListOk (windows : list GuestWindow).

Definition kind (m : Message) : string :=
  match m with
  | Hello _ _ _ => "hello"
  | Welcome _ => "welcome"
  | Reject _ _ _ => "reject"
  | Ping _ => "ping"
  | Pong _ => "pong"
  | SetResolution _ _ => "set_resolution"
  | ClipboardSet _ => "clipboard_set"
  | ClipboardGet => "clipboard_get"
  | ClipboardGetOk _ => "clipboard_get_ok"
  | ShareMount _ _ => "share_mount"
  | Shutdown => "shutdown"
  | WindowListGet => "window_list_get"
  | WindowListOk _ => "window_list_ok"
  end.

Definition KNOWN : list string :=
  ["hello"; "welcome"; "reject"; "ping"; "pong"; "set_resolution"; "clipboard_set"; "clipboard_get";
   "clipboard_get_ok"; "share_mount"; "shutdown"; "window_list_get"; "window_list_ok"]%string.

(** The text of a refusal, by what it names. *)
Inductive Problem : Type :=
| WindowTitle
| WindowSize (id width height : Z)
| WindowCount
| HelloNames
| RejectReason
| Resolution (width height : Z)
| TagLength
| MountLength
| MountPoint
| Json (reason : string).

(** [(1..=max).contains(&v)] *)
Definition in_1_to (v max : Z) : bool := (1 <=? v) && (v <=? max).

Definition window_validate (w : GuestWindow) : result Problem unit :=
  if MAX_WINDOW_TITLE <? slen (w_title w) then Err WindowTitle
  else if negb (in_1_to (w_width w) MAX_WINDOW_DIMENSION) || negb (in_1_to (w_height w) MAX_WINDOW_DIMENSION) then
    Err (WindowSize (w_id w) (w_width w) (w_height w))
  else Ok ().

Fixpoint validate_each (ws : list GuestWindow) : result Problem unit :=
  match ws with [] => Ok () | w :: ws' => _ ← window_validate w; validate_each ws' end.

Definition validate_windows (ws : list GuestWindow) : result Problem unit :=
  if MAX_WINDOWS <? Z.of_nat (length ws) then Err WindowCount else validate_each ws.

Definition is_ascii_alphabetic (c : Ascii.ascii) : bool :=
  let n := Z.of_nat (Ascii.nat_of_ascii c) in ((0x41 <=? n) && (n <=? 0x5a)) || ((0x61 <=? n) && (n <=? 0x7a)).

Definition is_guest_mount_point (path : string) : bool :=
  match path with
  | String "/"%char _ => true
  | String c (String ":"%char rest) =>
      is_ascii_alphabetic c &&
      match rest with EmptyString => true | String "\"%char _ => true | String "/"%char _ => true | _ => false end
  | _ => false
  end.

Definition validate (m : Message) : result Problem unit :=
  match m with
  | Hello _ os agent => if (MAX_NAME <? slen os) || (MAX_NAME <? slen agent) then Err HelloNames else Ok ()
  | Reject reason _ _ => if MAX_NAME <? slen reason then Err RejectReason else Ok ()
  | SetResolution width height =>
      if negb (in_1_to width MAX_DIMENSION) || negb (in_1_to height MAX_DIMENSION) then Err (Resolution width height)
      else Ok ()
  | ShareMount tag mount_point =>
      if (slen tag =? 0) || (MAX_TAG_LEN <? slen tag) then Err TagLength
      else if (slen mount_point =? 0) || (MAX_MOUNT_PATH <? slen mount_point) then Err MountLength
      else if negb (is_guest_mount_point mount_point) then Err MountPoint
      else Ok ()
  | WindowListOk windows => validate_windows windows
  | _ => Ok ()
  end.

(** ** Version negotiation *)

Record VersionError := { ve_peer : Z; ve_min : Z; ve_max : Z }.

Definition negotiate (peer : Z) : result VersionError Z :=
  if peer <? MIN_PROTOCOL_VERSION then
    Err {| ve_peer := peer; ve_min := MIN_PROTOCOL_VERSION; ve_max := PROTOCOL_VERSION |}
  else Ok (Z.min peer PROTOCOL_VERSION).

(** ** Frames *)

Inductive IoKind : Type := UnexpectedEof | WouldBlock | TimedOut | OtherIo.

Inductive FrameError : Type :=
| Closed
| Io (kind : IoKind)
| BadLength (len : Z)
| UnknownType (kind : string)
| Malformed (reason : Problem)
| Encode (kind : string).

Definition is_skippable (e : FrameError) : bool :=
  match e with UnknownType _ | Malformed _ => true | _ => false end.

Definition is_timeout (e : FrameError) : bool :=
  match e with Io WouldBlock | Io TimedOut => true | _ => false end.

(** [u32::to_be_bytes] and [u32::from_be_bytes]. *)
Definition to_be_bytes (v : Z) : list Z := rev (le_bytes 4 v).
Definition from_be_bytes (bs : list Z) : Z := of_le (rev bs).

Definition check_length (len : Z) : result FrameError Z :=
  if (len =? 0) || (MAX_FRAME <? len) then Err (BadLength len) else Ok len.

(** What one [read] of a socket answers.  [Data []] is the end of the stream. *)
Inductive ReadEvent : Type :=
| Data (bytes : list Z)
| Interrupted
| Fail (kind : IoKind).

(** One [read] into a buffer of [k] bytes: what does not fit stays queued. *)
Definition stream_read (k : nat) (e : ReadEvent) (rest : list ReadEvent) : ReadEvent * list ReadEvent :=
  match e with
  | Data bs => if (length bs <=? k)%nat then (Data bs, rest) else (Data (take k bs), Data (drop k bs) :: rest)
  | e => (e, rest)
  end.

Section codec.
Variable to_vec : Message -> option (list Z).
Variable from_slice : list Z -> result string Message.
Variable type_tag : list Z -> option string.

Definition encode (m : Message) : result FrameError (list Z) :=
  match to_vec m with
  | None => Err (Encode (kind m))
  | Some payload =>
      if MAX_FRAME <? Z.of_nat (length payload) then Err (Encode (kind m))
      else if 2 ^ 32 <=? Z.of_nat (length payload) then Err (Encode (kind m))
      else Ok (to_be_bytes (Z.of_nat (length payload)) ++ payload)
  end.

Definition parse (payload : list Z) : result FrameError Message :=
  match from_slice payload with
  | Ok m => match validate m with Ok _ => Ok m | Err reason => Err (Malformed reason) end
  | Err error =>
      match type_tag payload with
      | Some kind => if bool_decide (kind ∈ KNOWN) then Err (Malformed (Json error)) else Err (UnknownType kind)
      | None => Err (Malformed (Json error))
      end
  end.

Definition decode (payload : list Z) : result FrameError Message := parse payload.

(** *** The buffered reader *)

(** [take_frame]: the outcome of the next complete frame, and what is left. *)
Definition take_frame (buffer : list Z) : option (result FrameError Message * list Z) :=
  if (length buffer <? 4)%nat then None
  else
    match check_length (from_be_bytes (take 4 buffer)) with
    | Err error => Some (Err error, buffer)
    | Ok len =>
        if Z.of_nat (length buffer) <? 4 + len then None
        else Some (decode (take (Z.to_nat len) (drop 4 buffer)), drop (Z.to_nat (4 + len)) buffer)
    end.

Definition CHUNK : nat := Z.to_nat 4096.

(** [FrameReader::read], by recursion on what the socket still answers; the
    first [None] is a call still blocked in [read] when the script ends. *)
Fixpoint read_loop (fuel : nat) (buffer : list Z) (evs : list ReadEvent) :
    option (result FrameError Message) * list Z * list ReadEvent :=
  match fuel with
  | O => (None, buffer, evs)
  | S fuel =>
      match take_frame buffer with
      | Some (r, buffer') => (Some r, buffer', evs)
      | None =>
          match evs with
          | [] => (None, buffer, [])
          | e :: rest =>
              match stream_read CHUNK e rest with
              | (Data [], evs') =>
                  match buffer with
                  | [] => (Some (Err Closed), buffer, evs')
                  | _ => (Some (Err (Io UnexpectedEof)), buffer, evs')
                  end
              | (Data chunk, evs') => read_loop fuel (buffer ++ chunk) evs'
              | (Interrupted, evs') => read_loop fuel buffer evs'
              | (Fail k, evs') => (Some (Err (Io k)), buffer, evs')
              end
          end
      end
  end.

(** A bound on the reads a script can answer. *)
Fixpoint script_size (evs : list ReadEvent) : nat :=
  match evs with [] => 0 | Data bs :: evs' => S (length bs) + script_size evs' | _ :: evs' => S (script_size evs') end.

Definition reader_read (buffer : list Z) (evs : list ReadEvent) :=
  read_loop (S (script_size evs)) buffer evs.

(** *** The unbuffered reader *)

(** The loop of [read_message] that fills [n] more bytes; [started] says
    whether a byte of the prefix has been read. *)
Fixpoint fill (fuel : nat) (started : bool) (n : nat) (evs : list ReadEvent) :
    option (result FrameError (list Z) * list ReadEvent) :=
  match n with
  | O => Some (Ok [], evs)
  | _ =>
      match fuel, evs with
      | S fuel, e :: rest =>
          match stream_read n e rest with
          | (Data [], evs') => Some (Err (if started then Io UnexpectedEof else Closed), evs')
          | (Data chunk, evs') =>
              match fill fuel true (n - length chunk) evs' with
              | Some (Ok more, evs'') => Some (Ok (chunk ++ more), evs'')
              | r => r
              end
          | (Interrupted, evs') => fill fuel started n evs'
          | (Fail k, evs') => Some (Err (Io k), evs')
          end
      | _, _ => None
      end
  end.

(** [read_message]; [None] while it is blocked.  [read_exact] is [fill] that
    never reports a clean close. *)
Definition read_message (evs : list ReadEvent) : option (result FrameError Message * list ReadEvent) :=
  match fill (S (script_size evs)) false 4 evs with
  | None => None
  | Some (Err e, evs') => Some (Err e, evs')
  | Some (Ok prefix, evs') =>
      match check_length (from_be_bytes prefix) with
      | Err e => Some (Err e, evs')
      | Ok len =>
          match fill (S (script_size evs')) true (Z.to_nat len) evs' with
          | None => None
          | Some (Err e, evs'') => Some (Err e, evs'')
          | Some (Ok payload, evs'') => Some (decode payload, evs'')
          end
      end
  end.
End codec.

(** ** Framing facts *)

Definition frame (payload : list Z) : list Z := to_be_bytes (Z.of_nat (length payload)) ++ payload.
Definition payload_ok (payload : list Z) : Prop := 1 <= Z.of_nat (length payload) <= MAX_FRAME.

#[export] Instance payload_ok_dec p : Decision (payload_ok p).
Proof. unfold payload_ok. apply _. Defined.

(** A strict prefix of a frame. *)
Definition partial_frame (part : list Z) : Prop :=
  exists payload more, payload_ok payload /\ more <> [] /\ part ++ more = frame payload.

Lemma be_roundtrip v : fits 32 v -> from_be_bytes (to_be_bytes v) = v.
Proof. intros Hv. unfold from_be_bytes, to_be_bytes. rewrite rev_involutive. by apply of_le_le_bytes_fits. Qed.

Lemma length_to_be_bytes v : length (to_be_bytes v) = 4%nat.
Proof. unfold to_be_bytes. by rewrite length_rev, length_le_bytes. Qed.

Lemma length_frame p : length (frame p) = (4 + length p)%nat.
Proof. unfold frame. by rewrite length_app, length_to_be_bytes. Qed.

Lemma check_length_ok p : payload_ok p -> check_length (from_be_bytes (to_be_bytes (Z.of_nat (length p)))) = Ok (Z.of_nat (length p)).
Proof.
  intros Hp. unfold payload_ok, MAX_FRAME in *. rewrite be_roundtrip by (unfold fits; lia).
  unfold check_length, MAX_FRAME. destruct (_ || _) eqn:E; [|done]. apply orb_true_iff in E as [E%Z.eqb_eq|E%Z.ltb_lt]; lia.
Qed.

(** The front of two ways to cut one list. *)
Lemma app_front {A} (a b c d : list A) :
  a ++ b = c ++ d -> (length c <= length a)%nat -> exists a', a = c ++ a' /\ a' ++ b = d.
Proof.
  revert c. induction a as [|x a IH]; intros [|y c] E Hl; cbn in *; try lia.
  - by exists [].
  - by exists (x :: a).
  - injection E as -> E. destruct (IH c E) as (a' & -> & E'); [lia|]. by exists a'.
Qed.

Section codec_facts.
Variable to_vec : Message -> option (list Z).
Variable from_slice : list Z -> result string Message.
Variable type_tag : list Z -> option string.
Notation decode := (decode from_slice type_tag).
Notation take_frame := (take_frame from_slice type_tag).
Notation read_loop := (read_loop from_slice type_tag).
Notation reader_read := (reader_read from_slice type_tag).
Notation read_message := (read_message from_slice type_tag).

Lemma take_frame_complete p rest : payload_ok p -> take_frame (frame p ++ rest) = Some (decode p, rest).
Proof.
  intros Hp. unfold AgentProto.take_frame. rewrite length_app, length_frame.
  rewrite (proj2 (Nat.ltb_ge _ 4)) by lia.
  unfold frame. rewrite <- app_assoc, take_app_length' by by rewrite length_to_be_bytes.
  rewrite check_length_ok by done. destruct (Z.ltb_spec (Z.of_nat (4 + length p + length rest)) (4 + Z.of_nat (length p))); [lia|].
  rewrite drop_app_length' by by rewrite length_to_be_bytes. rewrite Nat2Z.id, take_app_length.
  replace (Z.to_nat (4 + Z.of_nat (length p))) with (4 + length p)%nat by lia.
  rewrite <- drop_drop, drop_app_length' by by rewrite length_to_be_bytes. by rewrite drop_app_length.
Qed.

Lemma take_frame_partial part : partial_frame part -> take_frame part = None.
Proof.
  intros (p & more & Hp & Hm & E). unfold AgentProto.take_frame.
  destruct (Nat.ltb_spec (length part) 4) as [|Hl]; [done|].
  destruct (app_front part more (to_be_bytes (Z.of_nat (length p))) p E) as (b & -> & E'); [by rewrite length_to_be_bytes|].
  rewrite take_app_length' by by rewrite length_to_be_bytes. rewrite check_length_ok by done.
  rewrite length_app, length_to_be_bytes. apply (f_equal length) in E'. rewrite length_app in E'.
  destruct more; [done|]. cbn [length] in E'.
  destruct (Z.ltb_spec (Z.of_nat (4 + length b)) (4 + Z.of_nat (length p))); [done|lia].
Qed.

(** *** Scripts without a close or an error *)

Definition quiet_event (e : ReadEvent) : Prop :=
  match e with Data bs => bs <> [] | Interrupted => True | Fail k => is_timeout (Io k) = true end.

Definition event_data (e : ReadEvent) : list Z := match e with Data bs => bs | _ => [] end.
Definition script_data (evs : list ReadEvent) : list Z := evs ≫= event_data.
Definition event_timeout (e : ReadEvent) : nat := match e with Fail _ => 1 | _ => 0 end.
Fixpoint timeouts (evs : list ReadEvent) : nat :=
  match evs with [] => 0 | e :: evs' => (event_timeout e + timeouts evs')%nat end.

#[export] Instance quiet_event_dec e : Decision (quiet_event e).
Proof. destruct e; apply _. Defined.

Lemma stream_read_spec k e rest e' evs' :
  (1 <= k)%nat -> quiet_event e -> Forall quiet_event rest -> stream_read k e rest = (e', evs') ->
  quiet_event e' /\ Forall quiet_event evs' /\ event_data e' ++ script_data evs' = script_data (e :: rest) /\
  (event_timeout e' + timeouts evs' = timeouts (e :: rest))%nat /\ (script_size evs' < script_size (e :: rest))%nat /\
  (length (event_data e') <= k)%nat.
Proof.
  intros Hk He Hr. unfold script_data. destruct e as [bs| |kd]; cbn [stream_read].
  - destruct (Nat.leb_spec (length bs) k); intros [= <- <-].
    + split_and!; try done. cbn [script_size]. lia.
    + split; [destruct bs, k; cbn in *; done || lia|]. split.
      * constructor; [|done]. cbn. intros E%(f_equal length). rewrite length_drop in E. cbn in E. lia.
      * cbn [mbind list_bind event_data timeouts event_timeout script_size]. rewrite app_assoc, take_drop, length_drop, length_take.
        split_and!; [done|lia|lia|lia].
  - intros [= <- <-]. split_and!; try done; cbn; lia.
  - intros [= <- <-]. split_and!; try done; cbn; lia.
Qed.

Definition stream_of (ps : list (list Z)) (part : list Z) : list Z := (ps ≫= frame) ++ part.

(** Where a buffered reader stands in a stream of frames: it has the next frame
    whole, or less than it. *)
Lemma reader_cases ps part buffer more :
  Forall payload_ok ps -> partial_frame part -> buffer ++ more = stream_of ps part ->
  (exists p ps' b', ps = p :: ps' /\ take_frame buffer = Some (decode p, b') /\ b' ++ more = stream_of ps' part)
  \/ take_frame buffer = None /\ (more = [] -> ps = [] /\ buffer = part).
Proof.
  intros Hps Hpart E. destruct ps as [|p ps'].
  - right. cbn [stream_of mbind list_bind app] in E. split; [|intros ->; by rewrite app_nil_r in E].
    destruct Hpart as (p & m' & Hp & Hm & Ep). apply take_frame_partial. exists p, (more ++ m').
    split; [done|]. split; [by destruct more|]. by rewrite app_assoc, E.
  - apply Forall_cons_iff in Hps as [Hp Hps]. unfold stream_of in E. cbn [mbind list_bind] in E. rewrite <- app_assoc in E.
    destruct (decide (length (frame p) <= length buffer)%nat) as [Hl|Hl].
    + left. destruct (app_front _ _ _ _ E Hl) as (b' & -> & E'). exists p, ps', b'. by rewrite take_frame_complete.
    + right. symmetry in E. destruct (app_front _ _ _ _ E) as (f' & Ef & Em); [lia|]. split.
      * apply take_frame_partial. exists p, f'. split; [done|]. split; [|done].
        intros ->. rewrite app_nil_r in Ef. by rewrite Ef in Hl.
      * intros ->. apply app_eq_nil in Em as [-> _]. rewrite app_nil_r in Ef. by rewrite Ef in Hl.
Qed.

(** One call of the reader on a quiet script. *)
Inductive call_outcome (ps : list (list Z)) (part : list Z) (n : nat) :
    option (result FrameError Message) * list Z * list ReadEvent -> Prop :=
| got_frame p ps' b evs : ps = p :: ps' -> Forall quiet_event evs -> b ++ script_data evs = stream_of ps' part ->
    timeouts evs = n -> call_outcome ps part n (Some (decode p), b, evs)
| got_timeout k b evs : is_timeout (Io k) = true -> Forall quiet_event evs -> b ++ script_data evs = stream_of ps part ->
    n = S (timeouts evs) -> call_outcome ps part n (Some (Err (Io k)), b, evs)
| got_nothing : ps = [] -> n = 0%nat -> call_outcome ps part n (None, part, []).

Lemma read_loop_outcome fuel buffer evs ps part :
  Forall payload_ok ps -> partial_frame part -> Forall quiet_event evs ->
  buffer ++ script_data evs = stream_of ps part -> (script_size evs < fuel)%nat ->
  call_outcome ps part (timeouts evs) (read_loop fuel buffer evs).
Proof.
  intros Hps Hpart. revert buffer evs. induction fuel as [|fuel IH]; intros buffer evs Hq E Hf; [lia|].
  cbn [AgentProto.read_loop].
  destruct (reader_cases ps part buffer _ Hps Hpart E) as [(p & ps' & b' & -> & -> & E')|[-> Hnil]].
  { by eapply got_frame. }
  destruct evs as [|e rest].
  { destruct (Hnil eq_refl) as [-> ->]. by apply got_nothing. }
  apply Forall_cons_iff in Hq as [Hqe Hqr]. destruct (stream_read CHUNK e rest) as [e' evs'] eqn:Er.
  assert (Hc : (1 <= CHUNK)%nat) by (unfold CHUNK; lia).
  destruct (stream_read_spec _ _ _ _ _ Hc Hqe Hqr Er) as (Hq1 & Hq2 & Hd & Ht & Hs & _). rewrite <- Ht. rewrite <- Hd in E.
  destruct e' as [[|x chunk]| |k]; [done|..]; cbn [event_data event_timeout app] in *.
  - apply IH; [done| |lia]. by rewrite <- app_assoc.
  - apply IH; [done|done|lia].
  - by eapply got_timeout.
Qed.

(** Reading until the script blocks: the outcomes, and the bytes left over. *)
Fixpoint collect (calls : nat) (buffer : list Z) (evs : list ReadEvent) : list (result FrameError Message) * list Z :=
  match calls with
  | O => ([], buffer)
  | S calls =>
      match reader_read buffer evs with
      | (None, b, _) => ([], b)
      | (Some r, b, evs') => let '(rs, b') := collect calls b evs' in (r :: rs, b')
      end
  end.

(** Dropping the timeouts, after which the session loops call again. *)
Definition not_timeout (r : result FrameError Message) : Prop :=
  match r with Err e => is_timeout e = false | Ok _ => True end.
#[export] Instance not_timeout_dec r : Decision (not_timeout r).
Proof. destruct r; apply _. Defined.

Lemma decode_not_timeout p : not_timeout (decode p).
Proof.
  unfold AgentProto.decode, parse. destruct (from_slice p) as [m|e]; [by destruct (validate m)|].
  destruct (type_tag p) as [k|]; [|done]. by destruct (bool_decide _).
Qed.

Lemma collect_frames calls ps part buffer evs :
  Forall payload_ok ps -> partial_frame part -> Forall quiet_event evs ->
  buffer ++ script_data evs = stream_of ps part -> (length ps + timeouts evs < calls)%nat ->
  exists rs, collect calls buffer evs = (rs, part) /\ filter not_timeout rs = decode <$> ps /\
    length rs = (length ps + timeouts evs)%nat.
Proof.
  intros Hps Hpart. revert ps buffer evs Hps.
  induction calls as [|calls IH]; intros ps buffer evs Hps Hq E Hc; [lia|]. cbn [collect].
  pose proof (read_loop_outcome (S (script_size evs)) buffer evs ps part Hps Hpart Hq E ltac:(lia)) as Ho.
  unfold AgentProto.reader_read. destruct Ho as [p ps' b evs' Ep Hq' E' Ht|k b evs' Hk Hq' E' Ht|Ep Ht]; try subst ps.
  - apply Forall_cons_iff in Hps as [_ Hps]. cbn [length] in Hc. destruct (IH ps' b evs' Hps Hq' E') as (rs & -> & Hf & Hl); [lia|].
    eexists. split; [done|]. rewrite filter_cons_True by apply decode_not_timeout. cbn [length fmap list_fmap]. rewrite Hf. split; [done|lia].
  - destruct (IH ps b evs' Hps Hq' E') as (rs & -> & Hf & Hl); [lia|].
    eexists. split; [done|]. rewrite filter_cons_False by (unfold not_timeout; by rewrite Hk). cbn [length]. split; [done|lia].
  - exists []. rewrite Ht. done.
Qed.
(** C18: Frames survive any delivery: however the socket cuts a stream of frames
    into reads, with interruptions and timeouts anywhere (also inside a prefix
    or a payload), calling the buffered reader again after each timeout returns
    the outcome of every frame once and in order, whatever the payloads hold,
    and keeps exactly the bytes of an unfinished last frame. *)
Theorem frame_stream_sync (ps : list (list Z)) (part : list Z) (evs : list ReadEvent) :
  Forall payload_ok ps -> partial_frame part -> Forall quiet_event evs ->
  script_data evs = (ps ≫= frame) ++ part ->
  exists rs, collect (S (length ps + timeouts evs)) [] evs = (rs, part) /\
    filter not_timeout rs = decode <$> ps /\ length rs = (length ps + timeouts evs)%nat.
Proof. intros Hps Hpart Hq E. apply collect_frames; [done..|lia]. Qed.

(** *** The unbuffered reader *)

Lemma script_data_cons e evs : script_data (e :: evs) = event_data e ++ script_data evs.
Proof. done. Qed.

Lemma fill_spec fuel started n evs bytes rest :
  Forall quiet_event evs -> timeouts evs = 0%nat -> length bytes = n -> script_data evs = bytes ++ rest ->
  (script_size evs < fuel)%nat ->
  exists evs', fill fuel started n evs = Some (Ok bytes, evs') /\ Forall quiet_event evs' /\ timeouts evs' = 0%nat /\
    script_data evs' = rest.
Proof.
  revert started n evs bytes. induction fuel as [|fuel IH]; intros started n evs bytes Hq Ht Hn E Hf; [lia|].
  destruct n as [|n]; [destruct bytes; [by exists evs|done]|].
  destruct evs as [|e es]; [by destruct bytes|]. apply Forall_cons_iff in Hq as [Hqe Hqr].
  cbn [fill]. destruct (stream_read (S n) e es) as [e' evs'] eqn:Er.
  destruct (stream_read_spec (S n) e es _ _ ltac:(lia) Hqe Hqr Er) as (Hq1 & Hq2 & Hd & Hto & Hs & Hlen).
  rewrite Ht in Hto. rewrite <- Hd in E.
  destruct e' as [[|x chunk]| |k]; [done|..]; cbn [event_data event_timeout app length] in *.
  - destruct (app_front bytes rest (x :: chunk) (script_data evs') (eq_sym E)) as (b' & -> & E').
    { rewrite Hn. cbn. lia. }
    cbn [length app] in Hn. rewrite length_app in Hn.
    assert (Hn' : length b' = (S n - S (length chunk))%nat) by lia.
    destruct (IH true _ evs' b' Hq2 ltac:(lia) Hn' (eq_sym E') ltac:(lia)) as (evs'' & -> & H1 & H2 & H3).
    by exists evs''.
  - destruct (IH started (S n) evs' bytes Hq2 ltac:(lia) Hn E ltac:(lia)) as (evs'' & -> & H). by exists evs''.
  - lia.
Qed.

Lemma partial_nil : partial_frame [].
Proof. exists [0], (frame [0]). done. Qed.

Lemma reader_first_frame p evs rest :
  payload_ok p -> Forall quiet_event evs -> timeouts evs = 0%nat -> script_data evs = frame p ++ rest ->
  exists b evs'', reader_read [] evs = (Some (decode p), b, evs'') /\ b ++ script_data evs'' = rest.
Proof.
  intros Hp Hq Ht E. unfold AgentProto.reader_read.
  assert (H : forall fuel buffer evs, Forall quiet_event evs -> timeouts evs = 0%nat -> (script_size evs < fuel)%nat ->
    buffer ++ script_data evs = frame p ++ rest ->
    exists b evs'', read_loop fuel buffer evs = (Some (decode p), b, evs'') /\ b ++ script_data evs'' = rest);
    [|apply H; [done|done|lia|done]].
  clear evs Hq Ht E. induction fuel as [|fuel IH]; intros buffer evs Hq Ht Hf E; [lia|]. cbn [AgentProto.read_loop].
  destruct (decide (length (frame p) <= length buffer)%nat) as [Hl|Hl].
  { destruct (app_front _ _ _ _ E Hl) as (b' & -> & E'). rewrite take_frame_complete by done. by do 2 eexists. }
  symmetry in E. destruct (app_front _ _ _ _ E) as (f' & Ef & Em); [lia|].
  assert (Hf' : f' <> []) by (intros ->; rewrite app_nil_r in Ef; by rewrite Ef in Hl).
  rewrite take_frame_partial by (exists p, f'; done). destruct evs as [|e es].
  { exfalso. by apply app_eq_nil in Em as [? _]. }
  apply Forall_cons_iff in Hq as [Hqe Hqr]. destruct (stream_read CHUNK e es) as [e' evs'] eqn:Er.
  assert (Hc : (1 <= CHUNK)%nat) by (unfold CHUNK; lia).
  destruct (stream_read_spec _ _ _ _ _ Hc Hqe Hqr Er) as (Hq1 & Hq2 & Hd & Hto & Hs & _). rewrite Ht in Hto. rewrite <- Hd in E.
  destruct e' as [[|x chunk]| |k]; [done|..]; cbn [event_data event_timeout app] in *; [| |lia].
  - apply IH; [done|lia|lia|]. by rewrite <- app_assoc.
  - apply IH; [done|lia|lia|done].
Qed.

(** The two readers agree: on a socket without timeouts, [read_message]
    consumes exactly one frame however it is cut into reads, and returns what
    the buffered reader returns for the same bytes. *)
Theorem read_message_agrees (p : list Z) (evs : list ReadEvent) (rest : list Z) :
  payload_ok p -> Forall quiet_event evs -> timeouts evs = 0%nat -> script_data evs = frame p ++ rest ->
  exists evs' b evs'', read_message evs = Some (decode p, evs') /\ script_data evs' = rest /\
    reader_read [] evs = (Some (decode p), b, evs'') /\ b ++ script_data evs'' = rest.
Proof.
  intros Hp Hq Ht E. unfold frame in E. rewrite <- app_assoc in E.
  destruct (fill_spec (S (script_size evs)) false 4 evs _ _ Hq Ht (length_to_be_bytes _) E ltac:(lia)) as (evs1 & E1 & Hq1 & Ht1 & Ed1).
  destruct (fill_spec (S (script_size evs1)) true (length p) evs1 p rest Hq1 Ht1 eq_refl Ed1 ltac:(lia)) as (evs2 & E2 & _ & _ & Ed2).
  assert (Hr : exists b evs'', reader_read [] evs = (Some (decode p), b, evs'') /\ b ++ script_data evs'' = rest).
  { apply reader_first_frame; [done..|]. unfold frame. by rewrite <- app_assoc. }
  destruct Hr as (b & evs'' & Er & Eb). exists evs2, b, evs''. split; [|done].
  unfold AgentProto.read_message. rewrite E1, check_length_ok by done. by rewrite Nat2Z.id, E2.
Qed.

(** *** Messages *)

(** What a receiver makes of a message its peer sent. *)
Definition received (m : Message) : result FrameError Message :=
  match validate m with Ok _ => Ok m | Err reason => Err (Malformed reason) end.

Hypothesis serde_roundtrip : forall m payload, to_vec m = Some payload -> from_slice payload = Ok m.
Hypothesis serde_nonempty : forall m, from_slice [] <> Ok m.

Lemma encode_frame m f : encode to_vec m = Ok f -> exists p, to_vec m = Some p /\ payload_ok p /\ f = frame p /\ decode p = received m.
Proof.
  unfold encode. destruct (to_vec m) as [p|] eqn:Ep; [|done]. destruct (Z.ltb_spec MAX_FRAME (Z.of_nat (length p))); [done|].
  destruct (_ <=? _); [done|]. intros [= <-]. exists p. split; [done|]. pose proof (serde_roundtrip m p Ep) as Hr.
  split; [|split; [done|]].
  - unfold payload_ok. destruct p; [by apply serde_nonempty in Hr|]. cbn [length] in *. lia.
  - unfold AgentProto.decode, parse. by rewrite Hr.
Qed.

(** Messages sent are the messages received: a peer's messages, encoded and
    written back to back, come out of the buffered reader in order whatever
    reads, interruptions and timeouts deliver them, each as itself when its
    fields are in range and as a skippable error otherwise; nothing is left in
    the buffer. *)
Theorem agent_message_roundtrip (ms : list Message) (frames : list (list Z)) (evs : list ReadEvent) :
  mapM (encode to_vec) ms = Ok frames -> Forall quiet_event evs -> script_data evs = mjoin frames ->
  exists rs, collect (S (length ms + timeouts evs)) [] evs = (rs, []) /\ filter not_timeout rs = received <$> ms.
Proof.
  intros He Hq E.
  assert (Hps : exists ps, Forall payload_ok ps /\ mjoin frames = ps ≫= frame /\ decode <$> ps = received <$> ms /\ length ps = length ms).
  { clear E. revert frames He. induction ms as [|m ms IH]; intros frames; cbn [mapM].
    { intros [= <-]. by exists []. }
    destruct (encode to_vec m) as [f|] eqn:Ef; [|done]. cbn [mbind result_bind].
    destruct (mapM (encode to_vec) ms) as [fs|] eqn:Es; [|done]. cbn [mbind result_bind mret result_ret]. intros [= <-].
    destruct (encode_frame m f Ef) as (p & _ & Hp & -> & Hd). destruct (IH fs eq_refl) as (ps & H1 & H2 & H3 & H4).
    exists (p :: ps). split; [by constructor|]. cbn [mbind list_bind fmap list_fmap length mjoin list_join]. rewrite <- H2, Hd, H4. by rewrite <- H3. }
  destruct Hps as (ps & Hps & Ej & Hd & Hl). rewrite <- Hl.
  destruct (collect_frames (S (length ps + timeouts evs)) ps [] [] evs Hps partial_nil Hq) as (rs & Ec & Hf & _); [|lia|].
  - unfold stream_of. by rewrite app_nil_r, <- Ej.
  - exists rs. by rewrite Hf.
Qed.
End codec_facts.

(** ** A small codec and a cut-up stream *)

Definition sample_to_vec (m : Message) : option (list Z) :=
  match m with
  | Ping n => Some [112; n]
  | Pong n => Some [113; n]
  | SetResolution w h => Some [114; w; h]
  | Shutdown => Some [115]
  | _ => None
  end.

Definition sample_from_slice (p : list Z) : result string Message :=
  match p with
  | [112; n] => Ok (Ping n)
  | [113; n] => Ok (Pong n)
  | [114; w; h] => Ok (SetResolution w h)
  | [115] => Ok Shutdown
  | _ => Err "expected value"%string
  end.

Definition sample_type_tag (p : list Z) : option string :=
  match p with [116] => Some "future"%string | _ => None end.

Lemma sample_roundtrip m payload : sample_to_vec m = Some payload -> sample_from_slice payload = Ok m.
Proof. destruct m; cbn; intros; by simplify_eq. Qed.

Lemma sample_nonempty m : sample_from_slice [] <> Ok m.
Proof. done. Qed.

(** A ping split inside its prefix, an interruption, a resolution of zero
    pixels glued to a shutdown. *)
Definition sample_messages : list Message := [Ping 7; SetResolution 0 5; Shutdown].
Definition sample_script : list ReadEvent :=
  [Data [0; 0]; Fail WouldBlock; Data [0; 2; 112]; Interrupted; Fail TimedOut; Data [7; 0; 0; 0; 3; 114; 0; 5; 0; 0; 0; 1; 115]].

Lemma agent_message_roundtrip_witness :
  exists rs, collect sample_from_slice sample_type_tag 6 [] sample_script = (rs, []) /\
    filter not_timeout rs = received <$> sample_messages.
Proof.
  apply (agent_message_roundtrip sample_to_vec sample_from_slice sample_type_tag sample_roundtrip sample_nonempty
    sample_messages [frame [112; 7]; frame [114; 0; 5]; frame [115]] sample_script).
  - vm_compute. reflexivity.
  - apply (bool_decide_unpack _). vm_compute. exact I.
  - vm_compute. reflexivity.
Defined.

(** A frame of unknown type, a ping, and half of a third frame. *)
Lemma frame_stream_sync_witness :
  exists rs, collect sample_from_slice sample_type_tag 4 [] [Data [0; 0; 0; 1; 116; 0; 0]; Fail WouldBlock; Data [0; 2; 112; 9; 0; 0]] = (rs, [0; 0]) /\
    filter not_timeout rs = decode sample_from_slice sample_type_tag <$> [[116]; [112; 9]] /\ length rs = 3%nat.
Proof.
  apply (frame_stream_sync sample_from_slice sample_type_tag [[116]; [112; 9]] [0; 0]
    [Data [0; 0; 0; 1; 116; 0; 0]; Fail WouldBlock; Data [0; 2; 112; 9; 0; 0]]).
  - apply (bool_decide_unpack _). vm_compute. exact I.
  - exists [5], [0; 1; 5]. split; [apply (bool_decide_unpack _); vm_compute; exact I|]. split; [discriminate|reflexivity].
  - apply (bool_decide_unpack _). vm_compute. exact I.
  - vm_compute. reflexivity.
Defined.

Lemma read_message_agrees_witness :
  exists evs' b evs'', read_message sample_from_slice sample_type_tag [Data [0; 0; 0]; Interrupted; Data [2; 112; 9; 0]]
      = Some (decode sample_from_slice sample_type_tag [112; 9], evs') /\ script_data evs' = [0] /\
    reader_read sample_from_slice sample_type_tag [] [Data [0; 0; 0]; Interrupted; Data [2; 112; 9; 0]]
      = (Some (decode sample_from_slice sample_type_tag [112; 9]), b, evs'') /\ b ++ script_data evs'' = [0].
Proof.
  apply (read_message_agrees sample_from_slice sample_type_tag [112; 9] [Data [0; 0; 0]; Interrupted; Data [2; 112; 9; 0]] [0]).
  - apply (bool_decide_unpack _). vm_compute. exact I.
  - apply (bool_decide_unpack _). vm_compute. exact I.
  - reflexivity.
  - vm_compute. reflexivity.
Defined.
