(* ===== verification/AgentServer.v ===== *)
(** * The host's agent server

    Model of [ternvale-devices/src/agent.rs] and [agent/service.rs],
    [agent/session.rs], [agent/status.rs]: one connection is current at a time,
    a service thread accepts connections and runs the heartbeat, one session
    thread per connection does the handshake and reads messages, and control
    threads wait for clipboard and window replies.

    Everything the threads share is behind one mutex, so the server is a machine
    whose steps are the critical sections: [step] runs one of them, with the
    program counter of each session thread and of each waiting control thread in
    the state, and is [None] when the thread is not at that point; the service
    thread is between the two critical sections of [adopt] while [sv_spawning]
    names the connection whose session thread it is creating.  An [Instant]
    is its nanoseconds.  What the environment decides (messages read, results of
    writes, the time) is in the step's label. *)

From stdpp Require Import strings pretty.
From S2P Require Import Prelude AgentProto.

Inductive AgentState : Type := SWaiting | SHandshake | SConnected | SDisconnected.

#[export] Instance AgentState_eq : EqDecision AgentState.
Proof. solve_decision. Defined.

(** Why a connection ended: one constructor per text of the code. *)
Inductive Reason : Type :=
| ServerStopped
| ReplacedBy (id : Z)
| ReplacedOld
| ReplacedInHandshake
| NotCurrent
| NoPong
| PingFailed
| SpawnFailed
| Rejected (e : VersionError)
| SendFailed (kind : string)
| ReadEnded (e : FrameError)
| NoHello.

Record Conn := {
  c_id : Z;
  c_sent : list Message;
  c_shut : bool;
  c_hello : option (Z * string * string);
  c_since : Z;
  c_next_seq : Z;
  c_outstanding : option (Z * Z);
  c_last_ping : Z;
  c_last_pong : option Z;
  c_rtt : option Z;
  c_failure : option Reason;
}.

Record Book := {
  b_conn : option Conn;
  b_ever_connected : bool;
  b_connects : Z;
  b_disconnects : Z;
  b_pings : Z;
  b_pongs : Z;
  b_last_error : option Reason;
  b_clipboard_wait : option nat;
  b_window_wait : option nat;
}.

Definition book_default : Book :=
  {| b_conn := None; b_ever_connected := false; b_connects := 0; b_disconnects := 0; b_pings := 0; b_pongs := 0;
     b_last_error := None; b_clipboard_wait := None; b_window_wait := None |}.

(** [saturating_duration_since], and [millis]. *)
Definition duration_since (now since : Z) : Z := Z.max 0 (now - since).
Definition millis (d : Z) : Z := Z.min (d / 1000000) (2 ^ 64 - 1).
Definition micros (d : Z) : Z := Z.min (d / 1000) (2 ^ 64 - 1).

Definition conn_new (id now : Z) : Conn :=
  {| c_id := id; c_sent := []; c_shut := false; c_hello := None; c_since := now; c_next_seq := 1; c_outstanding := None;
     c_last_ping := now; c_last_pong := None; c_rtt := None; c_failure := None |}.

(** [Conn::fail]: the first failure is kept, and the socket is shut down. *)
Definition conn_fail (c : Conn) (why : Reason) : Conn :=
  {| c_id := c_id c; c_sent := c_sent c; c_shut := true; c_hello := c_hello c; c_since := c_since c;
     c_next_seq := c_next_seq c; c_outstanding := c_outstanding c; c_last_ping := c_last_ping c;
     c_last_pong := c_last_pong c; c_rtt := c_rtt c;
     c_failure := Some (default why (c_failure c)) |}.

(** [write_message] that succeeded. *)
Definition conn_wrote (c : Conn) (m : Message) : Conn :=
  {| c_id := c_id c; c_sent := c_sent c ++ [m]; c_shut := c_shut c; c_hello := c_hello c; c_since := c_since c;
     c_next_seq := c_next_seq c; c_outstanding := c_outstanding c; c_last_ping := c_last_ping c;
     c_last_pong := c_last_pong c; c_rtt := c_rtt c; c_failure := c_failure c |}.

Definition set_conn (b : Book) (c : option Conn) : Book :=
  {| b_conn := c; b_ever_connected := b_ever_connected b; b_connects := b_connects b; b_disconnects := b_disconnects b;
     b_pings := b_pings b; b_pongs := b_pongs b; b_last_error := b_last_error b;
     b_clipboard_wait := b_clipboard_wait b; b_window_wait := b_window_wait b |}.

Definition set_waits (b : Book) (clip win : option nat) : Book :=
  {| b_conn := b_conn b; b_ever_connected := b_ever_connected b; b_connects := b_connects b; b_disconnects := b_disconnects b;
     b_pings := b_pings b; b_pongs := b_pongs b; b_last_error := b_last_error b;
     b_clipboard_wait := clip; b_window_wait := win |}.

Definition set_beats (b : Book) (pings pongs : Z) : Book :=
  {| b_conn := b_conn b; b_ever_connected := b_ever_connected b; b_connects := b_connects b; b_disconnects := b_disconnects b;
     b_pings := pings; b_pongs := pongs; b_last_error := b_last_error b;
     b_clipboard_wait := b_clipboard_wait b; b_window_wait := b_window_wait b |}.

(** [Book::conn]. *)
Definition book_conn (b : Book) (id : Z) : option Conn :=
  c ← b_conn b; if c_id c =? id then Some c else None.

(** *** [Book::snapshot] *)

Record AgentStatus := {
  st_state : AgentState;
  st_version : option Z;
  st_os : option string;
  st_agent : option string;
  st_connected_ms : option Z;
  st_last_pong_ms : option Z;
  st_rtt_us : option Z;
  st_connects : Z;
  st_disconnects : Z;
  st_pings : Z;
  st_pongs : Z;
  st_last_error : option Reason;
}.

Definition snapshot (b : Book) (now : Z) : AgentStatus :=
  let ms since := millis (duration_since now since) in
  let hello := c ← b_conn b; c_hello c in
  {| st_state := match b_conn b, hello with
                 | Some _, Some _ => SConnected
                 | Some _, None => SHandshake
                 | None, _ => if b_ever_connected b then SDisconnected else SWaiting
                 end;
     st_version := (fun h => h.1.1) <$> hello;
     st_os := (fun h => h.1.2) <$> hello;
     st_agent := (fun h => h.2) <$> hello;
     st_connected_ms := c ← b_conn b; match hello with Some _ => Some (ms (c_since c)) | None => None end;
     st_last_pong_ms := c ← b_conn b; ms <$> c_last_pong c;
     st_rtt_us := c ← b_conn b; micros <$> c_rtt c;
     st_connects := b_connects b; st_disconnects := b_disconnects b; st_pings := b_pings b; st_pongs := b_pongs b;
     st_last_error := b_last_error b |}.

(** ** Threads *)

Inductive Phase : Type :=
| Greeting
| Welcomed (version : Z) (os agent : string)
| Sharing (rest : list (string * string))
| Serving
| Ending (why : Reason)
| Done.

Inductive Want : Type := WClipboard | WWindows.

Inductive CallError : Type :=
| ENotConnected (state : AgentState)
| EPending
| ENotARequest
| ESend
| ETimeout
| EGuest (why : Reason)
| EDisconnected.

Inductive Reply : Type := RText (text : string) | RWindows (ws : list GuestWindow).

(** The channel of a waiter: open, holding the reply, or with its sender
    dropped. *)
Inductive Inbox : Type := IOpen | IValue (r : result CallError Reply) | IClosed.

(** A control thread in [clipboard_get] or [window_list_get]: registered in the
    book, waiting for the reply, past its timeout, returned. *)
Inductive Client : Type :=
| Registered (w : Want) (inbox : Inbox)
| Waiting (w : Want) (inbox : Inbox)
| TimingOut (w : Want)
| Returned (r : result CallError Reply).

Record Server := {
  sv_book : Book;
  sv_next_id : Z;
  sv_sessions : gmap Z Phase;
  sv_clients : gmap nat Client;
  sv_clipboard : list string;
  sv_spawning : option Z;
}.

Definition server_new : Server :=
  {| sv_book := book_default; sv_next_id := 0; sv_sessions := ∅; sv_clients := ∅; sv_clipboard := []; sv_spawning := None |}.

Definition with_book (s : Server) (b : Book) : Server :=
  {| sv_book := b; sv_next_id := sv_next_id s; sv_sessions := sv_sessions s; sv_clients := sv_clients s; sv_clipboard := sv_clipboard s;
     sv_spawning := sv_spawning s |}.
Definition with_spawning (s : Server) (v : option Z) : Server :=
  {| sv_book := sv_book s; sv_next_id := sv_next_id s; sv_sessions := sv_sessions s; sv_clients := sv_clients s; sv_clipboard := sv_clipboard s;
     sv_spawning := v |}.
Definition with_phase (s : Server) (id : Z) (p : Phase) : Server :=
  {| sv_book := sv_book s; sv_next_id := sv_next_id s; sv_sessions := <[id := p]> (sv_sessions s); sv_clients := sv_clients s;
     sv_clipboard := sv_clipboard s; sv_spawning := sv_spawning s |}.
Definition with_client (s : Server) (t : nat) (c : Client) : Server :=
  {| sv_book := sv_book s; sv_next_id := sv_next_id s; sv_sessions := sv_sessions s; sv_clients := <[t := c]> (sv_clients s);
     sv_clipboard := sv_clipboard s; sv_spawning := sv_spawning s |}.

(** What becomes of an open channel when its only sender is used or dropped; a
    thread that has left [recv_timeout] takes nothing from it any more. *)
Definition settle (s : Server) (t : nat) (i : Inbox) : Server :=
  match sv_clients s !! t with
  | Some (Registered w IOpen) => with_client s t (Registered w i)
  | Some (Waiting w IOpen) => with_client s t (Waiting w i)
  | _ => s
  end.

(** [wait.send(r)] and the drop of a sender. *)
Definition send_reply (s : Server) (t : nat) (r : result CallError Reply) : Server := settle s t (IValue r).
Definition drop_sender (s : Server) (t : nat) : Server := settle s t IClosed.

(** [record_end] for a connection already taken out of the book. *)
Definition record_end (s : Server) (c : Conn) (why : Reason) : Server :=
  let b := sv_book s in
  let s := match b_window_wait b with Some t => send_reply s t (Err (EGuest why)) | None => s end in
  let reason := default why (c_failure c) in
  with_book s
    {| b_conn := b_conn b; b_ever_connected := b_ever_connected b; b_connects := b_connects b;
       b_disconnects := match c_hello c with Some _ => add_w 64 (b_disconnects b) 1 | None => b_disconnects b end;
       b_pings := b_pings b; b_pongs := b_pongs b; b_last_error := Some reason;
       b_clipboard_wait := b_clipboard_wait b; b_window_wait := None |}.

(** [Shared::write]: [ok] is what the socket answers. *)
Definition shared_write (b : Book) (id : Z) (m : Message) (ok : bool) : result Reason Book :=
  match book_conn b id with
  | None => Err NotCurrent
  | Some c => if ok then Ok (set_conn b (Some (conn_wrote c m))) else Err (SendFailed (kind m))
  end.

(** [adopt] up to the creation of the session thread: the new connection is
    current and the one it replaces has ended. *)
Definition adopt (s : Server) (id now : Z) (prepared : bool) : Server :=
  if negb prepared then s
  else
    let s :=
      match b_conn (sv_book s) with
      | Some old => record_end (with_book s (set_conn (sv_book s) None)) (conn_fail old (ReplacedBy id)) ReplacedOld
      | None => s
      end in
    with_spawning (with_book s (set_conn (sv_book s) (Some (conn_new id now)))) (Some id).

(** The rest of [adopt]: the session thread runs, or could not be created. *)
Definition adopt_spawned (s : Server) (id : Z) (spawned : bool) : Server :=
  let s := with_spawning s None in
  if spawned then with_phase s id Greeting
  else
    match book_conn (sv_book s) id with
    | Some c => record_end (with_book s (set_conn (sv_book s) None)) (conn_fail c SpawnFailed) SpawnFailed
    | None => with_book s (set_conn (sv_book s) None)
    end.

Definition accept (s : Server) (now : Z) (prepared : bool) : Server :=
  let id := add_w 64 (sv_next_id s) 1 in
  adopt {| sv_book := sv_book s; sv_next_id := id; sv_sessions := sv_sessions s; sv_clients := sv_clients s;
           sv_clipboard := sv_clipboard s; sv_spawning := sv_spawning s |} id now prepared.

(** [heartbeat]. *)
Definition heartbeat (beat pong_timeout : Z) (b : Book) (now : Z) (ok : bool) : Book :=
  match b_conn b with
  | Some c =>
      match c_hello c with
      | None => b
      | Some _ =>
          match c_outstanding c with
          | Some (_, sent) =>
              if pong_timeout <=? duration_since now sent then set_conn b (Some (conn_fail c NoPong)) else b
          | None =>
              if duration_since now (c_last_ping c) <? beat then b
              else
                let seq := c_next_seq c in
                let pinged out sent :=
                  {| c_id := c_id c; c_sent := c_sent c ++ sent; c_shut := c_shut c; c_hello := c_hello c; c_since := c_since c;
                     c_next_seq := add_w 64 seq 1; c_outstanding := out; c_last_ping := now;
                     c_last_pong := c_last_pong c; c_rtt := c_rtt c; c_failure := c_failure c |} in
                if ok then set_beats (set_conn b (Some (pinged (Some (seq, now)) [Ping seq]))) (add_w 64 (b_pings b) 1) (b_pongs b)
                else set_conn b (Some (conn_fail (pinged None []) PingFailed))
          end
      end
  | None => b
  end.

(** [pong]. *)
Definition pong (b : Book) (id seq now : Z) : Book :=
  match book_conn b id with
  | None => b
  | Some c =>
      match c_outstanding c with
      | Some (expected, sent) =>
          if expected =? seq then
            set_beats (set_conn b (Some
              {| c_id := c_id c; c_sent := c_sent c; c_shut := c_shut c; c_hello := c_hello c; c_since := c_since c;
                 c_next_seq := c_next_seq c; c_outstanding := None; c_last_ping := c_last_ping c; c_last_pong := Some now;
                 c_rtt := Some (duration_since now sent); c_failure := c_failure c |}))
              (b_pings b) (add_w 64 (b_pongs b) 1)
          else b
      | None => b
      end
  end.

(** The critical section after [Welcome] was sent. *)
Definition record_hello (b : Book) (id version : Z) (os agent : string) (now : Z) : option Book :=
  c ← book_conn b id;
  Some {| b_conn := Some
            {| c_id := c_id c; c_sent := c_sent c; c_shut := c_shut c; c_hello := Some (version, os, agent); c_since := now;
               c_next_seq := c_next_seq c; c_outstanding := c_outstanding c; c_last_ping := now;
               c_last_pong := c_last_pong c; c_rtt := c_rtt c; c_failure := c_failure c |};
          b_ever_connected := true; b_connects := add_w 64 (b_connects b) 1; b_disconnects := b_disconnects b;
          b_pings := b_pings b; b_pongs := b_pongs b; b_last_error := b_last_error b;
          b_clipboard_wait := b_clipboard_wait b; b_window_wait := b_window_wait b |}.

(** ** Steps *)

Inductive Step : Type :=
| Accept (now : Z) (prepared : bool)
| Spawned (ok : bool)
| Beat (now : Z) (ok : bool)
| Recv (id : Z) (m : Message) (now : Z) (ok : bool)
| RecordHello (id now : Z)
| Share (id : Z) (ok : bool)
| ReadFails (id : Z) (why : Reason)
| Finish (id : Z)
| GetBegin (t : nat) (w : Want) (now : Z)
| GetSend (t : nat) (now : Z) (ok : bool)
| GetReturn (t : nat)
| GetTimeout (t : nat)
| GetClear (t : nat)
| HostSend (m : Message) (now : Z) (ok : bool)
| StopServer.

Definition want_request (w : Want) : Message := match w with WClipboard => ClipboardGet | WWindows => WindowListGet end.

(** [AgentServer::send] of a host request. *)
Definition is_request (m : Message) : bool :=
  match m with
  | SetResolution _ _ | ClipboardSet _ | ClipboardGet | ShareMount _ _ | WindowListGet | Shutdown => true
  | _ => false
  end.

Definition send (b : Book) (m : Message) (now : Z) (ok : bool) : result CallError Book :=
  if negb (is_request m) then Err ENotARequest
  else
    match b_conn b, st_state (snapshot b now) with
    | Some c, SConnected => if ok then Ok (set_conn b (Some (conn_wrote c m))) else Err ESend
    | _, state => Err (ENotConnected state)
    end.

Definition wait_of (b : Book) (w : Want) : option nat :=
  match w with WClipboard => b_clipboard_wait b | WWindows => b_window_wait b end.
Definition set_wait (b : Book) (w : Want) (v : option nat) : Book :=
  match w with
  | WClipboard => set_waits b v (b_window_wait b)
  | WWindows => set_waits b (b_clipboard_wait b) v
  end.

(** The first critical section of [clipboard_get] and [window_list_get]. *)
Definition get_begin (s : Server) (t : nat) (w : Want) (now : Z) : Server :=
  let b := sv_book s in
  let state := st_state (snapshot b now) in
  if bool_decide (state = SConnected) then
    match wait_of b w with
    | Some _ => with_client s t (Returned (Err EPending))
    | None => with_client (with_book s (set_wait b w (Some t))) t (Registered w IOpen)
    end
  else with_client s t (Returned (Err (ENotConnected state))).

(** Deliver a reply to the registered waiter, if any. *)
Definition deliver (s : Server) (w : Want) (r : Reply) : Server :=
  match wait_of (sv_book s) w with
  | Some t => send_reply (with_book s (set_wait (sv_book s) w None)) t (Ok r)
  | None => s
  end.

(** [VersionError]'s text, and [truncate] to [MAX_NAME] bytes (the text is
    ASCII, so every byte is a character boundary). *)
Definition version_text (e : VersionError) : string :=
  ("protocol version " +:+ pretty (ve_peer e) +:+ " is not supported (this side speaks " +:+ pretty (ve_min e) +:+ "..="
   +:+ pretty (ve_max e) +:+ ")")%string.
Definition truncate (text : string) : string :=
  if MAX_NAME <? slen text then String.substring 0 (Z.to_nat MAX_NAME) text else text.
Definition reject_message (e : VersionError) : Message :=
  Reject (truncate (version_text e)) MIN_PROTOCOL_VERSION PROTOCOL_VERSION.

(** A session thread handling one message. *)
Definition on_message (sink : bool) (s : Server) (id : Z) (p : Phase) (m : Message) (now : Z) (ok : bool) :
    option Server :=
  match p with
  | Greeting =>
      match m with
      | Hello version os agent =>
          match negotiate version with
          | Err e =>
              let b := match shared_write (sv_book s) id (reject_message e) ok with
                       | Ok b => b | Err _ => sv_book s end in
              Some (with_phase (with_book s b) id (Ending (Rejected e)))
          | Ok version =>
              match shared_write (sv_book s) id (Welcome version) ok with
              | Err why => Some (with_phase s id (Ending why))
              | Ok b => Some (with_phase (with_book s b) id (Welcomed version os agent))
              end
          end
      | _ => Some s
      end
  | Serving =>
      match m with
      | Pong seq => Some (with_book s (pong (sv_book s) id seq now))
      | Ping seq =>
          match shared_write (sv_book s) id (Pong seq) ok with
          | Err why => Some (with_phase s id (Ending why))
          | Ok b => Some (with_book s b)
          end
      | ClipboardSet text =>
          Some (if sink then
                  {| sv_book := sv_book s; sv_next_id := sv_next_id s; sv_sessions := sv_sessions s; sv_clients := sv_clients s;
                     sv_clipboard := sv_clipboard s ++ [text]; sv_spawning := sv_spawning s |}
                else s)
      | ClipboardGetOk text => Some (deliver s WClipboard (RText text))
      | WindowListOk ws => Some (deliver s WWindows (RWindows ws))
      | _ => Some s
      end
  | _ => None
  end.

(** The tail of [session::run]. *)
Definition finish (s : Server) (id : Z) (why : Reason) : Server :=
  let s' := match book_conn (sv_book s) id with
            | Some c => record_end (with_book s (set_conn (sv_book s) None)) (conn_fail c why) why
            | None => s
            end in
  with_phase s' id Done.

Section server.
Variables (beat pong_timeout : Z) (shares : list (string * string)) (sink : bool).

Definition step (a : Step) (s : Server) : option Server :=
  match a with
  | Accept now prepared => if sv_spawning s then None else Some (accept s now prepared)
  | Spawned ok => id ← sv_spawning s; Some (adopt_spawned s id ok)
  | Beat now ok => if sv_spawning s then None else Some (with_book s (heartbeat beat pong_timeout (sv_book s) now ok))
  | Recv id m now ok => p ← sv_sessions s !! id; on_message sink s id p m now ok
  | RecordHello id now =>
      p ← sv_sessions s !! id;
      match p with
      | Welcomed version os agent =>
          match record_hello (sv_book s) id version os agent now with
          | None => Some (with_phase s id (Ending ReplacedInHandshake))
          | Some b => Some (with_phase (with_book s b) id (if 2 <=? version then Sharing shares else Serving))
          end
      | _ => None
      end
  | Share id ok =>
      p ← sv_sessions s !! id;
      match p with
      | Sharing [] => Some (with_phase s id Serving)
      | Sharing ((tag, mount_point) :: rest) =>
          match validate (ShareMount tag mount_point) with
          | Err _ => Some (with_phase s id (Sharing rest))
          | Ok _ =>
              match shared_write (sv_book s) id (ShareMount tag mount_point) ok with
              | Err why => Some (with_phase s id (Ending why))
              | Ok b => Some (with_phase (with_book s b) id (Sharing rest))
              end
          end
      | _ => None
      end
  | ReadFails id why =>
      p ← sv_sessions s !! id;
      match p with Greeting | Serving => Some (with_phase s id (Ending why)) | _ => None end
  | Finish id =>
      p ← sv_sessions s !! id;
      match p with Ending why => Some (finish s id why) | _ => None end
  | GetBegin t w now => match sv_clients s !! t with None => Some (get_begin s t w now) | Some _ => None end
  | GetSend t now ok =>
      c ← sv_clients s !! t;
      match c with
      | Registered w inbox =>
          match send (sv_book s) (want_request w) now ok with
          | Ok b => Some (with_client (with_book s b) t (Waiting w inbox))
          | Err e => Some (with_client s t (Returned (Err e)))
          end
      | _ => None
      end
  | GetReturn t =>
      c ← sv_clients s !! t;
      match c with
      | Waiting w (IValue r) => Some (with_client s t (Returned r))
      | Waiting w IClosed => Some (with_client s t (Returned (Err EDisconnected)))
      | _ => None
      end
  | GetTimeout t =>
      c ← sv_clients s !! t;
      match c with Waiting w IOpen => Some (with_client s t (TimingOut w)) | _ => None end
  | GetClear t =>
      c ← sv_clients s !! t;
      match c with
      | TimingOut w =>
          let s := with_client s t (Returned (Err ETimeout)) in
          let s := match wait_of (sv_book s) w with Some t' => drop_sender s t' | None => s end in
          Some (with_book s (set_wait (sv_book s) w None))
      | _ => None
      end
  | HostSend m now ok => Some (match send (sv_book s) m now ok with Ok b => with_book s b | Err _ => s end)
  | StopServer =>
      if sv_spawning s then None
      else Some (with_book s (set_conn (sv_book s) (flip conn_fail ServerStopped <$> b_conn (sv_book s))))
  end.
End server.

(** ** Invariant *)

Definition has_hello (b : Book) : Z := match b_conn b with Some c => if c_hello c then 1 else 0 | None => 0 end.
Definition awaiting (b : Book) : Z := match b_conn b with Some c => if c_outstanding c then 1 else 0 | None => 0 end.

(** What a session's program counter says about its connection while that is
    current: before the handshake nothing was sent; after it the first message
    was the [Welcome] of a supported version. *)
Definition welcomed (c : Conn) (v : Z) : Prop :=
  1 <= v <= PROTOCOL_VERSION /\ exists os agent rest, c_hello c = Some (v, os, agent) /\ c_sent c = Welcome v :: rest.

Definition not_greeted (c : Conn) : Prop := c_hello c = None /\ c_outstanding c = None.

Definition phase_ok (c : Conn) (p : Phase) : Prop :=
  match p with
  | Greeting => not_greeted c /\ c_sent c = []
  | Welcomed v _ _ => not_greeted c /\ c_sent c = [Welcome v] /\ 1 <= v <= PROTOCOL_VERSION
  | Sharing _ | Serving => exists v, welcomed c v
  | Ending _ => (exists v, welcomed c v) \/
      not_greeted c /\ (c_sent c = [] \/ (exists e, c_sent c = [reject_message e]) \/ exists v, c_sent c = [Welcome v] /\ 1 <= v <= PROTOCOL_VERSION)
  | Done => False
  end.

Record book_ok (n : Z) (b : Book) : Prop := {
  bk_connects : b_connects b = b_disconnects b + has_hello b;
  bk_disconnects : 0 <= b_disconnects b;
  bk_ever : b_ever_connected b = (0 <? b_connects b);
  bk_pongs : 0 <= b_pongs b /\ b_pongs b + awaiting b <= b_pings b;
  bk_bound : b_connects b <= n /\ b_pings b <= n;
}.

(** Where the session thread of a connection is; one that is being created is
    about to greet. *)
Definition at_phase (s : Server) (c : Conn) (p : Phase) : Prop :=
  sv_sessions s !! c_id c = Some p \/ (sv_sessions s !! c_id c = None /\ sv_spawning s = Some (c_id c) /\ p = Greeting).

Record server_ok (n : Z) (s : Server) : Prop := {
  sk_book : book_ok n (sv_book s);
  sk_ids : forall id p, sv_sessions s !! id = Some p -> 1 <= id <= sv_next_id s;
  sk_next : 0 <= sv_next_id s <= n;
  sk_conn : forall c, b_conn (sv_book s) = Some c -> exists p, at_phase s c p /\ phase_ok c p;
  sk_spawning : forall id, sv_spawning s = Some id ->
    1 <= id <= sv_next_id s /\ sv_sessions s !! id = None /\ exists c, b_conn (sv_book s) = Some c /\ c_id c = id;
}.

Lemma settle_frame s t i :
  sv_book (settle s t i) = sv_book s /\ sv_sessions (settle s t i) = sv_sessions s /\ sv_next_id (settle s t i) = sv_next_id s /\
  sv_spawning (settle s t i) = sv_spawning s.
Proof. unfold settle. repeat case_match; done. Qed.

Lemma record_end_frame s c why :
  sv_sessions (record_end s c why) = sv_sessions s /\ sv_next_id (record_end s c why) = sv_next_id s /\
  b_conn (sv_book (record_end s c why)) = b_conn (sv_book s) /\ sv_spawning (record_end s c why) = sv_spawning s.
Proof.
  unfold record_end, with_book, send_reply. cbn. destruct (b_window_wait (sv_book s)) as [t|]; [|done].
  by destruct (settle_frame s t (IValue (Err (EGuest why)))) as (_ & -> & -> & ->).
Qed.

Lemma book_conn_Some b id c : book_conn b id = Some c <-> b_conn b = Some c /\ c_id c = id.
Proof.
  unfold book_conn. destruct (b_conn b) as [c0|]; cbn; [|naive_solver].
  destruct (Z.eqb_spec (c_id c0) id); naive_solver.
Qed.

Lemma book_ok_mono n m b : n <= m -> book_ok n b -> book_ok m b.
Proof. intros Hn []. split; auto; lia. Qed.

Lemma server_ok_mono n m s : n <= m -> server_ok n s -> server_ok m s.
Proof. intros Hn []. split; auto; [by eapply book_ok_mono|lia]. Qed.

Definition same_marks (c c' : Conn) : Prop :=
  c_id c' = c_id c /\ (c_hello c' = None <-> c_hello c = None) /\ (c_outstanding c' = None <-> c_outstanding c = None).

Lemma book_ok_conn n b c c' :
  b_conn b = Some c -> same_marks c c' -> book_ok n b -> book_ok n (set_conn b (Some c')).
Proof.
  intros Hc (_ & Hh & Ho) [H1 H2 H3 H4 H5]. unfold has_hello, awaiting in *. rewrite Hc in *.
  split; cbn [set_conn b_connects b_disconnects b_ever_connected b_pongs b_pings]; auto; unfold has_hello, awaiting; cbn [set_conn b_conn].
  - rewrite H1. destruct (c_hello c), (c_hello c'); naive_solver.
  - destruct (c_outstanding c), (c_outstanding c'); naive_solver.
Qed.

(** A session that exists is where the state says, and is not being created. *)
Lemma session_phase n s id p c :
  server_ok n s -> sv_sessions s !! id = Some p -> b_conn (sv_book s) = Some c -> c_id c = id -> phase_ok c p /\ sv_spawning s = None.
Proof.
  intros [_ _ _ H4 H5] Hp Hc Hid. split.
  - destruct (H4 c Hc) as (q & [Hq|(Hq & _)] & Hok); rewrite Hid, Hp in Hq; by simplify_eq.
  - destruct (sv_spawning s) as [i|] eqn:E; [|done]. destruct (H5 i eq_refl) as (_ & Hn & c0 & Hc0 & Hi). simplify_eq.
Qed.

(** The current connection's session changes its connection and moves on. *)
Lemma server_ok_session n s id p p' c c' :
  server_ok n s -> sv_sessions s !! id = Some p -> b_conn (sv_book s) = Some c -> c_id c = id -> same_marks c c' -> phase_ok c' p' ->
  server_ok n (with_phase (with_book s (set_conn (sv_book s) (Some c'))) id p').
Proof.
  intros Hs Hp Hc Hid Hm Hph. destruct (session_phase n s id p c Hs Hp Hc Hid) as [_ Hsp]. destruct Hs as [H1 H2 H3 H4 H5]. split; cbn.
  - by eapply book_ok_conn.
  - intros id' q [[<- _]|[_ Hq]]%lookup_insert_Some; eauto.
  - done.
  - intros c0 [= <-]. exists p'. split; [|done]. left. destruct Hm as (-> & _). cbn. by rewrite Hid, lookup_insert_eq.
  - by rewrite Hsp.
Qed.

(** The current connection changes while its session stays where it is. *)
Lemma server_ok_conn n s c c' :
  server_ok n s -> b_conn (sv_book s) = Some c -> same_marks c c' -> (forall p, phase_ok c p -> phase_ok c' p) ->
  server_ok n (with_book s (set_conn (sv_book s) (Some c'))).
Proof.
  intros [H1 H2 H3 H4 H5] Hc Hm Hph. split; cbn; [by eapply book_ok_conn|done|done| |].
  - intros c0 [= <-]. destruct (H4 c Hc) as (p & Hp & Hok). exists p. unfold at_phase in *. cbn. destruct Hm as (-> & _). auto.
  - intros id Hid. destruct (H5 id Hid) as (Hi & Hn & c0 & Hc0 & E). split_and!; [lia..|done|]. exists c'. split; [done|]. destruct Hm as (-> & _). congruence.
Qed.

(** A session moves on without touching the book. *)
Lemma server_ok_phase n s id p p' :
  server_ok n s -> sv_sessions s !! id = Some p ->
  (forall c, b_conn (sv_book s) = Some c -> c_id c = id -> phase_ok c p -> phase_ok c p') ->
  server_ok n (with_phase s id p').
Proof.
  intros Hs Hp Hph. pose proof Hs as [H1 H2 H3 H4 H5]. split; cbn; [done| |done| |].
  - intros id' q [[<- _]|[_ Hq]]%lookup_insert_Some; eauto.
  - intros c Hc. unfold at_phase. cbn. destruct (decide (c_id c = id)) as [E|E].
    + exists p'. rewrite E, lookup_insert_eq. split; [by left|]. apply Hph; [done..|]. by destruct (session_phase n s id p c Hs Hp Hc E).
    + destruct (H4 c Hc) as (q & Hq & Hok). exists q. unfold at_phase in Hq. by rewrite lookup_insert_ne.
  - intros i Hi. destruct (H5 i Hi) as (? & Hn & ?). split; [done|]. split; [|done]. rewrite lookup_insert_ne; [done|]. intros ->. congruence.
Qed.

(** Only the waits and the clients change. *)
Lemma server_ok_frame n s s' :
  server_ok n s -> sv_sessions s' = sv_sessions s -> sv_next_id s' = sv_next_id s -> sv_spawning s' = sv_spawning s ->
  (exists clip win, sv_book s' = set_waits (sv_book s) clip win) -> server_ok n s'.
Proof.
  intros [[B1 B2 B3 B4 B5] H2 H3 H4 H5] Es En Ep (clip & win & Eb).
  split; unfold at_phase; rewrite ?Es, ?En, ?Eb, ?Ep; [|done..]. by split.
Qed.

Lemma fail_same_marks c why : same_marks c (conn_fail c why).
Proof. done. Qed.
Lemma wrote_same_marks c m : same_marks c (conn_wrote c m).
Proof. done. Qed.

Lemma fail_phase_ok c why p : phase_ok c p -> phase_ok (conn_fail c why) p.
Proof. by destruct p. Qed.

Lemma welcomed_more c m v : welcomed c v -> welcomed (conn_wrote c m) v.
Proof. intros (Hv & os & ag & rest & Hh & Hs). split; [done|]. exists os, ag, (rest ++ [m]). cbn. by rewrite Hh, Hs. Qed.

(** A connection past its handshake is one whose first message was its
    [Welcome]. *)
Lemma phase_ok_hello c p : phase_ok c p -> c_hello c <> None -> (exists v, welcomed c v) /\
  match p with Sharing _ | Serving | Ending _ => True | _ => False end.
Proof.
  destruct p; cbn; unfold not_greeted; try tauto.
Qed.

Lemma welcomed_phase_ok c c' p :
  phase_ok c p -> c_hello c <> None -> (forall v, welcomed c v -> welcomed c' v) -> phase_ok c' p.
Proof.
  intros Hp Hh Hw. destruct (phase_ok_hello c p Hp Hh) as [[v Hv] Hq]. destruct p; try done; cbn; eauto.
Qed.

(** A connection leaves the book, and its session thread is not awaited. *)
Lemma server_ok_end n s c c' why :
  n < 2 ^ 64 -> server_ok n s -> b_conn (sv_book s) = Some c -> c_hello c' = c_hello c ->
  server_ok n (record_end (with_book (with_spawning s None) (set_conn (sv_book s) None)) c' why).
Proof.
  intros Hn [[B1 B2 B3 B4 B5] H2 H3 H4 H5] Hc Hh. set (s0 := with_book _ _).
  destruct (record_end_frame s0 c' why) as (Es & En & Ec & Ep).
  split; unfold at_phase; rewrite ?Es, ?En, ?Ec, ?Ep; cbn [s0 with_book with_spawning sv_sessions sv_next_id sv_spawning sv_book set_conn b_conn]; [|done..].
  unfold has_hello, awaiting in *. rewrite Hc in *.
  assert (Hd : 0 <= b_disconnects (sv_book s) + (if c_hello c then 1 else 0) < 2 ^ 64) by (split; [destruct (c_hello c); lia|lia]).
  split; unfold has_hello, awaiting; cbn [s0 record_end with_book with_spawning sv_book set_conn b_conn b_connects b_disconnects b_ever_connected b_pings b_pongs];
    rewrite ?Hh.
  - destruct (c_hello c); [unfold add_w; rewrite wrap_small by (unfold fits; lia)|]; lia.
  - destruct (c_hello c); [unfold add_w; rewrite wrap_small by (unfold fits; lia)|]; lia.
  - done.
  - destruct (c_outstanding c); lia.
  - done.
Qed.

Lemma no_spawning s : sv_spawning s = None -> with_spawning s None = s.
Proof. destruct s. cbn. by intros ->. Qed.

Lemma shared_write_Ok b id m ok b' :
  shared_write b id m ok = Ok b' -> exists c, b_conn b = Some c /\ c_id c = id /\ b' = set_conn b (Some (conn_wrote c m)).
Proof.
  unfold shared_write. destruct (book_conn b id) as [c|] eqn:E; [|done]. apply book_conn_Some in E as [? ?].
  destruct ok; [|done]. intros [= <-]. by exists c.
Qed.

(** ** Every step keeps it *)

(** The book loses its connection, if it has one. *)
Definition vacate (s : Server) (f : Conn -> Conn) (why : Reason) : Server :=
  match b_conn (sv_book s) with
  | Some old => record_end (with_book s (set_conn (sv_book s) None)) (f old) why
  | None => s
  end.

Lemma vacate_ok n s f why :
  n < 2 ^ 64 -> server_ok n s -> sv_spawning s = None -> (forall c, c_hello (f c) = c_hello c) ->
  server_ok n (vacate s f why) /\ b_conn (sv_book (vacate s f why)) = None /\
  sv_next_id (vacate s f why) = sv_next_id s /\ sv_sessions (vacate s f why) = sv_sessions s.
Proof.
  intros Hn Hs Hsp Hf. unfold vacate. destruct (b_conn (sv_book s)) as [old|] eqn:E; [|done].
  pose proof (server_ok_end n s old (f old) why Hn Hs E (Hf old)) as He. rewrite (no_spawning s Hsp) in He.
  split; [done|]. by destruct (record_end_frame (with_book s (set_conn (sv_book s) None)) (f old) why) as (-> & -> & -> & _).
Qed.

Lemma accept_ok n s now prepared : n + 1 < 2 ^ 64 -> server_ok n s -> sv_spawning s = None -> server_ok (n + 1) (accept s now prepared).
Proof.
  intros Hn Hs Hsp. pose proof Hs as [HB Hids Hnext Hconn _]. unfold accept, add_w. rewrite wrap_small by (unfold fits; lia).
  set (id := sv_next_id s + 1). rewrite Hsp.
  set (s1 := {| sv_book := sv_book s; sv_next_id := id; sv_sessions := sv_sessions s; sv_clients := sv_clients s; sv_clipboard := sv_clipboard s; sv_spawning := None |}).
  assert (Hs1 : server_ok (n + 1) s1).
  { split; cbn; [by eapply book_ok_mono; [|done]; lia| |subst id; lia| |done].
    - intros i p Hp. apply Hids in Hp. subst id. lia.
    - unfold at_phase in *. cbn. by rewrite Hsp in Hconn. }
  unfold adopt. destruct prepared; [|done]. cbn [negb].
  change (match b_conn (sv_book s1) with
          | Some old => record_end (with_book s1 (set_conn (sv_book s1) None)) (conn_fail old (ReplacedBy id)) ReplacedOld
          | None => s1 end) with (vacate s1 (fun c => conn_fail c (ReplacedBy id)) ReplacedOld).
  destruct (vacate_ok (n + 1) s1 (fun c => conn_fail c (ReplacedBy id)) ReplacedOld Hn Hs1 eq_refl) as (Hv & Hc & Hni & Hse); [done|].
  set (s2 := vacate _ _ _) in *. clearbody s2. cbv zeta.
  assert (Hnone : sv_sessions s2 !! id = None).
  { rewrite Hse. cbn. destruct (sv_sessions s !! id) as [p|] eqn:E; [|done]. apply Hids in E. subst id. lia. }
  pose proof Hv as [[B1 B2 B3 B4 B5] Vids Vnext _ _]. split; cbn.
  - unfold has_hello, awaiting in *. rewrite Hc in *. split; done.
  - done.
  - done.
  - intros c [= <-]. exists Greeting. split; [|done]. right. by cbn.
  - intros i [= <-]. rewrite Hni. split; [subst id s1; cbn; lia|]. split; [done|]. by exists (conn_new id now).
Qed.

Lemma spawned_ok n s id ok : n < 2 ^ 64 -> server_ok n s -> sv_spawning s = Some id -> server_ok n (adopt_spawned s id ok).
Proof.
  intros Hn Hs Hsp. pose proof Hs as [H1 H2 H3 H4 H5]. destruct (H5 id Hsp) as (Hid & Hnone & c & Hc & Hci). unfold adopt_spawned. destruct ok.
  - split; cbn; [done| |done| |done].
    + intros i p [[<- _]|[_ Hp]]%lookup_insert_Some; eauto.
    + intros c0 Hc0. simplify_eq. exists Greeting. split; [left; cbn; by rewrite lookup_insert_eq|].
      destruct (H4 c Hc) as (p & [Hp|(_ & _ & ->)] & Hok); [congruence|done].
  - cbn [with_spawning sv_book]. rewrite (proj2 (book_conn_Some (sv_book s) id c) (conj Hc Hci)). by apply (server_ok_end n s c).
Qed.

Lemma beat_ok beat pt n s now ok :
  n + 1 < 2 ^ 64 -> server_ok n s -> sv_spawning s = None -> server_ok (n + 1) (with_book s (heartbeat beat pt (sv_book s) now ok)).
Proof.
  intros Hn Hs Hsp. pose proof (server_ok_mono n (n + 1) s ltac:(lia) Hs) as Hs'.
  assert (Hid : server_ok (n + 1) (with_book s (sv_book s))) by (destruct s; done).
  unfold heartbeat. destruct (b_conn (sv_book s)) as [c|] eqn:Hc; [|done].
  destruct (c_hello c) as [h|] eqn:Hh; [|done]. destruct (c_outstanding c) as [[q sent]|] eqn:Ho.
  { destruct (_ <=? _); [|done]. eapply server_ok_conn; [done|done|done|]. intros p. apply fail_phase_ok. }
  destruct (_ <? _); [done|]. destruct ok.
  - destruct Hs as [[B1 B2 B3 B4 B5] Hids Hnext Hconn _]. unfold has_hello, awaiting in *. rewrite Hc, Hh, Ho in *.
    split; cbn [with_book sv_book sv_sessions sv_next_id]; [|done|lia| |by cbn; rewrite Hsp].
    + assert (Ep : add_w 64 (b_pings (sv_book s)) 1 = b_pings (sv_book s) + 1).
      { unfold add_w. apply wrap_small. unfold fits. lia. }
      split; cbn; unfold has_hello, awaiting; cbn; rewrite ?Ep, ?Hh; try done; lia.
    + intros c' [= <-]. destruct (Hconn c eq_refl) as (p & Hp & Hok). exists p. split; [done|].
      eapply welcomed_phase_ok; [done|by rewrite Hh|]. intros v (Hv & os & ag & rest & H1 & H2).
      split; [done|]. exists os, ag, (rest ++ [Ping (c_next_seq c)]). cbn. by rewrite H2, <- H1.
  - eapply server_ok_conn; [done|done| |]; [split; [done|]; cbn; by rewrite Hh, Ho|].
    intros p Hok. apply fail_phase_ok. eapply welcomed_phase_ok; [done|by rewrite Hh|].
    intros v (Hv & os & ag & rest & H1 & H2). split; [done|]. exists os, ag, rest. cbn. by rewrite app_nil_r, H2, <- H1.
Qed.

Lemma pong_ok n s id seq now : n + 1 < 2 ^ 64 -> server_ok n s -> server_ok (n + 1) (with_book s (pong (sv_book s) id seq now)).
Proof.
  intros Hn Hs. pose proof (server_ok_mono n (n + 1) s ltac:(lia) Hs) as Hs'.
  assert (Hid : server_ok (n + 1) (with_book s (sv_book s))) by (destruct s; done).
  unfold pong. destruct (book_conn (sv_book s) id) as [c|] eqn:Eb; [|done]. apply book_conn_Some in Eb as [Hc Hci].
  destruct (c_outstanding c) as [[q sent]|] eqn:Ho; [|done]. destruct (_ =? _); [|done].
  destruct Hs' as [[B1 B2 B3 B4 B5] Hids Hnext Hconn Hspawn]. unfold has_hello, awaiting in *. rewrite Hc, Ho in *.
  split; cbn [with_book sv_book sv_sessions sv_next_id]; [|done|done| |].
  - assert (Ep : add_w 64 (b_pongs (sv_book s)) 1 = b_pongs (sv_book s) + 1).
    { unfold add_w. apply wrap_small. unfold fits. lia. }
    split; cbn; unfold has_hello, awaiting; cbn; rewrite ?Ep; try done; lia.
  - intros c' [= <-]. destruct (Hconn c eq_refl) as (p & Hp & Hok). exists p. split; [done|].
    destruct p; cbn in *; unfold not_greeted in *; try naive_solver.
  - intros i Hi. destruct (Hspawn i Hi) as (H1 & H2 & c0 & [= <-] & H3). split; [done|]. split; [done|]. by eexists.
Qed.

Lemma record_hello_ok n s id v os ag now b p' :
  n + 1 < 2 ^ 64 -> server_ok n s -> sv_sessions s !! id = Some (Welcomed v os ag) ->
  (forall c, (exists v, welcomed c v) -> phase_ok c p') ->
  record_hello (sv_book s) id v os ag now = Some b -> server_ok (n + 1) (with_phase (with_book s b) id p').
Proof.
  intros Hn Hs Hp Hph. unfold record_hello.
  destruct (book_conn (sv_book s) id) as [c|] eqn:Eb; [|done]. apply book_conn_Some in Eb as [Hc Hci].
  destruct (session_phase n s id _ c Hs Hp Hc Hci) as [Hok Hsp]. destruct Hs as [[B1 B2 B3 B4 B5] Hids Hnext Hconn _].
  destruct Hok as ((Hh & Ho) & Hsent & Hv). cbn [mbind option_bind]. intros [= <-].
  unfold has_hello, awaiting in *. rewrite Hc, Hh, Ho in *.
  assert (Ec : add_w 64 (b_connects (sv_book s)) 1 = b_connects (sv_book s) + 1).
  { unfold add_w. apply wrap_small. unfold fits. lia. }
  split; cbn [with_book with_phase sv_book sv_sessions sv_next_id].
  - split; cbn; unfold has_hello, awaiting; cbn; rewrite ?Ec, ?Ho; try lia.
  - intros i q [[<- _]|[_ Hq]]%lookup_insert_Some; eauto.
  - lia.
  - intros c' [= <-]. exists p'. split; [left; cbn; by rewrite Hci, lookup_insert_eq|].
    apply Hph. exists v. split; [done|]. exists os, ag, []. cbn. by rewrite Hsent.
  - cbn. by rewrite Hsp.
Qed.

Lemma deliver_frame s w r :
  sv_sessions (deliver s w r) = sv_sessions s /\ sv_next_id (deliver s w r) = sv_next_id s /\ sv_spawning (deliver s w r) = sv_spawning s /\
  exists clip win, sv_book (deliver s w r) = set_waits (sv_book s) clip win.
Proof.
  unfold deliver. destruct (wait_of (sv_book s) w) as [t|] eqn:E.
  - unfold send_reply. destruct (settle_frame (with_book s (set_wait (sv_book s) w None)) t (IValue (Ok r))) as (-> & -> & -> & ->).
    split; [done|]. split; [done|]. split; [done|]. cbn. destruct w; by do 2 eexists.
  - split; [done|]. split; [done|]. split; [done|]. exists (b_clipboard_wait (sv_book s)), (b_window_wait (sv_book s)). by destruct (sv_book s).
Qed.

Lemma on_message_ok sink n s id p m now ok s' :
  n + 1 < 2 ^ 64 -> server_ok n s -> sv_sessions s !! id = Some p -> on_message sink s id p m now ok = Some s' ->
  server_ok (n + 1) s'.
Proof.
  intros Hn Hs Hp. pose proof (server_ok_mono n (n + 1) s ltac:(lia) Hs) as Hs'.
  destruct p; cbn [on_message]; try done.
  - destruct m; try (by intros [= <-]). destruct (negotiate version) as [v|e] eqn:En.
    + assert (Hv : 1 <= v <= PROTOCOL_VERSION).
      { unfold negotiate, MIN_PROTOCOL_VERSION, PROTOCOL_VERSION in *. destruct (Z.ltb_spec version 1); simplify_eq. lia. }
      destruct (shared_write _ _ _ _) as [b|why] eqn:Ew; intros [= <-].
      * apply shared_write_Ok in Ew as (c & Hc & Hci & ->). destruct (session_phase _ _ _ _ _ Hs Hp Hc Hci) as [Hok _]. destruct Hok as [Hng Hsent].
        eapply server_ok_session; [done|done|done|done|done|]. split; [done|]. cbn. by rewrite Hsent.
      * eapply server_ok_phase; [done|done|]. intros c _ _ [Hng Hsent]. right. auto.
    + destruct (shared_write _ _ _ _) as [b|why] eqn:Ew; intros [= <-].
      * apply shared_write_Ok in Ew as (c & Hc & Hci & ->). destruct (session_phase _ _ _ _ _ Hs Hp Hc Hci) as [Hok _]. destruct Hok as [Hng Hsent].
        eapply server_ok_session; [done|done|done|done|done|]. right. split; [done|]. right. left. exists e. cbn. by rewrite Hsent.
      * replace (with_book s (sv_book s)) with s by by destruct s.
        eapply server_ok_phase; [done|done|]. intros c _ _ [Hng Hsent]. right. auto.
  - destruct m; try (by intros [= <-]).
    + destruct (shared_write _ _ _ _) as [b|why] eqn:Ew; intros [= <-].
      * apply shared_write_Ok in Ew as (c & Hc & Hci & ->). eapply server_ok_conn; [done|done|done|].
        destruct (session_phase _ _ _ _ _ Hs Hp Hc Hci) as [Hok _].
        intros q Hq. eapply welcomed_phase_ok; [done| |intros v; apply welcomed_more].
        destruct Hok as (v & _ & ? & ? & ? & Hh & _). by rewrite Hh.
      * eapply server_ok_phase; [done|done|]. intros c _ _ Hw. by left.
    + intros [= <-]. by apply pong_ok.
    + intros [= <-]. destruct sink; [|done]. by destruct Hs'.
    + intros [= <-]. destruct (deliver_frame s WClipboard (RText text)) as (E1 & E2 & E3 & E4). by eapply server_ok_frame.
    + intros [= <-]. destruct (deliver_frame s WWindows (RWindows windows)) as (E1 & E2 & E3 & E4). by eapply server_ok_frame.
Qed.

Lemma finish_ok n s id why :
  n < 2 ^ 64 -> server_ok n s -> sv_sessions s !! id = Some (Ending why) -> server_ok n (finish s id why).
Proof.
  intros Hn Hs Hp. unfold finish. destruct (book_conn (sv_book s) id) as [c|] eqn:Eb.
  - apply book_conn_Some in Eb as [Hc Hci].
    pose proof (server_ok_end n s c (conn_fail c why) why Hn Hs Hc eq_refl) as He. rewrite (no_spawning s) in He by by eapply session_phase.
    destruct (record_end_frame (with_book s (set_conn (sv_book s) None)) (conn_fail c why) why) as (E1 & E2 & E3 & _).
    eapply server_ok_phase; [done|by rewrite E1|]. intros c0. by rewrite E3.
  - eapply server_ok_phase; [done|done|]. intros c Hc Hci. exfalso.
    by rewrite (proj2 (book_conn_Some _ id c) (conj Hc Hci)) in Eb.
Qed.

Lemma set_wait_waits b w v : exists clip win, set_wait b w v = set_waits b clip win.
Proof. destruct w; by do 2 eexists. Qed.

Lemma no_waits b : exists clip win, b = set_waits b clip win.
Proof. exists (b_clipboard_wait b), (b_window_wait b). by destruct b. Qed.

Lemma get_begin_ok n s t w now : server_ok n s -> server_ok n (get_begin s t w now).
Proof.
  intros Hs. unfold get_begin. destruct (bool_decide _); [destruct (wait_of _ _)|];
    (eapply server_ok_frame; [exact Hs|done|done|done|cbn; first [apply no_waits|apply set_wait_waits]]).
Qed.

Lemma send_ok n s m now ok b :
  server_ok n s -> send (sv_book s) m now ok = Ok b -> server_ok n (with_book s b).
Proof.
  intros Hs. unfold send. destruct (negb _); [done|]. destruct (b_conn (sv_book s)) as [c|] eqn:Hc; [|done].
  unfold snapshot. cbn [st_state]. rewrite Hc. cbn [mbind option_bind]. destruct (c_hello c) as [h|] eqn:Hh; [|done].
  destruct ok; [|done]. intros [= <-]. eapply server_ok_conn; [done|done|done|].
  intros p Hq. eapply welcomed_phase_ok; [done|by rewrite Hh|intros v; apply welcomed_more].
Qed.

Section run.
Variables (beat pong_timeout : Z) (shares : list (string * string)) (sink : bool).

Lemma step_ok n a s s' :
  n + 1 < 2 ^ 64 -> server_ok n s -> step beat pong_timeout shares sink a s = Some s' -> server_ok (n + 1) s'.
Proof.
  intros Hn Hs. pose proof (server_ok_mono n (n + 1) s ltac:(lia) Hs) as Hs'.
  destruct a; cbn [step].
  - destruct (sv_spawning s) eqn:Hsp; [done|]. intros [= <-]. by apply accept_ok.
  - destruct (sv_spawning s) as [id|] eqn:Hsp; [|done]. cbn [mbind option_bind]. intros [= <-]. by apply spawned_ok.
  - destruct (sv_spawning s) eqn:Hsp; [done|]. intros [= <-]. by apply beat_ok.
  - destruct (sv_sessions s !! id) as [p|] eqn:Hp; [|done]. by apply on_message_ok.
  - destruct (sv_sessions s !! id) as [[]|] eqn:Hp; try done. cbn [mbind option_bind].
    destruct (record_hello _ _ _ _ _ _) as [b|] eqn:Er; intros [= <-].
    + eapply record_hello_ok; [done|done|done| |done]. intros c Hw. by destruct (_ <=? _).
    + eapply server_ok_phase; [done|done|]. intros c _ _ (Hng & Hsent & Hv). right. split; [done|]. eauto.
  - destruct (sv_sessions s !! id) as [[]|] eqn:Hp; try done. cbn [mbind option_bind].
    destruct rest as [|[tag mp] rest]; [intros [= <-]; by eapply server_ok_phase|].
    destruct (validate _); [|intros [= <-]; by eapply server_ok_phase].
    destruct (shared_write _ _ _ _) as [b|why] eqn:Ew; intros [= <-].
    + apply shared_write_Ok in Ew as (c & Hc & Hci & ->). destruct (session_phase _ _ _ _ _ Hs Hp Hc Hci) as [Hok _]. destruct Hok as [v Hw].
      eapply server_ok_session; [done|done|done|done|done|]. exists v. by apply welcomed_more.
    + eapply server_ok_phase; [done|done|]. intros c _ _ Hw. by left.
  - destruct (sv_sessions s !! id) as [[]|] eqn:Hp; try done; cbn [mbind option_bind]; intros [= <-];
      (eapply server_ok_phase; [done|done|]); intros c _ _ Hw; [right|left]; naive_solver.
  - destruct (sv_sessions s !! id) as [[]|] eqn:Hp; try done. cbn [mbind option_bind]. intros [= <-]. apply finish_ok; [lia|done..].
  - destruct (sv_clients s !! t); [done|]. intros [= <-]. by apply get_begin_ok.
  - destruct (sv_clients s !! t) as [[]|] eqn:Hc; try done. cbn [mbind option_bind].
    destruct (send _ _ _ _) as [b|e] eqn:Es; intros [= <-].
    + eapply server_ok_frame; [by eapply send_ok|done|done|done|apply no_waits].
    + eapply server_ok_frame; [done|done|done|done|apply no_waits].
  - destruct (sv_clients s !! t) as [[| w [] | |]|] eqn:Hc; try done; cbn [mbind option_bind]; intros [= <-];
      (eapply server_ok_frame; [done|done|done|done|apply no_waits]).
  - destruct (sv_clients s !! t) as [[| w [] | |]|] eqn:Hc; try done; cbn [mbind option_bind]; intros [= <-];
      (eapply server_ok_frame; [done|done|done|done|apply no_waits]).
  - destruct (sv_clients s !! t) as [[]|] eqn:Hc; try done; cbn [mbind option_bind]; intros [= <-].
    set (s1 := with_client s t _). destruct (wait_of (sv_book s) w) as [t'|].
    + unfold drop_sender. destruct (settle_frame s1 t' IClosed) as (E1 & E2 & E3 & E4).
      eapply server_ok_frame; [exact Hs'|exact E2|exact E3|exact E4|]. cbn [with_book sv_book]. rewrite E1. apply set_wait_waits.
    + eapply server_ok_frame; [exact Hs'|done|done|done|]. apply set_wait_waits.
  - intros [= <-]. destruct (send _ _ _ _) as [b|e] eqn:Es; [by eapply send_ok|done].
  - destruct (sv_spawning s); [done|]. intros [= <-]. destruct (b_conn (sv_book s)) as [c|] eqn:Hc; cbn [fmap option_fmap option_map].
    + eapply server_ok_conn; [done|done|done|]. intros p. apply fail_phase_ok.
    + replace (with_book s (set_conn (sv_book s) None)) with s; [exact Hs'|]. destruct s as [[] ? ? ? ? ?]; cbn in *; by subst.
Qed.

Fixpoint run (acts : list Step) (s : Server) : option Server :=
  match acts with [] => Some s | a :: acts' => s ← step beat pong_timeout shares sink a s; run acts' s end.

Lemma run_ok acts n s s' :
  n + Z.of_nat (length acts) < 2 ^ 64 -> server_ok n s -> run acts s = Some s' -> server_ok (n + Z.of_nat (length acts)) s'.
Proof.
  revert n s. induction acts as [|a acts IH]; intros n s Hn Hs; cbn [run length].
  - intros [= <-]. by rewrite Z.add_0_r.
  - destruct (step _ _ _ _ a s) as [s1|] eqn:E; [|done]. cbn [mbind option_bind]. intros Hr. cbn [length] in Hn.
    replace (n + Z.of_nat (S (length acts))) with (n + 1 + Z.of_nat (length acts)) by lia.
    apply (IH (n + 1) s1); [lia| |done]. eapply step_ok; [|done|done]. lia.
Qed.

Lemma server_new_ok : server_ok 0 server_new.
Proof. split; cbn; [by split|by intros|lia|by intros|by intros]. Qed.

(** C35: The agent server's bookkeeping is right in every interleaving of its
    threads.  Over any run of critical sections (the service thread's acceptance
    of a connection, the outcome of creating its session thread, heartbeat and
    stop; the session threads' handshakes, shares, messages and ends; the host's
    requests, of every kind that [send] takes, and the waits for their answers),
    of fewer than 2^64 steps: completed handshakes are the connections lost after
    one plus the one still up, pongs counted and the ping awaited never exceed the
    pings sent, and the first message on the current connection is the [Welcome]
    of a supported version, before anything else, or the [Reject] of a connection
    that never becomes connected. *)
Theorem agent_server_invariant (acts : list Step) (s : Server) :
  Z.of_nat (length acts) < 2 ^ 64 -> run acts server_new = Some s ->
  let b := sv_book s in
  b_connects b = b_disconnects b + has_hello b /\ b_ever_connected b = (0 <? b_connects b) /\
  0 <= b_pongs b /\ b_pongs b + awaiting b <= b_pings b /\
  forall c, b_conn b = Some c ->
    (exists v rest, 1 <= v <= PROTOCOL_VERSION /\ c_sent c = Welcome v :: rest /\ (rest <> [] -> c_hello c <> None)) \/
    c_hello c = None /\ (c_sent c = [] \/ exists e, c_sent c = [reject_message e]).
Proof.
  intros Hn Hr. destruct (run_ok acts 0 server_new s ltac:(lia) server_new_ok Hr) as [[B1 B2 B3 B4 B5] _ _ Hc _].
  split; [done|]. split; [done|]. split; [lia|]. split; [lia|]. intros c Hcc. destruct (Hc c Hcc) as (p & _ & Hok).
  assert (Hw : forall v, welcomed c v -> exists v rest, 1 <= v <= PROTOCOL_VERSION /\ c_sent c = Welcome v :: rest /\ (rest <> [] -> c_hello c <> None)).
  { intros v (Hv & os & ag & rest & Hh & Hs). exists v, rest. by rewrite Hh. }
  destruct p; cbn in Hok; unfold not_greeted in Hok; naive_solver.
Qed.

(** *** A clipboard request that cannot be sent *)

Definition clip_busy (c : Client) : Prop :=
  match c with Registered WClipboard _ | Waiting WClipboard _ | TimingOut WClipboard => True | _ => False end.

(** The book holds a clipboard waiter that no thread will take back. *)
Definition wedged (t : nat) (s : Server) : Prop :=
  b_clipboard_wait (sv_book s) = Some t /\ forall t' c, sv_clients s !! t' = Some c -> ~ clip_busy c.

Definition answers_clipboard (a : Step) : Prop := match a with Recv _ (ClipboardGetOk _) _ _ => True | _ => False end.
#[export] Instance answers_clipboard_dec a : Decision (answers_clipboard a).
Proof. destruct a as [| | |id m ? ?| | | | | | | | | | |]; try (right; intros []; fail). destruct m; (left; exact I) || (right; intros []; fail). Defined.

Lemma wedged_client t s t' c : wedged t s -> ~ clip_busy c -> wedged t (with_client s t' c).
Proof. intros [H1 H2] Hc. split; [done|]. cbn. intros t0 c0 [[<- <-]|[_ H]]%lookup_insert_Some; eauto. Qed.

Lemma wedged_frame t s s' :
  wedged t s -> b_clipboard_wait (sv_book s') = b_clipboard_wait (sv_book s) -> sv_clients s' = sv_clients s -> wedged t s'.
Proof. intros [H1 H2] Eb Ec. split; [by rewrite Eb|by rewrite Ec]. Qed.

Lemma wedged_settle t s t' i : wedged t s -> wedged t (settle s t' i).
Proof.
  intros Hw. unfold settle. destruct (sv_clients s !! t') as [[w []|w []| |]|] eqn:E; try done; apply wedged_client; try done;
    pose proof (proj2 Hw _ _ E); by destruct w.
Qed.

Lemma wedged_record_end t s c why : wedged t s -> wedged t (record_end s c why).
Proof.
  intros Hw. unfold record_end. destruct (b_window_wait (sv_book s)) as [t'|]; [|by eapply wedged_frame].
  eapply wedged_frame; [by apply (wedged_settle t s t' (IValue (Err (EGuest why))))| |done]. cbn.
  by destruct (settle_frame s t' (IValue (Err (EGuest why)))) as (-> & _).
Qed.

Lemma heartbeat_clip bt pt b now ok : b_clipboard_wait (heartbeat bt pt b now ok) = b_clipboard_wait b.
Proof. unfold heartbeat. repeat case_match; done. Qed.

Lemma pong_clip b id seq now : b_clipboard_wait (pong b id seq now) = b_clipboard_wait b.
Proof. unfold pong. repeat case_match; done. Qed.

Lemma shared_write_clip b id m ok b' : shared_write b id m ok = Ok b' -> b_clipboard_wait b' = b_clipboard_wait b.
Proof. intros (c & _ & _ & ->)%shared_write_Ok. done. Qed.

Lemma send_clip b m now ok b' : send b m now ok = Ok b' -> b_clipboard_wait b' = b_clipboard_wait b.
Proof. unfold send. repeat case_match; intros; by simplify_eq. Qed.

Lemma wedged_adopt t s id now prepared : wedged t s -> wedged t (adopt s id now prepared).
Proof.
  intros Hw. unfold adopt. destruct prepared; [|done]. cbn [negb].
  set (s1 := match b_conn (sv_book s) with Some _ => _ | None => _ end).
  assert (H1 : wedged t s1).
  { subst s1. destruct (b_conn (sv_book s)); [|done]. apply wedged_record_end. by eapply wedged_frame. }
  by eapply wedged_frame.
Qed.

Lemma wedged_spawned t s id ok : wedged t s -> wedged t (adopt_spawned s id ok).
Proof.
  intros Hw. unfold adopt_spawned. destruct ok; [by eapply wedged_frame|].
  destruct (book_conn _ id); [|by eapply wedged_frame]. apply wedged_record_end. by eapply wedged_frame.
Qed.

Lemma wedged_message t sk s id p m now ok s' :
  wedged t s -> ~ answers_clipboard (Recv id m now ok) -> on_message sk s id p m now ok = Some s' -> wedged t s'.
Proof.
  intros Hw Hna. destruct p; cbn [on_message]; try done.
  - destruct m; try (by intros [= <-]). destruct (negotiate version).
    + destruct (shared_write _ _ _ _) eqn:Ew; intros [= <-]; (eapply wedged_frame; [done| |done]); [|done].
      by apply shared_write_clip in Ew.
    + intros [= <-]. eapply wedged_frame; [done| |done]. cbn. destruct (shared_write _ _ _ _) eqn:Ew; [|done].
      by apply shared_write_clip in Ew.
  - destruct m; try (by intros [= <-]); try (by cbn in Hna).
    + destruct (shared_write _ _ _ _) eqn:Ew; intros [= <-]; (eapply wedged_frame; [done| |done]); [|done].
      by apply shared_write_clip in Ew.
    + intros [= <-]. eapply wedged_frame; [done| |done]. apply pong_clip.
    + intros [= <-]. destruct sk; [|done]. by eapply wedged_frame.
    + intros [= <-]. unfold deliver. destruct (wait_of _ _); [|done]. apply wedged_settle. by eapply wedged_frame.
Qed.

Lemma wedged_step t a s s' :
  wedged t s -> ~ answers_clipboard a -> step beat pong_timeout shares sink a s = Some s' -> wedged t s'.
Proof.
  intros Hw Hna. destruct a; cbn [step].
  - destruct (sv_spawning s); [done|]. intros [= <-]. apply wedged_adopt. by eapply wedged_frame.
  - destruct (sv_spawning s); [|done]. cbn [mbind option_bind]. intros [= <-]. by apply wedged_spawned.
  - destruct (sv_spawning s); [done|]. intros [= <-]. eapply wedged_frame; [done|apply heartbeat_clip|done].
  - destruct (sv_sessions s !! id) as [p|]; [|done]. by eapply wedged_message.
  - destruct (sv_sessions s !! id) as [[]|]; try done. cbn [mbind option_bind]. unfold record_hello.
    destruct (book_conn _ _); intros [= <-]; by eapply wedged_frame.
  - destruct (sv_sessions s !! id) as [[]|]; try done. cbn [mbind option_bind]. destruct rest as [|[]]; [intros [= <-]; by eapply wedged_frame|].
    destruct (validate _); [|intros [= <-]; by eapply wedged_frame].
    destruct (shared_write _ _ _ _) eqn:Ew; intros [= <-]; (eapply wedged_frame; [done| |done]); [|done]. by apply shared_write_clip in Ew.
  - destruct (sv_sessions s !! id) as [[]|]; try done; intros [= <-]; by eapply wedged_frame.
  - destruct (sv_sessions s !! id) as [[]|]; try done. cbn [mbind option_bind]. intros [= <-]. unfold finish.
    eapply wedged_frame with (s := match book_conn (sv_book s) id with Some c => _ | None => s end); [|done|done].
    destruct (book_conn (sv_book s) id); [|done]. apply wedged_record_end. by eapply wedged_frame.
  - destruct (sv_clients s !! t0); [done|]. intros [= <-]. unfold get_begin. destruct (bool_decide _); [|by apply wedged_client].
    destruct (wait_of (sv_book s) w) eqn:E; [by apply wedged_client|]. destruct w; cbn [wait_of] in E; [by rewrite (proj1 Hw) in E|].
    apply wedged_client; [|by intros []]. by eapply wedged_frame.
  - destruct (sv_clients s !! t0) as [[]|] eqn:Hc; try done. cbn [mbind option_bind]. pose proof (proj2 Hw _ _ Hc).
    destruct (send _ _ _ _) eqn:Es; intros [= <-]; (apply wedged_client; [|by destruct w]); [|done].
    eapply wedged_frame; [done|by eapply send_clip|done].
  - destruct (sv_clients s !! t0) as [[| w [] | |]|]; try done; intros [= <-]; by apply wedged_client.
  - destruct (sv_clients s !! t0) as [[| w [] | |]|] eqn:Hc; try done; intros [= <-]. pose proof (proj2 Hw _ _ Hc).
    apply wedged_client; by destruct w.
  - destruct (sv_clients s !! t0) as [[]|] eqn:Hc; try done. cbn [mbind option_bind]. pose proof (proj2 Hw _ _ Hc).
    destruct w; [done|]. intros [= <-]. set (s1 := with_client _ _ _). assert (H1 : wedged t s1) by by apply wedged_client.
    eapply wedged_frame with (s := match wait_of (sv_book s1) WWindows with Some t' => drop_sender s1 t' | None => s1 end); [|done|done].
    destruct (wait_of _ _); [by apply wedged_settle|done].
  - intros [= <-]. destruct (send _ _ _ _) eqn:Es; [|done]. eapply wedged_frame; [done|by eapply send_clip|done].
  - destruct (sv_spawning s); [done|]. intros [= <-]. by eapply wedged_frame.
Qed.

(** A clipboard request that could not be sent wedges the clipboard: once
    the book holds the waiter of a call that has returned, no run without an
    unsolicited clipboard answer (neither reconnecting, nor timeouts, nor
    stopping) clears it, and every later [clipboard_get] is refused. *)
Theorem clipboard_wait_leaks (t : nat) (acts : list Step) (s s' : Server) :
  wedged t s -> Forall (fun a => ~ answers_clipboard a) acts -> run acts s = Some s' ->
  wedged t s' /\
  forall t' now s'', step beat pong_timeout shares sink (GetBegin t' WClipboard now) s' = Some s'' ->
    sv_clients s'' !! t' = Some (Returned (Err EPending)) \/
    exists state, sv_clients s'' !! t' = Some (Returned (Err (ENotConnected state))).
Proof.
  intros Hw Hall Hr. assert (Hw' : wedged t s').
  { revert s Hw Hr. induction Hall as [|a acts Ha _ IH]; intros s Hw; cbn [run]; [by intros [= <-]|].
    destruct (step _ _ _ _ a s) as [s1|] eqn:E; [|done]. apply IH. by eapply wedged_step. }
  split; [done|]. intros t' now s''. cbn [step]. destruct (sv_clients s' !! t'); [done|]. intros [= <-].
  unfold get_begin. cbn [wait_of]. rewrite (proj1 Hw').
  destruct (bool_decide _); cbn; rewrite lookup_insert_eq; [by left|right; by eexists].
Qed.
End run.

(** ** Sample runs *)

#[export] Instance clip_busy_dec c : Decision (clip_busy c).
Proof. destruct c as [[]|[]|[]|]; (left; exact I) || (right; intros []; fail). Defined.

Definition sample_connect : list Step :=
  [Accept 0 true; Spawned true; Recv 1 (Hello 5 "linux" "agent") 0 true; RecordHello 1 10; Share 1 true].
Notation sample_run := (run 2000000000 6000000000 [] true).


(** A heartbeat answered and a host request sent, then a second connection
    replaces the first while a request of the host finds it in its handshake. *)
Lemma agent_server_invariant_witness :
  exists s, sample_run (sample_connect ++ [Beat 3000000000 true; Recv 1 (Pong 1) 3000000500 true; HostSend (SetResolution 800 600) 3000000600 true;
      Accept 4000000000 true; HostSend Shutdown 4000000100 true; Spawned true;
      Recv 2 (Hello 0 "old" "agent") 0 true]) server_new = Some s /\
    b_connects (sv_book s) = b_disconnects (sv_book s) + has_hello (sv_book s) /\ b_disconnects (sv_book s) = 1.
Proof.
  eexists. split; [vm_compute; reflexivity|]. split; [|reflexivity].
  refine (proj1 (agent_server_invariant 2000000000 6000000000 [] true
    (sample_connect ++ [Beat 3000000000 true; Recv 1 (Pong 1) 3000000500 true; HostSend (SetResolution 800 600) 3000000600 true;
      Accept 4000000000 true; HostSend Shutdown 4000000100 true; Spawned true;
      Recv 2 (Hello 0 "old" "agent") 0 true]) _ _ _)); [cbn; lia|vm_compute; reflexivity].
Defined.

(** The socket refuses the clipboard request; the guest reconnects. *)
Definition sample_wedge : list Step := sample_connect ++ [GetBegin 0 WClipboard 20; GetSend 0 20 false].
Definition sample_wedged : Server := default server_new (sample_run sample_wedge server_new).
Definition sample_reconnect : list Step :=
  [ReadFails 1 (ReadEnded Closed); Finish 1; Accept 30 true; Spawned true; Recv 2 (Hello 3 "linux" "agent") 30 true; RecordHello 2 40; Share 2 true].

Lemma sample_wedged_ok : wedged 0 sample_wedged.
Proof.
  split; [vm_compute; reflexivity|].
  assert (H : map_Forall (fun _ c => ~ clip_busy c) (sv_clients sample_wedged)) by (apply (bool_decide_unpack _); vm_compute; exact I).
  intros t' c Hc. exact (H t' c Hc).
Qed.

Lemma clipboard_wait_leaks_witness :
  exists s', sample_run sample_reconnect sample_wedged = Some s' /\ st_state (snapshot (sv_book s') 50) = SConnected /\
    wedged 0 s' /\
    forall t' now s'', step 2000000000 6000000000 [] true (GetBegin t' WClipboard now) s' = Some s'' ->
      sv_clients s'' !! t' = Some (Returned (Err EPending)) \/
      exists state, sv_clients s'' !! t' = Some (Returned (Err (ENotConnected state))).
Proof.
  eexists. split; [vm_compute; reflexivity|]. split; [vm_compute; reflexivity|].
  apply (clipboard_wait_leaks 2000000000 6000000000 [] true 0 sample_reconnect sample_wedged).
  - apply sample_wedged_ok.
  - apply (bool_decide_unpack _). vm_compute. exact I.
  - vm_compute. reflexivity.
Defined.

(** Two clipboard calls: the first times out, its answer arrives before it
    clears its registration, the second registers and sends. *)
Definition sample_race : list Step :=
  sample_connect ++
  [GetBegin 0 WClipboard 20; GetSend 0 20 true; GetTimeout 0; Recv 1 (ClipboardGetOk "late") 30 true;
   GetBegin 1 WClipboard 30; GetSend 1 30 true; GetClear 0; Recv 1 (ClipboardGetOk "fresh") 40 true; GetReturn 1].

(** A call that timed out can cancel the next one: its clean-up clears
    whatever waiter is registered, so a second [clipboard_get] that registered
    after the late answer loses its channel and fails as disconnected although
    the agent is connected and has answered it. *)
Theorem late_timeout_cancels_next_call :
  exists s, sample_run sample_race server_new = Some s /\ st_state (snapshot (sv_book s) 50) = SConnected /\
    sv_clients s !! 0%nat = Some (Returned (Err ETimeout)) /\ sv_clients s !! 1%nat = Some (Returned (Err EDisconnected)).
Proof. eexists. split; [vm_compute; reflexivity|]. split; [vm_compute; reflexivity|]. split; vm_compute; reflexivity. Qed.
