(* ===== verification/Snapshot.v ===== *)
(** * Layered copy-on-write disk images

    Model of [ternvale-snapshot/src/format.rs], [delta.rs] and [stack.rs]: the
    header of a delta file, the allocation bitmap and its rank, reading and
    writing one block of a layer, and the stack of layers over a base image.

    A file is the list of its bytes; reads succeed up to the end of the file.
    Each of the two writes of [write_block] answers with an outcome argument:
    [None] is success and [Some k] an error after the first [k] bytes. *)

From S2P Require Import Prelude.

Definition DELTA_MAGIC : list Z := [84; 86; 68; 83].
Definition DELTA_VERSION : Z := 1.
Definition DEFAULT_BLOCK_SIZE : Z := 65536.
Definition DELTA_HEADER_LEN : Z := 64.

Inductive SnapshotError : Type :=
| SIo
| BadMagic
| UnsupportedVersion (found : Z)
| Truncated
| InvalidManifest (layer_size base_size : Z)
| InvalidRequest
| LayerReadOnly
| PastEnd
| StackReadOnly
| NoLayer.

(** ** Files *)

Definition slice (bs : list Z) (off : Z) (n : nat) : list Z := take n (drop (Z.to_nat off) bs).

(** [read_exact_at]. *)
Definition read_exact_at (file : list Z) (off : Z) (n : nat) : option (list Z) :=
  if off + Z.of_nat n <=? Z.of_nat (length file) then Some (slice file off n) else None.

(** [pwrite]: overwrite, extending the file (with a hole of zeros if needed). *)
Definition overwrite (file : list Z) (off : Z) (data : list Z) : list Z :=
  let o := Z.to_nat off in
  take o file ++ replicate (o - length file) 0 ++ data ++ drop (o + length data) file.

(** [write_all_at] with its outcome. *)
Definition write_all_at (file : list Z) (off : Z) (data : list Z) (io : option nat) : bool * list Z :=
  match io with
  | None => (true, overwrite file off data)
  | Some k => (false, overwrite file off (take k data))
  end.

(** ** [DeltaHeader] *)

Record DeltaHeader := {
  h_virtual_size : Z;
  h_block_size : Z;
  h_bitmap_offset : Z;
  h_bitmap_bytes : Z;
  h_data_offset : Z;
}.

Definition encode (h : DeltaHeader) : list Z :=
  DELTA_MAGIC ++ le_bytes 4 DELTA_VERSION ++ le_bytes 4 (h_block_size h) ++ le_bytes 8 (h_virtual_size h) ++
  le_bytes 8 (h_bitmap_offset h) ++ le_bytes 8 (h_bitmap_bytes h) ++ le_bytes 8 (h_data_offset h) ++ replicate 20 0.

Definition decode (bytes : list Z) : result SnapshotError DeltaHeader :=
  if Z.of_nat (length bytes) <? DELTA_HEADER_LEN then Err Truncated
  else if negb (bool_decide (slice bytes 0 4 = DELTA_MAGIC)) then Err BadMagic
  else
    let version := of_le (slice bytes 4 4) in
    if negb (version =? DELTA_VERSION) then Err (UnsupportedVersion version)
    else
      Ok {| h_virtual_size := of_le (slice bytes 12 8); h_block_size := of_le (slice bytes 8 4);
            h_bitmap_offset := of_le (slice bytes 20 8); h_bitmap_bytes := of_le (slice bytes 28 8);
            h_data_offset := of_le (slice bytes 36 8) |}.

(** [u64::div_ceil]. *)
Definition div_ceil (a b : Z) : Z := a / b + (if 0 <? a mod b then 1 else 0).

Definition block_count (h : DeltaHeader) : Z :=
  if h_block_size h =? 0 then 0 else div_ceil (h_virtual_size h) (h_block_size h).

(** ** The bitmap *)

Definition bitmap_bytes_for_blocks (block_count : Z) : Z := div_ceil block_count 8.

Definition bitmap_test (bitmap : list Z) (block_index : Z) : bool :=
  match get bitmap (block_index / 8) with
  | Some b => negb (Z.land b (Z.shiftl 1 (block_index mod 8)) =? 0)
  | None => false
  end.

Definition bitmap_set (bitmap : list Z) (block_index : Z) : list Z :=
  update_at bitmap (block_index / 8) (fun b => Z.lor b (Z.shiftl 1 (block_index mod 8))).

(** [u8::count_ones]. *)
Definition count_ones (b : Z) : Z :=
  Z.b2z (Z.testbit b 0) + Z.b2z (Z.testbit b 1) + Z.b2z (Z.testbit b 2) + Z.b2z (Z.testbit b 3) +
  Z.b2z (Z.testbit b 4) + Z.b2z (Z.testbit b 5) + Z.b2z (Z.testbit b 6) + Z.b2z (Z.testbit b 7).

Fixpoint sum_ones (bytes : list Z) : Z :=
  match bytes with [] => 0 | b :: bytes' => count_ones b + sum_ones bytes' end.

Definition bitmap_rank_before (bitmap : list Z) (block_index : Z) : Z :=
  let full_bytes := block_index / 8 in
  let rank := sum_ones (take (Z.to_nat full_bytes) bitmap) in
  let remainder := block_index mod 8 in
  if 0 <? remainder then
    let mask := Z.shiftl 1 remainder - 1 in
    match get bitmap full_bytes with Some byte => rank + count_ones (Z.land byte mask) | None => rank end
  else rank.

(** ** [DeltaLayer] *)

Record DeltaLayer := {
  dl_file : list Z;
  dl_header : DeltaHeader;
  dl_bitmap : list Z;
  dl_writable : bool;
}.

Definition layer_open (file : list Z) (writable : bool) : result SnapshotError DeltaLayer :=
  match read_exact_at file 0 (Z.to_nat DELTA_HEADER_LEN) with
  | None => Err SIo
  | Some header_buf =>
      h ← decode header_buf;
      let len := Z.to_nat (h_bitmap_bytes h) in
      match (if h_bitmap_bytes h =? 0 then Some [] else read_exact_at file (h_bitmap_offset h) len) with
      | None => Err SIo
      | Some bitmap => Ok {| dl_file := file; dl_header := h; dl_bitmap := bitmap; dl_writable := writable |}
      end
  end.

(** [DeltaLayer::create]: the header, an empty bitmap, then [set_len]. *)
Definition layer_create (virtual_size : Z) : DeltaLayer :=
  let block_size := DEFAULT_BLOCK_SIZE in
  let aligned := virtual_size - virtual_size mod block_size in
  let blocks := block_count {| h_virtual_size := aligned; h_block_size := block_size; h_bitmap_offset := DELTA_HEADER_LEN;
                               h_bitmap_bytes := 0; h_data_offset := 0 |} in
  let bitmap_bytes := bitmap_bytes_for_blocks blocks in
  let h := {| h_virtual_size := aligned; h_block_size := block_size; h_bitmap_offset := DELTA_HEADER_LEN;
              h_bitmap_bytes := bitmap_bytes; h_data_offset := DELTA_HEADER_LEN + bitmap_bytes |} in
  let bitmap := replicate (Z.to_nat bitmap_bytes) 0 in
  {| dl_file := encode h ++ bitmap; dl_header := h; dl_bitmap := bitmap; dl_writable := true |}.

Definition has_block (l : DeltaLayer) (block_index : Z) : bool := bitmap_test (dl_bitmap l) block_index.

Definition block_offset (l : DeltaLayer) (block_index : Z) : Z :=
  add_w 64 (h_data_offset (dl_header l)) (wrap 64 (bitmap_rank_before (dl_bitmap l) block_index * h_block_size (dl_header l))).

(** [read_block] into a buffer of [buf_len] bytes: the first [block_size] of
    them. *)
Definition read_block (l : DeltaLayer) (block_index : Z) (buf_len : nat) : result SnapshotError (list Z) :=
  let bs := Z.to_nat (h_block_size (dl_header l)) in
  if (buf_len <? bs)%nat then Err InvalidRequest
  else if negb (has_block l block_index) then Err InvalidRequest
  else match read_exact_at (dl_file l) (block_offset l block_index) bs with
       | Some data => Ok data
       | None => Err SIo
       end.

Definition with_file (l : DeltaLayer) (file : list Z) : DeltaLayer :=
  {| dl_file := file; dl_header := dl_header l; dl_bitmap := dl_bitmap l; dl_writable := dl_writable l |}.

(** [write_block] returns the layer too: a failing write leaves the bitmap set
    in memory. *)
Definition write_block (l : DeltaLayer) (block_index : Z) (data : list Z) (io1 io2 : option nat) :
    DeltaLayer * result SnapshotError unit :=
  let bs := Z.to_nat (h_block_size (dl_header l)) in
  if negb (dl_writable l) then (l, Err LayerReadOnly)
  else if (length data <? bs)%nat then (l, Err InvalidRequest)
  else if block_count (dl_header l) <=? block_index then (l, Err InvalidRequest)
  else if has_block l block_index then
    let '(ok, file) := write_all_at (dl_file l) (block_offset l block_index) (take bs data) io1 in
    (with_file l file, if ok then Ok tt else Err SIo)
  else
    let l := {| dl_file := dl_file l; dl_header := dl_header l; dl_bitmap := bitmap_set (dl_bitmap l) block_index;
                dl_writable := dl_writable l |} in
    let offset := Z.of_nat (length (dl_file l)) in
    let '(ok, file) := write_all_at (dl_file l) offset (take bs data) io1 in
    if negb ok then (with_file l file, Err SIo)
    else
      let '(ok, file) := write_all_at file (h_bitmap_offset (dl_header l)) (dl_bitmap l) io2 in
      (with_file l file, if ok then Ok tt else Err SIo).

(** ** [ImageStack] *)

Record ImageStack := {
  st_base : list Z;
  st_layers : list DeltaLayer;
  st_virtual_size : Z;
  st_block_size : Z;
  st_read_only : bool;
}.

(** The loop of [open_manifest] over the deltas, oldest first. *)
Fixpoint open_layers (read_only : bool) (virtual_size : Z) (files : list (list Z)) : result SnapshotError (list DeltaLayer) :=
  match files with
  | [] => Ok []
  | file :: files' =>
      let writable := negb read_only && bool_decide (files' = []) in
      l ← layer_open file writable;
      let layer_size := h_virtual_size (dl_header l) in
      if negb (layer_size =? virtual_size) then Err (InvalidManifest layer_size virtual_size)
      else ls ← open_layers read_only virtual_size files'; Ok (l :: ls)
  end.

Definition open_manifest (base : list Z) (deltas : list (list Z)) (read_only : bool) : result SnapshotError ImageStack :=
  let base_len := Z.of_nat (length base) in
  let block_size := DEFAULT_BLOCK_SIZE in
  let virtual_size := base_len - base_len mod block_size in
  layers ← open_layers read_only virtual_size deltas;
  Ok {| st_base := base; st_layers := layers; st_virtual_size := virtual_size; st_block_size := block_size; st_read_only := read_only |}.

Definition chunk_until_block_end (s : ImageStack) (offset : Z) : Z :=
  let bs := st_block_size s in
  let block_end := (offset / bs) * bs + bs in
  Z.min (block_end - offset) bs.

Definition block_bytes (s : ImageStack) : nat := Z.to_nat (st_block_size s).

(** The base image, zero-filled past its end. *)
Definition read_base (s : ImageStack) (offset : Z) (n : nat) : result SnapshotError (list Z) :=
  if st_virtual_size s <? saturating_add 64 offset (Z.of_nat n) then Err PastEnd
  else let got := slice (st_base s) offset n in Ok (got ++ replicate (n - length got) 0).

(** A block-sized zeroed buffer with the first bytes replaced. *)
Definition into_block (s : ImageStack) (data : list Z) : list Z := data ++ replicate (block_bytes s - length data) 0.

(** [layers[..end].iter().rev()]: newest first. *)
Fixpoint resolve (s : ImageStack) (newest_first : list DeltaLayer) (block_index : Z) : result SnapshotError (option (list Z)) :=
  match newest_first with
  | [] => Ok None
  | l :: older =>
      if has_block l block_index then
        data ← read_block l block_index (block_bytes s); Ok (Some (into_block s data))
      else resolve s older block_index
  end.

Definition read_block_resolved_below (s : ImageStack) (below : nat) (block_index : Z) : result SnapshotError (option (list Z)) :=
  resolve s (rev (take below (st_layers s))) block_index.

Definition read_block_resolved (s : ImageStack) (block_index : Z) : result SnapshotError (option (list Z)) :=
  read_block_resolved_below s (length (st_layers s)) block_index.

Definition read_span (s : ImageStack) (offset : Z) (n : nat) : result SnapshotError (list Z) :=
  let bs := st_block_size s in
  let block_index := offset / bs in
  let within := offset mod bs in
  if (within =? 0) && (n =? block_bytes s)%nat then
    found ← read_block_resolved s block_index;
    match found with Some data => Ok data | None => read_base s offset n end
  else
    found ← read_block_resolved s block_index;
    block ← match found with Some data => Ok data | None => read_base s (block_index * bs) (block_bytes s) end;
    Ok (slice block within n).

(** [read_at], by recursion on a bound for the chunks. *)
Fixpoint read_loop (s : ImageStack) (fuel : nat) (offset : Z) (n : nat) : result SnapshotError (list Z) :=
  match n, fuel with
  | O, _ => Ok []
  | _, O => Err SIo
  | _, S fuel =>
      let chunk := Nat.min n (Z.to_nat (chunk_until_block_end s offset)) in
      bytes ← read_span s offset chunk;
      rest ← read_loop s fuel (offset + Z.of_nat chunk) (n - chunk);
      Ok (bytes ++ rest)
  end.

Definition read_at (s : ImageStack) (offset : Z) (n : nat) : result SnapshotError (list Z) :=
  if st_virtual_size s <? saturating_add 64 offset (Z.of_nat n) then Err PastEnd else read_loop s n offset n.

Definition read_block_for_cow (s : ImageStack) (top_index : nat) (block_index : Z) : result SnapshotError (list Z) :=
  match st_layers s !! top_index with
  | Some top =>
      if has_block top block_index then data ← read_block top block_index (block_bytes s); Ok (into_block s data)
      else
        found ← read_block_resolved_below s top_index block_index;
        match found with
        | Some data => Ok data
        | None => read_base s (block_index * st_block_size s) (block_bytes s)
        end
  | None => Err NoLayer
  end.

Definition with_layers (s : ImageStack) (ls : list DeltaLayer) : ImageStack :=
  {| st_base := st_base s; st_layers := ls; st_virtual_size := st_virtual_size s; st_block_size := st_block_size s;
     st_read_only := st_read_only s |}.

(** [block[within..within + buf.len()].copy_from_slice(buf)] *)
Definition splice (block : list Z) (within : Z) (buf : list Z) : list Z :=
  take (Z.to_nat within) block ++ buf ++ drop (Z.to_nat within + length buf) block.

Definition write_span (s : ImageStack) (layer_index : nat) (offset : Z) (buf : list Z) (io : Z -> option nat * option nat) :
    ImageStack * result SnapshotError unit :=
  let bs := st_block_size s in
  let block_index := offset / bs in
  let within := offset mod bs in
  match read_block_for_cow s layer_index block_index with
  | Err e => (s, Err e)
  | Ok block =>
      match st_layers s !! layer_index with
      | None => (s, Err NoLayer)
      | Some l =>
          let '(l', r) := write_block l block_index (splice block within buf) (fst (io block_index)) (snd (io block_index)) in
          (with_layers s (<[layer_index := l']> (st_layers s)), r)
      end
  end.

Fixpoint write_loop (s : ImageStack) (fuel : nat) (layer_index : nat) (offset : Z) (buf : list Z) (io : Z -> option nat * option nat) :
    ImageStack * result SnapshotError unit :=
  match buf, fuel with
  | [], _ => (s, Ok tt)
  | _, O => (s, Err SIo)
  | _, S fuel =>
      let chunk := Nat.min (length buf) (Z.to_nat (chunk_until_block_end s offset)) in
      match write_span s layer_index offset (take chunk buf) io with
      | (s, Err e) => (s, Err e)
      | (s, Ok _) => write_loop s fuel layer_index (offset + Z.of_nat chunk) (drop chunk buf) io
      end
  end.

Definition write_at (s : ImageStack) (offset : Z) (buf : list Z) (io : Z -> option nat * option nat) :
    ImageStack * result SnapshotError unit :=
  if st_read_only s then (s, Err StackReadOnly)
  else if st_virtual_size s <? saturating_add 64 offset (Z.of_nat (length buf)) then (s, Err PastEnd)
  else match length (st_layers s) with
       | O => (s, Err NoLayer)
       | S layer_index => write_loop s (length buf) layer_index offset buf io
       end.

(** ** Slices *)

Lemma slice_skip a b off n : Z.of_nat (length a) <= off -> slice (a ++ b) off n = slice b (off - Z.of_nat (length a)) n.
Proof. intros Ho. unfold slice. rewrite drop_app_ge by lia. do 2 f_equal. lia. Qed.

Lemma slice_here a b n : length a = n -> slice (a ++ b) 0 n = a.
Proof. intros <-. unfold slice. change (Z.to_nat 0) with 0%nat. by rewrite drop_0, take_app_length. Qed.

Lemma length_slice bs off n : 0 <= off -> off + Z.of_nat n <= Z.of_nat (length bs) -> length (slice bs off n) = n.
Proof. intros H1 H2. unfold slice. rewrite length_take, length_drop. lia. Qed.

Lemma slice_lookup bs off n k : (k < n)%nat -> slice bs off n !! k = bs !! (Z.to_nat off + k)%nat.
Proof. intros Hk. unfold slice. rewrite lookup_take_lt by done. apply lookup_drop. Qed.

Lemma slice_ext a b off off' n :
  0 <= off -> 0 <= off' -> off + Z.of_nat n <= Z.of_nat (length a) -> off' + Z.of_nat n <= Z.of_nat (length b) ->
  (forall k, (k < n)%nat -> a !! (Z.to_nat off + k)%nat = b !! (Z.to_nat off' + k)%nat) -> slice a off n = slice b off' n.
Proof.
  intros H1 H2 H3 H4 H. apply list_eq. intros k. destruct (decide (k < n)%nat).
  - rewrite !slice_lookup by done. auto.
  - rewrite !lookup_ge_None_2; [done|rewrite length_slice by done; lia..].
Qed.

(** Writing inside a file or right at its end. *)
Lemma overwrite_length file off data :
  0 <= off -> length (overwrite file off data) = Nat.max (length file) (Z.to_nat off + length data).
Proof.
  intros Ho. unfold overwrite. rewrite !length_app, length_take, length_replicate, length_drop. lia.
Qed.

Lemma overwrite_lookup file off data k :
  0 <= off <= Z.of_nat (length file) ->
  overwrite file off data !! k =
    if decide ((Z.to_nat off <= k < Z.to_nat off + length data)%nat) then data !! (k - Z.to_nat off)%nat else file !! k.
Proof.
  intros Ho. unfold overwrite. replace (Z.to_nat off - length file)%nat with 0%nat by lia. cbn [replicate app].
  destruct (decide (k < Z.to_nat off)%nat) as [H1|H1].
  - rewrite lookup_app_l by (rewrite length_take; lia). rewrite lookup_take_lt by done. destruct (decide _); [lia|done].
  - rewrite lookup_app_r by (rewrite length_take; lia). rewrite length_take. replace (Z.to_nat off `min` length file)%nat with (Z.to_nat off) by lia.
    destruct (decide _) as [H2|H2].
    + by rewrite lookup_app_l by lia.
    + rewrite lookup_app_r by lia. rewrite lookup_drop. f_equal. lia.
Qed.

Lemma slice_overwrite_same file off data : 0 <= off <= Z.of_nat (length file) -> slice (overwrite file off data) off (length data) = data.
Proof.
  intros Ho. apply list_eq. intros k. destruct (decide (k < length data)%nat) as [Hk|Hk].
  - rewrite slice_lookup by done. rewrite overwrite_lookup by done. destruct (decide _); [f_equal; lia|lia].
  - rewrite !lookup_ge_None_2; [done|lia|]. unfold slice. rewrite length_take. lia.
Qed.

Lemma slice_overwrite_other file off data off' n :
  0 <= off <= Z.of_nat (length file) -> 0 <= off' -> off' + Z.of_nat n <= Z.of_nat (length file) ->
  off' + Z.of_nat n <= off \/ off + Z.of_nat (length data) <= off' ->
  slice (overwrite file off data) off' n = slice file off' n.
Proof.
  intros H1 H2 H3 H4. apply slice_ext; [done|done| |done|].
  - rewrite overwrite_length by lia. lia.
  - intros k Hk. rewrite overwrite_lookup by done. destruct (decide _); [lia|done].
Qed.

(** ** The header *)

Definition header_fits (h : DeltaHeader) : Prop :=
  fits 32 (h_block_size h) /\ fits 64 (h_virtual_size h) /\ fits 64 (h_bitmap_offset h) /\ fits 64 (h_bitmap_bytes h) /\ fits 64 (h_data_offset h).

Lemma length_encode h : length (encode h) = 64%nat.
Proof. unfold encode. rewrite !length_app, !length_le_bytes. done. Qed.

Lemma decode_encode h rest : header_fits h -> decode (encode h ++ rest) = Ok h.
Proof.
  intros (H1 & H2 & H3 & H4 & H5). unfold decode. rewrite length_app, length_encode.
  rewrite (proj2 (Z.ltb_ge _ DELTA_HEADER_LEN)) by (unfold DELTA_HEADER_LEN; lia).
  unfold encode. rewrite <- !app_assoc.
  rewrite slice_here by done. rewrite bool_decide_true by done. cbn [negb].
  rewrite slice_skip by done. cbn [length DELTA_MAGIC]. change (4 - Z.of_nat 4) with 0.
  rewrite slice_here by apply length_le_bytes. change (of_le (le_bytes 4 DELTA_VERSION) =? DELTA_VERSION) with true. cbn [negb].
  rewrite !(slice_skip DELTA_MAGIC) by done. cbn [length DELTA_MAGIC].
  rewrite !(slice_skip (le_bytes 4 DELTA_VERSION)) by (rewrite length_le_bytes; lia). rewrite !length_le_bytes.
  rewrite (slice_here (le_bytes 4 _)) by apply length_le_bytes.
  rewrite !(slice_skip (le_bytes 4 (h_block_size h))) by (rewrite length_le_bytes; lia). rewrite !length_le_bytes.
  rewrite (slice_here (le_bytes 8 (h_virtual_size h))) by apply length_le_bytes.
  rewrite !(slice_skip (le_bytes 8 (h_virtual_size h))) by (rewrite length_le_bytes; lia). rewrite !length_le_bytes.
  rewrite (slice_here (le_bytes 8 (h_bitmap_offset h))) by apply length_le_bytes.
  rewrite !(slice_skip (le_bytes 8 (h_bitmap_offset h))) by (rewrite length_le_bytes; lia). rewrite !length_le_bytes.
  rewrite (slice_here (le_bytes 8 (h_bitmap_bytes h))) by apply length_le_bytes.
  rewrite !(slice_skip (le_bytes 8 (h_bitmap_bytes h))) by (rewrite length_le_bytes; lia). rewrite !length_le_bytes.
  rewrite (slice_here (le_bytes 8 (h_data_offset h))) by apply length_le_bytes.
  rewrite !of_le_le_bytes_fits by done. by destruct h.
Qed.

(** ** Bitmaps *)

Lemma land_bit b k : 0 <= k -> negb (Z.land b (Z.shiftl 1 k) =? 0) = Z.testbit b k.
Proof.
  intros Hk. destruct (Z.eqb_spec (Z.land b (Z.shiftl 1 k)) 0) as [E|E]; cbn.
  - apply (f_equal (fun z => Z.testbit z k)) in E. rewrite Z.land_spec, Z.shiftl_spec, Z.sub_diag, Z.bits_0 in E by done.
    by rewrite andb_true_r in E.
  - symmetry. destruct (Z.testbit b k) eqn:Hb; [done|]. destruct E. apply Z.bits_inj'. intros j Hj.
    rewrite Z.land_spec, Z.shiftl_spec, Z.bits_0 by done. destruct (decide (j = k)) as [->|Hne]; [by rewrite Hb|].
    destruct (decide (j < k)); [by rewrite (Z.testbit_neg_r 1), andb_false_r by lia|].
    rewrite (Z.bits_above_log2 1 (j - k)) by (cbn; lia). apply andb_false_r.
Qed.

Definition byte_of (bm : list Z) (i : Z) : Z := default 0 (bm !! Z.to_nat (i / 8)).

Lemma bitmap_test_bit bm i : 0 <= i -> bitmap_test bm i = Z.testbit (byte_of bm i) (i mod 8).
Proof.
  intros Hi. unfold bitmap_test, byte_of. rewrite get_lookup by (apply Z.div_pos; lia).
  destruct (bm !! _); cbn [from_option id]; [apply land_bit, Z.mod_pos_bound; lia|by rewrite Z.testbit_0_l].
Qed.

Lemma bitmap_set_test bm i j :
  0 <= i -> 0 <= j -> i / 8 < Z.of_nat (length bm) ->
  bitmap_test (bitmap_set bm i) j = bool_decide (i = j) || bitmap_test bm j.
Proof.
  intros Hi Hj Hl. rewrite !bitmap_test_bit by done. unfold byte_of, bitmap_set, update_at.
  pose proof (Z.div_pos i 8 Hi ltac:(lia)). pose proof (Z.div_pos j 8 Hj ltac:(lia)).
  rewrite (proj2 (Z.ltb_ge (i / 8) 0)) by done.
  pose proof (Z.mod_pos_bound i 8 ltac:(lia)). pose proof (Z.mod_pos_bound j 8 ltac:(lia)).
  pose proof (Z.div_mod i 8 ltac:(lia)). pose proof (Z.div_mod j 8 ltac:(lia)).
  destruct (decide (i / 8 = j / 8)) as [E|E].
  - rewrite <- E. rewrite list_lookup_alter_eq. destruct (lookup_lt_is_Some_2 bm (Z.to_nat (i / 8))) as [b Hb]; [lia|].
    rewrite Hb. cbn [fmap option_fmap option_map from_option id]. rewrite Z.lor_spec, Z.shiftl_spec by lia.
    rewrite orb_comm. f_equal. destruct (decide (i = j)) as [->|Hne].
    + by rewrite Z.sub_diag, bool_decide_true.
    + rewrite bool_decide_false by done. destruct (decide (j mod 8 < i mod 8)); [by rewrite Z.testbit_neg_r by lia|].
      apply Z.bits_above_log2; cbn; lia.
  - rewrite list_lookup_alter_ne by lia. rewrite bool_decide_false by (intros ->; lia). done.
Qed.

Lemma length_bitmap_set bm i : length (bitmap_set bm i) = length bm.
Proof. apply length_update_at. Qed.

(** Ones below bit [r], as a sum of bits. *)
Lemma count_ones_mask b r :
  0 <= r < 8 ->
  count_ones (Z.land b (Z.shiftl 1 (r + 1) - 1)) = count_ones (Z.land b (Z.shiftl 1 r - 1)) + Z.b2z (Z.testbit b r).
Proof.
  intros Hr. unfold count_ones. rewrite !Z.land_spec.
  assert (r = 0 \/ r = 1 \/ r = 2 \/ r = 3 \/ r = 4 \/ r = 5 \/ r = 6 \/ r = 7) as Hc by lia.
  destruct Hc as [-> | [-> | [-> | [-> | [-> | [-> | [-> | ->]]]]]]]; cbn -[Z.testbit Z.add];
    repeat match goal with |- context [Z.testbit (Z.pos ?p) ?k] => let v := eval vm_compute in (Z.testbit (Z.pos p) k) in
      change (Z.testbit (Z.pos p) k) with v end;
    rewrite ?Z.testbit_0_l, ?andb_false_r, ?andb_true_r; cbn [Z.b2z]; lia.
Qed.

Lemma count_ones_full b : count_ones (Z.land b (Z.shiftl 1 8 - 1)) = count_ones b.
Proof. unfold count_ones. rewrite !Z.land_spec. cbn -[Z.testbit Z.add]. by rewrite !andb_true_r. Qed.

(** The rank counts the set bits below its argument. *)
Lemma rank_0 bm : bitmap_rank_before bm 0 = 0.
Proof. done. Qed.

Lemma rank_eq bm i :
  0 <= i -> bitmap_rank_before bm i =
    sum_ones (take (Z.to_nat (i / 8)) bm) + count_ones (Z.land (byte_of bm i) (Z.shiftl 1 (i mod 8) - 1)).
Proof.
  intros Hi. unfold bitmap_rank_before, byte_of. rewrite get_lookup by (apply Z.div_pos; lia).
  destruct (Z.ltb_spec 0 (i mod 8)) as [H|H].
  - destruct (bm !! _); cbn [from_option id]; [done|]. rewrite Z.land_0_l. change (count_ones 0) with 0. lia.
  - pose proof (Z.mod_pos_bound i 8 ltac:(lia)). replace (i mod 8) with 0 by lia. cbn [Z.shiftl]. rewrite Z.land_0_r. change (count_ones 0) with 0. lia.
Qed.

Lemma sum_ones_app a b : sum_ones (a ++ b) = sum_ones a + sum_ones b.
Proof. induction a as [|x a IH]; cbn [app sum_ones]; [done|]. rewrite IH. lia. Qed.

Lemma sum_ones_take bm k : sum_ones (take (S k) bm) = sum_ones (take k bm) + count_ones (default 0 (bm !! k)).
Proof.
  destruct (bm !! k) as [b|] eqn:E.
  - rewrite (take_S_r _ _ _ E), sum_ones_app. cbn [sum_ones from_option id]. lia.
  - apply lookup_ge_None_1 in E. rewrite !take_ge by lia. change (count_ones (default 0 None)) with 0. lia.
Qed.

Lemma rank_succ bm i : 0 <= i -> bitmap_rank_before bm (i + 1) = bitmap_rank_before bm i + Z.b2z (bitmap_test bm i).
Proof.
  intros Hi. rewrite !rank_eq, bitmap_test_bit by lia. pose proof (Z.mod_pos_bound i 8 ltac:(lia)) as Hm.
  pose proof (Z.div_mod i 8 ltac:(lia)) as Hd. pose proof (Z.div_pos i 8 Hi ltac:(lia)).
  pose proof (count_ones_mask (byte_of bm i) (i mod 8) Hm) as Hc.
  destruct (decide (i mod 8 = 7)) as [E|E].
  - assert (E1 : (i + 1) / 8 = i / 8 + 1) by (symmetry; apply (Z.div_unique _ _ _ 0); lia).
    assert (E2 : (i + 1) mod 8 = 0) by (symmetry; apply (Z.mod_unique _ _ (i / 8 + 1)); lia).
    rewrite E1, E2, Z2Nat.inj_add by lia. change (Z.to_nat 1) with 1%nat. rewrite Nat.add_1_r, sum_ones_take.
    rewrite E in *. change (7 + 1) with 8 in Hc. rewrite count_ones_full in Hc.
    cbn [Z.shiftl]. rewrite Z.land_0_r. unfold byte_of in *. change (count_ones 0) with 0. lia.
  - assert (E1 : (i + 1) / 8 = i / 8) by (symmetry; apply (Z.div_unique _ _ _ (i mod 8 + 1)); lia).
    assert (E2 : (i + 1) mod 8 = i mod 8 + 1) by (symmetry; apply (Z.mod_unique _ _ (i / 8)); lia).
    unfold byte_of in *. rewrite E1, E2. lia.
Qed.

(** Ranks grow by one at each set bit. *)
Lemma rank_mono bm i j : 0 <= i <= j -> bitmap_rank_before bm i <= bitmap_rank_before bm j.
Proof.
  intros [Hi Hij]. revert Hij. revert j. apply (Z.right_induction (fun j => bitmap_rank_before bm i <= bitmap_rank_before bm j)).
  - intros ? ? ->. done.
  - lia.
  - intros j Hj IH. rewrite <- Z.add_1_r, rank_succ by lia. destruct (bitmap_test bm j); cbn; lia.
Qed.

Lemma rank_lt bm i j : 0 <= i < j -> bitmap_test bm i = true -> bitmap_rank_before bm i < bitmap_rank_before bm j.
Proof.
  intros Hij Hb. pose proof (rank_mono bm (i + 1) j ltac:(lia)) as H. rewrite rank_succ, Hb in H by lia. cbn in H. lia.
Qed.

Lemma rank_bound bm i : 0 <= i -> 0 <= bitmap_rank_before bm i <= i.
Proof.
  revert i. apply (Z.right_induction (fun i => 0 <= bitmap_rank_before bm i <= i)).
  - intros ? ? ->. done.
  - done.
  - intros i Hi IH. rewrite <- Z.add_1_r, rank_succ by done. destruct (bitmap_test bm i); cbn; lia.
Qed.

Lemma rank_set bm i j :
  0 <= i -> 0 <= j -> i / 8 < Z.of_nat (length bm) -> bitmap_test bm i = false ->
  bitmap_rank_before (bitmap_set bm i) j = bitmap_rank_before bm j + (if i <? j then 1 else 0).
Proof.
  intros Hi Hj Hl Hb. revert j Hj. apply (Z.right_induction (fun j => bitmap_rank_before (bitmap_set bm i) j = bitmap_rank_before bm j + (if i <? j then 1 else 0))).
  - intros ? ? ->. done.
  - rewrite !rank_0. destruct (Z.ltb_spec i 0); lia.
  - intros j Hj IH. rewrite <- Z.add_1_r, !rank_succ, IH, bitmap_set_test by done.
    destruct (decide (i = j)) as [->|Hne].
    + rewrite bool_decide_true, Hb by done. cbn [orb Z.b2z]. zbool; lia.
    + rewrite bool_decide_false by done. cbn [orb]. zbool; lia.
Qed.

(** ** Layers *)

Definition total (l : DeltaLayer) : Z := bitmap_rank_before (dl_bitmap l) (block_count (dl_header l)).

Record layer_wf (l : DeltaLayer) : Prop := {
  lw_block : 0 < h_block_size (dl_header l) < 2 ^ 32;
  lw_size : 0 <= h_virtual_size (dl_header l) < 2 ^ 62;
  lw_bitmap_offset : h_bitmap_offset (dl_header l) = DELTA_HEADER_LEN;
  lw_bitmap_bytes : h_bitmap_bytes (dl_header l) = bitmap_bytes_for_blocks (block_count (dl_header l));
  lw_data_offset : h_data_offset (dl_header l) = DELTA_HEADER_LEN + h_bitmap_bytes (dl_header l);
  lw_bitmap : Z.of_nat (length (dl_bitmap l)) = h_bitmap_bytes (dl_header l);
  lw_bits : forall i, 0 <= i -> has_block l i = true -> i < block_count (dl_header l);
  lw_length : Z.of_nat (length (dl_file l)) = h_data_offset (dl_header l) + total l * h_block_size (dl_header l);
  lw_header : slice (dl_file l) 0 64 = encode (dl_header l);
  lw_stored : slice (dl_file l) DELTA_HEADER_LEN (length (dl_bitmap l)) = dl_bitmap l;
}.

Lemma div_ceil_spec a b : 0 < b -> 0 <= a -> a <= div_ceil a b * b < a + b /\ 0 <= div_ceil a b.
Proof.
  intros Hb Ha. unfold div_ceil. pose proof (Z.div_mod a b ltac:(lia)). pose proof (Z.mod_pos_bound a b Hb).
  pose proof (Z.div_pos a b Ha Hb). destruct (Z.ltb_spec 0 (a mod b)); nia.
Qed.

Section layer.
Context (l : DeltaLayer) (Hl : layer_wf l).
Notation bs := (h_block_size (dl_header l)).
Notation bc := (block_count (dl_header l)).

Lemma block_count_spec : 0 <= bc /\ bc * bs < 2 ^ 62 + 2 ^ 32.
Proof.
  destruct Hl. unfold block_count. rewrite (proj2 (Z.eqb_neq bs 0)) by lia.
  pose proof (div_ceil_spec (h_virtual_size (dl_header l)) bs ltac:(lia) ltac:(lia)). lia.
Qed.

Lemma bitmap_covers i : 0 <= i < bc -> i / 8 < Z.of_nat (length (dl_bitmap l)).
Proof.
  intros Hi. rewrite lw_bitmap, lw_bitmap_bytes by done. unfold bitmap_bytes_for_blocks.
  pose proof (div_ceil_spec bc 8 ltac:(lia) ltac:(lia)). apply Z.div_lt_upper_bound; lia.
Qed.

Lemma data_offset_spec : DELTA_HEADER_LEN <= h_data_offset (dl_header l) < 2 ^ 60.
Proof.
  pose proof block_count_spec as Hb. destruct Hl. rewrite lw_data_offset0, lw_bitmap_bytes0. unfold DELTA_HEADER_LEN, bitmap_bytes_for_blocks.
  pose proof (div_ceil_spec bc 8 ltac:(lia) ltac:(lia)). nia.
Qed.

Definition slot (k : Z) : list Z := slice (dl_file l) (h_data_offset (dl_header l) + k * bs) (Z.to_nat bs).

Lemma block_offset_eq i : 0 <= i <= bc ->
  block_offset l i = h_data_offset (dl_header l) + bitmap_rank_before (dl_bitmap l) i * bs.
Proof.
  intros Hi. pose proof block_count_spec. pose proof data_offset_spec. pose proof (rank_bound (dl_bitmap l) i ltac:(lia)).
  pose proof (lw_block _ Hl). unfold DELTA_HEADER_LEN in *.
  assert (0 <= bitmap_rank_before (dl_bitmap l) i * bs <= bc * bs) by nia.
  unfold block_offset, add_w. rewrite (wrap_small 64 (_ * _)) by (unfold fits; lia). apply wrap_small. unfold fits. lia.
Qed.

(** A set block has a whole slot of the file. *)
Lemma set_rank i : 0 <= i -> has_block l i = true -> i < bc /\ 0 <= bitmap_rank_before (dl_bitmap l) i < total l.
Proof.
  intros Hi Hb. pose proof (lw_bits _ Hl i Hi Hb) as Hic. split; [done|]. split; [by apply rank_bound|]. by apply rank_lt.
Qed.

Lemma slot_inside k : 0 <= k < total l -> h_data_offset (dl_header l) + k * bs + bs <= Z.of_nat (length (dl_file l)).
Proof. intros Hk. rewrite lw_length by done. pose proof (lw_block _ Hl). nia. Qed.

Lemma read_block_slot i n :
  0 <= i -> has_block l i = true -> (Z.to_nat bs <= n)%nat -> read_block l i n = Ok (slot (bitmap_rank_before (dl_bitmap l) i)).
Proof.
  intros Hi Hb Hn. destruct (set_rank i Hi Hb) as [Hic Hr]. unfold read_block.
  rewrite (proj2 (Nat.ltb_ge _ _)), Hb by done. cbn [negb]. rewrite block_offset_eq by lia.
  unfold read_exact_at. pose proof (slot_inside _ Hr). pose proof (lw_block _ Hl).
  rewrite (proj2 (Z.leb_le _ _)) by lia. done.
Qed.

Lemma length_slot k : 0 <= k < total l -> length (slot k) = Z.to_nat bs.
Proof.
  intros Hk. unfold slot. pose proof (slot_inside k Hk). pose proof (lw_block _ Hl). pose proof data_offset_spec. unfold DELTA_HEADER_LEN in *.
  apply length_slice; nia.
Qed.

(** The rank past the last set block. *)
Lemma rank_top i : 0 <= i <= bc -> (forall j, i <= j -> has_block l j = false) -> bitmap_rank_before (dl_bitmap l) i = total l.
Proof.
  intros Hi Hno. unfold total. assert (H : forall j, i <= j -> bitmap_rank_before (dl_bitmap l) j = bitmap_rank_before (dl_bitmap l) i).
  { apply (Z.right_induction (fun j => bitmap_rank_before (dl_bitmap l) j = bitmap_rank_before (dl_bitmap l) i)).
    - intros ? ? ->. done.
    - done.
    - intros j Hj IH. rewrite <- Z.add_1_r, rank_succ, IH by lia. unfold has_block in Hno. rewrite Hno by done. cbn. lia. }
  symmetry. apply H. lia.
Qed.
End layer.

(** *** Writing a block the layer has *)

Lemma write_present l i data :
  layer_wf l -> dl_writable l = true -> 0 <= i -> has_block l i = true -> length data = Z.to_nat (h_block_size (dl_header l)) ->
  exists l', write_block l i data None None = (l', Ok tt) /\ layer_wf l' /\ dl_header l' = dl_header l /\ dl_bitmap l' = dl_bitmap l /\
    dl_writable l' = true /\
    forall k, 0 <= k < total l -> slot l' k = if decide (k = bitmap_rank_before (dl_bitmap l) i) then data else slot l k.
Proof.
  intros Hl Hw Hi Hb Hd. destruct (set_rank l Hl i Hi Hb) as [Hic Hr]. unfold write_block. rewrite Hw, Hb, Hd, Nat.ltb_irrefl. cbn [negb].
  rewrite (proj2 (Z.leb_gt _ _)) by done. rewrite firstn_all2 by lia. cbn [write_all_at].
  rewrite block_offset_eq by (done || lia). set (off := h_data_offset (dl_header l) + _).
  pose proof (slot_inside l Hl _ Hr) as Hin. pose proof (data_offset_spec l Hl) as Hdo. pose proof (lw_block l Hl). fold off in Hin.
  assert (Hoff : h_data_offset (dl_header l) <= off) by (subst off; nia). unfold DELTA_HEADER_LEN in Hdo.
  assert (Hlen : length (overwrite (dl_file l) off data) = length (dl_file l)) by (rewrite overwrite_length by lia; lia).
  eexists. split; [reflexivity|]. split; [|split; [done|split; [done|split; [done|]]]].
  - pose proof Hl as []. split; cbn [with_file dl_file dl_header dl_bitmap]; try done.
    + rewrite Hlen. done.
    + rewrite slice_overwrite_other by lia. done.
    + rewrite slice_overwrite_other; [done|lia|done|unfold DELTA_HEADER_LEN in *; lia|]. left. unfold DELTA_HEADER_LEN in *. lia.
  - intros k Hk. unfold slot. cbn [with_file dl_file dl_header]. destruct (decide _) as [->|Hne].
    + rewrite <- Hd. apply slice_overwrite_same. lia.
    + pose proof (slot_inside l Hl k Hk). apply slice_overwrite_other; [lia|nia|lia|]. subst off. nia.
Qed.

(** *** Writing a block the layer does not have *)

Lemma write_absent l i data :
  layer_wf l -> dl_writable l = true -> 0 <= i < block_count (dl_header l) -> has_block l i = false ->
  length data = Z.to_nat (h_block_size (dl_header l)) ->
  exists l', write_block l i data None None = (l', Ok tt) /\ layer_wf l' /\ dl_header l' = dl_header l /\
    dl_bitmap l' = bitmap_set (dl_bitmap l) i /\ dl_writable l' = true /\ total l' = total l + 1 /\
    slot l' (total l) = data /\ forall k, 0 <= k < total l -> slot l' k = slot l k.
Proof.
  intros Hl Hw Hi Hb Hd. unfold write_block. rewrite Hw, Hb, Hd, Nat.ltb_irrefl. cbn [negb].
  rewrite (proj2 (Z.leb_gt _ _)) by lia. rewrite firstn_all2 by lia. cbn [write_all_at negb with_file dl_file dl_header dl_bitmap].
  pose proof (bitmap_covers l Hl i Hi) as Hcov. pose proof (data_offset_spec l Hl) as Hdo. pose proof (lw_block l Hl) as Hbs.
  pose proof (lw_length l Hl) as Hlen. pose proof (lw_bitmap l Hl) as Hbm. pose proof (lw_data_offset l Hl) as Hda.
  set (f1 := overwrite (dl_file l) (Z.of_nat (length (dl_file l))) data).
  set (bm := bitmap_set (dl_bitmap l) i).
  assert (Hbml : length bm = length (dl_bitmap l)) by apply length_bitmap_set.
  assert (Htot : bitmap_rank_before bm (block_count (dl_header l)) = total l + 1).
  { subst bm. rewrite rank_set by (done || lia). unfold total. destruct (Z.ltb_spec i (block_count (dl_header l))); lia. }
  assert (Ht0 : 0 <= total l) by (apply rank_bound; lia).
  assert (Hf1 : length f1 = (length (dl_file l) + length data)%nat) by (subst f1; rewrite overwrite_length by lia; lia).
  assert (Htb : 0 <= total l * h_block_size (dl_header l)) by nia.
  unfold DELTA_HEADER_LEN in *.
  assert (H64 : 64 <= Z.of_nat (length f1)) by (rewrite Hf1; lia).
  assert (Hbo : h_bitmap_offset (dl_header l) = 64) by apply (lw_bitmap_offset l Hl). rewrite Hbo.
  assert (Hf2 : length (overwrite f1 64 bm) = length f1) by (rewrite overwrite_length by lia; nia).
  eexists. split; [reflexivity|].
  assert (Hslot : forall k n, h_data_offset (dl_header l) <= k -> k + Z.of_nat n <= Z.of_nat (length f1) ->
    slice (overwrite f1 64 bm) k n = slice f1 k n).
  { intros k n H1 H2. apply slice_overwrite_other; [lia|lia|lia|]. right. lia. }
  split; [|split; [done|split; [done|split; [done|split; [done|split]]]]].
  - pose proof Hl as []. unfold DELTA_HEADER_LEN in *. split; cbn [with_file dl_file dl_header dl_bitmap]; try done.
    + rewrite Hbml. done.
    + intros j Hj. unfold has_block. cbn [with_file dl_bitmap]. subst bm. rewrite bitmap_set_test by (done || lia).
      destruct (bool_decide_reflect (i = j)) as [<-|]; [intros; lia|]. cbn [orb]. by apply lw_bits0.
    + unfold total. cbn [with_file dl_bitmap dl_header]. rewrite Htot, Hf2, Hf1. fold (total l). lia.
    + rewrite slice_overwrite_other; [|done|done|done|by left]. subst f1. rewrite slice_overwrite_other; [done|lia|done|lia|lia].
    + apply slice_overwrite_same. done.
  - unfold slot. cbn [with_file dl_file dl_header]. rewrite Hslot by (rewrite ?Hf1; nia). subst f1. rewrite <- Hlen, <- Hd. apply slice_overwrite_same. lia.
  - intros k Hk. unfold slot. cbn [with_file dl_file dl_header]. pose proof (slot_inside l Hl k Hk).
    rewrite Hslot by (rewrite ?Hf1; nia). subst f1. apply slice_overwrite_other; nia.
Qed.

(** *** Fresh and reopened layers *)

Lemma bitmap_empty n i : 0 <= i -> bitmap_test (replicate n 0) i = false.
Proof.
  intros Hi. rewrite bitmap_test_bit by done. unfold byte_of.
  destruct (replicate n 0 !! Z.to_nat (i / 8)) as [b|] eqn:E; [|apply Z.testbit_0_l].
  apply lookup_replicate in E as [-> _]. apply Z.testbit_0_l.
Qed.

Lemma rank_empty n i : 0 <= i -> bitmap_rank_before (replicate n 0) i = 0.
Proof.
  revert i. apply (Z.right_induction (fun i => bitmap_rank_before (replicate n 0) i = 0)).
  - intros ? ? ->. done.
  - done.
  - intros i Hi IH. rewrite <- Z.add_1_r, rank_succ, IH, bitmap_empty by done. done.
Qed.

Lemma layer_create_wf vs :
  0 <= vs < 2 ^ 62 ->
  layer_wf (layer_create vs) /\ dl_writable (layer_create vs) = true /\
  h_virtual_size (dl_header (layer_create vs)) = vs - vs mod DEFAULT_BLOCK_SIZE /\
  h_block_size (dl_header (layer_create vs)) = DEFAULT_BLOCK_SIZE /\ forall i, 0 <= i -> has_block (layer_create vs) i = false.
Proof.
  intros Hvs. unfold DEFAULT_BLOCK_SIZE. pose proof (Z.mod_pos_bound vs 65536 ltac:(lia)). pose proof (Z.mod_le vs 65536 ltac:(lia) ltac:(lia)).
  set (h := dl_header (layer_create vs)).
  assert (Hbc : block_count h = div_ceil (vs - vs mod 65536) 65536) by done.
  assert (Hb8 : h_bitmap_bytes h = div_ceil (block_count h) 8) by done.
  pose proof (div_ceil_spec (vs - vs mod 65536) 65536 ltac:(lia) ltac:(lia)) as Hdc. rewrite <- Hbc in Hdc.
  pose proof (div_ceil_spec (block_count h) 8 ltac:(lia) ltac:(lia)) as Hd8. rewrite <- Hb8 in Hd8.
  assert (Hbm : dl_bitmap (layer_create vs) = replicate (Z.to_nat (h_bitmap_bytes h)) 0) by done.
  assert (Hfile : dl_file (layer_create vs) = encode h ++ replicate (Z.to_nat (h_bitmap_bytes h)) 0) by done.
  assert (Hdo : h_data_offset h = DELTA_HEADER_LEN + h_bitmap_bytes h) by done.
  assert (Hno : forall i, 0 <= i -> has_block (layer_create vs) i = false) by (intros i Hi; by apply bitmap_empty).
  split; [|by split_and!]. split; fold h; try done.
  - change (h_virtual_size h) with (vs - vs mod 65536). lia.
  - rewrite Hbm, length_replicate. lia.
  - intros i Hi Hb. by rewrite Hno in Hb.
  - unfold total. fold h. rewrite Hbm, rank_empty, Hfile, Hdo, length_app, length_encode, length_replicate by lia.
    unfold DELTA_HEADER_LEN. lia.
  - rewrite Hfile, Hbm, length_replicate. rewrite slice_skip by (rewrite length_encode; done). rewrite length_encode.
    change (DELTA_HEADER_LEN - Z.of_nat 64) with 0. unfold slice. change (Z.to_nat 0) with 0%nat. rewrite drop_0. apply firstn_all2.
    rewrite length_replicate. lia.
Qed.

Lemma layer_wf_fits l : layer_wf l -> header_fits (dl_header l).
Proof.
  intros Hl. pose proof (data_offset_spec l Hl). destruct Hl. unfold header_fits, fits, DELTA_HEADER_LEN in *. lia.
Qed.

Lemma layer_reopen l w :
  layer_wf l -> layer_open (dl_file l) w =
    Ok {| dl_file := dl_file l; dl_header := dl_header l; dl_bitmap := dl_bitmap l; dl_writable := w |}.
Proof.
  intros Hl. pose proof (layer_wf_fits l Hl) as Hf. pose proof (data_offset_spec l Hl) as Hd.
  pose proof (block_count_spec l Hl) as Hbc. pose proof (rank_bound (dl_bitmap l) _ (proj1 Hbc)) as Hr.
  destruct Hl. unfold layer_open, read_exact_at. unfold total, DELTA_HEADER_LEN in *.
  rewrite (proj2 (Z.leb_le _ _)) by (change (Z.of_nat (Z.to_nat 64)) with 64; nia).
  change (Z.to_nat 64) with 64%nat. rewrite lw_header0. rewrite <- (app_nil_r (encode _)), decode_encode by done.
  cbn [mbind result_bind]. destruct (Z.eqb_spec (h_bitmap_bytes (dl_header l)) 0) as [E|E].
  - rewrite E in lw_bitmap0. destruct (dl_bitmap l); [done|cbn in lw_bitmap0; lia].
  - rewrite <- lw_bitmap0, Nat2Z.id, lw_bitmap_offset0. rewrite (proj2 (Z.leb_le _ _)) by nia. by rewrite lw_stored0.
Qed.

(** ** Reading back what was written *)

(** The write is in place, or it appends past every block the layer has. *)
Definition in_order (l : DeltaLayer) (i : Z) : Prop := has_block l i = true \/ forall j, i < j -> has_block l j = false.

Lemma has_block_range l i : layer_wf l -> 0 <= i -> block_count (dl_header l) <= i -> has_block l i = false.
Proof. intros Hl Hi Hb. destruct (has_block l i) eqn:E; [|done]. apply lw_bits in E; [lia|done|done]. Qed.

(** Which blocks a layer holds and what each reads as, after a write in order. *)
Lemma write_in_order l i data :
  layer_wf l -> dl_writable l = true -> 0 <= i < block_count (dl_header l) -> length data = Z.to_nat (h_block_size (dl_header l)) ->
  in_order l i ->
  exists l', write_block l i data None None = (l', Ok tt) /\ layer_wf l' /\ dl_header l' = dl_header l /\ dl_writable l' = true /\
    (forall j, 0 <= j -> has_block l' j = bool_decide (i = j) || has_block l j) /\
    forall j n, 0 <= j -> (Z.to_nat (h_block_size (dl_header l)) <= n)%nat ->
      read_block l' j n = if decide (i = j) then Ok data else read_block l j n.
Proof.
  intros Hl Hw Hi Hd Hord. destruct (has_block l i) eqn:Hb.
  - destruct (write_present l i data Hl Hw ltac:(lia) Hb Hd) as (l' & E & Hl' & Hh & Hm & Hw' & Hs).
    assert (Hhas : forall j, has_block l' j = has_block l j) by (intros j; unfold has_block; by rewrite Hm).
    exists l'. split; [done|]. split; [done|]. split; [done|]. split; [done|]. split.
    + intros j Hj. rewrite Hhas. destruct (bool_decide_reflect (i = j)) as [<-|]; [by rewrite Hb|done].
    + intros j n Hj Hn. destruct (has_block l j) eqn:Hbj.
      * rewrite (read_block_slot l' Hl'), (read_block_slot l Hl) by (rewrite ?Hhas, ?Hh; done).
        destruct (set_rank l Hl j Hj Hbj) as [Hjc Hr]. rewrite Hm, Hs by done.
        destruct (decide (i = j)) as [->|Hne]; [by rewrite decide_True|]. rewrite decide_False; [done|].
        intros Heq. unfold has_block in *. destruct (decide (i < j)) as [Hlt|Hge].
        -- pose proof (rank_lt (dl_bitmap l) i j ltac:(lia) Hb). lia.
        -- pose proof (rank_lt (dl_bitmap l) j i ltac:(lia) Hbj). lia.
      * rewrite decide_False by congruence. unfold read_block. rewrite Hhas, Hh, Hbj. done.
  - destruct (write_absent l i data Hl Hw Hi Hb Hd) as (l' & E & Hl' & Hh & Hm & Hw' & Ht & Hnew & Hs).
    destruct Hord as [|Habove]; [congruence|]. pose proof (bitmap_covers l Hl i Hi) as Hcov.
    assert (Hhas : forall j, 0 <= j -> has_block l' j = bool_decide (i = j) || has_block l j).
    { intros j Hj. unfold has_block. rewrite Hm. apply bitmap_set_test; done || lia. }
    exists l'. split; [done|]. split; [done|]. split; [done|]. split; [done|]. split; [done|].
    assert (Hi_top : bitmap_rank_before (dl_bitmap l) i = total l).
    { apply rank_top; [lia|]. intros j Hj. destruct (decide (i = j)) as [<-|]; [done|]. apply Habove. lia. }
    intros j n Hj Hn. destruct (decide (i = j)) as [<-|Hne].
    + rewrite (read_block_slot l' Hl') by (rewrite ?Hhas, ?Hh, ?bool_decide_true by done; done).
      rewrite Hm, rank_set by (done || lia). rewrite Z.ltb_irrefl, Z.add_0_r, Hi_top. by rewrite Hnew.
    + destruct (has_block l j) eqn:Hbj.
      * rewrite (read_block_slot l' Hl'), (read_block_slot l Hl) by (rewrite ?Hhas, ?Hh by done; rewrite ?Hbj, ?orb_true_r; done).
        destruct (set_rank l Hl j Hj Hbj) as [Hjc Hr]. rewrite Hm, rank_set by (done || lia).
        destruct (Z.ltb_spec i j) as [Hlt|Hge]; [by rewrite Habove in Hbj by done|]. rewrite Z.add_0_r. by rewrite Hs.
      * unfold read_block. rewrite Hhas, Hh, Hbj, bool_decide_false by done. done.
Qed.

(** A layer keeps what is written in order: a block written in place, or
    past every block the layer holds, reads back as the data written, every
    other block reads as before, and reopening the file gives the same layer. *)
Theorem delta_block_roundtrip (l : DeltaLayer) (i : Z) (data : list Z) :
  layer_wf l -> dl_writable l = true -> 0 <= i < block_count (dl_header l) ->
  length data = Z.to_nat (h_block_size (dl_header l)) -> in_order l i ->
  exists l', write_block l i data None None = (l', Ok tt) /\ layer_wf l' /\ layer_open (dl_file l') true = Ok l' /\
    forall j n, 0 <= j -> (Z.to_nat (h_block_size (dl_header l)) <= n)%nat ->
      read_block l' j n = if decide (i = j) then Ok data else read_block l j n.
Proof.
  intros Hl Hw Hi Hd Ho. destruct (write_in_order l i data Hl Hw Hi Hd Ho) as (l' & E & Hl' & _ & Hw' & _ & Hr).
  exists l'. split; [done|]. split; [done|]. split; [|done]. rewrite layer_reopen by done. rewrite <- Hw'. by destruct l'.
Qed.

(** A first write below a block the layer already holds corrupts the
    layer: the data are appended at the end of the file while blocks are looked
    up by rank, so the layer's highest block now reads as the data meant for
    the lower one, and the lower one reads as the block that was next above it. *)
Theorem delta_unordered_write_corrupts (l : DeltaLayer) (i next top : Z) (data : list Z) (n : nat) :
  layer_wf l -> dl_writable l = true -> length data = Z.to_nat (h_block_size (dl_header l)) ->
  0 <= i < next -> next <= top -> (Z.to_nat (h_block_size (dl_header l)) <= n)%nat ->
  has_block l i = false -> has_block l next = true -> (forall j, i < j < next -> has_block l j = false) ->
  has_block l top = true -> (forall j, top < j -> has_block l j = false) ->
  exists l', write_block l i data None None = (l', Ok tt) /\
    read_block l' top n = Ok data /\ read_block l' i n = read_block l next n.
Proof.
  intros Hl Hw Hd Hi Hnt Hn Hbi Hbn Hgap Hbt Htop. pose proof (lw_bits l Hl top ltac:(lia) Hbt) as Htc.
  assert (Hic : 0 <= i < block_count (dl_header l)) by lia.
  destruct (write_absent l i data Hl Hw Hic Hbi Hd) as (l' & E & Hl' & Hh & Hm & Hw' & Ht & Hnew & Hs).
  pose proof (bitmap_covers l Hl i Hic) as Hcov. exists l'. split; [done|].
  assert (Hhas : forall j, 0 <= j -> has_block l' j = bool_decide (i = j) || has_block l j).
  { intros j Hj. unfold has_block. rewrite Hm. apply bitmap_set_test; done || lia. }
  assert (Hrt : bitmap_rank_before (dl_bitmap l) top + 1 = total l).
  { rewrite <- (rank_top l (top + 1)) by (try lia; intros j Hj; apply Htop; lia).
    rewrite rank_succ by lia. unfold has_block in Hbt. by rewrite Hbt. }
  assert (Hri : bitmap_rank_before (dl_bitmap l) i = bitmap_rank_before (dl_bitmap l) next).
  { assert (H : forall j, i <= j -> j <= next -> bitmap_rank_before (dl_bitmap l) j = bitmap_rank_before (dl_bitmap l) i); [|symmetry; apply H; lia].
    apply (Z.right_induction (fun j => j <= next -> bitmap_rank_before (dl_bitmap l) j = bitmap_rank_before (dl_bitmap l) i)).
    - intros ? ? ->. done.
    - done.
    - intros j Hj IH Hjn. rewrite <- Z.add_1_r, rank_succ, IH by lia. unfold has_block in *.
      destruct (decide (i = j)) as [<-|]; [rewrite Hbi; cbn; lia|]. rewrite Hgap by lia. cbn. lia. }
  destruct (set_rank l Hl next ltac:(lia) Hbn) as [_ Hrn]. split.
  - rewrite (read_block_slot l' Hl') by (rewrite ?Hhas, ?Hh by lia; rewrite ?Hbt, ?orb_true_r; done || lia).
    rewrite Hm, rank_set by (done || lia). destruct (Z.ltb_spec i top); [|lia]. by rewrite Hrt, Hnew.
  - rewrite (read_block_slot l' Hl'), (read_block_slot l Hl) by (rewrite ?Hhas, ?Hh, ?bool_decide_true by (done || lia); done || lia).
    rewrite Hm, rank_set by (done || lia). rewrite Z.ltb_irrefl, Z.add_0_r, Hri. by rewrite Hs.
Qed.

(** ** The stack *)

Record stack_wf (s : ImageStack) : Prop := {
  sw_block : 0 < st_block_size s < 2 ^ 32;
  sw_size : 0 <= st_virtual_size s < 2 ^ 62;
  sw_aligned : st_virtual_size s mod st_block_size s = 0;
  sw_base : st_virtual_size s <= Z.of_nat (length (st_base s));
  sw_layers : Forall (fun l => layer_wf l /\ h_block_size (dl_header l) = st_block_size s /\
                               h_virtual_size (dl_header l) = st_virtual_size s) (st_layers s);
}.

(** The newest layer that holds the block. *)
Fixpoint newest (ls : list DeltaLayer) (i : Z) : option (list Z) :=
  match ls with
  | [] => None
  | l :: ls' => if has_block l i then Some (slot l (bitmap_rank_before (dl_bitmap l) i)) else newest ls' i
  end.

(** What the disk holds: block by block, and byte by byte. *)
Definition stack_block (s : ImageStack) (i : Z) : list Z :=
  match newest (rev (st_layers s)) i with
  | Some data => data
  | None => slice (st_base s) (i * st_block_size s) (block_bytes s)
  end.

Definition stack_byte (s : ImageStack) (a : Z) : option Z :=
  stack_block s (a / st_block_size s) !! Z.to_nat (a mod st_block_size s).

Section stack.
Context (s : ImageStack) (Hs : stack_wf s).
Notation bs := (st_block_size s).

Lemma resolve_newest ls i :
  0 <= i -> Forall (fun l => layer_wf l /\ h_block_size (dl_header l) = bs /\ h_virtual_size (dl_header l) = st_virtual_size s) ls ->
  resolve s ls i = Ok (newest ls i).
Proof.
  intros Hi. induction 1 as [|l ls (Hl & Hb & _) _ IH]; cbn [resolve newest]; [done|].
  destruct (has_block l i) eqn:E; [|done]. rewrite (read_block_slot l Hl) by (rewrite ?Hb; done).
  cbn [mbind result_bind]. unfold into_block. destruct (set_rank l Hl i Hi E) as [_ Hr].
  rewrite (length_slot l Hl) by done. rewrite Hb. unfold block_bytes. by rewrite Nat.sub_diag, app_nil_r.
Qed.

Lemma read_block_resolved_spec i : 0 <= i -> read_block_resolved s i = Ok (newest (rev (st_layers s)) i).
Proof.
  intros Hi. unfold read_block_resolved, read_block_resolved_below. rewrite firstn_all. apply resolve_newest; [done|].
  apply Forall_rev, Hs.
Qed.

Lemma read_base_spec off n :
  0 <= off -> off + Z.of_nat n <= st_virtual_size s -> read_base s off n = Ok (slice (st_base s) off n).
Proof.
  intros Ho Hn. pose proof (sw_size s Hs). pose proof (sw_base s Hs). unfold read_base, saturating_add.
  rewrite (proj2 (Z.ltb_ge _ _)) by lia. rewrite length_slice by lia. by rewrite Nat.sub_diag, app_nil_r.
Qed.

Lemma newest_length ls i d :
  0 <= i -> Forall (fun l => layer_wf l /\ h_block_size (dl_header l) = bs /\ h_virtual_size (dl_header l) = st_virtual_size s) ls ->
  newest ls i = Some d -> length d = block_bytes s.
Proof.
  intros Hi. induction 1 as [|l ls (Hl & Hb & _) _ IH]; cbn [newest]; [done|].
  destruct (has_block l i) eqn:E; [|done]. intros [= <-]. destruct (set_rank l Hl i Hi E) as [_ Hr].
  rewrite (length_slot l Hl) by done. by rewrite Hb.
Qed.

Definition in_disk (i : Z) : Prop := 0 <= i /\ i * bs + bs <= st_virtual_size s.

Lemma length_stack_block i : in_disk i -> length (stack_block s i) = block_bytes s.
Proof.
  intros [Hi Hb]. unfold stack_block. pose proof (sw_block s Hs). pose proof (sw_base s Hs).
  destruct (newest _ i) as [d|] eqn:E; [|apply length_slice; unfold block_bytes; nia].
  eapply newest_length; [done|apply Forall_rev, Hs|done].
Qed.

(** The block of an address inside the disk is wholly inside it. *)
Lemma block_in_disk a : 0 <= a < st_virtual_size s -> in_disk (a / bs).
Proof.
  intros Ha. pose proof (sw_block s Hs). pose proof (Z.div_mod a bs ltac:(lia)). pose proof (Z.mod_pos_bound a bs ltac:(lia)).
  pose proof (Z.div_pos a bs ltac:(lia) ltac:(lia)). split; [done|].
  pose proof (Z.div_mod (st_virtual_size s) bs ltac:(lia)) as Hv. rewrite (sw_aligned s Hs) in Hv.
  assert (a / bs < st_virtual_size s / bs) by (apply Z.div_lt_upper_bound; lia). nia.
Qed.

Lemma resolved_or_base i :
  in_disk i ->
  (found ← read_block_resolved s i;
   match found with Some data => Ok data | None => read_base s (i * bs) (block_bytes s) end) = Ok (stack_block s i).
Proof.
  intros [Hi Hb]. rewrite read_block_resolved_spec by done. cbn [mbind result_bind]. unfold stack_block.
  pose proof (sw_block s Hs). destruct (newest _ i); [done|]. apply read_base_spec; [nia|unfold block_bytes; lia].
Qed.

Lemma read_span_spec off n :
  0 <= off -> off mod bs + Z.of_nat n <= bs -> in_disk (off / bs) ->
  read_span s off n = Ok (slice (stack_block s (off / bs)) (off mod bs) n).
Proof.
  intros Ho Hn Hd. pose proof (resolved_or_base _ Hd) as Hr. pose proof (length_stack_block _ Hd) as Hlen.
  pose proof (sw_block s Hs). unfold read_span. destruct (_ && _) eqn:E.
  - apply andb_true_iff in E as [E1%Z.eqb_eq E2%Nat.eqb_eq]. subst n.
    assert (Eo : off = off / bs * bs) by (pose proof (Z.div_mod off bs ltac:(lia)); lia).
    rewrite E1. rewrite <- Eo in Hr. rewrite Hr. unfold slice. change (Z.to_nat 0) with 0%nat. by rewrite drop_0, <- Hlen, firstn_all.
  - rewrite read_block_resolved_spec in Hr |- * by apply Hd. cbn [mbind result_bind] in *.
    destruct (newest (rev (st_layers s)) (off / bs)) as [d|]; cbn [mbind result_bind].
    + injection Hr as ->. done.
    + rewrite Hr. done.
Qed.

Lemma stack_byte_chunk off n k :
  0 <= off -> off mod bs + Z.of_nat n <= bs -> (k < n)%nat ->
  slice (stack_block s (off / bs)) (off mod bs) n !! k = stack_byte s (off + Z.of_nat k).
Proof.
  intros Ho Hn Hk. pose proof (sw_block s Hs). rewrite slice_lookup by done. unfold stack_byte.
  pose proof (Z.div_mod off bs ltac:(lia)). pose proof (Z.mod_pos_bound off bs ltac:(lia)).
  assert (E1 : (off + Z.of_nat k) / bs = off / bs) by (symmetry; apply (Z.div_unique _ _ _ (off mod bs + Z.of_nat k)); lia).
  assert (E2 : (off + Z.of_nat k) mod bs = off mod bs + Z.of_nat k) by (symmetry; apply (Z.mod_unique _ _ (off / bs)); lia).
  rewrite E1, E2. f_equal. lia.
Qed.

Lemma chunk_bound off : 0 <= off -> 0 < chunk_until_block_end s off <= bs /\ chunk_until_block_end s off = bs - off mod bs.
Proof.
  intros Ho. pose proof (sw_block s Hs). pose proof (Z.div_mod off bs ltac:(lia)). pose proof (Z.mod_pos_bound off bs ltac:(lia)).
  unfold chunk_until_block_end. lia.
Qed.

Lemma read_loop_spec fuel off n :
  0 <= off -> off + Z.of_nat n <= st_virtual_size s -> (n <= fuel)%nat ->
  exists bytes, read_loop s fuel off n = Ok bytes /\ length bytes = n /\
    forall k, (k < n)%nat -> bytes !! k = stack_byte s (off + Z.of_nat k).
Proof.
  revert off n. induction fuel as [|fuel IH]; intros off n Ho Hn Hf.
  { destruct n; [|lia]. exists []. split; [done|]. split; [done|]. lia. }
  destruct n as [|n]; [exists []; split; [done|]; split; [done|]; lia|]. cbn [read_loop].
  destruct (chunk_bound off Ho) as [Hc1 Hc2]. set (chunk := Nat.min (S n) (Z.to_nat (chunk_until_block_end s off))).
  assert (Hch : (1 <= chunk <= S n)%nat) by (subst chunk; lia).
  assert (Hcb : off mod bs + Z.of_nat chunk <= bs) by (subst chunk; lia).
  assert (Hd : in_disk (off / bs)) by (apply block_in_disk; lia).
  rewrite read_span_spec by done. cbn [mbind result_bind].
  destruct (IH (off + Z.of_nat chunk) (S n - chunk)%nat) as (rest & -> & Hl & Hb); [lia..|]. cbn [mbind result_bind].
  assert (Hlen : length (slice (stack_block s (off / bs)) (off mod bs) chunk) = chunk).
  { pose proof (Z.mod_pos_bound off bs ltac:(pose proof (sw_block s Hs); lia)). apply length_slice; [lia|].
    rewrite length_stack_block by done. unfold block_bytes. lia. }
  eexists. split; [done|]. split; [rewrite length_app, Hlen; lia|]. intros k Hk. destruct (decide (k < chunk)%nat).
  - rewrite lookup_app_l by lia. by apply stack_byte_chunk.
  - rewrite lookup_app_r by lia. rewrite Hlen, Hb by lia. f_equal. lia.
Qed.
End stack.

(** Reads see the newest layer: a read inside the disk returns, for every
    byte, the byte of the newest layer that holds its block, or of the base
    image when none does; a read past the end is refused. *)
Theorem stack_read_spec (s : ImageStack) (off : Z) (n : nat) :
  stack_wf s -> 0 <= off < 2 ^ 62 ->
  if off + Z.of_nat n <=? st_virtual_size s then
    exists bytes, read_at s off n = Ok bytes /\ length bytes = n /\
      forall k, (k < n)%nat -> bytes !! k = stack_byte s (off + Z.of_nat k)
  else read_at s off n = Err PastEnd.
Proof.
  intros Hs Ho. pose proof (sw_size s Hs). unfold read_at, saturating_add. destruct (Z.leb_spec (off + Z.of_nat n) (st_virtual_size s)).
  - rewrite (proj2 (Z.ltb_ge _ _)) by lia. apply read_loop_spec; [done|lia|done|lia].
  - rewrite (proj2 (Z.ltb_lt _ _)) by lia. done.
Qed.

(** *** Writing *)

(** Successful host writes. *)
Definition io_ok : Z -> option nat * option nat := fun _ => (None, None).

Lemma splice_length block w buf : 0 <= w -> w + Z.of_nat (length buf) <= Z.of_nat (length block) -> length (splice block w buf) = length block.
Proof. intros H1 H2. unfold splice. rewrite !length_app, length_take, length_drop. lia. Qed.

Lemma splice_lookup block w buf k :
  0 <= w -> w + Z.of_nat (length buf) <= Z.of_nat (length block) ->
  splice block w buf !! k =
    if decide ((Z.to_nat w <= k < Z.to_nat w + length buf)%nat) then buf !! (k - Z.to_nat w)%nat else block !! k.
Proof.
  intros H1 H2. pose proof (overwrite_lookup block w buf k ltac:(lia)) as H. unfold overwrite in H.
  replace (Z.to_nat w - length block)%nat with 0%nat in H by lia. exact H.
Qed.

Section write.
Context (s : ImageStack) (lower : list DeltaLayer) (top : DeltaLayer).
Context (Hs : stack_wf s) (Hls : st_layers s = lower ++ [top]).
Notation bs := (st_block_size s).

Lemma top_wf : layer_wf top /\ h_block_size (dl_header top) = bs /\ h_virtual_size (dl_header top) = st_virtual_size s.
Proof. pose proof (sw_layers s Hs) as H. rewrite Hls in H. apply Forall_app in H as [_ H]. by inversion H. Qed.

Lemma read_cow_spec i : in_disk s i -> read_block_for_cow s (length lower) i = Ok (stack_block s i).
Proof.
  intros Hd. pose proof (proj1 Hd) as Hi. destruct top_wf as (Ht & Hb & _).
  unfold read_block_for_cow. rewrite Hls, list_lookup_middle by done.
  unfold stack_block. rewrite Hls, rev_app_distr. cbn [rev app newest].
  destruct (has_block top i) eqn:E.
  - rewrite (read_block_slot top Ht) by (rewrite ?Hb; done). cbn [mbind result_bind]. unfold into_block.
    destruct (set_rank top Ht i Hi E) as [_ Hr]. rewrite (length_slot top Ht) by done. rewrite Hb. unfold block_bytes.
    by rewrite Nat.sub_diag, app_nil_r.
  - unfold read_block_resolved_below. rewrite Hls, take_app_length.
    rewrite (resolve_newest s (rev lower) i Hi).
    + cbn [mbind result_bind]. destruct (newest (rev lower) i); [done|]. pose proof (sw_block s Hs). destruct Hd.
      apply read_base_spec; [done|nia|unfold block_bytes; lia].
    + apply Forall_rev. pose proof (sw_layers s Hs) as H. rewrite Hls in H. by apply Forall_app in H as [H _].
Qed.

Lemma disk_block_count i : in_disk s i -> 0 <= i < block_count (dl_header top).
Proof.
  intros [Hi Hb]. split; [done|]. destruct top_wf as (Ht & Hbs & Hv). pose proof (sw_block s Hs).
  unfold block_count. rewrite Hbs, Hv. rewrite (proj2 (Z.eqb_neq bs 0)) by lia. pose proof (sw_size s Hs).
  pose proof (div_ceil_spec (st_virtual_size s) bs ltac:(lia) ltac:(lia)). nia.
Qed.

Lemma write_span_spec off buf :
  dl_writable top = true -> 0 <= off -> off mod bs + Z.of_nat (length buf) <= bs -> in_disk s (off / bs) -> in_order top (off / bs) ->
  exists top', write_span s (length lower) off buf io_ok = (with_layers s (lower ++ [top']), Ok tt) /\
    stack_wf (with_layers s (lower ++ [top'])) /\ dl_writable top' = true /\
    (forall j, 0 <= j -> has_block top' j = bool_decide (off / bs = j) || has_block top j) /\
    forall i, 0 <= i -> stack_block (with_layers s (lower ++ [top'])) i =
      if decide (off / bs = i) then splice (stack_block s (off / bs)) (off mod bs) buf else stack_block s i.
Proof.
  intros Hw Ho Hn Hd Hord. destruct top_wf as (Ht & Hbs & Hv). pose proof (sw_block s Hs) as Hb.
  pose proof (Z.mod_pos_bound off bs ltac:(lia)) as Hm. pose proof (length_stack_block s Hs _ Hd) as Hlen.
  assert (Hsl : length (splice (stack_block s (off / bs)) (off mod bs) buf) = block_bytes s).
  { rewrite splice_length; [done|lia|rewrite Hlen; unfold block_bytes; lia]. }
  assert (Hsl' : length (splice (stack_block s (off / bs)) (off mod bs) buf) = Z.to_nat (h_block_size (dl_header top))) by (rewrite Hbs; exact Hsl).
  destruct (write_in_order top (off / bs) _ Ht Hw (disk_block_count _ Hd) Hsl' Hord) as (top' & E & Ht' & Hh' & Hw' & Hhas & Hread).
  exists top'. split; [|split; [|split; [done|split; [done|]]]].
  - unfold write_span. rewrite read_cow_spec by done. rewrite Hls, list_lookup_middle by done. cbn [io_ok fst snd]. rewrite E.
    rewrite insert_app_r_alt by lia. by rewrite Nat.sub_diag.
  - destruct Hs. split; cbn; try done. rewrite Hls in sw_layers0. apply Forall_app in sw_layers0 as [H1 _].
    apply Forall_app. split; [done|]. constructor; [|constructor]. by rewrite Hh'.
  - intros i Hi. unfold stack_block. cbn [with_layers st_layers st_base st_block_size block_bytes].
    rewrite Hls, !rev_app_distr. cbn [rev app newest]. rewrite Hhas by done.
    destruct (decide (off / bs = i)) as [<-|Hne].
    + rewrite bool_decide_true by done. cbn [orb].
      assert (Hbl : has_block top' (off / bs) = true) by (rewrite Hhas, bool_decide_true by done; done).
      specialize (Hread (off / bs) (Z.to_nat (h_block_size (dl_header top))) Hi ltac:(lia)). rewrite decide_True in Hread by done.
      rewrite (read_block_slot top' Ht') in Hread by (rewrite ?Hh'; done || lia). injection Hread as ->.
      f_equal. unfold stack_block. rewrite Hls, rev_app_distr. done.
    + rewrite bool_decide_false by done. cbn [orb]. destruct (has_block top i) eqn:Ei; [|done].
      assert (Hbl : has_block top' i = true) by (rewrite Hhas, Ei, orb_true_r by done; done).
      specialize (Hread i (Z.to_nat (h_block_size (dl_header top))) Hi ltac:(lia)). rewrite decide_False in Hread by done.
      rewrite (read_block_slot top' Ht') in Hread by (rewrite ?Hh'; done || lia).
      rewrite (read_block_slot top Ht) in Hread by (done || lia). by injection Hread as ->.
Qed.
End write.

(** The bytes of the disk after one chunk. *)
Lemma span_bytes s s' off buf a :
  stack_wf s -> st_block_size s' = st_block_size s -> 0 <= off -> off mod st_block_size s + Z.of_nat (length buf) <= st_block_size s ->
  in_disk s (off / st_block_size s) -> 0 <= a ->
  (forall i, 0 <= i -> stack_block s' i =
     if decide (off / st_block_size s = i) then splice (stack_block s (off / st_block_size s)) (off mod st_block_size s) buf else stack_block s i) ->
  stack_byte s' a = if decide (off <= a < off + Z.of_nat (length buf)) then buf !! Z.to_nat (a - off) else stack_byte s a.
Proof.
  intros Hs Hbs Ho Hn Hd Ha Hb. pose proof (sw_block s Hs). unfold stack_byte. rewrite Hbs. set (bs := st_block_size s) in *.
  pose proof (Z.div_mod off bs ltac:(lia)). pose proof (Z.mod_pos_bound off bs ltac:(lia)).
  pose proof (Z.div_mod a bs ltac:(lia)). pose proof (Z.mod_pos_bound a bs ltac:(lia)).
  rewrite Hb by (apply Z.div_pos; lia). destruct (decide (off / bs = a / bs)) as [E|E].
  - rewrite splice_lookup; [|lia|rewrite (length_stack_block s Hs) by done; unfold block_bytes; fold bs; lia].
    rewrite <- E in *. destruct (decide _) as [Hx|Hx], (decide _) as [Hy|Hy]; try lia; [|done]. f_equal. lia.
  - rewrite decide_False; [done|]. intros Hz. destruct E. apply (Z.div_unique _ _ _ (a - off / bs * bs)); [|lia]. lia.
Qed.

Lemma stack_write_loop fuel lower s top off buf :
  stack_wf s -> st_layers s = lower ++ [top] -> dl_writable top = true ->
  0 <= off -> off + Z.of_nat (length buf) <= st_virtual_size s -> (length buf <= fuel)%nat ->
  (forall a, off <= a < off + Z.of_nat (length buf) -> in_order top (a / st_block_size s)) ->
  exists top', write_loop s fuel (length lower) off buf io_ok = (with_layers s (lower ++ [top']), Ok tt) /\
    stack_wf (with_layers s (lower ++ [top'])) /\
    forall a, 0 <= a -> stack_byte (with_layers s (lower ++ [top'])) a =
      if decide (off <= a < off + Z.of_nat (length buf)) then buf !! Z.to_nat (a - off) else stack_byte s a.
Proof.
  revert s top off buf. induction fuel as [|fuel IH]; intros s top off buf Hs Hls Hw Ho Hn Hf Hord.
  { destruct buf; [|cbn in Hf; lia]. exists top. split; [by rewrite <- Hls; destruct s|].
    split; [by rewrite <- Hls; destruct s|]. intros a Ha. rewrite <- Hls, decide_False by (cbn; lia). by destruct s. }
  destruct buf as [|b0 buf0].
  { exists top. split; [by rewrite <- Hls; destruct s|].
    split; [by rewrite <- Hls; destruct s|]. intros a Ha. rewrite <- Hls, decide_False by (cbn; lia). by destruct s. }
  cbn [write_loop]. set (buf := b0 :: buf0) in *.
  assert (Hpos : (1 <= length buf)%nat) by (subst buf; cbn; lia). clearbody buf.
  destruct (chunk_bound s Hs off Ho) as [Hc1 Hc2]. pose proof (sw_block s Hs) as Hb.
  set (chunk := Nat.min (length buf) (Z.to_nat (chunk_until_block_end s off))).
  assert (Hch : (1 <= chunk <= length buf)%nat) by (subst chunk; lia).
  assert (Hlt : length (take chunk buf) = chunk) by (rewrite length_take; lia).
  assert (Hcb : off mod st_block_size s + Z.of_nat (length (take chunk buf)) <= st_block_size s) by (rewrite Hlt; subst chunk; lia).
  assert (Hd : in_disk s (off / st_block_size s)) by (apply block_in_disk; [done|lia]).
  destruct (write_span_spec s lower top Hs Hls off (take chunk buf) Hw Ho Hcb Hd (Hord off ltac:(lia))) as (top1 & -> & Hs1 & Hw1 & Hhas & Hblk).
  set (s1 := with_layers s (lower ++ [top1])) in *.
  assert (Hbytes : forall a, 0 <= a -> stack_byte s1 a = if decide (off <= a < off + Z.of_nat chunk) then take chunk buf !! Z.to_nat (a - off) else stack_byte s a).
  { intros a Ha. rewrite (span_bytes s s1 off (take chunk buf) a) by done. by rewrite Hlt. }
  destruct (IH s1 top1 (off + Z.of_nat chunk) (drop chunk buf)) as (top' & E & Hs' & Hb'); [done|done|done|lia| | | |].
  - rewrite length_drop. cbn. lia.
  - rewrite length_drop. lia.
  - rewrite length_drop. intros a Ha. cbn [s1 with_layers st_block_size].
    assert (Hgt : off / st_block_size s < a / st_block_size s).
    { assert (Hce : Z.of_nat chunk = chunk_until_block_end s off) by (subst chunk; lia).
      pose proof (Z.div_mod off (st_block_size s) ltac:(lia)). pose proof (Z.div_mod a (st_block_size s) ltac:(lia)).
      pose proof (Z.mod_pos_bound a (st_block_size s) ltac:(lia)). nia. }
    pose proof (Z.div_pos off (st_block_size s) ltac:(lia) ltac:(lia)).
    destruct (Hord a ltac:(lia)) as [Hq|Hq]; [left|right]; [by rewrite Hhas, Hq, orb_true_r by lia|].
    intros j Hj. rewrite Hhas, bool_decide_false by lia. apply Hq. lia.
  - exists top'. split; [exact E|]. split; [exact Hs'|]. intros a Ha.
    change (with_layers s (lower ++ [top'])) with (with_layers s1 (lower ++ [top'])). rewrite Hb', Hbytes by done.
    rewrite length_drop. destruct (decide (off <= a < off + Z.of_nat (length buf))) as [Hin|Hin].
    + destruct (decide (a < off + Z.of_nat chunk)) as [Hlo|Hhi].
      * rewrite decide_False by lia. rewrite decide_True by lia. apply lookup_take_lt. lia.
      * rewrite decide_True by lia. rewrite lookup_drop. f_equal. lia.
    + rewrite decide_False by lia. by rewrite decide_False by lia.
Qed.

(** Writes go to the top layer only and read back: a write inside the disk
    whose blocks the top layer already holds, or that come after all it holds,
    changes exactly the bytes written; the base image and the layers below are
    untouched, and the stack stays well formed. *)
Theorem stack_write_spec (s : ImageStack) (lower : list DeltaLayer) (top : DeltaLayer) (off : Z) (buf : list Z) :
  stack_wf s -> st_layers s = lower ++ [top] -> st_read_only s = false -> dl_writable top = true ->
  0 <= off -> off + Z.of_nat (length buf) <= st_virtual_size s ->
  (forall a, off <= a < off + Z.of_nat (length buf) -> in_order top (a / st_block_size s)) ->
  exists s' top', write_at s off buf io_ok = (s', Ok tt) /\ stack_wf s' /\
    st_base s' = st_base s /\ st_layers s' = lower ++ [top'] /\
    forall a, 0 <= a -> stack_byte s' a =
      if decide (off <= a < off + Z.of_nat (length buf)) then buf !! Z.to_nat (a - off) else stack_byte s a.
Proof.
  intros Hs Hls Hro Hw Ho Hn Hord. pose proof (sw_size s Hs). unfold write_at, saturating_add. rewrite Hro.
  rewrite (proj2 (Z.ltb_ge _ _)) by lia. rewrite Hls, length_app, Nat.add_1_r.
  destruct (stack_write_loop (length buf) lower s top off buf Hs Hls Hw Ho Hn ltac:(lia) Hord) as (top' & E & Hs' & Hb).
  exists (with_layers s (lower ++ [top'])), top'. by rewrite E.
Qed.

(** Every way a write is refused leaves the stack as it was. *)
Lemma write_refused s off buf io :
  0 <= off -> st_virtual_size s < 2 ^ 64 - 1 ->
  st_read_only s = true \/ st_virtual_size s < off + Z.of_nat (length buf) \/ st_layers s = [] ->
  exists e, write_at s off buf io = (s, Err e).
Proof.
  intros Ho Hv H. unfold write_at, saturating_add. destruct (st_read_only s); [by eexists|].
  destruct (Z.ltb_spec (st_virtual_size s) (Z.min (off + Z.of_nat (length buf)) (2 ^ 64 - 1))); [by eexists|].
  destruct H as [H|[H|H]]; [done|lia|]. rewrite H. by eexists.
Qed.

(** ** A four-block disk with four-byte blocks *)

Definition tiny_header : DeltaHeader :=
  {| h_virtual_size := 16; h_block_size := 4; h_bitmap_offset := 64; h_bitmap_bytes := 1; h_data_offset := 65 |}.
Definition tiny : DeltaLayer :=
  {| dl_file := encode tiny_header ++ [0]; dl_header := tiny_header; dl_bitmap := [0]; dl_writable := true |}.

Lemma one_byte_bits b j : 0 <= j -> bitmap_test [b] j = (j <? 8) && Z.testbit b j.
Proof.
  intros Hj. rewrite bitmap_test_bit by done. unfold byte_of. destruct (Z.ltb_spec j 8) as [H|H].
  - rewrite Z.div_small, Z.mod_small by lia. done.
  - assert (1 <= j / 8) by (apply Z.div_le_lower_bound; lia). rewrite lookup_ge_None_2 by (cbn; lia). apply Z.testbit_0_l.
Qed.

Lemma tiny_wf : layer_wf tiny.
Proof.
  split; try (vm_compute; reflexivity); try (vm_compute; split; [discriminate || reflexivity|reflexivity]).
  intros i Hi. unfold has_block. cbn [dl_bitmap tiny]. rewrite one_byte_bits, Z.testbit_0_l by done. by rewrite andb_false_r.
Qed.

(** Block 2 written first. *)
Definition tiny2 : DeltaLayer := fst (write_block tiny 2 [9; 9; 9; 9] None None).

Lemma tiny2_wf : layer_wf tiny2.
Proof.
  destruct (write_in_order tiny 2 [9; 9; 9; 9] tiny_wf eq_refl) as (l' & E & Hl' & _).
  - vm_compute. split; [discriminate|reflexivity].
  - reflexivity.
  - right. intros j Hj. unfold has_block. cbn [dl_bitmap tiny]. rewrite one_byte_bits, Z.testbit_0_l by lia. apply andb_false_r.
  - unfold tiny2. rewrite E. exact Hl'.
Qed.

Lemma tiny2_bits j : 0 <= j -> has_block tiny2 j = (j <? 8) && Z.testbit 4 j.
Proof. intros Hj. unfold has_block. change (dl_bitmap tiny2) with [4]. by apply one_byte_bits. Qed.

Lemma tiny2_above j : 2 < j -> has_block tiny2 j = false.
Proof. intros Hj. rewrite tiny2_bits by lia. rewrite (Z.bits_above_log2 4 j) by (cbn; lia). apply andb_false_r. Qed.

(** Block 3 after block 2. *)
Lemma delta_block_roundtrip_witness :
  exists l', write_block tiny2 3 [7; 7; 7; 7] None None = (l', Ok tt) /\ layer_wf l' /\ layer_open (dl_file l') true = Ok l' /\
    forall j n, 0 <= j -> (4 <= n)%nat -> read_block l' j n = if decide (3 = j) then Ok [7; 7; 7; 7] else read_block tiny2 j n.
Proof.
  apply (delta_block_roundtrip tiny2 3 [7; 7; 7; 7]).
  - apply tiny2_wf.
  - reflexivity.
  - vm_compute. split; [discriminate|reflexivity].
  - reflexivity.
  - right. intros j Hj. apply tiny2_above. lia.
Defined.

(** Block 1 after block 2: each reads as the other. *)
Lemma delta_unordered_write_corrupts_witness :
  exists l', write_block tiny2 1 [7; 7; 7; 7] None None = (l', Ok tt) /\
    read_block l' 2 4 = Ok [7; 7; 7; 7] /\ read_block l' 1 4 = read_block tiny2 2 4.
Proof.
  apply (delta_unordered_write_corrupts tiny2 1 2 2 [7; 7; 7; 7] 4).
  - apply tiny2_wf.
  - reflexivity.
  - reflexivity.
  - lia.
  - lia.
  - exact (le_n 4).
  - reflexivity.
  - reflexivity.
  - intros j Hj. lia.
  - reflexivity.
  - apply tiny2_above.
Defined.

Definition tiny_stack : ImageStack :=
  {| st_base := [1; 2; 3; 4; 5; 6; 7; 8; 10; 11; 12; 13; 14; 15; 16; 17; 18]; st_layers := [tiny; tiny2]; st_virtual_size := 16;
     st_block_size := 4; st_read_only := false |}.

Lemma tiny_stack_wf : stack_wf tiny_stack.
Proof.
  split; try (vm_compute; reflexivity); try (vm_compute; split; [discriminate || reflexivity|reflexivity]).
  - cbn. lia.
  - repeat constructor; apply tiny_wf || apply tiny2_wf.
Qed.

Lemma stack_read_spec_witness :
  exists bytes, read_at tiny_stack 6 5 = Ok bytes /\ length bytes = 5%nat /\
    forall k, (k < 5)%nat -> bytes !! k = stack_byte tiny_stack (6 + Z.of_nat k).
Proof. apply (stack_read_spec tiny_stack 6 5); [apply tiny_stack_wf|lia]. Defined.

Example stack_read_sample : read_at tiny_stack 6 5 = Ok [7; 8; 9; 9; 9].
Proof. vm_compute. reflexivity. Qed.

(** Five bytes over the end of block 2 and the start of block 3. *)
Lemma stack_write_spec_witness :
  exists s' top', write_at tiny_stack 10 [21; 22; 23; 24; 25] io_ok = (s', Ok tt) /\ stack_wf s' /\
    st_base s' = st_base tiny_stack /\ st_layers s' = [tiny] ++ [top'] /\
    forall a, 0 <= a -> stack_byte s' a =
      if decide (10 <= a < 10 + 5) then [21; 22; 23; 24; 25] !! Z.to_nat (a - 10) else stack_byte tiny_stack a.
Proof.
  apply (stack_write_spec tiny_stack [tiny] tiny2 10 [21; 22; 23; 24; 25]).
  - apply tiny_stack_wf.
  - reflexivity.
  - reflexivity.
  - reflexivity.
  - lia.
  - cbn. lia.
  - cbn [length st_block_size tiny_stack]. intros a Ha.
    assert (Hq : a / 4 = 2 \/ a / 4 = 3) by (assert (2 <= a / 4) by (apply Z.div_le_lower_bound; lia); assert (a / 4 < 4) by (apply Z.div_lt_upper_bound; lia); lia).
    destruct Hq as [-> | ->]; [left; reflexivity|]. right. intros j Hj. apply tiny2_above. lia.
Defined.
