(* ===== verification/Blk.v ===== *)
(** * virtio-blk

    Model of [ternvale-devices/src/virtio/blk/request.rs] (one request chain),
    [blk/vectored.rs] (scatter and gather against the image file),
    [blk/backend.rs] (the raw-file backend) and [blk/media.rs] (features and
    configuration space).

    The image file is the list of its bytes.  What the operating system answers
    to the [n]-th [preadv] or [pwritev] is [host n]: [None] is an error and
    [Some k] moves at most [k] bytes, so short transfers are part of the model.
    An [iovec] keeps the guest address whose host pointer it holds.  [host_ptr]
    makes the same check as a read of the same span. *)

From S2P Require Import Prelude Windows GuestMemory VirtioQueue QueueDevice VirtioIrq VirtioCore.

Definition VIRTIO_BLK_ID : Z := 2.
Definition VIRTIO_BLK_F_SEG_MAX : Z := Z.shiftl 1 2.
Definition VIRTIO_BLK_F_RO : Z := Z.shiftl 1 5.
Definition VIRTIO_BLK_F_BLK_SIZE : Z := Z.shiftl 1 6.
Definition VIRTIO_BLK_F_FLUSH : Z := Z.shiftl 1 9.
Definition VIRTIO_BLK_F_MQ : Z := Z.shiftl 1 12.
Definition VIRTIO_BLK_T_IN : Z := 0.
Definition VIRTIO_BLK_T_OUT : Z := 1.
Definition VIRTIO_BLK_T_FLUSH : Z := 4.
Definition VIRTIO_BLK_T_GET_ID : Z := 8.
Definition VIRTIO_BLK_S_OK : Z := 0.
Definition VIRTIO_BLK_S_IOERR : Z := 1.
Definition VIRTIO_BLK_S_UNSUPP : Z := 2.
Definition SECTOR : Z := 512.
Definition ID_BYTES : Z := 20.
Definition INT_VRING : Z := 1.
Definition OPTICAL_BLOCK_SIZE : Z := 2048.
Definition SEG_MAX : Z := 64.
Definition CONFIG_BYTES : nat := 36.
Definition IOV_MAX : nat := 64.

(** ** The medium *)

Inductive BlkMedia : Type := Disk (read_only : bool) | Optical.

Definition media_read_only (m : BlkMedia) : bool := match m with Disk ro => ro | Optical => true end.
Definition block_size (m : BlkMedia) : option Z := match m with Disk _ => None | Optical => Some OPTICAL_BLOCK_SIZE end.

Definition features (m : BlkMedia) : Z :=
  match m with
  | Disk false => VIRTIO_BLK_F_FLUSH
  | Disk true => Z.lor VIRTIO_BLK_F_FLUSH VIRTIO_BLK_F_RO
  | Optical => Z.lor VIRTIO_BLK_F_RO VIRTIO_BLK_F_BLK_SIZE
  end.

Definition feature_bits (m : BlkMedia) (num_queues : Z) : Z :=
  let bits := Z.lor (Z.lor (Z.lor (features m) VIRTIO_F_EVENT_IDX) VIRTIO_F_INDIRECT_DESC) VIRTIO_BLK_F_SEG_MAX in
  if 1 <? num_queues then Z.lor bits VIRTIO_BLK_F_MQ else bits.

Definition config_space (m : BlkMedia) (capacity num_queues : Z) : list Z :=
  le_bytes 8 capacity ++ replicate 4 0 ++ le_bytes 4 SEG_MAX ++ replicate 4 0 ++
  le_bytes 4 (default 0 (block_size m)) ++ replicate 10 0 ++ le_bytes 2 num_queues.

Definition config_read_le (bytes : list Z) (offset size : Z) : Z :=
  if Z.of_nat (length bytes) <=? offset then 0
  else
    let n := Z.min (Z.min size 8) (Z.of_nat (length bytes) - offset) in
    of_le (take (Z.to_nat n) (drop (Z.to_nat offset) bytes)).

(** ** The file backend *)

Inductive DiskCache : Type := Writeback | Writethrough | CacheNone.
Inductive DiskFlush : Type := Fast | Safe.

#[export] Instance DiskCache_eq : EqDecision DiskCache.
Proof. solve_decision. Defined.

Record FileBackend := {
  fb_data : list Z;
  fb_bytes : Z;
  fb_read_only : bool;
  fb_cache : DiskCache;
  fb_flush : DiskFlush;
  fb_calls : nat;
  fb_syncs : nat;
}.

(** [open_with_sync] on a file whose contents are [data]. *)
Definition backend_open (data : list Z) (read_only : bool) (cache : DiskCache) (flush : DiskFlush) : FileBackend :=
  let bytes := Z.of_nat (length data) in
  {| fb_data := data; fb_bytes := bytes - bytes mod SECTOR; fb_read_only := read_only; fb_cache := cache; fb_flush := flush;
     fb_calls := 0; fb_syncs := 0 |}.

Definition capacity (b : FileBackend) : Z := fb_bytes b / SECTOR.

Inductive IoError : Type := EInvalidInput | EPermission | EWriteZero | EOs.

Definition set_io (b : FileBackend) (data : list Z) (calls syncs : nat) : FileBackend :=
  {| fb_data := data; fb_bytes := fb_bytes b; fb_read_only := fb_read_only b; fb_cache := fb_cache b; fb_flush := fb_flush b;
     fb_calls := calls; fb_syncs := syncs |}.

(** *** Vectored transfers *)

Record Iovec := { iov_base : Z; iov_len : Z }.

Definition iov_total (iov : list Iovec) : Z := foldr (fun v n => iov_len v + n) 0 iov.

Fixpoint advance_iov (iov : list Iovec) (skip : Z) : list Iovec :=
  match iov with
  | [] => []
  | v :: iov' =>
      if skip =? 0 then v :: iov'
      else if iov_len v <=? skip then {| iov_base := 0; iov_len := 0 |} :: advance_iov iov' (skip - iov_len v)
      else {| iov_base := iov_base v + skip; iov_len := iov_len v - skip |} :: iov'
  end.

Definition buf_total (bufs : list Buffer) : Z := foldr (fun b n => buf_len b + n) 0 bufs.

(** A [pwrite] inside or at the end of the file. *)
Definition file_write (data : list Z) (off : Z) (src : list Z) : list Z :=
  let o := Z.to_nat off in take o data ++ replicate (o - length data) 0 ++ src ++ drop (o + length src) data.

Section blk.
Context {M : Type} `{!ByteMemory M}.
Variable host : nat -> option nat.
Variable sync : nat -> bool.

(** Store bytes that lie in a span checked before. *)
Definition poke (mem : M) (a : Z) (src : list Z) : M :=
  match src with
  | [] => mem
  | _ => match bm_write mem a src with Ok mem' => mem' | Err _ => mem end
  end.

Definition peek (mem : M) (a : Z) (n : nat) : list Z :=
  match bm_read mem a n with Ok bs => bs | Err _ => [] end.

(** [preadv]: the bytes fill the vectors in order. *)
Fixpoint scatter (mem : M) (iov : list Iovec) (src : list Z) : M :=
  match iov with
  | [] => mem
  | v :: iov' =>
      let n := Z.to_nat (iov_len v) in
      scatter (poke mem (iov_base v) (take n src)) iov' (drop n src)
  end.

(** [pwritev]: the bytes of the vectors in order. *)
Definition gather (mem : M) (iov : list Iovec) : list Z :=
  iov ≫= fun v => if iov_len v =? 0 then [] else peek mem (iov_base v) (Z.to_nat (iov_len v)).

(** One system call: bytes moved, memory and file after it. *)
Definition syscall (mem : M) (b : FileBackend) (iov : list Iovec) (offset : Z) (read : bool) : result IoError Z * M * FileBackend :=
  let b' := set_io b (fb_data b) (S (fb_calls b)) (fb_syncs b) in
  match host (fb_calls b) with
  | None => (Err EOs, mem, b')
  | Some k =>
      if read then
        let avail := Z.max 0 (Z.of_nat (length (fb_data b)) - offset) in
        let n := Z.min (Z.of_nat k) (Z.min (iov_total iov) avail) in
        (Ok n, scatter mem iov (take (Z.to_nat n) (drop (Z.to_nat offset) (fb_data b))), b')
      else
        let n := Z.min (Z.of_nat k) (iov_total iov) in
        (Ok n, mem, set_io b' (file_write (fb_data b) offset (take (Z.to_nat n) (gather mem iov))) (S (fb_calls b)) (fb_syncs b))
  end.

(** [zero_rest]. *)
Fixpoint zero_rest (mem : M) (bufs : list Buffer) (skip : Z) : M * result IoError unit :=
  match bufs with
  | [] => (mem, Ok tt)
  | b :: bufs' =>
      let len := buf_len b in
      if len <=? skip then zero_rest mem bufs' (skip - len)
      else if is_ok (bm_read mem (buf_addr b + skip) (Z.to_nat (len - skip))) then
        zero_rest (poke mem (buf_addr b + skip) (replicate (Z.to_nat (len - skip)) 0)) bufs' 0
      else (mem, Err EInvalidInput)
  end.

(** The [while done < want] loop; [Ok true] is the early [return Ok(())] at the
    end of the file. *)
Fixpoint transfer (fuel : nat) (mem : M) (b : FileBackend) (chunk : list Buffer) (iov : list Iovec) (done want offset : Z) (read : bool) :
    result IoError bool * Z * M * FileBackend :=
  match fuel with
  | O => (Err EOs, offset, mem, b)
  | S fuel =>
      if want <=? done then (Ok false, offset, mem, b)
      else
        match syscall mem b iov offset read with
        | (Err e, mem, b) => (Err e, offset, mem, b)
        | (Ok n, mem, b) =>
            if n =? 0 then
              if read then
                match zero_rest mem chunk done with
                | (mem, Ok _) => (Ok true, offset, mem, b)
                | (mem, Err e) => (Err e, offset, mem, b)
                end
              else (Err EWriteZero, offset, mem, b)
            else transfer fuel mem b chunk (advance_iov iov n) (done + n) want (offset + n) read
        end
  end.

(** The [iov] of a chunk; [None] when a buffer is not guest RAM. *)
Fixpoint build_iov (mem : M) (chunk : list Buffer) : option (list Iovec) :=
  match chunk with
  | [] => Some []
  | buf :: chunk' =>
      if buf_len buf =? 0 then build_iov mem chunk'
      else if is_ok (bm_read mem (buf_addr buf) (Z.to_nat (buf_len buf))) then
        iov ← build_iov mem chunk'; Some ({| iov_base := buf_addr buf; iov_len := buf_len buf |} :: iov)
      else None
  end.

(** The loop over chunks of [IOV_MAX] buffers. *)
Fixpoint vectored (fuel : nat) (mem : M) (b : FileBackend) (bufs : list Buffer) (offset : Z) (read : bool) :
    result IoError unit * M * FileBackend :=
  match bufs, fuel with
  | [], _ => (Ok tt, mem, b)
  | _, O => (Err EOs, mem, b)
  | _, S fuel =>
      let chunk := take IOV_MAX bufs in
      match build_iov mem chunk with
      | None => (Err EInvalidInput, mem, b)
      | Some [] => vectored fuel mem b (drop IOV_MAX bufs) offset read
      | Some iov =>
          let want := iov_total iov in
          match transfer (S (Z.to_nat want)) mem b chunk iov 0 want offset read with
          | (Err e, _, mem, b) => (Err e, mem, b)
          | (Ok true, _, mem, b) => (Ok tt, mem, b)
          | (Ok false, offset, mem, b) => vectored fuel mem b (drop IOV_MAX bufs) offset read
          end
      end
  end.

(** *** [FileBackend] *)

Definition read_guest (b : FileBackend) (mem : M) (bufs : list Buffer) (offset : Z) : result IoError unit * M * FileBackend :=
  if fb_bytes b <? saturating_add 64 offset (buf_total bufs) then (Err EInvalidInput, mem, b)
  else vectored (length bufs) mem b bufs offset true.

(** [durability_flush]: [F_FULLFSYNC] falls back to [fsync], which is the one
    call that can fail. *)
Definition flush (b : FileBackend) : result IoError unit * FileBackend :=
  let b' := set_io b (fb_data b) (fb_calls b) (S (fb_syncs b)) in
  (if sync (fb_syncs b) then Ok tt else Err EOs, b').

Definition check_write (b : FileBackend) (offset len : Z) : result IoError unit :=
  if fb_read_only b then Err EPermission
  else if fb_bytes b <? saturating_add 64 offset len then Err EInvalidInput
  else Ok tt.

Definition after_write (b : FileBackend) : result IoError unit * FileBackend :=
  if bool_decide (fb_cache b = Writethrough) then flush b else (Ok tt, b).

Definition write_guest (b : FileBackend) (mem : M) (bufs : list Buffer) (offset : Z) : result IoError unit * FileBackend :=
  match check_write b offset (buf_total bufs) with
  | Err e => (Err e, b)
  | Ok _ =>
      match vectored (length bufs) mem b bufs offset false with
      | (Err e, _, b) => (Err e, b)
      | (Ok _, _, b) => after_write b
      end
  end.

(** ** Requests *)

Record BlkStats := { s_reqs : Z; s_bytes : Z; s_errors : Z }.

Definition stats_ok (s : BlkStats) (bytes : Z) : BlkStats :=
  {| s_reqs := add_w 64 (s_reqs s) 1; s_bytes := add_w 64 (s_bytes s) bytes; s_errors := s_errors s |}.
Definition stats_error (s : BlkStats) : BlkStats :=
  {| s_reqs := add_w 64 (s_reqs s) 1; s_bytes := s_bytes s; s_errors := add_w 64 (s_errors s) 1 |}.

(** [copy_from] into a buffer of [want] bytes. *)
Fixpoint copy_from (mem : M) (bufs : list Buffer) (want : Z) : option (list Z) :=
  match bufs with
  | [] => if 0 <? want then None else Some []
  | buf :: bufs' =>
      if want <=? 0 then Some []
      else
        let take := Z.min (buf_len buf) want in
        if take =? 0 then copy_from mem bufs' want
        else match bm_read mem (buf_addr buf) (Z.to_nat take) with
             | Ok got => rest ← copy_from mem bufs' (want - take); Some (got ++ rest)
             | Err _ => None
             end
  end.

(** [copy_to]: the memory keeps what was written before an error. *)
Fixpoint copy_to (mem : M) (bufs : list Buffer) (src : list Z) : M * bool :=
  match bufs with
  | [] => (mem, true)
  | buf :: bufs' =>
      match src with
      | [] => (mem, true)
      | _ =>
          let n := Z.to_nat (Z.min (buf_len buf) (Z.of_nat (length src))) in
          if (n =? 0)%nat then copy_to mem bufs' src
          else match bm_write mem (buf_addr buf) (take n src) with
               | Ok mem' => copy_to mem' bufs' (drop n src)
               | Err _ => (mem, false)
               end
      end
  end.

Definition chain_status (c : Chain) : option Z :=
  last ← list.last (c_writable c);
  if buf_len last =? 0 then None else Some (wrapping_sub 64 (add_w 64 (buf_addr last) (buf_len last)) 1).

Record Header := { hd_ty : Z; hd_sector : Z }.

Definition parse (mem : M) (c : Chain) : option (Header * Z) :=
  hdr ← copy_from mem (c_readable c) 16;
  status_addr ← chain_status c;
  Some ({| hd_ty := of_le (take 4 hdr); hd_sector := of_le (take 8 (drop 8 hdr)) |}, status_addr).

(** [u32] sums wrap and [saturating_sub]. *)
Definition sum_u32 (bufs : list Buffer) : Z := foldr (fun b n => wrap 32 (buf_len b + n)) 0 bufs.

Definition data_bytes (c : Chain) (ty : Z) : Z :=
  if (ty =? VIRTIO_BLK_T_IN) || (ty =? VIRTIO_BLK_T_GET_ID) then Z.max 0 (sum_u32 (c_writable c) - 1)
  else if ty =? VIRTIO_BLK_T_OUT then Z.max 0 (sum_u32 (c_readable c) - 16)
  else 0.

Definition in_range (b : FileBackend) (sector len : Z) : bool :=
  if len =? 0 then sector <=? capacity b
  else
    let sectors := len / SECTOR + (if 0 <? len mod SECTOR then 1 else 0) in
    match checked_add 64 sector sectors with Some e => e <=? capacity b | None => false end.

(** [while bufs.last().is_some_and(|b| b.len == 0) { bufs.pop(); }] *)
Fixpoint drop_empty (rev_bufs : list Buffer) : list Buffer :=
  match rev_bufs with
  | b :: rest => if buf_len b =? 0 then drop_empty rest else rev_bufs
  | [] => []
  end.

Definition data_writable (c : Chain) : list Buffer :=
  match rev (c_writable c) with
  | [] => []
  | b :: rest =>
      let b := if 0 <? buf_len b then {| buf_addr := buf_addr b; buf_len := buf_len b - 1 |} else b in
      rev (drop_empty (b :: rest))
  end.

Fixpoint out_loop (skip : Z) (bufs : list Buffer) : list Buffer :=
  match bufs with
  | [] => []
  | b :: bufs' =>
      if buf_len b <=? skip then out_loop (skip - buf_len b) bufs'
      else {| buf_addr := add_w 64 (buf_addr b) skip; buf_len := buf_len b - skip |} :: out_loop 0 bufs'
  end.

Definition out_readable (c : Chain) : list Buffer := out_loop 16 (c_readable c).

Definition read_req (mem : M) (b : FileBackend) (c : Chain) (sector len : Z) (st : BlkStats) : Z * M * FileBackend * BlkStats :=
  if negb (in_range b sector len) then (VIRTIO_BLK_S_IOERR, mem, b, stats_error st)
  else
    match read_guest b mem (data_writable c) (wrap 64 (sector * SECTOR)) with
    | (Err _, mem, b) => (VIRTIO_BLK_S_IOERR, mem, b, stats_error st)
    | (Ok _, mem, b) => (VIRTIO_BLK_S_OK, mem, b, stats_ok st len)
    end.

Definition write_req (mem : M) (b : FileBackend) (c : Chain) (sector len : Z) (st : BlkStats) : Z * FileBackend * BlkStats :=
  if fb_read_only b then (VIRTIO_BLK_S_IOERR, b, stats_error st)
  else if negb (in_range b sector len) then (VIRTIO_BLK_S_IOERR, b, stats_error st)
  else
    match write_guest b mem (out_readable c) (wrap 64 (sector * SECTOR)) with
    | (Err _, b) => (VIRTIO_BLK_S_IOERR, b, stats_error st)
    | (Ok _, b) => (VIRTIO_BLK_S_OK, b, stats_ok st len)
    end.

Definition flush_req (b : FileBackend) (st : BlkStats) : Z * FileBackend * BlkStats :=
  match flush b with
  | (Err _, b) => (VIRTIO_BLK_S_IOERR, b, stats_error st)
  | (Ok _, b) => (VIRTIO_BLK_S_OK, b, stats_ok st 0)
  end.

Definition get_id (mem : M) (c : Chain) (serial : list Z) (st : BlkStats) : Z * M * BlkStats :=
  match copy_to mem (data_writable c) serial with
  | (mem, false) => (VIRTIO_BLK_S_IOERR, mem, stats_error st)
  | (mem, true) => (VIRTIO_BLK_S_OK, mem, stats_ok st ID_BYTES)
  end.

Definition write_status (mem : M) (addr : option Z) (status : Z) : Z * M :=
  match addr with
  | None => (0, mem)
  | Some addr => match bm_write_le 1 mem addr status with Ok mem' => (1, mem') | Err _ => (0, mem) end
  end.

(** [process]: the used length, the memory, the disk and the counters. *)
Definition process (mem : M) (b : FileBackend) (c : Chain) (serial : list Z) (st : BlkStats) : Z * M * FileBackend * BlkStats :=
  match parse mem c with
  | None =>
      let '(n, mem) := write_status mem (chain_status c) VIRTIO_BLK_S_IOERR in (n, mem, b, stats_error st)
  | Some (h, status_addr) =>
      let data_len := data_bytes c (hd_ty h) in
      let '(status, written, mem, b, st) :=
        if hd_ty h =? VIRTIO_BLK_T_IN then
          let '(status, mem, b, st) := read_req mem b c (hd_sector h) data_len st in
          (status, if status =? VIRTIO_BLK_S_OK then data_len else 0, mem, b, st)
        else if hd_ty h =? VIRTIO_BLK_T_OUT then
          let '(status, b, st) := write_req mem b c (hd_sector h) data_len st in (status, 0, mem, b, st)
        else if hd_ty h =? VIRTIO_BLK_T_FLUSH then
          let '(status, b, st) := flush_req b st in (status, 0, mem, b, st)
        else if hd_ty h =? VIRTIO_BLK_T_GET_ID then
          let '(status, mem, st) := get_id mem c serial st in
          (status, if status =? VIRTIO_BLK_S_OK then ID_BYTES else 0, mem, b, st)
        else (VIRTIO_BLK_S_UNSUPP, 0, mem, b, stats_error st) in
      let '(n, mem) := write_status mem (Some status_addr) status in
      (wrap 32 (n + written), mem, b, st)
  end.
End blk.

(** ** What changes in guest memory *)

Section facts.
Context {M : Type} `{!ByteMemory M}.
Variable host : nat -> option nat.
Variable sync : nat -> bool.
Implicit Types (mem : M).

(** [mem'] is [mem] with bytes changed only where [P] allows. *)
Definition only (P : Z -> Prop) mem mem' : Prop :=
  bm_inv mem' /\ (forall x n, bm_span mem' x n <-> bm_span mem x n) /\ (forall x, ~ P x -> bm_byte mem' x = bm_byte mem x).

Lemma only_refl P mem : bm_inv mem -> only P mem mem.
Proof. done. Qed.

Lemma only_trans P m1 m2 m3 : only P m1 m2 -> only P m2 m3 -> only P m1 m3.
Proof.
  intros (H1 & H2 & H3) (H4 & H5 & H6). split; [done|]. split; [intros x n; by rewrite H5|]. intros x Hx. by rewrite H6, H3.
Qed.

Lemma only_weaken (P Q : Z -> Prop) m1 m2 : (forall x, P x -> Q x) -> only P m1 m2 -> only Q m1 m2.
Proof. intros HPQ (H1 & H2 & H3). split; [done|]. split; [done|]. intros x Hx. apply H3. auto. Qed.

Definition within (a n x : Z) : Prop := a <= x < a + n.

Lemma write_only mem a src mem' :
  bm_inv mem -> 0 <= a -> Forall (fits 8) src -> bm_write mem a src = Ok mem' -> only (within a (Z.of_nat (length src))) mem mem'.
Proof.
  intros Hm Ha Hs Hw. destruct (bm_write_spec mem a src mem' Hm Ha Hs Hw) as (H1 & H2 & H3). split; [done|]. split; [done|].
  intros x Hx. rewrite H2. by rewrite decide_False.
Qed.

Lemma poke_only mem a src :
  bm_inv mem -> 0 <= a -> Forall (fits 8) src -> only (within a (Z.of_nat (length src))) mem (poke mem a src).
Proof.
  intros Hm Ha Hs. unfold poke. destruct src as [|b src]; [by apply only_refl|].
  destruct (bm_write mem a (b :: src)) eqn:E; [by eapply write_only|by apply only_refl].
Qed.

(** Addresses of vectors and buffers. *)
Definition iov_covers (iov : list Iovec) (x : Z) : Prop := exists v, v ∈ iov /\ within (iov_base v) (iov_len v) x.
Definition covers (bufs : list Buffer) (x : Z) : Prop := exists b, b ∈ bufs /\ within (buf_addr b) (buf_len b) x.
Definition iov_ok (v : Iovec) : Prop := 0 <= iov_base v /\ 0 <= iov_len v.

Lemma scatter_only mem iov src :
  bm_inv mem -> Forall iov_ok iov -> Forall (fits 8) src -> only (iov_covers iov) mem (scatter mem iov src).
Proof.
  intros Hm Hi. revert mem src Hm. induction Hi as [|v iov [Hb Hl] _ IH]; intros mem src Hm Hs; cbn [scatter]; [by apply only_refl|].
  assert (Hp : only (iov_covers (v :: iov)) mem (poke mem (iov_base v) (take (Z.to_nat (iov_len v)) src))).
  { eapply only_weaken; [|apply poke_only; [done|done|by apply Forall_take]]. intros x Hx. exists v. split; [by left|].
    rewrite length_take in Hx. unfold within in *. lia. }
  eapply only_trans; [exact Hp|]. eapply only_weaken; [|apply IH; [apply Hp|by apply Forall_drop]].
  intros x (v' & Hv & Hx). exists v'. split; [by right|done].
Qed.

Lemma advance_ok iov n : 0 <= n -> Forall iov_ok iov -> Forall iov_ok (advance_iov iov n).
Proof.
  intros Hn Hi. revert n Hn. induction Hi as [|v iov [Hb Hl] Hi IH]; intros n Hn; cbn [advance_iov]; [constructor|].
  destruct (Z.eqb_spec n 0); [by constructor|]. destruct (Z.leb_spec (iov_len v) n); constructor; try done.
  - apply IH. lia.
  - split; cbn; lia.
Qed.

Lemma advance_covers iov n x : 0 <= n -> Forall iov_ok iov -> iov_covers (advance_iov iov n) x -> iov_covers iov x.
Proof.
  intros Hn Hi. revert n Hn. induction Hi as [|v iov [Hb Hl] Hi IH]; intros n Hn; cbn [advance_iov]; [done|].
  destruct (Z.eqb_spec n 0); [done|]. destruct (Z.leb_spec (iov_len v) n); intros (v' & Hv & Hx); apply elem_of_cons in Hv as [->|Hv].
  - cbn in Hx. unfold within in Hx. lia.
  - destruct (IH (n - iov_len v) ltac:(lia)) as (w & Hw & Hwx); [by exists v'|]. exists w. split; [by right|done].
  - exists v. split; [by left|]. cbn in Hx. unfold within in *. lia.
  - exists v'. split; [by right|done].
Qed.

Lemma zero_rest_only mem bufs skip :
  bm_inv mem -> Forall buf_ok bufs -> 0 <= skip -> only (covers bufs) mem (fst (zero_rest mem bufs skip)).
Proof.
  intros Hm Hb. revert mem skip Hm. induction Hb as [|b bufs (Ha & Hl & He) _ IH]; intros mem skip Hm Hs; cbn [zero_rest]; [by apply only_refl|].
  destruct (Z.leb_spec (buf_len b) skip).
  - eapply only_weaken; [|apply IH; [done|lia]]. intros x (b' & Hb' & Hx). exists b'. split; [by right|done].
  - destruct (is_ok _); [|by apply only_refl].
    assert (Hp : only (covers (b :: bufs)) mem (poke mem (buf_addr b + skip) (replicate (Z.to_nat (buf_len b - skip)) 0))).
    { eapply only_weaken; [|apply poke_only; [done|lia|by apply Forall_replicate]]. intros x Hx. rewrite length_replicate in Hx.
      exists b. split; [by left|]. unfold within in *. lia. }
    eapply only_trans; [exact Hp|]. eapply only_weaken; [|apply IH; [apply Hp|lia]]. intros x (b' & Hb' & Hx). exists b'. split; [by right|done].
Qed.

(** *** The disk *)

(** [b'] is [b] with the file changed only at offsets [P], still of bytes. *)
Definition disk_only (P : Z -> Prop) (b b' : FileBackend) : Prop :=
  fb_bytes b' = fb_bytes b /\ fb_read_only b' = fb_read_only b /\ fb_cache b' = fb_cache b /\ fb_flush b' = fb_flush b /\
  length (fb_data b') = length (fb_data b) /\ Forall (fits 8) (fb_data b') /\
  forall i, ~ P (Z.of_nat i) -> fb_data b' !! i = fb_data b !! i.

Lemma disk_only_refl P b : Forall (fits 8) (fb_data b) -> disk_only P b b.
Proof. done. Qed.

Lemma disk_only_trans P b1 b2 b3 : disk_only P b1 b2 -> disk_only P b2 b3 -> disk_only P b1 b3.
Proof.
  intros (H1 & H2 & H3 & H4 & H5 & H6 & H7) (G1 & G2 & G3 & G4 & G5 & G6 & G7).
  split_and!; try congruence. intros i Hi. by rewrite G7, H7.
Qed.

Lemma disk_only_weaken (P Q : Z -> Prop) b1 b2 : (forall x, P x -> Q x) -> disk_only P b1 b2 -> disk_only Q b1 b2.
Proof. intros HPQ (H1 & H2 & H3 & H4 & H5 & H6 & H7). split_and!; try done. intros i Hi. apply H7. auto. Qed.

Lemma file_write_lookup data off src i :
  0 <= off -> off + Z.of_nat (length src) <= Z.of_nat (length data) ->
  file_write data off src !! i =
    if decide ((Z.to_nat off <= i < Z.to_nat off + length src)%nat) then src !! (i - Z.to_nat off)%nat else data !! i.
Proof.
  intros Ho Hl. unfold file_write. replace (Z.to_nat off - length data)%nat with 0%nat by lia. cbn [replicate app].
  destruct (decide (i < Z.to_nat off)%nat).
  - rewrite lookup_app_l by (rewrite length_take; lia). rewrite lookup_take_lt, decide_False by lia. done.
  - rewrite lookup_app_r by (rewrite length_take; lia). rewrite length_take.
    replace (Z.to_nat off `min` length data)%nat with (Z.to_nat off) by lia. destruct (decide _).
    + by rewrite lookup_app_l by lia.
    + rewrite lookup_app_r by lia. rewrite lookup_drop. f_equal. lia.
Qed.

Lemma file_write_length data off src :
  0 <= off -> off + Z.of_nat (length src) <= Z.of_nat (length data) -> length (file_write data off src) = length data.
Proof.
  intros Ho Hl. unfold file_write. rewrite !length_app, length_take, length_replicate, length_drop. lia.
Qed.

Lemma file_write_fits data off src : Forall (fits 8) data -> Forall (fits 8) src -> Forall (fits 8) (file_write data off src).
Proof.
  intros Hd Hs. unfold file_write. rewrite !Forall_app. split_and!; [by apply Forall_take|by apply Forall_replicate|done|by apply Forall_drop].
Qed.

Lemma peek_fits mem a n : bm_inv mem -> 0 <= a -> Forall (fits 8) (peek mem a n).
Proof. intros Hm Ha. unfold peek. destruct (bm_read mem a n) eqn:E; [by eapply bm_read_fits|constructor]. Qed.

Lemma gather_fits mem iov : bm_inv mem -> Forall iov_ok iov -> Forall (fits 8) (gather mem iov).
Proof.
  intros Hm Hi. unfold gather. induction Hi as [|v iov [Hb Hl] _ IH]; cbn [mbind list_bind]; [constructor|].
  apply Forall_app. split; [|done]. destruct (_ =? _); [constructor|by apply peek_fits].
Qed.

Lemma iov_total_cons v iov : iov_total (v :: iov) = iov_len v + iov_total iov.
Proof. done. Qed.

Lemma iov_total_nonneg iov : Forall iov_ok iov -> 0 <= iov_total iov.
Proof. induction 1 as [|v iov [_ Hl] _ IH]; [done|]. rewrite iov_total_cons. lia. Qed.

Lemma advance_total iov n : 0 <= n <= iov_total iov -> Forall iov_ok iov -> iov_total (advance_iov iov n) = iov_total iov - n.
Proof.
  intros Hn Hi. revert n Hn. induction Hi as [|v iov [Hb Hl] Hi IH]; intros n Hn; cbn [advance_iov].
  { cbn in *. lia. }
  rewrite iov_total_cons in *. destruct (Z.eqb_spec n 0); [rewrite iov_total_cons; lia|].
  destruct (Z.leb_spec (iov_len v) n); rewrite iov_total_cons; cbn [iov_len]; [rewrite IH by lia; lia|lia].
Qed.

(** One system call moves at most what is asked, into the vectors or into the
    file range. *)
Lemma syscall_only mem b iov off read r mem' b' :
  bm_inv mem -> Forall (fits 8) (fb_data b) -> Forall iov_ok iov -> 0 <= off ->
  (read = false -> off + iov_total iov <= Z.of_nat (length (fb_data b))) ->
  syscall host mem b iov off read = (r, mem', b') ->
  only (if read then iov_covers iov else fun _ => False) mem mem' /\
  disk_only (if read then fun _ => False else within off (iov_total iov)) b b' /\
  (forall n, r = Ok n -> 0 <= n <= iov_total iov).
Proof.
  intros Hm Hd Hi Ho Hw. pose proof (iov_total_nonneg iov Hi) as Ht. unfold syscall.
  destruct (host (fb_calls b)) as [k|]; [|intros [= <- <- <-]; destruct read; (split; [by apply only_refl|split; [done|done]])].
  destruct read; intros [= <- <- <-].
  - split; [apply scatter_only; [done|done|apply Forall_take; by apply Forall_drop]|]. split; [done|]. intros n [= <-]. lia.
  - set (src := take (Z.to_nat (Z.min (Z.of_nat k) (iov_total iov))) (gather mem iov)).
    assert (Hl : Z.of_nat (length src) <= iov_total iov) by (subst src; rewrite length_take; lia).
    specialize (Hw eq_refl). split; [by apply only_refl|]. split; [|intros n [= <-]; lia]. cbn.
    split_and!; try done; cbn [set_io fb_data].
    + apply file_write_length; lia.
    + apply file_write_fits; [done|]. subst src. by apply Forall_take, gather_fits.
    + intros i Hx. rewrite file_write_lookup by lia. rewrite decide_False; [done|]. unfold within in Hx. lia.
Qed.

Lemma transfer_only fuel mem b chunk iov done want off read r off' mem' b' :
  bm_inv mem -> Forall (fits 8) (fb_data b) -> Forall iov_ok iov -> Forall buf_ok chunk -> 0 <= off -> 0 <= done -> done + iov_total iov = want ->
  (read = false -> off + iov_total iov <= Z.of_nat (length (fb_data b))) ->
  transfer host fuel mem b chunk iov done want off read = (r, off', mem', b') ->
  only (if read then fun x => iov_covers iov x \/ covers chunk x else fun _ => False) mem mem' /\
  disk_only (if read then fun _ => False else within off (iov_total iov)) b b' /\
  (r = Ok false -> off' = off + iov_total iov).
Proof.
  revert mem b iov done off. induction fuel as [|fuel IH]; intros mem b iov done off Hm Hd Hi Hc Ho Hdn Hdt Hw; cbn [transfer].
  { intros [= <- <- <- <-]. split; [by apply only_refl|]. split; [done|done]. }
  pose proof (iov_total_nonneg iov Hi) as Ht. destruct (Z.leb_spec want done) as [Hle|Hgt].
  { intros [= <- <- <- <-]. split; [by apply only_refl|]. split; [done|]. intros _. lia. }
  destruct (syscall host mem b iov off read) as [[rs m1] b1] eqn:Es.
  destruct (syscall_only mem b iov off read rs m1 b1 Hm Hd Hi Ho Hw Es) as (Hm1 & Hb1 & Hn).
  assert (Hm1' : only (if read then fun x => iov_covers iov x \/ covers chunk x else fun _ => False) mem m1).
  { eapply only_weaken; [|exact Hm1]. destruct read; auto. }
  destruct rs as [n|e]; [|intros [= <- <- <- <-]; done]. specialize (Hn n eq_refl). destruct (Z.eqb_spec n 0) as [Hz|Hz].
  - destruct read; [|intros [= <- <- <- <-]; done].
    pose proof (zero_rest_only m1 chunk done (proj1 Hm1) Hc Hdn) as Hz1.
    destruct (zero_rest m1 chunk done) as [m2 [u|e]]; cbn [fst] in Hz1; intros [= <- <- <- <-];
      (split; [|done]); (eapply only_trans; [exact Hm1'|]); (eapply only_weaken; [|exact Hz1]); auto.
  - intros Htr. pose proof (advance_total iov n Hn Hi) as Hat. pose proof Hb1 as (_ & _ & _ & _ & Hlen & Hfit & _).
    destruct (IH m1 b1 (advance_iov iov n) (done + n) (off + n) (proj1 Hm1) Hfit (advance_ok iov n ltac:(lia) Hi) Hc ltac:(lia) ltac:(lia) ltac:(lia)) as (H1 & H2 & H3).
    + intros Hr. specialize (Hw Hr). rewrite Hlen. lia.
    + exact Htr.
    + split; [|split].
      * eapply only_trans; [exact Hm1'|]. eapply only_weaken; [|exact H1]. destruct read; [|done].
        intros x [Hx|Hx]; [left; eapply advance_covers; [|done|done]; lia|by right].
      * eapply disk_only_trans; [exact Hb1|]. eapply disk_only_weaken; [|exact H2]. destruct read; [done|]. unfold within. intros x Hx. lia.
      * intros Hr. rewrite H3 by done. lia.
Qed.

(** *** Whole transfers *)

Lemma buf_total_cons b bufs : buf_total (b :: bufs) = buf_len b + buf_total bufs.
Proof. done. Qed.

Lemma buf_total_app a b : buf_total (a ++ b) = buf_total a + buf_total b.
Proof. induction a as [|x a IH]; [done|]. cbn [app]. rewrite !buf_total_cons, IH. lia. Qed.

Lemma buf_total_nonneg bufs : Forall buf_ok bufs -> 0 <= buf_total bufs.
Proof. induction 1 as [|b bufs (_ & Hl & _) _ IH]; [done|]. rewrite buf_total_cons. unfold fits in Hl. lia. Qed.

Lemma build_iov_spec mem chunk iov :
  Forall buf_ok chunk -> build_iov mem chunk = Some iov ->
  Forall iov_ok iov /\ iov_total iov = buf_total chunk /\ forall x, iov_covers iov x -> covers chunk x.
Proof.
  intros Hc. revert iov. induction Hc as [|b chunk (Ha & Hl & He) _ IH]; intros iov; cbn [build_iov].
  { intros [= <-]. split; [constructor|]. split; [done|]. by intros x (v & Hv%not_elem_of_nil & _). }
  rewrite buf_total_cons. destruct (Z.eqb_spec (buf_len b) 0) as [Hz|Hz].
  - intros Hb. destruct (IH iov Hb) as (H1 & H2 & H3). split; [done|]. split; [lia|].
    intros x (b' & Hb' & Hx)%H3. exists b'. split; [by right|done].
  - destruct (is_ok _); [|done]. destruct (build_iov mem chunk) as [iov'|]; [|done]. cbn [mbind option_bind]. intros [= <-].
    destruct (IH iov' eq_refl) as (H1 & H2 & H3). unfold fits in Hl. split; [constructor; [split; cbn; lia|done]|].
    split; [rewrite iov_total_cons; cbn; lia|]. intros x (v & Hv & Hx). apply elem_of_cons in Hv as [->|Hv].
    + exists b. split; [by left|done].
    + destruct (H3 x) as (b' & Hb' & Hbx); [by exists v|]. exists b'. split; [by right|done].
Qed.

Lemma covers_sub (bufs bufs' : list Buffer) x : (forall b, b ∈ bufs -> b ∈ bufs') -> covers bufs x -> covers bufs' x.
Proof. intros H (b & Hb & Hx). exists b. auto. Qed.

Lemma vectored_only fuel mem b bufs off read r mem' b' :
  bm_inv mem -> Forall (fits 8) (fb_data b) -> Forall buf_ok bufs -> 0 <= off ->
  (read = false -> off + buf_total bufs <= Z.of_nat (length (fb_data b))) ->
  vectored host fuel mem b bufs off read = (r, mem', b') ->
  only (if read then covers bufs else fun _ => False) mem mem' /\
  disk_only (if read then fun _ => False else within off (buf_total bufs)) b b'.
Proof.
  revert mem b bufs off. induction fuel as [|fuel IH]; intros mem b bufs off Hm Hd Hb Ho Hw.
  { destruct bufs; cbn [vectored]; intros [= <- <- <-]; (split; [by apply only_refl|done]). }
  destruct bufs as [|b0 bufs0]; cbn [vectored]; [intros [= <- <- <-]; (split; [by apply only_refl|done])|].
  set (bufs := b0 :: bufs0) in *. clearbody bufs. clear b0 bufs0.
  pose proof (Forall_take _ IOV_MAX _ Hb) as Hc. pose proof (Forall_drop _ IOV_MAX _ Hb) as Hr.
  assert (Htot : buf_total bufs = buf_total (take IOV_MAX bufs) + buf_total (drop IOV_MAX bufs)).
  { by rewrite <- buf_total_app, take_drop. }
  pose proof (buf_total_nonneg _ Hc) as Hc0. pose proof (buf_total_nonneg _ Hr) as Hr0.
  assert (Hsubt : forall b, b ∈ take IOV_MAX bufs -> b ∈ bufs) by (intros x Hx; rewrite <- (take_drop IOV_MAX bufs); apply elem_of_app; by left).
  assert (Hsubd : forall b, b ∈ drop IOV_MAX bufs -> b ∈ bufs) by (intros x Hx; rewrite <- (take_drop IOV_MAX bufs); apply elem_of_app; by right).
  assert (Hskip : forall m1 b1, only (if read then covers bufs else fun _ => False) mem m1 ->
    disk_only (if read then fun _ => False else within off (buf_total bufs)) b b1 ->
    vectored host fuel m1 b1 (drop IOV_MAX bufs) (off + buf_total (take IOV_MAX bufs)) read = (r, mem', b') ->
    only (if read then covers bufs else fun _ => False) mem mem' /\ disk_only (if read then fun _ => False else within off (buf_total bufs)) b b').
  { intros m1 b1 Hm1 Hb1 Hv. pose proof Hb1 as (_ & _ & _ & _ & Hlen & Hfit & _).
    destruct (IH m1 b1 (drop IOV_MAX bufs) (off + buf_total (take IOV_MAX bufs)) (proj1 Hm1) Hfit Hr ltac:(lia)) as [H1 H2].
    - intros E. specialize (Hw E). rewrite Hlen. lia.
    - exact Hv.
    - split.
      + eapply only_trans; [exact Hm1|]. eapply only_weaken; [|exact H1]. destruct read; [|done]. intros x. by apply covers_sub.
      + eapply disk_only_trans; [exact Hb1|]. eapply disk_only_weaken; [|exact H2]. destruct read; [done|]. unfold within. intros x Hx. lia. }
  destruct (build_iov mem (take IOV_MAX bufs)) as [iov|] eqn:Ei; [|intros [= <- <- <-]; (split; [by apply only_refl|done])].
  destruct (build_iov_spec mem _ iov Hc Ei) as (Hi & Hit & Hic). destruct iov as [|v iov0].
  { intros Hv. apply (Hskip mem b); [by apply only_refl|done|]. change (iov_total []) with 0 in Hit. rewrite <- Hit, Z.add_0_r. exact Hv. }
  set (iov := v :: iov0) in *. clearbody iov.
  destruct (transfer host (S (Z.to_nat (iov_total iov))) mem b (take IOV_MAX bufs) iov 0 (iov_total iov) off read) as [[[rt off1] m1] b1] eqn:Et.
  destruct (transfer_only (S (Z.to_nat (iov_total iov))) mem b (take IOV_MAX bufs) iov 0 (iov_total iov) off read rt off1 m1 b1 Hm Hd Hi Hc Ho ltac:(lia) ltac:(lia)) as (H1 & H2 & H3).
  { intros E. specialize (Hw E). lia. }
  { exact Et. }
  assert (H1' : only (if read then covers bufs else fun _ => False) mem m1).
  { eapply only_weaken; [|exact H1]. destruct read; [|done]. intros x [Hx|Hx]; (eapply covers_sub; [exact Hsubt|]); [by apply Hic|done]. }
  assert (H2' : disk_only (if read then fun _ => False else within off (buf_total bufs)) b b1).
  { eapply disk_only_weaken; [|exact H2]. destruct read; [done|]. unfold within. intros x Hx. lia. }
  destruct rt as [[|]|e]; [intros [= <- <- <-]; done| |intros [= <- <- <-]; done].
  intros Hv. apply (Hskip m1 b1); [done|done|]. rewrite <- Hit. rewrite <- H3 by done. exact Hv.
Qed.

(** ** Where a request may write *)

Definition disk_ok (b : FileBackend) : Prop :=
  Forall (fits 8) (fb_data b) /\ 0 <= fb_bytes b <= Z.of_nat (length (fb_data b)) /\ fb_bytes b < 2 ^ 63 /\ fb_bytes b mod SECTOR = 0.

Lemma in_range_bound b sector len : disk_ok b -> 0 <= sector -> 0 <= len -> in_range b sector len = true -> 0 <= sector * SECTOR <= fb_bytes b.
Proof.
  intros (_ & Hb & _ & Hm) Hs Hl. unfold in_range, capacity, SECTOR in *. pose proof (Z.div_mod (fb_bytes b) 512 ltac:(lia)).
  destruct (Z.eqb_spec len 0).
  - intros Hle%Z.leb_le. lia.
  - destruct (checked_add 64 sector _) as [e|] eqn:E; [|done]. apply checked_add_Some in E as [-> _]. intros Hle%Z.leb_le.
    pose proof (Z.div_pos len 512 ltac:(lia) ltac:(lia)). destruct (0 <? len mod 512); lia.
Qed.

Lemma drop_empty_sub l b : b ∈ drop_empty l -> b ∈ l.
Proof.
  induction l as [|x l IH]; cbn [drop_empty]; [done|]. destruct (_ =? _); [|done]. intros H. right. auto.
Qed.

Lemma elem_of_rev {A} (l : list A) x : x ∈ rev l <-> x ∈ l.
Proof. rewrite !list_elem_of_In. symmetry. apply in_rev. Qed.

(** The data buffers are the writable ones less the status byte. *)
Lemma data_writable_elem c b :
  Forall buf_ok (c_writable c) -> b ∈ data_writable c ->
  buf_ok b /\ forall x, within (buf_addr b) (buf_len b) x -> covers (c_writable c) x.
Proof.
  intros Hc. unfold data_writable. destruct (rev (c_writable c)) as [|l rest] eqn:E; [by intros ?%not_elem_of_nil|].
  assert (Hin : forall y, y ∈ l :: rest -> y ∈ c_writable c) by (intros y Hy; apply elem_of_rev; by rewrite E).
  rewrite list.Forall_forall in Hc. intros Hb. apply elem_of_rev, drop_empty_sub, elem_of_cons in Hb as [->|Hb].
  - pose proof (Hc l (Hin l ltac:(by left))) as (H1 & H2 & H3). unfold fits in H2. destruct (Z.ltb_spec 0 (buf_len l)).
    + split; [unfold buf_ok, fits; cbn; lia|]. cbn. intros x Hx. exists l. split; [apply Hin; by left|]. unfold within in *. lia.
    + split; [done|]. intros x Hx. exists l. split; [apply Hin; by left|done].
  - split; [apply Hc, Hin; by right|]. intros x Hx. exists b. split; [apply Hin; by right|done].
Qed.

Lemma data_writable_ok c : Forall buf_ok (c_writable c) -> Forall buf_ok (data_writable c).
Proof. intros Hc. rewrite list.Forall_forall. intros b Hb. by eapply data_writable_elem. Qed.

Lemma data_writable_covers c x : Forall buf_ok (c_writable c) -> covers (data_writable c) x -> covers (c_writable c) x.
Proof. intros Hc (b & Hb & Hx). by eapply data_writable_elem. Qed.

Lemma out_loop_ok skip bufs : 0 <= skip -> Forall buf_ok bufs -> Forall buf_ok (out_loop skip bufs).
Proof.
  intros Hs Hb. revert skip Hs. induction Hb as [|b bufs (Ha & Hl & He) _ IH]; intros skip Hs; cbn [out_loop]; [constructor|].
  destruct (Z.leb_spec (buf_len b) skip); [apply IH; lia|]. unfold fits in *. constructor; [|by apply IH].
  unfold buf_ok, fits, add_w. cbn. rewrite wrap_small by (unfold fits; lia). lia.
Qed.

Lemma copy_to_only mem bufs src :
  bm_inv mem -> Forall buf_ok bufs -> Forall (fits 8) src -> only (covers bufs) mem (fst (copy_to mem bufs src)).
Proof.
  intros Hm Hb. revert mem src Hm. induction Hb as [|b bufs (Ha & Hl & He) _ IH]; intros mem src Hm Hs; cbn [copy_to]; [by apply only_refl|].
  destruct src as [|s0 src0]; [by apply only_refl|]. set (src := s0 :: src0) in *. clearbody src.
  assert (Htail : forall m src, bm_inv m -> Forall (fits 8) src -> only (covers (b :: bufs)) m (fst (copy_to m bufs src))).
  { intros m sr Hm' Hs'. eapply only_weaken; [|by apply IH]. intros x (b' & Hb' & Hx). exists b'. split; [by right|done]. }
  destruct (_ =? _)%nat; [by apply Htail|].
  destruct (bm_write mem (buf_addr b) _) as [m1|] eqn:E; [|by apply only_refl].
  assert (H1 : only (covers (b :: bufs)) mem m1).
  { eapply only_weaken; [|eapply write_only; [done|done|by apply Forall_take|done]]. intros x Hx. exists b. split; [by left|].
    rewrite length_take in Hx. unfold within, fits in *. lia. }
  eapply only_trans; [exact H1|]. apply Htail; [apply H1|by apply Forall_drop].
Qed.

Lemma chain_status_covered c a : Forall buf_ok (c_writable c) -> chain_status c = Some a -> covers (c_writable c) a /\ 0 <= a.
Proof.
  intros Hc. unfold chain_status. destruct (list.last (c_writable c)) as [l|] eqn:E; [|done]. cbn [mbind option_bind].
  apply last_Some_elem_of in E. rewrite list.Forall_forall in Hc. destruct (Hc l E) as (H1 & H2 & H3). unfold fits in H2.
  destruct (Z.eqb_spec (buf_len l) 0); [done|]. intros [= <-].
  assert (Ew : wrapping_sub 64 (add_w 64 (buf_addr l) (buf_len l)) 1 = buf_addr l + buf_len l - 1).
  { unfold wrapping_sub, add_w, wrap. rewrite Zminus_mod_idemp_l. apply Z.mod_small. lia. }
  rewrite Ew. split; [|lia]. exists l. split; [done|]. unfold within. lia.
Qed.

Lemma write_status_only c mem a v :
  bm_inv mem -> Forall buf_ok (c_writable c) -> (forall x, a = Some x -> covers (c_writable c) x /\ 0 <= x) -> fits 8 v ->
  only (covers (c_writable c)) mem (snd (write_status mem a v)).
Proof.
  intros Hm Hc Ha Hv. unfold write_status. destruct a as [a|]; [|by apply only_refl]. destruct (Ha a eq_refl) as [Hco Hpos].
  destruct (bm_write_le 1 mem a v) as [m1|] eqn:E; [|by apply only_refl]. cbn [snd]. unfold bm_write_le in E.
  eapply only_weaken; [|eapply write_only; [done|done|apply le_bytes_fits|exact E]]. rewrite length_le_bytes. intros x Hx.
  assert (x = a) as -> by (unfold within in Hx; lia). done.
Qed.

Lemma read_guest_only b mem bufs off r mem' b' :
  bm_inv mem -> Forall (fits 8) (fb_data b) -> Forall buf_ok bufs -> 0 <= off ->
  read_guest host b mem bufs off = (r, mem', b') -> only (covers bufs) mem mem' /\ disk_only (fun _ => False) b b'.
Proof.
  intros Hm Hd Hb Ho. unfold read_guest. destruct (_ <? _); [intros [= <- <- <-]; (split; [by apply only_refl|done])|].
  intros Hv. by apply (vectored_only (length bufs) mem b bufs off true r mem' b' Hm Hd Hb Ho).
Qed.

Lemma after_write_only P b : Forall (fits 8) (fb_data b) -> disk_only P b (snd (after_write sync b)).
Proof. intros Hd. unfold after_write, flush. by destruct (bool_decide _). Qed.

Lemma write_guest_only b mem bufs off r b' :
  bm_inv mem -> disk_ok b -> Forall buf_ok bufs -> 0 <= off ->
  write_guest host sync b mem bufs off = (r, b') ->
  disk_only (fun i => fb_read_only b = false /\ within off (buf_total bufs) i /\ i < fb_bytes b) b b'.
Proof.
  intros Hm (Hd & Hby & Hmax & Hmod) Hb Ho. pose proof (buf_total_nonneg _ Hb). unfold write_guest, check_write, saturating_add.
  destruct (fb_read_only b) eqn:Hro; [intros [= <- <-]; done|].
  destruct (Z.ltb_spec (fb_bytes b) (Z.min (off + buf_total bufs) (2 ^ 64 - 1))); [intros [= <- <-]; done|].
  destruct (vectored host (length bufs) mem b bufs off false) as [[rv mv] bv] eqn:Ev.
  destruct (vectored_only (length bufs) mem b bufs off false rv mv bv Hm Hd Hb Ho) as [_ Hdv]; [intros _; lia|exact Ev|].
  assert (Hdv' : disk_only (fun i => false = false /\ within off (buf_total bufs) i /\ i < fb_bytes b) b bv).
  { eapply disk_only_weaken; [|exact Hdv]. unfold within. intros x Hx. split; [done|]. lia. }
  destruct rv as [u|e]; [|intros [= <- <-]; done]. intros Ha. eapply disk_only_trans; [exact Hdv'|].
  replace b' with (snd (after_write sync bv)) by by rewrite Ha. apply after_write_only. apply Hdv.
Qed.

Lemma sum_u32_nonneg bufs : 0 <= sum_u32 bufs.
Proof. unfold sum_u32. destruct bufs; cbn [foldr]; [lia|]. apply Z.mod_pos_bound. lia. Qed.

Lemma data_bytes_nonneg c ty : 0 <= data_bytes c ty.
Proof. unfold data_bytes. repeat destruct (_ =? _); cbn [orb]; lia. Qed.

Lemma copy_from_fits mem bufs want hdr : bm_inv mem -> Forall buf_ok bufs -> copy_from mem bufs want = Some hdr -> Forall (fits 8) hdr.
Proof.
  intros Hm Hb. revert want hdr. induction Hb as [|b bufs (Ha & Hl & He) _ IH]; intros want hdr; cbn [copy_from].
  { destruct (_ <? _); [done|]. by intros [= <-]. }
  destruct (_ <=? _); [by intros [= <-]|]. destruct (_ =? _); [by apply IH|].
  destruct (bm_read mem _ _) as [got|] eqn:E; [|done]. destruct (copy_from mem bufs _) as [rest|] eqn:Er; [|done].
  intros [= <-]. apply Forall_app. split; [by eapply bm_read_fits|by eapply IH].
Qed.

Lemma parse_sector mem c h a : bm_inv mem -> Forall buf_ok (c_readable c) -> parse mem c = Some (h, a) -> 0 <= hd_sector h /\ chain_status c = Some a.
Proof.
  intros Hm Hb. unfold parse. destruct (copy_from mem (c_readable c) 16) as [hdr|] eqn:E; [|done]. cbn [mbind option_bind].
  destruct (chain_status c) as [a'|]; [|done]. cbn [mbind option_bind]. intros [= <- <-]. split; [|done]. cbn.
  apply of_le_bound. apply Forall_take, Forall_drop. by eapply copy_from_fits.
Qed.

(** The offsets of the disk an OUT request may change. *)
Definition may_write mem b c (i : Z) : Prop :=
  exists h a, parse mem c = Some (h, a) /\ hd_ty h = VIRTIO_BLK_T_OUT /\ fb_read_only b = false /\
    within (hd_sector h * SECTOR) (buf_total (out_readable c)) i /\ i < fb_bytes b.

Lemma process_confined mem b c serial st used mem' b' st' :
  bm_inv mem -> disk_ok b -> Forall buf_ok (c_readable c) -> Forall buf_ok (c_writable c) -> Forall (fits 8) serial ->
  process host sync mem b c serial st = (used, mem', b', st') ->
  only (covers (c_writable c)) mem mem' /\ disk_only (may_write mem b c) b b'.
Proof.
  intros Hm Hd Hr Hw Hser. pose proof Hd as (Hfit & Hby & Hmax & Hmod). unfold process.
  pose proof (chain_status_covered c) as Hcs.
  destruct (parse mem c) as [[h a]|] eqn:Ep.
  2:{ pose proof (write_status_only c mem (chain_status c) VIRTIO_BLK_S_IOERR Hm Hw) as Hws.
      destruct (write_status mem (chain_status c) VIRTIO_BLK_S_IOERR) as [n m1]. intros [= <- <- <- <-].
      split; [|done]. apply Hws; [intros x Hx; by apply Hcs|done]. }
  destruct (parse_sector mem c h a Hm Hr Ep) as [Hsec Hst]. destruct (Hcs a Hw Hst) as [Hac Ha0].
  assert (Hfin : forall m1 b1 st1 status written, only (covers (c_writable c)) mem m1 -> disk_only (may_write mem b c) b b1 -> fits 8 status ->
    (let '(n, m2) := write_status m1 (Some a) status in (wrap 32 (n + written), m2, b1, st1)) = (used, mem', b', st') ->
    only (covers (c_writable c)) mem mem' /\ disk_only (may_write mem b c) b b').
  { intros m1 b1 st1 status written H1 H2 Hs. pose proof (write_status_only c m1 (Some a) status (proj1 H1) Hw) as Hws.
    destruct (write_status m1 (Some a) status) as [n m2]. intros [= _ <- <- _]. split; [|done]. eapply only_trans; [exact H1|].
    apply Hws; [|done]. by intros x [= <-]. }
  pose proof (data_bytes_nonneg c (hd_ty h)) as Hdl. destruct (hd_ty h =? VIRTIO_BLK_T_IN).
  { unfold read_req. destruct (in_range b (hd_sector h) (data_bytes c (hd_ty h))) eqn:Hin; cbn [negb].
    - pose proof (in_range_bound b _ _ Hd Hsec Hdl Hin) as Hoff. rewrite wrap_small by (unfold fits, SECTOR in *; lia).
      destruct (read_guest host b mem (data_writable c) (hd_sector h * SECTOR)) as [[r m1] b1] eqn:Eg.
      destruct (read_guest_only b mem _ _ r m1 b1 Hm Hfit (data_writable_ok c Hw) (proj1 Hoff) Eg) as [H1 H2].
      assert (H1' : only (covers (c_writable c)) mem m1) by (eapply only_weaken; [|exact H1]; intros x; by apply data_writable_covers).
      assert (H2' : disk_only (may_write mem b c) b b1) by (eapply disk_only_weaken; [|exact H2]; done).
      destruct r; by apply Hfin.
    - apply Hfin; [by apply only_refl|done|done]. }
  destruct (Z.eqb_spec (hd_ty h) VIRTIO_BLK_T_OUT) as [Hty|_].
  { unfold write_req. destruct (fb_read_only b) eqn:Hro; [apply Hfin; [by apply only_refl|done|done]|].
    destruct (in_range b (hd_sector h) (data_bytes c (hd_ty h))) eqn:Hin; cbn [negb]; [|apply Hfin; [by apply only_refl|done|done]].
    pose proof (in_range_bound b _ _ Hd Hsec Hdl Hin) as Hoff. rewrite wrap_small by (unfold fits, SECTOR in *; lia).
    destruct (write_guest host sync b mem (out_readable c) (hd_sector h * SECTOR)) as [r b1] eqn:Eg.
    pose proof (write_guest_only b mem _ _ r b1 Hm Hd (out_loop_ok 16 _ ltac:(lia) Hr) (proj1 Hoff) Eg) as H2.
    assert (H2' : disk_only (may_write mem b c) b b1).
    { eapply disk_only_weaken; [|exact H2]. intros x (H3 & H4 & H5). by exists h, a. }
    destruct r; apply Hfin; try done; by apply only_refl. }
  destruct (_ =? VIRTIO_BLK_T_FLUSH).
  { unfold flush_req, flush. destruct (sync _); apply Hfin; try done; by apply only_refl. }
  destruct (_ =? VIRTIO_BLK_T_GET_ID); [|apply Hfin; [by apply only_refl|done|done]].
  unfold get_id. pose proof (copy_to_only mem (data_writable c) serial Hm (data_writable_ok c Hw) Hser) as H1.
  destruct (copy_to mem (data_writable c) serial) as [m1 ok]. cbn [fst] in H1.
  assert (H1' : only (covers (c_writable c)) mem m1) by (eapply only_weaken; [|exact H1]; intros x; by apply data_writable_covers).
  destruct ok; by apply Hfin.
Qed.

(** ** What a transfer moves *)

(** Memory as a function, updated byte by byte in order. *)
Fixpoint upd (f : Z -> option Z) (addrs src : list Z) : Z -> option Z :=
  match addrs, src with
  | a :: addrs', v :: src' => upd (fun x => if decide (x = a) then Some v else f x) addrs' src'
  | _, _ => f
  end.

Definition flat (iov : list Iovec) : list Z := iov ≫= fun v => seqZ (iov_base v) (iov_len v).
Definition bufs_flat (bufs : list Buffer) : list Z := bufs ≫= fun b => seqZ (buf_addr b) (buf_len b).

Lemma upd_ext f g addrs src x : (forall x, f x = g x) -> upd f addrs src x = upd g addrs src x.
Proof.
  revert f g src. induction addrs as [|a addrs IH]; intros f g [|v src] H; cbn [upd]; auto.
  apply IH. intros y. by destruct (decide (y = a)).
Qed.

Lemma upd_nil f addrs x : upd f addrs [] x = f x.
Proof. by destruct addrs. Qed.

Lemma upd_app f a1 a2 src x : upd f (a1 ++ a2) src x = upd (upd f a1 (take (length a1) src)) a2 (drop (length a1) src) x.
Proof.
  revert f src. induction a1 as [|a a1 IH]; intros f src; cbn [app length].
  - by rewrite take_0, drop_0.
  - destruct src as [|v src]; [by rewrite take_nil, drop_nil, !upd_nil|]. cbn [upd firstn skipn]. by rewrite IH.
Qed.

Lemma upd_outside f addrs src x : x ∉ addrs -> upd f addrs src x = f x.
Proof.
  revert f src. induction addrs as [|a addrs IH]; intros f [|v src] Hx; cbn [upd]; try done.
  apply not_elem_of_cons in Hx as [Hxa Hx]. rewrite IH by done. by rewrite decide_False.
Qed.

Lemma upd_seqZ f a src x n :
  (length src <= Z.to_nat n)%nat ->
  upd f (seqZ a n) src x = if decide (a <= x < a + Z.of_nat (length src)) then src !! Z.to_nat (x - a) else f x.
Proof.
  revert f a n. induction src as [|v src IH]; intros f a n Hn; cbn [length] in *.
  - rewrite upd_nil, decide_False by lia. done.
  - rewrite (seqZ_cons a n) by lia. cbn [upd]. rewrite IH by lia. destruct (decide (x = a)) as [->|Hne].
    + rewrite decide_False, decide_True by lia. by rewrite Z.sub_diag.
    + destruct (decide (Z.succ a <= x < Z.succ a + Z.of_nat (length src))).
      * rewrite decide_True by lia. replace (Z.to_nat (x - a)) with (S (Z.to_nat (x - Z.succ a))) by lia. done.
      * rewrite decide_False by lia. done.
Qed.

Lemma poke_upd mem a src n x :
  bm_inv mem -> 0 <= a -> Forall (fits 8) src -> (length src <= Z.to_nat n)%nat -> (src <> [] -> bm_span mem a n) ->
  bm_byte (poke mem a src) x = upd (bm_byte mem) (seqZ a n) src x.
Proof.
  intros Hm Ha Hs Hl Hsp. rewrite upd_seqZ by done. unfold poke. destruct src as [|v src].
  { cbn [length]. by rewrite decide_False by lia. }
  specialize (Hsp ltac:(done)). assert (Hpos : (1 <= length (v :: src))%nat) by (cbn; lia). set (src' := v :: src) in *.
  assert (Hsub : bm_span mem a (Z.of_nat (length src'))) by (eapply bm_span_sub; [exact Hsp|lia|lia]).
  destruct (proj2 (bm_write_Ok mem a src' Hm Ha ltac:(done)) Hsub) as [m' E]. rewrite E.
  destruct (bm_write_spec mem a src' m' Hm Ha Hs E) as (_ & H2 & _). by rewrite H2.
Qed.

Definition iov_mapped mem (v : Iovec) : Prop := iov_ok v /\ (0 < iov_len v -> bm_span mem (iov_base v) (iov_len v)).

Lemma iov_mapped_only P mem mem' iov : only P mem mem' -> Forall (iov_mapped mem) iov -> Forall (iov_mapped mem') iov.
Proof. intros (_ & Hsp & _). apply Forall_impl. intros v [Hok Hv]. split; [done|]. intros Hl. apply Hsp. auto. Qed.

Lemma iovs_mapped_ok mem iov : Forall (iov_mapped mem) iov -> Forall iov_ok iov.
Proof. apply Forall_impl. by intros v [? _]. Qed.

Lemma length_flat iov : Forall iov_ok iov -> Z.of_nat (length (flat iov)) = iov_total iov.
Proof.
  induction 1 as [|v iov [_ Hl] _ IH]; [done|]. unfold flat in *. cbn [mbind list_bind]. rewrite length_app, length_seqZ, iov_total_cons. lia.
Qed.

Lemma scatter_upd mem iov src x :
  bm_inv mem -> Forall (iov_mapped mem) iov -> Forall (fits 8) src ->
  bm_byte (scatter mem iov src) x = upd (bm_byte mem) (flat iov) src x.
Proof.
  intros Hm Hi. revert mem src Hm Hi. induction iov as [|v iov IH]; intros mem src Hm Hi Hs; cbn [scatter]; [done|].
  apply Forall_cons_iff in Hi as [[[Hb Hl] Hv] Hi].
  assert (Ht : Forall (fits 8) (take (Z.to_nat (iov_len v)) src)) by by apply Forall_take.
  pose proof (poke_only mem (iov_base v) _ Hm Hb Ht) as Hp.
  rewrite IH; [|apply Hp|by eapply iov_mapped_only|by apply Forall_drop].
  unfold flat. cbn [mbind list_bind]. rewrite upd_app, length_seqZ. apply upd_ext. intros y.
  rewrite (poke_upd mem (iov_base v) _ (iov_len v)); [done|done|done|done|rewrite length_take; lia|].
  intros Hne. apply Hv. destruct (decide (iov_len v = 0)) as [E|]; [rewrite E in Hne; by rewrite take_0 in Hne|lia].
Qed.

Lemma advance_flat iov n : 0 <= n <= iov_total iov -> Forall iov_ok iov -> flat (advance_iov iov n) = drop (Z.to_nat n) (flat iov).
Proof.
  intros Hn Hi. revert n Hn. induction Hi as [|v iov [Hb Hl] Hi IH]; intros n Hn; cbn [advance_iov].
  { unfold flat. cbn. by rewrite drop_nil. }
  rewrite iov_total_cons in Hn. unfold flat in *. cbn [mbind list_bind]. destruct (Z.eqb_spec n 0) as [->|].
  { by rewrite drop_0. }
  destruct (Z.leb_spec (iov_len v) n); cbn [mbind list_bind iov_base iov_len].
  - rewrite drop_app_ge by (rewrite length_seqZ; lia). rewrite length_seqZ, IH by lia. change (seqZ 0 0) with (@nil Z). rewrite app_nil_l. f_equal. lia.
  - rewrite drop_app_le by (rewrite length_seqZ; lia). f_equal. apply list_eq. intros i. rewrite lookup_drop.
    destruct (decide (Z.of_nat i < iov_len v - n)).
    + rewrite !lookup_seqZ_lt by lia. f_equal. lia.
    + rewrite !lookup_seqZ_ge by lia. done.
Qed.

Lemma advance_mapped mem iov n : 0 <= n -> Forall (iov_mapped mem) iov -> Forall (iov_mapped mem) (advance_iov iov n).
Proof.
  intros Hn Hi. revert n Hn. induction Hi as [|v iov [[Hb Hl] Hv] Hi IH]; intros n Hn; cbn [advance_iov]; [constructor|].
  destruct (Z.eqb_spec n 0); [by constructor|]. destruct (Z.leb_spec (iov_len v) n); constructor; try done.
  - apply IH. lia.
  - split; [split; cbn; lia|]. cbn. intros _. eapply bm_span_sub; [apply Hv; lia|lia|lia].
Qed.

Definition file_slice (data : list Z) (off n : Z) : list Z := take (Z.to_nat n) (drop (Z.to_nat off) data).

Lemma file_slice_split data off n k :
  0 <= off -> 0 <= k <= n -> take (Z.to_nat k) (file_slice data off n) = file_slice data off k /\
  drop (Z.to_nat k) (file_slice data off n) = file_slice data (off + k) (n - k).
Proof.
  intros Ho Hk. unfold file_slice. split; [rewrite take_take; f_equal; lia|].
  rewrite skipn_firstn_comm, drop_drop. f_equal; [lia|]. f_equal. lia.
Qed.

Lemma file_slice_length data off n : 0 <= off -> 0 <= n -> off + n <= Z.of_nat (length data) -> Z.of_nat (length (file_slice data off n)) = n.
Proof. intros. unfold file_slice. rewrite length_take, length_drop. lia. Qed.

(** The operating system makes progress on every call. *)
Definition progress : Prop := forall i, exists k, host i = Some k /\ (1 <= k)%nat.

Lemma transfer_read fuel mem b chunk iov done off :
  progress -> bm_inv mem -> Forall (fits 8) (fb_data b) -> Forall (iov_mapped mem) iov -> 0 <= off -> 0 <= done ->
  off + iov_total iov <= Z.of_nat (length (fb_data b)) -> iov_total iov < Z.of_nat fuel ->
  exists mem' b', transfer host fuel mem b chunk iov done (done + iov_total iov) off true = (Ok false, off + iov_total iov, mem', b') /\
    fb_data b' = fb_data b /\ only (iov_covers iov) mem mem' /\
    forall x, bm_byte mem' x = upd (bm_byte mem) (flat iov) (file_slice (fb_data b) off (iov_total iov)) x.
Proof.
  intros Hp. revert mem b iov done off. induction fuel as [|fuel IH]; intros mem b iov done off Hm Hd Hi Ho Hdn Hfile Hfuel.
  { pose proof (iov_total_nonneg iov (iovs_mapped_ok _ _ Hi)). lia. }
  pose proof (iovs_mapped_ok _ _ Hi) as Hiok. pose proof (iov_total_nonneg iov Hiok) as Ht. cbn [transfer].
  destruct (Z.leb_spec (done + iov_total iov) done) as [Hle|Hgt].
  { assert (E : iov_total iov = 0) by lia. rewrite E, Z.add_0_r. exists mem, b. split; [done|]. split; [done|]. split; [by apply only_refl|].
    intros x. unfold file_slice. cbn [Z.to_nat]. change (Z.to_nat 0) with 0%nat. by rewrite take_0, upd_nil. }
  unfold syscall. destruct (Hp (fb_calls b)) as (k & -> & Hk).
  set (n := Z.min (Z.of_nat k) _). assert (Hn : 1 <= n <= iov_total iov) by (subst n; lia).
  rewrite (proj2 (Z.eqb_neq n 0)) by lia. set (b1 := set_io b (fb_data b) (S (fb_calls b)) (fb_syncs b)).
  change (take (Z.to_nat n) (drop (Z.to_nat off) (fb_data b))) with (file_slice (fb_data b) off n).
  assert (Hs : Forall (fits 8) (file_slice (fb_data b) off n)) by (apply Forall_take; by apply Forall_drop).
  pose proof (scatter_only mem iov _ Hm Hiok Hs) as Hso. set (m1 := scatter mem iov _) in *.
  pose proof (advance_total iov n ltac:(lia) Hiok) as Hat.
  destruct (IH m1 b1 (advance_iov iov n) (done + n) (off + n)) as (mem' & b' & E & Hdata & Honly & Hby).
  - apply Hso.
  - done.
  - apply advance_mapped; [lia|]. by eapply iov_mapped_only.
  - lia.
  - lia.
  - cbn. lia.
  - lia.
  - exists mem', b'. replace (done + iov_total iov) with (done + n + iov_total (advance_iov iov n)) by lia. rewrite E.
    split; [f_equal; f_equal; f_equal; lia|]. split; [done|]. split.
    + eapply only_trans; [exact Hso|]. eapply only_weaken; [|exact Honly]. intros x. apply advance_covers; [lia|done].
    + intros x. rewrite Hby. cbn [b1 set_io fb_data]. rewrite Hat, advance_flat by (done || lia).
      destruct (file_slice_split (fb_data b) off (iov_total iov) n Ho ltac:(lia)) as [E1 E2]. rewrite <- E2.
      rewrite <- (take_drop (Z.to_nat n) (flat iov)) at 2. rewrite upd_app.
      assert (El : length (take (Z.to_nat n) (flat iov)) = Z.to_nat n).
      { rewrite length_take. pose proof (length_flat iov Hiok). lia. }
      rewrite El, E1. apply upd_ext. intros y. subst m1. rewrite scatter_upd by done.
      rewrite <- (take_drop (Z.to_nat n) (flat iov)) at 1. rewrite upd_app, El.
      assert (Esl : length (file_slice (fb_data b) off n) = Z.to_nat n) by (pose proof (file_slice_length (fb_data b) off n Ho ltac:(lia) ltac:(lia)); lia).
      rewrite (take_ge (file_slice _ _ _)) by lia. rewrite (drop_ge (file_slice _ _ _)) by lia. by rewrite upd_nil.
Qed.

Definition buf_mapped mem (b : Buffer) : Prop := buf_ok b /\ (0 < buf_len b -> bm_span mem (buf_addr b) (buf_len b)).

Lemma buf_mapped_only P mem mem' bufs : only P mem mem' -> Forall (buf_mapped mem) bufs -> Forall (buf_mapped mem') bufs.
Proof. intros (_ & Hsp & _). apply Forall_impl. intros v [Hok Hv]. split; [done|]. intros Hl. apply Hsp. auto. Qed.

Lemma bufs_mapped_ok mem bufs : Forall (buf_mapped mem) bufs -> Forall buf_ok bufs.
Proof. apply Forall_impl. by intros v [? _]. Qed.

Lemma build_iov_mapped mem chunk :
  bm_inv mem -> Forall (buf_mapped mem) chunk ->
  exists iov, build_iov mem chunk = Some iov /\ Forall (iov_mapped mem) iov /\ flat iov = bufs_flat chunk /\ iov_total iov = buf_total chunk.
Proof.
  intros Hm. induction 1 as [|b chunk [(Ha & Hl & He) Hsp] _ IH]; cbn [build_iov]; [by exists []|].
  destruct IH as (iov & -> & H1 & H2 & H3). rewrite buf_total_cons. unfold bufs_flat in *. cbn [mbind list_bind]. unfold fits in Hl.
  destruct (Z.eqb_spec (buf_len b) 0) as [E|E].
  - exists iov. rewrite E. split; [done|]. split; [done|]. split; [done|]. lia.
  - assert (Hspan : bm_span mem (buf_addr b) (buf_len b)) by (apply Hsp; lia).
    destruct (bm_span_read mem (buf_addr b) (Z.to_nat (buf_len b)) Hm Ha ltac:(lia)) as [bs ->].
    { by rewrite Z2Nat.id by lia. }
    cbn [is_ok mbind option_bind]. eexists. split; [done|]. split; [constructor; [|done]; split; [split; cbn; lia|done]|].
    unfold flat in *. cbn [mbind list_bind iov_base iov_len]. rewrite H2. split; [done|]. rewrite iov_total_cons. cbn. lia.
Qed.

Lemma bufs_flat_app a b : bufs_flat (a ++ b) = bufs_flat a ++ bufs_flat b.
Proof. apply bind_app. Qed.

Lemma length_bufs_flat bufs : Forall buf_ok bufs -> Z.of_nat (length (bufs_flat bufs)) = buf_total bufs.
Proof.
  induction 1 as [|b bufs (_ & Hl & _) _ IH]; [done|]. unfold bufs_flat in *. cbn [mbind list_bind]. unfold fits in Hl.
  rewrite length_app, length_seqZ, buf_total_cons. lia.
Qed.

Lemma vectored_read fuel mem b bufs off :
  progress -> bm_inv mem -> Forall (fits 8) (fb_data b) -> Forall (buf_mapped mem) bufs -> 0 <= off ->
  off + buf_total bufs <= Z.of_nat (length (fb_data b)) -> (length bufs <= fuel)%nat ->
  exists mem' b', vectored host fuel mem b bufs off true = (Ok tt, mem', b') /\ fb_data b' = fb_data b /\
    forall x, bm_byte mem' x = upd (bm_byte mem) (bufs_flat bufs) (file_slice (fb_data b) off (buf_total bufs)) x.
Proof.
  intros Hp. revert mem b bufs off. induction fuel as [|fuel IH]; intros mem b bufs off Hm Hd Hb Ho Hfile Hfuel.
  { destruct bufs; [|cbn in Hfuel; lia]. by exists mem, b. }
  destruct bufs as [|b0 bufs0]; [by exists mem, b|]. cbn [vectored]. set (bufs := b0 :: bufs0) in *.
  assert (Hpos : (1 <= length bufs)%nat) by (subst bufs; cbn; lia). clearbody bufs. clear b0 bufs0.
  assert (Hdl : (length (drop IOV_MAX bufs) <= fuel)%nat) by (rewrite length_drop; unfold IOV_MAX; lia).
  pose proof (Forall_take _ IOV_MAX _ Hb) as Hc. pose proof (Forall_drop _ IOV_MAX _ Hb) as Hr.
  assert (Hsplit : bufs = take IOV_MAX bufs ++ drop IOV_MAX bufs) by by rewrite take_drop.
  set (chunk := take IOV_MAX bufs) in *. set (rest := drop IOV_MAX bufs) in *. clearbody chunk rest.
  rewrite Hsplit in *. rewrite buf_total_app in *. rewrite bufs_flat_app.
  destruct (build_iov_mapped mem chunk Hm Hc) as (iov & -> & Hi & Hf & Ht).
  pose proof (buf_total_nonneg chunk (bufs_mapped_ok _ _ Hc)) as Hc0. pose proof (buf_total_nonneg rest (bufs_mapped_ok _ _ Hr)) as Hr0.
  pose proof (length_bufs_flat chunk (bufs_mapped_ok _ _ Hc)) as Hcl.
  destruct iov as [|v iov0].
  { change (iov_total []) with 0 in Ht. change (flat []) with (@nil Z) in Hf. rewrite <- Hf, <- Ht. rewrite <- Ht in Hfile.
    apply IH; try done. }
  set (iov := v :: iov0) in *. clearbody iov.
  destruct (transfer_read (S (Z.to_nat (iov_total iov))) mem b chunk iov 0 off Hp Hm Hd Hi Ho ltac:(lia) ltac:(lia) ltac:(lia))
    as (m1 & b1 & E & Hdata & Honly & Hby).
  rewrite Z.add_0_l in E. rewrite E.
  destruct (IH m1 b1 rest (off + iov_total iov)) as (mem' & b' & E' & Hdata' & Hby').
  - apply Honly.
  - by rewrite Hdata.
  - by eapply buf_mapped_only.
  - lia.
  - rewrite Hdata. lia.
  - done.
  - exists mem', b'. split; [done|]. split; [congruence|]. intros x. rewrite Hby', Hdata, upd_app.
    destruct (file_slice_split (fb_data b) off (buf_total chunk + buf_total rest) (buf_total chunk) Ho ltac:(lia)) as [E1 E2].
    replace (length (bufs_flat chunk)) with (Z.to_nat (buf_total chunk)) by lia. rewrite E1, E2, Ht.
    replace (buf_total chunk + buf_total rest - buf_total chunk) with (buf_total rest) by lia.
    apply upd_ext. intros y. by rewrite Hby, Hf, Ht.
Qed.

(** *** Writes *)

Definition bytes_at mem (addrs : list Z) : list Z := (fun a => default 0 (bm_byte mem a)) <$> addrs.

Lemma peek_bytes mem a n :
  bm_inv mem -> 0 <= a -> 0 < n -> bm_span mem a n -> peek mem a (Z.to_nat n) = bytes_at mem (seqZ a n).
Proof.
  intros Hm Ha Hn Hsp. unfold peek. destruct (bm_span_read mem a (Z.to_nat n) Hm Ha ltac:(lia)) as [bs E].
  { by rewrite Z2Nat.id by lia. }
  rewrite E. apply bm_read_spec in E as (_ & Hl & Hb); [|done|done|lia]. apply list_eq. intros i. unfold bytes_at. rewrite list_lookup_fmap.
  destruct (decide (i < Z.to_nat n)%nat).
  - rewrite lookup_seqZ_lt by lia. cbn. pose proof (Hb i ltac:(done)) as Hbi. rewrite Hbi.
    destruct (lookup_lt_is_Some_2 bs i) as [v Hv]; [lia|]. rewrite Hv in Hbi. by rewrite <- Hbi.
  - rewrite lookup_seqZ_ge by lia. rewrite lookup_ge_None_2 by lia. done.
Qed.

Lemma gather_bytes mem iov : bm_inv mem -> Forall (iov_mapped mem) iov -> gather mem iov = bytes_at mem (flat iov).
Proof.
  intros Hm. unfold gather, bytes_at, flat. induction 1 as [|v iov [[Hb Hl] Hv] _ IH]; [done|]. cbn [mbind list_bind].
  rewrite fmap_app, IH. f_equal. destruct (Z.eqb_spec (iov_len v) 0) as [->|]; [done|]. apply peek_bytes; [done|done|lia|apply Hv; lia].
Qed.

Lemma file_write_append data off s1 s2 :
  0 <= off -> off + Z.of_nat (length s1) + Z.of_nat (length s2) <= Z.of_nat (length data) ->
  file_write (file_write data off s1) (off + Z.of_nat (length s1)) s2 = file_write data off (s1 ++ s2).
Proof.
  intros Ho Hl. apply list_eq. intros i. rewrite file_write_lookup by (rewrite ?file_write_length; lia).
  rewrite file_write_lookup by lia. rewrite file_write_lookup by (rewrite ?length_app; lia). rewrite length_app.
  destruct (decide _) as [H1|H1].
  - rewrite decide_True by lia. rewrite lookup_app_r by lia. f_equal. lia.
  - destruct (decide _) as [H2|H2].
    + rewrite decide_True by lia. by rewrite lookup_app_l by lia.
    + by rewrite decide_False by lia.
Qed.

Lemma transfer_write fuel mem b chunk iov done off :
  progress -> bm_inv mem -> Forall (iov_mapped mem) iov -> 0 <= off -> 0 <= done ->
  off + iov_total iov <= Z.of_nat (length (fb_data b)) -> iov_total iov < Z.of_nat fuel ->
  exists b', transfer host fuel mem b chunk iov done (done + iov_total iov) off false = (Ok false, off + iov_total iov, mem, b') /\
    fb_data b' = file_write (fb_data b) off (bytes_at mem (flat iov)) /\ fb_cache b' = fb_cache b /\ fb_syncs b' = fb_syncs b.
Proof.
  intros Hp. revert b iov done off. induction fuel as [|fuel IH]; intros b iov done off Hm Hi Ho Hdn Hfile Hfuel.
  { pose proof (iov_total_nonneg iov (iovs_mapped_ok _ _ Hi)). lia. }
  pose proof (iovs_mapped_ok _ _ Hi) as Hiok. pose proof (iov_total_nonneg iov Hiok) as Ht. pose proof (length_flat iov Hiok) as Hfl. cbn [transfer].
  destruct (Z.leb_spec (done + iov_total iov) done) as [Hle|Hgt].
  { assert (E : iov_total iov = 0) by lia. rewrite E, Z.add_0_r. exists b. split; [done|]. split; [|done].
    destruct (flat iov); [|cbn in Hfl; lia]. cbn [bytes_at fmap list_fmap]. symmetry. apply list_eq. intros i.
    rewrite file_write_lookup by (cbn; lia). rewrite decide_False by (cbn; lia). done. }
  unfold syscall. destruct (Hp (fb_calls b)) as (k & -> & Hk).
  set (n := Z.min (Z.of_nat k) _). assert (Hn : 1 <= n <= iov_total iov) by (subst n; lia).
  rewrite (proj2 (Z.eqb_neq n 0)) by lia. rewrite gather_bytes by done.
  pose proof (advance_total iov n ltac:(lia) Hiok) as Hat.
  set (src := take (Z.to_nat n) (bytes_at mem (flat iov))).
  assert (Hsl : Z.of_nat (length src) = n) by (subst src; unfold bytes_at; rewrite length_take, length_fmap; lia).
  set (b1 := set_io _ (file_write (fb_data b) off src) _ _).
  destruct (IH b1 (advance_iov iov n) (done + n) (off + n)) as (b' & E & Hdata & Hcache & Hsync); [done|apply advance_mapped; [lia|done]|lia|lia| |lia|].
  - cbn [b1 set_io fb_data]. rewrite file_write_length by lia. lia.
  - exists b'. replace (done + iov_total iov) with (done + n + iov_total (advance_iov iov n)) by lia. rewrite E.
    split; [f_equal; f_equal; f_equal; lia|]. split; [|done]. rewrite Hdata. cbn [b1 set_io fb_data].
    rewrite advance_flat by (done || lia). replace (off + n) with (off + Z.of_nat (length src)) by lia.
    rewrite file_write_append.
    + f_equal. subst src. unfold bytes_at. rewrite <- fmap_take, <- fmap_app, take_drop. done.
    + done.
    + unfold bytes_at. rewrite length_fmap, length_drop. lia.
Qed.

Lemma vectored_write fuel mem b bufs off :
  progress -> bm_inv mem -> Forall (buf_mapped mem) bufs -> 0 <= off ->
  off + buf_total bufs <= Z.of_nat (length (fb_data b)) -> (length bufs <= fuel)%nat ->
  exists b', vectored host fuel mem b bufs off false = (Ok tt, mem, b') /\
    fb_data b' = file_write (fb_data b) off (bytes_at mem (bufs_flat bufs)) /\ fb_cache b' = fb_cache b /\ fb_syncs b' = fb_syncs b.
Proof.
  intros Hp. revert b bufs off. induction fuel as [|fuel IH]; intros b bufs off Hm Hb Ho Hfile Hfuel.
  { destruct bufs; [|cbn in Hfuel; lia]. exists b. split; [done|]. split; [|done]. symmetry. apply list_eq. intros i.
    rewrite file_write_lookup by (cbn in *; lia). rewrite decide_False by (cbn; lia). done. }
  destruct bufs as [|b0 bufs0].
  { exists b. split; [done|]. split; [|done]. symmetry. apply list_eq. intros i.
    rewrite file_write_lookup by (cbn in *; lia). rewrite decide_False by (cbn; lia). done. }
  cbn [vectored]. set (bufs := b0 :: bufs0) in *.
  assert (Hpos : (1 <= length bufs)%nat) by (subst bufs; cbn; lia). clearbody bufs. clear b0 bufs0.
  assert (Hdl : (length (drop IOV_MAX bufs) <= fuel)%nat) by (rewrite length_drop; unfold IOV_MAX; lia).
  pose proof (Forall_take _ IOV_MAX _ Hb) as Hc. pose proof (Forall_drop _ IOV_MAX _ Hb) as Hr.
  assert (Hsplit : bufs = take IOV_MAX bufs ++ drop IOV_MAX bufs) by by rewrite take_drop.
  set (chunk := take IOV_MAX bufs) in *. set (rest := drop IOV_MAX bufs) in *. clearbody chunk rest.
  rewrite Hsplit in *. rewrite buf_total_app in *. rewrite bufs_flat_app.
  destruct (build_iov_mapped mem chunk Hm Hc) as (iov & -> & Hi & Hf & Ht).
  pose proof (buf_total_nonneg chunk (bufs_mapped_ok _ _ Hc)) as Hc0. pose proof (buf_total_nonneg rest (bufs_mapped_ok _ _ Hr)) as Hr0.
  pose proof (length_bufs_flat chunk (bufs_mapped_ok _ _ Hc)) as Hcl. pose proof (length_bufs_flat rest (bufs_mapped_ok _ _ Hr)) as Hrl.
  destruct iov as [|v iov0].
  { change (iov_total []) with 0 in Ht. change (flat []) with (@nil Z) in Hf. rewrite <- Hf. rewrite <- Ht in Hfile. apply IH; done. }
  set (iov := v :: iov0) in *. clearbody iov.
  destruct (transfer_write (S (Z.to_nat (iov_total iov))) mem b chunk iov 0 off Hp Hm Hi Ho ltac:(lia) ltac:(lia) ltac:(lia))
    as (b1 & E & Hdata & Hcache & Hsync).
  rewrite Z.add_0_l in E. rewrite E.
  assert (Hbl : Z.of_nat (length (bytes_at mem (bufs_flat chunk))) = buf_total chunk) by (unfold bytes_at; rewrite length_fmap; lia).
  assert (Hbr : Z.of_nat (length (bytes_at mem (bufs_flat rest))) = buf_total rest) by (unfold bytes_at; rewrite length_fmap; lia).
  assert (Hlen : length (fb_data b1) = length (fb_data b)) by (rewrite Hdata, Hf, file_write_length by lia; done).
  destruct (IH b1 rest (off + iov_total iov)) as (b' & E' & Hdata' & Hcache' & Hsync'); [done|done|lia|rewrite Hlen; lia|done|].
  exists b'. split; [done|]. split; [|split; congruence]. rewrite Hdata', Hdata, Hf, Ht, <- Hbl. rewrite file_write_append by lia.
  unfold bytes_at. by rewrite fmap_app.
Qed.

(** ** Requests that succeed *)

Lemma buf_total_rev l : buf_total (rev l) = buf_total l.
Proof. induction l as [|b l IH]; [done|]. cbn [rev]. rewrite buf_total_app, IH, !buf_total_cons. change (buf_total []) with 0. lia. Qed.

Lemma drop_empty_total l : buf_total (drop_empty l) = buf_total l.
Proof. induction l as [|b l IH]; cbn [drop_empty]; [done|]. destruct (Z.eqb_spec (buf_len b) 0); [rewrite IH, buf_total_cons; lia|done]. Qed.

Lemma last_rev {A} (l : list A) : list.last l = head (rev l).
Proof.
  destruct l as [|x l _] using rev_ind; [done|]. by rewrite list.last_snoc, rev_app_distr.
Qed.

Lemma data_writable_total c a : Forall buf_ok (c_writable c) -> chain_status c = Some a -> buf_total (data_writable c) = buf_total (c_writable c) - 1.
Proof.
  intros Hc. unfold chain_status, data_writable. rewrite last_rev. rewrite <- (buf_total_rev (c_writable c)).
  destruct (rev (c_writable c)) as [|l rest] eqn:E; [done|]. cbn [head mbind option_bind].
  assert (Hl : buf_ok l).
  { rewrite list.Forall_forall in Hc. apply Hc. apply elem_of_rev. rewrite E. by left. }
  destruct Hl as (_ & Hl & _). unfold fits in Hl. destruct (Z.eqb_spec (buf_len l) 0); [done|]. intros _.
  rewrite (proj2 (Z.ltb_lt 0 (buf_len l))) by lia. rewrite buf_total_rev, drop_empty_total, !buf_total_cons. cbn. lia.
Qed.

Lemma sum_u32_total bufs : Forall buf_ok bufs -> buf_total bufs < 2 ^ 32 -> sum_u32 bufs = buf_total bufs.
Proof.
  induction 1 as [|b bufs (_ & Hl & _) Hb IH]; [done|]. rewrite buf_total_cons. intros Hlt. unfold fits in Hl.
  pose proof (buf_total_nonneg bufs Hb). unfold sum_u32 in *. cbn [foldr]. rewrite IH by lia. apply wrap_small. unfold fits. lia.
Qed.

Lemma out_loop_total skip bufs : 0 <= skip -> Forall buf_ok bufs -> skip <= buf_total bufs -> buf_total (out_loop skip bufs) = buf_total bufs - skip.
Proof.
  intros Hs Hb. revert skip Hs. induction Hb as [|b bufs (Ha & Hl & He) Hb IH]; intros skip Hs Ht; cbn [out_loop] in *.
  { change (buf_total []) with 0 in *. lia. }
  rewrite buf_total_cons in *. destruct (Z.leb_spec (buf_len b) skip); [rewrite IH by lia; lia|].
  rewrite buf_total_cons. cbn [buf_len]. rewrite IH by (pose proof (buf_total_nonneg _ Hb); lia). lia.
Qed.

Lemma copy_from_total mem bufs want hdr :
  Forall buf_ok bufs -> copy_from mem bufs want = Some hdr -> want <= buf_total bufs \/ want <= 0.
Proof.
  intros Hb. revert want hdr. induction Hb as [|b bufs (_ & Hl & _) Hb IH]; intros want hdr; cbn [copy_from].
  { destruct (Z.ltb_spec 0 want); [done|]. intros _. lia. }
  destruct (Z.leb_spec want 0); [lia|]. rewrite buf_total_cons. unfold fits in Hl. pose proof (buf_total_nonneg _ Hb).
  destruct (Z.eqb_spec (Z.min (buf_len b) want) 0).
  - intros Hc. apply IH in Hc as [|]; lia.
  - destruct (bm_read _ _ _); [|done]. destruct (copy_from mem bufs _) as [rest|] eqn:Er; [|done]. intros _. apply IH in Er as [|]; lia.
Qed.

Lemma in_range_true b sector len :
  disk_ok b -> 0 <= sector -> 0 <= len -> sector * SECTOR + len <= fb_bytes b -> in_range b sector len = true.
Proof.
  intros (_ & Hb & Hmax & Hm) Hs Hl Hr. unfold in_range, capacity, SECTOR in *.
  pose proof (Z.div_mod (fb_bytes b) 512 ltac:(lia)). pose proof (Z.div_mod len 512 ltac:(lia)). pose proof (Z.mod_pos_bound len 512 ltac:(lia)).
  destruct (Z.eqb_spec len 0); [apply Z.leb_le; lia|].
  assert (Hle : sector + (len / 512 + (if 0 <? len mod 512 then 1 else 0)) <= fb_bytes b / 512) by (destruct (Z.ltb_spec 0 (len mod 512)); lia).
  unfold checked_add. rewrite (proj2 (Z.ltb_lt _ _)) by lia. by apply Z.leb_le.
Qed.

Lemma write_status_byte mem a v :
  bm_inv mem -> 0 <= a -> bm_span mem a 1 -> fits 8 v ->
  exists mem', write_status mem (Some a) v = (1, mem') /\ bm_inv mem' /\ forall x, bm_byte mem' x = if decide (x = a) then Some v else bm_byte mem x.
Proof.
  intros Hm Ha Hsp Hv. unfold write_status, bm_write_le.
  destruct (proj2 (bm_write_Ok mem a (le_bytes 1 v) Hm Ha ltac:(done)) Hsp) as [m' E]. rewrite E.
  destruct (bm_write_spec mem a _ m' Hm Ha (le_bytes_fits 1 v) E) as (H1 & H2 & _). exists m'. split; [done|]. split; [done|].
  intros x. rewrite H2, length_le_bytes. destruct (decide (x = a)) as [->|]; [|by rewrite decide_False by lia].
  rewrite decide_True by lia. rewrite Z.sub_diag. change (Some (v mod 256) = Some v). f_equal. by apply Z.mod_small.
Qed.

(** Chains a driver builds: mapped buffers of less than 4 GiB in all. *)
Record good_chain mem c (h : Header) (a : Z) : Prop := {
  gc_parse : parse mem c = Some (h, a);
  gc_readable : Forall (buf_mapped mem) (c_readable c);
  gc_writable : Forall (buf_mapped mem) (c_writable c);
  gc_small : buf_total (c_readable c) < 2 ^ 32 /\ buf_total (c_writable c) < 2 ^ 32;
}.

Lemma good_status mem c h a : bm_inv mem -> good_chain mem c h a -> 0 <= hd_sector h /\ chain_status c = Some a /\ 0 <= a /\ bm_span mem a 1.
Proof.
  intros Hm [Hp Hr Hw _]. destruct (parse_sector mem c h a Hm (bufs_mapped_ok _ _ Hr) Hp) as [Hs Hc].
  destruct (chain_status_covered c a (bufs_mapped_ok _ _ Hw) Hc) as [(b & Hb & Hx) Ha]. split; [done|]. split; [done|]. split; [done|].
  rewrite list.Forall_forall in Hw. destruct (Hw b Hb) as [_ Hsp]. unfold within in Hx.
  eapply bm_span_sub; [apply Hsp; lia|lia|lia].
Qed.

Lemma good_readable mem c h a : good_chain mem c h a -> 16 <= buf_total (c_readable c).
Proof.
  intros [Hpa Hre _ _]. unfold parse in Hpa. destruct (copy_from mem (c_readable c) 16) as [hdr|] eqn:Ec; [|done].
  apply copy_from_total in Ec as [|]; [done|lia|by eapply bufs_mapped_ok].
Qed.

Lemma data_writable_mapped mem c : Forall (buf_mapped mem) (c_writable c) -> Forall (buf_mapped mem) (data_writable c).
Proof.
  intros Hw. rewrite list.Forall_forall in Hw |- *. intros b Hb. unfold data_writable in Hb.
  destruct (rev (c_writable c)) as [|l rest] eqn:E; [by apply not_elem_of_nil in Hb|].
  assert (Hin : forall y, y ∈ l :: rest -> y ∈ c_writable c) by (intros y Hy; apply elem_of_rev; by rewrite E).
  apply elem_of_rev, drop_empty_sub, elem_of_cons in Hb as [->|Hb]; [|apply Hw, Hin; by right].
  destruct (Hw l (Hin l ltac:(by left))) as [(H1 & H2 & H3) Hsp]. unfold fits in H2. destruct (Z.ltb_spec 0 (buf_len l)).
  - split; [unfold buf_ok, fits; cbn; lia|]. cbn. intros Hl. eapply bm_span_sub; [apply Hsp; lia|lia|lia].
  - split; [done|]. done.
Qed.

Lemma out_loop_mapped mem skip bufs : 0 <= skip -> Forall (buf_mapped mem) bufs -> Forall (buf_mapped mem) (out_loop skip bufs).
Proof.
  intros Hs Hb. revert skip Hs. induction Hb as [|b bufs [(Ha & Hl & He) Hsp] _ IH]; intros skip Hs; cbn [out_loop]; [constructor|].
  destruct (Z.leb_spec (buf_len b) skip); [apply IH; lia|]. unfold fits in *. constructor; [|by apply IH].
  unfold buf_mapped, buf_ok, fits, add_w. cbn. rewrite wrap_small by (unfold fits; lia). split; [lia|]. intros _.
  eapply bm_span_sub; [apply Hsp; lia|lia|lia].
Qed.

Lemma process_in mem b c h a serial st :
  progress -> bm_inv mem -> disk_ok b -> good_chain mem c h a -> hd_ty h = VIRTIO_BLK_T_IN ->
  hd_sector h * SECTOR + (buf_total (c_writable c) - 1) <= fb_bytes b ->
  exists mem' b', process host sync mem b c serial st = (buf_total (c_writable c), mem', b', stats_ok st (buf_total (c_writable c) - 1)) /\
    fb_data b' = fb_data b /\
    forall x, bm_byte mem' x = if decide (x = a) then Some VIRTIO_BLK_S_OK else
      upd (bm_byte mem) (bufs_flat (data_writable c)) (file_slice (fb_data b) (hd_sector h * SECTOR) (buf_total (c_writable c) - 1)) x.
Proof.
  intros Hp Hm Hd Hg Hty Hr. destruct (good_status mem c h a Hm Hg) as (Hs & Hst & Ha & Hsp). pose proof Hg as [Hpa Hre Hwr [Hsm1 Hsm2]].
  pose proof (bufs_mapped_ok _ _ Hwr) as Hwok. pose proof (data_writable_total c a Hwok Hst) as Hdt.
  pose proof (buf_total_nonneg _ (data_writable_ok c Hwok)) as Hd0. rewrite Hdt in Hd0.
  assert (Hdl : data_bytes c (hd_ty h) = buf_total (c_writable c) - 1).
  { unfold data_bytes. rewrite Hty. cbn [Z.eqb orb VIRTIO_BLK_T_IN]. rewrite sum_u32_total by done. lia. }
  unfold process. rewrite Hpa, Hty, Z.eqb_refl, <- Hty, Hdl. unfold read_req. rewrite (in_range_true b) by done. cbn [negb].
  pose proof Hd as (Hfit & Hby & Hmax & Hmod). assert (Hsec : 0 <= hd_sector h * SECTOR <= fb_bytes b) by (unfold SECTOR in *; lia).
  rewrite (wrap_small 64) by (unfold fits, SECTOR in *; lia). unfold read_guest, saturating_add. rewrite Hdt.
  rewrite (proj2 (Z.ltb_ge _ _)) by lia.
  destruct (vectored_read (length (data_writable c)) mem b (data_writable c) (hd_sector h * SECTOR) Hp Hm Hfit) as (m1 & b1 & E & Hdata & Hup);
    [by apply data_writable_mapped|lia|rewrite Hdt; lia|done|].
  rewrite E.
  destruct (vectored_only (length (data_writable c)) mem b (data_writable c) (hd_sector h * SECTOR) true (Ok tt) m1 b1 Hm Hfit (data_writable_ok c Hwok))
    as [(Hm1 & Hsp1 & _) _]; [lia|done|exact E|].
  destruct (write_status_byte m1 a VIRTIO_BLK_S_OK Hm1 Ha (proj2 (Hsp1 _ _) Hsp) ltac:(done)) as (m2 & E2 & Hm2 & Hb2).
  rewrite Z.eqb_refl, E2. exists m2, b1. split; [f_equal; f_equal; f_equal; rewrite wrap_small by (unfold fits; lia); lia|].
  split; [done|]. intros x. rewrite Hb2. destruct (decide _); [done|]. by rewrite Hup, Hdt.
Qed.

Lemma process_out mem b c h a serial st :
  progress -> (fb_cache b = Writethrough -> sync (fb_syncs b) = true) -> bm_inv mem -> disk_ok b -> good_chain mem c h a -> hd_ty h = VIRTIO_BLK_T_OUT -> fb_read_only b = false ->
  hd_sector h * SECTOR + (buf_total (c_readable c) - 16) <= fb_bytes b ->
  exists mem' b', process host sync mem b c serial st = (1, mem', b', stats_ok st (buf_total (c_readable c) - 16)) /\
    fb_data b' = file_write (fb_data b) (hd_sector h * SECTOR) (bytes_at mem (bufs_flat (out_readable c))) /\
    bm_inv mem' /\ forall x, bm_byte mem' x = if decide (x = a) then Some VIRTIO_BLK_S_OK else bm_byte mem x.
Proof.
  intros Hp Hsy Hm Hd Hg Hty Hro Hr. destruct (good_status mem c h a Hm Hg) as (Hs & Hst & Ha & Hsp). pose proof Hg as [Hpa Hre Hwr [Hsm1 Hsm2]].
  pose proof (bufs_mapped_ok _ _ Hre) as Hrok.
  pose proof (good_readable mem c h a Hg) as H16.
  pose proof (out_loop_total 16 _ ltac:(lia) Hrok H16) as Hot. fold (out_readable c) in Hot.
  assert (Hdl : data_bytes c (hd_ty h) = buf_total (c_readable c) - 16).
  { unfold data_bytes. rewrite Hty. cbn [Z.eqb orb VIRTIO_BLK_T_IN VIRTIO_BLK_T_OUT VIRTIO_BLK_T_GET_ID Pos.eqb]. rewrite sum_u32_total by done. lia. }
  unfold process. rewrite Hpa, Hdl, Hty. change (VIRTIO_BLK_T_OUT =? VIRTIO_BLK_T_IN) with false. rewrite Z.eqb_refl.
  unfold write_req. rewrite Hro, (in_range_true b) by (done || lia). cbn [negb].
  pose proof Hd as (Hfit & Hby & Hmax & Hmod). assert (Hsec : 0 <= hd_sector h * SECTOR <= fb_bytes b) by (unfold SECTOR in *; lia).
  rewrite (wrap_small 64) by (unfold fits, SECTOR in *; lia). unfold write_guest, check_write, saturating_add. rewrite Hro, Hot.
  rewrite (proj2 (Z.ltb_ge _ _)) by lia.
  destruct (vectored_write (length (out_readable c)) mem b (out_readable c) (hd_sector h * SECTOR) Hp Hm) as (b1 & E & Hdata & Hcache & Hsync);
    [apply out_loop_mapped; [lia|done]|lia|rewrite Hot; lia|done|].
  rewrite E. destruct (write_status_byte mem a VIRTIO_BLK_S_OK Hm Ha Hsp ltac:(done)) as (m2 & E2 & Hm2 & Hb2).
  assert (Haw : exists b2, after_write sync b1 = (Ok tt, b2) /\ fb_data b2 = fb_data b1).
  { unfold after_write, flush. rewrite Hcache, Hsync. case_bool_decide; [rewrite Hsy by done|]; by eexists. }
  destruct Haw as (b2 & -> & Hd2). rewrite E2. exists m2, b2. split; [done|]. split; [congruence|]. done.
Qed.

(** C14: A request stays in its buffers and in the disk: whatever a chain
    holds and whatever the host answers, processing it changes guest memory
    only inside the chain's writable buffers, changes the image only for an OUT
    request on a writable disk and only at the sectors it names below the
    capacity, and never changes the image's size. *)
Theorem blk_confined mem b c serial st used mem' b' st' :
  bm_inv mem -> disk_ok b -> Forall buf_ok (c_readable c) -> Forall buf_ok (c_writable c) -> Forall (fits 8) serial ->
  process host sync mem b c serial st = (used, mem', b', st') ->
  only (covers (c_writable c)) mem mem' /\ disk_only (may_write mem b c) b b'.
Proof. apply process_confined. Qed.

Lemma disk_only_ok P b b' : disk_only P b b' -> disk_ok b -> disk_ok b'.
Proof. intros (H1 & H2 & H3 & H4 & H5 & H6 & H7) (G1 & G2 & G3 & G4). unfold disk_ok. rewrite H1, H5. done. Qed.

Lemma file_slice_written data off src :
  0 <= off -> off + Z.of_nat (length src) <= Z.of_nat (length data) ->
  file_slice (file_write data off src) off (Z.of_nat (length src)) = src.
Proof.
  intros Ho Hl. apply list_eq. intros i. unfold file_slice. rewrite Nat2Z.id. destruct (decide (i < length src)%nat).
  - rewrite lookup_take_lt, lookup_drop, file_write_lookup, decide_True by lia. f_equal. lia.
  - rewrite lookup_take_ge by lia. symmetry. apply lookup_ge_None_2. lia.
Qed.

(** What may happen between two requests: the guest (or another device) changes
    guest memory at will, or the device processes another chain, whatever it
    holds and whatever comes of it, as long as it is not an OUT that may write
    in [P]. *)
Inductive disk_step (serial : list Z) (P : Z -> Prop) : relation (M * FileBackend * BlkStats) :=
| memory_changes mem mem' b st : bm_inv mem' -> disk_step serial P (mem, b, st) (mem', b, st)
| request_processed mem b st c used mem' b' st' :
    Forall buf_ok (c_readable c) -> Forall buf_ok (c_writable c) -> (forall i, P i -> ~ may_write mem b c i) ->
    process host sync mem b c serial st = (used, mem', b', st') -> disk_step serial P (mem, b, st) (mem', b', st').

Lemma disk_step_keeps serial P s s' :
  Forall (fits 8) serial -> disk_step serial P s s' -> bm_inv s.1.1 -> disk_ok s.1.2 ->
  bm_inv s'.1.1 /\ disk_ok s'.1.2 /\ disk_only (fun i => ~ P i) s.1.2 s'.1.2.
Proof.
  intros Hser Hs Hm Hd. destruct Hs as [mem mem' b st Hm'|mem b st c used mem' b' st' Hr Hw HP E]; cbn [fst snd] in *.
  - split; [done|]. split; [done|]. apply disk_only_refl, Hd.
  - destruct (process_confined mem b c serial st used mem' b' st' Hm Hd Hr Hw Hser E) as [Ho Hdo].
    split; [apply Ho|]. split; [by eapply disk_only_ok|]. eapply disk_only_weaken; [|exact Hdo]. intros i Hi HPi. by apply (HP i).
Qed.

Lemma disk_steps_keep serial P s s' :
  Forall (fits 8) serial -> rtc (disk_step serial P) s s' -> bm_inv s.1.1 -> disk_ok s.1.2 ->
  bm_inv s'.1.1 /\ disk_ok s'.1.2 /\ disk_only (fun i => ~ P i) s.1.2 s'.1.2.
Proof.
  intros Hser. induction 1 as [s|s s1 s' H1 _ IH]; intros Hm Hd; [split; [done|]; split; [done|]; apply disk_only_refl, Hd|].
  destruct (disk_step_keeps serial P s s1 Hser H1 Hm Hd) as (Hm1 & Hd1 & Ho1). destruct (IH Hm1 Hd1) as (Hm2 & Hd2 & Ho2).
  split; [done|]. split; [done|]. by eapply disk_only_trans.
Qed.

(** A slice of the file inside [P] survives. *)
Lemma file_slice_kept P b b' off n :
  0 <= off -> disk_only (fun i => ~ P i) b b' -> (forall i, within off n i -> ~ ~ P i) ->
  file_slice (fb_data b') off n = file_slice (fb_data b) off n.
Proof.
  intros Ho (_ & _ & _ & _ & _ & _ & H) HP. apply list_eq. intros i. unfold file_slice.
  destruct (decide (i < Z.to_nat n)%nat); [|by rewrite !lookup_take_ge by lia].
  rewrite !lookup_take_lt, !lookup_drop by lia. apply H, HP. unfold within. lia.
Qed.

(** C13: What is written is what is read.  On a writable disk, over a host whose
    vectored calls each move at least one byte, take an OUT request whose chain
    has a complete header, a status byte and mapped buffers of less than 4 GiB,
    whose sectors are within the capacity and whose write-through sync (if the
    cache mode asks for one) succeeds.  It is completed with status OK.  Then,
    whatever happens to guest memory and whatever other requests are processed
    in between, failed ones included, as long as none is an OUT that may write
    in the same byte range, any later IN request of the same length at the same
    sector, scattered over whatever mapped buffers, is completed with status OK
    and delivers exactly the bytes the OUT request gathered, and changes nothing
    else in memory. *)
Theorem blk_write_then_read mem b cw hw aw serial st :
  progress -> (fb_cache b = Writethrough -> sync (fb_syncs b) = true) -> bm_inv mem -> disk_ok b -> good_chain mem cw hw aw ->
  hd_ty hw = VIRTIO_BLK_T_OUT -> fb_read_only b = false -> Forall (fits 8) serial ->
  let off := hd_sector hw * SECTOR in
  let len := buf_total (c_readable cw) - 16 in
  off + len <= fb_bytes b ->
  exists mem1 b1 st1, process host sync mem b cw serial st = (1, mem1, b1, st1) /\ bm_byte mem1 aw = Some VIRTIO_BLK_S_OK /\
    forall mem2 b2 st2, rtc (disk_step serial (within off len)) (mem1, b1, st1) (mem2, b2, st2) ->
    forall cr hr ar, good_chain mem2 cr hr ar -> hd_ty hr = VIRTIO_BLK_T_IN -> hd_sector hr = hd_sector hw ->
      buf_total (c_writable cr) - 1 = len ->
      exists mem3 b3 st3, process host sync mem2 b2 cr serial st2 = (buf_total (c_writable cr), mem3, b3, st3) /\
        forall x, bm_byte mem3 x = if decide (x = ar) then Some VIRTIO_BLK_S_OK else
          upd (bm_byte mem2) (bufs_flat (data_writable cr)) (bytes_at mem (bufs_flat (out_readable cw))) x.
Proof.
  intros Hp Hsy Hm Hd Hg Hty Hro Hser off len Hr.
  destruct (process_out mem b cw hw aw serial st Hp Hsy Hm Hd Hg Hty Hro Hr) as (m1 & b1 & E & Hdata & Hm1 & Hb1).
  exists m1, b1, (stats_ok st (buf_total (c_readable cw) - 16)). split; [done|]. split; [by rewrite Hb1, decide_True|].
  destruct (process_confined mem b cw serial st _ m1 b1 _ Hm Hd (bufs_mapped_ok _ _ (gc_readable _ _ _ _ Hg))
    (bufs_mapped_ok _ _ (gc_writable _ _ _ _ Hg)) Hser E) as [_ Hdo].
  intros m2 b2 st2 Hsteps cr hr ar Hgr Htyr Hsec Hlen. pose proof (disk_only_ok _ _ _ Hdo Hd) as Hd1. destruct Hdo as (Hbytes & _).
  destruct (disk_steps_keep _ _ _ _ Hser Hsteps Hm1 Hd1) as (Hm2 & Hd2 & Ho2). cbn [fst snd] in *.
  destruct (process_in m2 b2 cr hr ar serial st2 Hp Hm2 Hd2 Hgr Htyr) as (m3 & b3 & E3 & _ & Hx).
  { rewrite Hsec, Hlen. destruct Ho2 as (-> & _). rewrite Hbytes. done. }
  exists m3, b3. eexists. split; [exact E3|]. intros x. rewrite Hx. destruct (decide _); [done|]. f_equal.
  pose proof (good_status mem cw hw aw Hm Hg) as (Hs0 & Hst & _ & _). pose proof Hg as [Hpa Hre Hwr _].
  pose proof (bufs_mapped_ok _ _ Hre) as Hrok. pose proof (good_readable mem cw hw aw Hg) as H16.
  pose proof (out_loop_total 16 _ ltac:(lia) Hrok H16) as Hot. fold (out_readable cw) in Hot.
  pose proof (length_bufs_flat (out_readable cw) (out_loop_ok 16 _ ltac:(lia) Hrok)) as Hfl.
  assert (El : len = Z.of_nat (length (bytes_at mem (bufs_flat (out_readable cw))))).
  { unfold bytes_at. rewrite length_fmap. lia. }
  assert (H0 : 0 <= off) by (unfold off, SECTOR; lia).
  rewrite Hlen, Hsec. fold off. rewrite (file_slice_kept (within off len) b1 b2) by (done || by intros i Hi Hn; apply Hn).
  destruct Hd as (_ & Hby & _). rewrite El, Hdata. apply file_slice_written; [done|]. rewrite <- El. lia.
Qed.

Lemma copy_to_mapped mem bufs src :
  bm_inv mem -> Forall (fits 8) src -> Forall (buf_mapped mem) bufs -> snd (copy_to mem bufs src) = true.
Proof.
  intros Hm Hs Hb. revert mem src Hm Hs Hb. induction bufs as [|b bufs IH]; intros mem src Hm Hs Hb; cbn [copy_to]; [done|].
  apply Forall_cons_iff in Hb as [[(Ha & Hl & _) Hsp] Hb]. destruct src as [|v src]; [done|]. unfold fits in Hl.
  set (s := v :: src) in *. set (n := Z.to_nat _). destruct (Nat.eqb_spec n 0); [by apply IH|].
  assert (Hn : Z.of_nat (length (take n s)) <= buf_len b /\ (0 < length (take n s))%nat).
  { rewrite length_take. subst n. lia. }
  destruct (proj2 (bm_write_Ok mem (buf_addr b) (take n s) Hm Ha ltac:(destruct (take n s); [cbn in Hn; lia|done]))) as [m' E].
  { eapply bm_span_sub; [apply Hsp; lia|lia|lia]. }
  rewrite E. pose proof (write_only mem _ _ m' Hm Ha (Forall_take _ _ _ Hs) E) as Ho.
  apply IH; [apply Ho|by apply Forall_drop|by eapply buf_mapped_only].
Qed.

(** The used length of a GET_ID request is not the number of bytes
    written: with fewer than 21 writable bytes the request succeeds and reports
    21 bytes, more than the driver's buffers hold. *)
Theorem get_id_overreports mem b c h a serial st :
  bm_inv mem -> good_chain mem c h a -> hd_ty h = VIRTIO_BLK_T_GET_ID -> Forall (fits 8) serial -> buf_total (c_writable c) <= 20 ->
  exists used mem' b' st', process host sync mem b c serial st = (used, mem', b', st') /\
    bm_byte mem' a = Some VIRTIO_BLK_S_OK /\ used = 21 /\ buf_total (c_writable c) < used.
Proof.
  intros Hm Hg Hty Hser Hlen. destruct (good_status mem c h a Hm Hg) as (Hs & Hst & Ha & Hsp). pose proof Hg as [Hpa Hre Hwr _].
  pose proof (data_writable_mapped mem c Hwr) as Hdw. unfold process. rewrite Hpa, Hty.
  change (VIRTIO_BLK_T_GET_ID =? VIRTIO_BLK_T_IN) with false. change (VIRTIO_BLK_T_GET_ID =? VIRTIO_BLK_T_OUT) with false.
  change (VIRTIO_BLK_T_GET_ID =? VIRTIO_BLK_T_FLUSH) with false. rewrite Z.eqb_refl. unfold get_id.
  pose proof (copy_to_mapped mem (data_writable c) serial Hm Hser Hdw) as Hok.
  pose proof (copy_to_only mem (data_writable c) serial Hm (bufs_mapped_ok _ _ Hdw) Hser) as (Hm1 & Hsp1 & _).
  destruct (copy_to mem (data_writable c) serial) as [m1 ok]. cbn [fst snd] in *. subst ok.
  destruct (write_status_byte m1 a VIRTIO_BLK_S_OK Hm1 Ha (proj2 (Hsp1 _ _) Hsp) ltac:(done)) as (m2 & -> & _ & Hb2).
  eexists 21, m2, b, _. split; [done|]. split; [by rewrite Hb2, decide_True|]. split; [done|]. lia.
Qed.
End facts.

(** *** A disk of two sectors *)

(** Headers at [base + 0x100] (OUT), [base + 0x200] (IN) and [base + 0x300]
    (GET_ID), all for sector 1, and six bytes of data after the first. *)
Definition blk_header (ty sector : Z) : list Z := le_bytes 4 ty ++ le_bytes 4 0 ++ le_bytes 8 sector.
Definition blk_ram : Memory :=
  foldl (fun m '(off, bs) => match write_bytes m (demo_base + off) bs with Ok m => m | Err _ => m end)
        demo_memory [(0x100, blk_header 1 1 ++ [1; 2; 3; 4; 5; 6]); (0x200, blk_header 0 1); (0x300, blk_header 8 1)].
Definition blk_buf (off len : Z) : Buffer := {| buf_addr := demo_base + off; buf_len := len |}.
Definition blk_out : Chain :=
  {| c_head := 0; c_readable := [blk_buf 0x100 10; blk_buf 0x10a 12]; c_writable := [blk_buf 0x180 1] |}.
Definition blk_in : Chain :=
  {| c_head := 1; c_readable := [blk_buf 0x200 16]; c_writable := [blk_buf 0x400 2; blk_buf 0x410 5] |}.
Definition blk_id : Chain :=
  {| c_head := 2; c_readable := [blk_buf 0x300 16]; c_writable := [blk_buf 0x500 9] |}.
Definition blk_disk : FileBackend := backend_open (replicate 1024 0) false Writethrough Safe.
Definition blk_host (i : nat) : option nat := Some (1 + i mod 4)%nat.
Definition blk_sync (_ : nat) : bool := true.
Definition blk_serial : list Z := replicate 20 65.
Definition blk_stats : BlkStats := {| s_reqs := 0; s_bytes := 0; s_errors := 0 |}.
Definition blk_after_out : Z * Memory * FileBackend * BlkStats := process blk_host blk_sync blk_ram blk_disk blk_out blk_serial blk_stats.
Definition blk_ram1 : Memory := blk_after_out.1.1.2.

Lemma blk_ram_inv : bm_inv blk_ram.
Proof. apply (bool_decide_unpack (wf blk_ram)). vm_compute. exact I. Qed.
Lemma blk_disk_ok : disk_ok blk_disk.
Proof. split; [apply Forall_replicate; done|]. vm_compute. repeat split; discriminate || reflexivity. Qed.
Lemma blk_host_progress : progress blk_host.
Proof. intros i. exists (1 + i mod 4)%nat. split; [done|lia]. Qed.
Lemma blk_serial_fits : Forall (fits 8) blk_serial.
Proof. apply Forall_replicate. done. Qed.

(** A buffer of the demonstration RAM is mapped. *)
Ltac ram_buffer :=
  split; [unfold buf_ok, fits; vm_compute; repeat split; discriminate || reflexivity|];
  intros _; exists 1%nat; eexists; split; [vm_compute; reflexivity|];
  vm_compute; repeat split; discriminate || reflexivity.
Ltac ram_buffers :=
  lazymatch goal with
  | |- Forall _ ?l => let l' := eval hnf in l in
      lazymatch l' with [] => apply Forall_nil | ?x :: ?r => apply (Forall_cons _ x r); [ram_buffer|ram_buffers] end
  end.
Ltac ram_chain := split; [vm_compute; reflexivity|ram_buffers|ram_buffers|vm_compute; split; reflexivity].

Lemma blk_out_good : good_chain blk_ram blk_out {| hd_ty := 1; hd_sector := 1 |} (demo_base + 0x180).
Proof. ram_chain. Qed.
Lemma blk_in_good : good_chain blk_ram1 blk_in {| hd_ty := 0; hd_sector := 1 |} (demo_base + 0x414).
Proof. ram_chain. Qed.
Lemma blk_id_good : good_chain blk_ram blk_id {| hd_ty := 8; hd_sector := 1 |} (demo_base + 0x508).
Proof. ram_chain. Qed.

Lemma blk_confined_witness :
  exists used mem' b' st', process blk_host blk_sync blk_ram blk_disk blk_out blk_serial blk_stats = (used, mem', b', st') /\
    only (covers (c_writable blk_out)) blk_ram mem' /\ disk_only (may_write blk_ram blk_disk blk_out) blk_disk b'.
Proof.
  destruct (process blk_host blk_sync blk_ram blk_disk blk_out blk_serial blk_stats) as [[[u m'] b'] st'] eqn:E.
  exists u, m', b', st'. split; [done|].
  exact (blk_confined blk_host blk_sync blk_ram blk_disk blk_out blk_serial blk_stats u m' b' st' blk_ram_inv blk_disk_ok
    (bufs_mapped_ok _ _ (gc_readable _ _ _ _ blk_out_good)) (bufs_mapped_ok _ _ (gc_writable _ _ _ _ blk_out_good)) blk_serial_fits E).
Defined.

(** The OUT is followed by an identification request and by an IN of the data. *)
Definition blk_after_id : Z * Memory * FileBackend * BlkStats :=
  process blk_host blk_sync blk_ram1 blk_after_out.1.2 blk_id blk_serial blk_after_out.2.
Definition blk_ram2 : Memory := blk_after_id.1.1.2.
Lemma blk_in_still_good : good_chain blk_ram2 blk_in {| hd_ty := 0; hd_sector := 1 |} (demo_base + 0x414).
Proof. ram_chain. Qed.
Lemma blk_after_id_parts :
  process blk_host blk_sync blk_ram1 blk_after_out.1.2 blk_id blk_serial blk_after_out.2 = (blk_after_id.1.1.1, blk_ram2, blk_after_id.1.2, blk_after_id.2).
Proof.
  unfold blk_ram2, blk_after_id. generalize (process blk_host blk_sync blk_ram1 blk_after_out.1.2 blk_id blk_serial blk_after_out.2).
  intros [[[u m] b] st]. reflexivity.
Qed.
Lemma blk_id_buffers : Forall buf_ok (c_readable blk_id) /\ Forall buf_ok (c_writable blk_id).
Proof. split; eapply bufs_mapped_ok; apply blk_id_good. Qed.

Lemma blk_write_then_read_witness :
  exists mem3 b3 st3, process blk_host blk_sync blk_ram2 (blk_after_id.1.2) blk_in blk_serial (blk_after_id.2) = (7, mem3, b3, st3) /\
    bm_byte mem3 (demo_base + 0x401) = Some 2 /\ bm_byte mem3 (demo_base + 0x413) = Some 6.
Proof.
  destruct (blk_write_then_read blk_host blk_sync blk_ram blk_disk blk_out _ _ blk_serial blk_stats blk_host_progress
    (fun _ => eq_refl) blk_ram_inv blk_disk_ok blk_out_good eq_refl eq_refl blk_serial_fits ltac:(vm_compute; discriminate))
    as (m1 & b1 & st1 & E & _ & H).
  assert (Em : m1 = blk_ram1) by (unfold blk_ram1, blk_after_out; rewrite E; reflexivity).
  assert (Eb : b1 = blk_after_out.1.2) by (unfold blk_after_out; rewrite E; reflexivity).
  assert (Es : st1 = blk_after_out.2) by (unfold blk_after_out; rewrite E; reflexivity). subst m1 b1 st1.
  destruct (H blk_ram2 blk_after_id.1.2 blk_after_id.2) with (cr := blk_in) (hr := {| hd_ty := 0; hd_sector := 1 |}) (ar := demo_base + 0x414) as (m3 & b3 & st3 & E3 & Hb).
  - apply rtc_once. apply (request_processed blk_host blk_sync _ _ _ _ _ blk_id blk_after_id.1.1.1).
    + apply blk_id_buffers.
    + apply blk_id_buffers.
    + intros i _ (h & a & Hh & Hty & _). vm_compute in Hh. injection Hh as <- _. discriminate Hty.
    + exact blk_after_id_parts.
  - exact blk_in_still_good.
  - reflexivity.
  - reflexivity.
  - reflexivity.
  - exists m3, b3, st3. split; [exact E3|]. rewrite !Hb. split; vm_compute; reflexivity.
Defined.

Lemma get_id_overreports_witness :
  exists used mem' b' st', process blk_host blk_sync blk_ram blk_disk blk_id blk_serial blk_stats = (used, mem', b', st') /\
    used = 21 /\ buf_total (c_writable blk_id) = 9.
Proof.
  destruct (get_id_overreports blk_host blk_sync blk_ram blk_disk blk_id _ _ blk_serial blk_stats blk_ram_inv blk_id_good eq_refl
    blk_serial_fits ltac:(vm_compute; discriminate)) as (u & m' & b' & st' & E & _ & Hu & _).
  exists u, m', b', st'. split; [exact E|]. split; [exact Hu|reflexivity].
Defined.
