(* ===== verification/Vsock.v ===== *)
(** * virtio-vsock

    Model of [ternvale-devices/src/virtio/vsock/]: the packet header
    ([packet.rs]), one stream with its credit accounting ([conn.rs]), the
    connection table ([muxer.rs]), the worker that moves packets between the
    queues and the table ([worker.rs]) and the CID leases ([cid.rs]).

    A host Unix stream is a script: what each non-blocking [read] and [write]
    answers, in order ([would block] once the script is used up), with the bytes
    written so far.  What [HostSide::connect] and [HostSide::accept] return is an
    argument of the operation that calls them.  Instants are nanoseconds. *)

From S2P Require Import Prelude GuestMemory VirtioQueue QueueDevice VirtioIrq VirtioCore.

(** ** Packets *)

Definition HDR_LEN : nat := 44.
Definition MAX_PAYLOAD : Z := 64 * 1024.
Definition TYPE_STREAM : Z := 1.
Definition OP_REQUEST : Z := 1.
Definition OP_RESPONSE : Z := 2.
Definition OP_RST : Z := 3.
Definition OP_SHUTDOWN : Z := 4.
Definition OP_RW : Z := 5.
Definition OP_CREDIT_UPDATE : Z := 6.
Definition OP_CREDIT_REQUEST : Z := 7.
Definition SHUTDOWN_RCV : Z := 1.
Definition SHUTDOWN_SEND : Z := 2.
Definition SHUTDOWN_BOTH : Z := Z.lor SHUTDOWN_RCV SHUTDOWN_SEND.
Definition HOST_CID : Z := 2.

Record Header := {
  v_src_cid : Z;
  v_dst_cid : Z;
  v_src_port : Z;
  v_dst_port : Z;
  v_len : Z;
  v_kind : Z;
  v_op : Z;
  v_flags : Z;
  v_buf_alloc : Z;
  v_fwd_cnt : Z;
}.

(** Little-endian field of [n] bytes at [o]. *)
Definition field_at (b : list Z) (o n : nat) : Z := of_le (take n (drop o b)).

Definition parse (bytes : list Z) : option Header :=
  if (length bytes <? HDR_LEN)%nat then None
  else
    Some {| v_src_cid := field_at bytes 0 8; v_dst_cid := field_at bytes 8 8; v_src_port := field_at bytes 16 4;
            v_dst_port := field_at bytes 20 4; v_len := field_at bytes 24 4; v_kind := field_at bytes 28 2;
            v_op := field_at bytes 30 2; v_flags := field_at bytes 32 4; v_buf_alloc := field_at bytes 36 4;
            v_fwd_cnt := field_at bytes 40 4 |}.

Definition encode (h : Header) : list Z :=
  le_bytes 8 (v_src_cid h) ++ le_bytes 8 (v_dst_cid h) ++ le_bytes 4 (v_src_port h) ++ le_bytes 4 (v_dst_port h) ++
  le_bytes 4 (v_len h) ++ le_bytes 2 (v_kind h) ++ le_bytes 2 (v_op h) ++ le_bytes 4 (v_flags h) ++
  le_bytes 4 (v_buf_alloc h) ++ le_bytes 4 (v_fwd_cnt h).

(** ** One connection *)

Definition BUF_ALLOC : Z := 256 * 1024.
Definition STAGE_MAX : Z := 64 * 1024.
Definition CREDIT_UPDATE_STEP : Z := BUF_ALLOC / 4.
Definition HANDSHAKE_TIMEOUT : Z := 2 * 10 ^ 9.

(** What one [write] (of at most [n] bytes) or [read] of the stream answers;
    [RData []] is the end of the stream. *)
Inductive WriteEv : Type := WAccept (n : nat) | WBlock | WIntr | WFail.
Inductive ReadEv : Type := RData (bytes : list Z) | RBlock | RIntr | RFail.

Record Stream := {
  s_reads : list ReadEv;
  s_writes : list WriteEv;
  s_out : list Z;
  s_shut : bool;
  s_shut_ok : bool;
}.

Inductive State : Type := Connecting (since : Z) | Established | Closing (since : Z).

#[export] Instance State_eq : EqDecision State.
Proof. solve_decision. Defined.

Record Conn := {
  k_stream : Stream;
  k_state : State;
  k_peer_buf_alloc : Z;
  k_peer_fwd_cnt : Z;
  k_tx_cnt : Z;
  k_rx_cnt : Z;
  k_fwd_cnt : Z;
  k_last_fwd_sent : Z;
  k_to_host : list Z;
  k_to_guest : list Z;
  k_peer_shutdown : Z;
  k_host_write_shut : bool;
  k_host_eof : bool;
  k_shutdown_sent : bool;
  k_credit_requested : bool;
}.

Definition conn_new (stream : Stream) (state : State) : Conn :=
  {| k_stream := stream; k_state := state; k_peer_buf_alloc := 0; k_peer_fwd_cnt := 0; k_tx_cnt := 0; k_rx_cnt := 0;
     k_fwd_cnt := 0; k_last_fwd_sent := 0; k_to_host := []; k_to_guest := []; k_peer_shutdown := 0;
     k_host_write_shut := false; k_host_eof := false; k_shutdown_sent := false; k_credit_requested := false |}.

(** Field updates, grouped as the operations change them. *)
Definition set_peer (buf_alloc fwd_cnt : Z) (c : Conn) : Conn :=
  {| k_stream := k_stream c; k_state := k_state c; k_peer_buf_alloc := buf_alloc; k_peer_fwd_cnt := fwd_cnt;
     k_tx_cnt := k_tx_cnt c; k_rx_cnt := k_rx_cnt c; k_fwd_cnt := k_fwd_cnt c; k_last_fwd_sent := k_last_fwd_sent c;
     k_to_host := k_to_host c; k_to_guest := k_to_guest c; k_peer_shutdown := k_peer_shutdown c;
     k_host_write_shut := k_host_write_shut c; k_host_eof := k_host_eof c; k_shutdown_sent := k_shutdown_sent c;
     k_credit_requested := k_credit_requested c |}.
Definition set_host (stream : Stream) (to_host : list Z) (rx_cnt fwd_cnt : Z) (write_shut : bool) (c : Conn) : Conn :=
  {| k_stream := stream; k_state := k_state c; k_peer_buf_alloc := k_peer_buf_alloc c; k_peer_fwd_cnt := k_peer_fwd_cnt c;
     k_tx_cnt := k_tx_cnt c; k_rx_cnt := rx_cnt; k_fwd_cnt := fwd_cnt; k_last_fwd_sent := k_last_fwd_sent c;
     k_to_host := to_host; k_to_guest := k_to_guest c; k_peer_shutdown := k_peer_shutdown c;
     k_host_write_shut := write_shut; k_host_eof := k_host_eof c; k_shutdown_sent := k_shutdown_sent c;
     k_credit_requested := k_credit_requested c |}.
Definition set_guest (stream : Stream) (to_guest : list Z) (tx_cnt : Z) (eof shutdown_sent : bool) (c : Conn) : Conn :=
  {| k_stream := stream; k_state := k_state c; k_peer_buf_alloc := k_peer_buf_alloc c; k_peer_fwd_cnt := k_peer_fwd_cnt c;
     k_tx_cnt := tx_cnt; k_rx_cnt := k_rx_cnt c; k_fwd_cnt := k_fwd_cnt c; k_last_fwd_sent := k_last_fwd_sent c;
     k_to_host := k_to_host c; k_to_guest := to_guest; k_peer_shutdown := k_peer_shutdown c;
     k_host_write_shut := k_host_write_shut c; k_host_eof := eof; k_shutdown_sent := shutdown_sent;
     k_credit_requested := k_credit_requested c |}.
Definition set_flags (state : State) (last_fwd_sent peer_shutdown : Z) (requested : bool) (c : Conn) : Conn :=
  {| k_stream := k_stream c; k_state := state; k_peer_buf_alloc := k_peer_buf_alloc c; k_peer_fwd_cnt := k_peer_fwd_cnt c;
     k_tx_cnt := k_tx_cnt c; k_rx_cnt := k_rx_cnt c; k_fwd_cnt := k_fwd_cnt c; k_last_fwd_sent := last_fwd_sent;
     k_to_host := k_to_host c; k_to_guest := k_to_guest c; k_peer_shutdown := peer_shutdown;
     k_host_write_shut := k_host_write_shut c; k_host_eof := k_host_eof c; k_shutdown_sent := k_shutdown_sent c;
     k_credit_requested := requested |}.

Definition update_peer (buf_alloc fwd_cnt : Z) (c : Conn) : Conn := set_peer buf_alloc fwd_cnt c.

Definition peer_credit (c : Conn) : Z :=
  let in_flight := wrapping_sub 32 (k_tx_cnt c) (k_peer_fwd_cnt c) in
  Z.max 0 (k_peer_buf_alloc c - in_flight).

(** [accept_payload]: [None] is [false]. *)
Definition accept_payload (data : list Z) (c : Conn) : option Conn :=
  if BUF_ALLOC <? Z.of_nat (length (k_to_host c)) + Z.of_nat (length data) then None
  else Some (set_host (k_stream c) (k_to_host c ++ data) (add_w 32 (k_rx_cnt c) (wrap 32 (Z.of_nat (length data))))
                      (k_fwd_cnt c) (k_host_write_shut c) c).

Definition pending_to_host (c : Conn) : nat := length (k_to_host c).

(** One successful [write] of [n] bytes. *)
Definition forward (n : nat) (evs : list WriteEv) (c : Conn) : Conn :=
  let s := k_stream c in
  set_host {| s_reads := s_reads s; s_writes := evs; s_out := s_out s ++ take n (k_to_host c); s_shut := s_shut s; s_shut_ok := s_shut_ok s |}
           (drop n (k_to_host c)) (k_rx_cnt c) (add_w 32 (k_fwd_cnt c) (wrap 32 (Z.of_nat n))) (k_host_write_shut c) c.

(** The loop of [flush]; [false] is an error. *)
Fixpoint flush_loop (evs : list WriteEv) (written : nat) (c : Conn) : bool * nat * Conn :=
  match k_to_host c with
  | [] => (true, written, forward 0 evs c)
  | _ =>
      match evs with
      | [] => (true, written, forward 0 [] c)
      | WAccept n :: evs' =>
          let n := Nat.min n (length (k_to_host c)) in
          if (n =? 0)%nat then (false, written, forward 0 evs' c)
          else flush_loop evs' (written + n) (forward n evs' c)
      | WBlock :: evs' => (true, written, forward 0 evs' c)
      | WIntr :: evs' => flush_loop evs' written c
      | WFail :: evs' => (false, written, forward 0 evs' c)
      end
  end.

Definition flush (c : Conn) : bool * nat * Conn :=
  match flush_loop (s_writes (k_stream c)) 0 c with
  | (false, written, c) => (false, written, c)
  | (true, written, c) =>
      if negb (Z.land (k_peer_shutdown c) SHUTDOWN_SEND =? 0) && (length (k_to_host c) =? 0)%nat && negb (k_host_write_shut c) then
        let s := k_stream c in
        let s := {| s_reads := s_reads s; s_writes := s_writes s; s_out := s_out s; s_shut := true; s_shut_ok := s_shut_ok s |} in
        (s_shut_ok s, written, set_host s (k_to_host c) (k_rx_cnt c) (k_fwd_cnt c) true c)
      else (true, written, c)
  end.

(** The loop of [fill]: whether it succeeded, whether the stream ended, what is
    left of the script, and what was read into the [room] bytes. *)
Fixpoint fill_loop (evs : list ReadEv) (room : nat) (got : list Z) : bool * bool * list ReadEv * list Z :=
  match room with
  | O => (true, false, evs, got)
  | _ =>
      match evs with
      | [] => (true, false, [], got)
      | RData [] :: evs' => (true, true, evs', got)
      | RData bs :: evs' =>
          if (length bs <=? room)%nat then fill_loop evs' (room - length bs) (got ++ bs)
          else (true, false, RData (drop room bs) :: evs', got ++ take room bs)
      | RBlock :: evs' => (true, false, evs', got)
      | RIntr :: evs' => fill_loop evs' room got
      | RFail :: evs' => (false, false, evs', got)
      end
  end.

Definition fill (c : Conn) : bool * nat * Conn :=
  if bool_decide (k_state c <> Established) || k_host_eof c || negb (Z.land (k_peer_shutdown c) SHUTDOWN_RCV =? 0) then (true, 0%nat, c)
  else
    let staged := Z.of_nat (length (k_to_guest c)) in
    let credit := Z.max 0 (peer_credit c - staged) in
    let room := Z.min credit (Z.max 0 (STAGE_MAX - staged)) in
    let s := k_stream c in
    let '(ok, eof, evs, got) := fill_loop (s_reads s) (Z.to_nat room) [] in
    let s := {| s_reads := evs; s_writes := s_writes s; s_out := s_out s; s_shut := s_shut s; s_shut_ok := s_shut_ok s |} in
    if ok then (true, length got, set_guest s (k_to_guest c ++ got) (k_tx_cnt c) eof (k_shutdown_sent c) c)
    else (false, 0%nat, set_guest s (k_to_guest c) (k_tx_cnt c) (k_host_eof c) (k_shutdown_sent c) c).

Definition request_credit_update (c : Conn) : Conn :=
  set_flags (k_state c) (k_last_fwd_sent c) (k_peer_shutdown c) true c.

Definition credit_update_due (c : Conn) : bool :=
  k_credit_requested c || (CREDIT_UPDATE_STEP <=? wrapping_sub 32 (k_fwd_cnt c) (k_last_fwd_sent c)).

Definition shutdown_due (c : Conn) : bool := k_host_eof c && (length (k_to_guest c) =? 0)%nat && negb (k_shutdown_sent c).

Definition wants_rx (c : Conn) : bool :=
  negb (length (k_to_guest c) =? 0)%nat && (0 <? peer_credit c) || credit_update_due c || shutdown_due c.

(** [next_packet]: op, flags and payload. *)
Definition next_packet (max_payload : nat) (c : Conn) : option (Z * Z * list Z) * Conn :=
  let n := Nat.min (Nat.min (length (k_to_guest c)) max_payload) (Z.to_nat (peer_credit c)) in
  if (0 <? n)%nat then
    (Some (OP_RW, 0, take n (k_to_guest c)),
     set_guest (k_stream c) (drop n (k_to_guest c)) (add_w 32 (k_tx_cnt c) (wrap 32 (Z.of_nat n))) (k_host_eof c) (k_shutdown_sent c) c)
  else if credit_update_due c then (Some (OP_CREDIT_UPDATE, 0, []), c)
  else if shutdown_due c then
    (Some (OP_SHUTDOWN, SHUTDOWN_BOTH, []), set_guest (k_stream c) (k_to_guest c) (k_tx_cnt c) (k_host_eof c) true c)
  else (None, c).

Definition stamp (c : Conn) : Z * Z * Conn :=
  (BUF_ALLOC, k_fwd_cnt c, set_flags (k_state c) (k_fwd_cnt c) (k_peer_shutdown c) false c).

(** ** The connection table *)

Definition EPHEMERAL_BASE : Z := 0x80000000.
Notation Key := (Z * Z)%type.

Record VsockStats := {
  vs_tx_packets : Z; vs_tx_bytes : Z; vs_rx_packets : Z; vs_rx_bytes : Z;
  vs_connections : Z; vs_resets : Z; vs_dropped : Z;
}.

Record Muxer := {
  x_guest_cid : Z;
  x_conns : gmap Key Conn;
  x_control : list Header;
  x_cursor : option Key;
  x_next_port : Z;
  x_stats : VsockStats;
}.

Definition muxer_new (guest_cid : Z) (stats : VsockStats) : Muxer :=
  {| x_guest_cid := guest_cid; x_conns := ∅; x_control := []; x_cursor := None; x_next_port := EPHEMERAL_BASE; x_stats := stats |}.

Definition with_conns (conns : gmap Key Conn) (m : Muxer) : Muxer :=
  {| x_guest_cid := x_guest_cid m; x_conns := conns; x_control := x_control m; x_cursor := x_cursor m;
     x_next_port := x_next_port m; x_stats := x_stats m |}.
Definition push_control (h : Header) (m : Muxer) : Muxer :=
  {| x_guest_cid := x_guest_cid m; x_conns := x_conns m; x_control := x_control m ++ [h]; x_cursor := x_cursor m;
     x_next_port := x_next_port m; x_stats := x_stats m |}.
Definition with_stats (f : VsockStats -> VsockStats) (m : Muxer) : Muxer :=
  {| x_guest_cid := x_guest_cid m; x_conns := x_conns m; x_control := x_control m; x_cursor := x_cursor m;
     x_next_port := x_next_port m; x_stats := f (x_stats m) |}.

Definition count_connection (s : VsockStats) : VsockStats :=
  {| vs_tx_packets := vs_tx_packets s; vs_tx_bytes := vs_tx_bytes s; vs_rx_packets := vs_rx_packets s; vs_rx_bytes := vs_rx_bytes s;
     vs_connections := add_w 64 (vs_connections s) 1; vs_resets := vs_resets s; vs_dropped := vs_dropped s |}.
Definition count_reset (s : VsockStats) : VsockStats :=
  {| vs_tx_packets := vs_tx_packets s; vs_tx_bytes := vs_tx_bytes s; vs_rx_packets := vs_rx_packets s; vs_rx_bytes := vs_rx_bytes s;
     vs_connections := vs_connections s; vs_resets := add_w 64 (vs_resets s) 1; vs_dropped := vs_dropped s |}.
Definition count_dropped (s : VsockStats) : VsockStats :=
  {| vs_tx_packets := vs_tx_packets s; vs_tx_bytes := vs_tx_bytes s; vs_rx_packets := vs_rx_packets s; vs_rx_bytes := vs_rx_bytes s;
     vs_connections := vs_connections s; vs_resets := vs_resets s; vs_dropped := add_w 64 (vs_dropped s) 1 |}.
Definition count_tx (bytes : Z) (s : VsockStats) : VsockStats :=
  {| vs_tx_packets := add_w 64 (vs_tx_packets s) 1; vs_tx_bytes := add_w 64 (vs_tx_bytes s) bytes; vs_rx_packets := vs_rx_packets s;
     vs_rx_bytes := vs_rx_bytes s; vs_connections := vs_connections s; vs_resets := vs_resets s; vs_dropped := vs_dropped s |}.
Definition count_rx (bytes : Z) (s : VsockStats) : VsockStats :=
  {| vs_tx_packets := vs_tx_packets s; vs_tx_bytes := vs_tx_bytes s; vs_rx_packets := add_w 64 (vs_rx_packets s) 1;
     vs_rx_bytes := add_w 64 (vs_rx_bytes s) bytes; vs_connections := vs_connections s; vs_resets := vs_resets s; vs_dropped := vs_dropped s |}.

Definition reset (m : Muxer) : Muxer :=
  {| x_guest_cid := x_guest_cid m; x_conns := ∅; x_control := []; x_cursor := x_cursor m; x_next_port := x_next_port m; x_stats := x_stats m |}.

Definition rst_header (m : Muxer) (src_port dst_port kind : Z) : Header :=
  {| v_src_cid := HOST_CID; v_dst_cid := x_guest_cid m; v_src_port := src_port; v_dst_port := dst_port; v_len := 0; v_kind := kind;
     v_op := OP_RST; v_flags := 0; v_buf_alloc := 0; v_fwd_cnt := 0 |}.

(** [close]: remove the connection and tell the guest. *)
Definition close (key : Key) (m : Muxer) : Muxer :=
  with_stats count_reset (push_control (rst_header m (fst key) (snd key) TYPE_STREAM) (with_conns (delete key (x_conns m)) m)).

Definition reply_rst (to : Header) (m : Muxer) : Muxer :=
  if v_op to =? OP_RST then m
  else with_stats count_reset (push_control (rst_header m (v_dst_port to) (v_src_port to) (v_kind to)) m).

Definition conn_header (m : Muxer) (key : Key) (c : Conn) (op flags len : Z) : Header * Conn :=
  let '(buf_alloc, fwd_cnt, c) := stamp c in
  ({| v_src_cid := HOST_CID; v_dst_cid := x_guest_cid m; v_src_port := fst key; v_dst_port := snd key; v_len := len;
      v_kind := TYPE_STREAM; v_op := op; v_flags := flags; v_buf_alloc := buf_alloc; v_fwd_cnt := fwd_cnt |}, c).

Definition finish_if_shut (key : Key) (m : Muxer) : Muxer :=
  match x_conns m !! key with
  | Some c => if (k_peer_shutdown c =? SHUTDOWN_BOTH) && (pending_to_host c =? 0)%nat then close key m else m
  | None => m
  end.

(** Open [key] over [stream], announced to the guest with [op]. *)
Definition open_conn (key : Key) (c : Conn) (op : Z) (m : Muxer) : Muxer :=
  let '(hdr, c) := conn_header m key c op 0 0 in
  with_stats count_connection (push_control hdr (with_conns (<[key := c]> (x_conns m)) m)).

(** [host] is what [HostSide::connect] answers. *)
Definition guest_connect (key : Key) (hdr : Header) (host : option Stream) (m : Muxer) : Muxer :=
  match x_conns m !! key with
  | Some _ => close key m
  | None =>
      match host with
      | None => reply_rst hdr m
      | Some stream => open_conn key (update_peer (v_buf_alloc hdr) (v_fwd_cnt hdr) (conn_new stream Established)) OP_RESPONSE m
      end
  end.

(** The [match] of [handle_guest] on a known connection: the connection, and
    whether it goes on. *)
Definition guest_op (hdr : Header) (payload : list Z) (c : Conn) : bool * Conn :=
  let op := v_op hdr in
  if op =? OP_RESPONSE then
    match k_state c with
    | Connecting _ => (true, set_flags Established (k_last_fwd_sent c) (k_peer_shutdown c) (k_credit_requested c) c)
    | _ => (false, c)
    end
  else if op =? OP_RW then
    if bool_decide (k_state c <> Established) then (false, c)
    else match accept_payload payload c with
         | None => (false, c)
         | Some c => let '(ok, _, c) := flush c in (ok, c)
         end
  else if op =? OP_CREDIT_UPDATE then (true, c)
  else if op =? OP_CREDIT_REQUEST then (true, request_credit_update c)
  else if op =? OP_SHUTDOWN then
    let c := set_flags (k_state c) (k_last_fwd_sent c) (Z.lor (k_peer_shutdown c) (Z.land (v_flags hdr) SHUTDOWN_BOTH))
                       (k_credit_requested c) c in
    let '(ok, _, c) := flush c in (ok, c)
  else (false, c).

Definition handle_guest (hdr : Header) (payload : list Z) (host : option Stream) (m : Muxer) : Muxer :=
  if negb (v_src_cid hdr =? x_guest_cid m) || negb (v_dst_cid hdr =? HOST_CID) then with_stats count_dropped m
  else if negb (v_kind hdr =? TYPE_STREAM) then reply_rst hdr m
  else
    let key := (v_dst_port hdr, v_src_port hdr) in
    if v_op hdr =? OP_REQUEST then guest_connect key hdr host m
    else if v_op hdr =? OP_RST then with_conns (delete key (x_conns m)) m
    else
      match x_conns m !! key with
      | None => reply_rst hdr m
      | Some c =>
          let '(ok, c) := guest_op hdr payload (update_peer (v_buf_alloc hdr) (v_fwd_cnt hdr) c) in
          let m := with_conns (<[key := c]> (x_conns m)) m in
          if ok then finish_if_shut key m else close key m
      end.

(** [alloc_key]: [None] is a loop that has not ended after [fuel] rounds. *)
Fixpoint alloc_key (fuel : nat) (guest_port : Z) (m : Muxer) : option Key * Muxer :=
  match fuel with
  | O => (None, m)
  | S fuel =>
      let port := x_next_port m in
      let m := {| x_guest_cid := x_guest_cid m; x_conns := x_conns m; x_control := x_control m; x_cursor := x_cursor m;
                  x_next_port := default EPHEMERAL_BASE (checked_add 32 port 1); x_stats := x_stats m |} in
      match x_conns m !! (port, guest_port) with
      | None => (Some (port, guest_port), m)
      | Some _ => alloc_key fuel guest_port m
      end
  end.

(** The accepted host connections; [None] is an [alloc_key] that never ends. *)
Fixpoint accept_all (accepted : list (Z * Stream)) (now : Z) (m : Muxer) : option Muxer :=
  match accepted with
  | [] => Some m
  | (guest_port, stream) :: rest =>
      match alloc_key (S (size (x_conns m))) guest_port m with
      | (None, _) => None
      | (Some key, m) => accept_all rest now (open_conn key (conn_new stream (Connecting now)) OP_REQUEST m)
      end
  end.

Definition key_le (a b : Key) : bool := (fst a <? fst b) || ((fst a =? fst b) && (snd a <=? snd b)).

Fixpoint insert_key (k : Key) (l : list Key) : list Key :=
  match l with
  | [] => [k]
  | x :: l' => if key_le k x then k :: l else x :: insert_key k l'
  end.

(** [BTreeMap::keys]: the keys in order. *)
Definition keys (conns : gmap Key Conn) : list Key := foldr insert_key [] ((map_to_list conns).*1).

Definition duration_since (now since : Z) : Z := Z.max 0 (now - since).

(** One connection of [poll_host]. *)
Definition poll_conn (now : Z) (c : Conn) : bool * Conn :=
  let expired := match k_state c with
                 | Connecting since | Closing since => HANDSHAKE_TIMEOUT <? duration_since now since
                 | Established => false
                 end in
  if expired then (false, c)
  else
    match flush c with
    | (false, _, c) => (false, c)
    | (true, _, c) => let '(ok, _, c) := fill c in (ok, c)
    end.

Definition poll_key (now : Z) (m : Muxer) (key : Key) : Muxer :=
  match x_conns m !! key with
  | None => m
  | Some c =>
      let '(ok, c) := poll_conn now c in
      let m := with_conns (<[key := c]> (x_conns m)) m in
      if ok then finish_if_shut key m else close key m
  end.

Definition poll_host (accepted : list (Z * Stream)) (now : Z) (m : Muxer) : option Muxer :=
  m ← accept_all accepted now m; Some (foldl (poll_key now) m (keys (x_conns m))).

Definition has_rx (m : Muxer) : bool :=
  negb (length (x_control m) =? 0)%nat || existsb (fun kc => wants_rx (snd kc)) (map_to_list (x_conns m)).

(** [partition_point]: the leading elements for which [f] holds. *)
Fixpoint partition_point {A} (f : A -> bool) (l : list A) : nat :=
  match l with [] => 0 | x :: l' => if f x then S (partition_point f l') else 0 end.

Fixpoint rx_loop (order : list Key) (max_payload : nat) (now : Z) (m : Muxer) : option (Header * list Z) * Muxer :=
  match order with
  | [] => (None, m)
  | key :: rest =>
      match x_conns m !! key with
      | None => rx_loop rest max_payload now m
      | Some c =>
          match (if wants_rx c then next_packet max_payload c else (None, c)) with
          | (Some (op, flags, data), c) =>
              let c := if op =? OP_SHUTDOWN then set_flags (Closing now) (k_last_fwd_sent c) (k_peer_shutdown c) (k_credit_requested c) c else c in
              let '(hdr, c) := conn_header m key c op flags (wrap 32 (Z.of_nat (length data))) in
              (Some (hdr, data),
               {| x_guest_cid := x_guest_cid m; x_conns := <[key := c]> (x_conns m); x_control := x_control m; x_cursor := Some key;
                  x_next_port := x_next_port m; x_stats := x_stats m |})
          | (None, c) => rx_loop rest max_payload now (with_conns (<[key := c]> (x_conns m)) m)
          end
      end
  end.

Definition rx_order (m : Muxer) : list Key :=
  let order := keys (x_conns m) in
  match x_cursor m with
  | None => order
  | Some cursor => let split := partition_point (fun k => key_le k cursor) order in drop split order ++ take split order
  end.

Definition next_rx (max_payload : nat) (now : Z) (m : Muxer) : option (Header * list Z) * Muxer :=
  match x_control m with
  | hdr :: rest =>
      (Some (hdr, []),
       {| x_guest_cid := x_guest_cid m; x_conns := x_conns m; x_control := rest; x_cursor := x_cursor m;
          x_next_port := x_next_port m; x_stats := x_stats m |})
  | [] => rx_loop (rx_order m) max_payload now m
  end.

(** ** The worker *)

Definition INT_VRING : Z := 1.
Definition RX_QUEUE : Z := 0.
Definition TX_QUEUE : Z := 1.
Definition EVENT_QUEUE : Z := 2.

Record Bound := { bd_key : Z * Z * Z * Z; bd_queue : SplitQueue }.
Record Worker := { w_muxer : Muxer; w_rx : option Bound; w_tx : option Bound }.

Definition notify_key (n : QueueNotify) : Z * Z * Z * Z := (n_size n, n_desc n, n_avail n, n_used n).

Definition bind_slot (n : QueueNotify) (slot : option Bound) : option Bound :=
  let fresh := {| bd_key := notify_key n;
                  bd_queue := VirtioQueue.new (n_size n) (n_desc n) (n_avail n) (n_used n)
                                (negb (Z.land (n_features n) VIRTIO_F_INDIRECT_DESC =? 0))
                                (negb (Z.land (n_features n) VIRTIO_F_EVENT_IDX =? 0)) |} in
  match slot with
  | Some b => if bool_decide (bd_key b = notify_key n) then slot else Some fresh
  | None => Some fresh
  end.

Definition bind (n : QueueNotify) (w : Worker) : Worker :=
  if n_index n =? RX_QUEUE then {| w_muxer := w_muxer w; w_rx := bind_slot n (w_rx w); w_tx := w_tx w |}
  else if n_index n =? TX_QUEUE then {| w_muxer := w_muxer w; w_rx := w_rx w; w_tx := bind_slot n (w_tx w) |}
  else w.

Section worker.
Context {M : Type} `{!ByteMemory M}.

(** The buffers of a chain, one after the other. *)
Fixpoint read_all (mem : M) (bufs : list Buffer) : option (list Z) :=
  match bufs with
  | [] => Some []
  | b :: bufs' =>
      match bm_read mem (buf_addr b) (Z.to_nat (buf_len b)) with
      | Ok bs => rest ← read_all mem bufs'; Some (bs ++ rest)
      | Err _ => None
      end
  end.

Definition readable_total (c : Chain) : Z :=
  foldl (fun acc b => saturating_add 64 acc (buf_len b)) 0 (c_readable c).

Definition read_tx (mem : M) (c : Chain) : option (Header * list Z) :=
  match c_writable c with
  | _ :: _ => None
  | [] =>
      let total := readable_total c in
      if (total <? Z.of_nat HDR_LEN) || (Z.of_nat HDR_LEN + MAX_PAYLOAD <? total) then None
      else
        bytes ← read_all mem (c_readable c);
        hdr ← parse bytes;
        if negb (v_len hdr =? total - Z.of_nat HDR_LEN) then None else Some (hdr, drop HDR_LEN bytes)
  end.

(** [write_rx]: the used length; the memory keeps what was written before an
    error. *)
Fixpoint write_bufs (mem : M) (bufs : list Buffer) (bytes : list Z) : bool * M :=
  match bufs with
  | [] => (true, mem)
  | b :: bufs' =>
      match bytes with
      | [] => (true, mem)
      | _ =>
          let n := Z.to_nat (Z.min (buf_len b) (Z.of_nat (length bytes))) in
          match bm_write mem (buf_addr b) (take n bytes) with
          | Err _ => (false, mem)
          | Ok mem => write_bufs mem bufs' (drop n bytes)
          end
      end
  end.

Definition write_rx (mem : M) (c : Chain) (hdr : Header) (payload : list Z) : Z * M :=
  let bytes := encode hdr ++ payload in
  match write_bufs mem (c_writable c) bytes with
  | (true, mem) => (wrap 32 (Z.of_nat (length bytes)), mem)
  | (false, mem) => (0, mem)
  end.

(** The chains of one [process_tx], read and completed in order. *)
Fixpoint tx_chains (mem : M) (q : SplitQueue) (cs : list Chain) (m : Muxer) (completed : bool) (packets : list (Header * list Z)) :
    SplitQueue * M * Muxer * bool * list (Header * list Z) * bool :=
  match cs with
  | [] => (q, mem, m, completed, packets, true)
  | c :: cs' =>
      let '(packets, m) :=
        match read_tx mem c with Some p => (packets ++ [p], m) | None => (packets, with_stats count_dropped m) end in
      match add_used q mem (c_head c) 0 with
      | (q, mem, Ret b) => tx_chains mem q cs' m (completed || b) packets
      | (q, mem, _) => (q, mem, m, completed, packets, false)
      end
  end.

Fixpoint handle_all (host : nat -> option Stream) (i : nat) (packets : list (Header * list Z)) (m : Muxer) : Muxer :=
  match packets with
  | [] => m
  | (hdr, payload) :: rest =>
      handle_all host (S i) rest (handle_guest hdr payload (host i) (with_stats (count_tx (Z.of_nat (length payload))) m))
  end.

Definition CHAINS : nat := Z.to_nat (2 ^ 16).

(** [process_tx]; the flag is [false] on a panic. *)
Definition process_tx (host : nat -> option Stream) (w : Worker) (mem : M) (irq : Irq) : Worker * M * Irq * bool :=
  match w_tx w with
  | None => (w, mem, irq, true)
  | Some b =>
      let '(q, cs, _) := chains mem CHAINS (bd_queue b) in
      let '(q, mem, m, completed, packets, fine) := tx_chains mem q cs (w_muxer w) false [] in
      let '(q, needed) := if completed then notification_needed q mem else (q, false) in
      let irq := if needed then raise INT_VRING irq else irq in
      ({| w_muxer := handle_all host 0 packets m; w_rx := w_rx w; w_tx := Some {| bd_key := bd_key b; bd_queue := q |} |}, mem, irq, fine)
  end.

Definition capacity (c : Chain) : Z := foldr (fun b n => buf_len b + n) 0 (c_writable c).

(** The loop of [deliver_rx], at most [fuel] rounds; the last flag is [false]
    on a panic, the one before says that the loop ended within them. *)
Fixpoint rx_rounds (fuel : nat) (now : Z) (mem : M) (q : SplitQueue) (m : Muxer) (completed : bool) :
    M * SplitQueue * Muxer * bool * bool * bool :=
  match fuel with
  | O => (mem, q, m, completed, false, true)
  | S fuel =>
      if negb (has_rx m) then (mem, q, m, completed, true, true)
      else
        match pop mem q with
        | (q, Panic) => (mem, q, m, completed, true, false)
        | (q, Stop) => (mem, q, m, completed, true, true)
        | (q, Ret c) =>
            if negb (length (c_readable c) =? 0)%nat || (capacity c <=? Z.of_nat HDR_LEN) then
              match add_used q mem (c_head c) 0 with
              | (q, mem, Ret b) => rx_rounds fuel now mem q m (completed || b)
              | (q, mem, _) => (mem, q, m, completed, true, false)
              end
            else
              let max_payload := Z.to_nat (Z.min (capacity c - Z.of_nat HDR_LEN) MAX_PAYLOAD) in
              match next_rx max_payload now m with
              | (None, m) =>
                  match add_used q mem (c_head c) 0 with
                  | (q, mem, Ret b) => (mem, q, m, completed || b, true, true)
                  | (q, mem, _) => (mem, q, m, completed, true, false)
                  end
              | (Some (hdr, payload), m) =>
                  let '(used, mem) := write_rx mem c hdr payload in
                  match add_used q mem (c_head c) used with
                  | (q, mem, Ret b) =>
                      let m := if 0 <? used then with_stats (count_rx (Z.of_nat (length payload))) m else with_stats count_dropped m in
                      rx_rounds fuel now mem q m (completed || b)
                  | (q, mem, _) => (mem, q, m, completed, true, false)
                  end
              end
        end
  end.

Definition deliver_rx (fuel : nat) (now : Z) (w : Worker) (mem : M) (irq : Irq) : Worker * M * Irq * bool :=
  match w_rx w with
  | None => (w, mem, irq, true)
  | Some b =>
      let '(mem, q, m, completed, _, fine) := rx_rounds fuel now mem (bd_queue b) (w_muxer w) false in
      let '(q, needed) := if completed then notification_needed q mem else (q, false) in
      let irq := if needed then raise INT_VRING irq else irq in
      ({| w_muxer := m; w_rx := Some {| bd_key := bd_key b; bd_queue := q |}; w_tx := w_tx w |}, mem, irq, fine)
  end.

(** One round of [run]: a notification, a reset, or the poll timer, and what
    the host answers meanwhile. *)
Inductive Kick : Type := KNotify (n : QueueNotify) | KReset | KTimeout.

Definition worker_reset (w : Worker) : Worker := {| w_muxer := reset (w_muxer w); w_rx := None; w_tx := None |}.

Definition round (fuel : nat) (k : Kick) (host : nat -> option Stream) (accepted : list (Z * Stream)) (now : Z)
    (w : Worker) (mem : M) (irq : Irq) : option (Worker * M * Irq * bool) :=
  match k with
  | KReset => Some (worker_reset w, mem, irq, true)
  | _ =>
      let w := match k with KNotify n => bind n w | _ => w end in
      let '(w, mem, irq, fine) := process_tx host w mem irq in
      m ← poll_host accepted now (w_muxer w);
      let '(w, mem, irq, fine') := deliver_rx fuel now {| w_muxer := m; w_rx := w_rx w; w_tx := w_tx w |} mem irq in
      Some (w, mem, irq, fine && fine')
  end.
End worker.

(** ** Guest CIDs *)

Definition FIRST_GUEST_CID : Z := 3.
Definition CID_ANY : Z := 2 ^ 32 - 1.

Inductive CidError : Type := BadCid (cid : Z) | CidInUse (cid : Z) | NoFreeCid.

(** The search of [acquire], from [cid]; [fuel] bounds it. *)
Fixpoint find_free (fuel : nat) (cid : Z) (set : gset Z) : option Z :=
  match fuel with
  | O => None
  | S fuel =>
      if CID_ANY <=? cid then None
      else if bool_decide (cid ∈ set) then find_free fuel (cid + 1) set
      else Some cid
  end.

Definition acquire (requested : option Z) (set : gset Z) : result CidError Z * gset Z :=
  let got :=
    match requested with
    | Some cid =>
        if negb ((FIRST_GUEST_CID <=? cid) && (cid <? CID_ANY)) then Err (BadCid cid)
        else if bool_decide (cid ∈ set) then Err (CidInUse cid)
        else Ok cid
    | None => ok_or (find_free (S (size set)) FIRST_GUEST_CID set) NoFreeCid
    end in
  match got with
  | Ok cid => (Ok cid, {[ cid ]} ∪ set)
  | Err e => (Err e, set)
  end.

Definition release (cid : Z) (set : gset Z) : gset Z := set ∖ {[ cid ]}.

(** ** The header codec *)

Record header_fits (h : Header) : Prop := {
  hf_src : fits 64 (v_src_cid h);
  hf_dst : fits 64 (v_dst_cid h);
  hf_sport : fits 32 (v_src_port h);
  hf_dport : fits 32 (v_dst_port h);
  hf_len : fits 32 (v_len h);
  hf_kind : fits 16 (v_kind h);
  hf_op : fits 16 (v_op h);
  hf_flags : fits 32 (v_flags h);
  hf_alloc : fits 32 (v_buf_alloc h);
  hf_fwd : fits 32 (v_fwd_cnt h);
}.

Lemma length_header h : length (encode h) = HDR_LEN.
Proof. unfold encode. rewrite !length_app, !length_le_bytes. done. Qed.

Lemma header_bytes h : Forall (fits 8) (encode h).
Proof. unfold encode. rewrite !Forall_app. split_and!; apply le_bytes_fits. Qed.

Lemma field_at_here (n : nat) v rest : fits (8 * Z.of_nat n) v -> field_at (le_bytes n v ++ rest) 0 n = v.
Proof.
  intros Hv. unfold field_at. rewrite drop_0, take_app_length' by by rewrite length_le_bytes. by apply of_le_le_bytes_fits.
Qed.

Lemma field_at_next (m k n : nat) w l : (m <= k)%nat -> field_at (le_bytes m w ++ l) k n = field_at l (k - m) n.
Proof.
  intros Hk. unfold field_at. rewrite drop_app_ge by by rewrite length_le_bytes. by rewrite length_le_bytes.
Qed.

Lemma parse_encode h rest : header_fits h -> parse (encode h ++ rest) = Some h.
Proof.
  intros []. unfold parse. rewrite (proj2 (Nat.ltb_ge _ _)) by (rewrite length_app, length_header; lia).
  unfold encode. rewrite <- !app_assoc. destruct h; cbn [v_src_cid v_dst_cid v_src_port v_dst_port v_len v_kind v_op v_flags v_buf_alloc v_fwd_cnt] in *.
  f_equal. f_equal; (repeat rewrite field_at_next by lia); (by apply field_at_here).
Qed.

(** ** One connection: invariant *)

Definition read_ok (e : ReadEv) : Prop := match e with RData bs => Forall (fits 8) bs | _ => True end.

Record conn_ok (c : Conn) : Prop := {
  ck_to_host : Z.of_nat (length (k_to_host c)) <= BUF_ALLOC;
  ck_to_guest : Z.of_nat (length (k_to_guest c)) <= STAGE_MAX;
  ck_window : wrapping_sub 32 (k_rx_cnt c) (k_fwd_cnt c) = Z.of_nat (length (k_to_host c));
  ck_counts : fits 32 (k_tx_cnt c) /\ fits 32 (k_rx_cnt c) /\ fits 32 (k_fwd_cnt c) /\ fits 32 (k_last_fwd_sent c);
  ck_peer : fits 32 (k_peer_buf_alloc c) /\ fits 32 (k_peer_fwd_cnt c);
  ck_shutdown : fits 2 (k_peer_shutdown c);
  ck_bytes : Forall (fits 8) (k_to_host c) /\ Forall (fits 8) (k_to_guest c);
  ck_script : Forall read_ok (s_reads (k_stream c));
  ck_sent : k_shutdown_sent c = true -> k_host_eof c = true /\ k_to_guest c = [] /\ exists since, k_state c = Closing since;
  ck_closing : forall since, k_state c = Closing since -> k_shutdown_sent c = true;
  ck_connecting : forall since, k_state c = Connecting since -> k_to_host c = [] /\ k_to_guest c = [] /\ k_host_eof c = false;
}.

Definition script_ok (s : Stream) : Prop := Forall read_ok (s_reads s).

Lemma conn_new_ok s st : script_ok s -> (forall since, st <> Closing since) -> conn_ok (conn_new s st).
Proof.
  intros Hs Hst. split; cbn; try done; try (by unfold BUF_ALLOC, STAGE_MAX; lia).
  intros since E. by destruct (Hst since).
Qed.

Lemma update_peer_ok a f c : fits 32 a -> fits 32 f -> conn_ok c -> conn_ok (update_peer a f c).
Proof. intros Ha Hf []. by split. Qed.

Lemma window_add a b n :
  fits 32 a -> fits 32 b -> wrapping_sub 32 a b + n < 2 ^ 32 -> 0 <= n ->
  wrapping_sub 32 (add_w 32 a (wrap 32 n)) b = wrapping_sub 32 a b + n.
Proof.
  intros Ha Hb Hn H0. unfold wrapping_sub, add_w, wrap, fits in *. change (2 ^ 32) with 4294967296 in *.
  Z.div_mod_to_equations. lia.
Qed.

Lemma window_sub a b n :
  fits 32 a -> fits 32 b -> 0 <= n <= wrapping_sub 32 a b ->
  wrapping_sub 32 a (add_w 32 b (wrap 32 n)) = wrapping_sub 32 a b - n.
Proof.
  intros Ha Hb Hn. unfold wrapping_sub, add_w, wrap, fits in *. change (2 ^ 32) with 4294967296 in *.
  Z.div_mod_to_equations. lia.
Qed.

Lemma accept_payload_ok data c c' :
  Forall (fits 8) data -> k_state c = Established -> conn_ok c -> accept_payload data c = Some c' ->
  conn_ok c' /\ k_to_host c' = k_to_host c ++ data /\ k_stream c' = k_stream c /\ k_to_guest c' = k_to_guest c /\
  k_state c' = Established.
Proof.
  intros Hd Hst [H1 H2 H3 (H4 & H5 & H6 & H7) H8 H9 (Hb1 & Hb2) H10 H11 H12 H13]. unfold accept_payload, BUF_ALLOC in *.
  destruct (Z.ltb_spec (256 * 1024) (Z.of_nat (length (k_to_host c)) + Z.of_nat (length data))); [done|].
  intros [= <-]. split; [|done]. split; cbn; try done; unfold BUF_ALLOC in *.
  - rewrite length_app. lia.
  - rewrite window_add by (done || lia). rewrite length_app. lia.
  - split_and!; try done. by apply wrap_fits.
  - split; [|done]. by apply Forall_app.
  - intros since E. congruence.
Qed.

Lemma forward_forward n1 e1 n2 e2 c :
  (n1 <= length (k_to_host c))%nat -> forward n2 e2 (forward n1 e1 c) = forward (n1 + n2) e2 c.
Proof.
  intros Hn. unfold forward, set_host. cbn. f_equal.
  - f_equal. rewrite <- app_assoc. f_equal.
    rewrite <- (take_drop n1 (k_to_host c)) at 3. rewrite take_app, length_take, Nat.min_l by done.
    f_equal; [symmetry; apply take_ge; rewrite length_take; lia|]. f_equal. lia.
  - unfold add_w, wrap. change (2 ^ 32) with 4294967296. rewrite Nat2Z.inj_add. Z.div_mod_to_equations. lia.
  - apply drop_drop.
Qed.

Lemma flush_loop_forward evs w c :
  exists ok w' n evs', flush_loop evs w c = (ok, w', forward n evs' c) /\ (n <= length (k_to_host c))%nat.
Proof.
  revert w c. induction evs as [|e evs IH]; intros w c; cbn [flush_loop].
  - destruct (k_to_host c) eqn:E; do 4 eexists; (split; [done|lia]).
  - destruct (k_to_host c) as [|b l] eqn:E; [do 4 eexists; split; [done|cbn; lia]|]. rewrite <- E.
    destruct e as [n| | |]; try (do 4 eexists; split; [done|lia]).
    + destruct (Nat.eqb_spec (Nat.min n (length (k_to_host c))) 0); [do 4 eexists; split; [done|lia]|].
      set (n1 := Nat.min n (length (k_to_host c))) in *. assert (Hn1 : (n1 <= length (k_to_host c))%nat) by lia. clearbody n1.
      destruct (IH (w + n1)%nat (forward n1 evs c)) as (ok & w' & n2 & e2 & -> & Hn2). cbn in Hn2. rewrite length_drop in Hn2.
      exists ok, w', (n1 + n2)%nat, e2. rewrite forward_forward by done. split; [done|lia].
    + apply IH.
Qed.

Lemma forward_ok n evs c : (n <= length (k_to_host c))%nat -> conn_ok c -> conn_ok (forward n evs c).
Proof.
  intros Hn [H1 H2 H3 (H4 & H5 & H6 & H7) H8 H9 (Hb1 & Hb2) H10 H11 H12 H13]. split; cbn; try done.
  - rewrite length_drop. lia.
  - rewrite window_sub by (done || lia). rewrite length_drop. lia.
  - split_and!; try done. by apply wrap_fits.
  - split; [by apply Forall_drop|done].
  - intros since E. destruct (H13 since E) as (-> & ? & ?). by rewrite drop_nil.
Qed.

(** The host side shut for writing. *)
Definition shut_host (c : Conn) : Conn :=
  let s := k_stream c in
  set_host {| s_reads := s_reads s; s_writes := s_writes s; s_out := s_out s; s_shut := true; s_shut_ok := s_shut_ok s |}
           (k_to_host c) (k_rx_cnt c) (k_fwd_cnt c) true c.

Lemma shut_host_ok c : conn_ok c -> conn_ok (shut_host c).
Proof. intros []. by split. Qed.

(** [flush] writes a prefix of what is queued, and may then shut the stream. *)
Lemma flush_spec c :
  exists ok w n evs c', flush c = (ok, w, c') /\ (n <= length (k_to_host c))%nat /\
    (c' = forward n evs c \/ c' = shut_host (forward n evs c)).
Proof.
  unfold flush. destruct (flush_loop_forward (s_writes (k_stream c)) 0 c) as (ok & w & n & evs & -> & Hn).
  destruct ok; [|do 5 eexists; split; [done|]; split; [exact Hn|]; by left].
  destruct (_ && _ && _); do 5 eexists; (split; [done|]; split; [exact Hn|]); [by right|by left].
Qed.

Lemma flush_ok c ok w c' : conn_ok c -> flush c = (ok, w, c') -> conn_ok c'.
Proof.
  intros Hc E. destruct (flush_spec c) as (ok0 & w0 & n & evs & c0 & E0 & Hn & Hc0). rewrite E0 in E. injection E as <- <- <-.
  destruct Hc0 as [-> | ->]; [by apply forward_ok|]. by apply shut_host_ok, forward_ok.
Qed.

(** The bytes a read script still has to give. *)
Fixpoint stream_data (evs : list ReadEv) : list Z :=
  match evs with [] => [] | RData bs :: evs' => bs ++ stream_data evs' | _ :: evs' => stream_data evs' end.

Ltac fill_stop :=
  do 3 eexists; exists []; rewrite app_nil_r; (split; [reflexivity|]); (split; [cbn; lia|]); split; [reflexivity|];
  let H := fresh in intros H; (split; [done|]); first [done | by apply Forall_cons_iff in H as [_ H]].

Lemma fill_loop_spec evs room got :
  exists ok eof evs' d, fill_loop evs room got = (ok, eof, evs', got ++ d) /\ (length d <= room)%nat /\
    stream_data evs = d ++ stream_data evs' /\
    (Forall read_ok evs ->
     Forall (fits 8) d /\ Forall read_ok evs').
Proof.
  revert room got. induction evs as [|e evs IH]; intros room got.
  { destruct room; cbn; fill_stop. }
  destruct room as [|room].
  { fill_stop. }
  destruct e as [bs| | |]; cbn [fill_loop].
  - destruct bs as [|b bs].
    { fill_stop. }
    set (d := b :: bs) in *. clearbody d. clear b bs. destruct (Nat.leb_spec (length d) (S room)).
    + destruct (IH (S room - length d)%nat (got ++ d)) as (ok & eof & evs' & d' & -> & Hl & Hs & Hf).
      exists ok, eof, evs', (d ++ d'). rewrite <- app_assoc. split; [done|]. rewrite length_app. split; [lia|]. cbn. rewrite Hs, <- app_assoc.
      split; [done|]. intros [Hd He]%Forall_cons_iff. destruct (Hf He). split; [by apply Forall_app|done].
    + do 4 eexists. split; [done|]. rewrite length_take. split; [lia|]. cbn [stream_data]. rewrite app_assoc, take_drop. split; [done|].
      intros [Hd He]%Forall_cons_iff. split; [by apply Forall_take|]. constructor; [by apply Forall_drop|done].
  - fill_stop.
  - destruct (IH (S room) got) as (ok & eof & evs' & d' & -> & Hl & Hs & Hf). exists ok, eof, evs', d'.
    split; [done|]. split; [done|]. split; [done|]. intros [_ He]%Forall_cons_iff. by apply Hf.
  - fill_stop.
Qed.

Lemma conn_fill_spec c :
  conn_ok c -> exists ok w c' d, fill c = (ok, w, c') /\ conn_ok c' /\ k_to_host c' = k_to_host c /\ s_out (k_stream c') = s_out (k_stream c) /\
    k_state c' = k_state c /\
    (ok = true -> k_to_guest c' = k_to_guest c ++ d /\ stream_data (s_reads (k_stream c)) = d ++ stream_data (s_reads (k_stream c'))).
Proof.
  intros Hc. unfold fill. destruct (_ || _ || _) eqn:Eg.
  { exists true, 0%nat, c, []. rewrite app_nil_r. by split_and!. }
  apply orb_false_iff in Eg as [[Eg Eeof]%orb_false_iff _]. apply bool_decide_eq_false, dec_stable in Eg.
  pose proof Hc as [H1 H2 H3 H4 H5 H6 (Hb1 & Hb2) H7 H8 H9 H10].
  set (room := Z.min _ _). assert (Hroom : 0 <= room /\ Z.of_nat (length (k_to_guest c)) + room <= STAGE_MAX) by (unfold STAGE_MAX in *; lia).
  destruct (fill_loop_spec (s_reads (k_stream c)) (Z.to_nat room) []) as (ok & eof & evs & d & -> & Hl & Hs & Hf).
  destruct (Hf H7) as [Hd He]. cbn [app]. destruct ok.
  - do 3 eexists. exists d. split; [done|]. split; [|done]. split; cbn; try done.
    + rewrite length_app. lia.
    + split; [done|]. by apply Forall_app.
    + intros Hsent. destruct (H8 Hsent) as (_ & _ & since & E). congruence.
    + intros since E. congruence.
  - do 3 eexists. exists d. split; [done|]. split; [|done]. split; cbn; try done.
Qed.

Lemma stamp_ok c : conn_ok c -> conn_ok (stamp c).2.
Proof. intros [H1 H2 H3 (H4 & H5 & H6 & H7) H8 H9 H10 H11 H12 H13]. by split. Qed.

Lemma request_ok c : conn_ok c -> conn_ok (request_credit_update c).
Proof. intros []. by split. Qed.

Lemma peer_credit_range c : conn_ok c -> 0 <= peer_credit c < 2 ^ 32.
Proof.
  intros [_ _ _ (? & _) (Ha & ?) _ _ _ _ _ _]. unfold peer_credit, fits in *.
  pose proof (Z.mod_pos_bound (k_tx_cnt c - k_peer_fwd_cnt c) (2 ^ 32) ltac:(lia)). unfold wrapping_sub, wrap. lia.
Qed.

(** Bytes sent and not yet consumed by the guest. *)
Definition in_flight (c : Conn) : Z := wrapping_sub 32 (k_tx_cnt c) (k_peer_fwd_cnt c).

(** What [next_packet] hands out: staged bytes within the guest's window, or a
    credit update, or one SHUTDOWN after the stream ended. *)
Lemma next_packet_spec max c :
  conn_ok c ->
  match next_packet max c with
  | (None, c') => c' = c /\ credit_update_due c = false /\ shutdown_due c = false /\
      (k_to_guest c = [] \/ max = 0%nat \/ peer_credit c = 0)
  | (Some (op, flags, data), c') =>
      (op = OP_RW /\ flags = 0 /\ data <> [] /\ k_to_guest c = data ++ k_to_guest c' /\ (length data <= max)%nat /\
       in_flight c' = in_flight c + Z.of_nat (length data) /\ in_flight c' <= k_peer_buf_alloc c' /\
       c' = set_guest (k_stream c) (k_to_guest c') (k_tx_cnt c') (k_host_eof c) (k_shutdown_sent c) c /\ conn_ok c') \/
      (op = OP_CREDIT_UPDATE /\ flags = 0 /\ data = [] /\ c' = c /\ credit_update_due c = true) \/
      (op = OP_SHUTDOWN /\ flags = SHUTDOWN_BOTH /\ data = [] /\ shutdown_due c = true /\ credit_update_due c = false /\
       c' = set_guest (k_stream c) (k_to_guest c) (k_tx_cnt c) (k_host_eof c) true c)
  end.
Proof.
  intros Hc. unfold next_packet. pose proof (peer_credit_range c Hc) as Hpc.
  set (n := Nat.min (Nat.min (length (k_to_guest c)) max) (Z.to_nat (peer_credit c))). destruct (Nat.ltb_spec 0 n) as [Hn|Hn].
  - left. pose proof Hc as [H1 H2 H3 (H4 & H5 & H6 & H7) (Ha & Hf) H9 (Hb1 & Hb2) H10 H11 H12 H13].
    assert (Hlen : length (take n (k_to_guest c)) = n) by (rewrite length_take; lia).
    assert (Hpc' : 0 < peer_credit c -> in_flight c + peer_credit c = k_peer_buf_alloc c) by (unfold peer_credit, in_flight; lia).
    assert (Hfl : in_flight c + Z.of_nat n <= k_peer_buf_alloc c) by lia.
    assert (Hsum : wrapping_sub 32 (add_w 32 (k_tx_cnt c) (wrap 32 (Z.of_nat n))) (k_peer_fwd_cnt c) = in_flight c + Z.of_nat n).
    { apply window_add; [done|done| |lia]. unfold in_flight, fits in *. lia. }
    split; [done|]. split; [done|]. split; [intros E; apply (f_equal length) in E; rewrite Hlen in E; cbn in E; lia|].
    cbn [set_guest k_to_guest k_tx_cnt k_peer_buf_alloc]. split; [by rewrite take_drop|]. rewrite Hlen. split; [lia|].
    split; [exact Hsum|]. split; [unfold in_flight; cbn; rewrite Hsum; done|]. split; [done|].
    split; cbn; try done.
    + rewrite length_drop. lia.
    + split_and!; try done. by apply wrap_fits.
    + split; [done|by apply Forall_drop].
    + intros Hs. destruct (H11 Hs) as (? & E & ?). subst n. rewrite E in Hn. cbn in Hn. lia.
    + intros since E. destruct (H13 since E) as (? & E' & ?). subst n. rewrite E' in Hn. cbn in Hn. lia.
  - destruct (credit_update_due c) eqn:Ec; [right; left; by split_and!|].
    destruct (shutdown_due c) eqn:Es; [right; right; by split_and!|]. split_and!; try done.
    assert (Hn0 : n = 0%nat) by lia. subst n. destruct (k_to_guest c); [by left|]. right. cbn [length] in Hn0. destruct max; [by left|]. right. lia.
Qed.

(** What the guest sent on a connection (written or queued), and what it has
    still to receive (staged or in the stream). *)
Definition outgoing (c : Conn) : list Z := s_out (k_stream c) ++ k_to_host c.
Definition incoming (c : Conn) : list Z := k_to_guest c ++ stream_data (s_reads (k_stream c)).

Lemma flush_keeps c ok w c' :
  flush c = (ok, w, c') -> outgoing c' = outgoing c /\ incoming c' = incoming c /\ k_state c' = k_state c /\
  k_peer_buf_alloc c' = k_peer_buf_alloc c /\ in_flight c' = in_flight c.
Proof.
  intros E. destruct (flush_spec c) as (ok0 & w0 & n & evs & c0 & E0 & Hn & Hc0). rewrite E0 in E. injection E as <- <- <-.
  unfold outgoing, incoming, in_flight. destruct Hc0 as [-> | ->]; cbn; (split; [|done]); by rewrite <- app_assoc, take_drop.
Qed.

Definition accepted (hdr : Header) (payload : list Z) : list Z := if v_op hdr =? OP_RW then payload else [].

Lemma fits_lor_both a b : fits 2 a -> fits 2 (Z.lor a (Z.land b SHUTDOWN_BOTH)).
Proof. intros Ha. apply lor_fits; [done|done|]. change SHUTDOWN_BOTH with (Z.ones 2). rewrite Z.land_ones by done. by apply wrap_fits. Qed.

Lemma guest_op_spec hdr payload c ok c' :
  conn_ok c -> Forall (fits 8) payload -> guest_op hdr payload c = (ok, c') ->
  conn_ok c' /\ (ok = true -> outgoing c' = outgoing c ++ accepted hdr payload /\ incoming c' = incoming c).
Proof.
  intros Hc Hp. unfold guest_op, accepted. destruct (Z.eqb_spec (v_op hdr) OP_RESPONSE) as [->|].
  { destruct (k_state c) eqn:Es; intros [= <- <-]; (split; [|by cbn; rewrite ?app_nil_r]); [|done..].
    destruct Hc as [H1 H2 H3 H4 H5 H6 H7 H8 H9 H10 H11]. split; cbn; try done. intros Hs. destruct (H9 Hs) as (_ & _ & t & E). congruence. }
  destruct (v_op hdr =? OP_RW).
  { case_bool_decide as Est; [by intros [= <- <-]|].
    destruct (accept_payload payload c) as [c1|] eqn:Ea; [|by intros [= <- <-]].
    destruct (accept_payload_ok payload c c1 Hp Est Hc Ea) as (Hc1 & Eh & Es & Eg & _).
    destruct (flush c1) as [[ok1 w] c2] eqn:Ef. intros [= <- <-]. split; [by eapply flush_ok|]. intros _.
    destruct (flush_keeps _ _ _ _ Ef) as (-> & -> & _). unfold outgoing, incoming. by rewrite Eh, Es, Eg, app_assoc. }
  rewrite app_nil_r. destruct (_ =? OP_CREDIT_UPDATE); [by intros [= <- <-]|].
  destruct (_ =? OP_CREDIT_REQUEST); [intros [= <- <-]; split; [by apply request_ok|done]|].
  destruct (_ =? OP_SHUTDOWN); [|by intros [= <- <-]].
  set (c1 := set_flags _ _ _ _ c). assert (Hc1 : conn_ok c1).
  { destruct Hc as [H1 H2 H3 H4 H5 H6 H7 H8 H9 H10 H11]. split; cbn; try done. by apply fits_lor_both. }
  destruct (flush c1) as [[ok1 w] c2] eqn:Ef. intros [= <- <-]. split; [by eapply flush_ok|]. intros _.
  by destruct (flush_keeps _ _ _ _ Ef) as (-> & -> & _).
Qed.

Lemma poll_conn_spec now c ok c' :
  conn_ok c -> poll_conn now c = (ok, c') -> conn_ok c' /\ (ok = true -> outgoing c' = outgoing c /\ incoming c' = incoming c).
Proof.
  intros Hc. unfold poll_conn. set (expired := match k_state c with Connecting _ | Closing _ => _ | Established => _ end).
  destruct expired; [by intros [= <- <-]|]. destruct (flush c) as [[okf w] c1] eqn:Ef.
  pose proof (flush_ok _ _ _ _ Hc Ef) as Hc1. destruct (flush_keeps _ _ _ _ Ef) as (Eo & Ei & _).
  destruct okf; [|by intros [= <- <-]].
  destruct (conn_fill_spec c1 Hc1) as (okl & w2 & c2 & d & El & Hc2 & Eh & Eout & Est & Hd). rewrite El. intros [= <- <-].
  split; [done|]. intros Hok. destruct (Hd Hok) as [Eg Es]. rewrite <- Eo, <- Ei. unfold outgoing, incoming.
  rewrite Eh, Eout, Eg, Es, app_assoc. done.
Qed.

(** ** The connection table: invariant *)

(** A packet for the guest [cid]. *)
Record to_guest (cid : Z) (h : Header) : Prop := {
  tg_fits : header_fits h;
  tg_src : v_src_cid h = HOST_CID;
  tg_dst : v_dst_cid h = cid;
}.

Definition key_ok (k : Key) : Prop := fits 32 (fst k) /\ fits 32 (snd k).

Record mux_ok (m : Muxer) : Prop := {
  mk_cid : FIRST_GUEST_CID <= x_guest_cid m < CID_ANY;
  mk_conns : forall k c, x_conns m !! k = Some c -> conn_ok c /\ key_ok k;
  mk_control : Forall (fun h => to_guest (x_guest_cid m) h /\ v_len h = 0) (x_control m);
  mk_port : EPHEMERAL_BASE <= x_next_port m < 2 ^ 32;
}.

Lemma elem_insert_key k x l : x ∈ insert_key k l <-> x = k \/ x ∈ l.
Proof.
  induction l as [|y l IH]; cbn [insert_key]; [by rewrite list_elem_of_singleton, elem_of_nil; naive_solver|].
  destruct (key_le k y); rewrite !elem_of_cons, ?IH; naive_solver.
Qed.

Lemma elem_keys conns k : k ∈ keys conns <-> is_Some (conns !! k).
Proof.
  unfold keys. trans (k ∈ (map_to_list conns).*1).
  - induction ((map_to_list conns).*1) as [|x l IH]; [done|]. cbn [foldr]. by rewrite elem_insert_key, elem_of_cons, IH.
  - rewrite list_elem_of_fmap. split.
    + intros ([k' c] & -> & Hc). apply elem_of_map_to_list in Hc. by eexists.
    + intros [c Hc]. exists (k, c). split; [done|]. by apply elem_of_map_to_list.
Qed.

Lemma elem_rx_order m k : k ∈ rx_order m <-> is_Some (x_conns m !! k).
Proof.
  unfold rx_order. destruct (x_cursor m) as [cur|]; [|apply elem_keys]. rewrite <- elem_keys.
  set (n := partition_point _ _). trans (k ∈ take n (keys (x_conns m)) ++ drop n (keys (x_conns m))); [|by rewrite take_drop].
  rewrite !elem_of_app. tauto.
Qed.

Lemma with_conns_same k c m : x_conns m !! k = Some c -> with_conns (<[k := c]> (x_conns m)) m = m.
Proof. intros Hk. destruct m. unfold with_conns. cbn in *. by rewrite insert_id. Qed.

Lemma with_stats_ok f m : mux_ok m -> mux_ok (with_stats f m).
Proof. intros []. by split. Qed.

Lemma delete_ok k m : mux_ok m -> mux_ok (with_conns (delete k (x_conns m)) m).
Proof. intros []. split; try done. cbn. intros k' c [_ H]%lookup_delete_Some. eauto. Qed.

Lemma insert_ok k c m : conn_ok c -> key_ok k -> mux_ok m -> mux_ok (with_conns (<[k := c]> (x_conns m)) m).
Proof.
  intros Hc Hk []. split; try done. cbn. intros k' c' [[<- <-]|[_ H]]%lookup_insert_Some; eauto.
Qed.

Lemma push_control_ok h m : to_guest (x_guest_cid m) h -> v_len h = 0 -> mux_ok m -> mux_ok (push_control h m).
Proof. intros Hh Hl []. split; try done. cbn. apply Forall_app. split; [done|]. constructor; [done|constructor]. Qed.

Lemma cid_fits m : mux_ok m -> fits 64 (x_guest_cid m).
Proof. intros [H _ _ _]. unfold fits, FIRST_GUEST_CID, CID_ANY in *. lia. Qed.

Lemma rst_ok m a b kind : mux_ok m -> fits 32 a -> fits 32 b -> fits 16 kind -> to_guest (x_guest_cid m) (rst_header m a b kind).
Proof. intros Hm Ha Hb Hk. split; [|done|done]. split; cbn; try done. by apply cid_fits. Qed.

Lemma close_ok k m : key_ok k -> mux_ok m -> mux_ok (close k m).
Proof.
  intros [H1 H2] Hm. unfold close. apply with_stats_ok, push_control_ok; [|done|by apply delete_ok].
  apply (rst_ok (with_conns (delete k (x_conns m)) m)); [by apply delete_ok|done|done|done].
Qed.

Lemma reply_rst_ok h m : header_fits h -> mux_ok m -> mux_ok (reply_rst h m).
Proof.
  intros [] Hm. unfold reply_rst. destruct (_ =? _); [done|]. apply with_stats_ok, push_control_ok; [|done|done]. by apply rst_ok.
Qed.

Lemma conn_header_ok m k c op flags len :
  mux_ok m -> key_ok k -> conn_ok c -> fits 16 op -> fits 32 flags -> fits 32 len ->
  to_guest (x_guest_cid m) (conn_header m k c op flags len).1 /\ conn_ok (conn_header m k c op flags len).2 /\
  v_len (conn_header m k c op flags len).1 = len.
Proof.
  intros Hm [H1 H2] Hc Ho Hf Hl. split; [|split; [by apply stamp_ok|done]]. split; [|done|done].
  pose proof (ck_counts c Hc) as (? & ? & ? & ?). split; cbn; try done. by apply cid_fits.
Qed.

Lemma finish_if_shut_ok k m : key_ok k -> mux_ok m -> mux_ok (finish_if_shut k m).
Proof. intros Hk Hm. unfold finish_if_shut. destruct (_ !! _); [|done]. destruct (_ && _); [by apply close_ok|done]. Qed.

Lemma open_conn_ok k c op m : mux_ok m -> key_ok k -> conn_ok c -> fits 16 op -> mux_ok (open_conn k c op m).
Proof.
  intros Hm Hk Hc Ho. unfold open_conn. destruct (conn_header_ok m k c op 0 0 Hm Hk Hc Ho ltac:(done) ltac:(done)) as (Hh & Hc' & Hl).
  destruct (conn_header m k c op 0 0) as [hdr c']. cbn [fst snd] in *. apply with_stats_ok, push_control_ok; [done|done|by apply insert_ok].
Qed.

Lemma handle_guest_ok hdr payload host m :
  mux_ok m -> header_fits hdr -> Forall (fits 8) payload -> (forall s, host = Some s -> script_ok s) ->
  mux_ok (handle_guest hdr payload host m).
Proof.
  intros Hm Hh Hp Hs. pose proof Hh as []. unfold handle_guest. destruct (_ || _); [by apply with_stats_ok|].
  destruct (negb _); [by apply reply_rst_ok|]. set (key := (v_dst_port hdr, v_src_port hdr)). assert (Hk : key_ok key) by done.
  destruct (_ =? OP_REQUEST).
  { unfold guest_connect. destruct (_ !! _); [by apply close_ok|]. destruct host as [s|]; [|by apply reply_rst_ok].
    apply open_conn_ok; [done|done| |done]. apply update_peer_ok; [done|done|]. apply conn_new_ok; [by apply Hs|done]. }
  destruct (_ =? OP_RST); [by apply delete_ok|]. destruct (x_conns m !! key) as [c|] eqn:Ec; [|by apply reply_rst_ok].
  destruct (guest_op hdr payload _) as [ok c'] eqn:Eg.
  destruct (guest_op_spec _ _ _ _ _ (update_peer_ok _ _ _ hf_alloc0 hf_fwd0 (proj1 (mk_conns m Hm _ _ Ec))) Hp Eg) as [Hc' _].
  destruct ok; [apply finish_if_shut_ok|apply close_ok]; try done; by apply insert_ok.
Qed.

Lemma poll_key_ok now m k : mux_ok m -> mux_ok (poll_key now m k).
Proof.
  intros Hm. unfold poll_key. destruct (x_conns m !! k) as [c|] eqn:Ec; [|done]. destruct (mk_conns m Hm _ _ Ec) as [Hc Hk].
  destruct (poll_conn now c) as [ok c'] eqn:Ep. destruct (poll_conn_spec _ _ _ _ Hc Ep) as [Hc' _].
  destruct ok; [apply finish_if_shut_ok|apply close_ok]; try done; by apply insert_ok.
Qed.

(** *** Port allocation *)

(** The [i]-th port tried after [p]. *)
Definition nth_port (p i : Z) : Z := EPHEMERAL_BASE + (p - EPHEMERAL_BASE + i) mod 2 ^ 31.

Definition with_port (p : Z) (m : Muxer) : Muxer :=
  {| x_guest_cid := x_guest_cid m; x_conns := x_conns m; x_control := x_control m; x_cursor := x_cursor m;
     x_next_port := p; x_stats := x_stats m |}.

Lemma next_port p : EPHEMERAL_BASE <= p < 2 ^ 32 -> default EPHEMERAL_BASE (checked_add 32 p 1) = nth_port p 1.
Proof.
  intros Hp. unfold nth_port, EPHEMERAL_BASE, checked_add in *. change (2 ^ 32) with 4294967296 in *. change (2 ^ 31) with 2147483648.
  destruct (Z.ltb_spec (p + 1) 4294967296); cbn [from_option id]; Z.div_mod_to_equations; lia.
Qed.

Lemma nth_port_range p i : EPHEMERAL_BASE <= nth_port p i < 2 ^ 32.
Proof. unfold nth_port, EPHEMERAL_BASE. pose proof (Z.mod_pos_bound (p - 0x80000000 + i) (2 ^ 31) ltac:(lia)). lia. Qed.

Lemma nth_port_0 p : EPHEMERAL_BASE <= p < 2 ^ 32 -> nth_port p 0 = p.
Proof. intros Hp. unfold nth_port, EPHEMERAL_BASE in *. rewrite Z.mod_small; lia. Qed.

Lemma nth_port_next p i : nth_port (nth_port p 1) i = nth_port p (i + 1).
Proof.
  unfold nth_port. f_equal. set (a := p - EPHEMERAL_BASE).
  replace (EPHEMERAL_BASE + (a + 1) mod 2 ^ 31 - EPHEMERAL_BASE + i) with ((a + 1) mod 2 ^ 31 + i) by lia.
  rewrite Zdiv.Zplus_mod_idemp_l. f_equal. lia.
Qed.

Lemma nth_port_inj p i j : 0 <= i < 2 ^ 31 -> 0 <= j < 2 ^ 31 -> nth_port p i = nth_port p j -> i = j.
Proof.
  unfold nth_port. intros Hi Hj E. assert (E' : (p - EPHEMERAL_BASE + i) mod 2 ^ 31 = (p - EPHEMERAL_BASE + j) mod 2 ^ 31) by lia.
  revert E'. change (2 ^ 31) with 2147483648 in *. clear E. Z.div_mod_to_equations. lia.
Qed.

Lemma alloc_key_spec fuel gp m :
  EPHEMERAL_BASE <= x_next_port m < 2 ^ 32 ->
  match alloc_key fuel gp m with
  | (Some k, m') => snd k = gp /\ EPHEMERAL_BASE <= fst k < 2 ^ 32 /\ x_conns m !! k = None /\
      exists p, EPHEMERAL_BASE <= p < 2 ^ 32 /\ m' = with_port p m
  | (None, _) => forall i, 0 <= i < Z.of_nat fuel -> is_Some (x_conns m !! (nth_port (x_next_port m) i, gp))
  end.
Proof.
  revert m. induction fuel as [|fuel IH]; intros m Hp; cbn [alloc_key x_conns]; [lia|]. rewrite next_port by done.
  match goal with |- context [alloc_key fuel gp ?x] => change x with (with_port (nth_port (x_next_port m) 1) m) end.
  destruct (x_conns m !! (x_next_port m, gp)) as [c|] eqn:E.
  - specialize (IH (with_port (nth_port (x_next_port m) 1) m) (nth_port_range _ _)). cbn [x_conns with_port x_next_port] in IH. destruct (alloc_key fuel gp _) as [[k|] m'].
    + destruct IH as (? & ? & ? & p & ? & ->). do 3 (split; [done|]). by exists p.
    + intros i Hi. destruct (decide (i = 0)) as [->|]; [rewrite nth_port_0 by done; by eexists|].
      specialize (IH (i - 1) ltac:(lia)). cbn [x_next_port with_port] in IH. rewrite nth_port_next in IH.
      by replace (i - 1 + 1) with i in IH by lia.
  - split; [done|]. split; [done|]. split; [done|]. eexists. split; [apply (nth_port_range (x_next_port m) 1)|done].
Qed.

(** A table of fewer than 2^31 connections always has a free port. *)
Lemma alloc_key_ends gp m :
  EPHEMERAL_BASE <= x_next_port m < 2 ^ 32 -> Z.of_nat (size (x_conns m)) < 2 ^ 31 -> 
  exists k p, alloc_key (S (size (x_conns m))) gp m = (Some k, with_port p m) /\
    snd k = gp /\ EPHEMERAL_BASE <= fst k < 2 ^ 32 /\ x_conns m !! k = None /\ EPHEMERAL_BASE <= p < 2 ^ 32.
Proof.
  intros Hp Hs. pose proof (alloc_key_spec (S (size (x_conns m))) gp m Hp) as H.
  destruct (alloc_key _ gp m) as [[k|] m']; [destruct H as (? & ? & ? & p & ? & ->); by exists k, p|].
  set (f := fun i : nat => (nth_port (x_next_port m) (Z.of_nat i), gp) : Key).
  set (ks := f <$> seq 0 (S (size (x_conns m)))).
  assert (Hnd : NoDup ks).
  { apply NoDup_fmap_2_strong; [|apply NoDup_ListNoDup, seq_NoDup].
    intros i j Hi%elem_of_seq Hj%elem_of_seq [= E]. apply nth_port_inj in E; lia. }
  assert (Hsub : list_to_set (C := gset Key) ks ⊆ dom (x_conns m)).
  { intros k Hk%elem_of_list_to_set%list_elem_of_fmap. destruct Hk as (i & -> & Hi%elem_of_seq). apply elem_of_dom, H. lia. }
  apply subseteq_size in Hsub. rewrite size_list_to_set in Hsub by done. rewrite size_dom in Hsub.
  unfold ks in Hsub. rewrite length_fmap, length_seq in Hsub. lia.
Qed.

Lemma with_port_ok p m : EPHEMERAL_BASE <= p < 2 ^ 32 -> mux_ok m -> mux_ok (with_port p m).
Proof. intros Hp []. by split. Qed.

Lemma open_conn_size k c op m : x_conns m !! k = None -> size (x_conns (open_conn k c op m)) = S (size (x_conns m)).
Proof. intros Hk. cbn. by rewrite map_size_insert_None. Qed.

Lemma accept_all_ok accepted now m :
  mux_ok m -> Forall (fun ps => fits 32 (fst ps) /\ script_ok (snd ps)) accepted ->
  Z.of_nat (size (x_conns m)) + Z.of_nat (length accepted) < 2 ^ 31 ->
  exists m', accept_all accepted now m = Some m' /\ mux_ok m' /\
    size (x_conns m') = (size (x_conns m) + length accepted)%nat /\ x_guest_cid m' = x_guest_cid m /\
    forall k c, x_conns m !! k = Some c -> x_conns m' !! k = Some c.
Proof.
  revert m. induction accepted as [|[gp s] rest IH]; intros m Hm Ha Hs; cbn [accept_all].
  { exists m. split_and!; try done; cbn; lia. }
  apply Forall_cons_iff in Ha as [[Hgp Hsc] Ha]. cbn [fst snd length] in *.
  destruct (alloc_key_ends gp m (mk_port m Hm) ltac:(lia)) as (k & p & -> & Hk1 & Hk2 & Hk3 & Hp).
  set (m1 := open_conn k (conn_new s (Connecting now)) OP_REQUEST (with_port p m)).
  assert (Hm1 : mux_ok m1).
  { apply open_conn_ok; [by apply with_port_ok| |by apply conn_new_ok|done]. unfold key_ok, EPHEMERAL_BASE, fits in *. rewrite Hk1. lia. }
  assert (Hs1 : size (x_conns m1) = S (size (x_conns m))) by (apply (open_conn_size k _ _ (with_port p m)); done).
  destruct (IH m1 Hm1 Ha) as (m' & -> & Hm' & Hs' & Hg & Hl); [lia|]. exists m'. split_and!; try done; [lia|].
  intros k' c' Hk'. apply Hl. cbn. rewrite lookup_insert_ne; [done|congruence].
Qed.

(** *** Packets for the guest *)

(** The connection after a packet [op] was taken from it. *)
Definition sent_conn (now op : Z) (c : Conn) : Conn :=
  if op =? OP_SHUTDOWN then set_flags (Closing now) (k_last_fwd_sent c) (k_peer_shutdown c) (k_credit_requested c) c else c.

Definition took (k : Key) (c : Conn) (m : Muxer) : Muxer :=
  {| x_guest_cid := x_guest_cid m; x_conns := <[k := c]> (x_conns m); x_control := x_control m; x_cursor := Some k;
     x_next_port := x_next_port m; x_stats := x_stats m |}.

Lemma no_packet max c c' : conn_ok c -> (0 < max)%nat -> next_packet max c = (None, c') -> wants_rx c = false.
Proof.
  intros Hc Hm E. pose proof (next_packet_spec max c Hc) as H. rewrite E in H. destruct H as (_ & H1 & H2 & H3). unfold wants_rx. rewrite H1, H2.
  destruct H3 as [H3|[H3|H3]]; [by rewrite H3|lia|]. rewrite H3. by destruct (length _ =? 0)%nat.
Qed.

Lemma rx_loop_spec order max now m :
  mux_ok m ->
  match rx_loop order max now m with
  | (None, m') => m' = m /\ ((0 < max)%nat -> forall k c, k ∈ order -> x_conns m !! k = Some c -> wants_rx c = false)
  | (Some (hdr, data), m') =>
      exists k c op flags c1, x_conns m !! k = Some c /\ wants_rx c = true /\ next_packet max c = (Some (op, flags, data), c1) /\
        let hc := conn_header m k (sent_conn now op c1) op flags (wrap 32 (Z.of_nat (length data))) in
        hdr = hc.1 /\ m' = took k hc.2 m
  end.
Proof.
  intros Hm. induction order as [|k order IH]; cbn [rx_loop]; [split; [done|]; by intros _ k c ?%not_elem_of_nil|].
  destruct (x_conns m !! k) as [c|] eqn:Ek.
  2:{ destruct (rx_loop order max now m) as [[[hdr data]|] m']; [done|]. destruct IH as [-> IH]. split; [done|].
      intros Hx k' c' [->|Hk]%elem_of_cons Hc'; [congruence|eauto]. }
  destruct (mk_conns m Hm _ _ Ek) as [Hc _]. destruct (wants_rx c) eqn:Ew.
  - destruct (next_packet max c) as [[[[op flags] data]|] c1] eqn:En; [by exists k, c, op, flags, c1|].
    pose proof (next_packet_spec max c Hc) as Hs. rewrite En in Hs. destruct Hs as (-> & _). rewrite with_conns_same by done.
    destruct (rx_loop order max now m) as [[[hdr data]|] m']; [done|]. destruct IH as [-> IH]. split; [done|].
    intros Hx k' c' [->|Hk]%elem_of_cons Hc'; [|eauto]. rewrite Ek in Hc'. injection Hc' as <-. by eapply no_packet.
  - rewrite with_conns_same by done. destruct (rx_loop order max now m) as [[[hdr data]|] m']; [done|]. destruct IH as [-> IH]. split; [done|].
    intros Hx k' c' [->|Hk]%elem_of_cons Hc'; [congruence|eauto].
Qed.

(** Packets [next_rx] has still to give for a connection. *)
Definition rx_work (c : Conn) : nat :=
  length (k_to_guest c) + (if credit_update_due c then 1 else 0) + (if k_shutdown_sent c then 0 else 1).
Definition rx_total (m : Muxer) : nat :=
  length (x_control m) + foldr (fun kc n => rx_work (snd kc) + n)%nat 0%nat (map_to_list (x_conns m)).

(** What a taken packet is, and what it leaves. *)
Lemma taken_packet max now c op flags data c1 :
  conn_ok c -> (Z.of_nat max < 2 ^ 32) -> next_packet max c = (Some (op, flags, data), c1) ->
  let c' := (stamp (sent_conn now op c1)).2 in
  conn_ok (sent_conn now op c1) /\ conn_ok c' /\ fits 16 op /\ fits 32 flags /\ Z.of_nat (length data) < 2 ^ 32 /\ (length data <= max)%nat /\
  (data <> [] -> op = OP_RW /\ in_flight c' <= k_peer_buf_alloc c') /\ Forall (fits 8) data /\
  outgoing c' = outgoing c /\ incoming c = data ++ incoming c' /\ (rx_work c' < rx_work c)%nat.
Proof.
  intros Hc Hmax E. pose proof (next_packet_spec max c Hc) as H. rewrite E in H. cbn zeta.
  assert (Hdue : forall c0, credit_update_due (stamp c0).2 = false).
  { intros c0. unfold credit_update_due, wrapping_sub. cbn. by rewrite Z.sub_diag. }
  unfold rx_work. rewrite Hdue.
  destruct H as [(-> & -> & Hne & Hg & Hl & Hf & Hw & Hset & Hc1)|[(-> & -> & -> & -> & Hd)|(-> & -> & -> & Hd & Hcr & ->)]].
  - change (sent_conn now OP_RW c1) with c1. split; [done|]. split; [by apply stamp_ok|]. split; [done|]. split; [done|]. split; [lia|]. split; [done|].
    split; [done|]. split; [apply ck_bytes in Hc as [_ Hc]; rewrite Hg, Forall_app in Hc; apply Hc|].
    assert (Es : k_stream c1 = k_stream c /\ k_to_host c1 = k_to_host c /\ k_shutdown_sent c1 = k_shutdown_sent c) by by rewrite Hset.
    destruct Es as (E1 & E2 & E3). unfold outgoing, incoming. cbn. rewrite E1, E2, E3, Hg, <- app_assoc. split; [done|]. split; [done|].
    rewrite length_app. destruct data; [done|]. cbn. lia.
  - change (sent_conn now OP_CREDIT_UPDATE c) with c. split; [done|]. split; [by apply stamp_ok|]. split; [done|]. split; [done|]. split; [cbn; lia|].
    split; [cbn; lia|]. split; [done|]. split; [constructor|]. split; [done|]. split; [done|]. rewrite Hd. cbn. lia.
  - assert (Hc1 : conn_ok (sent_conn now OP_SHUTDOWN (set_guest (k_stream c) (k_to_guest c) (k_tx_cnt c) (k_host_eof c) true c))).
    { destruct Hc as [H1 H2 H3 H4 H5 H6 H7 H8 H9 H10 H11]. unfold shutdown_due in Hd. apply andb_true_iff in Hd as [[He Hn%Nat.eqb_eq]%andb_true_iff _].
      apply nil_length_inv in Hn. split; cbn; try done. intros _. split_and!; try done. by eexists. }
    split; [done|]. split; [by apply stamp_ok|]. split; [done|]. split; [done|]. split; [cbn; lia|].
    split; [cbn; lia|]. split; [done|]. split; [constructor|]. split; [done|]. split; [done|]. rewrite Hcr.
    unfold shutdown_due in Hd. apply andb_true_iff in Hd as [_ Hn%negb_true_iff]. rewrite Hn. cbn. lia.
Qed.

Lemma rx_total_insert k c c' m :
  x_conns m !! k = Some c -> (rx_work c' < rx_work c)%nat -> (rx_total (took k c' m) < rx_total m)%nat.
Proof.
  intros Hk Hlt. unfold rx_total. cbn [took x_control x_conns].
  assert (Hsum : forall (conns : gmap Key Conn) c0, conns !! k = None ->
    foldr (fun kc n => rx_work (snd kc) + n)%nat 0%nat (map_to_list (<[k := c0]> conns)) =
    (rx_work c0 + foldr (fun kc n => rx_work (snd kc) + n)%nat 0%nat (map_to_list conns))%nat).
  { intros conns c0 Hn. etrans; [eapply (foldr_permutation eq (fun kc n => rx_work (snd kc) + n)%nat 0%nat); [|by apply map_to_list_insert]|done].
    intros; lia. }
  assert (Em : x_conns m = <[k := c]> (delete k (x_conns m))) by by rewrite insert_delete_id.
  rewrite <- (insert_delete_eq (x_conns m) k c'). rewrite Hsum by apply lookup_delete_eq.
  rewrite Em at 2. rewrite Hsum by apply lookup_delete_eq. lia.
Qed.

(** *** Runs *)

Inductive MuxOp : Type :=
| MGuest (hdr : Header) (payload : list Z) (host : option Stream)
| MPoll (accepted : list (Z * Stream)) (now : Z)
| MRx (max_payload : nat) (now : Z)
| MReset.

Definition mux_op (op : MuxOp) (m : Muxer) : option (Muxer * option (Header * list Z)) :=
  match op with
  | MGuest hdr payload host => Some (handle_guest hdr payload host m, None)
  | MPoll accepted now => m ← poll_host accepted now m; Some (m, None)
  | MRx max now => let '(out, m) := next_rx max now m in Some (m, out)
  | MReset => Some (reset m, None)
  end.

(** What the worker and the host may pass: decoded headers, byte payloads. *)
Definition mux_op_ok (op : MuxOp) : Prop :=
  match op with
  | MGuest hdr payload host => header_fits hdr /\ Forall (fits 8) payload /\ forall s, host = Some s -> script_ok s
  | MPoll accepted _ => Forall (fun ps => fits 32 (fst ps) /\ script_ok (snd ps)) accepted
  | MRx max _ => (1 <= Z.of_nat max <= MAX_PAYLOAD)
  | MReset => True
  end.

(** Connections an operation may open. *)
Definition opens (op : MuxOp) : nat :=
  match op with MGuest _ _ _ => 1 | MPoll accepted _ => length accepted | _ => 0 end.

(** A packet handed to the guest. *)
Record packet_ok (cid : Z) (hdr : Header) (data : list Z) : Prop := {
  pk_hdr : to_guest cid hdr;
  pk_len : v_len hdr = Z.of_nat (length data);
  pk_max : Z.of_nat (length data) <= MAX_PAYLOAD;
  pk_bytes : Forall (fits 8) data;
  pk_data : data <> [] -> v_op hdr = OP_RW;
}.

Lemma delete_size (k : Key) (conns : gmap Key Conn) : (size (delete k conns) <= size conns)%nat.
Proof. rewrite map_size_delete. destruct (conns !! k); unfold id; lia. Qed.

Lemma close_size k m : (size (x_conns (close k m)) <= size (x_conns m))%nat.
Proof. apply delete_size. Qed.

Lemma finish_size k m : (size (x_conns (finish_if_shut k m)) <= size (x_conns m))%nat.
Proof. unfold finish_if_shut. destruct (_ !! _); [|done]. destruct (_ && _); [apply close_size|done]. Qed.

Lemma replaced_size k c c' m (ok : bool) :
  x_conns m !! k = Some c ->
  let m' := with_conns (<[k := c']> (x_conns m)) m in
  (size (x_conns (if ok then finish_if_shut k m' else close k m')) <= size (x_conns m))%nat.
Proof.
  intros Hk. cbn zeta. assert (E : size (<[k := c']> (x_conns m)) = size (x_conns m)) by (apply map_size_insert_Some; by eexists).
  destruct ok; etrans; [apply finish_size| |apply close_size|]; cbn; by rewrite E.
Qed.

Lemma handle_guest_size hdr payload host m : (size (x_conns (handle_guest hdr payload host m)) <= size (x_conns m) + 1)%nat.
Proof.
  assert (Hr : size (x_conns (reply_rst hdr m)) = size (x_conns m)) by (unfold reply_rst; by destruct (_ =? _)).
  unfold handle_guest. destruct (_ || _); [cbn; lia|]. destruct (negb _); [lia|].
  set (key := (v_dst_port hdr, v_src_port hdr)). destruct (_ =? OP_REQUEST).
  { unfold guest_connect. destruct (_ !! _) eqn:E; [pose proof (close_size key m); lia|]. destruct host; [|lia]. rewrite open_conn_size by done. lia. }
  destruct (_ =? OP_RST); [etrans; [apply delete_size|lia]|].
  destruct (x_conns m !! key) as [c|] eqn:E; [|lia]. destruct (guest_op _ _ _) as [ok c'].
  etrans; [apply (replaced_size key c c' m ok E)|lia].
Qed.

Lemma poll_keys_ok now ks m :
  mux_ok m -> mux_ok (foldl (poll_key now) m ks) /\ x_guest_cid (foldl (poll_key now) m ks) = x_guest_cid m /\
  (size (x_conns (foldl (poll_key now) m ks)) <= size (x_conns m))%nat.
Proof.
  revert m. induction ks as [|k ks IH]; intros m Hm; cbn [foldl]; [done|]. destruct (IH (poll_key now m k)) as (H1 & Hg & H2); [by apply poll_key_ok|].
  split; [done|]. split; [rewrite Hg; unfold poll_key, finish_if_shut, close; by repeat case_match|]. etrans; [done|]. unfold poll_key. destruct (x_conns m !! k) as [c|] eqn:E; [|done].
  destruct (poll_conn now c) as [ok c']. apply (replaced_size k c c' m ok E).
Qed.

Lemma next_rx_ok max now m :
  mux_ok m -> Z.of_nat max <= MAX_PAYLOAD ->
  let '(out, m') := next_rx max now m in
  mux_ok m' /\ size (x_conns m') = size (x_conns m) /\ x_guest_cid m' = x_guest_cid m /\
  match out with
  | None => m' = m
  | Some (hdr, data) => packet_ok (x_guest_cid m) hdr data /\ (length data <= max)%nat /\ (rx_total m' < rx_total m)%nat
  end.
Proof.
  intros Hm Hmax. unfold next_rx. destruct (x_control m) as [|h rest] eqn:Ec.
  - pose proof (rx_loop_spec (rx_order m) max now m Hm) as H. destruct (rx_loop (rx_order m) max now m) as [[[hdr data]|] m'].
    2:{ by destruct H as [-> _]. }
    destruct H as (k & c & op & flags & c1 & Hk & Hw & En & E & ->). destruct (mk_conns m Hm _ _ Hk) as [Hc Hko]. unfold MAX_PAYLOAD in *.
    destruct (taken_packet max now c op flags data c1 Hc ltac:(lia) En) as (Hs & Hc' & Hop & Hfl & Hlen & Hlm & Hrw & Hby & _ & _ & Hwork).
    assert (Hl32 : fits 32 (wrap 32 (Z.of_nat (length data)))) by by apply wrap_fits.
    destruct (conn_header_ok m k (sent_conn now op c1) op flags _ Hm Hko Hs Hop Hfl Hl32) as (Hh & Hc2 & Hl). cbn zeta in E.
    set (hc := conn_header _ _ _ _ _ _) in *.
    assert (Hsnd : hc.2 = (stamp (sent_conn now op c1)).2) by done. assert (Hopf : v_op hc.1 = op) by done. clearbody hc.
    split; [|split; [|split; [done|]]].
    + destruct Hm as [M1 M2 M3 M4]. split; try done. cbn. intros k' c' [[<- <-]|[_ H]]%lookup_insert_Some; [by split|by apply M2].
    + cbn. apply map_size_insert_Some. by eexists.
    + subst hdr. split; [|split; [done|apply (rx_total_insert k c); [done|by rewrite Hsnd]]]. split; try done.
      * rewrite Hl. apply wrap_small. unfold fits. lia.
      * unfold MAX_PAYLOAD. lia.
      * intros Hne. rewrite Hopf. by apply Hrw.
  - pose proof Hm as [M1 M2 M3 M4]. rewrite Ec in M3. apply Forall_cons_iff in M3 as [[Hh Hl] M3].
    split; [by split|]. split; [done|]. split; [done|]. split; [|split; [cbn; lia|unfold rx_total; cbn; rewrite Ec; cbn; lia]].
    split; try done; cbn; unfold MAX_PAYLOAD; lia.
Qed.

Lemma mux_op_total op m :
  mux_ok m -> mux_op_ok op -> Z.of_nat (size (x_conns m)) + Z.of_nat (opens op) < 2 ^ 31 ->
  exists m' out, mux_op op m = Some (m', out) /\ mux_ok m' /\ x_guest_cid m' = x_guest_cid m /\
    (size (x_conns m') <= size (x_conns m) + opens op)%nat /\
    forall hdr data, out = Some (hdr, data) -> packet_ok (x_guest_cid m) hdr data.
Proof.
  intros Hm Hop Hs. destruct op as [hdr payload host|accepted now|max now|]; cbn [mux_op mux_op_ok opens] in *.
  - destruct Hop as (H1 & H2 & H3). do 2 eexists. split; [done|]. split; [by apply handle_guest_ok|]. split; [|split; [apply handle_guest_size|done]].
    unfold handle_guest, guest_connect, reply_rst, finish_if_shut, close. repeat case_match; done.
  - unfold poll_host. destruct (accept_all_ok accepted now m Hm Hop Hs) as (m1 & -> & Hm1 & Hs1 & Hg1 & _). cbn [mbind option_bind].
    destruct (poll_keys_ok now (keys (x_conns m1)) m1 Hm1) as (Hm2 & Hg2 & Hs2). do 2 eexists. split; [done|]. split; [done|].
    split; [congruence|]. split; [lia|done].
  - pose proof (next_rx_ok max now m Hm (proj2 Hop)) as H. destruct (next_rx max now m) as [out m']. destruct H as (H1 & H2 & H3 & H4).
    do 2 eexists. split; [done|]. split; [done|]. split; [done|]. split; [lia|]. intros hdr data ->. by destruct H4.
  - do 2 eexists. split; [done|]. split; [by destruct Hm; split|]. split; [done|]. split; [cbn [reset x_conns]; rewrite map_size_empty; lia|done].
Qed.

(** *** One connection inside the table *)

(** Bytes an operation brings from the guest on [k], and bytes it hands to the
    guest on [k]. *)
Definition op_sent (k : Key) (op : MuxOp) (m : Muxer) : list Z :=
  match op with
  | MGuest hdr payload _ =>
      if bool_decide (v_src_cid hdr = x_guest_cid m /\ v_dst_cid hdr = HOST_CID /\ v_kind hdr = TYPE_STREAM /\ (v_dst_port hdr, v_src_port hdr) = k)
      then accepted hdr payload else []
  | _ => []
  end.
Definition op_delivered (k : Key) (out : option (Header * list Z)) : list Z :=
  match out with
  | Some (hdr, data) => if bool_decide ((v_src_port hdr, v_dst_port hdr) = k) then data else []
  | None => []
  end.

Lemma close_lookup key m k c : x_conns (close key m) !! k = Some c <-> k <> key /\ x_conns m !! k = Some c.
Proof. cbn. rewrite lookup_delete_Some. naive_solver. Qed.

Lemma after_lookup key c0 m (ok : bool) k c :
  let m1 := with_conns (<[key := c0]> (x_conns m)) m in
  x_conns (if ok then finish_if_shut key m1 else close key m1) !! k = Some c ->
  (k <> key /\ x_conns m !! k = Some c) \/ (k = key /\ ok = true /\ c = c0).
Proof.
  cbn zeta. destruct (decide (k = key)) as [->|Hne].
  - destruct ok; [|rewrite close_lookup; naive_solver]. unfold finish_if_shut. cbn [x_conns with_conns]. rewrite lookup_insert_eq.
    destruct (_ && _); [rewrite close_lookup; naive_solver|]. cbn [x_conns with_conns]. rewrite lookup_insert_eq. intros [= <-]. by right.
  - intros H. left. split; [done|]. destruct ok; [unfold finish_if_shut in H; repeat case_match|];
      rewrite ?close_lookup in H; cbn [x_conns with_conns] in H; rewrite ?lookup_insert_ne in H by done; naive_solver.
Qed.

Lemma reply_conns hdr m : x_conns (reply_rst hdr m) = x_conns m.
Proof. unfold reply_rst. by destruct (_ =? _). Qed.

Lemma handle_guest_conn hdr payload host m k c c' :
  mux_ok m -> header_fits hdr -> Forall (fits 8) payload ->
  x_conns m !! k = Some c -> x_conns (handle_guest hdr payload host m) !! k = Some c' ->
  outgoing c' = outgoing c ++ op_sent k (MGuest hdr payload host) m /\ incoming c' = incoming c.
Proof.
  intros Hm Hh Hp Hk. cbn [op_sent]. unfold handle_guest.
  destruct (Z.eqb_spec (v_src_cid hdr) (x_guest_cid m)) as [E1|E1]; cbn [negb orb].
  2:{ rewrite bool_decide_false by naive_solver. cbn. rewrite Hk, app_nil_r. by intros [= ->]. }
  destruct (Z.eqb_spec (v_dst_cid hdr) HOST_CID) as [E2|E2]; cbn [negb].
  2:{ rewrite bool_decide_false by naive_solver. cbn. rewrite Hk, app_nil_r. by intros [= ->]. }
  destruct (Z.eqb_spec (v_kind hdr) TYPE_STREAM) as [E3|E3]; cbn [negb].
  2:{ rewrite bool_decide_false by naive_solver. rewrite reply_conns, Hk, app_nil_r. by intros [= ->]. }
  set (key := (v_dst_port hdr, v_src_port hdr)).
  assert (Hsame : k <> key -> c = c' -> outgoing c' = outgoing c ++ (if bool_decide (v_src_cid hdr = x_guest_cid m /\ v_dst_cid hdr = HOST_CID /\
    v_kind hdr = TYPE_STREAM /\ key = k) then accepted hdr payload else []) /\ incoming c' = incoming c).
  { intros Hne ->. rewrite bool_decide_false by naive_solver. by rewrite app_nil_r. }
  destruct (_ =? OP_REQUEST).
  { unfold guest_connect. destruct (x_conns m !! key) as [c0|] eqn:E0.
    - rewrite close_lookup, Hk. intros [Hne [= ->]]. by apply Hsame.
    - assert (Hne : k <> key) by congruence. destruct host as [s|].
      + cbn. rewrite lookup_insert_ne by done. rewrite Hk. intros [= ->]. by apply Hsame.
      + rewrite reply_conns, Hk. intros [= ->]. by apply Hsame. }
  destruct (_ =? OP_RST).
  { cbn. intros [Hne E]%lookup_delete_Some. rewrite Hk in E. injection E as ->. by apply Hsame. }
  destruct (x_conns m !! key) as [c0|] eqn:E0.
  - destruct (guest_op hdr payload _) as [ok c1] eqn:Eg. intros [[Hne E]|(-> & -> & ->)]%after_lookup.
    + rewrite Hk in E. injection E as ->. by apply Hsame.
    + rewrite bool_decide_true by done. rewrite Hk in E0. injection E0 as ->. pose proof Hh as [].
      destruct (guest_op_spec _ _ _ _ _ (update_peer_ok _ _ _ hf_alloc0 hf_fwd0 (proj1 (mk_conns m Hm _ _ Hk))) Hp Eg) as [_ H].
      by apply H.
  - rewrite reply_conns, Hk. intros [= ->]. apply Hsame; congruence.
Qed.

Lemma poll_keys_conn now ks m k c' :
  mux_ok m -> x_conns (foldl (poll_key now) m ks) !! k = Some c' ->
  exists c, x_conns m !! k = Some c /\ outgoing c' = outgoing c /\ incoming c' = incoming c.
Proof.
  revert m. induction ks as [|key ks IH]; intros m Hm; cbn [foldl]; [by exists c'|].
  intros H. destruct (IH (poll_key now m key) (poll_key_ok _ _ _ Hm) H) as (c1 & H1 & Eo & Ei). unfold poll_key in H1.
  destruct (x_conns m !! key) as [c0|] eqn:E0; [|by exists c1]. destruct (poll_conn now c0) as [ok c2] eqn:Ep.
  apply after_lookup in H1 as [[Hne H1]|(-> & -> & ->)]; [by exists c1|]. exists c0.
  destruct (poll_conn_spec _ _ _ _ (proj1 (mk_conns m Hm _ _ E0)) Ep) as [_ H2]. destruct (H2 eq_refl) as [E1 E2].
  split; [done|]. split; congruence.
Qed.

Lemma mux_op_conn op m m' out k c c' :
  mux_ok m -> mux_op_ok op -> Z.of_nat (size (x_conns m)) + Z.of_nat (opens op) < 2 ^ 31 ->
  mux_op op m = Some (m', out) -> x_conns m !! k = Some c -> x_conns m' !! k = Some c' ->
  outgoing c' = outgoing c ++ op_sent k op m /\ incoming c = op_delivered k out ++ incoming c'.
Proof.
  intros Hm Hop Hs E Hk Hk'. destruct op as [hdr payload host|accepted now|max now|]; cbn [mux_op mux_op_ok opens op_sent] in *.
  - injection E as <- <-. destruct Hop as (H1 & H2 & H3). destruct (handle_guest_conn hdr payload host m k c c' Hm H1 H2 Hk Hk') as [-> ->]. done.
  - unfold poll_host in E. destruct (accept_all_ok accepted now m Hm Hop Hs) as (m1 & E1 & Hm1 & _ & _ & Hl). rewrite E1 in E.
    cbn in E. injection E as <- <-. destruct (poll_keys_conn now _ m1 k c' Hm1 Hk') as (c1 & H1 & -> & ->).
    rewrite (Hl _ _ Hk) in H1. injection H1 as ->. by rewrite app_nil_r.
  - rewrite app_nil_r. unfold next_rx in E. destruct (x_control m) as [|h rest].
    + pose proof (rx_loop_spec (rx_order m) max now m Hm) as H. destruct (rx_loop (rx_order m) max now m) as [[[hdr data]|] m1].
      2:{ destruct H as [-> _]. injection E as <- <-. rewrite Hk in Hk'. by injection Hk' as ->. }
      injection E as <- <-. destruct H as (k0 & c0 & op & flags & c1 & Hk0 & _ & En & -> & ->). cbn [op_delivered].
      destruct (mk_conns m Hm _ _ Hk0) as [Hc0 _]. unfold MAX_PAYLOAD in Hop.
      destruct (taken_packet max now c0 op flags data c1 Hc0 ltac:(lia) En) as (_ & _ & _ & _ & _ & _ & _ & _ & Eo & Ei & _).
      cbn in Hk'. destruct (decide (k0 = k)) as [->|Hne].
      * rewrite lookup_insert_eq in Hk'. injection Hk' as <-. rewrite Hk in Hk0. injection Hk0 as ->.
        rewrite bool_decide_true by by destruct k. by split.
      * rewrite lookup_insert_ne, Hk in Hk' by done. injection Hk' as ->. rewrite bool_decide_false; [done|]. destruct k0. cbn. done.
    + injection E as <- <-. cbn in Hk'. rewrite Hk in Hk'. injection Hk' as ->. cbn. by case_bool_decide.
  - injection E as <- <-. cbn in Hk'. by rewrite lookup_empty in Hk'.
Qed.

(** A run of the table, with the packets handed to the guest. *)
Fixpoint mux_run (ops : list MuxOp) (m : Muxer) : option (Muxer * list (Header * list Z)) :=
  match ops with
  | [] => Some (m, [])
  | op :: rest =>
      '(m, out) ← mux_op op m;
      '(m, outs) ← mux_run rest m;
      Some (m, match out with Some p => p :: outs | None => outs end)
  end.

Definition all_opens (ops : list MuxOp) : nat := foldr (fun op n => opens op + n)%nat 0%nat ops.

Lemma mux_run_total ops m :
  mux_ok m -> Forall mux_op_ok ops -> Z.of_nat (size (x_conns m)) + Z.of_nat (all_opens ops) < 2 ^ 31 ->
  exists m' outs, mux_run ops m = Some (m', outs) /\ mux_ok m' /\ x_guest_cid m' = x_guest_cid m /\
    Forall (fun p => packet_ok (x_guest_cid m) (fst p) (snd p)) outs.
Proof.
  revert m. induction ops as [|op ops IH]; intros m Hm Ho Hs; cbn [mux_run all_opens foldr] in *; [by do 2 eexists|].
  apply Forall_cons_iff in Ho as [Hop Ho].
  destruct (mux_op_total op m Hm Hop ltac:(lia)) as (m1 & out & -> & Hm1 & Hg & Hs1 & Hout). cbn [mbind option_bind].
  destruct (IH m1 Hm1 Ho) as (m2 & outs & -> & Hm2 & Hg2 & Houts); [unfold all_opens; lia|]. cbn [mbind option_bind]. do 2 eexists. split; [done|].
  split; [done|]. split; [congruence|]. rewrite Hg in Houts. destruct out as [[hdr data]|]; [|done]. constructor; [by apply Hout|done].
Qed.

Lemma muxer_new_ok cid stats : FIRST_GUEST_CID <= cid < CID_ANY -> mux_ok (muxer_new cid stats).
Proof. intros Hc. split; cbn; try done. Qed.

(** Whatever packets the guest sends, whatever the host's streams answer
    and in whatever order packets are taken, the connection table keeps its
    invariant: per connection at most 256 KiB wait for the host and 64 KiB for
    the guest, the counters agree with the queues modulo 2^32, and a SHUTDOWN is
    sent only after the stream ended and the staged data is gone.  The
    operations always end, and every packet handed out is addressed from the
    host to this guest, announces the length of its data and carries data only
    as RW. *)
Theorem vsock_table_invariant cid stats ops :
  FIRST_GUEST_CID <= cid < CID_ANY -> Forall mux_op_ok ops -> Z.of_nat (all_opens ops) < 2 ^ 31 ->
  exists m outs, mux_run ops (muxer_new cid stats) = Some (m, outs) /\ mux_ok m /\
    Forall (fun p => packet_ok cid (fst p) (snd p)) outs.
Proof.
  intros Hc Ho Hs. destruct (mux_run_total ops (muxer_new cid stats) (muxer_new_ok cid stats Hc) Ho) as (m & outs & E & Hm & _ & Hp).
  - cbn [muxer_new x_conns]. rewrite map_size_empty. lia.
  - by exists m, outs.
Qed.

(** Follow connection [k] through a run while it stays in the table: what the
    guest sent on it and what was handed to the guest. *)
Fixpoint track (k : Key) (ops : list MuxOp) (m : Muxer) : option (Muxer * list Z * list Z) :=
  match ops with
  | [] => Some (m, [], [])
  | op :: rest =>
      '(m', out) ← mux_op op m;
      _ ← x_conns m' !! k;
      '(m'', sent, delivered) ← track k rest m';
      Some (m'', op_sent k op m ++ sent, op_delivered k out ++ delivered)
  end.

(** C26: A connection is a reliable byte stream both ways.  For as long as it
    stays open, among any other traffic: the bytes written to the host stream
    and those still queued are exactly what the guest sent, in order; and the
    bytes handed to the guest, followed by those staged and those still in the
    stream, are exactly what the host sent, in order. *)
Theorem vsock_stream_integrity k ops m c m' sent delivered :
  mux_ok m -> Forall mux_op_ok ops -> Z.of_nat (size (x_conns m)) + Z.of_nat (all_opens ops) < 2 ^ 31 ->
  x_conns m !! k = Some c -> track k ops m = Some (m', sent, delivered) ->
  exists c', x_conns m' !! k = Some c' /\
    s_out (k_stream c') ++ k_to_host c' = (s_out (k_stream c) ++ k_to_host c) ++ sent /\
    k_to_guest c ++ stream_data (s_reads (k_stream c)) = delivered ++ k_to_guest c' ++ stream_data (s_reads (k_stream c')).
Proof.
  revert m c m' sent delivered. induction ops as [|op ops IH]; intros m c m' sent delivered Hm Ho Hs Hk; cbn [track all_opens foldr] in *.
  { intros [= <- <- <-]. exists c. rewrite app_nil_r. done. }
  apply Forall_cons_iff in Ho as [Hop Ho].
  destruct (mux_op_total op m Hm Hop ltac:(lia)) as (m1 & out & E & Hm1 & _ & Hs1 & _). rewrite E. cbn [mbind option_bind].
  destruct (x_conns m1 !! k) as [c1|] eqn:E1; [|done]. cbn [mbind option_bind].
  destruct (track k ops m1) as [[[m2 sent'] delivered']|] eqn:Et; [|done]. intros [= <- <- <-].
  destruct (IH m1 c1 m2 sent' delivered' Hm1 Ho ltac:(unfold all_opens; lia) E1 Et) as (c' & Hc' & Eo & Ei).
  destruct (mux_op_conn op m m1 out k c c1 Hm Hop ltac:(lia) E Hk E1) as [Eo1 Ei1]. exists c'. split; [done|].
  unfold outgoing, incoming in *. rewrite Eo, Ei1, Ei, Eo1, <- !app_assoc. done.
Qed.

(** C34: Packets for the guest never get stuck: [has_rx] says exactly whether
    [next_rx] has a packet for a buffer with any room for data, and every packet
    taken leaves less to take, so emptying the table into the RX queue ends
    after at most [rx_total] packets. *)
Theorem vsock_rx_progress max now m :
  mux_ok m -> 1 <= Z.of_nat max <= MAX_PAYLOAD ->
  match next_rx max now m with
  | (None, m') => has_rx m = false /\ m' = m
  | (Some _, m') => has_rx m = true /\ (rx_total m' < rx_total m)%nat
  end.
Proof.
  intros Hm Hmax. pose proof (next_rx_ok max now m Hm (proj2 Hmax)) as Hok. unfold next_rx in *. unfold has_rx.
  destruct (x_control m) as [|h rest] eqn:Ec; [|split; [done|]; by destruct Hok as (_ & _ & _ & _ & _ & ?)].
  pose proof (rx_loop_spec (rx_order m) max now m Hm) as H. destruct (rx_loop (rx_order m) max now m) as [[[hdr data]|] m']; cbn [length].
  - destruct Hok as (_ & _ & _ & _ & _ & Hlt). split; [|done]. destruct H as (k & c & op & flags & c1 & Hk & Hw & _). cbn. apply existsb_exists.
    exists (k, c). split; [|done]. apply list_elem_of_In. by apply elem_of_map_to_list.
  - destruct H as [-> H]. split; [|done]. cbn. apply not_true_iff_false. intros Hex. apply existsb_exists in Hex as ([k c] & Hin & Hw).
    apply list_elem_of_In, elem_of_map_to_list in Hin. cbn in Hw. rewrite (H ltac:(lia) k c) in Hw; [done| |done].
    apply elem_rx_order. by eexists.
Qed.

(** ** The worker: safety *)

Definition bound_ok (b : option Bound) : Prop := forall x, b = Some x -> wf_queue (bd_queue x).

Record worker_ok (w : Worker) : Prop := {
  wk_mux : mux_ok (w_muxer w);
  wk_rx : bound_ok (w_rx w);
  wk_tx : bound_ok (w_tx w);
}.

Definition notify_ok (n : QueueNotify) : Prop :=
  fits 16 (n_size n) /\ fits 64 (n_desc n) /\ fits 64 (n_avail n) /\ fits 64 (n_used n).
Definition kick_ok (k : Kick) : Prop := match k with KNotify n => notify_ok n | _ => True end.

Lemma bind_ok n w : notify_ok n -> worker_ok w -> worker_ok (bind n w).
Proof.
  intros (H1 & H2 & H3 & H4) [Hm Hr Ht].
  assert (Hs : forall slot, bound_ok slot -> bound_ok (bind_slot n slot)).
  { intros slot Hsl b. unfold bind_slot. destruct slot as [b0|].
    - case_bool_decide; [by apply Hsl|]. intros [= <-]. by apply queue_new_wf.
    - intros [= <-]. by apply queue_new_wf. }
  unfold bind. repeat case_match; split; cbn; auto.
Qed.

Lemma parse_fits bytes h : Forall (fits 8) bytes -> parse bytes = Some h -> header_fits h.
Proof.
  intros Hb. unfold parse. destruct (Nat.ltb_spec (length bytes) HDR_LEN) as [|Hl]; [done|]. intros [= <-].
  assert (Hf : forall o n, fits (8 * Z.of_nat n) (field_at bytes o n)).
  { intros o n. unfold field_at. pose proof (of_le_bound (take n (drop o bytes)) (Forall_take _ _ _ (Forall_drop _ _ _ Hb))) as H.
    change 256 with (2 ^ 8) in H. rewrite <- Z.pow_mul_r in H by lia. eapply fits_weaken; [|exact H]. rewrite length_take. lia. }
  split; cbn; [apply (Hf 0%nat 8%nat)|apply (Hf 8%nat 8%nat)|apply (Hf 16%nat 4%nat)|apply (Hf 20%nat 4%nat)|apply (Hf 24%nat 4%nat)
    |apply (Hf 28%nat 2%nat)|apply (Hf 30%nat 2%nat)|apply (Hf 32%nat 4%nat)|apply (Hf 36%nat 4%nat)|apply (Hf 40%nat 4%nat)].
Qed.

Section worker_facts.
Context {M : Type} `{!ByteMemory M}.
Implicit Types (mem : M).

Lemma read_all_fits mem bufs bytes : bm_inv mem -> Forall buf_ok bufs -> read_all mem bufs = Some bytes -> Forall (fits 8) bytes.
Proof.
  intros Hm Hb. revert bytes. induction Hb as [|b bufs (Ha & _) _ IH]; intros bytes; cbn [read_all]; [intros [= <-]; constructor|].
  destruct (bm_read mem _ _) as [bs|] eqn:E; [|done]. destruct (read_all mem bufs) as [rest|]; [|done]. intros [= <-].
  apply Forall_app. split; [by eapply bm_read_fits|by apply IH].
Qed.

Lemma read_tx_ok mem c hdr payload : bm_inv mem -> chain_ok c -> read_tx mem c = Some (hdr, payload) -> header_fits hdr /\ Forall (fits 8) payload.
Proof.
  intros Hm [_ Hr _]. unfold read_tx. destruct (c_writable c); [|done]. destruct (_ || _); [done|].
  destruct (read_all mem (c_readable c)) as [bytes|] eqn:E; [|done]. cbn [mbind option_bind].
  pose proof (read_all_fits _ _ _ Hm Hr E) as Hf. destruct (parse bytes) as [h|] eqn:Ep; [|done]. cbn [mbind option_bind].
  destruct (negb _); [done|]. intros [= <- <-]. split; [by eapply parse_fits|by apply Forall_drop].
Qed.

Lemma tx_chains_ok mem q cs m completed packets :
  bm_inv mem -> wf_queue q -> Forall chain_ok cs -> mux_ok m -> Forall (fun p => header_fits (fst p) /\ Forall (fits 8) (snd p)) packets ->
  let '(q', mem', m', _, packets', fine) := tx_chains mem q cs m completed packets in
  wf_queue q' /\ bm_inv mem' /\ mux_ok m' /\ x_conns m' = x_conns m /\ fine = true /\
  Forall (fun p => header_fits (fst p) /\ Forall (fits 8) (snd p)) packets' /\ (length packets' <= length packets + length cs)%nat.
Proof.
  intros Hm Hq Hcs. revert mem q m completed packets Hm Hq. induction Hcs as [|c cs Hc _ IH]; intros mem q m completed packets Hm Hq Hx Hp; cbn [tx_chains].
  { split_and!; try done. cbn. lia. }
  set (pm := match read_tx mem c with Some p => _ | None => _ end).
  assert (Hpm : mux_ok pm.2 /\ x_conns pm.2 = x_conns m /\ Forall (fun p => header_fits (fst p) /\ Forall (fits 8) (snd p)) pm.1 /\
    (length pm.1 <= length packets + 1)%nat).
  { subst pm. destruct (read_tx mem c) as [[hdr payload]|] eqn:E; cbn.
    - split_and!; try done; [|by rewrite length_app]. apply Forall_app. split; [done|]. constructor; [by eapply read_tx_ok|constructor].
    - split_and!; try done; [by apply with_stats_ok|lia]. }
  destruct pm as [packets1 m1]. cbn [fst snd] in Hpm. destruct Hpm as (Hm1 & Hx1 & Hp1 & Hl1).
  pose proof (add_used_keeps mem q (c_head c) 0 Hm Hq) as Ha. destruct (add_used q mem (c_head c) 0) as [[q1 mem1] [b| |]]; try done.
  destruct Ha as (Hq1 & Hi1 & _). specialize (IH mem1 q1 m1 (completed || b) packets1 Hi1 Hq1 Hm1 Hp1).
  destruct (tx_chains mem1 q1 cs m1 (completed || b) packets1) as [[[[[q2 mem2] m2] c2] packets2] fine].
  destruct IH as (H1 & H2 & H3 & H4 & H5 & H6 & H7). split_and!; try done; [congruence|]. cbn. lia.
Qed.

Lemma handle_all_ok host i packets m :
  (forall j s, host j = Some s -> script_ok s) -> Forall (fun p => header_fits (fst p) /\ Forall (fits 8) (snd p)) packets -> mux_ok m ->
  mux_ok (handle_all host i packets m) /\ (size (x_conns (handle_all host i packets m)) <= size (x_conns m) + length packets)%nat.
Proof.
  intros Hh Hp. revert i m. induction Hp as [|[hdr payload] packets [H1 H2] _ IH]; intros i m Hm; cbn [handle_all length]; [split; [done|lia]|].
  cbn [fst snd] in *. set (m1 := handle_guest hdr payload (host i) _).
  assert (Hm1 : mux_ok m1) by (apply handle_guest_ok; [by apply with_stats_ok|done|done|by apply Hh]).
  destruct (IH (S i) m1 Hm1) as [H3 H4]. split; [done|]. etrans; [exact H4|].
  pose proof (handle_guest_size hdr payload (host i) (with_stats (count_tx (Z.of_nat (length payload))) m)) as Hs. fold m1 in Hs. cbn [with_stats x_conns] in Hs. lia.
Qed.

Lemma chains_length mem fuel q : (length (chains mem fuel q).1.2 <= fuel)%nat.
Proof.
  revert q. induction fuel as [|fuel IH]; intros q; cbn [chains]; [done|]. destruct (pop mem q) as [q' [c| |]]; [|cbn; lia..].
  specialize (IH q'). destruct (chains mem fuel q') as [[q'' cs] fin]. cbn in *. lia.
Qed.

Lemma process_tx_ok host w mem irq :
  (forall j s, host j = Some s -> script_ok s) -> worker_ok w -> bm_inv mem ->
  let '(w', mem', _, fine) := process_tx host w mem irq in
  worker_ok w' /\ bm_inv mem' /\ fine = true /\
  Z.of_nat (size (x_conns (w_muxer w'))) <= Z.of_nat (size (x_conns (w_muxer w))) + 2 ^ 16.
Proof.
  intros Hh Hw Hm. pose proof Hw as [Hx Hr Ht]. unfold process_tx. destruct (w_tx w) as [b|] eqn:Eb.
  2:{ split; [done|]. split; [done|]. split; [done|]. lia. }
  destruct (chains_keeps mem CHAINS (bd_queue b) Hm (Ht b eq_refl)) as [Hq Hcs]. pose proof (chains_length mem CHAINS (bd_queue b)) as Hcl.
  destruct (chains mem CHAINS (bd_queue b)) as [[q cs] fin]. cbn [fst snd] in *.
  pose proof (tx_chains_ok mem q cs (w_muxer w) false [] Hm Hq Hcs Hx ltac:(constructor)) as H.
  destruct (tx_chains mem q cs (w_muxer w) false []) as [[[[[q1 mem1] m1] completed] packets] fine].
  destruct H as (Hq1 & Hm1 & Hx1 & Hc1 & -> & Hp & Hl). destruct (handle_all_ok host 0 packets m1 Hh Hp Hx1) as [Hx2 Hs2].
  assert (Hn : wf_queue (if completed then notification_needed q1 mem1 else (q1, false)).1).
  { destruct completed; [by apply notification_keeps|done]. }
  destruct (if completed then notification_needed q1 mem1 else (q1, false)) as [q2 needed]. cbn [fst] in Hn.
  assert (Hch : Z.of_nat CHAINS = 2 ^ 16) by (unfold CHAINS; apply Z2Nat.id; lia).
  split; [split; cbn; [done|done|by intros x [= <-]]|]. split; [done|]. split; [done|]. cbn [w_muxer]. rewrite Hc1 in Hs2. cbn [length] in Hl. lia.
Qed.

Lemma write_bufs_ok mem bufs bytes : bm_inv mem -> Forall buf_ok bufs -> Forall (fits 8) bytes -> bm_inv (write_bufs mem bufs bytes).2.
Proof.
  intros Hm Hb. revert mem bytes Hm. induction Hb as [|b bufs (Ha & _) _ IH]; intros mem bytes Hm Hf; cbn [write_bufs]; [done|].
  destruct bytes as [|x bytes]; [done|]. destruct (bm_write mem _ _) as [m'|] eqn:E; [|done].
  destruct (bm_write_spec _ _ _ _ Hm Ha (Forall_take _ _ _ Hf) E) as (Hm' & _). apply IH; [done|by apply Forall_drop].
Qed.

Lemma write_rx_ok mem c hdr payload :
  bm_inv mem -> chain_ok c -> Forall (fits 8) payload -> bm_inv (write_rx mem c hdr payload).2.
Proof.
  intros Hm [_ _ Hw] Hp. unfold write_rx.
  pose proof (write_bufs_ok mem (c_writable c) (encode hdr ++ payload) Hm Hw (proj2 (Forall_app _ _ _) (conj (header_bytes hdr) Hp))) as H.
  by destruct (write_bufs mem (c_writable c) (encode hdr ++ payload)) as [[|] m'].
Qed.

Lemma rx_rounds_ok fuel now mem q m completed :
  bm_inv mem -> wf_queue q -> mux_ok m ->
  let '(mem', q', m', _, _, fine) := rx_rounds fuel now mem q m completed in
  bm_inv mem' /\ wf_queue q' /\ mux_ok m' /\ size (x_conns m') = size (x_conns m) /\ fine = true.
Proof.
  revert mem q m completed. induction fuel as [|fuel IH]; intros mem q m completed Hm Hq Hx; cbn [rx_rounds]; [by split_and!|].
  destruct (negb (has_rx m)); [by split_and!|]. pose proof (pop_keeps mem q Hm Hq) as Hp.
  destruct (pop mem q) as [q1 [c| |]]; [|by split_and!|done]. destruct Hp as [Hq1 Hc].
  destruct (_ || _).
  - pose proof (add_used_keeps mem q1 (c_head c) 0 Hm Hq1) as Ha. destruct (add_used q1 mem (c_head c) 0) as [[q2 mem2] [b| |]]; try done.
    destruct Ha as (Hq2 & Hm2 & _). by apply IH.
  - set (max := Z.to_nat _). assert (Hmax : Z.of_nat max <= MAX_PAYLOAD) by (subst max; unfold MAX_PAYLOAD; lia). clearbody max.
    pose proof (next_rx_ok max now m Hx Hmax) as Hn. destruct (next_rx max now m) as [[[hdr payload]|] m1]; destruct Hn as (Hx1 & Hs1 & _ & Hn).
    + destruct Hn as (Hpk & _ & _). pose proof (write_rx_ok mem c hdr payload Hm Hc (pk_bytes _ _ _ Hpk)) as Hm2.
      destruct (write_rx mem c hdr payload) as [used mem2]. cbn [snd] in Hm2.
      pose proof (add_used_keeps mem2 q1 (c_head c) used Hm2 Hq1) as Ha. destruct (add_used q1 mem2 (c_head c) used) as [[q3 mem3] [b| |]]; try done.
      destruct Ha as (Hq3 & Hm3 & _). set (m2 := if 0 <? used then _ else _).
      assert (Hx2 : mux_ok m2 /\ size (x_conns m2) = size (x_conns m)) by (subst m2; destruct (0 <? used); split; try done; by apply with_stats_ok).
      clearbody m2. destruct Hx2 as [Hx2 Hs2]. specialize (IH mem3 q3 m2 (completed || b) Hm3 Hq3 Hx2).
      destruct (rx_rounds fuel now mem3 q3 m2 (completed || b)) as [[[[[mem4 q4] m4] c4] f4] fine]. destruct IH as (? & ? & ? & ? & ?).
      split_and!; try done. congruence.
    + pose proof (add_used_keeps mem q1 (c_head c) 0 Hm Hq1) as Ha. destruct (add_used q1 mem (c_head c) 0) as [[q2 mem2] [b| |]]; try done.
      destruct Ha as (Hq2 & Hm2 & _). by split_and!.
Qed.

Lemma deliver_rx_ok fuel now w mem irq :
  worker_ok w -> bm_inv mem ->
  let '(w', mem', _, fine) := deliver_rx fuel now w mem irq in
  worker_ok w' /\ bm_inv mem' /\ fine = true /\ size (x_conns (w_muxer w')) = size (x_conns (w_muxer w)).
Proof.
  intros Hw Hm. pose proof Hw as [Hx Hr Ht]. unfold deliver_rx. destruct (w_rx w) as [b|] eqn:Eb; [|by split_and!].
  pose proof (rx_rounds_ok fuel now mem (bd_queue b) (w_muxer w) false Hm (Hr b eq_refl) Hx) as H.
  destruct (rx_rounds fuel now mem (bd_queue b) (w_muxer w) false) as [[[[[mem1 q1] m1] completed] fin] fine]. destruct H as (Hm1 & Hq1 & Hx1 & Hs1 & ->).
  assert (Hn : wf_queue (if completed then notification_needed q1 mem1 else (q1, false)).1).
  { destruct completed; [by apply notification_keeps|done]. }
  destruct (if completed then notification_needed q1 mem1 else (q1, false)) as [q2 needed]. cbn [fst] in Hn.
  split; [split; cbn; [done|by intros x [= <-]|done]|]. by split_and!.
Qed.

(** The worker is safe against its guest: from a sound state, a round of
    the worker on any notification, reset or timer, with any rings and packets
    in guest memory and any answers of the host, ends without a panic and leaves
    the connection table, both queues and guest memory sound. *)
Theorem vsock_worker_safe fuel k host accepted now w mem irq :
  worker_ok w -> bm_inv mem -> kick_ok k -> (forall j s, host j = Some s -> script_ok s) ->
  Forall (fun ps => fits 32 (fst ps) /\ script_ok (snd ps)) accepted ->
  Z.of_nat (size (x_conns (w_muxer w))) + 2 ^ 16 + Z.of_nat (length accepted) < 2 ^ 31 ->
  exists w' mem' irq', round fuel k host accepted now w mem irq = Some (w', mem', irq', true) /\ worker_ok w' /\ bm_inv mem'.
Proof.
  intros Hw Hm Hk Hh Ha Hs. assert (Hreset : worker_ok (worker_reset w)) by (by destruct Hw as [[] _ _]; split; [split|..]).
  assert (Hgo : forall w0, worker_ok w0 -> w_muxer w0 = w_muxer w ->
    exists w' mem' irq', (let '(w, mem, irq, fine) := process_tx host w0 mem irq in
      m ← poll_host accepted now (w_muxer w);
      let '(w, mem, irq, fine') := deliver_rx fuel now {| w_muxer := m; w_rx := w_rx w; w_tx := w_tx w |} mem irq in
      Some (w, mem, irq, fine && fine')) = Some (w', mem', irq', true) /\ worker_ok w' /\ bm_inv mem').
  { intros w0 Hw0 Ew. pose proof (process_tx_ok host w0 mem irq Hh Hw0 Hm) as H.
    destruct (process_tx host w0 mem irq) as [[[w1 mem1] irq1] fine]. destruct H as (Hw1 & Hm1 & -> & Hs1). rewrite Ew in Hs1.
    pose proof Hw1 as [Hx1 Hr1 Ht1]. destruct (accept_all_ok accepted now (w_muxer w1) Hx1 Ha) as (m2 & E2 & Hx2 & _); [lia|].
    unfold poll_host. rewrite E2. cbn [mbind option_bind]. destruct (poll_keys_ok now (keys (x_conns m2)) m2 Hx2) as (Hx3 & _ & _).
    set (m3 := foldl _ _ _) in *.
    pose proof (deliver_rx_ok fuel now {| w_muxer := m3; w_rx := w_rx w1; w_tx := w_tx w1 |} mem1 irq1 ltac:(by split) Hm1) as H.
    destruct (deliver_rx fuel now _ mem1 irq1) as [[[w4 mem4] irq4] fine']. destruct H as (Hw4 & Hm4 & -> & _). by exists w4, mem4, irq4. }
  destruct k as [n| |]; cbn [round].
  - apply Hgo; [by apply bind_ok|]. unfold bind. by repeat case_match.
  - by exists (worker_reset w), mem, irq.
  - by apply Hgo.
Qed.
End worker_facts.

(** ** Leases *)

Lemma find_free_spec fuel cid set :
  match find_free fuel cid set with
  | Some c => cid <= c < CID_ANY /\ c ∉ set /\ forall x, cid <= x < c -> x ∈ set
  | None => forall x, cid <= x < Z.min CID_ANY (cid + Z.of_nat fuel) -> x ∈ set
  end.
Proof.
  revert cid. induction fuel as [|fuel IH]; intros cid; cbn [find_free]; [lia|].
  destruct (Z.leb_spec CID_ANY cid); [lia|]. case_bool_decide as Hin.
  - specialize (IH (cid + 1)). destruct (find_free fuel (cid + 1) set) as [c|].
    + destruct IH as (H1 & H2 & H3). split; [lia|]. split; [done|]. intros x Hx. destruct (decide (x = cid)) as [->|]; [done|]. apply H3. lia.
    + intros x Hx. destruct (decide (x = cid)) as [->|]; [done|]. apply IH. lia.
  - split; [lia|]. split; [done|]. lia.
Qed.

(** Leases are exclusive: a granted CID is a guest CID nobody holds, is
    the requested one or the lowest free one, and is held until it is released;
    a refusal changes nothing and happens only for a reserved or held CID. *)
Theorem cid_lease_spec requested set :
  match acquire requested set with
  | (Ok cid, set') => FIRST_GUEST_CID <= cid < CID_ANY /\ cid ∉ set /\ set' = {[ cid ]} ∪ set /\ release cid set' = set /\
      match requested with Some r => cid = r | None => forall x, FIRST_GUEST_CID <= x < cid -> x ∈ set end
  | (Err (BadCid cid), set') => requested = Some cid /\ set' = set /\ ~ (FIRST_GUEST_CID <= cid < CID_ANY)
  | (Err (CidInUse cid), set') => requested = Some cid /\ set' = set /\ cid ∈ set
  | (Err NoFreeCid, set') => requested = None /\ set' = set
  end.
Proof.
  unfold acquire. destruct requested as [cid|].
  - destruct (Z.leb_spec FIRST_GUEST_CID cid), (Z.ltb_spec cid CID_ANY); cbn [andb negb]; try (split_and!; [done|done|lia]).
    case_bool_decide; [done|]. split_and!; try done; try lia. unfold release. set_solver.
  - pose proof (find_free_spec (S (size set)) FIRST_GUEST_CID set) as H. destruct (find_free _ _ _) as [cid|]; cbn [ok_or]; [|done].
    destruct H as (H1 & H2 & H3). split; [done|]. split; [done|]. split; [done|]. split; [unfold release; set_solver|done].
Qed.

(** ** A short conversation *)

(** Guest port 1025 connects to host port 5000, sends three bytes, and the host
    answers with two and closes. *)
Definition sample_header (op len buf_alloc fwd_cnt : Z) : Header :=
  {| v_src_cid := 3; v_dst_cid := 2; v_src_port := 1025; v_dst_port := 5000; v_len := len; v_kind := 1; v_op := op; v_flags := 0;
     v_buf_alloc := buf_alloc; v_fwd_cnt := fwd_cnt |}.
Definition sample_stream : Stream :=
  {| s_reads := [RIntr; RData [104; 105]; RData []]; s_writes := [WAccept 1; WIntr; WAccept 5]; s_out := []; s_shut := false; s_shut_ok := true |}.
Definition sample_stats : VsockStats :=
  {| vs_tx_packets := 0; vs_tx_bytes := 0; vs_rx_packets := 0; vs_rx_bytes := 0; vs_connections := 0; vs_resets := 0; vs_dropped := 0 |}.
Definition sample_open : list MuxOp := [MGuest (sample_header OP_REQUEST 0 100 0) [] (Some sample_stream); MRx 64 0].
Definition sample_talk : list MuxOp :=
  [MGuest (sample_header OP_RW 3 100 0) [97; 98; 99] None; MPoll [] 5; MRx 1 6; MRx 64 7].
Definition sample_table : Muxer := match mux_run sample_open (muxer_new 3 sample_stats) with Some (m, _) => m | None => muxer_new 3 sample_stats end.

Lemma sample_header_fits op len alloc fwd : fits 16 op -> fits 32 len -> fits 32 alloc -> fits 32 fwd -> header_fits (sample_header op len alloc fwd).
Proof. intros H1 H2 H3 H4. split; cbn; try done; fits_closed. Qed.

Lemma sample_script : script_ok sample_stream.
Proof.
  unfold script_ok. cbn [sample_stream s_reads]. apply Forall_cons; [done|].
  apply Forall_cons; [|apply Forall_cons; apply Forall_nil].
  apply Forall_cons; [fits_closed|]. apply Forall_cons; [fits_closed|apply Forall_nil].
Qed.

Lemma sample_talk_ok : Forall mux_op_ok (sample_open ++ sample_talk).
Proof.
  unfold sample_open, sample_talk. cbn [app].
  apply Forall_cons.
  { split; [apply sample_header_fits; fits_closed|]. split; [apply Forall_nil|]. intros s [= <-]. apply sample_script. }
  apply Forall_cons; [cbn; unfold MAX_PAYLOAD; lia|].
  apply Forall_cons.
  { split; [apply sample_header_fits; fits_closed|]. split; [|done]. do 3 (apply Forall_cons; [fits_closed|]). apply Forall_nil. }
  apply Forall_cons; [apply Forall_nil|]. do 2 (apply Forall_cons; [cbn; unfold MAX_PAYLOAD; lia|]). apply Forall_nil.
Qed.

Lemma sample_table_ok : mux_ok sample_table.
Proof.
  pose proof sample_talk_ok as H. rewrite Forall_app in H.
  destruct (mux_run_total sample_open (muxer_new 3 sample_stats)) as (m & outs & E & Hm & _); [by apply muxer_new_ok|apply H|vm_compute; reflexivity|].
  unfold sample_table. by rewrite E.
Qed.

Lemma vsock_table_invariant_witness :
  exists m outs, mux_run (sample_open ++ sample_talk) (muxer_new 3 sample_stats) = Some (m, outs) /\ mux_ok m /\
    Forall (fun p => packet_ok 3 (fst p) (snd p)) outs.
Proof. apply (vsock_table_invariant 3 sample_stats (sample_open ++ sample_talk)); [done|apply sample_talk_ok|vm_compute; reflexivity]. Defined.

Lemma vsock_stream_integrity_witness :
  exists m c, track (5000, 1025) sample_talk sample_table = Some (m, [97; 98; 99], [104; 105]) /\
    x_conns m !! (5000, 1025) = Some c /\ s_out (k_stream c) ++ k_to_host c = [97; 98; 99] /\ k_to_guest c = [].
Proof.
  pose proof sample_talk_ok as H. rewrite Forall_app in H.
  destruct (x_conns sample_table !! (5000, 1025)) as [c0|] eqn:E0; [|vm_compute in E0; discriminate E0].
  destruct (track (5000, 1025) sample_talk sample_table) as [[[m sent] delivered]|] eqn:Et; [|vm_compute in Et; discriminate Et].
  destruct (vsock_stream_integrity (5000, 1025) sample_talk sample_table c0 m sent delivered sample_table_ok (proj2 H) ltac:(vm_compute; reflexivity) E0 Et)
    as (c & Hc & H1 & H2).
  vm_compute in E0. injection E0 as <-. vm_compute in Et. injection Et as <- <- <-. vm_compute in Hc. injection Hc as <-.
  do 2 eexists. split; [reflexivity|]. split; [vm_compute; reflexivity|]. split; [exact H1|reflexivity].
Defined.

Lemma vsock_rx_progress_witness :
  exists p m', next_rx 64 7 (push_control (rst_header sample_table 5000 1025 1) sample_table) = (Some p, m') /\
    (rx_total m' < rx_total (push_control (rst_header sample_table 5000 1025 1) sample_table))%nat.
Proof.
  pose proof (vsock_rx_progress 64 7 (push_control (rst_header sample_table 5000 1025 1) sample_table)) as H.
  destruct (next_rx 64 7 _) as [[p|] m'] eqn:E; [|vm_compute in E; discriminate E].
  exists p, m'. split; [done|]. apply H; [|unfold MAX_PAYLOAD; lia]. apply push_control_ok; [|done|exact sample_table_ok].
  apply rst_ok; [exact sample_table_ok|fits_closed..].
Defined.

Lemma vsock_worker_safe_witness :
  exists w' mem' irq', round 4 (KNotify {| n_index := 1; n_size := 4; n_desc := demo_base + 0x1000; n_avail := demo_base + 0x2000;
      n_used := demo_base + 0x3000; n_features := VIRTIO_F_INDIRECT_DESC |}) (fun _ => None) [] 9
    {| w_muxer := sample_table; w_rx := None; w_tx := None |} demo_ram VirtioIrq.new = Some (w', mem', irq', true) /\ worker_ok w' /\ bm_inv mem'.
Proof.
  apply (vsock_worker_safe 4 (KNotify _) (fun _ => None) [] 9 {| w_muxer := sample_table; w_rx := None; w_tx := None |} demo_ram VirtioIrq.new).
  - split; [exact sample_table_ok|done|done].
  - exact demo_ram_wf.
  - split; [fits_closed|]. split; [fits_closed|]. split; fits_closed.
  - done.
  - constructor.
  - vm_compute. reflexivity.
Defined.
