(* ===== verification/Tpm.v ===== *)
(** * The TPM's CRB interface

    Model of [ternvale-tpm/src]: the register window ([regs.rs], [crb.rs]),
    locality arbitration ([locality.rs]), one command from [START] to its
    response ([crb_command.rs]), where a command runs ([worker.rs]), what the
    backend is given and owes ([backend.rs], with its stub), and the redacted
    command history of crash reports ([history.rs], [redact.rs]).

    The backend is the trait [TpmBackend]: a class over the backend's state.  Its
    [execute] may also note a failure in the history it was attached to.  The
    worker thread is a component of the state with its two channels; it moves in
    steps of its own ([WorkerStep], [WorkerDies]), interleaved with the guest's
    accesses in any order.  [Instant::now] is a function from the number of the
    call to nanoseconds, and the state counts its calls.  [None] is a panic
    (a slice out of range); the invariant shows it cannot happen.  The swtpm
    process behind one backend, and the log lines, are not modelled. *)

From stdpp Require Import list gmap strings sets pretty.
From S2P Require Import Prelude.

(** ** Registers ([regs.rs]) *)

Definition LOCALITIES : Z := 5.
Definition LOCALITY_STRIDE : Z := 0x1000.
Definition CRB_WINDOW_SIZE : Z := LOCALITY_STRIDE * LOCALITIES.

Definition LOC_STATE : Z := 0x00.
Definition LOC_CTRL : Z := 0x08.
Definition LOC_STS : Z := 0x0c.
Definition INTF_ID_LO : Z := 0x30.
Definition INTF_ID_HI : Z := 0x34.
Definition CTRL_EXT_LO : Z := 0x38.
Definition CTRL_EXT_HI : Z := 0x3c.
Definition CTRL_REQ : Z := 0x40.
Definition CTRL_STS : Z := 0x44.
Definition CTRL_CANCEL : Z := 0x48.
Definition CTRL_START : Z := 0x4c.
Definition INT_ENABLE : Z := 0x50.
Definition INT_STS : Z := 0x54.
Definition CMD_SIZE : Z := 0x58.
Definition CMD_LADDR : Z := 0x5c.
Definition CMD_HADDR : Z := 0x60.
Definition RSP_SIZE : Z := 0x64.
Definition RSP_ADDR_LO : Z := 0x68.
Definition RSP_ADDR_HI : Z := 0x6c.
Definition DATA_BUFFER : Z := 0x80.
Definition DATA_BUFFER_SIZE : Z := LOCALITY_STRIDE - DATA_BUFFER.

Definition LOC_STATE_ESTABLISHED : Z := Z.shiftl 1 0.
Definition LOC_STATE_ASSIGNED : Z := Z.shiftl 1 1.
Definition LOC_STATE_ACTIVE_SHIFT : Z := 2.
Definition LOC_STATE_REG_VALID : Z := Z.shiftl 1 7.
Definition LOC_CTRL_REQUEST_ACCESS : Z := Z.shiftl 1 0.
Definition LOC_CTRL_RELINQUISH : Z := Z.shiftl 1 1.
Definition LOC_CTRL_SEIZE : Z := Z.shiftl 1 2.
Definition LOC_STS_GRANTED : Z := Z.shiftl 1 0.
Definition LOC_STS_BEEN_SEIZED : Z := Z.shiftl 1 1.
Definition CTRL_REQ_CMD_READY : Z := Z.shiftl 1 0.
Definition CTRL_REQ_GO_IDLE : Z := Z.shiftl 1 1.
Definition CTRL_STS_IDLE : Z := Z.shiftl 1 1.
Definition START_INVOKE : Z := Z.shiftl 1 0.
Definition INT_STS_CMD_COMPLETE : Z := Z.shiftl 1 0.

Definition TYPE_CRB_ACTIVE : Z := 1.
Definition VERSION_CRB : Z := Z.shiftl 1 4.
Definition CAP_LOCALITY : Z := Z.shiftl 1 8.
Definition CAP_XFER_64 : Z := Z.shiftl 3 11.
Definition CAP_CRB : Z := Z.shiftl 1 14.
Definition SELECTOR_CRB : Z := Z.shiftl 1 17.
Definition VID : Z := 0x1014.
Definition DID : Z := 0.
Definition INTF_ID_LOW : Z :=
  Z.lor (Z.lor (Z.lor (Z.lor (Z.lor TYPE_CRB_ACTIVE VERSION_CRB) CAP_LOCALITY) CAP_XFER_64) CAP_CRB)
    SELECTOR_CRB.
Definition INTF_ID_HIGH : Z := Z.lor VID (Z.shiftl DID 16).

(** ** Locality arbitration ([locality.rs]) *)

Record Localities := { l_active : option Z; l_pending : Z; l_seized : Z }.

Definition localities_new : Localities := {| l_active := None; l_pending := 0; l_seized := 0 |}.

(** [1 << locality] of a [u8]. *)
Definition bit (locality : Z) : Z := wrap 8 (Z.shiftl 1 locality).

Definition state (l : Localities) : Z :=
  let base := Z.lor LOC_STATE_ESTABLISHED LOC_STATE_REG_VALID in
  match l_active l with
  | Some locality =>
      Z.lor (Z.lor base LOC_STATE_ASSIGNED) (wrap 32 (Z.shiftl locality LOC_STATE_ACTIVE_SHIFT))
  | None => base
  end.

Definition status (l : Localities) (locality : Z) : Z :=
  let granted := if bool_decide (l_active l = Some locality) then LOC_STS_GRANTED else 0 in
  let seized := if negb (Z.land (l_seized l) (bit locality) =? 0) then LOC_STS_BEEN_SEIZED else 0 in
  Z.lor granted seized.

Definition grant (l : Localities) (locality : Z) : Localities :=
  {| l_active := Some locality; l_pending := l_pending l;
     l_seized := Z.land (l_seized l) (not_w 8 (bit locality)) |}.

Definition clear_pending (l : Localities) (locality : Z) : Localities :=
  {| l_active := l_active l; l_pending := Z.land (l_pending l) (not_w 8 (bit locality));
     l_seized := l_seized l |}.

Definition loc_request (l : Localities) (locality : Z) : Localities :=
  match l_active l with
  | None => grant l locality
  | Some active =>
      if active =? locality then l
      else {| l_active := l_active l; l_pending := Z.lor (l_pending l) (bit locality);
              l_seized := l_seized l |}
  end.

(** [(0..LOCALITIES).rev().find(..)] *)
Definition next_pending (pending : Z) : option Z :=
  snd <$> list_find (fun n => Z.land pending (bit n) <> 0) (reverse (seqZ 0 LOCALITIES)).

Definition relinquish (l : Localities) (locality : Z) : Localities :=
  let l := clear_pending l locality in
  if bool_decide (l_active l = Some locality) then
    let l := {| l_active := None; l_pending := l_pending l; l_seized := l_seized l |} in
    match next_pending (l_pending l) with
    | Some next => grant (clear_pending l next) next
    | None => l
    end
  else l.

Definition seize (l : Localities) (locality : Z) : Localities :=
  match l_active l with
  | None => grant l locality
  | Some active =>
      if active <? locality then
        let l := {| l_active := l_active l; l_pending := l_pending l;
                    l_seized := Z.lor (l_seized l) (bit active) |} in
        grant (clear_pending l locality) locality
      else l
  end.

Definition control (l : Localities) (locality value : Z) : Localities :=
  if LOCALITIES <=? locality then l
  else
    let l := if negb (Z.land value LOC_CTRL_RELINQUISH =? 0) then relinquish l locality else l in
    let l := if negb (Z.land value LOC_CTRL_REQUEST_ACCESS =? 0) then loc_request l locality else l in
    if negb (Z.land value LOC_CTRL_SEIZE =? 0) then seize l locality else l.

(** ** Commands and backends ([backend.rs]) *)

Definition HEADER_LEN : Z := 10.
Definition ST_NO_SESSIONS : Z := 0x8001.
Definition ST_SESSIONS : Z := 0x8002.
Definition ST_RSP_COMMAND : Z := 0x00c4.
Definition RC_FAILURE : Z := 0x101.
Definition RC_COMMAND_SIZE : Z := 0x142.
Definition RC_COMMAND_CODE : Z := 0x143.
Definition RC_BAD_TAG : Z := 0x01e.

Record CommandHeader := { h_tag : Z; h_size : Z; h_code : Z }.

#[export] Instance CommandHeader_eq_dec : EqDecision CommandHeader.
Proof. solve_decision. Defined.

Definition parse (bytes : list Z) : option CommandHeader :=
  header ← slice bytes 0 (Z.to_nat HEADER_LEN);
  Some {| h_tag := of_be (take 2 header); h_size := of_be (take 4 (drop 2 header));
          h_code := of_be (take 4 (drop 6 header)) |}.

Definition is_tpm2 (h : CommandHeader) : bool := (h_tag h =? ST_NO_SESSIONS) || (h_tag h =? ST_SESSIONS).

Definition error_response (tag code : Z) : list Z :=
  be_bytes 2 tag ++ be_bytes 4 HEADER_LEN ++ be_bytes 4 code.

Definition header_error (command : list Z) : option (list Z) :=
  match parse command with
  | None => Some (error_response ST_NO_SESSIONS RC_COMMAND_SIZE)
  | Some header =>
      if negb (is_tpm2 header) then Some (error_response ST_RSP_COMMAND RC_BAD_TAG)
      else if negb (h_size header =? Z.of_nat (length command)) then
        Some (error_response ST_NO_SESSIONS RC_COMMAND_SIZE)
      else None
  end.

(** The trait: a name, whether [execute] waits on the host, and [execute], which
    answers and may note why the backend failed. *)
Class TpmBackend (B : Type) := {
  be_name : B -> string;
  host_io : B -> bool;
  execute : B -> Z -> list Z -> list Z * option string * B;
}.

(** [Vec<u8>]: what a backend answers is bytes. *)
Class TpmBackendTyped (B : Type) `{TpmBackend B} : Prop :=
  execute_typed : forall b locality command, Forall (fits 8) (execute b locality command).1.1.

Definition StubBackend : Type := Z.

#[export] Instance StubBackend_TpmBackend : TpmBackend StubBackend := {|
  be_name := fun _ => "stub"%string;
  host_io := fun _ => false;
  execute := fun b _ command =>
    (default (error_response ST_NO_SESSIONS RC_COMMAND_CODE) (header_error command), None, add_w 64 b 1);
|}.

(** ** What may leave the VM ([redact.rs]) *)

Definition PUBLIC_COMMANDS : list Z :=
  [0x142; 0x143; 0x144; 0x145; 0x165; 0x169; 0x173; 0x17A; 0x17C; 0x17E; 0x181; 0x18A].

Definition bytes_are_public (header : option CommandHeader) : bool :=
  match header with
  | Some h => (h_tag h =? ST_NO_SESSIONS) && bool_decide (h_code h ∈ PUBLIC_COMMANDS)
  | None => false
  end.

(** [command_name]: the table of known command codes. *)
Definition COMMAND_NAMES : list (Z * string) :=
  [(0x11F, "NV_UndefineSpaceSpecial"%string); (0x120, "EvictControl"%string);
   (0x121, "HierarchyControl"%string); (0x122, "NV_UndefineSpace"%string);
   (0x124, "ChangeEPS"%string); (0x125, "ChangePPS"%string); (0x126, "Clear"%string);
   (0x127, "ClearControl"%string); (0x128, "ClockSet"%string);
   (0x129, "HierarchyChangeAuth"%string); (0x12A, "NV_DefineSpace"%string);
   (0x12B, "PCR_Allocate"%string); (0x12C, "PCR_SetAuthPolicy"%string);
   (0x12D, "PP_Commands"%string); (0x12E, "SetPrimaryPolicy"%string);
   (0x130, "ClockRateAdjust"%string); (0x131, "CreatePrimary"%string);
   (0x132, "NV_GlobalWriteLock"%string); (0x133, "GetCommandAuditDigest"%string);
   (0x134, "NV_Increment"%string); (0x135, "NV_SetBits"%string); (0x136, "NV_Extend"%string);
   (0x137, "NV_Write"%string); (0x138, "NV_WriteLock"%string);
   (0x139, "DictionaryAttackLockReset"%string); (0x13A, "DictionaryAttackParameters"%string);
   (0x13B, "NV_ChangeAuth"%string); (0x13C, "PCR_Event"%string); (0x13D, "PCR_Reset"%string);
   (0x13E, "SequenceComplete"%string); (0x142, "IncrementalSelfTest"%string);
   (0x143, "SelfTest"%string); (0x144, "Startup"%string); (0x145, "Shutdown"%string);
   (0x146, "StirRandom"%string); (0x147, "ActivateCredential"%string);
   (0x148, "Certify"%string); (0x149, "PolicyNV"%string); (0x14A, "CertifyCreation"%string);
   (0x14B, "Duplicate"%string); (0x14C, "GetTime"%string);
   (0x14D, "GetSessionAuditDigest"%string); (0x14E, "NV_Read"%string);
   (0x14F, "NV_ReadLock"%string); (0x150, "ObjectChangeAuth"%string);
   (0x151, "PolicySecret"%string); (0x152, "Rewrap"%string); (0x153, "Create"%string);
   (0x154, "ECDH_ZGen"%string); (0x155, "HMAC"%string); (0x156, "Import"%string);
   (0x157, "Load"%string); (0x158, "Quote"%string); (0x159, "RSA_Decrypt"%string);
   (0x15B, "HMAC_Start"%string); (0x15C, "SequenceUpdate"%string); (0x15D, "Sign"%string);
   (0x15E, "Unseal"%string); (0x160, "PolicySigned"%string); (0x161, "ContextLoad"%string);
   (0x162, "ContextSave"%string); (0x163, "ECDH_KeyGen"%string);
   (0x164, "EncryptDecrypt"%string); (0x165, "FlushContext"%string);
   (0x167, "LoadExternal"%string); (0x168, "MakeCredential"%string);
   (0x169, "NV_ReadPublic"%string); (0x16A, "PolicyAuthorize"%string);
   (0x16B, "PolicyAuthValue"%string); (0x16C, "PolicyCommandCode"%string);
   (0x16D, "PolicyCounterTimer"%string); (0x16E, "PolicyCpHash"%string);
   (0x16F, "PolicyLocality"%string); (0x170, "PolicyNameHash"%string);
   (0x171, "PolicyOR"%string); (0x172, "PolicyTicket"%string); (0x173, "ReadPublic"%string);
   (0x174, "RSA_Encrypt"%string); (0x176, "StartAuthSession"%string);
   (0x177, "VerifySignature"%string); (0x178, "ECC_Parameters"%string);
   (0x17A, "GetCapability"%string); (0x17B, "GetRandom"%string);
   (0x17C, "GetTestResult"%string); (0x17D, "Hash"%string); (0x17E, "PCR_Read"%string);
   (0x17F, "PolicyPCR"%string); (0x180, "PolicyRestart"%string); (0x181, "ReadClock"%string);
   (0x182, "PCR_Extend"%string); (0x183, "PCR_SetAuthValue"%string);
   (0x184, "NV_Certify"%string); (0x185, "EventSequenceComplete"%string);
   (0x186, "HashSequenceStart"%string); (0x189, "PolicyGetDigest"%string);
   (0x18A, "TestParms"%string); (0x18B, "Commit"%string); (0x18C, "PolicyPassword"%string);
   (0x191, "CreateLoaded"%string); (0x193, "EncryptDecrypt2"%string)].

Definition command_name (code : Z) : option string :=
  snd <$> (snd <$> list_find (fun e => e.1 = code) COMMAND_NAMES).

(** ** The command history ([history.rs]) *)

Definition TPM_HISTORY_LEN : nat := 256.
Definition TPM_HISTORY_BYTES : nat := 256.

Record TpmExchange := {
  ex_seq : Z;
  ex_at_ms : Z;
  ex_locality : Z;
  ex_tag : option Z;
  ex_code : option Z;
  ex_command_len : Z;
  ex_rc : Z;
  ex_response_len : nat;
  ex_elapsed_us : Z;
  ex_command : option (list Z);
  ex_response : option (list Z);
}.

Record BackendFailure := { f_seq : Z; f_at_ms : Z; f_reason : string }.

Record TpmHistory := {
  h_backend : string;
  h_started : Z;
  h_capacity : nat;
  h_entries : list TpmExchange;
  h_total : Z;
  h_failure : option BackendFailure;
}.

(** [Instant::elapsed] in a unit of [unit] nanoseconds, [as u64]. *)
Definition elapsed (since now unit : Z) : Z := wrap 64 (Z.max 0 (now - since) / unit).

Definition history_new (backend : string) (capacity : nat) (now : Z) : TpmHistory :=
  {| h_backend := backend; h_started := now; h_capacity := Nat.max capacity 1; h_entries := [];
     h_total := 0; h_failure := None |}.

Definition keep (public : bool) (bytes : list Z) : option (list Z) :=
  if public then Some (take (Nat.min (length bytes) TPM_HISTORY_BYTES) bytes) else None.

Definition record (h : TpmHistory) (now locality : Z) (header : option CommandHeader)
    (command response : list Z) (elapsed_us : Z) : TpmHistory :=
  let public := bytes_are_public header in
  let rc := match slice response 6 4 with Some b => of_be b | None => 0 end in
  let total := add_w 64 (h_total h) 1 in
  let exchange :=
    {| ex_seq := total; ex_at_ms := elapsed (h_started h) now 1000000; ex_locality := locality;
       ex_tag := h_tag <$> header; ex_code := h_code <$> header;
       ex_command_len := match header with Some hd => h_size hd | None => 0 end;
       ex_rc := rc; ex_response_len := length response; ex_elapsed_us := elapsed_us;
       ex_command := keep public command; ex_response := keep public response |} in
  let entries :=
    if bool_decide (length (h_entries h) = h_capacity h) then drop 1 (h_entries h) else h_entries h in
  {| h_backend := h_backend h; h_started := h_started h; h_capacity := h_capacity h;
     h_entries := entries ++ [exchange]; h_total := total; h_failure := h_failure h |}.

Definition note_failure (h : TpmHistory) (now : Z) (reason : string) : TpmHistory :=
  match h_failure h with
  | Some _ => h
  | None =>
      {| h_backend := h_backend h; h_started := h_started h; h_capacity := h_capacity h;
         h_entries := h_entries h; h_total := h_total h;
         h_failure := Some {| f_seq := add_w 64 (h_total h) 1;
                              f_at_ms := elapsed (h_started h) now 1000000; f_reason := reason |} |}
  end.

(** *** The report text *)

Definition NL : string := String (Ascii.ascii_of_nat 10) EmptyString.

Definition DIGITS : list string :=
  ["0"; "1"; "2"; "3"; "4"; "5"; "6"; "7"; "8"; "9"; "a"; "b"; "c"; "d"; "e"; "f"]%string.

Definition hex_nibble (d : Z) : string := default EmptyString (DIGITS !! Z.to_nat d).

Definition hex (bytes : list Z) : string :=
  foldr (fun byte out => (hex_nibble (Z.shiftr byte 4) +:+ hex_nibble (Z.land byte 0xf) +:+ out)%string)
    EmptyString bytes.

(** [{:#x}] of an unsigned value below [16 ^ fuel]. *)
Fixpoint hex_digits (fuel : nat) (v : Z) : string :=
  match fuel with
  | O => EmptyString
  | S fuel => ((if (v <? 16)%Z then EmptyString else hex_digits fuel (v / 16)%Z) +:+ hex_nibble (v mod 16)%Z)%string
  end.
Definition hex_alt (v : Z) : string := ("0x" +:+ hex_digits 16 v)%string.

(** [(+N more bytes)] when only [kept] of [len] bytes were kept. *)
Definition more (len kept : Z) : string :=
  (if (kept <? len)%Z then "(+" +:+ pretty (len - kept)%Z +:+ " more bytes)" else EmptyString)%string.

Definition render_entry (e : TpmExchange) : string :=
  let code := match ex_code e with Some c => hex_alt c | None => "none" end in
  let name := default "unknown" (c ← ex_code e; command_name c) in
  ("seq=" +:+ pretty (ex_seq e) +:+ " t_ms=" +:+ pretty (ex_at_ms e) +:+ " locality=" +:+
   pretty (ex_locality e) +:+ " code=" +:+ code +:+ " name=" +:+ name +:+ " cmd_len=" +:+
   pretty (ex_command_len e) +:+ " rc=" +:+ hex_alt (ex_rc e) +:+ " rsp_len=" +:+
   pretty (Z.of_nat (ex_response_len e)) +:+ " us=" +:+ pretty (ex_elapsed_us e) +:+
   match ex_command e, ex_response e with
   | Some cmd, Some rsp =>
       " cmd=" +:+ hex cmd +:+ more (ex_command_len e) (Z.of_nat (length cmd)) +:+ " rsp=" +:+ hex rsp +:+
       more (Z.of_nat (ex_response_len e)) (Z.of_nat (length rsp))
   | _, _ => " bytes=redacted"
   end +:+ NL)%string.

Definition BACKEND_FAILED : string := "# backend failed: ".

Definition render (h : TpmHistory) : string :=
  ("# TPM commands: backend " +:+ h_backend h +:+ ", " +:+ pretty (h_total h) +:+
   " since the VM started, the last " +:+ pretty (Z.of_nat (length (h_entries h))) +:+
   " below (oldest first)." +:+ NL +:+
   match h_failure h with
   | Some f =>
       BACKEND_FAILED +:+ f_reason f +:+ "; seq=" +:+ pretty (f_seq f) +:+
       " and every later command got TPM_RC_FAILURE (rc=0x101) from Ternvale, not from the TPM (t_ms=" +:+
       pretty (f_at_ms f) +:+ ")" +:+ NL
   | None => EmptyString
   end +:+
   "# Bytes are shown only for session-less commands that carry no secrets (startup, self test," +:+ NL +:+
   "# capabilities, PCR reads, public areas, flushes); every other command keeps only its code," +:+ NL +:+
   "# sizes and response code. t_ms counts from TPM creation; us is START to response." +:+ NL +:+
   match h_entries h with [] => "# no TPM commands yet" +:+ NL | _ => EmptyString end +:+
   foldr (fun e out => render_entry e +:+ out) EmptyString (h_entries h))%string.

(** ** The CRB ([worker.rs], [crb.rs], [crb_command.rs]) *)

Record Job := { j_locality : Z; j_command : list Z }.

(** The worker thread and its channels: [w_backend] is [None] once the thread is
    gone, [w_jobs] what was sent and not taken, [w_done] what it answered and the
    CRB has not collected. *)
Record Worker (B : Type) := { w_backend : option B; w_jobs : list Job; w_done : list (list Z) }.
Arguments w_backend {B}.
Arguments w_jobs {B}.
Arguments w_done {B}.

Inductive Runner (B : Type) :=
  | Inline (backend : B)
  | OnWorker (worker : Worker B).
Arguments Inline {B}.
Arguments OnWorker {B}.

Record Pending := { p_locality : Z; p_header : option CommandHeader; p_since : Z }.

Record TpmCrb (B : Type) := {
  c_base : Z;
  c_localities : Localities;
  c_idle : bool;
  c_cancel : Z;
  c_int_enable : Z;
  c_int_sts : Z;
  c_buffer : list Z;
  c_runner : Runner B;
  c_pending : option Pending;
  c_commands : Z;
  c_history : TpmHistory;
  c_calls : nat;
}.
Arguments c_base {B}.
Arguments c_localities {B}.
Arguments c_idle {B}.
Arguments c_cancel {B}.
Arguments c_int_enable {B}.
Arguments c_int_sts {B}.
Arguments c_buffer {B}.
Arguments c_runner {B}.
Arguments c_pending {B}.
Arguments c_commands {B}.
Arguments c_history {B}.
Arguments c_calls {B}.

Inductive TpmError :=
  | Misaligned (base : Z)
  | Overflow (base : Z)
  | WorkerError.

(** [(locality, register offset in its page)] for a valid access. *)
Definition check_access (offset size : Z) : option (Z * Z) :=
  let in_window :=
    match checked_add 64 offset size with Some e => e <=? CRB_WINDOW_SIZE | None => false end in
  if negb (bool_decide (size ∈ [1; 2; 4; 8])) || negb (offset mod size =? 0) || negb in_window then None
  else Some (wrap 8 (offset / LOCALITY_STRIDE), offset mod LOCALITY_STRIDE).

Section crb.
Context {B : Type} `{TpmBackend B}.
Variable clock : nat -> Z.

Definition set_localities (c : TpmCrb B) (l : Localities) : TpmCrb B :=
  {| c_base := c_base c; c_localities := l; c_idle := c_idle c; c_cancel := c_cancel c;
     c_int_enable := c_int_enable c; c_int_sts := c_int_sts c; c_buffer := c_buffer c;
     c_runner := c_runner c; c_pending := c_pending c; c_commands := c_commands c;
     c_history := c_history c; c_calls := c_calls c |}.

Definition set_ctrl (c : TpmCrb B) (idle : bool) (cancel int_enable int_sts : Z) : TpmCrb B :=
  {| c_base := c_base c; c_localities := c_localities c; c_idle := idle; c_cancel := cancel;
     c_int_enable := int_enable; c_int_sts := int_sts; c_buffer := c_buffer c;
     c_runner := c_runner c; c_pending := c_pending c; c_commands := c_commands c;
     c_history := c_history c; c_calls := c_calls c |}.

Definition set_buffer (c : TpmCrb B) (buffer : list Z) : TpmCrb B :=
  {| c_base := c_base c; c_localities := c_localities c; c_idle := c_idle c; c_cancel := c_cancel c;
     c_int_enable := c_int_enable c; c_int_sts := c_int_sts c; c_buffer := buffer;
     c_runner := c_runner c; c_pending := c_pending c; c_commands := c_commands c;
     c_history := c_history c; c_calls := c_calls c |}.

Definition set_run (c : TpmCrb B) (runner : Runner B) (pending : option Pending) (history : TpmHistory)
    (calls : nat) : TpmCrb B :=
  {| c_base := c_base c; c_localities := c_localities c; c_idle := c_idle c; c_cancel := c_cancel c;
     c_int_enable := c_int_enable c; c_int_sts := c_int_sts c; c_buffer := c_buffer c;
     c_runner := runner; c_pending := pending; c_commands := c_commands c;
     c_history := history; c_calls := calls |}.

(** [Instant::now]. *)
Definition now (c : TpmCrb B) : Z * TpmCrb B :=
  (clock (c_calls c), set_run c (c_runner c) (c_pending c) (c_history c) (S (c_calls c))).

(** A backend's call of [note_failure]. *)
Definition note (c : TpmCrb B) (reason : option string) : TpmCrb B :=
  match reason with
  | None => c
  | Some reason =>
      let '(t, c) := now c in
      set_run c (c_runner c) (c_pending c) (note_failure (c_history c) t reason) (c_calls c)
  end.

(** [Runner::run]: the response now, or [None] while a worker runs it. *)
Definition run (c : TpmCrb B) (locality : Z) (command : list Z) : option (list Z) * TpmCrb B :=
  match c_runner c with
  | Inline backend =>
      let '(response, reason, backend) := execute backend locality command in
      (Some response, note (set_run c (Inline backend) (c_pending c) (c_history c) (c_calls c)) reason)
  | OnWorker w =>
      match w_backend w with
      | Some _ =>
          let w := {| w_backend := w_backend w;
                      w_jobs := w_jobs w ++ [{| j_locality := locality; j_command := command |}];
                      w_done := w_done w |} in
          (None, set_run c (OnWorker w) (c_pending c) (c_history c) (c_calls c))
      | None => (Some (error_response ST_NO_SESSIONS RC_FAILURE), c)
      end
  end.

(** [Runner::poll] *)
Definition poll (c : TpmCrb B) : option (list Z) * TpmCrb B :=
  match c_runner c with
  | Inline _ => (None, c)
  | OnWorker w =>
      match w_done w with
      | response :: rest =>
          let w := {| w_backend := w_backend w; w_jobs := w_jobs w; w_done := rest |} in
          (Some response, set_run c (OnWorker w) (c_pending c) (c_history c) (c_calls c))
      | [] =>
          match w_backend w with
          | Some _ => (None, c)
          | None => (Some (error_response ST_NO_SESSIONS RC_FAILURE), c)
          end
      end
  end.

(** [(HEADER_LEN..=DATA_BUFFER_SIZE).contains(..)] *)
Definition size_ok (size : Z) : bool := (HEADER_LEN <=? size) && (size <=? DATA_BUFFER_SIZE).

Definition run_size (header : option CommandHeader) : option Z :=
  h ← header; if size_ok (h_size h) then Some (h_size h) else None.

(** The response the CRB hands to the guest for what the backend returned. *)
Definition checked_response (response : list Z) : list Z :=
  let declared := of_be <$> slice response 2 4 in
  if negb (size_ok (Z.of_nat (length response)))
     || negb (bool_decide (declared = Some (Z.of_nat (length response))))
  then error_response ST_NO_SESSIONS RC_FAILURE
  else response.

Definition complete (c : TpmCrb B) (locality : Z) (header : option CommandHeader) (response : list Z)
    (since : Z) : option (TpmCrb B) :=
  let response := checked_response response in
  let ran := default HEADER_LEN (run_size header) in
  let '(t, c) := now c in
  let elapsed_us := elapsed since t 1000 in
  command ← slice (c_buffer c) 0 (Z.to_nat ran);
  let '(t, c) := now c in
  let history := record (c_history c) t locality header command response elapsed_us in
  _ ← slice (c_buffer c) 0 (length response);
  _ ← slice response 6 4;
  Some
    {| c_base := c_base c; c_localities := c_localities c; c_idle := c_idle c; c_cancel := c_cancel c;
       c_int_enable := c_int_enable c; c_int_sts := Z.lor (c_int_sts c) INT_STS_CMD_COMPLETE;
       c_buffer := response ++ drop (length response) (c_buffer c);
       c_runner := c_runner c; c_pending := c_pending c; c_commands := add_w 64 (c_commands c) 1;
       c_history := history; c_calls := c_calls c |}.

Definition start (c : TpmCrb B) (locality : Z) : option (TpmCrb B) :=
  if negb (bool_decide (l_active (c_localities c) = Some locality)) then Some c
  else if bool_decide (is_Some (c_pending c)) then Some c
  else
    let '(since, c) := now c in
    let header := parse (c_buffer c) in
    match run_size header with
    | Some size =>
        command ← slice (c_buffer c) 0 (Z.to_nat size);
        let '(response, c) := run c locality command in
        match response with
        | Some response => complete c locality header response since
        | None =>
            Some (set_run c (c_runner c)
                    (Some {| p_locality := locality; p_header := header; p_since := since |})
                    (c_history c) (c_calls c))
        end
    | None =>
        _ ← slice (c_buffer c) 0 (Z.to_nat HEADER_LEN);
        complete c locality header (error_response ST_NO_SESSIONS RC_COMMAND_SIZE) since
    end.

Definition settle (c : TpmCrb B) : option (TpmCrb B) :=
  match c_pending c with
  | None => Some c
  | Some pending =>
      let '(response, c) := poll c in
      match response with
      | None => Some c
      | Some response =>
          let c := set_run c (c_runner c) None (c_history c) (c_calls c) in
          complete c (p_locality pending) (p_header pending) response (p_since pending)
      end
  end.

Definition buffer_gpa (c : TpmCrb B) (locality : Z) : Z :=
  wrap 64 (c_base c + locality * LOCALITY_STRIDE + DATA_BUFFER).

Definition dword (c : TpmCrb B) (locality reg : Z) : Z :=
  if reg =? LOC_STATE then state (c_localities c)
  else if reg =? LOC_STS then status (c_localities c) locality
  else if reg =? INTF_ID_LO then INTF_ID_LOW
  else if reg =? INTF_ID_HI then INTF_ID_HIGH
  else if (reg =? CTRL_STS) && c_idle c then CTRL_STS_IDLE
  else if (reg =? CTRL_START) && bool_decide (is_Some (c_pending c)) then START_INVOKE
  else if reg =? CTRL_CANCEL then c_cancel c
  else if reg =? INT_ENABLE then c_int_enable c
  else if reg =? INT_STS then c_int_sts c
  else if (reg =? CMD_SIZE) || (reg =? RSP_SIZE) then wrap 32 DATA_BUFFER_SIZE
  else if (reg =? CMD_LADDR) || (reg =? RSP_ADDR_LO) then wrap 32 (buffer_gpa c locality)
  else if (reg =? CMD_HADDR) || (reg =? RSP_ADDR_HI) then wrap 32 (Z.shiftr (buffer_gpa c locality) 32)
  else 0.

(** [TpmCrb::request]: a [CTRL_REQ] write. *)
Definition ctrl_request (c : TpmCrb B) (value : Z) : TpmCrb B :=
  match negb (Z.land value CTRL_REQ_CMD_READY =? 0), negb (Z.land value CTRL_REQ_GO_IDLE =? 0) with
  | true, true => c
  | true, false => set_ctrl c false (c_cancel c) (c_int_enable c) (c_int_sts c)
  | false, true => set_ctrl c true (c_cancel c) (c_int_enable c) (c_int_sts c)
  | false, false => c
  end.

Definition write_dword (c : TpmCrb B) (locality reg value mask : Z) : option (TpmCrb B) :=
  let value := Z.land value mask in
  if reg =? LOC_CTRL then Some (set_localities c (control (c_localities c) locality value))
  else if reg =? CTRL_REQ then Some (ctrl_request c value)
  else if reg =? CTRL_CANCEL then
    Some (set_ctrl c (c_idle c)
            (Z.lor (Z.land (c_cancel c) (not_w 32 mask)) (Z.land value START_INVOKE))
            (c_int_enable c) (c_int_sts c))
  else if reg =? CTRL_START then
    if negb (Z.land value START_INVOKE =? 0) then start c locality else Some c
  else if reg =? INT_ENABLE then
    Some (set_ctrl c (c_idle c) (c_cancel c)
            (Z.lor (Z.land (c_int_enable c) (not_w 32 mask)) value) (c_int_sts c))
  else if reg =? INT_STS then
    Some (set_ctrl c (c_idle c) (c_cancel c) (c_int_enable c)
            (Z.land (c_int_sts c) (not_w 32 value)))
  else Some c.

Definition crb_read (c : TpmCrb B) (offset size : Z) : option (Z * TpmCrb B) :=
  c ← settle c;
  match check_access offset size with
  | None => Some (0, c)
  | Some (locality, reg) =>
      if DATA_BUFFER <=? reg then
        bytes ← slice (c_buffer c) (Z.to_nat (reg - DATA_BUFFER)) (Z.to_nat size);
        Some (foldr (fun byte value => Z.lor (wrap 64 (Z.shiftl value 8)) byte) 0 bytes, c)
      else
        Some (foldr (fun i value =>
                let at_ := reg + i in
                let byte := Z.land (Z.shiftr (dword c locality (Z.land at_ (not_w 64 3)))
                                      (Z.land at_ 3 * 8)) 0xff in
                Z.lor (wrap 64 (Z.shiftl value 8)) byte) 0 (seqZ 0 size), c)
  end.

Definition crb_write (c : TpmCrb B) (offset size value : Z) : option (TpmCrb B) :=
  c ← settle c;
  match check_access offset size with
  | None => Some c
  | Some (locality, reg) =>
      let dw := Z.land reg (not_w 64 3) in
      if bool_decide (is_Some (c_pending c)) && ((DATA_BUFFER <=? reg) || (dw =? CTRL_START)) then Some c
      else if DATA_BUFFER <=? reg then
        let at_ := Z.to_nat (reg - DATA_BUFFER) in
        _ ← slice (c_buffer c) at_ (Z.to_nat size);
        let bytes := take (Z.to_nat size) (le_bytes 8 value) in
        Some (set_buffer c (take at_ (c_buffer c) ++ bytes ++ drop (at_ + Z.to_nat size) (c_buffer c)))
      else
        let lane := Z.land reg 3 * 8 in
        let mask :=
          if size =? 8 then 2 ^ 64 - 1 else wrap 64 (Z.shiftl (Z.shiftl 1 (size * 8) - 1) lane) in
        let shifted := wrap 64 (Z.shiftl value lane) in
        c ← write_dword c locality dw (wrap 32 shifted) (wrap 32 mask);
        if size =? 8 then write_dword c locality (dw + 4) (wrap 32 (Z.shiftr value 32)) (2 ^ 32 - 1)
        else Some c
  end.

(** The worker thread takes a job, executes it and sends the response. *)
Definition worker_step (c : TpmCrb B) : TpmCrb B :=
  match c_runner c with
  | OnWorker {| w_backend := Some backend; w_jobs := job :: jobs; w_done := done |} =>
      let '(response, reason, backend) := execute backend (j_locality job) (j_command job) in
      note (set_run c (OnWorker {| w_backend := Some backend; w_jobs := jobs; w_done := done ++ [response] |})
              (c_pending c) (c_history c) (c_calls c)) reason
  | _ => c
  end.

(** The worker thread panics: the jobs it had are lost, its answers are not. *)
Definition worker_dies (c : TpmCrb B) : TpmCrb B :=
  match c_runner c with
  | OnWorker w =>
      set_run c (OnWorker {| w_backend := None; w_jobs := []; w_done := w_done w |})
        (c_pending c) (c_history c) (c_calls c)
  | Inline _ => c
  end.

(** [TpmCrb::new]; [spawned] is whether the host started the worker thread. *)
Definition crb_new (base : Z) (backend : B) (spawned : bool) : result TpmError (TpmCrb B) :=
  if negb (base mod LOCALITY_STRIDE =? 0) then Err (Misaligned base)
  else if bool_decide (checked_add 64 base CRB_WINDOW_SIZE = None) then Err (Overflow base)
  else
    let history := history_new (be_name backend) TPM_HISTORY_LEN (clock 0) in
    runner ←
      (if host_io backend then
         if spawned then Ok (OnWorker {| w_backend := Some backend; w_jobs := []; w_done := [] |})
         else Err WorkerError
       else Ok (Inline backend));
    Ok {| c_base := base; c_localities := localities_new; c_idle := true; c_cancel := 0;
          c_int_enable := 0; c_int_sts := 0; c_buffer := replicate (Z.to_nat DATA_BUFFER_SIZE) 0;
          c_runner := runner; c_pending := None; c_commands := 0; c_history := history; c_calls := 1 |}.

(** What can happen to a CRB: an access from a vCPU, or a move of the worker. *)
Inductive Event :=
  | GuestRead (offset size : Z)
  | GuestWrite (offset size value : Z)
  | WorkerStep
  | WorkerDies.

Definition step (c : TpmCrb B) (e : Event) : option (option Z * TpmCrb B) :=
  match e with
  | GuestRead offset size => '(v, c) ← crb_read c offset size; Some (Some v, c)
  | GuestWrite offset size value => c ← crb_write c offset size value; Some (None, c)
  | WorkerStep => Some (None, worker_step c)
  | WorkerDies => Some (None, worker_dies c)
  end.

Fixpoint runs (c : TpmCrb B) (es : list Event) : option (list (option Z) * TpmCrb B) :=
  match es with
  | [] => Some ([], c)
  | e :: es =>
      '(o, c) ← step c e;
      '(os, c) ← runs c es;
      Some (o :: os, c)
  end.

End crb.

(** ** Locality arbitration refines an owner, a set of waiters and a set of losers *)

Record Arb := { a_owner : option Z; a_waiting : gset Z; a_seized : gset Z }.

Inductive arb_relinquish (n : Z) : Arb -> Arb -> Prop :=
  | rq_other a :
      a_owner a <> Some n ->
      arb_relinquish n a {| a_owner := a_owner a; a_waiting := a_waiting a ∖ {[n]}; a_seized := a_seized a |}
  | rq_free a :
      a_owner a = Some n -> a_waiting a ∖ {[n]} = ∅ ->
      arb_relinquish n a {| a_owner := None; a_waiting := ∅; a_seized := a_seized a |}
  | rq_next a m :
      a_owner a = Some n -> m ∈ a_waiting a ∖ {[n]} -> (forall k, k ∈ a_waiting a ∖ {[n]} -> k <= m) ->
      arb_relinquish n a
        {| a_owner := Some m; a_waiting := a_waiting a ∖ {[n]} ∖ {[m]}; a_seized := a_seized a ∖ {[m]} |}.

Inductive arb_request (n : Z) : Arb -> Arb -> Prop :=
  | rs_free a :
      a_owner a = None ->
      arb_request n a {| a_owner := Some n; a_waiting := a_waiting a; a_seized := a_seized a ∖ {[n]} |}
  | rs_own a : a_owner a = Some n -> arb_request n a a
  | rs_wait a m :
      a_owner a = Some m -> m <> n ->
      arb_request n a {| a_owner := Some m; a_waiting := a_waiting a ∪ {[n]}; a_seized := a_seized a |}.

Inductive arb_seize (n : Z) : Arb -> Arb -> Prop :=
  | sz_free a :
      a_owner a = None ->
      arb_seize n a {| a_owner := Some n; a_waiting := a_waiting a; a_seized := a_seized a ∖ {[n]} |}
  | sz_above a m :
      a_owner a = Some m -> m < n ->
      arb_seize n a {| a_owner := Some n; a_waiting := a_waiting a ∖ {[n]};
                       a_seized := (a_seized a ∪ {[m]}) ∖ {[n]} |}
  | sz_refused a m : a_owner a = Some m -> n <= m -> arb_seize n a a.

(** One [TPM_LOC_CTRL_n] write: what its bits ask for, in the code's order. *)
Definition arb_if (asked : bool) (op : Arb -> Arb -> Prop) (a b : Arb) : Prop :=
  if asked then op a b else a = b.
Definition arb_control (n value : Z) (a b : Arb) : Prop :=
  exists a1 a2,
    arb_if (Z.testbit value 1) (arb_relinquish n) a a1 /\
    arb_if (Z.testbit value 0) (arb_request n) a1 a2 /\
    arb_if (Z.testbit value 2) (arb_seize n) a2 b.

Definition bits_set (p : Z) : gset Z := list_to_set (filter (fun n => Z.testbit p n = true) (seqZ 0 LOCALITIES)).
Definition arb_of (l : Localities) : Arb :=
  {| a_owner := l_active l; a_waiting := bits_set (l_pending l); a_seized := bits_set (l_seized l) |}.

(** The owner is a locality that neither waits nor counts as seized, and with no
    owner nobody waits. *)
Record loc_ok (l : Localities) : Prop := {
  lk_pending : fits 5 (l_pending l);
  lk_seized : fits 5 (l_seized l);
  lk_free : l_active l = None -> l_pending l = 0;
  lk_owner : forall a, l_active l = Some a ->
    0 <= a < LOCALITIES /\ a ∉ bits_set (l_pending l) /\ a ∉ bits_set (l_seized l);
}.

Lemma elem_of_bits_set p n : n ∈ bits_set p <-> 0 <= n < 5 /\ Z.testbit p n = true.
Proof.
  unfold bits_set, LOCALITIES. rewrite elem_of_list_to_set, list_elem_of_filter, elem_of_seqZ. naive_solver lia.
Qed.

Lemma bit_shift n : 0 <= n < 5 -> bit n = 2 ^ n.
Proof.
  intros Hn. unfold bit. rewrite Z.shiftl_1_l. apply wrap_small. split; [lia|].
  apply Z.pow_lt_mono_r; lia.
Qed.

Lemma loc_bit_fits n : 0 <= n < 5 -> fits 5 (bit n).
Proof. intros Hn. rewrite bit_shift by done. split; [lia|]. apply Z.pow_lt_mono_r; lia. Qed.

Lemma land_bit_zero p n : 0 <= n < 5 -> Z.land p (bit n) = 0 <-> Z.testbit p n = false.
Proof.
  intros Hn. rewrite bit_shift by done. split; intros Hz.
  - apply (f_equal (fun x => Z.testbit x n)) in Hz.
    by rewrite Z.land_spec, Z.pow2_bits_true, Z.bits_0, andb_true_r in Hz by lia.
  - apply Z.bits_inj'. intros i Hi. rewrite Z.land_spec, Z.bits_0.
    destruct (decide (i = n)) as [->|]; [by rewrite Hz|].
    by rewrite Z.pow2_bits_false, andb_false_r by done.
Qed.

Lemma clear_bit p n i :
  0 <= n < 5 -> 0 <= i < 8 ->
  Z.testbit (Z.land p (not_w 8 (bit n))) i = Z.testbit p i && negb (i =? n).
Proof.
  intros Hn Hi. rewrite Z.land_spec, not_w_testbit.
  2: apply (fits_weaken 5); [lia | by apply loc_bit_fits]. 2: lia.
  rewrite bit_shift by done. destruct (Z.eqb_spec i n) as [->|].
  - rewrite Z.pow2_bits_true by lia. f_equal. lia.
  - rewrite Z.pow2_bits_false by done. replace (i <? 8) with true by lia. done.
Qed.

Lemma cleared_set p n : 0 <= n < 5 -> bits_set (Z.land p (not_w 8 (bit n))) = bits_set p ∖ {[n]}.
Proof.
  intros Hn. apply set_eq. intros i. rewrite elem_of_difference, !elem_of_bits_set, elem_of_singleton.
  split.
  - intros [Hi Hb]. rewrite clear_bit in Hb by lia. apply andb_prop in Hb as [Hb Hne]. split; [done|lia].
  - intros [[Hi Hb] Hne]. split; [done|]. rewrite clear_bit, Hb by lia. lia.
Qed.

Lemma added_set p n : 0 <= n < 5 -> bits_set (Z.lor p (bit n)) = bits_set p ∪ {[n]}.
Proof.
  intros Hn. apply set_eq. intros i. rewrite elem_of_union, !elem_of_bits_set, elem_of_singleton.
  rewrite bit_shift, Z.lor_spec by done. destruct (decide (i = n)) as [->|].
  - rewrite Z.pow2_bits_true, orb_true_r by lia. naive_solver lia.
  - rewrite Z.pow2_bits_false, orb_false_r by done. naive_solver.
Qed.

Lemma cleared_fits p n : 0 <= n < 5 -> fits 5 p -> fits 5 (Z.land p (not_w 8 (bit n))).
Proof.
  intros Hn Hp. apply land_fits_l; [done|]. apply not_w_fits. apply (fits_weaken 5); [lia | by apply loc_bit_fits].
Qed.

Lemma no_bits p : fits 5 p -> bits_set p = ∅ -> p = 0.
Proof.
  intros Hp Hs. apply Z.bits_inj'. intros i Hi. rewrite Z.bits_0.
  destruct (decide (i < 5)); [|apply (testbit_high p 5); [exact Hp|lia]].
  destruct (Z.testbit p i) eqn:Hb; [|done]. exfalso.
  assert (i ∈ bits_set p) as Hin by (apply elem_of_bits_set; split; [lia|done]). rewrite Hs in Hin. set_solver.
Qed.

Lemma no_bits_0 : bits_set 0 = ∅.
Proof. apply set_eq. intros i. rewrite elem_of_bits_set, Z.bits_0. set_solver. Qed.

(** The scan from the top finds the highest waiter. *)
Lemma next_pending_spec p :
  match next_pending p with
  | Some m => m ∈ bits_set p /\ forall k, k ∈ bits_set p -> k <= m
  | None => bits_set p = ∅
  end.
Proof.
  unfold next_pending. change (reverse (seqZ 0 LOCALITIES)) with [4; 3; 2; 1; 0].
  assert (forall n, 0 <= n < 5 -> Z.land p (bit n) <> 0 <-> n ∈ bits_set p) as Hin.
  { intros n Hn. rewrite land_bit_zero, elem_of_bits_set by done. destruct (Z.testbit p n); naive_solver. }
  assert (forall n, n ∈ bits_set p -> 0 <= n < 5) as Hrange by (intros n Hn; apply elem_of_bits_set in Hn; lia).
  destruct (list_find _ _) as [[i m]|] eqn:Hf; cbn.
  - apply list_find_Some in Hf as (Hl & Hb & Hbefore).
    assert (0 <= m < 5) as Hm by (do 5 (destruct i as [|i]; [simplify_eq/=; lia|]); done).
    split; [by apply Hin|]. intros k Hk. pose proof (Hrange k Hk).
    destruct (decide (k <= m)); [done|]. exfalso.
    apply (Hbefore (Z.to_nat (4 - k)) k); [| |by apply Hin].
    + assert (k = 1 \/ k = 2 \/ k = 3 \/ k = 4) as [-> | [-> | [-> | ->]]] by lia; done.
    + do 5 (destruct i as [|i]; [simplify_eq/=; lia|]). done.
  - apply list_find_None in Hf. apply set_eq. intros k. split; [|set_solver]. intros Hk.
    pose proof (Hrange k Hk) as Hr. exfalso.
    rewrite list.Forall_forall in Hf. apply (Hf k); [|by apply Hin].
    assert (k = 0 \/ k = 1 \/ k = 2 \/ k = 3 \/ k = 4) as Hk' by lia. set_solver.
Qed.

Lemma relinquish_refines l n :
  loc_ok l -> 0 <= n < 5 ->
  loc_ok (relinquish l n) /\ arb_relinquish n (arb_of l) (arb_of (relinquish l n)).
Proof.
  intros Hl Hn. unfold relinquish. pose proof (cleared_set (l_pending l) n Hn) as Hc.
  pose proof (cleared_fits (l_pending l) n Hn (lk_pending _ Hl)) as Hcf.
  cbn [clear_pending l_active l_pending l_seized]. case_bool_decide as Ha.
  - pose proof (next_pending_spec (Z.land (l_pending l) (not_w 8 (bit n)))) as Hs.
    destruct (next_pending _) as [m|] eqn:Hm.
    + destruct Hs as [Hin Hmax].
      assert (0 <= m < 5) as Hmr by (apply elem_of_bits_set in Hin; lia).
      split.
      * split; cbn.
        -- by apply cleared_fits.
        -- apply cleared_fits; [done|]. apply Hl.
        -- done.
        -- intros a [= <-]. rewrite !cleared_set by done. unfold LOCALITIES. set_solver by lia.
      * unfold arb_of at 2. cbn. rewrite !cleared_set by done. rewrite Hc in Hin, Hmax.
        by apply (rq_next n (arb_of l)).
    + split.
      * split; cbn; [done|apply Hl| |done]. intros _. by apply no_bits.
      * unfold arb_of at 2. cbn. rewrite Hc in Hs. rewrite Hc, Hs. by apply (rq_free n (arb_of l)).
  - split.
    + split; cbn; [done|apply Hl| |].
      * intros Hf. rewrite (lk_free _ Hl Hf). apply Z.land_0_l.
      * intros a Hact. destruct (lk_owner _ Hl a Hact) as (? & ? & ?). rewrite Hc. set_solver.
    + unfold arb_of at 2. cbn. rewrite Hc. by apply (rq_other n (arb_of l)).
Qed.

Lemma granted_ok l n :
  0 <= n < 5 -> fits 5 (l_pending l) -> fits 5 (l_seized l) -> n ∉ bits_set (l_pending l) -> loc_ok (grant l n).
Proof.
  intros Hn Hp Hs Hnin. split; cbn; [done|by apply cleared_fits|done|].
  intros a [= <-]. rewrite cleared_set by done. unfold LOCALITIES. set_solver by lia.
Qed.

Lemma request_refines l n :
  loc_ok l -> 0 <= n < 5 ->
  loc_ok (loc_request l n) /\ arb_request n (arb_of l) (arb_of (loc_request l n)).
Proof.
  intros Hl Hn. unfold loc_request. destruct (l_active l) as [a|] eqn:Ha.
  - destruct (Z.eqb_spec a n) as [->|Hne]; [split; [done|]; by apply rs_own|].
    destruct (lk_owner _ Hl a Ha) as (Hr & Hp & Hs). split.
    + split; cbn; [apply lor_fits; [lia|apply Hl|by apply loc_bit_fits]|apply Hl|done|].
      intros b [= <-]. rewrite added_set by done. set_solver.
    + unfold arb_of at 2. cbn. rewrite added_set by done. by apply (rs_wait n (arb_of l) a).
  - split.
    + apply granted_ok; [done|apply Hl|apply Hl|]. rewrite (lk_free _ Hl Ha), no_bits_0. set_solver.
    + unfold arb_of at 2. cbn. rewrite cleared_set by done. by apply (rs_free n (arb_of l)).
Qed.

Lemma seize_refines l n :
  loc_ok l -> 0 <= n < 5 ->
  loc_ok (seize l n) /\ arb_seize n (arb_of l) (arb_of (seize l n)).
Proof.
  intros Hl Hn. unfold seize. destruct (l_active l) as [a|] eqn:Ha.
  - destruct (lk_owner _ Hl a Ha) as (Hr & Hp & Hs). unfold LOCALITIES in Hr.
    destruct (Z.ltb_spec a n); [|split; [done|]; by apply (sz_refused n (arb_of l) a)]. split.
    + apply granted_ok; cbn; [done|apply cleared_fits; [done|apply Hl]| |].
      * apply lor_fits; [lia|apply Hl|by apply loc_bit_fits].
      * rewrite cleared_set by done. set_solver.
    + unfold arb_of at 2. cbn. rewrite !cleared_set, added_set by done. by apply (sz_above n (arb_of l) a).
  - split.
    + apply granted_ok; [done|apply Hl|apply Hl|]. rewrite (lk_free _ Hl Ha), no_bits_0. set_solver.
    + unfold arb_of at 2. cbn. rewrite cleared_set by done. by apply (sz_free n (arb_of l)).
Qed.

Lemma land_pow2_neg v k : 0 <= k -> negb (Z.land v (Z.shiftl 1 k) =? 0) = Z.testbit v k.
Proof.
  intros Hk. rewrite Z.shiftl_1_l. destruct (Z.testbit v k) eqn:Hb.
  - destruct (Z.eqb_spec (Z.land v (2 ^ k)) 0) as [Hz|]; [|done].
    apply (f_equal (fun x => Z.testbit x k)) in Hz.
    by rewrite Z.land_spec, Z.pow2_bits_true, Z.bits_0, Hb in Hz by lia.
  - destruct (Z.eqb_spec (Z.land v (2 ^ k)) 0) as [|Hz]; [done|]. exfalso. apply Hz.
    apply Z.bits_inj'. intros i Hi. rewrite Z.land_spec, Z.bits_0.
    destruct (decide (i = k)) as [->|]; [by rewrite Hb|]. by rewrite Z.pow2_bits_false, andb_false_r by done.
Qed.

Lemma control_refines l n v :
  loc_ok l -> 0 <= n < 5 ->
  loc_ok (control l n v) /\ arb_control n v (arb_of l) (arb_of (control l n v)).
Proof.
  intros Hl Hn. unfold control. replace (LOCALITIES <=? n) with false by (unfold LOCALITIES; lia).
  unfold LOC_CTRL_RELINQUISH, LOC_CTRL_REQUEST_ACCESS, LOC_CTRL_SEIZE. rewrite !land_pow2_neg by lia.
  unfold arb_control, arb_if.
  assert (exists l1, (if Z.testbit v 1 then relinquish l n else l) = l1 /\ loc_ok l1 /\
    if Z.testbit v 1 then arb_relinquish n (arb_of l) (arb_of l1) else arb_of l = arb_of l1)
    as (l1 & -> & Hl1 & Hs1).
  { eexists; split; [reflexivity|]. destruct (Z.testbit v 1); [by apply relinquish_refines|done]. }
  assert (exists l2, (if Z.testbit v 0 then loc_request l1 n else l1) = l2 /\ loc_ok l2 /\
    if Z.testbit v 0 then arb_request n (arb_of l1) (arb_of l2) else arb_of l1 = arb_of l2)
    as (l2 & -> & Hl2 & Hs2).
  { eexists; split; [reflexivity|]. destruct (Z.testbit v 0); [by apply request_refines|done]. }
  split; [destruct (Z.testbit v 2); [by apply seize_refines|done]|].
  exists (arb_of l1), (arb_of l2). split_and!; [done|done|].
  destruct (Z.testbit v 2); [by apply seize_refines|done].
Qed.

Lemma loc_new_ok : loc_ok localities_new.
Proof. split; cbn; [done..|]. intros a Ha. discriminate. Qed.

(** [TPM_LOC_STATE] and [TPM_LOC_STS] say who owns the TPM and who lost it. *)
Definition owner_reported (l : Localities) : Prop :=
  match l_active l with
  | Some a => Z.testbit (state l) 1 = true /\ Z.land (Z.shiftr (state l) LOC_STATE_ACTIVE_SHIFT) 7 = a
  | None => Z.testbit (state l) 1 = false
  end /\
  forall n, 0 <= n < LOCALITIES ->
    (Z.testbit (status l n) 0 = true <-> l_active l = Some n) /\
    (Z.testbit (status l n) 1 = true <-> n ∈ bits_set (l_seized l)).

Lemma ok_owner_reported l : loc_ok l -> owner_reported l.
Proof.
  intros Hl. split.
  - unfold state. destruct (l_active l) as [a|] eqn:Ha; [|done].
    destruct (lk_owner _ Hl a Ha) as [Hr _]. unfold LOCALITIES in Hr.
    assert (a = 0 \/ a = 1 \/ a = 2 \/ a = 3 \/ a = 4) as [-> | [-> | [-> | [-> | ->]]]] by lia; done.
  - unfold LOCALITIES. intros n Hn. unfold status. split.
    + case_bool_decide; destruct (negb _); cbn; naive_solver.
    + rewrite elem_of_bits_set. pose proof (land_bit_zero (l_seized l) n Hn) as Hb.
      destruct (Z.eqb_spec (Z.land (l_seized l) (bit n)) 0) as [Hz|Hz]; case_bool_decide; cbn;
        destruct (Z.testbit (l_seized l) n); naive_solver.
Qed.

(** A run of the abstract arbiter over a list of control writes. *)
Fixpoint arb_run (ws : list (Z * Z)) (a b : Arb) : Prop :=
  match ws with
  | [] => a = b
  | (n, v) :: ws => exists a1, arb_control n v a a1 /\ arb_run ws a1 b
  end.

(** Whatever the guest writes to the [TPM_LOC_CTRL] registers of the five
    pages, the bit masks behave as the arbiter of the specification: one owner, a
    set of waiters and a set of localities that were seized.  A request is
    granted when nobody owns the TPM and waits otherwise, the owner's relinquish
    passes ownership to the highest waiter, only a higher locality seizes, and
    the loser is marked until it is granted again.  The owner never waits and is
    never marked, nobody waits while the TPM is free, and [TPM_LOC_STATE] and
    [TPM_LOC_STS] report exactly the owner and the marks. *)
Theorem tpm_locality_arbitration (ws : list (Z * Z)) :
  Forall (fun w => 0 <= w.1 < LOCALITIES) ws ->
  let l := foldl (fun l w => control l w.1 w.2) localities_new ws in
  loc_ok l /\ owner_reported l /\ arb_run ws (arb_of localities_new) (arb_of l).
Proof.
  cut (forall l0, loc_ok l0 -> Forall (fun w : Z * Z => 0 <= w.1 < LOCALITIES) ws ->
    let l := foldl (fun l w => control l w.1 w.2) l0 ws in
    loc_ok l /\ arb_run ws (arb_of l0) (arb_of l)).
  { intros Hgen Hws. destruct (Hgen localities_new loc_new_ok Hws). split_and!; auto using ok_owner_reported. }
  induction ws as [|[n v] ws IH]; intros l0 Hl0 Hws; [done|].
  apply Forall_cons_iff in Hws as [Hn Hws]. cbn in Hn.
  destruct (control_refines l0 n v Hl0 Hn) as [Hok Href].
  destruct (IH _ Hok Hws) as [Hend Hrun]. split; [done|]. by exists (arb_of (control l0 n v)).
Qed.

Lemma tpm_locality_arbitration_witness :
  let ws := [(0, 1); (1, 1); (2, 1); (3, 4); (3, 2)] in
  let l := foldl (fun l w => control l w.1 w.2) localities_new ws in
  l_active l = Some 2 /\ loc_ok l /\ owner_reported l /\ arb_run ws (arb_of localities_new) (arb_of l).
Proof.
  cbv zeta. split; [reflexivity|]. apply tpm_locality_arbitration. repeat (apply Forall_cons_2; [cbn; unfold LOCALITIES; lia|]).
  apply List.Forall_nil.
Defined.

(** ** Headers and responses *)

(** The header is in the first ten bytes. *)
Lemma parse_take bs n :
  (10 <= n)%nat -> (10 <= length bs)%nat -> parse (take n bs) = parse bs.
Proof.
  intros Hn Hl. unfold parse. change (Z.to_nat HEADER_LEN) with 10%nat.
  rewrite !slice_prefix by (rewrite ?length_take; lia). by rewrite take_take, Nat.min_l by lia.
Qed.

Lemma length_error_response tag code : length (error_response tag code) = 10%nat.
Proof. unfold error_response. by rewrite !length_app, !length_be_bytes. Qed.

Lemma error_response_fits tag code : Forall (fits 8) (error_response tag code).
Proof. unfold error_response. rewrite !Forall_app. auto using be_bytes_fits. Qed.

Definition response_ok (response : list Z) : Prop :=
  Forall (fits 8) response /\ HEADER_LEN <= Z.of_nat (length response) <= DATA_BUFFER_SIZE.

Lemma checked_response_ok response : Forall (fits 8) response -> response_ok (checked_response response).
Proof.
  intros Hf. unfold checked_response. destruct (size_ok _) eqn:Hs; cbn [negb orb].
  - unfold size_ok in Hs. apply andb_prop in Hs. case_bool_decide; cbn [negb orb].
    + split; [done|lia].
    + split; [apply error_response_fits|]. rewrite length_error_response. done.
  - split; [apply error_response_fits|]. rewrite length_error_response. done.
Qed.

Lemma run_size_Some header size :
  run_size header = Some size ->
  exists h, header = Some h /\ h_size h = size /\ HEADER_LEN <= size <= DATA_BUFFER_SIZE.
Proof.
  unfold run_size. destruct header as [h|]; cbn; [|done]. unfold size_ok. intros Hs.
  destruct (_ && _) eqn:Hb; [|done]. apply andb_prop in Hb. simplify_eq. exists h. split_and!; [done|done|lia|lia].
Qed.

Lemma ran_bounds header :
  10 <= default HEADER_LEN (run_size header) <= DATA_BUFFER_SIZE.
Proof.
  destruct (run_size header) as [size|] eqn:Hs; cbn; [|unfold HEADER_LEN, DATA_BUFFER_SIZE, LOCALITY_STRIDE, DATA_BUFFER; lia].
  by apply run_size_Some in Hs as (_ & _ & _ & ?).
Qed.

(** ** The history *)

(** What one kept exchange may show: bytes only of a session-less public
    command, at most 256 of each, and the command's bytes are those the recorded
    header was parsed from. *)
Record exchange_ok (e : TpmExchange) : Prop := {
  xk_public : is_Some (ex_command e) \/ is_Some (ex_response e) ->
    ex_tag e = Some ST_NO_SESSIONS /\ exists code, ex_code e = Some code /\ code ∈ PUBLIC_COMMANDS;
  xk_command : forall bs, ex_command e = Some bs ->
    (length bs <= TPM_HISTORY_BYTES)%nat /\
    exists h, parse bs = Some h /\ ex_tag e = Some (h_tag h) /\ ex_code e = Some (h_code h) /\
              ex_command_len e = h_size h;
  xk_response : forall bs, ex_response e = Some bs ->
    (length bs <= TPM_HISTORY_BYTES)%nat /\ (length bs <= ex_response_len e)%nat;
}.

(** The kept exchanges are the last ones, numbered up to the total. *)
Record history_ok (h : TpmHistory) : Prop := {
  hk_capacity : (0 < h_capacity h)%nat;
  hk_length : (length (h_entries h) <= h_capacity h)%nat;
  hk_total : fits 64 (h_total h);
  hk_seq : forall i e, h_entries h !! i = Some e ->
    ex_seq e = wrap 64 (h_total h - (Z.of_nat (length (h_entries h)) - 1 - Z.of_nat i));
  hk_entries : Forall exchange_ok (h_entries h);
}.

Lemma history_new_ok name capacity t : history_ok (history_new name capacity t).
Proof. split; cbn; [lia|lia|done|done|constructor]. Qed.

Lemma wrap_sub_l w a b : wrap w (wrap w a - b) = wrap w (a - b).
Proof. unfold wrap. by rewrite Zminus_mod_idemp_l. Qed.

Lemma record_entry_ok h t locality header command response us :
  (10 <= length command)%nat -> parse command = header ->
  exchange_ok
    {| ex_seq := add_w 64 (h_total h) 1; ex_at_ms := t; ex_locality := locality;
       ex_tag := h_tag <$> header; ex_code := h_code <$> header;
       ex_command_len := match header with Some hd => h_size hd | None => 0 end;
       ex_rc := match slice response 6 4 with Some b => of_be b | None => 0 end;
       ex_response_len := length response; ex_elapsed_us := us;
       ex_command := keep (bytes_are_public header) command;
       ex_response := keep (bytes_are_public header) response |}.
Proof.
  intros Hl Hp. split; cbn [ex_command ex_response ex_tag ex_code ex_command_len ex_response_len].
  - intros Hs. destruct (bytes_are_public header) eqn:Hpub; [|by destruct Hs as [[? ?]|[? ?]]].
    unfold bytes_are_public in Hpub. destruct header as [hd|]; [|done].
    apply andb_prop in Hpub as [Ht Hc]. apply Z.eqb_eq in Ht. apply bool_decide_eq_true in Hc. cbn.
    split; [by rewrite Ht|]. by exists (h_code hd).
  - intros bs Hk. unfold keep in Hk. destruct (bytes_are_public header) eqn:Hpub; [|done].
    simplify_eq. split; [rewrite length_take; lia|].
    unfold bytes_are_public in Hpub. destruct (parse command) as [hd|] eqn:Hpc; [|done].
    exists hd. split; [|done]. rewrite parse_take by (unfold TPM_HISTORY_BYTES; lia). done.
  - intros bs Hk. unfold keep in Hk. destruct (bytes_are_public header); [|done]. simplify_eq.
    rewrite length_take. lia.
Qed.

Lemma record_ok h t locality header command response us :
  history_ok h -> (10 <= length command)%nat -> parse command = header ->
  history_ok (record h t locality header command response us).
Proof.
  intros Hh Hl Hp. unfold record.
  set (entries := if bool_decide _ then _ else _).
  assert (exists k, entries = drop k (h_entries h) /\ (length entries < h_capacity h)%nat) as (k & He & Hlen).
  { subst entries. pose proof (hk_length _ Hh). pose proof (hk_capacity _ Hh). case_bool_decide.
    - exists 1%nat. split; [done|]. rewrite length_drop. lia.
    - exists 0%nat. split; [done|]. lia. }
  split; cbn [h_capacity h_entries h_total].
  - apply Hh.
  - rewrite length_app. cbn. lia.
  - by apply wrap_fits.
  - intros i e Hi. rewrite length_app. cbn [length]. apply lookup_app_Some in Hi as [Hi | [Hge Hi]].
    + assert (i < length entries)%nat as Hil by (apply lookup_lt_Some in Hi; done).
      rewrite He, lookup_drop in Hi. rewrite (hk_seq _ Hh _ _ Hi). unfold add_w.
      rewrite wrap_sub_l. rewrite He in Hil |- *. rewrite length_drop in *. f_equal. lia.
    + rewrite list_lookup_singleton_Some in Hi. destruct Hi as [Hz <-]. cbn [ex_seq].
      assert (i = length entries) as -> by lia. unfold add_w.
      rewrite wrap_sub_l. f_equal. lia.
  - apply Forall_app. split.
    + rewrite He. apply Forall_drop. apply Hh.
    + constructor; [|constructor]. by apply record_entry_ok.
Qed.

Lemma note_failure_ok h t reason : history_ok h -> history_ok (note_failure h t reason).
Proof. intros Hh. unfold note_failure. destruct (h_failure h); [done|]. split; apply Hh. Qed.

(** ** The invariant *)

Section invariant.
Context {B : Type} `{TpmBackendTyped B}.
Variable clock : nat -> Z.

(** At most one command is in flight, and it is the one in the buffer: either
    still in the worker's queue, or answered and not collected, or lost with the
    worker. *)
Definition flight_ok (c : TpmCrb B) : Prop :=
  match c_pending c, c_runner c with
  | None, Inline _ => True
  | None, OnWorker w => w_jobs w = [] /\ w_done w = []
  | Some _, Inline _ => False
  | Some p, OnWorker w =>
      0 <= p_locality p < LOCALITIES /\ p_header p = parse (c_buffer c) /\
      exists size, run_size (p_header p) = Some size /\
        ((is_Some (w_backend w) /\ w_done w = [] /\
          w_jobs w = [{| j_locality := p_locality p; j_command := take (Z.to_nat size) (c_buffer c) |}]) \/
         (w_jobs w = [] /\ exists r, w_done w = [r] /\ Forall (fits 8) r) \/
         (w_backend w = None /\ w_jobs w = [] /\ w_done w = []))
  end.

Record crb_ok (c : TpmCrb B) : Prop := {
  ck_base : 0 <= c_base c /\ c_base c + CRB_WINDOW_SIZE < 2 ^ 64;
  ck_localities : loc_ok (c_localities c);
  ck_cancel : fits 1 (c_cancel c);
  ck_int_enable : fits 32 (c_int_enable c);
  ck_int_sts : fits 1 (c_int_sts c);
  ck_length : length (c_buffer c) = Z.to_nat DATA_BUFFER_SIZE;
  ck_buffer : Forall (fits 8) (c_buffer c);
  ck_flight : flight_ok c;
  ck_history : history_ok (c_history c);
}.

Lemma run_keeps (c : TpmCrb B) runner pending history calls :
  crb_ok c -> flight_ok (set_run c runner pending history calls) -> history_ok history ->
  crb_ok (set_run c runner pending history calls).
Proof. intros Hc Hf Hh. split; cbn; try apply Hc; done. Qed.

Lemma note_keeps (c : TpmCrb B) reason : crb_ok c -> crb_ok (note clock c reason).
Proof.
  intros Hc. destruct reason as [reason|]; [|done]. cbn.
  apply run_keeps; [|apply Hc|apply note_failure_ok, Hc].
  apply run_keeps; [done|apply Hc|apply Hc].
Qed.

Lemma note_fields (c : TpmCrb B) reason :
  c_pending (note clock c reason) = c_pending c /\ c_runner (note clock c reason) = c_runner c /\
  c_buffer (note clock c reason) = c_buffer c /\ c_localities (note clock c reason) = c_localities c.
Proof. by destruct reason. Qed.

(** No command is in flight. *)
Definition settled (c : TpmCrb B) : Prop := c_pending c = None.

(** A completed command: its response is in the buffer, the rest of the buffer
    and the other registers are as they were. *)
Lemma complete_spec (c : TpmCrb B) locality header response since :
  crb_ok c -> settled c -> header = parse (c_buffer c) -> Forall (fits 8) response ->
  exists c', complete clock c locality header response since = Some c' /\ crb_ok c' /\ settled c' /\
    c_buffer c' = checked_response response ++ drop (length (checked_response response)) (c_buffer c) /\
    c_int_sts c' = 1 /\ c_commands c' = add_w 64 (c_commands c) 1 /\ c_runner c' = c_runner c /\
    c_localities c' = c_localities c.
Proof.
  intros Hc Hp Hh Hr. unfold complete, now. cbn [set_run c_buffer c_history c_base c_localities c_idle
    c_cancel c_int_enable c_int_sts c_runner c_pending c_commands c_calls].
  pose proof (ran_bounds header) as Hran. destruct (checked_response_ok response Hr) as [Hrf Hrl].
  pose proof (ck_length _ Hc) as Hlen. unfold HEADER_LEN in Hrl.
  rewrite slice_prefix by lia. cbn [mbind option_bind].
  rewrite slice_prefix by lia. rewrite slice_Some by lia. cbn [mbind option_bind].
  eexists. split; [reflexivity|].
  assert (fits 1 (c_int_sts c)) as His by apply Hc.
  split; [|split_and!; [done|done| |done..]].
  - split; cbn; try apply Hc.
    + apply lor_fits; [lia|done|done].
    + rewrite length_app, length_drop. lia.
    + apply Forall_app. split; [done|]. apply Forall_drop, Hc.
    + pose proof (ck_flight _ Hc) as Hf. unfold flight_ok in *. cbn. rewrite Hp in *. done.
    + apply record_ok; [apply Hc| |].
      * rewrite length_take. lia.
      * rewrite parse_take; [done| lia | lia].
  - cbn. unfold fits in His. assert (c_int_sts c = 0 \/ c_int_sts c = 1) as [-> | ->] by lia; done.
Qed.

Lemma runner_run_ok (c : TpmCrb B) locality command :
  crb_ok c -> settled c ->
  match run clock c locality command with
  | (Some response, c') =>
      crb_ok c' /\ settled c' /\ c_buffer c' = c_buffer c /\ c_localities c' = c_localities c /\
      Forall (fits 8) response
  | (None, c') =>
      exists w, c_runner c = OnWorker w /\ is_Some (w_backend w) /\
        c' = set_run c (OnWorker {| w_backend := w_backend w;
                 w_jobs := [{| j_locality := locality; j_command := command |}]; w_done := [] |})
               None (c_history c) (c_calls c)
  end.
Proof.
  intros Hc Hp. pose proof (ck_flight _ Hc) as Hf. unfold flight_ok in Hf. rewrite Hp in Hf.
  unfold run. destruct (c_runner c) as [b|w] eqn:Hrun.
  - pose proof (execute_typed b locality command) as Hty.
    destruct (execute b locality command) as [[response reason] b'] eqn:He.
    pose proof (note_fields (set_run c (Inline b') (c_pending c) (c_history c) (c_calls c)) reason)
      as (Hn1 & Hn2 & Hn3 & Hn4).
    unfold settled. rewrite Hn1, Hn3, Hn4. split_and!; [|done..].
    apply note_keeps. apply run_keeps; [done| |apply Hc]. unfold flight_ok. cbn. by rewrite Hp.
  - destruct Hf as [Hj Hd]. destruct (w_backend w) as [b|] eqn:Hb.
    + exists w. split; [done|]. split; [by rewrite Hb|]. rewrite Hj, Hd, Hp, Hb. done.
    + split_and!; try done. apply error_response_fits.
Qed.

Lemma set_run_twice (c : TpmCrb B) r1 p1 h1 k1 r p h k :
  set_run (set_run c r1 p1 h1 k1) r p h k = set_run c r p h k.
Proof. done. Qed.

Lemma now_keeps (c : TpmCrb B) : crb_ok c -> crb_ok (now clock c).2.
Proof. intros Hc. apply run_keeps; [done|apply Hc|apply Hc]. Qed.

Lemma start_ok (c : TpmCrb B) locality :
  crb_ok c -> 0 <= locality < LOCALITIES -> exists c', start clock c locality = Some c' /\ crb_ok c'.
Proof.
  intros Hc Hloc. unfold start. case_bool_decide; cbn [negb]; [|by eexists].
  case_bool_decide as Hpend; [by eexists|].
  assert (settled c) as Hset by (unfold settled; destruct (c_pending c); [exfalso; eauto|done]).
  pose proof (now_keeps c Hc) as Hc1. unfold now. cbn [snd now] in Hc1.
  set (c1 := set_run c _ _ _ _) in *. assert (settled c1) as Hset1 by done.
  pose proof (ck_length _ Hc1) as Hlen.
  destruct (run_size (parse (c_buffer c1))) as [size|] eqn:Hsize.
  - pose proof Hsize as Hsz. apply run_size_Some in Hsz as (h & _ & _ & Hb).
    rewrite slice_prefix by lia. cbn [mbind option_bind].
    pose proof (runner_run_ok c1 locality (take (Z.to_nat size) (c_buffer c1)) Hc1 Hset1) as Hr.
    destruct (run clock c1 locality _) as [[response|] c2].
    + destruct Hr as (Hc2 & Hs2 & Hb2 & _ & Hrf). rewrite <- Hb2.
      destruct (complete_spec c2 locality (parse (c_buffer c2)) response (clock (c_calls c)) Hc2 Hs2
        eq_refl Hrf) as (c' & He & Hc' & _). eauto.
    + destruct Hr as (w & Hrun & Hsome & ->). eexists. split; [reflexivity|].
      rewrite set_run_twice. apply run_keeps; [done|unfold flight_ok; cbn|apply Hc1].
      split_and!; [lia|lia|done|]. exists size. split; [done|]. by left.
  - rewrite slice_prefix by (unfold HEADER_LEN; rewrite Hlen; vm_compute; lia).
    destruct (complete_spec c1 locality (parse (c_buffer c1)) (error_response ST_NO_SESSIONS RC_COMMAND_SIZE)
      (clock (c_calls c)) Hc1 Hset1 eq_refl (error_response_fits _ _)) as (c' & He & Hc' & _). eauto.
Qed.

Lemma poll_ok (c : TpmCrb B) p :
  crb_ok c -> c_pending c = Some p ->
  match poll c with
  | (Some response, c') =>
      Forall (fits 8) response /\ c_buffer c' = c_buffer c /\
      crb_ok (set_run c' (c_runner c') None (c_history c') (c_calls c'))
  | (None, c') => c' = c
  end.
Proof.
  intros Hc Hp. pose proof (ck_flight _ Hc) as Hf. unfold flight_ok in Hf. rewrite Hp in Hf.
  unfold poll. destruct (c_runner c) as [b|w] eqn:Hrun; [done|].
  destruct Hf as (Hloc & Hh & size & Hs & [(Hb & Hd & Hj) | [(Hj & r & Hd & Hr) | (Hb & Hj & Hd)]]); rewrite Hd.
  - by destruct (w_backend w); [|destruct Hb as [? ?]].
  - split_and!; [done|done|]. rewrite set_run_twice. apply run_keeps; [done| |apply Hc]. done.
  - rewrite Hb. split_and!; [apply error_response_fits|done|]. apply run_keeps; [done| |apply Hc].
    unfold flight_ok. cbn. by rewrite Hrun.
Qed.

Lemma settle_ok (c : TpmCrb B) : crb_ok c -> exists c', settle clock c = Some c' /\ crb_ok c'.
Proof.
  intros Hc. unfold settle. destruct (c_pending c) as [p|] eqn:Hp; [|by eexists].
  pose proof (poll_ok c p Hc Hp) as Hpoll. destruct (poll c) as [[response|] c1]; [|subst; by eexists].
  destruct Hpoll as (Hr & Hbuf & Hc1).
  assert (p_header p = parse (c_buffer c1)) as Hh.
  { pose proof (ck_flight _ Hc) as Hf. unfold flight_ok in Hf. rewrite Hp in Hf.
    destruct (c_runner c); [done|]. rewrite Hbuf. by destruct Hf as (_ & -> & _). }
  destruct (complete_spec _ (p_locality p) (p_header p) response (p_since p) Hc1 eq_refl Hh Hr)
    as (c' & He & Hc' & _). eauto.
Qed.

Lemma set_ctrl_ok (c : TpmCrb B) idle cancel int_enable int_sts :
  crb_ok c -> fits 1 cancel -> fits 32 int_enable -> fits 1 int_sts ->
  crb_ok (set_ctrl c idle cancel int_enable int_sts).
Proof. intros Hc ? ? ?. split; cbn; try apply Hc; done. Qed.

Lemma ctrl_request_ok (c : TpmCrb B) value : crb_ok c -> crb_ok (ctrl_request c value).
Proof.
  intros Hc. unfold ctrl_request. destruct (negb _), (negb _); try done; apply set_ctrl_ok; try done; apply Hc.
Qed.

Lemma land_one_fits v : fits 1 (Z.land v START_INVOKE).
Proof. change START_INVOKE with (Z.ones 1). rewrite Z.land_ones by lia. split; apply Z.mod_pos_bound; lia. Qed.

Lemma write_dword_ok (c : TpmCrb B) locality reg value mask :
  crb_ok c -> 0 <= locality < LOCALITIES -> fits 32 value -> fits 32 mask ->
  exists c', write_dword clock c locality reg value mask = Some c' /\ crb_ok c'.
Proof.
  intros Hc Hloc Hv Hm. unfold write_dword.
  assert (fits 32 (Z.land value mask)) as Hvm by (apply land_fits_l; [done|apply Hm]).
  assert (0 <= not_w 32 mask) as Hnm by (unfold not_w; destruct Hm; lia).
  assert (0 <= not_w 32 (Z.land value mask)) as Hnv by (unfold not_w; destruct Hvm; lia).
  repeat case_match; try (by eexists); try (eexists; split; [reflexivity|]).
  - split; cbn; try apply Hc. apply control_refines; [apply Hc|done].
  - by apply ctrl_request_ok.
  - apply set_ctrl_ok; [done| |apply Hc|apply Hc].
    apply lor_fits; [lia| |apply land_one_fits]. apply land_fits_l; [apply Hc|done].
  - by apply start_ok.
  - apply set_ctrl_ok; [done|apply Hc| |apply Hc].
    apply lor_fits; [lia| |done]. apply land_fits_l; [apply Hc|done].
  - apply set_ctrl_ok; [done|apply Hc|apply Hc|]. apply land_fits_l; [apply Hc|done].
Qed.

(** The accesses that reach a register: an aligned power of two inside one
    locality's page. *)
Lemma check_access_Some offset size locality reg :
  0 <= offset -> check_access offset size = Some (locality, reg) ->
  0 <= locality < LOCALITIES /\ reg = offset mod LOCALITY_STRIDE /\ (size = 1 \/ size = 2 \/ size = 4 \/ size = 8) /\
  reg mod size = 0 /\ 0 <= reg /\ reg + size <= LOCALITY_STRIDE.
Proof.
  unfold check_access, LOCALITY_STRIDE, LOCALITIES. intros Ho.
  case_bool_decide as Hsize; cbn [negb orb]; [|done].
  destruct (Z.eqb_spec (offset mod size) 0) as [Hal|]; cbn [negb orb]; [|done].
  destruct (checked_add 64 offset size) as [e|] eqn:Hc; cbn [negb]; [|done].
  apply checked_add_Some in Hc as [-> Hlt].
  unfold CRB_WINDOW_SIZE, LOCALITY_STRIDE, LOCALITIES.
  destruct (Z.leb_spec (offset + size) (0x1000 * 5)); cbn [negb]; [|done]. intros [= <- <-].
  assert (size = 1 \/ size = 2 \/ size = 4 \/ size = 8) as Hs by set_solver.
  assert (0 <= offset / 0x1000 < 5) as Hd by (split; [apply Z.div_pos; lia|apply Z.div_lt_upper_bound; lia]).
  rewrite wrap_small by (unfold fits; lia).
  pose proof (Z.mod_pos_bound offset 0x1000 ltac:(lia)).
  assert ((offset mod 0x1000) mod size = 0) as Hrm.
  { rewrite <- (Znumtheory.Zmod_div_mod size 0x1000 offset); [done|lia|lia|].
    exists (0x1000 / size). destruct Hs as [-> | [-> | [-> | ->]]]; reflexivity. }
  split_and!; try lia; try done.
  destruct Hs as [-> | [-> | [-> | ->]]]; lia || (apply Z.mod_divide in Hrm as [k Hk]; lia).
Qed.

Lemma fold_bytes bs :
  Forall (fits 8) bs -> (length bs <= 8)%nat ->
  foldr (fun byte value => Z.lor (wrap 64 (Z.shiftl value 8)) byte) 0 bs = of_le bs.
Proof.
  induction bs as [|b bs IH]; intros Hf Hl; [done|]. apply Forall_cons_iff in Hf as [Hb Hf].
  cbn [foldr of_le length] in *. rewrite IH by (done || lia).
  pose proof (of_le_bound bs Hf) as Hbd.
  assert (256 ^ Z.of_nat (length bs) <= 256 ^ 7) by (apply Z.pow_le_mono_r; lia).
  rewrite wrap_small; [rewrite lor_shiftl_add by (unfold fits in Hb; lia); lia|].
  rewrite Z.shiftl_mul_pow2 by lia. unfold fits. change (2 ^ 64) with (256 ^ 7 * 2 ^ 8). lia.
Qed.

Lemma crb_read_ok (c : TpmCrb B) offset size :
  crb_ok c -> 0 <= offset ->
  exists v c', crb_read clock c offset size = Some (v, c') /\ crb_ok c' /\ 0 <= v < 256 ^ Z.max 0 size.
Proof.
  intros Hc Ho. unfold crb_read. destruct (settle_ok c Hc) as (c1 & -> & Hc1). cbn [mbind option_bind].
  destruct (check_access offset size) as [[locality reg]|] eqn:Hca.
  2: { exists 0, c1. split_and!; [done|done|lia|apply Z.pow_pos_nonneg; lia]. }
  apply check_access_Some in Hca as (Hloc & _ & Hs & _ & Hr0 & Hend); [|done].
  rewrite (Z.max_r 0 size) by lia. unfold LOCALITY_STRIDE in Hend.
  destruct (Z.leb_spec DATA_BUFFER reg) as [Hbuf|_].
  - pose proof (ck_length _ Hc1) as Hlen. unfold DATA_BUFFER in Hbuf. unfold DATA_BUFFER_SIZE, LOCALITY_STRIDE, DATA_BUFFER in Hlen.
    rewrite slice_Some by (unfold DATA_BUFFER; lia). cbn [mbind option_bind].
    eexists _, c1. split; [reflexivity|]. split; [done|].
    set (bs := take _ _). assert (Forall (fits 8) bs) as Hf by (apply Forall_take, Forall_drop, Hc1).
    assert (length bs = Z.to_nat size) as Hbl by (subst bs; rewrite length_take, length_drop; unfold DATA_BUFFER; lia).
    rewrite fold_bytes by (done || lia). pose proof (of_le_bound bs Hf) as Hb. rewrite Hbl, Z2Nat.id in Hb by lia. done.
  - eexists _, c1. split; [reflexivity|]. split; [done|].
    set (f := fun i : Z => Z.land (Z.shiftr (dword c1 locality (Z.land (reg + i) (not_w 64 3)))
                                     (Z.land (reg + i) 3 * 8)) 0xff).
    change (0 <= foldr (fun i value => Z.lor (wrap 64 (Z.shiftl value 8)) (f i)) 0 (seqZ 0 size) < 256 ^ size).
    rewrite <- (foldr_fmap (fun byte value => Z.lor (wrap 64 (Z.shiftl value 8)) byte)).
    assert (Forall (fits 8) (f <$> seqZ 0 size)) as Hf.
    { apply list.Forall_forall. intros x (i & -> & _)%list_elem_of_fmap. unfold f.
      change 0xff with (Z.ones 8). rewrite Z.land_ones by lia. split; apply Z.mod_pos_bound; lia. }
    assert (length (f <$> seqZ 0 size) = Z.to_nat size) as Hfl by (rewrite length_fmap, length_seqZ; done).
    rewrite fold_bytes by (done || lia). pose proof (of_le_bound _ Hf) as Hb. rewrite Hfl, Z2Nat.id in Hb by lia. done.
Qed.

Lemma crb_buffer_ok (c : TpmCrb B) buffer :
  crb_ok c -> settled c -> length buffer = length (c_buffer c) -> Forall (fits 8) buffer ->
  crb_ok (set_buffer c buffer).
Proof.
  intros Hc Hset Hl Hf. split; cbn; try apply Hc; [rewrite Hl; apply Hc|done|].
  pose proof (ck_flight _ Hc) as Hfl. unfold flight_ok, settled in *. cbn. by rewrite Hset in *.
Qed.

Lemma crb_write_ok (c : TpmCrb B) offset size value :
  crb_ok c -> 0 <= offset -> fits 64 value ->
  exists c', crb_write clock c offset size value = Some c' /\ crb_ok c'.
Proof.
  intros Hc Ho Hv. unfold crb_write. destruct (settle_ok c Hc) as (c1 & -> & Hc1). cbn [mbind option_bind].
  destruct (check_access offset size) as [[locality reg]|] eqn:Hca; [|by eexists].
  apply check_access_Some in Hca as (Hloc & _ & Hs & _ & Hr0 & Hend); [|done]. unfold LOCALITY_STRIDE in Hend.
  destruct (bool_decide (is_Some (c_pending c1)) && _) eqn:Hguard; [by eexists|].
  destruct (Z.leb_spec DATA_BUFFER reg) as [Hbuf|_].
  - pose proof (ck_length _ Hc1) as Hlen. unfold DATA_BUFFER in Hbuf. unfold DATA_BUFFER_SIZE, LOCALITY_STRIDE, DATA_BUFFER in Hlen.
    rewrite slice_Some by (unfold DATA_BUFFER; lia). cbn [mbind option_bind].
    eexists. split; [reflexivity|]. apply crb_buffer_ok; [done| | |].
    + cbn [orb] in Hguard. rewrite andb_true_r in Hguard. apply bool_decide_eq_false in Hguard.
      unfold settled. by destruct (c_pending c1); [exfalso; eauto|].
    + rewrite !length_app, !length_take, length_drop, length_le_bytes. unfold DATA_BUFFER. lia.
    + rewrite !Forall_app. split_and!; [apply Forall_take, Hc1|apply Forall_take, le_bytes_fits|apply Forall_drop, Hc1].
  - edestruct (write_dword_ok c1 locality (Z.land reg (not_w 64 3))) as (c2 & -> & Hc2);
      [done|done|by apply wrap_fits|by apply wrap_fits|]. cbn [mbind option_bind].
    destruct (size =? 8); [|by eexists].
    apply write_dword_ok; [done|done|by apply wrap_fits|done].
Qed.

Lemma worker_step_ok (c : TpmCrb B) : crb_ok c -> crb_ok (worker_step clock c).
Proof.
  intros Hc. unfold worker_step. destruct (c_runner c) as [b|[[b|] [|job jobs] dn]] eqn:Hrun; try exact Hc.
  pose proof (execute_typed b (j_locality job) (j_command job)) as Hty.
  destruct (execute b (j_locality job) (j_command job)) as [[response reason] b'].
  apply note_keeps, run_keeps; [done| |apply Hc].
  pose proof (ck_flight _ Hc) as Hf. unfold flight_ok in *. rewrite Hrun in Hf. cbn in *.
  destruct (c_pending c) as [p|]; [|by destruct Hf].
  destruct Hf as (Hloc & Hh & size & Hs & [(Hb & Hd & Hj) | [(Hj & _) | (Hb & _)]]); [|done..].
  split_and!; [lia|lia|done|]. exists size. split; [done|]. right; left. subst dn. simplify_eq.
  split; [done|]. by exists response.
Qed.

Lemma worker_dies_ok (c : TpmCrb B) : crb_ok c -> crb_ok (worker_dies c).
Proof.
  intros Hc. unfold worker_dies. destruct (c_runner c) as [b|w] eqn:Hrun; [done|].
  apply run_keeps; [done| |apply Hc].
  pose proof (ck_flight _ Hc) as Hf. unfold flight_ok in *. rewrite Hrun in Hf. cbn in *.
  destruct (c_pending c) as [p|]; [|by destruct Hf].
  destruct Hf as (Hloc & Hh & size & Hs & [(Hb & Hd & Hj) | [(Hj & r & Hd & Hr) | (Hb & Hj & Hd)]]);
    (split_and!; [lia|lia|done|]); exists size; (split; [done|]); right.
  - by right.
  - left. eauto.
  - by right.
Qed.

(** An access as a vCPU makes it: a 64-bit offset and value. *)
Definition event_ok (e : Event) : Prop :=
  match e with
  | GuestRead offset _ => 0 <= offset
  | GuestWrite offset _ value => 0 <= offset /\ fits 64 value
  | _ => True
  end.

(** A read of [size] bytes returns a value of [size] bytes. *)
Definition reply_ok (e : Event) (o : option Z) : Prop :=
  match e, o with
  | GuestRead _ size, Some v => 0 <= v < 256 ^ Z.max 0 size
  | GuestRead _ _, None => False
  | _, _ => o = None
  end.

Lemma crb_step_ok (c : TpmCrb B) e :
  crb_ok c -> event_ok e -> exists o c', step clock c e = Some (o, c') /\ crb_ok c' /\ reply_ok e o.
Proof.
  intros Hc He. destruct e as [offset size|offset size value| |]; cbn in He |- *.
  - destruct (crb_read_ok c offset size Hc He) as (v & c' & -> & Hc' & Hv). cbn. by exists (Some v), c'.
  - destruct He. destruct (crb_write_ok c offset size value) as (c' & -> & Hc'); [done..|]. cbn. by exists None, c'.
  - exists None, (worker_step clock c). auto using worker_step_ok.
  - exists None, (worker_dies c). auto using worker_dies_ok.
Qed.

Lemma runs_ok (c : TpmCrb B) es :
  crb_ok c -> Forall event_ok es ->
  exists os c', runs clock c es = Some (os, c') /\ crb_ok c' /\ Forall2 reply_ok es os.
Proof.
  revert c. induction es as [|e es IH]; intros c Hc Hes; cbn; [by exists [], c|].
  apply Forall_cons_iff in Hes as [He Hes]. destruct (crb_step_ok c e Hc He) as (o & c1 & -> & Hc1 & Ho). cbn.
  destruct (IH c1 Hc1 Hes) as (os & c2 & -> & Hc2 & Hos). cbn.
  exists (o :: os), c2. auto using Forall2_cons_2.
Qed.

Lemma crb_new_ok base backend spawned c :
  0 <= base -> crb_new clock base backend spawned = Ok c -> crb_ok c.
Proof.
  unfold crb_new. intros Hb. destruct (negb _); [done|].
  case_bool_decide as Hca; [done|]. destruct (checked_add 64 base CRB_WINDOW_SIZE) as [e|] eqn:Hce; [|done].
  apply checked_add_Some in Hce as [-> Hlt].
  assert (forall r, flight_ok {| c_base := base; c_localities := localities_new; c_idle := true; c_cancel := 0;
          c_int_enable := 0; c_int_sts := 0; c_buffer := replicate (Z.to_nat DATA_BUFFER_SIZE) 0;
          c_runner := r; c_pending := None; c_commands := 0;
          c_history := history_new (be_name backend) TPM_HISTORY_LEN (clock 0); c_calls := 1 |} ->
     crb_ok {| c_base := base; c_localities := localities_new; c_idle := true; c_cancel := 0;
          c_int_enable := 0; c_int_sts := 0; c_buffer := replicate (Z.to_nat DATA_BUFFER_SIZE) 0;
          c_runner := r; c_pending := None; c_commands := 0;
          c_history := history_new (be_name backend) TPM_HISTORY_LEN (clock 0); c_calls := 1 |}) as Hok.
  { intros r Hf. split; cbn -[replicate]; try done.
    all: first [apply loc_new_ok | by rewrite length_replicate | by apply Forall_replicate | apply history_new_ok]. }
  destruct (host_io backend); [destruct spawned|]; cbn; intros Heq; simplify_eq; by apply Hok.
Qed.

(** ** A worker backend looks like an inline one *)

(** What a history holds apart from when things happened. *)
Definition untimed_exchange (e : TpmExchange) : TpmExchange :=
  {| ex_seq := ex_seq e; ex_at_ms := 0; ex_locality := ex_locality e; ex_tag := ex_tag e;
     ex_code := ex_code e; ex_command_len := ex_command_len e; ex_rc := ex_rc e;
     ex_response_len := ex_response_len e; ex_elapsed_us := 0; ex_command := ex_command e;
     ex_response := ex_response e |}.
Definition untimed_failure (f : BackendFailure) : BackendFailure :=
  {| f_seq := f_seq f; f_at_ms := 0; f_reason := f_reason f |}.
Definition untimed (h : TpmHistory) : TpmHistory :=
  {| h_backend := h_backend h; h_started := 0; h_capacity := h_capacity h;
     h_entries := untimed_exchange <$> h_entries h; h_total := h_total h;
     h_failure := untimed_failure <$> h_failure h |}.

(** [w] runs its backend on a live worker and [i] inline; with nothing in flight
    they hold the same state. *)
Record same (w i : TpmCrb B) : Prop := {
  sm_base : c_base w = c_base i;
  sm_localities : c_localities w = c_localities i;
  sm_idle : c_idle w = c_idle i;
  sm_cancel : c_cancel w = c_cancel i;
  sm_int_enable : c_int_enable w = c_int_enable i;
  sm_int_sts : c_int_sts w = c_int_sts i;
  sm_buffer : c_buffer w = c_buffer i;
  sm_commands : c_commands w = c_commands i;
  sm_history : untimed (c_history w) = untimed (c_history i);
  sm_pending_w : c_pending w = None;
  sm_pending_i : c_pending i = None;
  sm_runner : exists b,
    c_runner w = OnWorker {| w_backend := Some b; w_jobs := []; w_done := [] |} /\ c_runner i = Inline b;
}.

(** The same once [w] has collected what its worker answered. *)
Definition caught_up (w i : TpmCrb B) : Prop := exists w', settle clock w = Some w' /\ same w' i.

Lemma untimed_record h1 h2 t1 t2 locality header command response us1 us2 :
  untimed h1 = untimed h2 ->
  untimed (record h1 t1 locality header command response us1) =
  untimed (record h2 t2 locality header command response us2).
Proof.
  intros He. unfold untimed, record in *. cbn. injection He as Hb Hcap Hent Htot Hfail.
  assert (length (h_entries h1) = length (h_entries h2)) as Hl
    by (rewrite <- (length_fmap untimed_exchange), Hent, length_fmap; done).
  rewrite Hb, Hcap, Htot, Hfail, Hl. f_equal.
  rewrite !fmap_app. f_equal. case_bool_decide; [rewrite !fmap_drop; congruence|done].
Qed.

Lemma untimed_note h1 h2 t1 t2 reason :
  untimed h1 = untimed h2 -> untimed (note_failure h1 t1 reason) = untimed (note_failure h2 t2 reason).
Proof.
  intros He. unfold note_failure. pose proof He as He'. injection He as Hb Hcap Hent Htot Hfail.
  destruct (h_failure h1), (h_failure h2); try done. unfold untimed. cbn. unfold untimed_failure. cbn. congruence.
Qed.

Lemma complete_same (w i : TpmCrb B) locality header response s1 s2 w' :
  same w i -> complete clock w locality header response s1 = Some w' ->
  exists i', complete clock i locality header response s2 = Some i' /\ same w' i'.
Proof.
  intros Hs. unfold complete, now. cbn [set_run c_buffer c_history c_base c_localities c_idle
    c_cancel c_int_enable c_int_sts c_runner c_pending c_commands c_calls].
  rewrite <- (sm_buffer _ _ Hs).
  destruct (slice (c_buffer w) 0 (Z.to_nat _)) as [command|]; cbn [mbind option_bind]; [|done].
  destruct (slice (c_buffer w) 0 _) as [?|]; cbn [mbind option_bind]; [|done].
  destruct (slice (checked_response response) 6 4) as [?|]; cbn [mbind option_bind]; [|done].
  intros [= <-]. eexists. split; [reflexivity|]. destruct Hs. split; cbn; try congruence; try done.
  by apply untimed_record.
Qed.

Lemma dword_same (w i : TpmCrb B) locality reg : same w i -> dword w locality reg = dword i locality reg.
Proof. intros []. unfold dword, buffer_gpa. by rewrite sm_base0, sm_localities0, sm_idle0, sm_cancel0, sm_int_enable0, sm_int_sts0, sm_pending_w0, sm_pending_i0. Qed.

Lemma same_note (w i : TpmCrb B) reason : same w i -> same (note clock w reason) (note clock i reason).
Proof.
  intros Hs. destruct reason as [reason|]; [|done]. destruct Hs. split; cbn; try done. by apply untimed_note.
Qed.

Lemma settle_settled (c : TpmCrb B) : c_pending c = None -> settle clock c = Some c.
Proof. intros Hp. unfold settle. by rewrite Hp. Qed.

(** What the worker does once the guest's access is over. *)
Lemma same_caught_up (w i : TpmCrb B) : same w i -> caught_up (worker_step clock w) i.
Proof.
  intros Hs. destruct (sm_runner _ _ Hs) as (b & Hr & _). unfold worker_step. rewrite Hr.
  exists w. split; [apply settle_settled, Hs|done].
Qed.

Lemma start_same (w i w1 : TpmCrb B) locality :
  crb_ok w -> 0 <= locality < LOCALITIES -> same w i -> start clock w locality = Some w1 ->
  exists i1, start clock i locality = Some i1 /\ caught_up (worker_step clock w1) i1.
Proof.
  intros Hc Hloc Hs Hst. pose proof (start_ok w locality Hc Hloc) as (w1' & Hst' & Hc1).
  assert (w1' = w1) as -> by congruence. clear Hst'.
  pose proof (settle_ok _ (worker_step_ok _ Hc1)) as (w3 & Hset & _).
  unfold start in *. rewrite <- (sm_localities _ _ Hs).
  rewrite (sm_pending_i _ _ Hs). rewrite (sm_pending_w _ _ Hs) in Hst.
  case_bool_decide; cbn [negb] in *; [|exists i; split; [done|]; simplify_eq; by apply same_caught_up].
  rewrite bool_decide_false in Hst |- * by (intros [? ?]; done).
  unfold now in *. cbn [set_run c_buffer] in *. rewrite <- (sm_buffer _ _ Hs).
  set (wn := set_run w _ _ _ _) in *. set (in_ := set_run i _ _ _ _) in *.
  assert (same wn in_) as Hsn by (destruct Hs; by split).
  destruct (sm_runner _ _ Hsn) as (b & Hrw & Hri).
  destruct (run_size (parse (c_buffer w))) as [size|].
  - destruct (slice (c_buffer w) 0 (Z.to_nat size)) as [command|]; [|done]. cbn [mbind option_bind] in *.
    unfold run in *. rewrite Hrw in Hst. rewrite Hri. cbn [w_backend w_jobs w_done app] in Hst. simplify_eq.
    unfold worker_step in Hset |- *. cbn [c_runner set_run j_locality j_command] in Hset |- *.
    destruct (execute b locality command) as [[response reason] b'].
    set (w2 := note clock _ reason) in Hset |- *. set (i2 := note clock _ reason).
    assert (exists w4, settle clock w2 =
      complete clock w4 locality (parse (c_buffer w)) response (clock (c_calls w)) /\ same w4 i2) as (w4 & He & Hs4).
    { subst w2 i2. destruct reason as [reason|].
      - eexists. split; [reflexivity|]. cbn. destruct Hsn. split; cbn; try done; [by apply untimed_note|by exists b'].
      - eexists. split; [reflexivity|]. cbn. destruct Hsn. split; cbn; try done. by exists b'. }
    unfold caught_up. rewrite He in Hset |- *.
    destruct (complete_same w4 i2 locality _ response _ (clock (c_calls i)) w3 Hs4 Hset) as (i' & -> & Hs'). eauto.
  - destruct (slice (c_buffer w) 0 (Z.to_nat HEADER_LEN)); [|done]. cbn [mbind option_bind] in *.
    destruct (complete_same wn in_ locality _ _ _ (clock (c_calls i)) w1 Hsn Hst) as (i' & -> & Hs').
    exists i'. split; [done|]. by apply same_caught_up.
Qed.

(** Every register write but the [START] that runs a command leaves nothing in
    flight. *)
Lemma write_dword_same (w i w1 : TpmCrb B) locality reg value mask :
  crb_ok w -> 0 <= locality < LOCALITIES -> same w i ->
  write_dword clock w locality reg value mask = Some w1 ->
  exists i1, write_dword clock i locality reg value mask = Some i1 /\
    caught_up (worker_step clock w1) i1 /\ (reg <> CTRL_START -> same w1 i1).
Proof.
  intros Hc Hloc Hs Hw. unfold write_dword in *.
  assert (same w1 i -> caught_up (worker_step clock w1) i /\ (reg <> CTRL_START -> same w1 i)) as Hstay
    by (intros ?; split; [by apply same_caught_up|done]).
  assert (forall w2 i2, same w2 i2 -> Some w2 = Some w1 ->
    exists i1, Some i2 = Some i1 /\ caught_up (worker_step clock w1) i1 /\ (reg <> CTRL_START -> same w1 i1)) as Hgo.
  { intros w2 i2 Hs2 [= ->]. exists i2. split; [done|]. split; [by apply same_caught_up|done]. }
  repeat case_match; try (by eapply Hgo); try (eapply Hgo; [|exact Hw]; destruct Hs; split; cbn; congruence || done).
  - eapply Hgo; [|exact Hw]. unfold ctrl_request. destruct Hs, (negb _), (negb _); split; cbn; congruence || done.
  - destruct (start_same w i w1 locality Hc Hloc Hs Hw) as (i1 & He & Hcu). exists i1. split_and!; [done|done|].
    intros Hne. exfalso. apply Hne. by apply Z.eqb_eq.
Qed.

Lemma land_not_3_aligned reg : 0 <= reg < DATA_BUFFER -> reg mod 8 = 0 -> Z.land reg (not_w 64 3) = reg.
Proof.
  unfold DATA_BUFFER. intros Hr Hm. apply Z.mod_divide in Hm as [k ->]; [|lia].
  assert (Hk : (Z.to_nat k < 16)%nat) by lia. rewrite <- (Z2Nat.id k) by lia.
  generalize (Z.to_nat k), Hk. intros n Hn. do 16 (destruct n as [|n]; [reflexivity|]). lia.
Qed.

Lemma access_same (w i : TpmCrb B) :
  crb_ok w -> caught_up w i ->
  exists w', settle clock w = Some w' /\ settle clock i = Some i /\ same w' i /\ crb_ok w'.
Proof.
  intros Hc (w' & Hset & Hs). destruct (settle_ok w Hc) as (w'' & Hset' & Hc').
  exists w'. split_and!; [done|apply settle_settled, Hs|done|congruence].
Qed.

Lemma crb_read_same (w i w1 : TpmCrb B) offset size v :
  crb_ok w -> caught_up w i -> crb_read clock w offset size = Some (v, w1) ->
  exists i1, crb_read clock i offset size = Some (v, i1) /\ caught_up (worker_step clock w1) i1.
Proof.
  intros Hc Hcu. destruct (access_same w i Hc Hcu) as (w' & Hw & Hi & Hs & _). unfold crb_read. rewrite Hw, Hi.
  cbn [mbind option_bind]. pose proof (same_caught_up _ _ Hs) as Hcu'.
  destruct (check_access offset size) as [[locality reg]|]; [|intros [= <- <-]; eauto].
  destruct (DATA_BUFFER <=? reg).
  - rewrite (sm_buffer _ _ Hs). destruct (slice _ _ _); [|done]. intros [= <- <-]. eauto.
  - intros [= <- <-]. exists i. split; [|done]. apply f_equal, (f_equal (fun v => (v, i))).
    induction (seqZ 0 size) as [|j l IH]; [done|]. cbn [foldr]. by rewrite IH, (dword_same w' i).
Qed.

Lemma crb_write_same (w i w1 : TpmCrb B) offset size value :
  crb_ok w -> caught_up w i -> 0 <= offset -> fits 64 value ->
  crb_write clock w offset size value = Some w1 ->
  exists i1, crb_write clock i offset size value = Some i1 /\ caught_up (worker_step clock w1) i1.
Proof.
  intros Hc Hcu Ho Hv. destruct (access_same w i Hc Hcu) as (w' & Hw & Hi & Hs & Hc'). unfold crb_write. rewrite Hw, Hi.
  cbn [mbind option_bind]. pose proof (same_caught_up _ _ Hs) as Hcu'.
  destruct (check_access offset size) as [[locality reg]|] eqn:Hca; [|intros [= <-]; eauto].
  apply check_access_Some in Hca as (Hloc & _ & Hsize & Hal & Hr0 & _); [|done].
  rewrite (sm_pending_w _ _ Hs), (sm_pending_i _ _ Hs), !bool_decide_false by (intros [? ?]; done). cbn [andb].
  destruct (Z.leb_spec DATA_BUFFER reg).
  - rewrite (sm_buffer _ _ Hs). destruct (slice _ _ _); [|done]. cbn [mbind option_bind]. intros [= <-].
    eexists. split; [reflexivity|]. apply same_caught_up. destruct Hs. by split.
  - set (dw := Z.land reg _). set (mask := if size =? 8 then _ else _).
    destruct (write_dword_ok w' locality dw (wrap 32 (wrap 64 (Z.shiftl value (Z.land reg 3 * 8)))) (wrap 32 mask))
      as (w2 & Hw2 & Hc2); [done|done|by apply wrap_fits|by apply wrap_fits|].
    destruct (write_dword_same w' i w2 locality dw _ _ Hc' Hloc Hs Hw2) as (i2 & Hi2 & Hcu2 & Hsame2).
    rewrite Hw2, Hi2. cbn [mbind option_bind]. destruct (Z.eqb_spec size 8) as [->|]; [|intros [= <-]; eauto].
    intros Hw3. assert (same w2 i2) as Hs2.
    { apply Hsame2. subst dw. rewrite land_not_3_aligned by done. unfold CTRL_START. intros ->. done. }
    destruct (write_dword_same w2 i2 w1 locality _ _ _ Hc2 Hloc Hs2 Hw3) as (i3 & Hi3 & Hcu3 & _). eauto.
Qed.

Definition is_guest (e : Event) : bool :=
  match e with GuestRead _ _ | GuestWrite _ _ _ => true | _ => false end.

Lemma runs_same (gs : list Event) :
  forall w i, crb_ok w -> caught_up w i -> Forall event_ok gs -> Forall is_guest gs ->
  exists os w' i',
    runs clock w (flat_map (fun e => [e; WorkerStep]) gs) = Some (flat_map (fun o => [o; None]) os, w') /\
    runs clock i gs = Some (os, i') /\ caught_up w' i'.
Proof.
  induction gs as [|g gs IH]; intros w i Hc Hcu Hok Hg; [by exists [], w, i|].
  apply Forall_cons_iff in Hok as [Hgo Hok]. apply Forall_cons_iff in Hg as [Hgg Hg].
  destruct (crb_step_ok w g Hc Hgo) as (o & w1 & Hst & Hc1 & _).
  assert (exists i1, step clock i g = Some (o, i1) /\ caught_up (worker_step clock w1) i1) as (i1 & Hi1 & Hcu1).
  { destruct g as [offset size|offset size value| |]; [| |done..]; cbn in Hst, Hgo |- *.
    - destruct (crb_read clock w offset size) as [[v w1']|] eqn:Hr; [|done]. cbn in Hst. simplify_eq.
      destruct (crb_read_same w i w1 offset size v Hc Hcu Hr) as (i1 & -> & ?). cbn. eauto.
    - destruct Hgo. destruct (crb_write clock w offset size value) as [w1'|] eqn:Hr; [|done]. cbn in Hst. simplify_eq.
      destruct (crb_write_same w i w1 offset size value) as (i1 & -> & ?); [done..|]. cbn. eauto. }
  destruct (IH _ _ (worker_step_ok _ Hc1) Hcu1 Hok Hg) as (os & w' & i' & Hrw & Hri & Hend).
  exists (o :: os), w', i'. split_and!; [| |done].
  - change (flat_map _ (g :: gs)) with (g :: WorkerStep :: flat_map (fun e => [e; WorkerStep]) gs).
    cbn [runs]. rewrite Hst. cbn [mbind option_bind step]. by rewrite Hrw.
  - cbn [runs]. rewrite Hi1. cbn [mbind option_bind]. by rewrite Hri.
Qed.

End invariant.

(** ** What a guest and a crash report can rely on *)

#[export] Instance StubBackend_typed : TpmBackendTyped StubBackend.
Proof.
  intros b locality command. cbn. unfold header_error.
  destruct (parse command); [|apply error_response_fits].
  destruct (negb _); [apply error_response_fits|]. destruct (negb _); apply error_response_fits.
Qed.

(** A CRB built over any backend, inline or on a worker thread, survives
    any sequence of guest accesses (every offset and size), worker moves and
    worker deaths: no slice is out of range, a read of [size] bytes returns a
    [size]-byte value, the buffer keeps its 3,968 bytes, locality arbitration is
    sound, and at most one command is in flight, which is the command the buffer
    still holds. *)
Theorem tpm_crb_invariant {B} `{TpmBackendTyped B} (clock : nat -> Z) base (backend : B) spawned c es :
  0 <= base -> crb_new clock base backend spawned = Ok c -> Forall event_ok es ->
  exists os c', runs clock c es = Some (os, c') /\ crb_ok c' /\ Forall2 reply_ok es os.
Proof. intros Hb Hn Hes. apply runs_ok; [by apply (crb_new_ok clock base backend spawned)|done]. Qed.

Lemma tpm_crb_invariant_witness :
  exists c, crb_new (fun n => Z.of_nat n) 0xfed40000 (0 : StubBackend) true = Ok c /\
  exists os c', runs (fun n => Z.of_nat n) c [GuestWrite 0x08 4 1; GuestWrite 0x4c 4 1; GuestRead 0x80 8] = Some (os, c') /\
    crb_ok c' /\ Forall2 reply_ok [GuestWrite 0x08 4 1; GuestWrite 0x4c 4 1; GuestRead 0x80 8] os.
Proof.
  eexists. split; [reflexivity|].
  apply (tpm_crb_invariant (fun n => Z.of_nat n) 0xfed40000 (0 : StubBackend) true); [lia|reflexivity|].
  apply Forall_cons; [cbn; unfold fits; lia|]. apply Forall_cons; [cbn; unfold fits; lia|].
  apply Forall_cons; [cbn; lia|]. apply Forall_nil.
Defined.

(** Whatever the guest does, the crash report's history holds the last (at
    most 256) exchanges, numbered consecutively up to the total; it keeps bytes
    only of commands with no session area whose code is one of the twelve public
    ones, at most 256 of each, and the bytes kept are those of the command whose
    header the decision was made on.  A command that is not public leaves no
    trace of its bytes: recording any other bytes, or any other response of the
    same length and response code, gives the same history and the same report. *)
Theorem tpm_history_redacted {B} `{TpmBackendTyped B} (clock : nat -> Z) base (backend : B) spawned c es :
  0 <= base -> crb_new clock base backend spawned = Ok c -> Forall event_ok es ->
  exists os c', runs clock c es = Some (os, c') /\ history_ok (c_history c') /\
    forall t locality header us cmd1 cmd2 rsp1 rsp2,
      bytes_are_public header = false -> length rsp1 = length rsp2 -> slice rsp1 6 4 = slice rsp2 6 4 ->
      let h1 := record (c_history c') t locality header cmd1 rsp1 us in
      let h2 := record (c_history c') t locality header cmd2 rsp2 us in
      h1 = h2 /\ render h1 = render h2.
Proof.
  intros Hb Hn Hes.
  destruct (runs_ok clock c es) as (os & c' & Hr & Hc' & _); [by apply (crb_new_ok clock base backend spawned)|done|].
  exists os, c'. split_and!; [done|apply Hc'|]. intros t locality header us cmd1 cmd2 rsp1 rsp2 Hp Hl Hs h1 h2.
  assert (h1 = h2) as -> by (subst h1 h2; unfold record; by rewrite Hp, Hl, Hs). done.
Qed.

Lemma tpm_history_redacted_witness :
  exists c, crb_new (fun n => Z.of_nat n) 0xfed40000 (0 : StubBackend) true = Ok c /\
  exists os c', runs (fun n => Z.of_nat n) c [GuestWrite 0x08 4 1; GuestWrite 0x4c 4 1] = Some (os, c') /\
    history_ok (c_history c').
Proof.
  assert (exists c, crb_new (fun n => Z.of_nat n) 0xfed40000 (0 : StubBackend) true = Ok c) as (c & Hn)
    by (eexists; reflexivity).
  exists c. split; [exact Hn|].
  destruct (tpm_history_redacted (fun n => Z.of_nat n) 0xfed40000 (0 : StubBackend) true c
    [GuestWrite 0x08 4 1; GuestWrite 0x4c 4 1]) as (os & c' & Hr & Hh & _); [lia|exact Hn| |].
  - apply Forall_cons; [cbn; unfold fits; lia|]. apply Forall_cons; [cbn; unfold fits; lia|]. apply Forall_nil.
  - exists os, c'. split; [exact Hr|exact Hh].
Defined.

(** C33: the worker thread is transparent.  Take a CRB whose backend runs on a
    worker and one that runs the same backend inline, in the same state.  If the
    worker answers between the guest's accesses, every access of every sequence
    returns the same value from both, and they end in the same state: registers,
    buffer, backend, number of commands and history (but for its timestamps). *)
Theorem tpm_worker_transparent {B} `{TpmBackendTyped B} (clock : nat -> Z) (w i : TpmCrb B) gs :
  crb_ok w -> same w i -> Forall event_ok gs -> Forall is_guest gs ->
  exists os w' i',
    runs clock w (flat_map (fun e => [e; WorkerStep]) gs) = Some (flat_map (fun o => [o; None]) os, w') /\
    runs clock i gs = Some (os, i') /\ exists w'', settle clock w' = Some w'' /\ same w'' i'.
Proof.
  intros Hc Hs Hok Hg. apply runs_same; [done| |done|done].
  exists w. split; [apply settle_settled, Hs|done].
Qed.

Lemma tpm_worker_transparent_witness :
  let clk n := Z.of_nat n in
  let gs := [GuestWrite 0x08 4 1; GuestWrite 0x80 8 0x00000a0000000180; GuestWrite 0x88 2 0x4401;
    GuestWrite 0x4c 4 1; GuestRead 0x80 8] in
  exists i w : TpmCrb StubBackend,
    crb_new clk 0xfed40000 (0 : StubBackend) true = Ok i /\
    w = set_run i (OnWorker {| w_backend := Some 0; w_jobs := []; w_done := [] |}) None (c_history i) (c_calls i) /\
  exists os w' i',
    runs clk w (flat_map (fun e => [e; WorkerStep]) gs) = Some (flat_map (fun o => [o; None]) os, w') /\
    runs clk i gs = Some (os, i') /\ exists w'', settle clk w' = Some w'' /\ same w'' i'.
Proof.
  intros clk gs. eexists _, _. split; [reflexivity|]. split; [reflexivity|].
  apply (tpm_worker_transparent clk).
  - apply run_keeps; [|by split|apply history_new_ok].
    apply (crb_new_ok clk 0xfed40000 (0 : StubBackend) true); [lia|reflexivity].
  - split; try reflexivity. exists 0. split; reflexivity.
  - repeat (apply Forall_cons; [cbn; unfold fits; lia|]). apply Forall_nil.
  - repeat (apply Forall_cons; [exact I|]). apply Forall_nil.
Defined.
