(* ===== verification/GpuProto.v ===== *)
(** * virtio-gpu: wire format and EDID

    Model of [ternvale-gpu/src/protocol.rs] (control header, 2D commands,
    responses) and [edid.rs] (the block a scanout reports), as compiled without
    the [gpu3d] feature, the default.  [None] is a slice out of range; [parse]
    checks the length of every body before it reads it, and [parse_total] shows
    that this is enough.  Log strings ([type_name], the [name] of [Short]) are
    left out. *)

From stdpp Require Import list.
From S2P Require Import Prelude.

(** ** Constants *)

Definition CMD_GET_DISPLAY_INFO : Z := 0x0100.
Definition CMD_RESOURCE_CREATE_2D : Z := 0x0101.
Definition CMD_RESOURCE_UNREF : Z := 0x0102.
Definition CMD_SET_SCANOUT : Z := 0x0103.
Definition CMD_RESOURCE_FLUSH : Z := 0x0104.
Definition CMD_TRANSFER_TO_HOST_2D : Z := 0x0105.
Definition CMD_RESOURCE_ATTACH_BACKING : Z := 0x0106.
Definition CMD_RESOURCE_DETACH_BACKING : Z := 0x0107.
Definition CMD_GET_EDID : Z := 0x010a.

Definition RESP_OK_NODATA : Z := 0x1100.
Definition RESP_OK_DISPLAY_INFO : Z := 0x1101.
Definition RESP_OK_EDID : Z := 0x1104.
Definition RESP_ERR_UNSPEC : Z := 0x1200.
Definition RESP_ERR_OUT_OF_MEMORY : Z := 0x1201.
Definition RESP_ERR_INVALID_SCANOUT_ID : Z := 0x1202.
Definition RESP_ERR_INVALID_RESOURCE_ID : Z := 0x1203.
Definition RESP_ERR_INVALID_PARAMETER : Z := 0x1205.

Definition FLAG_FENCE : Z := Z.shiftl 1 0.
Definition MAX_SCANOUTS : nat := 16.
Definition HDR_LEN : nat := 24.
Definition MEM_ENTRY_LEN : nat := 16.
Definition DISPLAY_INFO_LEN : nat := HDR_LEN + MAX_SCANOUTS * 24.
Definition BLOCK_LEN : nat := 128.
Definition WIRE_EDID_LEN : nat := Z.to_nat 1024.
Definition EDID_RESP_LEN : nat := HDR_LEN + 8 + WIRE_EDID_LEN.
Definition MAX_BACKING_ENTRIES : Z := 16 * 1024.

(** ** Requests *)

Record CtrlHdr := { kind : Z; flags : Z; fence_id : Z; ctx_id : Z; ring_idx : Z }.

Record Rect := { rx : Z; ry : Z; rw : Z; rh : Z }.

#[export] Instance Rect_eq_dec : EqDecision Rect.
Proof. solve_decision. Defined.

Definition rect_default : Rect := {| rx := 0; ry := 0; rw := 0; rh := 0 |}.

Definition fits_in (r : Rect) (width height : Z) : bool :=
  let right := checked_add 32 (rx r) (rw r) in
  let bottom := checked_add 32 (ry r) (rh r) in
  (0 <? rw r) && (0 <? rh r)
  && match right with Some e => e <=? width | None => false end
  && match bottom with Some e => e <=? height | None => false end.

Definition intersect (a b : Rect) : option Rect :=
  let x0 := Z.max (rx a) (rx b) in
  let y0 := Z.max (ry a) (ry b) in
  let x1 := Z.min (rx a + rw a) (rx b + rw b) in
  let y1 := Z.min (ry a + rh a) (ry b + rh b) in
  if (x0 <? x1) && (y0 <? y1)
  then Some {| rx := x0; ry := y0; rw := wrap 32 (x1 - x0); rh := wrap 32 (y1 - y0) |} else None.

Record MemEntry := { e_addr : Z; e_len : Z }.

Inductive Command :=
  | GetDisplayInfo
  | ResourceCreate2d (resource_id format width height : Z)
  | ResourceUnref (resource_id : Z)
  | SetScanout (r : Rect) (scanout_id resource_id : Z)
  | ResourceFlush (r : Rect) (resource_id : Z)
  | TransferToHost2d (r : Rect) (offset resource_id : Z)
  | ResourceAttachBacking (resource_id : Z) (entries : list MemEntry)
  | ResourceDetachBacking (resource_id : Z)
  | GetEdid (scanout_id : Z)
  | Unsupported.

Inductive ParseError :=
  | NoHeader (len : nat)
  | Short (need len : nat)
  | TooManyEntries (entries max : Z).

Definition le32 (bytes : list Z) (at_ : nat) : option Z := le_at 4 bytes at_.
Definition le64 (bytes : list Z) (at_ : nat) : option Z := le_at 8 bytes at_.

Definition rect (bytes : list Z) (at_ : nat) : option Rect :=
  x ← le32 bytes at_; y ← le32 bytes (at_ + 4); w ← le32 bytes (at_ + 8); h ← le32 bytes (at_ + 12);
  Some {| rx := x; ry := y; rw := w; rh := h |}.

Definition parse_hdr (bytes : list Z) : option (result ParseError CtrlHdr) :=
  if bool_decide (length bytes < HDR_LEN)%nat then Some (Err (NoHeader (length bytes)))
  else
    k ← le32 bytes 0; f ← le32 bytes 4; fence ← le64 bytes 8; ctx ← le32 bytes 16; ring ← bytes !! 20%nat;
    Some (Ok {| kind := k; flags := f; fence_id := fence; ctx_id := ctx; ring_idx := ring |}).

(** The entries of an attach-backing request. *)
Definition mem_entry (body : list Z) (i : nat) : option MemEntry :=
  let at_ := (8 + i * MEM_ENTRY_LEN)%nat in
  addr ← le64 body at_; len ← le32 body (at_ + 8);
  Some {| e_addr := addr; e_len := len |}.

Definition parse_body (hdr : CtrlHdr) (body : list Z) : option (result ParseError Command) :=
  let need (n : nat) (k : option (result ParseError Command)) :=
    if bool_decide (length body < n)%nat then Some (Err (Short (HDR_LEN + n) (HDR_LEN + length body))) else k in
  if kind hdr =? CMD_GET_DISPLAY_INFO then Some (Ok GetDisplayInfo)
  else if kind hdr =? CMD_RESOURCE_CREATE_2D then
    need 16%nat (id ← le32 body 0; f ← le32 body 4; w ← le32 body 8; h ← le32 body 12;
                 Some (Ok (ResourceCreate2d id f w h)))
  else if kind hdr =? CMD_RESOURCE_UNREF then need 8%nat (id ← le32 body 0; Some (Ok (ResourceUnref id)))
  else if kind hdr =? CMD_SET_SCANOUT then
    need 24%nat (r ← rect body 0; s ← le32 body 16; id ← le32 body 20; Some (Ok (SetScanout r s id)))
  else if kind hdr =? CMD_RESOURCE_FLUSH then
    need 24%nat (r ← rect body 0; id ← le32 body 16; Some (Ok (ResourceFlush r id)))
  else if kind hdr =? CMD_TRANSFER_TO_HOST_2D then
    need 32%nat (r ← rect body 0; offset ← le64 body 16; id ← le32 body 24;
                 Some (Ok (TransferToHost2d r offset id)))
  else if kind hdr =? CMD_RESOURCE_ATTACH_BACKING then
    need 8%nat
      (id ← le32 body 0; count ← le32 body 4;
       if MAX_BACKING_ENTRIES <? count then Some (Err (TooManyEntries count MAX_BACKING_ENTRIES))
       else
         need (8 + Z.to_nat count * MEM_ENTRY_LEN)%nat
           (entries ← mapM (mem_entry body) (seq 0 (Z.to_nat count));
            Some (Ok (ResourceAttachBacking id entries))))
  else if kind hdr =? CMD_RESOURCE_DETACH_BACKING then
    need 8%nat (id ← le32 body 0; Some (Ok (ResourceDetachBacking id)))
  else if kind hdr =? CMD_GET_EDID then need 8%nat (s ← le32 body 0; Some (Ok (GetEdid s)))
  else Some (Ok Unsupported).

Definition parse (bytes : list Z) : option (result ParseError (CtrlHdr * Command)) :=
  r ← parse_hdr bytes;
  match r with
  | Err e => Some (Err e)
  | Ok hdr =>
      c ← parse_body hdr (drop HDR_LEN bytes);
      Some (command ← c; Ok (hdr, command))
  end.

(** ** Responses *)

(** An assignment to a range of a fixed-size array. *)
Definition set_bytes (at_ : nat) (new l : list Z) : list Z := take at_ l ++ new ++ drop (at_ + length new) l.

Definition response_hdr (request : CtrlHdr) (k : Z) : list Z :=
  let out := set_bytes 0 (le_bytes 4 k) (replicate HDR_LEN 0) in
  if negb (Z.land (flags request) FLAG_FENCE =? 0) then
    set_bytes 16 (le_bytes 4 (ctx_id request))
      (set_bytes 8 (le_bytes 8 (fence_id request)) (set_bytes 4 (le_bytes 4 FLAG_FENCE) out))
  else out.

Definition mode_bytes (m : Z * Z) : list Z :=
  replicate 8 0 ++ le_bytes 4 m.1 ++ le_bytes 4 m.2 ++ le_bytes 4 1 ++ replicate 4 0.

(** The modes one after the other, in a zeroed record of sixteen. *)
Definition display_info (request : CtrlHdr) (modes : list (Z * Z)) : list Z :=
  set_bytes HDR_LEN (concat (mode_bytes <$> take MAX_SCANOUTS modes))
    (set_bytes 0 (response_hdr request RESP_OK_DISPLAY_INFO) (replicate DISPLAY_INFO_LEN 0)).

(** ** EDID ([edid.rs]) *)

Definition write_dtd (width height : Z) (out : list Z) : list Z :=
  let hactive := Z.min width 4095 in
  let vactive := Z.min height 4095 in
  let hblank := 160 in
  let vblank := 45 in
  let htotal := saturating_add 32 hactive hblank in
  let vtotal := saturating_add 32 vactive vblank in
  let clock := Z.min (htotal * vtotal * 60 / 10000) (2 ^ 16 - 1) in
  let out := set_bytes 0 (le_bytes 2 clock) out in
  let nibbles a b := wrap 8 (Z.lor (Z.shiftl (Z.land (Z.shiftr a 8) 0xf) 4) (Z.land (Z.shiftr b 8) 0xf)) in
  let hmm := Z.min (hactive * 16 / 96) 4095 in
  let vmm := Z.min (vactive * 16 / 96) 4095 in
  let out := set_bytes 2
    [wrap 8 (Z.land hactive 0xff); wrap 8 (Z.land hblank 0xff); nibbles hactive hblank;
     wrap 8 (Z.land vactive 0xff); wrap 8 (Z.land vblank 0xff); nibbles vactive vblank;
     48; 32; Z.lor (Z.shiftl 10 4) 5; 0;
     wrap 8 (Z.land hmm 0xff); wrap 8 (Z.land vmm 0xff); nibbles hmm vmm] out in
  set_bytes 17 [0x1e] out.

(** "Ternvale", padded with a line feed and spaces. *)
Definition NAME : list Z := [0x54; 0x65; 0x72; 0x6e; 0x76; 0x61; 0x6c; 0x65].
Definition write_name (out : list Z) : list Z :=
  let out := set_bytes 0 [0x00; 0x00; 0x00; 0xfc; 0x00] out in
  let out := set_bytes 5 NAME out in
  let out := set_bytes (5 + length NAME) [0x0a] out in
  set_bytes (6 + length NAME) (replicate (length out - (6 + length NAME)) 0x20) out.

Definition checksum (bytes : list Z) : Z :=
  wrapping_sub 8 0 (foldl (fun a b => add_w 8 a b) 0 bytes).

Definition block_for_mode (width height : Z) : list Z :=
  let edid := replicate BLOCK_LEN 0 in
  let edid := set_bytes 0 [0x00; 0xff; 0xff; 0xff; 0xff; 0xff; 0xff; 0x00] edid in
  let edid := set_bytes 8 (be_bytes 2 0x4db5) edid in
  let edid := set_bytes 10 (le_bytes 2 0x0001) edid in
  let edid := set_bytes 16 [1; 36; 1; 3; 0x80] edid in
  let edid := set_bytes 23 [0x78; 0x0a] edid in
  let edid := set_bytes 25 [0xee; 0x91; 0xa3; 0x54; 0x4c; 0x99; 0x26; 0x0f; 0x50; 0x54] edid in
  let edid := set_bytes 38 (replicate 16 0x01) edid in
  let edid := set_bytes 54 (write_dtd (Z.max width 1) (Z.max height 1) (take 18 (drop 54 edid))) edid in
  let edid := set_bytes 72 (write_name (take 18 (drop 72 edid))) edid in
  set_bytes 127 [checksum (take 127 edid)] edid.

Definition wire_edid (block : list Z) : list Z := set_bytes 0 block (replicate WIRE_EDID_LEN 0).

Definition edid_response (request : CtrlHdr) (block : list Z) : list Z :=
  let out := set_bytes 0 (response_hdr request RESP_OK_EDID) (replicate EDID_RESP_LEN 0) in
  let out := set_bytes HDR_LEN (le_bytes 4 (Z.of_nat BLOCK_LEN)) out in
  set_bytes (HDR_LEN + 8) (wire_edid block) out.

(** ** Requests: every byte string is answered, and fields have their width *)

Record hdr_fits (h : CtrlHdr) : Prop := {
  hf_kind : fits 32 (kind h);
  hf_flags : fits 32 (flags h);
  hf_fence : fits 64 (fence_id h);
  hf_ctx : fits 32 (ctx_id h);
}.

Record rect_fits (r : Rect) : Prop := {
  rf_x : fits 32 (rx r);
  rf_y : fits 32 (ry r);
  rf_w : fits 32 (rw r);
  rf_h : fits 32 (rh r);
}.

Definition entry_fits (e : MemEntry) : Prop := fits 64 (e_addr e) /\ fits 32 (e_len e).

Definition command_fits (c : Command) : Prop :=
  match c with
  | ResourceCreate2d id f w h => fits 32 id /\ fits 32 f /\ fits 32 w /\ fits 32 h
  | ResourceUnref id | ResourceDetachBacking id => fits 32 id
  | SetScanout r s id => rect_fits r /\ fits 32 s /\ fits 32 id
  | ResourceFlush r id => rect_fits r /\ fits 32 id
  | TransferToHost2d r offset id => rect_fits r /\ fits 64 offset /\ fits 32 id
  | ResourceAttachBacking id entries =>
      fits 32 id /\ Forall entry_fits entries /\ Z.of_nat (length entries) <= MAX_BACKING_ENTRIES
  | GetEdid s => fits 32 s
  | GetDisplayInfo | Unsupported => True
  end.

(** Reads the field at [i] and keeps its width. *)
Ltac field i :=
  match goal with
  | Hf : Forall (fits 8) ?bs |- context [le32 ?bs i] =>
      let v := fresh "v" in let Hv := fresh "Hv" in let He := fresh "He" in
      destruct (le_at_Some 4 bs i) as (v & He & Hv); [lia|done|]; change (le32 bs i) with (le_at 4 bs i);
      rewrite He; cbn [mbind option_bind]
  | Hf : Forall (fits 8) ?bs |- context [le64 ?bs i] =>
      let v := fresh "v" in let Hv := fresh "Hv" in let He := fresh "He" in
      destruct (le_at_Some 8 bs i) as (v & He & Hv); [lia|done|]; change (le64 bs i) with (le_at 8 bs i);
      rewrite He; cbn [mbind option_bind]
  end.

Lemma rect_total bs i :
  Forall (fits 8) bs -> (i + 16 <= length bs)%nat -> exists r, rect bs i = Some r /\ rect_fits r.
Proof.
  intros Hf Hl. unfold rect. field i. field (i + 4)%nat. field (i + 8)%nat. field (i + 12)%nat.
  eexists. split; [reflexivity|]. by split.
Qed.

Lemma parse_hdr_total bs :
  Forall (fits 8) bs ->
  if bool_decide (length bs < HDR_LEN)%nat then parse_hdr bs = Some (Err (NoHeader (length bs)))
  else exists h, parse_hdr bs = Some (Ok h) /\ hdr_fits h.
Proof.
  intros Hf. unfold parse_hdr, HDR_LEN. case_bool_decide; [done|].
  field 0%nat. field 4%nat. field 8%nat. field 16%nat.
  destruct (lookup_lt_is_Some_2 bs 20) as [b Hb]; [lia|]. rewrite Hb. cbn [mbind option_bind].
  eexists. split; [reflexivity|]. by split.
Qed.

Lemma mem_entries_total body n :
  Forall (fits 8) body -> (8 + n * MEM_ENTRY_LEN <= length body)%nat ->
  exists es, mapM (mem_entry body) (seq 0 n) = Some es /\ Forall entry_fits es /\ length es = n.
Proof.
  intros Hf Hl. unfold MEM_ENTRY_LEN in *.
  assert (exists es, Forall2 (fun i e => mem_entry body i = Some e /\ entry_fits e) (seq 0 n) es) as [es Hes].
  { assert (Forall (fun i => i < n)%nat (seq 0 n)) as Hs
      by (apply list.Forall_forall; intros i Hi%elem_of_seq; lia).
    induction Hs as [|i is_ Hi _ [es IH]]; [by exists []|].
    assert (exists e, mem_entry body i = Some e /\ entry_fits e) as (e & He & Hfe).
    { unfold mem_entry, MEM_ENTRY_LEN. field (8 + i * 16)%nat. field (8 + i * 16 + 8)%nat.
      eexists. split; [reflexivity|]. by split. }
    exists (e :: es). by constructor. }
  exists es. split_and!.
  - apply mapM_Some. eapply Forall2_impl; [|exact Hes]. by intros ? ? [? _].
  - induction Hes as [|? ? ? ? [_ ?] _ IH]; constructor; done.
  - apply Forall2_length in Hes. by rewrite length_seq in Hes.
Qed.

Lemma parse_body_total hdr body :
  Forall (fits 8) body ->
  exists r, parse_body hdr body = Some r /\ match r with Ok c => command_fits c | Err _ => True end.
Proof.
  intros Hf. unfold parse_body.
  repeat match goal with |- context [if ?a =? ?b then _ else _] => destruct (a =? b) end;
    try (eexists; split; [reflexivity|]; exact I);
    (case_bool_decide; [eexists; split; [reflexivity|exact I]|]).
  - field 0%nat. field 4%nat. field 8%nat. field 12%nat. eexists. split; [reflexivity|]. cbn. auto.
  - field 0%nat. eexists. split; [reflexivity|]. done.
  - destruct (rect_total body 0) as (r & -> & Hr); [done|lia|]. cbn [mbind option_bind].
    field 16%nat. field 20%nat. eexists. split; [reflexivity|]. cbn. auto.
  - destruct (rect_total body 0) as (r & -> & Hr); [done|lia|]. cbn [mbind option_bind].
    field 16%nat. eexists. split; [reflexivity|]. cbn. auto.
  - destruct (rect_total body 0) as (r & -> & Hr); [done|lia|]. cbn [mbind option_bind].
    field 16%nat. field 24%nat. eexists. split; [reflexivity|]. cbn. auto.
  - field 0%nat. field 4%nat. destruct (Z.ltb_spec MAX_BACKING_ENTRIES v0); [eexists; split; [reflexivity|exact I]|].
    case_bool_decide; [eexists; split; [reflexivity|exact I]|].
    destruct (mem_entries_total body (Z.to_nat v0)) as (es & -> & Hes & Hl); [done|lia|].
    cbn [mbind option_bind]. eexists. split; [reflexivity|]. cbn. split; [done|]. split; [done|].
    destruct Hv0. lia.
  - field 0%nat. eexists. split; [reflexivity|]. done.
  - field 0%nat. eexists. split; [reflexivity|]. done.
Qed.

Lemma parse_total bs :
  Forall (fits 8) bs ->
  exists r, parse bs = Some r /\
    match r with Ok (h, c) => hdr_fits h /\ command_fits c | Err _ => True end.
Proof.
  intros Hf. unfold parse. pose proof (parse_hdr_total bs Hf) as Hh. case_bool_decide.
  - rewrite Hh. cbn. eexists. split; [reflexivity|exact I].
  - destruct Hh as (h & -> & Hh). cbn [mbind option_bind].
    destruct (parse_body_total h (drop HDR_LEN bs)) as (r & -> & Hr); [by apply Forall_drop|].
    cbn [mbind option_bind]. destruct r as [c|e]; eexists; (split; [reflexivity|]); cbn; auto.
Qed.

(** ** Responses *)

Lemma length_set_bytes i new l :
  (i + length new <= length l)%nat -> length (set_bytes i new l) = length l.
Proof. intros Hl. unfold set_bytes. rewrite !length_app, length_take, length_drop. lia. Qed.

Lemma set_bytes_fits i new l :
  Forall (fits 8) new -> Forall (fits 8) l -> Forall (fits 8) (set_bytes i new l).
Proof.
  intros Hn Hl. unfold set_bytes. rewrite !Forall_app. auto using Forall_take, Forall_drop.
Qed.

Lemma set_bytes_lookup i new l k :
  (i + length new <= length l)%nat ->
  set_bytes i new l !! k = if decide (i <= k < i + length new)%nat then new !! (k - i)%nat else l !! k.
Proof. intros Hl. apply (put_slice_lookup l new). by rewrite put_slice_Some. Qed.

#[export] Hint Resolve set_bytes_fits zeros_fit le_bytes_fits be_bytes_fits : tern.

(** Lengths of fixed-size arrays built by assignments. *)
Ltac set_len :=
  rewrite ?length_le_bytes, ?length_be_bytes, ?length_replicate;
  match goal with
  | |- context [length (set_bytes _ _ _)] => rewrite length_set_bytes; set_len
  | _ => unfold DISPLAY_INFO_LEN, EDID_RESP_LEN, HDR_LEN, MAX_SCANOUTS, BLOCK_LEN, NAME in *; cbn [length] in *; lia
  end.

Lemma length_response_hdr h k : length (response_hdr h k) = HDR_LEN.
Proof. unfold response_hdr. destruct (negb _); set_len. Qed.

Lemma response_hdr_fits h k : Forall (fits 8) (response_hdr h k).
Proof. unfold response_hdr. destruct (negb _); eauto 8 with tern. Qed.

Lemma length_modes modes : length (concat (mode_bytes <$> modes)) = (length modes * 24)%nat.
Proof.
  induction modes as [|m modes IH]; [done|]. cbn [fmap list_fmap concat length]. rewrite length_app, IH.
  unfold mode_bytes. rewrite !length_app, !length_le_bytes, !length_replicate. lia.
Qed.

Lemma length_display_info h modes : length (display_info h modes) = DISPLAY_INFO_LEN.
Proof.
  unfold display_info. pose proof (length_modes (take MAX_SCANOUTS modes)) as Hm. rewrite length_take in Hm.
  pose proof (length_response_hdr h RESP_OK_DISPLAY_INFO) as Hr. set_len.
Qed.

Lemma display_info_fits h modes : Forall (fits 8) (display_info h modes).
Proof.
  unfold display_info. apply set_bytes_fits; [|eauto using response_hdr_fits with tern].
  generalize (take MAX_SCANOUTS modes). intros ms. induction ms as [|m ms IH]; [constructor|].
  cbn [fmap list_fmap concat]. apply Forall_app. split; [|done]. unfold mode_bytes. rewrite !Forall_app.
  auto using zeros_fit, le_bytes_fits.
Qed.

Lemma length_write_dtd w h out : length out = 18%nat -> length (write_dtd w h out) = 18%nat.
Proof. intros Ho. unfold write_dtd. set_len. Qed.

Lemma length_write_name out : length out = 18%nat -> length (write_name out) = 18%nat.
Proof.
  intros Ho. unfold write_name. change (length NAME) with 8%nat. set_len.
Qed.

Lemma wrap8_fits v : fits 8 (wrap 8 v).
Proof. by apply wrap_fits. Qed.

Lemma write_dtd_fits w h out : 0 <= w -> 0 <= h -> Forall (fits 8) out -> Forall (fits 8) (write_dtd w h out).
Proof.
  intros Hw Hh Ho. unfold write_dtd. apply set_bytes_fits; [by repeat constructor|]. apply set_bytes_fits.
  - repeat first [apply Forall_nil | apply Forall_cons; [first [apply wrap8_fits|done]|]].
  - auto with tern.
Qed.

Lemma write_name_fits out : Forall (fits 8) out -> Forall (fits 8) (write_name out).
Proof.
  intros Ho. unfold write_name. repeat apply set_bytes_fits; try done.
  - by apply Forall_replicate.
  - repeat constructor; done.
  - repeat constructor; done.
  - repeat constructor; done.
Qed.

(** The unfinished block: everything but the checksum byte. *)
Lemma length_block w h : length (block_for_mode w h) = BLOCK_LEN.
Proof.
  unfold block_for_mode.
  match goal with |- context [take 18 (drop 54 ?e)] => set (e1 := e) end.
  assert (length e1 = BLOCK_LEN) as H1 by (subst e1; unfold BLOCK_LEN; set_len).
  match goal with |- context [take 18 (drop 72 ?e)] => set (e2 := e) end.
  assert (length (take 18 (drop 54 e1)) = 18%nat) as Ht by (rewrite length_take, length_drop, H1; done).
  pose proof (length_write_dtd (Z.max w 1) (Z.max h 1) _ Ht) as Hd.
  assert (length e2 = BLOCK_LEN) as H2 by (subst e2; set_len).
  assert (length (take 18 (drop 72 e2)) = 18%nat) as Ht2 by (rewrite length_take, length_drop, H2; done).
  pose proof (length_write_name _ Ht2) as Hn. set_len.
Qed.

Lemma fold_sum l a : 0 <= a < 256 -> foldl (fun a b => add_w 8 a b) a l = (a + foldr Z.add 0 l) mod 256.
Proof.
  revert a. induction l as [|b l IH]; intros a Ha; cbn [foldl foldr]; [rewrite Z.mod_small; lia|].
  rewrite IH by (unfold add_w, wrap; apply Z.mod_pos_bound; lia). unfold add_w, wrap.
  change (2 ^ 8) with 256. rewrite Zplus_mod_idemp_l. f_equal. lia.
Qed.

Lemma checksum_cancels l : (foldr Z.add 0 (l ++ [checksum l])) mod 256 = 0.
Proof.
  unfold checksum. rewrite fold_sum by lia. unfold wrapping_sub, wrap. change (2 ^ 8) with 256.
  assert (forall l x, foldr Z.add 0 (l ++ [x]) = foldr Z.add 0 l + x) as Happ.
  { clear. intros l x. induction l as [|y l IH]; cbn; [lia|]. rewrite IH. lia. }
  rewrite Happ, Z.add_0_l, Zplus_mod_idemp_r.
  replace (_ + _) with (foldr Z.add 0 l - foldr Z.add 0 l mod 256) by lia.
  rewrite Zminus_mod, Z.mod_mod, Z.sub_diag by lia. done.
Qed.

(** The active pixels and lines of a detailed timing descriptor. *)
Definition dtd_size (out : list Z) : option (Z * Z) :=
  hl ← out !! 2%nat; hh ← out !! 4%nat; vl ← out !! 5%nat; vh ← out !! 7%nat;
  Some (hl + 256 * Z.shiftr hh 4, vl + 256 * Z.shiftr vh 4).

Lemma nibbles_decode a b :
  0 <= a < 4096 -> 0 <= b < 4096 ->
  Z.shiftr (wrap 8 (Z.lor (Z.shiftl (Z.land (Z.shiftr a 8) 0xf) 4) (Z.land (Z.shiftr b 8) 0xf))) 4 = a / 256.
Proof.
  intros Ha Hb. change 0xf with (Z.ones 4). rewrite !Z.land_ones, !Z.shiftr_div_pow2 by lia.
  change (2 ^ 8) with 256. change (2 ^ 4) with 16.
  assert (0 <= a / 256 < 16) by (split; [apply Z.div_pos; lia|apply Z.div_lt_upper_bound; lia]).
  assert (0 <= b / 256 < 16) by (split; [apply Z.div_pos; lia|apply Z.div_lt_upper_bound; lia]).
  rewrite !Z.mod_small by lia. rewrite lor_shiftl_add by lia. change (2 ^ 4) with 16.
  rewrite wrap_small by (unfold fits; lia). rewrite Z.div_add_l, (Z.div_small (b / 256)) by lia. lia.
Qed.

Lemma low_byte a : wrap 8 (Z.land a 0xff) = a mod 256.
Proof.
  change 0xff with (Z.ones 8). rewrite Z.land_ones by lia. unfold wrap. by rewrite Z.mod_mod.
Qed.

Lemma write_dtd_size w h out :
  1 <= w -> 1 <= h -> length out = 18%nat -> dtd_size (write_dtd w h out) = Some (Z.min w 4095, Z.min h 4095).
Proof.
  intros Hw Hh Ho. unfold dtd_size, write_dtd.
  rewrite !set_bytes_lookup by set_len. cbn [length].
  repeat (case_decide; try lia).
  cbn [Nat.sub lookup list_lookup mbind option_bind]. rewrite !nibbles_decode, !low_byte by lia.
  assert (forall x, x mod 256 + 256 * (x / 256) = x) as He by (intros x; rewrite Z.add_comm, <- Z.div_mod by lia; done).
  by rewrite !He.
Qed.

(** The EDID block of any mode has 128 bytes that sum to 0 modulo 256, and its
    preferred timing is the mode, up to the 12 bits of the format. *)
Theorem edid_block_valid w h :
  1 <= w -> 1 <= h ->
  length (block_for_mode w h) = BLOCK_LEN /\
  foldr Z.add 0 (block_for_mode w h) mod 256 = 0 /\
  dtd_size (take 18 (drop 54 (block_for_mode w h))) = Some (Z.min w 4095, Z.min h 4095).
Proof.
  intros Hw Hh. split; [apply length_block|]. pose proof (length_block w h) as Hlen.
  unfold block_for_mode in *. rewrite !Z.max_l by lia. rewrite !Z.max_l in Hlen by lia.
  match goal with |- context [take 18 (drop 54 ?e)] => set (e1 := e) in * end.
  assert (length e1 = BLOCK_LEN) as H1 by (subst e1; unfold BLOCK_LEN; set_len).
  assert (length (take 18 (drop 54 e1)) = 18%nat) as Ht by (rewrite length_take, length_drop, H1; done).
  set (dtd := write_dtd w h (take 18 (drop 54 e1))) in *.
  assert (length dtd = 18%nat) as Hd by (by apply length_write_dtd).
  match goal with |- context [take 18 (drop 72 ?e)] => set (e2 := e) in * end.
  assert (length e2 = BLOCK_LEN) as H2 by (subst e2; set_len).
  assert (length (take 18 (drop 72 e2)) = 18%nat) as Ht2 by (rewrite length_take, length_drop, H2; done).
  pose proof (length_write_name _ Ht2) as Hn. set (name := write_name (take 18 (drop 72 e2))) in *.
  set (e3 := set_bytes 72 name e2) in *. assert (length e3 = BLOCK_LEN) as H3 by (subst e3; set_len).
  split.
  - unfold set_bytes. rewrite (drop_ge e3) by (rewrite H3; cbn; unfold BLOCK_LEN; lia). rewrite app_nil_r.
    apply checksum_cancels.
  - rewrite <- (write_dtd_size w h (take 18 (drop 54 e1))) by done. fold dtd. f_equal.
Qed.

Lemma edid_response_ok h w ht :
  length (edid_response h (block_for_mode w ht)) = EDID_RESP_LEN.
Proof.
  unfold edid_response, wire_edid. pose proof (length_response_hdr h RESP_OK_EDID). pose proof (length_block w ht).
  set (r := response_hdr _ _) in *. set (b := block_for_mode w ht) in *.
  assert (BLOCK_LEN <= WIRE_EDID_LEN)%nat by (apply Nat.leb_le; vm_compute; reflexivity).
  assert (WIRE_EDID_LEN + 32 = EDID_RESP_LEN)%nat by (unfold EDID_RESP_LEN, HDR_LEN; lia).
  rewrite !length_set_bytes; rewrite ?length_set_bytes; rewrite ?length_set_bytes;
    rewrite ?length_le_bytes, ?length_replicate, ?H; unfold HDR_LEN; lia.
Qed.
