(* ===== verification/Gpu.v ===== *)
(** * virtio-gpu: resources, scanouts, the 2D command processor and its worker

    Model of [ternvale-gpu/src]: the host pixel copies and their guest backing
    ([resource.rs]), the frames a viewer reads ([scanout.rs]), the command
    processor ([gpu2d.rs]), the queue worker ([worker.rs]) and the device's
    configuration space ([device.rs]), built without [gpu3d] (the default), so
    that [GpuEngine] is its 2D part.  Pixels are byte lists, row after row.
    [None] is a panic: a slice out of range, an index out of bounds, or a
    subtraction below zero.  The invariant shows that no request can cause one.
    Timestamps ([updated], [last_flush]) only feed latency logs and are left
    out. *)

From stdpp Require Import gmap list.
From S2P Require Import Prelude GuestMemory VirtioQueue QueueDevice VirtioIrq VirtioCore GpuProto.

(** ** Resources ([resource.rs]) *)

Definition BYTES_PER_PIXEL : Z := 4.

Inductive PixelFormat :=
  | B8g8r8a8 | B8g8r8x8 | A8r8g8b8 | X8r8g8b8 | R8g8b8a8 | X8b8g8r8 | A8b8g8r8 | R8g8b8x8.

Definition from_wire (format : Z) : option PixelFormat :=
  if format =? 1 then Some B8g8r8a8
  else if format =? 2 then Some B8g8r8x8
  else if format =? 3 then Some A8r8g8b8
  else if format =? 4 then Some X8r8g8b8
  else if format =? 67 then Some R8g8b8a8
  else if format =? 68 then Some X8b8g8r8
  else if format =? 121 then Some A8b8g8r8
  else if format =? 134 then Some R8g8b8x8
  else None.

Definition to_wire (f : PixelFormat) : Z :=
  match f with
  | B8g8r8a8 => 1 | B8g8r8x8 => 2 | A8r8g8b8 => 3 | X8r8g8b8 => 4
  | R8g8b8a8 => 67 | X8b8g8r8 => 68 | A8b8g8r8 => 121 | R8g8b8x8 => 134
  end.

Inductive TransferError :=
  | PastBacking (start end_ total : Z)
  | Unmapped (addr : Z).

Record Backing := { b_entries : list MemEntry; b_starts : list Z; b_total : Z }.

(** The loop of [Backing::new]. *)
Fixpoint starts_from (total : Z) (entries : list MemEntry) : list Z * Z :=
  match entries with
  | [] => ([], total)
  | e :: entries =>
      let '(starts, t) := starts_from (add_w 64 total (e_len e)) entries in (total :: starts, t)
  end.

Definition backing_new (entries : list MemEntry) : Backing :=
  let '(starts, total) := starts_from 0 entries in
  {| b_entries := entries; b_starts := starts; b_total := total |}.

Record Resource := {
  r_format : PixelFormat;
  r_width : Z;
  r_height : Z;
  r_pixels : list Z;
  r_backing : option Backing;
}.

Definition resource_new (format : PixelFormat) (width height : Z) : Resource :=
  {| r_format := format; r_width := width; r_height := height;
     r_pixels := replicate (Z.to_nat (width * height * BYTES_PER_PIXEL)) 0; r_backing := None |}.

Definition stride (r : Resource) : Z := r_width r * BYTES_PER_PIXEL.

Definition set_pixels (r : Resource) (pixels : list Z) : Resource :=
  {| r_format := r_format r; r_width := r_width r; r_height := r_height r; r_pixels := pixels;
     r_backing := r_backing r |}.
Definition set_backing (r : Resource) (backing : option Backing) : Resource :=
  {| r_format := r_format r; r_width := r_width r; r_height := r_height r; r_pixels := r_pixels r;
     r_backing := backing |}.

Section memory.
Context {M : Type} `{!ByteMemory M}.

Definition entry_unmapped (mem : M) (e : MemEntry) : bool :=
  if e_len e =? 0 then false
  else
    match checked_add 64 (e_addr e) (e_len e - 1) with
    | None => true
    | Some last => negb (is_ok (bm_read mem (e_addr e) 1)) || negb (is_ok (bm_read mem last 1))
    end.

Definition first_unmapped (mem : M) (b : Backing) : option nat := position (entry_unmapped mem) (b_entries b).

(** The loop of [Backing::read] over the entries from [index] on: [dst] from
    [copied] on is filled with the bytes [at_..end_]. *)
Fixpoint read_entries (mem : M) (es : list (MemEntry * Z)) (at_ end_ : Z) (copied : nat) (dst : list Z) :
    option (result TransferError unit * list Z) :=
  if at_ <? end_ then
    match es with
    | [] => None
    | (e, start) :: es =>
        let within := at_ - start in
        if e_len e <? within then None
        else
          let n := Z.min (e_len e - within) (end_ - at_) in
          if 0 <? n then
            let addr := add_w 64 (e_addr e) within in
            match bm_read mem addr (Z.to_nat n) with
            | Err _ => Some (Err (Unmapped addr), dst)
            | Ok bs =>
                dst ← put_slice dst copied bs;
                read_entries mem es (at_ + n) end_ (copied + Z.to_nat n) dst
            end
          else read_entries mem es at_ end_ copied dst
    end
  else Some (Ok (), dst).

Definition backing_read (mem : M) (b : Backing) (offset : Z) (dst : list Z) :
    option (result TransferError unit * list Z) :=
  let len := Z.of_nat (length dst) in
  match checked_add 64 offset len with
  | Some end_ =>
      if end_ <=? b_total b then
        match dst with
        | [] => Some (Ok (), dst)
        | _ =>
            match partition_point (fun start => start <=? offset) (b_starts b) with
            | O => None
            | S index =>
                read_entries mem (drop index (zip (b_entries b) (b_starts b))) offset end_ 0 dst
            end
        end
      else Some (Err (PastBacking offset (saturating_add 64 offset len) (b_total b)), dst)
  | None => Some (Err (PastBacking offset (saturating_add 64 offset len) (b_total b)), dst)
  end.

(** The rows [h..] of [Resource::transfer_from]; the pixels keep the rows copied
    before an error. *)
Fixpoint transfer_rows (mem : M) (b : Backing) (rect : Rect) (offset stride : Z) (hs : list Z)
    (pixels : list Z) : option (result TransferError unit * list Z) :=
  match hs with
  | [] => Some (Ok (), pixels)
  | h :: hs =>
      match checked_add 64 offset (stride * h) with
      | None => Some (Err (PastBacking offset (2 ^ 64 - 1) (b_total b)), pixels)
      | Some src =>
          let row_bytes := Z.to_nat (rw rect * BYTES_PER_PIXEL) in
          let dst := Z.to_nat ((ry rect + h) * stride + rx rect * BYTES_PER_PIXEL) in
          row ← slice pixels dst row_bytes;
          '(res, row) ← backing_read mem b src row;
          pixels ← put_slice pixels dst row;
          match res with
          | Err e => Some (Err e, pixels)
          | Ok _ => transfer_rows mem b rect offset stride hs pixels
          end
      end
  end.

Definition transfer_from (mem : M) (r : Resource) (b : Backing) (rect : Rect) (offset : Z) :
    option (result TransferError Z * Resource) :=
  '(res, pixels) ← transfer_rows mem b rect offset (stride r) (seqZ 0 (rh rect)) (r_pixels r);
  let res := match res with Ok _ => Ok (rw rect * BYTES_PER_PIXEL * rh rect) | Err e => Err e end in
  Some (res, set_pixels r pixels).
End memory.

(** ** Scanouts ([scanout.rs]) *)

Record Frame := {
  f_width : Z;
  f_height : Z;
  f_format : option PixelFormat;
  f_pixels : list Z;
  f_sequence : Z;
}.

Definition frame_default : Frame :=
  {| f_width := 0; f_height := 0; f_format := None; f_pixels := []; f_sequence := 0 |}.

Definition frame_stride (f : Frame) : Z := f_width f * BYTES_PER_PIXEL.

Definition pixel (f : Frame) (x y : Z) : option (list Z) :=
  if (f_width f <=? x) || (f_height f <=? y) then None
  else slice (f_pixels f) (Z.to_nat (y * frame_stride f + x * BYTES_PER_PIXEL)) 4.

Record GpuDisplay := { d_modes : list (Z * Z); d_frames : list Frame }.

Definition display_new (modes : list (Z * Z)) : GpuDisplay :=
  {| d_modes := modes; d_frames := (fun _ => frame_default) <$> modes |}.

Record ScanoutState := { s_resource_id : Z; s_rect : Rect }.
Definition scanout_default : ScanoutState := {| s_resource_id := 0; s_rect := rect_default |}.

(** The rows of [copy_into]. *)
Fixpoint copy_rows (src : Resource) (dst_stride : Z) (view damage : Rect) (hs : list Z) (pixels : list Z) :
    option (list Z) :=
  match hs with
  | [] => Some pixels
  | h :: hs =>
      let sy := ry damage + h in
      let row := Z.to_nat (rw damage * BYTES_PER_PIXEL) in
      let s := Z.to_nat (sy * stride src + rx damage * BYTES_PER_PIXEL) in
      if (sy <? ry view) || (rx damage <? rx view) then None
      else
        let d := Z.to_nat ((sy - ry view) * dst_stride + (rx damage - rx view) * BYTES_PER_PIXEL) in
        bytes ← slice (r_pixels src) s row;
        pixels ← put_slice pixels d bytes;
        copy_rows src dst_stride view damage hs pixels
  end.

Definition copy_into (f : Frame) (src : Resource) (view damage : Rect) : option Frame :=
  pixels ← copy_rows src (frame_stride f) view damage (seqZ 0 (rh damage)) (f_pixels f);
  Some {| f_width := f_width f; f_height := f_height f; f_format := f_format f; f_pixels := pixels;
          f_sequence := f_sequence f |}.

Definition bump (f : Frame) : Frame :=
  {| f_width := f_width f; f_height := f_height f; f_format := f_format f; f_pixels := f_pixels f;
     f_sequence := add_w 64 (f_sequence f) 1 |}.

Definition show (f : Frame) (src : Resource) (rect : Rect) : option Frame :=
  let f := {| f_width := rw rect; f_height := rh rect; f_format := Some (r_format src);
              f_pixels := replicate (Z.to_nat (rw rect * BYTES_PER_PIXEL * rh rect)) 0;
              f_sequence := f_sequence f |} in
  f ← copy_into f src rect rect;
  Some (bump f).

Definition blank (f : Frame) : Frame :=
  {| f_width := 0; f_height := 0; f_format := None; f_pixels := []; f_sequence := add_w 64 (f_sequence f) 1 |}.

(** ** The command processor ([gpu2d.rs]) *)

Definition MAX_HOSTMEM : Z := Z.shiftl 256 20.
Definition MAX_DIMENSION : Z := 16384.

Record GpuStats := { st_commands : Z; st_errors : Z; st_flushes : Z; st_transferred : Z }.

Record Gpu2d := {
  g_display : GpuDisplay;
  g_resources : gmap Z Resource;
  g_scanouts : list ScanoutState;
  g_hostmem : Z;
  g_stats : GpuStats;
}.

Definition gpu_new (display : GpuDisplay) (stats : GpuStats) : Gpu2d :=
  {| g_display := display; g_resources := ∅; g_scanouts := replicate (length (d_frames display)) scanout_default;
     g_hostmem := 0; g_stats := stats |}.

Definition set_resources (g : Gpu2d) (resources : gmap Z Resource) (hostmem : Z) : Gpu2d :=
  {| g_display := g_display g; g_resources := resources; g_scanouts := g_scanouts g; g_hostmem := hostmem;
     g_stats := g_stats g |}.
Definition set_outputs (g : Gpu2d) (frames : list Frame) (scanouts : list ScanoutState) : Gpu2d :=
  {| g_display := {| d_modes := d_modes (g_display g); d_frames := frames |}; g_resources := g_resources g;
     g_scanouts := scanouts; g_hostmem := g_hostmem g; g_stats := g_stats g |}.
Definition set_stats (g : Gpu2d) (stats : GpuStats) : Gpu2d :=
  {| g_display := g_display g; g_resources := g_resources g; g_scanouts := g_scanouts g;
     g_hostmem := g_hostmem g; g_stats := stats |}.

Definition count (commands errors flushes transferred : Z) (g : Gpu2d) : Gpu2d :=
  let s := g_stats g in
  set_stats g {| st_commands := add_w 64 (st_commands s) commands; st_errors := add_w 64 (st_errors s) errors;
                 st_flushes := add_w 64 (st_flushes s) flushes;
                 st_transferred := add_w 64 (st_transferred s) transferred |}.

(** [with_frame(index, blank)] for the scanouts that show [shown]; those are
    disabled. *)
Fixpoint disable_where (shown : Z -> bool) (i : nat) (states : list ScanoutState) (frames : list Frame) :
    list ScanoutState * list Frame :=
  match states with
  | [] => ([], frames)
  | s :: states =>
      let '(s, frames) :=
        if shown (s_resource_id s) then (scanout_default, alter blank i frames) else (s, frames) in
      let '(states, frames) := disable_where shown (S i) states frames in
      (s :: states, frames)
  end.

Definition gpu_reset (g : Gpu2d) : Gpu2d :=
  let '(_, frames) := disable_where (fun id => negb (id =? 0)) 0 (g_scanouts g) (d_frames (g_display g)) in
  set_outputs (set_resources g ∅ 0) frames ((fun _ => scanout_default) <$> g_scanouts g).

(** [Fail]: the response type; the reason is logged. *)
Notation Fail := Z (only parsing).

Definition create (g : Gpu2d) (id format width height : Z) : result Fail Gpu2d :=
  if (id =? 0) || bool_decide (is_Some (g_resources g !! id)) then Err RESP_ERR_INVALID_RESOURCE_ID
  else
    match from_wire format with
    | None => Err RESP_ERR_INVALID_PARAMETER
    | Some pixel_format =>
        if (width =? 0) || (height =? 0) || (MAX_DIMENSION <? width) || (MAX_DIMENSION <? height)
        then Err RESP_ERR_INVALID_PARAMETER
        else
          let bytes := width * height * BYTES_PER_PIXEL in
          if MAX_HOSTMEM <? add_w 64 (g_hostmem g) bytes then Err RESP_ERR_OUT_OF_MEMORY
          else Ok (set_resources g (<[id := resource_new pixel_format width height]> (g_resources g))
                     (add_w 64 (g_hostmem g) bytes))
    end.

Definition unref (g : Gpu2d) (id : Z) : result Fail Gpu2d :=
  match g_resources g !! id with
  | None => Err RESP_ERR_INVALID_RESOURCE_ID
  | Some r =>
      let g := set_resources g (delete id (g_resources g))
                 (wrapping_sub 64 (g_hostmem g) (Z.of_nat (length (r_pixels r)))) in
      let '(states, frames) := disable_where (fun shown => shown =? id) 0 (g_scanouts g) (d_frames (g_display g)) in
      Ok (set_outputs g frames states)
  end.

Definition set_scanout (g : Gpu2d) (rect : Rect) (scanout_id id : Z) : option (result Fail Gpu2d) :=
  let index := Z.to_nat scanout_id in
  let frames := d_frames (g_display g) in
  if bool_decide (length (g_scanouts g) <= index)%nat then Some (Err RESP_ERR_INVALID_SCANOUT_ID)
  else if id =? 0 then
    Some (Ok (set_outputs g (alter blank index frames) (<[index := scanout_default]> (g_scanouts g))))
  else
    match g_resources g !! id with
    | None => Some (Err RESP_ERR_INVALID_RESOURCE_ID)
    | Some r =>
        if negb (fits_in rect (r_width r) (r_height r)) then Some (Err RESP_ERR_INVALID_PARAMETER)
        else
          frames ←
            match frames !! index with
            | Some f => f ← show f r rect; Some (<[index := f]> frames)
            | None => Some frames
            end;
          Some (Ok (set_outputs g frames
                      (<[index := {| s_resource_id := id; s_rect := rect |}]> (g_scanouts g))))
    end.

(** The loop of [flush]: the frames, and whether a scanout was reached. *)
Fixpoint flush_loop (r : Resource) (rect : Rect) (id : Z) (i : nat) (states : list ScanoutState)
    (frames : list Frame) (reached : bool) : option (list Frame * bool) :=
  match states with
  | [] => Some (frames, reached)
  | s :: states =>
      if negb (s_resource_id s =? id) then flush_loop r rect id (S i) states frames reached
      else
        match intersect rect (s_rect s) with
        | None => flush_loop r rect id (S i) states frames reached
        | Some damage =>
            match frames !! i with
            | None => flush_loop r rect id (S i) states frames reached
            | Some f =>
                f ← copy_into f r (s_rect s) damage;
                flush_loop r rect id (S i) states (<[i := bump f]> frames) true
            end
        end
  end.

Definition flush (g : Gpu2d) (rect : Rect) (id : Z) : option (result Fail Gpu2d) :=
  match g_resources g !! id with
  | None => Some (Err RESP_ERR_INVALID_RESOURCE_ID)
  | Some r =>
      if negb (fits_in rect (r_width r) (r_height r)) then Some (Err RESP_ERR_INVALID_PARAMETER)
      else
        match flush_loop r rect id 0 (g_scanouts g) (d_frames (g_display g)) false with
        | None => None
        | Some (frames, reached) =>
            let g := set_outputs g frames (g_scanouts g) in
            Some (Ok (if reached then count 0 0 1 0 g else g))
        end
  end.

Section processor.
Context {M : Type} `{!ByteMemory M}.

(** [transfer] changes the pixels also when it fails halfway. *)
Definition transfer (mem : M) (g : Gpu2d) (rect : Rect) (offset id : Z) : option (result Fail unit * Gpu2d) :=
  match g_resources g !! id with
  | None => Some (Err RESP_ERR_INVALID_RESOURCE_ID, g)
  | Some r =>
      if negb (fits_in rect (r_width r) (r_height r)) then Some (Err RESP_ERR_INVALID_PARAMETER, g)
      else
        match r_backing r with
        | None => Some (Err RESP_ERR_UNSPEC, g)
        | Some b =>
            match transfer_from mem r b rect offset with
            | None => None
            | Some (res, r) =>
                let g := set_resources g (<[id := r]> (g_resources g)) (g_hostmem g) in
                match res with
                | Err _ => Some (Err RESP_ERR_INVALID_PARAMETER, g)
                | Ok bytes => Some (Ok (), count 0 0 0 bytes g)
                end
            end
        end
  end.

Definition attach (mem : M) (g : Gpu2d) (id : Z) (entries : list MemEntry) : result Fail Gpu2d :=
  match g_resources g !! id with
  | None => Err RESP_ERR_INVALID_RESOURCE_ID
  | Some r =>
      if bool_decide (is_Some (r_backing r)) then Err RESP_ERR_UNSPEC
      else
        let b := backing_new entries in
        match first_unmapped mem b with
        | Some _ => Err RESP_ERR_INVALID_PARAMETER
        | None => Ok (set_resources g (<[id := set_backing r (Some b)]> (g_resources g)) (g_hostmem g))
        end
  end.

Definition detach (g : Gpu2d) (id : Z) : result Fail Gpu2d :=
  match g_resources g !! id with
  | None => Err RESP_ERR_INVALID_RESOURCE_ID
  | Some r =>
      if bool_decide (r_backing r = None) then Err RESP_ERR_UNSPEC
      else Ok (set_resources g (<[id := set_backing r None]> (g_resources g)) (g_hostmem g))
  end.

Definition get_edid (g : Gpu2d) (hdr : CtrlHdr) (scanout_id : Z) : list Z * Gpu2d :=
  match d_modes (g_display g) !! Z.to_nat scanout_id with
  | None => (response_hdr hdr RESP_ERR_INVALID_SCANOUT_ID, count 0 1 0 0 g)
  | Some mode => (edid_response hdr (block_for_mode mode.1 mode.2), g)
  end.

Definition parse_failed (g : Gpu2d) (request : list Z) (error : ParseError) : option (list Z * Gpu2d) :=
  let g := count 0 1 0 0 g in
  h ← parse_hdr request;
  match h with
  | Err _ => Some ([], g)
  | Ok hdr =>
      let k := match error with TooManyEntries _ _ => RESP_ERR_INVALID_PARAMETER | _ => RESP_ERR_UNSPEC end in
      Some (response_hdr hdr k, g)
  end.

(** The response to a command that only succeeds or fails. *)
Definition answer (hdr : CtrlHdr) (g : Gpu2d) (res : result Fail Gpu2d) : list Z * Gpu2d :=
  match res with
  | Ok g => (response_hdr hdr RESP_OK_NODATA, g)
  | Err k => (response_hdr hdr k, count 0 1 0 0 g)
  end.

Definition handle (mem : M) (g : Gpu2d) (request : list Z) : option (list Z * Gpu2d) :=
  let g := count 1 0 0 0 g in
  p ← parse request;
  match p with
  | Err e => parse_failed g request e
  | Ok (hdr, command) =>
      match command with
      | GetDisplayInfo => Some (display_info hdr (d_modes (g_display g)), g)
      | GetEdid scanout_id => Some (get_edid g hdr scanout_id)
      | ResourceCreate2d id format width height => Some (answer hdr g (create g id format width height))
      | ResourceUnref id => Some (answer hdr g (unref g id))
      | SetScanout rect scanout_id id => answer hdr g <$> set_scanout g rect scanout_id id
      | ResourceFlush rect id => answer hdr g <$> flush g rect id
      | TransferToHost2d rect offset id =>
          match transfer mem g rect offset id with
          | None => None
          | Some (res, g) => Some (answer hdr g (match res with Ok _ => Ok g | Err k => Err k end))
          end
      | ResourceAttachBacking id entries => Some (answer hdr g (attach mem g id entries))
      | ResourceDetachBacking id => Some (answer hdr g (detach g id))
      | Unsupported => Some (answer hdr g (Err RESP_ERR_UNSPEC))
      end
  end.

(** ** The worker ([worker.rs]) *)

Definition MAX_REQUEST : Z := 512 * 1024.

(** [room] is what is left of the output. *)
Fixpoint gather_loop (mem : M) (bufs : list Buffer) (room : Z) : list Z :=
  match bufs with
  | [] => replicate (Z.to_nat room) 0
  | b :: bufs =>
      let n := Z.min (buf_len b) room in
      if n =? 0 then gather_loop mem bufs room
      else
        match bm_read mem (buf_addr b) (Z.to_nat n) with
        | Err _ => []
        | Ok bs => bs ++ gather_loop mem bufs (room - n)
        end
  end.

Definition gather (mem : M) (readable : list Buffer) : list Z :=
  let total := foldr (fun b n => buf_len b + n) 0 readable in
  gather_loop mem readable (Z.min total MAX_REQUEST).

(** The bytes written; the memory keeps what was written before an error. *)
Fixpoint scatter (mem : M) (writable : list Buffer) (response : list Z) : Z * M :=
  match writable with
  | [] => (0, mem)
  | b :: writable =>
      match response with
      | [] => (0, mem)
      | _ =>
          let n := Z.to_nat (Z.min (buf_len b) (Z.of_nat (length response))) in
          match bm_write mem (buf_addr b) (take n response) with
          | Err _ => (0, mem)
          | Ok mem =>
              let '(written, mem) := scatter mem writable (drop n response) in
              (Z.of_nat n + written, mem)
          end
      end
  end.

Definition CONTROL_QUEUE : Z := 0.
Definition CURSOR_QUEUE : Z := 1.

(** The chains of one [serve]; [None] is a panic. *)
Fixpoint serve_chains (index : Z) (mem : M) (q : SplitQueue) (cs : list Chain) (g : Gpu2d) (completed : bool) :
    option (bool * SplitQueue * M * Gpu2d) :=
  match cs with
  | [] => Some (completed, q, mem, g)
  | c :: cs =>
      let request := gather mem (c_readable c) in
      '(response, g) ← (if index =? CONTROL_QUEUE then handle mem g request else Some ([], g));
      let '(written, mem) := scatter mem (c_writable c) response in
      match add_used q mem (c_head c) (wrap 32 written) with
      | (q, mem, Ret b) => serve_chains index mem q cs g (completed || b)
      | (_, _, _) => None
      end
  end.

(** Enough pops to drain a queue of any size: the available index is 16 bits. *)
Definition CHAINS : nat := Z.to_nat (2 ^ 16).

Definition serve (index : Z) (q : SplitQueue) (mem : M) (g : Gpu2d) : option (bool * SplitQueue * M * Gpu2d) :=
  let '(q, cs, _) := chains mem CHAINS q in
  serve_chains index mem q cs g false.

Definition INT_VRING : Z := 1.

Inductive Kick := KNotify (n : QueueNotify) | KReset.

Record Bound := { bd_key : Z * Z * Z * Z; bd_queue : SplitQueue }.
Record Worker := { w_gpu : Gpu2d; w_queues : list (option Bound) }.

Definition worker_new (g : Gpu2d) : Worker := {| w_gpu := g; w_queues := [None; None] |}.

Definition notify_key (n : QueueNotify) : Z * Z * Z * Z := (n_size n, n_desc n, n_avail n, n_used n).

Definition bind_queue (n : QueueNotify) (slot : option Bound) : Bound :=
  let fresh := {| bd_key := notify_key n;
                  bd_queue := VirtioQueue.new (n_size n) (n_desc n) (n_avail n) (n_used n)
                    (negb (Z.land (n_features n) VIRTIO_F_INDIRECT_DESC =? 0))
                    (negb (Z.land (n_features n) VIRTIO_F_EVENT_IDX =? 0)) |} in
  match slot with
  | Some b => if bool_decide (bd_key b = notify_key n) then b else fresh
  | None => fresh
  end.

(** One message of [run]. *)
Definition on_kick (w : Worker) (mem : M) (irq : Irq) (k : Kick) : option (Worker * M * Irq) :=
  match k with
  | KReset => Some ({| w_gpu := gpu_reset (w_gpu w); w_queues := [None; None] |}, mem, irq)
  | KNotify n =>
      let i := Z.to_nat (n_index n) in
      match w_queues w !! i with
      | None => Some (w, mem, irq)
      | Some slot =>
          let b := bind_queue n slot in
          match serve (n_index n) (bd_queue b) mem (w_gpu w) with
          | None => None
          | Some (completed, q, mem, g) =>
              let '(q, needed) := if completed then notification_needed q mem else (q, false) in
              let irq := if needed then raise INT_VRING irq else irq in
              Some ({| w_gpu := g; w_queues := <[i := Some {| bd_key := bd_key b; bd_queue := q |}]> (w_queues w) |},
                    mem, irq)
          end
      end
  end.
End processor.

(** ** The device ([device.rs]) *)

Definition VIRTIO_GPU_ID : Z := 16.
Definition CONFIG_LEN : Z := 16.
Definition F_EDID : Z := Z.shiftl 1 1.
Definition DEFAULT_MODE : Z * Z := (1280, 800).
Definition EVENT_DISPLAY : Z := 1.
Definition INT_CONFIG : Z := 2.

Inductive GpuError := BadConfig | BadSlot (slot : Z) | Spawn.

Definition bad_mode (m : Z * Z) : bool :=
  (m.1 =? 0) || (m.2 =? 0) || (MAX_DIMENSION <? m.1) || (MAX_DIMENSION <? m.2).

Definition validate (modes : list (Z * Z)) : result GpuError unit :=
  if bool_decide (modes = []) || bool_decide (MAX_SCANOUTS < length modes)%nat then Err BadConfig
  else if existsb bad_mode modes then Err BadConfig
  else Ok ().

Inductive HostModeError := BadScanout (scanout scanouts : nat) | Dimensions (width height max : Z).

(** [request_host_mode], with the device's resize hook: the pending events and
    the interrupt line. *)
Definition request_host_mode (d : GpuDisplay) (events_read : Z) (irq : Irq) (scanout : nat) (width height : Z) :
    result HostModeError (GpuDisplay * Z * Irq) :=
  if bad_mode (width, height) then Err (Dimensions width height MAX_DIMENSION)
  else
    match d_modes d !! scanout with
    | None => Err (BadScanout scanout (length (d_modes d)))
    | Some mode =>
        if bool_decide (mode = (width, height)) then Ok (d, events_read, irq)
        else
          Ok ({| d_modes := <[scanout := (width, height)]> (d_modes d); d_frames := d_frames d |},
              Z.lor events_read EVENT_DISPLAY, raise INT_CONFIG irq)
    end.

Definition config_bytes (events_read : Z) (modes : nat) : list Z :=
  set_bytes 8 (le_bytes 4 (wrap 32 (Z.of_nat modes)))
    (set_bytes 0 (le_bytes 4 events_read) (replicate (Z.to_nat CONFIG_LEN) 0)).

(** [read_config]: the panic is an index past the record. *)
Definition gpu_read_config (events_read : Z) (modes : nat) (offset size : Z) : option Z :=
  match checked_add 64 offset size with
  | Some end_ =>
      if (end_ <=? CONFIG_LEN) && bool_decide (size ∈ [1; 2; 4; 8]) then
        le_at (Z.to_nat size) (config_bytes events_read modes) (Z.to_nat offset)
      else Some 0
  | None => Some 0
  end.

Definition gpu_write_config (events_read offset size value : Z) : Z :=
  if (offset =? 4) && (size =? 4) then Z.land events_read (not_w 32 (wrap 32 value)) else events_read.

(** ** Rectangles *)

Lemma fits_in_spec r width height :
  rect_fits r -> fits_in r width height = true ->
  0 < rw r /\ 0 < rh r /\ rx r + rw r <= width /\ ry r + rh r <= height.
Proof.
  intros [] Hf. unfold fits_in in Hf. rewrite !andb_true_iff in Hf.
  destruct (checked_add 32 (rx r) (rw r)) as [a|] eqn:Ha; [|naive_solver].
  destruct (checked_add 32 (ry r) (rh r)) as [b|] eqn:Hb; [|naive_solver].
  apply checked_add_Some in Ha as [-> _]. apply checked_add_Some in Hb as [-> _]. lia.
Qed.

(** The pixel ([x], [y]) is in the rectangle. *)
Definition inside (r : Rect) (x y : Z) : Prop := rx r <= x < rx r + rw r /\ ry r <= y < ry r + rh r.

#[export] Instance inside_dec r x y : Decision (inside r x y).
Proof. unfold inside. apply _. Defined.

(** [intersect] is the set intersection. *)
Lemma intersect_spec a b :
  rect_fits a -> rect_fits b ->
  match intersect a b with
  | Some c => rect_fits c /\ 0 < rw c /\ 0 < rh c /\ forall x y, inside c x y <-> inside a x y /\ inside b x y
  | None => forall x y, ~ (inside a x y /\ inside b x y)
  end.
Proof.
  intros [[] [] [] []] [[] [] [] []]. unfold intersect, inside.
  destruct (Z.ltb_spec (Z.max (rx a) (rx b)) (Z.min (rx a + rw a) (rx b + rw b))),
    (Z.ltb_spec (Z.max (ry a) (ry b)) (Z.min (ry a + rh a) (ry b + rh b))); cbn [andb]; try (intros x y; lia).
  cbn [rx ry rw rh]. rewrite !wrap_small by (unfold fits; lia).
  split; [split; cbn; unfold fits; lia|]. split; [lia|]. split; [lia|]. intros x y. lia.
Qed.

(** ** Pixel addressing *)

(** Byte [c] of row [r] of rows of [s] bytes. *)
Definition cell (s r c : Z) : nat := Z.to_nat (r * s + c).

Lemma cell_row s r c R X len :
  0 <= r -> 0 <= c < s -> 0 <= R -> 0 <= X -> 0 <= len -> X + len <= s ->
  (cell s R X <= cell s r c < cell s R X + Z.to_nat len)%nat <-> r = R /\ X <= c < X + len.
Proof.
  intros. unfold cell. split; [|intros [-> ?]; nia]. intros Hk.
  assert (0 <= R * s) by nia. assert (0 <= r * s) by nia.
  assert (r = R) as -> by nia. nia.
Qed.

Lemma cell_fit s r c len n :
  0 <= r < n -> 0 <= c -> 0 <= len -> c + len <= s -> (cell s r c + Z.to_nat len <= Z.to_nat (s * n))%nat.
Proof.
  intros Hr Hc Hl Hs. unfold cell. assert (0 <= r * s) by (apply Z.mul_nonneg_nonneg; lia).
  assert ((r + 1) * s <= n * s) by (apply Z.mul_le_mono_nonneg_r; lia). lia.
Qed.

Lemma cell_shift s r c d : 0 <= r -> 0 <= c -> 0 <= d -> 0 <= s -> (cell s r c + Z.to_nat d)%nat = cell s r (c + d).
Proof.
  intros. unfold cell. assert (0 <= r * s) by (apply Z.mul_nonneg_nonneg; lia). lia.
Qed.

Lemma cell_diff s r c d : 0 <= r -> 0 <= c <= d -> 0 <= s -> (cell s r d - cell s r c)%nat = Z.to_nat (d - c).
Proof.
  intros. unfold cell. assert (0 <= r * s) by (apply Z.mul_nonneg_nonneg; lia). lia.
Qed.

(** The rows [copy_rows] has to write stay in the frame and in the source, and
    afterwards a byte of the frame is the source's byte where a row was copied,
    and as before elsewhere. *)
Lemma copy_rows_spec src view damage hs pixels :
  let S := rw view * 4 in
  rect_fits view -> rect_fits damage ->
  length (r_pixels src) = Z.to_nat (stride src * r_height src) ->
  rx damage + rw damage <= r_width src -> ry damage + rh damage <= r_height src ->
  rx view <= rx damage -> ry view <= ry damage ->
  rx damage + rw damage <= rx view + rw view -> ry damage + rh damage <= ry view + rh view ->
  length pixels = Z.to_nat (S * rh view) ->
  Forall (fun h => 0 <= h < rh damage) hs ->
  exists pixels', copy_rows src S view damage hs pixels = Some pixels' /\ length pixels' = length pixels /\
    forall r c, 0 <= r -> 0 <= c < S ->
      pixels' !! cell S r c =
      if decide (r + ry view - ry damage ∈ hs /\
                 (rx damage - rx view) * 4 <= c < (rx damage - rx view + rw damage) * 4)
      then r_pixels src !! cell (stride src) (r + ry view) (c + rx view * 4)
      else pixels !! cell S r c.
Proof.
  intros S [[] [] [] []] [[] [] [] []] Hsrc Hw Hh Hx Hy Hxw Hyh Hlen Hhs. revert pixels Hlen.
  induction Hhs as [|h hs Hh0 _ IH]; intros pixels Hlen; cbn [copy_rows].
  - exists pixels. split_and!; [done|done|]. intros r c _ _. rewrite decide_False; [done|]. set_solver.
  - replace (ry damage + h <? ry view) with false by lia. replace (rx damage <? rx view) with false by lia.
    cbn [orb]. unfold stride, BYTES_PER_PIXEL in *.
    fold (cell (r_width src * 4) (ry damage + h) (rx damage * 4)).
    fold (cell S (ry damage + h - ry view) ((rx damage - rx view) * 4)).
    set (s := cell (r_width src * 4) (ry damage + h) (rx damage * 4)).
    assert (s + Z.to_nat (rw damage * 4) <= length (r_pixels src))%nat as Hs
      by (rewrite Hsrc; apply cell_fit; lia).
    rewrite slice_Some by done. cbn [mbind option_bind].
    set (bytes := take _ (drop s (r_pixels src))).
    assert (length bytes = Z.to_nat (rw damage * 4)) as Hbl by (subst bytes; rewrite length_take, length_drop; lia).
    set (d := cell S (ry damage + h - ry view) ((rx damage - rx view) * 4)).
    assert (d + length bytes <= length pixels)%nat as Hd
      by (rewrite Hlen, Hbl; apply cell_fit; subst S; lia).
    destruct (put_slice pixels d bytes) as [p1|] eqn:Hput; [|by rewrite put_slice_Some in Hput].
    cbn [mbind option_bind]. pose proof (put_slice_length _ _ _ _ Hput) as Hl1.
    destruct (IH p1) as (p2 & -> & Hl2 & Hlook); [by rewrite Hl1|]. exists p2. split_and!; [done|congruence|].
    intros r c Hr Hc. rewrite Hlook, (put_slice_lookup _ _ _ _ _ Hput), Hbl by done.
    pose proof (cell_row S r c (ry damage + h - ry view) ((rx damage - rx view) * 4) (rw damage * 4)) as Hrow.
    fold d in Hrow.
    destruct (decide (d <= cell S r c < d + Z.to_nat (rw damage * 4))%nat) as [Hin|Hout].
    + apply Hrow in Hin as [-> Hin]; [|lia..]. rewrite (decide_True (P := _ ∈ h :: hs /\ _)) by (split; [apply elem_of_cons; left|]; lia).
      case_decide; [done|]. subst bytes d s. rewrite cell_diff by (subst S; lia).
      rewrite lookup_take_lt by lia. rewrite lookup_drop, cell_shift by lia. do 2 f_equal; lia.
    + apply decide_ext. rewrite Hrow in Hout by lia. rewrite elem_of_cons. split; [naive_solver|]. intros [[?|?] ?]; [|naive_solver].
      exfalso. apply Hout. lia.
Qed.

(** ** Backings *)

(** The guest bytes behind a list of entries, in order. *)
Definition sum_len (entries : list MemEntry) : Z := foldr (fun e n => e_len e + n) 0 entries.

Definition entry_ok (e : MemEntry) : Prop := entry_fits e /\ (0 < e_len e -> e_addr e + e_len e <= 2 ^ 64).

Record backing_ok (b : Backing) : Prop := {
  bk_eq : b = backing_new (b_entries b);
  bk_entries : Forall entry_ok (b_entries b);
  bk_count : Z.of_nat (length (b_entries b)) <= MAX_BACKING_ENTRIES;
}.

Lemma sum_len_nonneg entries : Forall entry_ok entries -> 0 <= sum_len entries.
Proof. induction 1 as [|e es [[_ [? _]] _] _ IH]; [done|]. change (sum_len (e :: es)) with (e_len e + sum_len es). lia. Qed.

Lemma sum_len_bound entries :
  Forall entry_ok entries -> sum_len entries <= Z.of_nat (length entries) * 2 ^ 32.
Proof. induction 1 as [|e es [[_ [_ ?]] _] _ IH]; cbn [sum_len foldr length]; [lia|]. fold (sum_len es). lia. Qed.

(** The start offsets: the running sums, as long as they do not wrap. *)
Lemma starts_from_spec total entries :
  Forall entry_ok entries -> 0 <= total -> total + sum_len entries < 2 ^ 64 ->
  (starts_from total entries).2 = total + sum_len entries /\
  length (starts_from total entries).1 = length entries.
Proof.
  intros He. revert total. induction He as [|e es He Hes IH]; intros total Ht Hs; cbn [starts_from sum_len foldr] in *; [cbn; lia|].
  fold (sum_len es) in *. pose proof (sum_len_nonneg es Hes). pose proof He as [[_ [? _]] _].
  assert (add_w 64 total (e_len e) = total + e_len e) as -> by (apply wrap_small; unfold fits; lia).
  destruct (IH (total + e_len e)) as [H1 H2]; [lia|lia|].
  destruct (starts_from (total + e_len e) es) as [starts t]. cbn in *. lia.
Qed.

Lemma starts_from_cons total e es :
  0 <= total -> 0 <= e_len e -> total + e_len e < 2 ^ 64 ->
  (starts_from total (e :: es)).1 = total :: (starts_from (total + e_len e) es).1.
Proof.
  intros. cbn [starts_from]. assert (add_w 64 total (e_len e) = total + e_len e) as -> by (apply wrap_small; unfold fits; lia).
  by destruct (starts_from (total + e_len e) es).
Qed.

Section backing.
Context {M : Type} `{!ByteMemory M}.
Implicit Types (mem : M).

Definition flat_entry mem (e : MemEntry) : list (option Z) :=
  (fun i => bm_byte mem (e_addr e + Z.of_nat i)) <$> seq 0 (Z.to_nat (e_len e)).
Definition flat mem (entries : list MemEntry) : list (option Z) := concat (flat_entry mem <$> entries).

Lemma length_flat_entry mem e : length (flat_entry mem e) = Z.to_nat (e_len e).
Proof. unfold flat_entry. by rewrite length_fmap, length_seq. Qed.

Lemma read_entries_spec mem entries s0 at_ end_ copied dst :
  bm_inv mem -> Forall entry_ok entries -> 0 <= s0 -> s0 + sum_len entries < 2 ^ 64 ->
  (at_ < end_ -> s0 <= at_ /\ match entries with e :: _ => at_ - s0 <= e_len e | [] => True end) ->
  (at_ < end_ -> end_ <= s0 + sum_len entries) ->
  (copied + Z.to_nat (end_ - at_) <= length dst)%nat -> Forall (fits 8) dst ->
  exists res dst', read_entries mem (zip entries (starts_from s0 entries).1) at_ end_ copied dst = Some (res, dst') /\
    length dst' = length dst /\ Forall (fits 8) dst' /\
    (res = Ok () -> forall k, dst' !! k =
       if decide (copied <= k < copied + Z.to_nat (end_ - at_))%nat
       then mjoin (flat mem entries !! (Z.to_nat (at_ - s0) + (k - copied))%nat) else dst !! k).
Proof.
  intros Hm He. revert s0 at_ copied dst.
  induction He as [|e es He Hes IH]; intros s0 at_ copied dst Hs0 Htot Hat Hend Hdst Hf.
  - cbn. destruct (Z.ltb_spec at_ end_) as [Hlt|Hge]; [cbn in Hend; lia|].
    eexists _, _. split; [reflexivity|]. split_and!; [done|done|]. intros _ k. rewrite decide_False by lia. done.
  - cbn [sum_len foldr] in Htot, Hend. fold (sum_len es) in Htot, Hend. pose proof (sum_len_nonneg es Hes) as Hnn.
    pose proof He as [[[Ha0 Ha1] [Hl0 Hl1]] Hae].
    rewrite starts_from_cons by lia. cbn [zip zip_with read_entries].
    destruct (Z.ltb_spec at_ end_) as [Hlt|Hge].
    2: { eexists _, _. split; [reflexivity|]. split_and!; [done|done|]. intros _ k. rewrite decide_False by lia. done. }
    destruct (Hat Hlt) as [Hs Hw]. specialize (Hend Hlt).
    replace (e_len e <? at_ - s0) with false by lia.
    set (n := Z.min (e_len e - (at_ - s0)) (end_ - at_)).
    assert (length (flat_entry mem e) = Z.to_nat (e_len e)) as Hfl by apply length_flat_entry.
    destruct (Z.ltb_spec 0 n) as [Hn|Hn].
    + rewrite (wrap_small 64 (e_addr e + (at_ - s0)) ltac:(unfold fits; lia) : add_w 64 _ _ = _).
      destruct (bm_read mem (e_addr e + (at_ - s0)) (Z.to_nat n)) as [bs|err] eqn:Hrd.
      2: { eexists _, _. split; [reflexivity|]. split_and!; [done|done|]. discriminate. }
      assert (Forall (fits 8) bs) as Hbf by (apply (bm_read_fits mem (e_addr e + (at_ - s0)) (Z.to_nat n)); [done|lia|done]).
      apply bm_read_spec in Hrd as (_ & Hbl & Hbs); [|done|lia|lia].
      destruct (put_slice dst copied bs) as [d1|] eqn:Hput; [|rewrite put_slice_Some in Hput; [done|lia]].
      cbn [mbind option_bind]. pose proof (put_slice_length _ _ _ _ Hput) as Hd1.
      assert (Forall (fits 8) d1) as Hf1.
      { rewrite put_slice_Some in Hput by lia. simplify_eq. rewrite !Forall_app. auto using Forall_take, Forall_drop. }
      destruct (IH (s0 + e_len e) (at_ + n) (copied + Z.to_nat n)%nat d1) as (res & d2 & -> & Hl2 & Hf2 & Hlook);
        [lia|lia|destruct es as [|e' ?]; [lia|]; apply Forall_cons_iff in Hes as [[[_ [? _]] _] _]; lia|lia|lia|done|].
      eexists _, _. split; [reflexivity|]. split_and!; [congruence|done|]. intros Hres k. rewrite (Hlook Hres).
      rewrite (put_slice_lookup _ _ _ _ _ Hput), Hbl. cbn [flat fmap list_fmap concat]. fold (flat mem es).
      destruct (decide (copied + Z.to_nat n <= k < copied + Z.to_nat n + Z.to_nat (end_ - (at_ + n)))%nat) as [Hk|Hk].
      * rewrite decide_True by lia. rewrite lookup_app_r by lia. do 2 f_equal. lia.
      * destruct (decide (copied <= k < copied + Z.to_nat n)%nat) as [Hk1|Hk1].
        -- rewrite (decide_True (P := (copied <= k < _)%nat)) by lia. rewrite lookup_app_l by lia.
           unfold flat_entry. rewrite list_lookup_fmap, lookup_seq_lt by lia. cbn. rewrite Hbs by lia. f_equal. lia.
        -- rewrite decide_False by lia. done.
    + destruct (IH (s0 + e_len e) at_ copied dst) as (res & d2 & -> & Hl2 & Hf2 & Hlook);
        [lia|lia|destruct es as [|e' ?]; [lia|]; apply Forall_cons_iff in Hes as [[[_ [? _]] _] _]; lia|lia|lia|done|].
      eexists _, _. split; [reflexivity|]. split_and!; [done|done|]. intros Hres k. rewrite (Hlook Hres).
      cbn [flat fmap list_fmap concat]. fold (flat mem es). case_decide; [|done].
      rewrite lookup_app_r by lia. do 2 f_equal. lia.
Qed.

Lemma flat_app mem l1 l2 : flat mem (l1 ++ l2) = flat mem l1 ++ flat mem l2.
Proof. unfold flat. by rewrite fmap_app, concat_app. Qed.

Lemma gpu_length_flat mem entries : Forall entry_ok entries -> length (flat mem entries) = Z.to_nat (sum_len entries).
Proof.
  induction 1 as [|e es He Hes IH]; [done|]. cbn [flat fmap list_fmap concat]. fold (flat mem es).
  change (sum_len (e :: es)) with (e_len e + sum_len es). pose proof (sum_len_nonneg es Hes).
  pose proof He as [[_ [? _]] _]. rewrite length_app, IH, length_flat_entry. lia.
Qed.

(** [partition_point] finds the entry that holds a byte. *)
Lemma starts_search entries s0 offset :
  Forall entry_ok entries -> 0 <= s0 -> s0 + sum_len entries < 2 ^ 64 -> s0 <= offset < s0 + sum_len entries ->
  exists pre e post, entries = pre ++ e :: post /\
    partition_point (fun start => start <=? offset) (starts_from s0 entries).1 = S (length pre) /\
    s0 + sum_len pre <= offset /\ offset - (s0 + sum_len pre) < e_len e /\
    drop (length pre) (zip entries (starts_from s0 entries).1) =
      zip (e :: post) (starts_from (s0 + sum_len pre) (e :: post)).1 /\
    s0 + sum_len pre + sum_len (e :: post) = s0 + sum_len entries.
Proof.
  intros He. revert s0. induction He as [|e es He Hes IH]; intros s0 Hs0 Htot Hoff; [cbn in Hoff; lia|].
  change (sum_len (e :: es)) with (e_len e + sum_len es) in *. pose proof (sum_len_nonneg es Hes).
  pose proof He as [[_ [? _]] _]. rewrite starts_from_cons by lia. cbn [partition_point].
  replace (s0 <=? offset) with true by lia.
  destruct (decide (offset < s0 + e_len e)) as [Hin|Hout].
  - exists [], e, es. split; [done|]. cbn [length sum_len foldr drop]. split_and!; try lia.
    + f_equal. destruct es as [|e' es']; [done|]. apply Forall_cons_iff in Hes as [[[_ [? _]] _] Hes'].
      pose proof (sum_len_nonneg es' Hes').
      change (sum_len (e' :: es')) with (e_len e' + sum_len es') in *.
      rewrite starts_from_cons by lia. cbn [partition_point]. by replace (s0 + e_len e <=? offset) with false by lia.
    + rewrite Z.add_0_r. by rewrite starts_from_cons by lia.
    + fold (sum_len es). lia.
  - destruct (IH (s0 + e_len e)) as (pre & e1 & post & -> & Hpp & Hle & Hlt & Hdrop & Hsum); [lia|lia|lia|].
    exists (e :: pre), e1, post. change (sum_len (e :: pre)) with (e_len e + sum_len pre).
    split; [done|]. rewrite Hpp. split_and!; [done|lia|lia| |lia].
    cbn [length zip zip_with drop]. rewrite Z.add_assoc. exact Hdrop.
Qed.

Lemma backing_total b : backing_ok b -> b_total b = sum_len (b_entries b) /\ b_starts b = (starts_from 0 (b_entries b)).1 /\
  0 <= sum_len (b_entries b) < 2 ^ 64.
Proof.
  intros [Heq He Hc]. pose proof (sum_len_nonneg _ He). pose proof (sum_len_bound _ He). unfold MAX_BACKING_ENTRIES in Hc.
  assert (sum_len (b_entries b) < 2 ^ 64) by lia.
  destruct (starts_from_spec 0 (b_entries b) He) as [Ht _]; [lia|lia|].
  destruct b as [en st tot]. cbn in *. unfold backing_new in Heq. destruct (starts_from 0 en) as [starts t].
  injection Heq as -> ->. cbn in *. auto with lia.
Qed.

(** [Backing::read] is a slice of the guest bytes behind the entries. *)
Lemma backing_read_spec mem b offset dst :
  bm_inv mem -> backing_ok b -> fits 64 offset -> Forall (fits 8) dst ->
  exists res dst', backing_read mem b offset dst = Some (res, dst') /\
    length dst' = length dst /\ Forall (fits 8) dst' /\
    (res = Ok () -> offset + Z.of_nat (length dst) <= b_total b /\
       forall k, (k < length dst)%nat -> dst' !! k = mjoin (flat mem (b_entries b) !! (Z.to_nat offset + k)%nat)).
Proof.
  intros Hm Hb [Ho0 Ho1] Hf. destruct (backing_total b Hb) as (Ht & Hst & Hr). unfold backing_read.
  destruct (checked_add 64 offset (Z.of_nat (length dst))) as [end_|] eqn:Hca.
  2: { eexists _, _. split; [reflexivity|]. split_and!; [done|done|discriminate]. }
  apply checked_add_Some in Hca as [-> _]. destruct (Z.leb_spec (offset + Z.of_nat (length dst)) (b_total b)) as [Hle|Hgt].
  2: { eexists _, _. split; [reflexivity|]. split_and!; [done|done|discriminate]. }
  destruct dst as [|x dst0] eqn:Hd.
  { eexists _, _. split; [reflexivity|]. split_and!; [done|done|]. intros _. split; [done|]. cbn. lia. }
  rewrite <- Hd in *. assert (0 < length dst)%nat by (subst dst; cbn; lia). clear Hd dst0.
  destruct (starts_search (b_entries b) 0 offset) as (pre & e & post & Hent & Hpp & Hlo & Hhi & Hdrop & Hsum);
    [apply Hb|lia|lia|lia|]. rewrite Hst, Hpp, Hdrop. rewrite Z.add_0_l in *.
  assert (Forall entry_ok (pre ++ e :: post)) as Hok by (rewrite <- Hent; apply Hb).
  apply Forall_app in Hok as [Hok1 Hok2]. pose proof (sum_len_nonneg pre Hok1).
  destruct (read_entries_spec mem (e :: post) (sum_len pre) offset (offset + Z.of_nat (length dst)) 0 dst)
    as (res & dst' & -> & Hl & Hf' & Hlook); [done|done|lia|lia|intros _; lia|intros _; lia|lia|done|].
  eexists _, _. split; [reflexivity|]. split_and!; [done|done|]. intros Hres. split; [done|]. intros k Hk.
  rewrite (Hlook Hres), decide_True by lia. rewrite Hent, flat_app.
  rewrite lookup_app_r by (rewrite (gpu_length_flat mem pre Hok1); lia).
  rewrite (gpu_length_flat mem pre Hok1). do 2 f_equal. lia.
Qed.

Lemma transfer_rows_spec mem b rect offset S height hs pixels :
  bm_inv mem -> backing_ok b -> rect_fits rect -> fits 64 offset -> 0 <= S ->
  (rx rect + rw rect) * 4 <= S -> ry rect + rh rect <= height ->
  length pixels = Z.to_nat (S * height) -> Forall (fits 8) pixels ->
  Forall (fun h => 0 <= h < rh rect) hs -> NoDup hs ->
  exists res pixels', transfer_rows mem b rect offset S hs pixels = Some (res, pixels') /\
    length pixels' = length pixels /\ Forall (fits 8) pixels' /\
    forall r c, 0 <= r -> 0 <= c < S ->
      if decide (r - ry rect ∈ hs /\ rx rect * 4 <= c < (rx rect + rw rect) * 4)
      then res = Ok () -> pixels' !! cell S r c =
             mjoin (flat mem (b_entries b) !! Z.to_nat (offset + S * (r - ry rect) + (c - rx rect * 4)))
      else pixels' !! cell S r c = pixels !! cell S r c.
Proof.
  intros Hm Hb [[] [] [] []] [Ho0 Ho1] HS Hw Hh Hlen Hf Hhs. revert pixels Hlen Hf.
  induction Hhs as [|h hs Hh0 Hhs IH]; intros pixels Hlen Hf Hnd; cbn [transfer_rows].
  { eexists _, _. split; [reflexivity|]. split_and!; [done|done|]. intros r c _ _. rewrite decide_False; [done|]. set_solver. }
  apply list.NoDup_cons in Hnd as [Hnin Hnd].
  assert (forall (res : result TransferError unit) p, res <> Ok () -> length p = length pixels -> Forall (fits 8) p ->
    (forall r c, 0 <= r -> 0 <= c < S -> ~ (r = ry rect + h /\ rx rect * 4 <= c < (rx rect + rw rect) * 4) ->
       p !! cell S r c = pixels !! cell S r c) ->
    exists res' p', Some (res, p) = Some (res', p') /\ length p' = length pixels /\ Forall (fits 8) p' /\
    forall r c, 0 <= r -> 0 <= c < S ->
      if decide (r - ry rect ∈ h :: hs /\ rx rect * 4 <= c < (rx rect + rw rect) * 4)
      then res' = Ok () -> p' !! cell S r c =
             mjoin (flat mem (b_entries b) !! Z.to_nat (offset + S * (r - ry rect) + (c - rx rect * 4)))
      else p' !! cell S r c = pixels !! cell S r c) as Hfail.
  { intros res p Hne Hl Hpf Hkeep. exists res, p. split_and!; [done|done|done|]. intros r c Hr Hc. case_decide as Hin; [done|].
    apply Hkeep; [done|done|]. intros [-> ?]. apply Hin. split; [apply elem_of_cons; left; lia|done]. }
  destruct (checked_add 64 offset (S * h)) as [src|] eqn:Hca; [|by apply Hfail].
  apply checked_add_Some in Hca as [-> Hlt]. unfold BYTES_PER_PIXEL.
  fold (cell S (ry rect + h) (rx rect * 4)). set (d := cell S (ry rect + h) (rx rect * 4)).
  assert (d + Z.to_nat (rw rect * 4) <= length pixels)%nat as Hd by (rewrite Hlen; apply cell_fit; lia).
  rewrite slice_Some by done. cbn [mbind option_bind]. set (row := take _ _).
  assert (length row = Z.to_nat (rw rect * 4)) as Hrl by (subst row; rewrite length_take, length_drop; lia).
  destruct (backing_read_spec mem b (offset + S * h) row) as (res & row' & -> & Hl' & Hf' & Hread);
    [done|done|split; nia|by apply Forall_take, Forall_drop|]. cbn [mbind option_bind].
  destruct (put_slice pixels d row') as [p1|] eqn:Hput; [|rewrite put_slice_Some in Hput; [done|lia]].
  cbn [mbind option_bind]. pose proof (put_slice_length _ _ _ _ Hput) as Hl1.
  assert (Forall (fits 8) p1) as Hf1.
  { rewrite put_slice_Some in Hput by lia. simplify_eq. rewrite !Forall_app. auto using Forall_take, Forall_drop. }
  assert (forall r c, 0 <= r -> 0 <= c < S -> p1 !! cell S r c =
    if decide (r = ry rect + h /\ rx rect * 4 <= c < (rx rect + rw rect) * 4)
    then row' !! Z.to_nat (c - rx rect * 4) else pixels !! cell S r c) as Hp1.
  { intros r c Hr Hc. rewrite (put_slice_lookup _ _ _ _ _ Hput), Hl', Hrl.
    pose proof (cell_row S r c (ry rect + h) (rx rect * 4) (rw rect * 4)) as Hrow. fold d in Hrow.
    destruct (decide (d <= cell S r c < d + Z.to_nat (rw rect * 4))%nat) as [Hin|Hout].
    - apply Hrow in Hin as [-> Hin]; [|lia..]. rewrite decide_True by lia. subst d. by rewrite cell_diff by lia.
    - rewrite Hrow in Hout by lia. rewrite decide_False by lia. done. }
  destruct res as [[]|e].
  2: { apply Hfail; [done|done|done|]. intros r c Hr Hc Hne. rewrite Hp1, decide_False by done. done. }
  destruct (IH p1) as (res & p2 & -> & Hl2 & Hf2 & Hlook); [by rewrite Hl1|done|done|].
  eexists _, _. split; [reflexivity|]. split_and!; [congruence|done|]. intros r c Hr Hc. specialize (Hlook r c Hr Hc).
  rewrite Hp1 in Hlook by done. destruct (decide (r = ry rect + h)) as [->|Hne].
  - replace (ry rect + h - ry rect) with h in * by lia.
    destruct (decide (rx rect * 4 <= c < (rx rect + rw rect) * 4)) as [Hin|Hout].
    + rewrite decide_False in Hlook by naive_solver. rewrite decide_True by (split; [apply elem_of_cons; by left|done]).
      rewrite decide_True in Hlook by done. intros _. rewrite Hlook.
      destruct (Hread eq_refl) as [_ Hbyte]. rewrite Hbyte by lia. do 2 f_equal. nia.
    + rewrite decide_False in Hlook by naive_solver. rewrite decide_False by naive_solver.
      by rewrite decide_False in Hlook by naive_solver.
  - rewrite (decide_False (P := r = _ /\ _)) in Hlook by naive_solver.
    assert (r - ry rect ∈ h :: hs <-> r - ry rect ∈ hs) as He by (rewrite elem_of_cons; naive_solver lia).
    destruct (decide (r - ry rect ∈ hs /\ _)); [rewrite decide_True by naive_solver|rewrite decide_False by naive_solver]; done.
Qed.
End backing.

Lemma put_slice_Forall {A} (P : A -> Prop) (l new l' : list A) i :
  put_slice l i new = Some l' -> Forall P l -> Forall P new -> Forall P l'.
Proof.
  unfold put_slice. case_bool_decide; [|done]. intros [= <-] Hl Hn. rewrite !Forall_app.
  auto using Forall_take, Forall_drop.
Qed.

Lemma copy_rows_fits src S view damage hs pixels pixels' :
  copy_rows src S view damage hs pixels = Some pixels' ->
  Forall (fits 8) (r_pixels src) -> Forall (fits 8) pixels -> Forall (fits 8) pixels'.
Proof.
  revert pixels. induction hs as [|h hs IH]; intros pixels Hc Hs Hp; cbn in Hc; [by simplify_eq|].
  destruct (_ || _); [done|]. destruct (slice _ _ _) as [bytes|] eqn:Hsl; [|done]. cbn in Hc.
  destruct (put_slice _ _ _) as [p1|] eqn:Hput; [|done]. cbn in Hc.
  apply (IH p1); [done|done|]. apply (put_slice_Forall _ _ _ _ _ Hput); [done|].
  unfold slice in Hsl. case_bool_decide; [|done]. simplify_eq. by apply Forall_take, Forall_drop.
Qed.

(** ** The invariant *)

Definition res_bytes (r : Resource) : Z := r_width r * r_height r * BYTES_PER_PIXEL.
Definition hostmem_of (m : gmap Z Resource) : Z := map_fold (fun _ r n => res_bytes r + n) 0 m.

Record res_ok (r : Resource) : Prop := {
  rk_width : 1 <= r_width r <= MAX_DIMENSION;
  rk_height : 1 <= r_height r <= MAX_DIMENSION;
  rk_length : length (r_pixels r) = Z.to_nat (stride r * r_height r);
  rk_pixels : Forall (fits 8) (r_pixels r);
  rk_backing : forall b, r_backing r = Some b -> backing_ok b;
}.

(** The frame of a scanout: blank when it shows nothing, else as large as the
    part of an existing resource it shows. *)
Record shows (resources : gmap Z Resource) (s : ScanoutState) (f : Frame) (r : Resource) : Prop := {
  sh_resource : resources !! s_resource_id s = Some r;
  sh_rect : rect_fits (s_rect s);
  sh_fits : fits_in (s_rect s) (r_width r) (r_height r) = true;
  sh_width : f_width f = rw (s_rect s);
  sh_height : f_height f = rh (s_rect s);
  sh_format : f_format f = Some (r_format r);
  sh_length : length (f_pixels f) = Z.to_nat (rw (s_rect s) * 4 * rh (s_rect s));
  sh_pixels : Forall (fits 8) (f_pixels f);
}.

Definition scan_ok (resources : gmap Z Resource) (s : ScanoutState) (f : Frame) : Prop :=
  if s_resource_id s =? 0
  then f_width f = 0 /\ f_height f = 0 /\ f_format f = None /\ f_pixels f = []
  else exists r, shows resources s f r.

Record gpu_ok (g : Gpu2d) : Prop := {
  gk_resources : forall id r, g_resources g !! id = Some r -> id <> 0 /\ res_ok r;
  gk_hostmem : g_hostmem g = hostmem_of (g_resources g);
  gk_budget : g_hostmem g <= MAX_HOSTMEM;
  gk_scanouts : Forall2 (scan_ok (g_resources g)) (g_scanouts g) (d_frames (g_display g));
  gk_modes : length (d_modes (g_display g)) = length (g_scanouts g);
}.

Lemma hostmem_insert m id r : m !! id = None -> hostmem_of (<[id := r]> m) = res_bytes r + hostmem_of m.
Proof. intros Hm. unfold hostmem_of. rewrite map_fold_insert_L; [done| |done]. intros. lia. Qed.

Lemma hostmem_delete m id r : m !! id = Some r -> hostmem_of m = res_bytes r + hostmem_of (delete id m).
Proof. intros Hm. unfold hostmem_of. rewrite (map_fold_delete_L _ _ id r m); [done| |done]. intros. lia. Qed.

Lemma hostmem_update m id r0 r :
  m !! id = Some r0 -> res_bytes r = res_bytes r0 -> hostmem_of (<[id := r]> m) = hostmem_of m.
Proof.
  intros Hm Hr. rewrite (hostmem_delete (<[id := r]> m) id r), (hostmem_delete m id r0) by (done || apply lookup_insert_eq).
  rewrite delete_insert_eq. lia.
Qed.

Lemma res_bytes_length r : res_ok r -> Z.of_nat (length (r_pixels r)) = res_bytes r.
Proof. intros []. rewrite rk_length0. unfold res_bytes, stride, BYTES_PER_PIXEL. lia. Qed.

Lemma hostmem_nonneg m : (forall id r, m !! id = Some r -> res_ok r) -> 0 <= hostmem_of m.
Proof.
  induction m as [|id r m Hid IH] using map_ind; intros Hok; [done|].
  rewrite hostmem_insert by done.
  assert (res_ok r) as Hr by (apply (Hok id); apply lookup_insert_eq).
  rewrite <- (res_bytes_length r Hr).
  assert (0 <= hostmem_of m) by (apply IH; intros id' r' Hr'; apply (Hok id');
    rewrite lookup_insert_ne; [done|intros ->; congruence]). lia.
Qed.

Lemma resource_new_ok format width height :
  1 <= width <= MAX_DIMENSION -> 1 <= height <= MAX_DIMENSION -> res_ok (resource_new format width height).
Proof.
  intros Hw Hh. split; cbn [resource_new r_width r_height r_pixels r_backing]; [done|done| | |done].
  - rewrite length_replicate. unfold stride. cbn [resource_new r_width]. f_equal. lia.
  - by apply Forall_replicate.
Qed.

(** [copy_into] between a resource and the frame of a scanout: pixel by pixel. *)
Lemma copy_into_spec resources s f r damage :
  shows resources s f r -> res_ok r -> rect_fits damage ->
  (forall x y, inside damage x y -> inside (s_rect s) x y) -> 0 < rw damage -> 0 < rh damage ->
  exists f', copy_into f r (s_rect s) damage = Some f' /\ shows resources s f' r /\ f_sequence f' = f_sequence f /\
    forall x y k, 0 <= x < rw (s_rect s) -> 0 <= y < rh (s_rect s) -> 0 <= k < 4 ->
      f_pixels f' !! cell (frame_stride f) y (x * 4 + k) =
      if decide (inside damage (rx (s_rect s) + x) (ry (s_rect s) + y))
      then r_pixels r !! cell (stride r) (ry (s_rect s) + y) ((rx (s_rect s) + x) * 4 + k)
      else f_pixels f !! cell (frame_stride f) y (x * 4 + k).
Proof.
  intros Hsh Hr Hd Hin Hdw Hdh. pose proof Hsh as [Hres Hrf Hfit Hfw Hfh Hff Hfl Hfp].
  destruct (fits_in_spec _ _ _ Hrf Hfit) as (Hvw & Hvh & Hvx & Hvy).
  pose proof (Hin (rx damage) (ry damage)) as H1.
  pose proof (Hin (rx damage + rw damage - 1) (ry damage + rh damage - 1)) as H2. unfold inside in H1, H2.
  destruct (copy_rows_spec r (s_rect s) damage (seqZ 0 (rh damage)) (f_pixels f)) as (p & Hcp & Hl & Hlook);
    [done|done|apply Hr|lia|lia|lia|lia|lia|lia|done| |].
  { apply list.Forall_forall. intros h Hh%elem_of_seqZ. lia. }
  unfold copy_into. unfold frame_stride, BYTES_PER_PIXEL in *. rewrite Hfw in *. rewrite Hcp. cbn [mbind option_bind].
  eexists. split; [reflexivity|]. split_and!; [|done|].
  - split; cbn; try done; [congruence|]. apply (copy_rows_fits _ _ _ _ _ _ _ Hcp); [apply Hr|done].
  - intros x y k Hx Hy Hk. cbn [f_pixels]. rewrite Hlook by lia. unfold inside.
    destruct (decide (rx damage <= rx (s_rect s) + x < rx damage + rw damage /\
                      ry damage <= ry (s_rect s) + y < ry damage + rh damage)) as [Hc|Hc].
    + rewrite decide_True by (rewrite elem_of_seqZ; lia). do 2 f_equal; lia.
    + rewrite decide_False by (rewrite elem_of_seqZ; lia). done.
Qed.

(** What [show] and [blank] leave in a frame. *)
Lemma show_spec resources s f r :
  resources !! s_resource_id s = Some r -> res_ok r -> rect_fits (s_rect s) ->
  fits_in (s_rect s) (r_width r) (r_height r) = true ->
  exists f', show f r (s_rect s) = Some f' /\ shows resources s f' r /\
    forall x y k, 0 <= x < rw (s_rect s) -> 0 <= y < rh (s_rect s) -> 0 <= k < 4 ->
      f_pixels f' !! cell (frame_stride f') y (x * 4 + k) =
      r_pixels r !! cell (stride r) (ry (s_rect s) + y) ((rx (s_rect s) + x) * 4 + k).
Proof.
  intros Hres Hr Hrf Hfit. destruct (fits_in_spec _ _ _ Hrf Hfit) as (Hw & Hh & _ & _). unfold show.
  set (f0 := {| f_width := rw (s_rect s) |}).
  assert (shows resources s f0 r) as Hs0.
  { split; try done; cbn [f0 f_pixels]; [by rewrite length_replicate|by apply Forall_replicate]. }
  destruct (copy_into_spec resources s f0 r (s_rect s)) as (f1 & -> & Hs1 & _ & Hpx); [done|done|done|done|done|done|].
  cbn [mbind option_bind]. eexists. split; [reflexivity|]. split; [by destruct Hs1|].
  intros x y k Hx Hy Hk. unfold frame_stride. cbn [bump f_pixels f_width]. rewrite (sh_width _ _ _ _ Hs1).
  specialize (Hpx x y k Hx Hy Hk). rewrite decide_True in Hpx by (unfold inside; lia). exact Hpx.
Qed.

Lemma blank_ok resources f : scan_ok resources scanout_default (blank f).
Proof. done. Qed.

(** A scanout keeps showing a resource that other changes leave alone. *)
Lemma scan_ok_frame resources resources' s f :
  (s_resource_id s <> 0 -> forall r, resources !! s_resource_id s = Some r ->
     exists r', resources' !! s_resource_id s = Some r' /\ r_width r' = r_width r /\
                r_height r' = r_height r /\ r_format r' = r_format r) ->
  scan_ok resources s f -> scan_ok resources' s f.
Proof.
  intros Hkeep. unfold scan_ok. destruct (Z.eqb_spec (s_resource_id s) 0); [done|].
  intros [r [Hres ? ? ? ? ? ? ?]]. destruct (Hkeep n r Hres) as (r' & Hr' & Hw & Hh & Hf). exists r'.
  split; try done; congruence.
Qed.

(** [disable_where], one scanout at a time. *)
Lemma disable_where_spec shown pre states frames :
  length states = length frames ->
  disable_where shown (length pre) states (pre ++ frames) =
  ((fun s => if shown (s_resource_id s) then scanout_default else s) <$> states,
   pre ++ zip_with (fun s f => if shown (s_resource_id s) then blank f else f) states frames).
Proof.
  revert pre frames. induction states as [|s states IH]; intros pre [|f frames] Hl; [done|done|done|].
  cbn [disable_where zip_with]. injection Hl as Hl. specialize (IH (pre ++ [if shown (s_resource_id s) then blank f else f]) frames Hl).
  rewrite length_app in IH. cbn [length] in IH. rewrite Nat.add_1_r, <- !app_assoc in IH. cbn [app] in IH.
  destruct (shown (s_resource_id s)) eqn:Hs.
  - rewrite (alter_app_r_alt blank) by lia. rewrite Nat.sub_diag. cbn [alter list_alter].
    rewrite IH. cbn [fmap list_fmap]. by rewrite Hs.
  - rewrite IH. cbn [fmap list_fmap]. by rewrite Hs.
Qed.

Lemma gpu_count_ok a b c d g : gpu_ok g -> gpu_ok (count a b c d g).
Proof. intros []. by split. Qed.

Lemma create_ok g id format width height g' :
  gpu_ok g -> 0 <= width -> 0 <= height -> create g id format width height = Ok g' -> gpu_ok g'.
Proof.
  intros Hg Hw Hh. unfold create. destruct (Z.eqb_spec id 0) as [|Hid]; [done|]. cbn [orb].
  case_bool_decide as Hex; [done|]. destruct (from_wire format) as [pf|]; [|done].
  destruct ((width =? 0) || (height =? 0) || (MAX_DIMENSION <? width) || (MAX_DIMENSION <? height)) eqn:Hdim; [done|].
  rewrite !orb_false_iff in Hdim. destruct Hdim as [[[? ?] ?] ?].
  assert (1 <= width <= MAX_DIMENSION) as Hw' by lia. assert (1 <= height <= MAX_DIMENSION) as Hh' by lia.
  pose proof (resource_new_ok pf width height Hw' Hh') as Hr.
  assert (0 <= g_hostmem g) as Hnn.
  { rewrite (gk_hostmem _ Hg). apply hostmem_nonneg. intros id' r' Hr'. by apply (gk_resources _ Hg id'). }
  pose proof (gk_budget _ Hg) as Hbud. unfold MAX_HOSTMEM in Hbud. unfold MAX_DIMENSION in Hw', Hh'.
  assert (0 <= width * height * BYTES_PER_PIXEL <= 16384 * 16384 * 4) as Hb by (unfold BYTES_PER_PIXEL; nia).
  change (Z.shiftl 256 20) with 268435456 in Hbud.
  assert (add_w 64 (g_hostmem g) (width * height * BYTES_PER_PIXEL) = g_hostmem g + width * height * BYTES_PER_PIXEL) as ->
    by (apply wrap_small; unfold fits; lia).
  destruct (Z.ltb_spec MAX_HOSTMEM (g_hostmem g + width * height * BYTES_PER_PIXEL)); [done|]. intros [= <-].
  assert (g_resources g !! id = None) as Hnone by (destruct (g_resources g !! id); [exfalso; eauto|done]).
  split; cbn [set_resources g_resources g_hostmem g_scanouts g_display].
  - intros id' r'. destruct (decide (id' = id)) as [->|Hne].
    + rewrite lookup_insert_eq. intros [= <-]. done.
    + rewrite lookup_insert_ne by done. apply Hg.
  - rewrite hostmem_insert, (gk_hostmem _ Hg) by done. unfold res_bytes. cbn [resource_new r_width r_height]. lia.
  - done.
  - eapply Forall2_impl; [|apply Hg]. intros s f. apply scan_ok_frame. intros Hs r Hr'. exists r.
    rewrite lookup_insert_ne by congruence. done.
  - apply Hg.
Qed.

Lemma disabled_ok resources resources' shown states frames :
  (forall s r, shown (s_resource_id s) = false -> resources !! s_resource_id s = Some r ->
     resources' !! s_resource_id s = Some r) ->
  Forall2 (scan_ok resources) states frames ->
  Forall2 (scan_ok resources') ((fun s => if shown (s_resource_id s) then scanout_default else s) <$> states)
    (zip_with (fun s f => if shown (s_resource_id s) then blank f else f) states frames).
Proof.
  intros Hkeep. induction 1 as [|s f states frames Hsf _ IH]; cbn; constructor; [|done].
  destruct (shown (s_resource_id s)) eqn:Hs; [apply blank_ok|].
  revert Hsf. apply scan_ok_frame. intros _ r Hr. exists r. auto.
Qed.

Lemma unref_ok g id g' : gpu_ok g -> unref g id = Ok g' -> gpu_ok g'.
Proof.
  intros Hg. unfold unref. destruct (g_resources g !! id) as [r|] eqn:Hr; [|done].
  destruct (gk_resources _ Hg _ _ Hr) as [Hid Hrok].
  cbn [set_resources g_scanouts g_display].
  pose proof (Forall2_length (gk_scanouts _ Hg)) as Hl.
  pose proof (disable_where_spec (fun shown => shown =? id) [] (g_scanouts g) (d_frames (g_display g)) Hl) as Hd.
  cbn [length app] in Hd. rewrite Hd. intros [= <-].
  assert (0 <= hostmem_of (delete id (g_resources g))) as Hnn.
  { apply hostmem_nonneg. intros id' r' [_ Hr']%lookup_delete_Some. by apply (gk_resources _ Hg id'). }
  pose proof (hostmem_delete _ _ _ Hr) as Hsum. pose proof (gk_hostmem _ Hg) as Hhm. pose proof (gk_budget _ Hg) as Hbud.
  pose proof (res_bytes_length r Hrok) as Hrb. change MAX_HOSTMEM with 268435456 in *.
  assert (wrapping_sub 64 (g_hostmem g) (Z.of_nat (length (r_pixels r))) = hostmem_of (delete id (g_resources g))) as Hw
    by (unfold wrapping_sub; rewrite wrap_small; unfold fits; lia).
  split; cbn [set_outputs set_resources g_resources g_hostmem g_scanouts g_display d_frames d_modes].
  - intros id' r' [_ Hr']%lookup_delete_Some. by apply Hg.
  - exact Hw.
  - rewrite Hw. change MAX_HOSTMEM with 268435456. lia.
  - apply (disabled_ok (g_resources g) _ (fun shown => shown =? id)); [|apply Hg]. intros s r' Hs Hr'. rewrite lookup_delete_ne; [done|lia].
  - rewrite length_fmap. apply Hg.
Qed.

Lemma reset_ok g : gpu_ok g -> gpu_ok (gpu_reset g).
Proof.
  intros Hg. unfold gpu_reset. pose proof (Forall2_length (gk_scanouts _ Hg)) as Hl.
  pose proof (disable_where_spec (fun id => negb (id =? 0)) [] (g_scanouts g) (d_frames (g_display g)) Hl) as Hd.
  cbn [length app] in Hd. rewrite Hd. split; cbn [set_outputs set_resources g_resources g_hostmem g_scanouts g_display d_frames d_modes].
  - intros id r Hr. by rewrite lookup_empty in Hr.
  - done.
  - done.
  - pose proof (gk_scanouts _ Hg) as Hs. revert Hs. generalize (g_scanouts g), (d_frames (g_display g)).
    clear. induction 1 as [|s f states frames Hsf _ IH]; cbn; constructor; [|done].
    unfold scan_ok in *. cbn. destruct (s_resource_id s =? 0); done.
  - rewrite length_fmap. apply Hg.
Qed.

Lemma set_scanout_ok g rect scanout_id id :
  gpu_ok g -> rect_fits rect ->
  exists res, set_scanout g rect scanout_id id = Some res /\ match res with Ok g' => gpu_ok g' | Err _ => True end.
Proof.
  intros Hg Hrf. unfold set_scanout. case_bool_decide as Hidx; [by eexists|].
  pose proof (Forall2_length (gk_scanouts _ Hg)) as Hl. set (i := Z.to_nat scanout_id) in *.
  destruct (lookup_lt_is_Some_2 (d_frames (g_display g)) i) as [f Hf]; [lia|].
  destruct (Z.eqb_spec id 0) as [->|Hid].
  - eexists. split; [reflexivity|]. destruct Hg as [? ? ? Hs Hm].
    split; cbn [set_outputs g_resources g_hostmem g_scanouts g_display d_frames d_modes]; try done.
    + assert (alter blank i (d_frames (g_display g)) = <[i := blank f]> (d_frames (g_display g))) as ->.
      { apply list_eq. intros k. destruct (decide (k = i)) as [->|].
        - rewrite list_lookup_alter_eq, Hf, list_lookup_insert_eq; [done|lia].
        - by rewrite list_lookup_alter_ne, list_lookup_insert_ne by done. }
      apply Forall2_insert; [done|apply blank_ok].
    + by rewrite length_insert.
  - destruct (g_resources g !! id) as [r|] eqn:Hr; [|by eexists].
    destruct (fits_in rect (r_width r) (r_height r)) eqn:Hfit; cbn [negb]; [|by eexists].
    rewrite Hf. pose proof (gk_resources _ Hg _ _ Hr) as [_ Hrok].
    destruct (show_spec (g_resources g) {| s_resource_id := id; s_rect := rect |} f r) as (f' & Hshow & Hs' & _); [done..|].
    cbn [s_rect] in Hshow. rewrite Hshow. cbn [mbind option_bind]. eexists. split; [reflexivity|].
    destruct Hg as [? ? ? Hs Hm].
    split; cbn [set_outputs g_resources g_hostmem g_scanouts g_display d_frames d_modes]; try done.
    + apply Forall2_insert; [done|]. unfold scan_ok. cbn. destruct (Z.eqb_spec id 0); [done|]. by exists r.
    + by rewrite length_insert.
Qed.

(** What [RESOURCE_FLUSH] of [rect] does to one scanout: the frame's pixels
    inside [rect] become the resource's, the others stay, and the sequence
    number moves exactly if a pixel was inside. *)
Record flushed (r : Resource) (rect : Rect) (s : ScanoutState) (f f' : Frame) : Prop := {
  fl_size : f_width f' = f_width f /\ f_height f' = f_height f /\ f_format f' = f_format f;
  fl_sequence : f_sequence f' =
    if intersect rect (s_rect s) is Some _ then add_w 64 (f_sequence f) 1 else f_sequence f;
  fl_pixels : forall x y k, 0 <= x < rw (s_rect s) -> 0 <= y < rh (s_rect s) -> 0 <= k < 4 ->
    f_pixels f' !! cell (frame_stride f) y (x * 4 + k) =
    if decide (inside rect (rx (s_rect s) + x) (ry (s_rect s) + y))
    then r_pixels r !! cell (stride r) (ry (s_rect s) + y) ((rx (s_rect s) + x) * 4 + k)
    else f_pixels f !! cell (frame_stride f) y (x * 4 + k);
}.

Definition flush_effect (r : Resource) (rect : Rect) (id : Z) (s : ScanoutState) (f f' : Frame) : Prop :=
  if s_resource_id s =? id then flushed r rect s f f' else f' = f.

Lemma flush_one resources r rect id s f :
  id <> 0 -> resources !! id = Some r -> res_ok r -> rect_fits rect -> s_resource_id s = id -> scan_ok resources s f ->
  match intersect rect (s_rect s) with
  | None => flushed r rect s f f
  | Some damage => exists f', copy_into f r (s_rect s) damage = Some f' /\ flushed r rect s f (bump f') /\
                     scan_ok resources s (bump f')
  end.
Proof.
  intros Hid Hres Hr Hrf Hs Hok. unfold scan_ok in *. destruct (Z.eqb_spec (s_resource_id s) 0); [lia|].
  destruct Hok as [r' Hsh]. assert (r' = r) as -> by (pose proof (sh_resource _ _ _ _ Hsh); congruence).
  pose proof (intersect_spec rect (s_rect s) Hrf (sh_rect _ _ _ _ Hsh)) as Hint.
  destruct (intersect rect (s_rect s)) as [damage|] eqn:Hi.
  - destruct Hint as (Hdf & Hdw & Hdh & Hin).
    destruct (copy_into_spec resources s f r damage) as (f' & Hc & Hsh' & Hseq & Hpx);
      [done|done|done|intros x y ?; by apply Hin|done|done|].
    exists f'. split_and!; [done| |exists r; by destruct Hsh'].
    split; [|by rewrite Hi; cbn; rewrite Hseq|].
    + cbn. rewrite (sh_width _ _ _ _ Hsh'), (sh_width _ _ _ _ Hsh), (sh_height _ _ _ _ Hsh'), (sh_height _ _ _ _ Hsh),
        (sh_format _ _ _ _ Hsh'), (sh_format _ _ _ _ Hsh). done.
    + intros x y k Hx Hy Hk. cbn [bump f_pixels]. rewrite Hpx by done. apply decide_ext. rewrite Hin.
      assert (inside (s_rect s) (rx (s_rect s) + x) (ry (s_rect s) + y)) by (unfold inside; lia). naive_solver.
  - split; [done|by rewrite Hi|]. intros x y k Hx Hy Hk. rewrite decide_False; [done|]. intros Hin.
    apply (Hint (rx (s_rect s) + x) (ry (s_rect s) + y)). split; [done|]. unfold inside. lia.
Qed.

Lemma flush_loop_spec resources r rect id states frames pre reached :
  id <> 0 -> resources !! id = Some r -> res_ok r -> rect_fits rect ->
  Forall2 (scan_ok resources) states frames ->
  exists frames' reached', flush_loop r rect id (length pre) states (pre ++ frames) reached = Some (pre ++ frames', reached') /\
    Forall2 (scan_ok resources) states frames' /\ Forall3 (flush_effect r rect id) states frames frames'.
Proof.
  intros Hid Hres Hr Hrf Hall. revert pre reached.
  induction Hall as [|s f states frames Hsf _ IH]; intros pre reached; cbn [flush_loop].
  { exists [], reached. split_and!; [done|constructor|constructor]. }
  assert (forall f' reached0, scan_ok resources s f' -> flush_effect r rect id s f f' ->
    exists frames' reached', flush_loop r rect id (S (length pre)) states (pre ++ f' :: frames) reached0 = Some (pre ++ frames', reached') /\
      Forall2 (scan_ok resources) (s :: states) frames' /\ Forall3 (flush_effect r rect id) (s :: states) (f :: frames) frames') as Hgo.
  { intros f' reached0 Hok He. destruct (IH (pre ++ [f']) reached0) as (fs & rd & Hl & H2 & H3).
    rewrite length_app in Hl. cbn [length] in Hl. rewrite Nat.add_1_r, <- !app_assoc in Hl. cbn [app] in Hl.
    exists (f' :: fs), rd. split_and!; [done|by constructor|by constructor]. }
  destruct (Z.eqb_spec (s_resource_id s) id) as [Hs|Hs]; cbn [negb].
  2: { apply Hgo; [done|]. unfold flush_effect. by destruct (Z.eqb_spec (s_resource_id s) id). }
  pose proof (flush_one resources r rect id s f Hid Hres Hr Hrf Hs Hsf) as Hone.
  destruct (intersect rect (s_rect s)) as [damage|] eqn:Hi.
  - rewrite list_lookup_middle by done. destruct Hone as (f' & -> & Hfl & Hok). cbn [mbind option_bind].
    assert (<[length pre := bump f']> (pre ++ f :: frames) = pre ++ bump f' :: frames) as ->
      by (rewrite insert_app_r_alt by lia; rewrite Nat.sub_diag; done).
    apply Hgo; [done|]. unfold flush_effect. by destruct (Z.eqb_spec (s_resource_id s) id).
  - apply Hgo; [done|]. unfold flush_effect. by destruct (Z.eqb_spec (s_resource_id s) id).
Qed.

Lemma gpu_flush_spec g rect id :
  gpu_ok g -> rect_fits rect ->
  exists res, flush g rect id = Some res /\
    match res with
    | Ok g' => gpu_ok g' /\ g_resources g' = g_resources g /\ g_scanouts g' = g_scanouts g /\
        exists r, g_resources g !! id = Some r /\ fits_in rect (r_width r) (r_height r) = true /\
          Forall3 (flush_effect r rect id) (g_scanouts g) (d_frames (g_display g)) (d_frames (g_display g'))
    | Err k =>
        g_resources g !! id = None /\ k = RESP_ERR_INVALID_RESOURCE_ID \/
        (exists r, g_resources g !! id = Some r /\ fits_in rect (r_width r) (r_height r) = false) /\
        k = RESP_ERR_INVALID_PARAMETER
    end.
Proof.
  intros Hg Hrf. unfold flush. destruct (g_resources g !! id) as [r|] eqn:Hr; [|eexists; split; [reflexivity|]; by left].
  destruct (gk_resources _ Hg _ _ Hr) as [Hid Hrok].
  destruct (fits_in rect (r_width r) (r_height r)) eqn:Hfit; cbn [negb]; [|eexists; split; [reflexivity|]; right; split; [by exists r|done]].
  destruct (flush_loop_spec (g_resources g) r rect id (g_scanouts g) (d_frames (g_display g)) [] false)
    as (fs & rd & Hl & H2 & H3); [done|done|done|done|apply Hg|]. cbn [length app] in Hl. rewrite Hl.
  eexists. split; [reflexivity|].
  assert (gpu_ok (set_outputs g fs (g_scanouts g))) as Hok.
  { destruct Hg. split; cbn; try done. }
  destruct rd; (split_and!; [try apply gpu_count_ok; done|done|done|]); exists r; done.
Qed.

Section processor_ok.
Context {M : Type} `{!ByteMemory M}.
Implicit Types (mem : M).

Lemma seqZ_below n : Forall (fun h => 0 <= h < n) (seqZ 0 n).
Proof. apply list.Forall_forall. intros h Hh%elem_of_seqZ. lia. Qed.

(** A resource replaced by one of the same size and format. *)
Lemma replace_ok g id r r' :
  gpu_ok g -> g_resources g !! id = Some r -> res_ok r' ->
  r_width r' = r_width r -> r_height r' = r_height r -> r_format r' = r_format r ->
  gpu_ok (set_resources g (<[id := r']> (g_resources g)) (g_hostmem g)).
Proof.
  intros Hg Hr Hr' Hw Hh Hf. destruct (gk_resources _ Hg _ _ Hr) as [Hid _].
  split; cbn [set_resources g_resources g_hostmem g_scanouts g_display].
  - intros k rk. destruct (decide (k = id)) as [->|Hne].
    + rewrite lookup_insert_eq. by intros [= <-].
    + rewrite lookup_insert_ne by done. apply Hg.
  - rewrite (hostmem_update _ _ r); [apply Hg|done|unfold res_bytes; by rewrite Hw, Hh].
  - apply Hg.
  - eapply Forall2_impl; [|apply Hg]. intros s f. apply scan_ok_frame. intros _ r0 Hr0.
    destruct (decide (s_resource_id s = id)) as [Heq|Hne].
    + exists r'. rewrite Heq in *. rewrite lookup_insert_eq. assert (r0 = r) as -> by congruence. done.
    + exists r0. rewrite lookup_insert_ne by done. done.
  - apply Hg.
Qed.

(** A successful transfer: the pixels of the rectangle are the guest's bytes, row
    by row from [offset]; nothing else of any resource changes. *)
Definition transferred mem (r r' : Resource) (b : Backing) (rect : Rect) (offset : Z) : Prop :=
  forall x y k, 0 <= x < r_width r -> 0 <= y -> 0 <= k < 4 ->
    r_pixels r' !! cell (stride r) y (x * 4 + k) =
    if decide (inside rect x y)
    then mjoin (flat mem (b_entries b) !! Z.to_nat (offset + stride r * (y - ry rect) + ((x - rx rect) * 4 + k)))
    else r_pixels r !! cell (stride r) y (x * 4 + k).

Lemma transfer_spec mem g rect offset id :
  bm_inv mem -> gpu_ok g -> rect_fits rect -> fits 64 offset ->
  exists res g', transfer mem g rect offset id = Some (res, g') /\ gpu_ok g' /\
    g_scanouts g' = g_scanouts g /\ d_frames (g_display g') = d_frames (g_display g) /\
    (forall k, k <> id -> g_resources g' !! k = g_resources g !! k) /\
    (res = Ok () -> exists r r' b, g_resources g !! id = Some r /\ r_backing r = Some b /\
       fits_in rect (r_width r) (r_height r) = true /\ g_resources g' !! id = Some r' /\
       r_width r' = r_width r /\ r_height r' = r_height r /\ transferred mem r r' b rect offset).
Proof.
  intros Hm Hg Hrf Ho. unfold transfer.
  destruct (g_resources g !! id) as [r|] eqn:Hr; [|eexists _, _; split; [reflexivity|]; split_and!; done].
  destruct (fits_in rect (r_width r) (r_height r)) eqn:Hfit; cbn [negb]; [|eexists _, _; split; [reflexivity|]; split_and!; done].
  destruct (r_backing r) as [b|] eqn:Hb; [|eexists _, _; split; [reflexivity|]; split_and!; done].
  destruct (gk_resources _ Hg _ _ Hr) as [Hid Hrok]. pose proof (fits_in_spec _ _ _ Hrf Hfit) as (Hw & Hh & Hx & Hy).
  unfold transfer_from. pose proof (rk_width _ Hrok) as Hrw.
  destruct (transfer_rows_spec mem b rect offset (stride r) (r_height r) (seqZ 0 (rh rect)) (r_pixels r))
    as (res & p & -> & Hl & Hf & Hlook);
    [done|by apply (rk_backing _ Hrok)|done|done|unfold stride, BYTES_PER_PIXEL; lia|unfold stride, BYTES_PER_PIXEL; lia
    |lia|apply Hrok|apply Hrok|apply seqZ_below|apply NoDup_seqZ|]. cbn [mbind option_bind].
  set (r' := set_pixels r p).
  assert (gpu_ok (set_resources g (<[id := r']> (g_resources g)) (g_hostmem g))) as Hok.
  { apply (replace_ok g id r); try done. destruct Hrok as [? ? Hlen ? ?]. split; try done.
    change (length p = Z.to_nat (stride r * r_height r)). congruence. }
  destruct res as [[]|e]; eexists _, _; (split; [reflexivity|]); (split; [try apply gpu_count_ok; exact Hok|]).
  - split_and!; [done|done|intros k Hk; cbn; by rewrite lookup_insert_ne|]. intros _. exists r, r', b.
    split_and!; [done|done|done|cbn; apply lookup_insert_eq|done|done|]. intros x y k Hx' Hy' Hk.
    assert (0 <= x * 4 + k < stride r) as Hc by (unfold stride, BYTES_PER_PIXEL; lia).
    specialize (Hlook y (x * 4 + k) Hy' Hc). cbn [r' set_pixels r_pixels]. unfold inside.
    destruct (decide (rx rect <= x < rx rect + rw rect /\ ry rect <= y < ry rect + rh rect)) as [Hin|Hout].
    + rewrite decide_True in Hlook by (rewrite elem_of_seqZ; lia). rewrite Hlook by done. do 3 f_equal. lia.
    + rewrite decide_False in Hlook by (rewrite elem_of_seqZ; lia). done.
  - split_and!; [done|done|intros k Hk; cbn; by rewrite lookup_insert_ne|discriminate].
Qed.

Lemma attach_ok mem g id entries g' :
  gpu_ok g -> Forall entry_fits entries -> Z.of_nat (length entries) <= MAX_BACKING_ENTRIES ->
  attach mem g id entries = Ok g' -> gpu_ok g'.
Proof.
  intros Hg He Hn. unfold attach. destruct (g_resources g !! id) as [r|] eqn:Hr; [|done].
  case_bool_decide; [done|]. destruct (first_unmapped mem (backing_new entries)) eqn:Hun; [done|]. intros [= <-].
  destruct (gk_resources _ Hg _ _ Hr) as [Hid Hrok].
  assert (b_entries (backing_new entries) = entries) as Hbe by (unfold backing_new; by destruct (starts_from 0 entries)).
  assert (backing_ok (backing_new entries)) as Hbok.
  { split; rewrite Hbe; [done| |done]. unfold first_unmapped in Hun. rewrite Hbe in Hun. rewrite position_None in Hun.
    rewrite !list.Forall_forall in *. intros e Hin. split; [by apply He|]. intros Hpos.
    specialize (Hun e Hin). unfold entry_unmapped in Hun. destruct (Z.eqb_spec (e_len e) 0); [lia|].
    destruct (checked_add 64 (e_addr e) (e_len e - 1)) eqn:Hca; [|done]. apply checked_add_Some in Hca as [_ ?]. lia. }
  apply (replace_ok g id r); try done. destruct Hrok. split; try done. cbn. by intros b [= <-].
Qed.

Lemma detach_ok g id g' : gpu_ok g -> detach g id = Ok g' -> gpu_ok g'.
Proof.
  intros Hg. unfold detach. destruct (g_resources g !! id) as [r|] eqn:Hr; [|done].
  case_bool_decide; [done|]. intros [= <-]. destruct (gk_resources _ Hg _ _ Hr) as [Hid Hrok].
  apply (replace_ok g id r); try done. destruct Hrok. by split.
Qed.

(** The answer to a request: none without a header, else a header that carries
    the request's fence, followed by at most an EDID record. *)
Definition answered (request response : list Z) : Prop :=
  Forall (fits 8) response /\ (length response <= EDID_RESP_LEN)%nat /\
  if bool_decide (length request < HDR_LEN)%nat then response = []
  else exists hdr k, parse_hdr request = Some (Ok hdr) /\ take HDR_LEN response = response_hdr hdr k.

Lemma take_set_bytes n i new l :
  (n <= i)%nat -> (i <= length l)%nat -> take n (set_bytes i new l) = take n l.
Proof.
  intros Hn Hi. unfold set_bytes. rewrite take_app_le by (rewrite length_take; lia).
  by rewrite take_take, Nat.min_l.
Qed.

Lemma take_set_prefix new l : take (length new) (set_bytes 0 new l) = new.
Proof. unfold set_bytes. rewrite take_0, app_nil_l. by rewrite take_app_length. Qed.

Lemma header_answers request hdr k :
  parse_hdr request = Some (Ok hdr) -> answered request (response_hdr hdr k).
Proof.
  intros Hp. split; [apply response_hdr_fits|]. rewrite length_response_hdr. split; [unfold EDID_RESP_LEN; lia|].
  case_bool_decide as Hl.
  - unfold parse_hdr in Hp. by rewrite bool_decide_true in Hp.
  - exists hdr, k. split; [done|]. apply take_ge. by rewrite length_response_hdr.
Qed.

Lemma display_info_answers request hdr modes :
  parse_hdr request = Some (Ok hdr) -> answered request (display_info hdr modes).
Proof.
  intros Hp. split; [apply display_info_fits|]. rewrite length_display_info. split.
  { apply Nat.leb_le. vm_compute. reflexivity. }
  case_bool_decide as Hl; [unfold parse_hdr in Hp; by rewrite bool_decide_true in Hp|].
  exists hdr, RESP_OK_DISPLAY_INFO. split; [done|]. unfold display_info.
  rewrite take_set_bytes; [|done|].
  - rewrite <- (length_response_hdr hdr RESP_OK_DISPLAY_INFO) at 1. apply take_set_prefix.
  - rewrite length_set_bytes; rewrite ?length_response_hdr, length_replicate; unfold DISPLAY_INFO_LEN; lia.
Qed.

Lemma block_fits w h : Forall (fits 8) (block_for_mode w h).
Proof.
  unfold block_for_mode. apply set_bytes_fits; [constructor; [|constructor]; by apply wrap_fits|].
  apply set_bytes_fits; [apply write_name_fits, Forall_take, Forall_drop|];
    (apply set_bytes_fits; [apply write_dtd_fits; [lia|lia|apply Forall_take, Forall_drop]|]);
    repeat (apply set_bytes_fits; [try apply be_bytes_fits; try apply le_bytes_fits; repeat constructor; done|]);
    apply zeros_fit.
Qed.

Lemma edid_answers request hdr w h :
  parse_hdr request = Some (Ok hdr) -> answered request (edid_response hdr (block_for_mode w h)).
Proof.
  intros Hp. split; [|split].
  - unfold edid_response, wire_edid. eauto 10 using block_fits, response_hdr_fits with tern.
  - by rewrite edid_response_ok.
  - case_bool_decide as Hl; [unfold parse_hdr in Hp; by rewrite bool_decide_true in Hp|].
    exists hdr, RESP_OK_EDID. split; [done|]. unfold edid_response.
    assert (length (set_bytes 0 (response_hdr hdr RESP_OK_EDID) (replicate EDID_RESP_LEN 0)) = EDID_RESP_LEN) as H1
      by (rewrite length_set_bytes; rewrite ?length_response_hdr, length_replicate; unfold EDID_RESP_LEN; lia).
    assert (length (set_bytes HDR_LEN (le_bytes 4 (Z.of_nat BLOCK_LEN))
      (set_bytes 0 (response_hdr hdr RESP_OK_EDID) (replicate EDID_RESP_LEN 0))) = EDID_RESP_LEN) as H2
      by (rewrite length_set_bytes; rewrite ?H1, ?length_le_bytes; unfold EDID_RESP_LEN; lia).
    rewrite take_set_bytes; [|lia|rewrite H2; unfold EDID_RESP_LEN; lia].
    rewrite take_set_bytes; [|lia|rewrite H1; unfold EDID_RESP_LEN; lia].
    rewrite <- (length_response_hdr hdr RESP_OK_EDID) at 1. apply take_set_prefix.
Qed.

Lemma answer_ok request hdr g res :
  parse_hdr request = Some (Ok hdr) -> gpu_ok g -> match res with Ok g' => gpu_ok g' | Err _ => True end ->
  answered request (answer hdr g res).1 /\ gpu_ok (answer hdr g res).2.
Proof. intros Hp Hg Hres. destruct res; cbn; auto using header_answers, gpu_count_ok. Qed.

Lemma handle_ok mem g request :
  bm_inv mem -> gpu_ok g -> Forall (fits 8) request ->
  exists response g', handle mem g request = Some (response, g') /\ answered request response /\ gpu_ok g'.
Proof.
  intros Hm Hg Hf. unfold handle. destruct (parse_total request Hf) as (p & Hp & Hok). rewrite Hp. cbn [mbind option_bind].
  pose proof (parse_hdr_total request Hf) as Hh. pose proof (gpu_count_ok 1 0 0 0 g Hg) as Hg1.
  set (g1 := count 1 0 0 0 g) in *. destruct p as [[hdr command]|e].
  - destruct Hok as [_ Hc]. assert (parse_hdr request = Some (Ok hdr)) as Hhdr.
    { unfold parse in Hp. destruct (parse_hdr request) as [[h|]|]; cbn in Hp; try done.
      destruct (parse_body h _) as [[c|]|]; cbn in Hp; by simplify_eq. }
    assert (forall res, match res with Ok g' => gpu_ok g' | Err _ => True end ->
      exists response g', Some (answer hdr g1 res) = Some (response, g') /\ answered request response /\ gpu_ok g') as Hgo.
    { intros res Hres. destruct (answer_ok request hdr g1 res Hhdr Hg1 Hres). destruct (answer hdr g1 res) as [rsp g']. eauto. }
    destruct command as [|id f w h|id|r s id|r id|r offset id|id entries|id|s|]; cbn [command_fits] in Hc.
    + eexists _, _. split; [reflexivity|]. auto using display_info_answers.
    + apply Hgo. destruct (create g1 id f w h) as [g'|] eqn:Hcr; [|done]. apply (create_ok _ _ _ _ _ _ Hg1) in Hcr; [done|apply Hc|apply Hc].
    + apply Hgo. destruct (unref g1 id) as [g'|] eqn:Hu; [|done]. by apply (unref_ok _ _ _ Hg1) in Hu.
    + destruct (set_scanout_ok g1 r s id Hg1) as (res & -> & Hres); [apply Hc|]. by apply Hgo.
    + destruct (gpu_flush_spec g1 r id Hg1) as (res & -> & Hres); [apply Hc|]. apply Hgo. destruct res; [apply Hres|done].
    + destruct (transfer_spec mem g1 r offset id Hm Hg1) as (res & g' & -> & Hg' & _); [apply Hc|apply Hc|].
      destruct (answer_ok request hdr g' (match res with Ok _ => Ok g' | Err k => Err k end) Hhdr Hg') as [H1 H2].
      { by destruct res. }
      destruct (answer hdr g' _) as [rsp g2]. eauto.
    + apply Hgo. destruct (attach mem g1 id entries) as [g'|] eqn:Ha; [|done].
      apply (attach_ok mem g1 id entries g' Hg1) in Ha; [done|apply Hc|apply Hc].
    + apply Hgo. destruct (detach g1 id) as [g'|] eqn:Hd; [|done]. by apply (detach_ok _ _ _ Hg1) in Hd.
    + unfold get_edid. destruct (d_modes (g_display g1) !! Z.to_nat s) as [mode|];
        (eexists _, _; split; [reflexivity|]); auto using edid_answers, header_answers, gpu_count_ok.
    + by apply Hgo.
  - unfold parse_failed. case_bool_decide as Hl.
    + rewrite Hh. cbn. eexists _, _. split; [reflexivity|]. split; [|by apply gpu_count_ok].
      split; [constructor|]. split; [cbn; lia|]. by rewrite bool_decide_true.
    + destruct Hh as (h & Hph & _). rewrite Hph. cbn. eexists _, _. split; [reflexivity|].
      split; [by apply header_answers|by apply gpu_count_ok].
Qed.
End processor_ok.

(** ** The worker *)

Definition slot_ok (slot : option Bound) : Prop := forall b, slot = Some b -> wf_queue (bd_queue b).

Record worker_ok (w : Worker) : Prop := {
  wk_gpu : gpu_ok (w_gpu w);
  wk_queues : Forall slot_ok (w_queues w);
}.

(** What the transport puts in a notification. *)
Definition kick_ok (k : Kick) : Prop :=
  match k with
  | KNotify n => fits 16 (n_size n) /\ fits 64 (n_desc n) /\ fits 64 (n_avail n) /\ fits 64 (n_used n)
  | KReset => True
  end.

Section worker_ok.
Context {M : Type} `{!ByteMemory M}.
Implicit Types (mem : M).

Lemma gpu_gather_fits mem bufs : bm_inv mem -> Forall buf_ok bufs -> Forall (fits 8) (gather mem bufs).
Proof.
  intros Hm Hb. unfold gather. generalize (Z.min (foldr (fun b n => buf_len b + n) 0 bufs) MAX_REQUEST). 
  induction Hb as [|b bufs (Ha & _) _ IH]; intros room; cbn [gather_loop]; [by apply Forall_replicate|].
  destruct (_ =? 0); [apply IH|]. destruct (bm_read mem _ _) as [bs|] eqn:Hr; [|constructor].
  apply Forall_app. split; [|apply IH]. exact (bm_read_fits mem _ _ bs Hm Ha Hr).
Qed.

Lemma scatter_ok mem bufs response :
  bm_inv mem -> Forall buf_ok bufs -> Forall (fits 8) response ->
  bm_inv (scatter mem bufs response).2 /\ 0 <= (scatter mem bufs response).1 <= Z.of_nat (length response).
Proof.
  intros Hm Hb. revert mem response Hm. induction Hb as [|b bufs (Ha & [Hl _] & _) _ IH]; intros mem response Hm Hf;
    cbn [scatter]; [cbn; split; [done|lia]|]. destruct response as [|x rest] eqn:He; [cbn; split; [done|lia]|]. rewrite <- He in *. clear He rest.
  set (n := Z.to_nat (Z.min (buf_len b) (Z.of_nat (length response)))).
  destruct (bm_write mem (buf_addr b) (take n response)) as [mem1|] eqn:Hw; [|cbn; split; [done|lia]].
  apply bm_write_spec in Hw as (Hm1 & _); [|done|done|by apply Forall_take].
  destruct (IH mem1 (drop n response) Hm1) as [Hm2 Hn]; [by apply Forall_drop|].
  destruct (scatter mem1 bufs (drop n response)) as [written mem2]. cbn in *. rewrite length_drop in Hn. split; [done|]. lia.
Qed.

Lemma serve_chains_ok index mem q cs g completed :
  bm_inv mem -> wf_queue q -> Forall chain_ok cs -> gpu_ok g ->
  exists c' q' mem' g', serve_chains index mem q cs g completed = Some (c', q', mem', g') /\
    bm_inv mem' /\ wf_queue q' /\ gpu_ok g'.
Proof.
  intros Hm Hq Hcs. revert mem q g completed Hm Hq. induction Hcs as [|c cs [_ Hcr Hcw] _ IH];
    intros mem q g completed Hm Hq Hg; cbn [serve_chains]; [eexists _, _, _, _; done|].
  assert (exists response g1, (if index =? CONTROL_QUEUE then handle mem g (gather mem (c_readable c)) else Some ([], g))
    = Some (response, g1) /\ Forall (fits 8) response /\ gpu_ok g1) as (response & g1 & -> & Hrf & Hg1).
  { destruct (index =? CONTROL_QUEUE); [|eexists _, _; split; [reflexivity|]; split; [constructor|done]].
    destruct (handle_ok mem g (gather mem (c_readable c))) as (response & g1 & -> & Ha & Hg1); [done|done|by apply gpu_gather_fits|].
    eexists _, _. split; [reflexivity|]. split; [apply Ha|done]. }
  cbn [mbind option_bind]. destruct (scatter_ok mem (c_writable c) response) as [Hm1 _]; [done|done|done|].
  destruct (scatter mem (c_writable c) response) as [written mem1]. cbn [fst snd] in Hm1.
  pose proof (add_used_keeps mem1 q (c_head c) (wrap 32 written) Hm1 Hq) as Hu.
  destruct (add_used q mem1 (c_head c) (wrap 32 written)) as [[q1 mem2] [b| |]]; try done.
  destruct Hu as (Hq1 & Hm2 & _). by apply IH.
Qed.

Lemma on_kick_ok w mem irq k :
  worker_ok w -> bm_inv mem -> kick_ok k ->
  exists w' mem' irq', on_kick w mem irq k = Some (w', mem', irq') /\ worker_ok w' /\ bm_inv mem'.
Proof.
  intros [Hg Hqs] Hm Hk. destruct k as [n|]; cbn [on_kick].
  - destruct (w_queues w !! Z.to_nat (n_index n)) as [slot|] eqn:Hslot; [|eexists _, _, _; done].
    assert (wf_queue (bd_queue (bind_queue n slot))) as Hq.
    { destruct Hk as (? & ? & ? & ?). pose proof (Forall_lookup_1 _ _ _ _ Hqs Hslot) as Hs. unfold bind_queue.
      destruct slot as [b|]; [case_bool_decide; [by apply Hs|]|]; by apply queue_new_wf. }
    unfold serve. destruct (chains_keeps mem CHAINS (bd_queue (bind_queue n slot)) Hm Hq) as [Hq1 Hcs].
    destruct (chains mem CHAINS _) as [[q1 cs] fin]. cbn [fst snd] in *.
    destruct (serve_chains_ok (n_index n) mem q1 cs (w_gpu w) false) as (c' & q2 & mem2 & g2 & -> & Hm2 & Hq2 & Hg2); [done..|].
    assert (wf_queue (if c' then notification_needed q2 mem2 else (q2, false)).1) as Hq3
      by (destruct c'; [by apply notification_keeps|done]).
    destruct (if c' then _ else _) as [q3 needed]. eexists _, _, _. split; [reflexivity|]. split; [|done].
    split; [done|]. cbn. apply Forall_insert; [done|]. by intros b [= <-].
  - eexists _, _, _. split; [reflexivity|]. split; [|done]. split; cbn; [by apply reset_ok|].
    constructor; [done|]. constructor; [done|constructor].
Qed.
End worker_ok.

Lemma gpu_new_ok modes stats : gpu_ok (gpu_new (display_new modes) stats).
Proof.
  split; cbn [gpu_new g_resources g_hostmem g_scanouts g_display display_new d_frames d_modes].
  - intros id r Hr. by rewrite lookup_empty in Hr.
  - done.
  - done.
  - rewrite length_fmap. induction modes as [|m modes IH]; cbn; constructor; done.
  - by rewrite length_replicate, length_fmap.
Qed.

(** ** What the guest and the viewer can rely on *)

(** One step of the command processor: a request over whatever guest memory
    holds at that time, or a device reset. *)
Inductive GpuOp (M : Type) := Request (mem : M) (request : list Z) | Reset.
Arguments Request {M}.
Arguments Reset {M}.

Definition op_ok {M} `{!ByteMemory M} (op : GpuOp M) : Prop :=
  match op with Request mem request => bm_inv mem /\ Forall (fits 8) request | Reset => True end.

Fixpoint gpu_run {M} `{!ByteMemory M} (g : Gpu2d) (ops : list (GpuOp M)) : option (list (list Z) * Gpu2d) :=
  match ops with
  | [] => Some ([], g)
  | Reset :: ops => gpu_run (gpu_reset g) ops
  | Request mem request :: ops =>
      '(response, g) ← handle mem g request;
      '(rest, g) ← gpu_run g ops;
      Some (response :: rest, g)
  end.

Fixpoint requests {M} (ops : list (GpuOp M)) : list (list Z) :=
  match ops with
  | [] => []
  | Reset :: ops => requests ops
  | Request _ request :: ops => request :: requests ops
  end.

(** C29: whatever byte strings the guest sends on the control queue, in any
    order and over any guest memory, the command processor answers every one
    without a panic, with its fence echoed; its resources together stay inside
    the 256 MiB budget, which the counter tracks exactly, every host copy has
    the size of its resource, and every enabled scanout shows a rectangle inside
    an existing resource in a frame of that size. *)
Theorem gpu_processor_invariant {M} `{!ByteMemory M} modes stats (ops : list (GpuOp M)) :
  Forall op_ok ops ->
  exists responses g, gpu_run (gpu_new (display_new modes) stats) ops = Some (responses, g) /\ gpu_ok g /\
    Forall2 answered (requests ops) responses.
Proof.
  intros Hops. generalize (gpu_new_ok modes stats). generalize (gpu_new (display_new modes) stats).
  induction Hops as [|op ops Hop _ IH]; intros g Hg; cbn [gpu_run requests]; [by exists [], g|].
  destruct op as [mem request|].
  - destruct Hop as [Hm Hf]. destruct (handle_ok mem g request Hm Hg Hf) as (response & g1 & -> & Ha & Hg1).
    cbn [mbind option_bind]. destruct (IH g1 Hg1) as (rs & g2 & -> & Hg2 & Hrs). cbn [mbind option_bind].
    exists (response :: rs), g2. auto using Forall2_cons_2.
  - by apply IH, reset_ok.
Qed.

(** C28: after the guest transfers a rectangle of a resource and flushes it,
    every scanout that shows the resource displays, at each of its pixels inside
    the rectangle, the bytes the guest has behind the resource at the offset of
    that row and column, and at every other pixel what it displayed before;
    scanouts of other resources are untouched. *)
Theorem gpu_display_exact {M} `{!ByteMemory M} (mem : M) g rect offset id g1 g2 :
  bm_inv mem -> gpu_ok g -> rect_fits rect -> fits 64 offset ->
  transfer mem g rect offset id = Some (Ok (), g1) -> flush g1 rect id = Some (Ok g2) ->
  exists r b, g_resources g !! id = Some r /\ r_backing r = Some b /\
  forall i s f f2, g_scanouts g !! i = Some s -> d_frames (g_display g) !! i = Some f ->
    d_frames (g_display g2) !! i = Some f2 ->
    if s_resource_id s =? id then
      forall x y k, 0 <= x < rw (s_rect s) -> 0 <= y < rh (s_rect s) -> 0 <= k < 4 ->
        let X := rx (s_rect s) + x in let Y := ry (s_rect s) + y in
        f_pixels f2 !! cell (frame_stride f) y (x * 4 + k) =
        if decide (inside rect X Y)
        then mjoin (flat mem (b_entries b) !! Z.to_nat (offset + stride r * (Y - ry rect) + ((X - rx rect) * 4 + k)))
        else f_pixels f !! cell (frame_stride f) y (x * 4 + k)
    else f2 = f.
Proof.
  intros Hm Hg Hrf Ho Ht Hfl.
  destruct (transfer_spec mem g rect offset id Hm Hg Hrf Ho) as (res & g1' & Ht' & Hg1 & Hsc & Hfr & _ & Hok).
  rewrite Ht in Ht'. simplify_eq. destruct (Hok eq_refl) as (r & r' & b & Hr & Hb & Hfit & Hr' & Hw & Hh & Htr).
  destruct (gpu_flush_spec g1' rect id Hg1 Hrf) as (res & Hfl' & Hres). rewrite Hfl in Hfl'. simplify_eq.
  destruct Hres as (_ & _ & _ & r'' & Hr'' & _ & Heff). assert (r'' = r') as -> by congruence.
  exists r, b. split_and!; [done|done|]. intros i s f f2 Hs Hf Hf2. rewrite Hsc, Hfr in Heff.
  pose proof (Forall3_lookup_lmr _ _ _ _ _ _ _ _ Heff Hs Hf Hf2) as He. unfold flush_effect in He.
  destruct (Z.eqb_spec (s_resource_id s) id) as [Hid|]; [|done].
  intros x y k Hx Hy Hk. cbv zeta. rewrite (fl_pixels _ _ _ _ _ He) by done. case_decide as Hin; [|done].
  pose proof (Forall2_lookup_lr _ _ _ _ _ _ (gk_scanouts _ Hg) Hs Hf) as Hsok. unfold scan_ok in Hsok.
  destruct (gk_resources _ Hg _ _ Hr) as [Hid0 _]. destruct (Z.eqb_spec (s_resource_id s) 0); [lia|].
  destruct Hsok as [r0 Hsh]. pose proof (sh_resource _ _ _ _ Hsh) as Hr0. assert (r0 = r) as -> by congruence.
  pose proof (fits_in_spec _ _ _ (sh_rect _ _ _ _ Hsh) (sh_fits _ _ _ _ Hsh)) as (_ & _ & Hvx & Hvy).
  destruct (sh_rect _ _ _ _ Hsh) as [[Hx0 _] [Hy0 _] _ _].
  assert (stride r' = stride r) as -> by (unfold stride; congruence).
  rewrite Htr by lia. by rewrite decide_True.
Qed.

(** The queue worker is safe: from a sound state, whatever the guest put in
    its rings, descriptors and buffers, a notification of any queue or a reset
    completes without a panic and leaves queues, guest memory and the command
    processor sound. *)
Theorem gpu_worker_safe {M} `{!ByteMemory M} (w : Worker) (mem : M) irq k :
  worker_ok w -> bm_inv mem -> kick_ok k ->
  exists w' mem' irq', on_kick w mem irq k = Some (w', mem', irq') /\ worker_ok w' /\ bm_inv mem'.
Proof. apply on_kick_ok. Qed.

(** A 2x2 resource over sixteen bytes of guest memory, shown on the scanout. *)
Definition sample_rect : Rect := {| rx := 0; ry := 0; rw := 2; rh := 2 |}.
Definition sample_stats : GpuStats := {| st_commands := 0; st_errors := 0; st_flushes := 0; st_transferred := 0 |}.
Definition sample_created : result Z Gpu2d := create (gpu_new (display_new [(2, 2)]) sample_stats) 1 1 2 2.
Definition sample_attached : result Z Gpu2d :=
  g ← sample_created; attach demo_ram g 1 [{| e_addr := demo_base; e_len := 16 |}].

Lemma sample_attached_ok g : sample_attached = Ok g -> gpu_ok g.
Proof.
  unfold sample_attached. intros (g0 & Hc & Ha)%bind_Ok.
  apply (attach_ok demo_ram g0 1 [{| e_addr := demo_base; e_len := 16 |}] g); [| | |done].
  - apply (create_ok _ _ _ _ _ _ (gpu_new_ok _ _)) in Hc; [done|lia|lia].
  - constructor; [|constructor]. split; fits_closed.
  - vm_compute. discriminate.
Qed.

Lemma sample_rect_fits : rect_fits sample_rect.
Proof. split; fits_closed. Qed.

Lemma gpu_processor_invariant_witness :
  exists responses g,
    gpu_run (gpu_new (display_new [(2, 2)]) sample_stats)
      [Request demo_ram (le_bytes 4 CMD_RESOURCE_CREATE_2D ++ replicate 36 0); Reset] = Some (responses, g) /\ gpu_ok g /\
    Forall2 answered (requests (M := Memory) [Request demo_ram (le_bytes 4 CMD_RESOURCE_CREATE_2D ++ replicate 36 0); Reset]) responses.
Proof.
  apply gpu_processor_invariant. constructor; [|constructor; [exact I|constructor]].
  split; [exact demo_ram_wf|]. apply Forall_app. split; [apply le_bytes_fits|by apply Forall_replicate].
Defined.

Lemma gpu_display_exact_witness :
  exists g0 g g1 g2 r b, sample_attached = Ok g0 /\ set_scanout g0 sample_rect 0 1 = Some (Ok g) /\
  transfer demo_ram g sample_rect 0 1 = Some (Ok (), g1) /\ flush g1 sample_rect 1 = Some (Ok g2) /\
  g_resources g !! 1 = Some r /\ r_backing r = Some b /\
  forall i s f f2, g_scanouts g !! i = Some s -> d_frames (g_display g) !! i = Some f ->
    d_frames (g_display g2) !! i = Some f2 ->
    if s_resource_id s =? 1 then
      forall x y k, 0 <= x < rw (s_rect s) -> 0 <= y < rh (s_rect s) -> 0 <= k < 4 ->
        let X := rx (s_rect s) + x in let Y := ry (s_rect s) + y in
        f_pixels f2 !! cell (frame_stride f) y (x * 4 + k) =
        if decide (inside sample_rect X Y)
        then mjoin (flat demo_ram (b_entries b) !! Z.to_nat (0 + stride r * (Y - ry sample_rect) + ((X - rx sample_rect) * 4 + k)))
        else f_pixels f !! cell (frame_stride f) y (x * 4 + k)
    else f2 = f.
Proof.
  destruct sample_attached as [g0|] eqn:E0; [|vm_compute in E0; discriminate E0].
  destruct (set_scanout_ok g0 sample_rect 0 1 (sample_attached_ok g0 E0) sample_rect_fits) as (res & E1 & Hg).
  destruct res as [g|]; [|vm_compute in E0; injection E0 as <-; vm_compute in E1; discriminate E1].
  destruct (transfer demo_ram g sample_rect 0 1) as [[[[]|] g1]|] eqn:E2;
    [|vm_compute in E0; injection E0 as <-; vm_compute in E1; injection E1 as <-; vm_compute in E2; discriminate E2..].
  destruct (flush g1 sample_rect 1) as [[g2|]|] eqn:E3;
    [|vm_compute in E0; injection E0 as <-; vm_compute in E1; injection E1 as <-; vm_compute in E2; injection E2 as <-;
      vm_compute in E3; discriminate E3..].
  destruct (gpu_display_exact demo_ram g sample_rect 0 1 g1 g2 demo_ram_wf Hg sample_rect_fits ltac:(fits_closed) E2 E3)
    as (r & b & Hr & Hb & Hall).
  exists g0, g, g1, g2, r, b. split; [reflexivity|]. split; [exact E1|]. split; [exact E2|]. split; [exact E3|].
  split; [exact Hr|]. split; [exact Hb|]. exact Hall.
Defined.

Lemma gpu_worker_safe_witness :
  exists w' mem' irq', on_kick (worker_new (gpu_new (display_new [(2, 2)]) sample_stats)) demo_ram VirtioIrq.new
    (KNotify {| n_index := 0; n_size := 4; n_desc := demo_base + 0x1000; n_avail := demo_base + 0x2000;
                n_used := demo_base + 0x3000; n_features := VIRTIO_F_INDIRECT_DESC |}) = Some (w', mem', irq') /\
    worker_ok w' /\ bm_inv mem'.
Proof.
  apply (gpu_worker_safe (worker_new (gpu_new (display_new [(2, 2)]) sample_stats)) demo_ram VirtioIrq.new).
  - split; [apply gpu_new_ok|]. constructor; [done|]. constructor; [done|constructor].
  - exact demo_ram_wf.
  - split; [fits_closed|]. split; [fits_closed|]. split; fits_closed.
Defined.
