(* ===== verification/Usb.v ===== *)
(** * USB: transfer request blocks, event ring, HID devices, slots and ports

    Model of [ternvale-usb/src]: the register offsets of [regs.rs], the TRB
    codec of [trb.rs], the guest-memory helpers of [mem.rs] and the errors of
    [guest_mem.rs], the event ring of [event.rs], the virtual keyboard and mouse
    of [hid.rs], the setup packet of [host.rs], the slots and root ports of
    [slots.rs] and the input context of [input_ctx.rs].  The controller built
    from them is in [Xhci].

    Ring code runs in a monad whose state survives an error: a Rust method that
    returns early with [?] keeps what it changed before. *)

From stdpp Require Import list.
From S2P Require Import Prelude GuestMemory.

(** ** Register map ([regs.rs]) *)

Definition MMIO_SIZE : Z := 0x5000.
Definition CAPLENGTH : Z := 0x20.
Definition HCIVERSION : Z := 0x0100.
Definition NUM_PORTS : Z := 4.
Definition MAX_SLOTS : Z := 8.
Definition MAX_INTRS : Z := 1.
Definition HCSPARAMS1 : Z := 0x04.
Definition HCSPARAMS2 : Z := 0x08.
Definition HCCPARAMS1 : Z := 0x10.
Definition EXT_CAP_BASE : Z := 0x20.
Definition HCCPARAMS1_VALUE : Z := Z.lor 1 (Z.shiftl EXT_CAP_BASE 16).
Definition DBOFF : Z := 0x4000.
Definition RTSOFF : Z := 0x2000.
Definition USBCMD : Z := 0x20.
Definition USBSTS : Z := USBCMD + 4.
Definition PAGESIZE : Z := USBCMD + 8.
Definition DNCTRL : Z := USBCMD + 0x14.
Definition CRCR : Z := USBCMD + 0x18.
Definition CRCR_HI : Z := CRCR + 4.
Definition DCBAAP : Z := USBCMD + 0x30.
Definition DCBAAP_HI : Z := DCBAAP + 4.
Definition CONFIG : Z := USBCMD + 0x38.
Definition PORTSC_BASE : Z := USBCMD + 0x400.

Definition rt_iman (intr : Z) : Z := RTSOFF + intr * 0x20.
Definition rt_erstsz (intr : Z) : Z := rt_iman intr + 0x08.
Definition rt_erstba (intr : Z) : Z := rt_iman intr + 0x10.
Definition rt_erdp (intr : Z) : Z := rt_iman intr + 0x18.
Definition doorbell (slot : Z) : Z := DBOFF + slot * 4.

Definition CMD_RUN : Z := 1.
Definition CMD_HCRST : Z := 2.
Definition STS_HALT : Z := 1.
Definition STS_HSE : Z := 4.
Definition STS_EINT : Z := 8.
Definition CMD_INTE : Z := 4.
Definition IMAN_IP : Z := 1.
Definition IMAN_IE : Z := 2.
Definition PORT_CCS : Z := 1.
Definition PORT_PED : Z := 2.
Definition PORT_PR : Z := 16.

Definition ext_cap_word (offset : Z) : Z :=
  let port_map := Z.lor (Z.shiftl NUM_PORTS 8) 1 in
  if offset =? EXT_CAP_BASE then 2
  else if offset =? 0x24 then 2
  else if offset =? 0x28 then port_map
  else 0.

(** ** TRBs ([trb.rs]) *)

Definition TRB_SIZE : Z := 16.

Definition TRB_TYPE_NORMAL : Z := 1.
Definition TRB_TYPE_SETUP_STAGE : Z := 2.
Definition TRB_TYPE_DATA_STAGE : Z := 3.
Definition TRB_TYPE_STATUS_STAGE : Z := 4.
Definition TRB_TYPE_LINK : Z := 6.
Definition TRB_TYPE_NOOP : Z := 8.
Definition TRB_TYPE_ENABLE_SLOT : Z := 9.
Definition TRB_TYPE_DISABLE_SLOT : Z := 10.
Definition TRB_TYPE_ADDRESS_DEVICE : Z := 11.
Definition TRB_TYPE_CONFIGURE_EP : Z := 12.

Record Trb := { t_param : Z; t_status : Z; t_control : Z }.

Definition trb_from_bytes (bytes : list Z) : option Trb :=
  if bool_decide (length bytes < 16)%nat then None
  else Some {| t_param := of_le (take 8 bytes);
               t_status := of_le (take 4 (drop 8 bytes));
               t_control := of_le (take 4 (drop 12 bytes)) |}.

Definition trb_to_bytes (t : Trb) : list Z :=
  le_bytes 8 (t_param t) ++ le_bytes 4 (t_status t) ++ le_bytes 4 (t_control t).

Definition trb_type (t : Trb) : Z := Z.land (Z.shiftr (t_control t) 10) 0x3f.
Definition cycle (t : Trb) : bool := negb (Z.land (t_control t) 1 =? 0).

(** ** Guest memory errors and the ring monad ([guest_mem.rs], [mem.rs]) *)

Inductive MemError :=
  | ReadFailed (gpa : Z)
  | WriteFailed (gpa : Z)
  | BadTrb (gpa : Z).

(** Completion codes and the event ring ([event.rs]). *)
Definition CC_SUCCESS : Z := 1.
Definition CC_TRB_ERROR : Z := 5.
Definition CC_STALL_ERROR : Z := 6.

Record EventRing := { e_base : Z; e_size : Z; e_index : Z; e_cycle : bool }.

Definition event_default : EventRing := {| e_base := 0; e_size := 0; e_index := 0; e_cycle := false |}.

(** What ring code works on: guest memory, the event ring, and the object [X]
    (a slot, or the slot table with the command ring) it may change. *)
Record Ring (M X : Type) := { k_mem : M; k_ev : EventRing; k_at : X }.
Arguments k_mem {M X} _.
Arguments k_ev {M X} _.
Arguments k_at {M X} _.

Definition RM (M X A : Type) : Type := Ring M X -> Ring M X * result MemError A.

#[export] Instance RM_ret M X : MRet (RM M X) := fun _ a s => (s, Ok a).
#[export] Instance RM_bind M X : MBind (RM M X) := fun _ _ k c s =>
  match c s with (s', Ok a) => k a s' | (s', Err e) => (s', Err e) end.

Section ring.
Context {M : Type} `{!ByteMemory M} {X : Type}.

Definition this : RM M X X := fun s => (s, Ok (k_at s)).
Definition modify (f : X -> X) : RM M X unit := fun s =>
  ({| k_mem := k_mem s; k_ev := k_ev s; k_at := f (k_at s) |}, Ok tt).

Definition read_bytes (gpa : Z) (len : nat) : RM M X (list Z) := fun s =>
  (s, match bm_read (k_mem s) gpa len with Ok bs => Ok bs | Err _ => Err (ReadFailed gpa) end).

Definition write_bytes (gpa : Z) (data : list Z) : RM M X unit := fun s =>
  match bm_write (k_mem s) gpa data with
  | Ok mem => ({| k_mem := mem; k_ev := k_ev s; k_at := k_at s |}, Ok tt)
  | Err _ => (s, Err (WriteFailed gpa))
  end.

Definition read_trb (gpa : Z) : RM M X Trb := fun s =>
  match read_bytes gpa 16 s with
  | (s, Ok buf) => (s, ok_or (trb_from_bytes buf) (BadTrb gpa))
  | (s, Err e) => (s, Err e)
  end.

Definition write_trb (gpa : Z) (trb : Trb) : RM M X unit := write_bytes gpa (trb_to_bytes trb).

(** Where the next event goes. *)
Definition event_gpa (e : EventRing) : Z := add_w 64 (e_base e) (e_index e * TRB_SIZE).

(** Advance the producer over a ring of [size] entries. *)
Definition advance (size : Z) (e : EventRing) : EventRing :=
  let index := add_w 32 (e_index e) 1 mod size in
  {| e_base := e_base e; e_size := e_size e; e_index := index;
     e_cycle := if index =? 0 then negb (e_cycle e) else e_cycle e |}.

Definition set_events (e : EventRing) : RM M X unit := fun s =>
  ({| k_mem := k_mem s; k_ev := e; k_at := k_at s |}, Ok tt).
Definition events : RM M X EventRing := fun s => (s, Ok (k_ev s)).

(** The slot and endpoint of an event only reach the log. *)
Definition post (slot ep code trb_pointer length : Z) : RM M X unit :=
  e ← events;
  if (e_base e =? 0) || (e_size e =? 0) then mret tt
  else
    let trb := {| t_param := trb_pointer;
                  t_status := Z.lor (Z.land code 0xff) (wrap 32 (Z.shiftl length 16));
                  t_control := Z.lor (Z.shiftl 32 10) (Z.b2z (e_cycle e)) |} in
    write_trb (event_gpa e) trb;; set_events (advance (e_size e) e).

Definition post_command (slot code trb_pointer : Z) : RM M X unit :=
  e ← events;
  if e_base e =? 0 then mret tt
  else
    let trb := {| t_param := trb_pointer;
                  t_status := Z.land code 0xff;
                  t_control := Z.lor (Z.shiftl 33 10) (Z.b2z (e_cycle e)) |} in
    write_trb (event_gpa e) trb;; set_events (advance (Z.max (e_size e) 1) e).
End ring.

(** ** Virtual keyboard and mouse ([hid.rs]) *)

Inductive HidKind := Keyboard | Mouse.

#[export] Instance HidKind_eq_dec : EqDecision HidKind.
Proof. solve_decision. Defined.

Definition hid_port (k : HidKind) : Z := match k with Keyboard => 1 | Mouse => 2 end.
Definition default_address (k : HidKind) : Z := match k with Keyboard => 1 | Mouse => 2 end.

Record BootKeyboardReport := { kb_modifiers : Z; kb_reserved : Z; kb_keys : list Z }.
Definition keyboard_to_bytes (r : BootKeyboardReport) : list Z := kb_modifiers r :: 0 :: kb_keys r.

(** [dx] and [dy] are signed; the cast is two's complement. *)
Record BootMouseReport := { ms_buttons : Z; ms_dx : Z; ms_dy : Z }.
Definition mouse_to_bytes (r : BootMouseReport) : list Z := [ms_buttons r; wrap 8 (ms_dx r); wrap 8 (ms_dy r)].

Definition device_descriptor (vid pid : Z) : list Z :=
  [18; 1; 0x00; 0x02; 0; 0; 0; 8] ++ le_bytes 2 vid ++ le_bytes 2 pid ++ [0; 0; 0; 1; 0; 0].

Definition BOOT_KEYBOARD_REPORT_DESC : list Z :=
  [0x05; 0x01; 0x09; 0x06; 0xa1; 0x01; 0x05; 0x07; 0x19; 0xe0; 0x29; 0xe7; 0x15; 0x00; 0x25; 0x01;
   0x75; 0x01; 0x95; 0x08; 0x81; 0x02; 0x95; 0x01; 0x75; 0x08; 0x81; 0x01; 0x95; 0x06; 0x75; 0x08;
   0x15; 0x00; 0x25; 0x65; 0x05; 0x07; 0x19; 0x00; 0x29; 0x65; 0x81; 0x00; 0xc0].

Definition BOOT_MOUSE_REPORT_DESC : list Z :=
  [0x05; 0x01; 0x09; 0x02; 0xa1; 0x01; 0x09; 0x01; 0xa1; 0x00; 0x05; 0x09; 0x19; 0x01; 0x29; 0x03;
   0x15; 0x00; 0x25; 0x01; 0x95; 0x03; 0x75; 0x01; 0x81; 0x02; 0x95; 0x01; 0x75; 0x05; 0x81; 0x01;
   0x05; 0x01; 0x09; 0x30; 0x09; 0x31; 0x15; 0x81; 0x25; 0x7f; 0x75; 0x08; 0x95; 0x02; 0x81; 0x06;
   0xc0; 0xc0].

Definition report_desc (k : HidKind) : list Z :=
  match k with Keyboard => BOOT_KEYBOARD_REPORT_DESC | Mouse => BOOT_MOUSE_REPORT_DESC end.

Definition config_bundle (kind : HidKind) (max_packet : Z) : list Z :=
  let desc := report_desc kind in
  let len := Z.of_nat (length desc) in
  let total := 9 + 9 + 9 + 7 + 7 + len in
  [9; 2; wrap 8 total; 0; 1; 1; 0; 0x80; 50]
  ++ [9; 4; 0; 0; 1; 0x03; match kind with Keyboard => 0x01 | Mouse => 0x02 end; 0; 0]
  ++ [9; 0x21; 0x11; 0x01; 0; 1; 0x22; wrap 8 len; 0]
  ++ [7; 5; 0x81; 0x03; max_packet; 0x0a; 0]
  ++ desc.

(** ** Setup packets ([host.rs]) *)

Record UsbControlSetup := { su_request_type : Z; su_request : Z; su_value : Z; su_index : Z; su_length : Z }.

Definition setup_from_bytes (bytes : list Z) : option UsbControlSetup :=
  match bytes with
  | b0 :: b1 :: b2 :: b3 :: b4 :: b5 :: b6 :: b7 :: _ =>
      Some {| su_request_type := b0; su_request := b1; su_value := of_le [b2; b3];
              su_index := of_le [b4; b5]; su_length := of_le [b6; b7] |}
  | _ => None
  end.

Definition setup_to_bytes (s : UsbControlSetup) : list Z :=
  [su_request_type s; su_request s] ++ le_bytes 2 (su_value s) ++ le_bytes 2 (su_index s) ++ le_bytes 2 (su_length s).

(** ** Slots and root ports ([slots.rs]) *)

Record EpRing := { r_dequeue : Z; r_cycle : bool; r_max_packet : Z; r_enabled : bool; r_busy : bool }.

Definition ep_default : EpRing :=
  {| r_dequeue := 0; r_cycle := false; r_max_packet := 0; r_enabled := false; r_busy := false |}.

Definition ep_at (dequeue : Z) (cycle : bool) (r : EpRing) : EpRing :=
  {| r_dequeue := dequeue; r_cycle := cycle; r_max_packet := r_max_packet r; r_enabled := r_enabled r;
     r_busy := r_busy r |}.
Definition ep_enable (enabled : bool) (r : EpRing) : EpRing :=
  {| r_dequeue := r_dequeue r; r_cycle := r_cycle r; r_max_packet := r_max_packet r; r_enabled := enabled;
     r_busy := r_busy r |}.
Definition ep_busy (busy : bool) (r : EpRing) : EpRing :=
  {| r_dequeue := r_dequeue r; r_cycle := r_cycle r; r_max_packet := r_max_packet r; r_enabled := r_enabled r;
     r_busy := busy |}.

Record Slot := {
  s_port : Z;
  s_address : Z;
  s_hid : option HidKind;
  s_passthrough : bool;
  s_ep0 : EpRing;
  s_ep_in : EpRing;
  s_ep_by_dci : list EpRing;
  s_endpoint_addr : list Z;
  s_ep0_busy : bool;
  s_pending_in : list Z;
}.

Definition slot_default : Slot :=
  {| s_port := 0; s_address := 0; s_hid := None; s_passthrough := false; s_ep0 := ep_default;
     s_ep_in := {| r_dequeue := 0; r_cycle := false; r_max_packet := 8; r_enabled := false; r_busy := false |};
     s_ep_by_dci := replicate 32 ep_default; s_endpoint_addr := replicate 32 0; s_ep0_busy := false;
     s_pending_in := [] |}.

Definition set_ep0 (f : EpRing -> EpRing) (s : Slot) : Slot :=
  {| s_port := s_port s; s_address := s_address s; s_hid := s_hid s; s_passthrough := s_passthrough s;
     s_ep0 := f (s_ep0 s); s_ep_in := s_ep_in s; s_ep_by_dci := s_ep_by_dci s;
     s_endpoint_addr := s_endpoint_addr s; s_ep0_busy := s_ep0_busy s; s_pending_in := s_pending_in s |}.
Definition set_ep_in (f : EpRing -> EpRing) (s : Slot) : Slot :=
  {| s_port := s_port s; s_address := s_address s; s_hid := s_hid s; s_passthrough := s_passthrough s;
     s_ep0 := s_ep0 s; s_ep_in := f (s_ep_in s); s_ep_by_dci := s_ep_by_dci s;
     s_endpoint_addr := s_endpoint_addr s; s_ep0_busy := s_ep0_busy s; s_pending_in := s_pending_in s |}.
Definition set_dci (i : nat) (f : EpRing -> EpRing) (s : Slot) : Slot :=
  {| s_port := s_port s; s_address := s_address s; s_hid := s_hid s; s_passthrough := s_passthrough s;
     s_ep0 := s_ep0 s; s_ep_in := s_ep_in s; s_ep_by_dci := alter f i (s_ep_by_dci s);
     s_endpoint_addr := s_endpoint_addr s; s_ep0_busy := s_ep0_busy s; s_pending_in := s_pending_in s |}.
Definition set_endpoint_addr (i : nat) (a : Z) (s : Slot) : Slot :=
  {| s_port := s_port s; s_address := s_address s; s_hid := s_hid s; s_passthrough := s_passthrough s;
     s_ep0 := s_ep0 s; s_ep_in := s_ep_in s; s_ep_by_dci := s_ep_by_dci s;
     s_endpoint_addr := <[i := a]> (s_endpoint_addr s); s_ep0_busy := s_ep0_busy s;
     s_pending_in := s_pending_in s |}.
Definition set_ep0_busy (b : bool) (s : Slot) : Slot :=
  {| s_port := s_port s; s_address := s_address s; s_hid := s_hid s; s_passthrough := s_passthrough s;
     s_ep0 := s_ep0 s; s_ep_in := s_ep_in s; s_ep_by_dci := s_ep_by_dci s;
     s_endpoint_addr := s_endpoint_addr s; s_ep0_busy := b; s_pending_in := s_pending_in s |}.
Definition set_pending (bs : list Z) (s : Slot) : Slot :=
  {| s_port := s_port s; s_address := s_address s; s_hid := s_hid s; s_passthrough := s_passthrough s;
     s_ep0 := s_ep0 s; s_ep_in := s_ep_in s; s_ep_by_dci := s_ep_by_dci s;
     s_endpoint_addr := s_endpoint_addr s; s_ep0_busy := s_ep0_busy s; s_pending_in := bs |}.
Definition set_device (port address : Z) (hid : option HidKind) (passthrough : bool) (s : Slot) : Slot :=
  {| s_port := port; s_address := address; s_hid := hid; s_passthrough := passthrough;
     s_ep0 := s_ep0 s; s_ep_in := s_ep_in s; s_ep_by_dci := s_ep_by_dci s;
     s_endpoint_addr := s_endpoint_addr s; s_ep0_busy := s_ep0_busy s; s_pending_in := s_pending_in s |}.

Definition in_use (s : Slot) : bool := negb (s_port s =? 0).

Definition set_endpoint_ring (dci dequeue : Z) (enabled : bool) (endpoint : option Z) (s : Slot) : Slot :=
  let index := Z.to_nat dci in
  let s := if bool_decide (index < length (s_ep_by_dci s))%nat
           then set_dci index (fun r => ep_enable enabled (ep_at dequeue true r)) s else s in
  let s := match endpoint with
           | Some addr => if bool_decide (index < length (s_endpoint_addr s))%nat
                          then set_endpoint_addr index addr s else s
           | None => s
           end in
  if dci =? 1 then set_ep0 (fun r => ep_enable enabled (ep_at dequeue true r)) s else s.

(** Which ring [ep_ring] and [ep_ring_mut] choose for a [dci]. *)
Inductive Choice := ChEp0 | ChEpIn | ChDci (i : nat).

Definition choose (s : Slot) (dci : Z) : Choice :=
  if dci =? 0 then ChEp0
  else
    let index := Z.to_nat dci in
    match s_ep_by_dci s !! index with
    | Some r => if r_enabled r then ChDci index else if dci =? 2 then ChEpIn else ChEp0
    | None => if dci =? 2 then ChEpIn else ChEp0
    end.

Definition ep_ring (s : Slot) (dci : Z) : EpRing :=
  match choose s dci with
  | ChEp0 => s_ep0 s
  | ChEpIn => s_ep_in s
  | ChDci i => default (s_ep0 s) (s_ep_by_dci s !! i)
  end.

(** A change through [ep_ring_mut]. *)
Definition ep_ring_mut (dci : Z) (f : EpRing -> EpRing) (s : Slot) : Slot :=
  match choose s dci with
  | ChEp0 => set_ep0 f s
  | ChEpIn => set_ep_in f s
  | ChDci i => set_dci i f s
  end.

Inductive PortKind := Hid (k : HidKind) | Passthrough (vendor_id product_id : Z).
Record Port := { p_connected : bool; p_enabled : bool; p_kind : PortKind }.
Record SlotTable := { ports : list Port; slots : list Slot }.

Definition slots_new (max_slots : Z) : SlotTable :=
  {| ports := [ {| p_connected := true; p_enabled := false; p_kind := Hid Keyboard |};
                {| p_connected := true; p_enabled := false; p_kind := Hid Mouse |};
                {| p_connected := false; p_enabled := false; p_kind := Passthrough 0 0 |};
                {| p_connected := false; p_enabled := false; p_kind := Passthrough 0 0 |} ];
     slots := replicate (Z.to_nat max_slots) slot_default |}.

Definition set_slots (t : SlotTable) (l : list Slot) : SlotTable := {| ports := ports t; slots := l |}.
Definition set_ports (t : SlotTable) (l : list Port) : SlotTable := {| ports := l; slots := slots t |}.
Definition set_enabled (b : bool) (p : Port) : Port :=
  {| p_connected := p_connected p; p_enabled := b; p_kind := p_kind p |}.

(** [port as usize - 1]. *)
Definition port_index (port : Z) : Z := wrapping_sub 64 port 1.

Definition portsc (t : SlotTable) (port : Z) : Z :=
  match get (ports t) (port_index port) with
  | None => 0
  | Some p =>
      let v := if p_connected p then Z.lor (Z.lor 0 PORT_CCS) (Z.shiftl 1 17) else 0 in
      if p_enabled p then Z.lor v PORT_PED else v
  end.

Definition write_portsc (port value : Z) (t : SlotTable) : SlotTable :=
  match get (ports t) (port_index port) with
  | None => t
  | Some p =>
      if negb (Z.land value PORT_PR =? 0) && p_connected p
      then set_ports t (update_at (ports t) (port_index port) (set_enabled true))
      else t
  end.

Fixpoint configure_passthrough_ports (entries : list (Z * Z * Z)) (t : SlotTable) : SlotTable :=
  match entries with
  | [] => t
  | (port, vid, pid) :: entries =>
      let index := port_index port in
      configure_passthrough_ports entries
        (if Z.of_nat (length (ports t)) <=? index then t
         else set_ports t (update_at (ports t) index
                (fun _ => {| p_connected := true; p_enabled := false; p_kind := Passthrough vid pid |})))
  end.

(** The device the slot with index [i] gets from port [j]. *)
Definition slot_for (i j : nat) (k : PortKind) (s : Slot) : Slot :=
  let port := wrap 8 (Z.of_nat j + 1) in
  match k with
  | Hid hid => set_device port (default_address hid) (Some hid) false s
  | Passthrough _ _ => set_device port (wrap 8 (Z.of_nat i + 1)) None true s
  end.

Definition enable_slot (t : SlotTable) : option (Z * SlotTable) :=
  match position (fun s => negb (in_use s)) (slots t) with
  | None => None
  | Some i =>
      match position (fun p => p_connected p && negb (p_enabled p)) (ports t) with
      | None => None
      | Some j =>
          match ports t !! j with
          | None => None
          | Some p =>
              Some (wrap 8 (Z.of_nat i + 1),
                    {| ports := alter (set_enabled true) j (ports t);
                       slots := alter (slot_for i j (p_kind p)) i (slots t) |})
          end
      end
  end.

(** The index of the slot [slot_mut] finds. *)
Definition slot_index (t : SlotTable) (id : Z) : option nat :=
  if id =? 0 then None
  else if bool_decide (Z.to_nat (id - 1) < length (slots t))%nat then Some (Z.to_nat (id - 1)) else None.

Definition slot (t : SlotTable) (id : Z) : option Slot := i ← slot_index t id; slots t !! i.

(** A change through [slot_mut]. *)
Definition slot_mut (id : Z) (f : Slot -> Slot) (t : SlotTable) : SlotTable :=
  match slot_index t id with Some i => set_slots t (alter f i (slots t)) | None => t end.

Definition disable_slot (slot_id : Z) (t : SlotTable) : bool * SlotTable :=
  match slot t slot_id with
  | None => (false, t)
  | Some s =>
      if negb (in_use s) then (false, t)
      else
        let port := s_port s in
        let t := slot_mut slot_id (fun _ => slot_default) t in
        (true, if (0 <? port) && (port <=? Z.of_nat (length (ports t)))
               then set_ports t (update_at (ports t) (port - 1) (set_enabled false)) else t)
  end.

Definition disconnect_passthrough_port (port : Z) (t : SlotTable) : option Z * SlotTable :=
  let index := port_index port in
  if Z.of_nat (length (ports t)) <=? index then (None, t)
  else
    let t := set_ports t (update_at (ports t) index
               (fun p => {| p_connected := false; p_enabled := false; p_kind := p_kind p |})) in
    match position (fun s => s_port s =? port) (slots t) with
    | Some i => let id := wrap 8 (Z.of_nat i + 1) in (Some id, (disable_slot id t).2)
    | None => (None, t)
    end.

Definition slot_for_port (t : SlotTable) (port : Z) : option Z :=
  match position (fun s => s_port s =? port) (slots t) with
  | Some i => Some (add_w 8 (wrap 8 (Z.of_nat i)) 1)
  | None => None
  end.

(** ** Input contexts ([input_ctx.rs]) *)

Definition CONTEXT_SIZE : Z := 64.

Definition dci_to_usb_endpoint (dci : Z) : option Z :=
  if dci <? 2 then None
  else
    let n := dci - 2 in
    let ep_num := n / 2 + 1 in
    let dir := if n mod 2 =? 1 then 0x80 else 0 in
    Some (Z.lor ep_num dir).

Section input_ctx.
Context {M : Type} `{!ByteMemory M} {X : Type}.

(** The loop over the device context indices from [dci]; [upd] reaches the slot. *)
Fixpoint apply_contexts (upd : (Slot -> Slot) -> X -> X) (gpa add_flags dci : Z) (n : nat) : RM M X unit :=
  match n with
  | O => mret tt
  | S n =>
      (if Z.land add_flags (Z.shiftl 1 dci) =? 0 then mret tt
       else
         ctx ← read_bytes (add_w 64 gpa ((1 + dci) * CONTEXT_SIZE)) 64;
         modify (upd (set_endpoint_ring dci (of_le (take 8 (drop 8 ctx))) true (dci_to_usb_endpoint dci))));;
      apply_contexts upd gpa add_flags (dci + 1) n
  end.

Definition apply_input_context (upd : (Slot -> Slot) -> X -> X) (gpa : Z) : RM M X unit :=
  icc ← read_bytes gpa 8;
  apply_contexts upd gpa (of_le (take 4 icc)) 1 31.
End input_ctx.

(** ** TRB and setup codecs *)

Definition trb_fits (t : Trb) : Prop := fits 64 (t_param t) /\ fits 32 (t_status t) /\ fits 32 (t_control t).

Lemma trb_to_bytes_fits t : Forall (fits 8) (trb_to_bytes t).
Proof. unfold trb_to_bytes. rewrite !Forall_app. auto using le_bytes_fits. Qed.

Lemma length_trb_to_bytes t : length (trb_to_bytes t) = 16%nat.
Proof. unfold trb_to_bytes. by rewrite !length_app, !length_le_bytes. Qed.

(** What is written as a TRB is read back as that TRB. *)
Lemma trb_roundtrip t : trb_fits t -> trb_from_bytes (trb_to_bytes t) = Some t.
Proof.
  intros (H1 & H2 & H3). unfold trb_from_bytes. rewrite bool_decide_eq_false_2 by (rewrite length_trb_to_bytes; lia).
  destruct t as [p st c]. unfold trb_to_bytes. cbn [t_param t_status t_control] in *. f_equal. f_equal.
  - rewrite take_app_le by (rewrite length_le_bytes; lia). rewrite take_ge by (rewrite length_le_bytes; lia).
    by rewrite of_le_le_bytes_fits.
  - rewrite drop_app_length' by (by rewrite length_le_bytes).
    rewrite take_app_le by (rewrite length_le_bytes; lia). rewrite take_ge by (rewrite length_le_bytes; lia).
    by rewrite of_le_le_bytes_fits.
  - rewrite app_assoc, drop_app_length' by (by rewrite length_app, !length_le_bytes).
    rewrite take_ge by (rewrite length_le_bytes; lia).
    by rewrite of_le_le_bytes_fits.
Qed.

Lemma of_le_take_fits bs i n :
  Forall (fits 8) bs -> (i + n <= length bs)%nat -> fits (8 * Z.of_nat n) (of_le (take n (drop i bs))).
Proof.
  intros Hf Hl. assert (Forall (fits 8) (take n (drop i bs))) as H by by apply Forall_take, Forall_drop.
  apply of_le_bound in H. rewrite length_take, length_drop in H. unfold fits.
  rewrite Nat.min_l in H by lia. rewrite Z.pow_mul_r by lia. exact H.
Qed.

Lemma trb_from_bytes_fits bs t : Forall (fits 8) bs -> trb_from_bytes bs = Some t -> trb_fits t.
Proof.
  intros Hf. unfold trb_from_bytes. case_bool_decide as Hl; [done|]. intros [= <-]. unfold trb_fits; cbn.
  split; [|split].
  - apply (of_le_take_fits bs 0 8); [done|lia].
  - apply (of_le_take_fits bs 8 4); [done|lia].
  - apply (of_le_take_fits bs 12 4); [done|lia].
Qed.

Lemma trb_from_bytes_16 bs : length bs = 16%nat -> is_Some (trb_from_bytes bs).
Proof. intros Hl. unfold trb_from_bytes. rewrite bool_decide_eq_false_2 by lia. eauto. Qed.

Definition setup_fits (s : UsbControlSetup) : Prop :=
  fits 8 (su_request_type s) /\ fits 8 (su_request s) /\ fits 16 (su_value s) /\ fits 16 (su_index s) /\ fits 16 (su_length s).

Lemma setup_roundtrip s : setup_fits s -> setup_from_bytes (setup_to_bytes s) = Some s.
Proof.
  intros (_ & _ & H1 & H2 & H3). destruct s as [t r v i l]. cbn [su_value su_index su_length] in *.
  pose proof (of_le_le_bytes_fits 2 v H1) as E1. pose proof (of_le_le_bytes_fits 2 i H2) as E2.
  pose proof (of_le_le_bytes_fits 2 l H3) as E3. cbn [le_bytes] in *. unfold setup_to_bytes, setup_from_bytes. cbn [le_bytes app su_request_type su_request su_value su_index su_length].
  by rewrite E1, E2, E3.
Qed.

Lemma of_le_pair_fits a b : fits 8 a -> fits 8 b -> fits 16 (of_le [a; b]).
Proof. unfold fits. cbn. lia. Qed.

Lemma setup_from_bytes_8 bs :
  Forall (fits 8) bs -> length bs = 8%nat -> exists s, setup_from_bytes bs = Some s /\ setup_fits s.
Proof.
  intros Hf Hl. do 8 (destruct bs as [|? bs]; [done|]). cbn -[of_le]. eexists; split; [done|]. unfold setup_fits.
  cbn [su_request_type su_request su_value su_index su_length].
  repeat (apply list.Forall_cons in Hf as [? Hf]). auto 10 using of_le_pair_fits.
Qed.

(** ** The slot table's invariant

    The slots in use have distinct ports, each an enabled port whose kind the
    slot serves; a free slot is not a passthrough slot. *)

Definition ep_ok (r : EpRing) : Prop := fits 64 (r_dequeue r).

Record slot_ok (s : Slot) : Prop := {
  so_ep0 : ep_ok (s_ep0 s);
  so_ep_in : ep_ok (s_ep_in s);
  so_dci : Forall ep_ok (s_ep_by_dci s);
  so_len : length (s_ep_by_dci s) = 32%nat;
  so_addr : Forall (fits 8) (s_endpoint_addr s);
  so_addr_len : length (s_endpoint_addr s) = 32%nat;
  so_pending : Forall (fits 8) (s_pending_in s);
  so_free : in_use s = false -> s_passthrough s = false;
}.

(** The slot serves the device of a port of this kind. *)
Definition serves (k : PortKind) (s : Slot) : Prop :=
  match k with
  | Hid h => s_hid s = Some h /\ s_passthrough s = false
  | Passthrough _ _ => s_hid s = None /\ s_passthrough s = true
  end.

Record table_ok (t : SlotTable) : Prop := {
  to_ports : length (ports t) = 4%nat;
  to_slots : length (slots t) = 8%nat;
  to_ok : Forall slot_ok (slots t);
  to_served i s : slots t !! i = Some s -> in_use s = true ->
    exists p, 1 <= s_port s <= 4 /\ ports t !! Z.to_nat (s_port s - 1) = Some p /\ p_enabled p = true /\ serves (p_kind p) s;
  to_unique i j si sj : slots t !! i = Some si -> slots t !! j = Some sj -> in_use si = true -> s_port si = s_port sj -> i = j;
}.

(** A change of a slot that keeps its device. *)
Definition same_device (s s' : Slot) : Prop :=
  s_port s' = s_port s /\ s_hid s' = s_hid s /\ s_passthrough s' = s_passthrough s.

Lemma ep_ok_0 c m e b : ep_ok {| r_dequeue := 0; r_cycle := c; r_max_packet := m; r_enabled := e; r_busy := b |}.
Proof. unfold ep_ok, fits. cbn [r_dequeue]. lia. Qed.

Lemma slot_default_ok : slot_ok slot_default.
Proof.
  split; cbn [slot_default s_ep0 s_ep_in s_ep_by_dci s_endpoint_addr s_pending_in s_passthrough].
  - apply ep_ok_0.
  - apply ep_ok_0.
  - apply Forall_replicate, ep_ok_0.
  - apply length_replicate.
  - apply Forall_replicate. unfold fits. lia.
  - apply length_replicate.
  - constructor.
  - done.
Qed.

Lemma slots_new_ok : table_ok (slots_new MAX_SLOTS).
Proof.
  split; [done|done|..]; cbn [slots slots_new].
  - apply Forall_replicate, slot_default_ok.
  - intros i s Hs Hu. apply lookup_replicate in Hs as [-> _]. done.
  - intros i j si sj Hi _ Hu. apply lookup_replicate in Hi as [-> _]. done.
Qed.

Lemma alter_cases {A} (f : A -> A) (l : list A) i j x :
  alter f i l !! j = Some x ->
  (j = i /\ exists y, l !! i = Some y /\ x = f y) \/ (j <> i /\ l !! j = Some x).
Proof.
  destruct (decide (j = i)) as [->|Hne].
  - rewrite list_lookup_alter_eq. destruct (l !! i) as [y|]; cbn; [|done]. intros [= <-]. left. eauto.
  - rewrite list_lookup_alter_ne by done. auto.
Qed.

Lemma in_use_same s s' : same_device s s' -> in_use s' = in_use s.
Proof. intros (H & _ & _). unfold in_use. by rewrite H. Qed.

Lemma Forall_alter_ok {A} (P : A -> Prop) (f : A -> A) l i :
  Forall P l -> (forall x, P x -> P (f x)) -> Forall P (alter f i l).
Proof.
  intros Hl Hf. apply list.Forall_lookup. intros j x Hx. apply alter_cases in Hx as [(-> & y & Hy & ->)|[_ Hx]].
  - eapply Hf, list.Forall_lookup_1; eauto.
  - eapply list.Forall_lookup_1; eauto.
Qed.

(** Changing one slot but not its device keeps the table. *)
Lemma alter_slot_ok t i f :
  table_ok t -> (forall s, slot_ok s -> slot_ok (f s)) -> (forall s, same_device s (f s)) ->
  table_ok (set_slots t (alter f i (slots t))).
Proof.
  intros [Hp Hs Ho Hv Hq] Hf Hd. split; cbn [slots ports set_slots].
  - done.
  - by rewrite length_alter.
  - by apply Forall_alter_ok.
  - intros j s Hj Hu. apply alter_cases in Hj as [(-> & y & Hy & ->)|[_ Hj]]; [|by apply (Hv j)].
    rewrite (in_use_same _ _ (Hd y)) in Hu. destruct (Hv _ _ Hy Hu) as (p & Hr & Hl & He & Hk).
    destruct (Hd y) as (-> & E2 & E3). exists p. split; [done|]. split; [done|]. split; [done|].
    unfold serves in *. by destruct (p_kind p); rewrite E2, E3.
  - intros j k sj sk Hj Hk Hu E. apply alter_cases in Hj as [(-> & y & Hy & ->)|[Hnj Hj]];
      apply alter_cases in Hk as [(-> & z & Hz & ->)|[Hnk Hk]]; try done.
    + rewrite (in_use_same _ _ (Hd y)) in Hu. destruct (Hd y) as (E1 & _). rewrite E1 in E. by apply (Hq i k y sk).
    + destruct (Hd z) as (E1 & _). rewrite E1 in E. by apply (Hq j i sj z).
    + by apply (Hq j k sj sk).
Qed.

Lemma slot_mut_ok t id f :
  table_ok t -> (forall s, slot_ok s -> slot_ok (f s)) -> (forall s, same_device s (f s)) -> table_ok (slot_mut id f t).
Proof. intros Ht Hf Hd. unfold slot_mut. destruct (slot_index t id) as [i|]; [by apply alter_slot_ok|done]. Qed.

Lemma slot_index_Some t id i : slot_index t id = Some i -> id <> 0 /\ i = Z.to_nat (id - 1) /\ (i < length (slots t))%nat.
Proof. unfold slot_index. destruct (Z.eqb_spec id 0); [done|]. case_bool_decide; [|done]. by intros [= <-]. Qed.

Lemma slot_Some t id s : slot t id = Some s -> exists i, slot_index t id = Some i /\ slots t !! i = Some s.
Proof. unfold slot. destruct (slot_index t id) as [i|]; cbn; [|done]. eauto. Qed.

Lemma slot_is_ok t id s : table_ok t -> slot t id = Some s -> slot_ok s.
Proof. intros Ht (i & _ & H)%slot_Some. eapply list.Forall_lookup_1; [apply to_ok|]; done. Qed.

(** Ports whose slots stay served: [f] keeps the kind and, where a slot is in
    use, the port enabled. *)
Lemma alter_port_ok t j f :
  table_ok t -> (forall p, p_kind (f p) = p_kind p) ->
  (forall p, p_enabled (f p) = true \/ forall i s, slots t !! i = Some s -> in_use s = true -> Z.to_nat (s_port s - 1) <> j) ->
  table_ok (set_ports t (alter f j (ports t))).
Proof.
  intros [Hp Hs Ho Hv Hq] Hk He. split; cbn [slots ports set_ports]; try done.
  - by rewrite length_alter.
  - intros i s Hi Hu. destruct (Hv i s Hi Hu) as (p & Hr & Hl & Hen & Hsv).
    destruct (decide (Z.to_nat (s_port s - 1) = j)) as [<-|Hne].
    + exists (f p). rewrite list_lookup_alter_eq, Hl. split; [done|]. split; [done|]. rewrite Hk. split; [|done].
      destruct (He p) as [|Hno]; [done|]. by destruct (Hno i s Hi Hu).
    + exists p. by rewrite list_lookup_alter_ne by done.
Qed.

Lemma update_at_alter {A} (l : list A) i f : 0 <= i -> update_at l i f = alter f (Z.to_nat i) l.
Proof. intros Hi. unfold update_at. destruct (Z.ltb_spec i 0); [lia|done]. Qed.

Lemma port_index_nonneg port : 0 <= port_index port.
Proof. unfold port_index, wrapping_sub. apply (wrap_fits 64); lia. Qed.

Lemma port_index_small port : 1 <= port <= 255 -> port_index port = port - 1.
Proof. intros H. unfold port_index, wrapping_sub. apply wrap_small. unfold fits. lia. Qed.

Lemma write_portsc_ok port value t : table_ok t -> table_ok (write_portsc port value t).
Proof.
  intros Ht. unfold write_portsc. destruct (get _ _); [|done]. destruct (_ && _); [|done].
  rewrite update_at_alter by apply port_index_nonneg. apply alter_port_ok; [done|done|]. by left.
Qed.

(** Wiring ports before any slot is in use. *)
Lemma configure_ports_ok entries t :
  table_ok t -> Forall (fun s => in_use s = false) (slots t) -> table_ok (configure_passthrough_ports entries t).
Proof.
  revert t. induction entries as [|[[port vid] pid] entries IH]; intros t Ht Hf; [done|]. cbn [configure_passthrough_ports].
  apply IH; [|by destruct (_ <=? _)]. destruct (_ <=? _); [done|]. destruct Ht as [Hp Hs Ho Hv Hq].
  assert (Hno : forall i s, slots t !! i = Some s -> in_use s = true -> False).
  { intros i s Hi Hu. eapply list.Forall_lookup_1 in Hi; [|exact Hf]. cbn in Hi. congruence. }
  split; cbn [slots ports set_ports]; try done.
  - by rewrite length_update_at.
  - intros i s Hi Hu. by destruct (Hno i s).
Qed.

Lemma not_in_use s : in_use s = false -> s_port s = 0.
Proof. unfold in_use. by destruct (Z.eqb_spec (s_port s) 0). Qed.

Lemma enable_slot_ok t id t' : table_ok t -> enable_slot t = Some (id, t') -> table_ok t'.
Proof.
  intros [Hp Hs Ho Hv Hq]. unfold enable_slot.
  destruct (position _ (slots t)) as [i|] eqn:Ei; [|done]. apply position_Some in Ei as (s & Hi & Hfree & _).
  destruct (position _ (ports t)) as [j|] eqn:Ej; [|done]. apply position_Some in Ej as (p & Hj & Hpj & _).
  apply negb_true_iff in Hfree. apply andb_true_iff in Hpj as [_ Hdis%negb_true_iff].
  rewrite Hj. intros [= _ <-].
  assert (Hjl : (j < 4)%nat) by (apply lookup_lt_Some in Hj; lia).
  assert (Hport : forall y, s_port (slot_for i j (p_kind p) y) = Z.of_nat j + 1).
  { intros y. assert (E : wrap 8 (Z.of_nat j + 1) = Z.of_nat j + 1) by (apply wrap_small; unfold fits; lia).
    unfold slot_for. by destruct (p_kind p); cbn. }
  assert (Hother : forall k sk, slots t !! k = Some sk -> in_use sk = true -> s_port sk <> Z.of_nat j + 1).
  { intros k sk Hk Hu E. destruct (Hv k sk Hk Hu) as (p' & Hr & Hl & He & _). rewrite E in Hl.
    replace (Z.to_nat (Z.of_nat j + 1 - 1)) with j in Hl by lia. congruence. }
  split; cbn [slots ports].
  - by rewrite length_alter.
  - by rewrite length_alter.
  - apply Forall_alter_ok; [done|]. intros y Hy. destruct Hy. unfold slot_for.
    destruct (p_kind p); split; try done; cbn [s_passthrough in_use set_device s_port]; unfold in_use; cbn [s_port set_device];
      rewrite (wrap_small 8 (Z.of_nat j + 1)) by (unfold fits; lia); intros H; apply negb_false_iff in H; lia.
  - intros k sk Hk Hu. apply alter_cases in Hk as [(-> & y & Hy & ->)|[Hne Hk]].
    + rewrite Hport. replace (Z.to_nat (Z.of_nat j + 1 - 1)) with j by lia. rewrite list_lookup_alter_eq, Hj.
      eexists. split; [lia|]. split; [done|]. cbn. split; [done|]. unfold slot_for. by destruct (p_kind p).
    + destruct (Hv k sk Hk Hu) as (p' & Hr & Hl & He & Hsv). exists p'. split; [done|].
      rewrite list_lookup_alter_ne; [done|]. pose proof (Hother k sk Hk Hu). lia.
  - intros k l sk sl Hk Hl Hu E. apply alter_cases in Hk as [(-> & y & Hy & ->)|[Hnk Hk]];
      apply alter_cases in Hl as [(-> & z & Hz & ->)|[Hnl Hl]]; try done; rewrite ?Hport in E.
    + destruct (in_use sl) eqn:Hul; [by destruct (Hother l sl Hl Hul)|]. apply not_in_use in Hul. lia.
    + by destruct (Hother k sk Hk Hu).
    + by apply (Hq k l sk sl).
Qed.

Definition freed (i : nat) (t : SlotTable) : SlotTable := set_slots t (alter (fun _ => slot_default) i (slots t)).

Lemma freed_ok i t : table_ok t -> table_ok (freed i t).
Proof.
  intros [Hp Hs Ho Hv Hq]. split; cbn [slots ports set_slots freed].
  - done.
  - by rewrite length_alter.
  - apply Forall_alter_ok; [done|]. intros; apply slot_default_ok.
  - intros k sk Hk Huk. apply alter_cases in Hk as [(-> & y & Hy & ->)|[_ Hk]]; [done|by apply (Hv k)].
  - intros k l sk sl Hk Hl' Huk E. apply alter_cases in Hk as [(-> & y & Hy & ->)|[Hnk Hk]]; [done|].
    apply alter_cases in Hl' as [(-> & z & Hz & ->)|[Hnl Hl']]; [|by apply (Hq k l sk sl)].
    unfold in_use in Huk. cbn in E. rewrite E in Huk. done.
Qed.

(** Once the slot that served a port is freed, no slot serves it. *)
Lemma freed_port i s t k sk :
  table_ok t -> slots t !! i = Some s -> in_use s = true -> slots (freed i t) !! k = Some sk -> in_use sk = true ->
  Z.to_nat (s_port sk - 1) <> Z.to_nat (s_port s - 1).
Proof.
  intros Ht Hi Hu Hk Huk E. cbn [slots set_slots freed] in Hk. apply alter_cases in Hk as [(-> & y & Hy & ->)|[Hnk Hk]]; [done|].
  destruct (to_served _ Ht k sk Hk Huk) as (_ & Hrk & _). destruct (to_served _ Ht i s Hi Hu) as (_ & Hr & _).
  apply Hnk, (to_unique _ Ht k i sk s Hk Hi Huk). lia.
Qed.

(** What [disable_slot] does to a slot in use. *)
Lemma disable_slot_in_use id t i s :
  slot_index t id = Some i -> slots t !! i = Some s -> in_use s = true -> 1 <= s_port s <= Z.of_nat (length (ports t)) ->
  disable_slot id t = (true, set_ports (freed i t) (alter (set_enabled false) (Z.to_nat (s_port s - 1)) (ports t))).
Proof.
  intros Ei Hi Hu Hr. unfold disable_slot, slot. rewrite Ei. cbn [mbind option_bind]. rewrite Hi, Hu. cbn [negb].
  unfold slot_mut. rewrite Ei. cbn [ports set_slots]. destruct (Z.ltb_spec 0 (s_port s)); [|lia].
  destruct (Z.leb_spec (s_port s) (Z.of_nat (length (ports t)))); [|lia]. cbn [andb]. by rewrite update_at_alter by lia.
Qed.

(** Freeing a slot disables its port. *)
Lemma disable_slot_ok id t : table_ok t -> table_ok (disable_slot id t).2.
Proof.
  intros Ht. destruct (slot t id) as [s|] eqn:Es; [|unfold disable_slot; by rewrite Es].
  destruct (in_use s) eqn:Hu; [|unfold disable_slot; by rewrite Es, Hu].
  apply slot_Some in Es as (i & Ei & Hi). destruct (to_served _ Ht i s Hi Hu) as (p & Hr & _).
  rewrite (disable_slot_in_use id t i s) by (rewrite ?to_ports by done; done || lia). cbn [snd].
  apply (alter_port_ok (freed i t)); [by apply freed_ok|done|]. right. intros k sk. by apply freed_port.
Qed.

Lemma slot_index_of t i : (i < 8)%nat -> (i < length (slots t))%nat -> slot_index t (wrap 8 (Z.of_nat i + 1)) = Some i.
Proof.
  intros H1 H2. rewrite wrap_small by (unfold fits; lia). unfold slot_index. destruct (Z.eqb_spec (Z.of_nat i + 1) 0); [lia|].
  replace (Z.to_nat (Z.of_nat i + 1 - 1)) with i by lia. by rewrite bool_decide_eq_true_2.
Qed.

Lemma disconnect_ok port t : table_ok t -> fits 8 port -> table_ok (disconnect_passthrough_port port t).2.
Proof.
  intros Ht Hf. pose proof (to_ports _ Ht) as Hp. unfold disconnect_passthrough_port.
  destruct (Z.leb_spec (Z.of_nat (length (ports t))) (port_index port)) as [|Hlt]; [done|].
  assert (Hr : 1 <= port <= 4).
  { unfold fits in Hf. destruct (decide (port = 0)) as [->|]; [rewrite Hp in Hlt; by vm_compute in Hlt|].
    rewrite port_index_small in Hlt by lia. lia. }
  rewrite port_index_small by lia. rewrite update_at_alter by lia.
  set (off := fun p => {| p_connected := false; p_enabled := false; p_kind := p_kind p |}).
  set (t1 := set_ports t (alter off (Z.to_nat (port - 1)) (ports t))).
  destruct (position _ (slots t1)) as [i|] eqn:Ei.
  - apply position_Some in Ei as (s & Hi & E%Z.eqb_eq & _). cbn [slots set_ports t1] in Hi.
    assert (Hu : in_use s = true) by (unfold in_use; apply negb_true_iff, Z.eqb_neq; lia).
    pose proof (lookup_lt_Some _ _ _ Hi) as Hl. pose proof (to_slots _ Ht) as Hs.
    cbn [snd]. rewrite (disable_slot_in_use _ t1 i s); [|apply slot_index_of; cbn [slots set_ports t1]; lia|done|done|cbn [ports set_ports t1]; rewrite length_alter; lia].
    cbn [snd]. rewrite E. cbn [ports set_ports t1].
    assert (H1 : table_ok (set_ports (freed i t) (alter off (Z.to_nat (port - 1)) (ports (freed i t))))).
    { apply alter_port_ok; [by apply freed_ok|done|]. right. intros k sk. rewrite <- E. by apply freed_port. }
    apply (alter_port_ok _ (Z.to_nat (port - 1)) (set_enabled false) H1); [done|]. right. intros k sk. rewrite <- E. by apply freed_port.
  - cbn [snd]. apply alter_port_ok; [done|done|]. right. intros k sk Hk Hu E. rewrite position_None in Ei.
    cbn [slots set_ports t1] in Ei. destruct (to_served _ Ht k sk Hk Hu) as (_ & Hrk & _).
    eapply list.Forall_lookup_1 in Hk; [|exact Ei]. cbn in Hk. apply Z.eqb_neq in Hk. lia.
Qed.

(** ** Ring code keeps an invariant *)

Section keeps.
Context {M : Type} `{!ByteMemory M} {X : Type}.
Context (PX : X -> Prop) (base size : Z).
Hypothesis Hbase : fits 64 base.
Hypothesis Hsize : fits 16 size.

Definition ring_ok (k : Ring M X) : Prop :=
  bm_inv (k_mem k) /\ e_base (k_ev k) = base /\ e_size (k_ev k) = size /\ fits 32 (e_index (k_ev k)) /\ PX (k_at k).

(** [c] keeps the invariant, also when it fails, and its result satisfies [Q]. *)
Definition keeps {A} (c : RM M X A) (Q : A -> Prop) : Prop :=
  forall k, ring_ok k -> ring_ok (c k).1 /\ match (c k).2 with Ok a => Q a | Err _ => True end.

Lemma keeps_ret {A} (a : A) (Q : A -> Prop) : Q a -> keeps (mret a) Q.
Proof. by intros H k Hk. Qed.

Lemma keeps_bind {A B} (c : RM M X A) (f : A -> RM M X B) (Q : A -> Prop) (R : B -> Prop) :
  keeps c Q -> (forall a, Q a -> keeps (f a) R) -> keeps (c ≫= f) R.
Proof.
  intros Hc Hf k Hk. unfold mbind, RM_bind. destruct (Hc k Hk) as [H1 H2]. destruct (c k) as [k' [a|e]]; cbn in *; [|done].
  by apply Hf.
Qed.

Lemma keeps_weaken {A} (c : RM M X A) (Q R : A -> Prop) : keeps c Q -> (forall a, Q a -> R a) -> keeps c R.
Proof. intros Hc H k Hk. destruct (Hc k Hk) as [? H2]. split; [done|]. destruct (c k).2; auto. Qed.

Lemma keeps_seq {B} (c : RM M X unit) (d : RM M X B) (R : B -> Prop) :
  keeps c (fun _ => True) -> keeps d R -> keeps (c;; d) R.
Proof. intros Hc Hd. by apply (keeps_bind _ _ (fun _ => True)). Qed.

Lemma keeps_this : keeps this PX.
Proof. intros k Hk. split; [done|]. apply Hk. Qed.

Lemma keeps_modify f : (forall x, PX x -> PX (f x)) -> keeps (modify f) (fun _ => True).
Proof. intros Hf k (H1 & H2 & H3 & H4 & H5). split; [|done]. do 4 (split; [done|]). by apply Hf. Qed.

Lemma keeps_read gpa n :
  0 <= gpa -> (0 < n)%nat -> keeps (read_bytes gpa n) (fun bs => Forall (fits 8) bs /\ length bs = n).
Proof.
  intros Ha Hn k Hk. cbn. split; [done|]. destruct (bm_read _ _ _) as [bs|] eqn:E; [|done].
  destruct Hk as (Hm & _). split; [by eapply bm_read_fits|]. apply bm_read_spec in E; [|done..]. tauto.
Qed.

Lemma keeps_write gpa data : 0 <= gpa -> Forall (fits 8) data -> keeps (write_bytes gpa data) (fun _ => True).
Proof.
  intros Ha Hd k (Hm & H). unfold write_bytes. destruct (bm_write _ _ _) as [m|] eqn:E; cbn; [|done].
  destruct (bm_write_spec _ _ _ _ Hm Ha Hd E) as [? _]. by split.
Qed.

Lemma keeps_read_trb gpa : 0 <= gpa -> keeps (read_trb gpa) trb_fits.
Proof.
  intros Ha k Hk. destruct (keeps_read gpa 16 Ha ltac:(lia) k Hk) as [H1 H2]. unfold read_trb.
  destruct (read_bytes gpa 16 k) as [k' [bs|e]]; cbn in *; [|done]. split; [done|]. destruct H2 as [Hf Hl].
  destruct (trb_from_bytes_16 bs Hl) as [t Ht]. rewrite Ht. cbn. by eapply trb_from_bytes_fits.
Qed.

Lemma keeps_events : keeps events (fun e => e_base e = base /\ e_size e = size /\ fits 32 (e_index e)).
Proof. intros k Hk. split; [done|]. destruct Hk as (_ & ? & ? & ? & _). by cbn. Qed.

Lemma advance_index n e : 0 < n <= 2 ^ 16 -> fits 32 (e_index (advance n e)).
Proof. intros Hn. cbn. pose proof (Z.mod_pos_bound (add_w 32 (e_index e) 1) n). unfold fits. lia. Qed.

Lemma keeps_set_events n e : 0 < n <= 2 ^ 16 -> e_base e = base -> e_size e = size -> keeps (set_events (advance n e)) (fun _ => True).
Proof.
  intros Hn Hb Hs k (Hm & _ & _ & _ & Hx). split; [|done]. unfold ring_ok. cbn [k_mem k_ev k_at set_events fst].
  split; [done|]. split; [done|]. split; [done|]. split; [by apply advance_index|done].
Qed.

Lemma event_gpa_nonneg e : 0 <= event_gpa e.
Proof. apply (wrap_fits 64). lia. Qed.

Lemma keeps_post slot_id ep code ptr len : keeps (post slot_id ep code ptr len) (fun _ => True).
Proof.
  eapply keeps_bind; [apply keeps_events|]. intros e (Hb & Hs & Hi). cbn beta.
  destruct ((e_base e =? 0) || (e_size e =? 0)) eqn:E; [by apply keeps_ret|]. apply orb_false_iff in E as [_ E%Z.eqb_neq].
  apply keeps_seq; [apply keeps_write; [apply event_gpa_nonneg|apply trb_to_bytes_fits]|].
  apply keeps_set_events; [|done|done]. unfold fits in Hsize. lia.
Qed.

Lemma keeps_post_command slot_id code ptr : keeps (post_command slot_id code ptr) (fun _ => True).
Proof.
  eapply keeps_bind; [apply keeps_events|]. intros e (Hb & Hs & Hi). cbn beta.
  destruct (e_base e =? 0); [by apply keeps_ret|].
  apply keeps_seq; [apply keeps_write; [apply event_gpa_nonneg|apply trb_to_bytes_fits]|].
  apply keeps_set_events; [|done|done]. unfold fits in Hsize. lia.
Qed.
End keeps.

(** Changes of a slot that keep it well formed and serving the same device. *)
Definition gentle (f : Slot -> Slot) : Prop :=
  (forall s, slot_ok s -> slot_ok (f s)) /\ forall s, same_device s (f s).

Definition ep_gentle (f : EpRing -> EpRing) : Prop := forall r, ep_ok r -> ep_ok (f r).

Lemma gentle_comp f g : gentle f -> gentle g -> gentle (fun s => g (f s)).
Proof.
  intros [F1 F2] [G1 G2]. split; [auto|]. intros s. destruct (F2 s) as (E1 & E2 & E3), (G2 (f s)) as (D1 & D2 & D3).
  unfold same_device. by rewrite D1, D2, D3.
Qed.

Ltac gentle_fields := intros ? []; split; cbn; auto using Forall_alter_ok.

Lemma gentle_ep0 f : ep_gentle f -> gentle (set_ep0 f).
Proof. intros Hf. split; [|done]. gentle_fields. Qed.
Lemma gentle_ep_in f : ep_gentle f -> gentle (set_ep_in f).
Proof. intros Hf. split; [|done]. gentle_fields. Qed.
Lemma gentle_dci i f : ep_gentle f -> gentle (set_dci i f).
Proof. intros Hf. split; [|done]. gentle_fields. by rewrite length_alter. Qed.
Lemma gentle_addr i a : fits 8 a -> gentle (set_endpoint_addr i a).
Proof. intros Hf. split; [|done]. gentle_fields; [by apply Forall_insert|by rewrite length_insert]. Qed.
Lemma gentle_busy b : gentle (set_ep0_busy b).
Proof. split; [|done]. gentle_fields. Qed.
Lemma gentle_pending bs : Forall (fits 8) bs -> gentle (set_pending bs).
Proof. split; [|done]. gentle_fields. Qed.
Lemma gentle_id : gentle (fun s => s).
Proof. by split. Qed.

Lemma ep_at_gentle a c : fits 64 a -> ep_gentle (ep_at a c).
Proof. by intros H r _. Qed.
Lemma ep_enable_gentle b f : ep_gentle f -> ep_gentle (fun r => ep_enable b (f r)).
Proof. by intros Hf r Hr; apply Hf. Qed.
Lemma ep_busy_gentle b f : ep_gentle f -> ep_gentle (fun r => ep_busy b (f r)).
Proof. by intros Hf r Hr; apply Hf. Qed.

Lemma gentle_by (f : Slot -> Slot) (g : Slot -> Slot -> Slot) :
  (forall s, f s = g s s) -> (forall s, gentle (g s)) -> gentle f.
Proof. intros E Hg. split; intros s; rewrite E; apply Hg. Qed.

Lemma gentle_ring_mut dci f : ep_gentle f -> gentle (ep_ring_mut dci f).
Proof.
  intros Hf. apply (gentle_by _ (fun s => match choose s dci with ChEp0 => set_ep0 f | ChEpIn => set_ep_in f | ChDci i => set_dci i f end)).
  - intros s. unfold ep_ring_mut. by destruct (choose s dci).
  - intros s. destruct (choose s dci); auto using gentle_ep0, gentle_ep_in, gentle_dci.
Qed.

Lemma dci_endpoint_fits dci a : 0 <= dci < 32 -> dci_to_usb_endpoint dci = Some a -> fits 8 a.
Proof.
  intros Hd. unfold dci_to_usb_endpoint. destruct (Z.ltb_spec dci 2); [done|]. intros [= <-].
  pose proof (Z.div_lt_upper_bound (dci - 2) 2 16 ltac:(lia) ltac:(lia)). pose proof (Z.div_pos (dci - 2) 2 ltac:(lia) ltac:(lia)).
  apply lor_fits; [lia|unfold fits; lia|]. unfold fits. destruct (_ =? 1); lia.
Qed.

Lemma gentle_endpoint_ring dci dequeue b e :
  fits 64 dequeue -> (forall a, e = Some a -> fits 8 a) -> gentle (set_endpoint_ring dci dequeue b e).
Proof.
  intros Hq He. pose proof (ep_enable_gentle b _ (ep_at_gentle dequeue true Hq)) as Hg. unfold set_endpoint_ring.
  set (f1 := fun s => if bool_decide (Z.to_nat dci < length (s_ep_by_dci s))%nat then set_dci (Z.to_nat dci) (fun r => ep_enable b (ep_at dequeue true r)) s else s).
  set (f2 := fun s => match e with Some addr => if bool_decide (Z.to_nat dci < length (s_endpoint_addr s))%nat then set_endpoint_addr (Z.to_nat dci) addr s else s | None => s end).
  set (f3 := fun s => if dci =? 1 then set_ep0 (fun r => ep_enable b (ep_at dequeue true r)) s else s).
  apply (gentle_comp (fun s => f2 (f1 s)) f3); [apply (gentle_comp f1 f2)|].
  - apply (gentle_by _ (fun s => if bool_decide (Z.to_nat dci < length (s_ep_by_dci s))%nat then set_dci (Z.to_nat dci) (fun r => ep_enable b (ep_at dequeue true r)) else fun s => s)).
    + intros s. unfold f1. by case_bool_decide.
    + intros s. case_bool_decide; [by apply gentle_dci|apply gentle_id].
  - unfold f2. destruct e as [a|]; [|apply gentle_id].
    apply (gentle_by _ (fun s => if bool_decide (Z.to_nat dci < length (s_endpoint_addr s))%nat then set_endpoint_addr (Z.to_nat dci) a else fun s => s)).
    + intros s. by case_bool_decide.
    + intros s. case_bool_decide; [by apply gentle_addr, He|apply gentle_id].
  - unfold f3. destruct (dci =? 1); [by apply gentle_ep0|apply gentle_id].
Qed.

Lemma gentle_slot_mut id f t : gentle f -> table_ok t -> table_ok (slot_mut id f t).
Proof. intros [H1 H2] Ht. by apply slot_mut_ok. Qed.

Section keeps_input.
Context {M : Type} `{!ByteMemory M} {X : Type}.
Context (PX : X -> Prop) (base size : Z) (upd : (Slot -> Slot) -> X -> X).
Hypothesis Hupd : forall f x, gentle f -> PX x -> PX (upd f x).

Lemma keeps_apply_contexts gpa flags dci n :
  0 <= dci -> dci + Z.of_nat n <= 32 -> keeps PX base size (apply_contexts (M := M) upd gpa flags dci n) (fun _ => True).
Proof.
  revert dci. induction n as [|n IH]; intros dci Hd Hn; [by apply keeps_ret|]. cbn [apply_contexts].
  apply keeps_seq; [|apply IH; lia]. destruct (_ =? 0); [by apply keeps_ret|].
  eapply keeps_bind; [apply keeps_read; [apply (wrap_fits 64); lia|lia]|]. intros ctx [Hf Hl]. apply keeps_modify. intros x.
  apply Hupd, gentle_endpoint_ring; [apply (of_le_take_fits ctx 8 8); [done|lia]|]. intros a. apply dci_endpoint_fits. lia.
Qed.

Lemma keeps_apply_input_context gpa : 0 <= gpa -> keeps PX base size (apply_input_context (M := M) upd gpa) (fun _ => True).
Proof.
  intros Hg. eapply keeps_bind; [apply keeps_read; [done|lia]|]. intros icc _. apply keeps_apply_contexts; lia.
Qed.
End keeps_input.

(** ** The event ring as a queue

    A consumer with its own position and cycle state reads events while their
    cycle bit matches.  If the ring holds stale entries when the producer and
    the consumer agree on their position, the consumer reads exactly what the
    producer posts, in order, and stops. *)

(** An event without its cycle bit: type, parameter and status. *)
Record Event := { v_type : Z; v_param : Z; v_status : Z }.

Definition trb_of (v : Event) (c : bool) : Trb :=
  {| t_param := v_param v; t_status := v_status v; t_control := Z.lor (Z.shiftl (v_type v) 10) (Z.b2z c) |}.

Definition event_fits (v : Event) : Prop := fits 64 (v_param v) /\ fits 32 (v_status v) /\ fits 6 (v_type v).

Section queue.
Context {M : Type} `{!ByteMemory M}.
Implicit Types (mem : M) (e : EventRing).

Definition trb_at mem (a : Z) : option Trb :=
  match bm_read mem a 16 with Ok bs => trb_from_bytes bs | Err _ => None end.

(** The consumer: at most [n] events from the position [e]. *)
Fixpoint consume (n : nat) mem e : list Trb :=
  match n with
  | O => []
  | S n =>
      match trb_at mem (event_gpa e) with
      | Some t => if eqb (cycle t) (e_cycle e) then t :: consume n mem (advance (e_size e) e) else []
      | None => []
      end
  end.

(** The producer: events written one after the other. *)
Fixpoint produce (vs : list Event) mem e : option (M * EventRing) :=
  match vs with
  | [] => Some (mem, e)
  | v :: vs =>
      match bm_write mem (event_gpa e) (trb_to_bytes (trb_of v (e_cycle e))) with
      | Ok mem => produce vs mem (advance (e_size e) e)
      | Err _ => None
      end
  end.

(** The bytes of the ring. *)
Definition in_ring e (x : Z) : Prop := e_base e <= x < e_base e + e_size e * 16.

Record ring_placed mem e : Prop := {
  rp_size : 0 < e_size e < 2 ^ 16;
  rp_index : 0 <= e_index e < e_size e;
  rp_base : 0 < e_base e;
  rp_end : e_base e + e_size e * 16 <= 2 ^ 64;
  rp_span : bm_span mem (e_base e) (e_size e * 16);
}.

(** Entry [i] of the ring holds a TRB with cycle bit [c]. *)
Definition entry_cycle mem e (i : Z) (c : bool) : Prop :=
  exists t, trb_at mem (e_base e + i * 16) = Some t /\ cycle t = c.

(** From the position on the entries are of the last pass, before it of this one. *)
Definition stale mem e : Prop :=
  forall i, 0 <= i < e_size e -> entry_cycle mem e i (if i <? e_index e then e_cycle e else negb (e_cycle e)).

(** [mem'] differs from [mem] inside [A] only. *)
Definition agree (A : Z -> Prop) mem mem' : Prop :=
  bm_inv mem' /\ (forall x, ~ A x -> bm_byte mem' x = bm_byte mem x) /\ forall x n, bm_span mem' x n <-> bm_span mem x n.

Lemma agree_refl A mem : bm_inv mem -> agree A mem mem.
Proof. by split. Qed.

Lemma agree_trans A m1 m2 m3 : agree A m1 m2 -> agree A m2 m3 -> agree A m1 m3.
Proof.
  intros (_ & B1 & S1) (I & B2 & S2). split; [done|]. split.
  - intros x Hx. by rewrite B2, B1.
  - intros x n. by rewrite S2, S1.
Qed.

Lemma agree_ext (A B : Z -> Prop) m m' : (forall x, A x -> B x) -> agree A m m' -> agree B m m'.
Proof. intros H (I & Hb & S). split; [done|]. split; [|done]. intros x Hx. apply Hb. auto. Qed.

Lemma bm_read_agree A mem mem' a n bs :
  bm_inv mem -> agree A mem mem' -> 0 <= a -> (0 < n)%nat -> (forall x, a <= x < a + Z.of_nat n -> ~ A x) ->
  bm_read mem' a n = Ok bs <-> bm_read mem a n = Ok bs.
Proof.
  intros Hm (Hm' & Hb & Hs) Ha Hn Hd. rewrite !bm_read_spec by done. rewrite Hs.
  split; intros (H1 & H2 & H3); (split; [done|]); (split; [done|]); intros i Hi.
  - rewrite (H3 i Hi). apply Hb, Hd. lia.
  - rewrite (H3 i Hi). symmetry. apply Hb, Hd. lia.
Qed.

Lemma trb_at_agree A mem mem' a :
  bm_inv mem -> agree A mem mem' -> 0 <= a -> (forall x, a <= x < a + 16 -> ~ A x) -> trb_at mem' a = trb_at mem a.
Proof.
  intros Hm Hag Ha Hd. unfold trb_at. pose proof (fun bs => bm_read_agree A mem mem' a 16 bs Hm Hag Ha ltac:(lia) Hd) as H.
  destruct (bm_read mem' a 16) as [bs|] eqn:E1.
  - by rewrite (proj1 (H bs) eq_refl).
  - destruct (bm_read mem a 16) as [bs|] eqn:E2; [|done]. discriminate (proj2 (H bs) eq_refl).
Qed.

Lemma trb_at_written mem mem' a t :
  bm_inv mem -> 0 <= a -> trb_fits t -> bm_write mem a (trb_to_bytes t) = Ok mem' -> trb_at mem' a = Some t.
Proof.
  intros Hm Ha Ht E. destruct (bm_write_spec _ _ _ _ Hm Ha (trb_to_bytes_fits t) E) as (Hm' & Hb & Hs).
  assert (bm_read mem' a 16 = Ok (trb_to_bytes t)) as Hr.
  { rewrite bm_read_spec by (done || lia). split; [|split; [apply length_trb_to_bytes|]].
    - apply Hs. change 16 with (Z.of_nat 16). rewrite <- (length_trb_to_bytes t). apply bm_write_Ok; [done|done| |by eexists].
      intros E'. pose proof (length_trb_to_bytes t) as Hl. by rewrite E' in Hl.
    - intros i Hi. rewrite Hb, length_trb_to_bytes. rewrite decide_True by lia. f_equal. lia. }
  unfold trb_at. rewrite Hr. by apply trb_roundtrip.
Qed.

Lemma trb_of_fits v c : event_fits v -> trb_fits (trb_of v c).
Proof.
  intros (H1 & H2 & H3). split; [done|]. split; [done|]. cbn. rewrite lor_shiftl_add by (destruct c; cbn; lia).
  unfold fits in *. destruct c; cbn; lia.
Qed.

Lemma trb_of_cycle v c : cycle (trb_of v c) = c.
Proof.
  unfold cycle. cbn [t_control trb_of]. rewrite (land_low _ 1) by done. rewrite lor_shiftl_add by (destruct c; cbn; lia).
  change (2 ^ 10) with (512 * 2). change (2 ^ 1) with 2. rewrite Z.add_comm, Z.mul_assoc, Z_mod_plus_full. by destruct c.
Qed.

Lemma placed_gpa mem e : ring_placed mem e -> event_gpa e = e_base e + e_index e * 16.
Proof. intros []. unfold event_gpa, TRB_SIZE. apply wrap_small. unfold fits. lia. Qed.

(** The ring one entry further. *)
Lemma advance_index_eq mem e :
  ring_placed mem e -> e_index (advance (e_size e) e) = if e_index e + 1 =? e_size e then 0 else e_index e + 1.
Proof.
  intros []. cbn. unfold add_w. rewrite wrap_small by (unfold fits; lia). destruct (Z.eqb_spec (e_index e + 1) (e_size e)) as [->|].
  - apply Z_mod_same_full.
  - apply Z.mod_small. lia.
Qed.

Lemma advance_cycle_eq mem e :
  ring_placed mem e -> e_cycle (advance (e_size e) e) = if e_index e + 1 =? e_size e then negb (e_cycle e) else e_cycle e.
Proof.
  intros Hp. pose proof (advance_index_eq mem e Hp) as H. destruct Hp. cbn in H |- *. rewrite H.
  destruct (Z.eqb_spec (e_index e + 1) (e_size e)); [done|]. destruct (Z.eqb_spec (e_index e + 1) 0); [lia|done].
Qed.

Lemma advance_placed mem mem' e :
  ring_placed mem e -> (forall x n, bm_span mem' x n <-> bm_span mem x n) -> ring_placed mem' (advance (e_size e) e).
Proof.
  intros Hp Hs. pose proof (advance_index_eq mem e Hp) as H. destruct Hp. split; try done; [|by apply Hs].
  rewrite H. cbn [e_size advance]. destruct (Z.eqb_spec (e_index e + 1) (e_size e)); lia.
Qed.

Lemma placed_write mem e v :
  bm_inv mem -> ring_placed mem e -> event_fits v ->
  exists mem', bm_write mem (event_gpa e) (trb_to_bytes (trb_of v (e_cycle e))) = Ok mem' /\
    trb_at mem' (event_gpa e) = Some (trb_of v (e_cycle e)) /\
    agree (fun x => event_gpa e <= x < event_gpa e + 16) mem mem'.
Proof.
  intros Hm Hp Hv. rewrite (placed_gpa mem e Hp). pose proof Hp as []. set (t := trb_of v (e_cycle e)).
  assert (Ha : 0 <= e_base e + e_index e * 16) by lia.
  destruct (bm_write mem (e_base e + e_index e * 16) (trb_to_bytes t)) as [mem'|] eqn:E.
  - exists mem'. split; [done|]. split; [by eapply trb_at_written; [| |apply trb_of_fits|]; try lia|].
    destruct (bm_write_spec _ _ _ _ Hm Ha (trb_to_bytes_fits t) E) as (Hm' & Hb & Hs). split; [done|]. split; [|done].
    intros x Hx. cbn beta in Hx. rewrite Hb, length_trb_to_bytes. by rewrite decide_False by lia.
  - exfalso. destruct (proj2 (bm_write_Ok mem (e_base e + e_index e * 16) (trb_to_bytes t) Hm Ha ltac:(intros E'; pose proof (length_trb_to_bytes t) as Hl; by rewrite E' in Hl))) as [m Hm2]; [|congruence].
    rewrite length_trb_to_bytes. eapply bm_span_sub; [exact rp_span0|lia|lia].
Qed.

(** Entry [i] when another entry is written. *)
Lemma entry_other mem mem' e (i : Z) :
  bm_inv mem -> ring_placed mem e -> 0 <= i < e_size e -> i <> e_index e ->
  agree (fun x => event_gpa e <= x < event_gpa e + 16) mem mem' ->
  trb_at mem' (e_base e + i * 16) = trb_at mem (e_base e + i * 16).
Proof.
  intros Hm Hp Hi Hne Hag. pose proof (placed_gpa mem e Hp) as Hg. destruct Hp. eapply trb_at_agree; [done|exact Hag|lia|].
  intros x Hx. cbn beta. rewrite Hg. lia.
Qed.

Lemma stale_step mem mem' e v :
  bm_inv mem -> ring_placed mem e -> stale mem e -> trb_at mem' (event_gpa e) = Some (trb_of v (e_cycle e)) ->
  agree (fun x => event_gpa e <= x < event_gpa e + 16) mem mem' -> stale mem' (advance (e_size e) e).
Proof.
  intros Hm Hp Hs Ht Hag i Hi. pose proof (advance_index_eq mem e Hp) as Ei. pose proof (advance_cycle_eq mem e Hp) as Ec.
  rewrite Ei, Ec. change (e_size (advance (e_size e) e)) with (e_size e) in Hi. unfold entry_cycle.
  change (e_base (advance (e_size e) e)) with (e_base e). destruct (decide (i = e_index e)) as [->|Hne].
  - rewrite (placed_gpa mem e Hp) in Ht. eexists. split; [exact Ht|]. rewrite trb_of_cycle.
    destruct (Z.eqb_spec (e_index e + 1) (e_size e)) as [E|E].
    + destruct (Z.ltb_spec (e_index e) 0); [lia|]. by rewrite negb_involutive.
    + destruct (Z.ltb_spec (e_index e) (e_index e + 1)); [done|lia].
  - rewrite (entry_other mem mem' e i) by done. destruct (Hs i Hi) as (t & E & Hc). exists t. split; [done|]. rewrite Hc.
    destruct (Z.eqb_spec (e_index e + 1) (e_size e)).
    + destruct (Z.ltb_spec i 0); [lia|]. destruct (Z.ltb_spec i (e_index e)); [by rewrite negb_involutive|lia].
    + destruct (Z.ltb_spec i (e_index e + 1)), (Z.ltb_spec i (e_index e)); done || lia.
Qed.

(** How far entry [i] is ahead of the producer. *)
Definition ahead e (i : Z) : Z := if e_index e <=? i then i - e_index e else i - e_index e + e_size e.

Lemma ahead_advance mem e i :
  ring_placed mem e -> 0 <= i < e_size e -> 0 < ahead e i -> ahead (advance (e_size e) e) i = ahead e i - 1.
Proof.
  intros Hp Hi. unfold ahead. rewrite (advance_index_eq mem e Hp). cbn [e_size advance]. destruct Hp.
  destruct (Z.eqb_spec (e_index e + 1) (e_size e)); zbool; lia.
Qed.

Lemma produce_ok vs mem e :
  bm_inv mem -> ring_placed mem e -> Forall event_fits vs ->
  exists mem' e', produce vs mem e = Some (mem', e') /\ agree (in_ring e) mem mem' /\ ring_placed mem' e' /\
    forall i, 0 <= i < e_size e -> Z.of_nat (length vs) <= ahead e i ->
      trb_at mem' (e_base e + i * 16) = trb_at mem (e_base e + i * 16).
Proof.
  revert mem e. induction vs as [|v vs IH]; intros mem e Hm Hp Hv.
  { eexists _, _. split; [done|]. split; [by apply agree_refl|]. by split. }
  apply list.Forall_cons in Hv as [Hv Hvs]. destruct (placed_write mem e v Hm Hp Hv) as (m1 & E & _ & Hag). cbn [produce]. rewrite E.
  pose proof Hag as (Hm1 & _ & Hs1).
  destruct (IH m1 (advance (e_size e) e) Hm1 (advance_placed mem m1 e Hp Hs1) Hvs) as (m2 & e2 & E2 & Hag2 & Hp2 & Hk).
  exists m2, e2. split; [done|]. split.
  { eapply agree_trans; [|exact Hag2]. destruct Hag as (I & B & S). split; [done|]. split; [|done]. intros x Hx. apply B. cbn beta.
    rewrite (placed_gpa mem e Hp). unfold in_ring in Hx. destruct Hp. lia. }
  split; [done|]. intros i Hi Hl. cbn [length] in Hl.
  pose proof (ahead_advance mem e i Hp Hi ltac:(lia)) as Ha. change (e_size (advance (e_size e) e)) with (e_size e) in *.
  change (e_base (advance (e_size e) e)) with (e_base e) in Hk.
  rewrite Hk by lia. apply (entry_other mem m1 e i Hm Hp Hi); [|done]. intros ->. unfold ahead in Hl. destruct (Z.leb_spec (e_index e) (e_index e)); lia.
Qed.

(** What the consumer is to read: each event with the cycle of its pass. *)
Fixpoint stamped (vs : list Event) e : list Trb :=
  match vs with [] => [] | v :: vs => trb_of v (e_cycle e) :: stamped vs (advance (e_size e) e) end.

Lemma produce_consume vs n mem e mem' e' :
  bm_inv mem -> ring_placed mem e -> stale mem e -> Forall event_fits vs ->
  Z.of_nat (length vs) < e_size e -> (length vs < n)%nat -> produce vs mem e = Some (mem', e') ->
  consume n mem' e = stamped vs e /\ stale mem' e'.
Proof.
  revert n mem e. induction vs as [|v vs IH]; intros n mem e Hm Hp Hs Hv Hl Hn; cbn [produce].
  { intros [= <- <-]. split; [|done]. destruct n as [|n]; [done|]. cbn [consume stamped]. rewrite (placed_gpa mem e Hp).
    destruct (Hs (e_index e) (rp_index _ _ Hp)) as (t & -> & Hc). rewrite Z.ltb_irrefl in Hc. rewrite Hc. by destruct (e_cycle e). }
  apply list.Forall_cons in Hv as [Hv Hvs]. destruct (placed_write mem e v Hm Hp Hv) as (m1 & E & Ht & Hag). rewrite E. intros Eq.
  pose proof Hag as (Hm1 & _ & Hs1). pose proof (advance_placed mem m1 e Hp Hs1) as Hp1. cbn [length] in Hl, Hn.
  destruct n as [|n]; [lia|].
  destruct (IH n m1 (advance (e_size e) e) Hm1 Hp1) as [IH1 IH2]; try done;
    [exact (stale_step mem m1 e v Hm Hp Hs Ht Hag)|change (e_size (advance (e_size e) e)) with (e_size e); lia|lia|].
  split; [|done]. cbn [consume stamped].
  destruct (produce_ok vs m1 (advance (e_size e) e) Hm1 Hp1 Hvs) as (m2 & e2 & E2 & _ & _ & Hk). rewrite Eq in E2. injection E2 as <- <-.
  rewrite (placed_gpa mem e Hp) in Ht |- *. change (e_base (advance (e_size e) e)) with (e_base e) in Hk.
  rewrite Hk; [|apply Hp|].
  - rewrite Ht, trb_of_cycle, eqb_reflx. by rewrite IH1.
  - unfold ahead. rewrite (advance_index_eq mem e Hp). cbn [e_size advance]. destruct Hp.
    destruct (Z.eqb_spec (e_index e + 1) (e_size e)); zbool; lia.
Qed.

(** Where the [i]-th event from now goes, and the cycle bit it carries: the
    producer's, turned over at the end of the ring. *)
Definition entry_gpa e (i : nat) : Z := e_base e + (e_index e + Z.of_nat i) mod e_size e * 16.
Definition pass_cycle e (i : nat) : bool := if e_index e + Z.of_nat i <? e_size e then e_cycle e else negb (e_cycle e).

(** The events were posted at the next entries, nothing else was written, and the
    producer is behind the last of them. *)
Record posted mem e (vs : list Event) (mem' : M) e' : Prop := {
  po_entries : forall i v, vs !! i = Some v -> trb_at mem' (entry_gpa e i) = Some (trb_of v (pass_cycle e i));
  po_rest : agree (fun x => exists i, (i < length vs)%nat /\ entry_gpa e i <= x < entry_gpa e i + 16) mem mem';
  po_index : e_index e' = (e_index e + Z.of_nat (length vs)) mod e_size e;
  po_cycle : e_cycle e' = pass_cycle e (length vs);
}.

Lemma entry_gpa_0 mem e : ring_placed mem e -> entry_gpa e 0 = event_gpa e.
Proof. intros Hp. rewrite (placed_gpa mem e Hp). unfold entry_gpa. rewrite Z.add_0_r, Z.mod_small; [done|apply Hp]. Qed.

Lemma entry_gpa_S mem e i : ring_placed mem e -> entry_gpa (advance (e_size e) e) i = entry_gpa e (S i).
Proof.
  intros Hp. unfold entry_gpa. rewrite (advance_index_eq mem e Hp). cbn [e_base e_size advance]. destruct Hp.
  replace (e_index e + Z.of_nat (S i)) with (e_index e + 1 + Z.of_nat i) by lia. destruct (Z.eqb_spec (e_index e + 1) (e_size e)) as [E|]; [|done].
  rewrite E, <- (Z_mod_plus_full (0 + Z.of_nat i) 1 (e_size e)). do 3 f_equal. lia.
Qed.

Lemma pass_cycle_S mem e i : ring_placed mem e -> Z.of_nat i < e_size e -> pass_cycle (advance (e_size e) e) i = pass_cycle e (S i).
Proof.
  intros Hp Hi. unfold pass_cycle. rewrite (advance_index_eq mem e Hp), (advance_cycle_eq mem e Hp). cbn [e_size advance]. destruct Hp.
  destruct (Z.eqb_spec (e_index e + 1) (e_size e)); destruct (e_cycle e); zbool; done || lia.
Qed.

Lemma produce_posted vs mem e mem' e' :
  bm_inv mem -> ring_placed mem e -> Forall event_fits vs -> Z.of_nat (length vs) <= e_size e -> produce vs mem e = Some (mem', e') -> posted mem e vs mem' e'.
Proof.
  revert mem e. induction vs as [|v vs IH]; intros mem e Hm Hp Hv Hl; cbn [produce].
  { intros [= <- <-]. split; [done|by apply agree_refl|cbn [length]; rewrite Z.add_0_r, Z.mod_small; [done|apply Hp]|].
    unfold pass_cycle. cbn [length]. rewrite Z.add_0_r. destruct Hp. by destruct (Z.ltb_spec (e_index e) (e_size e)); [|lia]. }
  apply list.Forall_cons in Hv as [Hv Hvs]. destruct (placed_write mem e v Hm Hp Hv) as (m1 & E & Ht & Hag). rewrite E. intros Eq.
  pose proof Hag as (Hm1 & _ & Hs1). pose proof (advance_placed mem m1 e Hp Hs1) as Hp1. cbn [length] in Hl.
  destruct (produce_ok vs m1 (advance (e_size e) e) Hm1 Hp1 Hvs) as (m2 & e2 & E2 & _ & _ & Hk). rewrite Eq in E2. injection E2 as <- <-.
  destruct (IH m1 (advance (e_size e) e) Hm1 Hp1 Hvs) as [I1 I2 I3 I4]; [cbn [e_size advance]; lia|done|]. split.
  - intros [|i] w; cbn [lookup list_lookup].
    + intros [= <-]. rewrite (entry_gpa_0 mem e Hp), (placed_gpa mem e Hp). change (e_base (advance (e_size e) e)) with (e_base e) in Hk.
      rewrite Hk; [|apply Hp|].
      * rewrite <- (placed_gpa mem e Hp), Ht. unfold pass_cycle. rewrite Z.add_0_r. destruct Hp. by destruct (Z.ltb_spec (e_index e) (e_size e)); [|lia].
      * unfold ahead. rewrite (advance_index_eq mem e Hp). cbn [e_size advance]. destruct Hp. destruct (Z.eqb_spec (e_index e + 1) (e_size e)); zbool; lia.
    + intros Hw. pose proof (lookup_lt_Some _ _ _ Hw). rewrite <- (entry_gpa_S mem e i Hp), <- (pass_cycle_S mem e i Hp) by lia. by apply I1.
  - eapply agree_trans; [eapply agree_ext; [|exact Hag]|eapply agree_ext; [|exact I2]]; cbn beta.
    + intros x Hx. exists 0%nat. rewrite (entry_gpa_0 mem e Hp). cbn [length]. split; [lia|done].
    + intros x (i & Hi & Hx). exists (S i). rewrite <- (entry_gpa_S mem e i Hp). cbn [length]. split; [lia|done].
  - rewrite I3, (advance_index_eq mem e Hp). cbn [e_size advance length]. destruct Hp.
    replace (e_index e + Z.of_nat (S (length vs))) with (e_index e + 1 + Z.of_nat (length vs)) by lia. destruct (Z.eqb_spec (e_index e + 1) (e_size e)) as [Eq'|]; [|done].
    rewrite Eq', <- (Z_mod_plus_full (0 + Z.of_nat (length vs)) 1 (e_size e)). f_equal. lia.
  - rewrite I4. apply (pass_cycle_S mem e (length vs) Hp). lia.
Qed.
End queue.
