(* ===== verification/Xhci.v ===== *)
(** * The xHCI controller: command ring, transfers, registers, passthrough

    Model of [ternvale-usb/src]: the command ring ([command.rs]), the transfer
    rings ([transfer.rs]), the register file ([xhci.rs]), reports from the host
    ([input.rs]) and the worker that forwards transfers to host devices
    ([passthrough.rs]), over the parts of [Usb].  The channel to the worker is
    the list of jobs not yet taken.  A host device is a pair of functions, any
    two at each call.  [None] of the worker's completion is a panic (a slice past
    the buffer). *)

From stdpp Require Import list.
From S2P Require Import Prelude GuestMemory Usb.

(** ** Command ring ([command.rs]) *)

Record CommandRing := { cr_dequeue : Z; cr_cycle : bool; cr_running : bool }.
Definition command_default : CommandRing := {| cr_dequeue := 0; cr_cycle := false; cr_running := false |}.

(** ** Jobs of the passthrough worker ([passthrough.rs]) *)

Record ControlJob := {
  cj_port : Z; cj_slot_id : Z; cj_setup : UsbControlSetup; cj_data_out : list Z; cj_data_in_len : nat;
  cj_setup_trb_ptr : Z;
}.

Record PipeJob := {
  pj_port : Z; pj_slot_id : Z; pj_dci : Z; pj_endpoint : Z; pj_trb_ptr : Z; pj_data_gpa : Z;
  pj_length : nat; pj_is_in : bool;
}.

Inductive Job := Control (j : ControlJob) | Pipe (j : PipeJob).

Section rings.
Context {M : Type} `{!ByteMemory M}.

Definition Cmd : Type := SlotTable * CommandRing.
Definition upd_slots (f : SlotTable -> SlotTable) (x : Cmd) : Cmd := (f x.1, x.2).
Definition upd_slot (id : Z) (f : Slot -> Slot) (x : Cmd) : Cmd := upd_slots (slot_mut id f) x.
Definition flip_cycle (x : Cmd) : Cmd :=
  (x.1, {| cr_dequeue := cr_dequeue x.2; cr_cycle := negb (cr_cycle x.2); cr_running := cr_running x.2 |}).
Definition set_dequeue (ptr : Z) (x : Cmd) : Cmd :=
  (x.1, {| cr_dequeue := ptr; cr_cycle := cr_cycle x.2; cr_running := cr_running x.2 |}).

(** Both rings of a HID slot are pointed at the command's parameter. *)
Definition configure_hid (param : Z) (s : Slot) : Slot :=
  set_ep_in (fun r => ep_enable true (ep_at param true r)) (set_ep0 (fun r => ep_enable true (ep_at param true r)) s).

(** The body of the loop for one command that is not a link. *)
Definition command (trb : Trb) (cmd_ptr : Z) : RM M Cmd unit :=
  let slot_id := Z.land (Z.shiftr (t_control trb) 24) 0xff in
  if trb_type trb =? TRB_TYPE_ENABLE_SLOT then
    x ← this;
    match enable_slot x.1 with
    | Some (slot_id, t) =>
        modify (upd_slots (fun _ => t));;
        if slot_id =? 0 then post_command 0 CC_TRB_ERROR cmd_ptr else post_command slot_id CC_SUCCESS cmd_ptr
    | None => post_command 0 CC_TRB_ERROR cmd_ptr
    end
  else if trb_type trb =? TRB_TYPE_DISABLE_SLOT then
    x ← this;
    let '(freed, t) := disable_slot slot_id x.1 in
    modify (upd_slots (fun _ => t));;
    if freed : bool then post_command slot_id CC_SUCCESS cmd_ptr else post_command 0 CC_TRB_ERROR cmd_ptr
  else if trb_type trb =? TRB_TYPE_ADDRESS_DEVICE then
    x ← this;
    match slot x.1 slot_id with
    | Some _ => post_command slot_id CC_SUCCESS cmd_ptr
    | None => post_command 0 CC_TRB_ERROR cmd_ptr
    end
  else if trb_type trb =? TRB_TYPE_CONFIGURE_EP then
    x ← this;
    match slot x.1 slot_id with
    | Some s =>
        (if s_passthrough s then apply_input_context (upd_slot slot_id) (t_param trb)
         else modify (upd_slot slot_id (configure_hid (t_param trb))));;
        post_command slot_id CC_SUCCESS cmd_ptr
    | None => post_command 0 CC_TRB_ERROR cmd_ptr
    end
  else if trb_type trb =? TRB_TYPE_NOOP then post_command 0 CC_SUCCESS cmd_ptr
  else post_command 0 CC_TRB_ERROR cmd_ptr.

(** The address a link TRB points to. *)
Definition link_target (trb : Trb) : Z := Z.land (t_param trb) (not_w 64 0xF).
Definition toggles (trb : Trb) : bool := negb (Z.land (t_control trb) 2 =? 0).

Fixpoint run_loop (n : nat) (ptr : Z) : RM M Cmd Z :=
  match n with
  | O => mret ptr
  | S n =>
      trb ← read_trb ptr;
      x ← this;
      if negb (eqb (cycle trb) (cr_cycle x.2)) then mret ptr
      else if trb_type trb =? TRB_TYPE_LINK then
        (if toggles trb then modify flip_cycle else mret tt);;
        run_loop n (link_target trb)
      else command trb ptr;; run_loop n (add_w 64 ptr 16)
  end.

Definition run : RM M Cmd unit :=
  x ← this;
  if negb (cr_running x.2) || (cr_dequeue x.2 =? 0) then mret tt
  else ptr ← run_loop 32 (cr_dequeue x.2); modify (set_dequeue ptr).

(** ** Transfers ([transfer.rs]) *)

Definition REQ_GET_DESCRIPTOR : Z := 0x06.
Definition DESC_DEVICE : Z := 1.
Definition DESC_CONFIG : Z := 2.
Definition DESC_REPORT : Z := 0x22.

(** A slot and the channel to the worker. *)
Definition Xfer : Type := Slot * list Job.
Definition on_slot (f : Slot -> Slot) (x : Xfer) : Xfer := (f x.1, x.2).
Definition submit (j : Job) (x : Xfer) : Xfer := (x.1, x.2 ++ [j]).

(** The answer of a virtual HID device to a setup packet. *)
Definition descriptor (hid : HidKind) (setup : UsbControlSetup) : list Z :=
  if negb (Z.land (su_request_type setup) 0x80 =? 0) && (su_request setup =? REQ_GET_DESCRIPTOR) then
    let kind := wrap 8 (Z.shiftr (su_value setup) 8) in
    if kind =? DESC_DEVICE then device_descriptor 0x0627 0x0001
    else if kind =? DESC_CONFIG then config_bundle hid 8
    else if kind =? DESC_REPORT then report_desc hid
    else []
  else [].

(** The OUT data stage a control job carries. *)
Definition setup_data_out (setup : UsbControlSetup) (trb_ptr : Z) : RM M Xfer (list Z) :=
  if (Z.land (su_request_type setup) 0x80 =? 0) && (0 <? su_length setup) then
    data_trb ← read_trb (add_w 64 trb_ptr 16);
    if trb_type data_trb =? TRB_TYPE_DATA_STAGE then read_bytes (t_param data_trb) (Z.to_nat (su_length setup))
    else mret []
  else mret [].

(** Eight bytes always parse, so the last [None] is never reached. *)
Definition handle_setup (worker : bool) (setup_trb : Trb) (slot_id trb_ptr : Z) : RM M Xfer bool :=
  setup_bytes ← read_bytes (t_param setup_trb) 8;
  x ← this;
  let parsed := setup_from_bytes setup_bytes in
  if s_passthrough x.1 then
    match worker, parsed with
    | true, Some parsed =>
        data_out ← setup_data_out parsed trb_ptr;
        modify (submit (Control {| cj_port := s_port x.1; cj_slot_id := slot_id; cj_setup := parsed;
                                   cj_data_out := data_out; cj_data_in_len := Z.to_nat (su_length parsed);
                                   cj_setup_trb_ptr := trb_ptr |}));;
        modify (on_slot (set_ep0_busy true));;
        mret true
    | _, _ => post slot_id 0 CC_STALL_ERROR trb_ptr 0;; mret false
    end
  else
    match parsed with
    | None => mret false
    | Some setup =>
        let data := descriptor (default Keyboard (s_hid x.1)) setup in
        (if negb (bool_decide (data = [])) && (0 <? su_length setup)
         then modify (on_slot (set_pending (take (Z.to_nat (su_length setup)) data))) else mret tt);;
        post slot_id 0 CC_SUCCESS trb_ptr 8;;
        mret false
    end.

Definition forward_pipe (worker : bool) (slot_id dci : Z) (trb : Trb) (trb_ptr : Z) : RM M Xfer bool :=
  x ← this;
  let endpoint := match s_endpoint_addr x.1 !! Z.to_nat dci with
                  | Some a => if a =? 0 then dci_to_usb_endpoint dci else Some a
                  | None => dci_to_usb_endpoint dci
                  end in
  match worker, endpoint with
  | true, Some endpoint =>
      modify (submit (Pipe {| pj_port := s_port x.1; pj_slot_id := slot_id; pj_dci := dci; pj_endpoint := endpoint;
                              pj_trb_ptr := trb_ptr; pj_data_gpa := t_param trb;
                              pj_length := Z.to_nat (Z.land (t_status trb) 0xffff);
                              pj_is_in := negb (Z.land endpoint 0x80 =? 0) |}));;
      modify (on_slot (ep_ring_mut dci (ep_busy true)));;
      mret true
  | _, _ => mret false
  end.

(** How much of a pending report one TRB takes. *)
Definition in_length (s : Slot) (dci : Z) (trb : Trb) : nat :=
  let room := Z.land (t_status trb) 0xffff in
  let mps := if dci =? 0 then room else Z.max (r_max_packet (ep_ring s dci)) 1 in
  Z.to_nat (Z.min (Z.min (Z.of_nat (length (s_pending_in s))) room) (Z.max mps 1)).

(** One TRB that is not a link; [true] holds the ring for the worker. *)
Definition transfer_trb (worker : bool) (slot_id dci : Z) (trb : Trb) (trb_ptr : Z) : RM M Xfer bool :=
  let ty := trb_type trb in
  if ty =? TRB_TYPE_SETUP_STAGE then handle_setup worker trb slot_id trb_ptr
  else if (ty =? TRB_TYPE_DATA_STAGE) || (ty =? TRB_TYPE_NORMAL) then
    x ← this;
    if s_passthrough x.1 && negb (dci =? 0) then forward_pipe worker slot_id dci trb trb_ptr
    else if negb (bool_decide (s_pending_in x.1 = [])) then
      let len := in_length x.1 dci trb in
      write_bytes (t_param trb) (take len (s_pending_in x.1));;
      modify (on_slot (set_pending []));;
      post slot_id dci CC_SUCCESS trb_ptr (Z.of_nat len);;
      mret false
    else if ty =? TRB_TYPE_NORMAL then post slot_id dci CC_SUCCESS trb_ptr 0;; mret false
    else mret false
  else if ty =? TRB_TYPE_STATUS_STAGE then
    x ← this;
    (if negb (s_passthrough x.1) || negb (dci =? 0) then post slot_id 0 CC_SUCCESS trb_ptr 0 else mret tt);;
    mret false
  else post slot_id dci CC_STALL_ERROR trb_ptr 0;; mret false.

(** The loop; the result is the pointer, the cycle and whether to hold. *)
Fixpoint transfer_loop (worker : bool) (slot_id dci : Z) (n : nat) (ptr : Z) (cyc : bool) :
    RM M Xfer (Z * bool * bool) :=
  match n with
  | O => mret (ptr, cyc, false)
  | S n =>
      trb ← read_trb ptr;
      if negb (eqb (cycle trb) cyc) then mret (ptr, cyc, false)
      else if trb_type trb =? TRB_TYPE_LINK then
        transfer_loop worker slot_id dci n (link_target trb) (if toggles trb then negb cyc else cyc)
      else
        hold ← transfer_trb worker slot_id dci trb ptr;
        if hold : bool then mret (ptr, cyc, true)
        else transfer_loop worker slot_id dci n (add_w 64 ptr 16) cyc
  end.

Definition process_transfer (worker : bool) (slot_id dci : Z) : RM M Xfer unit :=
  x ← this;
  let s := x.1 in
  if s_passthrough s && (dci =? 0) && s_ep0_busy s then mret tt
  else if negb (dci =? 0) && negb (r_enabled (ep_ring s dci)) then mret tt
  else if s_passthrough s && negb (dci =? 0) && r_busy (ep_ring s dci) then mret tt
  else
    let r := if dci =? 0 then s_ep0 s else ep_ring s dci in
    out ← transfer_loop worker slot_id dci 16 (r_dequeue r) (r_cycle r);
    let '(ptr, cyc, hold) := out in
    if hold : bool then mret tt
    else modify (on_slot (if dci =? 0 then set_ep0 (ep_at ptr cyc) else ep_ring_mut dci (ep_at ptr cyc))).
End rings.

(** ** The controller ([xhci.rs]) *)

Inductive XhciError := Misaligned (base : Z).

Record Xhci := {
  x_base : Z;
  x_usbcmd : Z;
  x_usbsts : Z;
  x_config : Z;
  x_dcbaap : Z;
  x_iman : Z;
  x_crcr : Z;
  x_cmd : CommandRing;
  x_events : EventRing;
  x_slots : SlotTable;
  x_erst_size : Z;
  x_erst_base : Z;
  x_erdp : Z;
  x_hook : bool;
  x_calls : list bool;      (* calls of the hook, newest first *)
  x_passthrough : bool;     (* a worker is attached *)
  x_jobs : list Job;        (* its channel, oldest first *)
}.

Definition new_with_irq (base : Z) (hook : bool) : result XhciError Xhci :=
  if negb (base mod 0x1000 =? 0) then Err (Misaligned base)
  else Ok {| x_base := base; x_usbcmd := 0; x_usbsts := STS_HALT; x_config := 0; x_dcbaap := 0; x_iman := 0;
             x_crcr := 0; x_cmd := command_default; x_events := event_default; x_slots := slots_new MAX_SLOTS;
             x_erst_size := 0; x_erst_base := 0; x_erdp := 0; x_hook := hook; x_calls := [];
             x_passthrough := false; x_jobs := [] |}.

(** Register groups, set together. *)
Definition set_status (usbcmd usbsts iman : Z) (calls : list bool) (x : Xhci) : Xhci :=
  {| x_base := x_base x; x_usbcmd := usbcmd; x_usbsts := usbsts; x_config := x_config x; x_dcbaap := x_dcbaap x;
     x_iman := iman; x_crcr := x_crcr x; x_cmd := x_cmd x; x_events := x_events x; x_slots := x_slots x;
     x_erst_size := x_erst_size x; x_erst_base := x_erst_base x; x_erdp := x_erdp x; x_hook := x_hook x;
     x_calls := calls; x_passthrough := x_passthrough x; x_jobs := x_jobs x |}.
Definition set_command (crcr : Z) (cmd : CommandRing) (x : Xhci) : Xhci :=
  {| x_base := x_base x; x_usbcmd := x_usbcmd x; x_usbsts := x_usbsts x; x_config := x_config x;
     x_dcbaap := x_dcbaap x; x_iman := x_iman x; x_crcr := crcr; x_cmd := cmd; x_events := x_events x;
     x_slots := x_slots x; x_erst_size := x_erst_size x; x_erst_base := x_erst_base x; x_erdp := x_erdp x;
     x_hook := x_hook x; x_calls := x_calls x; x_passthrough := x_passthrough x; x_jobs := x_jobs x |}.
Definition set_config (config dcbaap : Z) (x : Xhci) : Xhci :=
  {| x_base := x_base x; x_usbcmd := x_usbcmd x; x_usbsts := x_usbsts x; x_config := config;
     x_dcbaap := dcbaap; x_iman := x_iman x; x_crcr := x_crcr x; x_cmd := x_cmd x; x_events := x_events x;
     x_slots := x_slots x; x_erst_size := x_erst_size x; x_erst_base := x_erst_base x; x_erdp := x_erdp x;
     x_hook := x_hook x; x_calls := x_calls x; x_passthrough := x_passthrough x; x_jobs := x_jobs x |}.
Definition set_erst (size base erdp : Z) (events : EventRing) (x : Xhci) : Xhci :=
  {| x_base := x_base x; x_usbcmd := x_usbcmd x; x_usbsts := x_usbsts x; x_config := x_config x;
     x_dcbaap := x_dcbaap x; x_iman := x_iman x; x_crcr := x_crcr x; x_cmd := x_cmd x; x_events := events;
     x_slots := x_slots x; x_erst_size := size; x_erst_base := base; x_erdp := erdp;
     x_hook := x_hook x; x_calls := x_calls x; x_passthrough := x_passthrough x; x_jobs := x_jobs x |}.
Definition set_work (cmd : CommandRing) (events : EventRing) (slots : SlotTable) (jobs : list Job) (x : Xhci) : Xhci :=
  {| x_base := x_base x; x_usbcmd := x_usbcmd x; x_usbsts := x_usbsts x; x_config := x_config x;
     x_dcbaap := x_dcbaap x; x_iman := x_iman x; x_crcr := x_crcr x; x_cmd := cmd; x_events := events;
     x_slots := slots; x_erst_size := x_erst_size x; x_erst_base := x_erst_base x; x_erdp := x_erdp x;
     x_hook := x_hook x; x_calls := x_calls x; x_passthrough := x_passthrough x; x_jobs := jobs |}.
Definition set_x_slots (slots : SlotTable) (x : Xhci) : Xhci := set_work (x_cmd x) (x_events x) slots (x_jobs x) x.

Definition set_passthrough_worker (x : Xhci) : Xhci :=
  {| x_base := x_base x; x_usbcmd := x_usbcmd x; x_usbsts := x_usbsts x; x_config := x_config x;
     x_dcbaap := x_dcbaap x; x_iman := x_iman x; x_crcr := x_crcr x; x_cmd := x_cmd x; x_events := x_events x;
     x_slots := x_slots x; x_erst_size := x_erst_size x; x_erst_base := x_erst_base x; x_erdp := x_erdp x;
     x_hook := x_hook x; x_calls := x_calls x; x_passthrough := true; x_jobs := x_jobs x |}.

(** A call of the interrupt hook, when there is one. *)
Definition call (level : bool) (x : Xhci) : list bool := if x_hook x then level :: x_calls x else x_calls x.

Definition pulse_irq (x : Xhci) : Xhci :=
  set_status (x_usbcmd x) (Z.lor (x_usbsts x) STS_EINT) (Z.lor (x_iman x) IMAN_IP) (call true x) x.

Definition handle_host_usb_disconnect (port : Z) (x : Xhci) : Xhci :=
  let '(id, t) := disconnect_passthrough_port port (x_slots x) in
  let x := set_x_slots t x in
  match id with Some _ => pulse_irq x | None => x end.

Definition queue_hid_report (kind : HidKind) (data : list Z) (x : Xhci) : Xhci :=
  match slot_for_port (x_slots x) (hid_port kind) with
  | None => x
  | Some slot_id => set_x_slots (slot_mut slot_id (set_pending data) (x_slots x)) x
  end.

Definition lo32 (v : Z) : Z := wrap 32 v.
Definition hi32 (v : Z) : Z := Z.shiftr v 32.
(** [v] with its low, or its high, half replaced. *)
Definition with_lo (v word : Z) : Z := Z.lor (Z.land v 0xffffffff00000000) word.
Definition with_hi (v word : Z) : Z := Z.lor (Z.land v 0xffffffff) (Z.shiftl word 32).

(** The offset is one of the [PORTSC] registers. *)
Definition in_portsc (o : Z) : bool := (PORTSC_BASE <=? o) && (o <? PORTSC_BASE + NUM_PORTS * 16).
Definition portsc_port (o : Z) : Z := add_w 8 (wrap 8 ((o - PORTSC_BASE) / 16)) 1.

Definition read_inner (x : Xhci) (o : Z) : Z :=
  if o =? 0 then CAPLENGTH
  else if o =? 0x02 then HCIVERSION
  else if o =? HCSPARAMS1 then Z.lor (Z.lor MAX_SLOTS (Z.shiftl MAX_INTRS 8)) (Z.shiftl NUM_PORTS 24)
  else if o =? HCSPARAMS2 then 0
  else if o =? HCCPARAMS1 then HCCPARAMS1_VALUE
  else if (EXT_CAP_BASE <=? o) && (o <? EXT_CAP_BASE + 12) then ext_cap_word o
  else if o =? 0x14 then DBOFF
  else if o =? 0x18 then RTSOFF
  else if o =? USBCMD then x_usbcmd x
  else if o =? USBSTS then x_usbsts x
  else if o =? PAGESIZE then 0x1000
  else if o =? DNCTRL then 0
  else if o =? CRCR then lo32 (x_crcr x)
  else if o =? CRCR_HI then hi32 (x_crcr x)
  else if o =? CONFIG then x_config x
  else if o =? DCBAAP then lo32 (x_dcbaap x)
  else if o =? DCBAAP_HI then hi32 (x_dcbaap x)
  else if o =? rt_iman 0 then x_iman x
  else if in_portsc o then portsc (x_slots x) (portsc_port o)
  else if o =? rt_erstsz 0 then x_erst_size x
  else if o =? rt_erstba 0 then lo32 (x_erst_base x)
  else if o =? rt_erstba 0 + 4 then hi32 (x_erst_base x)
  else if o =? rt_erdp 0 then lo32 (x_erdp x)
  else if o =? rt_erdp 0 + 4 then hi32 (x_erdp x)
  else 0.

Definition read (x : Xhci) (offset size : Z) : Z :=
  let val := read_inner x offset in
  if size =? 1 then wrap 8 val
  else if size =? 2 then wrap 16 val
  else if size =? 4 then val
  else if size =? 8 then val
  else 0.

Definition write_usbcmd (val : Z) (x : Xhci) : Xhci :=
  if negb (Z.land val CMD_HCRST =? 0) then
    set_command 0 command_default (set_status 0 STS_HALT (x_iman x) (x_calls x) x)
  else
    let run := negb (Z.land val CMD_RUN =? 0) in
    let usbcmd := Z.land val (Z.lor (Z.lor CMD_RUN CMD_HCRST) CMD_INTE) in
    let cmd := {| cr_dequeue := cr_dequeue (x_cmd x); cr_cycle := cr_cycle (x_cmd x); cr_running := run |} in
    let usbsts := if run then Z.land (x_usbsts x) (not_w 32 STS_HALT) else STS_HALT in
    set_command (x_crcr x) cmd (set_status usbcmd usbsts (x_iman x) (x_calls x) x).

(** The producer index an [ERDP] write leaves. *)
Definition erdp_index (erdp erst_base : Z) : Z :=
  wrap 32 (wrapping_sub 64 (Z.land erdp (not_w 64 0xf)) erst_base / 16).

Definition set_index (index : Z) (e : EventRing) : EventRing :=
  {| e_base := e_base e; e_size := e_size e; e_index := index; e_cycle := e_cycle e |}.
Definition set_base (base : Z) (e : EventRing) : EventRing :=
  {| e_base := base; e_size := e_size e; e_index := e_index e; e_cycle := e_cycle e |}.
Definition set_size (size : Z) (e : EventRing) : EventRing :=
  {| e_base := e_base e; e_size := size; e_index := e_index e; e_cycle := e_cycle e |}.

Definition write_erst_base (base : Z) (x : Xhci) : Xhci :=
  set_erst (x_erst_size x) base (x_erdp x) (set_base base (x_events x)) x.
Definition write_erdp (erdp : Z) (x : Xhci) : Xhci :=
  set_erst (x_erst_size x) (x_erst_base x) erdp (set_index (erdp_index erdp (x_erst_base x)) (x_events x)) x.

Definition write_iman (word : Z) (x : Xhci) : Xhci :=
  let x := if negb (Z.land word IMAN_IP =? 0) then
             set_status (x_usbcmd x) (Z.land (x_usbsts x) (not_w 32 STS_EINT))
               (Z.land (x_iman x) (not_w 32 IMAN_IP)) (call false x) x
           else x in
  let iman := Z.lor (Z.lor (Z.land (x_iman x) (not_w 32 IMAN_IE)) (Z.land word IMAN_IE)) (Z.land (x_iman x) IMAN_IP) in
  set_status (x_usbcmd x) (x_usbsts x) iman (x_calls x) x.

Section controller.
Context {M : Type} `{!ByteMemory M}.

Definition ring_doorbell (slot_id target : Z) (x : Xhci) (mem : M) : Xhci * M :=
  let '(x, mem, posted) :=
    if slot_id =? 0 then
      let '(k, r) := run {| k_mem := mem; k_ev := x_events x; k_at := (x_slots x, x_cmd x) |} in
      (set_work (k_at k).2 (k_ev k) (k_at k).1 (x_jobs x) x, k_mem k, is_ok r)
    else
      match slot (x_slots x) slot_id with
      | Some s =>
          let '(k, r) := process_transfer (x_passthrough x) slot_id target
                           {| k_mem := mem; k_ev := x_events x; k_at := (s, x_jobs x) |} in
          (set_work (x_cmd x) (k_ev k) (slot_mut slot_id (fun _ => (k_at k).1) (x_slots x)) (k_at k).2 x,
           k_mem k, is_ok r)
      | None => (x, mem, false)
      end in
  (if posted then pulse_irq x else x, mem).

(** The match on the offset of a write narrower than eight bytes, or of one no
    64-bit register takes. *)
Definition write_word (o word : Z) (x : Xhci) (mem : M) : Xhci * M :=
  if o =? USBCMD then (write_usbcmd word x, mem)
  else if o =? CRCR then
    let crcr := with_lo (x_crcr x) (Z.land word (not_w 32 0x3f)) in
    (set_command crcr {| cr_dequeue := Z.land crcr (not_w 64 0x3f); cr_cycle := negb (Z.land word 1 =? 0);
                         cr_running := cr_running (x_cmd x) |} x, mem)
  else if o =? CRCR_HI then (set_command (with_hi (x_crcr x) word) (x_cmd x) x, mem)
  else if o =? CONFIG then (set_config (Z.land word 0xff) (x_dcbaap x) x, mem)
  else if o =? DCBAAP then (set_config (x_config x) (with_lo (x_dcbaap x) word) x, mem)
  else if o =? DCBAAP_HI then (set_config (x_config x) (with_hi (x_dcbaap x) word) x, mem)
  else if o =? rt_iman 0 then (write_iman word x, mem)
  else if o =? rt_erstsz 0 then
    let size := wrap 16 word in (set_erst size (x_erst_base x) (x_erdp x) (set_size size (x_events x)) x, mem)
  else if o =? rt_erstba 0 then (write_erst_base (with_lo (x_erst_base x) word) x, mem)
  else if o =? rt_erstba 0 + 4 then (write_erst_base (with_hi (x_erst_base x) word) x, mem)
  else if o =? rt_erdp 0 then (write_erdp (with_lo (x_erdp x) (Z.land word (not_w 32 0xf))) x, mem)
  else if in_portsc o then (set_x_slots (write_portsc (portsc_port o) word (x_slots x)) x, mem)
  else if o =? USBSTS then
    (set_status (x_usbcmd x) (Z.land (x_usbsts x) (not_w 32 (Z.land word (Z.lor STS_EINT STS_HSE)))) (x_iman x)
       (x_calls x) x, mem)
  else if (doorbell 0 <=? o) && (o <? doorbell (MAX_SLOTS + 1)) then
    ring_doorbell (wrap 8 ((o - doorbell 0) / 4)) (wrap 8 (Z.land word 0xff)) x mem
  else (x, mem).

Definition write (offset size val : Z) (x : Xhci) (mem : M) : Xhci * M :=
  if negb ((size =? 1) || (size =? 2) || (size =? 4) || (size =? 8)) then (x, mem)
  else if (size =? 8) && (offset =? CRCR) then
    let crcr := Z.land val (not_w 64 0x3f) in
    (set_command crcr {| cr_dequeue := crcr; cr_cycle := negb (Z.land val 1 =? 0);
                         cr_running := cr_running (x_cmd x) |} x, mem)
  else if (size =? 8) && (offset =? DCBAAP) then (set_config (x_config x) val x, mem)
  else if (size =? 8) && (offset =? rt_erstba 0) then (write_erst_base val x, mem)
  else if (size =? 8) && (offset =? rt_erdp 0) then (write_erdp (Z.land val (not_w 64 0xf)) x, mem)
  else write_word offset (wrap 32 val) x mem.
End controller.

(** ** Reports from the host ([input.rs]) and construction *)

Record UsbInputStats := { n_keyboard : Z; n_mouse : Z }.

Definition keyboard (report : BootKeyboardReport) (x : Xhci) (stats : UsbInputStats) : Xhci * UsbInputStats :=
  (queue_hid_report Keyboard (keyboard_to_bytes report) x,
   {| n_keyboard := add_w 64 (n_keyboard stats) 1; n_mouse := n_mouse stats |}).

Definition mouse (report : BootMouseReport) (x : Xhci) (stats : UsbInputStats) : Xhci * UsbInputStats :=
  (queue_hid_report Mouse (mouse_to_bytes report) x,
   {| n_keyboard := n_keyboard stats; n_mouse := add_w 64 (n_mouse stats) 1 |}).

(** [bindings] says whether any host device was bound. *)
Definition attach_shared_with_passthrough (base : Z) (port_entries : list (Z * Z * Z)) (bindings : bool) :
    result XhciError Xhci :=
  x ← new_with_irq base true;
  let x := set_x_slots (configure_passthrough_ports port_entries (x_slots x)) x in
  Ok (if bindings then set_passthrough_worker x else x).

(** ** The passthrough worker ([passthrough.rs]) *)

Inductive HostUsbError := Unavailable | Transfer (code : Z) | Invalid.

(** A host device: the bytes transferred and the buffer it filled. *)
Record Backend := {
  control_transfer : UsbControlSetup -> option (list Z) -> list Z -> result HostUsbError nat * list Z;
  pipe_transfer : Z -> option (list Z) -> list Z -> result HostUsbError nat * list Z;
}.

Definition Backends : Type := list (Z * Backend).
Definition backend_of (backends : Backends) (port : Z) : option Backend :=
  find_map (fun pb => if pb.1 =? port then Some pb.2 else None) backends.

(** What the host transfer of a job ended with. *)
Record Done := { dn_job : Job; dn_code : Z; dn_bytes : Z; dn_buf : list Z }.

Definition outcome (job : Job) (r : result HostUsbError nat * list Z) : Done :=
  match r with
  | (Ok n, buf) => {| dn_job := job; dn_code := CC_SUCCESS; dn_bytes := wrap 32 (Z.of_nat n); dn_buf := buf |}
  | (Err _, buf) => {| dn_job := job; dn_code := CC_STALL_ERROR; dn_bytes := 0; dn_buf := buf |}
  end.

Section worker.
Context {M : Type} `{!ByteMemory M}.

(** [execute_control] up to the completion. *)
Definition begin_control (backends : Backends) (job : ControlJob) : result MemError Done :=
  b ← ok_or (backend_of backends (cj_port job)) (ReadFailed 0);
  let in_buf := replicate (Nat.min (cj_data_in_len job) (Z.to_nat 4096)) 0 in
  let out := if bool_decide (cj_data_out job = []) then None else Some (cj_data_out job) in
  Ok (outcome (Control job) (control_transfer b (cj_setup job) out in_buf)).

(** [execute_pipe] up to the completion; an OUT transfer reads the buffer first. *)
Definition begin_pipe (backends : Backends) (job : PipeJob) (mem : M) : result MemError Done :=
  b ← ok_or (backend_of backends (pj_port job)) (ReadFailed 0);
  if pj_is_in job then
    Ok (outcome (Pipe job) (pipe_transfer b (pj_endpoint job) None (replicate (Nat.min (pj_length job) (Z.to_nat 65536)) 0)))
  else
    match bm_read mem (pj_data_gpa job) (pj_length job) with
    | Ok out_buf => Ok (outcome (Pipe job) (pipe_transfer b (pj_endpoint job) (Some out_buf) []))
    | Err _ => Err (ReadFailed (pj_data_gpa job))
    end.

Definition post_passthrough_completion (slot_id dci code trb_ptr bytes : Z) : RM M SlotTable unit :=
  post slot_id dci code trb_ptr bytes.

Definition finish_ep0_control (job : ControlJob) (code bytes : Z) (in_buf : list Z) : RM M SlotTable unit :=
  let slot_id := cj_slot_id job in
  let setup_ptr := cj_setup_trb_ptr job in
  let is_in := negb (Z.land (su_request_type (cj_setup job)) 0x80 =? 0) in
  post_passthrough_completion slot_id 0 code setup_ptr (if code =? CC_SUCCESS then 8 else 0);;
  if negb (code =? CC_SUCCESS) then modify (slot_mut slot_id (set_ep0_busy false))
  else
    let ptr := add_w 64 setup_ptr 16 in
    ptr ← (if is_in && (0 <? bytes) then
             data_trb ← read_trb ptr;
             if trb_type data_trb =? TRB_TYPE_DATA_STAGE then
               let len := Z.to_nat (Z.min bytes (t_status data_trb)) in
               write_bytes (t_param data_trb) (take len in_buf);;
               post_passthrough_completion slot_id 0 CC_SUCCESS ptr (Z.of_nat len);;
               mret (add_w 64 ptr 16)
             else mret ptr
           else if negb is_in && (0 <? su_length (cj_setup job)) then mret (add_w 64 ptr 16)
           else mret ptr);
    status_trb ← read_trb ptr;
    ptr ← (if trb_type status_trb =? TRB_TYPE_STATUS_STAGE then
             post_passthrough_completion slot_id 0 CC_SUCCESS ptr 0;; mret (add_w 64 ptr 16)
           else mret ptr);
    modify (slot_mut slot_id (fun s => set_ep0_busy false (set_ep0 (fun r => ep_at ptr (r_cycle r) r) s))).

(** [execute_pipe] from the copy to the guest on. *)
Definition finish_pipe (job : PipeJob) (code bytes : Z) (in_buf : list Z) : RM M SlotTable unit :=
  (if pj_is_in job && (0 <? bytes) then write_bytes (pj_data_gpa job) (take (Z.to_nat bytes) in_buf) else mret tt);;
  post_passthrough_completion (pj_slot_id job) (pj_dci job) code (pj_trb_ptr job) bytes;;
  modify (slot_mut (pj_slot_id job)
    (ep_ring_mut (pj_dci job) (fun r => ep_busy false (ep_at (add_w 64 (pj_trb_ptr job) 16) (r_cycle r) r)))).

(** A completion under both locks; [None] is a slice past the host's buffer. *)
Definition finish (d : Done) (x : Xhci) (mem : M) : option (result MemError unit * Xhci * M) :=
  let panics := match dn_job d with
                | Control _ => false
                | Pipe j => pj_is_in j && (Z.of_nat (length (dn_buf d)) <? dn_bytes d)
                end in
  if panics then None
  else
    let '(k, r) := match dn_job d with
                   | Control j => finish_ep0_control j (dn_code d) (dn_bytes d) (dn_buf d)
                   | Pipe j => finish_pipe j (dn_code d) (dn_bytes d) (dn_buf d)
                   end {| k_mem := mem; k_ev := x_events x; k_at := x_slots x |} in
    let x := set_work (x_cmd x) (k_ev k) (k_at k) (x_jobs x) x in
    Some (r, if is_ok r then pulse_irq x else x, k_mem k).

Definition begin (backends : Backends) (job : Job) (mem : M) : result MemError Done :=
  match job with Control j => begin_control backends j | Pipe j => begin_pipe backends j mem end.

(** ** The whole controller

    One step of a vCPU (an access to the window, or a store to its own memory),
    of the host's input, or of the worker: taking a job and running the host
    transfer, completing it, noticing an unplugged device. *)
Record State := { st_x : Xhci; st_mem : M; st_worker : option Done }.

Inductive Action :=
  | GuestWrite (offset size val : Z)
  | GuestStore (gpa : Z) (data : list Z)
  | HidReport (kind : HidKind) (data : list Z)
  | Take (backends : Backends)
  | Finish
  | Unplug (port : Z).

(** [None] is a panic. *)
Definition step (a : Action) (s : State) : option State :=
  match a with
  | GuestWrite offset size val =>
      let '(x, mem) := write offset size val (st_x s) (st_mem s) in
      Some {| st_x := x; st_mem := mem; st_worker := st_worker s |}
  | GuestStore gpa data =>
      match bm_write (st_mem s) gpa data with
      | Ok mem => Some {| st_x := st_x s; st_mem := mem; st_worker := st_worker s |}
      | Err _ => Some s
      end
  | HidReport kind data =>
      Some {| st_x := queue_hid_report kind data (st_x s); st_mem := st_mem s; st_worker := st_worker s |}
  | Take backends =>
      match st_worker s, x_jobs (st_x s) with
      | None, job :: jobs =>
          let x := set_work (x_cmd (st_x s)) (x_events (st_x s)) (x_slots (st_x s)) jobs (st_x s) in
          Some {| st_x := x; st_mem := st_mem s;
                  st_worker := match begin backends job (st_mem s) with Ok d => Some d | Err _ => None end |}
      | _, _ => Some s
      end
  | Finish =>
      match st_worker s with
      | None => Some s
      | Some d =>
          match finish d (st_x s) (st_mem s) with
          | None => None
          | Some (_, x, mem) => Some {| st_x := x; st_mem := mem; st_worker := None |}
          end
      end
  | Unplug port =>
      match st_worker s with
      | None => Some {| st_x := handle_host_usb_disconnect port (st_x s); st_mem := st_mem s; st_worker := None |}
      | Some _ => Some s
      end
  end.

Fixpoint steps (actions : list Action) (s : State) : option State :=
  match actions with
  | [] => Some s
  | a :: actions => match step a s with Some s => steps actions s | None => None end
  end.
End worker.
Arguments State M : clear implicits.

(** ** The invariant of the controller *)

Definition cmd_ok (x : Cmd) : Prop := table_ok x.1 /\ fits 64 (cr_dequeue x.2).

Definition job_ok (j : Job) : Prop :=
  match j with
  | Control j => setup_fits (cj_setup j) /\ fits 64 (cj_setup_trb_ptr j)
  | Pipe j => fits 64 (pj_trb_ptr j) /\ fits 64 (pj_data_gpa j)
  end.

(** A slot under a transfer, compared with the slot [s0] it started from. *)
Definition xfer_ok (s0 : Slot) (x : Xfer) : Prop := slot_ok x.1 /\ same_device s0 x.1 /\ Forall job_ok x.2.

Lemma add_w_fits w a b : 0 <= w -> fits w (add_w w a b).
Proof. apply wrap_fits. Qed.

Lemma link_target_fits t : trb_fits t -> fits 64 (link_target t).
Proof. intros [H _]. apply land_fits_l; [done|]. vm_compute. by intros. Qed.

Section keeps.
Context {M : Type} `{!ByteMemory M} (base size : Z).
Hypothesis Hbase : fits 64 base.
Hypothesis Hsize : fits 16 size.

Notation kc := (keeps (M := M) cmd_ok base size).

Lemma upd_slot_ok id f x : gentle f -> cmd_ok x -> cmd_ok (upd_slot id f x).
Proof. intros Hf [Ht Hd]. split; [by apply gentle_slot_mut|done]. Qed.

Lemma configure_hid_gentle param : fits 64 param -> gentle (configure_hid param).
Proof.
  intros Hp. pose proof (ep_enable_gentle true _ (ep_at_gentle param true Hp)).
  apply (gentle_comp (set_ep0 _) (set_ep_in _)); [by apply gentle_ep0|by apply gentle_ep_in].
Qed.

Lemma keeps_command trb ptr : trb_fits trb -> kc (command trb ptr) (fun _ => True).
Proof.
  intros [Hp _]. pose proof (keeps_post_command (M := M) cmd_ok base size Hsize) as Hpost. unfold command.
  destruct (trb_type trb =? TRB_TYPE_ENABLE_SLOT).
  { eapply keeps_bind; [apply keeps_this|]. intros x [Ht Hd]. destruct (enable_slot x.1) as [[id t]|] eqn:E; [|apply Hpost].
    apply enable_slot_ok in E; [|done]. apply keeps_seq; [apply keeps_modify; by intros ? [? ?]|]. destruct (id =? 0); apply Hpost. }
  destruct (trb_type trb =? TRB_TYPE_DISABLE_SLOT).
  { eapply keeps_bind; [apply keeps_this|]. intros x [Ht Hd]. pose proof (disable_slot_ok (Z.land (Z.shiftr (t_control trb) 24) 0xff) _ Ht) as H.
    destruct (disable_slot _ x.1) as [freed t]. apply keeps_seq; [apply keeps_modify; by intros ? [? ?]|]. destruct freed; apply Hpost. }
  destruct (trb_type trb =? TRB_TYPE_ADDRESS_DEVICE).
  { eapply keeps_bind; [apply keeps_this|]. intros x _. destruct (slot x.1 _); apply Hpost. }
  destruct (trb_type trb =? TRB_TYPE_CONFIGURE_EP).
  { eapply keeps_bind; [apply keeps_this|]. intros x _. destruct (slot x.1 _) as [s|]; [|apply Hpost].
    apply keeps_seq; [|apply Hpost]. destruct (s_passthrough s).
    - apply keeps_apply_input_context; [|apply Hp]. intros f y. apply upd_slot_ok.
    - apply keeps_modify. intros y. by apply upd_slot_ok, configure_hid_gentle. }
  destruct (_ =? TRB_TYPE_NOOP); apply Hpost.
Qed.

Lemma keeps_run_loop n ptr : fits 64 ptr -> kc (run_loop n ptr) (fits 64).
Proof.
  revert ptr. induction n as [|n IH]; intros ptr Hp; [by apply keeps_ret|]. cbn [run_loop].
  eapply keeps_bind; [apply keeps_read_trb, Hp|]. intros trb Ht. eapply keeps_bind; [apply keeps_this|]. intros x _.
  destruct (negb _); [by apply keeps_ret|]. destruct (_ =? TRB_TYPE_LINK).
  - apply keeps_seq; [|by apply IH, link_target_fits]. destruct (toggles trb); [|by apply keeps_ret].
    apply keeps_modify. by intros y [? ?].
  - apply keeps_seq; [by apply keeps_command|]. apply IH. by apply add_w_fits.
Qed.

Lemma keeps_run : kc run (fun _ => True).
Proof.
  eapply keeps_bind; [apply keeps_this|]. intros x [Ht Hd]. destruct (_ || _); [by apply keeps_ret|].
  eapply keeps_bind; [by apply keeps_run_loop|]. intros ptr Hp. apply keeps_modify. by intros y [? _].
Qed.

Section transfer.
Context (s0 : Slot).
Notation kx := (keeps (M := M) (xfer_ok s0) base size).

Lemma on_slot_ok f x : gentle f -> xfer_ok s0 x -> xfer_ok s0 (on_slot f x).
Proof.
  intros [F1 F2] (H1 & (E1 & E2 & E3) & H3). split; [by apply F1|]. split; [|done]. cbn [on_slot fst].
  destruct (F2 x.1) as (D1 & D2 & D3). unfold same_device. by rewrite D1, D2, D3.
Qed.

Lemma submit_ok j x : job_ok j -> xfer_ok s0 x -> xfer_ok s0 (submit j x).
Proof. intros Hj (H1 & H2 & H3). split; [done|]. split; [done|]. cbn. rewrite Forall_app. auto. Qed.

Lemma keeps_on_slot f : gentle f -> kx (modify (on_slot f)) (fun _ => True).
Proof. intros Hf. apply keeps_modify. intros x. by apply on_slot_ok. Qed.

Lemma byte_lists_fit kind : Forall (fits 8) (report_desc kind) /\ Forall (fits 8) (config_bundle kind 8) /\
  Forall (fits 8) (device_descriptor 0x0627 0x0001).
Proof. destruct kind; split; [|split| |split]; by apply all_bytes_fits. Qed.

Lemma descriptor_fits hid setup : Forall (fits 8) (descriptor hid setup).
Proof.
  destruct (byte_lists_fit hid) as (H1 & H2 & H3). unfold descriptor. destruct (_ && _); [|constructor].
  destruct (_ =? DESC_DEVICE); [done|]. destruct (_ =? DESC_CONFIG); [done|]. by destruct (_ =? DESC_REPORT).
Qed.

Lemma keeps_setup_data_out setup ptr : kx (setup_data_out setup ptr) (fun _ => True).
Proof.
  unfold setup_data_out. destruct (_ && _) eqn:E; [|by apply keeps_ret]. apply andb_true_iff in E as [_ E].
  eapply keeps_bind; [apply keeps_read_trb, (wrap_fits 64); lia|]. intros trb [Hp _]. destruct (_ =? _); [|by apply keeps_ret].
  eapply keeps_weaken; [apply keeps_read; [apply Hp|lia]|done].
Qed.

Lemma keeps_handle_setup worker trb slot_id ptr :
  trb_fits trb -> fits 64 ptr -> kx (handle_setup worker trb slot_id ptr) (fun _ => True).
Proof.
  intros [Hp _] Hptr. pose proof (keeps_post (M := M) (xfer_ok s0) base size Hsize) as Hpost. unfold handle_setup.
  eapply keeps_bind; [apply keeps_read; [apply Hp|lia]|]. intros bs [Hf Hl]. destruct (setup_from_bytes_8 bs Hf Hl) as (setup & -> & Hs).
  eapply keeps_bind; [apply keeps_this|]. intros x _. destruct (s_passthrough x.1).
  - destruct worker; [|by apply keeps_seq; [apply Hpost|apply keeps_ret]].
    eapply keeps_bind; [apply keeps_setup_data_out|]. intros out _. apply keeps_seq; [apply keeps_modify; intros y; by apply submit_ok|].
    apply keeps_seq; [apply keeps_on_slot, gentle_busy|by apply keeps_ret].
  - apply keeps_seq; [|by apply keeps_seq; [apply Hpost|apply keeps_ret]].
    destruct (_ && _); [|by apply keeps_ret]. apply keeps_on_slot, gentle_pending, Forall_take, descriptor_fits.
Qed.

Lemma keeps_forward_pipe worker slot_id dci trb ptr :
  trb_fits trb -> fits 64 ptr -> kx (forward_pipe worker slot_id dci trb ptr) (fun _ => True).
Proof.
  intros [Hp _] Hptr. eapply keeps_bind; [apply keeps_this|]. intros x _. cbn zeta. destruct worker; [|by apply keeps_ret].
  destruct (match s_endpoint_addr x.1 !! Z.to_nat dci with Some a => _ | None => _ end) as [e|]; [|by apply keeps_ret].
  apply keeps_seq; [apply keeps_modify; intros y; by apply submit_ok|].
  apply keeps_seq; [|by apply keeps_ret]. apply keeps_on_slot, gentle_ring_mut. by intros r Hr.
Qed.

Lemma keeps_transfer_trb worker slot_id dci trb ptr :
  trb_fits trb -> fits 64 ptr -> kx (transfer_trb worker slot_id dci trb ptr) (fun _ => True).
Proof.
  intros Ht Hptr. pose proof (keeps_post (M := M) (xfer_ok s0) base size Hsize) as Hpost. unfold transfer_trb.
  destruct (_ =? TRB_TYPE_SETUP_STAGE); [by apply keeps_handle_setup|].
  destruct (_ || _).
  { eapply keeps_bind; [apply keeps_this|]. intros x (Hx & _). destruct (_ && _); [by apply keeps_forward_pipe|].
    destruct (negb _); [|by destruct (_ =? _); [apply keeps_seq; [apply Hpost|]|]; apply keeps_ret].
    apply keeps_seq; [apply keeps_write; [apply Ht|apply Forall_take, Hx]|].
    apply keeps_seq; [by apply keeps_on_slot, gentle_pending|]. apply keeps_seq; [apply Hpost|by apply keeps_ret]. }
  destruct (_ =? TRB_TYPE_STATUS_STAGE).
  - eapply keeps_bind; [apply keeps_this|]. intros x _. apply keeps_seq; [|by apply keeps_ret]. destruct (_ || _); [apply Hpost|by apply keeps_ret].
  - apply keeps_seq; [apply Hpost|by apply keeps_ret].
Qed.

Lemma keeps_transfer_loop worker slot_id dci n ptr cyc :
  fits 64 ptr -> kx (transfer_loop worker slot_id dci n ptr cyc) (fun r => fits 64 r.1.1).
Proof.
  revert ptr cyc. induction n as [|n IH]; intros ptr cyc Hp; [by apply keeps_ret|]. cbn [transfer_loop].
  eapply keeps_bind; [apply keeps_read_trb, Hp|]. intros trb Ht. destruct (negb _); [by apply keeps_ret|].
  destruct (_ =? TRB_TYPE_LINK); [by apply IH, link_target_fits|].
  eapply keeps_bind; [by apply keeps_transfer_trb|]. intros [] _; [by apply keeps_ret|]. apply IH. by apply add_w_fits.
Qed.

Lemma ep_ring_ok s dci : slot_ok s -> ep_ok (ep_ring s dci).
Proof.
  intros Hs. unfold ep_ring. destruct (choose s dci) as [| |i]; [apply Hs|apply Hs|]. destruct (s_ep_by_dci s !! i) as [r|] eqn:E; [|apply Hs].
  eapply list.Forall_lookup_1; [apply so_dci|]; done.
Qed.

Lemma keeps_process_transfer worker slot_id dci : kx (process_transfer worker slot_id dci) (fun _ => True).
Proof.
  eapply keeps_bind; [apply keeps_this|]. intros x (Hx & _). cbn zeta. do 3 (destruct (_ && _); [by apply keeps_ret|]).
  eapply keeps_bind; [apply keeps_transfer_loop; destruct (dci =? 0); [apply Hx|by apply ep_ring_ok]|].
  intros [[ptr cyc] hold] Hp. cbn [fst] in Hp. destruct hold; [by apply keeps_ret|].
  apply keeps_on_slot. destruct (dci =? 0); [apply gentle_ep0|apply gentle_ring_mut]; by apply ep_at_gentle.
Qed.
End transfer.
End keeps.

(** The line the hook last drove. *)
Definition level (x : Xhci) : bool := default false (head (x_calls x)).

Record x_ok (x : Xhci) : Prop := {
  xo_usbcmd : fits 32 (x_usbcmd x);
  xo_usbsts : fits 32 (x_usbsts x);
  xo_iman : fits 32 (x_iman x);
  xo_config : fits 8 (x_config x);
  xo_dcbaap : fits 64 (x_dcbaap x);
  xo_crcr : fits 64 (x_crcr x);
  xo_erst_base : fits 64 (x_erst_base x);
  xo_erst_size : fits 16 (x_erst_size x);
  xo_erdp : fits 64 (x_erdp x);
  xo_ev_base : e_base (x_events x) = x_erst_base x;
  xo_ev_size : e_size (x_events x) = x_erst_size x;
  xo_ev_index : fits 32 (e_index (x_events x));
  xo_dequeue : fits 64 (cr_dequeue (x_cmd x));
  xo_table : table_ok (x_slots x);
  xo_jobs : Forall job_ok (x_jobs x);
  xo_line : x_hook x = true -> level x = Z.testbit (x_iman x) 0;
}.

Definition done_ok (d : Done) : Prop :=
  job_ok (dn_job d) /\ Forall (fits 8) (dn_buf d) /\ fits 32 (dn_bytes d) /\
  match dn_job d with Pipe j => pj_is_in j = true -> dn_bytes d <= Z.of_nat (length (dn_buf d)) | Control _ => True end.

Definition state_ok {M} `{!ByteMemory M} (s : State M) : Prop :=
  x_ok (st_x s) /\ bm_inv (st_mem s) /\ forall d, st_worker s = Some d -> done_ok d.

(** What a host device does with the buffer it is given: it fills it in place
    and, for a read, reports no more bytes than it holds. *)
Definition fills (out : option (list Z)) (buf : list Z) (r : result HostUsbError nat * list Z) : Prop :=
  length r.2 = length buf /\ Forall (fits 8) r.2 /\ forall n, r.1 = Ok n -> out = None -> (n <= length buf)%nat.

Record backend_ok (b : Backend) : Prop := {
  bo_control setup out buf : Forall (fits 8) buf -> fills out buf (control_transfer b setup out buf);
  bo_pipe ep out buf : Forall (fits 8) buf -> fills out buf (pipe_transfer b ep out buf);
}.

Definition action_ok (a : Action) : Prop :=
  match a with
  | GuestWrite offset size val => 0 <= offset /\ fits 64 val
  | GuestStore gpa data => 0 <= gpa /\ Forall (fits 8) data
  | HidReport _ data => Forall (fits 8) data
  | Take backends => Forall (fun pb => backend_ok pb.2) backends
  | Finish => True
  | Unplug port => fits 8 port
  end.

(** *** Registers *)

Lemma fits_div2 w x : fits (2 * w) x -> 0 <= w -> fits w (Z.shiftr x w).
Proof.
  intros [H1 H2] Hw. rewrite Z.shiftr_div_pow2 by done. unfold fits. pose proof (Z.pow_pos_nonneg 2 w ltac:(lia) Hw).
  split; [apply Z.div_pos; lia|]. apply Z.div_lt_upper_bound; [lia|]. replace (2 * w) with (w + w) in H2 by lia. rewrite Z.pow_add_r in H2 by lia. lia.
Qed.

Lemma with_lo_fits v w : fits 64 v -> fits 32 w -> fits 64 (with_lo v w).
Proof. intros Hv Hw. apply lor_fits; [lia| |by eapply fits_weaken; [|exact Hw]]. apply land_fits_l; [done|lia]. Qed.

Lemma with_hi_fits v w : fits 64 v -> fits 32 w -> fits 64 (with_hi v w).
Proof.
  intros Hv Hw. apply lor_fits; [lia|apply land_fits_l; [done|lia]|]. rewrite Z.shiftl_mul_pow2 by lia. unfold fits in *. lia.
Qed.

Lemma not_w_nonneg w x : fits w x -> 0 <= not_w w x.
Proof. unfold fits, not_w. lia. Qed.

Lemma iman_ack iman word :
  fits 32 iman -> fits 32 word ->
  let iman := Z.land iman (not_w 32 IMAN_IP) in
  Z.testbit (Z.lor (Z.lor (Z.land iman (not_w 32 IMAN_IE)) (Z.land word IMAN_IE)) (Z.land iman IMAN_IP)) 0 = false.
Proof. intros Hi Hw iman'. unfold iman'. rewrite !Z.lor_spec, !Z.land_spec. change (Z.testbit (not_w 32 IMAN_IP) 0) with false.
  change (Z.testbit IMAN_IE 0) with false. by rewrite !andb_false_r. Qed.

Lemma iman_keep iman word :
  Z.testbit (Z.lor (Z.lor (Z.land iman (not_w 32 IMAN_IE)) (Z.land word IMAN_IE)) (Z.land iman IMAN_IP)) 0 = Z.testbit iman 0.
Proof. rewrite !Z.lor_spec, !Z.land_spec. change (Z.testbit (not_w 32 IMAN_IE) 0) with true. change (Z.testbit IMAN_IE 0) with false.
  change (Z.testbit IMAN_IP 0) with true. by destruct (Z.testbit iman 0), (Z.testbit word 0). Qed.

Lemma iman_fits iman word : fits 32 iman -> fits 32 word ->
  fits 32 (Z.lor (Z.lor (Z.land iman (not_w 32 IMAN_IE)) (Z.land word IMAN_IE)) (Z.land iman IMAN_IP)).
Proof. intros Hi Hw. apply lor_fits; [lia| |by apply land_fits_l]. apply lor_fits; [lia|by apply land_fits_l|by apply land_fits_l]. Qed.

Lemma pulse_irq_ok x : x_ok x -> x_ok (pulse_irq x).
Proof.
  intros []. split; cbn -[Z.testbit]; try done.
  - by apply lor_fits.
  - by apply lor_fits.
  - intros Hh. unfold level. cbn [pulse_irq write_iman set_status x_calls]. unfold call. cbn [x_hook set_status]. rewrite Hh. cbn [head default]. by rewrite Z.lor_spec, orb_true_r.
Qed.

Lemma write_usbcmd_ok val x : x_ok x -> fits 32 val -> x_ok (write_usbcmd val x).
Proof.
  intros [] Hv. unfold write_usbcmd. destruct (negb _); split; cbn -[Z.testbit]; try done.
  - by apply land_fits_l.
  - destruct (negb _); [by apply land_fits_l|done].
Qed.

Lemma write_iman_ok word x : x_ok x -> fits 32 word -> x_ok (write_iman word x).
Proof.
  intros [] Hw. unfold write_iman. destruct (negb _); split; cbn -[Z.testbit]; try done.
  - by apply land_fits_l.
  - apply iman_fits; [by apply land_fits_l|done].
  - intros Hh. unfold level. cbn [pulse_irq write_iman set_status x_calls]. unfold call. cbn [x_hook set_status]. rewrite Hh. cbn [head default]. by rewrite iman_ack.
  - by apply iman_fits.
  - intros Hh. rewrite iman_keep. by apply xo_line0.
Qed.

Lemma set_slots_ok t x : x_ok x -> table_ok t -> x_ok (set_x_slots t x).
Proof. intros [] Ht. by split. Qed.

Lemma set_work_ok cmd ev t jobs x :
  x_ok x -> fits 64 (cr_dequeue cmd) -> e_base ev = x_erst_base x -> e_size ev = x_erst_size x -> fits 32 (e_index ev) ->
  table_ok t -> Forall job_ok jobs -> x_ok (set_work cmd ev t jobs x).
Proof. intros []. by split. Qed.

Lemma erdp_index_fits a b : fits 32 (erdp_index a b).
Proof. apply wrap_fits. lia. Qed.

Lemma land_not_fits w a m : fits w a -> fits w m -> fits w (Z.land a (not_w w m)).
Proof. intros Ha Hm. apply land_fits_l; [done|by apply not_w_nonneg]. Qed.

Lemma slot_replace id s s' t :
  table_ok t -> slot t id = Some s -> slot_ok s' -> same_device s s' -> table_ok (slot_mut id (fun _ => s') t).
Proof.
  intros Ht Hs Hok Hd. apply slot_Some in Hs as (i & Ei & Hi). unfold slot_mut. rewrite Ei.
  replace (alter (fun _ => s') i (slots t)) with (alter (fun x => if decide (same_device x s') then s' else x) i (slots t)).
  - apply alter_slot_ok; [done|intros x Hx; by destruct (decide _)|]. intros x. by destruct (decide _).
  - apply list_eq. intros j. destruct (decide (j = i)) as [->|]; [|by rewrite !list_lookup_alter_ne].
    rewrite !list_lookup_alter_eq, Hi. cbn. by rewrite decide_True.
Qed.

Section whole.
Context {M : Type} `{!ByteMemory M}.
Implicit Types (mem : M).

Lemma ring_doorbell_ok slot_id target x mem :
  x_ok x -> bm_inv mem -> x_ok (ring_doorbell slot_id target x mem).1 /\ bm_inv (ring_doorbell slot_id target x mem).2.
Proof.
  intros Hx Hm. unfold ring_doorbell. pose proof Hx as []. destruct (slot_id =? 0).
  - pose proof (keeps_run (M := M) (x_erst_base x) (x_erst_size x) xo_erst_size0 {| k_mem := mem; k_ev := x_events x; k_at := (x_slots x, x_cmd x) |}) as H.
    destruct (run _) as [k r]. destruct H as [(H1 & H2 & H3 & H4 & H5 & H6) _]; [by split|]. cbn [fst snd] in *.
    assert (x_ok (set_work (k_at k).2 (k_ev k) (k_at k).1 (x_jobs x) x)) by by apply set_work_ok.
    split; [|done]. destruct (is_ok r); [by apply pulse_irq_ok|done].
  - destruct (slot (x_slots x) slot_id) as [s|] eqn:Es; [|by split]. pose proof (slot_is_ok _ _ _ xo_table0 Es) as Hs.
    pose proof (keeps_process_transfer (M := M) (x_erst_base x) (x_erst_size x) xo_erst_size0 s (x_passthrough x) slot_id target {| k_mem := mem; k_ev := x_events x; k_at := (s, x_jobs x) |}) as H.
    destruct (process_transfer _ _ _ _) as [k r]. destruct H as [(H1 & H2 & H3 & H4 & H5 & H6 & H7) _]; [by split|]. cbn [fst snd] in *.
    assert (x_ok (set_work (x_cmd x) (k_ev k) (slot_mut slot_id (fun _ => (k_at k).1) (x_slots x)) (k_at k).2 x)).
    { apply set_work_ok; try done. by eapply slot_replace. }
    split; [|done]. destruct (is_ok r); [by apply pulse_irq_ok|done].
Qed.

Lemma write_word_ok o word x mem :
  x_ok x -> bm_inv mem -> fits 32 word -> x_ok (write_word o word x mem).1 /\ bm_inv (write_word o word x mem).2.
Proof.
  intros Hx Hm Hw. unfold write_word. pose proof Hx as [].
  assert (H3f : fits 32 (Z.land word (not_w 32 0x3f))) by (apply land_not_fits; [done|fits_closed]).
  assert (Hf : fits 32 (Z.land word (not_w 32 0xf))) by (apply land_not_fits; [done|fits_closed]).
  destruct (o =? USBCMD); [split; [by apply write_usbcmd_ok|done]|].
  destruct (o =? CRCR).
  { split; [|done]. pose proof (with_lo_fits _ _ xo_crcr0 H3f). split; cbn [set_command]; try done. cbn. apply land_not_fits; [done|fits_closed]. }
  destruct (o =? CRCR_HI); [split; [split; cbn; try done; by apply with_hi_fits|done]|].
  destruct (o =? CONFIG). { split; [|done]. split; cbn; try done. rewrite (land_low _ 8) by done. apply wrap_fits. lia. }
  destruct (o =? DCBAAP); [split; [split; cbn; try done; by apply with_lo_fits|done]|].
  destruct (o =? DCBAAP_HI); [split; [split; cbn; try done; by apply with_hi_fits|done]|].
  destruct (o =? rt_iman 0); [split; [by apply write_iman_ok|done]|].
  destruct (o =? rt_erstsz 0). { split; [|done]. split; cbn; try done. apply wrap_fits. lia. }
  destruct (o =? rt_erstba 0); [split; [split; cbn; try done; by apply with_lo_fits|done]|].
  destruct (o =? rt_erstba 0 + 4); [split; [split; cbn; try done; by apply with_hi_fits|done]|].
  destruct (o =? rt_erdp 0).
  { split; [|done]. split; cbn [write_erdp set_erst]; try done; cbn; [by apply with_lo_fits|apply erdp_index_fits]. }
  destruct (in_portsc o); [split; [by apply set_slots_ok; [|apply write_portsc_ok]|done]|].
  destruct (o =? USBSTS).
  { split; [|done]. split; cbn; try done. apply land_not_fits; [done|]. by apply land_fits_l. }
  destruct (_ && _); [by apply ring_doorbell_ok|done].
Qed.

Lemma xhci_write_ok offset size val x mem :
  x_ok x -> bm_inv mem -> fits 64 val -> x_ok (write offset size val x mem).1 /\ bm_inv (write offset size val x mem).2.
Proof.
  intros Hx Hm Hv. unfold write. pose proof Hx as []. destruct (negb _); [done|].
  destruct (_ && (offset =? CRCR)).
  { split; [|done]. assert (fits 64 (Z.land val (not_w 64 0x3f))) by (apply land_not_fits; [done|fits_closed]). by split. }
  destruct (_ && (offset =? DCBAAP)); [split; [by split|done]|].
  destruct (_ && (offset =? rt_erstba 0)); [split; [by split|done]|].
  destruct (_ && (offset =? rt_erdp 0)).
  { split; [|done]. split; cbn [write_erdp set_erst]; try done; cbn; [apply land_not_fits; [done|fits_closed]|apply erdp_index_fits]. }
  apply write_word_ok; [done|done|]. apply wrap_fits. lia.
Qed.

Lemma queue_hid_report_ok kind data x : x_ok x -> Forall (fits 8) data -> x_ok (queue_hid_report kind data x).
Proof.
  intros Hx Hd. unfold queue_hid_report. destruct (slot_for_port _ _); [|done]. apply set_slots_ok; [done|].
  apply gentle_slot_mut; [by apply gentle_pending|apply Hx].
Qed.

Lemma disconnect_x_ok port x : x_ok x -> fits 8 port -> x_ok (handle_host_usb_disconnect port x).
Proof.
  intros Hx Hp. unfold handle_host_usb_disconnect. pose proof (disconnect_ok port (x_slots x) (xo_table _ Hx) Hp) as H.
  destruct (disconnect_passthrough_port port (x_slots x)) as [id t]. cbn in H. pose proof (set_slots_ok t x Hx H).
  destruct id; [by apply pulse_irq_ok|done].
Qed.
End whole.

Section worker_facts.
Context {M : Type} `{!ByteMemory M}.
Implicit Types (mem : M).

Lemma backend_of_ok backends port b :
  Forall (fun pb => backend_ok pb.2) backends -> backend_of backends port = Some b -> backend_ok b.
Proof.
  intros Hf H. apply find_map_Some_lookup in H as (i & [p b'] & Hi & E). cbn in E. destruct (p =? port); [|done].
  injection E as ->. exact (list.Forall_lookup_1 _ _ _ _ Hf Hi).
Qed.

Lemma outcome_ok job out buf r :
  job_ok job -> (length buf <= Z.to_nat 65536)%nat -> fills out buf r ->
  match job with Pipe j => pj_is_in j = true -> out = None | Control _ => True end -> done_ok (outcome job r).
Proof.
  intros Hj Hlen (H1 & H2 & H3) Ho. destruct r as [[n|e] buf']; cbn [fst snd] in *; (split; [done|]); (split; [done|]); cbn [outcome dn_bytes dn_job dn_buf].
  - split; [apply wrap_fits; lia|]. destruct job as [j|j]; [done|]. intros Hi. specialize (H3 n eq_refl (Ho Hi)).
    rewrite wrap_small by (unfold fits; lia). lia.
  - split; [unfold fits; lia|]. destruct job; [done|]. lia.
Qed.

Lemma begin_ok backends job mem d :
  Forall (fun pb => backend_ok pb.2) backends -> bm_inv mem -> job_ok job -> begin backends job mem = Ok d -> done_ok d.
Proof.
  intros Hb Hm Hj. destruct job as [j|j]; cbn [begin].
  - unfold begin_control. destruct (backend_of backends (cj_port j)) as [b|] eqn:Eb; [|done]. cbn. intros [= <-].
    apply backend_of_ok in Eb; [|done]. eapply outcome_ok; [done| |apply bo_control; [done|apply zeros_fit]|done].
    rewrite length_replicate. lia.
  - unfold begin_pipe. destruct (backend_of backends (pj_port j)) as [b|] eqn:Eb; [|done]. cbn. apply backend_of_ok in Eb; [|done].
    destruct (pj_is_in j) eqn:Hin.
    + intros [= <-]. eapply outcome_ok; [done| |apply bo_pipe; [done|apply zeros_fit]|done]. rewrite length_replicate. lia.
    + destruct (bm_read _ _ _) as [out|]; [|done]. intros [= <-].
      eapply outcome_ok; [done| |apply bo_pipe; [done|constructor]|]; [cbn; lia|]. by rewrite Hin.
Qed.

Section finish.
Context (base size : Z).
Hypothesis Hsize : fits 16 size.
Notation kt := (keeps (M := M) table_ok base size).

Lemma keeps_slot_mut id f : gentle f -> kt (modify (slot_mut id f)) (fun _ => True).
Proof. intros Hf. apply keeps_modify. intros t. by apply gentle_slot_mut. Qed.

Lemma keeps_finish_control job code bytes buf :
  fits 64 (cj_setup_trb_ptr job) -> Forall (fits 8) buf -> kt (finish_ep0_control job code bytes buf) (fun _ => True).
Proof.
  intros Hp Hb. pose proof (keeps_post (M := M) table_ok base size Hsize) as Hpost. unfold finish_ep0_control, post_passthrough_completion.
  apply keeps_seq; [apply Hpost|]. destruct (negb (code =? CC_SUCCESS)); [apply keeps_slot_mut, gentle_busy|].
  assert (H64 : forall a b, fits 64 (add_w 64 a b)) by (intros; apply wrap_fits; lia).
  eapply (keeps_bind _ _ _ _ _ (fits 64)).
  - destruct (_ && (0 <? bytes)).
    + eapply keeps_bind; [apply keeps_read_trb, H64|]. intros trb [Ht _]. destruct (_ =? _); [|by apply keeps_ret].
      apply keeps_seq; [apply keeps_write; [apply Ht|by apply Forall_take]|]. apply keeps_seq; [apply Hpost|by apply keeps_ret].
    + destruct (_ && _); by apply keeps_ret.
  - intros ptr Hptr. eapply keeps_bind; [apply keeps_read_trb, Hptr|]. intros trb _.
    eapply (keeps_bind _ _ _ _ _ (fits 64)).
    + destruct (_ =? _); [apply keeps_seq; [apply Hpost|]|]; by apply keeps_ret.
    + intros p Hp'. apply keeps_slot_mut. apply (gentle_comp (set_ep0 _) (set_ep0_busy false)); [apply gentle_ep0; by intros r Hr|apply gentle_busy].
Qed.

Lemma keeps_finish_pipe job code bytes buf :
  fits 64 (pj_data_gpa job) -> Forall (fits 8) buf -> kt (finish_pipe job code bytes buf) (fun _ => True).
Proof.
  intros Hp Hb. apply keeps_seq; [destruct (_ && _); [apply keeps_write; [apply Hp|by apply Forall_take]|by apply keeps_ret]|].
  apply keeps_seq; [by apply keeps_post|]. apply keeps_slot_mut, gentle_ring_mut, ep_busy_gentle. intros r _. apply (wrap_fits 64). lia.
Qed.
End finish.

Lemma usb_finish_ok d x mem :
  done_ok d -> x_ok x -> bm_inv mem -> exists r x' mem', finish d x mem = Some (r, x', mem') /\ x_ok x' /\ bm_inv mem'.
Proof.
  intros (Hj & Hf & Hb & Hl) Hx Hm. unfold finish. pose proof Hx as []. destruct (dn_job d) as [j|j] eqn:Ej.
  - pose proof (keeps_finish_control (x_erst_base x) (x_erst_size x) xo_erst_size0 j (dn_code d) (dn_bytes d) (dn_buf d) (proj2 Hj) Hf {| k_mem := mem; k_ev := x_events x; k_at := x_slots x |}) as H.
    destruct (finish_ep0_control _ _ _ _ _) as [k r]. destruct H as [(H1 & H2 & H3 & H4 & H5) _]; [by split|]. cbn [fst snd] in *.
    assert (x_ok (set_work (x_cmd x) (k_ev k) (k_at k) (x_jobs x) x)) by by apply set_work_ok.
    eexists _, _, _. split; [done|]. split; [|done]. destruct (is_ok r); [by apply pulse_irq_ok|done].
  - replace (pj_is_in j && (Z.of_nat (length (dn_buf d)) <? dn_bytes d)) with false.
    2: { destruct (pj_is_in j); cbn; [|done]. specialize (Hl eq_refl). symmetry. apply Z.ltb_ge. lia. }
    pose proof (keeps_finish_pipe (x_erst_base x) (x_erst_size x) xo_erst_size0 j (dn_code d) (dn_bytes d) (dn_buf d) (proj2 Hj) Hf {| k_mem := mem; k_ev := x_events x; k_at := x_slots x |}) as H.
    destruct (finish_pipe _ _ _ _ _) as [k r]. destruct H as [(H1 & H2 & H3 & H4 & H5) _]; [by split|]. cbn [fst snd] in *.
    assert (x_ok (set_work (x_cmd x) (k_ev k) (k_at k) (x_jobs x) x)) by by apply set_work_ok.
    eexists _, _, _. split; [done|]. split; [|done]. destruct (is_ok r); [by apply pulse_irq_ok|done].
Qed.

Lemma usb_step_ok a (s : State M) : state_ok s -> action_ok a -> exists s', step a s = Some s' /\ state_ok s'.
Proof.
  intros Hs Ha. pose proof Hs as (Hx & Hm & Hw). destruct a as [o sz v|gpa data|kind data|backends| |port]; cbn [step].
  - destruct Ha as [_ Hv]. pose proof (xhci_write_ok o sz v _ _ Hx Hm Hv) as [H1 H2]. destruct (write _ _ _ _ _). eexists; split; [done|]. by split.
  - destruct Ha as [Hg Hd]. destruct (bm_write _ _ _) as [m|] eqn:E; [|by exists s].
    destruct (bm_write_spec _ _ _ _ Hm Hg Hd E) as [? _]. eexists; split; [done|]. by split.
  - eexists; split; [done|]. split; [by apply queue_hid_report_ok|done].
  - destruct (st_worker s) as [d|] eqn:Ew; [by exists s|]. destruct (x_jobs (st_x s)) as [|job jobs] eqn:Ej; [by exists s|].
    pose proof Hx as []. rewrite Ej in xo_jobs0. apply list.Forall_cons in xo_jobs0 as [Hj Hjs].
    eexists; split; [done|]. split; [by apply set_work_ok|]. split; [done|]. cbn. intros d.
    destruct (begin backends job (st_mem s)) as [d'|] eqn:E; [|done]. intros [= <-]. by eapply begin_ok.
  - destruct (st_worker s) as [d|] eqn:Ew; [|by exists s].
    destruct (usb_finish_ok d (st_x s) (st_mem s)) as (r & x' & m' & -> & ? & ?); [by apply Hw|done|done|]. eexists; split; [done|]. by split.
  - destruct (st_worker s) eqn:Ew; [by exists s|]. eexists; split; [done|]. split; [by apply disconnect_x_ok|done].
Qed.

Lemma steps_ok actions (s : State M) :
  state_ok s -> Forall action_ok actions -> exists s', steps actions s = Some s' /\ state_ok s'.
Proof.
  revert s. induction actions as [|a actions IH]; intros s Hs Ha; [by exists s|].
  apply list.Forall_cons in Ha as [Ha Has]. destruct (usb_step_ok a s Hs Ha) as (s1 & E & Hs1). cbn. rewrite E. by apply IH.
Qed.
End worker_facts.

Lemma usb_attach_ok base entries bindings x : attach_shared_with_passthrough base entries bindings = Ok x -> x_ok x.
Proof.
  unfold attach_shared_with_passthrough, new_with_irq. destruct (negb _); [done|]. cbn [mbind result_bind].
  assert (Ht : table_ok (configure_passthrough_ports entries (slots_new MAX_SLOTS))).
  { apply configure_ports_ok; [apply slots_new_ok|]. by apply Forall_replicate. }
  intros [= <-]. destruct bindings; split; cbn -[configure_passthrough_ports slots_new]; try done; fits_closed.
Qed.

(** ** The command ring as a service

    [fetch] is the list of commands the guest has queued, read from its memory
    before anything is executed; [exec] is what one command does to the slot
    table, the code it completes with and the memory it reads. *)

(** The endpoints an input context adds, and where its context of one lies. *)
Definition added (flags : Z) : list Z := filter (fun dci => Z.land flags (Z.shiftl 1 dci) <> 0) (seqZ 1 31).
Definition context_at (gpa dci : Z) : Z := add_w 64 gpa ((1 + dci) * CONTEXT_SIZE).

(** The rings of these endpoints, in the slot. *)
Definition set_rings (id : Z) (eps : list (Z * Z)) (t : SlotTable) : SlotTable :=
  foldl (fun t ep => slot_mut id (set_endpoint_ring ep.1 ep.2 true (dci_to_usb_endpoint ep.1)) t) t eps.

Section exec.
Context {M : Type} `{!ByteMemory M}.
Implicit Types (mem : M).

Definition context_ring mem (gpa dci : Z) : option (Z * Z) :=
  match bm_read mem (context_at gpa dci) 64 with Ok ctx => Some (dci, of_le (take 8 (drop 8 ctx))) | Err _ => None end.

(** What an input context says: the endpoints and their rings, and what was read;
    [None] when part of it is not mapped. *)
Definition input_context mem (gpa : Z) : option (list (Z * Z) * list (Z * Z)) :=
  match bm_read mem gpa 8 with
  | Err _ => None
  | Ok icc =>
      let dcis := added (of_le (take 4 icc)) in
      match mapM (context_ring mem gpa) dcis with
      | None => None
      | Some eps => Some (eps, (gpa, 8) :: ((fun dci => (context_at gpa dci, 64)) <$> dcis))
      end
  end.

Definition exec mem (t : SlotTable) (trb : Trb) : option (SlotTable * Z * list (Z * Z)) :=
  let id := Z.land (Z.shiftr (t_control trb) 24) 0xff in
  let ty := trb_type trb in
  if ty =? TRB_TYPE_ENABLE_SLOT then
    match enable_slot t with Some (_, t') => Some (t', CC_SUCCESS, []) | None => Some (t, CC_TRB_ERROR, []) end
  else if ty =? TRB_TYPE_DISABLE_SLOT then
    let '(freed, t') := disable_slot id t in Some (t', if freed : bool then CC_SUCCESS else CC_TRB_ERROR, [])
  else if ty =? TRB_TYPE_ADDRESS_DEVICE then
    Some (t, match slot t id with Some _ => CC_SUCCESS | None => CC_TRB_ERROR end, [])
  else if ty =? TRB_TYPE_CONFIGURE_EP then
    match slot t id with
    | Some s =>
        if s_passthrough s then
          match input_context mem (t_param trb) with
          | Some (eps, reads) => Some (set_rings id eps t, CC_SUCCESS, reads)
          | None => None
          end
        else Some (slot_mut id (configure_hid (t_param trb)) t, CC_SUCCESS, [])
    | None => Some (t, CC_TRB_ERROR, [])
    end
  else Some (t, if ty =? TRB_TYPE_NOOP then CC_SUCCESS else CC_TRB_ERROR, []).

(** Commands in order; the completions name them by their address. *)
Fixpoint exec_all mem (t : SlotTable) (cmds : list (Z * Trb)) : option (SlotTable * list Event * list (Z * Z)) :=
  match cmds with
  | [] => Some (t, [], [])
  | (ptr, trb) :: cmds =>
      match exec mem t trb with
      | None => None
      | Some (t, code, reads) =>
          match exec_all mem t cmds with
          | None => None
          | Some (t, vs, more) => Some (t, {| v_type := 33; v_param := ptr; v_status := code |} :: vs, reads ++ more)
          end
      end
  end.
End exec.

Record Fetched := { f_visited : list Z; f_cmds : list (Z * Trb); f_end : Z; f_cycle : bool }.

Section served.
Context {M : Type} `{!ByteMemory M}.
Implicit Types (mem : M).

Fixpoint fetch mem (n : nat) (ptr : Z) (cyc : bool) : option Fetched :=
  match n with
  | O => Some {| f_visited := []; f_cmds := []; f_end := ptr; f_cycle := cyc |}
  | S n =>
      match trb_at mem ptr with
      | None => None
      | Some trb =>
          if negb (eqb (cycle trb) cyc) then Some {| f_visited := [ptr]; f_cmds := []; f_end := ptr; f_cycle := cyc |}
          else if trb_type trb =? TRB_TYPE_LINK then
            match fetch mem n (link_target trb) (if toggles trb then negb cyc else cyc) with
            | None => None
            | Some f => Some {| f_visited := ptr :: f_visited f; f_cmds := f_cmds f; f_end := f_end f; f_cycle := f_cycle f |}
            end
          else
            match fetch mem n (add_w 64 ptr 16) cyc with
            | None => None
            | Some f => Some {| f_visited := ptr :: f_visited f; f_cmds := (ptr, trb) :: f_cmds f; f_end := f_end f;
                                f_cycle := f_cycle f |}
            end
      end
  end.

Lemma read_trb_at {X} a (k : Ring M X) t : trb_at (k_mem k) a = Some t -> read_trb a k = (k, Ok t).
Proof. unfold trb_at, read_trb, read_bytes. destruct (bm_read (k_mem k) a 16) as [bs|]; [|done]. by intros ->. Qed.

Lemma post_command_produce {X} slot_id code ptr (k : Ring M X) mem' e' :
  ring_placed (k_mem k) (k_ev k) -> fits 8 code ->
  produce [{| v_type := 33; v_param := ptr; v_status := code |}] (k_mem k) (k_ev k) = Some (mem', e') ->
  post_command slot_id code ptr k = ({| k_mem := mem'; k_ev := e'; k_at := k_at k |}, Ok tt).
Proof.
  intros Hp Hc. destruct Hp. cbn [produce]. unfold post_command, trb_of. cbn [v_type v_param v_status].
  unfold mbind at 1, RM_bind, events. destruct (Z.eqb_spec (e_base (k_ev k)) 0); [lia|].
  assert (E : Z.land code 0xff = code) by (rewrite (land_low _ 8) by done; by apply (wrap_small 8)). rewrite E.
  unfold mbind, RM_bind, write_trb, write_bytes. destruct (bm_write _ _ _) as [m|]; [|done]. intros [= <- <-].
  unfold set_events. cbn [k_mem k_at]. by rewrite Z.max_l by lia.
Qed.

Lemma codes_fit mem t trb t' code reads : exec mem t trb = Some (t', code, reads) -> fits 8 code.
Proof.
  assert (fits 8 CC_SUCCESS /\ fits 8 CC_TRB_ERROR) as [H1 H2] by (split; fits_closed). unfold exec.
  repeat case_match; intros; simplify_eq; done.
Qed.

Lemma context_ring_fits mem gpa dci ep :
  bm_inv mem -> 1 <= dci < 32 -> context_ring mem gpa dci = Some ep -> gentle (set_endpoint_ring ep.1 ep.2 true (dci_to_usb_endpoint ep.1)).
Proof.
  intros Hm Hd. unfold context_ring. destruct (bm_read mem _ 64) as [ctx|] eqn:E; [|done]. intros [= <-]. cbn [fst snd].
  assert (Ha : 0 <= context_at gpa dci) by (apply (wrap_fits 64); lia). pose proof (bm_read_fits mem _ _ _ Hm Ha E) as Hf. apply bm_read_spec in E as (_ & Hl & _); [|done|done|lia].
  apply gentle_endpoint_ring; [apply (of_le_take_fits ctx 8 8); [done|lia]|]. intros a. apply dci_endpoint_fits. lia.
Qed.

Lemma added_range flags : Forall (fun dci => 1 <= dci < 32) (added flags).
Proof. apply list.Forall_forall. intros dci [_ Hd]%list_elem_of_filter. apply elem_of_seqZ in Hd. lia. Qed.

Lemma set_rings_ok mem gpa dcis eps id t :
  bm_inv mem -> Forall (fun dci => 1 <= dci < 32) dcis -> mapM (context_ring mem gpa) dcis = Some eps -> table_ok t -> table_ok (set_rings id eps t).
Proof.
  intros Hm Hd He. apply mapM_Some_1 in He. revert t. induction He as [|dci ep dcis eps E _ IH]; intros t Ht; [done|].
  apply list.Forall_cons in Hd as [Hd Hds]. apply (IH Hds). apply gentle_slot_mut; [by eapply context_ring_fits|done].
Qed.

Lemma exec_ok mem t trb t' code reads : bm_inv mem -> trb_fits trb -> table_ok t -> exec mem t trb = Some (t', code, reads) -> table_ok t'.
Proof.
  intros Hm [Hp _] Ht. unfold exec, input_context. pose proof (disable_slot_ok (Z.land (Z.shiftr (t_control trb) 24) 0xff) t Ht) as Hd.
  repeat case_match; intros; simplify_eq; try done;
    eauto using enable_slot_ok, gentle_slot_mut, configure_hid_gentle, set_rings_ok, added_range.
Qed.

Lemma enable_slot_id t id t' : table_ok t -> enable_slot t = Some (id, t') -> 1 <= id <= 8.
Proof.
  intros Ht. unfold enable_slot. destruct (position _ (slots t)) as [i|] eqn:Ei; [|done]. apply position_Some in Ei as (s & Hi & _).
  apply lookup_lt_Some in Hi. rewrite (to_slots _ Ht) in Hi. repeat case_match; intros; simplify_eq. rewrite wrap_small by (unfold fits; lia). lia.
Qed.

(** Memory that does not lie on the event ring. *)
Definition apart (e : EventRing) (r : Z * Z) : Prop := 0 <= r.1 /\ forall x, r.1 <= x < r.1 + r.2 -> ~ in_ring e x.

Lemma read_apart {X} mem0 a (n : nat) bs (k : Ring M X) :
  bm_inv mem0 -> agree (in_ring (k_ev k)) mem0 (k_mem k) -> apart (k_ev k) (a, Z.of_nat n) -> (0 < n)%nat -> bm_read mem0 a n = Ok bs ->
  read_bytes a n k = (k, Ok bs).
Proof. intros Hm Hag [Ha Hap] Hn Hr. unfold read_bytes. by rewrite (proj2 (bm_read_agree _ mem0 (k_mem k) a n bs Hm Hag Ha Hn Hap) Hr). Qed.

Lemma apply_contexts_rings mem0 gpa flags id n : forall dci eps (k : Ring M Cmd),
  bm_inv mem0 -> agree (in_ring (k_ev k)) mem0 (k_mem k) ->
  let dcis := filter (fun dci => Z.land flags (Z.shiftl 1 dci) <> 0) (seqZ dci (Z.of_nat n)) in
  mapM (context_ring mem0 gpa) dcis = Some eps -> Forall (apart (k_ev k)) ((fun dci => (context_at gpa dci, 64)) <$> dcis) ->
  apply_contexts (upd_slot id) gpa flags dci n k = ({| k_mem := k_mem k; k_ev := k_ev k; k_at := (set_rings id eps (k_at k).1, (k_at k).2) |}, Ok tt).
Proof.
  induction n as [|n IH]; intros dci eps k Hm Hag dcis He Hap.
  { cbn in He. injection He as <-. by destruct k as [? ? []]. }
  subst dcis. rewrite (seqZ_cons dci (Z.of_nat (S n))) in He, Hap by lia. replace (Z.pred (Z.of_nat (S n))) with (Z.of_nat n) in He, Hap by lia. rewrite filter_cons in He, Hap.
  replace (Z.succ dci) with (dci + 1) in He, Hap by lia. cbn [apply_contexts]. unfold mbind at 1, RM_bind.
  destruct (Z.eqb_spec (Z.land flags (Z.shiftl 1 dci)) 0) as [Ef|Ef].
  { rewrite decide_False in He, Hap by (intros H; by apply H). by apply IH. }
  rewrite decide_True in He, Hap by done. rewrite fmap_cons in Hap. apply list.Forall_cons in Hap as [Ha Hap].
  apply mapM_Some_1, Forall2_cons_inv_l in He as (ep & eps' & Ec & Ees%mapM_Some_2 & ->). unfold context_ring in Ec. destruct (bm_read mem0 (context_at gpa dci) 64) as [ctx|] eqn:Er; [|done].
  injection Ec as <-. fold (context_at gpa dci). unfold mbind at 1, RM_bind. rewrite (read_apart mem0 _ 64 ctx k Hm Hag Ha ltac:(lia) Er). cbn [modify].
  unfold mbind, RM_bind. by rewrite (IH (dci + 1) eps' {| k_mem := k_mem k; k_ev := k_ev k; k_at := _ |} Hm Hag Ees Hap).
Qed.

Lemma apply_input_rings mem0 gpa id eps reads (k : Ring M Cmd) :
  bm_inv mem0 -> agree (in_ring (k_ev k)) mem0 (k_mem k) -> input_context mem0 gpa = Some (eps, reads) -> Forall (apart (k_ev k)) reads ->
  apply_input_context (upd_slot id) gpa k = ({| k_mem := k_mem k; k_ev := k_ev k; k_at := (set_rings id eps (k_at k).1, (k_at k).2) |}, Ok tt).
Proof.
  intros Hm Hag. unfold input_context, apply_input_context. destruct (bm_read mem0 gpa 8) as [icc|] eqn:Er; [|done].
  destruct (mapM _ _) as [eps'|] eqn:Ee; [|done]. intros [= <- <-] [Ha Hap]%list.Forall_cons. unfold mbind, RM_bind.
  rewrite (read_apart mem0 gpa 8 icc k Hm Hag Ha ltac:(lia) Er). by apply (apply_contexts_rings mem0).
Qed.

(** One command: the slot table changes as [exec] says and one completion is posted. *)
Lemma command_exec mem0 trb ptr (k : Ring M Cmd) t' code reads mem' e' :
  bm_inv mem0 -> agree (in_ring (k_ev k)) mem0 (k_mem k) ->
  table_ok (k_at k).1 -> ring_placed (k_mem k) (k_ev k) -> exec mem0 (k_at k).1 trb = Some (t', code, reads) -> Forall (apart (k_ev k)) reads ->
  produce [{| v_type := 33; v_param := ptr; v_status := code |}] (k_mem k) (k_ev k) = Some (mem', e') ->
  command trb ptr k = ({| k_mem := mem'; k_ev := e'; k_at := (t', (k_at k).2) |}, Ok tt).
Proof.
  intros Hm Hag Ht Hp Hex Hreads Hpr. pose proof (codes_fit _ _ _ _ _ _ Hex) as Hc. revert Hex Hreads Hpr.
  assert (Hpost : forall slot_id (k' : Ring M Cmd), k_mem k' = k_mem k -> k_ev k' = k_ev k ->
    produce [{| v_type := 33; v_param := ptr; v_status := code |}] (k_mem k) (k_ev k) = Some (mem', e') ->
    post_command slot_id code ptr k' = ({| k_mem := mem'; k_ev := e'; k_at := k_at k' |}, Ok tt)).
  { intros slot_id k' E1 E2 H. apply post_command_produce; rewrite ?E1, ?E2; done. }
  assert (Hmod : forall slot_id f, produce [{| v_type := 33; v_param := ptr; v_status := code |}] (k_mem k) (k_ev k) = Some (mem', e') ->
    (modify f;; post_command slot_id code ptr) k = ({| k_mem := mem'; k_ev := e'; k_at := f (k_at k) |}, Ok tt)).
  { intros slot_id f H. unfold mbind, RM_bind, modify. by rewrite Hpost. }
  unfold exec, command. destruct k as [mem e [t cr]]. cbn [k_mem k_ev k_at fst snd] in *. destruct (trb_type trb =? TRB_TYPE_ENABLE_SLOT).
  { unfold mbind at 1, RM_bind at 1, this at 1. cbn [k_at fst]. destruct (enable_slot t) as [[id t1]|] eqn:E; intros [= <- <- <-] _ Hpr.
    - pose proof (enable_slot_id _ _ _ Ht E). destruct (Z.eqb_spec id 0); [lia|]. by rewrite Hmod.
    - by rewrite Hpost. }
  destruct (trb_type trb =? TRB_TYPE_DISABLE_SLOT).
  { unfold mbind at 1, RM_bind at 1, this at 1. cbn [k_at fst]. destruct (disable_slot _ t) as [freed t1]; intros [= <- <- <-] _ Hpr. by destruct freed; rewrite Hmod. }
  destruct (trb_type trb =? TRB_TYPE_ADDRESS_DEVICE).
  { unfold mbind, RM_bind, this. cbn [k_at fst]. destruct (slot t _); intros [= <- <- <-] _ Hpr; by rewrite Hpost. }
  destruct (trb_type trb =? TRB_TYPE_CONFIGURE_EP).
  { unfold mbind at 1, RM_bind at 1, this at 1. cbn [k_at fst]. destruct (slot t _) as [s|]; [destruct (s_passthrough s)|].
    - destruct (input_context mem0 (t_param trb)) as [[eps rs]|] eqn:Ei; [|done]. intros [= <- <- <-] Hreads Hpr.
      unfold mbind, RM_bind. rewrite (apply_input_rings mem0 (t_param trb) _ eps rs {| k_mem := mem; k_ev := e; k_at := (t, cr) |} Hm Hag Ei Hreads). by rewrite Hpost.
    - intros [= <- <- <-] _ Hpr. by rewrite Hmod.
    - intros [= <- <- <-] _ Hpr. by rewrite Hpost. }
  destruct (_ =? TRB_TYPE_NOOP); intros [= <- <- <-] _ Hpr; by rewrite Hpost.
Qed.

Lemma trb_at_fits mem a t : bm_inv mem -> 0 <= a -> trb_at mem a = Some t -> trb_fits t.
Proof.
  intros Hm Ha. unfold trb_at. destruct (bm_read mem a 16) as [bs|] eqn:E; [|done]. apply trb_from_bytes_fits. by eapply bm_read_fits.
Qed.

Lemma produce_app vs ws mem (e : EventRing) mem1 e1 :
  produce vs mem e = Some (mem1, e1) -> produce (vs ++ ws) mem e = produce ws mem1 e1.
Proof.
  revert mem e. induction vs as [|v vs IH]; intros mem e; cbn; [by intros [= -> ->]|]. destruct (bm_write _ _ _); [|done]. apply IH.
Qed.

Lemma same_ring vs mem e mem' e' : produce vs mem e = Some (mem', e') -> e_base e' = e_base e /\ e_size e' = e_size e.
Proof.
  revert mem e. induction vs as [|v vs IH]; intros mem e; cbn; [by intros [= -> ->]|]. destruct (bm_write _ _ _); [|done].
  intros H. by apply IH in H.
Qed.

Lemma apart_same e e' r : e_base e' = e_base e -> e_size e' = e_size e -> apart e r -> apart e' r.
Proof. intros E1 E2 [Ha H]. split; [done|]. intros x Hx. unfold in_ring. rewrite E1, E2. by apply H. Qed.

Lemma run_loop_serves mem0 n ptr (k : Ring M Cmd) f t' vs reads :
  bm_inv mem0 -> agree (in_ring (k_ev k)) mem0 (k_mem k) -> table_ok (k_at k).1 -> ring_placed (k_mem k) (k_ev k) -> fits 64 ptr ->
  fetch mem0 n ptr (cr_cycle (k_at k).2) = Some f -> Forall (fun a => apart (k_ev k) (a, 16)) (f_visited f) ->
  exec_all mem0 (k_at k).1 (f_cmds f) = Some (t', vs, reads) -> Forall (apart (k_ev k)) reads ->
  exists mem' e', produce vs (k_mem k) (k_ev k) = Some (mem', e') /\
    run_loop n ptr k = ({| k_mem := mem'; k_ev := e';
                           k_at := (t', {| cr_dequeue := cr_dequeue (k_at k).2; cr_cycle := f_cycle f;
                                           cr_running := cr_running (k_at k).2 |}) |}, Ok (f_end f)).
Proof.
  intros Hm0. revert ptr k f t' vs reads. induction n as [|n IH]; intros ptr k f t' vs reads Hag Ht Hp Hptr Hf Hap Hex Hreads.
  { cbn in Hf. injection Hf as <-. cbn in Hex. injection Hex as <- <- <-. eexists _, _. split; [done|]. by destruct k as [? ? [? []]]. }
  cbn [fetch] in Hf. destruct (trb_at mem0 ptr) as [trb|] eqn:Etrb; [|done].
  assert (Hapt : apart (k_ev k) (ptr, 16)).
  { repeat case_match; simplify_eq; cbn [f_visited] in Hap; by apply list.Forall_cons in Hap as [? _]. }
  pose proof (trb_at_fits mem0 ptr trb Hm0 (proj1 Hapt) Etrb) as Hfit.
  rewrite <- (trb_at_agree _ mem0 (k_mem k) ptr Hm0 Hag (proj1 Hapt) (proj2 Hapt)) in Etrb. apply read_trb_at in Etrb.
  cbn [run_loop]. unfold mbind at 1, RM_bind. rewrite Etrb. unfold mbind at 1, RM_bind, this at 1.
  destruct (negb _) eqn:Ecyc.
  { injection Hf as <-. cbn in Hex. injection Hex as <- <- <-. eexists _, _. split; [done|]. by destruct k as [? ? [? []]]. }
  destruct (trb_type trb =? TRB_TYPE_LINK).
  - destruct (fetch mem0 n (link_target trb) _) as [g|] eqn:Eg; [|done]. injection Hf as <-. cbn [f_visited f_cmds f_end f_cycle] in *.
    apply list.Forall_cons in Hap as [_ Hap]. unfold mbind at 1, RM_bind.
    destruct (toggles trb).
    + unfold modify at 1. destruct (IH (link_target trb) {| k_mem := k_mem k; k_ev := k_ev k; k_at := flip_cycle (k_at k) |} g t' vs reads) as (m & e & H1 & H2); try done;
        [by apply link_target_fits|]. exists m, e. split; [done|]. by rewrite H2.
    + destruct (IH (link_target trb) k g t' vs reads) as (m & e & H1 & H2); try done; [by apply link_target_fits|]. exists m, e. by split.
  - destruct (fetch mem0 n (add_w 64 ptr 16) _) as [g|] eqn:Eg; [|done]. injection Hf as <-. cbn [f_visited f_cmds f_end f_cycle exec_all] in *.
    apply list.Forall_cons in Hap as [_ Hap]. destruct (exec mem0 (k_at k).1 trb) as [[[t1 code] rs]|] eqn:Ex; [|done].
    destruct (exec_all mem0 t1 (f_cmds g)) as [[[t2 vs2] rs2]|] eqn:Exs; [|done]. injection Hex as <- <- <-. apply Forall_app in Hreads as [Hr1 Hr2].
    assert (Hcf := codes_fit _ _ _ _ _ _ Ex). set (v := {| v_type := 33; v_param := ptr; v_status := code |}).
    pose proof Hag as (Hm & Hb & Hs). destruct (produce_ok [v] (k_mem k) (k_ev k) Hm Hp) as (m1 & e1 & Ev & Hag1 & Hp1 & _).
    { constructor; [|constructor]. split; [done|]. split; [by apply (fits_weaken 8)|fits_closed]. }
    destruct (same_ring _ _ _ _ _ Ev) as [Eb Es].
    destruct (IH (add_w 64 ptr 16) {| k_mem := m1; k_ev := e1; k_at := (t1, (k_at k).2) |} g t2 vs2 rs2) as (m & e & H1 & H2); try done; cbn [k_mem k_ev k_at fst snd].
    + apply (agree_ext (in_ring (k_ev k))); [intros x; unfold in_ring; by rewrite Eb, Es|]. by eapply agree_trans.
    + exact (exec_ok mem0 _ trb t1 code rs Hm0 Hfit Ht Ex).
    + by apply wrap_fits.
    + eapply Forall_impl; [|exact Hap]. intros a. by apply apart_same.
    + eapply Forall_impl; [|exact Hr2]. intros a. by apply apart_same.
    + exists m, e. split.
      * cbn [k_mem k_ev] in H1. rewrite <- H1. exact (produce_app [v] vs2 (k_mem k) (k_ev k) m1 e1 Ev).
      * unfold mbind, RM_bind. by rewrite (command_exec mem0 trb ptr k t1 code rs m1 e1).
Qed.
End served.

(** ** Claims *)

(** C32: whatever the guest writes to the controller's registers and to its own
    memory, whatever reports and unplug events the host sends, and whatever the
    host devices answer (within the buffers they were given), no step panics and
    the controller keeps its invariant: registers in their widths, the event
    ring's copy equal to the registers, slots in use on distinct enabled ports and
    serving the device of their port, and the interrupt line equal to the pending
    bit. *)
Theorem xhci_invariant {M} `{!ByteMemory M} (mem : M) base entries bindings x actions :
  attach_shared_with_passthrough base entries bindings = Ok x -> bm_inv mem -> Forall action_ok actions ->
  exists s, steps actions {| st_x := x; st_mem := mem; st_worker := None |} = Some s /\ state_ok s.
Proof.
  intros Hx Hm Ha. apply steps_ok; [|done]. split; [by eapply usb_attach_ok|]. by split.
Qed.

(** One completion for each command, in order. *)
Lemma exec_all_params {M} `{!ByteMemory M} (mem : M) t cmds t' vs reads : exec_all mem t cmds = Some (t', vs, reads) -> v_param <$> vs = fst <$> cmds.
Proof.
  revert t vs reads. induction cmds as [|[ptr trb] cmds IH]; intros t vs reads; cbn; [by intros [= _ <- _]|].
  destruct (exec mem t trb) as [[[t1 code] rs]|]; [|done]. destruct (exec_all mem t1 cmds) as [[[t2 vs2] rs2]|] eqn:E; [|done].
  intros [= -> <- _]. cbn. by rewrite (IH _ _ _ E).
Qed.

Lemma exec_all_fits {M} `{!ByteMemory M} (mem : M) t cmds t' vs reads :
  Forall (fun c => fits 64 c.1) cmds -> exec_all mem t cmds = Some (t', vs, reads) -> Forall event_fits vs.
Proof.
  revert t vs reads. induction cmds as [|[ptr trb] cmds IH]; intros t vs reads Hc; cbn; [by intros [= _ <- _]|].
  destruct (exec mem t trb) as [[[t1 code] rs]|] eqn:Ex; [|done]. destruct (exec_all mem t1 cmds) as [[[t2 vs2] rs2]|] eqn:E; [|done].
  intros [= -> <- _]. apply list.Forall_cons in Hc as [Hp Hc]. apply codes_fit in Ex.
  constructor; [|by eapply IH]. split; [done|]. split; [by apply (fits_weaken 8)|fits_closed].
Qed.

Lemma fetch_ptrs {M} `{!ByteMemory M} (mem : M) n ptr cyc f :
  bm_inv mem -> fits 64 ptr -> fetch mem n ptr cyc = Some f -> Forall (fun c => fits 64 c.1) (f_cmds f).
Proof.
  intros Hm. revert ptr cyc f. induction n as [|n IH]; intros ptr cyc f Hp; cbn; [by intros [= <-]; constructor|].
  destruct (trb_at mem ptr) as [trb|] eqn:Et; [|done]. destruct (negb _); [by intros [= <-]; constructor|].
  apply trb_at_fits in Et; [|done|apply Hp]. destruct (_ =? _).
  - destruct (fetch _ _ _ _) as [g|] eqn:E; [|done]. intros [= <-]. cbn. eapply IH; [|exact E]. by apply link_target_fits.
  - destruct (fetch _ _ _ _) as [g|] eqn:E; [|done]. intros [= <-]. cbn. constructor; [done|]. eapply IH; [|exact E]. by apply wrap_fits.
Qed.


(** A small machine with two commands in memory. *)
Definition usb_base : Z := 2 ^ 30.
Definition usb_trb (ty : Z) : list Z := trb_to_bytes {| t_param := 0; t_status := 0; t_control := ty * 1024 + 1 |}.
Definition usb_ram : Memory :=
  match GuestMemory.write_bytes demo_memory (usb_base + 0x7000) (usb_trb TRB_TYPE_ENABLE_SLOT ++ usb_trb TRB_TYPE_NOOP) with
  | Ok m => m
  | Err _ => demo_memory
  end.

Lemma usb_ram_inv : bm_inv usb_ram.
Proof. apply (bool_decide_unpack (wf usb_ram)). vm_compute. exact I. Qed.

Lemma xhci_invariant_witness :
  exists x s, attach_shared_with_passthrough 0x1000 [(3, 0x1234, 0x5678)] true = Ok x /\
    steps [GuestWrite USBCMD 4 5; HidReport Keyboard [1; 2]; Unplug 3; Finish]
      {| st_x := x; st_mem := usb_ram; st_worker := None |} = Some s /\ state_ok s.
Proof.
  destruct (attach_shared_with_passthrough 0x1000 [(3, 0x1234, 0x5678)] true) as [x|] eqn:E; [|vm_compute in E; discriminate E].
  destruct (xhci_invariant usb_ram 0x1000 [(3, 0x1234, 0x5678)] true x
              [GuestWrite USBCMD 4 5; HidReport Keyboard [1; 2]; Unplug 3; Finish] E usb_ram_inv) as (s & H1 & H2).
  - constructor; [split; [vm_compute; discriminate|fits_closed]|]. constructor; [by apply all_bytes_fits|].
    constructor; [cbn; fits_closed|]. by constructor.
  - exists x, s. split; [reflexivity|]. split; [exact H1|exact H2].
Defined.

(** A guest enables three slots, the third on a port with a host device, and
    configures that one: its input context at [base + 0x7800] adds the endpoints 1
    and 3.  The event ring has four entries, all zero. *)
Definition command_ram : Memory :=
  foldl (fun m '(off, bs) => match GuestMemory.write_bytes m (usb_base + off) bs with Ok m => m | Err _ => m end) demo_memory
    [(0x7000, usb_trb TRB_TYPE_ENABLE_SLOT ++ usb_trb TRB_TYPE_ENABLE_SLOT ++ usb_trb TRB_TYPE_ENABLE_SLOT ++
              trb_to_bytes {| t_param := usb_base + 0x7800; t_status := 0; t_control := 3 * 2 ^ 24 + TRB_TYPE_CONFIGURE_EP * 1024 + 1 |});
     (0x7800, le_bytes 4 10); (0x7888, le_bytes 8 (usb_base + 0x100)); (0x7908, le_bytes 8 (usb_base + 0x200))].

(** The registers a driver writes before it rings the doorbell. *)
Definition driver_setup : list Action :=
  [GuestWrite (rt_erstsz 0) 4 4; GuestWrite (rt_erstba 0) 8 (usb_base + 0x6000); GuestWrite CRCR 8 (usb_base + 0x7001); GuestWrite USBCMD 4 1].
Definition command_events : EventRing := {| e_base := usb_base + 0x6000; e_size := 4; e_index := 0; e_cycle := false |}.

Lemma command_ram_inv : bm_inv command_ram.
Proof. apply (bool_decide_unpack (wf command_ram)). vm_compute. exact I. Qed.

Lemma command_ring_placed : ring_placed command_ram command_events.
Proof.
  split; [by vm_compute|by vm_compute|by vm_compute|by vm_compute|].
  apply (span_ok_access command_ram (e_base command_events) (e_size command_events * 16) command_ram_inv); [by vm_compute|by vm_compute|].
  destruct (access command_ram (e_base command_events) (e_size command_events * 16)) as [[i r]|] eqn:E; [by exists i, r|by vm_compute in E].
Qed.

Definition command_state : option (State Memory) :=
  match attach_shared_with_passthrough 0x1000 [(3, 0x1234, 0x5678)] true with
  | Ok x => steps driver_setup {| st_x := x; st_mem := command_ram; st_worker := None |}
  | Err _ => None
  end.

Lemma command_state_ok s : command_state = Some s -> x_ok (st_x s).
Proof.
  unfold command_state. destruct (attach_shared_with_passthrough _ _ _) as [x|] eqn:Hx; [|done]. intros Hs. assert (Ha : Forall action_ok driver_setup).
  { repeat (constructor; [split; [vm_compute; discriminate|fits_closed]|]). constructor. }
  destruct (steps_ok driver_setup {| st_x := x; st_mem := command_ram; st_worker := None |}) as (s' & E & H); [|done|].
  - split; [by eapply usb_attach_ok|]. by split; [apply command_ram_inv|].
  - rewrite Hs in E. injection E as <-. apply H.
Qed.

Definition command_ptrs : list Z := [usb_base + 0x7000; usb_base + 0x7010; usb_base + 0x7020; usb_base + 0x7030].
Definition enable_trb : Trb := {| t_param := 0; t_status := 0; t_control := TRB_TYPE_ENABLE_SLOT * 1024 + 1 |}.
Definition command_fetched : Fetched :=
  {| f_visited := command_ptrs ++ [usb_base + 0x7040]; f_end := usb_base + 0x7040; f_cycle := true;
     f_cmds := zip command_ptrs [enable_trb; enable_trb; enable_trb;
       {| t_param := usb_base + 0x7800; t_status := 0; t_control := 3 * 2 ^ 24 + TRB_TYPE_CONFIGURE_EP * 1024 + 1 |}] |}.
Definition command_completions : list Event := (fun ptr => {| v_type := 33; v_param := ptr; v_status := CC_SUCCESS |}) <$> command_ptrs.
Definition command_reads : list (Z * Z) := [(usb_base + 0x7800, 8); (usb_base + 0x7880, 64); (usb_base + 0x7900, 64)].

(** The ring of endpoint 3 of slot 3. *)
Definition third_ring (t : SlotTable) : option Z := sl ← slot t 3; r_dequeue <$> s_ep_by_dci sl !! 3%nat.

Lemma command_fields : (fun s => (x_cmd (st_x s), x_events (st_x s))) <$> command_state =
  Some ({| cr_dequeue := usb_base + 0x7000; cr_cycle := true; cr_running := true |}, command_events).
Proof. vm_compute. reflexivity. Qed.
Lemma command_fetch : fetch command_ram 32 (usb_base + 0x7000) true = Some command_fetched.
Proof. vm_compute. reflexivity. Qed.
Lemma command_exec_all : (fun s => (fun r => (third_ring r.1.1, r.1.2, r.2)) <$> exec_all command_ram (x_slots (st_x s)) (f_cmds command_fetched)) <$> command_state =
  Some (Some (Some (usb_base + 0x200), command_completions, command_reads)).
Proof. vm_compute. reflexivity. Qed.


(** ** Lock order

    The controller and guest memory have a mutex each.  A doorbell write takes
    the controller's ([XhciDevice::write]) and then the memory's
    ([ring_doorbell]); other accesses and host reports take the controller's
    only; a completion takes the memory's and then the controller's. *)

Inductive Mutex := MXhci | MMemory.
Inductive LockOp := Lock (m : Mutex) | Unlock (m : Mutex).

Definition doorbell_locks : list LockOp := [Lock MXhci; Lock MMemory; Unlock MMemory; Unlock MXhci].
Definition access_locks : list LockOp := [Lock MXhci; Unlock MXhci].
Definition completion_locks : list LockOp := [Lock MMemory; Lock MXhci; Unlock MXhci; Unlock MMemory].

Record Threads := { holds_x : option nat; holds_m : option nat; progs : list (list LockOp) }.

Definition start (ps : list (list LockOp)) : Threads := {| holds_x := None; holds_m := None; progs := ps |}.

(** Thread [i] runs its next operation; [None] when it has none or must wait. *)
Definition sched (i : nat) (c : Threads) : option Threads :=
  match progs c !! i with
  | Some (op :: p) =>
      let ps := <[i := p]> (progs c) in
      match op with
      | Lock MXhci => match holds_x c with None => Some {| holds_x := Some i; holds_m := holds_m c; progs := ps |} | _ => None end
      | Lock MMemory => match holds_m c with None => Some {| holds_x := holds_x c; holds_m := Some i; progs := ps |} | _ => None end
      | Unlock MXhci => Some {| holds_x := None; holds_m := holds_m c; progs := ps |}
      | Unlock MMemory => Some {| holds_x := holds_x c; holds_m := None; progs := ps |}
      end
  | _ => None
  end.

Inductive reach (c : Threads) : Threads -> Prop :=
  | reach_refl : reach c c
  | reach_step c' i c'' : reach c c' -> sched i c' = Some c'' -> reach c c''.

Definition unfinished (c : Threads) : Prop := exists i op p, progs c !! i = Some (op :: p).
Definition stuck (c : Threads) : Prop := unfinished c /\ forall i, sched i c = None.

(** What is left of a program that takes the controller first. *)
Inductive rest : list LockOp -> bool -> bool -> Prop :=
  | rest_done : rest [] false false
  | rest_access : rest access_locks false false
  | rest_doorbell : rest doorbell_locks false false
  | rest_x : rest [Unlock MXhci] true false
  | rest_mx : rest [Unlock MMemory; Unlock MXhci] true true
  | rest_lock : rest [Lock MMemory; Unlock MMemory; Unlock MXhci] true false.

Definition ordered (c : Threads) : Prop :=
  forall i p, progs c !! i = Some p ->
    rest p (bool_decide (holds_x c = Some i)) (bool_decide (holds_m c = Some i)).

(** Each mutex is held by a thread of the list, the memory's only with the controller's. *)
Definition owned (c : Threads) : Prop :=
  (forall i, holds_x c = Some i -> is_Some (progs c !! i)) /\ forall i, holds_m c = Some i -> holds_x c = Some i.

Lemma ordered_start ps : Forall (fun p => p = doorbell_locks \/ p = access_locks) ps -> ordered (start ps) /\ owned (start ps).
Proof.
  intros Hf. split; [|done]. intros i p Hi. cbn in *. eapply list.Forall_lookup_1 in Hi; [|exact Hf].
  destruct Hi as [-> | ->]; constructor.
Qed.

(** Thread [i] moves on to [p], and only it takes or gives back a mutex. *)
Lemma move_ok i p hx hm c :
  ordered c -> (i < length (progs c))%nat ->
  (forall j, j <> i -> (hx = Some j <-> holds_x c = Some j) /\ (hm = Some j <-> holds_m c = Some j)) ->
  rest p (bool_decide (hx = Some i)) (bool_decide (hm = Some i)) ->
  (forall j, hx = Some j -> (j < length (progs c))%nat) -> (forall j, hm = Some j -> hx = Some j) ->
  let c' := {| holds_x := hx; holds_m := hm; progs := <[i := p]> (progs c) |} in ordered c' /\ owned c'.
Proof.
  intros Ho Hl Hj Hr Hx Hm. cbn. split; [|split; [|done]]; cbn.
  - intros j q. cbn. destruct (decide (j = i)) as [->|Hne].
    + rewrite list_lookup_insert_eq by done. by intros [= <-].
    + rewrite list_lookup_insert_ne by done. intros Hq. destruct (Hj j Hne) as [H1 H2].
      rewrite (bool_decide_ext _ _ H1), (bool_decide_ext _ _ H2). by apply Ho.
  - intros j H%Hx. apply lookup_lt_is_Some. by rewrite length_insert.
Qed.

Lemma ordered_step i c c' : ordered c -> owned c -> sched i c = Some c' -> ordered c' /\ owned c'.
Proof.
  intros Ho [Hx Hm]. unfold sched. destruct (progs c !! i) as [[|op p]|] eqn:Ei; [done| |done].
  pose proof (Ho i _ Ei) as Hr. pose proof (lookup_lt_Some _ _ _ Ei) as Hl.
  assert (Hx' : forall j, holds_x c = Some j -> (j < length (progs c))%nat) by (intros j H%Hx; by apply lookup_lt_is_Some).
  inversion Hr as [| | |Ep E1 E2|Ep E1 E2|Ep E1 E2]; subst op p;
    try (symmetry in E1; apply bool_decide_eq_true in E1);
    try (symmetry in E2; first [apply bool_decide_eq_true in E2|apply bool_decide_eq_false in E2]).
  - destruct (holds_x c) eqn:Ec; [done|]. intros [= <-]. apply (move_ok i [Unlock MXhci]); try done.
    + intros j Hne. rewrite Ec. naive_solver.
    + rewrite bool_decide_eq_true_2 by done. rewrite bool_decide_eq_false_2 by naive_solver. constructor.
    + naive_solver.
    + naive_solver.
  - destruct (holds_x c) eqn:Ec; [done|]. intros [= <-]. apply (move_ok i [Lock MMemory; Unlock MMemory; Unlock MXhci]); try done.
    + intros j Hne. rewrite Ec. naive_solver.
    + rewrite bool_decide_eq_true_2 by done. rewrite bool_decide_eq_false_2 by naive_solver. constructor.
    + naive_solver.
    + naive_solver.
  - intros [= <-]. apply (move_ok i []); try done.
    + naive_solver.
    + rewrite !bool_decide_eq_false_2 by done. constructor.
    + naive_solver.
  - intros [= <-]. apply (move_ok i [Unlock MXhci]); try done.
    + naive_solver.
    + rewrite bool_decide_eq_true_2 by done. rewrite bool_decide_eq_false_2 by done. constructor.
  - destruct (holds_m c) eqn:Ec; [done|]. intros [= <-]. apply (move_ok i [Unlock MMemory; Unlock MXhci]); try done.
    + naive_solver.
    + rewrite !bool_decide_eq_true_2 by done. constructor.
    + naive_solver.
Qed.

Lemma ordered_not_stuck c : ordered c -> owned c -> ~ stuck c.
Proof.
  intros Ho [Hx Hm] [(i & op & p & Hi) Hst]. destruct (holds_x c) as [h|] eqn:Ex.
  - destruct (Hx h eq_refl) as [q Hq]. pose proof (Ho h q Hq) as Hr. specialize (Hst h). unfold sched in Hst. rewrite Hq in Hst.
    rewrite Ex, bool_decide_eq_true_2 in Hr by done. inversion Hr; subst q; [done|done|].
    destruct (holds_m c) as [j|] eqn:Em; [|done]. specialize (Hm j eq_refl). simplify_eq.
    match goal with H : false = _ |- _ => by rewrite bool_decide_eq_true_2 in H end.
  - pose proof (Ho i _ Hi) as Hr. specialize (Hst i). unfold sched in Hst. rewrite Hi, Ex in Hst.
    rewrite Ex, bool_decide_eq_false_2 in Hr by done. by inversion Hr; simplify_eq.
Qed.

(** With only vCPUs and host reports the two mutexes are always taken in one
    order and no reachable state is stuck; with the passthrough worker a doorbell
    write and a completion take them in opposite orders, and there is a schedule
    after which both wait for each other for ever. *)
Theorem xhci_lock_order :
  (forall ps c, Forall (fun p => p = doorbell_locks \/ p = access_locks) ps -> reach (start ps) c -> ~ stuck c) /\
  exists c, reach (start [doorbell_locks; completion_locks]) c /\ stuck c.
Proof.
  split.
  - intros ps c Hps Hr. assert (ordered c /\ owned c) as [Ho Hw].
    { induction Hr as [|c i c' Hr [IH1 IH2] E]; [by apply ordered_start|by eapply ordered_step]. }
    by apply ordered_not_stuck.
  - eexists. split.
    + eapply (reach_step _ _ 1); [eapply (reach_step _ _ 0); [apply reach_refl|]|]; vm_compute; reflexivity.
    + split; [by exists 0%nat, (Lock MMemory), [Unlock MMemory; Unlock MXhci]|]. intros [|[|i]]; vm_compute; reflexivity.
Qed.

(** ** Where the controller differs from what it means to do *)

(** The extended capability shares its offsets with the operational registers
    and is matched first: the guest never reads [USBCMD], [USBSTS] or [PAGESIZE]. *)
Lemma status_registers_shadowed x :
  read x USBCMD 4 = 2 /\ read x USBSTS 4 = 2 /\ read x PAGESIZE 4 = 0x401.
Proof. done. Qed.

(** A new controller posts its first pass with cycle bit 0, which a guest that
    zeroed the ring and expects 1 does not see. *)
Lemma first_events_unseen {M} `{!ByteMemory M} (mem mem' : M) base entries bindings x vs e' e :
  attach_shared_with_passthrough base entries bindings = Ok x ->
  e = set_size (e_size e) (set_base (e_base e) (x_events x)) ->
  bm_inv mem -> ring_placed mem e -> Forall event_fits vs -> vs <> [] ->
  Z.of_nat (length vs) < e_size e -> produce vs mem e = Some (mem', e') ->
  consume 1 mem' {| e_base := e_base e; e_size := e_size e; e_index := 0; e_cycle := true |} = [].
Proof.
  intros Hx He Hm Hp Hv Hne Hl Hpr.
  assert (e_index e = 0 /\ e_cycle e = false) as [Hi Hc].
  { revert Hx He. unfold attach_shared_with_passthrough, new_with_irq. destruct (negb _); [done|]. cbn [mbind result_bind].
    intros [= <-] ->. by destruct bindings. }
  destruct vs as [|v vs]; [done|]. apply list.Forall_cons in Hv as [Hv Hvs]. cbn [produce] in Hpr.
  destruct (placed_write mem e v Hm Hp Hv) as (m1 & E & Ht & Hag). rewrite E in Hpr. pose proof Hag as (Hm1 & _ & Hs1).
  pose proof (advance_placed mem m1 e Hp Hs1) as Hp1.
  destruct (produce_ok vs m1 (advance (e_size e) e) Hm1 Hp1 Hvs) as (m2 & e2 & E2 & _ & _ & Hk). rewrite Hpr in E2. injection E2 as <- <-.
  cbn [consume]. replace (event_gpa _) with (e_base e + e_index e * 16).
  2: { rewrite <- (placed_gpa mem e Hp). unfold event_gpa. cbn. by rewrite Hi. }
  change (e_base (advance (e_size e) e)) with (e_base e) in Hk. rewrite Hk; [|apply Hp|].
  - rewrite (placed_gpa mem e Hp) in Ht. rewrite Ht, trb_of_cycle, Hc. done.
  - cbn [length] in Hl. unfold ahead. rewrite (advance_index_eq mem e Hp). cbn [e_size advance]. destruct Hp.
    destruct (Z.eqb_spec (e_index e + 1) (e_size e)); zbool; lia.
Qed.

(** Acknowledging up to entry [i] moves the producer there, although it may be
    ahead: the next event overwrites entry [i]. *)
Lemma erdp_rewinds_producer x i :
  fits 60 (x_erst_base x) -> x_erst_base x mod 16 = 0 -> fits 16 i ->
  e_index (x_events (write_erdp (x_erst_base x + i * 16) x)) = i.
Proof.
  intros [H0 H1] Hal [H2 H3]. cbn. unfold erdp_index.
  assert (E : Z.land (x_erst_base x + i * 16) (not_w 64 0xf) = x_erst_base x + i * 16).
  { apply Z.mod_divide in Hal as [c Hc]; [|lia]. change (not_w 64 0xf) with (Z.shiftl (Z.ones 60) 4).
    replace (x_erst_base x + i * 16) with (Z.shiftl (c + i) 4) by (rewrite Z.shiftl_mul_pow2 by lia; lia).
    rewrite <- Z.shiftl_land. f_equal. rewrite Z.land_ones by lia. apply Z.mod_small. lia. }
  rewrite E. unfold wrapping_sub. rewrite (wrap_small 64) by (unfold fits; lia).
  replace (x_erst_base x + i * 16 - x_erst_base x) with (i * 16) by lia. rewrite Z.div_mul by lia. apply wrap_small. unfold fits. lia.
Qed.

(** A write of the high half of [CRCR] does not reach the command ring. *)
Lemma crcr_high_half_ignored {M} `{!ByteMemory M} (mem : M) x word :
  x_cmd (write CRCR_HI 4 word x mem).1 = x_cmd x.
Proof. done. Qed.

(** The configuration descriptor announces seven bytes more than it has. *)
Lemma config_bundle_total kind mps :
  config_bundle kind mps !! 2%nat = Some (Z.of_nat (length (config_bundle kind mps)) + 7).
Proof. by destruct kind. Qed.

(** A report read through endpoint 0x81 (context index 3) or descriptor data
    through the doorbell target 1 is cut to one byte: the ring falls back to
    endpoint 0, whose maximum packet size is zero. *)
Lemma report_cut_to_one_byte s dci trb :
  dci = 1 \/ dci = 3 -> r_max_packet (s_ep0 s) = 0 ->
  (forall r, s_ep_by_dci s !! Z.to_nat dci = Some r -> r_enabled r = false) -> (in_length s dci trb <= 1)%nat.
Proof.
  intros Hd Hm Hr. unfold in_length, ep_ring, choose.
  assert (dci =? 0 = false /\ dci =? 2 = false) as [-> ->] by lia.
  assert (E : match s_ep_by_dci s !! Z.to_nat dci with Some r => if r_enabled r then ChDci (Z.to_nat dci) else ChEp0 | None => ChEp0 end = ChEp0).
  { destruct (s_ep_by_dci s !! Z.to_nat dci) as [r|] eqn:Er; [|done]. by rewrite (Hr r eq_refl). }
  rewrite E, Hm. lia.
Qed.

(** The slot of a completion reaches the log only, so the guest cannot learn
    which slot [ENABLE_SLOT] gave it. *)
Lemma completion_without_slot {M} `{!ByteMemory M} {X} a b code ptr (k : Ring M X) :
  post_command a code ptr k = post_command b code ptr k.
Proof. done. Qed.

(** A port that is reset before its slot is enabled is never given one. *)
Lemma reset_port_not_enumerated :
  enable_slot (write_portsc 1 PORT_PR (write_portsc 2 PORT_PR (slots_new MAX_SLOTS))) = None.
Proof. vm_compute. reflexivity. Qed.

(** A forwarded transfer whose buffer cannot be read, or whose port has no host
    device, is dropped: its endpoint stays busy, and a busy endpoint's doorbell
    does nothing. *)
Lemma dropped_job_wedges {M} `{!ByteMemory M} (s : State M) backends job jobs e s' :
  st_worker s = None -> x_jobs (st_x s) = job :: jobs -> begin backends job (st_mem s) = Err e ->
  step (Take backends) s = Some s' ->
  x_slots (st_x s') = x_slots (st_x s) /\ x_jobs (st_x s') = jobs /\ st_worker s' = None.
Proof. intros Hw Hj Hb. cbn. rewrite Hw, Hj, Hb. by intros [= <-]. Qed.

Lemma busy_endpoint_ignored {M} `{!ByteMemory M} worker slot_id dci (k : Ring M Xfer) :
  s_passthrough (k_at k).1 = true -> dci <> 0 -> r_busy (ep_ring (k_at k).1 dci) = true ->
  process_transfer worker slot_id dci k = (k, Ok tt).
Proof.
  intros Hp Hd Hb. unfold process_transfer, mbind, RM_bind, this. rewrite Hp, Hb. destruct (Z.eqb_spec dci 0); [done|]. cbn [andb negb].
  by destruct (negb _).
Qed.
