(* ===== verification/NetPacket.v ===== *)
(** * Network headers: Ethernet, IPv4, UDP, TCP and the Internet checksum

    Model of [ternvale-net/src/user/packet.rs], with the addresses of [user.rs].  Bytes are [Z]s; a parser
    returns [None] for a panic (an index or slice out of range), [Some None] for
    a packet it refuses.  The theorems: no input makes a parser panic, a frame
    that is built is parsed back to what was put in, and the checksum of a built
    header, UDP datagram or TCP segment verifies (RFC 1071). *)

From stdpp Require Import list.
From S2P Require Import Prelude.

Definition ETH_HLEN : nat := 14.
Definition IPV4_HLEN : nat := 20.
Definition UDP_HLEN : nat := 8.
Definition TCP_HLEN : nat := 20.
Definition ICMP_HLEN : nat := 8.
Definition ETHERTYPE_IPV4 : Z := 0x0800.
Definition ETHERTYPE_ARP : Z := 0x0806.
Definition IP_PROTO_ICMP : Z := 1.
Definition IP_PROTO_TCP : Z := 6.
Definition IP_PROTO_UDP : Z := 17.
Definition TCP_FIN : Z := 0x01.
Definition TCP_SYN : Z := 0x02.
Definition TCP_RST : Z := 0x04.
Definition TCP_PSH : Z := 0x08.
Definition TCP_ACK : Z := 0x10.
Definition REPLY_TTL : Z := 64.

(** The sum of the big-endian words, an odd last byte padded. *)
Fixpoint sum_words (data : list Z) (sum : Z) : Z :=
  match data with
  | a :: b :: data => sum_words data (add_w 32 sum (of_be [a; b]))
  | [odd] => add_w 32 sum (Z.shiftl odd 8)
  | [] => sum
  end.

(** The carry loop; three rounds are enough for 32 bits. *)
Fixpoint fold_carries (n : nat) (sum : Z) : Z :=
  match n with
  | O => sum
  | S n => if 0xffff <? sum then fold_carries n (add_w 32 (Z.land sum 0xffff) (Z.shiftr sum 16)) else sum
  end.

Definition checksum (data : list Z) : Z := wrap 16 (not_w 32 (fold_carries 3 (sum_words data 0))).

Record Ipv4 := { ip_src_mac : list Z; ip_src : list Z; ip_dst : list Z; ip_proto : Z; ip_payload : list Z }.

Definition be_at (n : nat) (bs : list Z) (i : nat) : option Z := of_be <$> slice bs i n.

Definition parse_ipv4 (frame : list Z) : option (option Ipv4) :=
  if bool_decide (length frame < ETH_HLEN + IPV4_HLEN)%nat then Some None
  else
    ethertype ← be_at 2 frame 12;
    if negb (ethertype =? ETHERTYPE_IPV4) then Some None
    else
      let ip := drop ETH_HLEN frame in
      b0 ← ip !! 0%nat;
      if negb (Z.shiftr b0 4 =? 4) then Some None
      else
        let ihl := Z.to_nat (Z.land b0 0x0f * 4) in
        if negb (bool_decide (ihl = IPV4_HLEN)) then Some None
        else
          total ← be_at 2 ip 2;
          let total := Z.to_nat total in
          if bool_decide (total < ihl)%nat || bool_decide (length frame < ETH_HLEN + total)%nat then Some None
          else
            frag ← be_at 2 ip 6;
            if negb (Z.land frag 0x3fff =? 0) then Some None
            else
              header ← slice ip 0 ihl;
              if negb (checksum header =? 0) then Some None
              else
                src_mac ← slice frame 6 6;
                src ← slice ip 12 4;
                dst ← slice ip 16 4;
                proto ← ip !! 9%nat;
                payload ← slice ip ihl (total - ihl);
                Some (Some {| ip_src_mac := src_mac; ip_src := src; ip_dst := dst; ip_proto := proto;
                              ip_payload := payload |}).

(** The IPv4 header with the checksum field [sum]. *)
Definition ipv4_header (total ip_id proto : Z) (src dst : list Z) (sum : Z) : list Z :=
  [0x45; 0] ++ be_bytes 2 total ++ be_bytes 2 ip_id ++ [0; 0] ++ [REPLY_TTL; proto] ++ be_bytes 2 sum ++ src ++ dst.

Definition ipv4_frame (dst_mac src_mac src dst : list Z) (proto ip_id : Z) (payload : list Z) : list Z :=
  let total := wrap 16 (Z.of_nat (IPV4_HLEN + length payload)) in
  let sum := checksum (ipv4_header total ip_id proto src dst 0) in
  dst_mac ++ src_mac ++ be_bytes 2 ETHERTYPE_IPV4 ++ ipv4_header total ip_id proto src dst sum ++ payload.

(** The pseudo-header a transport checksum covers. *)
Definition pseudo_header (src dst : list Z) (proto len : Z) : list Z :=
  src ++ dst ++ [0; proto] ++ be_bytes 2 len.

Definition udp_header (src_port dst_port len sum : Z) : list Z :=
  be_bytes 2 src_port ++ be_bytes 2 dst_port ++ be_bytes 2 len ++ be_bytes 2 sum.

Definition udp_payload (src dst : list Z) (src_port dst_port : Z) (data : list Z) : list Z :=
  let len := wrap 16 (Z.of_nat (UDP_HLEN + length data)) in
  let sum := checksum (pseudo_header src dst IP_PROTO_UDP len ++ udp_header src_port dst_port len 0 ++ data) in
  let sum := if sum =? 0 then 0xffff else sum in
  udp_header src_port dst_port len sum ++ data.

Definition tcp_header (src_port dst_port seq ack flags window sum : Z) : list Z :=
  be_bytes 2 src_port ++ be_bytes 2 dst_port ++ be_bytes 4 seq ++ be_bytes 4 ack ++ [0x50; flags]
  ++ be_bytes 2 window ++ be_bytes 2 sum ++ [0; 0].

Definition tcp_payload (src dst : list Z) (src_port dst_port seq ack flags window : Z) (data : list Z) : list Z :=
  let len := wrap 16 (Z.of_nat (TCP_HLEN + length data)) in
  let sum := checksum (pseudo_header src dst IP_PROTO_TCP len
                       ++ tcp_header src_port dst_port seq ack flags window 0 ++ data) in
  tcp_header src_port dst_port seq ack flags window sum ++ data.

Record UdpHdr := { u_src_port : Z; u_dst_port : Z; u_data : list Z }.

Definition parse_udp (payload : list Z) : option (option UdpHdr) :=
  if bool_decide (length payload < UDP_HLEN)%nat then Some None
  else
    len ← be_at 2 payload 4;
    let len := Z.to_nat len in
    if bool_decide (len < UDP_HLEN)%nat || bool_decide (length payload < len)%nat then Some None
    else
      src_port ← be_at 2 payload 0;
      dst_port ← be_at 2 payload 2;
      data ← slice payload UDP_HLEN (len - UDP_HLEN);
      Some (Some {| u_src_port := src_port; u_dst_port := dst_port; u_data := data |}).

Record TcpHdr := { t_src_port : Z; t_dst_port : Z; t_seq : Z; t_flags : Z; t_data : list Z }.

Definition parse_tcp (payload : list Z) : option (option TcpHdr) :=
  if bool_decide (length payload < TCP_HLEN)%nat then Some None
  else
    b12 ← payload !! 12%nat;
    let doff := Z.to_nat (Z.shiftr b12 4 * 4) in
    if bool_decide (doff < TCP_HLEN)%nat || bool_decide (length payload < doff)%nat then Some None
    else
      src_port ← be_at 2 payload 0;
      dst_port ← be_at 2 payload 2;
      seq ← be_at 4 payload 4;
      flags ← payload !! 13%nat;
      data ← slice payload doff (length payload - doff);
      Some (Some {| t_src_port := src_port; t_dst_port := dst_port; t_seq := seq; t_flags := flags; t_data := data |}).

(** The parsers without the panic, which never happens (below). *)
Definition ipv4 (frame : list Z) : option Ipv4 := mjoin (parse_ipv4 frame).
Definition udp (payload : list Z) : option UdpHdr := mjoin (parse_udp payload).
Definition tcp (payload : list Z) : option TcpHdr := mjoin (parse_tcp payload).

(** ** The network the user-mode NAT presents ([user.rs]) *)

Definition GATEWAY_IP : list Z := [10; 0; 2; 2].
Definition DNS_IP : list Z := [10; 0; 2; 3].
Definition GUEST_IP : list Z := [10; 0; 2; 15].
Definition NETMASK : list Z := [255; 255; 255; 0].
Definition GATEWAY_MAC : list Z := [0x52; 0x55; 0x0a; 0x00; 0x02; 0x02].
Definition DEFAULT_GUEST_MAC : list Z := [0x52; 0x54; 0x00; 0x12; 0x34; 0x56].

(** ** No panic *)

Lemma slice_some {A} (l : list A) i n : (i + n <= length l)%nat -> exists x, slice l i n = Some x /\ length x = n.
Proof. intros H. rewrite slice_Some by done. eexists. split; [done|]. rewrite length_take, length_drop. lia. Qed.

Lemma be_at_some n l i : (i + n <= length l)%nat -> exists x, be_at n l i = Some x.
Proof. intros H. unfold be_at. rewrite slice_Some by done. by eexists. Qed.

Lemma lookup_some {A} (l : list A) i : (i < length l)%nat -> exists x, l !! i = Some x.
Proof. intros H. by apply lookup_lt_is_Some. Qed.

(** Step over the next read of a parser, which is in range. *)
Ltac in_range tac :=
  let step E v := (rewrite E; clear E;
    match goal with |- exists r, (Some v ≫= ?k) = Some r => change (exists r, k v = Some r); cbn beta zeta end) in
  let v := fresh "v" in let E := fresh "E" in let L := fresh "L" in
  match goal with
  | |- exists r, (be_at ?n ?l ?i ≫= _) = Some r => destruct (be_at_some n l i) as [v E]; [tac|step E v]
  | |- exists r, (slice ?l ?i ?n ≫= _) = Some r => destruct (slice_some l i n) as (v & E & L); [tac|step E v; clear L]
  | |- exists r, (?l !! ?i ≫= _) = Some r => destruct (lookup_some l i) as [v E]; [tac|step E v]
  end.

Lemma parse_ipv4_no_panic frame : parse_ipv4 frame = Some (ipv4 frame).
Proof.
  unfold ipv4. assert (exists r, parse_ipv4 frame = Some r) as [r ->]; [|done]. unfold parse_ipv4.
  case_bool_decide as Hl; [by eexists|]. unfold ETH_HLEN, IPV4_HLEN in *.
  assert (Hd : length (drop 14 frame) = (length frame - 14)%nat) by apply length_drop.
  in_range lia. destruct (negb _); [by eexists|]. in_range ltac:(rewrite Hd; lia).
  destruct (negb _); [by eexists|]. case_bool_decide as Hi; [|by eexists]. cbn [negb]. rewrite Hi.
  in_range ltac:(rewrite Hd; lia). destruct (_ || _) eqn:Et; [by eexists|]. apply orb_false_iff in Et as [Et1%bool_decide_eq_false Et2%bool_decide_eq_false].
  in_range ltac:(rewrite Hd; lia). destruct (negb _); [by eexists|]. in_range ltac:(rewrite Hd; lia). destruct (negb _); [by eexists|].
  in_range lia. do 2 in_range ltac:(rewrite Hd; lia). in_range ltac:(rewrite Hd; lia). in_range ltac:(rewrite Hd; lia). by eexists.
Qed.

Lemma parse_udp_no_panic payload : parse_udp payload = Some (udp payload).
Proof.
  unfold udp. assert (exists r, parse_udp payload = Some r) as [r ->]; [|done]. unfold parse_udp.
  case_bool_decide as Hl; [by eexists|]. unfold UDP_HLEN in *. in_range lia.
  destruct (_ || _) eqn:Et; [by eexists|]. apply orb_false_iff in Et as [Et1%bool_decide_eq_false Et2%bool_decide_eq_false].
  do 3 in_range lia. by eexists.
Qed.

Lemma parse_tcp_no_panic payload : parse_tcp payload = Some (tcp payload).
Proof.
  unfold tcp. assert (exists r, parse_tcp payload = Some r) as [r ->]; [|done]. unfold parse_tcp.
  case_bool_decide as Hl; [by eexists|]. unfold TCP_HLEN in *. in_range lia.
  destruct (_ || _) eqn:Et; [by eexists|]. apply orb_false_iff in Et as [Et1%bool_decide_eq_false Et2%bool_decide_eq_false].
  do 5 in_range lia. by eexists.
Qed.

(** ** The Internet checksum *)

(** The plain sum of the words. *)
Fixpoint total (data : list Z) : Z :=
  match data with
  | a :: b :: data => a * 256 + b + total data
  | [odd] => odd * 256
  | [] => 0
  end.

(** The residue in 1..65535 of a positive number, modulo 65535. *)
Definition r16 (x : Z) : Z := if x =? 0 then 0 else (x - 1) mod 65535 + 1.

Lemma pairs_ind (P : list Z -> Prop) :
  P [] -> (forall a, P [a]) -> (forall a b l, P l -> P (a :: b :: l)) -> forall l, P l.
Proof.
  intros H0 H1 H2. assert (forall n l, (length l <= n)%nat -> P l) as H; [|intros l; by apply (H (length l))].
  induction n as [|n IH]; intros [|a [|b l]] Hl; cbn in Hl; auto; try lia. apply H2, IH. lia.
Qed.

Lemma total_bound data : Forall (fits 8) data -> 0 <= total data <= 65535 * ((Z.of_nat (length data) + 1) / 2).
Proof.
  induction data as [|a|a b data IH] using pairs_ind; intros Hf.
  - by vm_compute.
  - apply list.Forall_cons in Hf as [Ha _]. unfold fits in Ha. change ((Z.of_nat (length [a]) + 1) / 2) with 1. cbn [total]. lia.
  - apply list.Forall_cons in Hf as [Ha Hf]. apply list.Forall_cons in Hf as [Hb Hf]. specialize (IH Hf). unfold fits in Ha, Hb. cbn [total length].
    replace (Z.of_nat (S (S (length data))) + 1) with (Z.of_nat (length data) + 1 + 1 * 2) by lia. rewrite Z.div_add by lia. lia.
Qed.

Lemma of_be_pair a b : of_be [a; b] = a * 256 + b.
Proof. unfold of_be. cbn. lia. Qed.

Lemma sum_words_total data sum :
  Forall (fits 8) data -> 0 <= sum -> sum + total data < 2 ^ 32 -> sum_words data sum = sum + total data.
Proof.
  revert sum. induction data as [|a|a b data IH] using pairs_ind; intros sum Hf Hs Hb; cbn [sum_words total] in *.
  - lia.
  - apply list.Forall_cons in Hf as [Ha _]. rewrite Z.shiftl_mul_pow2 by lia. unfold fits in Ha. apply wrap_small. unfold fits. lia.
  - apply list.Forall_cons in Hf as [Ha Hf]. apply list.Forall_cons in Hf as [Hb' Hf]. pose proof (total_bound data Hf) as Ht. unfold fits in Ha, Hb'.
    rewrite of_be_pair. unfold add_w. rewrite wrap_small by (unfold fits; lia). rewrite IH; [lia|done|lia|lia].
Qed.

Lemma r16_small x : 0 <= x <= 65535 -> r16 x = x.
Proof. intros H. unfold r16. destruct (Z.eqb_spec x 0); [lia|]. rewrite Z.mod_small by lia. lia. Qed.

Lemma r16_range x : 0 <= x -> 0 <= r16 x <= 65535.
Proof. intros H. unfold r16. destruct (Z.eqb_spec x 0); [lia|]. pose proof (Z.mod_pos_bound (x - 1) 65535). lia. Qed.

Lemma r16_fold x : 0 <= x -> r16 (x mod 65536 + x / 65536) = r16 x.
Proof.
  intros Hx. pose proof (Z.div_mod x 65536 ltac:(lia)) as E. pose proof (Z.mod_pos_bound x 65536 ltac:(lia)) as Hm.
  assert (0 <= x / 65536) by (apply Z.div_pos; lia). set (q := x / 65536) in *. set (r := x mod 65536) in *. unfold r16.
  destruct (Z.eqb_spec x 0), (Z.eqb_spec (r + q) 0); try lia.
  replace (x - 1) with (r + q - 1 + q * 65535) by lia. by rewrite Z_mod_plus_full.
Qed.

Lemma fold_step x : fits 32 x -> add_w 32 (Z.land x 0xffff) (Z.shiftr x 16) = x mod 65536 + x / 65536.
Proof.
  intros [H0 H1]. rewrite (land_low _ 16) by done. rewrite Z.shiftr_div_pow2 by lia. change (2 ^ 16) with 65536.
  assert (x / 65536 < 65536) by (apply Z.div_lt_upper_bound; lia). assert (0 <= x / 65536) by (apply Z.div_pos; lia).
  pose proof (Z.mod_pos_bound x 65536). apply wrap_small. unfold fits. lia.
Qed.

(** Three rounds always end the carry loop. *)
Lemma fold_carries_r16 x : fits 32 x -> fold_carries 3 x = r16 x.
Proof.
  intros Hx. cbn [fold_carries]. destruct (Z.ltb_spec 0xffff x) as [H1|H1]; [|unfold fits in Hx; by rewrite r16_small by lia].
  rewrite fold_step by done. rewrite <- (r16_fold x) by apply Hx. set (y := x mod 65536 + x / 65536).
  assert (Hy : 0 <= y <= 131070).
  { unfold y, fits in *. pose proof (Z.mod_pos_bound x 65536). assert (x / 65536 < 65536) by (apply Z.div_lt_upper_bound; lia).
    assert (0 <= x / 65536) by (apply Z.div_pos; lia). lia. }
  destruct (Z.ltb_spec 0xffff y) as [H2|H2]; [|by rewrite r16_small by lia].
  rewrite fold_step by (unfold fits; lia). rewrite <- (r16_fold y) by lia. set (z := y mod 65536 + y / 65536).
  assert (Hz : 0 <= z <= 65535).
  { unfold z. pose proof (Z.div_mod y 65536 ltac:(lia)). pose proof (Z.mod_pos_bound y 65536 ltac:(lia)).
    assert (y / 65536 < 2) by (apply Z.div_lt_upper_bound; lia). assert (0 <= y / 65536) by (apply Z.div_pos; lia). lia. }
  rewrite r16_small by lia. destruct (Z.ltb_spec 0xffff z); [lia|done].
Qed.

Lemma checksum_total data :
  Forall (fits 8) data -> Z.of_nat (length data) <= 131068 -> checksum data = 65535 - r16 (total data).
Proof.
  intros Hf Hl. pose proof (total_bound data Hf) as Ht.
  assert (total data < 2 ^ 32).
  { assert ((Z.of_nat (length data) + 1) / 2 < 65537) by (apply Z.div_lt_upper_bound; lia). lia. }
  unfold checksum. rewrite sum_words_total by (done || lia). rewrite Z.add_0_l, fold_carries_r16 by (unfold fits; lia).
  pose proof (r16_range (total data) ltac:(lia)). unfold not_w, wrap.
  replace (2 ^ 32 - 1 - r16 (total data)) with (65535 - r16 (total data) + 65535 * 2 ^ 16) by lia. rewrite Z_mod_plus_full. apply Z.mod_small. lia.
Qed.

Lemma total_app l1 l2 : Nat.even (length l1) = true -> total (l1 ++ l2) = total l1 + total l2.
Proof.
  induction l1 as [|a|a b l1 IH] using pairs_ind; intros He; [done|done|]. cbn [app total]. rewrite IH by done. lia.
Qed.

Lemma be_bytes_2 v : be_bytes 2 v = [v / 256 mod 256; v mod 256].
Proof. unfold be_bytes. cbn. done. Qed.

Lemma total_be2 v : fits 16 v -> total (be_bytes 2 v) = v.
Proof.
  intros [H0 H1]. rewrite be_bytes_2. cbn. rewrite (Z.mod_small (v / 256) 256); [pose proof (Z.div_mod v 256); lia|].
  split; [apply Z.div_pos; lia|apply Z.div_lt_upper_bound; lia].
Qed.

(** A message verifies once the complement of its sum is added to it. *)
Lemma r16_complement x : 0 < x -> r16 (x + (65535 - r16 x)) = 65535.
Proof.
  intros Hx. unfold r16. destruct (Z.eqb_spec x 0); [lia|]. pose proof (Z.mod_pos_bound (x - 1) 65535 ltac:(lia)) as Hm.
  pose proof (Z.div_mod (x - 1) 65535 ltac:(lia)) as E.
  destruct (Z.eqb_spec (x + (65535 - ((x - 1) mod 65535 + 1))) 0); [lia|].
  replace (x + (65535 - ((x - 1) mod 65535 + 1)) - 1) with (65534 + (x - 1) / 65535 * 65535) by lia. by rewrite Z_mod_plus_full.
Qed.

(** The checksum of [pre ++ field ++ post] is zero when the field is the checksum
    of the message with a zero field, and [pre] has whole words. *)
Lemma checksum_verifies pre post c :
  Forall (fits 8) (pre ++ post) -> Z.of_nat (length pre + length post + 2) <= 131068 -> Nat.even (length pre) = true ->
  0 < total pre -> c = checksum (pre ++ be_bytes 2 0 ++ post) -> checksum (pre ++ be_bytes 2 c ++ post) = 0.
Proof.
  intros Hf Hl He Hpos Hc. apply Forall_app in Hf as [Hf1 Hf2].
  pose proof (total_bound _ Hf2) as Hb2.
  assert (H0 : total (pre ++ be_bytes 2 0 ++ post) = total pre + total post).
  { rewrite total_app by done. rewrite total_app by done. rewrite total_be2 by (unfold fits; lia). lia. }
  assert (Hlen : forall v, length (pre ++ be_bytes 2 v ++ post) = (length pre + length post + 2)%nat).
  { intros v. rewrite !length_app, length_be_bytes. lia. }
  assert (Hff : forall v, Forall (fits 8) (pre ++ be_bytes 2 v ++ post)).
  { intros v. rewrite !Forall_app. auto using be_bytes_fits. }
  rewrite checksum_total, H0 in Hc by (done || rewrite Hlen; done).
  pose proof (r16_range (total pre + total post) ltac:(lia)) as Hr.
  rewrite checksum_total by (done || rewrite Hlen; done). rewrite total_app by done. rewrite total_app by done.
  rewrite total_be2 by (unfold fits; lia). replace (total pre + (c + total post)) with (total pre + total post + (65535 - r16 (total pre + total post))) by lia.
  rewrite r16_complement by lia. lia.
Qed.

(** The same where a zero checksum is sent as all ones. *)
Lemma checksum_verifies_nonzero pre post :
  Forall (fits 8) (pre ++ post) -> Z.of_nat (length pre + length post + 2) <= 131068 -> Nat.even (length pre) = true ->
  0 < total pre -> checksum (pre ++ be_bytes 2 0 ++ post) = 0 -> checksum (pre ++ be_bytes 2 0xffff ++ post) = 0.
Proof.
  intros Hf Hl He Hpos Hc. apply Forall_app in Hf as [Hf1 Hf2]. pose proof (total_bound _ Hf2) as Hb2.
  assert (Hlen : forall v, length (pre ++ be_bytes 2 v ++ post) = (length pre + length post + 2)%nat).
  { intros v. rewrite !length_app, length_be_bytes. lia. }
  assert (Hff : forall v, Forall (fits 8) (pre ++ be_bytes 2 v ++ post)).
  { intros v. rewrite !Forall_app. auto using be_bytes_fits. }
  rewrite checksum_total in Hc |- * by (done || rewrite Hlen; done). rewrite !total_app in Hc |- * by done.
  rewrite total_be2 in Hc |- * by (unfold fits; lia). revert Hc. unfold r16.
  destruct (Z.eqb_spec (total pre + (0 + total post)) 0); [lia|]. destruct (Z.eqb_spec (total pre + (65535 + total post)) 0); [lia|].
  replace (total pre + (65535 + total post) - 1) with (total pre + (0 + total post) - 1 + 1 * 65535) by lia. by rewrite Z_mod_plus_full.
Qed.

(** ** Round trips *)

Lemma slice_at {A} (pre mid post : list A) i n :
  length pre = i -> length mid = n -> slice (pre ++ mid ++ post) i n = Some mid.
Proof.
  intros <- <-. rewrite slice_Some by (rewrite !length_app; lia). by rewrite drop_app_length, take_app_length.
Qed.

Lemma be_at_here (pre post : list Z) i n v :
  length pre = i -> fits (8 * Z.of_nat n) v -> be_at n (pre ++ be_bytes n v ++ post) i = Some v.
Proof. intros Hi Hv. unfold be_at. rewrite slice_at by (done || apply length_be_bytes). cbn. by rewrite of_be_be_bytes. Qed.

Definition bytes_of (n : nat) (l : list Z) : Prop := length l = n /\ Forall (fits 8) l.

Record addressed (dst_mac src_mac src dst : list Z) (proto ip_id : Z) : Prop := {
  ad_dst_mac : bytes_of 6 dst_mac;
  ad_src_mac : bytes_of 6 src_mac;
  ad_src : bytes_of 4 src;
  ad_dst : bytes_of 4 dst;
  ad_proto : fits 8 proto;
  ad_id : fits 16 ip_id;
}.

Lemma ipv4_header_checksum tot ip_id proto src dst :
  bytes_of 4 src -> bytes_of 4 dst -> fits 8 proto ->
  checksum (ipv4_header tot ip_id proto src dst (checksum (ipv4_header tot ip_id proto src dst 0))) = 0.
Proof.
  intros [Hs1 Hs2] [Hd1 Hd2] Hp. set (pre := [0x45; 0] ++ be_bytes 2 tot ++ be_bytes 2 ip_id ++ [0; 0] ++ [REPLY_TTL; proto]).
  assert (E : forall s, ipv4_header tot ip_id proto src dst s = pre ++ be_bytes 2 s ++ (src ++ dst)).
  { intros s. unfold ipv4_header, pre. by rewrite <- !app_assoc. }
  rewrite !E. assert (Hpre : Forall (fits 8) pre).
  { unfold pre. rewrite !Forall_app. split; [by apply all_bytes_fits|]. split; [apply be_bytes_fits|]. split; [apply be_bytes_fits|].
    split; [by apply all_bytes_fits|]. constructor; [fits_closed|]. by constructor. }
  apply checksum_verifies; [|unfold pre; rewrite !length_app, !length_be_bytes, Hs1, Hd1; cbn; lia| |  |done].
  - rewrite !Forall_app. auto.
  - unfold pre. by rewrite !length_app, !length_be_bytes.
  - unfold pre. rewrite be_bytes_2, be_bytes_2. cbn [app total]. pose proof (total_bound pre Hpre) as Hb.
    repeat (match goal with |- context [?a mod 256] => let H := fresh in pose proof (Z.mod_pos_bound a 256 ltac:(lia)) as H; revert H; generalize (a mod 256); intros ? ? end).
    unfold REPLY_TTL, fits in *. cbn [total]. lia.
Qed.

Lemma four_bytes (l : list Z) : length l = 4%nat -> exists a b c d, l = [a; b; c; d].
Proof. intros H. do 5 (destruct l as [|? l]; try done). by eexists _, _, _, _. Qed.

(** What the parser reads of a header that was built. *)
Lemma ipv4_header_reads tot ip_id proto src dst sum payload :
  length src = 4%nat -> length dst = 4%nat -> fits 16 tot ->
  let h := ipv4_header tot ip_id proto src dst sum in
  let ip := h ++ payload in
  length h = 20%nat /\ ip !! 0%nat = Some 0x45 /\ be_at 2 ip 2 = Some tot /\ be_at 2 ip 6 = Some 0 /\
  slice ip 0 20 = Some h /\ slice ip 12 4 = Some src /\ slice ip 16 4 = Some dst /\ ip !! 9%nat = Some proto /\
  slice ip 20 (length payload) = Some payload.
Proof.
  intros (s0 & s1 & s2 & s3 & ->)%four_bytes (d0 & d1 & d2 & d3 & ->)%four_bytes Ht h ip.
  assert (Hh : length h = 20%nat) by (unfold h, ipv4_header; by rewrite !length_app, !length_be_bytes).
  split; [done|]. split; [done|]. split.
  { unfold ip, h, ipv4_header. rewrite <- !app_assoc. by apply (be_at_here [0x45; 0]). }
  assert (Hl : (20 <= length ip)%nat) by (unfold ip; rewrite length_app; lia).
  split; [unfold be_at; rewrite slice_Some by lia; unfold ip, h, ipv4_header; rewrite !be_bytes_2; done|].
  split; [by apply (slice_at [] h payload)|].
  split; [rewrite slice_Some by lia; unfold ip, h, ipv4_header; rewrite !be_bytes_2; done|].
  split; [rewrite slice_Some by lia; unfold ip, h, ipv4_header; rewrite !be_bytes_2; done|].
  split; [unfold ip, h, ipv4_header; rewrite !be_bytes_2; done|].
  rewrite slice_Some by (unfold ip; rewrite length_app; lia). unfold ip. rewrite drop_app_length' by done. by rewrite take_ge.
Qed.

(** Run the parser over the next read, known by [E]. *)
Ltac reads E :=
  rewrite E; match goal with |- (Some ?v ≫= ?k) = _ => change (Some v ≫= k) with (k v); cbn beta zeta end.

(** A built frame is parsed back; its header checksum verifies. *)
Lemma parse_ipv4_frame dst_mac src_mac src dst proto ip_id payload :
  addressed dst_mac src_mac src dst proto ip_id -> Z.of_nat (length payload) <= 65515 ->
  parse_ipv4 (ipv4_frame dst_mac src_mac src dst proto ip_id payload) =
    Some (Some {| ip_src_mac := src_mac; ip_src := src; ip_dst := dst; ip_proto := proto; ip_payload := payload |}).
Proof.
  intros [[Hd1 _] [Hs1 _] Hsrc Hdst Hp Hid] Hl. unfold ipv4_frame.
  assert (Hw : wrap 16 (Z.of_nat (IPV4_HLEN + length payload)) = Z.of_nat (20 + length payload))
    by (unfold IPV4_HLEN; apply wrap_small; unfold fits; lia).
  rewrite Hw. set (tot := Z.of_nat (20 + length payload)). set (sum := checksum (ipv4_header tot ip_id proto src dst 0)).
  pose proof (ipv4_header_checksum tot ip_id proto src dst Hsrc Hdst Hp) as Hck. fold sum in Hck.
  destruct (ipv4_header_reads tot ip_id proto src dst sum payload (proj1 Hsrc) (proj1 Hdst)) as (Hhl & Hb0 & Ht & Hfr & Hh & H12 & H16 & H9 & Hpl);
    [unfold tot, fits; lia|].
  set (hdr := ipv4_header tot ip_id proto src dst sum) in *. unfold parse_ipv4.
  rewrite !length_app, length_be_bytes, Hd1, Hs1, Hhl. unfold ETH_HLEN, IPV4_HLEN. rewrite bool_decide_eq_false_2 by lia.
  assert (Het : be_at 2 (dst_mac ++ src_mac ++ be_bytes 2 ETHERTYPE_IPV4 ++ hdr ++ payload) 12 = Some ETHERTYPE_IPV4)
    by (rewrite app_assoc; apply be_at_here; [by rewrite length_app, Hd1, Hs1|fits_closed]).
  reads Het. change (negb (ETHERTYPE_IPV4 =? ETHERTYPE_IPV4)) with false. cbv iota.
  replace (drop 14 (dst_mac ++ src_mac ++ be_bytes 2 ETHERTYPE_IPV4 ++ hdr ++ payload)) with (hdr ++ payload).
  2: { rewrite !app_assoc, <- (app_assoc _ hdr), drop_app_length'; [done|]. by rewrite !length_app, length_be_bytes, Hd1, Hs1. }
  reads Hb0. change (negb (Z.shiftr 0x45 4 =? 4)) with false. cbv iota.
  change (Z.to_nat (Z.land 0x45 15 * 4)) with 20%nat. rewrite bool_decide_eq_true_2 by done. cbn [negb].
  reads Ht. replace (Z.to_nat tot) with (20 + length payload)%nat by (unfold tot; lia). rewrite !bool_decide_eq_false_2 by lia. cbn [orb].
  reads Hfr. change (negb (Z.land 0 16383 =? 0)) with false. cbv iota.
  reads Hh. rewrite Hck. change (negb (0 =? 0)) with false. cbv iota.
  reads (slice_at dst_mac src_mac (be_bytes 2 ETHERTYPE_IPV4 ++ hdr ++ payload) 6 6 Hd1 Hs1). reads H12. reads H16. reads H9.
  replace (20 + length payload - 20)%nat with (length payload) by lia. by rewrite Hpl.
Qed.

Lemma udp_roundtrip src dst src_port dst_port data :
  fits 16 src_port -> fits 16 dst_port -> Z.of_nat (length data) <= 65527 ->
  parse_udp (udp_payload src dst src_port dst_port data) =
    Some (Some {| u_src_port := src_port; u_dst_port := dst_port; u_data := data |}).
Proof.
  intros Hs Hd Hl. unfold udp_payload. assert (Hw : wrap 16 (Z.of_nat (UDP_HLEN + length data)) = Z.of_nat (8 + length data))
    by (unfold UDP_HLEN; apply wrap_small; unfold fits; lia).
  rewrite Hw. set (len := Z.of_nat (8 + length data)). set (sum := if _ =? 0 then _ else _). unfold udp_header. rewrite <- !app_assoc.
  set (u := be_bytes 2 src_port ++ _). assert (Hu : length u = (8 + length data)%nat) by (unfold u; rewrite !length_app, !length_be_bytes; lia).
  unfold parse_udp. rewrite Hu. unfold UDP_HLEN. rewrite bool_decide_eq_false_2 by lia.
  assert (H4 : be_at 2 u 4 = Some len).
  { unfold u. rewrite (app_assoc (be_bytes 2 src_port)). apply be_at_here; [by rewrite length_app, !length_be_bytes|unfold len, fits; lia]. }
  reads H4. replace (Z.to_nat len) with (8 + length data)%nat by (unfold len; lia). rewrite !bool_decide_eq_false_2 by lia. cbn [orb].
  assert (H0 : be_at 2 u 0 = Some src_port) by by apply (be_at_here []).
  assert (H2 : be_at 2 u 2 = Some dst_port) by by apply be_at_here.
  reads H0. reads H2. replace (8 + length data - 8)%nat with (length data) by lia.
  assert (Hdt : slice u 8 (length data) = Some data).
  { rewrite slice_Some by lia. unfold u. rewrite !app_assoc, drop_app_length' by (by rewrite !length_app, !length_be_bytes). by rewrite take_ge. }
  by reads Hdt.
Qed.

Lemma tcp_roundtrip src dst src_port dst_port seq ack flags window data :
  fits 16 src_port -> fits 16 dst_port -> fits 32 seq ->
  parse_tcp (tcp_payload src dst src_port dst_port seq ack flags window data) =
    Some (Some {| t_src_port := src_port; t_dst_port := dst_port; t_seq := seq; t_flags := flags; t_data := data |}).
Proof.
  intros Hs Hd Hq. unfold tcp_payload. set (sum := checksum _). unfold tcp_header. rewrite <- !app_assoc.
  set (u := be_bytes 2 src_port ++ _).
  assert (Hu : length u = (20 + length data)%nat) by (unfold u; rewrite !length_app, !length_be_bytes; cbn; lia).
  unfold parse_tcp. rewrite Hu. unfold TCP_HLEN. rewrite bool_decide_eq_false_2 by lia.
  set (head := be_bytes 2 src_port ++ be_bytes 2 dst_port ++ be_bytes 4 seq ++ be_bytes 4 ack).
  assert (Hhead : length head = 12%nat) by (unfold head; by rewrite !length_app, !length_be_bytes).
  assert (Eu : u = head ++ [0x50; flags] ++ be_bytes 2 window ++ be_bytes 2 sum ++ [0; 0] ++ data) by (unfold u, head; by rewrite <- !app_assoc).
  assert (H12 : u !! 12%nat = Some 0x50) by (rewrite Eu; rewrite lookup_app_r by lia; by rewrite Hhead).
  assert (H13 : u !! 13%nat = Some flags) by (rewrite Eu; rewrite lookup_app_r by lia; by rewrite Hhead).
  reads H12. change (Z.to_nat (Z.shiftr 0x50 4 * 4)) with 20%nat. rewrite !bool_decide_eq_false_2 by lia. cbn [orb].
  assert (H0 : be_at 2 u 0 = Some src_port) by by apply (be_at_here []).
  assert (H2 : be_at 2 u 2 = Some dst_port) by by apply be_at_here.
  assert (H4 : be_at 4 u 4 = Some seq) by (unfold u; rewrite (app_assoc (be_bytes 2 src_port)); apply be_at_here; [by rewrite length_app, !length_be_bytes|done]).
  reads H0. reads H2. reads H4. reads H13. replace (20 + length data - 20)%nat with (length data) by lia.
  assert (Hdt : slice u 20 (length data) = Some data).
  { rewrite slice_Some by lia. unfold u. rewrite !app_assoc, drop_app_length' by (by rewrite !length_app, !length_be_bytes). by rewrite take_ge. }
  by reads Hdt.
Qed.

(** The transport checksums verify over the pseudo-header. *)
Lemma pseudo_header_facts src dst proto len :
  bytes_of 4 src -> bytes_of 4 dst -> fits 8 proto -> 0 < proto ->
  Forall (fits 8) (pseudo_header src dst proto len) /\ length (pseudo_header src dst proto len) = 12%nat /\
  0 < total (pseudo_header src dst proto len).
Proof.
  intros [Hs1 Hs2] [Hd1 Hd2] Hp Hpos. unfold pseudo_header. split.
  { rewrite !Forall_app. split; [done|]. split; [done|]. split; [constructor; [fits_closed|by constructor]|apply be_bytes_fits]. }
  split; [by rewrite !length_app, length_be_bytes, Hs1, Hd1|].
  pose proof (total_bound src Hs2). pose proof (total_bound dst Hd2). pose proof (total_bound (be_bytes 2 len) (be_bytes_fits 2 len)).
  rewrite !total_app by (by rewrite ?Hs1, ?Hd1). cbn [total]. lia.
Qed.

Lemma udp_checksum_verifies src dst src_port dst_port data :
  bytes_of 4 src -> bytes_of 4 dst -> Forall (fits 8) data -> Z.of_nat (length data) <= 65527 ->
  checksum (pseudo_header src dst IP_PROTO_UDP (wrap 16 (Z.of_nat (UDP_HLEN + length data)))
            ++ udp_payload src dst src_port dst_port data) = 0.
Proof.
  intros Hs Hd Hf Hl. unfold udp_payload. set (len := wrap 16 _).
  destruct (pseudo_header_facts src dst IP_PROTO_UDP len Hs Hd ltac:(fits_closed) ltac:(done)) as (Hpf & Hpl & Hpt).
  set (pre := pseudo_header src dst IP_PROTO_UDP len ++ be_bytes 2 src_port ++ be_bytes 2 dst_port ++ be_bytes 2 len).
  assert (E : forall s, pseudo_header src dst IP_PROTO_UDP len ++ udp_header src_port dst_port len s ++ data = pre ++ be_bytes 2 s ++ data).
  { intros s. unfold pre, udp_header. by rewrite <- !app_assoc. }
  assert (Hpre : Forall (fits 8) (pre ++ data)) by (unfold pre; rewrite !Forall_app; auto 10 using be_bytes_fits).
  assert (Hlen : length pre = 18%nat) by (unfold pre; by rewrite !length_app, !length_be_bytes, Hpl).
  assert (Htot : 0 < total pre).
  { unfold pre. rewrite total_app by (by rewrite Hpl). pose proof (total_bound (be_bytes 2 src_port ++ be_bytes 2 dst_port ++ be_bytes 2 len)) as Hb.
    destruct Hb as [Hb _]; [|lia]. rewrite !Forall_app. auto using be_bytes_fits. }
  rewrite !E. destruct (Z.eqb_spec (checksum (pre ++ be_bytes 2 0 ++ data)) 0) as [E0|].
  - apply checksum_verifies_nonzero; try done; rewrite ?Hlen; done || lia.
  - apply checksum_verifies; try done; rewrite ?Hlen; done || lia.
Qed.

Lemma tcp_checksum_verifies src dst src_port dst_port seq ack flags window data :
  bytes_of 4 src -> bytes_of 4 dst -> fits 8 flags -> Forall (fits 8) data -> Z.of_nat (length data) <= 65515 ->
  checksum (pseudo_header src dst IP_PROTO_TCP (wrap 16 (Z.of_nat (TCP_HLEN + length data)))
            ++ tcp_payload src dst src_port dst_port seq ack flags window data) = 0.
Proof.
  intros Hs Hd Hfl Hf Hl. unfold tcp_payload. set (len := wrap 16 _).
  destruct (pseudo_header_facts src dst IP_PROTO_TCP len Hs Hd ltac:(fits_closed) ltac:(done)) as (Hpf & Hpl & Hpt).
  set (mid := be_bytes 2 src_port ++ be_bytes 2 dst_port ++ be_bytes 4 seq ++ be_bytes 4 ack ++ [0x50; flags] ++ be_bytes 2 window).
  assert (Hmid : Forall (fits 8) mid).
  { unfold mid. rewrite !Forall_app. do 4 (split; [apply be_bytes_fits|]). split; [|apply be_bytes_fits]. constructor; [fits_closed|by constructor]. }
  assert (E : forall s, pseudo_header src dst IP_PROTO_TCP len ++ tcp_header src_port dst_port seq ack flags window s ++ data
                        = (pseudo_header src dst IP_PROTO_TCP len ++ mid) ++ be_bytes 2 s ++ ([0; 0] ++ data)).
  { intros s. unfold mid, tcp_header. by rewrite <- !app_assoc. }
  assert (Hlen : length (pseudo_header src dst IP_PROTO_TCP len ++ mid) = 28%nat) by (unfold mid; by rewrite !length_app, !length_be_bytes, Hpl).
  rewrite !E. apply checksum_verifies; [| |by rewrite Hlen| |done].
  - rewrite !Forall_app. split; [done|]. split; [by apply all_bytes_fits|done].
  - rewrite Hlen. cbn [app length]. lia.
  - rewrite total_app by (by rewrite Hpl). pose proof (total_bound mid Hmid). lia.
Qed.

Lemma length_udp_payload src dst sp dp data : length (udp_payload src dst sp dp data) = (UDP_HLEN + length data)%nat.
Proof. unfold udp_payload, udp_header. rewrite !length_app, !length_be_bytes. done. Qed.

Lemma length_tcp_payload src dst sp dp seq ack flags window data :
  length (tcp_payload src dst sp dp seq ack flags window data) = (TCP_HLEN + length data)%nat.
Proof. unfold tcp_payload, tcp_header. rewrite !length_app, !length_be_bytes. done. Qed.

(** C22: a UDP datagram or TCP segment built for two ports and put in a frame is
    read back by the parsers with the same addresses, ports, sequence number,
    flags and data, for every length an IPv4 packet can hold, and the checksums
    the receiver recomputes (header, and transport over the pseudo-header) are
    all zero. *)
Theorem packet_roundtrip dst_mac src_mac src dst ip_id sp dp seq ack flags window data :
  addressed dst_mac src_mac src dst IP_PROTO_UDP ip_id -> fits 16 sp -> fits 16 dp -> fits 32 seq -> fits 8 flags ->
  Forall (fits 8) data -> Z.of_nat (length data) <= 65495 ->
  let u := udp_payload src dst sp dp data in
  let t := tcp_payload src dst sp dp seq ack flags window data in
  let packet proto payload :=
    Some (Some {| ip_src_mac := src_mac; ip_src := src; ip_dst := dst; ip_proto := proto; ip_payload := payload |}) in
  let verifies proto payload :=
    checksum (pseudo_header src dst proto (wrap 16 (Z.of_nat (length payload))) ++ payload) = 0 in
  parse_ipv4 (ipv4_frame dst_mac src_mac src dst IP_PROTO_UDP ip_id u) = packet IP_PROTO_UDP u /\
  parse_udp u = Some (Some {| u_src_port := sp; u_dst_port := dp; u_data := data |}) /\ verifies IP_PROTO_UDP u /\
  parse_ipv4 (ipv4_frame dst_mac src_mac src dst IP_PROTO_TCP ip_id t) = packet IP_PROTO_TCP t /\
  parse_tcp t = Some (Some {| t_src_port := sp; t_dst_port := dp; t_seq := seq; t_flags := flags; t_data := data |}) /\
  verifies IP_PROTO_TCP t.
Proof.
  intros Ha Hsp Hdp Hseq Hfl Hd Hl u t packet verifies.
  assert (Hu : length u = (UDP_HLEN + length data)%nat) by apply length_udp_payload.
  assert (Ht : length t = (TCP_HLEN + length data)%nat) by apply length_tcp_payload.
  destruct Ha as [Hdm Hsm Hs Hdst Hp Hid]. unfold verifies. split_and!.
  - apply parse_ipv4_frame; [by split|rewrite Hu; unfold UDP_HLEN; lia].
  - apply udp_roundtrip; [done..|lia].
  - rewrite Hu. apply udp_checksum_verifies; [done..|lia].
  - apply parse_ipv4_frame; [split; done || fits_closed|rewrite Ht; unfold TCP_HLEN; lia].
  - by apply tcp_roundtrip.
  - rewrite Ht. apply tcp_checksum_verifies; [done..|lia].
Qed.

Lemma packet_roundtrip_witness :
  let u := udp_payload GUEST_IP GATEWAY_IP 4000 53 [1; 2; 3] in
  ipv4 (ipv4_frame (replicate 6 255) DEFAULT_GUEST_MAC GUEST_IP GATEWAY_IP IP_PROTO_UDP 7 u) =
    Some {| ip_src_mac := DEFAULT_GUEST_MAC; ip_src := GUEST_IP; ip_dst := GATEWAY_IP; ip_proto := IP_PROTO_UDP; ip_payload := u |}.
Proof.
  unfold ipv4. destruct (packet_roundtrip (replicate 6 255) DEFAULT_GUEST_MAC GUEST_IP GATEWAY_IP 7 4000 53 0 0 TCP_SYN 0 [1; 2; 3]) as [H _].
  - split; try (split; [reflexivity|apply all_bytes_fits; reflexivity]); fits_closed.
  - fits_closed.
  - fits_closed.
  - fits_closed.
  - fits_closed.
  - apply all_bytes_fits. reflexivity.
  - vm_compute. discriminate.
  - cbv zeta in H |- *. rewrite H. reflexivity.
Defined.

(** What a parsed packet is made of. *)
Record ipv4_ok (ip : Ipv4) : Prop := {
  io_src_mac : bytes_of 6 (ip_src_mac ip);
  io_src : bytes_of 4 (ip_src ip);
  io_dst : bytes_of 4 (ip_dst ip);
  io_proto : fits 8 (ip_proto ip);
  io_payload : Forall (fits 8) (ip_payload ip);
  io_len : Z.of_nat (length (ip_payload ip)) <= 65515;
}.

Lemma slice_bytes l i n x : Forall (fits 8) l -> slice l i n = Some x -> bytes_of n x.
Proof.
  intros Hf. unfold slice. case_bool_decide; [|done]. intros [= <-]. split; [rewrite length_take, length_drop; lia|].
  by apply Forall_take, Forall_drop.
Qed.

Lemma be_at_fits n l i v : Forall (fits 8) l -> be_at n l i = Some v -> fits (8 * Z.of_nat n) v.
Proof.
  intros Hf. unfold be_at. destruct (slice l i n) as [x|] eqn:E; cbn; [|done]. intros [= <-].
  destruct (slice_bytes _ _ _ _ Hf E) as [Hl Hx]. unfold of_be, fits. rewrite Z.pow_mul_r by lia. change (2 ^ 8) with 256.
  rewrite <- Hl, <- length_reverse. apply of_le_bound. by apply Forall_reverse.
Qed.

Ltac next_read E :=
  match goal with
  | |- (?c ≫= _) = Some (Some _) -> _ =>
      let v := fresh "v" in destruct c as [v|] eqn:E; [|done];
      match goal with |- (Some v ≫= ?k) = _ -> _ => change (Some v ≫= k) with (k v); cbn beta zeta end
  end.

Lemma parse_ipv4_ok frame ip : Forall (fits 8) frame -> parse_ipv4 frame = Some (Some ip) -> ipv4_ok ip /\ ip_src_mac ip = take 6 (drop 6 frame).
Proof.
  intros Hf. unfold parse_ipv4. case_bool_decide as Hl; [done|]. assert (Hfd : Forall (fits 8) (drop ETH_HLEN frame)) by by apply Forall_drop.
  next_read E1. destruct (negb _); [done|]. next_read E2. destruct (negb _); [done|]. case_bool_decide as Hi; [|done]. cbn [negb]. rewrite Hi.
  next_read E3. apply be_at_fits in E3; [|done]. destruct (_ || _) eqn:Et; [done|]. next_read E4. destruct (negb _); [done|]. next_read E5. destruct (negb _); [done|].
  next_read E6. next_read E7. next_read E8. next_read E9. next_read E10. intros [= <-]. split.
  - split; cbn.
    + exact (slice_bytes _ _ _ _ Hf E6).
    + exact (slice_bytes _ _ _ _ Hfd E7).
    + exact (slice_bytes _ _ _ _ Hfd E8).
    + exact (list.Forall_lookup_1 _ _ _ _ Hfd E9).
    + exact (proj2 (slice_bytes _ _ _ _ Hfd E10)).
    + rewrite (proj1 (slice_bytes _ _ _ _ Hfd E10)). unfold fits, IPV4_HLEN in *. lia.
  - cbn. unfold slice in E6. case_bool_decide; [|done]. by injection E6 as <-.
Qed.

Lemma ipv4_ok_of frame ip : Forall (fits 8) frame -> ipv4 frame = Some ip -> ipv4_ok ip /\ ip_src_mac ip = take 6 (drop 6 frame).
Proof. intros Hf H. apply parse_ipv4_ok; [done|]. by rewrite parse_ipv4_no_panic, H. Qed.

Lemma udp_fits payload u :
  Forall (fits 8) payload -> udp payload = Some u ->
  fits 16 (u_src_port u) /\ fits 16 (u_dst_port u) /\ Forall (fits 8) (u_data u) /\ (length (u_data u) <= length payload)%nat.
Proof.
  intros Hf H. assert (E : parse_udp payload = Some (Some u)) by by rewrite parse_udp_no_panic, H. revert E. clear H. unfold parse_udp.
  case_bool_decide; [done|]. next_read E1. destruct (_ || _); [done|]. next_read E2. next_read E3. next_read E4. intros [= <-]. cbn.
  split; [by apply be_at_fits in E2|]. split; [by apply be_at_fits in E3|]. pose proof (slice_bytes _ _ _ _ Hf E4) as [? ?]. split; [done|].
  unfold slice in E4. case_bool_decide; [|done]. lia.
Qed.

Lemma tcp_fits payload t :
  Forall (fits 8) payload -> tcp payload = Some t ->
  fits 16 (t_src_port t) /\ fits 16 (t_dst_port t) /\ fits 32 (t_seq t) /\ fits 8 (t_flags t) /\ Forall (fits 8) (t_data t) /\
  (length (t_data t) <= length payload)%nat.
Proof.
  intros Hf H. assert (E : parse_tcp payload = Some (Some t)) by by rewrite parse_tcp_no_panic, H. revert E. clear H. unfold parse_tcp.
  case_bool_decide; [done|]. next_read E1. destruct (_ || _); [done|]. next_read E2. next_read E3. next_read E4. next_read E5. next_read E6. intros [= <-]. cbn.
  split; [by apply be_at_fits in E2|]. split; [by apply be_at_fits in E3|]. split; [by apply be_at_fits in E4|].
  split; [exact (list.Forall_lookup_1 _ _ _ _ Hf E5)|]. pose proof (slice_bytes _ _ _ _ Hf E6) as [? ?]. split; [done|].
  unfold slice in E6. case_bool_decide; [|done]. lia.
Qed.
