(* ===== verification/NetPolicy.v ===== *)
(** * Network policy: what a guest may send

    Model of [ternvale-net/src/policy.rs] with [parse_cidr] of
    [ternvale-config/src/policy.rs]: MAC and IP anti-spoofing, LAN isolation, the
    allow and deny lists, the rate limits, and what is learned from DHCP replies.
    Token buckets compute in binary64 ([SpecFloat], executable); time is the
    host's clock in nanoseconds, an argument.  A frame that is dropped is dropped
    with the name of the rule. *)

From Stdlib Require Import SpecFloat.
From stdpp Require Import list.
From S2P Require Import Prelude NetPacket.

(** ** CIDR prefixes *)

Definition is_digit (c : Z) : bool := (48 <=? c) && (c <=? 57).

(** Decimal digits below [2^32]. *)
Fixpoint decimal (acc : Z) (bs : list Z) : option Z :=
  match bs with
  | [] => Some acc
  | c :: bs =>
      if is_digit c then
        let v := acc * 10 + (c - 48) in
        if v <? 2 ^ 32 then decimal v bs else None
      else None
  end.

(** [str::parse::<u32>]: digits after an optional plus. *)
Definition parse_u32 (bs : list Z) : option Z :=
  match bs with
  | [] => None
  | 43 :: [] => None
  | 43 :: bs => decimal 0 bs
  | bs => decimal 0 bs
  end.

(** One to three digits, no leading zero, at most 255. *)
Definition parse_octet (bs : list Z) : option Z :=
  if bool_decide (bs = []) || bool_decide (3 < length bs)%nat then None
  else if bool_decide (1 < length bs)%nat && bool_decide (head bs = Some 48) then None
  else match decimal 0 bs with Some v => if v <=? 255 then Some v else None | None => None end.

Fixpoint split (sep : Z) (bs : list Z) : list (list Z) :=
  match bs with
  | [] => [[]]
  | c :: bs =>
      if c =? sep then [] :: split sep bs
      else match split sep bs with w :: ws => (c :: w) :: ws | [] => [[c]] end
  end.

(** [Ipv4Addr::from_str], as the address's four octets. *)
Definition parse_addr (bs : list Z) : option (list Z) :=
  match split 46 bs with
  | [a; b; c; d] =>
      a ← parse_octet a; b ← parse_octet b; c ← parse_octet c; d ← parse_octet d; Some [a; b; c; d]
  | _ => None
  end.

(** [split_once]. *)
Fixpoint split_once (sep : Z) (bs : list Z) : option (list Z * list Z) :=
  match bs with
  | [] => None
  | c :: bs =>
      if c =? sep then Some ([], bs)
      else match split_once sep bs with Some (a, b) => Some (c :: a, b) | None => None end
  end.

Inductive CidrError := NoPrefix | NotAddress | NotNumeric | TooLong.

Definition mask_of (bits : Z) : Z := if bits =? 0 then 0 else wrap 32 (Z.shiftl (2 ^ 32 - 1) (32 - bits)).

Definition parse_cidr (text : list Z) : result CidrError (Z * Z) :=
  p ← ok_or (split_once 47 text) NoPrefix;
  ip ← ok_or (parse_addr p.1) NotAddress;
  bits ← ok_or (parse_u32 p.2) NotNumeric;
  if 32 <? bits then Err TooLong
  else let mask := mask_of bits in Ok (Z.land (of_be ip) mask, mask).

(** ** The policy *)

Inductive ForwardProto := Tcp | Udp.
Record CidrPort := { cp_cidr : list Z; cp_port : option Z; cp_proto : option ForwardProto }.

Record NicPolicy := {
  np_allow_lan : bool;
  np_allow : list CidrPort;
  np_deny : list CidrPort;
  np_bandwidth_bps : option Z;
  np_pps : option Z;
  np_anti_spoof : bool;
}.

Record Rule := { ru_net : Z; ru_mask : Z; ru_port : option Z; ru_proto : option Z }.

Definition compile_rule (r : CidrPort) : option Rule :=
  match parse_cidr (cp_cidr r) with
  | Err _ => None
  | Ok (net, mask) =>
      Some {| ru_net := net; ru_mask := mask; ru_port := cp_port r;
              ru_proto := match cp_proto r with
                          | Some Tcp => Some IP_PROTO_TCP | Some Udp => Some IP_PROTO_UDP | None => None end |}
  end.

Definition compile_rules (l : list CidrPort) : list Rule := omap compile_rule l.

(** ** Token buckets, in binary64 *)

Definition f64 : Type := spec_float.
Definition f64_add : f64 -> f64 -> f64 := SFadd 53 1024.
Definition f64_sub : f64 -> f64 -> f64 := SFsub 53 1024.
Definition f64_mul : f64 -> f64 -> f64 := SFmul 53 1024.
Definition f64_div : f64 -> f64 -> f64 := SFdiv 53 1024.
Definition f64_of (n : Z) : f64 := binary_normalize 53 1024 n 0 false.
Definition is_nan (a : f64) : bool := match a with S754_nan => true | _ => false end.
Definition f64_min (a b : f64) : f64 := if is_nan a then b else if SFltb b a then b else a.
Definition f64_max (a b : f64) : f64 := if is_nan a then b else if SFltb a b then b else a.

(** [Duration::as_secs_f64]. *)
Definition as_secs_f64 (nanos : Z) : f64 :=
  f64_add (f64_of (nanos / 10 ^ 9)) (f64_div (f64_of (nanos mod 10 ^ 9)) (f64_of (10 ^ 9))).

Record TokenBucket := { tb_rate : f64; tb_burst : f64; tb_tokens : f64; tb_last : Z }.

Definition bucket_new (rate burst_secs : f64) (now : Z) : TokenBucket :=
  let burst := f64_max (f64_mul rate burst_secs) (f64_of 1) in
  {| tb_rate := rate; tb_burst := burst; tb_tokens := burst; tb_last := now |}.

Definition bucket_take (amount : f64) (now : Z) (b : TokenBucket) : bool * TokenBucket :=
  let dt := as_secs_f64 (Z.max (now - tb_last b) 0) in
  let tokens := f64_min (f64_add (tb_tokens b) (f64_mul dt (tb_rate b))) (tb_burst b) in
  if SFleb amount tokens
  then (true, {| tb_rate := tb_rate b; tb_burst := tb_burst b; tb_tokens := f64_sub tokens amount; tb_last := now |})
  else (false, {| tb_rate := tb_rate b; tb_burst := tb_burst b; tb_tokens := tokens; tb_last := now |}).

Record PolicyEngine := {
  pe_allow_lan : bool;
  pe_anti_spoof : bool;
  pe_expected_mac : list Z;
  pe_expected_ip : option (list Z);
  pe_gateways : list (list Z);
  pe_allow : list Rule;
  pe_deny : list Rule;
  pe_pps : option TokenBucket;
  pe_bandwidth : option TokenBucket;
}.

Definition from_parts (policy : NicPolicy) (mac : list Z) (expected_ip : option (list Z)) (gateways : list (list Z))
    (now : Z) : PolicyEngine :=
  {| pe_allow_lan := np_allow_lan policy; pe_anti_spoof := np_anti_spoof policy; pe_expected_mac := mac;
     pe_expected_ip := expected_ip; pe_gateways := gateways; pe_allow := compile_rules (np_allow policy);
     pe_deny := compile_rules (np_deny policy);
     pe_pps := (fun pps => bucket_new (f64_of pps) (f64_of 1) now) <$> np_pps policy;
     pe_bandwidth := (fun bps => bucket_new (f64_div (f64_of bps) (f64_of 8)) (f64_of 1) now) <$> np_bandwidth_bps policy |}.

(** [user] says whether the NIC's backend is the user-mode NAT. *)
Definition from_nic (policy : NicPolicy) (user : bool) (now : Z) : PolicyEngine :=
  from_parts policy DEFAULT_GUEST_MAC (if user then Some GUEST_IP else None)
    (if user then [GATEWAY_IP; DNS_IP] else []) now.

Definition set_limits (pps bandwidth : option TokenBucket) (e : PolicyEngine) : PolicyEngine :=
  {| pe_allow_lan := pe_allow_lan e; pe_anti_spoof := pe_anti_spoof e; pe_expected_mac := pe_expected_mac e;
     pe_expected_ip := pe_expected_ip e; pe_gateways := pe_gateways e; pe_allow := pe_allow e; pe_deny := pe_deny e;
     pe_pps := pps; pe_bandwidth := bandwidth |}.
Definition set_addresses (mac : list Z) (ip : option (list Z)) (gateways : list (list Z)) (e : PolicyEngine) : PolicyEngine :=
  {| pe_allow_lan := pe_allow_lan e; pe_anti_spoof := pe_anti_spoof e; pe_expected_mac := mac;
     pe_expected_ip := ip; pe_gateways := gateways; pe_allow := pe_allow e; pe_deny := pe_deny e;
     pe_pps := pe_pps e; pe_bandwidth := pe_bandwidth e |}.

Definition set_mac (mac : list Z) (e : PolicyEngine) : PolicyEngine :=
  set_addresses mac (pe_expected_ip e) (pe_gateways e) e.

(** ** Matching *)

Definition rule_matches (ip : Z) (port : option Z) (proto : Z) (r : Rule) : bool :=
  if negb (Z.land ip (ru_mask r) =? ru_net r) then false
  else
    match ru_proto r with Some want => want =? proto | None => true end &&
    match ru_port r, port with
    | None, _ => true
    | Some want, Some have => want =? have
    | Some _, None => false
    end.

Definition matches_list (rules : list Rule) (dst : list Z) (port : option Z) (proto : Z) : bool :=
  existsb (rule_matches (of_be dst) port proto) rules.

Definition NETS : list (Z * Z) :=
  [(0x0a000000, 0xff000000); (0xac100000, 0xfff00000); (0xc0a80000, 0xffff0000); (0xa9fe0000, 0xffff0000)].

Definition is_blocked_lan (dst : list Z) (gateways : list (list Z)) : bool :=
  if bool_decide (dst ∈ gateways) then false
  else existsb (fun nm => Z.land (of_be dst) nm.2 =? nm.1) NETS.

Definition l4 (ip : Ipv4) : option Z * Z :=
  if (ip_proto ip =? IP_PROTO_TCP) && bool_decide (4 <= length (ip_payload ip))%nat
  then (be_at 2 (ip_payload ip) 2, IP_PROTO_TCP)
  else if ip_proto ip =? IP_PROTO_UDP then (u_dst_port <$> udp (ip_payload ip), IP_PROTO_UDP)
  else (None, ip_proto ip).

Definition DHCP_SERVER : Z := 67.
Definition DHCP_CLIENT : Z := 68.

Definition is_dhcp (ip : Ipv4) (dst_port : option Z) : bool :=
  (ip_proto ip =? IP_PROTO_UDP) && match dst_port with Some p => (p =? DHCP_SERVER) || (p =? DHCP_CLIENT) | None => false end.

Inductive DropRule := RULE_SPOOF_MAC | RULE_SPOOF_IP | RULE_ALLOW_LAN | RULE_DENY | RULE_ALLOW | RULE_PPS | RULE_BANDWIDTH.

Definition ETHERTYPE_IPV6 : Z := 0x86dd.

(** The rules for a datagram, after the limits and the MAC. *)
Definition classify_ip (e : PolicyEngine) (ip : Ipv4) : option DropRule :=
  let '(dst_port, proto) := l4 ip in
  if is_dhcp ip dst_port then None
  else if pe_anti_spoof e && match pe_expected_ip e with
                             | Some lease => negb (bool_decide (ip_src ip = lease)) && negb (bool_decide (ip_src ip = [0; 0; 0; 0]))
                             | None => false
                             end then Some RULE_SPOOF_IP
  else if negb (pe_allow_lan e) && is_blocked_lan (ip_dst ip) (pe_gateways e) then Some RULE_ALLOW_LAN
  else if matches_list (pe_deny e) (ip_dst ip) dst_port proto then Some RULE_DENY
  else if negb (bool_decide (pe_allow e = [])) && negb (matches_list (pe_allow e) (ip_dst ip) dst_port proto) then Some RULE_ALLOW
  else None.

(** The rules after the limits. *)
Definition classify_frame (e : PolicyEngine) (frame : list Z) : option DropRule :=
  if pe_anti_spoof e && negb (bool_decide (take 6 (drop 6 frame) = pe_expected_mac e)) then Some RULE_SPOOF_MAC
  else
    let ethertype := of_be (take 2 (drop 12 frame)) in
    if ethertype =? ETHERTYPE_ARP then None
    else if ethertype =? ETHERTYPE_IPV6 then if negb (pe_allow_lan e) then Some RULE_ALLOW_LAN else None
    else if negb (ethertype =? ETHERTYPE_IPV4) then None
    else match ipv4 frame with Some ip => classify_ip e ip | None => None end.

(** One bucket, when it is configured. *)
Definition limit (b : option TokenBucket) (amount : f64) (now : Z) : bool * option TokenBucket :=
  match b with
  | None => (true, None)
  | Some b => let '(ok, b) := bucket_take amount now b in (ok, Some b)
  end.

Definition classify_tx (frame : list Z) (now : Z) (e : PolicyEngine) : option DropRule * PolicyEngine :=
  if bool_decide (length frame < ETH_HLEN)%nat then (None, e)
  else
    let '(ok, pps) := limit (pe_pps e) (f64_of 1) now in
    let e := set_limits pps (pe_bandwidth e) e in
    if negb ok then (Some RULE_PPS, e)
    else
      let '(ok, bw) := limit (pe_bandwidth e) (f64_of (Z.of_nat (length frame))) now in
      let e := set_limits (pe_pps e) bw e in
      if negb ok then (Some RULE_BANDWIDTH, e) else (classify_frame e frame, e).

Definition decide_tx : list Z -> Z -> PolicyEngine -> option DropRule * PolicyEngine := classify_tx.

(** ** Learning from DHCP replies *)

Definition BOOTREPLY : Z := 2.
Definition DHCP_YIADDR : nat := 16.
Definition DHCP_OPTIONS : nat := 240.
Definition OPT_ROUTER : Z := 3.

(** [chunks_exact(4)]. *)
Fixpoint chunks4 (bs : list Z) : list (list Z) :=
  match bs with
  | a :: b :: c :: d :: bs => [a; b; c; d] :: chunks4 bs
  | _ => []
  end.

(** The option loop at index [i]; each round advances it, so the length is enough. *)
Fixpoint routers_from (fuel : nat) (bootp : list Z) (i : nat) : list (list Z) :=
  match fuel with
  | O => []
  | S fuel =>
      match bootp !! i, bootp !! S i with
      | Some tag, Some len =>
          if tag =? 255 then []
          else if tag =? 0 then routers_from fuel bootp (i + 1)
          else
            let start := (i + 2)%nat in
            let end_ := (start + Z.to_nat len)%nat in
            if bool_decide (length bootp < end_)%nat then []
            else (if tag =? OPT_ROUTER then chunks4 (take (end_ - start) (drop start bootp)) else [])
                 ++ routers_from fuel bootp end_
      | _, _ => []
      end
  end.

Definition dhcp_ack (frame : list Z) : option (list Z * list (list Z)) :=
  ip ← ipv4 frame;
  if negb (ip_proto ip =? IP_PROTO_UDP) then None
  else
    match udp (ip_payload ip) with
    | None => None
    | Some u =>
        if negb (u_dst_port u =? DHCP_CLIENT) && negb (u_src_port u =? DHCP_SERVER) then None
        else if bool_decide (length (u_data u) < DHCP_OPTIONS)%nat || negb (bool_decide (u_data u !! 0%nat = Some BOOTREPLY)) then None
        else Some (take 4 (drop DHCP_YIADDR (u_data u)), routers_from (length (u_data u)) (u_data u) DHCP_OPTIONS)
    end.

Fixpoint learn_gateways (routers gateways : list (list Z)) : list (list Z) :=
  match routers with
  | [] => gateways
  | r :: routers => learn_gateways routers (if bool_decide (r ∈ gateways) then gateways else gateways ++ [r])
  end.

Definition observe_rx (frame : list Z) (e : PolicyEngine) : PolicyEngine :=
  match dhcp_ack frame with
  | None => e
  | Some (yiaddr, routers) =>
      set_addresses (pe_expected_mac e) (if bool_decide (yiaddr = [0; 0; 0; 0]) then pe_expected_ip e else Some yiaddr)
        (learn_gateways routers (pe_gateways e)) e
  end.

(** ** What the rules mean *)

(** [ip] lies in the prefix of [bits] bits of [addr]. *)
Definition in_prefix (addr bits ip : Z) : Prop := ip / 2 ^ (32 - bits) = addr / 2 ^ (32 - bits).

Definition private (ip : Z) : Prop :=
  in_prefix 0x0a000000 8 ip \/ in_prefix 0xac100000 12 ip \/ in_prefix 0xc0a80000 16 ip \/ in_prefix 0xa9fe0000 16 ip.

(** A configured entry covers a destination. *)
Definition covers (dst : list Z) (port : option Z) (proto : Z) (c : CidrPort) : Prop :=
  exists text rest addr bits,
    split_once 47 (cp_cidr c) = Some (text, rest) /\ parse_addr text = Some addr /\ parse_u32 rest = Some bits /\
    in_prefix (of_be addr) bits (of_be dst) /\
    match cp_proto c with Some Tcp => proto = IP_PROTO_TCP | Some Udp => proto = IP_PROTO_UDP | None => True end /\
    match cp_port c with Some p => port = Some p | None => True end.

(** The frame carries the NIC's own MAC, where spoofing is checked. *)
Definition own_mac (e : PolicyEngine) (ip : Ipv4) : Prop :=
  pe_anti_spoof e = true -> ip_src_mac ip = pe_expected_mac e.

(** The source is the leased address, where spoofing is checked and there is a
    lease: the documented rule. *)
Definition own_ip (e : PolicyEngine) (ip : Ipv4) : Prop :=
  pe_anti_spoof e = true -> forall lease, pe_expected_ip e = Some lease -> ip_src ip = lease.

(** The destination is one the configuration means to let out: not private
    unless the LAN is allowed or it is a gateway, under no deny entry, and under
    an allow entry if there are any. *)
Definition destination_permitted (e : PolicyEngine) (allow deny : list CidrPort) (ip : Ipv4) : Prop :=
  (pe_allow_lan e = false -> ip_dst ip ∈ pe_gateways e \/ ~ private (of_be (ip_dst ip))) /\
  ~ Exists (covers (ip_dst ip) (l4 ip).1 (l4 ip).2) deny /\
  (allow = [] \/ Exists (covers (ip_dst ip) (l4 ip).1 (l4 ip).2) allow).

(** The datagram is one the documented policy lets out. *)
Definition permitted (e : PolicyEngine) (allow deny : list CidrPort) (ip : Ipv4) : Prop :=
  own_mac e ip /\ own_ip e ip /\ destination_permitted e allow deny ip.

(** The unspecified source, which the code lets past the lease check. *)
Definition unspecified_source (ip : Ipv4) : Prop := ip_src ip = [0; 0; 0; 0].

Lemma mask_land bits x :
  0 <= bits <= 32 -> fits 32 x -> Z.land x (mask_of bits) = x / 2 ^ (32 - bits) * 2 ^ (32 - bits).
Proof.
  intros Hb [Hx0 Hx1]. unfold mask_of. destruct (Z.eqb_spec bits 0) as [->|].
  - rewrite Z.land_0_r. change (32 - 0) with 32. rewrite Z.div_small by done. lia.
  - rewrite <- Z.shiftl_mul_pow2, <- Z.shiftr_div_pow2 by lia. unfold wrap. rewrite <- Z.land_ones by lia.
    apply Z.bits_inj'. intros i Hi. rewrite !Z.land_spec, Z.shiftl_spec by lia.
    change (2 ^ 32 - 1) with (Z.ones 32). rewrite Z.shiftl_spec by lia. destruct (Z.ltb_spec i (32 - bits)).
    + rewrite (Z.testbit_neg_r (Z.ones 32)) by lia. rewrite (Z.testbit_neg_r (Z.shiftr x _)) by lia. by rewrite andb_false_r.
    + rewrite Z.shiftr_spec by lia. replace (i - (32 - bits) + (32 - bits)) with i by lia. rewrite Z.testbit_ones_nonneg by lia.
      destruct (Z.ltb_spec i 32) as [Hlt|Hge].
      * rewrite Z.testbit_ones_nonneg by lia. destruct (Z.ltb_spec (i - (32 - bits)) 32), (Z.ltb_spec i 32); try lia. by rewrite !andb_true_r.
      * rewrite (testbit_high x 32 i) by done. done.
Qed.

Lemma mask_match bits addr ip :
  0 <= bits <= 32 -> fits 32 addr -> fits 32 ip ->
  Z.land ip (mask_of bits) = Z.land addr (mask_of bits) <-> in_prefix addr bits ip.
Proof.
  intros Hb Ha Hi. rewrite !mask_land by done. unfold in_prefix. pose proof (Z.pow_pos_nonneg 2 (32 - bits) ltac:(lia) ltac:(lia)).
  split; [|by intros ->]. intros E. by apply Z.mul_cancel_r in E; [|lia].
Qed.

Lemma of_be4_fits l : bytes_of 4 l -> fits 32 (of_be l).
Proof.
  intros [Hl Hf]. unfold of_be, fits. change (2 ^ 32) with (256 ^ Z.of_nat 4). rewrite <- Hl, <- length_reverse.
  apply of_le_bound. by apply Forall_reverse.
Qed.

Lemma decimal_nonneg acc bs v : 0 <= acc -> decimal acc bs = Some v -> 0 <= v.
Proof.
  revert acc. induction bs as [|c bs IH]; intros acc Ha; cbn; [by intros [= <-]|]. unfold is_digit.
  destruct ((48 <=? c) && (c <=? 57)) eqn:Ec; [|done]. destruct (_ <? _); [|done]. apply IH. lia.
Qed.

Lemma parse_octet_fits bs v : parse_octet bs = Some v -> fits 8 v.
Proof.
  unfold parse_octet. destruct (_ || _); [done|]. destruct (_ && _); [done|]. destruct (decimal 0 bs) as [x|] eqn:E; [|done].
  apply decimal_nonneg in E; [|lia]. destruct (Z.leb_spec x 255); [|done]. intros [= <-]. unfold fits. lia.
Qed.

Lemma parse_addr_bytes bs l : parse_addr bs = Some l -> bytes_of 4 l.
Proof.
  unfold parse_addr. destruct (split 46 bs) as [|a [|b [|c [|d [|]]]]]; try done.
  destruct (parse_octet a) eqn:E1; [|done]. destruct (parse_octet b) eqn:E2; [|done]. destruct (parse_octet c) eqn:E3; [|done].
  destruct (parse_octet d) eqn:E4; [|done]. intros [= <-]. split; [done|]. repeat constructor; by eapply parse_octet_fits.
Qed.

Lemma parse_u32_nonneg bs v : parse_u32 bs = Some v -> 0 <= v.
Proof.
  unfold parse_u32. repeat case_match; subst; try done; by apply decimal_nonneg.
Qed.

(** Matching a compiled rule is lying in the configured prefix. *)
Lemma rule_covers c r dst port proto :
  bytes_of 4 dst -> compile_rule c = Some r -> rule_matches (of_be dst) port proto r = true <-> covers dst port proto c.
Proof.
  intros Hd. unfold compile_rule, parse_cidr, covers. destruct (split_once 47 (cp_cidr c)) as [[text rest]|]; [|done]. cbn [ok_or mbind result_bind fst snd].
  destruct (parse_addr text) as [addr|] eqn:Ea; [|done]. cbn [ok_or mbind result_bind]. destruct (parse_u32 rest) as [bits|] eqn:Eb; [|done]. cbn [ok_or mbind result_bind].
  destruct (Z.ltb_spec 32 bits) as [|Hb]; [done|]. intros [= <-]. apply parse_addr_bytes in Ea as Ha. apply parse_u32_nonneg in Eb as Hb0.
  pose proof (mask_match bits (of_be addr) (of_be dst) ltac:(lia) (of_be4_fits _ Ha) (of_be4_fits _ Hd)) as Hm.
  unfold rule_matches. cbn [ru_mask ru_net ru_proto ru_port].
  trans (in_prefix (of_be addr) bits (of_be dst) /\
    match cp_proto c with Some Tcp => proto = IP_PROTO_TCP | Some Udp => proto = IP_PROTO_UDP | None => True end /\
    match cp_port c with Some p => port = Some p | None => True end).
  - destruct (Z.eqb_spec (Z.land (of_be dst) (mask_of bits)) (Z.land (of_be addr) (mask_of bits))) as [E|E]; cbn [negb].
    + rewrite andb_true_iff. apply Hm in E. destruct (cp_proto c) as [[]|], (cp_port c), port; rewrite ?Z.eqb_eq; naive_solver.
    + split; [done|]. intros [H _]. by apply Hm in H.
  - split; [|naive_solver]. intros H. by exists text, rest, addr, bits.
Qed.

Lemma list_covers l dst port proto :
  bytes_of 4 dst -> Forall (fun c => is_Some (compile_rule c)) l ->
  matches_list (compile_rules l) dst port proto = true <-> Exists (covers dst port proto) l.
Proof.
  intros Hd. unfold matches_list, compile_rules. induction l as [|c l IH]; intros Hf.
  - cbn. split; [done|]. intros H. by inversion H.
  - apply list.Forall_cons in Hf as [[r Hr] Hf]. cbn [omap list_omap]. rewrite Hr. cbn [existsb]. rewrite orb_true_iff, Exists_cons, IH by done.
    by rewrite (rule_covers c r dst port proto).
Qed.

Lemma compile_nil l : Forall (fun c => is_Some (compile_rule c)) l -> compile_rules l = [] <-> l = [].
Proof.
  intros Hf. destruct l as [|c l]; [done|]. apply list.Forall_cons in Hf as [[r Hr] _]. unfold compile_rules. cbn [omap list_omap]. by rewrite Hr.
Qed.

Lemma blocked_lan dst gateways :
  bytes_of 4 dst -> is_blocked_lan dst gateways = false <-> dst ∈ gateways \/ ~ private (of_be dst).
Proof.
  intros Hd. unfold is_blocked_lan. case_bool_decide as Hg; [naive_solver|].
  assert (H : existsb (fun nm => Z.land (of_be dst) nm.2 =? nm.1) NETS = true <-> private (of_be dst)).
  { unfold private, NETS. cbn [existsb fst snd]. rewrite !orb_true_iff, !Z.eqb_eq.
    assert (Hm : forall net bits m, 0 <= bits <= 32 -> fits 32 net -> mask_of bits = m -> Z.land net m = net -> (Z.land (of_be dst) m = net <-> in_prefix net bits (of_be dst))).
    { intros net bits m Hb Hn <- E. rewrite <- mask_match by (done || by apply of_be4_fits). by rewrite E. }
    rewrite (Hm 0x0a000000 8), (Hm 0xac100000 12), (Hm 0xc0a80000 16), (Hm 0xa9fe0000 16) by (done || lia || fits_closed). naive_solver. }
  destruct (existsb _ NETS); naive_solver.
Qed.

(** A parsed datagram within its limits is let out when its MAC is the NIC's own,
    where that is checked, and the datagram's rules say so. *)
Lemma decide_datagram e frame ip now :
  of_be (take 2 (drop 12 frame)) = ETHERTYPE_IPV4 -> ipv4 frame = Some ip -> ip_src_mac ip = take 6 (drop 6 frame) ->
  (limit (pe_pps e) (f64_of 1) now).1 = true -> (limit (pe_bandwidth e) (f64_of (Z.of_nat (length frame))) now).1 = true ->
  (decide_tx frame now e).1 = None <-> own_mac e ip /\ classify_ip e ip = None.
Proof.
  intros Het Hip Hmac Hl1 Hl2.
  assert (Hlen : ~ (length frame < ETH_HLEN)%nat).
  { intros H. assert (E : parse_ipv4 frame = Some None) by (unfold parse_ipv4; rewrite bool_decide_eq_true_2; [done|lia]). unfold ipv4 in Hip. by rewrite E in Hip. }
  unfold decide_tx, classify_tx. rewrite bool_decide_eq_false_2 by done.
  destruct (limit (pe_pps e) _ now) as [ok1 b1]. cbn in Hl1. subst ok1. cbn [negb pe_bandwidth set_limits].
  destruct (limit (pe_bandwidth e) _ now) as [ok2 b2]. cbn in Hl2. subst ok2. cbn [negb fst].
  unfold classify_frame, own_mac. cbn [pe_anti_spoof pe_expected_mac pe_allow_lan set_limits]. rewrite Het, Hip, <- Hmac. cbv zeta.
  change (ETHERTYPE_IPV4 =? ETHERTYPE_ARP) with false. change (ETHERTYPE_IPV4 =? ETHERTYPE_IPV6) with false. change (negb (ETHERTYPE_IPV4 =? ETHERTYPE_IPV4)) with false. cbv iota.
  change (classify_ip (set_limits b1 b2 e) ip) with (classify_ip e ip).
  destruct (pe_anti_spoof e); cbn [andb]; [|naive_solver]. case_bool_decide; cbn [negb]; naive_solver.
Qed.

(** The datagram's rules in the words of the configuration. *)
Lemma classify_ip_exact e allow deny ip :
  pe_allow e = compile_rules allow -> pe_deny e = compile_rules deny ->
  Forall (fun c => is_Some (compile_rule c)) allow -> Forall (fun c => is_Some (compile_rule c)) deny ->
  bytes_of 4 (ip_dst ip) ->
  classify_ip e ip = None <->
  is_dhcp ip (l4 ip).1 = true \/ (own_ip e ip \/ unspecified_source ip) /\ destination_permitted e allow deny ip.
Proof.
  intros Ea Ed Hca Hcd Hd. unfold classify_ip, own_ip, unspecified_source. destruct (l4 ip) as [port proto] eqn:El. cbn [fst].
  pose proof (list_covers deny (ip_dst ip) port proto Hd Hcd) as Hdn. rewrite <- Ed in Hdn. pose proof (list_covers allow (ip_dst ip) port proto Hd Hca) as Hal. rewrite <- Ea in Hal.
  pose proof (compile_nil allow Hca) as Hnil. rewrite <- Ea in Hnil. pose proof (blocked_lan (ip_dst ip) (pe_gateways e) Hd) as Hlan.
  destruct (is_dhcp ip port); [by split; [left|]|].
  assert (Hsp : pe_anti_spoof e && match pe_expected_ip e with Some lease => negb (bool_decide (ip_src ip = lease)) && negb (bool_decide (ip_src ip = [0; 0; 0; 0])) | None => false end = false
                <-> (pe_anti_spoof e = true -> forall lease, pe_expected_ip e = Some lease -> ip_src ip = lease) \/ ip_src ip = [0; 0; 0; 0]).
  { destruct (pe_anti_spoof e); cbn [andb]; [|naive_solver]. destruct (pe_expected_ip e) as [lease|]; [|naive_solver]. do 2 case_bool_decide; naive_solver. }
  destruct (pe_anti_spoof e && _); [split; [done|]; intros [?|[HS _]]; [done|by apply Hsp in HS]|].
  pose proof (proj1 Hsp eq_refl) as HS. clear Hsp. trans (destination_permitted e allow deny ip); [|by split; [right|intros [?|[_ ?]]]].
  unfold destination_permitted. rewrite El. cbn [fst snd]. clear HS. destruct (pe_allow_lan e); cbn [negb andb];
    [|destruct (is_blocked_lan _ _); [split; [done|]; intros [H _]; by apply Hlan in H; [|done]|]].
  all: destruct (matches_list (pe_deny e) _ _ _); [split; [done|]; intros (_ & [] & _); by apply Hdn|].
  all: destruct (matches_list (pe_allow e) _ _ _); cbn [negb andb]; case_bool_decide; cbn [negb andb]; naive_solver.
Qed.


(** A policy that forbids the LAN and denies 10.0.0.0/8, on a bridged NIC. *)
Definition ten_slash_eight : list Z := [49; 48; 46; 48; 46; 48; 46; 48; 47; 56].
Definition sample_policy : NicPolicy :=
  {| np_allow_lan := false; np_allow := []; np_deny := [{| cp_cidr := ten_slash_eight; cp_port := None; cp_proto := None |}];
     np_bandwidth_bps := None; np_pps := Some 1000; np_anti_spoof := true |}.
Definition sample_engine : PolicyEngine := from_nic sample_policy false 0.
Definition sample_frame (dst : list Z) : list Z :=
  ipv4_frame (replicate 6 255) DEFAULT_GUEST_MAC [192; 168; 1; 5] dst IP_PROTO_TCP 1 (replicate 20 0).


(** ** Where the policy differs from what it means to do *)

(** An IPv4 frame the parser refuses (options, a fragment, a bad checksum) is let
    out whatever the lists say. *)
Lemma unparsed_datagram_passes e frame now :
  (ETH_HLEN <= length frame)%nat -> take 6 (drop 6 frame) = pe_expected_mac e ->
  of_be (take 2 (drop 12 frame)) = ETHERTYPE_IPV4 -> ipv4 frame = None ->
  pe_pps e = None -> pe_bandwidth e = None -> (decide_tx frame now e).1 = None.
Proof.
  intros Hl Hm Het Hip Hp Hb. unfold decide_tx, classify_tx. rewrite bool_decide_eq_false_2 by lia. rewrite Hp. cbn [limit negb pe_bandwidth set_limits]. rewrite Hb. cbn [limit negb fst].
  unfold classify_frame. cbn [pe_anti_spoof pe_expected_mac set_limits]. rewrite Hm, Het, Hip, bool_decide_eq_true_2 by done. by rewrite andb_false_r.
Qed.

(** Such a frame to a denied address: with one option word it passes, without it
    it is dropped. *)
Definition optioned_frame : list Z :=
  replicate 6 255 ++ DEFAULT_GUEST_MAC ++ be_bytes 2 ETHERTYPE_IPV4
  ++ [0x46; 0; 0; 24; 0; 1; 0; 0; 64; 6; 0; 0; 192; 168; 1; 5; 10; 0; 0; 1; 1; 1; 1; 1].

Lemma options_bypass_the_policy :
  (decide_tx optioned_frame 0 sample_engine).1 = None /\
  (decide_tx (sample_frame [10; 0; 0; 1]) 0 sample_engine).1 = Some RULE_ALLOW_LAN.
Proof. split; vm_compute; reflexivity. Qed.

(** A datagram to port 67 or 68 passes whatever its source and destination. *)
Lemma dhcp_ports_exempt e ip : is_dhcp ip (l4 ip).1 = true -> classify_ip e ip = None.
Proof. unfold classify_ip. destruct (l4 ip) as [port proto]. cbn. by intros ->. Qed.

(** A datagram of any protocol from 0.0.0.0 passes the lease check: a guest with
    a lease sends TCP from the unspecified address, where only its own address
    is documented to pass. *)
Definition leased_engine : PolicyEngine := from_nic {| np_allow_lan := true; np_allow := []; np_deny := [];
  np_bandwidth_bps := None; np_pps := None; np_anti_spoof := true |} true 0.
Definition tcp_from (src : list Z) : list Z :=
  ipv4_frame (replicate 6 255) DEFAULT_GUEST_MAC src [8; 8; 8; 8] IP_PROTO_TCP 1 (replicate 20 0).

Lemma unspecified_source_passes :
  pe_expected_ip leased_engine = Some GUEST_IP /\
  (decide_tx (tcp_from [0; 0; 0; 0]) 0 leased_engine).1 = None /\
  (decide_tx (tcp_from [192; 168; 1; 5]) 0 leased_engine).1 = Some RULE_SPOOF_IP /\
  (decide_tx (tcp_from GUEST_IP) 0 leased_engine).1 = None.
Proof. repeat split; vm_compute; reflexivity. Qed.

(** ** Limits and learning *)

Lemma SFltb_irrefl x : SFltb x x = false.
Proof.
  unfold SFltb, SFcompare. destruct x as [[]|[]| |[] m e]; try done; rewrite Z.compare_refl, Pos.compare_cont_refl; done.
Qed.

(** A bucket never holds more than its burst, whatever time has passed. *)
Lemma bucket_capped amount now b ok b' :
  bucket_take amount now b = (ok, b') -> tb_burst b' = tb_burst b /\ (ok = false -> SFltb (tb_burst b') (tb_tokens b') = false).
Proof.
  unfold bucket_take. set (t := f64_add _ _). destruct (SFleb amount _); intros [= <- <-]; cbn [tb_burst tb_tokens]; (split; [done|]); [done|].
  intros _. unfold f64_min. destruct (is_nan t); [apply SFltb_irrefl|]. destruct (SFltb (tb_burst b) t) eqn:E; [apply SFltb_irrefl|done].
Qed.

Lemma learn_gateways_nodup routers gateways : NoDup gateways -> NoDup (learn_gateways routers gateways).
Proof.
  revert gateways. induction routers as [|r routers IH]; intros gateways Hn; [done|]. cbn. apply IH. case_bool_decide as Hin; [done|].
  apply list.NoDup_app. split; [done|]. split; [|apply NoDup_singleton]. intros x Hx ->%list_elem_of_singleton. done.
Qed.

(** Replies change the lease and the gateways and nothing else; gateways are kept
    and not repeated. *)
Lemma observe_rx_spec frame e :
  let e' := observe_rx frame e in
  pe_allow e' = pe_allow e /\ pe_deny e' = pe_deny e /\ pe_allow_lan e' = pe_allow_lan e /\ pe_anti_spoof e' = pe_anti_spoof e /\
  pe_expected_mac e' = pe_expected_mac e /\ (NoDup (pe_gateways e) -> NoDup (pe_gateways e')) /\
  (forall g, g ∈ pe_gateways e -> g ∈ pe_gateways e').
Proof.
  cbn. unfold observe_rx. destruct (dhcp_ack frame) as [[yiaddr routers]|]; [|done]. cbn. do 5 (split; [done|]). split; [apply learn_gateways_nodup|].
  generalize (pe_gateways e). clear. induction routers as [|r routers IH]; intros gs g Hg; [done|]. cbn. apply IH. case_bool_decide; [done|]. set_solver.
Qed.
