(* ===== verification/UserNet.v ===== *)
(** * The user-mode NAT

    Model of [ternvale-net/src/user.rs] and [user/]: ARP, DHCP and DNS, the UDP,
    TCP and ICMP flows with their table, and the port forwards.  Host sockets are
    inputs and outputs: what a call to the host answers is an argument (any answer
    at each call), what is given to the host is recorded in [n_host].  The table
    is a hash map, so the order in which flows are polled is an argument too. *)

From stdpp Require Import gmap list.
From S2P Require Import Prelude NetPacket NetPolicy.

Definition DHCP_SERVER_PORT : Z := 67.
Definition DHCP_CLIENT_PORT : Z := 68.
Definition DNS_PORT : Z := 53.
Definition MAX_FLOWS : nat := 512.
Definition MAX_QUEUED : nat := 128.

(** ** Flows ([user/flow.rs]) *)

Definition SECOND : Z := 10 ^ 9.
Definition TCP_IDLE : Z := 300 * SECOND.
Definition TCP_CLOSING : Z := 2 * SECOND.
Definition UDP_IDLE : Z := 60 * SECOND.
Definition ICMP_IDLE : Z := 10 * SECOND.

Record FlowKey := { k_proto : Z; k_guest_ip : list Z; k_guest_port : Z; k_remote_ip : list Z; k_remote_port : Z }.

#[export] Instance FlowKey_eq_dec : EqDecision FlowKey.
Proof. solve_decision. Defined.

Definition key_tuple (k : FlowKey) : Z * list Z * Z * list Z * Z :=
  (k_proto k, k_guest_ip k, k_guest_port k, k_remote_ip k, k_remote_port k).
Definition tuple_key (t : Z * list Z * Z * list Z * Z) : FlowKey :=
  let '(p, g, gp, r, rp) := t in
  {| k_proto := p; k_guest_ip := g; k_guest_port := gp; k_remote_ip := r; k_remote_port := rp |}.

#[export] Instance FlowKey_countable : Countable FlowKey.
Proof. apply (inj_countable' key_tuple tuple_key). by intros []. Defined.

Definition key_udp (guest_ip : list Z) (guest_port : Z) (remote_ip : list Z) (remote_port : Z) : FlowKey :=
  {| k_proto := IP_PROTO_UDP; k_guest_ip := guest_ip; k_guest_port := guest_port; k_remote_ip := remote_ip;
     k_remote_port := remote_port |}.
Definition key_tcp (guest_ip : list Z) (guest_port : Z) (remote_ip : list Z) (remote_port : Z) : FlowKey :=
  {| k_proto := IP_PROTO_TCP; k_guest_ip := guest_ip; k_guest_port := guest_port; k_remote_ip := remote_ip;
     k_remote_port := remote_port |}.
Definition key_icmp (guest_ip remote_ip : list Z) (id : Z) : FlowKey :=
  {| k_proto := IP_PROTO_ICMP; k_guest_ip := guest_ip; k_guest_port := id; k_remote_ip := remote_ip; k_remote_port := 0 |}.

Inductive TcpState := Connecting | SynReceived | Established | CloseWait | LastAck.

#[export] Instance TcpState_eq_dec : EqDecision TcpState.
Proof. solve_decision. Defined.

Record UdpFlow := {
  uf_guest_mac : list Z; uf_guest_ip : list Z; uf_guest_port : Z; uf_remote_ip : list Z; uf_remote_port : Z; uf_last : Z;
}.
Record TcpFlow := {
  tf_guest_mac : list Z; tf_guest_ip : list Z; tf_guest_port : Z; tf_remote_ip : list Z; tf_remote_port : Z;
  tf_inbound : bool; tf_state : TcpState; tf_guest_seq : Z; tf_our_seq : Z; tf_last : Z;
}.
Record IcmpFlow := { if_guest_mac : list Z; if_guest_ip : list Z; if_remote : list Z; if_id : Z; if_last : Z }.

Inductive Flow := FUdp (f : UdpFlow) | FTcp (f : TcpFlow) | FIcmp (f : IcmpFlow).

(** A forwarded port, TCP or UDP. *)
Record Listener := { l_tcp : bool; l_udp : bool; l_guest_port : Z }.

(** What the host is given. *)
Inductive HostOp :=
  | UdpSend (k : FlowKey) (ip : list Z) (port : Z) (data : list Z)
  | TcpConnect (k : FlowKey) (ip : list Z) (port : Z)
  | TcpWrite (k : FlowKey) (data : list Z)
  | TcpShutdown (k : FlowKey)
  | IcmpSend (k : FlowKey) (ip : list Z) (data : list Z)
  | DnsSend (resolver : list Z) (data : list Z).

Record UserStats := { us_flows : Z; us_bytes_in : Z; us_bytes_out : Z; us_drops : Z }.

Record UserNet := {
  n_rx : list (list Z);
  n_flows : gmap FlowKey Flow;
  n_listeners : list Listener;
  n_guest_mac : list Z;
  n_gateway_mac : list Z;
  n_stats : UserStats;
  n_icmp_ok : bool;
  n_ip_id : Z;
  n_isn : Z;
  n_host_port : Z;
  n_last_live : nat;
  n_host : list HostOp;
}.

Definition net_new (listeners : list Listener) (icmp_ok : bool) : UserNet :=
  {| n_rx := []; n_flows := ∅; n_listeners := listeners; n_guest_mac := DEFAULT_GUEST_MAC; n_gateway_mac := GATEWAY_MAC;
     n_stats := {| us_flows := 0; us_bytes_in := 0; us_bytes_out := 0; us_drops := 0 |}; n_icmp_ok := icmp_ok;
     n_ip_id := 1; n_isn := 1; n_host_port := 50000; n_last_live := 0; n_host := [] |}.

Definition set_rx (rx : list (list Z)) (n : UserNet) : UserNet :=
  {| n_rx := rx; n_flows := n_flows n; n_listeners := n_listeners n; n_guest_mac := n_guest_mac n; n_gateway_mac := n_gateway_mac n;
     n_stats := n_stats n; n_icmp_ok := n_icmp_ok n; n_ip_id := n_ip_id n; n_isn := n_isn n; n_host_port := n_host_port n;
     n_last_live := n_last_live n; n_host := n_host n |}.
Definition set_flows (flows : gmap FlowKey Flow) (n : UserNet) : UserNet :=
  {| n_rx := n_rx n; n_flows := flows; n_listeners := n_listeners n; n_guest_mac := n_guest_mac n; n_gateway_mac := n_gateway_mac n;
     n_stats := n_stats n; n_icmp_ok := n_icmp_ok n; n_ip_id := n_ip_id n; n_isn := n_isn n; n_host_port := n_host_port n;
     n_last_live := n_last_live n; n_host := n_host n |}.
Definition set_guest_mac (mac : list Z) (n : UserNet) : UserNet :=
  {| n_rx := n_rx n; n_flows := n_flows n; n_listeners := n_listeners n; n_guest_mac := mac; n_gateway_mac := n_gateway_mac n;
     n_stats := n_stats n; n_icmp_ok := n_icmp_ok n; n_ip_id := n_ip_id n; n_isn := n_isn n; n_host_port := n_host_port n;
     n_last_live := n_last_live n; n_host := n_host n |}.
Definition set_counters (ip_id isn host_port : Z) (live : nat) (n : UserNet) : UserNet :=
  {| n_rx := n_rx n; n_flows := n_flows n; n_listeners := n_listeners n; n_guest_mac := n_guest_mac n; n_gateway_mac := n_gateway_mac n;
     n_stats := n_stats n; n_icmp_ok := n_icmp_ok n; n_ip_id := ip_id; n_isn := isn; n_host_port := host_port;
     n_last_live := live; n_host := n_host n |}.
Definition set_net_stats (s : UserStats) (n : UserNet) : UserNet :=
  {| n_rx := n_rx n; n_flows := n_flows n; n_listeners := n_listeners n; n_guest_mac := n_guest_mac n; n_gateway_mac := n_gateway_mac n;
     n_stats := s; n_icmp_ok := n_icmp_ok n; n_ip_id := n_ip_id n; n_isn := n_isn n; n_host_port := n_host_port n;
     n_last_live := n_last_live n; n_host := n_host n |}.
(** The host receives one more operation. *)
Definition emit (op : HostOp) (n : UserNet) : UserNet :=
  {| n_rx := n_rx n; n_flows := n_flows n; n_listeners := n_listeners n; n_guest_mac := n_guest_mac n; n_gateway_mac := n_gateway_mac n;
     n_stats := n_stats n; n_icmp_ok := n_icmp_ok n; n_ip_id := n_ip_id n; n_isn := n_isn n; n_host_port := n_host_port n;
     n_last_live := n_last_live n; n_host := n_host n ++ [op] |}.

(** The relaxed counters; they wrap. *)
Definition bump (flows bytes_in bytes_out drops : Z) (n : UserNet) : UserNet :=
  set_net_stats {| us_flows := add_w 64 (us_flows (n_stats n)) flows; us_bytes_in := add_w 64 (us_bytes_in (n_stats n)) bytes_in;
                   us_bytes_out := add_w 64 (us_bytes_out (n_stats n)) bytes_out; us_drops := add_w 64 (us_drops (n_stats n)) drops |} n.

Definition drop_reason (n : UserNet) : UserNet := bump 0 0 0 1 n.

Definition queue (frame : list Z) (n : UserNet) : UserNet :=
  if bool_decide (MAX_QUEUED <= length (n_rx n))%nat then drop_reason n else set_rx (n_rx n ++ [frame]) n.

Definition next_ip_id (n : UserNet) : Z * UserNet :=
  (n_ip_id n, set_counters (add_w 16 (n_ip_id n) 1) (n_isn n) (n_host_port n) (n_last_live n) n).
Definition next_isn (n : UserNet) : Z * UserNet :=
  (n_isn n, set_counters (n_ip_id n) (add_w 32 (n_isn n) 64000) (n_host_port n) (n_last_live n) n).
Definition next_host_port (n : UserNet) : Z * UserNet :=
  (n_host_port n, set_counters (n_ip_id n) (n_isn n) (if n_host_port n =? 60000 then 50000 else add_w 16 (n_host_port n) 1) (n_last_live n) n).

Definition log_conntrack (n : UserNet) : UserNet :=
  if bool_decide (size (n_flows n) = n_last_live n) then n
  else set_counters (n_ip_id n) (n_isn n) (n_host_port n) (size (n_flows n)) n.

Definition LOCALHOST : list Z := [127; 0; 0; 1].
Definition nat_v4 (ip : list Z) : list Z := if bool_decide (ip = GATEWAY_IP) then LOCALHOST else ip.

Definition learn_mac (mac : list Z) (n : UserNet) : UserNet :=
  if bool_decide (n_guest_mac n = mac) then n else set_guest_mac mac n.

(** Queue an IPv4 frame with a fresh identification. *)
Definition queue_ipv4 (dst_mac src dst : list Z) (proto : Z) (payload : list Z) (n : UserNet) : UserNet :=
  let '(id, n) := next_ip_id n in
  queue (ipv4_frame dst_mac (n_gateway_mac n) src dst proto id payload) n.

(** ** ARP ([user.rs]) *)

Definition arp_reply (frame : list Z) (n : UserNet) : UserNet :=
  if bool_decide (length frame < 42)%nat then n
  else
    let arp := take 28 (drop 14 frame) in
    let op := of_be (take 2 (drop 6 arp)) in
    if negb (op =? 1) then n
    else
      let tpa := take 4 (drop 24 arp) in
      if negb (bool_decide (tpa = GATEWAY_IP)) && negb (bool_decide (tpa = DNS_IP)) then n
      else
        let sha := take 6 (drop 8 arp) in
        let n := learn_mac sha n in
        queue (sha ++ GATEWAY_MAC ++ be_bytes 2 ETHERTYPE_ARP ++ [0; 1; 0x08; 0x00; 6; 4; 0; 2] ++ GATEWAY_MAC ++ tpa ++ sha
               ++ take 4 (drop 14 arp)) n.

(** ** DHCP ([user/dhcp.rs]) *)

Definition BOOTREQUEST : Z := 1.
Definition BOOTREPLY : Z := 2.
Definition DHCP_MAGIC : list Z := [99; 130; 83; 99].
Definition OPT_MSG : Z := 53.
Definition OPT_SERVER : Z := 54.
Definition OPT_LEASE : Z := 51.
Definition OPT_MASK : Z := 1.
Definition OPT_ROUTER : Z := 3.
Definition OPT_DNS : Z := 6.
Definition OPT_END : Z := 255.
Definition DISCOVER : Z := 1.
Definition OFFER : Z := 2.
Definition REQUEST : Z := 3.
Definition ACK : Z := 5.

(** The option search at index [i]; every round advances it. *)
Fixpoint option_from (fuel : nat) (bootp : list Z) (tag : Z) (i : nat) : option (list Z) :=
  match fuel with
  | O => None
  | S fuel =>
      match bootp !! i with
      | None => None
      | Some t =>
          if t =? OPT_END then None
          else if t =? 0 then option_from fuel bootp tag (i + 1)
          else
            match bootp !! S i with
            | None => None
            | Some len =>
                let len := Z.to_nat len in
                if bool_decide (length bootp < i + 2 + len)%nat then None
                else if t =? tag then Some (take len (drop (i + 2) bootp))
                else option_from fuel bootp tag (i + 2 + len)
            end
      end
  end.

Definition dhcp_option (bootp : list Z) (tag : Z) : option (list Z) := option_from (length bootp) bootp tag 240.

(** The BOOTP reply to a client [chaddr] in transaction [xid]. *)
Definition dhcp_reply (xid chaddr : list Z) (reply_type : Z) : list Z :=
  [BOOTREPLY; 1; 6; 0] ++ xid ++ replicate 8 0 ++ GUEST_IP ++ GATEWAY_IP ++ replicate 4 0 ++ chaddr ++ replicate 202 0
  ++ DHCP_MAGIC
  ++ [OPT_MSG; 1; reply_type] ++ [OPT_SERVER; 4] ++ GATEWAY_IP ++ [OPT_LEASE; 4; 0; 1; 0x51; 0x80]
  ++ [OPT_MASK; 4] ++ NETMASK ++ [OPT_ROUTER; 4] ++ GATEWAY_IP ++ [OPT_DNS; 4] ++ DNS_IP ++ [OPT_END].

Definition BROADCAST : list Z := [255; 255; 255; 255].

Definition dhcp_handle (ip : Ipv4) (n : UserNet) : UserNet :=
  match udp (ip_payload ip) with
  | None => drop_reason n
  | Some u =>
      if negb (u_dst_port u =? DHCP_SERVER_PORT) then n
      else if bool_decide (length (u_data u) < 240)%nat || negb (bool_decide (u_data u !! 0%nat = Some BOOTREQUEST)) then drop_reason n
      else if negb (bool_decide (take 4 (drop 236 (u_data u)) = DHCP_MAGIC)) then drop_reason n
      else
        let xid := take 4 (drop 4 (u_data u)) in
        let chaddr := take 6 (drop 28 (u_data u)) in
        let msg := match dhcp_option (u_data u) OPT_MSG with Some v => head v | None => None end in
        let answer reply_type :=
          let n := learn_mac chaddr n in
          let payload := udp_payload GATEWAY_IP BROADCAST DHCP_SERVER_PORT DHCP_CLIENT_PORT (dhcp_reply xid chaddr reply_type) in
          queue_ipv4 chaddr GATEWAY_IP BROADCAST IP_PROTO_UDP payload n in
        match msg with
        | None => answer OFFER
        | Some m => if m =? DISCOVER then answer OFFER else if m =? REQUEST then answer ACK else n
        end
  end.

(** ** DNS ([user/dns.rs]) *)

(** ASCII white space, as [str::trim] and [split_whitespace] see it. *)
Definition is_space (c : Z) : bool := (c =? 32) || ((9 <=? c) && (c <=? 13)).
Fixpoint trim_start (s : list Z) : list Z :=
  match s with
  | c :: s' => if is_space c then trim_start s' else s
  | [] => []
  end.
Definition trim (s : list Z) : list Z := reverse (trim_start (reverse (trim_start s))).
Fixpoint word (s : list Z) : list Z :=
  match s with
  | c :: s => if is_space c then [] else c :: word s
  | [] => []
  end.
(** [split_whitespace().next()] *)
Definition first_word (s : list Z) : option (list Z) :=
  match word (trim_start s) with
  | [] => None
  | w => Some w
  end.
Definition NAMESERVER : list Z := [110; 97; 109; 101; 115; 101; 114; 118; 101; 114].
Definition strip_prefix (p s : list Z) : option (list Z) :=
  if bool_decide (take (length p) s = p) then Some (drop (length p) s) else None.

Fixpoint resolver_in (lines : list (list Z)) : option (list Z) :=
  match lines with
  | [] => None
  | line :: lines =>
      match strip_prefix NAMESERVER (trim line) with
      | None => resolver_in lines
      | Some rest =>
          match first_word rest with
          | None => None
          | Some addr =>
              match parse_addr addr with
              | Some ip => Some ip
              | None => resolver_in lines
              end
          end
      end
  end.

(** [conf] is what reading [/etc/resolv.conf] gives. *)
Definition host_resolver (conf : option (list Z)) : option (list Z) :=
  text ← conf; resolver_in (split 10 text).

(** What the host answers while one frame of the guest is handled. *)
Inductive WriteResult := WDone | WBlock (written : nat) | WErr (written : nat).
Record SendHost := {
  h_now : Z;
  h_conf : option (list Z);
  h_bind : bool;
  h_option : bool;
  h_sent : option Z;
  h_reply : option (list Z);
  h_connect : bool;
  h_write : WriteResult;
  h_icmp : bool;
}.

Definition dns_handle (h : SendHost) (ip : Ipv4) (n : UserNet) : UserNet :=
  match udp (ip_payload ip) with
  | None => drop_reason n
  | Some u =>
      if negb (u_dst_port u =? DNS_PORT) || bool_decide (length (u_data u) < 12)%nat then drop_reason n
      else
        match host_resolver (h_conf h) with
        | None => drop_reason n
        | Some resolver =>
            if negb (h_bind h) then drop_reason n
            else if negb (h_option h) then drop_reason n
            else
              match h_sent h with
              | None => drop_reason n
              | Some _ =>
                  let n := emit (DnsSend resolver (u_data u)) n in
                  match h_reply h with
                  | None => drop_reason n
                  | Some reply =>
                      let buf := take 1500 reply in
                      let server := if bool_decide (ip_dst ip = DNS_IP) then DNS_IP else GATEWAY_IP in
                      let payload := udp_payload server (ip_src ip) DNS_PORT (u_src_port u) buf in
                      let '(id, n) := next_ip_id n in
                      let frame := ipv4_frame (ip_src_mac ip) (n_gateway_mac n) server (ip_src ip) IP_PROTO_UDP id payload in
                      queue frame (bump 0 0 (Z.of_nat (length buf)) 0 n)
                  end
              end
        end
  end.

(** ** UDP ([user/udp.rs]) *)

Definition put_flow (k : FlowKey) (f : Flow) (n : UserNet) : UserNet := set_flows (<[k := f]> (n_flows n)) n.
Definition remove_flow (k : FlowKey) (n : UserNet) : UserNet := set_flows (delete k (n_flows n)) n.

Definition uf_touch (now : Z) (f : UdpFlow) : UdpFlow :=
  {| uf_guest_mac := uf_guest_mac f; uf_guest_ip := uf_guest_ip f; uf_guest_port := uf_guest_port f; uf_remote_ip := uf_remote_ip f;
     uf_remote_port := uf_remote_port f; uf_last := now |}.

(** Send through the flow's socket. *)
Definition udp_send (h : SendHost) (ip : Ipv4) (u : UdpHdr) (key : FlowKey) (n : UserNet) : UserNet :=
  match n_flows n !! key with
  | Some (FUdp flow) =>
      let n := put_flow key (FUdp (uf_touch (h_now h) flow)) n in
      match h_sent h with
      | Some sent => bump 0 0 sent 0 (emit (UdpSend key (nat_v4 (ip_dst ip)) (u_dst_port u) (u_data u)) n)
      | None => drop_reason n
      end
  | _ => n
  end.

Definition udp_handle (h : SendHost) (ip : Ipv4) (n : UserNet) : UserNet :=
  match udp (ip_payload ip) with
  | None => drop_reason n
  | Some u =>
      let key := key_udp (ip_src ip) (u_src_port u) (ip_dst ip) (u_dst_port u) in
      if negb (bool_decide (is_Some (n_flows n !! key))) then
        if bool_decide (MAX_FLOWS <= size (n_flows n))%nat then drop_reason n
        else if negb (h_bind h) then drop_reason n
        else if negb (h_option h) then drop_reason n
        else
          let n := bump 1 0 0 0 n in
          udp_send h ip u key
            (put_flow key (FUdp {| uf_guest_mac := ip_src_mac ip; uf_guest_ip := ip_src ip; uf_guest_port := u_src_port u;
                                   uf_remote_ip := ip_dst ip; uf_remote_port := u_dst_port u; uf_last := h_now h |}) n)
      else udp_send h ip u key n
  end.

(** What a read of a host socket gives. *)
Inductive RecvResult := RGot (data : list Z) | RBlock | RErr.

(** One flow of the poll: [now] is the time while it is handled. *)
Definition udp_poll_one (now : Z) (r : RecvResult) (key : FlowKey) (n : UserNet) : UserNet :=
  match n_flows n !! key with
  | Some (FUdp flow) =>
      let n :=
        match r with
        | RBlock => n
        | RErr => drop_reason n
        | RGot data =>
            let buf := take 1500 data in
            let n := put_flow key (FUdp (uf_touch now flow)) n in
            let payload := udp_payload (uf_remote_ip flow) (uf_guest_ip flow) (uf_remote_port flow) (uf_guest_port flow) buf in
            let '(id, n) := next_ip_id n in
            let frame := ipv4_frame (uf_guest_mac flow) (n_gateway_mac n) (uf_remote_ip flow) (uf_guest_ip flow) IP_PROTO_UDP id payload in
            queue frame (bump 0 (Z.of_nat (length buf)) 0 0 n)
        end in
      match n_flows n !! key with
      | Some (FUdp flow) => if UDP_IDLE <? now - uf_last flow then remove_flow key n else n
      | _ => n
      end
  | _ => n
  end.

(** The flows of one kind, in the order the table's iteration gives. *)
Definition is_udp (f : Flow) : bool := match f with FUdp _ => true | _ => false end.
Definition is_tcp (f : Flow) : bool := match f with FTcp _ => true | _ => false end.
Definition is_icmp (f : Flow) : bool := match f with FIcmp _ => true | _ => false end.
Definition keys_of (kind : Flow -> bool) (order : list FlowKey) (n : UserNet) : list FlowKey :=
  List.filter (fun k => match n_flows n !! k with Some f => kind f | None => false end) order.

(** What the host answers during a poll, flow by flow. *)
Inductive Peer := PeerV4 | PeerV6 | PeerUnknown.
Inductive Datagram := DGot (from : option (list Z * Z)) (data : list Z) | DBlock | DErr.
Record PollHost := {
  p_order : list FlowKey;
  p_now : FlowKey -> Z;
  p_recv : FlowKey -> RecvResult;
  p_ready : FlowKey -> option bool;
  p_accepts : nat -> list Peer;
  p_datagram : nat -> Datagram;
  p_inbound_now : Z;
}.

Definition udp_poll (h : PollHost) (n : UserNet) : UserNet :=
  foldl (fun n k => udp_poll_one (p_now h k) (p_recv h k) k n) n (keys_of is_udp (p_order h) n).

(** ** TCP ([user/tcp.rs], [user/tcp_in.rs]) *)

Definition WINDOW : Z := 65535.

Definition tf_with (state : TcpState) (guest_seq our_seq last : Z) (f : TcpFlow) : TcpFlow :=
  {| tf_guest_mac := tf_guest_mac f; tf_guest_ip := tf_guest_ip f; tf_guest_port := tf_guest_port f; tf_remote_ip := tf_remote_ip f;
     tf_remote_port := tf_remote_port f; tf_inbound := tf_inbound f; tf_state := state; tf_guest_seq := guest_seq; tf_our_seq := our_seq;
     tf_last := last |}.

Definition set_tcp_state (state : TcpState) (f : TcpFlow) : TcpFlow := tf_with state (tf_guest_seq f) (tf_our_seq f) (tf_last f) f.
Definition add_guest_seq (d : Z) (f : TcpFlow) : TcpFlow :=
  tf_with (tf_state f) (add_w 32 (tf_guest_seq f) d) (tf_our_seq f) (tf_last f) f.
Definition add_our_seq (d : Z) (f : TcpFlow) : TcpFlow :=
  tf_with (tf_state f) (tf_guest_seq f) (add_w 32 (tf_our_seq f) d) (tf_last f) f.
Definition touch_tcp (now : Z) (f : TcpFlow) : TcpFlow := tf_with (tf_state f) (tf_guest_seq f) (tf_our_seq f) now f.

(** A segment of the flow toward the guest. *)
Definition tcp_out (flow : TcpFlow) (flags window : Z) (data : list Z) (n : UserNet) : UserNet :=
  queue_ipv4 (tf_guest_mac flow) (tf_remote_ip flow) (tf_guest_ip flow) IP_PROTO_TCP
    (tcp_payload (tf_remote_ip flow) (tf_guest_ip flow) (tf_remote_port flow) (tf_guest_port flow) (tf_our_seq flow) (tf_guest_seq flow)
       flags window data) n.

Definition has (flags bit : Z) : bool := negb (Z.land flags bit =? 0).

Definition on_syn (h : SendHost) (ip : Ipv4) (t : TcpHdr) (key : FlowKey) (n : UserNet) : UserNet :=
  if bool_decide (is_Some (n_flows n !! key)) then n
  else if bool_decide (MAX_FLOWS <= size (n_flows n))%nat then drop_reason n
  else
    let n := emit (TcpConnect key (nat_v4 (ip_dst ip)) (t_dst_port t)) n in
    if negb (h_connect h) then drop_reason n
    else
      let n := bump 1 0 0 0 n in
      let '(our_seq, n) := next_isn n in
      put_flow key (FTcp {| tf_guest_mac := ip_src_mac ip; tf_guest_ip := ip_src ip; tf_guest_port := t_src_port t; tf_remote_ip := ip_dst ip;
                            tf_remote_port := t_dst_port t; tf_inbound := false; tf_state := Connecting; tf_guest_seq := add_w 32 (t_seq t) 1;
                            tf_our_seq := our_seq; tf_last := h_now h |}) n.

Definition ack_guest (key : FlowKey) (n : UserNet) : UserNet :=
  match n_flows n !! key with
  | Some (FTcp flow) => tcp_out flow TCP_ACK WINDOW [] n
  | _ => n
  end.

Definition send_rst (key : FlowKey) (n : UserNet) : UserNet :=
  match n_flows n !! key with
  | Some (FTcp flow) => tcp_out flow (Z.lor TCP_RST TCP_ACK) 0 [] (remove_flow key n)
  | Some _ => remove_flow key n
  | None => n
  end.

(** Write the segment's data to the host: the flow and, for an error other than
    [WouldBlock], the request to reset. *)
Definition write_data (h : SendHost) (t : TcpHdr) (key : FlowKey) (flow : TcpFlow) (n : UserNet) : UserNet * bool :=
  let data := t_data t in
  if bool_decide (data = []) then (put_flow key (FTcp flow) n, false)
  else
    match h_write h with
    | WDone =>
        let len := Z.of_nat (length data) in
        (bump 0 0 len 0 (emit (TcpWrite key data) (put_flow key (FTcp (add_guest_seq (wrap 32 len) flow)) n)), false)
    | WBlock k => (drop_reason (emit (TcpWrite key (take k data)) (put_flow key (FTcp flow) n)), false)
    | WErr k => (drop_reason (emit (TcpWrite key (take k data)) (put_flow key (FTcp flow) n)), true)
    end.

(** The guest's FIN. *)
Definition guest_fin (t : TcpHdr) (key : FlowKey) (n : UserNet) : UserNet :=
  if has (t_flags t) TCP_FIN then
    match n_flows n !! key with
    | Some (FTcp flow) => emit (TcpShutdown key) (put_flow key (FTcp (set_tcp_state CloseWait (add_guest_seq 1 flow))) n)
    | _ => n
    end
  else n.

(** The FIN, then the answer. *)
Definition finish_segment (t : TcpHdr) (key : FlowKey) (n : UserNet) : UserNet :=
  let n := guest_fin t key n in
  let closing := match n_flows n !! key with Some (FTcp flow) => bool_decide (tf_state flow = LastAck) | _ => false end in
  if closing && has (t_flags t) TCP_ACK && negb (has (t_flags t) TCP_FIN) then remove_flow key n
  else ack_guest key n.

(** A segment of a flow that is in the table. *)
Definition on_segment (h : SendHost) (t : TcpHdr) (key : FlowKey) (flow : TcpFlow) (n : UserNet) : UserNet :=
  if tf_inbound flow && has (t_flags t) TCP_SYN && has (t_flags t) TCP_ACK then
    ack_guest key (put_flow key (FTcp (tf_with Established (add_w 32 (t_seq t) 1) (tf_our_seq flow) (h_now h) flow)) n)
  else
    let flow := touch_tcp (h_now h) flow in
    let flow := if bool_decide (tf_state flow = SynReceived) && has (t_flags t) TCP_ACK then set_tcp_state Established flow else flow in
    let '(n, reset) := write_data h t key flow n in
    if reset then send_rst key n else finish_segment t key n.

Definition tcp_handle (h : SendHost) (ip : Ipv4) (n : UserNet) : UserNet :=
  match tcp (ip_payload ip) with
  | None => drop_reason n
  | Some t =>
      let key := key_tcp (ip_src ip) (t_src_port t) (ip_dst ip) (t_dst_port t) in
      if has (t_flags t) TCP_SYN && negb (has (t_flags t) TCP_ACK) then on_syn h ip t key n
      else if has (t_flags t) TCP_RST then remove_flow key n
      else
        match n_flows n !! key with
        | Some (FTcp flow) => on_segment h t key flow n
        | _ => if (t_flags t =? TCP_ACK) && bool_decide (t_data t = []) then n else drop_reason n
        end
  end.

Definition complete_connect (ready : option bool) (key : FlowKey) (n : UserNet) : UserNet :=
  match n_flows n !! key with
  | Some (FTcp flow) =>
      if negb (bool_decide (tf_state flow = Connecting)) then n
      else
        match ready with
        | None => n
        | Some false => remove_flow key (drop_reason n)
        | Some true =>
            let flow := set_tcp_state SynReceived flow in
            tcp_out flow (Z.lor TCP_SYN TCP_ACK) WINDOW [] (put_flow key (FTcp (add_our_seq 1 flow)) n)
        end
  | _ => n
  end.

Definition splice_in (r : RecvResult) (key : FlowKey) (n : UserNet) : UserNet :=
  match n_flows n !! key with
  | Some (FTcp flow) =>
      if negb (bool_decide (tf_state flow = Established) || bool_decide (tf_state flow = CloseWait)) then n
      else
        match r with
        | RBlock => n
        | RErr => drop_reason n
        | RGot data =>
            let buf := take 1400 data in
            let len := Z.of_nat (length buf) in
            let '(flow, flags) :=
              if len =? 0 then (set_tcp_state LastAck flow, Z.lor TCP_FIN TCP_ACK) else (flow, Z.lor TCP_PSH TCP_ACK) in
            let n := put_flow key (FTcp (add_our_seq (wrap 32 (Z.max len 1)) flow)) n in
            tcp_out flow flags WINDOW buf (if 0 <? len then bump 0 len 0 0 n else n)
        end
  | _ => n
  end.

Definition expire (now : Z) (key : FlowKey) (n : UserNet) : UserNet :=
  match n_flows n !! key with
  | Some (FTcp flow) =>
      let limit := match tf_state flow with CloseWait | LastAck => TCP_CLOSING | _ => TCP_IDLE end in
      if limit <? now - tf_last flow then remove_flow key n else n
  | _ => n
  end.

Definition tcp_poll_one (h : PollHost) (n : UserNet) (k : FlowKey) : UserNet :=
  expire (p_now h k) k (splice_in (p_recv h k) k (complete_connect (p_ready h k) k n)).

Definition tcp_poll (h : PollHost) (n : UserNet) : UserNet := foldl (tcp_poll_one h) n (keys_of is_tcp (p_order h) n).

Definition inbound (now : Z) (peer : Peer) (guest_port : Z) (n : UserNet) : UserNet :=
  if bool_decide (MAX_FLOWS <= size (n_flows n))%nat then drop_reason n
  else
    match peer with
    | PeerUnknown | PeerV6 => drop_reason n
    | PeerV4 =>
        let '(port, n) := next_host_port n in
        let key := key_tcp GUEST_IP guest_port GATEWAY_IP port in
        let '(our_seq, n) := next_isn n in
        let n := bump 1 0 0 0 n in
        let flow := {| tf_guest_mac := n_guest_mac n; tf_guest_ip := GUEST_IP; tf_guest_port := guest_port; tf_remote_ip := GATEWAY_IP;
                       tf_remote_port := port; tf_inbound := true; tf_state := SynReceived; tf_guest_seq := 0; tf_our_seq := our_seq;
                       tf_last := now |} in
        let n := tcp_out flow TCP_SYN WINDOW [] (put_flow key (FTcp flow) n) in
        match n_flows n !! key with
        | Some (FTcp flow) => put_flow key (FTcp (add_our_seq 1 flow)) n
        | _ => n
        end
    end.

(** ** ICMP echo ([user/icmp.rs]) *)

Definition ICMP_ECHO_REPLY : Z := 0.
Definition ICMP_ECHO_REQUEST : Z := 8.

Definition echo_reply (payload : list Z) : list Z :=
  let body := [ICMP_ECHO_REPLY] ++ take 1 (drop 1 payload) ++ [0; 0] ++ drop 4 payload in
  [ICMP_ECHO_REPLY] ++ take 1 (drop 1 payload) ++ be_bytes 2 (checksum body) ++ drop 4 payload.

Definition local_reply (ip : Ipv4) (n : UserNet) : UserNet :=
  queue_ipv4 (ip_src_mac ip) GATEWAY_IP (ip_src ip) IP_PROTO_ICMP (echo_reply (ip_payload ip)) n.

Definition if_touch (now : Z) (f : IcmpFlow) : IcmpFlow :=
  {| if_guest_mac := if_guest_mac f; if_guest_ip := if_guest_ip f; if_remote := if_remote f; if_id := if_id f; if_last := now |}.

Definition echo_send (h : SendHost) (ip : Ipv4) (key : FlowKey) (n : UserNet) : UserNet :=
  match n_flows n !! key with
  | Some (FIcmp flow) =>
      let n := put_flow key (FIcmp (if_touch (h_now h) flow)) n in
      match h_sent h with
      | Some _ => emit (IcmpSend key (ip_dst ip) (ip_payload ip)) n
      | None => drop_reason n
      end
  | _ => n
  end.

Definition nat_echo (h : SendHost) (ip : Ipv4) (n : UserNet) : UserNet :=
  if negb (n_icmp_ok n) then drop_reason n
  else
    let id := of_be (take 2 (drop 4 (ip_payload ip))) in
    let key := key_icmp (ip_src ip) (ip_dst ip) id in
    if negb (bool_decide (is_Some (n_flows n !! key))) then
      if bool_decide (MAX_FLOWS <= size (n_flows n))%nat then drop_reason n
      else if negb (h_icmp h) then drop_reason n
      else
        let n := bump 1 0 0 0 n in
        echo_send h ip key
          (put_flow key (FIcmp {| if_guest_mac := ip_src_mac ip; if_guest_ip := ip_src ip; if_remote := ip_dst ip; if_id := id;
                                  if_last := h_now h |}) n)
    else echo_send h ip key n.

Definition icmp_handle (h : SendHost) (ip : Ipv4) (n : UserNet) : UserNet :=
  if bool_decide (length (ip_payload ip) < ICMP_HLEN)%nat then drop_reason n
  else if negb (bool_decide (ip_payload ip !! 0%nat = Some ICMP_ECHO_REQUEST)) then drop_reason n
  else if negb (checksum (ip_payload ip) =? 0) then drop_reason n
  else if bool_decide (ip_dst ip = GATEWAY_IP) then local_reply ip n
  else nat_echo h ip n.

(** [recv_echo]: an IPv4 header in front of the ICMP body is skipped. *)
Definition recv_echo (r : RecvResult) : option (option (list Z)) :=
  match r with
  | RErr => None
  | RBlock => Some None
  | RGot data =>
      let buf := take 1500 data in
      let n := length buf in
      let b0 := default 0 (head buf) in
      let ihl := Z.to_nat (Z.land b0 0x0f * 4) in
      if bool_decide (20 <= n)%nat && (Z.shiftr b0 4 =? 4) && bool_decide (20 <= ihl)%nat && bool_decide (ihl < n)%nat
      then Some (Some (drop ihl buf)) else Some (Some buf)
  end.

Definition icmp_poll_one (now : Z) (r : RecvResult) (key : FlowKey) (n : UserNet) : UserNet :=
  match n_flows n !! key with
  | Some (FIcmp flow) =>
      let n :=
        match recv_echo r with
        | Some (Some body) =>
            let '(id, n) := next_ip_id n in
            let frame := ipv4_frame (if_guest_mac flow) (n_gateway_mac n) (if_remote flow) (if_guest_ip flow) IP_PROTO_ICMP id body in
            remove_flow key (queue frame (bump 0 (Z.of_nat (length body)) 0 0 n))
        | Some None => n
        | None => drop_reason n
        end in
      match n_flows n !! key with
      | Some (FIcmp flow) => if ICMP_IDLE <? now - if_last flow then remove_flow key n else n
      | _ => n
      end
  | _ => n
  end.

Definition icmp_poll (h : PollHost) (n : UserNet) : UserNet :=
  foldl (fun n k => icmp_poll_one (p_now h k) (p_recv h k) k n) n (keys_of is_icmp (p_order h) n).

(** ** Port forwards ([user/forward.rs]) *)

Inductive Proto := Tcp | Udp.
Record Forward := { fw_proto : Proto; fw_host : list Z; fw_host_port : Z; fw_guest_port : Z }.

(** [bound i] says whether the bind and the mode change of rule [i] succeed; the
    first that does not is the error. *)
Fixpoint bind_from (bound : nat -> bool) (i : nat) (forwards : list Forward) : result nat (list Listener) :=
  match forwards with
  | [] => Ok []
  | spec :: forwards =>
      if bound i then
        rest ← bind_from bound (S i) forwards;
        Ok (match fw_proto spec with
            | Tcp => {| l_tcp := true; l_udp := false; l_guest_port := fw_guest_port spec |}
            | Udp => {| l_tcp := false; l_udp := true; l_guest_port := fw_guest_port spec |}
            end :: rest)
      else Err i
  end.
Definition bind_all (bound : nat -> bool) (forwards : list Forward) : result nat (list Listener) := bind_from bound 0 forwards.

Definition datagram_in (d : Datagram) (guest_port : Z) (n : UserNet) : UserNet :=
  match d with
  | DGot None _ => drop_reason n
  | DGot (Some (src, port)) data =>
      let buf := take 1500 data in
      let payload := udp_payload src GUEST_IP port guest_port buf in
      let '(id, n) := next_ip_id n in
      let frame := ipv4_frame (n_guest_mac n) (n_gateway_mac n) src GUEST_IP IP_PROTO_UDP id payload in
      queue frame (bump 0 (Z.of_nat (length buf)) 0 0 n)
  | DBlock => n
  | DErr => drop_reason n
  end.

Definition forward_one (h : PollHost) (n : UserNet) (i : nat) : UserNet :=
  match n_listeners n !! i with
  | None => n
  | Some l =>
      let n := if l_tcp l then foldl (fun n peer => inbound (p_inbound_now h) peer (l_guest_port l) n) n (p_accepts h i) else n in
      if l_udp l then datagram_in (p_datagram h i) (l_guest_port l) n else n
  end.

Definition forward_poll (h : PollHost) (n : UserNet) : UserNet := foldl (forward_one h) n (seq 0 (length (n_listeners n))).

(** ** The NAT ([user.rs]) *)

Definition user_new (icmp_ok : bool) (bound : nat -> bool) (forwards : list Forward) : result nat UserNet :=
  listeners ← bind_all bound forwards; Ok (net_new listeners icmp_ok).

Definition send_udp (h : SendHost) (ip : Ipv4) (n : UserNet) : UserNet * bool :=
  match udp (ip_payload ip) with
  | Some u =>
      if u_dst_port u =? DHCP_SERVER_PORT then (dhcp_handle ip n, true)
      else if (u_dst_port u =? DNS_PORT) && (bool_decide (ip_dst ip = DNS_IP) || bool_decide (ip_dst ip = GATEWAY_IP))
      then (dns_handle h ip n, true)
      else (udp_handle h ip n, false)
  | None => (udp_handle h ip n, false)
  end.

Definition send (h : SendHost) (frame : list Z) (n : UserNet) : UserNet :=
  if bool_decide (length frame < 14)%nat then n
  else
    let ethertype := of_be (take 2 (drop 12 frame)) in
    if ethertype =? ETHERTYPE_ARP then arp_reply frame n
    else if negb (ethertype =? ETHERTYPE_IPV4) then n
    else
      match ipv4 frame with
      | None => drop_reason n
      | Some ip =>
          if ip_proto ip =? IP_PROTO_UDP then
            let '(n, returned) := send_udp h ip n in if returned then n else log_conntrack n
          else if ip_proto ip =? IP_PROTO_TCP then log_conntrack (tcp_handle h ip n)
          else if ip_proto ip =? IP_PROTO_ICMP then log_conntrack (icmp_handle h ip n)
          else log_conntrack n
      end.

Definition poll (h : PollHost) (n : UserNet) : option (list Z) * UserNet :=
  let n := if bool_decide (n_rx n = []) then log_conntrack (forward_poll h (icmp_poll h (tcp_poll h (udp_poll h n)))) else n in
  match n_rx n with
  | [] => (None, n)
  | f :: rx => (Some f, set_rx rx n)
  end.

Definition stats (n : UserNet) : Z * Z * Z * Z :=
  (us_flows (n_stats n), us_bytes_in (n_stats n), us_bytes_out (n_stats n), us_drops (n_stats n)).
Definition flow_count (n : UserNet) : nat := size (n_flows n).

(** ** What the NAT keeps *)

(** The transport checksum of a packet toward the guest verifies, and its header parses. *)
Definition transport_ok (ip : Ipv4) : Prop :=
  let verifies := checksum (pseudo_header (ip_src ip) (ip_dst ip) (ip_proto ip) (wrap 16 (Z.of_nat (length (ip_payload ip))))
                            ++ ip_payload ip) = 0 in
  (ip_proto ip = IP_PROTO_UDP -> is_Some (udp (ip_payload ip)) /\ verifies) /\
  (ip_proto ip = IP_PROTO_TCP -> is_Some (tcp (ip_payload ip)) /\ verifies).

(** A frame the guest may receive: bytes, from the gateway, an IPv4 packet that
    verifies or an ARP reply. *)
Definition ip_frame_ok (f : list Z) : Prop :=
  exists ip, ipv4 f = Some ip /\ ip_src_mac ip = GATEWAY_MAC /\ transport_ok ip.
Definition arp_frame_ok (f : list Z) : Prop :=
  length f = 42%nat /\ take 6 (drop 6 f) = GATEWAY_MAC /\ of_be (take 2 (drop 12 f)) = ETHERTYPE_ARP.
Definition frame_ok (f : list Z) : Prop := Forall (fits 8) f /\ (ip_frame_ok f \/ arp_frame_ok f).

Definition flow_key (f : Flow) : FlowKey :=
  match f with
  | FUdp f => key_udp (uf_guest_ip f) (uf_guest_port f) (uf_remote_ip f) (uf_remote_port f)
  | FTcp f => key_tcp (tf_guest_ip f) (tf_guest_port f) (tf_remote_ip f) (tf_remote_port f)
  | FIcmp f => key_icmp (if_guest_ip f) (if_remote f) (if_id f)
  end.
Definition flow_mac (f : Flow) : list Z :=
  match f with FUdp f => uf_guest_mac f | FTcp f => tf_guest_mac f | FIcmp f => if_guest_mac f end.
Definition seqs_ok (f : Flow) : Prop :=
  match f with FTcp f => fits 32 (tf_guest_seq f) /\ fits 32 (tf_our_seq f) | _ => True end.

Record key_ok (k : FlowKey) : Prop := {
  ko_guest_ip : bytes_of 4 (k_guest_ip k);
  ko_guest_port : fits 16 (k_guest_port k);
  ko_remote_ip : bytes_of 4 (k_remote_ip k);
  ko_remote_port : fits 16 (k_remote_port k);
}.

Record flow_ok (k : FlowKey) (f : Flow) : Prop := {
  fo_key : k = flow_key f;
  fo_range : key_ok k;
  fo_mac : bytes_of 6 (flow_mac f);
  fo_seqs : seqs_ok f;
}.

Record net_ok (n : UserNet) : Prop := {
  no_rx : (length (n_rx n) <= MAX_QUEUED)%nat;
  no_frames : Forall frame_ok (n_rx n);
  no_flows : (size (n_flows n) <= MAX_FLOWS)%nat;
  no_table : map_Forall flow_ok (n_flows n);
  no_gateway : n_gateway_mac n = GATEWAY_MAC;
  no_guest : bytes_of 6 (n_guest_mac n);
  no_id : fits 16 (n_ip_id n);
  no_isn : fits 32 (n_isn n);
  no_port : 50000 <= n_host_port n <= 60000;
  no_listeners : Forall (fun l => fits 16 (l_guest_port l)) (n_listeners n);
}.

(** The host's answers have the types of the code: bytes, addresses, ports. *)
Definition recv_ok (r : RecvResult) : Prop := match r with RGot data => Forall (fits 8) data | _ => True end.
Definition datagram_ok (d : Datagram) : Prop :=
  match d with
  | DGot from data => Forall (fits 8) data /\ match from with Some (ip, port) => bytes_of 4 ip /\ fits 16 port | None => True end
  | _ => True
  end.
Definition reply_ok (h : SendHost) : Prop := match h_reply h with Some r => Forall (fits 8) r | None => True end.
Definition poll_host_ok (h : PollHost) : Prop := (forall k, recv_ok (p_recv h k)) /\ (forall i, datagram_ok (p_datagram h i)).

Create HintDb usernet.

Section Steps.
Context (n : UserNet) (Hn : net_ok n).

Lemma bump_ok a b c d : net_ok (bump a b c d n).
Proof using Hn. by destruct Hn. Qed.
Lemma drop_ok : net_ok (drop_reason n).
Proof using Hn. by destruct Hn. Qed.
Lemma emit_ok op : net_ok (emit op n).
Proof using Hn. by destruct Hn. Qed.
Lemma log_ok : net_ok (log_conntrack n).
Proof using Hn. unfold log_conntrack. case_bool_decide; [done|]. by destruct Hn. Qed.

Lemma queue_ok frame : frame_ok frame -> net_ok (queue frame n).
Proof using Hn.
  intros Hf. unfold queue. case_bool_decide as Hl; [apply drop_ok|]. destruct Hn. split; cbn; try done.
  - rewrite length_app. cbn. lia.
  - apply Forall_app. auto.
Qed.

Lemma remove_ok k : net_ok (remove_flow k n).
Proof using Hn.
  destruct Hn. split; cbn; try done.
  - etrans; [|exact no_flows0]. apply map_subseteq_size, delete_subseteq.
  - by apply map_Forall_delete.
Qed.

Lemma put_ok k f :
  flow_ok k f -> is_Some (n_flows n !! k) \/ (size (n_flows n) < MAX_FLOWS)%nat -> net_ok (put_flow k f n).
Proof using Hn.
  intros Hf Hs. destruct Hn. split; cbn; try done; [|by apply map_Forall_insert_2].
  destruct (n_flows n !! k) eqn:E; [rewrite map_size_insert_Some by done; done|].
  rewrite map_size_insert_None by done. destruct Hs as [[]%is_Some_None|]; lia.
Qed.

Lemma learn_ok mac : bytes_of 6 mac -> net_ok (learn_mac mac n).
Proof using Hn. intros Hm. unfold learn_mac. case_bool_decide; [done|]. by destruct Hn. Qed.

Lemma next_ip_id_ok : net_ok (next_ip_id n).2 /\ fits 16 (next_ip_id n).1.
Proof using Hn. split; [|by destruct Hn]. destruct Hn. split; cbn; try done. by apply wrap_fits. Qed.
Lemma next_isn_ok : net_ok (next_isn n).2 /\ fits 32 (next_isn n).1.
Proof using Hn. split; [|by destruct Hn]. destruct Hn. split; cbn; try done. by apply wrap_fits. Qed.
Lemma next_host_port_ok : net_ok (next_host_port n).2 /\ fits 16 (next_host_port n).1.
Proof using Hn.
  split; [|destruct Hn; unfold fits; cbn; lia]. destruct Hn. split; cbn; try done.
  destruct (Z.eqb_spec (n_host_port n) 60000); [lia|]. unfold add_w. rewrite wrap_small; unfold fits; lia.
Qed.
End Steps.

#[export] Hint Resolve bump_ok drop_ok emit_ok log_ok remove_ok : usernet.

(** *** Frames *)

Lemma bytes_of_constants :
  bytes_of 4 GATEWAY_IP /\ bytes_of 4 DNS_IP /\ bytes_of 4 GUEST_IP /\ bytes_of 6 GATEWAY_MAC /\ bytes_of 4 BROADCAST /\
  bytes_of 6 DEFAULT_GUEST_MAC.
Proof. split_and!; split; done || by apply all_bytes_fits. Qed.

Lemma udp_payload_fits src dst sp dp data : Forall (fits 8) data -> Forall (fits 8) (udp_payload src dst sp dp data).
Proof. intros H. unfold udp_payload, udp_header. rewrite !Forall_app. auto 10 using be_bytes_fits. Qed.

Lemma tcp_payload_fits src dst sp dp seq ack flags window data :
  fits 8 flags -> Forall (fits 8) data -> Forall (fits 8) (tcp_payload src dst sp dp seq ack flags window data).
Proof.
  intros Hf H. unfold tcp_payload, tcp_header. rewrite !Forall_app. split_and!; try apply be_bytes_fits; try done.
  - constructor; [fits_closed|by constructor].
  - by apply all_bytes_fits.
Qed.

Lemma ipv4_frame_fits dst_mac src_mac src dst proto id payload :
  addressed dst_mac src_mac src dst proto id -> Forall (fits 8) payload ->
  Forall (fits 8) (ipv4_frame dst_mac src_mac src dst proto id payload).
Proof.
  intros [[_ ?] [_ ?] [_ ?] [_ ?] ? ?] ?. unfold ipv4_frame, ipv4_header. rewrite !Forall_app. split_and!; try apply be_bytes_fits; try done.
  - by apply all_bytes_fits.
  - by apply all_bytes_fits.
  - constructor; [fits_closed|by constructor].
Qed.

(** A packet the NAT builds is one the guest may receive. *)
Lemma ip_frame_built dst_mac src dst proto id payload :
  bytes_of 6 dst_mac -> bytes_of 4 src -> bytes_of 4 dst -> fits 8 proto -> fits 16 id -> Forall (fits 8) payload ->
  Z.of_nat (length payload) <= 65515 ->
  transport_ok {| ip_src_mac := GATEWAY_MAC; ip_src := src; ip_dst := dst; ip_proto := proto; ip_payload := payload |} ->
  frame_ok (ipv4_frame dst_mac GATEWAY_MAC src dst proto id payload).
Proof.
  intros. assert (Ha : addressed dst_mac GATEWAY_MAC src dst proto id) by (split; try done; apply bytes_of_constants).
  split; [by apply ipv4_frame_fits|]. left. eexists. split; [unfold ipv4; by rewrite parse_ipv4_frame|]. done.
Qed.

Lemma udp_transport_ok mac src dst sp dp data :
  bytes_of 4 src -> bytes_of 4 dst -> fits 16 sp -> fits 16 dp -> Forall (fits 8) data -> Z.of_nat (length data) <= 65507 ->
  transport_ok {| ip_src_mac := mac; ip_src := src; ip_dst := dst; ip_proto := IP_PROTO_UDP; ip_payload := udp_payload src dst sp dp data |}.
Proof.
  intros. split; [|done]. intros _. cbn [ip_src ip_dst ip_proto ip_payload]. rewrite length_udp_payload. split.
  - unfold udp. rewrite udp_roundtrip by (done || lia). by eexists.
  - apply udp_checksum_verifies; [done..|lia].
Qed.

Lemma tcp_transport_ok mac src dst sp dp seq ack flags window data :
  bytes_of 4 src -> bytes_of 4 dst -> fits 16 sp -> fits 16 dp -> fits 32 seq -> fits 8 flags -> Forall (fits 8) data ->
  Z.of_nat (length data) <= 65495 ->
  transport_ok {| ip_src_mac := mac; ip_src := src; ip_dst := dst; ip_proto := IP_PROTO_TCP;
                  ip_payload := tcp_payload src dst sp dp seq ack flags window data |}.
Proof.
  intros. split; [done|]. intros _. cbn [ip_src ip_dst ip_proto ip_payload]. rewrite length_tcp_payload. split.
  - unfold tcp. rewrite tcp_roundtrip by done. by eexists.
  - apply tcp_checksum_verifies; [done..|lia].
Qed.

Lemma icmp_transport_ok mac src dst payload :
  transport_ok {| ip_src_mac := mac; ip_src := src; ip_dst := dst; ip_proto := IP_PROTO_ICMP; ip_payload := payload |}.
Proof. by split. Qed.

(** A UDP frame, built with a fresh identification. *)
Lemma udp_frame_ok n mac src dst sp dp data :
  net_ok n -> bytes_of 6 mac -> bytes_of 4 src -> bytes_of 4 dst -> fits 16 sp -> fits 16 dp -> Forall (fits 8) data ->
  Z.of_nat (length data) <= 65507 ->
  frame_ok (ipv4_frame mac (n_gateway_mac n) src dst IP_PROTO_UDP (n_ip_id n) (udp_payload src dst sp dp data)).
Proof.
  intros Hn ** . rewrite (no_gateway _ Hn). apply ip_frame_built; try done.
  - apply (no_id _ Hn).
  - by apply udp_payload_fits.
  - rewrite length_udp_payload. unfold UDP_HLEN. lia.
  - by apply udp_transport_ok.
Qed.

Lemma queue_ipv4_ok n mac src dst proto payload :
  net_ok n -> bytes_of 6 mac -> bytes_of 4 src -> bytes_of 4 dst -> fits 8 proto -> Forall (fits 8) payload ->
  Z.of_nat (length payload) <= 65515 ->
  transport_ok {| ip_src_mac := GATEWAY_MAC; ip_src := src; ip_dst := dst; ip_proto := proto; ip_payload := payload |} ->
  net_ok (queue_ipv4 mac src dst proto payload n).
Proof.
  intros Hn ** . unfold queue_ipv4. destruct (next_ip_id_ok n Hn) as [Hn' Hid]. destruct (next_ip_id n) as [id n']. cbn in *.
  apply queue_ok; [done|]. rewrite (no_gateway _ Hn'). by apply ip_frame_built.
Qed.

(** *** The handlers keep it *)

Lemma sub_bytes l i m : Forall (fits 8) l -> (i + m <= length l)%nat -> bytes_of m (take m (drop i l)).
Proof. intros Hf Hl. split; [rewrite length_take, length_drop; lia|by apply Forall_take, Forall_drop]. Qed.

Lemma arp_reply_ok n frame : net_ok n -> Forall (fits 8) frame -> net_ok (arp_reply frame n).
Proof.
  intros Hn Hf. unfold arp_reply. case_bool_decide as Hl; [done|]. cbv zeta. set (arp := take 28 (drop 14 frame)).
  destruct (sub_bytes frame 14 28 Hf ltac:(lia)) as [Ha1 Ha2]. fold arp in Ha1, Ha2.
  destruct (negb (_ =? 1)); [done|]. destruct (negb _ && negb _) eqn:Et; [done|].
  assert (Hsha : bytes_of 6 (take 6 (drop 8 arp))) by (apply sub_bytes; [done|lia]).
  assert (Htpa : bytes_of 4 (take 4 (drop 24 arp))) by (apply sub_bytes; [done|lia]).
  assert (Hspa : bytes_of 4 (take 4 (drop 14 arp))) by (apply sub_bytes; [done|lia]).
  apply queue_ok; [by apply learn_ok|]. destruct Hsha as [Hs1 Hs2], Htpa as [Ht1 Ht2], Hspa as [Hp1 Hp2].
  assert (Hg : Forall (fits 8) GATEWAY_MAC) by by apply all_bytes_fits.
  split; [rewrite !Forall_app; split_and!; try done; try apply be_bytes_fits; by apply all_bytes_fits|].
  right. split; [rewrite !length_app, length_be_bytes, Hs1, Ht1, Hp1; done|].
  split; [rewrite drop_app_length' by done; by rewrite take_app_length' by done|].
  rewrite app_assoc, drop_app_length' by (by rewrite length_app, Hs1). by rewrite take_app_length' by (by rewrite length_be_bytes).
Qed.

Lemma dhcp_reply_fits xid chaddr t :
  bytes_of 4 xid -> bytes_of 6 chaddr -> fits 8 t -> Forall (fits 8) (dhcp_reply xid chaddr t) /\ length (dhcp_reply xid chaddr t) = 274%nat.
Proof.
  intros [Hx1 Hx2] [Hc1 Hc2] Ht. unfold dhcp_reply. split.
  - rewrite !Forall_app. split_and!; try done; try apply zeros_fit; try (by apply all_bytes_fits). constructor; [fits_closed|]. constructor; [fits_closed|]. by constructor.
  - rewrite !length_app, !length_replicate, Hx1, Hc1. done.
Qed.

Ltac keep := solve [auto with usernet].

Lemma dhcp_ok n ip : net_ok n -> ipv4_ok ip -> net_ok (dhcp_handle ip n).
Proof.
  intros Hn Hip. unfold dhcp_handle. destruct (udp (ip_payload ip)) as [u|] eqn:Eu; [|keep].
  destruct (udp_fits _ _ (io_payload _ Hip) Eu) as (_ & _ & Hd & _).
  destruct (negb _); [done|]. destruct (bool_decide _ || _) eqn:El; [keep|]. apply orb_false_iff in El as [Hl%bool_decide_eq_false _].
  destruct (negb _); [keep|]. cbv zeta.
  assert (Hx : bytes_of 4 (take 4 (drop 4 (u_data u)))) by (apply sub_bytes; [done|lia]).
  assert (Hc : bytes_of 6 (take 6 (drop 28 (u_data u)))) by (apply sub_bytes; [done|lia]).
  assert (Hans : forall t, fits 8 t -> net_ok
    (queue_ipv4 (take 6 (drop 28 (u_data u))) GATEWAY_IP BROADCAST IP_PROTO_UDP
       (udp_payload GATEWAY_IP BROADCAST DHCP_SERVER_PORT DHCP_CLIENT_PORT (dhcp_reply (take 4 (drop 4 (u_data u))) (take 6 (drop 28 (u_data u))) t))
       (learn_mac (take 6 (drop 28 (u_data u))) n))).
  { intros t Ht. destruct (dhcp_reply_fits _ _ t Hx Hc Ht) as [Hr1 Hr2].
    apply queue_ipv4_ok; try apply bytes_of_constants; try done; [by apply learn_ok|by apply udp_payload_fits| |].
    - rewrite length_udp_payload, Hr2. unfold UDP_HLEN. lia.
    - apply udp_transport_ok; try apply bytes_of_constants; try fits_closed; [done|rewrite Hr2; lia]. }
  destruct (match dhcp_option _ _ with Some v => _ | None => _ end) as [m|]; [|apply Hans; fits_closed].
  destruct (m =? DISCOVER); [apply Hans; fits_closed|]. destruct (m =? REQUEST); [apply Hans; fits_closed|done].
Qed.

(** A frame queued after its identification was taken and its bytes counted. *)
Lemma queue_udp_ok n mac src dst sp dp data a b :
  net_ok n -> bytes_of 6 mac -> bytes_of 4 src -> bytes_of 4 dst -> fits 16 sp -> fits 16 dp -> Forall (fits 8) data ->
  net_ok (let '(id, n) := next_ip_id n in
          queue (ipv4_frame mac (n_gateway_mac n) src dst IP_PROTO_UDP id (udp_payload src dst sp dp (take 1500 data))) (bump 0 a b 0 n)).
Proof.
  intros Hn ** . destruct (next_ip_id_ok n Hn) as [Hn' _]. cbn [next_ip_id fst snd] in *. cbv beta iota zeta. unfold next_ip_id in *.
  apply queue_ok; [by apply bump_ok|]. apply (udp_frame_ok n); try done; [by apply Forall_take|rewrite length_take; lia].
Qed.

Lemma dns_ok h n ip : net_ok n -> ipv4_ok ip -> reply_ok h -> net_ok (dns_handle h ip n).
Proof.
  intros Hn Hip Hr. unfold dns_handle. destruct (udp (ip_payload ip)) as [u|] eqn:Eu; [|keep].
  destruct (udp_fits _ _ (io_payload _ Hip) Eu) as (Hsp & _ & Hd & _).
  destruct (negb _ || _); [keep|]. destruct (host_resolver _) as [rs|]; [|keep].
  do 2 (destruct (negb _); [keep|]). destruct (h_sent h); [|keep]. cbv zeta. unfold reply_ok in Hr.
  destruct (h_reply h) as [reply|]; [|keep]. apply queue_udp_ok; try done; [keep|apply Hip| |apply Hip].
  case_bool_decide; apply bytes_of_constants.
Qed.

Lemma flow_at n k f : net_ok n -> n_flows n !! k = Some f -> flow_ok k f.
Proof. intros Hn H. exact (map_Forall_lookup_1 _ _ _ _ (no_table _ Hn) H). Qed.

(** Update a flow that is in the table. *)
Lemma update_ok n k f f' :
  net_ok n -> n_flows n !! k = Some f -> flow_ok k f' -> net_ok (put_flow k f' n).
Proof. intros Hn H Hf. apply put_ok; [done..|]. left. by eexists. Qed.

Lemma flow_key_ok ip p g r : ipv4_ok ip -> fits 16 g -> fits 16 r ->
  key_ok {| k_proto := p; k_guest_ip := ip_src ip; k_guest_port := g; k_remote_ip := ip_dst ip; k_remote_port := r |}.
Proof. intros Hip ? ?. split; cbn; try done; apply Hip. Qed.

Lemma udp_send_ok h n ip u k : net_ok n -> net_ok (udp_send h ip u k n).
Proof.
  intros Hn. unfold udp_send. destruct (n_flows n !! k) as [[f| |]|] eqn:E; try done. cbv zeta.
  assert (net_ok (put_flow k (FUdp (uf_touch (h_now h) f)) n)).
  { eapply update_ok; [done..|]. by destruct (flow_at _ _ _ Hn E). }
  destruct (h_sent h); keep.
Qed.

Lemma udp_ok h n ip : net_ok n -> ipv4_ok ip -> net_ok (udp_handle h ip n).
Proof.
  intros Hn Hip. unfold udp_handle. destruct (udp (ip_payload ip)) as [u|] eqn:Eu; [|keep].
  destruct (udp_fits _ _ (io_payload _ Hip) Eu) as (Hsp & Hdp & Hd & _). cbv zeta.
  destruct (negb _); [|by apply udp_send_ok]. case_bool_decide as Hs; [keep|].
  do 2 (destruct (negb _); [keep|]). apply udp_send_ok, put_ok; [keep| |right; cbn; lia].
  split; cbn; try done; [by apply flow_key_ok|apply Hip].
Qed.

Lemma udp_poll_one_ok now r k n : net_ok n -> recv_ok r -> net_ok (udp_poll_one now r k n).
Proof.
  intros Hn Hr. unfold udp_poll_one. destruct (n_flows n !! k) as [[f| |]|] eqn:E; try done.
  destruct (flow_at _ _ _ Hn E) as [-> [? ? ? ?] ? ?]. cbn in * |-.
  match goal with |- context [match n_flows ?m !! _ with _ => _ end] => assert (Hm : net_ok m) end.
  { destruct r; [|done|keep]. cbv zeta. apply queue_udp_ok; try done. eapply update_ok; [done|exact E|by split]. }
  match goal with |- context [match n_flows ?m !! _ with _ => _ end] => destruct (n_flows m !! _) as [[f'| |]|] end; try done.
  destruct (_ <? _); [by apply remove_ok|done].
Qed.

Lemma foldl_ok {A} (step : UserNet -> A -> UserNet) (l : list A) n :
  (forall n x, net_ok n -> net_ok (step n x)) -> net_ok n -> net_ok (foldl step n l).
Proof. intros H. revert n. induction l as [|x l IH]; intros n Hn; cbn; [done|]. apply IH, H, Hn. Qed.

(** *** TCP *)

Lemma tf_with_ok k f st gs os l :
  flow_ok k (FTcp f) -> fits 32 gs -> fits 32 os -> flow_ok k (FTcp (tf_with st gs os l f)).
Proof. intros [-> ? ? ?] ? ?. by split. Qed.

Lemma set_tcp_state_ok k f st : flow_ok k (FTcp f) -> flow_ok k (FTcp (set_tcp_state st f)).
Proof. intros H. by apply tf_with_ok; [|apply H..]. Qed.
Lemma touch_tcp_ok k f now : flow_ok k (FTcp f) -> flow_ok k (FTcp (touch_tcp now f)).
Proof. intros H. by apply tf_with_ok; [|apply H..]. Qed.
Lemma add_guest_seq_ok k f d : flow_ok k (FTcp f) -> flow_ok k (FTcp (add_guest_seq d f)).
Proof. intros H. apply tf_with_ok; [done|by apply wrap_fits|apply H]. Qed.
Lemma add_our_seq_ok k f d : flow_ok k (FTcp f) -> flow_ok k (FTcp (add_our_seq d f)).
Proof. intros H. apply tf_with_ok; [done|apply H|by apply wrap_fits]. Qed.

#[export] Hint Resolve set_tcp_state_ok touch_tcp_ok add_guest_seq_ok add_our_seq_ok : usernet.

Lemma tcp_out_ok n k f flags window data :
  net_ok n -> flow_ok k (FTcp f) -> fits 8 flags -> Forall (fits 8) data -> Z.of_nat (length data) <= 1400 ->
  net_ok (tcp_out f flags window data n).
Proof.
  intros Hn [-> [? ? ? ?] ? [? ?]] Hfl Hd Hl. cbn in * |-. unfold tcp_out. apply queue_ipv4_ok; try done; [by apply tcp_payload_fits| |].
  - rewrite length_tcp_payload. unfold TCP_HLEN. lia.
  - apply tcp_transport_ok; try done. lia.
Qed.

Lemma ack_guest_ok k n : net_ok n -> net_ok (ack_guest k n).
Proof.
  intros Hn. unfold ack_guest. destruct (n_flows n !! k) as [[|f|]|] eqn:E; try done.
  eapply tcp_out_ok; [done|by eapply flow_at|fits_closed|done|done].
Qed.

Lemma send_rst_ok k n : net_ok n -> net_ok (send_rst k n).
Proof.
  intros Hn. unfold send_rst. destruct (n_flows n !! k) as [[|f|]|] eqn:E; try keep.
  eapply tcp_out_ok; [by apply remove_ok|by eapply flow_at|fits_closed|done|done].
Qed.

Lemma write_data_ok h t k f n f0 :
  net_ok n -> n_flows n !! k = Some f0 -> flow_ok k (FTcp f) -> net_ok (write_data h t k f n).1.
Proof.
  intros Hn E Hf. assert (Hput : forall f', flow_ok k (FTcp f') -> net_ok (put_flow k (FTcp f') n)) by (intros; by eapply update_ok).
  unfold write_data. case_bool_decide; [by apply Hput|]. destruct (h_write h); cbn [fst]; auto with usernet.
Qed.

Lemma finish_segment_ok t k n : net_ok n -> net_ok (finish_segment t k n).
Proof.
  intros Hn. unfold finish_segment. cbv zeta. assert (Hm : net_ok (guest_fin t k n)).
  { unfold guest_fin. destruct (has _ TCP_FIN); [|done]. destruct (n_flows n !! k) as [[|f|]|] eqn:E; try done.
    apply emit_ok. eapply update_ok; [done..|]. pose proof (flow_at _ _ _ Hn E). auto with usernet. }
  destruct (_ && _ && _); [by apply remove_ok|by apply ack_guest_ok].
Qed.

Lemma on_segment_ok h t k f n : net_ok n -> n_flows n !! k = Some (FTcp f) -> net_ok (on_segment h t k f n).
Proof.
  intros Hn E. pose proof (flow_at _ _ _ Hn E) as Hf. unfold on_segment. destruct (_ && _ && _).
  { apply ack_guest_ok. eapply update_ok; [done..|]. apply tf_with_ok; [done|by apply wrap_fits|apply Hf]. }
  cbv zeta. match goal with |- context [write_data h t k ?g n] => pose proof (write_data_ok h t k g n _ Hn E) as Hw end.
  destruct (write_data _ _ _ _ _) as [m reset]. cbn [fst] in Hw.
  assert (Hm : net_ok m) by (apply Hw; destruct (_ && _); auto with usernet).
  destruct reset; [by apply send_rst_ok|by apply finish_segment_ok].
Qed.

Lemma tcp_ok h n ip : net_ok n -> ipv4_ok ip -> net_ok (tcp_handle h ip n).
Proof.
  intros Hn Hip. unfold tcp_handle. destruct (tcp (ip_payload ip)) as [t|] eqn:Et; [|keep].
  destruct (tcp_fits _ _ (io_payload _ Hip) Et) as (Hsp & Hdp & Hsq & _ & _ & _). cbv zeta. destruct (_ && negb _).
  { unfold on_syn. case_bool_decide; [done|]. case_bool_decide as Hs; [keep|]. cbv zeta. destruct (negb _); [keep|].
    match goal with |- context [next_isn ?m] => assert (Hm : net_ok m) by keep; destruct (next_isn_ok m Hm) as [Hm' Hsq'] end.
    apply put_ok; [done| |right; cbn; lia]. split; cbn; [done|by apply flow_key_ok|apply Hip|]. split; [by apply wrap_fits|done]. }
  destruct (has _ TCP_RST); [keep|]. destruct (n_flows n !! _) as [[|f|]|] eqn:E; try (by apply on_segment_ok); destruct (_ && _); keep.
Qed.

Lemma tcp_poll_one_ok h k n : net_ok n -> recv_ok (p_recv h k) -> net_ok (tcp_poll_one h n k).
Proof.
  intros Hn Hr. unfold tcp_poll_one. assert (H1 : net_ok (complete_connect (p_ready h k) k n)).
  { unfold complete_connect. destruct (n_flows n !! k) as [[|f|]|] eqn:E; try done. destruct (negb _); [done|].
    pose proof (flow_at _ _ _ Hn E) as Hf. destruct (p_ready h k) as [[]|]; [|keep|done]. cbv zeta.
    eapply tcp_out_ok; [eapply update_ok; [done..|]| | | |]; [auto with usernet|by apply set_tcp_state_ok|fits_closed|done|done]. }
  revert H1. generalize (complete_connect (p_ready h k) k n). clear n Hn. intros n Hn.
  assert (H2 : net_ok (splice_in (p_recv h k) k n)).
  { unfold splice_in. destruct (n_flows n !! k) as [[|f|]|] eqn:E; try done. destruct (negb _); [done|].
    pose proof (flow_at _ _ _ Hn E) as Hf. destruct (p_recv h k) as [data| |]; [|done|keep]. cbv zeta.
    assert (Hb : Forall (fits 8) (take 1400 data)) by by apply Forall_take.
    assert (Hl : Z.of_nat (length (take 1400 data)) <= 1400) by (rewrite length_take; lia).
    assert (Hput : forall f', flow_ok k (FTcp f') -> net_ok (put_flow k (FTcp f') n)) by (intros; by eapply update_ok).
    destruct (_ =? 0); (eapply tcp_out_ok; [|eauto with usernet|fits_closed|done|done]); destruct (0 <? _); eauto with usernet. }
  revert H2. generalize (splice_in (p_recv h k) k n). clear n Hn. intros n Hn.
  unfold expire. destruct (n_flows n !! k) as [[|f|]|] eqn:E; try done. cbv zeta. destruct (_ <? _); keep.
Qed.

Lemma inbound_ok now peer port n : net_ok n -> fits 16 port -> net_ok (inbound now peer port n).
Proof.
  intros Hn Hp. unfold inbound. case_bool_decide as Hs; [keep|]. destruct peer; [|keep|keep].
  destruct (next_host_port_ok n Hn) as [Hn1 Hp1]. destruct (next_host_port n) as [hp n1] eqn:E1. cbn [fst snd] in *.
  destruct (next_isn_ok n1 Hn1) as [Hn2 Hs2]. destruct (next_isn n1) as [isn n2] eqn:E2. cbn [fst snd] in *. cbv zeta.
  assert (Hfl : n_flows (bump 1 0 0 0 n2) = n_flows n) by (injection E1 as _ <-; injection E2 as _ <-; done).
  pose proof (bump_ok n2 Hn2 1 0 0 0) as Hn3. set (n3 := bump 1 0 0 0 n2) in *. set (k := key_tcp GUEST_IP port GATEWAY_IP hp).
  match goal with |- context [put_flow k (FTcp ?g) n3] => set (f := g) end.
  assert (Hf : flow_ok k (FTcp f)).
  { split; cbn; [done|split; cbn; done || apply bytes_of_constants|apply (no_guest _ Hn3)|]. split; [fits_closed|done]. }
  assert (Hn4 : net_ok (tcp_out f TCP_SYN WINDOW [] (put_flow k (FTcp f) n3))).
  { eapply tcp_out_ok; [|exact Hf|fits_closed|done|done]. apply put_ok; [done..|]. right. rewrite Hfl. lia. }
  destruct (n_flows _ !! k) as [[|f'|]|] eqn:E; try done. eapply update_ok; [done..|]. pose proof (flow_at _ _ _ Hn4 E). auto with usernet.
Qed.

(** *** ICMP and forwards *)

Lemma length_echo_reply p : (4 <= length p)%nat -> length (echo_reply p) = length p.
Proof. intros H. unfold echo_reply. rewrite !length_app, length_be_bytes, length_take, !length_drop. cbn [length]. lia. Qed.

Lemma echo_send_ok h ip k n : net_ok n -> net_ok (echo_send h ip k n).
Proof.
  intros Hn. unfold echo_send. destruct (n_flows n !! k) as [[| |f]|] eqn:E; try done. cbv zeta.
  assert (net_ok (put_flow k (FIcmp (if_touch (h_now h) f)) n)).
  { eapply update_ok; [done..|]. by destruct (flow_at _ _ _ Hn E). }
  destruct (h_sent h); keep.
Qed.

Lemma icmp_ok h n ip : net_ok n -> ipv4_ok ip -> net_ok (icmp_handle h ip n).
Proof.
  intros Hn Hip. unfold icmp_handle. case_bool_decide as Hl; [keep|]. unfold ICMP_HLEN in Hl. do 2 (destruct (negb _); [keep|]).
  pose proof (io_payload _ Hip) as Hpl. pose proof (io_len _ Hip) as Hlen. case_bool_decide.
  { apply queue_ipv4_ok; try apply Hip; try apply bytes_of_constants; try done; [|].
    - unfold echo_reply. rewrite !Forall_app. split_and!; [by apply all_bytes_fits|by apply Forall_take, Forall_drop|apply be_bytes_fits|by apply Forall_drop].
    - rewrite length_echo_reply by lia. lia. }
  unfold nat_echo. destruct (negb _); [keep|]. cbv zeta. destruct (negb _); [|by apply echo_send_ok]. case_bool_decide; [keep|].
  destruct (negb _); [keep|]. apply echo_send_ok, put_ok; [keep| |right; cbn; lia].
  assert (Hid : fits 16 (of_be (take 2 (drop 4 (ip_payload ip))))).
  { apply (be_at_fits 2 (ip_payload ip) 4); [done|]. unfold be_at. by rewrite slice_Some by lia. }
  split; cbn [flow_key flow_mac seqs_ok]; [done|apply flow_key_ok; [done..|fits_closed]|apply Hip|done].
Qed.

Lemma recv_echo_ok r body : recv_ok r -> recv_echo r = Some (Some body) -> Forall (fits 8) body /\ (length body <= 1500)%nat.
Proof.
  intros Hr. destruct r as [data| |]; cbn [recv_echo]; [|done..]. cbv zeta. assert (Hb : Forall (fits 8) (take 1500 data)) by by apply Forall_take.
  assert (Hl : (length (take 1500 data) <= 1500)%nat) by (rewrite length_take; lia).
  destruct (_ && _); intros [= <-]; [|done]. split; [by apply Forall_drop|rewrite length_drop; lia].
Qed.

Lemma icmp_poll_one_ok now r k n : net_ok n -> recv_ok r -> net_ok (icmp_poll_one now r k n).
Proof.
  intros Hn Hr. unfold icmp_poll_one. destruct (n_flows n !! k) as [[| |f]|] eqn:E; try done.
  destruct (flow_at _ _ _ Hn E) as [-> [? ? ? ?] ? ?]. cbn in * |-.
  match goal with |- context [match n_flows ?m !! _ with _ => _ end] => assert (Hm : net_ok m) end.
  { destruct (recv_echo r) as [[body|]|] eqn:Er; [|done|keep]. destruct (recv_echo_ok _ _ Hr Er) as [? ?].
    destruct (next_ip_id_ok n Hn) as [Hn' Hid]. destruct (next_ip_id n) as [id n']. cbn [fst snd] in *.
    apply remove_ok, queue_ok; [keep|]. rewrite (no_gateway _ Hn'). apply ip_frame_built; try done; lia. }
  match goal with |- context [match n_flows ?m !! _ with _ => _ end] => destruct (n_flows m !! _) as [[| |f']|] end; try done.
  destruct (_ <? _); [by apply remove_ok|done].
Qed.

Lemma datagram_in_ok d port n : net_ok n -> datagram_ok d -> fits 16 port -> net_ok (datagram_in d port n).
Proof.
  intros Hn Hd Hp. destruct d as [[[src sp]|] data| |]; [|keep|done|keep]. destruct Hd as [Hd [Hs Hsp]].
  pose proof (queue_udp_ok n (n_guest_mac n) src GUEST_IP sp port data (Z.of_nat (length (take 1500 data))) 0 Hn (no_guest _ Hn) Hs) as H.
  apply H; try done. apply bytes_of_constants.
Qed.

(** The listeners never change. *)
Lemma inbound_listeners now peer port n : n_listeners (inbound now peer port n) = n_listeners n.
Proof.
  unfold inbound. case_bool_decide; [done|]. destruct peer; [|done..]. cbv beta iota zeta delta [next_host_port next_isn].
  destruct (n_flows _ !! _) as [[| |]|]; unfold tcp_out, queue_ipv4, queue; cbn -[tcp_payload ipv4_frame]; by case_bool_decide.
Qed.

Lemma forward_one_ok h n i : poll_host_ok h -> net_ok n -> net_ok (forward_one h n i).
Proof.
  intros [_ Hd] Hn. unfold forward_one. destruct (n_listeners n !! i) as [l|] eqn:E; [|done].
  pose proof (list.Forall_lookup_1 _ _ _ _ (no_listeners _ Hn) E) as Hl. cbv zeta beta in Hl |- *.
  assert (Hm : net_ok (if l_tcp l then foldl (fun n peer => inbound (p_inbound_now h) peer (l_guest_port l) n) n (p_accepts h i) else n)).
  { destruct (l_tcp l); [|done]. apply foldl_ok; [|done]. intros. by apply inbound_ok. }
  destruct (l_udp l); [|done]. by apply datagram_in_ok.
Qed.

(** *** The NAT *)

Lemma nat_send_ok h frame n : net_ok n -> Forall (fits 8) frame -> reply_ok h -> net_ok (send h frame n).
Proof.
  intros Hn Hf Hr. unfold send. case_bool_decide; [done|]. cbv zeta. destruct (_ =? ETHERTYPE_ARP); [by apply arp_reply_ok|].
  destruct (negb _); [done|]. destruct (ipv4 frame) as [ip|] eqn:E; [|keep]. destruct (ipv4_ok_of _ _ Hf E) as [Hip _].
  destruct (_ =? IP_PROTO_UDP).
  { unfold send_udp. destruct (udp (ip_payload ip)); [|by apply log_ok, udp_ok].
    destruct (_ =? DHCP_SERVER_PORT); [by apply dhcp_ok|]. destruct (_ && _); [by apply dns_ok|by apply log_ok, udp_ok]. }
  destruct (_ =? IP_PROTO_TCP); [by apply log_ok, tcp_ok|]. destruct (_ =? IP_PROTO_ICMP); [by apply log_ok, icmp_ok|by apply log_ok].
Qed.

Lemma nat_poll_ok h n : net_ok n -> poll_host_ok h ->
  net_ok (poll h n).2 /\ (forall f, (poll h n).1 = Some f -> frame_ok f).
Proof.
  intros Hn Hh. unfold poll. cbv zeta.
  match goal with |- context [n_rx ?m] => lazymatch m with n => fail | _ => assert (Hm : net_ok m) end end.
  { case_bool_decide; [|done]. apply log_ok. unfold forward_poll, icmp_poll, tcp_poll, udp_poll. destruct Hh as [Hr Hd].
    apply foldl_ok; [intros; by apply forward_one_ok|]. apply foldl_ok; [intros; by apply icmp_poll_one_ok|].
    apply foldl_ok; [intros; by apply tcp_poll_one_ok|]. apply foldl_ok; [intros; by apply udp_poll_one_ok|done]. }
  match type of Hm with net_ok ?m => generalize dependent m end. intros m Hm. destruct (n_rx m) as [|f rx] eqn:E; [done|]. cbn [fst snd].
  destruct Hm. rewrite E in *. apply list.Forall_cons in no_frames0 as [Hf Hrx]. split; [|by intros ? [= <-]].
  split; cbn; try done. cbn in no_rx0. lia.
Qed.

Lemma bind_from_listeners bound i fws ls :
  Forall (fun f => fits 16 (fw_guest_port f)) fws -> bind_from bound i fws = Ok ls ->
  Forall (fun l => fits 16 (l_guest_port l)) ls /\ length ls = length fws.
Proof.
  revert i ls. induction fws as [|f fws IH]; intros i ls Hf; cbn [bind_from]; [intros [= <-]; by split|].
  apply list.Forall_cons in Hf as [Hf Hfs]. destruct (bound i); [|done]. destruct (bind_from bound (S i) fws) as [rest|] eqn:E; [|done].
  cbn [mbind result_bind]. intros [= <-]. destruct (IH _ _ Hfs E) as [H1 H2]. split; [|cbn; lia]. constructor; [|done]. by destruct (fw_proto f).
Qed.

Lemma net_new_ok ls icmp : Forall (fun l => fits 16 (l_guest_port l)) ls -> net_ok (net_new ls icmp).
Proof.
  intros Hl. split; cbn [net_new n_rx n_flows n_gateway_mac n_guest_mac n_ip_id n_isn n_host_port n_listeners]; try done;
    try apply bytes_of_constants; try fits_closed; try lia.
  all: unfold MAX_QUEUED, MAX_FLOWS; rewrite ?map_size_empty; cbn; lia.
Qed.

(** A run: frames of the guest and polls, in any order, with whatever the host
    answers; [out] are the frames the guest receives. *)
Inductive NatEvent := ESend (h : SendHost) (frame : list Z) | EPoll (h : PollHost).

Definition nat_step (s : UserNet * list (list Z)) (e : NatEvent) : UserNet * list (list Z) :=
  match e with
  | ESend h frame => (send h frame s.1, s.2)
  | EPoll h => let '(f, n) := poll h s.1 in (n, s.2 ++ option_list f)
  end.

Definition event_ok (e : NatEvent) : Prop :=
  match e with
  | ESend h frame => Forall (fits 8) frame /\ reply_ok h
  | EPoll h => poll_host_ok h
  end.


Definition sample_send : SendHost :=
  {| h_now := 0; h_conf := None; h_bind := true; h_option := true; h_sent := Some 4; h_reply := None; h_connect := true;
     h_write := WDone; h_icmp := true |}.
Definition sample_key : FlowKey := key_udp GUEST_IP 40000 [1; 1; 1; 1] 7.
Definition sample_poll : PollHost :=
  {| p_order := [sample_key]; p_now := fun _ => SECOND; p_recv := fun _ => RGot [112; 111; 110; 103]; p_ready := fun _ => None;
     p_accepts := fun _ => [PeerV4]; p_datagram := fun _ => DBlock; p_inbound_now := SECOND |}.
Definition sample_ping : list Z :=
  ipv4_frame GATEWAY_MAC DEFAULT_GUEST_MAC GUEST_IP [1; 1; 1; 1] IP_PROTO_UDP 1 (udp_payload GUEST_IP [1; 1; 1; 1] 40000 7 [112; 105; 110; 103]).
Definition sample_forward : Forward := {| fw_proto := Tcp; fw_host := LOCALHOST; fw_host_port := 2222; fw_guest_port := 22 |}.

(** A ping is sent and answered, and a forwarded connection is offered. *)
Definition sample_events : list NatEvent := [ESend sample_send sample_ping; EPoll sample_poll; EPoll sample_poll].


(** ** The TCP splice *)

(** A segment of flow [k] that carries data only. *)
Record data_segment (k : FlowKey) (h : SendHost) (ip : Ipv4) (t : TcpHdr) : Prop := {
  ds_parsed : tcp (ip_payload ip) = Some t;
  ds_key : key_tcp (ip_src ip) (t_src_port t) (ip_dst ip) (t_dst_port t) = k;
  ds_flags : t_flags t = TCP_ACK \/ t_flags t = Z.lor TCP_PSH TCP_ACK;
  ds_written : h_write h = WDone;
}.

Lemma wrap_sum_l w x y : wrap w (wrap w x + y) = wrap w (x + y).
Proof. apply Zplus_mod_idemp_l. Qed.
Lemma wrap_sum_r w x y : wrap w (x + wrap w y) = wrap w (x + y).
Proof. apply Zplus_mod_idemp_r. Qed.

(** What the host's sockets were given. *)
Definition writes (k : FlowKey) (data : list Z) : list HostOp := if bool_decide (data = []) then [] else [TcpWrite k data].

Definition established (k : FlowKey) (n : UserNet) (seq : Z) : Prop :=
  exists f, n_flows n !! k = Some (FTcp f) /\ tf_state f = Established /\ tf_guest_seq f = seq.

Lemma queue_keeps frame n : n_flows (queue frame n) = n_flows n /\ n_host (queue frame n) = n_host n.
Proof. unfold queue. by case_bool_decide. Qed.

Lemma tcp_out_keeps f flags w d n : n_flows (tcp_out f flags w d n) = n_flows n /\ n_host (tcp_out f flags w d n) = n_host n.
Proof.
  unfold tcp_out, queue_ipv4. destruct (next_ip_id n) as [id m] eqn:E. unfold next_ip_id in E. injection E as _ <-. exact (queue_keeps _ (set_counters _ _ _ _ n)).
Qed.

(** One data segment of an established flow: written, counted, acknowledged. *)
Lemma data_segment_written k h ip t n f :
  data_segment k h ip t -> n_flows n !! k = Some (FTcp f) -> tf_state f = Established -> fits 32 (tf_guest_seq f) ->
  let n' := tcp_handle h ip n in
  let f' := (if bool_decide (t_data t = []) then touch_tcp (h_now h) f
             else add_guest_seq (wrap 32 (Z.of_nat (length (t_data t)))) (touch_tcp (h_now h) f)) in
  n_flows n' !! k = Some (FTcp f') /\ n_host n' = n_host n ++ writes k (t_data t) /\
  exists m, n_rx m = n_rx n /\ n_ip_id m = n_ip_id n /\ n' = tcp_out f' TCP_ACK WINDOW [] m.
Proof.
  intros [Hp Hk Hfl Hw] E Hst Hfit n' f'. subst n'. unfold tcp_handle. rewrite Hp. cbv zeta. rewrite Hk.
  replace (has (t_flags t) TCP_SYN) with false by (destruct Hfl as [-> | ->]; done).
  replace (has (t_flags t) TCP_RST) with false by (destruct Hfl as [-> | ->]; done). cbn [andb]. rewrite E.
  unfold on_segment. replace (has (t_flags t) TCP_SYN) with false by (destruct Hfl as [-> | ->]; done). rewrite andb_false_r. cbn [andb].
  cbv zeta. rewrite (bool_decide_eq_false_2 (tf_state (touch_tcp (h_now h) f) = SynReceived)) by (cbn; by rewrite Hst). cbn [andb].
  assert (Hfin : forall m, n_flows m !! k = Some (FTcp f') -> finish_segment t k m = tcp_out f' TCP_ACK WINDOW [] m).
  { intros m Hm. unfold finish_segment, guest_fin. replace (has (t_flags t) TCP_FIN) with false by (destruct Hfl as [-> | ->]; done).
    cbv zeta. rewrite Hm. rewrite bool_decide_eq_false_2 by (unfold f'; case_bool_decide; cbn; by rewrite Hst). cbn [andb].
    unfold ack_guest. by rewrite Hm. }
  unfold write_data, writes, f' in *. cbv zeta. case_bool_decide as Hd.
  - rewrite Hfin by apply lookup_insert_eq. destruct (tcp_out_keeps (touch_tcp (h_now h) f) TCP_ACK WINDOW [] (put_flow k (FTcp (touch_tcp (h_now h) f)) n)) as [-> ->].
    split; [apply lookup_insert_eq|]. split; [cbn; by rewrite app_nil_r|]. eexists. split_and!; [| |reflexivity]; done.
  - rewrite Hw. rewrite Hfin by apply lookup_insert_eq. match goal with |- context [tcp_out ?g TCP_ACK WINDOW [] ?m] => destruct (tcp_out_keeps g TCP_ACK WINDOW [] m) as [-> ->] end.
    split; [apply lookup_insert_eq|]. split; [done|]. eexists. split_and!; [| |reflexivity]; done.
Qed.

(** A frame of the guest that carries such a segment, as the device hands it over. *)
Record Segment := { sg_host : SendHost; sg_frame : list Z; sg_ip : Ipv4; sg_tcp : TcpHdr }.

Record data_frame (k : FlowKey) (s : Segment) : Prop := {
  df_bytes : Forall (fits 8) (sg_frame s);
  df_type : of_be (take 2 (drop 12 (sg_frame s))) = ETHERTYPE_IPV4;
  df_ip : ipv4 (sg_frame s) = Some (sg_ip s);
  df_proto : ip_proto (sg_ip s) = IP_PROTO_TCP;
  df_data : data_segment k (sg_host s) (sg_ip s) (sg_tcp s);
  df_reply : reply_ok (sg_host s);
}.

Definition after (t : TcpHdr) : Z := add_w 32 (t_seq t) (Z.of_nat (length (t_data t))).

(** Each segment starts where the one before it ends. *)
Fixpoint in_order (seq : Z) (ts : list TcpHdr) : Prop :=
  match ts with [] => True | t :: ts => t_seq t = seq /\ in_order (after t) ts end.

(** The frame is a bare acknowledgement on flow [k], from the remote end to the
    guest, of everything before [ack]. *)
Definition acknowledgement (k : FlowKey) (our_seq ack : Z) (frame : list Z) : Prop :=
  exists ip, ipv4 frame = Some ip /\ ip_src_mac ip = GATEWAY_MAC /\ ip_src ip = k_remote_ip k /\ ip_dst ip = k_guest_ip k /\
    ip_proto ip = IP_PROTO_TCP /\
    tcp (ip_payload ip) = Some {| t_src_port := k_remote_port k; t_dst_port := k_guest_port k; t_seq := our_seq;
                                  t_flags := TCP_ACK; t_data := [] |} /\
    of_be (take 4 (drop 8 (ip_payload ip))) = ack.

Lemma tcp_payload_ack src dst sp dp seq ack flags window data :
  fits 32 ack -> of_be (take 4 (drop 8 (tcp_payload src dst sp dp seq ack flags window data))) = ack.
Proof.
  intros Ha. unfold tcp_payload. set (sum := checksum _). unfold tcp_header. rewrite <- !app_assoc.
  rewrite !(app_assoc (be_bytes 2 sp)), !(app_assoc (be_bytes 2 sp ++ be_bytes 2 dp)).
  rewrite drop_app_length' by (rewrite !length_app, !length_be_bytes; done). rewrite take_app_length' by (by rewrite length_be_bytes).
  by apply of_be_be_bytes.
Qed.

(** A send of a data frame is the flow's handler. *)
Lemma send_data_frame k s n :
  data_frame k s -> send (sg_host s) (sg_frame s) n = log_conntrack (tcp_handle (sg_host s) (sg_ip s) n).
Proof.
  intros [_ Ht Hip Hp _ _]. unfold send.
  rewrite bool_decide_eq_false_2; [|intros Hl; unfold ipv4, parse_ipv4 in Hip; rewrite bool_decide_eq_true_2 in Hip by (unfold ETH_HLEN in *; lia); done].
  cbv zeta. rewrite Ht, Hip. cbn [negb]. change (ETHERTYPE_IPV4 =? ETHERTYPE_ARP) with false. change (negb (ETHERTYPE_IPV4 =? ETHERTYPE_IPV4)) with false. cbv iota.
  rewrite Hp. done.
Qed.

Lemma log_keeps n : n_flows (log_conntrack n) = n_flows n /\ n_host (log_conntrack n) = n_host n /\ n_rx (log_conntrack n) = n_rx n.
Proof. unfold log_conntrack. by case_bool_decide. Qed.

(** What an acknowledgement queues when there is room. *)
Lemma tcp_out_queued k f n :
  net_ok (tcp_out f TCP_ACK WINDOW [] n) -> flow_ok k (FTcp f) -> fits 16 (n_ip_id n) -> (length (n_rx n) < MAX_QUEUED)%nat ->
  exists frame, n_rx (tcp_out f TCP_ACK WINDOW [] n) = n_rx n ++ [frame] /\ acknowledgement k (tf_our_seq f) (tf_guest_seq f) frame.
Proof.
  intros Hn [-> [Hg1 Hg2 Hr1 Hr2] Hm [Hs1 Hs2]] Hid Hl. cbn in Hg1, Hg2, Hr1, Hr2, Hm.
  assert (Hgw : n_gateway_mac n = GATEWAY_MAC).
  { pose proof (no_gateway _ Hn) as E. revert E. unfold tcp_out, queue_ipv4, queue. cbn -[tcp_payload ipv4_frame]. by case_bool_decide. }
  unfold tcp_out, queue_ipv4. cbn [next_ip_id]. unfold queue. cbn [n_rx set_counters]. rewrite bool_decide_eq_false_2 by lia.
  eexists. split; [reflexivity|]. cbn [n_gateway_mac set_counters]. rewrite Hgw. eexists. split.
  { unfold ipv4. rewrite parse_ipv4_frame; [reflexivity| |rewrite length_tcp_payload; unfold TCP_HLEN; cbn; lia].
    split; try done. apply bytes_of_constants. }
  cbn [ip_src_mac ip_src ip_dst ip_proto ip_payload flow_key key_tcp k_remote_ip k_guest_ip k_remote_port k_guest_port].
  do 4 (split; [done|]). split; [|by apply tcp_payload_ack]. unfold tcp. by rewrite tcp_roundtrip.
Qed.

(** One data frame at the expected number: its data are written, the flow moves
    past them and one acknowledgement of them is queued. *)
Lemma data_frame_spliced k s n f :
  net_ok n -> n_flows n !! k = Some (FTcp f) -> tf_state f = Established -> data_frame k s ->
  t_seq (sg_tcp s) = tf_guest_seq f -> (length (n_rx n) < MAX_QUEUED)%nat ->
  let n' := send (sg_host s) (sg_frame s) n in
  net_ok n' /\ n_host n' = n_host n ++ writes k (t_data (sg_tcp s)) /\
  (exists f', n_flows n' !! k = Some (FTcp f') /\ tf_state f' = Established /\ tf_guest_seq f' = after (sg_tcp s) /\ tf_our_seq f' = tf_our_seq f) /\
  exists frame, n_rx n' = n_rx n ++ [frame] /\ acknowledgement k (tf_our_seq f) (after (sg_tcp s)) frame.
Proof.
  intros Hn E Hst Hs Hsq Hl n'. pose proof (nat_send_ok (sg_host s) (sg_frame s) n Hn (df_bytes _ _ Hs) (df_reply _ _ Hs)) as Hn'. fold n' in Hn'.
  pose proof (no_table _ Hn k _ E) as Hf. destruct (fo_seqs _ _ Hf) as [Hg _].
  destruct (data_segment_written k (sg_host s) (sg_ip s) (sg_tcp s) n f (df_data _ _ Hs) E Hst Hg) as (E' & Hh & m & Hm & Hid & Eo).
  set (f' := if bool_decide _ then _ else _) in *. subst n'. rewrite (send_data_frame k s n Hs) in *.
  destruct (log_keeps (tcp_handle (sg_host s) (sg_ip s) n)) as (L1 & L2 & L3). rewrite L1, L2, L3, E', Hh.
  assert (Hf' : tf_state f' = Established /\ tf_guest_seq f' = after (sg_tcp s) /\ tf_our_seq f' = tf_our_seq f).
  { unfold f', after. case_bool_decide as Hd; cbn; (split; [done|]); (split; [|done]); rewrite Hsq; unfold add_w.
    - rewrite Hd. cbn. by rewrite Z.add_0_r, wrap_small.
    - by rewrite wrap_sum_r. }
  destruct Hf' as (F1 & F2 & F3). split; [done|]. split; [done|]. split; [by exists f'|].
  pose proof (no_table _ Hn' k (FTcp f')) as Hfo. rewrite L1, E' in Hfo. specialize (Hfo eq_refl).
  rewrite <- F2, <- F3, <- Hm, Eo. apply tcp_out_queued; [|done|rewrite Hid; by apply no_id|by rewrite Hm].
  rewrite <- Eo. clear -Hn'. revert Hn'. unfold log_conntrack. case_bool_decide; [done|]. intros []. by split.
Qed.

(** C20: frames of the guest with data segments of one established flow, each
    starting where the one before it ends, the first at the number the flow
    expects, whose writes the host takes whole, and with room in the receive
    queue for the answers: the host's socket is given exactly their data, in
    order, and nothing else is done on the host; the flow stays established and
    expects the byte after the last; and the guest gets exactly one bare
    acknowledgement per segment, in order, whose number is the byte after that
    segment (modulo 2^32), so that what is acknowledged is what was delivered.
    (A segment that does not start at the expected number is not covered:
    [retransmission_written_twice].) *)
Theorem tcp_stream_spliced k f segments n :
  net_ok n -> n_flows n !! k = Some (FTcp f) -> tf_state f = Established ->
  Forall (data_frame k) segments -> in_order (tf_guest_seq f) (sg_tcp <$> segments) ->
  (length (n_rx n) + length segments <= MAX_QUEUED)%nat ->
  let n' := foldl (fun n s => send (sg_host s) (sg_frame s) n) n segments in
  let data := mjoin ((fun s => t_data (sg_tcp s)) <$> segments) in
  n_host n' = n_host n ++ mjoin ((fun s => writes k (t_data (sg_tcp s))) <$> segments) /\
  established k n' (add_w 32 (tf_guest_seq f) (Z.of_nat (length data))) /\
  exists acks, n_rx n' = n_rx n ++ acks /\
    Forall2 (fun s => acknowledgement k (tf_our_seq f) (after (sg_tcp s))) segments acks.
Proof.
  revert n f. induction segments as [|s segments IH]; intros n f Hn E Hst Hs Ho Hl; cbn [foldl fmap list_fmap mjoin list_join].
  { destruct (fo_seqs _ _ (no_table _ Hn k _ E)) as [Hg _]. split; [by rewrite app_nil_r|]. split; [|exists []; by rewrite app_nil_r].
    exists f. split; [done|]. split; [done|]. cbn. unfold add_w. by rewrite Z.add_0_r, wrap_small. }
  apply list.Forall_cons in Hs as [Hs Hss]. destruct Ho as [Hsq Ho]. cbn [length] in Hl.
  destruct (data_frame_spliced k s n f Hn E Hst Hs Hsq ltac:(lia)) as (Hn1 & Hh1 & (f1 & E1 & Hst1 & Hg1 & Ho1) & a & Hr1 & Ha).
  set (n1 := send (sg_host s) (sg_frame s) n) in *. rewrite <- Hg1 in Ho.
  destruct (IH n1 f1 Hn1 E1 Hst1 Hss Ho) as (IHh & IHe & acks & IHr & IHa); [rewrite Hr1, length_app; cbn; lia|].
  split; [by rewrite IHh, Hh1, <- app_assoc|]. split.
  - rewrite Hg1 in IHe. unfold after, add_w in IHe. rewrite wrap_sum_l, Hsq in IHe. rewrite length_app. unfold add_w. by rewrite Nat2Z.inj_add, Z.add_assoc.
  - exists (a :: acks). split; [by rewrite IHr, Hr1, <- app_assoc|]. constructor; [done|]. by rewrite <- Ho1.
Qed.

Definition sample_flow : TcpFlow :=
  {| tf_guest_mac := DEFAULT_GUEST_MAC; tf_guest_ip := GUEST_IP; tf_guest_port := 40001; tf_remote_ip := [1; 1; 1; 1]; tf_remote_port := 80;
     tf_inbound := false; tf_state := Established; tf_guest_seq := 1001; tf_our_seq := 7; tf_last := 0 |}.
Definition tcp_key : FlowKey := key_tcp GUEST_IP 40001 [1; 1; 1; 1] 80.
Definition flow_net : UserNet := put_flow tcp_key (FTcp sample_flow) (net_new [] true).

(** The segment at sequence number [seq] with [data]. *)
Definition segment (seq : Z) (data : list Z) : Ipv4 :=
  {| ip_src_mac := DEFAULT_GUEST_MAC; ip_src := GUEST_IP; ip_dst := [1; 1; 1; 1]; ip_proto := IP_PROTO_TCP;
     ip_payload := tcp_payload GUEST_IP [1; 1; 1; 1] 40001 80 seq 7 (Z.lor TCP_PSH TCP_ACK) 65535 data |}.
Definition segment_hdr (seq : Z) (data : list Z) : TcpHdr :=
  {| t_src_port := 40001; t_dst_port := 80; t_seq := seq; t_flags := Z.lor TCP_PSH TCP_ACK; t_data := data |}.

Lemma segment_is_data seq data : fits 32 seq -> data_segment tcp_key sample_send (segment seq data) (segment_hdr seq data).
Proof. intros Hs. split; [|done|by right|done]. unfold tcp. cbn [ip_payload segment]. rewrite tcp_roundtrip; [done|fits_closed|fits_closed|done]. Qed.

Definition sample_segment (seq : Z) (data : list Z) : Segment :=
  {| sg_host := sample_send;
     sg_frame := ipv4_frame GATEWAY_MAC DEFAULT_GUEST_MAC GUEST_IP [1; 1; 1; 1] IP_PROTO_TCP 1 (ip_payload (segment seq data));
     sg_ip := segment seq data; sg_tcp := segment_hdr seq data |}.

Lemma sample_frame_ok k seq data :
  data_segment k sample_send (segment seq data) (segment_hdr seq data) ->
  all_bytes (sg_frame (sample_segment seq data)) = true ->
  of_be (take 2 (drop 12 (sg_frame (sample_segment seq data)))) = ETHERTYPE_IPV4 ->
  ipv4 (sg_frame (sample_segment seq data)) = Some (segment seq data) -> data_frame k (sample_segment seq data).
Proof. intros Hd Hb Ht Hi. split; [by apply all_bytes_fits|exact Ht|exact Hi|reflexivity|exact Hd|exact I]. Qed.

Lemma flow_net_ok : net_ok flow_net.
Proof.
  apply put_ok; [by apply net_new_ok| |right; vm_compute; lia].
  split; [reflexivity| | |split; fits_closed]; [split|]; try fits_closed; (split; [reflexivity|by apply all_bytes_fits]).
Qed.

(** Two segments, "GE" at 1001 and "T" at 1003. *)
Lemma tcp_stream_spliced_witness :
  let segments := [sample_segment 1001 [71; 69]; sample_segment 1003 [84]] in
  let n' := foldl (fun n s => send (sg_host s) (sg_frame s) n) flow_net segments in
  n_host n' = [TcpWrite tcp_key [71; 69]; TcpWrite tcp_key [84]] /\
  exists acks, n_rx n' = acks /\ Forall2 (fun s => acknowledgement tcp_key 7 (after (sg_tcp s))) segments acks.
Proof.
  cbv zeta. destruct (tcp_stream_spliced tcp_key sample_flow [sample_segment 1001 [71; 69]; sample_segment 1003 [84]] flow_net) as (H & _ & acks & Hr & Ha).
  - exact flow_net_ok.
  - vm_compute. reflexivity.
  - reflexivity.
  - constructor; [|constructor; [|constructor]]; (apply sample_frame_ok; [apply segment_is_data; fits_closed|vm_compute; reflexivity..]).
  - repeat split.
  - vm_compute. lia.
  - split; [rewrite H; reflexivity|]. exists acks. split; [exact Hr|exact Ha].
Defined.

(** The sequence number of a segment is never compared with the one expected: a
    segment the guest retransmits is written to the host a second time, and the
    acknowledgement number moves past bytes the guest never sent. *)
Lemma retransmission_written_twice k h ip t n seq :
  data_segment k h ip t -> established k n seq -> fits 32 seq -> t_data t <> [] ->
  let n' := tcp_handle h ip (tcp_handle h ip n) in
  n_host n' = n_host n ++ [TcpWrite k (t_data t); TcpWrite k (t_data t)] /\
  established k n' (add_w 32 seq (2 * Z.of_nat (length (t_data t)))).
Proof.
  intros Hs (f & E & Hst & Hsq) Hfit Hd. rewrite <- Hsq in Hfit.
  destruct (data_segment_written k h ip t n f Hs E Hst Hfit) as (E1 & Hh1 & _). cbv zeta in E1. rewrite bool_decide_eq_false_2 in E1 by done.
  destruct (data_segment_written k h ip t _ _ Hs E1) as (E2 & Hh2 & _); [done|by apply wrap_fits|]. cbv zeta in E2. rewrite bool_decide_eq_false_2 in E2 by done.
  cbv zeta. rewrite Hh2, Hh1. unfold writes. rewrite bool_decide_eq_false_2 by done. split; [by rewrite <- app_assoc|].
  eexists. split; [exact E2|]. split; [done|]. cbn [add_guest_seq touch_tcp tf_with tf_guest_seq]. rewrite Hsq. unfold add_w. rewrite wrap_sum_l, wrap_sum_r.
  rewrite (Z.add_comm seq (wrap 32 _)), <- Z.add_assoc, wrap_sum_l. f_equal. lia.
Qed.

(** A write that takes part of the data and then blocks: the bytes taken are on
    the host's stream, the acknowledgement number does not move, so the guest
    sends them again. *)
Lemma partial_write_not_acknowledged h t k f n written :
  h_write h = WBlock written -> t_data t <> [] ->
  let '(n', _) := write_data h t k f n in
  n_host n' = n_host n ++ [TcpWrite k (take written (t_data t))] /\ n_flows n' !! k = Some (FTcp f).
Proof.
  intros Hw Hd. unfold write_data. cbv zeta. rewrite bool_decide_eq_false_2 by done. rewrite Hw. split; [done|]. apply lookup_insert_eq.
Qed.

(** With the receive queue full, data read from the host is lost: no frame is
    queued, yet the flow's sequence number has moved past it. *)
Lemma full_queue_loses_data k f n data :
  n_flows n !! k = Some (FTcp f) -> tf_state f = Established -> length (n_rx n) = MAX_QUEUED -> (0 < length data <= 1400)%nat ->
  let n' := splice_in (RGot data) k n in
  n_rx n' = n_rx n /\ n_flows n' !! k = Some (FTcp (add_our_seq (Z.of_nat (length data)) f)).
Proof.
  intros E Hst Hq Hl. cbv zeta. unfold splice_in. rewrite E, (bool_decide_eq_true_2 (tf_state f = Established)) by done. cbn [orb negb].
  rewrite take_ge by lia. cbv zeta. destruct (Z.eqb_spec (Z.of_nat (length data)) 0); [lia|]. destruct (Z.ltb_spec 0 (Z.of_nat (length data))); [|lia].
  replace (wrap 32 _) with (Z.of_nat (length data)) by (symmetry; rewrite wrap_small; unfold fits; lia).
  match goal with |- n_rx (tcp_out ?g ?fl ?w ?d ?m) = _ /\ _ => destruct (tcp_out_keeps g fl w d m) as [-> _] end.
  split; [|apply lookup_insert_eq]. unfold tcp_out, queue_ipv4. cbn [next_ip_id]. unfold queue. rewrite bool_decide_eq_true_2; [done|]. cbn. rewrite Hq. done.
Qed.
