(* ===== verification/AcpiSdt.v ===== *)
(** * ACPI table headers and checksums

    Model of [ternvale-acpi/src/error.rs], [sdt.rs], [gas.rs], [rsdp.rs] and
    [xsdt.rs].  Bytes are [Z]s.  Error texts are left out: an error keeps its
    constructor, the structure it names and its numbers.  The central lemma,
    [table_spec], says what every built table has: its length in its header, its
    body unchanged, and a byte sum of zero. *)

From stdpp Require Import list strings.
From S2P Require Import Prelude FwCfg.

(** ** Errors ([error.rs]) *)

Inductive AcpiError :=
  | RegionTooSmall (base need have : Z)
  | Misaligned (base : Z)
  | AddressOverflow (base : Z)
  | TableTooLarge (signature : list Z) (len : Z)
  | Truncated (what : string) (len need : Z)
  | PkgLengthTooLarge (len : Z)
  | BadNameSeg (name : list Z)
  | BadNamePath (path : list Z)
  | BadConfig
  | Drift
  | Read (what : list Z) (gpa : Z)
  | BadTable (what : list Z) (gpa : Z)
  | NoRsdp (base len : Z)
  | Write (signature : list Z) (gpa : Z).

(** ** The header ([sdt.rs]) *)

Definition SDT_HEADER_LEN : nat := 36.
Definition SDT_CHECKSUM_OFFSET : nat := 9.
Definition OEM_ID : list Z := ascii_bytes "TERNVL".
Definition OEM_REVISION : Z := 1.
Definition CREATOR_ID : list Z := ascii_bytes "TNVL".
Definition CREATOR_REVISION : Z := 1.

Record SdtHeader := {
  sh_signature : list Z;
  sh_length : Z;
  sh_revision : Z;
  sh_checksum : Z;
  sh_oem_id : list Z;
  sh_oem_table_id : list Z;
  sh_oem_revision : Z;
  sh_creator_id : list Z;
  sh_creator_revision : Z;
}.

Definition header_new (signature : list Z) (revision : Z) : SdtHeader :=
  {| sh_signature := signature; sh_length := 0; sh_revision := revision; sh_checksum := 0; sh_oem_id := OEM_ID;
     sh_oem_table_id := ascii_bytes "TERN" ++ signature; sh_oem_revision := OEM_REVISION; sh_creator_id := CREATOR_ID;
     sh_creator_revision := CREATOR_REVISION |}.

(** [SdtHeader { length, checksum, ..header }] *)
Definition with_length (length checksum : Z) (h : SdtHeader) : SdtHeader :=
  {| sh_signature := sh_signature h; sh_length := length; sh_revision := sh_revision h; sh_checksum := checksum;
     sh_oem_id := sh_oem_id h; sh_oem_table_id := sh_oem_table_id h; sh_oem_revision := sh_oem_revision h;
     sh_creator_id := sh_creator_id h; sh_creator_revision := sh_creator_revision h |}.

Definition header_encode (h : SdtHeader) : list Z :=
  sh_signature h ++ le_bytes 4 (sh_length h) ++ [sh_revision h; sh_checksum h] ++ sh_oem_id h ++ sh_oem_table_id h
  ++ le_bytes 4 (sh_oem_revision h) ++ sh_creator_id h ++ le_bytes 4 (sh_creator_revision h).

(** The bytes at [at_], [n] of them, of a slice known to be long enough. *)
Definition sub {A} (l : list A) (at_ n : nat) : list A := take n (drop at_ l).

Definition header_parse (bytes : list Z) : result AcpiError SdtHeader :=
  if bool_decide (length bytes < SDT_HEADER_LEN)%nat
  then Err (Truncated "sdt header" (Z.of_nat (length bytes)) (Z.of_nat SDT_HEADER_LEN))
  else Ok {| sh_signature := sub bytes 0 4; sh_length := of_le (sub bytes 4 4); sh_revision := of_le (sub bytes 8 1);
             sh_checksum := of_le (sub bytes SDT_CHECKSUM_OFFSET 1); sh_oem_id := sub bytes 10 6;
             sh_oem_table_id := sub bytes 16 8; sh_oem_revision := of_le (sub bytes 24 4); sh_creator_id := sub bytes 28 4;
             sh_creator_revision := of_le (sub bytes 32 4) |}.

Definition byte_sum (bytes : list Z) : Z := foldl (fun sum byte => add_w 8 sum byte) 0 bytes.
Definition checksum (bytes : list Z) : Z := wrapping_sub 8 0 (byte_sum bytes).

Definition table (header : SdtHeader) (body : list Z) : result AcpiError (list Z) :=
  let len := Z.of_nat (SDT_HEADER_LEN + length body) in
  if 2 ^ 32 <=? len then Err (TableTooLarge (sh_signature header) len)
  else
    let out := header_encode (with_length len 0 header) ++ body in
    Ok (<[SDT_CHECKSUM_OFFSET := checksum out]> out).

(** ** Generic address structure ([gas.rs]) *)

Definition GAS_LEN : nat := 12.
Definition SPACE_SYSTEM_MEMORY : Z := 0.
Definition ACCESS_DWORD : Z := 3.

Record Gas := { ga_space : Z; ga_bit_width : Z; ga_bit_offset : Z; ga_access_size : Z; ga_address : Z }.

Definition gas_mmio32 (address : Z) : Gas :=
  {| ga_space := SPACE_SYSTEM_MEMORY; ga_bit_width := 32; ga_bit_offset := 0; ga_access_size := ACCESS_DWORD; ga_address := address |}.
Definition gas_encode (g : Gas) : list Z :=
  [ga_space g; ga_bit_width g; ga_bit_offset g; ga_access_size g] ++ le_bytes 8 (ga_address g).
Definition gas_parse (bytes : list Z) : result AcpiError Gas :=
  if bool_decide (length bytes < GAS_LEN)%nat
  then Err (Truncated "generic address structure" (Z.of_nat (length bytes)) (Z.of_nat GAS_LEN))
  else Ok {| ga_space := of_le (sub bytes 0 1); ga_bit_width := of_le (sub bytes 1 1); ga_bit_offset := of_le (sub bytes 2 1);
             ga_access_size := of_le (sub bytes 3 1); ga_address := of_le (sub bytes 4 8) |}.

(** ** Root pointer ([rsdp.rs]) *)

Definition RSDP_LEN : nat := 36.
Definition RSDP_SIGNATURE : list Z := ascii_bytes "RSD PTR ".
Definition RSDP_REVISION : Z := 2.
Definition RSDP_V1_LEN : nat := 20.
Definition RSDP_CHECKSUM_OFFSET : nat := 8.
Definition RSDP_EXT_CHECKSUM_OFFSET : nat := 32.
Definition RSDP_XSDT_OFFSET : nat := 24.

(** The bytes before the checksums are filled. *)
Definition rsdp_raw (xsdt_gpa : Z) : list Z :=
  RSDP_SIGNATURE ++ [0] ++ OEM_ID ++ [RSDP_REVISION] ++ replicate 4 0 ++ le_bytes 4 (Z.of_nat RSDP_LEN)
  ++ le_bytes 8 xsdt_gpa ++ replicate 4 0.
Definition rsdp (xsdt_gpa : Z) : list Z :=
  let out := rsdp_raw xsdt_gpa in
  let out := <[RSDP_CHECKSUM_OFFSET := checksum (take RSDP_V1_LEN out)]> out in
  <[RSDP_EXT_CHECKSUM_OFFSET := checksum out]> out.

(** The argument has 36 bytes. *)
Definition rsdp_checksums_ok (bytes : list Z) : bool :=
  (byte_sum (take RSDP_V1_LEN bytes) =? 0) && (byte_sum bytes =? 0).

(** ** Extended table ([xsdt.rs]) *)

Definition XSDT_SIGNATURE : list Z := ascii_bytes "XSDT".
Definition XSDT_REVISION : Z := 1.
Definition xsdt_len (entries : nat) : nat := SDT_HEADER_LEN + entries * 8.
Definition xsdt (entries : list Z) : result AcpiError (list Z) :=
  table (header_new XSDT_SIGNATURE XSDT_REVISION) (mjoin (le_bytes 8 <$> entries)).

(** ** Sums *)

Fixpoint lsum (l : list Z) : Z := match l with [] => 0 | x :: l => x + lsum l end.

Lemma lsum_app l1 l2 : lsum (l1 ++ l2) = lsum l1 + lsum l2.
Proof. induction l1 as [|x l1 IH]; cbn [app lsum]; lia. Qed.

Lemma lsum_insert l i x y : l !! i = Some x -> lsum (<[i := y]> l) = lsum l - x + y.
Proof.
  intros H. rewrite insert_take_drop by (by eapply lookup_lt_Some). rewrite <- (take_drop_middle l i x H) at 3.
  rewrite !lsum_app. cbn [lsum]. lia.
Qed.

Lemma byte_sum_lsum l : byte_sum l = lsum l mod 256.
Proof.
  unfold byte_sum. assert (forall a, foldl (fun s b => add_w 8 s b) (a mod 256) l = (a + lsum l) mod 256) as H.
  { induction l as [|x l IH]; intros a; cbn [foldl lsum]; [by rewrite Z.add_0_r|].
    unfold add_w, wrap. change (2 ^ 8) with 256. rewrite Zplus_mod_idemp_l, IH. f_equal. lia. }
  apply (H 0).
Qed.

Lemma checksum_fits l : fits 8 (checksum l).
Proof. by apply wrap_fits. Qed.

(** Putting the checksum where a zero byte was makes the sum zero. *)
Lemma checksum_insert l i : l !! i = Some 0 -> byte_sum (<[i := checksum l]> l) = 0.
Proof.
  intros H. rewrite byte_sum_lsum, (lsum_insert _ _ 0) by done. unfold checksum, wrapping_sub, wrap. rewrite byte_sum_lsum.
  change (2 ^ 8) with 256. rewrite Z.sub_0_r, Zplus_mod_idemp_r. replace (lsum l + (0 - lsum l mod 256)) with (lsum l - lsum l mod 256) by lia.
  rewrite Zminus_mod_idemp_r. by rewrite Z.sub_diag.
Qed.

(** ** Reading what was written *)

Lemma sub_app_l {A} (pre mid post : list A) i n : length pre = i -> length mid = n -> sub (pre ++ mid ++ post) i n = mid.
Proof. intros <- <-. unfold sub. by rewrite drop_app_length, take_app_length. Qed.

Lemma length_sub {A} (l : list A) i n : (i + n <= length l)%nat -> length (sub l i n) = n.
Proof. intros H. unfold sub. rewrite length_take, length_drop. lia. Qed.

Lemma sub_fits l i n : Forall (fits 8) l -> Forall (fits 8) (sub l i n).
Proof. intros H. by apply Forall_take, Forall_drop. Qed.

Lemma sub_insert {A} (l : list A) i n k x : (k < i \/ i + n <= k)%nat -> sub (<[k := x]> l) i n = sub l i n.
Proof.
  intros H. apply list_eq. intros j. unfold sub. destruct (decide (j < n)%nat); [|by rewrite !lookup_take_ge by lia].
  rewrite !lookup_take_lt, !lookup_drop by done. apply list_lookup_insert_ne. lia.
Qed.


Lemma sub_lookup {A} (l : list A) i n j : sub l i n !! j = if bool_decide (j < n)%nat then l !! (i + j)%nat else None.
Proof. unfold sub. case_bool_decide; [by rewrite lookup_take_lt, lookup_drop|by rewrite lookup_take_ge by lia]. Qed.

Lemma sub_of_sub {A} (l : list A) i n j m : (j + m <= n)%nat -> sub (sub l i n) j m = sub l (i + j) m.
Proof.
  intros H. apply list_eq. intros k. rewrite !sub_lookup. case_bool_decide; [|done]. rewrite bool_decide_eq_true_2 by lia.
  f_equal. lia.
Qed.

Lemma of_le_one x : fits 8 x -> of_le [x] = x.
Proof. intros H. cbn. lia. Qed.

(** ** Built tables *)

Lemma Ok_inj {E A} (a b : A) : @Ok E A a = Ok b -> a = b.
Proof. by injection 1. Qed.

Record header_ok (h : SdtHeader) : Prop := {
  ho_signature : length (sh_signature h) = 4%nat /\ Forall (fits 8) (sh_signature h);
  ho_length : fits 32 (sh_length h);
  ho_revision : fits 8 (sh_revision h);
  ho_checksum : fits 8 (sh_checksum h);
  ho_oem_id : length (sh_oem_id h) = 6%nat /\ Forall (fits 8) (sh_oem_id h);
  ho_oem_table_id : length (sh_oem_table_id h) = 8%nat /\ Forall (fits 8) (sh_oem_table_id h);
  ho_oem_revision : fits 32 (sh_oem_revision h);
  ho_creator_id : length (sh_creator_id h) = 4%nat /\ Forall (fits 8) (sh_creator_id h);
  ho_creator_revision : fits 32 (sh_creator_revision h);
}.

Lemma header_new_ok sig rev :
  length sig = 4%nat -> Forall (fits 8) sig -> fits 8 rev -> header_ok (header_new sig rev).
Proof.
  intros Hl Hf Hr. split; cbn; try done; try (split; [done|by apply all_bytes_fits]); try fits_closed.
  split; [by rewrite Hl|]. repeat (constructor; [fits_closed|]). done.
Qed.

Lemma with_length_ok len sum h : fits 32 len -> fits 8 sum -> header_ok h -> header_ok (with_length len sum h).
Proof. intros ? ? []. by split. Qed.

Lemma length_header_encode h : header_ok h -> length (header_encode h) = SDT_HEADER_LEN.
Proof.
  intros [[Hs _] _ _ _ [Ho _] [Ht _] _ [Hc _] _]. unfold header_encode. rewrite !length_app, !length_le_bytes, Hs, Ho, Ht, Hc. done.
Qed.

Lemma header_encode_fits h : header_ok h -> Forall (fits 8) (header_encode h).
Proof.
  intros [[_ Hs] _ ? ? [_ Ho] [_ Ht] _ [_ Hc] _]. unfold header_encode. rewrite !Forall_app. split_and!; try done; try apply le_bytes_fits.
  constructor; [done|by constructor].
Qed.

(** A header is read back from the bytes it was written to. *)
Lemma header_roundtrip h rest : header_ok h -> header_parse (header_encode h ++ rest) = Ok h.
Proof.
  intros Hh. pose proof (length_header_encode h Hh) as Hl. unfold header_parse. rewrite bool_decide_eq_false_2 by (rewrite length_app; lia).
  destruct Hh as [[Hs _] HL Hr Hk [Ho _] [Ht _] HO [Hc _] HC]. unfold header_encode. rewrite <- !app_assoc.
  set (sg := sh_signature h) in *. set (ln := le_bytes 4 (sh_length h)). set (oi := sh_oem_id h) in *. set (ot := sh_oem_table_id h) in *.
  set (orv := le_bytes 4 (sh_oem_revision h)). set (ci := sh_creator_id h) in *. set (cr := le_bytes 4 (sh_creator_revision h)).
  assert (Hln : length ln = 4%nat) by apply length_le_bytes. assert (Horv : length orv = 4%nat) by apply length_le_bytes.
  assert (Hcr : length cr = 4%nat) by apply length_le_bytes.
  cbn [app]. set (all := sg ++ _).
  assert (E0 : sub all 0 4 = sg) by (apply (sub_app_l []); done).
  assert (E4 : sub all 4 4 = ln) by (by apply sub_app_l).
  assert (E8 : sub all 8 1 = [sh_revision h]).
  { unfold all. rewrite app_assoc. by apply (sub_app_l _ [_]); [rewrite length_app, Hs, Hln|]. }
  assert (E9 : sub all 9 1 = [sh_checksum h]).
  { unfold all. rewrite app_assoc, (cons_middle _ (sg ++ ln)), app_assoc. by apply (sub_app_l _ [_]); [rewrite !length_app, Hs, Hln|]. }
  assert (E10 : sub all 10 6 = oi).
  { unfold all. rewrite app_assoc, (cons_middle _ (sg ++ ln)), (app_assoc (sg ++ ln)), (cons_middle _ ((sg ++ ln) ++ _)), app_assoc. apply sub_app_l; [by rewrite !length_app, Hs, Hln|done]. }
  assert (Edrop : forall i n, sub all (10 + i) n = sub (oi ++ ot ++ orv ++ ci ++ cr ++ rest) i n).
  { intros i n. unfold sub, all. rewrite <- drop_drop. do 2 f_equal.
    rewrite app_assoc, (cons_middle _ (sg ++ ln)), (app_assoc (sg ++ ln)), (cons_middle _ ((sg ++ ln) ++ _)), app_assoc. apply drop_app_length'. by rewrite !length_app, Hs, Hln. }
  change SDT_CHECKSUM_OFFSET with 9%nat. rewrite E0, E4, E8, E9, E10, (Edrop 6%nat), (Edrop 14%nat), (Edrop 18%nat), (Edrop 22%nat).
  rewrite (sub_app_l oi ot), (app_assoc oi), (sub_app_l (oi ++ ot) orv), (app_assoc (oi ++ ot)), (sub_app_l _ ci), (app_assoc _ ci), (sub_app_l _ cr); try (rewrite ?length_app; lia).
  unfold ln, orv, cr. rewrite !of_le_le_bytes_fits, !of_le_one by done. by destruct h.
Qed.

Lemma table_spec header body t :
  header_ok header -> Forall (fits 8) body -> table header body = Ok t ->
  length t = (SDT_HEADER_LEN + length body)%nat /\ Z.of_nat (length t) < 2 ^ 32 /\ Forall (fits 8) t /\ byte_sum t = 0 /\
  drop SDT_HEADER_LEN t = body /\
  exists sum, header_parse t = Ok (with_length (Z.of_nat (length t)) sum header).
Proof.
  intros Hh Hb. unfold table. destruct (Z.leb_spec (2 ^ 32) (Z.of_nat (SDT_HEADER_LEN + length body))) as [|Hlt]; [done|]. cbv zeta. intros <-%Ok_inj.
  set (len := Z.of_nat (SDT_HEADER_LEN + length body)) in *. assert (Hlen : fits 32 len) by (unfold fits, len in *; lia).
  pose proof (with_length_ok len 0 header Hlen ltac:(fits_closed) Hh) as Hh0. set (h0 := with_length len 0 header) in *.
  pose proof (length_header_encode h0 Hh0) as Hl0. set (out := header_encode h0 ++ body).
  assert (Hlo : length out = (SDT_HEADER_LEN + length body)%nat) by (unfold out; by rewrite length_app, Hl0).
  destruct (ho_signature _ Hh) as [Hs _]. set (c := checksum out). assert (Hc : fits 8 c) by apply checksum_fits.
  assert (Henc : <[SDT_CHECKSUM_OFFSET := c]> out = header_encode (with_length len c header) ++ body).
  { unfold out, SDT_CHECKSUM_OFFSET. rewrite insert_app_l by (rewrite Hl0; unfold SDT_HEADER_LEN; lia). f_equal. unfold header_encode.
    unfold h0. cbn [with_length sh_signature sh_length sh_revision sh_checksum sh_oem_id sh_oem_table_id sh_oem_revision sh_creator_id sh_creator_revision].
    rewrite app_assoc, insert_app_r_alt by (rewrite length_app, length_le_bytes; lia).
    rewrite length_app, length_le_bytes, Hs, <- app_assoc. done. }
  pose proof (with_length_ok len c header Hlen Hc Hh) as Hhc.
  split; [by rewrite length_insert|]. split; [rewrite length_insert, Hlo; unfold len in Hlen; apply Hlen|].
  split; [rewrite Henc; apply Forall_app; split; [by apply header_encode_fits|done]|]. split.
  { apply checksum_insert. unfold out, SDT_CHECKSUM_OFFSET. rewrite lookup_app_l by (rewrite Hl0; unfold SDT_HEADER_LEN; lia).
    unfold header_encode, h0. cbn [with_length sh_signature sh_length sh_revision sh_checksum].
    rewrite app_assoc, lookup_app_r by (rewrite length_app, length_le_bytes; lia).
    by rewrite length_app, length_le_bytes, Hs. }
  split; [rewrite Henc; apply drop_app_length'; symmetry; by apply length_header_encode|].
  exists c. rewrite length_insert, Hlo. fold len. rewrite Henc. by apply header_roundtrip.
Qed.

Lemma gas_roundtrip g rest :
  fits 8 (ga_space g) -> fits 8 (ga_bit_width g) -> fits 8 (ga_bit_offset g) -> fits 8 (ga_access_size g) -> fits 64 (ga_address g) ->
  gas_parse (gas_encode g ++ rest) = Ok g.
Proof.
  intros. unfold gas_parse, gas_encode. rewrite bool_decide_eq_false_2 by (rewrite !length_app, length_le_bytes; cbn; unfold GAS_LEN; lia).
  rewrite <- app_assoc. cbn [app]. set (tail := le_bytes 8 (ga_address g) ++ rest).
  replace (sub _ 4 8) with (le_bytes 8 (ga_address g)) by (symmetry; apply (sub_app_l [_; _; _; _]); [done|apply length_le_bytes]).
  change (sub _ 0 1) with [ga_space g]. change (sub _ 1 1) with [ga_bit_width g]. change (sub _ 2 1) with [ga_bit_offset g]. change (sub _ 3 1) with [ga_access_size g]. rewrite !of_le_one, of_le_le_bytes_fits by done. by destruct g.
Qed.

Lemma rsdp_raw_shape x :
  length (rsdp_raw x) = RSDP_LEN /\ Forall (fits 8) (rsdp_raw x) /\ rsdp_raw x !! 8%nat = Some 0 /\ rsdp_raw x !! 32%nat = Some 0.
Proof.
  split; [reflexivity|]. split; [|by split]. unfold rsdp_raw. rewrite !Forall_app. split_and!; try apply le_bytes_fits; by apply all_bytes_fits.
Qed.

(** Both checksums of the root pointer hold, and it names the table it was built for. *)
Lemma rsdp_spec x :
  fits 64 x ->
  length (rsdp x) = RSDP_LEN /\ Forall (fits 8) (rsdp x) /\ rsdp_checksums_ok (rsdp x) = true /\ take 8 (rsdp x) = RSDP_SIGNATURE /\
  sub (rsdp x) 15 1 = [RSDP_REVISION] /\ of_le (sub (rsdp x) RSDP_XSDT_OFFSET 8) = x.
Proof.
  intros Hx. destruct (rsdp_raw_shape x) as (Hl & Hf & H8 & H32). unfold rsdp, RSDP_CHECKSUM_OFFSET, RSDP_EXT_CHECKSUM_OFFSET, RSDP_V1_LEN.
  cbv zeta. set (raw := rsdp_raw x) in *. set (c1 := checksum (take 20 raw)). set (mid := <[8%nat := c1]> raw). set (c2 := checksum mid).
  assert (Hfi : forall i (c : Z) l, fits 8 c -> Forall (fits 8) l -> Forall (fits 8) (<[i := c]> l)) by (intros; by apply Forall_insert).
  split; [by rewrite !length_insert|]. split; [apply Hfi; [apply checksum_fits|]; apply Hfi; [apply checksum_fits|done]|]. split.
  { unfold rsdp_checksums_ok, RSDP_V1_LEN. apply andb_true_iff. split; apply Z.eqb_eq.
    - rewrite take_insert_ge by lia. unfold mid. rewrite take_insert_lt by lia. apply checksum_insert. by rewrite lookup_take_lt by lia.
    - apply checksum_insert. unfold mid. by rewrite list_lookup_insert_ne. }
  split; [rewrite take_insert_ge by lia; unfold mid; rewrite take_insert_ge by lia; reflexivity|].
  split; [rewrite sub_insert by lia; unfold mid; rewrite sub_insert by lia; reflexivity|].
  rewrite sub_insert by (unfold RSDP_XSDT_OFFSET; lia). unfold mid. rewrite sub_insert by (unfold RSDP_XSDT_OFFSET; lia).
  unfold raw, rsdp_raw. rewrite !app_assoc, <- (app_assoc _ _ (replicate 4 0)).
  rewrite sub_app_l; [by apply of_le_le_bytes_fits|reflexivity|apply length_le_bytes].
Qed.
