(* ===== verification/AcpiLeaf.v ===== *)
(** * The ACPI tables without pointers, and their decoders

    Model of [ternvale-acpi/src/config.rs], [mcfg.rs], [gtdt.rs], [spcr.rs],
    [dbg2.rs], [fadt.rs], [madt.rs], the table of [tpm2.rs], and [decode.rs].
    Each decoder applied to what its builder makes gives the configuration back. *)

From stdpp Require Import list strings.
From S2P Require Import Prelude FwCfg AcpiSdt.

(** ** The platform ([config.rs]) *)

Definition MAX_CPUS : nat := 512.
Definition MPIDR_AFFINITY : Z := 0xff00ffffff.
Definition SPI_BASE : Z := 32.
Definition PPI_BASE : Z := 16.
Definition SPI_LAST : Z := 1019.

Inductive PsciConduit := Hvc | Smc.
Record UsbConfig := { us_mmio_base : Z; us_mmio_len : Z; us_spi : Z }.
Record TpmConfig := { tp_crb_base : Z; tp_crb_len : Z; tp_control_area : Z }.
Record PciConfig := { pc_mmio_base : Z; pc_mmio_len : Z; pc_intx_spis : list Z }.
Record GicConfig := { gc_dist_base : Z; gc_redist_base : Z; gc_redist_len : Z }.
Record TimerConfig := { tc_ppis : list Z; tc_always_on : bool }.
Record EcamConfig := { ec_base : Z; ec_start_bus : Z; ec_end_bus : Z }.
Record UartConfig := { uc_base : Z; uc_len : Z; uc_spi : Z }.

Record AcpiConfig := {
  ac_conduit : PsciConduit;
  ac_mpidrs : list Z;
  ac_gic : GicConfig;
  ac_timer : TimerConfig;
  ac_ecam : EcamConfig;
  ac_pci : PciConfig;
  ac_uart : UartConfig;
  ac_tpm : option TpmConfig;
  ac_usb : option UsbConfig;
}.

Definition ppi_gsiv (ppi : Z) : Z := add_w 32 PPI_BASE ppi.
Definition spi_gsiv (spi : Z) : Z := add_w 32 SPI_BASE spi.

(** The check of the affinities: [seen] are the ones before. *)
Fixpoint mpidrs_bad (seen l : list Z) : bool :=
  match l with
  | [] => false
  | m :: l => negb (Z.land m (not_w 64 MPIDR_AFFINITY) =? 0) || bool_decide (m ∈ seen) || mpidrs_bad (seen ++ [m]) l
  end.

(** A window is empty or passes 4 GiB. *)
Definition window_bad (base len : Z) : bool :=
  (len =? 0) || match checked_add 64 base len with None => true | Some e => 2 ^ 32 <? e end.

Definition validate (c : AcpiConfig) : result AcpiError unit :=
  let pci := ac_pci c in
  let ecam := ac_ecam c in
  let buses := ec_end_bus ecam - ec_start_bus ecam + 1 in
  if bool_decide (ac_mpidrs c = []) || bool_decide (MAX_CPUS < length (ac_mpidrs c))%nat then Err BadConfig
  else if mpidrs_bad [] (ac_mpidrs c) then Err BadConfig
  else if existsb (fun ppi => 15 <? ppi) (tc_ppis (ac_timer c)) then Err BadConfig
  else if SPI_LAST <? spi_gsiv (uc_spi (ac_uart c)) then Err BadConfig
  else if ec_end_bus ecam <? ec_start_bus ecam then Err BadConfig
  else if (gc_redist_len (ac_gic c) =? 0) || (uc_len (ac_uart c) =? 0) then Err BadConfig
  else if window_bad (pc_mmio_base pci) (pc_mmio_len pci) then Err BadConfig
  else if match checked_add 64 (pc_mmio_base pci) (pc_mmio_len pci) with
          | Some e => (pc_mmio_base pci <? saturating_add 64 (ec_base ecam) (Z.shiftl buses 20)) && (ec_base ecam <? e)
          | None => false
          end then Err BadConfig
  else if existsb (fun spi => SPI_LAST <? spi_gsiv spi) (pc_intx_spis pci) then Err BadConfig
  else if match ac_tpm c with
          | Some t =>
              window_bad (tp_crb_base t) (tp_crb_len t)
              || (tp_control_area t <? tp_crb_base t)
              || match checked_add 64 (tp_crb_base t) (tp_crb_len t) with None => true | Some e => e <=? tp_control_area t end
          | None => false
          end then Err BadConfig
  else if match ac_usb c with
          | Some u => window_bad (us_mmio_base u) (us_mmio_len u) || (SPI_LAST <? spi_gsiv (us_spi u))
          | None => false
          end then Err BadConfig
  else Ok tt.

(** ** Builders *)

(** [body[at..at + n].copy_from_slice(bs)] *)
Definition patch (l : list Z) (at_ : nat) (bs : list Z) : list Z := take at_ l ++ bs ++ drop (at_ + length bs) l.

(** A field's offset in the body of a table. *)
Definition at_body (offset : nat) : nat := offset - SDT_HEADER_LEN.

Definition MCFG_SIGNATURE : list Z := ascii_bytes "MCFG".
Definition MCFG_REVISION : Z := 1.
Definition MCFG_ENTRY_LEN : nat := 16.
Definition MCFG_FIXED_LEN : nat := 8.

Definition mcfg_body (bus0 start_bus end_bus : Z) : list Z :=
  replicate MCFG_FIXED_LEN 0 ++ le_bytes 8 bus0 ++ le_bytes 2 0 ++ [start_bus; end_bus] ++ replicate 4 0.

Definition mcfg (ecam : EcamConfig) : result AcpiError (list Z) :=
  if ec_end_bus ecam <? ec_start_bus ecam then Err BadConfig
  else if ec_base ecam <? Z.shiftl (ec_start_bus ecam) 20 then Err BadConfig
  else
    let bus0 := ec_base ecam - Z.shiftl (ec_start_bus ecam) 20 in
    table (header_new MCFG_SIGNATURE MCFG_REVISION) (mcfg_body bus0 (ec_start_bus ecam) (ec_end_bus ecam)).

Definition GTDT_SIGNATURE : list Z := ascii_bytes "GTDT".
Definition GTDT_REVISION : Z := 3.
Definition GTDT_LEN : nat := 104.
Definition TIMER_ALWAYS_ON : Z := Z.shiftl 1 2.
Definition NO_COUNTER_BLOCK : Z := 2 ^ 64 - 1.
Definition TIMERS_OFFSET : nat := 48.

Fixpoint put_timers (slot : nat) (flags : Z) (ppis : list Z) (body : list Z) : list Z :=
  match ppis with
  | [] => body
  | ppi :: ppis =>
      let offset := at_body (TIMERS_OFFSET + 8 * slot) in
      let body := patch body offset (le_bytes 4 (ppi_gsiv ppi)) in
      put_timers (S slot) flags ppis (patch body (offset + 4) (le_bytes 4 flags))
  end.

Definition timer_flags (timer : TimerConfig) : Z := if tc_always_on timer then TIMER_ALWAYS_ON else 0.

Definition gtdt_body (timer : TimerConfig) : list Z :=
  let body := replicate (GTDT_LEN - SDT_HEADER_LEN) 0 in
  let body := patch body (at_body 36) (le_bytes 8 NO_COUNTER_BLOCK) in
  let body := put_timers 0 (timer_flags timer) (tc_ppis timer) body in
  patch body (at_body 80) (le_bytes 8 NO_COUNTER_BLOCK).

Definition gtdt (timer : TimerConfig) : result AcpiError (list Z) :=
  if existsb (fun ppi => 15 <? ppi) (tc_ppis timer) then Err BadConfig
  else table (header_new GTDT_SIGNATURE GTDT_REVISION) (gtdt_body timer).

Definition SPCR_SIGNATURE : list Z := ascii_bytes "SPCR".
Definition SPCR_REVISION : Z := 2.
Definition SPCR_LEN : nat := 80.
Definition INTERFACE_PL011 : Z := 3.
Definition INTERRUPT_TYPE_GIC : Z := Z.shiftl 1 3.
Definition BAUD_115200 : Z := 7.
Definition BASE_OFFSET : nat := 40.
Definition GSIV_OFFSET : nat := 54.

Definition spcr_body (uart : UartConfig) : list Z :=
  let body := replicate (SPCR_LEN - SDT_HEADER_LEN) 0 in
  let body := patch body (at_body 36) [INTERFACE_PL011] in
  let body := patch body (at_body BASE_OFFSET) (gas_encode (gas_mmio32 (uc_base uart))) in
  let body := patch body (at_body 52) [INTERRUPT_TYPE_GIC] in
  let body := patch body (at_body GSIV_OFFSET) (le_bytes 4 (spi_gsiv (uc_spi uart))) in
  let body := patch body (at_body 58) [BAUD_115200] in
  let body := patch body (at_body 60) [1] in
  patch body (at_body 64) (replicate 4 0xff).

Definition spcr (uart : UartConfig) : result AcpiError (list Z) := table (header_new SPCR_SIGNATURE SPCR_REVISION) (spcr_body uart).

Definition DBG2_SIGNATURE : list Z := ascii_bytes "DBG2".
Definition DBG2_REVISION : Z := 0.
Definition PORT_SERIAL : Z := 0x8000.
Definition SUBTYPE_PL011 : Z := 0x0003.
Definition DEVICE_INFO_OFFSET : Z := 44.
Definition NO_NAMESPACE : list Z := [46; 0].
Definition DEVICE_GAS_OFFSET : nat := 22.

Definition dbg2_info (uart : UartConfig) : list Z :=
  let size_offset := (DEVICE_GAS_OFFSET + GAS_LEN)%nat in
  let namespace_offset := (size_offset + 4)%nat in
  let len := (namespace_offset + length NO_NAMESPACE)%nat in
  [0] ++ le_bytes 2 (Z.of_nat len) ++ [1] ++ le_bytes 2 (Z.of_nat (length NO_NAMESPACE)) ++ le_bytes 2 (Z.of_nat namespace_offset)
  ++ replicate 4 0 ++ le_bytes 2 PORT_SERIAL ++ le_bytes 2 SUBTYPE_PL011 ++ replicate 2 0
  ++ le_bytes 2 (Z.of_nat DEVICE_GAS_OFFSET) ++ le_bytes 2 (Z.of_nat size_offset) ++ gas_encode (gas_mmio32 (uc_base uart))
  ++ le_bytes 4 (uc_len uart) ++ NO_NAMESPACE.

Definition dbg2_body (uart : UartConfig) : list Z := le_bytes 4 DEVICE_INFO_OFFSET ++ le_bytes 4 1 ++ dbg2_info uart.
Definition dbg2 (uart : UartConfig) : result AcpiError (list Z) := table (header_new DBG2_SIGNATURE DBG2_REVISION) (dbg2_body uart).

Definition FADT_SIGNATURE : list Z := ascii_bytes "FACP".
Definition FADT_REVISION : Z := 6.
Definition FADT_MINOR_REVISION : Z := 5.
Definition FADT_LEN : nat := 276.
Definition HW_REDUCED_ACPI : Z := Z.shiftl 1 20.
Definition ARM_PSCI_COMPLIANT : Z := Z.shiftl 1 0.
Definition ARM_PSCI_USE_HVC : Z := Z.shiftl 1 1.
Definition DSDT_OFFSET : nat := 40.
Definition FLAGS_OFFSET : nat := 112.
Definition ARM_BOOT_ARCH_OFFSET : nat := 129.
Definition MINOR_VERSION_OFFSET : nat := 131.
Definition X_DSDT_OFFSET : nat := 140.

Definition boot_arch (conduit : PsciConduit) : Z :=
  match conduit with Hvc => Z.lor ARM_PSCI_COMPLIANT ARM_PSCI_USE_HVC | Smc => ARM_PSCI_COMPLIANT end.

Definition fadt_body (dsdt_gpa : Z) (conduit : PsciConduit) : list Z :=
  let body := replicate (FADT_LEN - SDT_HEADER_LEN) 0 in
  let body := patch body (at_body FLAGS_OFFSET) (le_bytes 4 HW_REDUCED_ACPI) in
  let body := patch body (at_body ARM_BOOT_ARCH_OFFSET) (le_bytes 2 (boot_arch conduit)) in
  let body := patch body (at_body MINOR_VERSION_OFFSET) [FADT_MINOR_REVISION] in
  patch body (at_body X_DSDT_OFFSET) (le_bytes 8 dsdt_gpa).

Definition fadt (dsdt_gpa : Z) (conduit : PsciConduit) : result AcpiError (list Z) :=
  table (header_new FADT_SIGNATURE FADT_REVISION) (fadt_body dsdt_gpa conduit).

Definition MADT_SIGNATURE : list Z := ascii_bytes "APIC".
Definition MADT_REVISION : Z := 6.
Definition GICC_TYPE : Z := 0x0b.
Definition GICC_LEN : nat := 82.
Definition GICD_TYPE : Z := 0x0c.
Definition GICD_LEN : nat := 24.
Definition GICR_TYPE : Z := 0x0e.
Definition GICR_LEN : nat := 16.
Definition GICC_ENABLED : Z := 1.
Definition GIC_VERSION_3 : Z := 3.
Definition MADT_FIXED_LEN : nat := 8.
Definition gicc_UID : nat := 8.
Definition gicc_FLAGS : nat := 12.
Definition gicc_GICR_BASE : nat := 60.
Definition gicc_MPIDR : nat := 68.

Definition gicc (uid mpidr : Z) : list Z :=
  let s := replicate GICC_LEN 0 in
  let s := patch s 0 [GICC_TYPE] in
  let s := patch s 1 [Z.of_nat GICC_LEN] in
  let s := patch s gicc_UID (le_bytes 4 uid) in
  let s := patch s gicc_FLAGS (le_bytes 4 GICC_ENABLED) in
  patch s gicc_MPIDR (le_bytes 8 mpidr).

Definition gicd (base : Z) : list Z :=
  let s := replicate GICD_LEN 0 in
  let s := patch s 0 [GICD_TYPE] in
  let s := patch s 1 [Z.of_nat GICD_LEN] in
  let s := patch s 8 (le_bytes 8 base) in
  patch s 20 [GIC_VERSION_3].

Definition gicr (base len : Z) : list Z :=
  let s := replicate GICR_LEN 0 in
  let s := patch s 0 [GICR_TYPE] in
  let s := patch s 1 [Z.of_nat GICR_LEN] in
  let s := patch s 4 (le_bytes 8 base) in
  patch s 12 (le_bytes 4 len).

(** The structures of the CPUs from index [i]; an index past 32 bits is an error. *)
Fixpoint giccs_from (i : Z) (mpidrs : list Z) : result AcpiError (list Z) :=
  match mpidrs with
  | [] => Ok []
  | m :: mpidrs =>
      if 2 ^ 32 <=? i then Err BadConfig
      else rest ← giccs_from (i + 1) mpidrs; Ok (gicc i m ++ rest)
  end.

Definition madt (c : AcpiConfig) : result AcpiError (list Z) :=
  _ ← validate c;
  cpus ← giccs_from 0 (ac_mpidrs c);
  table (header_new MADT_SIGNATURE MADT_REVISION)
    (replicate MADT_FIXED_LEN 0 ++ cpus ++ gicd (gc_dist_base (ac_gic c))
     ++ gicr (gc_redist_base (ac_gic c)) (gc_redist_len (ac_gic c))).

Definition TPM2_SIGNATURE : list Z := ascii_bytes "TPM2".
Definition TPM2_REVISION : Z := 4.
Definition PLATFORM_CLIENT : Z := 0.
Definition START_METHOD_CRB : Z := 7.
Definition CONTROL_AREA_OFFSET : nat := 40.
Definition START_METHOD_OFFSET : nat := 48.

Definition tpm2_body (tpm : TpmConfig) : list Z :=
  le_bytes 2 PLATFORM_CLIENT ++ le_bytes 2 0 ++ le_bytes 8 (tp_control_area tpm) ++ le_bytes 4 START_METHOD_CRB ++ replicate 12 0
  ++ le_bytes 4 0 ++ le_bytes 8 0.
Definition tpm2 (tpm : TpmConfig) : result AcpiError (list Z) := table (header_new TPM2_SIGNATURE TPM2_REVISION) (tpm2_body tpm).

(** ** Decoders ([decode.rs]) *)

Definition MAX_ENTRIES : nat := 4096.

Record GiccInfo := { gi_uid : Z; gi_flags : Z; gi_gicr_base : Z; gi_mpidr : Z }.
Record MadtInfo := { mi_giccs : list GiccInfo; mi_gicds : list (Z * Z); mi_gicrs : list (Z * Z) }.
Record GtdtInfo := { gt_gsivs : list Z; gt_flags : list Z }.
Record McfgAllocation := { ma_base : Z; ma_segment : Z; ma_start_bus : Z; ma_end_bus : Z }.
Record SpcrInfo := { si_interface_type : Z; si_base : Gas; si_interrupt_type : Z; si_gsiv : Z }.
Record Dbg2Device := { db_port_type : Z; db_subtype : Z; db_base : Gas; db_size : Z }.
Record Tpm2Info := { ti_platform_class : Z; ti_control_area : Z; ti_start_method : Z }.

Definition body (bytes : list Z) (signature : list Z) : result AcpiError (list Z) :=
  header ← header_parse bytes;
  if negb (bool_decide (sh_signature header = signature)) then Err (BadTable signature 0)
  else
    let len := Z.to_nat (sh_length header) in
    if bool_decide (len < SDT_HEADER_LEN)%nat || bool_decide (length bytes < len)%nat then Err (BadTable signature 0)
    else Ok (take len bytes).

Definition field (n : nat) (bytes : list Z) (at_ : nat) (what : string) : result AcpiError (list Z) :=
  if bool_decide (at_ + n <= length bytes)%nat then Ok (sub bytes at_ n)
  else Err (Truncated what (Z.of_nat (length bytes)) (Z.of_nat (at_ + n))).

Definition u8_at (bytes : list Z) (at_ : nat) (what : string) : result AcpiError Z := of_le <$> field 1 bytes at_ what.
Definition u16_at (bytes : list Z) (at_ : nat) (what : string) : result AcpiError Z := of_le <$> field 2 bytes at_ what.
Definition u32_at (bytes : list Z) (at_ : nat) (what : string) : result AcpiError Z := of_le <$> field 4 bytes at_ what.
Definition u64_at (bytes : list Z) (at_ : nat) (what : string) : result AcpiError Z := of_le <$> field 8 bytes at_ what.

(** One structure of a MADT. *)
Definition madt_structure (kind : Z) (s : list Z) (info : MadtInfo) : result AcpiError MadtInfo :=
  if kind =? GICC_TYPE then
    uid ← u32_at s gicc_UID "gicc uid";
    flags ← u32_at s gicc_FLAGS "gicc flags";
    gicr_base ← u64_at s gicc_GICR_BASE "gicc gicr base";
    mpidr ← u64_at s gicc_MPIDR "gicc mpidr";
    Ok {| mi_giccs := mi_giccs info ++ [{| gi_uid := uid; gi_flags := flags; gi_gicr_base := gicr_base; gi_mpidr := mpidr |}];
          mi_gicds := mi_gicds info; mi_gicrs := mi_gicrs info |}
  else if kind =? GICD_TYPE then
    base ← u64_at s 8 "gicd base";
    version ← u8_at s 20 "gicd version";
    Ok {| mi_giccs := mi_giccs info; mi_gicds := mi_gicds info ++ [(base, version)]; mi_gicrs := mi_gicrs info |}
  else if kind =? GICR_TYPE then
    base ← u64_at s 4 "gicr base";
    len ← u32_at s 12 "gicr length";
    Ok {| mi_giccs := mi_giccs info; mi_gicds := mi_gicds info; mi_gicrs := mi_gicrs info ++ [(base, len)] |}
  else Ok info.

(** The loop from offset [at_] with [seen] structures read; each round reads two
    bytes at least, so the length of the table is enough fuel. *)
Fixpoint madt_loop (fuel : nat) (table : list Z) (at_ seen : nat) (info : MadtInfo) : result AcpiError MadtInfo :=
  match fuel with
  | O => Ok info
  | S fuel =>
      if bool_decide (length table <= at_)%nat then Ok info
      else
        kind ← u8_at table at_ "madt structure header";
        len ← u8_at table (at_ + 1) "madt structure header";
        let len := Z.to_nat len in
        if bool_decide (len < 2)%nat || bool_decide (length table < at_ + len)%nat
        then Err (Truncated "madt structure" (Z.of_nat (length table)) (Z.of_nat (at_ + Nat.max len 2)))
        else
          info ← madt_structure kind (sub table at_ len) info;
          if bool_decide (MAX_ENTRIES < S seen)%nat
          then Err (Truncated "madt structure count" (Z.of_nat (S seen)) (Z.of_nat MAX_ENTRIES))
          else madt_loop fuel table (at_ + len) (S seen) info
  end.

Definition decode_madt (bytes : list Z) : result AcpiError MadtInfo :=
  t ← body bytes MADT_SIGNATURE;
  madt_loop (length t) t (SDT_HEADER_LEN + MADT_FIXED_LEN) 0 {| mi_giccs := []; mi_gicds := []; mi_gicrs := [] |}.

Fixpoint map_result {E A B} (f : A -> result E B) (l : list A) : result E (list B) :=
  match l with
  | [] => Ok []
  | x :: l => y ← f x; ys ← map_result f l; Ok (y :: ys)
  end.

Definition decode_gtdt (bytes : list Z) : result AcpiError GtdtInfo :=
  t ← body bytes GTDT_SIGNATURE;
  pairs ← map_result (fun slot =>
    gsiv ← u32_at t (48 + 8 * slot) "gtdt gsiv";
    flags ← u32_at t (52 + 8 * slot) "gtdt flags";
    Ok (gsiv, flags)) (seq 0 4);
  Ok {| gt_gsivs := pairs.*1; gt_flags := pairs.*2 |}.

Definition decode_mcfg (bytes : list Z) : result AcpiError (list McfgAllocation) :=
  t ← body bytes MCFG_SIGNATURE;
  let start := (SDT_HEADER_LEN + MCFG_FIXED_LEN)%nat in
  let entries := ((length t - start) / MCFG_ENTRY_LEN)%nat in
  map_result (fun index =>
    let at_ := (start + index * MCFG_ENTRY_LEN)%nat in
    buses ← field 2 t (at_ + 10) "mcfg buses";
    base ← u64_at t at_ "mcfg base";
    segment ← u16_at t (at_ + 8) "mcfg segment";
    Ok {| ma_base := base; ma_segment := segment; ma_start_bus := of_le (sub buses 0 1); ma_end_bus := of_le (sub buses 1 1) |})
    (seq 0 (Nat.min entries MAX_ENTRIES)).

Definition decode_spcr (bytes : list Z) : result AcpiError SpcrInfo :=
  t ← body bytes SPCR_SIGNATURE;
  interface_type ← u8_at t 36 "spcr interface type";
  raw ← field GAS_LEN t 40 "spcr base";
  base ← gas_parse raw;
  interrupt_type ← u8_at t 52 "spcr interrupt type";
  gsiv ← u32_at t 54 "spcr gsiv";
  Ok {| si_interface_type := interface_type; si_base := base; si_interrupt_type := interrupt_type; si_gsiv := gsiv |}.

Definition dbg2_device (t : list Z) (at_ : nat) : result AcpiError (Dbg2Device * nat) :=
  len ← u16_at t (at_ + 1) "dbg2 device length";
  let len := Z.to_nat len in
  if bool_decide (len = 0)%nat || bool_decide (length t < at_ + len)%nat
  then Err (Truncated "dbg2 device" (Z.of_nat (length t)) (Z.of_nat (at_ + len)))
  else
    let device := sub t at_ len in
    base_at ← u16_at device 18 "dbg2 base offset";
    size_at ← u16_at device 20 "dbg2 size offset";
    port_type ← u16_at device 12 "dbg2 port type";
    subtype ← u16_at device 14 "dbg2 port subtype";
    raw ← field GAS_LEN device (Z.to_nat base_at) "dbg2 base";
    base ← gas_parse raw;
    size ← u32_at device (Z.to_nat size_at) "dbg2 address size";
    Ok ({| db_port_type := port_type; db_subtype := subtype; db_base := base; db_size := size |}, len).

Fixpoint dbg2_loop (count : nat) (t : list Z) (at_ : nat) : result AcpiError (list Dbg2Device) :=
  match count with
  | O => Ok []
  | S count => p ← dbg2_device t at_; rest ← dbg2_loop count t (at_ + p.2); Ok (p.1 :: rest)
  end.

Definition decode_dbg2 (bytes : list Z) : result AcpiError (list Dbg2Device) :=
  t ← body bytes DBG2_SIGNATURE;
  at_ ← u32_at t 36 "dbg2 device info offset";
  count ← u32_at t 40 "dbg2 device count";
  dbg2_loop (Nat.min (Z.to_nat count) MAX_ENTRIES) t (Z.to_nat at_).

(** [decode_tpm2] of [tpm2.rs]: the checks of its own, then unchecked reads of a
    table that has 52 bytes. *)
Definition decode_tpm2 (bytes : list Z) : result AcpiError Tpm2Info :=
  header ← header_parse bytes;
  if negb (bool_decide (sh_signature header = TPM2_SIGNATURE)) then Err (BadTable TPM2_SIGNATURE 0)
  else
    let len := Z.to_nat (sh_length header) in
    if bool_decide (len < START_METHOD_OFFSET + 4)%nat || bool_decide (length bytes < len)%nat then Err (BadTable TPM2_SIGNATURE 0)
    else Ok {| ti_platform_class := of_le (sub bytes 36 2); ti_control_area := of_le (sub bytes CONTROL_AREA_OFFSET 8);
               ti_start_method := of_le (sub bytes START_METHOD_OFFSET 4) |}.

(** ** What the types give *)

Record config_ok (c : AcpiConfig) : Prop := {
  co_mpidrs : Forall (fits 64) (ac_mpidrs c);
  co_gic : fits 64 (gc_dist_base (ac_gic c)) /\ fits 64 (gc_redist_base (ac_gic c)) /\ fits 32 (gc_redist_len (ac_gic c));
  co_timer : length (tc_ppis (ac_timer c)) = 4%nat /\ Forall (fits 32) (tc_ppis (ac_timer c));
  co_ecam : fits 64 (ec_base (ac_ecam c)) /\ fits 8 (ec_start_bus (ac_ecam c)) /\ fits 8 (ec_end_bus (ac_ecam c));
  co_pci : fits 64 (pc_mmio_base (ac_pci c)) /\ fits 64 (pc_mmio_len (ac_pci c)) /\
           length (pc_intx_spis (ac_pci c)) = 4%nat /\ Forall (fits 32) (pc_intx_spis (ac_pci c));
  co_uart : fits 64 (uc_base (ac_uart c)) /\ fits 32 (uc_len (ac_uart c)) /\ fits 32 (uc_spi (ac_uart c));
  co_tpm : forall t, ac_tpm c = Some t -> fits 64 (tp_crb_base t) /\ fits 32 (tp_crb_len t) /\ fits 64 (tp_control_area t);
  co_usb : forall u, ac_usb c = Some u -> fits 64 (us_mmio_base u) /\ fits 32 (us_mmio_len u) /\ fits 32 (us_spi u);
}.

(** ** Built tables are decoded back *)

(** A table made from [sig] and a body, as its readers see it. *)
Record built (t sig b : list Z) : Prop := {
  bu_length : length t = (SDT_HEADER_LEN + length b)%nat;
  bu_fits : Forall (fits 8) t;
  bu_sum : byte_sum t = 0;
  bu_body : drop SDT_HEADER_LEN t = b;
  bu_whole : body t sig = Ok t;
  bu_header : exists h, header_parse t = Ok h /\ sh_signature h = sig /\ sh_length h = Z.of_nat (length t);
}.

Lemma table_built sig rev b t :
  length sig = 4%nat -> Forall (fits 8) sig -> fits 8 rev -> Forall (fits 8) b -> table (header_new sig rev) b = Ok t -> built t sig b.
Proof.
  intros Hs Hsf Hr Hb Ht. pose proof (header_new_ok sig rev Hs Hsf Hr) as Hh.
  destruct (table_spec _ _ _ Hh Hb Ht) as (Hl & Hlt & Hf & Hsum & Hd & sum & Hp).
  split; try done; [|by eexists].
  unfold body. rewrite Hp. cbn [mbind result_bind with_length sh_signature sh_length header_new]. rewrite bool_decide_eq_true_2 by done. cbn [negb].
  rewrite Nat2Z.id, !bool_decide_eq_false_2 by (unfold SDT_HEADER_LEN in *; lia). cbn [orb]. by rewrite take_ge.
Qed.

(** Reads past the header are reads of the body. *)
Lemma built_sub t sig b k n : built t sig b -> sub t (SDT_HEADER_LEN + k) n = sub b k n.
Proof. intros [_ _ _ <- _ _]. unfold sub. by rewrite drop_drop. Qed.

Lemma built_field t sig b k n what v :
  built t sig b -> (k + n <= length b)%nat -> sub b k n = v -> field n t (SDT_HEADER_LEN + k) what = Ok v.
Proof.
  intros Hb Hk <-. unfold field. rewrite bool_decide_eq_true_2 by (rewrite (bu_length _ _ _ Hb); lia). by rewrite (built_sub _ _ _ _ _ Hb).
Qed.

Lemma field_ok l k n what v : (k + n <= length l)%nat -> sub l k n = v -> field n l k what = Ok v.
Proof. intros Hk <-. unfold field. by rewrite bool_decide_eq_true_2. Qed.

Lemma patch_fits l i bs : Forall (fits 8) l -> Forall (fits 8) bs -> Forall (fits 8) (patch l i bs).
Proof. intros Hl Hb. unfold patch. rewrite !Forall_app. split_and!; [by apply Forall_take|done|by apply Forall_drop]. Qed.

Lemma gas_encode_fits a : Forall (fits 8) (gas_encode (gas_mmio32 a)).
Proof. unfold gas_encode. apply Forall_app. split; [by apply all_bytes_fits|apply le_bytes_fits]. Qed.

(** The bytes of a body are bytes. *)
Ltac body_fits :=
  repeat first
    [ apply patch_fits
    | apply le_bytes_fits
    | apply zeros_fit
    | apply gas_encode_fits
    | by apply all_bytes_fits
    | rewrite !Forall_app; split_and!
    | assumption ].

Lemma existsb_false {A} (p : A -> bool) l : existsb p l = false -> Forall (fun x => p x = false) l.
Proof. induction l as [|x l IH]; cbn; [done|]. intros [H1 H2]%orb_false_iff. constructor; auto. Qed.

Lemma gsiv_small ppi : fits 32 ppi -> (15 <? ppi) = false -> fits 32 (ppi_gsiv ppi).
Proof. intros _ _. by apply wrap_fits. Qed.

Lemma fits_spi_gsiv spi : fits 32 (spi_gsiv spi).
Proof. by apply wrap_fits. Qed.

(** Evaluate the next read of a decoder. *)
Ltac read_built Hb k v :=
  match goal with
  | |- context [field ?n ?t ?at_ ?what] =>
      change at_ with (SDT_HEADER_LEN + k)%nat; rewrite (built_field t _ _ k n what v Hb); [|unfold GAS_LEN; cbn; lia|reflexivity]
  end.

Lemma put_timers_fits slot flags ppis l : Forall (fits 8) l -> Forall (fits 8) (put_timers slot flags ppis l).
Proof. revert slot l. induction ppis as [|p ps IH]; intros slot l Hl; cbn [put_timers]; [done|]. apply IH. body_fits. Qed.

Lemma gtdt_decoded timer t :
  length (tc_ppis timer) = 4%nat -> Forall (fits 32) (tc_ppis timer) -> gtdt timer = Ok t ->
  built t GTDT_SIGNATURE (gtdt_body timer) /\
  decode_gtdt t = Ok {| gt_gsivs := ppi_gsiv <$> tc_ppis timer; gt_flags := replicate 4 (timer_flags timer) |}.
Proof.
  intros Hl Hf. unfold gtdt. destruct (existsb _ _); [done|]. intros Ht.
  assert (Hb : built t GTDT_SIGNATURE (gtdt_body timer)).
  { eapply table_built; [..|exact Ht]; [done|by apply all_bytes_fits|fits_closed|]. unfold gtdt_body. apply patch_fits; [|apply le_bytes_fits].
    apply put_timers_fits. body_fits. }
  split; [done|]. destruct timer as [ppis on]. cbn [tc_ppis tc_always_on] in *. destruct ppis as [|a [|b [|c [|d [|]]]]]; try done.
  assert (Hfl : fits 32 (timer_flags {| tc_ppis := [a; b; c; d]; tc_always_on := on |})) by (destruct on; fits_closed).
  set (fl := timer_flags _) in *. unfold decode_gtdt. rewrite (bu_whole _ _ _ Hb). cbn [mbind result_bind seq map_result]. unfold u32_at.
  read_built Hb 12%nat (le_bytes 4 (ppi_gsiv a)). cbn [fmap result_fmap mbind result_bind]. read_built Hb 16%nat (le_bytes 4 fl).
  cbn [fmap result_fmap mbind result_bind].
  read_built Hb 20%nat (le_bytes 4 (ppi_gsiv b)). cbn [fmap result_fmap mbind result_bind]. read_built Hb 24%nat (le_bytes 4 fl).
  cbn [fmap result_fmap mbind result_bind].
  read_built Hb 28%nat (le_bytes 4 (ppi_gsiv c)). cbn [fmap result_fmap mbind result_bind]. read_built Hb 32%nat (le_bytes 4 fl).
  cbn [fmap result_fmap mbind result_bind].
  read_built Hb 36%nat (le_bytes 4 (ppi_gsiv d)). cbn [fmap result_fmap mbind result_bind]. read_built Hb 40%nat (le_bytes 4 fl).
  cbn [fmap result_fmap mbind result_bind]. rewrite !of_le_le_bytes_fits by (done || by apply wrap_fits). done.
Qed.

Ltac next_read Hb k v := cbn [fmap result_fmap mbind result_bind]; read_built Hb k v; cbn [fmap result_fmap mbind result_bind].

Lemma gas_mmio32_parse a : fits 64 a -> gas_parse (gas_encode (gas_mmio32 a)) = Ok (gas_mmio32 a).
Proof. intros H. rewrite <- (app_nil_r (gas_encode _)). apply gas_roundtrip; [fits_closed..|done]. Qed.

Lemma mcfg_decoded ecam t :
  fits 64 (ec_base ecam) -> fits 8 (ec_start_bus ecam) -> fits 8 (ec_end_bus ecam) -> mcfg ecam = Ok t ->
  exists bus0, bus0 + Z.shiftl (ec_start_bus ecam) 20 = ec_base ecam /\
  built t MCFG_SIGNATURE (mcfg_body bus0 (ec_start_bus ecam) (ec_end_bus ecam)) /\
  decode_mcfg t = Ok [{| ma_base := bus0; ma_segment := 0; ma_start_bus := ec_start_bus ecam; ma_end_bus := ec_end_bus ecam |}].
Proof.
  intros Hb0 Hs He. unfold mcfg. destruct (_ <? _); [done|]. destruct (Z.ltb_spec (ec_base ecam) (Z.shiftl (ec_start_bus ecam) 20)) as [|Hge]; [done|].
  cbv zeta. set (bus0 := ec_base ecam - _). intros Ht. exists bus0. split; [unfold bus0; lia|].
  assert (Hbus : fits 64 bus0).
  { assert (0 <= Z.shiftl (ec_start_bus ecam) 20) by (apply Z.shiftl_nonneg; apply Hs). unfold fits, bus0 in *. lia. }
  assert (Hb : built t MCFG_SIGNATURE (mcfg_body bus0 (ec_start_bus ecam) (ec_end_bus ecam))).
  { eapply table_built; [..|exact Ht]; [done|by apply all_bytes_fits|fits_closed|]. unfold mcfg_body. body_fits. constructor; [done|by constructor]. }
  split; [done|]. unfold decode_mcfg. rewrite (bu_whole _ _ _ Hb). cbn [mbind result_bind]. rewrite (bu_length _ _ _ Hb).
  change (Nat.min _ _) with 1%nat. cbn [seq map_result]. unfold u64_at, u16_at.
  next_read Hb 18%nat [ec_start_bus ecam; ec_end_bus ecam]. next_read Hb 8%nat (le_bytes 8 bus0). next_read Hb 16%nat (le_bytes 2 0).
  rewrite !of_le_le_bytes_fits by (assumption || fits_closed). change (sub _ 0 1) with [ec_start_bus ecam]. change (sub _ 1 1) with [ec_end_bus ecam].
  by rewrite !of_le_one.
Qed.

Lemma spcr_decoded uart t :
  fits 64 (uc_base uart) -> spcr uart = Ok t ->
  built t SPCR_SIGNATURE (spcr_body uart) /\
  decode_spcr t = Ok {| si_interface_type := INTERFACE_PL011; si_base := gas_mmio32 (uc_base uart); si_interrupt_type := INTERRUPT_TYPE_GIC;
                        si_gsiv := spi_gsiv (uc_spi uart) |}.
Proof.
  intros Hu Ht. assert (Hb : built t SPCR_SIGNATURE (spcr_body uart)).
  { eapply table_built; [..|exact Ht]; [done|by apply all_bytes_fits|fits_closed|]. unfold spcr_body. body_fits. }
  split; [done|]. unfold decode_spcr. rewrite (bu_whole _ _ _ Hb). unfold u8_at, u32_at.
  next_read Hb 0%nat [INTERFACE_PL011]. next_read Hb 4%nat (gas_encode (gas_mmio32 (uc_base uart))). rewrite gas_mmio32_parse by done.
  next_read Hb 16%nat [INTERRUPT_TYPE_GIC]. next_read Hb 18%nat (le_bytes 4 (spi_gsiv (uc_spi uart))).
  by rewrite of_le_le_bytes_fits by apply fits_spi_gsiv.
Qed.

Lemma dbg2_decoded uart t :
  fits 64 (uc_base uart) -> fits 32 (uc_len uart) -> dbg2 uart = Ok t ->
  built t DBG2_SIGNATURE (dbg2_body uart) /\
  decode_dbg2 t = Ok [{| db_port_type := PORT_SERIAL; db_subtype := SUBTYPE_PL011; db_base := gas_mmio32 (uc_base uart); db_size := uc_len uart |}].
Proof.
  intros Hu Hl Ht. assert (Hb : built t DBG2_SIGNATURE (dbg2_body uart)).
  { eapply table_built; [..|exact Ht]; [done|by apply all_bytes_fits|fits_closed|]. unfold dbg2_body, dbg2_info. body_fits. }
  split; [done|]. unfold decode_dbg2. rewrite (bu_whole _ _ _ Hb). unfold u32_at.
  next_read Hb 0%nat (le_bytes 4 DEVICE_INFO_OFFSET). next_read Hb 4%nat (le_bytes 4 1). rewrite !of_le_le_bytes_fits by fits_closed.
  change (Nat.min _ _) with 1%nat. cbn [dbg2_loop]. change (Z.to_nat DEVICE_INFO_OFFSET) with (SDT_HEADER_LEN + 8)%nat.
  unfold dbg2_device, u16_at, u32_at. next_read Hb 9%nat (le_bytes 2 40). rewrite of_le_le_bytes_fits by fits_closed. change (Z.to_nat 40) with 40%nat.
  cbv zeta. rewrite (bu_length _ _ _ Hb). rewrite !bool_decide_eq_false_2 by (cbn; lia). cbn [orb].
  rewrite (built_sub _ _ _ 8 40 Hb). change (sub (dbg2_body uart) 8 40) with (dbg2_info uart).
  rewrite (field_ok (dbg2_info uart) 18 2 _ (le_bytes 2 22)) by (cbn; lia || reflexivity). cbn [fmap result_fmap mbind result_bind].
  rewrite (field_ok (dbg2_info uart) 20 2 _ (le_bytes 2 34)) by (cbn; lia || reflexivity). cbn [fmap result_fmap mbind result_bind].
  rewrite (field_ok (dbg2_info uart) 12 2 _ (le_bytes 2 PORT_SERIAL)) by (cbn; lia || reflexivity). cbn [fmap result_fmap mbind result_bind].
  rewrite (field_ok (dbg2_info uart) 14 2 _ (le_bytes 2 SUBTYPE_PL011)) by (cbn; lia || reflexivity). cbn [fmap result_fmap mbind result_bind].
  rewrite !of_le_le_bytes_fits by fits_closed. change (Z.to_nat 22) with 22%nat. change (Z.to_nat 34) with 34%nat.
  rewrite (field_ok (dbg2_info uart) 22 GAS_LEN _ (gas_encode (gas_mmio32 (uc_base uart)))) by (unfold GAS_LEN; cbn; lia || reflexivity).
  cbn [fmap result_fmap mbind result_bind]. rewrite gas_mmio32_parse by done. cbn [fmap result_fmap mbind result_bind].
  rewrite (field_ok (dbg2_info uart) 34 4 _ (le_bytes 4 (uc_len uart))) by (cbn; lia || reflexivity). cbn [fmap result_fmap mbind result_bind].
  by rewrite of_le_le_bytes_fits by done.
Qed.

Lemma tpm2_decoded tpm t :
  fits 64 (tp_control_area tpm) -> tpm2 tpm = Ok t ->
  built t TPM2_SIGNATURE (tpm2_body tpm) /\
  decode_tpm2 t = Ok {| ti_platform_class := PLATFORM_CLIENT; ti_control_area := tp_control_area tpm; ti_start_method := START_METHOD_CRB |}.
Proof.
  intros Hc Ht. assert (Hb : built t TPM2_SIGNATURE (tpm2_body tpm)).
  { eapply table_built; [..|exact Ht]; [done|by apply all_bytes_fits|fits_closed|]. unfold tpm2_body. body_fits. }
  split; [done|]. destruct (bu_header _ _ _ Hb) as (h & Hp & Hsig & Hlen). unfold decode_tpm2. rewrite Hp. cbn [mbind result_bind].
  rewrite Hsig, Hlen, bool_decide_eq_true_2 by done. cbn [negb]. rewrite Nat2Z.id, (bu_length _ _ _ Hb).
  rewrite !bool_decide_eq_false_2 by (cbn; lia). cbn [orb].
  change 36%nat with (SDT_HEADER_LEN + 0)%nat. change CONTROL_AREA_OFFSET with (SDT_HEADER_LEN + 4)%nat. change START_METHOD_OFFSET with (SDT_HEADER_LEN + 12)%nat.
  rewrite !(built_sub _ _ _ _ _ Hb). change (sub (tpm2_body tpm) 0 2) with (le_bytes 2 0). change (sub (tpm2_body tpm) 4 8) with (le_bytes 8 (tp_control_area tpm)).
  change (sub (tpm2_body tpm) 12 4) with (le_bytes 4 START_METHOD_CRB). rewrite !of_le_le_bytes_fits by (assumption || fits_closed). done.
Qed.

(** *** The MADT *)

Definition gicc_info (uid mpidr : Z) : GiccInfo := {| gi_uid := uid; gi_flags := GICC_ENABLED; gi_gicr_base := 0; gi_mpidr := mpidr |}.
Fixpoint gicc_infos (i : Z) (mpidrs : list Z) : list GiccInfo :=
  match mpidrs with [] => [] | m :: mpidrs => gicc_info i m :: gicc_infos (i + 1) mpidrs end.

Definition add_giccs (l : list GiccInfo) (info : MadtInfo) : MadtInfo :=
  {| mi_giccs := mi_giccs info ++ l; mi_gicds := mi_gicds info; mi_gicrs := mi_gicrs info |}.

Lemma gicc_decoded uid mpidr info :
  fits 32 uid -> fits 64 mpidr -> madt_structure GICC_TYPE (gicc uid mpidr) info = Ok (add_giccs [gicc_info uid mpidr] info).
Proof.
  intros Hu Hm. unfold madt_structure, u32_at, u64_at. rewrite Z.eqb_refl.
  rewrite (field_ok _ gicc_UID 4 _ (le_bytes 4 uid)) by (cbn; lia || reflexivity). cbn [fmap result_fmap mbind result_bind].
  rewrite (field_ok _ gicc_FLAGS 4 _ (le_bytes 4 GICC_ENABLED)) by (cbn; lia || reflexivity). cbn [fmap result_fmap mbind result_bind].
  rewrite (field_ok _ gicc_GICR_BASE 8 _ (le_bytes 8 0)) by (cbn; lia || reflexivity). cbn [fmap result_fmap mbind result_bind].
  rewrite (field_ok _ gicc_MPIDR 8 _ (le_bytes 8 mpidr)) by (cbn; lia || reflexivity). cbn [fmap result_fmap mbind result_bind].
  by rewrite !of_le_le_bytes_fits by (assumption || fits_closed).
Qed.

Lemma gicd_decoded base info :
  fits 64 base -> madt_structure GICD_TYPE (gicd base) info =
    Ok {| mi_giccs := mi_giccs info; mi_gicds := mi_gicds info ++ [(base, GIC_VERSION_3)]; mi_gicrs := mi_gicrs info |}.
Proof.
  intros Hb. unfold madt_structure, u8_at, u64_at. change (GICD_TYPE =? GICC_TYPE) with false. rewrite Z.eqb_refl.
  rewrite (field_ok _ 8 8 _ (le_bytes 8 base)) by (cbn; lia || reflexivity). cbn [fmap result_fmap mbind result_bind].
  rewrite (field_ok _ 20 1 _ [GIC_VERSION_3]) by (cbn; lia || reflexivity). cbn [fmap result_fmap mbind result_bind].
  by rewrite of_le_le_bytes_fits by done.
Qed.

Lemma gicr_decoded base len info :
  fits 64 base -> fits 32 len -> madt_structure GICR_TYPE (gicr base len) info =
    Ok {| mi_giccs := mi_giccs info; mi_gicds := mi_gicds info; mi_gicrs := mi_gicrs info ++ [(base, len)] |}.
Proof.
  intros Hb Hl. unfold madt_structure, u32_at, u64_at. change (GICR_TYPE =? GICC_TYPE) with false. change (GICR_TYPE =? GICD_TYPE) with false.
  rewrite Z.eqb_refl.
  rewrite (field_ok _ 4 8 _ (le_bytes 8 base)) by (cbn; lia || reflexivity). cbn [fmap result_fmap mbind result_bind].
  rewrite (field_ok _ 12 4 _ (le_bytes 4 len)) by (cbn; lia || reflexivity). cbn [fmap result_fmap mbind result_bind].
  by rewrite !of_le_le_bytes_fits by done.
Qed.

(** One round of the loop over a structure [s] at [at_]. *)
Lemma madt_round fuel t at_ seen info kind s rest info' :
  drop at_ t = s ++ rest -> (2 <= length s)%nat -> s !! 0%nat = Some kind -> s !! 1%nat = Some (Z.of_nat (length s)) ->
  madt_structure kind s info = Ok info' -> (S seen <= MAX_ENTRIES)%nat ->
  madt_loop (S fuel) t at_ seen info = madt_loop fuel t (at_ + length s) (S seen) info'.
Proof.
  intros Hd Hl H0 H1 Hs Hm. assert (Hlen : (at_ + length s + length rest = length t)%nat).
  { apply (f_equal length) in Hd. rewrite length_drop, length_app in Hd. lia. }
  assert (Hsub : forall k n, (k + n <= length s)%nat -> sub t (at_ + k) n = sub s k n).
  { intros k n Hk. unfold sub. rewrite <- drop_drop, Hd, drop_app_le by lia. apply take_app_le. rewrite length_drop. lia. }
  assert (Hone : forall k x, s !! k = Some x -> sub s k 1 = [x]).
  { intros k x Hk. unfold sub. rewrite (drop_S s x k Hk). done. }
  cbn [madt_loop]. rewrite bool_decide_eq_false_2 by lia. unfold u8_at.
  rewrite <- (Nat.add_0_r at_) at 1. rewrite (field_ok t (at_ + 0) 1 _ [kind]) by (lia || (rewrite Hsub by lia; by apply Hone)).
  cbn [fmap result_fmap mbind result_bind].
  rewrite (field_ok t (at_ + 1) 1 _ [Z.of_nat (length s)]) by (lia || (rewrite Hsub by lia; by apply Hone)).
  cbn [fmap result_fmap mbind result_bind of_le]. rewrite !Z.mul_0_r, !Z.add_0_r, Nat2Z.id.
  rewrite !bool_decide_eq_false_2 by lia. cbn [orb]. rewrite <- (Nat.add_0_r at_) at 1. rewrite Hsub by lia.
  replace (sub s 0 (length s)) with s by (unfold sub; by rewrite take_ge). rewrite Hs. cbn [mbind result_bind].
  done.
Qed.

Lemma giccs_read fuel t at_ seen info i mpidrs cpus rest :
  giccs_from i mpidrs = Ok cpus -> Forall (fits 64) mpidrs -> 0 <= i -> drop at_ t = cpus ++ rest ->
  (seen + length mpidrs <= MAX_ENTRIES)%nat ->
  madt_loop (length mpidrs + fuel) t at_ seen info =
  madt_loop fuel t (at_ + length cpus) (seen + length mpidrs) (add_giccs (gicc_infos i mpidrs) info).
Proof.
  revert at_ seen info i cpus. induction mpidrs as [|m mpidrs IH]; intros at_ seen info i cpus Hc Hf Hi Hd Hs; cbn [giccs_from] in Hc.
  { injection Hc as <-. cbn [length gicc_infos Nat.add]. rewrite !Nat.add_0_r. unfold add_giccs. rewrite app_nil_r. by destruct info. }
  destruct (Z.leb_spec (2 ^ 32) i) as [|Hlt]; [done|]. destruct (giccs_from (i + 1) mpidrs) as [more|] eqn:E; [|done].
  cbn [mbind result_bind] in Hc. apply Ok_inj in Hc as <-. apply list.Forall_cons in Hf as [Hm Hf]. cbn [length Nat.add] in *.
  rewrite <- app_assoc in Hd. erewrite (madt_round _ t at_ seen info GICC_TYPE (gicc i m) (more ++ rest)); [|exact Hd|cbn; lia|reflexivity|reflexivity| |lia].
  2: { apply gicc_decoded; [unfold fits; lia|done]. }
  rewrite (IH (at_ + length (gicc i m))%nat (S seen) _ (i + 1) more); [|done|done|lia| |cbn in Hs; lia].
  - rewrite length_app. replace (at_ + length (gicc i m) + length more)%nat with (at_ + (length (gicc i m) + length more))%nat by lia.
    replace (S seen + length mpidrs)%nat with (seen + S (length mpidrs))%nat by lia. f_equal. unfold add_giccs. cbn. by rewrite <- app_assoc.
  - by rewrite <- drop_drop, Hd, drop_app_length.
Qed.

Lemma giccs_from_fits i mpidrs cpus :
  giccs_from i mpidrs = Ok cpus -> Forall (fits 8) cpus /\ length cpus = (GICC_LEN * length mpidrs)%nat.
Proof.
  revert i cpus. induction mpidrs as [|m mpidrs IH]; intros i cpus; cbn [giccs_from]; [by intros <-%Ok_inj|].
  destruct (_ <=? _); [done|]. destruct (giccs_from (i + 1) mpidrs) as [more|] eqn:E; [|done]. intros <-%Ok_inj.
  destruct (IH _ _ E) as [H1 H2]. split; [apply Forall_app; split; [|done]; unfold gicc; body_fits|].
  rewrite length_app, H2. change (length (gicc i m)) with GICC_LEN. cbn [length]. lia.
Qed.

Definition madt_info (c : AcpiConfig) : MadtInfo :=
  {| mi_giccs := gicc_infos 0 (ac_mpidrs c); mi_gicds := [(gc_dist_base (ac_gic c), GIC_VERSION_3)];
     mi_gicrs := [(gc_redist_base (ac_gic c), gc_redist_len (ac_gic c))] |}.

Lemma validate_cpus c : validate c = Ok tt -> (1 <= length (ac_mpidrs c) <= MAX_CPUS)%nat.
Proof.
  unfold validate. cbv zeta. destruct (bool_decide _ || bool_decide _) eqn:E; [done|]. intros _.
  apply orb_false_iff in E as [E1%bool_decide_eq_false E2%bool_decide_eq_false]. destruct (ac_mpidrs c); [done|]. cbn [length] in *. lia.
Qed.

Lemma madt_decoded c t :
  config_ok c -> madt c = Ok t ->
  exists b, built t MADT_SIGNATURE b /\ decode_madt t = Ok (madt_info c).
Proof.
  intros Hc. unfold madt. destruct (validate c) as [[]|] eqn:Ev; [|done]. cbn [mbind result_bind].
  destruct (giccs_from 0 (ac_mpidrs c)) as [cpus|] eqn:Eg; [|done]. cbn [mbind result_bind].
  set (b := replicate _ _ ++ _). intros Ht. destruct (giccs_from_fits _ _ _ Eg) as [Hcf Hcl]. destruct (co_gic _ Hc) as (Hg1 & Hg2 & Hg3).
  pose proof (validate_cpus _ Ev) as Hn.
  assert (Hb : built t MADT_SIGNATURE b).
  { eapply table_built; [..|exact Ht]; [done|by apply all_bytes_fits|fits_closed|]. unfold b. rewrite !Forall_app.
    split; [apply zeros_fit|]. split; [done|]. split; [unfold gicd|unfold gicr]; body_fits. }
  exists b. split; [done|]. unfold decode_madt. rewrite (bu_whole _ _ _ Hb). cbn [mbind result_bind].
  set (gd := gicd (gc_dist_base (ac_gic c))) in *. set (gr := gicr _ _) in *.
  assert (Hd : drop (SDT_HEADER_LEN + MADT_FIXED_LEN) t = cpus ++ gd ++ gr).
  { rewrite <- drop_drop, (bu_body _ _ _ Hb). unfold b. by rewrite drop_app_length' by by rewrite length_replicate. }
  assert (Hlen : exists fuel, length t = (length (ac_mpidrs c) + S (S (S fuel)))%nat).
  { exists (length t - length (ac_mpidrs c) - 3)%nat. rewrite (bu_length _ _ _ Hb). unfold b. rewrite !length_app, Hcl. unfold GICC_LEN, SDT_HEADER_LEN. lia. }
  destruct Hlen as [fuel Hfuel]. rewrite Hfuel at 1.
  rewrite (giccs_read _ t _ 0 _ 0 _ cpus (gd ++ gr)); [|done|apply Hc|lia|done|unfold MAX_ENTRIES, MAX_CPUS in *; lia].
  assert (Hd2 : drop (SDT_HEADER_LEN + MADT_FIXED_LEN + length cpus) t = gd ++ gr) by (by rewrite <- drop_drop, Hd, drop_app_length).
  erewrite (madt_round _ t _ _ _ GICD_TYPE gd gr); [|exact Hd2|cbn; lia|reflexivity|reflexivity|by apply gicd_decoded|unfold MAX_ENTRIES, MAX_CPUS in *; lia].
  assert (Hd3 : drop (SDT_HEADER_LEN + MADT_FIXED_LEN + length cpus + length gd) t = gr ++ []) by (by rewrite <- drop_drop, Hd2, drop_app_length, app_nil_r).
  erewrite (madt_round _ t _ _ _ GICR_TYPE gr []); [|exact Hd3|cbn; lia|reflexivity|reflexivity|by apply gicr_decoded|unfold MAX_ENTRIES, MAX_CPUS in *; lia].
  cbn [madt_loop]. rewrite bool_decide_eq_true_2; [done|]. apply (f_equal length) in Hd3. rewrite length_drop, app_nil_r in Hd3. lia.
Qed.
