(* ===== verification/AcpiAml.v ===== *)
(** * AML and the DSDT

    Model of [ternvale-acpi/src/aml.rs], [aml_data.rs], [aml_resource.rs],
    [pci_root.rs], [xhci.rs], the device of [tpm2.rs], and [dsdt.rs].  Paths and
    identifiers are byte strings.  The reference readers [read_pkg] and
    [read_integer] follow ACPI 6.5 §20.2: what the encoders write, they read back
    with nothing left over. *)

From stdpp Require Import list strings.
From S2P Require Import Prelude FwCfg AcpiSdt AcpiLeaf.

(** ** Terms ([aml.rs]) *)

Definition SCOPE_OP : Z := 0x10.
Definition NAME_OP : Z := 0x08.
Definition EXT_OP_PREFIX : Z := 0x5b.
Definition DEVICE_OP : Z := 0x82.
Definition ROOT_CHAR : Z := 0x5c.
Definition PARENT_PREFIX_CHAR : Z := 0x5e.
Definition DUAL_NAME_PREFIX : Z := 0x2e.
Definition MULTI_NAME_PREFIX : Z := 0x2f.
Definition NULL_NAME : Z := 0x00.
Definition MAX_PKG_LENGTH : Z := Z.shiftl 1 28 - 1.

Definition pkg_limit (follow : Z) : Z := if follow =? 0 then 0x3f else Z.shiftl 1 (4 + 8 * follow) - 1.

Definition pkg_bytes (follow total : Z) : list Z :=
  if follow =? 0 then [wrap 8 total]
  else Z.lor (wrap 8 (Z.shiftl follow 6)) (Z.land total 0x0f)
       :: ((fun index => wrap 8 (Z.shiftr total (4 + 8 * Z.of_nat index))) <$> seq 0 (Z.to_nat follow)).

(** The loop over the number of bytes that follow the lead byte. *)
Fixpoint pkg_loop (follows : list Z) (content : Z) : option (list Z) :=
  match follows with
  | [] => None
  | follow :: follows =>
      match checked_add 64 content (1 + follow) with
      | None => None
      | Some total => if pkg_limit follow <? total then pkg_loop follows content else Some (pkg_bytes follow total)
      end
  end.

Definition pkg_length (content : nat) : result AcpiError (list Z) :=
  ok_or (pkg_loop [0; 1; 2; 3] (Z.of_nat content)) (PkgLengthTooLarge (Z.of_nat content)).

Definition is_upper (b : Z) : bool := (65 <=? b) && (b <=? 90).
Definition is_digit (b : Z) : bool := (48 <=? b) && (b <=? 57).
Definition lead_ok (b : Z) : bool := is_upper b || (b =? 95).

Definition name_seg (seg : list Z) : result AcpiError (list Z) :=
  let valid := bool_decide (1 <= length seg <= 4)%nat && match seg with b :: _ => lead_ok b | [] => false end
               && forallb (fun b => lead_ok b || is_digit b) seg in
  if valid then Ok (seg ++ replicate (4 - length seg) 95) else Err (BadNameSeg seg).

(** [split('.')] *)
Fixpoint dot_split (path : list Z) : list (list Z) :=
  match path with
  | [] => [[]]
  | c :: path =>
      match dot_split path with
      | seg :: segs => if c =? 46 then [] :: seg :: segs else (c :: seg) :: segs
      | [] => []
      end
  end.

Fixpoint parent_prefixes (path : list Z) : list Z * list Z :=
  match path with
  | c :: path' => if c =? 94 then let '(out, rest) := parent_prefixes path' in (PARENT_PREFIX_CHAR :: out, rest) else ([], path)
  | [] => ([], [])
  end.

Definition name_prefix (path : list Z) : list Z * list Z :=
  match path with
  | c :: rest => if c =? 92 then ([ROOT_CHAR], rest) else parent_prefixes path
  | [] => ([], [])
  end.

Definition name_string (path : list Z) : result AcpiError (list Z) :=
  let '(out, rest) := name_prefix path in
  if bool_decide (rest = []) then
    if bool_decide (out = []) then Err (BadNamePath path) else Ok (out ++ [NULL_NAME])
  else
    segs ← map_result name_seg (dot_split rest);
    prefix ← (if bool_decide (length segs = 1)%nat then Ok []
              else if bool_decide (length segs = 2)%nat then Ok [DUAL_NAME_PREFIX]
              else if bool_decide (255 < length segs)%nat then Err (BadNamePath path)
              else Ok [MULTI_NAME_PREFIX; Z.of_nat (length segs)]);
    Ok (out ++ prefix ++ mjoin segs).

Definition named_package (opcode path content : list Z) : result AcpiError (list Z) :=
  name ← name_string path;
  length_ ← pkg_length (length name + length content);
  Ok (opcode ++ length_ ++ name ++ content).

Definition scope (path content : list Z) : result AcpiError (list Z) := named_package [SCOPE_OP] path content.
Definition device (path content : list Z) : result AcpiError (list Z) := named_package [EXT_OP_PREFIX; DEVICE_OP] path content.
Definition name (path value : list Z) : result AcpiError (list Z) :=
  n ← name_string path; Ok ([NAME_OP] ++ n ++ value).

(** ** Data ([aml_data.rs]) *)

Definition ZERO_OP : Z := 0x00.
Definition ONE_OP : Z := 0x01.
Definition BYTE_PREFIX : Z := 0x0a.
Definition WORD_PREFIX : Z := 0x0b.
Definition DWORD_PREFIX : Z := 0x0c.
Definition QWORD_PREFIX : Z := 0x0e.
Definition STRING_PREFIX : Z := 0x0d.
Definition BUFFER_OP : Z := 0x11.
Definition PACKAGE_OP : Z := 0x12.

Definition integer (value : Z) : list Z :=
  if value =? 0 then [ZERO_OP]
  else if value =? 1 then [ONE_OP]
  else if value <=? 0xff then [BYTE_PREFIX; wrap 8 value]
  else if value <=? 0xffff then WORD_PREFIX :: le_bytes 2 (wrap 16 value)
  else if value <=? 0xffffffff then DWORD_PREFIX :: le_bytes 4 (wrap 32 value)
  else QWORD_PREFIX :: le_bytes 8 value.

Definition hex (b : Z) : option Z :=
  if is_digit b then Some (b - 48) else if (65 <=? b) && (b <=? 70) then Some (b - 65 + 10) else None.
Definition swap_bytes (v : Z) : Z := of_le (be_bytes 4 v).

Definition eisa_id_value (id : list Z) : result AcpiError Z :=
  if negb (bool_decide (length id = 7%nat) && forallb is_upper (take 3 id)) then Err BadConfig
  else
    match mapM hex (drop 3 id), id with
    | Some [d0; d1; d2; d3], l0 :: l1 :: l2 :: _ =>
        let letter l := Z.land (l - 0x40) 0x1f in
        let vendor := Z.lor (Z.lor (Z.shiftl (letter l0) 10) (Z.shiftl (letter l1) 5)) (letter l2) in
        let product := Z.lor (Z.lor (Z.lor (Z.shiftl d0 12) (Z.shiftl d1 8)) (Z.shiftl d2 4)) d3 in
        Ok (swap_bytes (Z.lor (Z.shiftl vendor 16) product))
    | _, _ => Err BadConfig
    end.
Definition eisa_id (id : list Z) : result AcpiError (list Z) := v ← eisa_id_value id; Ok (integer v).

Definition package (elements : list (list Z)) : result AcpiError (list Z) :=
  if bool_decide (255 < length elements)%nat then Err BadConfig
  else
    let content := mjoin elements in
    length_ ← pkg_length (1 + length content);
    Ok ([PACKAGE_OP] ++ length_ ++ [Z.of_nat (length elements)] ++ content).

Definition aml_string (text : list Z) : result AcpiError (list Z) :=
  if forallb (fun b => (1 <=? b) && (b <=? 0x7f)) text then Ok ([STRING_PREFIX] ++ text ++ [0]) else Err BadConfig.

Definition buffer (bytes : list Z) : result AcpiError (list Z) :=
  let size := integer (Z.of_nat (length bytes)) in
  length_ ← pkg_length (length size + length bytes);
  Ok ([BUFFER_OP] ++ length_ ++ size ++ bytes).

(** ** Resource descriptors ([aml_resource.rs]) *)

Definition DWORD_ADDRESS_TAG : Z := 0x87.
Definition WORD_ADDRESS_TAG : Z := 0x88.
Definition MEMORY32_FIXED_TAG : Z := 0x86.
Definition MEMORY32_READ_WRITE : Z := 0x01.
Definition END_TAG : Z := 0x79.
Definition EXTENDED_INTERRUPT_TAG : Z := 0x89.
Definition RESOURCE_MEMORY : Z := 0.
Definition RESOURCE_BUS : Z := 2.
Definition FIXED_POS_DECODE : Z := 12.
Definition CONSUMER : Z := 1.
Definition MEM_NONCACHEABLE_RW : Z := 0x01.

Inductive Usage := Producer | Consumer.
Definition flags (u : Usage) : Z := match u with Producer => FIXED_POS_DECODE | Consumer => Z.lor FIXED_POS_DECODE CONSUMER end.

Definition word_bus_number (first last : Z) : result AcpiError (list Z) :=
  if last <? first then Err BadConfig
  else
    let len := last - first + 1 in
    if 2 ^ 16 <=? len then Err BadConfig
    else Ok ([WORD_ADDRESS_TAG; 13; 0; RESOURCE_BUS; flags Producer; 0] ++ mjoin (le_bytes 2 <$> [0; first; last; 0; len])).

Definition dword_memory (usage : Usage) (base len : Z) : result AcpiError (list Z) :=
  match checked_add 64 base len with
  | None => Err BadConfig
  | Some end_ =>
      if end_ =? 0 then Err BadConfig
      else if (2 ^ 32 <=? base) || (2 ^ 32 <=? end_ - 1) || (2 ^ 32 <=? len) then Err BadConfig
      else if len =? 0 then Err BadConfig
      else Ok ([DWORD_ADDRESS_TAG; 23; 0; RESOURCE_MEMORY; flags usage; MEM_NONCACHEABLE_RW]
               ++ mjoin (le_bytes 4 <$> [0; base; end_ - 1; 0; len]))
  end.

Definition memory32_fixed (base len : Z) : result AcpiError (list Z) :=
  match checked_add 64 base len with
  | None => Err BadConfig
  | Some end_ =>
      if (2 ^ 32 <=? base) || (2 ^ 32 <=? len) || (2 ^ 32 <? end_) then Err BadConfig
      else if len =? 0 then Err BadConfig
      else Ok ([MEMORY32_FIXED_TAG; 9; 0; MEMORY32_READ_WRITE] ++ le_bytes 4 base ++ le_bytes 4 len)
  end.

Definition extended_interrupt (gsiv : Z) : result AcpiError (list Z) :=
  Ok [EXTENDED_INTERRUPT_TAG; 0x06; 0x00; 0x09; 0x01; Z.land gsiv 0xff; Z.land (Z.shiftr gsiv 8) 0xff; Z.land (Z.shiftr gsiv 16) 0xff;
      Z.land (Z.shiftr gsiv 24) 0xff].

Definition resource_template (descriptors : list (list Z)) : result AcpiError (list Z) := buffer (mjoin descriptors ++ [END_TAG; 0]).

(** ** Devices *)

Definition named (path : string) (value : list Z) : result AcpiError (list Z) := name (ascii_bytes path) value.

(** [pci_root.rs] *)
Definition PCIE_ROOT_HID : list Z := ascii_bytes "PNP0A08".
Definition PCI_ROOT_CID : list Z := ascii_bytes "PNP0A03".
Definition MOTHERBOARD_HID : list Z := ascii_bytes "PNP0C02".
Definition ROOT_BUS_DEVICES : nat := 32.
Definition INTX_PINS : nat := 4.
Definition ECAM_BUS_BYTES : Z := Z.shiftl 1 20.

Record PrtRoute := { pr_device : Z; pr_pin : Z; pr_gsiv : Z }.

Definition prt_routes (c : AcpiConfig) : list PrtRoute :=
  d ← seq 0 ROOT_BUS_DEVICES;
  (fun pin => {| pr_device := Z.of_nat d; pr_pin := Z.of_nat pin;
                 pr_gsiv := spi_gsiv (nth ((d + pin) mod INTX_PINS) (pc_intx_spis (ac_pci c)) 0) |}) <$> seq 0 INTX_PINS.

Definition prt_entry (r : PrtRoute) : result AcpiError (list Z) :=
  package [integer (Z.lor (Z.shiftl (pr_device r) 16) 0xffff); integer (pr_pin r); integer 0; integer (pr_gsiv r)].

Definition res0 (c : AcpiConfig) : result AcpiError (list Z) :=
  let ecam := ac_ecam c in
  let ecam_len := (ec_end_bus ecam - ec_start_bus ecam + 1) * ECAM_BUS_BYTES in
  hid ← eisa_id MOTHERBOARD_HID;
  hid ← named "_HID" hid;
  window ← dword_memory Consumer (ec_base ecam) ecam_len;
  crs ← resource_template [window];
  crs ← named "_CRS" crs;
  device (ascii_bytes "RES0") (hid ++ crs).

Definition pci_root (c : AcpiConfig) : result AcpiError (list Z) :=
  let ecam := ac_ecam c in
  prt ← map_result prt_entry (prt_routes c);
  bus ← word_bus_number (ec_start_bus ecam) (ec_end_bus ecam);
  mem ← dword_memory Producer (pc_mmio_base (ac_pci c)) (pc_mmio_len (ac_pci c));
  crs ← resource_template [bus; mem];
  res ← res0 c;
  hid ← eisa_id PCIE_ROOT_HID;
  n_hid ← named "_HID" hid;
  cid ← eisa_id PCI_ROOT_CID;
  n_cid ← named "_CID" cid;
  n_seg ← named "_SEG" (integer 0);
  n_bbn ← named "_BBN" (integer (ec_start_bus ecam));
  n_uid ← named "_UID" (integer 0);
  n_cca ← named "_CCA" (integer 1);
  prt ← package prt;
  n_prt ← named "_PRT" prt;
  n_crs ← named "_CRS" crs;
  device (ascii_bytes "PCI0") (mjoin [n_hid; n_cid; n_seg; n_bbn; n_uid; n_cca; n_prt; n_crs; res]).

(** [xhci.rs] *)
Definition XHCI_HID : list Z := ascii_bytes "PNP0D10".
Definition xhci_device (usb : UsbConfig) : result AcpiError (list Z) :=
  window ← memory32_fixed (us_mmio_base usb) (us_mmio_len usb);
  irq ← extended_interrupt (spi_gsiv (us_spi usb));
  crs ← resource_template [window; irq];
  hid ← aml_string XHCI_HID;
  n_hid ← named "_HID" hid;
  n_uid ← named "_UID" (integer 0);
  n_crs ← named "_CRS" crs;
  device (ascii_bytes "XHC0") (mjoin [n_hid; n_uid; n_crs]).

(** [tpm2.rs] *)
Definition TPM_HID : list Z := ascii_bytes "MSFT0101".
Definition tpm_device (tpm : TpmConfig) : result AcpiError (list Z) :=
  window ← memory32_fixed (tp_crb_base tpm) (tp_crb_len tpm);
  crs ← resource_template [window];
  hid ← aml_string TPM_HID;
  n_hid ← named "_HID" hid;
  n_uid ← named "_UID" (integer 0);
  n_crs ← named "_CRS" crs;
  device (ascii_bytes "TPM2") (mjoin [n_hid; n_uid; n_crs]).

(** [dsdt.rs] *)
Definition DSDT_SIGNATURE : list Z := ascii_bytes "DSDT".
Definition DSDT_REVISION : Z := 2.
Definition dsdt_body (c : AcpiConfig) : result AcpiError (list Z) :=
  pci ← pci_root c;
  usb ← match ac_usb c with Some u => xhci_device u | None => Ok [] end;
  tpm ← match ac_tpm c with Some t => tpm_device t | None => Ok [] end;
  scope (ascii_bytes "\_SB") (pci ++ usb ++ tpm).
Definition dsdt (c : AcpiConfig) : result AcpiError (list Z) :=
  b ← dsdt_body c; table (header_new DSDT_SIGNATURE DSDT_REVISION) b.

(** ** Reference readers (ACPI 6.5 §20.2.4, §20.2.3) *)

(** The package after a PkgLength, and what follows it. *)
Definition read_pkg (l : list Z) : option (list Z * list Z) :=
  match l with
  | [] => None
  | lead :: l =>
      let follow := Z.to_nat (lead / 64) in
      let total := if bool_decide (follow = 0)%nat then lead mod 64 else lead mod 16 + 16 * of_le (take follow l) in
      let n := (Z.to_nat total - 1 - follow)%nat in
      if bool_decide (follow <= length l)%nat && bool_decide (n <= length (drop follow l))%nat
      then Some (take n (drop follow l), drop n (drop follow l)) else None
  end.

Definition read_integer (l : list Z) : option (Z * list Z) :=
  match l with
  | [] => None
  | op :: l =>
      let prefixed n := if bool_decide (n <= length l)%nat then Some (of_le (take n l), drop n l) else None in
      if op =? ZERO_OP then Some (0, l)
      else if op =? ONE_OP then Some (1, l)
      else if op =? BYTE_PREFIX then prefixed 1%nat
      else if op =? WORD_PREFIX then prefixed 2%nat
      else if op =? DWORD_PREFIX then prefixed 4%nat
      else if op =? QWORD_PREFIX then prefixed 8%nat
      else None
  end.

Lemma take_drop_exact {A} (l rest : list A) n : length l = n -> take n (l ++ rest) = l /\ drop n (l ++ rest) = rest.
Proof. intros <-. by rewrite take_app_length, drop_app_length. Qed.

Lemma integer_read v rest : fits 64 v -> read_integer (integer v ++ rest) = Some (v, rest).
Proof.
  intros [H0 H1]. unfold integer. destruct (Z.eqb_spec v 0) as [->|]; [done|]. destruct (Z.eqb_spec v 1) as [->|]; [done|].
  assert (Hp : forall n x, length x = n -> of_le x = v ->
    (if bool_decide (n <= length (x ++ rest))%nat then Some (of_le (take n (x ++ rest)), drop n (x ++ rest)) else None) = Some (v, rest)).
  { intros m x Hx Hv. destruct (take_drop_exact x rest m Hx) as [-> ->]. rewrite bool_decide_eq_true_2 by (rewrite length_app; lia). by rewrite Hv. }
  destruct (Z.leb_spec v 0xff); [|destruct (Z.leb_spec v 0xffff); [|destruct (Z.leb_spec v 0xffffffff)]].
  - apply (Hp 1%nat [_]); [done|]. rewrite wrap_small by (unfold fits; lia). apply of_le_one. unfold fits. lia.
  - apply (Hp 2%nat (le_bytes 2 _)); [apply length_le_bytes|]. rewrite wrap_small by (unfold fits; lia). apply of_le_le_bytes_fits. unfold fits. lia.
  - apply (Hp 4%nat (le_bytes 4 _)); [apply length_le_bytes|]. rewrite wrap_small by (unfold fits; lia). apply of_le_le_bytes_fits. unfold fits. lia.
  - apply (Hp 8%nat (le_bytes 8 _)); [apply length_le_bytes|]. apply of_le_le_bytes_fits. unfold fits. lia.
Qed.

(** The bytes of a PkgLength that [follow] bytes follow. *)
Lemma pkg_bytes_shape k total :
  (1 <= k <= 3)%nat -> 0 <= total < 2 ^ (4 + 8 * Z.of_nat k) ->
  pkg_bytes (Z.of_nat k) total = (64 * Z.of_nat k + total mod 16) :: le_bytes k (total / 16).
Proof.
  intros Hk Ht. unfold pkg_bytes. destruct (Z.eqb_spec (Z.of_nat k) 0); [lia|]. f_equal.
  - rewrite (land_low _ 4) by done. change (2 ^ 4) with 16. pose proof (Z.mod_pos_bound total 16 ltac:(lia)).
    assert (Hs : wrap 8 (Z.shiftl (Z.of_nat k) 6) = Z.shiftl (Z.of_nat k) 6) by (apply wrap_small; rewrite Z.shiftl_mul_pow2 by lia; unfold fits; lia).
    rewrite Hs, lor_shiftl_add by lia. lia.
  - rewrite Nat2Z.id. assert (Hd : forall i, Z.shiftr total (4 + 8 * i) = total / 16 / 256 ^ i \/ i < 0).
    { intros i. destruct (Z.lt_ge_cases i 0); [by right|]. left. rewrite Z.shiftr_div_pow2, Z.pow_add_r, Z.pow_mul_r by lia. rewrite <- Z.div_div by lia. done. }
    destruct k as [|[|[|[|]]]]; try lia; cbn [seq fmap list_fmap le_bytes]; unfold wrap; change (2 ^ 8) with 256;
      repeat (let E := fresh in match goal with |- context [Z.shiftr total (4 + 8 * ?i)] => destruct (Hd i) as [E|E]; [rewrite E|lia] end);
      rewrite ?Z.div_div by lia; rewrite ?Z.div_1_r; done.
Qed.

Lemma checked_small a b : 0 <= a -> 0 <= b -> a + b < 2 ^ 64 -> checked_add 64 a b = Some (a + b).
Proof. intros. apply checked_add_Some. unfold fits. lia. Qed.

(** A package is read back, with nothing lost and nothing left. *)
Lemma pkg_length_read content rest len :
  pkg_length (length content) = Ok len -> read_pkg (len ++ content ++ rest) = Some (content, rest).
Proof.
  unfold pkg_length. set (n := Z.of_nat (length content)). destruct (pkg_loop [0; 1; 2; 3] n) as [bs|] eqn:E; [|done]. intros <-%Ok_inj.
  assert (Hcase : (exists k, (1 <= k <= 3)%nat /\ n + 1 + Z.of_nat k < 2 ^ (4 + 8 * Z.of_nat k) /\ bs = pkg_bytes (Z.of_nat k) (n + 1 + Z.of_nat k)) \/
                  n + 1 < 64 /\ bs = [n + 1]).
  { revert E. cbn [pkg_loop]. assert (Hn : 0 <= n) by (unfold n; lia).
    destruct (checked_add 64 n (1 + 0)) as [t|] eqn:Et; [|done]. apply checked_add_Some in Et as [-> _]. change (pkg_limit 0) with 63.
    destruct (Z.ltb_spec 63 (n + (1 + 0))); [|intros <-%(inj Some); right; split; [lia|]; change (pkg_bytes 0 (n + (1 + 0))) with [wrap 8 (n + (1 + 0))]; rewrite wrap_small by (unfold fits; lia); f_equal; lia].
    destruct (checked_add 64 n (1 + 1)) as [t|] eqn:Et; [|done]. apply checked_add_Some in Et as [-> _]. change (pkg_limit 1) with 4095.
    destruct (Z.ltb_spec 4095 (n + (1 + 1))); [|intros <-%(inj Some); left; exists 1%nat; split; [lia|]; split; [cbn; lia|]; f_equal; lia].
    destruct (checked_add 64 n (1 + 2)) as [t|] eqn:Et; [|done]. apply checked_add_Some in Et as [-> _]. change (pkg_limit 2) with 1048575.
    destruct (Z.ltb_spec 1048575 (n + (1 + 2))); [|intros <-%(inj Some); left; exists 2%nat; split; [lia|]; split; [cbn; lia|]; f_equal; lia].
    destruct (checked_add 64 n (1 + 3)) as [t|] eqn:Et; [|done]. apply checked_add_Some in Et as [-> _]. change (pkg_limit 3) with 268435455.
    destruct (Z.ltb_spec 268435455 (n + (1 + 3))); [done|]. intros <-%(inj Some). left. exists 3%nat. split; [lia|]. split; [cbn; lia|]. f_equal; lia. }
  assert (Hlen : forall k, (Z.to_nat (n + 1 + Z.of_nat k) - 1 - k = length content)%nat) by (intros; unfold n; lia).
  destruct Hcase as [(k & Hk & Hlt & ->)|[Hlt ->]].
  - rewrite pkg_bytes_shape by (unfold n in *; lia). set (total := n + 1 + Z.of_nat k) in *. assert (0 <= total) by (unfold total, n; lia).
    pose proof (Z.mod_pos_bound total 16 ltac:(lia)) as Hm. cbn [app read_pkg].
    assert (Ef : Z.to_nat ((64 * Z.of_nat k + total mod 16) / 64) = k).
    { replace (64 * Z.of_nat k + total mod 16) with (total mod 16 + Z.of_nat k * 64) by lia. rewrite Z.div_add, Z.div_small by lia. lia. }
    rewrite Ef. cbv zeta. rewrite (bool_decide_eq_false_2 (k = 0)%nat) by lia.
    destruct (take_drop_exact (le_bytes k (total / 16)) (content ++ rest) k (length_le_bytes _ _)) as [-> ->].
    assert (Et : (64 * Z.of_nat k + total mod 16) mod 16 + 16 * of_le (le_bytes k (total / 16)) = total).
    { rewrite of_le_le_bytes_fits.
      - replace (64 * Z.of_nat k + total mod 16) with (total mod 16 + (4 * Z.of_nat k) * 16) by lia. rewrite Z_mod_plus_full, Z.mod_mod by lia.
        pose proof (Z.div_mod total 16). lia.
      - split; [apply Z.div_pos; lia|]. apply Z.div_lt_upper_bound; [lia|]. rewrite Z.pow_add_r in Hlt by lia. lia. }
    rewrite Et. unfold total. rewrite Hlen. rewrite !bool_decide_eq_true_2 by (rewrite ?length_app, ?length_le_bytes; lia). cbn [andb].
    by destruct (take_drop_exact content rest _ eq_refl) as [-> ->].
  - cbn [app read_pkg]. assert (0 <= n) by (unfold n; lia). rewrite Z.div_small by lia. change (Z.to_nat 0) with 0%nat. cbv zeta.
    rewrite (bool_decide_eq_true_2 (0 = 0)%nat) by done. rewrite Z.mod_small by lia. change (drop 0 (content ++ rest)) with (content ++ rest).
    pose proof (Hlen 0%nat) as H0. rewrite Z.add_0_r in H0. rewrite H0. rewrite !bool_decide_eq_true_2 by (rewrite ?length_app; lia). cbn [andb].
    by destruct (take_drop_exact content rest _ eq_refl) as [-> ->].
Qed.

(** Every package short enough for 28 bits has a PkgLength. *)
Lemma pkg_length_total n : Z.of_nat n + 4 <= MAX_PKG_LENGTH -> exists len, pkg_length n = Ok len /\ (length len <= 4)%nat.
Proof.
  intros Hn. change MAX_PKG_LENGTH with 268435455 in Hn. unfold pkg_length. cbn [pkg_loop].
  rewrite !checked_small by lia. change (pkg_limit 0) with 63. change (pkg_limit 1) with 4095. change (pkg_limit 2) with 1048575. change (pkg_limit 3) with 268435455.
  destruct (63 <? _); [|eexists; split; [reflexivity|vm_compute; lia]]. destruct (4095 <? _); [|eexists; split; [reflexivity|vm_compute; lia]].
  destruct (1048575 <? _); [|eexists; split; [reflexivity|vm_compute; lia]].
  destruct (Z.ltb_spec 268435455 (Z.of_nat n + (1 + 3))); [lia|]. eexists. split; [reflexivity|]. vm_compute; lia.
Qed.

(** A scope or device is read back: its name, its contents, and what follows. *)
Lemma named_package_read op path content t rest :
  named_package op path content = Ok t ->
  exists n, name_string path = Ok n /\ read_pkg (drop (length op) t ++ rest) = Some (n ++ content, rest).
Proof.
  unfold named_package. intros (n & En & H)%bind_Ok. apply bind_Ok in H as (len & El & H). apply Ok_inj in H as <-. exists n. split; [done|].
  rewrite drop_app_length, <- !app_assoc, (app_assoc n). rewrite <- length_app in El. by apply pkg_length_read.
Qed.

(** ** Bytes *)

Lemma pkg_length_fits n len : pkg_length n = Ok len -> Forall (fits 8) len.
Proof.
  unfold pkg_length. destruct (pkg_loop _ _) as [bs|] eqn:E; [|done]. intros <-%Ok_inj. revert E. generalize [0; 1; 2; 3].
  induction l as [|k l IH]; cbn [pkg_loop]; [done|]. destruct (checked_add _ _ _) as [t|]; [|done]. destruct (_ <? _); [done|].
  intros <-%(inj Some). unfold pkg_bytes. destruct (k =? 0); [constructor; [by apply wrap_fits|done]|]. constructor.
  - apply lor_fits; [done|by apply wrap_fits|]. destruct (land_low_bound t 4 0x0f) as [? ?]; [done|done|]. unfold fits. lia.
  - apply Forall_fmap, list.Forall_forall. intros i _. by apply wrap_fits.
Qed.

Lemma integer_fits v : Forall (fits 8) (integer v).
Proof.
  unfold integer. repeat (match goal with |- context [if ?c then _ else _] => destruct c end); try (by apply all_bytes_fits);
    (constructor; [fits_closed|]); try apply le_bytes_fits. constructor; [by apply wrap_fits|done].
Qed.

Lemma is_upper_fits b : is_upper b = true -> fits 8 b.
Proof. unfold is_upper, fits. intros [H1 H2]%andb_true_iff. lia. Qed.

Lemma name_seg_fits s n : name_seg s = Ok n -> Forall (fits 8) n.
Proof.
  unfold name_seg. destruct (_ && forallb _ s) eqn:E; [|done]. intros <-%Ok_inj. apply andb_true_iff in E as [_ E].
  apply Forall_app. split; [|apply list.Forall_replicate; fits_closed]. rewrite forallb_forall in E. apply list.Forall_forall. intros b Hb.
  apply list_elem_of_In, E in Hb. unfold lead_ok, is_upper, is_digit, fits in *. lia.
Qed.

Lemma map_result_Forall {E A B} (f : A -> result E B) (P : B -> Prop) l ys :
  (forall x y, f x = Ok y -> P y) -> map_result f l = Ok ys -> Forall P ys.
Proof.
  intros Hf. revert ys. induction l as [|x l IH]; intros ys; cbn [map_result]; [by intros <-%Ok_inj|].
  intros (y & Ey & H)%bind_Ok. apply bind_Ok in H as (zs & Ez & H). apply Ok_inj in H as <-. constructor; eauto.
Qed.

Lemma join_fits ls : Forall (Forall (fits 8)) ls -> Forall (fits 8) (mjoin ls).
Proof. induction 1; cbn; [done|]. by apply Forall_app. Qed.

Lemma name_string_fits p n : name_string p = Ok n -> Forall (fits 8) n.
Proof.
  assert (Hpp : forall q, Forall (fits 8) (parent_prefixes q).1).
  { induction q as [|c q IH]; cbn; [done|]. destruct (c =? 94); [|done]. destruct (parent_prefixes q). constructor; [fits_closed|done]. }
  unfold name_string. destruct (name_prefix p) as [out rest] eqn:Ep. assert (Ho : Forall (fits 8) out).
  { unfold name_prefix in Ep. destruct p as [|c p]; [by injection Ep as <- _|]. destruct (c =? 92); [injection Ep as <- _; by apply all_bytes_fits|].
    specialize (Hpp (c :: p)). by rewrite Ep in Hpp. }
  case_bool_decide; [case_bool_decide; [done|]; intros <-%Ok_inj; apply Forall_app; split; [done|by apply all_bytes_fits]|].
  intros (segs & Es & H1)%bind_Ok. apply bind_Ok in H1 as (pre & Epre & H1). apply Ok_inj in H1 as <-. rewrite !Forall_app. split; [done|].
  split; [|apply join_fits; eapply map_result_Forall; [|exact Es]; apply name_seg_fits].
  case_bool_decide; [by apply Ok_inj in Epre as <-|]. case_bool_decide; [apply Ok_inj in Epre as <-; by apply all_bytes_fits|].
  case_bool_decide; [done|]. apply Ok_inj in Epre as <-. constructor; [fits_closed|]. constructor; [unfold fits; lia|done].
Qed.

Ltac bind_inv H :=
  let x := fresh "x" in let E := fresh "E" in
  apply bind_Ok in H as (x & E & H).

Lemma named_package_fits op path content t :
  Forall (fits 8) op -> Forall (fits 8) content -> named_package op path content = Ok t -> Forall (fits 8) t.
Proof.
  intros Ho Hc H. unfold named_package in H. do 2 bind_inv H. apply Ok_inj in H as <-. rewrite !Forall_app.
  split_and!; [done|by eapply pkg_length_fits|by eapply name_string_fits|done].
Qed.

Lemma device_fits path content t : Forall (fits 8) content -> device path content = Ok t -> Forall (fits 8) t.
Proof. intros Hc. apply named_package_fits; [by apply all_bytes_fits|done]. Qed.

Lemma name_fits path v t : Forall (fits 8) v -> name path v = Ok t -> Forall (fits 8) t.
Proof.
  intros Hv H. unfold name in H. bind_inv H. apply Ok_inj in H as <-. rewrite !Forall_app. split_and!; [by apply all_bytes_fits|by eapply name_string_fits|done].
Qed.

Lemma eisa_id_fits id t : eisa_id id = Ok t -> Forall (fits 8) t.
Proof. intros H. unfold eisa_id in H. bind_inv H. apply Ok_inj in H as <-. apply integer_fits. Qed.

Lemma package_fits es t : Forall (Forall (fits 8)) es -> package es = Ok t -> Forall (fits 8) t.
Proof.
  intros He H. unfold package in H. case_bool_decide; [done|]. cbv zeta in H. bind_inv H. apply Ok_inj in H as <-. rewrite !Forall_app.
  split_and!; [by apply all_bytes_fits|by eapply pkg_length_fits|constructor; [unfold fits; lia|done]|by apply join_fits].
Qed.

Lemma buffer_fits bs t : Forall (fits 8) bs -> buffer bs = Ok t -> Forall (fits 8) t.
Proof.
  intros Hb H. unfold buffer in H. cbv zeta in H. bind_inv H. apply Ok_inj in H as <-. rewrite !Forall_app.
  split_and!; [by apply all_bytes_fits|by eapply pkg_length_fits|apply integer_fits|done].
Qed.

Lemma template_fits ds t : Forall (Forall (fits 8)) ds -> resource_template ds = Ok t -> Forall (fits 8) t.
Proof. intros Hd. apply buffer_fits. apply Forall_app. split; [by apply join_fits|by apply all_bytes_fits]. Qed.

Lemma aml_string_fits s t : aml_string s = Ok t -> Forall (fits 8) t.
Proof.
  unfold aml_string. destruct (forallb _ s) eqn:E; [|done]. intros <-%Ok_inj. rewrite !Forall_app. rewrite forallb_forall in E.
  split_and!; [by apply all_bytes_fits| |by apply all_bytes_fits]. apply list.Forall_forall. intros b Hb. apply list_elem_of_In, E in Hb. unfold fits. lia.
Qed.

Lemma words_fits n vs : Forall (fits 8) (mjoin (le_bytes n <$> vs)).
Proof. apply join_fits, Forall_fmap, list.Forall_forall. intros v _. apply le_bytes_fits. Qed.

Lemma aml_descriptor_fits t :
  (exists a b, word_bus_number a b = Ok t) \/ (exists u a b, dword_memory u a b = Ok t) \/ (exists a b, memory32_fixed a b = Ok t) \/
  (exists g, extended_interrupt g = Ok t) -> Forall (fits 8) t.
Proof.
  intros [(a & b & H)|[(u & a & b & H)|[(a & b & H)|(g & H)]]].
  - unfold word_bus_number in H. destruct (_ <? _); [done|]. destruct (_ <=? _); [done|]. apply Ok_inj in H as <-.
    apply Forall_app. split; [by apply all_bytes_fits|apply words_fits].
  - unfold dword_memory in H. destruct (checked_add _ _ _); [|done]. destruct (_ =? 0); [done|]. destruct (_ || _); [done|].
    destruct (_ =? 0); [done|]. apply Ok_inj in H as <-. apply Forall_app. split; [destruct u; by apply all_bytes_fits|apply words_fits].
  - unfold memory32_fixed in H. destruct (checked_add _ _ _); [|done]. destruct (_ || _); [done|]. destruct (_ =? 0); [done|].
    apply Ok_inj in H as <-. rewrite !Forall_app. split_and!; [by apply all_bytes_fits|apply le_bytes_fits|apply le_bytes_fits].
  - apply Ok_inj in H as <-. repeat (constructor; [first [fits_closed | (rewrite (land_low _ 8) by done; by apply wrap_fits)]|]). done.
Qed.


Lemma res0_fits c t : res0 c = Ok t -> Forall (fits 8) t.
Proof.
  unfold res0. cbv zeta. intros H. do 5 bind_inv H. eapply device_fits; [|exact H]. apply Forall_app. split.
  - eapply name_fits; [|done]. by eapply eisa_id_fits.
  - eapply name_fits; [|done]. eapply template_fits; [|done]. constructor; [|done]. apply aml_descriptor_fits. eauto 6.
Qed.

Lemma pci_root_fits c t : pci_root c = Ok t -> Forall (fits 8) t.
Proof.
  unfold pci_root. cbv zeta. intros H. do 16 bind_inv H.
  eapply device_fits; [|exact H]. apply join_fits.
  assert (Hcrs : Forall (fits 8) x2) by (eapply template_fits; [|done]; repeat (constructor; [apply aml_descriptor_fits; eauto 6|]); done).
  assert (Hprt : Forall (fits 8) x12).
  { eapply package_fits; [|done]. eapply map_result_Forall; [|exact E]. intros r y Hr. eapply package_fits; [|exact Hr].
    repeat (constructor; [apply integer_fits|]). done. }
  unfold named in *. repeat (constructor; [try (eapply name_fits; [|eassumption]); eauto using eisa_id_fits, integer_fits, res0_fits|]). done.
Qed.

Lemma dsdt_body_fits c b : dsdt_body c = Ok b -> Forall (fits 8) b.
Proof.
  unfold dsdt_body. intros H. do 3 bind_inv H. eapply (named_package_fits [SCOPE_OP]); [by apply all_bytes_fits| |exact H]. rewrite !Forall_app.
  split; [by eapply pci_root_fits|]. split.
  - destruct (ac_usb c) as [u|]; [|by apply Ok_inj in E0 as <-]. unfold xhci_device in E0. do 7 bind_inv E0. eapply device_fits; [|exact E0].
    apply join_fits. unfold named in *. repeat (constructor; [eapply name_fits; [|eassumption]; eauto using aml_string_fits, integer_fits|]); [|done].
    eapply template_fits; [|eassumption]. repeat (constructor; [apply aml_descriptor_fits; eauto 6|]). done.
  - destruct (ac_tpm c) as [u|]; [|by apply Ok_inj in E1 as <-]. unfold tpm_device in E1. do 6 bind_inv E1. eapply device_fits; [|exact E1].
    apply join_fits. unfold named in *. repeat (constructor; [eapply name_fits; [|eassumption]; eauto using aml_string_fits, integer_fits|]); [|done].
    eapply template_fits; [|eassumption]. repeat (constructor; [apply aml_descriptor_fits; eauto 6|]). done.
Qed.

Lemma dsdt_built c t : dsdt c = Ok t -> exists b, dsdt_body c = Ok b /\ built t DSDT_SIGNATURE b.
Proof.
  unfold dsdt. intros (b & Eb & Ht)%bind_Ok. exists b. split; [done|].
  eapply table_built; [..|exact Ht]; [done|by apply all_bytes_fits|fits_closed|by eapply dsdt_body_fits].
Qed.
