(* ===== verification/AcpiBuild.v ===== *)
(** * Laying out, writing, reading back and checking the ACPI tables

    Model of [ternvale-acpi/src/tables.rs], [dump.rs] and [verify.rs], and of
    [write_config] and [dump_tables] of [ternvale-vmm/src/acpi.rs], over any guest
    memory ([ByteMemory]).  A signature is its bytes. *)

From stdpp Require Import list strings.
From S2P Require Import Prelude FwCfg GuestMemory PciIntx AcpiSdt AcpiLeaf AcpiAml.

(** ** Layout ([tables.rs]) *)

Definition SIGNATURES : list (list Z) :=
  ascii_bytes <$> ["RSD PTR "; "XSDT"; "FACP"; "DSDT"; "APIC"; "GTDT"; "MCFG"; "SPCR"; "DBG2"; "TPM2"]%string.

Definition has_tpm (c : AcpiConfig) : bool := match ac_tpm c with Some _ => true | None => false end.

Definition signatures (c : AcpiConfig) : list (list Z) :=
  List.filter (fun s => has_tpm c || negb (bool_decide (s = TPM2_SIGNATURE))) SIGNATURES.

Definition TABLE_ALIGN : Z := 8.
Definition BASE_ALIGN : Z := 16.

Record Table := { tb_signature : list Z; tb_gpa : Z; tb_bytes : list Z }.
Record AcpiTables := { at_base : Z; at_tables : list Table }.

(** The table's checksum byte. *)
Definition table_checksum (t : Table) : Z :=
  let offset := if bool_decide (tb_signature t = RSDP_SIGNATURE) then RSDP_CHECKSUM_OFFSET else SDT_CHECKSUM_OFFSET in
  default 0 (tb_bytes t !! offset).

(** The next table's address after [len] bytes at [gpa]. *)
Definition after (base gpa : Z) (len : nat) : result AcpiError Z :=
  end_ ← ok_or (checked_add 64 gpa (Z.of_nat len)) (AddressOverflow base);
  let up := (end_ + 7) / TABLE_ALIGN * TABLE_ALIGN in
  if 2 ^ 64 <=? up then Err (AddressOverflow base) else Ok up.

(** Addresses of the leaves after the table of [len] bytes at [next]; also the
    end of the last one. *)
Fixpoint leaf_gpas (base next : Z) (len : nat) (leaves : list (list Z * list Z)) : result AcpiError (list Z * Z) :=
  match leaves with
  | [] => end_ ← ok_or (checked_add 64 next (Z.of_nat len)) (AddressOverflow base); Ok ([], end_)
  | (_, bytes) :: leaves =>
      gpa ← after base next len;
      rest ← leaf_gpas base gpa (length bytes) leaves;
      Ok (gpa :: rest.1, rest.2)
  end.

Definition build_leaves (c : AcpiConfig) : result AcpiError (list (list Z * list Z)) :=
  apic ← madt c;
  gt ← gtdt (ac_timer c);
  mc ← mcfg (ac_ecam c);
  sp ← spcr (ac_uart c);
  db ← dbg2 (ac_uart c);
  tpm ← match ac_tpm c with Some t => bs ← tpm2 t; Ok [(TPM2_SIGNATURE, bs)] | None => Ok [] end;
  Ok ([(MADT_SIGNATURE, apic); (GTDT_SIGNATURE, gt); (MCFG_SIGNATURE, mc); (SPCR_SIGNATURE, sp); (DBG2_SIGNATURE, db)] ++ tpm).

Definition leaf_tables (leaves : list (list Z * list Z)) (gpas : list Z) : list Table :=
  zip_with (fun l gpa => {| tb_signature := l.1; tb_gpa := gpa; tb_bytes := l.2 |}) leaves gpas.

Definition build (base size : Z) (c : AcpiConfig) : result AcpiError AcpiTables :=
  if negb (base mod BASE_ALIGN =? 0) then Err (Misaligned base)
  else
    _ ← validate c;
    leaves ← build_leaves c;
    ds ← dsdt c;
    xsdt_gpa ← after base base RSDP_LEN;
    fadt_gpa ← after base xsdt_gpa (xsdt_len (1 + length leaves));
    dsdt_gpa ← after base fadt_gpa FADT_LEN;
    placed ← leaf_gpas base dsdt_gpa (length ds) leaves;
    let '(gpas, end_) := placed in
    let need := end_ - base in
    if size <? need then Err (RegionTooSmall base need size)
    else
      xs ← xsdt (fadt_gpa :: gpas);
      fa ← fadt dsdt_gpa (ac_conduit c);
      Ok {| at_base := base;
            at_tables := [{| tb_signature := RSDP_SIGNATURE; tb_gpa := base; tb_bytes := rsdp xsdt_gpa |};
                          {| tb_signature := XSDT_SIGNATURE; tb_gpa := xsdt_gpa; tb_bytes := xs |};
                          {| tb_signature := FADT_SIGNATURE; tb_gpa := fadt_gpa; tb_bytes := fa |};
                          {| tb_signature := DSDT_SIGNATURE; tb_gpa := dsdt_gpa; tb_bytes := ds |}]
                         ++ leaf_tables leaves gpas |}.

Definition rsdp_gpa (t : AcpiTables) : Z := at_base t.
Definition used_bytes (t : AcpiTables) : Z :=
  match list.last (at_tables t) with Some l => tb_gpa l + Z.of_nat (length (tb_bytes l)) - at_base t | None => 0 end.

(** ** Reading back ([dump.rs]) *)

Definition MAX_TABLE_LEN : Z := Z.shiftl 1 20.
Definition MAX_XSDT_ENTRIES : nat := 64.
Definition RSDP_REVISION_OFFSET : nat := 15.

Definition is_rsdp (t : Table) : bool := bool_decide (tb_signature t = RSDP_SIGNATURE).
Definition revision (t : Table) : Z := default 0 (tb_bytes t !! (if is_rsdp t then RSDP_REVISION_OFFSET else 8%nat)).
Definition checksum_ok (t : Table) : bool :=
  if is_rsdp t then bool_decide (length (tb_bytes t) = RSDP_LEN) && rsdp_checksums_ok (tb_bytes t)
  else byte_sum (tb_bytes t) =? 0.

Definition read_exact (read : Z -> nat -> option (list Z)) (what : list Z) (gpa : Z) (len : nat) : result AcpiError (list Z) :=
  match read gpa len with
  | None => Err (Read what gpa)
  | Some bytes => if bool_decide (length bytes = len) then Ok bytes else Err (BadTable what gpa)
  end.

Definition RSDP_NAME : list Z := ascii_bytes "RSDP".
Definition HEADER_NAME : list Z := ascii_bytes "table header".

Definition read_sdt (read : Z -> nat -> option (list Z)) (gpa : Z) : result AcpiError Table :=
  raw ← read_exact read HEADER_NAME gpa SDT_HEADER_LEN;
  header ← header_parse raw;
  if (sh_length header <? Z.of_nat SDT_HEADER_LEN) || (MAX_TABLE_LEN <? sh_length header) then Err (BadTable (sh_signature header) gpa)
  else
    bytes ← read_exact read (sh_signature header) gpa (Z.to_nat (sh_length header));
    Ok {| tb_signature := sh_signature header; tb_gpa := gpa; tb_bytes := bytes |}.

(** [chunks_exact(8)], as integers. *)
Fixpoint chunks8 (fuel : nat) (l : list Z) : list Z :=
  match fuel with
  | O => []
  | S fuel => if bool_decide (8 <= length l)%nat then of_le (take 8 l) :: chunks8 fuel (drop 8 l) else []
  end.

Definition nonzero (v : Z) : option Z := if v =? 0 then None else Some v.

Definition fadt_dsdt (t : Table) : option Z :=
  match (v ← slice (tb_bytes t) X_DSDT_OFFSET 8; nonzero (of_le v)) with
  | Some gpa => Some gpa
  | None => v ← slice (tb_bytes t) DSDT_OFFSET 4; nonzero (of_le v)
  end.

Fixpoint walk_entries (read : Z -> nat -> option (list Z)) (entries : list Z) (tables : list Table) : result AcpiError (list Table) :=
  match entries with
  | [] => Ok tables
  | gpa :: entries =>
      if gpa =? 0 then walk_entries read entries tables
      else
        t ← read_sdt read gpa;
        let tables := tables ++ [t] in
        let dsdt := if bool_decide (tb_signature t = FADT_SIGNATURE) then fadt_dsdt t else None in
        match dsdt with
        | Some d =>
            if forallb (fun t => negb (tb_gpa t =? d)) tables
            then dt ← read_sdt read d; walk_entries read entries (tables ++ [dt])
            else walk_entries read entries tables
        | None => walk_entries read entries tables
        end
  end.

Definition walk (read : Z -> nat -> option (list Z)) (rsdp_gpa : Z) : result AcpiError (list Table) :=
  rsdp ← read_exact read RSDP_NAME rsdp_gpa RSDP_LEN;
  if negb (bool_decide (take 8 rsdp = RSDP_SIGNATURE)) then Err (BadTable RSDP_NAME rsdp_gpa)
  else if negb (rsdp_checksums_ok rsdp) then Err (BadTable RSDP_NAME rsdp_gpa)
  else if of_le (sub rsdp RSDP_REVISION_OFFSET 1) <? 2 then Err (BadTable RSDP_NAME rsdp_gpa)
  else
    let xsdt_gpa := of_le (sub rsdp RSDP_XSDT_OFFSET 8) in
    if xsdt_gpa =? 0 then Err (BadTable RSDP_NAME rsdp_gpa)
    else
      xsdt ← read_sdt read xsdt_gpa;
      if negb (bool_decide (tb_signature xsdt = XSDT_SIGNATURE)) then Err (BadTable XSDT_SIGNATURE xsdt_gpa)
      else
        let entries := chunks8 (length (tb_bytes xsdt)) (drop SDT_HEADER_LEN (tb_bytes xsdt)) in
        if bool_decide (MAX_XSDT_ENTRIES < length entries)%nat then Err (BadTable XSDT_SIGNATURE xsdt_gpa)
        else walk_entries read entries [{| tb_signature := RSDP_SIGNATURE; tb_gpa := rsdp_gpa; tb_bytes := rsdp |}; xsdt].

(** The root pointers of an image that starts at [base]: [at_] runs over its offsets. *)
Fixpoint find_rsdp_from (image : list Z) (at_ : Z) : list Z :=
  match image with
  | [] => []
  | _ :: image' =>
      let rest := find_rsdp_from image' (at_ + 1) in
      if bool_decide (take 8 image = RSDP_SIGNATURE) && bool_decide (RSDP_LEN <= length image)%nat
         && rsdp_checksums_ok (take RSDP_LEN image)
      then at_ :: rest else rest
  end.
Definition find_rsdp (image : list Z) (base : Z) : list Z := find_rsdp_from image base.

Definition image_read (image : list Z) (base gpa : Z) (len : nat) : option (list Z) :=
  if gpa <? base then None else slice image (Z.to_nat (gpa - base)) len.

Definition walk_image (image : list Z) (base : Z) : result AcpiError (list Table) :=
  match find_map (fun rsdp => match walk (image_read image base) rsdp with Ok ts => Some ts | Err _ => None end) (find_rsdp image base) with
  | Some ts => Ok ts
  | None => Err (NoRsdp base (Z.of_nat (length image)))
  end.

(** ** Checking ([verify.rs]) *)

Definition table_bytes (tables : list Table) (signature : list Z) : option (list Z) :=
  find_map (fun t => if bool_decide (tb_signature t = signature) then Some (tb_bytes t) else None) tables.

(** The check of one table, where it is present: what it decodes to. *)
Definition check {A} (bytes : option (list Z)) (decode : list Z -> result AcpiError A) (agrees : A -> bool) : bool :=
  match bytes with
  | None => true
  | Some b => match decode b with Ok a => agrees a | Err _ => false end
  end.

Definition count (s : list Z) (l : list (list Z)) : nat := length (List.filter (fun x => bool_decide (x = s)) l).

(** Two lists are equal once sorted. *)
Definition same_sorted (want have : list (list Z)) : bool :=
  forallb (fun s => bool_decide (count s want = count s have)) (want ++ have).

#[export] Instance Gas_eq_dec : EqDecision Gas.
Proof. solve_decision. Defined.

Definition gicc_agrees (p : nat * (GiccInfo * Z)) : bool :=
  (gi_uid p.2.1 =? wrap 32 (Z.of_nat p.1)) && (gi_mpidr p.2.1 =? p.2.2) && (gi_flags p.2.1 =? GICC_ENABLED) && (gi_gicr_base p.2.1 =? 0).

Definition madt_agrees (c : AcpiConfig) (m : MadtInfo) : bool :=
  bool_decide (mi_gicds m = [(gc_dist_base (ac_gic c), GIC_VERSION_3)])
  && bool_decide (mi_gicrs m = [(gc_redist_base (ac_gic c), gc_redist_len (ac_gic c))])
  && bool_decide (length (mi_giccs m) = length (ac_mpidrs c))
  && forallb gicc_agrees (imap (fun i p => (i, p)) (zip (mi_giccs m) (ac_mpidrs c))).

Definition gtdt_agrees (c : AcpiConfig) (g : GtdtInfo) : bool :=
  bool_decide (gt_gsivs g = ppi_gsiv <$> tc_ppis (ac_timer c))
  && bool_decide (((fun f => negb (Z.land f TIMER_ALWAYS_ON =? 0)) <$> gt_flags g) = replicate 4 (tc_always_on (ac_timer c)))
  && bool_decide (((fun f => Z.land f 3) <$> gt_flags g) = replicate 4 0).

Definition mcfg_agrees (c : AcpiConfig) (l : list McfgAllocation) : bool :=
  bool_decide (((fun a => (add_w 64 (ma_base a) (Z.shiftl (ma_start_bus a) 20), ma_segment a, ma_start_bus a, ma_end_bus a)) <$> l)
               = [(ec_base (ac_ecam c), 0, ec_start_bus (ac_ecam c), ec_end_bus (ac_ecam c))]).

Definition spcr_agrees (c : AcpiConfig) (s : SpcrInfo) : bool :=
  (si_interface_type s =? INTERFACE_PL011) && bool_decide (si_base s = gas_mmio32 (uc_base (ac_uart c)))
  && (si_interrupt_type s =? INTERRUPT_TYPE_GIC) && (si_gsiv s =? spi_gsiv (uc_spi (ac_uart c))).

Definition dbg2_agrees (c : AcpiConfig) (l : list Dbg2Device) : bool :=
  bool_decide (((fun d => (db_port_type d, db_subtype d, db_base d, db_size d)) <$> l)
               = [(PORT_SERIAL, SUBTYPE_PL011, gas_mmio32 (uc_base (ac_uart c)), uc_len (ac_uart c))]).

Definition tpm2_agrees (c : AcpiConfig) (i : Tpm2Info) : bool :=
  match ac_tpm c with
  | Some t => (ti_platform_class i =? PLATFORM_CLIENT) && (ti_control_area i =? tp_control_area t) && (ti_start_method i =? START_METHOD_CRB)
  | None => true
  end.

(** The position of the first difference. *)
Fixpoint first_difference (a b : list Z) : option nat :=
  match a, b with
  | x :: a, y :: b => if x =? y then S <$> first_difference a b else Some 0%nat
  | [], [] => None
  | _, _ => Some 0%nat
  end.

Definition dsdt_agrees (c : AcpiConfig) (found : list Z) : bool :=
  match dsdt c with
  | Err _ => false
  | Ok want => bool_decide (first_difference (drop SDT_HEADER_LEN want) (drop SDT_HEADER_LEN found) = None)
               && bool_decide (first_difference want found = None)
  end.

Definition verify (tables : list Table) (c : AcpiConfig) : result AcpiError unit :=
  let bytes := table_bytes tables in
  if same_sorted (signatures c) (tb_signature <$> tables)
     && forallb checksum_ok tables
     && check (bytes MADT_SIGNATURE) decode_madt (madt_agrees c)
     && check (bytes GTDT_SIGNATURE) decode_gtdt (gtdt_agrees c)
     && check (bytes MCFG_SIGNATURE) decode_mcfg (mcfg_agrees c)
     && check (bytes DSDT_SIGNATURE) Ok (dsdt_agrees c)
     && check (bytes SPCR_SIGNATURE) decode_spcr (spcr_agrees c)
     && check (bytes DBG2_SIGNATURE) decode_dbg2 (dbg2_agrees c)
     && check (bytes TPM2_SIGNATURE) decode_tpm2 (tpm2_agrees c)
  then Ok tt else Err Drift.

(** ** Guest memory ([tables.rs] [write], [ternvale-vmm/src/acpi.rs]) *)

Section Install.
Context {M : Type} `{ByteMemory M}.

Fixpoint write (tables : list Table) (m : M) : result AcpiError M :=
  match tables with
  | [] => Ok m
  | t :: tables =>
      match bm_write m (tb_gpa t) (tb_bytes t) with
      | Ok m => write tables m
      | Err _ => Err (Write (tb_signature t) (tb_gpa t))
      end
  end.

Definition guest_read (m : M) (gpa : Z) (len : nat) : option (list Z) :=
  match bm_read m gpa len with Ok bytes => Some bytes | Err _ => None end.

Definition write_config (base size : Z) (c : AcpiConfig) (m : M) : result AcpiError (AcpiTables * M) :=
  tables ← build base size c;
  m ← write (at_tables tables) m;
  Ok (tables, m).

Definition dump_tables (base : Z) (m : M) : result AcpiError (list Table) := walk (guest_read m) base.

End Install.

(** ** The layout *)

(** Tables that follow one another in [lo .. hi). *)
Fixpoint laid (lo : Z) (ts : list Table) (hi : Z) : Prop :=
  match ts with
  | [] => lo <= hi
  | t :: ts => lo <= tb_gpa t /\ tb_bytes t <> [] /\ Forall (fits 8) (tb_bytes t) /\ laid (tb_gpa t + Z.of_nat (length (tb_bytes t))) ts hi
  end.

Lemma laid_le lo ts hi : laid lo ts hi -> lo <= hi.
Proof. revert lo. induction ts as [|t ts IH]; intros lo; [done|]. intros (? & _ & _ & H%IH). lia. Qed.

Lemma laid_weaken lo lo' ts hi : lo' <= lo -> laid lo ts hi -> laid lo' ts hi.
Proof. destruct ts; cbn; [lia|]. intros ? (? & ?). split; [lia|done]. Qed.

Lemma laid_In lo ts hi t : laid lo ts hi -> t ∈ ts -> lo <= tb_gpa t /\ tb_gpa t + Z.of_nat (length (tb_bytes t)) <= hi /\ tb_bytes t <> [].
Proof.
  revert lo. induction ts as [|u ts IH]; intros lo; [by intros _ ?%not_elem_of_nil|]. intros (H1 & H2 & H3 & H4) [->|Ht]%elem_of_cons.
  - split_and!; [done|by eapply laid_le|done].
  - destruct (IH _ H4 Ht) as (? & ? & ?). split_and!; [lia|done|done].
Qed.

Lemma after_spec base gpa len next :
  0 <= gpa -> after base gpa len = Ok next ->
  gpa + Z.of_nat len <= next < gpa + Z.of_nat len + 8 /\ next mod TABLE_ALIGN = 0 /\ fits 64 next.
Proof.
  intros Hg. unfold after, TABLE_ALIGN. intros (end_ & He & H)%bind_Ok.
  destruct (checked_add 64 gpa (Z.of_nat len)) as [e|] eqn:Ec; [|done]. apply Ok_inj in He as <-. apply checked_add_Some in Ec as [-> He].
  cbv zeta in H. destruct (Z.leb_spec (2 ^ 64) ((gpa + Z.of_nat len + 7) / 8 * 8)); [done|]. apply Ok_inj in H as <-.
  pose proof (Z.div_mod (gpa + Z.of_nat len + 7) 8 ltac:(done)). pose proof (Z.mod_pos_bound (gpa + Z.of_nat len + 7) 8 ltac:(done)).
  split_and!; [lia|lia|by rewrite Z.mod_mul|unfold fits; lia].
Qed.

Definition leaf_ok (l : list Z * list Z) : Prop := l.2 <> [] /\ Forall (fits 8) l.2.

Lemma leaf_gpas_spec base next len leaves gpas end_ :
  0 <= next -> Forall leaf_ok leaves -> leaf_gpas base next len leaves = Ok (gpas, end_) ->
  length gpas = length leaves /\ laid (next + Z.of_nat len) (leaf_tables leaves gpas) end_ /\
  Forall (fun g => g mod TABLE_ALIGN = 0 /\ fits 64 g /\ next + Z.of_nat len <= g) gpas.
Proof.
  revert next len gpas end_. induction leaves as [|[s bs] leaves IH]; intros next len gpas end_ Hn Hl; cbn [leaf_gpas].
  - intros (e & He & H)%bind_Ok. destruct (checked_add 64 next (Z.of_nat len)) as [e'|] eqn:Ec; [|done]. apply Ok_inj in He as <-.
    apply checked_add_Some in Ec as [-> ?]. apply Ok_inj in H as [= <- <-]. split_and!; [done|cbn; lia|constructor].
  - intros (g & Hg & (r & Hr & H)%bind_Ok)%bind_Ok. apply Ok_inj in H as [= <- <-]. destruct r as [gs e]. cbn [fst snd].
    destruct (after_spec _ _ _ _ Hn Hg) as (Hb & Ha & Hf). apply list.Forall_cons in Hl as [[Hne Hbf] Hl]. cbn [snd] in *.
    destruct (IH g (length bs) gs e ltac:(lia) Hl Hr) as (IH1 & IH2 & IH3). split_and!; [cbn; lia| |].
    + unfold leaf_tables. cbn [zip_with laid tb_gpa tb_bytes snd]. split_and!; [lia|done|done|exact IH2].
    + constructor; [split_and!; [done|apply Hf|lia]|]. eapply list.Forall_impl; [exact IH3|]. cbn. intros ? (? & ? & ?). split_and!; try done; lia.
Qed.

(** ** Built tables *)

Lemma fadt_built gpa conduit t :
  fits 64 gpa -> fadt gpa conduit = Ok t -> built t FADT_SIGNATURE (fadt_body gpa conduit) /\ length t = FADT_LEN /\
  (gpa <> 0 -> fadt_dsdt {| tb_signature := FADT_SIGNATURE; tb_gpa := 0; tb_bytes := t |} = Some gpa).
Proof.
  intros Hg Ht. assert (Hb : built t FADT_SIGNATURE (fadt_body gpa conduit)).
  { eapply table_built; [..|exact Ht]; [done|by apply all_bytes_fits|fits_closed|]. unfold fadt_body. body_fits. }
  split; [done|]. assert (Hl : length t = FADT_LEN) by (rewrite (bu_length _ _ _ Hb); reflexivity). split; [done|]. intros Hne.
  unfold fadt_dsdt. cbn [tb_bytes]. rewrite slice_Some by (rewrite Hl; unfold X_DSDT_OFFSET, FADT_LEN; lia).
  cbn [mbind option_bind]. change (take 8 (drop X_DSDT_OFFSET t)) with (sub t (SDT_HEADER_LEN + 104) 8). rewrite (built_sub _ _ _ _ _ Hb).
  change (sub (fadt_body gpa conduit) 104 8) with (le_bytes 8 gpa). rewrite of_le_le_bytes_fits by done. unfold nonzero.
  by destruct (Z.eqb_spec gpa 0).
Qed.

Lemma chunks8_words vs fuel : Forall (fits 64) vs -> (length vs <= fuel)%nat -> chunks8 fuel (mjoin (le_bytes 8 <$> vs)) = vs.
Proof.
  revert fuel. induction vs as [|v vs IH]; intros fuel Hf Hl; [by destruct fuel|]. destruct fuel as [|fuel]; [cbn in Hl; lia|].
  apply list.Forall_cons in Hf as [Hv Hf]. cbn [fmap list_fmap mjoin list_join chunks8].
  rewrite bool_decide_eq_true_2 by (rewrite length_app, length_le_bytes; lia).
  rewrite take_app_length', drop_app_length' by by rewrite length_le_bytes. rewrite of_le_le_bytes_fits by done. f_equal. apply IH; [done|]. cbn in Hl. lia.
Qed.

Lemma length_le_words n vs : length (mjoin (le_bytes n <$> vs)) = (length vs * n)%nat.
Proof. induction vs as [|v vs IH]; [done|]. change (length (le_bytes n v ++ mjoin (le_bytes n <$> vs)) = (S (length vs) * n)%nat). rewrite length_app, length_le_bytes, IH. lia. Qed.

Lemma xsdt_built entries t :
  xsdt entries = Ok t -> built t XSDT_SIGNATURE (mjoin (le_bytes 8 <$> entries)) /\ length t = xsdt_len (length entries).
Proof.
  intros Ht. assert (Hb : built t XSDT_SIGNATURE (mjoin (le_bytes 8 <$> entries))).
  { eapply table_built; [..|exact Ht]; [done|by apply all_bytes_fits|fits_closed|]. apply words_fits. }
  split; [done|]. by rewrite (bu_length _ _ _ Hb), length_le_words.
Qed.

Definition leaf_built (l : list Z * list Z) : Prop := exists b, built l.2 l.1 b.

Lemma built_nonempty t sig b : built t sig b -> t <> [] /\ (SDT_HEADER_LEN <= length t)%nat.
Proof. intros H. pose proof (bu_length _ _ _ H). split; [|lia]. intros ->. unfold SDT_HEADER_LEN in *. cbn in *. lia. Qed.

Lemma leaf_built_ok l : leaf_built l -> leaf_ok l.
Proof. intros [b H]. split; [by eapply built_nonempty|apply H]. Qed.

(** What the leaves decode to. *)
Record leaves_read (c : AcpiConfig) (apic gt mc sp db : list Z) (tpm : list (list Z * list Z)) : Prop := {
  lr_madt : decode_madt apic = Ok (madt_info c);
  lr_gtdt : decode_gtdt gt = Ok {| gt_gsivs := ppi_gsiv <$> tc_ppis (ac_timer c); gt_flags := replicate 4 (timer_flags (ac_timer c)) |};
  lr_mcfg : exists bus0, bus0 + Z.shiftl (ec_start_bus (ac_ecam c)) 20 = ec_base (ac_ecam c) /\
    decode_mcfg mc = Ok [{| ma_base := bus0; ma_segment := 0; ma_start_bus := ec_start_bus (ac_ecam c); ma_end_bus := ec_end_bus (ac_ecam c) |}];
  lr_spcr : decode_spcr sp = Ok {| si_interface_type := INTERFACE_PL011; si_base := gas_mmio32 (uc_base (ac_uart c));
                                   si_interrupt_type := INTERRUPT_TYPE_GIC; si_gsiv := spi_gsiv (uc_spi (ac_uart c)) |};
  lr_dbg2 : decode_dbg2 db = Ok [{| db_port_type := PORT_SERIAL; db_subtype := SUBTYPE_PL011; db_base := gas_mmio32 (uc_base (ac_uart c));
                                    db_size := uc_len (ac_uart c) |}];
  lr_tpm : match ac_tpm c with
           | None => tpm = []
           | Some t => exists bs, tpm = [(TPM2_SIGNATURE, bs)] /\
               decode_tpm2 bs = Ok {| ti_platform_class := PLATFORM_CLIENT; ti_control_area := tp_control_area t; ti_start_method := START_METHOD_CRB |}
           end;
}.

Lemma build_leaves_spec c leaves :
  config_ok c -> build_leaves c = Ok leaves ->
  Forall leaf_built leaves /\
  exists apic gt mc sp db tpm,
    leaves = [(MADT_SIGNATURE, apic); (GTDT_SIGNATURE, gt); (MCFG_SIGNATURE, mc); (SPCR_SIGNATURE, sp); (DBG2_SIGNATURE, db)] ++ tpm /\
    leaves_read c apic gt mc sp db tpm.
Proof.
  intros Hc. unfold build_leaves. intros (apic & Ea & (gt & Eg & (mc & Em & (sp & Es & (db & Ed & (tpm & Et & H)%bind_Ok)%bind_Ok)%bind_Ok)%bind_Ok)%bind_Ok)%bind_Ok.
  apply Ok_inj in H as <-. destruct (co_timer _ Hc) as [Ht1 Ht2], (co_ecam _ Hc) as (He1 & He2 & He3), (co_uart _ Hc) as (Hu1 & Hu2 & Hu3).
  destruct (madt_decoded _ _ Hc Ea) as (ab & Hab & Ha). destruct (gtdt_decoded _ _ Ht1 Ht2 Eg) as (Hgb & Hg).
  destruct (mcfg_decoded _ _ He1 He2 He3 Em) as (bus0 & Hbus & Hmb & Hm). destruct (spcr_decoded _ _ Hu1 Es) as (Hsb & Hs).
  destruct (dbg2_decoded _ _ Hu1 Hu2 Ed) as (Hdb & Hd).
  assert (Htp : Forall leaf_built tpm /\ match ac_tpm c with None => tpm = [] | Some t => exists bs, tpm = [(TPM2_SIGNATURE, bs)] /\
               decode_tpm2 bs = Ok {| ti_platform_class := PLATFORM_CLIENT; ti_control_area := tp_control_area t; ti_start_method := START_METHOD_CRB |} end).
  { destruct (ac_tpm c) as [t|] eqn:Et'; [|apply Ok_inj in Et as <-; by split]. apply bind_Ok in Et as (bs & Eb & H). apply Ok_inj in H as <-.
    destruct (co_tpm _ Hc t Et') as (_ & _ & H3). destruct (tpm2_decoded _ _ H3 Eb) as [Hb1 Hb2]. split; [|by eexists].
    constructor; [by eexists|done]. }
  destruct Htp as [Ht3 Ht4]. split.
  - cbn [app]. repeat (constructor; [by eexists|]). done.
  - exists apic, gt, mc, sp, db, tpm. split; [done|]. split; try done. by eexists.
Qed.

(** The parts of a layout and where they are. *)
Record layout (base size : Z) (c : AcpiConfig) (T : AcpiTables) (xs fa ds : list Z) (xg fg dg : Z) (leaves : list (list Z * list Z)) (gpas : list Z) : Prop := {
  ly_tables : T = {| at_base := base;
                     at_tables := [{| tb_signature := RSDP_SIGNATURE; tb_gpa := base; tb_bytes := rsdp xg |};
                                   {| tb_signature := XSDT_SIGNATURE; tb_gpa := xg; tb_bytes := xs |};
                                   {| tb_signature := FADT_SIGNATURE; tb_gpa := fg; tb_bytes := fa |};
                                   {| tb_signature := DSDT_SIGNATURE; tb_gpa := dg; tb_bytes := ds |}] ++ leaf_tables leaves gpas |};
  ly_leaves : build_leaves c = Ok leaves;
  ly_dsdt : dsdt c = Ok ds;
  ly_xsdt : xsdt (fg :: gpas) = Ok xs;
  ly_fadt : fadt dg (ac_conduit c) = Ok fa;
  ly_gpas : length gpas = length leaves;
  ly_fit : fits 64 xg /\ fits 64 fg /\ fits 64 dg /\ Forall (fits 64) gpas;
  ly_order : base < xg /\ xg < fg /\ fg < dg /\ Forall (fun g => dg < g) gpas;
  ly_aligned : base mod BASE_ALIGN = 0 /\ Forall (fun g => g mod TABLE_ALIGN = 0) (xg :: fg :: dg :: gpas);
  ly_laid : exists end_, laid base (at_tables T) end_ /\ end_ <= base + size;
}.

Lemma build_layout base size c T :
  config_ok c -> fits 64 base -> build base size c = Ok T ->
  exists xs fa ds xg fg dg leaves gpas, layout base size c T xs fa ds xg fg dg leaves gpas.
Proof.
  intros Hc Hbase. unfold build. destruct (Z.eqb_spec (base mod BASE_ALIGN) 0) as [Hal|]; [|done]. cbn [negb].
  intros (? & _ & (leaves & El & (ds & Ed & (xg & Ex & (fg & Ef & (dg & Edg & (p & Ep & H)%bind_Ok)%bind_Ok)%bind_Ok)%bind_Ok)%bind_Ok)%bind_Ok)%bind_Ok.
  destruct p as [gpas end_]. destruct (Z.ltb_spec size (end_ - base)) as [|Hsz]; [done|]. apply bind_Ok in H as (xs & Exs & (fa & Efa & H)%bind_Ok).
  apply Ok_inj in H as <-. destruct (build_leaves_spec _ _ Hc El) as [Hlb _].
  destruct (after_spec _ _ _ _ (proj1 Hbase) Ex) as (Hx & Hxa & Hxf). destruct (after_spec _ _ _ _ (proj1 Hxf) Ef) as (Hf & Hfa & Hff).
  destruct (after_spec _ _ _ _ (proj1 Hff) Edg) as (Hd & Hda & Hdf).
  destruct (leaf_gpas_spec _ _ _ _ _ _ (proj1 Hdf) (list.Forall_impl _ _ _ Hlb leaf_built_ok) Ep) as (Hgl & Hgd & Hgs).
  destruct (xsdt_built _ _ Exs) as [Hxb Hxl]. destruct (fadt_built _ _ _ Hdf Efa) as (Hfb & Hfl & _). destruct (dsdt_built _ _ Ed) as (db & _ & Hdb).
  destruct (rsdp_spec xg Hxf) as (Hrl & Hrf & _). destruct (built_nonempty _ _ _ Hdb) as [Hdn Hdl].
  exists xs, fa, ds, xg, fg, dg, leaves, gpas. unfold RSDP_LEN, xsdt_len, FADT_LEN, SDT_HEADER_LEN in *. split; try done.
  - split; [done|]. split; [done|]. split; [done|]. eapply list.Forall_impl; [exact Hgs|]. by intros ? (? & ? & ?).
  - split; [lia|]. split; [lia|]. split; [lia|]. eapply list.Forall_impl; [exact Hgs|]. cbn. intros ? (? & ? & ?). lia.
  - split; [done|]. do 3 (constructor; [done|]). eapply list.Forall_impl; [exact Hgs|]. by intros ? (? & ? & ?).
  - exists end_. split; [|lia]. cbn [at_tables app laid tb_gpa tb_bytes]. rewrite Hrl, Hxl, Hfl. cbn [length]. rewrite Hgl.
    split; [lia|]. split; [by intros Hr; rewrite Hr in Hrl|]. split; [done|]. split; [lia|]. split; [eapply built_nonempty, Hxb|]. split; [apply Hxb|].
    split; [lia|]. split; [eapply built_nonempty, Hfb|]. split; [apply Hfb|]. split; [lia|]. split; [done|]. split; [apply Hdb|done].
Qed.

(** ** In guest memory *)

Section Memory.
Context {M : Type} `{ByteMemory M}.

(** The memory holds the bytes of a table at its address. *)
Definition holds (m : M) (t : Table) : Prop :=
  0 <= tb_gpa t /\ bm_span m (tb_gpa t) (Z.of_nat (length (tb_bytes t))) /\
  forall i, (i < length (tb_bytes t))%nat -> tb_bytes t !! i = bm_byte m (tb_gpa t + Z.of_nat i).

Lemma write_laid lo hi ts m :
  0 <= lo -> bm_inv m -> laid lo ts hi -> bm_span m lo (hi - lo) ->
  exists m', write ts m = Ok m' /\ bm_inv m' /\ Forall (holds m') ts /\
    (forall x, x < lo \/ hi <= x -> bm_byte m' x = bm_byte m x) /\ (forall x n, bm_span m' x n <-> bm_span m x n).
Proof.
  revert lo m. induction ts as [|t ts IH]; intros lo m Hlo Hinv Hl Hs; [by exists m|].
  destruct Hl as (H1 & Hne & Hf & Hl). pose proof (laid_le _ _ _ Hl) as Hle. set (end_ := tb_gpa t + _) in *.
  assert (Hspan : bm_span m (tb_gpa t) (Z.of_nat (length (tb_bytes t)))) by (eapply bm_span_sub; [exact Hs|lia|lia]).
  destruct (proj2 (bm_write_Ok m (tb_gpa t) (tb_bytes t) Hinv ltac:(lia) Hne) Hspan) as [m1 Hw].
  destruct (bm_write_spec m (tb_gpa t) _ _ Hinv ltac:(lia) Hf Hw) as (Hinv1 & Hb1 & Hs1).
  destruct (IH end_ m1) as (m' & Hw' & Hinv' & Hh & Hfr & Hs'); [lia|done|done| |].
  { apply Hs1. eapply bm_span_sub; [exact Hs|lia|lia]. }
  exists m'. cbn [write]. rewrite Hw. split_and!; [done|done| | |].
  - constructor; [|done]. split; [lia|]. split; [by apply Hs', Hs1|]. intros i Hi. rewrite Hfr by (left; lia). rewrite Hb1.
    rewrite decide_True by lia. f_equal. lia.
  - intros x Hx. rewrite Hfr by lia. rewrite Hb1. rewrite decide_False by lia. done.
  - intros x n. by rewrite Hs', Hs1.
Qed.

Lemma guest_read_prefix m t n :
  bm_inv m -> holds m t -> (0 < n <= length (tb_bytes t))%nat -> guest_read m (tb_gpa t) n = Some (take n (tb_bytes t)).
Proof.
  intros Hinv (H0 & Hs & Hb) Hn. unfold guest_read.
  assert (Hr : bm_read m (tb_gpa t) n = Ok (take n (tb_bytes t))); [|by rewrite Hr].
  apply bm_read_spec; [done|done|lia|]. split; [eapply bm_span_sub; [exact Hs|lia|lia]|]. split; [rewrite length_take; lia|].
  intros i Hi. rewrite lookup_take_lt by lia. apply Hb. lia.
Qed.

Lemma read_exact_prefix m t n what :
  bm_inv m -> holds m t -> (0 < n <= length (tb_bytes t))%nat -> read_exact (guest_read m) what (tb_gpa t) n = Ok (take n (tb_bytes t)).
Proof.
  intros. unfold read_exact. rewrite guest_read_prefix by done. rewrite bool_decide_eq_true_2; [done|]. rewrite length_take. lia.
Qed.

Lemma sub_take {A} (l : list A) k i n : (i + n <= k)%nat -> sub (take k l) i n = sub l i n.
Proof. intros. unfold sub. rewrite !take_drop_commute, take_take. do 2 f_equal. lia. Qed.

Lemma header_parse_take t h : header_parse t = Ok h -> header_parse (take SDT_HEADER_LEN t) = Ok h.
Proof.
  unfold header_parse. rewrite length_take. case_bool_decide as Hl; [done|]. rewrite bool_decide_eq_false_2 by lia. intros <-%Ok_inj.
  unfold SDT_HEADER_LEN, SDT_CHECKSUM_OFFSET. by rewrite !sub_take by lia.
Qed.

Lemma read_sdt_built m t b :
  bm_inv m -> holds m t -> built (tb_bytes t) (tb_signature t) b -> Z.of_nat (length (tb_bytes t)) <= MAX_TABLE_LEN ->
  read_sdt (guest_read m) (tb_gpa t) = Ok t.
Proof.
  intros Hinv Hh Hb Hmax. destruct (built_nonempty _ _ _ Hb) as [Hne Hlen]. destruct (bu_header _ _ _ Hb) as (h & Hp & Hsig & Hl).
  unfold read_sdt. rewrite read_exact_prefix by (done || (unfold SDT_HEADER_LEN in *; lia)). cbn [mbind result_bind].
  rewrite (header_parse_take _ _ Hp). cbn [mbind result_bind]. rewrite Hl.
  destruct (Z.ltb_spec (Z.of_nat (length (tb_bytes t))) (Z.of_nat SDT_HEADER_LEN)); [lia|]. destruct (Z.ltb_spec MAX_TABLE_LEN (Z.of_nat (length (tb_bytes t)))); [lia|].
  cbn [orb]. rewrite Nat2Z.id, read_exact_prefix by (done || (unfold SDT_HEADER_LEN in *; lia)). cbn [mbind result_bind].
  rewrite take_ge by done. rewrite Hsig. by destruct t.
Qed.

Lemma walk_leaves m leaves gpas acc :
  bm_inv m -> length gpas = length leaves -> Forall (fun g => 0 < g) gpas -> Forall leaf_built leaves ->
  Forall (fun l => l.1 <> FADT_SIGNATURE) leaves ->
  Forall (holds m) (leaf_tables leaves gpas) -> Forall (fun t => Z.of_nat (length (tb_bytes t)) <= MAX_TABLE_LEN) (leaf_tables leaves gpas) ->
  walk_entries (guest_read m) gpas acc = Ok (acc ++ leaf_tables leaves gpas).
Proof.
  intros Hinv. revert gpas acc. induction leaves as [|[s bs] leaves IH]; intros [|g gpas] acc Hl Hg Hb Hn Hh Hm; try done; [by rewrite app_nil_r|].
  cbn [leaf_tables zip_with] in *. apply list.Forall_cons in Hg as [Hg0 Hg], Hb as [[b Hb0] Hb], Hn as [Hn0 Hn], Hh as [Hh0 Hh], Hm as [Hm0 Hm].
  cbn [fst snd] in *. cbn [walk_entries]. destruct (Z.eqb_spec g 0); [lia|].
  pose proof (read_sdt_built m _ b Hinv Hh0 Hb0 Hm0) as Hr. cbn [tb_gpa] in Hr. rewrite Hr. cbn [mbind result_bind tb_signature].
  rewrite bool_decide_eq_false_2 by done. rewrite IH; try done; [by rewrite <- app_assoc|by injection Hl].
Qed.

Lemma walk_layout m base size c T xs fa ds xg fg dg leaves gpas :
  config_ok c -> fits 64 base -> size <= MAX_TABLE_LEN -> bm_inv m -> layout base size c T xs fa ds xg fg dg leaves gpas ->
  Forall (holds m) (at_tables T) -> walk (guest_read m) base = Ok (at_tables T).
Proof.
  intros Hc Hbase Hsize Hinv [-> El Ed Ex Ef Hgl (Hxf & Hff & Hdf & Hgf) (Ho1 & Ho2 & Ho3 & Hog) _ (end_ & Hlaid & Hend)] Hh.
  cbn [at_tables] in *. destruct (build_leaves_spec _ _ Hc El) as (Hlb & apic & gt & mc & sp & db & tpm & Hleaves & Hread).
  set (ts := _ ++ leaf_tables leaves gpas) in *.
  assert (Hlen : forall t, t ∈ ts -> Z.of_nat (length (tb_bytes t)) <= MAX_TABLE_LEN).
  { intros t Ht. destruct (laid_In _ _ _ t Hlaid Ht) as (? & ? & _). lia. }
  assert (Hlens : Forall (fun t => Z.of_nat (length (tb_bytes t)) <= MAX_TABLE_LEN) (leaf_tables leaves gpas)).
  { apply list.Forall_forall. intros t Ht. apply Hlen. unfold ts. apply elem_of_app. by right. }
  pose proof (Hlen _ (list_elem_of_lookup_2 ts 1 _ eq_refl)) as Hlx. pose proof (Hlen _ (list_elem_of_lookup_2 ts 2 _ eq_refl)) as Hlf.
  pose proof (Hlen _ (list_elem_of_lookup_2 ts 3 _ eq_refl)) as Hld. unfold ts in Hh |- *. clear Hlaid.
  apply list.Forall_app in Hh as [Hh Hhl]. apply list.Forall_cons in Hh as [Hr Hh]. apply list.Forall_cons in Hh as [Hx Hh].
  apply list.Forall_cons in Hh as [Hf Hh]. apply list.Forall_cons in Hh as [Hd _].
  destruct (rsdp_spec xg Hxf) as (Hrl & _ & Hrs & Hsig & Hrev & Hptr).
  destruct (xsdt_built _ _ Ex) as [Hxb Hxl]. destruct (fadt_built _ _ _ Hdf Ef) as (Hfb & Hfl & Hdsdt). destruct (dsdt_built _ _ Ed) as (db' & _ & Hdb).
  unfold walk. pose proof (read_exact_prefix m _ RSDP_LEN RSDP_NAME Hinv Hr) as E. cbn [tb_gpa tb_bytes] in E.
  rewrite E by (rewrite Hrl; unfold RSDP_LEN; lia). clear E. rewrite take_ge by lia. cbn [mbind result_bind].
  rewrite bool_decide_eq_true_2 by done. rewrite Hrs. unfold RSDP_REVISION_OFFSET. rewrite Hrev. cbn [negb]. change (of_le [RSDP_REVISION] <? 2) with false.
  cbv iota zeta. rewrite Hptr. destruct (Z.eqb_spec xg 0); [unfold fits in Hbase; lia|].
  pose proof (read_sdt_built m _ _ Hinv Hx Hxb Hlx) as E. cbn [tb_gpa] in E. rewrite E. clear E. cbn [mbind result_bind tb_signature tb_bytes].
  rewrite bool_decide_eq_true_2 by done. cbn [negb]. rewrite (bu_body _ _ _ Hxb).
  rewrite chunks8_words; [|by constructor|rewrite Hxl; unfold xsdt_len; cbn; lia].
  rewrite bool_decide_eq_false_2.
  2: { cbn [length]. rewrite Hgl, Hleaves. pose proof (lr_tpm _ _ _ _ _ _ _ Hread) as Ht. unfold MAX_XSDT_ENTRIES.
       destruct (ac_tpm c); [destruct Ht as (? & -> & _)|rewrite Ht]; cbn; lia. }
  cbn [walk_entries]. destruct (Z.eqb_spec fg 0); [unfold fits in Hbase; lia|].
  pose proof (read_sdt_built m _ _ Hinv Hf Hfb Hlf) as E. cbn [tb_gpa] in E. rewrite E. clear E. cbn [mbind result_bind tb_signature].
  rewrite bool_decide_eq_true_2 by done. change (fadt_dsdt _) with (fadt_dsdt {| tb_signature := FADT_SIGNATURE; tb_gpa := 0; tb_bytes := fa |}).
  rewrite Hdsdt by (unfold fits in Hbase; lia). cbn [app forallb tb_gpa].
  destruct (Z.eqb_spec base dg); [lia|]. destruct (Z.eqb_spec xg dg); [lia|]. destruct (Z.eqb_spec fg dg); [lia|]. cbn [negb andb].
  pose proof (read_sdt_built m _ _ Hinv Hd Hdb Hld) as E. cbn [tb_gpa] in E. rewrite E. clear E. cbn [mbind result_bind].
  rewrite (walk_leaves m leaves gpas _ Hinv Hgl); [reflexivity| |exact Hlb| |exact Hhl|exact Hlens].
  - eapply list.Forall_impl; [exact Hog|]. cbn. intros. unfold fits in Hbase. lia.
  - rewrite Hleaves. pose proof (lr_tpm _ _ _ _ _ _ _ Hread) as Ht. destruct (ac_tpm c); [destruct Ht as (? & -> & _)|rewrite Ht]; cbn [app]; repeat (constructor; [done|]); constructor.
Qed.
End Memory.

(** ** The check of built tables *)

Lemma gicc_infos_agree mpidrs k :
  Z.of_nat (k + length mpidrs) < 2 ^ 32 ->
  Forall (fun p => gicc_agrees p = true) (imap (fun i p => ((k + i)%nat, p)) (zip (gicc_infos (Z.of_nat k) mpidrs) mpidrs)).
Proof.
  revert k. induction mpidrs as [|x mpidrs IH]; intros k Hk; [constructor|]. cbn [length] in Hk. cbn [gicc_infos zip_with imap]. constructor.
  - unfold gicc_agrees. cbn [fst snd gicc_info gi_uid gi_mpidr gi_flags gi_gicr_base]. rewrite Nat.add_0_r, wrap_small by (unfold fits; lia).
    by rewrite !Z.eqb_refl.
  - replace (Z.of_nat k + 1) with (Z.of_nat (S k)) by lia. erewrite imap_ext; [apply (IH (S k)); lia|]. cbn. intros i p _. f_equal. lia.
Qed.

Lemma length_gicc_infos i mpidrs : length (gicc_infos i mpidrs) = length mpidrs.
Proof. revert i. induction mpidrs as [|x l IH]; intros i; [done|]. cbn. by rewrite IH. Qed.

Lemma madt_info_agrees c : validate c = Ok tt -> madt_agrees c (madt_info c) = true.
Proof.
  intros Hv. pose proof (validate_cpus _ Hv) as Hn. unfold madt_agrees, madt_info. cbn [mi_gicds mi_gicrs mi_giccs].
  rewrite !bool_decide_eq_true_2 by (done || apply length_gicc_infos). cbn [andb]. apply forallb_forall. intros p Hp.
  pose proof (gicc_infos_agree (ac_mpidrs c) 0) as Hf. rewrite list.Forall_forall in Hf. apply Hf; [unfold MAX_CPUS in Hn; lia|].
  by apply list_elem_of_In.
Qed.

Lemma gtdt_info_agrees c :
  gtdt_agrees c {| gt_gsivs := ppi_gsiv <$> tc_ppis (ac_timer c); gt_flags := replicate 4 (timer_flags (ac_timer c)) |} = true.
Proof.
  unfold gtdt_agrees, timer_flags. cbn [gt_gsivs gt_flags]. rewrite bool_decide_eq_true_2 by done. by destruct (tc_always_on (ac_timer c)).
Qed.

Lemma mcfg_info_agrees c bus0 :
  fits 64 (ec_base (ac_ecam c)) -> bus0 + Z.shiftl (ec_start_bus (ac_ecam c)) 20 = ec_base (ac_ecam c) ->
  mcfg_agrees c [{| ma_base := bus0; ma_segment := 0; ma_start_bus := ec_start_bus (ac_ecam c); ma_end_bus := ec_end_bus (ac_ecam c) |}] = true.
Proof.
  intros Hf Hb. unfold mcfg_agrees. apply bool_decide_eq_true_2. cbn [fmap list_fmap ma_base ma_segment ma_start_bus ma_end_bus].
  unfold add_w. by rewrite Hb, wrap_small.
Qed.

Lemma first_difference_refl l : first_difference l l = None.
Proof. induction l as [|x l IH]; [done|]. cbn. by rewrite Z.eqb_refl, IH. Qed.

Lemma dsdt_self_agrees c ds : dsdt c = Ok ds -> dsdt_agrees c ds = true.
Proof. intros E. unfold dsdt_agrees. rewrite E, !first_difference_refl. done. Qed.

Lemma leaf_checksum l g : leaf_built l -> l.1 <> RSDP_SIGNATURE -> checksum_ok {| tb_signature := l.1; tb_gpa := g; tb_bytes := l.2 |} = true.
Proof. intros [b Hb] Hn. unfold checksum_ok, is_rsdp. cbn [tb_signature tb_bytes]. rewrite bool_decide_eq_false_2 by done. by rewrite (bu_sum _ _ _ Hb). Qed.

Lemma leaves_checksums leaves gpas :
  Forall leaf_built leaves -> Forall (fun l => l.1 <> RSDP_SIGNATURE) leaves -> forallb checksum_ok (leaf_tables leaves gpas) = true.
Proof.
  revert gpas. induction leaves as [|l leaves IH]; intros [|g gpas] Hb Hn; try done. apply list.Forall_cons in Hb as [Hb0 Hb], Hn as [Hn0 Hn].
  cbn [leaf_tables zip_with forallb]. rewrite leaf_checksum by done. by apply IH.
Qed.

Lemma five_and_rest {A} (gpas : list Z) (a b c d e : A) (rest : list A) :
  length gpas = length ([a; b; c; d; e] ++ rest) ->
  exists g1 g2 g3 g4 g5 gs, gpas = g1 :: g2 :: g3 :: g4 :: g5 :: gs /\ length gs = length rest.
Proof. intros H. destruct gpas as [|? [|? [|? [|? [|? gs]]]]]; cbn in H; try lia. do 6 eexists. split; [done|]. lia. Qed.

Lemma spcr_info_agrees c :
  spcr_agrees c {| si_interface_type := INTERFACE_PL011; si_base := gas_mmio32 (uc_base (ac_uart c)); si_interrupt_type := INTERRUPT_TYPE_GIC;
                   si_gsiv := spi_gsiv (uc_spi (ac_uart c)) |} = true.
Proof. unfold spcr_agrees. cbn [si_interface_type si_base si_interrupt_type si_gsiv]. by rewrite !Z.eqb_refl, bool_decide_eq_true_2. Qed.

Lemma dbg2_info_agrees c :
  dbg2_agrees c [{| db_port_type := PORT_SERIAL; db_subtype := SUBTYPE_PL011; db_base := gas_mmio32 (uc_base (ac_uart c)); db_size := uc_len (ac_uart c) |}] = true.
Proof. unfold dbg2_agrees. by rewrite bool_decide_eq_true_2. Qed.

(** The tables found by signature in a concrete list. *)
Ltac cbv_tables ts apic gt mc ds sp db :=
  change (table_bytes ts MADT_SIGNATURE) with (Some apic); change (table_bytes ts GTDT_SIGNATURE) with (Some gt);
  change (table_bytes ts MCFG_SIGNATURE) with (Some mc); change (table_bytes ts DSDT_SIGNATURE) with (Some ds);
  change (table_bytes ts SPCR_SIGNATURE) with (Some sp); change (table_bytes ts DBG2_SIGNATURE) with (Some db).

Lemma layout_verified base size c T xs fa ds xg fg dg leaves gpas :
  config_ok c -> validate c = Ok tt -> layout base size c T xs fa ds xg fg dg leaves gpas -> verify (at_tables T) c = Ok tt.
Proof.
  intros Hc Hv [-> El Ed Ex Ef Hgl (Hxf & Hff & Hdf & Hgf) _ _ _]. cbn [at_tables].
  destruct (build_leaves_spec _ _ Hc El) as (Hlb & apic & gt & mc & sp & db & tpm & Hleaves & [Rm Rg (bus0 & Hbus & Rc) Rs Rd Rt]).
  destruct (rsdp_spec xg Hxf) as (Hrl & _ & Hrs & _). destruct (xsdt_built _ _ Ex) as [Hxb _].
  destruct (fadt_built _ _ _ Hdf Ef) as (Hfb & _ & _). destruct (dsdt_built _ _ Ed) as (db' & _ & Hdb).
  assert (Hck : checksum_ok {| tb_signature := RSDP_SIGNATURE; tb_gpa := base; tb_bytes := rsdp xg |} = true).
  { unfold checksum_ok, is_rsdp. cbn [tb_signature tb_bytes]. rewrite !bool_decide_eq_true_2 by done. done. }
  pose proof (leaf_checksum (XSDT_SIGNATURE, xs) xg ltac:(by eexists) ltac:(done)) as Hcx.
  pose proof (leaf_checksum (FADT_SIGNATURE, fa) fg ltac:(by eexists) ltac:(done)) as Hcf.
  pose proof (leaf_checksum (DSDT_SIGNATURE, ds) dg ltac:(by eexists) ltac:(done)) as Hcd. cbn [fst snd] in Hcx, Hcf, Hcd.
  pose proof (dsdt_self_agrees _ _ Ed) as Hda. pose proof (madt_info_agrees _ Hv) as Hma. pose proof (gtdt_info_agrees c) as Hga.
  pose proof (mcfg_info_agrees c bus0 (proj1 (co_ecam _ Hc)) Hbus) as Hmc.
  assert (Hcl : forallb checksum_ok (leaf_tables leaves gpas) = true).
  { apply leaves_checksums; [done|]. rewrite Hleaves. destruct (ac_tpm c); [destruct Rt as (? & -> & _)|rewrite Rt]; cbn [app]; by repeat constructor. }
  unfold verify. rewrite forallb_app, Hcl. cbn [forallb]. rewrite Hck, Hcx, Hcf, Hcd. rewrite Hleaves in Hgl |- *. clear Hcl.
  destruct (five_and_rest _ _ _ _ _ _ _ Hgl) as (g1 & g2 & g3 & g4 & g5 & gs & -> & Hgs).
  unfold tpm2_agrees at 1.
  destruct (ac_tpm c) as [t|] eqn:Et.
  - destruct Rt as (bs & -> & Rt). destruct gs as [|g6 [|]]; [discriminate Hgs| |discriminate Hgs].
    match goal with |- context [same_sorted _ (_ <$> ?l)] => set (ts := l) end.
    change (tb_signature <$> ts) with SIGNATURES. cbv_tables ts apic gt mc ds sp db. change (table_bytes ts TPM2_SIGNATURE) with (Some bs).
    cbn [check]. rewrite Rm, Rg, Rc, Rs, Rd, Rt, Hma, Hga, Hmc, Hda, spcr_info_agrees, dbg2_info_agrees. unfold signatures, has_tpm. rewrite Et.
    cbn [ti_platform_class ti_control_area ti_start_method]. rewrite !Z.eqb_refl. vm_compute. reflexivity.
  - subst tpm. destruct gs; [|discriminate Hgs]. match goal with |- context [same_sorted _ (_ <$> ?l)] => set (ts := l) end.
    change (tb_signature <$> ts) with (take 9 SIGNATURES). cbv_tables ts apic gt mc ds sp db. change (table_bytes ts TPM2_SIGNATURE) with (@None (list Z)).
    cbn [check]. rewrite Rm, Rg, Rc, Rs, Rd, Hma, Hga, Hmc, Hda, spcr_info_agrees, dbg2_info_agrees. unfold signatures, has_tpm. rewrite Et.
    vm_compute. reflexivity.
Qed.

Lemma leaf_tables_gpas (P : Z -> Prop) leaves gpas : Forall P gpas -> Forall (fun t => P (tb_gpa t)) (leaf_tables leaves gpas).
Proof.
  intros HP. revert leaves. induction HP as [|g gpas Hg _ IH]; intros [|l leaves]; try constructor; [done|apply IH].
Qed.

Lemma layout_aligned base size c T xs fa ds xg fg dg leaves gpas :
  layout base size c T xs fa ds xg fg dg leaves gpas -> Forall (fun t => tb_gpa t mod TABLE_ALIGN = 0) (at_tables T).
Proof.
  intros [-> _ _ _ _ _ _ _ [Hb Ha] _]. apply list.Forall_cons in Ha as [H1 Ha]. apply list.Forall_cons in Ha as [H2 Ha]. apply list.Forall_cons in Ha as [H3 Ha].
  cbn [at_tables app]. constructor; [|constructor; [done|constructor; [done|constructor; [done|by apply (leaf_tables_gpas (fun g => g mod TABLE_ALIGN = 0))]]]].
  cbn [tb_gpa]. unfold BASE_ALIGN, TABLE_ALIGN in *. Z.div_mod_to_equations. lia.
Qed.

Lemma verify_checksums ts c : verify ts c = Ok tt -> Forall (fun t => checksum_ok t = true) ts.
Proof.
  unfold verify. destruct (forallb checksum_ok ts) eqn:E; [|by rewrite andb_false_r].
  intros _. rewrite forallb_forall in E. apply list.Forall_forall. intros t Ht%list_elem_of_In. by apply E.
Qed.

Lemma build_base base size c T : build base size c = Ok T -> at_base T = base.
Proof.
  unfold build. destruct (negb _); [done|].
  intros (? & _ & (leaves & _ & (ds & _ & (xg & _ & (fg & _ & (dg & _ & (p & _ & H)%bind_Ok)%bind_Ok)%bind_Ok)%bind_Ok)%bind_Ok)%bind_Ok)%bind_Ok.
  destruct p as [gpas end_]. destruct (_ <? _); [done|]. apply bind_Ok in H as (xs & _ & (fa & _ & H)%bind_Ok). by apply Ok_inj in H as <-.
Qed.

(** ** What the platform's boot relies on *)

(** Tables written to a guest whose memory holds the window are found again
    from the root pointer, in order and byte for byte; the check accepts them,
    and no byte outside the window changed. *)
Lemma read_back_built {M : Type} `{ByteMemory M} base size c m T :
  config_ok c -> fits 64 base -> size <= MAX_TABLE_LEN -> bm_inv m -> bm_span m base size -> build base size c = Ok T ->
  exists m', write_config base size c m = Ok (T, m') /\ dump_tables base m' = Ok (at_tables T) /\ verify (at_tables T) c = Ok tt /\
    Forall (holds m') (at_tables T) /\ bm_inv m' /\
    (forall x, x < base \/ base + size <= x -> bm_byte m' x = bm_byte m x) /\ (forall x n, bm_span m' x n <-> bm_span m x n).
Proof.
  intros Hc Hbase Hsize Hinv Hspan Hbuild. destruct (build_layout _ _ _ _ Hc Hbase Hbuild) as (xs & fa & ds & xg & fg & dg & leaves & gpas & HL).
  destruct (ly_laid _ _ _ _ _ _ _ _ _ _ _ _ HL) as (end_ & Hlaid & Hend). pose proof (laid_le _ _ _ Hlaid) as Hle.
  destruct (write_laid base end_ (at_tables T) m) as (m' & Hw & Hinv' & Hh & Hfr & Hsp); [apply Hbase|done|done| |].
  { eapply bm_span_sub; [exact Hspan|lia|lia]. }
  assert (Hv : validate c = Ok tt).
  { revert Hbuild. unfold build. destruct (negb _); [done|]. by intros ([] & Hv & _)%bind_Ok. }
  exists m'. split.
  { unfold write_config. rewrite Hbuild. cbn [mbind result_bind]. by rewrite Hw. }
  split; [by eapply walk_layout|]. split; [by eapply layout_verified|]. split; [done|]. split; [done|]. split; [|done]. intros x Hx. apply Hfr. lia.
Qed.
