(* ===== verification/AcpiPlatform.v ===== *)
(** * The ACPI tables of the platform

    Model of [ternvale-vmm/src/acpi_check.rs] ([acpi_config], [vm_acpi_config],
    [platform_problems], [check_config]) and of [install] of
    [ternvale-vmm/src/acpi.rs] after the window is mapped.  A problem is the
    name its line starts with; the text after it is left out. *)

From stdpp Require Import list strings.
From S2P Require Import Prelude FwCfg GuestMemory Platform Psci Smp PciConfig PciIntx PciBus Tpm AcpiSdt AcpiLeaf AcpiAml AcpiBuild.

(** ** Constants of the device tree ([fdt.rs], [usb.rs], [gic_redist.rs]) *)

Definition PL011_REG_SIZE : Z := 0x1000.
Definition UART_SPI : Z := 1.
Definition TIMER_PPIS : list Z := [13; 14; 11; 10].
Definition fdt_TIMER_ALWAYS_ON : bool := true.
Definition USB_SPI : Z := 7.
Definition REDIST_STRIDE : Z := 0x20000.
Definition XHCI_MMIO_SIZE : Z := 0x5000.
Definition INTX_SPIS : list Z := [PCI_INTX_SPI0; PCI_INTX_SPI0 + 1; PCI_INTX_SPI0 + 2; PCI_INTX_SPI0 + 3].
Definition check_ECAM_BUS_BYTES : Z := Z.shiftl 1 20.
Definition GICD_FRAME : Z := 0x10000.

(** ** What the tables must say *)

Definition acpi_config (cpus : nat) : AcpiConfig := {|
  ac_conduit := Hvc;
  ac_mpidrs := (fun cpu => Z.land (mpidr (Z.of_nat cpu)) MPIDR_AFFINITY_MASK) <$> seq 0 cpus;
  ac_gic := {| gc_dist_base := GIC_DIST_BASE; gc_redist_base := GIC_REDIST_BASE; gc_redist_len := wrap 32 GIC_REDIST_SIZE |};
  ac_timer := {| tc_ppis := TIMER_PPIS; tc_always_on := fdt_TIMER_ALWAYS_ON |};
  ac_ecam := {| ec_base := PCIE_ECAM_BASE; ec_start_bus := 0; ec_end_bus := ECAM_BUSES - 1 |};
  ac_pci := {| pc_mmio_base := PCIE_MMIO_BASE; pc_mmio_len := PCIE_MMIO_SIZE; pc_intx_spis := INTX_SPIS |};
  ac_uart := {| uc_base := UART_BASE; uc_len := wrap 32 PL011_REG_SIZE; uc_spi := UART_SPI |};
  ac_tpm := Some {| tp_crb_base := TPM_CRB_BASE; tp_crb_len := wrap 32 CRB_WINDOW_SIZE; tp_control_area := TPM_CRB_BASE + CTRL_REQ |};
  ac_usb := Some {| us_mmio_base := XHCI_BASE; us_mmio_len := wrap 32 XHCI_MMIO_SIZE; us_spi := USB_SPI |};
|}.

Definition vm_acpi_config (cpus : nat) (tpm_enabled usb_enabled : bool) : AcpiConfig :=
  let acpi := acpi_config cpus in
  {| ac_conduit := ac_conduit acpi; ac_mpidrs := ac_mpidrs acpi; ac_gic := ac_gic acpi; ac_timer := ac_timer acpi; ac_ecam := ac_ecam acpi;
     ac_pci := ac_pci acpi; ac_uart := ac_uart acpi;
     ac_tpm := if tpm_enabled then ac_tpm acpi else None; ac_usb := if usb_enabled then ac_usb acpi else None |}.

(** ** The check against the platform map *)

Definition region_problem (layout : Platform.Layout) (what name : string) (ok : Z -> Z -> bool) : list string :=
  match List.find (fun r => bool_decide (p_name r = name)) (l_regions layout) with
  | Some r => if ok (p_base r) (p_size r) then [] else [what]
  | None => [what]
  end.

Definition platform_problems (c : AcpiConfig) (layout : Platform.Layout) : list string :=
  let gic := ac_gic c in
  let ecam := ac_ecam c in
  let buses := ec_end_bus ecam - ec_start_bus ecam + 1 in
  let uart := ac_uart c in
  let uart_end := saturating_add 64 (uc_base uart) (uc_len uart) in
  region_problem layout "GICD" "gic-dist" (fun base size => (base =? gc_dist_base gic) && (GICD_FRAME <=? size))
  ++ region_problem layout "GICR" "gic-redist" (fun base size => (base =? gc_redist_base gic) && (size =? gc_redist_len gic))
  ++ region_problem layout "MCFG" "pcie-ecam" (fun base size => (base =? ec_base ecam) && (size =? buses * check_ECAM_BUS_BYTES))
  ++ region_problem layout "DSDT PCI0 _CRS" "pcie-mmio" (fun base size => (base =? pc_mmio_base (ac_pci c)) && (size =? pc_mmio_len (ac_pci c)))
  ++ region_problem layout "SPCR/DBG2 UART" "uart" (fun base size => (base <=? uc_base uart) && (uart_end <=? saturating_add 64 base size))
  ++ match ac_tpm c with
     | None => []
     | Some tpm =>
         region_problem layout "TPM2/DSDT TPM2 _CRS" "tpm-crb" (fun base size =>
           (tp_crb_base tpm =? base) && (tp_crb_len tpm =? CRB_WINDOW_SIZE) && (CRB_WINDOW_SIZE <=? size) && (tp_control_area tpm =? base + CTRL_REQ))
     end
  ++ (if gc_redist_len gic <? Z.of_nat (length (ac_mpidrs c)) * REDIST_STRIDE then ["GICR"%string] else [])
  ++ (if bool_decide (tc_ppis (ac_timer c) = TIMER_PPIS) && Bool.eqb (tc_always_on (ac_timer c)) fdt_TIMER_ALWAYS_ON then [] else ["GTDT"%string])
  ++ (if bool_decide (pc_intx_spis (ac_pci c) = INTX_SPIS) then [] else ["DSDT PCI0 _PRT"%string])
  ++ (if negb (uc_spi uart =? UART_SPI) || negb (uc_len uart =? PL011_REG_SIZE) then ["SPCR/DBG2"%string] else []).

Definition window_problems (tables : list Table) : list (list Z) :=
  t ← tables;
  let end_ := saturating_add 64 (tb_gpa t) (Z.of_nat (length (tb_bytes t))) in
  if (tb_gpa t <? ACPI_BASE) || (ACPI_BASE + ACPI_SIZE <? end_) then [tb_signature t] else [].

Definition check_config (tables : list Table) (c : AcpiConfig) : result AcpiError unit :=
  match verify tables c with
  | Err Drift => Err Drift
  | Err e => Err e
  | Ok _ => if bool_decide (platform_problems c (virt 0) = []) && bool_decide (window_problems tables = []) then Ok tt else Err Drift
  end.

(** [install], once the window is mapped. *)
Definition install {M : Type} `{ByteMemory M} (c : AcpiConfig) (m : M) : result AcpiError (list Table * M) :=
  p ← write_config ACPI_BASE ACPI_SIZE c m;
  tables ← dump_tables ACPI_BASE p.2;
  _ ← check_config tables c;
  Ok (tables, p.2).

(** ** Enough room is enough *)

Lemma after_total base gpa len :
  0 <= gpa -> gpa + Z.of_nat len + 8 < 2 ^ 64 -> exists next, after base gpa len = Ok next /\ gpa <= next <= gpa + Z.of_nat len + 7.
Proof.
  intros Hg Hlt. unfold after, TABLE_ALIGN. rewrite checked_small by lia. cbn [ok_or mbind result_bind].
  pose proof (Z.div_mod (gpa + Z.of_nat len + 7) 8 ltac:(done)). pose proof (Z.mod_pos_bound (gpa + Z.of_nat len + 7) 8 ltac:(done)).
  destruct (Z.leb_spec (2 ^ 64) ((gpa + Z.of_nat len + 7) / 8 * 8)); [lia|]. eexists. split; [done|]. lia.
Qed.

(** The room the leaves take, padding included. *)
Definition leaves_room (leaves : list (list Z * list Z)) : Z := lsum ((fun l => 7 + Z.of_nat (length l.2)) <$> leaves).

Lemma leaf_gpas_total base next len leaves :
  0 <= next -> next + Z.of_nat len + leaves_room leaves + 8 < 2 ^ 64 ->
  exists gpas end_, leaf_gpas base next len leaves = Ok (gpas, end_) /\ end_ <= next + Z.of_nat len + leaves_room leaves /\ length gpas = length leaves.
Proof.
  revert next len. induction leaves as [|[s bs] leaves IH]; intros next len Hn Hlt; cbn [leaf_gpas].
  - unfold leaves_room in *. cbn in *. rewrite checked_small by lia. cbn [ok_or mbind result_bind]. do 2 eexists. split; [done|]. split; [lia|done].
  - assert (Hroom : leaves_room ((s, bs) :: leaves) = 7 + Z.of_nat (length bs) + leaves_room leaves) by done. rewrite Hroom in *.
    assert (0 <= leaves_room leaves).
    { clear. unfold leaves_room. induction leaves as [|l leaves IH]; cbn in *; lia. }
    destruct (after_total base next len Hn ltac:(lia)) as (g & -> & Hg). cbn [mbind result_bind].
    destruct (IH g (length bs) ltac:(lia) ltac:(lia)) as (gs & e & -> & He & Hl). cbn [mbind result_bind fst snd]. do 2 eexists. split; [done|].
    split; [lia|]. cbn. lia.
Qed.

Lemma table_total h b : Z.of_nat (SDT_HEADER_LEN + length b) < 2 ^ 32 -> exists t, table h b = Ok t.
Proof. intros H. unfold table. destruct (Z.leb_spec (2 ^ 32) (Z.of_nat (SDT_HEADER_LEN + length b))); [lia|]. by eexists. Qed.

Lemma build_total base size c leaves ds :
  base mod BASE_ALIGN = 0 -> 0 <= base -> base + size + 8 < 2 ^ 64 -> (length leaves < 64)%nat ->
  validate c = Ok tt -> build_leaves c = Ok leaves -> dsdt c = Ok ds ->
  Z.of_nat (RSDP_LEN + 7 + xsdt_len (1 + length leaves) + 7 + FADT_LEN + 7 + length ds) + leaves_room leaves <= size ->
  exists T, build base size c = Ok T.
Proof.
  intros Ha Hb Hs Hn Hv Hl Hd Hroom. unfold build. rewrite Ha, Z.eqb_refl. cbn [negb]. rewrite Hv, Hl, Hd. cbn [mbind result_bind].
  assert (0 <= leaves_room leaves).
  { clear. unfold leaves_room. induction leaves as [|l leaves IH]; cbn in *; lia. }
  assert (HF : Z.of_nat FADT_LEN = 276) by reflexivity. assert (HR : Z.of_nat RSDP_LEN = 36) by reflexivity.
  set (xl := xsdt_len (1 + length leaves)) in *. assert (Z.of_nat xl < 1000) by (unfold xl, xsdt_len, SDT_HEADER_LEN; lia).
  rewrite !Nat2Z.inj_add in Hroom. change (Z.of_nat 7) with 7 in Hroom.
  destruct (after_total base base RSDP_LEN Hb ltac:(lia)) as (xg & -> & Hx). cbn [mbind result_bind].
  destruct (after_total base xg xl ltac:(lia) ltac:(lia)) as (fg & -> & Hf). cbn [mbind result_bind].
  destruct (after_total base fg FADT_LEN ltac:(lia) ltac:(lia)) as (dg & -> & Hdg). cbn [mbind result_bind].
  destruct (leaf_gpas_total base dg (length ds) leaves ltac:(lia) ltac:(lia)) as (gs & e & -> & He & Hgs). cbn [mbind result_bind].
  destruct (Z.ltb_spec size (e - base)); [lia|].
  destruct (table_total (header_new XSDT_SIGNATURE XSDT_REVISION) (mjoin (le_bytes 8 <$> (fg :: gs)))) as [xs Ex].
  { rewrite length_le_words. unfold SDT_HEADER_LEN. cbn [length]. lia. }
  unfold xsdt. rewrite Ex. cbn [mbind result_bind].
  destruct (table_total (header_new FADT_SIGNATURE FADT_REVISION) (fadt_body dg (ac_conduit c))) as [fa Ef]; [done|].
  unfold fadt. rewrite Ef. cbn [mbind result_bind]. by eexists.
Qed.

(** ** The platform's own configuration *)

Lemma affinity_bits i : 0 <= i < 4096 -> Z.land (affinity i) (not_w 64 MPIDR_AFFINITY) = 0.
Proof.
  intros Hi. assert (Hf : fits 24 (affinity i)).
  { unfold fits, affinity. Z.div_mod_to_equations. lia. }
  rewrite <- (land_mask24 _ Hf), <- Z.land_assoc. change (Z.land MPIDR_AFFINITY_MASK _) with 0. apply Z.land_0_r.
Qed.

Lemma mpidrs_fine k n :
  (k + n <= 4096)%nat ->
  mpidrs_bad ((fun cpu => affinity (Z.of_nat cpu)) <$> seq 0 k) ((fun cpu => affinity (Z.of_nat cpu)) <$> seq k n) = false.
Proof.
  revert k. induction n as [|n IH]; intros k Hk; [done|]. cbn [seq fmap list_fmap mpidrs_bad]. rewrite affinity_bits by lia. cbn [negb orb Z.eqb].
  rewrite bool_decide_eq_false_2.
  - cbn [orb]. specialize (IH (S k) ltac:(lia)). rewrite seq_S, fmap_app in IH. exact IH.
  - intros (j & Hj & Hin)%list_elem_of_fmap. apply elem_of_seq in Hin. apply affinity_inj in Hj; lia.
Qed.

Lemma acpi_mpidrs n : (n <= 4096)%nat -> ac_mpidrs (acpi_config n) = (fun cpu => affinity (Z.of_nat cpu)) <$> seq 0 n.
Proof.
  intros Hn. apply list_fmap_ext. intros i x Hx. apply lookup_seq in Hx as [-> Hi]. apply mpidr_affinity. lia.
Qed.

Lemma platform_config_valid n tpm usb : (1 <= n <= MAX_CPUS)%nat -> validate (vm_acpi_config n tpm usb) = Ok tt.
Proof.
  unfold MAX_CPUS. intros Hn. unfold validate. change (ac_mpidrs (vm_acpi_config n tpm usb)) with (ac_mpidrs (acpi_config n)).
  rewrite acpi_mpidrs by lia. rewrite (bool_decide_eq_false_2 (_ <$> _ = [])) by (destruct n; [lia|done]).
  rewrite bool_decide_eq_false_2 by (rewrite length_fmap, length_seq; unfold MAX_CPUS; lia). cbn [orb].
  pose proof (mpidrs_fine 0 n ltac:(lia)) as Hm. cbn [seq fmap list_fmap] in Hm. cbn [fmap] in Hm |- *. rewrite Hm. clear Hm. destruct tpm, usb; vm_compute; reflexivity.
Qed.

Lemma platform_config_ok n tpm usb : (n <= 4096)%nat -> config_ok (vm_acpi_config n tpm usb).
Proof.
  intros Hn. split.
  - change (ac_mpidrs _) with (ac_mpidrs (acpi_config n)). rewrite acpi_mpidrs by done. apply list.Forall_forall.
    intros x (i & -> & Hi)%list_elem_of_fmap. apply elem_of_seq in Hi. unfold fits, affinity. Z.div_mod_to_equations. lia.
  - by vm_compute.
  - split; [done|]. by repeat constructor.
  - by vm_compute.
  - split; [by vm_compute|]. split; [by vm_compute|]. split; [done|]. by repeat constructor.
  - by vm_compute.
  - intros t Ht. destruct tpm; [|done]. injection Ht as <-. by vm_compute.
  - intros u Hu. destruct usb; [|done]. injection Hu as <-. by vm_compute.
Qed.

Lemma giccs_from_total i mpidrs : 0 <= i -> i + Z.of_nat (length mpidrs) <= 2 ^ 32 -> exists cpus, giccs_from i mpidrs = Ok cpus.
Proof.
  revert i. induction mpidrs as [|m l IH]; intros i Hi Hl; [by eexists|]. cbn [length giccs_from] in *.
  destruct (Z.leb_spec (2 ^ 32) i); [lia|]. destruct (IH (i + 1) ltac:(lia) ltac:(lia)) as [r ->]. by eexists.
Qed.

Lemma platform_madt n tpm usb :
  (1 <= n <= MAX_CPUS)%nat -> exists t, madt (vm_acpi_config n tpm usb) = Ok t /\ length t = (84 + 82 * n)%nat.
Proof.
  intros Hn. pose proof (platform_config_valid n tpm usb Hn) as Hv. unfold MAX_CPUS in Hn.
  assert (Hl : length (ac_mpidrs (vm_acpi_config n tpm usb)) = n) by (cbn; by rewrite length_fmap, length_seq).
  destruct (giccs_from_total 0 (ac_mpidrs (vm_acpi_config n tpm usb))) as [cpus Ec]; [done|rewrite Hl; lia|].
  destruct (giccs_from_fits _ _ _ Ec) as [_ Hc]. rewrite Hl in Hc. unfold madt. rewrite Hv. cbn [mbind result_bind]. rewrite Ec. cbn [mbind result_bind].
  set (body := _ ++ cpus ++ _). assert (Hb : length body = (48 + 82 * n)%nat).
  { unfold body. rewrite !length_app, Hc, length_replicate. change (length (gicd _)) with 24%nat. change (length (gicr _ _)) with 16%nat.
    unfold MADT_FIXED_LEN, GICC_LEN. lia. }
  unfold table. rewrite Hb. unfold SDT_HEADER_LEN. destruct (Z.leb_spec (2 ^ 32) (Z.of_nat (36 + (48 + 82 * n)))); [lia|].
  cbv zeta. eexists. split; [done|]. rewrite length_insert, length_app, Hb. reflexivity.
Qed.

(** The tables of the platform, and the room they take. *)
Lemma platform_leaves n tpm usb :
  (1 <= n <= MAX_CPUS)%nat ->
  exists leaves ds, build_leaves (vm_acpi_config n tpm usb) = Ok leaves /\ dsdt (vm_acpi_config n tpm usb) = Ok ds /\
    (length leaves <= 6)%nat /\ leaves_room leaves + Z.of_nat (length ds) <= 82 * Z.of_nat n + 4000.
Proof.
  intros Hn. destruct (platform_madt n tpm usb Hn) as (apic & Ha & Hl).
  assert (Hd : exists ds, dsdt (vm_acpi_config n tpm usb) = Ok ds /\ Z.of_nat (length ds) <= 2000).
  { destruct tpm, usb; (eexists; split; [vm_compute; reflexivity|vm_compute; discriminate]). }
  destruct Hd as (ds & Ed & Hds). unfold build_leaves. rewrite Ha. cbn [mbind result_bind].
  assert (Hg : exists gt, gtdt (ac_timer (vm_acpi_config n tpm usb)) = Ok gt /\ Z.of_nat (length gt) = 104) by (eexists; by split; [vm_compute|]).
  assert (Hm : exists mc, mcfg (ac_ecam (vm_acpi_config n tpm usb)) = Ok mc /\ Z.of_nat (length mc) = 60) by (eexists; by split; [vm_compute|]).
  assert (Hs : exists sp, spcr (ac_uart (vm_acpi_config n tpm usb)) = Ok sp /\ Z.of_nat (length sp) = 80) by (eexists; by split; [vm_compute|]).
  assert (Hb : exists db, dbg2 (ac_uart (vm_acpi_config n tpm usb)) = Ok db /\ Z.of_nat (length db) = 84) by (eexists; by split; [vm_compute|]).
  destruct Hg as (gt & -> & Hg), Hm as (mc & -> & Hm), Hs as (sp & -> & Hs), Hb as (db & -> & Hb). cbn [mbind result_bind].
  assert (Ht : exists tp, (match ac_tpm (vm_acpi_config n tpm usb) with Some t => bs ← tpm2 t; Ok [(TPM2_SIGNATURE, bs)] | None => Ok [] end) = Ok tp
               /\ (length tp <= 1)%nat /\ leaves_room tp <= 100).
  { destruct tpm; (eexists; split; [vm_compute; reflexivity|]); split; (cbn; lia) || (vm_compute; discriminate). }
  destruct Ht as (tp & -> & Htl & Htr). cbn [mbind result_bind]. do 2 eexists. split; [done|]. split; [exact Ed|].
  split; [rewrite length_app; cbn [length]; lia|]. unfold leaves_room in *. cbn [app fmap list_fmap lsum snd] in *. lia.
Qed.

Lemma platform_no_problems n tpm usb : (n <= 123)%nat -> platform_problems (vm_acpi_config n tpm usb) (virt 0) = [].
Proof.
  intros Hn. unfold platform_problems. change (ac_mpidrs _) with (ac_mpidrs (acpi_config n)). cbn [acpi_config ac_mpidrs].
  rewrite length_fmap, length_seq. change (gc_redist_len _) with GIC_REDIST_SIZE. unfold GIC_REDIST_SIZE, REDIST_STRIDE.
  destruct (Z.ltb_spec 16121856 (Z.of_nat n * 131072)); [lia|]. destruct tpm; vm_compute; reflexivity.
Qed.

Lemma platform_too_many n tpm usb : (123 < n)%nat -> platform_problems (vm_acpi_config n tpm usb) (virt 0) <> [].
Proof.
  intros Hn. unfold platform_problems. change (ac_mpidrs _) with (ac_mpidrs (acpi_config n)). cbn [acpi_config ac_mpidrs].
  rewrite length_fmap, length_seq. change (gc_redist_len _) with GIC_REDIST_SIZE. unfold GIC_REDIST_SIZE, REDIST_STRIDE.
  destruct (Z.ltb_spec 16121856 (Z.of_nat n * 131072)); [|lia]. destruct tpm; vm_compute; discriminate.
Qed.

Lemma no_window_problems ts end_ : laid ACPI_BASE ts end_ -> end_ <= ACPI_BASE + ACPI_SIZE -> window_problems ts = [].
Proof.
  intros Hl He. assert (Hall : Forall (fun t => ACPI_BASE <= tb_gpa t /\ tb_gpa t + Z.of_nat (length (tb_bytes t)) <= ACPI_BASE + ACPI_SIZE) ts).
  { apply list.Forall_forall. intros t Ht. destruct (laid_In _ _ _ t Hl Ht) as (? & ? & _). lia. }
  clear Hl. induction Hall as [|t ts [H1 H2] _ IH]; [done|]. unfold window_problems. cbn [mbind list_bind]. fold (window_problems ts). rewrite IH, app_nil_r.
  unfold saturating_add. destruct (Z.ltb_spec (tb_gpa t) ACPI_BASE); [lia|].
  destruct (Z.ltb_spec (ACPI_BASE + ACPI_SIZE) (Z.min (tb_gpa t + Z.of_nat (length (tb_bytes t))) (2 ^ 64 - 1))); [lia|done].
Qed.

(** The interrupt of every [_PRT] entry is the line the bus raises for that pin. *)
Lemma prt_matches_swizzle n tpm usb r :
  r ∈ prt_routes (vm_acpi_config n tpm usb) ->
  pr_gsiv r = SPI_BASE + PCI_INTX_SPI0 + swizzle (pr_device r) (pr_pin r + 1) /\ 0 <= pr_device r < 32 /\ 0 <= pr_pin r < 4.
Proof.
  assert (Hall : forallb (fun r => (pr_gsiv r =? SPI_BASE + PCI_INTX_SPI0 + swizzle (pr_device r) (pr_pin r + 1))
      && ((0 <=? pr_device r) && (pr_device r <? 32)) && ((0 <=? pr_pin r) && (pr_pin r <? 4))) (prt_routes (vm_acpi_config n tpm usb)) = true)
    by (vm_compute; reflexivity).
  rewrite forallb_forall in Hall. intros H%list_elem_of_In%Hall. lia.
Qed.

(** Every device and pin of the bus has an entry. *)
Lemma prt_complete n tpm usb d p :
  0 <= d < 32 -> 0 <= p < 4 -> exists r, r ∈ prt_routes (vm_acpi_config n tpm usb) /\ pr_device r = d /\ pr_pin r = p.
Proof.
  intros Hd Hp. unfold prt_routes. eexists. split.
  - apply list_elem_of_bind. exists (Z.to_nat d). split; [|apply elem_of_seq; unfold ROOT_BUS_DEVICES; lia].
    apply list_elem_of_fmap. exists (Z.to_nat p). split; [reflexivity|]. apply elem_of_seq. unfold INTX_PINS. lia.
  - cbn [pr_device pr_pin]. lia.
Qed.

Section Boot.
Context {M : Type} `{ByteMemory M}.

Lemma install_build n tpm usb (m : M) T :
  bm_inv m -> bm_span m ACPI_BASE ACPI_SIZE -> (n <= 4096)%nat -> build ACPI_BASE ACPI_SIZE (vm_acpi_config n tpm usb) = Ok T ->
  exists m', Forall (holds m') (at_tables T) /\ bm_inv m' /\
    (forall x, x < ACPI_BASE \/ ACPI_BASE + ACPI_SIZE <= x -> bm_byte m' x = bm_byte m x) /\
    verify (at_tables T) (vm_acpi_config n tpm usb) = Ok tt /\
    install (vm_acpi_config n tpm usb) m = if bool_decide (n <= 123)%nat then Ok (at_tables T, m') else Err Drift.
Proof.
  intros Hinv Hspan Hn HT. pose proof (platform_config_ok n tpm usb Hn) as Hc. assert (Hb : fits 64 ACPI_BASE) by fits_closed.
  assert (Hsz : ACPI_SIZE <= MAX_TABLE_LEN) by (vm_compute; discriminate).
  destruct (read_back_built ACPI_BASE ACPI_SIZE _ m T Hc Hb Hsz Hinv Hspan HT) as (m' & Hw & Hd & Hv & Hh & Hinv' & Hfr & _).
  exists m'. split; [done|]. split; [done|]. split; [done|]. split; [done|].
  unfold install. rewrite Hw. cbn [mbind result_bind snd]. rewrite Hd. cbn [mbind result_bind]. unfold check_config. rewrite Hv.
  destruct (decide (n <= 123)%nat) as [Hk|Hk].
  - rewrite (bool_decide_eq_true_2 (n <= 123)%nat Hk). destruct (build_layout _ _ _ _ Hc Hb HT) as (xs & fa & ds & xg & fg & dg & leaves & gpas & HL).
    destruct (ly_laid _ _ _ _ _ _ _ _ _ _ _ _ HL) as (end_ & Hlaid & Hend).
    by rewrite (platform_no_problems n tpm usb Hk), (no_window_problems _ _ Hlaid Hend).
  - rewrite (bool_decide_eq_false_2 (n <= 123)%nat Hk). case_bool_decide as Hp; [|done]. by apply platform_too_many in Hp; [|lia].
Qed.

Lemma build_cpus n tpm usb T : build ACPI_BASE ACPI_SIZE (vm_acpi_config n tpm usb) = Ok T -> (1 <= n <= MAX_CPUS)%nat.
Proof.
  unfold build. destruct (negb _); [done|]. intros ([] & Hv & _)%bind_Ok. pose proof (validate_cpus _ Hv) as Hn.
  change (ac_mpidrs _) with (ac_mpidrs (acpi_config n)) in Hn. cbn [acpi_config ac_mpidrs] in Hn. by rewrite length_fmap, length_seq in Hn.
Qed.

Lemma platform_build n tpm usb :
  (1 <= n <= MAX_CPUS)%nat -> exists T, build ACPI_BASE ACPI_SIZE (vm_acpi_config n tpm usb) = Ok T.
Proof.
  intros Hn. destruct (platform_leaves n tpm usb Hn) as (leaves & ds & El & Ed & Hl & Hr).
  apply (build_total _ _ _ leaves ds); [reflexivity|done|vm_compute; reflexivity|lia|by apply platform_config_valid|exact El|exact Ed|].
  unfold MAX_CPUS in Hn. unfold xsdt_len, RSDP_LEN, FADT_LEN, SDT_HEADER_LEN, ACPI_SIZE. lia.
Qed.

(** C24: a boot with [n] CPUs installs its ACPI tables exactly when 1 <= n <= 123
    (the redistributor frames the platform map has), with or without a TPM and
    USB, on any guest memory that holds the window.  The tables it returns,
    read back from guest memory through the root pointer, are the tables that
    were built, in order and byte for byte; they follow one another inside the
    window at aligned addresses, and no byte outside the window changes. *)
Theorem acpi_install_exact n tpm usb m :
  bm_inv m -> bm_span m ACPI_BASE ACPI_SIZE ->
  ((1 <= n <= 123)%nat <-> exists r, install (vm_acpi_config n tpm usb) m = Ok r) /\
  (forall ts m', install (vm_acpi_config n tpm usb) m = Ok (ts, m') ->
    build ACPI_BASE ACPI_SIZE (vm_acpi_config n tpm usb) = Ok {| at_base := ACPI_BASE; at_tables := ts |} /\
    (exists end_, laid ACPI_BASE ts end_ /\ end_ <= ACPI_BASE + ACPI_SIZE) /\
    Forall (fun t => tb_gpa t mod TABLE_ALIGN = 0 /\ checksum_ok t = true) ts /\
    Forall (holds m') ts /\ bm_inv m' /\
    forall x, x < ACPI_BASE \/ ACPI_BASE + ACPI_SIZE <= x -> bm_byte m' x = bm_byte m x).
Proof.
  intros Hinv Hspan. split.
  - split.
    + intros Hn. destruct (platform_build n tpm usb) as [T HT]; [unfold MAX_CPUS; lia|].
      destruct (install_build n tpm usb m T) as (m' & _ & _ & _ & _ & Hi); [done|done|lia|done|]. rewrite Hi, bool_decide_eq_true_2 by lia. by eexists.
    + intros [r Hr]. pose proof Hr as (p & (T & HT & _)%bind_Ok & _)%bind_Ok. pose proof (build_cpus _ _ _ _ HT) as Hn. unfold MAX_CPUS in Hn.
      destruct (install_build n tpm usb m T) as (m' & _ & _ & _ & _ & Hi); [done|done|lia|done|]. rewrite Hi in Hr. case_bool_decide; [lia|done].
  - intros ts m' Hr. pose proof Hr as (p & (T & HT & _)%bind_Ok & _)%bind_Ok. pose proof (build_cpus _ _ _ _ HT) as Hn. unfold MAX_CPUS in Hn.
    destruct (install_build n tpm usb m T) as (m1 & Hh & Hi1 & Hfr & Hv & Hi); [done|done|lia|done|]. rewrite Hi in Hr. case_bool_decide; [|done].
    apply Ok_inj in Hr. injection Hr as <- <-. pose proof (platform_config_ok n tpm usb ltac:(lia)) as Hc.
    destruct (build_layout ACPI_BASE ACPI_SIZE _ T Hc ltac:(fits_closed) HT) as (xs & fa & ds & xg & fg & dg & leaves & gpas & HL).
    split; [|split; [exact (ly_laid _ _ _ _ _ _ _ _ _ _ _ _ HL)|split; [|done]]].
    + rewrite HT. f_equal. rewrite <- (build_base _ _ _ _ HT) at 1. by destruct T.
    + apply list.Forall_and. split; [by eapply layout_aligned|by eapply verify_checksums].
Qed.
End Boot.

(** *** A guest memory with the window *)

Definition acpi_ram : Memory :=
  {| m_regions := [ {| r_gpa := ACPI_BASE; r_size := ACPI_SIZE; r_host := 2 ^ 33; r_bytes := ∅; r_guest_mapped := true |} ] |}.

Lemma acpi_ram_wf : bm_inv acpi_ram.
Proof. apply (bool_decide_unpack (wf acpi_ram)). vm_compute. exact I. Qed.

Lemma acpi_ram_span : bm_span acpi_ram ACPI_BASE ACPI_SIZE.
Proof. by eexists 0%nat, _. Qed.

(** Two CPUs boot; none and a hundred and twenty-four do not. *)
Lemma acpi_install_exact_witness :
  (exists r, install (vm_acpi_config 2 true false) acpi_ram = Ok r) /\
  (~ exists r, install (vm_acpi_config 0 true true) acpi_ram = Ok r) /\
  ~ exists r, install (vm_acpi_config 124 false false) acpi_ram = Ok r.
Proof.
  split; [|split].
  - apply (acpi_install_exact 2 true false acpi_ram acpi_ram_wf acpi_ram_span). lia.
  - intros H. apply (acpi_install_exact 0 true true acpi_ram acpi_ram_wf acpi_ram_span) in H. lia.
  - intros H. apply (acpi_install_exact 124 false false acpi_ram acpi_ram_wf acpi_ram_span) in H. lia.
Defined.
