(* ===== verification/AcpiLoader.v ===== *)
(** * The firmware's ACPI loader files

    Model of [ternvale-acpi/src/loader_command.rs] and [loader.rs], and of
    [fw_cfg_for] of [ternvale-vmm/src/acpi.rs].  A file name is its bytes; the
    text of an error is left out.  The firmware is EDK2's [QemuFwCfgAcpi.c] as
    [edk2_install] of [ternvale-acpi/src/loader_tests.rs] has it: its first pass,
    with its checks, for the addresses the firmware allocates ([edk2_pass1]).
    Its second pass, which picks the tables to install, is not modelled. *)

From stdpp Require Import list strings.
From S2P Require Import Prelude FwCfg GuestMemory Platform AcpiSdt AcpiLeaf AcpiAml AcpiBuild AcpiPlatform.

(** ** Commands ([loader_command.rs]) *)

Definition LOADER_ENTRY_LEN : nat := 128.
Definition FNAME_LEN : nat := 56.

Inductive Zone := High | FSeg.
Definition zone_byte (z : Zone) : Z := match z with High => 1 | FSeg => 2 end.

Inductive LoaderCommand :=
  | Allocate (file : list Z) (align : Z) (zone : Zone)
  | AddPointer (pointer pointee : list Z) (offset size : Z)
  | AddChecksum (file : list Z) (result_ start len : Z).

Definition bad_loader : AcpiError := BadTable (ascii_bytes "acpi loader") 0.

(** The entry with [name] in its field at [at_]. *)
Definition put_name (entry : list Z) (at_ : nat) (name : list Z) : result AcpiError (list Z) :=
  if bool_decide (name = []) || bool_decide (FNAME_LEN <= length name)%nat || bool_decide (0 ∈ name) then Err bad_loader
  else Ok (patch entry at_ name).

Definition encode (c : LoaderCommand) : result AcpiError (list Z) :=
  let entry := replicate LOADER_ENTRY_LEN 0 in
  match c with
  | Allocate file align zone =>
      let entry := patch entry 0 (le_bytes 4 1) in
      entry ← put_name entry 4 file;
      let entry := patch entry 60 (le_bytes 4 align) in
      Ok (<[64%nat := zone_byte zone]> entry)
  | AddPointer pointer pointee offset size =>
      let entry := patch entry 0 (le_bytes 4 2) in
      entry ← put_name entry 4 pointer;
      entry ← put_name entry 60 pointee;
      let entry := patch entry 116 (le_bytes 4 offset) in
      Ok (<[120%nat := size]> entry)
  | AddChecksum file result_ start len =>
      let entry := patch entry 0 (le_bytes 4 3) in
      entry ← put_name entry 4 file;
      let entry := patch entry 60 (le_bytes 4 result_) in
      let entry := patch entry 64 (le_bytes 4 start) in
      Ok (patch entry 68 (le_bytes 4 len))
  end.

Definition get_name (field : list Z) : result AcpiError (list Z) :=
  match position (fun b => b =? 0) field with
  | None => Err bad_loader
  | Some end_ => let name := take end_ field in if utf8_valid name then Ok name else Err bad_loader
  end.

Definition decode (entry : list Z) : result AcpiError LoaderCommand :=
  if negb (bool_decide (length entry = LOADER_ENTRY_LEN)) then Err (Truncated "loader entry" (Z.of_nat (length entry)) (Z.of_nat LOADER_ENTRY_LEN))
  else
    let u32 := fun at_ => of_le (sub entry at_ 4) in
    let byte := fun at_ => default 0 (entry !! at_) in
    let kind := u32 0%nat in
    if kind =? 1 then
      file ← get_name (sub entry 4 FNAME_LEN);
      if byte 64%nat =? 1 then Ok (Allocate file (u32 60%nat) High)
      else if byte 64%nat =? 2 then Ok (Allocate file (u32 60%nat) FSeg)
      else Err bad_loader
    else if kind =? 2 then
      pointer ← get_name (sub entry 4 FNAME_LEN);
      pointee ← get_name (sub entry 60 FNAME_LEN);
      Ok (AddPointer pointer pointee (u32 116%nat) (byte 120%nat))
    else if kind =? 3 then
      file ← get_name (sub entry 4 FNAME_LEN);
      Ok (AddChecksum file (u32 60%nat) (u32 64%nat) (u32 68%nat))
    else Err bad_loader.

(** ** Blobs ([loader.rs]) *)

Definition LOADER_FILE : list Z := ascii_bytes "etc/table-loader".
Definition TABLES_FILE : list Z := ascii_bytes "etc/acpi/tables".
Definition RSDP_FILE : list Z := ascii_bytes "etc/acpi/rsdp".
Definition RSDP_RSDT_OFFSET : nat := 16.
Definition FIRMWARE_CTRL_OFFSET : nat := 36.
Definition X_FIRMWARE_CTRL_OFFSET : nat := 132.
Definition RSDP_ALIGN : Z := 16.
Definition TABLES_ALIGN : Z := 64.
Definition MAX_TABLES_BYTES : Z := Z.shiftl 1 20.

Record LoaderBlobs := { lb_rsdp : list Z; lb_tables : list Z; lb_commands : list LoaderCommand }.

Definition read_le (bytes : list Z) : Z := of_le bytes.

Definition allocate (file : list Z) (align : Z) (zone : Zone) : LoaderCommand := Allocate file align zone.
Definition add_pointer (file : list Z) (offset size : nat) : LoaderCommand :=
  AddPointer file TABLES_FILE (wrap 32 (Z.of_nat offset)) (wrap 8 (Z.of_nat size)).
Definition add_checksum (file : list Z) (result_ start len : nat) : LoaderCommand :=
  AddChecksum file (wrap 32 (Z.of_nat result_)) (wrap 32 (Z.of_nat start)) (wrap 32 (Z.of_nat len)).

(** The pointer fields of a table: offset and size. *)
Definition pointer_fields (signature : list Z) (len : nat) : list (nat * nat) :=
  if bool_decide (signature = XSDT_SIGNATURE) then
    (fun i => (SDT_HEADER_LEN + 8 * i, 8)%nat) <$> seq 0 ((len - 7 - SDT_HEADER_LEN + 7) / 8)
  else if bool_decide (signature = FADT_SIGNATURE) then
    List.filter (fun f => bool_decide (f.1 + f.2 <= len)%nat)
      [(FIRMWARE_CTRL_OFFSET, 4%nat); (DSDT_OFFSET, 4%nat); (X_FIRMWARE_CTRL_OFFSET, 8%nat); (X_DSDT_OFFSET, 8%nat)]
  else [].

(** [sort_by_key(|t| t.gpa)] keeps the order of equal keys. *)
Fixpoint insert_by_gpa (t : Table) (l : list Table) : list Table :=
  match l with
  | [] => [t]
  | u :: l => if tb_gpa t <? tb_gpa u then t :: u :: l else u :: insert_by_gpa t l
  end.
Definition sort_by_gpa (l : list Table) : list Table := fold_left (fun acc t => insert_by_gpa t acc) l [].

(** The tables at their offsets from [start], after [blob]. *)
Fixpoint place (start : Z) (sdts : list Table) (blob : list Z) (offsets : list (list Z * nat * nat)) : result AcpiError (list Z * list (list Z * nat * nat)) :=
  match sdts with
  | [] => Ok (blob, offsets)
  | sdt :: sdts =>
      if bool_decide (length (tb_bytes sdt) < SDT_HEADER_LEN)%nat then Err bad_loader
      else
        let offset := tb_gpa sdt - start in
        let end_ := offset + Z.of_nat (length (tb_bytes sdt)) in
        if (offset <? Z.of_nat (length blob)) || (MAX_TABLES_BYTES <? end_) then Err bad_loader
        else
          let blob := blob ++ replicate (Z.to_nat offset - length blob) 0 ++ tb_bytes sdt in
          place start sdts blob (offsets ++ [(tb_signature sdt, Z.to_nat offset, length (tb_bytes sdt))])
  end.

Definition target (sdts : list Table) (start value : Z) : result AcpiError Z :=
  if existsb (fun t => tb_gpa t =? value) sdts then Ok (value - start) else Err bad_loader.

(** The pointer fields at [fields] of the table at [at_] made relative. *)
Fixpoint relative_fields (file : list Z) (sdts : list Table) (start : Z) (at_ : nat) (fields : list (nat * nat)) (blob : list Z) (commands : list LoaderCommand)
    : result AcpiError (list Z * list LoaderCommand) :=
  match fields with
  | [] => Ok (blob, commands)
  | (field, size) :: fields =>
      let pos := (at_ + field)%nat in
      let value := read_le (sub blob pos size) in
      if value =? 0 then relative_fields file sdts start at_ fields blob commands
      else
        relative ← target sdts start value;
        relative_fields file sdts start at_ fields (patch blob pos (le_bytes size relative)) (commands ++ [add_pointer file pos size])
  end.

Fixpoint relative_tables (sdts : list Table) (start : Z) (offsets : list (list Z * nat * nat)) (blob : list Z) (commands : list LoaderCommand)
    : result AcpiError (list Z * list LoaderCommand) :=
  match offsets with
  | [] => Ok (blob, commands)
  | (signature, at_, len) :: offsets =>
      p ← relative_fields TABLES_FILE sdts start at_ (pointer_fields signature len) blob commands;
      relative_tables sdts start offsets p.1 p.2
  end.

Fixpoint clear_sums (offsets : list (list Z * nat * nat)) (blob : list Z) (commands : list LoaderCommand) : list Z * list LoaderCommand :=
  match offsets with
  | [] => (blob, commands)
  | (_, at_, len) :: offsets =>
      clear_sums offsets (<[(at_ + SDT_CHECKSUM_OFFSET)%nat := 0]> blob) (commands ++ [add_checksum TABLES_FILE (at_ + SDT_CHECKSUM_OFFSET) at_ len])
  end.

Definition blobs_build (tables : list Table) : result AcpiError LoaderBlobs :=
  match List.filter is_rsdp tables with
  | [rsdp] =>
      if negb (bool_decide (length (tb_bytes rsdp) = RSDP_LEN)) then Err bad_loader
      else
        let sdts := sort_by_gpa (List.filter (fun t => negb (is_rsdp t)) tables) in
        match sdts with
        | [] => Err bad_loader
        | first :: _ =>
            let start := tb_gpa first in
            p ← place start sdts [] [];
            let '(blob, offsets) := p in
            let commands := [allocate RSDP_FILE RSDP_ALIGN FSeg; allocate TABLES_FILE TABLES_ALIGN High] in
            p ← relative_tables sdts start offsets blob commands;
            let '(blob, commands) := clear_sums offsets p.1 p.2 in
            p ← relative_fields RSDP_FILE sdts start 0 [(RSDP_RSDT_OFFSET, 4%nat); (RSDP_XSDT_OFFSET, 8%nat)] (tb_bytes rsdp) commands;
            let rsdp_blob := <[RSDP_EXT_CHECKSUM_OFFSET := 0]> (<[RSDP_CHECKSUM_OFFSET := 0]> p.1) in
            Ok {| lb_rsdp := rsdp_blob; lb_tables := blob;
                  lb_commands := p.2 ++ [add_checksum RSDP_FILE RSDP_CHECKSUM_OFFSET 0 RSDP_V1_LEN;
                                         add_checksum RSDP_FILE RSDP_EXT_CHECKSUM_OFFSET 0 RSDP_LEN] |}
        end
  | _ => Err bad_loader
  end.

Definition loader (b : LoaderBlobs) : result AcpiError (list Z) :=
  entries ← map_result encode (lb_commands b); Ok (mjoin (M := list) entries).

Definition files (b : LoaderBlobs) : result AcpiError (list (list Z * list Z)) :=
  l ← loader b; Ok [(RSDP_FILE, lb_rsdp b); (TABLES_FILE, lb_tables b); (LOADER_FILE, l)].

(** [fw_cfg_for]: the device that offers the files. *)
Definition fw_cfg_for (tables : list Table) (extra : option (list Z * list Z)) : result (AcpiError + FileError) FwCfg :=
  match (blobs ← blobs_build tables; files blobs) with
  | Err e => Err (inl e)
  | Ok fs => match fw_new (fs ++ match extra with Some f => [f] | None => [] end) with Ok d => Ok d | Err e => Err (inr e) end
  end.

(** ** Commands are read back *)

(** What a script holds. *)
Definition name_ok (n : list Z) : Prop := n <> [] /\ (length n < FNAME_LEN)%nat /\ 0 ∉ n /\ Forall (fits 8) n /\ utf8_valid n = true.

Definition command_ok (c : LoaderCommand) : Prop :=
  match c with
  | Allocate file align _ => name_ok file /\ fits 32 align
  | AddPointer pointer pointee offset size => name_ok pointer /\ name_ok pointee /\ fits 32 offset /\ fits 8 size
  | AddChecksum file result_ start len => name_ok file /\ fits 32 result_ /\ fits 32 start /\ fits 32 len
  end.

Lemma length_patch l i bs : (i + length bs <= length l)%nat -> length (patch l i bs) = length l.
Proof. intros H. unfold patch. rewrite !length_app, length_take, length_drop. lia. Qed.

Lemma sub_patch_same l i bs : (i + length bs <= length l)%nat -> sub (patch l i bs) i (length bs) = bs.
Proof.
  intros H. unfold patch. apply sub_app_l; [|done]. rewrite length_take. lia.
Qed.

Lemma lookup_patch l i bs k :
  (i + length bs <= length l)%nat -> patch l i bs !! k = if bool_decide (i <= k < i + length bs)%nat then bs !! (k - i)%nat else l !! k.
Proof.
  intros H. unfold patch. assert (Ht : length (take i l) = i) by (rewrite length_take; lia). case_bool_decide as Hk.
  - rewrite lookup_app_r, Ht by lia. by rewrite lookup_app_l by lia.
  - destruct (decide (k < i)%nat); [by rewrite lookup_app_l, lookup_take_lt by lia|].
    rewrite lookup_app_r, Ht by lia. rewrite lookup_app_r, lookup_drop by lia. f_equal. lia.
Qed.

Lemma sub_patch_other l i bs k n : (i + length bs <= length l)%nat -> (k + n <= i \/ i + length bs <= k)%nat -> sub (patch l i bs) k n = sub l k n.
Proof.
  intros H Hd. apply list_eq. intros j. rewrite !sub_lookup. case_bool_decide; [|done]. rewrite lookup_patch by done. by rewrite bool_decide_eq_false_2 by lia.
Qed.

Lemma put_name_ok entry at_ n : name_ok n -> put_name entry at_ n = Ok (patch entry at_ n).
Proof.
  intros (H1 & H2 & H3 & _). unfold put_name. rewrite (bool_decide_eq_false_2 (n = [])) by done.
  rewrite (bool_decide_eq_false_2 (FNAME_LEN <= length n)%nat) by lia. by rewrite bool_decide_eq_false_2.
Qed.

Lemma position_nul n k : 0 ∉ n -> (0 < k)%nat -> position (fun b => b =? 0) (n ++ replicate k 0) = Some (length n).
Proof.
  intros Hn Hk. induction n as [|b n IH]; [by destruct k; [lia|]|]. apply not_elem_of_cons in Hn as [Hb Hn]. cbn [app position].
  destruct (Z.eqb_spec b 0); [done|]. by rewrite IH.
Qed.

Lemma get_name_ok n k : name_ok n -> (0 < k)%nat -> get_name (n ++ replicate k 0) = Ok n.
Proof.
  intros (_ & _ & H3 & _ & H5) Hk. unfold get_name. rewrite position_nul by done. by rewrite take_app_length, H5.
Qed.

(** The field of a name in an entry that is zero there. *)
Lemma name_field entry at_ n :
  name_ok n -> (at_ + FNAME_LEN <= length entry)%nat -> sub entry at_ FNAME_LEN = replicate FNAME_LEN 0 ->
  sub (patch entry at_ n) at_ FNAME_LEN = n ++ replicate (FNAME_LEN - length n) 0.
Proof.
  intros (_ & Hl & _) Hle Hz. apply list_eq. intros k. rewrite sub_lookup. case_bool_decide as Hk.
  - rewrite lookup_patch by lia. destruct (decide (k < length n)%nat).
    + rewrite bool_decide_eq_true_2, lookup_app_l by lia. f_equal. lia.
    + rewrite bool_decide_eq_false_2, lookup_app_r by lia. rewrite lookup_replicate_2 by lia.
      apply (f_equal (fun l => l !! k)) in Hz. rewrite sub_lookup, bool_decide_eq_true_2, lookup_replicate_2 in Hz by done. exact Hz.
  - symmetry. apply lookup_ge_None_2. rewrite length_app, length_replicate. unfold FNAME_LEN in *. lia.
Qed.

Lemma patch_len l n i bs : length l = n -> (i + length bs <= n)%nat -> length (patch l i bs) = n.
Proof. intros <-. apply length_patch. Qed.

(** Read a field of an entry through the writes after it. *)
Ltac through_patch L := rewrite sub_patch_other by (unfold FNAME_LEN; rewrite ?length_le_bytes, ?L; lia).
Ltac entry_length := apply patch_len; [done|rewrite ?length_le_bytes; lia].

(** The common start of every entry: the kind, then a name. *)
Lemma entry_start kind n e :
  fits 32 kind -> name_ok n -> e = patch (patch (replicate LOADER_ENTRY_LEN 0) 0 (le_bytes 4 kind)) 4 n ->
  length e = 128%nat /\ sub e 0 4 = le_bytes 4 kind /\ sub e 4 FNAME_LEN = n ++ replicate (FNAME_LEN - length n) 0 /\
  sub e 60 FNAME_LEN = replicate FNAME_LEN 0.
Proof.
  intros Hk Hn ->. pose proof Hn as (_ & Hl & _). unfold FNAME_LEN in Hl. set (e0 := replicate LOADER_ENTRY_LEN 0). set (e1 := patch e0 0 _).
  assert (L0 : length e0 = 128%nat) by done. assert (L1 : length e1 = 128%nat) by (apply patch_len; [done|cbn; lia]).
  split; [entry_length|]. split; [through_patch L1; apply (sub_patch_same e0 0 (le_bytes 4 kind)); cbn; lia|].
  split; [by apply name_field; [|rewrite L1; unfold FNAME_LEN; lia|]|]. through_patch L1. reflexivity.
Qed.

Lemma decode_start e kind n :
  length e = 128%nat -> fits 32 kind -> name_ok n -> sub e 0 4 = le_bytes 4 kind -> sub e 4 FNAME_LEN = n ++ replicate (FNAME_LEN - length n) 0 ->
  bool_decide (length e = LOADER_ENTRY_LEN) = true /\ of_le (sub e 0 4) = kind /\ get_name (sub e 4 FNAME_LEN) = Ok n.
Proof.
  intros L Hk Hn K N. split; [by apply bool_decide_eq_true_2|]. rewrite K, N. split; [by apply of_le_le_bytes_fits|].
  apply get_name_ok; [done|]. destruct Hn as (_ & Hl & _). lia.
Qed.

Lemma allocate_decoded file align zone :
  name_ok file -> fits 32 align -> exists e, encode (Allocate file align zone) = Ok e /\ length e = LOADER_ENTRY_LEN /\ decode e = Ok (Allocate file align zone).
Proof.
  intros Hn Ha. unfold encode. rewrite put_name_ok by done. cbn [mbind result_bind].
  set (e2 := patch _ 4 file). destruct (entry_start 1 file e2 ltac:(fits_closed) Hn eq_refl) as (L2 & K & N & _).
  set (e3 := patch e2 60 _). set (e4 := <[64%nat := _]> e3). assert (L3 : length e3 = 128%nat) by entry_length.
  assert (L4 : length e4 = 128%nat) by (unfold e4; by rewrite length_insert). exists e4. split; [done|]. split; [done|].
  destruct (decode_start e4 1 file L4 ltac:(fits_closed) Hn) as (D1 & D2 & D3).
  { unfold e4. rewrite sub_insert by lia. unfold e3. by through_patch L2. }
  { unfold e4. rewrite sub_insert by (unfold FNAME_LEN; lia). unfold e3. by through_patch L2. }
  assert (A : sub e4 60 4 = le_bytes 4 align).
  { unfold e4. rewrite sub_insert by lia. apply (sub_patch_same e2 60 (le_bytes 4 align)). rewrite length_le_bytes, L2. lia. }
  assert (Z4 : e4 !! 64%nat = Some (zone_byte zone)) by (apply list_lookup_insert_eq; lia).
  unfold decode. rewrite D1, D2. cbn [negb]. cbv zeta. cbn [Z.eqb Pos.eqb]. rewrite D3, A, Z4, of_le_le_bytes_fits by done. by destruct zone.
Qed.

Lemma pointer_decoded pointer pointee offset size :
  name_ok pointer -> name_ok pointee -> fits 32 offset -> fits 8 size ->
  exists e, encode (AddPointer pointer pointee offset size) = Ok e /\ length e = LOADER_ENTRY_LEN /\ decode e = Ok (AddPointer pointer pointee offset size).
Proof.
  intros Hn Hp Ho Hs. unfold encode. rewrite put_name_ok by done. cbn [mbind result_bind]. rewrite put_name_ok by done. cbn [mbind result_bind].
  set (e2 := patch _ 4 pointer). destruct (entry_start 2 pointer e2 ltac:(fits_closed) Hn eq_refl) as (L2 & K & N & Zr).
  pose proof Hp as (_ & Hl & _). unfold FNAME_LEN in Hl.
  set (e3 := patch e2 60 pointee). set (e4 := patch e3 116 _). set (e5 := <[120%nat := _]> e4).
  assert (L3 : length e3 = 128%nat) by entry_length. assert (L4 : length e4 = 128%nat) by entry_length.
  assert (L5 : length e5 = 128%nat) by (unfold e5; by rewrite length_insert). exists e5. split; [done|]. split; [done|].
  destruct (decode_start e5 2 pointer L5 ltac:(fits_closed) Hn) as (D1 & D2 & D3).
  { unfold e5. rewrite sub_insert by lia. unfold e4. through_patch L3. unfold e3. by through_patch L2. }
  { unfold e5. rewrite sub_insert by (unfold FNAME_LEN; lia). unfold e4. through_patch L3. unfold e3. by through_patch L2. }
  assert (P : get_name (sub e5 60 FNAME_LEN) = Ok pointee).
  { unfold e5. rewrite sub_insert by (unfold FNAME_LEN; lia). unfold e4. through_patch L3. unfold e3.
    rewrite name_field by (done || (rewrite L2; unfold FNAME_LEN; lia)). apply get_name_ok; [done|unfold FNAME_LEN; lia]. }
  assert (A : sub e5 116 4 = le_bytes 4 offset).
  { unfold e5. rewrite sub_insert by lia. apply (sub_patch_same e3 116 (le_bytes 4 offset)). rewrite length_le_bytes, L3. lia. }
  assert (Z5 : e5 !! 120%nat = Some size) by (apply list_lookup_insert_eq; lia).
  unfold decode. rewrite D1, D2. cbn [negb]. cbv zeta. cbn [Z.eqb Pos.eqb]. rewrite D3. cbn [mbind result_bind].
  rewrite P, A, Z5, of_le_le_bytes_fits by done. done.
Qed.

Lemma checksum_decoded file r start len :
  name_ok file -> fits 32 r -> fits 32 start -> fits 32 len ->
  exists e, encode (AddChecksum file r start len) = Ok e /\ length e = LOADER_ENTRY_LEN /\ decode e = Ok (AddChecksum file r start len).
Proof.
  intros Hn Hr Hs Hl. unfold encode. rewrite put_name_ok by done. cbn [mbind result_bind].
  set (e2 := patch _ 4 file). destruct (entry_start 3 file e2 ltac:(fits_closed) Hn eq_refl) as (L2 & K & N & _).
  set (e3 := patch e2 60 _). set (e4 := patch e3 64 _). set (e5 := patch e4 68 _).
  assert (L3 : length e3 = 128%nat) by entry_length. assert (L4 : length e4 = 128%nat) by entry_length. assert (L5 : length e5 = 128%nat) by entry_length.
  exists e5. split; [done|]. split; [done|].
  destruct (decode_start e5 3 file L5 ltac:(fits_closed) Hn) as (D1 & D2 & D3).
  { unfold e5. through_patch L4. unfold e4. through_patch L3. unfold e3. by through_patch L2. }
  { unfold e5. through_patch L4. unfold e4. through_patch L3. unfold e3. by through_patch L2. }
  assert (A : sub e5 60 4 = le_bytes 4 r).
  { unfold e5. through_patch L4. unfold e4. through_patch L3. apply (sub_patch_same e2 60 (le_bytes 4 r)). rewrite length_le_bytes, L2. lia. }
  assert (B : sub e5 64 4 = le_bytes 4 start).
  { unfold e5. through_patch L4. apply (sub_patch_same e3 64 (le_bytes 4 start)). rewrite length_le_bytes, L3. lia. }
  assert (C : sub e5 68 4 = le_bytes 4 len).
  { apply (sub_patch_same e4 68 (le_bytes 4 len)). rewrite length_le_bytes, L4. lia. }
  unfold decode. rewrite D1, D2. cbn [negb]. cbv zeta. cbn [Z.eqb Pos.eqb]. rewrite D3. cbn [mbind result_bind].
  by rewrite A, B, C, !of_le_le_bytes_fits by done.
Qed.

Lemma command_decoded c : command_ok c -> exists e, encode c = Ok e /\ length e = LOADER_ENTRY_LEN /\ decode e = Ok c.
Proof.
  destruct c; cbn [command_ok]; [intros [? ?]; by apply allocate_decoded|intros (? & ? & ? & ?); by apply pointer_decoded|
    intros (? & ? & ? & ?); by apply checksum_decoded].
Qed.

(** The entries of a script, as the firmware cuts it. *)
Fixpoint read_script (fuel : nat) (l : list Z) : result AcpiError (list LoaderCommand) :=
  match fuel with
  | O => Ok []
  | S fuel => c ← decode (take LOADER_ENTRY_LEN l); rest ← read_script fuel (drop LOADER_ENTRY_LEN l); Ok (c :: rest)
  end.

Lemma script_read cs : Forall command_ok cs ->
  exists es, map_result encode cs = Ok es /\ length (mjoin (M := list) es) = (LOADER_ENTRY_LEN * length cs)%nat /\ read_script (length cs) (mjoin (M := list) es) = Ok cs.
Proof.
  induction 1 as [|c cs Hc _ (es & He & Hlen & IH)]; [by exists []|]. destruct (command_decoded c Hc) as (e & Ee & Le & De).
  exists (e :: es). cbn [map_result]. rewrite Ee. cbn [mbind result_bind]. rewrite He. cbn [mbind result_bind]. split; [done|].
  change (mjoin (e :: es)) with (e ++ mjoin es). split; [rewrite length_app, Le, Hlen; cbn [length]; lia|]. cbn [length read_script]. rewrite take_app_length', drop_app_length' by done.
  rewrite De. cbn [mbind result_bind]. by rewrite IH.
Qed.

(** ** What the firmware makes of a script ([edk2_install], pass 1) *)

Inductive InstallError :=
  | NoLoader | BadSize | BadEntry (e : AcpiError)
  | UnsupportedAlignment | NoFile | NoBase | Misaligned | Duplicated
  | InvalidPointee | InvalidPointerFile | InvalidLocation | InvalidValue | Overflow | Unrepresentable
  | InvalidBlob | InvalidRange.

(** Each allocated file: its address and its contents. *)
Notation Blobs := (gmap (list Z) (Z * list Z)).

Fixpoint find_by {A} (name : list Z) (l : list (list Z * A)) : option A :=
  match l with [] => None | (n, x) :: l => if bool_decide (n = name) then Some x else find_by name l end.

Definition edk2_command (files : list (list Z * list Z)) (bases : list (list Z * Z)) (blobs : Blobs) (c : LoaderCommand) : result InstallError Blobs :=
  match c with
  | Allocate name align _ =>
      if 4096 <? align then Err UnsupportedAlignment
      else
        bytes ← ok_or (find_by name files) NoFile;
        base ← ok_or (find_by name bases) NoBase;
        if negb (base mod align =? 0) then Err Misaligned
        else if bool_decide (is_Some (blobs !! name)) then Err Duplicated
        else Ok (<[name := (base, bytes)]> blobs)
  | AddPointer pointer pointee offset size =>
      target ← ok_or (blobs !! pointee) InvalidPointee;
      holder ← ok_or (blobs !! pointer) InvalidPointerFile;
      let blob := holder.2 in
      let at_ := Z.to_nat offset in
      let n := Z.to_nat size in
      if negb (bool_decide (n ∈ [1; 2; 4; 8]%nat)) || bool_decide (length blob < n)%nat || bool_decide (length blob - n < at_)%nat then Err InvalidLocation
      else
        let value := of_le (sub blob at_ n) in
        if Z.of_nat (length target.2) <=? value then Err InvalidValue
        else
          value ← ok_or (checked_add 64 value target.1) Overflow;
          if bool_decide (n < 8)%nat && negb (Z.shiftr value (8 * Z.of_nat n) =? 0) then Err Unrepresentable
          else Ok (<[pointer := (holder.1, patch blob at_ (le_bytes n value))]> blobs)
  | AddChecksum name result_ start len =>
      holder ← ok_or (blobs !! name) InvalidBlob;
      let blob := holder.2 in
      let r := Z.to_nat result_ in
      let n := Z.to_nat len in
      let at_ := Z.to_nat start in
      if bool_decide (length blob <= r)%nat || bool_decide (length blob < n)%nat || bool_decide (length blob - n < at_)%nat then Err InvalidRange
      else Ok (<[name := (holder.1, <[r := wrapping_sub 8 0 (byte_sum (sub blob at_ n))]> blob)]> blobs)
  end.

Fixpoint edk2_commands (files : list (list Z * list Z)) (bases : list (list Z * Z)) (cs : list LoaderCommand) (blobs : Blobs) : result InstallError Blobs :=
  match cs with
  | [] => Ok blobs
  | c :: cs => blobs ← edk2_command files bases blobs c; edk2_commands files bases cs blobs
  end.

Definition edk2_pass1 (files : list (list Z * list Z)) (bases : list (list Z * Z)) : result InstallError Blobs :=
  loader ← ok_or (find_by LOADER_FILE files) NoLoader;
  if negb (bool_decide (length loader mod LOADER_ENTRY_LEN = 0)%nat) then Err BadSize
  else
    match read_script (length loader / LOADER_ENTRY_LEN) loader with
    | Err e => Err (BadEntry e)
    | Ok commands => edk2_commands files bases commands ∅
    end.

(** *** Writes to separate fields *)

Notation Field := (nat * nat)%type.

Fixpoint ordered (lo : nat) (fs : list Field) (hi : nat) : Prop :=
  match fs with [] => (lo <= hi)%nat | (p, s) :: fs => (lo <= p)%nat /\ ordered (p + s) fs hi end.

Lemma ordered_le lo fs hi : ordered lo fs hi -> (lo <= hi)%nat.
Proof. revert lo. induction fs as [|[p s] fs IH]; intros lo; [done|]. intros [? H%IH]. lia. Qed.

Lemma ordered_In lo fs hi p s : ordered lo fs hi -> (p, s) ∈ fs -> (lo <= p /\ p + s <= hi)%nat.
Proof.
  revert lo. induction fs as [|[q t] fs IH]; intros lo; [by intros _ ?%not_elem_of_nil|]. intros [? H] [[= -> ->]|Hin]%elem_of_cons.
  - apply ordered_le in H. lia.
  - destruct (IH _ H Hin). lia.
Qed.

Lemma ordered_filter (f : Field -> bool) lo fs hi : ordered lo fs hi -> ordered lo (List.filter f fs) hi.
Proof.
  revert lo. induction fs as [|[p s] fs IH]; intros lo; [done|]. intros [? H]. cbn [List.filter]. destruct (f (p, s)); [by split; [|apply IH]|].
  apply IH. clear IH. destruct fs as [|[q t] fs]; cbn in *; lia || (destruct H; split; [lia|done]).
Qed.

Lemma ordered_weaken lo lo' fs hi hi' : (lo' <= lo)%nat -> (hi <= hi')%nat -> ordered lo fs hi -> ordered lo' fs hi'.
Proof.
  revert lo lo'. induction fs as [|[p s] fs IH]; intros lo lo' Hl Hh; cbn; [lia|]. intros [Hp Ho]. split; [lia|]. by eapply IH; [| |exact Ho].
Qed.

Lemma ordered_app lo fs mid gs hi : ordered lo fs mid -> ordered mid gs hi -> ordered lo (fs ++ gs) hi.
Proof.
  revert lo. induction fs as [|[p s] fs IH]; intros lo H1 H2; cbn in *; [by eapply ordered_weaken; [| |exact H2]|].
  destruct H1. split; [done|]. by apply IH.
Qed.

(** A field of [size] bytes at each place, from what was there. *)
Definition rewrite_fields (g : Field -> list Z -> list Z) (fs : list Field) (blob : list Z) : list Z :=
  fold_left (fun b f => patch b f.1 (g f (sub b f.1 f.2))) fs blob.

Definition in_field (i : nat) (f : Field) : Prop := (f.1 <= i < f.1 + f.2)%nat.

Lemma rewrite_fields_spec g fs lo hi blob :
  ordered lo fs hi -> (hi <= length blob)%nat -> (forall f l, length (g f l) = f.2) ->
  length (rewrite_fields g fs blob) = length blob /\
  (forall i, (forall f, f ∈ fs -> ~ in_field i f) -> rewrite_fields g fs blob !! i = blob !! i) /\
  (forall p s, (p, s) ∈ fs -> sub (rewrite_fields g fs blob) p s = g (p, s) (sub blob p s)).
Proof.
  intros Ho Hh Hg. revert lo blob Ho Hh. induction fs as [|[p s] fs IH]; intros lo blob Ho Hh.
  { split; [done|]. split; [done|]. by intros p s ?%not_elem_of_nil. }
  destruct Ho as [Hp Ho]. pose proof (ordered_le _ _ _ Ho) as Hle. unfold rewrite_fields. cbn [fold_left fst snd]. set (b1 := patch blob p _).
  fold (rewrite_fields g fs b1). pose proof (Hg (p, s) (sub blob p s)) as Hl. cbn [snd] in Hl.
  assert (L1 : length b1 = length blob) by (apply length_patch; lia).
  destruct (IH (p + s)%nat b1 Ho ltac:(lia)) as (IHl & IHo & IHi). split; [lia|]. split.
  - intros i Hi. rewrite IHo by (intros f Hf; apply Hi; by right). unfold b1. rewrite lookup_patch by lia.
    rewrite bool_decide_eq_false_2; [done|]. pose proof (Hi (p, s) ltac:(left)) as Hn. unfold in_field in Hn. cbn in Hn. lia.
  - intros q t [[= -> ->]|Hin]%elem_of_cons.
    + assert (Hsame : sub (rewrite_fields g fs b1) p s = sub b1 p s).
      { apply list_eq. intros j. rewrite !sub_lookup. case_bool_decide; [|done]. apply IHo. intros [q t] Hf. unfold in_field. cbn.
        destruct (ordered_In _ _ _ _ _ Ho Hf). lia. }
      rewrite Hsame. pose proof (sub_patch_same blob p (g (p, s) (sub blob p s)) ltac:(lia)) as E. by rewrite Hl in E.
    + rewrite (IHi q t Hin). f_equal. unfold b1. apply sub_patch_other; [lia|]. destruct (ordered_In _ _ _ _ _ Ho Hin). lia.
Qed.

(** *** The script that [blobs_build] writes *)

(** The place of every pointer field of a table in the file. *)
Definition fields_at (o : list Z * nat * nat) : list Field := (fun f => ((o.1.2 + f.1)%nat, f.2)) <$> pointer_fields o.1.1 o.2.
Definition value_at (blob : list Z) (f : Field) : Z := of_le (sub blob f.1 f.2).
Definition nonzero_at (blob : list Z) (f : Field) : bool := negb (value_at blob f =? 0).

Lemma rewrite_one g p s blob k n :
  (forall f l, length (g f l) = f.2) -> (p + s <= length blob)%nat -> (k + n <= p \/ p + s <= k)%nat ->
  sub (patch blob p (g (p, s) (sub blob p s))) k n = sub blob k n.
Proof. intros Hg Hl Hd. apply sub_patch_other; rewrite Hg; cbn; lia. Qed.

Definition make_relative (start : Z) (f : Field) (old : list Z) : list Z := le_bytes f.2 (of_le old - start).
Definition make_absolute (base : Z) (f : Field) (old : list Z) : list Z := le_bytes f.2 (of_le old + base).

Definition shift_fields (at_ : nat) (fs : list Field) : list Field := (fun f => ((at_ + f.1)%nat, f.2)) <$> fs.

Lemma relative_fields_shift file sdts start at_ fields blob commands :
  relative_fields file sdts start at_ fields blob commands = relative_fields file sdts start 0 (shift_fields at_ fields) blob commands.
Proof.
  revert blob commands. induction fields as [|[f s] fields IH]; intros blob commands; [done|].
  unfold shift_fields. cbn [fmap list_fmap relative_fields fst snd Nat.add]. fold (shift_fields at_ fields). destruct (_ =? 0); [apply IH|].
  destruct (target _ _ _); [|done]. cbn [mbind result_bind]. apply IH.
Qed.

Lemma relative_fields_app file sdts start f1 f2 blob commands :
  relative_fields file sdts start 0 (f1 ++ f2) blob commands =
  p ← relative_fields file sdts start 0 f1 blob commands; relative_fields file sdts start 0 f2 p.1 p.2.
Proof.
  revert blob commands. induction f1 as [|[f s] f1 IH]; intros blob commands; [done|]. cbn [app relative_fields].
  destruct (_ =? 0); [apply IH|]. destruct (target _ _ _); [|done]. cbn [mbind result_bind]. apply IH.
Qed.

Lemma relative_tables_flat sdts start offsets blob commands :
  relative_tables sdts start offsets blob commands = relative_fields TABLES_FILE sdts start 0 (offsets ≫= fields_at) blob commands.
Proof.
  revert blob commands. induction offsets as [|[[sig at_] len] offsets IH]; intros blob commands; [done|]. cbn [relative_tables].
  change (((sig, at_, len) :: offsets) ≫= fields_at) with (shift_fields at_ (pointer_fields sig len) ++ (offsets ≫= fields_at)).
  rewrite relative_fields_app, (relative_fields_shift _ _ _ at_).
  destruct (relative_fields TABLES_FILE sdts start 0 (shift_fields at_ (pointer_fields sig len)) blob commands) as [p|]; [|done].
  cbn [mbind result_bind]. apply IH.
Qed.

Lemma filter_ext_on {A} (f g : A -> bool) l : (forall x, x ∈ l -> f x = g x) -> List.filter f l = List.filter g l.
Proof.
  induction l as [|x l IH]; intros H; [done|]. cbn. rewrite (H x) by left. rewrite IH by (intros; apply H; by right). done.
Qed.

Lemma relative_fields_eq file sdts start fields lo hi blob commands blob' commands' :
  ordered lo fields hi -> (hi <= length blob)%nat ->
  relative_fields file sdts start 0 fields blob commands = Ok (blob', commands') ->
  blob' = rewrite_fields (make_relative start) (List.filter (nonzero_at blob) fields) blob /\
  commands' = commands ++ ((fun f => add_pointer file f.1 f.2) <$> List.filter (nonzero_at blob) fields) /\
  Forall (fun f => exists t, t ∈ sdts /\ tb_gpa t = value_at blob f) (List.filter (nonzero_at blob) fields).
Proof.
  revert lo blob commands. induction fields as [|[f s] fields IH]; intros lo blob commands Ho Hh; cbn [relative_fields Nat.add].
  { intros [= <- <-]. split; [done|]. split; [by rewrite app_nil_r|constructor]. }
  destruct Ho as [Hp Ho]. pose proof (ordered_le _ _ _ Ho) as Hle. unfold read_le. change (of_le (sub blob f s)) with (value_at blob (f, s)).
  cbn [List.filter]. unfold nonzero_at at 1 4 7. destruct (Z.eqb_spec (value_at blob (f, s)) 0) as [Hz|Hz]; cbn [negb].
  { by apply (IH (f + s)%nat). }
  unfold target. destruct (existsb _ sdts) eqn:Et; [|done]. cbn [mbind result_bind]. set (b1 := patch blob f _).
  assert (L1 : length b1 = length blob) by (apply length_patch; rewrite length_le_bytes; lia). intros H.
  assert (Hsame : forall q t, (q, t) ∈ fields -> sub b1 q t = sub blob q t).
  { intros q t Hin. destruct (ordered_In _ _ _ _ _ Ho Hin). apply sub_patch_other; rewrite length_le_bytes; lia. }
  assert (Hnz : List.filter (nonzero_at b1) fields = List.filter (nonzero_at blob) fields).
  { apply filter_ext_on. intros [q t] Hin. unfold nonzero_at, value_at. cbn [fst snd]. by rewrite Hsame. }
  destruct (IH (f + s)%nat b1 _ Ho ltac:(lia) H) as (-> & -> & Hall). rewrite Hnz in *. split; [done|]. split; [by rewrite <- app_assoc|].
  constructor.
  - apply existsb_exists in Et as (t & Ht & He%Z.eqb_eq). exists t. split; [by apply list_elem_of_In|done].
  - eapply list.Forall_impl; [apply list.Forall_and; split; [exact Hall|apply list.Forall_forall; intros x Hx; exact Hx]|].
    intros [q t] [(u & Hu & Hv) Hin]. exists u. split; [done|]. rewrite Hv. unfold value_at. cbn [fst snd]. rewrite Hsame; [done|].
    apply list_elem_of_In, filter_In in Hin as [Hin _]. by apply list_elem_of_In.
Qed.

(** *** Where the tables are *)

Notation Offset := (list Z * nat * nat)%type.

Fixpoint tabled (lo : nat) (os : list Offset) (hi : nat) : Prop :=
  match os with [] => (lo <= hi)%nat | (_, at_, len) :: os => (lo <= at_)%nat /\ (SDT_HEADER_LEN <= len)%nat /\ tabled (at_ + len) os hi end.

Lemma tabled_le lo os hi : tabled lo os hi -> (lo <= hi)%nat.
Proof. revert lo. induction os as [|[[s a] n] os IH]; intros lo; [done|]. intros (Hl & _ & Ho%IH). lia. Qed.

Lemma tabled_In lo os hi s a n : tabled lo os hi -> (s, a, n) ∈ os -> (lo <= a /\ SDT_HEADER_LEN <= n /\ a + n <= hi)%nat.
Proof.
  revert lo. induction os as [|[[s' a'] n'] os IH]; intros lo; [by intros _ ?%not_elem_of_nil|].
  intros (Hl & Hn & Ho) [[= -> -> ->]|Hin]%elem_of_cons; [apply tabled_le in Ho; lia|]. destruct (IH _ Ho Hin) as (? & ? & ?). lia.
Qed.

Lemma pointer_fields_ordered sig len : (SDT_HEADER_LEN <= len)%nat -> ordered SDT_HEADER_LEN (pointer_fields sig len) len.
Proof.
  intros Hl. unfold pointer_fields. case_bool_decide.
  - set (k := ((len - 7 - SDT_HEADER_LEN + 7) / 8)%nat). assert (Hk : (SDT_HEADER_LEN + 8 * (0 + k) <= len)%nat).
    { pose proof (Nat.div_mod (len - 7 - SDT_HEADER_LEN + 7) 8 ltac:(done)) as E. fold k in E. unfold SDT_HEADER_LEN in *.
      destruct (decide (len < 43)%nat); [|lia]. replace k with 0%nat; [lia|]. unfold k. symmetry. apply Nat.div_small. lia. }
    assert (Hgen : forall k i, (SDT_HEADER_LEN + 8 * (i + k) <= len)%nat ->
      ordered (SDT_HEADER_LEN + 8 * i) ((fun i => (SDT_HEADER_LEN + 8 * i, 8)%nat) <$> seq i k) len); [|by apply (Hgen k 0%nat)].
    clear. induction k as [|k IH]; intros i Hi; cbn [seq fmap list_fmap ordered]; [lia|]. split; [done|].
    eapply ordered_weaken; [| |apply (IH (S i))]; lia.
  - case_bool_decide; [|done].
    assert (Hgen : forall fs lo, (lo <= len)%nat -> ordered lo fs 1000%nat ->
      ordered lo (List.filter (fun f : Field => bool_decide (f.1 + f.2 <= len)%nat) fs) len).
    { clear. induction fs as [|[p s] fs IH]; intros lo Hlo; [done|]. intros [Hp Ho]. cbn [List.filter fst snd]. case_bool_decide.
      - split; [done|]. by apply IH.
      - apply IH; [done|]. eapply ordered_weaken; [| |exact Ho]; lia. }
    apply Hgen; [done|]. cbn. unfold SDT_HEADER_LEN, FIRMWARE_CTRL_OFFSET, DSDT_OFFSET, X_FIRMWARE_CTRL_OFFSET, X_DSDT_OFFSET. lia.
Qed.

Lemma shift_ordered k lo fs hi : ordered lo fs hi -> ordered (k + lo) (shift_fields k fs) (k + hi).
Proof.
  revert lo. induction fs as [|[p s] fs IH]; intros lo; cbn [ordered]; [cbn; lia|]. intros [Hp Ho]. unfold shift_fields. cbn [fmap list_fmap ordered fst snd].
  split; [lia|]. replace (k + p + s)%nat with (k + (p + s))%nat by lia. by apply IH.
Qed.

Lemma fields_at_ordered o : (SDT_HEADER_LEN <= o.2)%nat -> ordered (o.1.2 + SDT_HEADER_LEN) (fields_at o) (o.1.2 + o.2).
Proof. intros H. by apply shift_ordered, pointer_fields_ordered. Qed.

Lemma flat_ordered lo os hi : tabled lo os hi -> ordered lo (os ≫= fields_at) hi.
Proof.
  revert lo. induction os as [|[[s a] n] os IH]; intros lo; [done|]. intros (Hl & Hn & Ho). cbn [mbind list_bind].
  eapply ordered_app; [|by apply IH]. eapply ordered_weaken; [| |apply (fields_at_ordered (s, a, n)); done]; cbn; lia.
Qed.

(** A place of a table that is in no field of the table is in no field at all. *)
Lemma flat_fields_of lo os hi s a n i p t :
  tabled lo os hi -> (s, a, n) ∈ os -> (a <= i < a + n)%nat -> (p, t) ∈ (os ≫= fields_at) -> in_field i (p, t) -> (p, t) ∈ fields_at (s, a, n).
Proof.
  revert lo. induction os as [|[[s' a'] n'] os IH]; intros lo; [by intros _ ?%not_elem_of_nil|]. intros (Hl & Hn & Ho) Hin Hi Hp Hf.
  cbn [mbind list_bind] in Hp. apply elem_of_app in Hp. unfold in_field in Hf. cbn in Hf. apply elem_of_cons in Hin as [[= -> -> ->]|Hin].
  - destruct Hp as [Hp|Hp]; [done|]. destruct (ordered_In _ _ _ _ _ (flat_ordered _ _ _ Ho) Hp). lia.
  - destruct Hp as [Hp|Hp]; [|by eapply IH]. destruct (tabled_In _ _ _ _ _ _ Ho Hin) as (? & ? & ?).
    destruct (ordered_In _ _ _ _ _ (fields_at_ordered (s', a', n') Hn) Hp) as [? Hb]. cbn in Hb. lia.
Qed.

Lemma place_spec start sdts blob os blob' os' :
  place start sdts blob os = Ok (blob', os') ->
  exists os2, os' = os ++ os2 /\ tabled (length blob) os2 (length blob') /\ (exists rest, blob' = blob ++ rest) /\
    (Z.of_nat (length blob) <= MAX_TABLES_BYTES -> Z.of_nat (length blob') <= MAX_TABLES_BYTES) /\
    Forall2 (fun t o => o = (tb_signature t, Z.to_nat (tb_gpa t - start), length (tb_bytes t)) /\ start <= tb_gpa t /\
                        sub blob' o.1.2 o.2 = tb_bytes t) sdts os2.
Proof.
  revert blob os. induction sdts as [|t sdts IH]; intros blob os; cbn [place].
  { intros [= <- <-]. exists []. split; [by rewrite app_nil_r|]. split; [cbn; lia|]. split; [by exists []; rewrite app_nil_r|]. by split. }
  case_bool_decide as Hl; [done|]. destruct ((_ <? _) || _) eqn:E; [done|]. apply orb_false_iff in E as [E1%Z.ltb_ge E2%Z.ltb_ge].
  set (o := Z.to_nat (tb_gpa t - start)) in *. set (b1 := blob ++ replicate _ 0 ++ tb_bytes t).
  assert (L1 : length b1 = (o + length (tb_bytes t))%nat) by (unfold b1; rewrite !length_app, length_replicate; unfold o; lia).
  intros (os2 & -> & Ht & (rest & ->) & Hm & Hf)%IH. exists ((tb_signature t, o, length (tb_bytes t)) :: os2). split; [by rewrite <- app_assoc|].
  split; [cbn [tabled]; rewrite L1 in Ht; split; [unfold o; lia|]; split; [lia|done]|].
  split; [exists (replicate (o - length blob) 0 ++ tb_bytes t ++ rest); unfold b1; by rewrite <- !app_assoc|].
  split; [intros _; apply Hm; rewrite L1; unfold o; lia|]. constructor; [|done]. split; [done|]. split; [lia|]. cbn [fst snd].
  unfold b1. rewrite <- !app_assoc, (app_assoc blob). apply sub_app_l; [|done]. rewrite length_app, length_replicate. unfold o. lia.
Qed.

(** *** Checksums *)

Definition sum_place (o : Offset) : nat := (o.1.2 + SDT_CHECKSUM_OFFSET)%nat.
Definition clear_all (os : list Offset) (b : list Z) : list Z := fold_left (fun b o => <[sum_place o := 0]> b) os b.
Definition sum_all (os : list Offset) (b : list Z) : list Z := fold_left (fun b o => <[sum_place o := checksum (sub b o.1.2 o.2)]> b) os b.

Lemma clear_sums_eq os blob commands :
  clear_sums os blob commands = (clear_all os blob, commands ++ ((fun o => add_checksum TABLES_FILE (sum_place o) o.1.2 o.2) <$> os)).
Proof.
  revert blob commands. induction os as [|[[s a] n] os IH]; intros blob commands; cbn [clear_sums]; [by rewrite app_nil_r|].
  rewrite IH, <- app_assoc. done.
Qed.

Lemma clear_all_spec os b :
  length (clear_all os b) = length b /\
  (forall i, clear_all os b !! i = if bool_decide (i ∈ sum_place <$> os) then if bool_decide (i < length b)%nat then Some 0 else None else b !! i).
Proof.
  revert b. induction os as [|o os IH]; intros b; [done|]. unfold clear_all. cbn [fold_left]. fold (clear_all os (<[sum_place o := 0]> b)).
  destruct (IH (<[sum_place o := 0]> b)) as [IHl IHi]. rewrite length_insert in *. split; [done|]. intros i. rewrite IHi.
  rewrite fmap_cons. case_bool_decide as H1.
  - by rewrite (bool_decide_eq_true_2 (i ∈ sum_place o :: (sum_place <$> os))) by by right.
  - destruct (decide (i = sum_place o)) as [->|Hne].
    + rewrite (bool_decide_eq_true_2 (sum_place o ∈ sum_place o :: _)) by left. case_bool_decide; [by rewrite list_lookup_insert_eq|]. apply lookup_ge_None_2. rewrite length_insert. lia.
    + rewrite bool_decide_eq_false_2 by by intros [?|?]%elem_of_cons. by rewrite list_lookup_insert_ne by done.
Qed.

Lemma sub_insert_in {A} (l : list A) a n i x : (a <= i < a + n)%nat -> sub (<[i := x]> l) a n = <[(i - a)%nat := x]> (sub l a n).
Proof.
  intros Hi. apply list_eq. intros j. rewrite sub_lookup. destruct (decide (j = (i - a)%nat)) as [->|Hne].
  - rewrite bool_decide_eq_true_2 by lia. replace (a + (i - a))%nat with i by lia. destruct (decide (i < length l)%nat).
    + rewrite !list_lookup_insert_eq by (unfold sub; rewrite ?length_take, ?length_drop; lia). done.
    + rewrite !lookup_ge_None_2 by (rewrite ?length_insert; unfold sub; rewrite ?length_take, ?length_drop; lia). done.
  - rewrite !list_lookup_insert_ne by lia. by rewrite sub_lookup.
Qed.

Lemma sum_all_spec os lo hi b :
  tabled lo os hi -> (hi <= length b)%nat -> (forall o, o ∈ os -> b !! sum_place o = Some 0) ->
  length (sum_all os b) = length b /\
  (forall i, i ∉ sum_place <$> os -> sum_all os b !! i = b !! i) /\
  (forall s a n, (s, a, n) ∈ os -> byte_sum (sub (sum_all os b) a n) = 0).
Proof.
  revert lo b. induction os as [|[[s a] n] os IH]; intros lo b Ht Hh Hz.
  { split; [done|]. split; [done|]. by intros s a n ?%not_elem_of_nil. }
  destruct Ht as (Hl & Hn & Ht). pose proof (tabled_le _ _ _ Ht) as Hle. unfold sum_all. cbn [fold_left fst snd]. set (b1 := <[_ := _]> b). fold (sum_all os b1).
  assert (Hp : (a <= sum_place (s, a, n) < a + n)%nat) by (unfold sum_place, SDT_CHECKSUM_OFFSET, SDT_HEADER_LEN in *; cbn; lia).
  assert (Hfar : forall o, o ∈ os -> (a + n <= sum_place o)%nat).
  { intros [[s' a'] n'] Ho. destruct (tabled_In _ _ _ _ _ _ Ht Ho) as (? & _ & _). unfold sum_place. cbn. lia. }
  assert (L1 : length b1 = length b) by (unfold b1; by rewrite length_insert).
  destruct (IH (a + n)%nat b1 Ht ltac:(lia)) as (IHl & IHo & IHs).
  { intros o Ho. unfold b1. rewrite list_lookup_insert_ne by (pose proof (Hfar o Ho); lia). apply Hz. by right. }
  split; [lia|]. split.
  - intros i Hi. apply not_elem_of_cons in Hi as [Hi1 Hi2]. rewrite IHo by done. unfold b1. by rewrite list_lookup_insert_ne.
  - intros s' a' n' [[= -> -> ->]|Hin]%elem_of_cons; [|by eapply IHs].
    assert (Hsame : sub (sum_all os b1) a n = sub b1 a n).
    { apply list_eq. intros j. rewrite !sub_lookup. case_bool_decide; [|done]. apply IHo. intros (o & Ho & Hin)%list_elem_of_fmap. apply Hfar in Hin. lia. }
    rewrite Hsame. unfold b1. rewrite sub_insert_in by done. apply checksum_insert. rewrite sub_lookup, bool_decide_eq_true_2 by lia.
    replace (a + (sum_place (s, a, n) - a))%nat with (sum_place (s, a, n)) by lia. apply Hz. left.
Qed.

(** *** Running it *)

Lemma edk2_commands_app files bases c1 c2 blobs :
  edk2_commands files bases (c1 ++ c2) blobs = blobs ← edk2_commands files bases c1 blobs; edk2_commands files bases c2 blobs.
Proof.
  revert blobs. induction c1 as [|c c1 IH]; intros blobs; [done|]. cbn [app edk2_commands].
  destruct (edk2_command _ _ _ _) as [b|]; [|done]. cbn [mbind result_bind]. apply IH.
Qed.

(** The two files at their addresses. *)
Definition two_files (rb : Z) (r : list Z) (tb : Z) (t : list Z) : Blobs := <[TABLES_FILE := (tb, t)]> (<[RSDP_FILE := (rb, r)]> ∅).

Lemma two_rsdp rb r tb t : two_files rb r tb t !! RSDP_FILE = Some (rb, r).
Proof. unfold two_files. rewrite lookup_insert_ne by done. apply lookup_insert_eq. Qed.
Lemma two_tables rb r tb t : two_files rb r tb t !! TABLES_FILE = Some (tb, t).
Proof. apply lookup_insert_eq. Qed.
Lemma two_set_tables rb r tb t t' : <[TABLES_FILE := (tb, t')]> (two_files rb r tb t) = two_files rb r tb t'.
Proof. apply insert_insert_eq. Qed.
Lemma two_set_rsdp rb r tb t r' : <[RSDP_FILE := (rb, r')]> (two_files rb r tb t) = two_files rb r' tb t.
Proof. unfold two_files. rewrite insert_insert_ne by done. by rewrite insert_insert_eq. Qed.

Definition small_field (f : Field) : Prop := Z.of_nat f.1 < 2 ^ 32 /\ (f.2 = 4 \/ f.2 = 8)%nat.

(** The field of [x] holds an offset into a file of [len] bytes that has room for [base]. *)
Definition field_fits (base : Z) (len : nat) (x : list Z) (f : Field) : Prop :=
  0 <= value_at x f < Z.of_nat len /\ value_at x f + base < 2 ^ (8 * Z.of_nat f.2).

Section Firmware.
Context (files : list (list Z * list Z)) (bases : list (list Z * Z)).

Lemma pointer_step blobs file fb x tb t f :
  0 <= tb -> blobs !! TABLES_FILE = Some (tb, t) -> blobs !! file = Some (fb, x) ->
  small_field f -> (f.1 + f.2 <= length x)%nat -> field_fits tb (length t) x f ->
  edk2_command files bases blobs (add_pointer file f.1 f.2) =
    Ok (<[file := (fb, patch x f.1 (make_absolute tb f (sub x f.1 f.2)))]> blobs).
Proof.
  intros Hb Ht Hx [Hf1 Hf2] Hl [[Hv0 Hv] Hr]. unfold add_pointer, edk2_command. rewrite Ht, Hx. cbn [ok_or mbind result_bind fst snd].
  rewrite !wrap_small, !Nat2Z.id by (unfold fits; lia). change (of_le (sub x f.1 f.2)) with (value_at x f).
  rewrite (bool_decide_eq_true_2 (f.2 ∈ [1; 2; 4; 8]%nat)) by (destruct Hf2 as [-> | ->]; set_solver).
  rewrite (bool_decide_eq_false_2 (length x < f.2)%nat), (bool_decide_eq_false_2 (length x - f.2 < f.1)%nat) by lia. cbn [negb orb].
  rewrite (proj2 (Z.leb_gt _ _)) by lia.
  assert (Hp : 2 ^ (8 * Z.of_nat f.2) <= 2 ^ 64) by (apply Z.pow_le_mono_r; lia).
  unfold checked_add. rewrite (proj2 (Z.ltb_lt _ _)) by lia. cbn [ok_or mbind result_bind].
  assert (Hs : Z.shiftr (value_at x f + tb) (8 * Z.of_nat f.2) = 0) by (rewrite Z.shiftr_div_pow2 by lia; apply Z.div_small; lia).
  rewrite Hs. cbn [Z.eqb negb]. rewrite andb_false_r. done.
Qed.

Lemma sum_step blobs file fb x r a n :
  blobs !! file = Some (fb, x) -> (r < length x)%nat -> (a + n <= length x)%nat -> Z.of_nat (length x) < 2 ^ 32 ->
  edk2_command files bases blobs (add_checksum file r a n) = Ok (<[file := (fb, <[r := checksum (sub x a n)]> x)]> blobs).
Proof.
  intros Hx Hr Ha Hl. unfold add_checksum, edk2_command. rewrite Hx. cbn [ok_or mbind result_bind fst snd].
  rewrite !wrap_small, !Nat2Z.id by (unfold fits; lia).
  rewrite (bool_decide_eq_false_2 (length x <= r)%nat), (bool_decide_eq_false_2 (length x < n)%nat), (bool_decide_eq_false_2 (length x - n < a)%nat) by lia. done.
Qed.

(** A run of pointers into fields apart from each other. *)
Lemma field_fits_later base len x f fs lo hi :
  ordered lo (f :: fs) hi -> (hi <= length x)%nat -> Forall (field_fits base len x) fs ->
  Forall (field_fits base len (patch x f.1 (make_absolute base f (sub x f.1 f.2)))) fs.
Proof.
  destruct f as [p s]. intros [Hp Ho] Hh Hf. pose proof (ordered_le _ _ _ Ho) as Hle. cbn [fst snd]. rewrite list.Forall_forall in Hf |- *.
  intros [q t] Hin. destruct (ordered_In _ _ _ _ _ Ho Hin). specialize (Hf (q, t) Hin). unfold field_fits, value_at in *. cbn [fst snd] in *.
  unfold make_absolute. rewrite sub_patch_other; [done|rewrite length_le_bytes; cbn; lia|rewrite length_le_bytes; cbn; lia].
Qed.

Lemma run_table_pointers rb r tb t fs lo hi :
  0 <= tb -> Forall small_field fs -> ordered lo fs hi -> (hi <= length t)%nat -> Forall (field_fits tb (length t) t) fs ->
  edk2_commands files bases ((fun f => add_pointer TABLES_FILE f.1 f.2) <$> fs) (two_files rb r tb t) =
    Ok (two_files rb r tb (rewrite_fields (make_absolute tb) fs t)).
Proof.
  intros Hb Hs. revert lo t. induction Hs as [|f fs Hs _ IH]; intros lo t Ho Hh Hf; [done|]. cbn [fmap list_fmap edk2_commands].
  apply list.Forall_cons in Hf as [Hf Hfs]. assert (Hl : (f.1 + f.2 <= length t)%nat).
  { destruct f as [p s]. destruct Ho as [_ Ho]. apply ordered_le in Ho. cbn. lia. }
  rewrite (pointer_step _ _ tb t tb t) by (done || apply two_tables). cbn [mbind result_bind]. rewrite two_set_tables.
  assert (L : length (patch t f.1 (make_absolute tb f (sub t f.1 f.2))) = length t) by (apply length_patch; unfold make_absolute; rewrite length_le_bytes; lia).
  rewrite (IH (f.1 + f.2)%nat); [done| |by rewrite L|].
  - destruct f as [p s]. apply Ho.
  - rewrite L. by eapply field_fits_later.
Qed.

Lemma run_rsdp_pointers rb r tb t fs lo hi :
  0 <= tb -> Forall small_field fs -> ordered lo fs hi -> (hi <= length r)%nat -> Forall (field_fits tb (length t) r) fs ->
  edk2_commands files bases ((fun f => add_pointer RSDP_FILE f.1 f.2) <$> fs) (two_files rb r tb t) =
    Ok (two_files rb (rewrite_fields (make_absolute tb) fs r) tb t).
Proof.
  intros Hb Hs. revert lo r. induction Hs as [|f fs Hs _ IH]; intros lo r Ho Hh Hf; [done|]. cbn [fmap list_fmap edk2_commands].
  apply list.Forall_cons in Hf as [Hf Hfs]. assert (Hl : (f.1 + f.2 <= length r)%nat).
  { destruct f as [p s]. destruct Ho as [_ Ho]. apply ordered_le in Ho. cbn. lia. }
  rewrite (pointer_step _ _ rb r tb t) by (done || apply two_tables || apply two_rsdp). cbn [mbind result_bind]. rewrite two_set_rsdp.
  assert (L : length (patch r f.1 (make_absolute tb f (sub r f.1 f.2))) = length r) by (apply length_patch; unfold make_absolute; rewrite length_le_bytes; lia).
  rewrite (IH (f.1 + f.2)%nat); [done| |by rewrite L|].
  - destruct f as [p s]. apply Ho.
  - by eapply field_fits_later.
Qed.

Lemma run_sums rb r tb t os lo hi :
  tabled lo os hi -> (hi <= length t)%nat -> Z.of_nat (length t) < 2 ^ 32 ->
  edk2_commands files bases ((fun o => add_checksum TABLES_FILE (sum_place o) o.1.2 o.2) <$> os) (two_files rb r tb t) = Ok (two_files rb r tb (sum_all os t)).
Proof.
  revert lo t. induction os as [|[[s a] n] os IH]; intros lo t Ht Hh Hl; [done|]. destruct Ht as (Hlo & Hn & Ht).
  pose proof (tabled_le _ _ _ Ht). cbn [fmap list_fmap edk2_commands fst snd].
  rewrite (sum_step _ _ tb t) by (apply two_tables || (unfold sum_place, SDT_CHECKSUM_OFFSET, SDT_HEADER_LEN in *; cbn [fst snd]; lia)).
  cbn [mbind result_bind]. rewrite two_set_tables. rewrite (IH (a + n)%nat) by (done || rewrite length_insert; lia). done.
Qed.
End Firmware.

(** The table [t] after relocation to [x]: its pointers moved by [base - start],
    its bytes sum to zero, and nothing else changed. *)
Record relocated (start base : Z) (t : Table) (x : list Z) : Prop := {
  re_length : length x = length (tb_bytes t);
  re_sum : byte_sum x = 0;
  re_pointer : forall p s, (p, s) ∈ pointer_fields (tb_signature t) (length (tb_bytes t)) -> of_le (sub (tb_bytes t) p s) <> 0 ->
    of_le (sub x p s) = of_le (sub (tb_bytes t) p s) - start + base;
  re_other : forall i, i <> SDT_CHECKSUM_OFFSET ->
    (forall f, f ∈ pointer_fields (tb_signature t) (length (tb_bytes t)) -> of_le (sub (tb_bytes t) f.1 f.2) <> 0 -> ~ in_field i f) ->
    x !! i = tb_bytes t !! i;
}.

Lemma tabled_unique lo os hi o o' i :
  tabled lo os hi -> o ∈ os -> o' ∈ os -> (o.1.2 <= i < o.1.2 + o.2)%nat -> (o'.1.2 <= i < o'.1.2 + o'.2)%nat -> o = o'.
Proof.
  revert lo. induction os as [|[[s a] n] os IH]; intros lo; [by intros _ ?%not_elem_of_nil|].
  intros (Hl & Hn & Ht) Ho Ho' Hi Hi'. apply elem_of_cons in Ho as [->|Ho], Ho' as [->|Ho']; [done| | |by eapply IH].
  - destruct o' as [[s' a'] n']. destruct (tabled_In _ _ _ _ _ _ Ht Ho') as (? & _). cbn in *. lia.
  - destruct o as [[s' a'] n']. destruct (tabled_In _ _ _ _ _ _ Ht Ho) as (? & _). cbn in *. lia.
Qed.

(** No pointer field holds a checksum byte. *)
Lemma sum_places_free os hi o f : tabled 0 os hi -> o ∈ os -> f ∈ (os ≫= fields_at) -> ~ in_field (sum_place o) f.
Proof.
  intros Ht Ho Hf Hin. destruct o as [[s a] n], f as [p t]. destruct (tabled_In _ _ _ _ _ _ Ht Ho) as (_ & Hn & _).
  assert (Hi : (a <= sum_place (s, a, n) < a + n)%nat) by (unfold sum_place, SDT_CHECKSUM_OFFSET, SDT_HEADER_LEN in *; cbn; lia).
  pose proof (flat_fields_of _ _ _ _ _ _ _ _ _ Ht Ho Hi Hf Hin) as Hfa. destruct (ordered_In _ _ _ _ _ (fields_at_ordered (s, a, n) Hn) Hfa) as [Hp _].
  unfold in_field, sum_place, SDT_CHECKSUM_OFFSET, SDT_HEADER_LEN in *. cbn in *. lia.
Qed.

Lemma sub_ext {A} (l l' : list A) a n : (forall i, (a <= i < a + n)%nat -> l !! i = l' !! i) -> sub l a n = sub l' a n.
Proof. intros H. apply list_eq. intros j. rewrite !sub_lookup. case_bool_decide; [|done]. apply H. lia. Qed.

Section Passes.
Variables (start base : Z) (blob : list Z) (os : list Offset) (hi : nat).
Hypotheses (Ht : tabled 0 os hi) (Hh : (hi <= length blob)%nat).

Let nz := List.filter (nonzero_at blob) (os ≫= fields_at).
Let b1 := rewrite_fields (make_relative start) nz blob.
Let b2 := clear_all os b1.
Let b3 := rewrite_fields (make_absolute base) nz b2.
Let out := sum_all os b3.

Lemma nz_in f : f ∈ nz <-> f ∈ (os ≫= fields_at) /\ value_at blob f <> 0.
Proof using Type.
  unfold nz. rewrite list_elem_of_In, filter_In, list_elem_of_In. unfold nonzero_at. destruct (Z.eqb_spec (value_at blob f) 0); naive_solver.
Qed.

Lemma passes_spec :
  length out = length blob /\
  (forall o, o ∈ os -> byte_sum (sub out o.1.2 o.2) = 0) /\
  (forall i, (forall o, o ∈ os -> i <> sum_place o) -> (forall f, f ∈ nz -> ~ in_field i f) -> out !! i = blob !! i) /\
  (forall p s, (p, s) ∈ nz -> sub out p s = le_bytes s (of_le (le_bytes s (value_at blob (p, s) - start)) + base)).
Proof using Ht Hh.
  pose proof (ordered_filter (nonzero_at blob) _ _ _ (flat_ordered _ _ _ Ht)) as Hord. fold nz in Hord.
  destruct (rewrite_fields_spec (make_relative start) nz 0 hi blob Hord Hh) as (L1 & O1 & I1); [intros; apply length_le_bytes|]. fold b1 in L1, O1, I1.
  destruct (clear_all_spec os b1) as (L2 & O2). fold b2 in L2, O2.
  destruct (rewrite_fields_spec (make_absolute base) nz 0 hi b2 Hord ltac:(lia)) as (L3 & O3 & I3); [intros; apply length_le_bytes|]. fold b3 in L3, O3, I3.
  assert (Hfree : forall o f, o ∈ os -> f ∈ nz -> ~ in_field (sum_place o) f).
  { intros o f Ho Hf. apply nz_in in Hf as [Hf _]. by eapply sum_places_free. }
  destruct (sum_all_spec os 0 hi b3 Ht ltac:(lia)) as (L4 & O4 & S4).
  { intros o Ho. rewrite O3 by by intros; apply Hfree. rewrite O2, bool_decide_eq_true_2 by (apply list_elem_of_fmap; by exists o).
    rewrite bool_decide_eq_true_2; [done|]. destruct o as [[s a] n]. destruct (tabled_In _ _ _ _ _ _ Ht Ho) as (_ & Hn & Hb).
    unfold sum_place, SDT_CHECKSUM_OFFSET, SDT_HEADER_LEN in *. cbn. lia. }
  fold out in L4, O4, S4. assert (Hns : forall i, (forall o, o ∈ os -> i <> sum_place o) -> i ∉ sum_place <$> os).
  { intros i Hi (o & -> & Ho)%list_elem_of_fmap. by eapply Hi. }
  split; [lia|]. split; [intros [[s a] n] Ho; by eapply S4|]. split.
  - intros i Hi Hf. rewrite O4, O3, O2 by eauto. rewrite bool_decide_eq_false_2 by eauto. by apply O1.
  - intros p s Hin. assert (Hfld : forall i, (p <= i < p + s)%nat -> forall o, o ∈ os -> i <> sum_place o).
    { intros i Hi o Ho ->. by eapply (Hfree o (p, s)). }
    assert (E4 : sub out p s = sub b3 p s) by (apply sub_ext; intros i Hi; apply O4; eauto).
    assert (E2 : sub b2 p s = sub b1 p s) by (apply sub_ext; intros i Hi; rewrite O2, bool_decide_eq_false_2 by eauto; done).
    rewrite E4, (I3 _ _ Hin), E2, (I1 _ _ Hin). done.
Qed.

(** What the file offers at a pointer. *)
Lemma relative_value p s : (p, s) ∈ nz -> length b2 = length blob /\ sub b2 p s = le_bytes s (value_at blob (p, s) - start).
Proof using Ht Hh.
  intros Hin. pose proof (ordered_filter (nonzero_at blob) _ _ _ (flat_ordered _ _ _ Ht)) as Hord. fold nz in Hord.
  destruct (rewrite_fields_spec (make_relative start) nz 0 hi blob Hord Hh) as (L1 & O1 & I1); [intros; apply length_le_bytes|]. fold b1 in L1, O1, I1.
  destruct (clear_all_spec os b1) as (L2 & O2). fold b2 in L2, O2. split; [lia|].
  change (le_bytes s _) with (make_relative start (p, s) (sub blob p s)). rewrite <- (I1 _ _ Hin).
  apply sub_ext. intros i Hi. rewrite O2, bool_decide_eq_false_2; [done|]. intros (o & -> & Ho)%list_elem_of_fmap.
  apply nz_in in Hin as [Hin _]. exact (sum_places_free os hi o (p, s) Ht Ho Hin Hi).
Qed.

(** The tables file through both passes. *)
Lemma tables_relocated t a :
  (forall p s, (p, s) ∈ nz -> fits (8 * Z.of_nat s) (value_at blob (p, s) - start + base)) ->
  (tb_signature t, a, length (tb_bytes t)) ∈ os -> sub blob a (length (tb_bytes t)) = tb_bytes t ->
  relocated start base t (sub out a (length (tb_bytes t))).
Proof using Ht Hh.
  intros Hfit Hin Hsub. set (n := length (tb_bytes t)) in *. destruct passes_spec as (Lo & So & Oo & Io).
  destruct (tabled_In _ _ _ _ _ _ Ht Hin) as (_ & Hn & Hb).
  assert (Hin2 : forall p s, (p, s) ∈ pointer_fields (tb_signature t) n -> ((a + p)%nat, s) ∈ (os ≫= fields_at) /\ (p + s <= n)%nat).
  { intros p s Hp. destruct (ordered_In _ _ _ _ _ (pointer_fields_ordered (tb_signature t) n Hn) Hp). split; [|lia].
    apply list_elem_of_bind. exists (tb_signature t, a, n). split; [|done]. apply list_elem_of_fmap. by exists (p, s). }
  assert (Hval : forall p s, (p + s <= n)%nat -> value_at blob ((a + p)%nat, s) = of_le (sub (tb_bytes t) p s)).
  { intros p s Hp. unfold value_at. cbn [fst snd]. by rewrite <- Hsub, sub_of_sub. }
  split.
  - apply length_sub. lia.
  - exact (So _ Hin).
  - intros p s Hp Hnz. destruct (Hin2 p s Hp) as [Hf Hps]. rewrite sub_of_sub by done.
    rewrite (Io (a + p)%nat s) by (apply nz_in; rewrite Hval by done; done). rewrite Hval by done. rewrite !of_le_le_bytes, Zplus_mod_idemp_l.
    assert (Hw : fits (8 * Z.of_nat s) (of_le (sub (tb_bytes t) p s) - start + base)).
    { rewrite <- Hval by done. apply Hfit, nz_in. by rewrite Hval. }
    unfold fits in Hw. rewrite (Z.pow_mul_r 2 8) in Hw by lia. by apply Z.mod_small.
  - intros i Hi Hnf. rewrite sub_lookup. case_bool_decide as Hlt; [|symmetry; apply lookup_ge_None_2; lia].
    rewrite Oo.
    + rewrite <- Hsub at 1. by rewrite sub_lookup, bool_decide_eq_true_2.
    + intros o Ho E. destruct o as [[s' a'] n']. destruct (tabled_In _ _ _ _ _ _ Ht Ho) as (_ & Hn' & _).
      assert (Heq : (tb_signature t, a, n) = (s', a', n')).
      { eapply (tabled_unique _ _ _ _ _ (a + i) Ht Hin Ho); cbn; [lia|]. unfold sum_place, SDT_CHECKSUM_OFFSET, SDT_HEADER_LEN in *. cbn in E. lia. }
      injection Heq as _ <- _. unfold sum_place in E. cbn in E. lia.
    + intros [p s] [Hf Hv]%nz_in Hif. pose proof (flat_fields_of _ _ _ _ _ _ (a + i) _ _ Ht Hin ltac:(lia) Hf Hif) as Hfa.
      apply list_elem_of_fmap in Hfa as ([p0 s0] & E & Hp). cbn in E. injection E as -> ->. destruct (Hin2 p0 s0 Hp) as [_ Hps].
      rewrite Hval in Hv by done. apply (Hnf (p0, s0) Hp Hv). unfold in_field in *. cbn in *. lia.
Qed.
End Passes.

(** *** The whole script *)

Definition rsdp_fields : list Field := [(RSDP_RSDT_OFFSET, 4%nat); (RSDP_XSDT_OFFSET, 8%nat)].
Definition first_of (tables : list Table) : Z :=
  match sort_by_gpa (List.filter (fun t => negb (is_rsdp t)) tables) with first :: _ => tb_gpa first | [] => 0 end.

Lemma sort_In t l : t ∈ sort_by_gpa l <-> t ∈ l.
Proof.
  assert (Hi : forall u m, t ∈ insert_by_gpa u m <-> t = u \/ t ∈ m).
  { intros u m. induction m as [|x m IH]; cbn [insert_by_gpa]; [rewrite elem_of_cons; set_solver|].
    destruct (_ <? _); rewrite !elem_of_cons; [done|]. rewrite IH. tauto. }
  assert (Hf : forall l acc, t ∈ fold_left (fun acc t => insert_by_gpa t acc) l acc <-> t ∈ acc \/ t ∈ l).
  { intros m. induction m as [|u m IH]; intros acc; cbn [fold_left]; [set_solver|]. rewrite IH, Hi, elem_of_cons. tauto. }
  unfold sort_by_gpa. rewrite Hf. set_solver.
Qed.

Lemma flat_small os hi : tabled 0 os hi -> Z.of_nat hi <= MAX_TABLES_BYTES -> Forall small_field (os ≫= fields_at).
Proof.
  intros Ht Hh. apply list.Forall_forall. intros [p s] Hf. pose proof (ordered_In _ _ _ _ _ (flat_ordered _ _ _ Ht) Hf) as [_ Hp].
  split; [change MAX_TABLES_BYTES with (2 ^ 20) in Hh; cbn; lia|]. apply list_elem_of_bind in Hf as ([[sig a] n] & Hf & _).
  apply list_elem_of_fmap in Hf as ([p0 s0] & E & Hf). cbn in E. injection E as -> ->. revert Hf. unfold pointer_fields.
  case_bool_decide; [intros (i & E & _)%list_elem_of_fmap; injection E as _ ->; cbn; lia|]. case_bool_decide; [|by intros ?%not_elem_of_nil].
  intros [Hf _]%list_elem_of_In%filter_In. cbn in Hf. repeat (destruct Hf as [[= <- <-]|Hf]; [cbn; lia|]). done.
Qed.

(** The root pointer through both passes. *)
Lemma rsdp_relocated start base r :
  length r = RSDP_LEN ->
  let nz := List.filter (nonzero_at r) rsdp_fields in
  let r2 := <[RSDP_EXT_CHECKSUM_OFFSET := 0]> (<[RSDP_CHECKSUM_OFFSET := 0]> (rewrite_fields (make_relative start) nz r)) in
  let r3 := rewrite_fields (make_absolute base) nz r2 in
  let r4 := <[RSDP_CHECKSUM_OFFSET := checksum (sub r3 0 RSDP_V1_LEN)]> r3 in
  let r5 := <[RSDP_EXT_CHECKSUM_OFFSET := checksum (sub r4 0 RSDP_LEN)]> r4 in
  length r5 = RSDP_LEN /\ rsdp_checksums_ok r5 = true /\
  (of_le (sub r RSDP_XSDT_OFFSET 8) <> 0 -> of_le (sub r5 RSDP_XSDT_OFFSET 8) = wrap 64 (of_le (sub r RSDP_XSDT_OFFSET 8) - start + base)).
Proof.
  intros Hl nz r2 r3 r4 r5.
  assert (Hord : ordered 9 nz 32) by (apply ordered_filter; cbn; unfold RSDP_RSDT_OFFSET, RSDP_XSDT_OFFSET; lia).
  unfold RSDP_LEN, RSDP_V1_LEN, RSDP_CHECKSUM_OFFSET, RSDP_EXT_CHECKSUM_OFFSET, RSDP_XSDT_OFFSET in *.
  destruct (rewrite_fields_spec (make_relative start) nz 9 32 r Hord ltac:(lia)) as (L1 & _ & I1); [intros; apply length_le_bytes|].
  set (r1 := rewrite_fields (make_relative start) nz r) in *. assert (L2 : length r2 = 36%nat) by (unfold r2; rewrite !length_insert; lia).
  destruct (rewrite_fields_spec (make_absolute base) nz 9 32 r2 Hord ltac:(lia)) as (L3 & O3 & I3); [intros; apply length_le_bytes|]. fold r3 in L3, O3, I3.
  assert (Hout : forall i, (i < 9 \/ 32 <= i)%nat -> r3 !! i = r2 !! i).
  { intros i Hi. apply O3. intros [p s] Hf. destruct (ordered_In _ _ _ _ _ Hord Hf). unfold in_field. cbn. lia. }
  assert (Z8 : r3 !! 8%nat = Some 0).
  { rewrite Hout by lia. unfold r2. rewrite list_lookup_insert_ne by lia. apply list_lookup_insert_eq. lia. }
  assert (Z32 : r3 !! 32%nat = Some 0) by (rewrite Hout by lia; apply list_lookup_insert_eq; rewrite length_insert; lia).
  assert (L4 : length r4 = 36%nat) by (unfold r4; rewrite length_insert; lia). assert (L5 : length r5 = 36%nat) by (unfold r5; by rewrite length_insert).
  assert (W4 : sub r4 0 36 = r4) by (unfold sub; rewrite drop_0; apply take_ge; lia). split; [done|]. split.
  - unfold rsdp_checksums_ok, RSDP_V1_LEN. apply andb_true_iff. split; apply Z.eqb_eq.
    + unfold r5. rewrite take_insert_ge by lia. change (take 20 r4) with (sub r4 0 20). unfold r4. rewrite sub_insert_in by lia.
      apply checksum_insert. by rewrite sub_lookup, bool_decide_eq_true_2 by lia.
    + unfold r5. rewrite W4. apply checksum_insert. unfold r4. by rewrite list_lookup_insert_ne.
  - intros Hnz. assert (Hin : (24%nat, 8%nat) ∈ nz).
    { apply list_elem_of_In, filter_In. split; [right; by left|]. unfold nonzero_at, value_at. cbn [fst snd]. by destruct (Z.eqb_spec (of_le (sub r 24 8)) 0). }
    unfold r5. rewrite sub_insert by lia. unfold r4. rewrite sub_insert by lia. rewrite (I3 _ _ Hin). unfold r2. rewrite !sub_insert by lia.
    rewrite (I1 _ _ Hin). unfold make_absolute, make_relative. cbn [snd]. rewrite !of_le_le_bytes, Zplus_mod_idemp_l. reflexivity.
Qed.

Lemma generated_ok file p s r a n :
  name_ok file -> command_ok (add_pointer file p s) /\ command_ok (add_checksum file r a n).
Proof.
  intros Hf. assert (name_ok TABLES_FILE).
  { split; [done|]. split; [vm_compute; lia|]. split; [by apply (bool_decide_unpack _); vm_compute|]. split; [by apply all_bytes_fits|done]. }
  split; cbn [command_ok add_pointer add_checksum]; repeat (split; [done || by apply wrap_fits|]); by apply wrap_fits.
Qed.

Lemma file_names_ok : name_ok RSDP_FILE /\ name_ok TABLES_FILE.
Proof.
  split; (split; [done|]; split; [vm_compute; lia|]; split; [by apply (bool_decide_unpack _); vm_compute|]; split; [by apply all_bytes_fits|done]).
Qed.

(** The parts of a built set. *)
Lemma blobs_build_inv tables b :
  blobs_build tables = Ok b ->
  exists rsdp sdts blob os,
    List.filter is_rsdp tables = [rsdp] /\ length (tb_bytes rsdp) = RSDP_LEN /\
    sdts = sort_by_gpa (List.filter (fun t => negb (is_rsdp t)) tables) /\ place (first_of tables) sdts [] [] = Ok (blob, os) /\
    tabled 0 os (length blob) /\ Z.of_nat (length blob) <= MAX_TABLES_BYTES /\
    (let start := first_of tables in
     let nz := List.filter (nonzero_at blob) (os ≫= fields_at) in
     let nr := List.filter (nonzero_at (tb_bytes rsdp)) rsdp_fields in
     lb_tables b = clear_all os (rewrite_fields (make_relative start) nz blob) /\
     lb_rsdp b = <[RSDP_EXT_CHECKSUM_OFFSET := 0]> (<[RSDP_CHECKSUM_OFFSET := 0]> (rewrite_fields (make_relative start) nr (tb_bytes rsdp))) /\
     lb_commands b = [allocate RSDP_FILE RSDP_ALIGN FSeg; allocate TABLES_FILE TABLES_ALIGN High]
       ++ ((fun f => add_pointer TABLES_FILE f.1 f.2) <$> nz)
       ++ ((fun o => add_checksum TABLES_FILE (sum_place o) o.1.2 o.2) <$> os)
       ++ ((fun f => add_pointer RSDP_FILE f.1 f.2) <$> nr)
       ++ [add_checksum RSDP_FILE RSDP_CHECKSUM_OFFSET 0 RSDP_V1_LEN; add_checksum RSDP_FILE RSDP_EXT_CHECKSUM_OFFSET 0 RSDP_LEN] /\
     Forall (fun f => exists t, t ∈ sdts /\ tb_gpa t = value_at blob f) nz /\
     Forall (fun f => exists t, t ∈ sdts /\ tb_gpa t = value_at (tb_bytes rsdp) f) nr).
Proof.
  unfold blobs_build, first_of. destruct (List.filter is_rsdp tables) as [|rsdp [|]]; try done. case_bool_decide as Hl; [|done]. cbn [negb].
  set (sdts := sort_by_gpa _). destruct sdts as [|first rest] eqn:Es; [done|]. set (start := tb_gpa first).
  intros ([blob os] & Hp & ([b1 c1] & Hr & H)%bind_Ok)%bind_Ok. rewrite relative_tables_flat in Hr.
  destruct (place_spec _ _ _ _ _ _ Hp) as (os2 & E & Ht & _ & Hm & _). cbn in E. subst os2. cbn [length] in Ht, Hm.
  destruct (relative_fields_eq _ _ _ _ _ _ _ _ _ _ (flat_ordered _ _ _ Ht) ltac:(done) Hr) as (-> & -> & Hall).
  cbn [fst snd] in H. rewrite clear_sums_eq in H. apply bind_Ok in H as ([r1 c2] & Hrr & H). apply Ok_inj in H as <-.
  assert (Hor : ordered 0 rsdp_fields 32) by (cbn; unfold RSDP_RSDT_OFFSET, RSDP_XSDT_OFFSET; lia).
  destruct (relative_fields_eq _ _ _ _ _ _ _ _ _ _ Hor ltac:(rewrite Hl; unfold RSDP_LEN; lia) Hrr) as (-> & -> & Hallr). cbn [fst snd].
  exists rsdp, (first :: rest), blob, os. split; [done|]. split; [done|]. split; [done|]. split; [done|]. split; [done|]. split; [by apply Hm|].
  cbv zeta. split; [done|]. split; [done|]. split; [cbn [lb_commands]; by rewrite <- !app_assoc|by split].
Qed.

(** The firmware has room for the tables at [base]: below 4 GiB, or anywhere in
    the 64-bit space when the script patches no 32-bit field. *)
Definition wide (c : LoaderCommand) : Prop := match c with AddPointer _ _ _ size => size = 8 | _ => True end.
Definition room (b : LoaderBlobs) (base : Z) : Prop :=
  let top := base + Z.of_nat (length (lb_tables b)) in
  0 <= base /\ (top <= 2 ^ 32 \/ Forall wide (lb_commands b) /\ top <= 2 ^ 64).

(** A table pointer is an offset into the placed tables. *)
Lemma pointer_in_blob start sdts blob os v :
  place start sdts [] [] = Ok (blob, os) -> (exists t, t ∈ sdts /\ tb_gpa t = v) -> 0 <= v - start < Z.of_nat (length blob).
Proof.
  intros Hp (t & Hin & <-). destruct (place_spec _ _ _ _ _ _ Hp) as (os2 & E & Ht & _ & _ & HF). cbn in E. subst os2.
  apply list_elem_of_lookup in Hin as [i Hi]. destruct (Forall2_lookup_l _ _ _ _ _ HF Hi) as (o & Ho & -> & Hge & _).
  apply list_elem_of_lookup_2 in Ho. destruct (tabled_In _ _ _ _ _ _ Ht Ho) as (_ & Hn & Hb). unfold SDT_HEADER_LEN in Hn. lia.
Qed.

Lemma field_fits_relative base len x p s v :
  sub x p s = le_bytes s v -> (s = 4 \/ s = 8)%nat -> 0 <= v < Z.of_nat len -> Z.of_nat len <= 2 ^ 32 ->
  base + Z.of_nat len <= 2 ^ (8 * Z.of_nat s) -> field_fits base len x (p, s).
Proof.
  intros E Hs Hv Hl Hb. unfold field_fits, value_at. cbn [fst snd]. rewrite E, of_le_le_bytes, Z.mod_small; [lia|].
  split; [lia|]. assert (256 ^ 4 <= 256 ^ Z.of_nat s) by (apply Z.pow_le_mono_r; lia). change (256 ^ 4) with (2 ^ 32) in *. lia.
Qed.

Lemma wide_pointer b base file f :
  room b base -> add_pointer file f.1 f.2 ∈ lb_commands b -> small_field f -> base + Z.of_nat (length (lb_tables b)) <= 2 ^ (8 * Z.of_nat f.2).
Proof.
  intros [_ [Hr|[Hw Hr]]] Hin [_ Hs].
  - etrans; [exact Hr|]. apply Z.pow_le_mono_r; lia.
  - rewrite list.Forall_forall in Hw. specialize (Hw _ Hin). cbn in Hw. destruct Hs as [Hs|Hs]; rewrite Hs in *; [by vm_compute in Hw|done].
Qed.

Lemma rsdp_blob_fields start r p s :
  length r = RSDP_LEN ->
  let nz := List.filter (nonzero_at r) rsdp_fields in
  (p, s) ∈ nz ->
  sub (<[RSDP_EXT_CHECKSUM_OFFSET := 0]> (<[RSDP_CHECKSUM_OFFSET := 0]> (rewrite_fields (make_relative start) nz r))) p s = le_bytes s (value_at r (p, s) - start).
Proof.
  intros Hl nz Hin. assert (Hord : ordered 9 nz 32) by (apply ordered_filter; cbn; unfold RSDP_RSDT_OFFSET, RSDP_XSDT_OFFSET; lia).
  destruct (rewrite_fields_spec (make_relative start) nz 9 32 r Hord ltac:(unfold RSDP_LEN in Hl; lia)) as (_ & _ & I1); [intros; apply length_le_bytes|].
  destruct (ordered_In _ _ _ _ _ Hord Hin). rewrite !sub_insert by (unfold RSDP_EXT_CHECKSUM_OFFSET, RSDP_CHECKSUM_OFFSET; lia). by apply I1.
Qed.

Lemma table_allocates files bases rb tb r t :
  find_by RSDP_FILE files = Some r -> find_by TABLES_FILE files = Some t ->
  find_by RSDP_FILE bases = Some rb -> find_by TABLES_FILE bases = Some tb -> rb mod RSDP_ALIGN = 0 -> tb mod TABLES_ALIGN = 0 ->
  edk2_commands files bases [allocate RSDP_FILE RSDP_ALIGN FSeg; allocate TABLES_FILE TABLES_ALIGN High] ∅ = Ok (two_files rb r tb t).
Proof.
  intros F1 F2 B1 B2 A1 A2. cbn [edk2_commands allocate edk2_command]. change (4096 <? RSDP_ALIGN) with false. change (4096 <? TABLES_ALIGN) with false.
  rewrite F1, B1. cbn [ok_or mbind result_bind]. rewrite A1. cbn [Z.eqb negb]. rewrite bool_decide_eq_false_2 by (rewrite lookup_empty; apply is_Some_None).
  cbn [ok_or mbind result_bind]. rewrite F2, B2. cbn [ok_or mbind result_bind]. rewrite A2. cbn [Z.eqb negb].
  rewrite bool_decide_eq_false_2; [done|]. rewrite lookup_insert_ne, lookup_empty by done. apply is_Some_None.
Qed.

(** The firmware's checks hold of every pointer of a built set. *)
Lemma built_fields tables b rsdp blob os base :
  blobs_build tables = Ok b -> room b base ->
  length (tb_bytes rsdp) = RSDP_LEN -> tabled 0 os (length blob) -> Z.of_nat (length blob) <= MAX_TABLES_BYTES ->
  let start := first_of tables in
  let sdts := sort_by_gpa (List.filter (fun t => negb (is_rsdp t)) tables) in
  let nz := List.filter (nonzero_at blob) (os ≫= fields_at) in
  let nr := List.filter (nonzero_at (tb_bytes rsdp)) rsdp_fields in
  place start sdts [] [] = Ok (blob, os) ->
  lb_tables b = clear_all os (rewrite_fields (make_relative start) nz blob) ->
  lb_rsdp b = <[RSDP_EXT_CHECKSUM_OFFSET := 0]> (<[RSDP_CHECKSUM_OFFSET := 0]> (rewrite_fields (make_relative start) nr (tb_bytes rsdp))) ->
  (forall f, f ∈ nz -> add_pointer TABLES_FILE f.1 f.2 ∈ lb_commands b) -> (forall f, f ∈ nr -> add_pointer RSDP_FILE f.1 f.2 ∈ lb_commands b) ->
  Forall (fun f => exists t, t ∈ sdts /\ tb_gpa t = value_at blob f) nz -> Forall (fun f => exists t, t ∈ sdts /\ tb_gpa t = value_at (tb_bytes rsdp) f) nr ->
  length (lb_tables b) = length blob /\ length (lb_rsdp b) = 36%nat /\
  Forall small_field nz /\ Forall small_field nr /\
  Forall (field_fits base (length (lb_tables b)) (lb_tables b)) nz /\ Forall (field_fits base (length (lb_tables b)) (lb_rsdp b)) nr /\
  (forall p s, (p, s) ∈ nz -> fits (8 * Z.of_nat s) (value_at blob (p, s) - start + base)) /\
  (forall p s, (p, s) ∈ nr -> fits (8 * Z.of_nat s) (value_at (tb_bytes rsdp) (p, s) - start + base)).
Proof.
  intros Hb Hroom Hl Ht Hm start sdts nz nr Hp Hlt Hlr Hcn Hcr Hall Hallr. change MAX_TABLES_BYTES with (2 ^ 20) in Hm. rewrite list.Forall_forall in Hall, Hallr.
  assert (Hsm : forall f, f ∈ nz -> small_field f).
  { pose proof (flat_small _ _ Ht Hm) as Hs. rewrite list.Forall_forall in Hs. intros f [Hin _]%list_elem_of_In%filter_In. by apply Hs, list_elem_of_In. }
  assert (Hsr : forall f, f ∈ nr -> small_field f).
  { intros f [Hin _]%list_elem_of_In%filter_In. cbn in Hin. repeat (destruct Hin as [<-|Hin]; [split; [by vm_compute|cbn; lia]|]). done. }
  assert (Hno : ordered 0 nz (length blob)) by apply ordered_filter, flat_ordered, Ht.
  assert (Hro : ordered 9 nr 32) by (apply ordered_filter; cbn; unfold RSDP_RSDT_OFFSET, RSDP_XSDT_OFFSET; lia).
  assert (Hlen : length (lb_tables b) = length blob).
  { rewrite Hlt. rewrite (proj1 (clear_all_spec _ _)). by destruct (rewrite_fields_spec (make_relative start) nz 0 (length blob) blob Hno ltac:(lia)) as [-> _]; [intros; apply length_le_bytes|]. }
  assert (Hrl : length (lb_rsdp b) = 36%nat).
  { rewrite Hlr, !length_insert. destruct (rewrite_fields_spec (make_relative start) nr 9 32 (tb_bytes rsdp) Hro ltac:(rewrite Hl; unfold RSDP_LEN; lia)) as [-> _]; [intros; apply length_le_bytes|done]. }
  pose proof (fun f Hin => wide_pointer b base _ f Hroom (Hcn f Hin) (Hsm f Hin)) as Hwn.
  pose proof (fun f Hin => wide_pointer b base _ f Hroom (Hcr f Hin) (Hsr f Hin)) as Hwr. destruct Hroom as [Hb0 _].
  pose proof (fun f Hin => pointer_in_blob _ _ _ _ _ Hp (Hall f Hin)) as Hvn. pose proof (fun f Hin => pointer_in_blob _ _ _ _ _ Hp (Hallr f Hin)) as Hvr.
  split; [done|]. split; [done|]. split; [by apply list.Forall_forall|]. split; [by apply list.Forall_forall|]. rewrite Hlen in *. split_and!.
  - apply list.Forall_forall. intros [p s] Hin. destruct (relative_value start blob os (length blob) Ht ltac:(lia) p s Hin) as [_ E].
    eapply field_fits_relative; [rewrite Hlt; exact E|apply (Hsm _ Hin)|apply (Hvn _ Hin)|lia|apply (Hwn _ Hin)].
  - apply list.Forall_forall. intros [p s] Hin.
    eapply field_fits_relative; [rewrite Hlr; by apply rsdp_blob_fields|apply (Hsr _ Hin)|apply (Hvr _ Hin)|lia|apply (Hwr _ Hin)].
  - intros p s Hin. specialize (Hvn _ Hin). specialize (Hwn _ Hin). cbn [snd] in Hwn. unfold fits. lia.
  - intros p s Hin. specialize (Hvr _ Hin). specialize (Hwr _ Hin). cbn [snd] in Hwr. unfold fits. lia.
Qed.

(** The script, run by the firmware: accepted, every table relocated, the root
    pointer with them. *)
Lemma script_relocates tables b files bases rb base :
  blobs_build tables = Ok b -> find_by RSDP_FILE files = Some (lb_rsdp b) -> find_by TABLES_FILE files = Some (lb_tables b) ->
  find_by RSDP_FILE bases = Some rb -> find_by TABLES_FILE bases = Some base -> rb mod RSDP_ALIGN = 0 -> base mod TABLES_ALIGN = 0 -> room b base ->
  exists rsdp' tables', edk2_commands files bases (lb_commands b) ∅ = Ok (two_files rb rsdp' base tables') /\
  let start := first_of tables in
  rsdp_checksums_ok rsdp' = true /\
  (forall r, r ∈ tables -> is_rsdp r = true -> of_le (sub (tb_bytes r) RSDP_XSDT_OFFSET 8) <> 0 ->
     of_le (sub rsdp' RSDP_XSDT_OFFSET 8) = of_le (sub (tb_bytes r) RSDP_XSDT_OFFSET 8) - start + base) /\
  (forall t, t ∈ tables -> is_rsdp t = false ->
     start <= tb_gpa t /\ relocated start base t (sub tables' (Z.to_nat (tb_gpa t - start)) (length (tb_bytes t)))).
Proof.
  intros Hb F1 F2 B1 B2 A1 A2 Hroom. pose proof Hroom as [Hb0 _].
  destruct (blobs_build_inv _ _ Hb) as (rsdp & sdts & blob & os & Hf & Hl & Es & Hp & Ht & Hm & Hlt & Hlr & Hc & Hall & Hallr).
  set (start := first_of tables) in *. set (nz := List.filter (nonzero_at blob) (os ≫= fields_at)) in *. set (nr := List.filter (nonzero_at (tb_bytes rsdp)) rsdp_fields) in *.
  rewrite Es in Hp, Hall, Hallr.
  destruct (built_fields tables b rsdp blob os base Hb Hroom Hl Ht Hm Hp Hlt Hlr) as (Hlen & Hrl & Hsm & Hsr & Hfn & Hfr & Hvn & Hvr); [| |done|done|].
  { intros f Hin. rewrite Hc, !elem_of_app. right. left. apply list_elem_of_fmap. by exists f. }
  { intros f Hin. rewrite Hc, !elem_of_app. right. right. right. left. apply list_elem_of_fmap. by exists f. }
  fold start nz nr in Hvn, Hvr, Hsm, Hsr, Hfn, Hfr. change MAX_TABLES_BYTES with (2 ^ 20) in Hm.
  assert (Hno : ordered 0 nz (length blob)) by apply ordered_filter, flat_ordered, Ht.
  assert (Hro : ordered 9 nr 32) by (apply ordered_filter; cbn; unfold RSDP_RSDT_OFFSET, RSDP_XSDT_OFFSET; lia).
  destruct (rewrite_fields_spec (make_absolute base) nz 0 (length blob) (lb_tables b) Hno ltac:(lia)) as (L3 & _); [intros; apply length_le_bytes|].
  destruct (rewrite_fields_spec (make_absolute base) nr 9 32 (lb_rsdp b) Hro ltac:(lia)) as (R3 & _); [intros; apply length_le_bytes|].
  pose proof (rsdp_relocated start base (tb_bytes rsdp) Hl) as Hrel. cbv zeta in Hrel. fold nr in Hrel. rewrite <- Hlr in Hrel.
  set (t3 := rewrite_fields (make_absolute base) nz (lb_tables b)) in *. set (r3 := rewrite_fields (make_absolute base) nr (lb_rsdp b)) in *.
  set (r4 := <[RSDP_CHECKSUM_OFFSET := checksum (sub r3 0 RSDP_V1_LEN)]> r3) in *. set (r5 := <[RSDP_EXT_CHECKSUM_OFFSET := _]> r4) in *.
  assert (L4 : length (sum_all os t3) = length blob).
  { assert (Hsl : forall l t, length (sum_all l t) = length t); [|rewrite Hsl; lia].
    intros l. induction l as [|o l IH]; intros t; [done|]. unfold sum_all. cbn [fold_left]. fold (sum_all l). rewrite IH. apply length_insert. }
  exists r5, (sum_all os t3). split; [|split; [|split]].
  - rewrite Hc. rewrite edk2_commands_app, (table_allocates _ _ rb base _ _ F1 F2 B1 B2 A1 A2). cbn [mbind result_bind].
    rewrite edk2_commands_app, (run_table_pointers _ _ rb _ base _ nz 0 (length blob)) by (done || lia). cbn [mbind result_bind]. fold t3.
    rewrite edk2_commands_app, (run_sums _ _ rb _ base t3 os 0 (length blob)) by (done || lia). cbn [mbind result_bind].
    rewrite edk2_commands_app, (run_rsdp_pointers _ _ rb _ base _ nr 9 32) by (done || (rewrite ?L4, <- ?Hlen; done) || lia). cbn [mbind result_bind]. fold r3.
    cbn [edk2_commands]. rewrite (sum_step _ _ _ _ rb r3) by (apply two_rsdp || (unfold RSDP_CHECKSUM_OFFSET, RSDP_V1_LEN; lia)). cbn [mbind result_bind]. rewrite two_set_rsdp.
    fold r4. rewrite (sum_step _ _ _ _ rb r4) by (apply two_rsdp || (unfold r4; rewrite length_insert; unfold RSDP_EXT_CHECKSUM_OFFSET, RSDP_LEN; lia)).
    cbn [mbind result_bind]. by rewrite two_set_rsdp.
  - apply Hrel.
  - intros r Hin Hir Hnz. assert (r = rsdp).
    { assert (Hin' : In r (List.filter is_rsdp tables)) by (apply filter_In; split; [by apply list_elem_of_In|done]). rewrite Hf in Hin'. by destruct Hin' as [<-|[]]. }
    subst r. rewrite (proj2 (proj2 Hrel) Hnz). apply wrap_small. apply (Hvr RSDP_XSDT_OFFSET 8%nat).
    apply list_elem_of_In, filter_In. split; [right; by left|]. unfold nonzero_at, value_at. cbn [fst snd]. by destruct (Z.eqb_spec (of_le (sub (tb_bytes rsdp) RSDP_XSDT_OFFSET 8)) 0).
  - intros t Hin Hir. assert (Hs : t ∈ sort_by_gpa (List.filter (fun t => negb (is_rsdp t)) tables)).
    { apply sort_In, list_elem_of_In, filter_In. split; [by apply list_elem_of_In|by rewrite Hir]. }
    destruct (place_spec _ _ _ _ _ _ Hp) as (os2 & E & _ & _ & _ & HF). cbn in E. subst os2.
    apply list_elem_of_lookup in Hs as [i Hi]. destruct (Forall2_lookup_l _ _ _ _ _ HF Hi) as (o & Ho & -> & Hge & Hsub). cbn [fst snd] in Hsub.
    split; [done|]. unfold t3. rewrite Hlt. eapply (tables_relocated start base blob os (length blob) Ht); [done|exact Hvn| |exact Hsub].
    by eapply list_elem_of_lookup_2.
Qed.

Lemma script_encodes tables b :
  blobs_build tables = Ok b ->
  exists l, loader b = Ok l /\ length l = (LOADER_ENTRY_LEN * length (lb_commands b))%nat /\ read_script (length (lb_commands b)) l = Ok (lb_commands b).
Proof.
  intros Hb. destruct (blobs_build_inv _ _ Hb) as (rsdp & sdts & blob & os & _ & _ & _ & _ & _ & _ & _ & _ & Hc & _). destruct file_names_ok as [Hr Ht].
  assert (Hok : Forall command_ok (lb_commands b)).
  { rewrite Hc. rewrite !list.Forall_app. split; [constructor; [by split; [|fits_closed]|constructor; [by split; [|fits_closed]|constructor]]|].
    split; [|split; [|split]].
    - apply list.Forall_forall. intros c (f & -> & _)%list_elem_of_fmap. by apply (generated_ok TABLES_FILE _ _ 0 0 0).
    - apply list.Forall_forall. intros c (f & -> & _)%list_elem_of_fmap. by apply (generated_ok TABLES_FILE 0 0 _ _ _).
    - apply list.Forall_forall. intros c (f & -> & _)%list_elem_of_fmap. by apply (generated_ok RSDP_FILE _ _ 0 0 0).
    - constructor; [by apply (generated_ok RSDP_FILE 0 0 _ _ _)|constructor; [by apply (generated_ok RSDP_FILE 0 0 _ _ _)|constructor]]. }
  destruct (script_read _ Hok) as (es & He & Hl & Hr'). exists (mjoin es). unfold loader. rewrite He. done.
Qed.

(** C25: the firmware accepts the files offered to it and ends up with the same
    tables wherever it puts them.  For any set of tables the files can be built
    from, the three files exist, and EDK2's first pass over them, as the
    repository's own [edk2_install] has it (entries of 128 bytes, allocations
    known, aligned and not repeated, pointer fields of a valid size inside their
    file, holding an offset into the file they point to and representable once
    relocated, checksum ranges inside their file), succeeds for every pair of
    addresses with the alignments asked for that leaves the tables room: below
    4 GiB, or anywhere when no 32-bit field is patched.  It leaves
    exactly the two files at their addresses, in which every table has a zero
    byte sum, its table pointers moved by exactly the distance between the new
    address and the old one, and every other byte as it was, and the root
    pointer has both checksums and its XSDT pointer moved the same way. *)
Theorem loader_script_relocates tables b rb base bases :
  blobs_build tables = Ok b ->
  find_by RSDP_FILE bases = Some rb -> find_by TABLES_FILE bases = Some base -> rb mod RSDP_ALIGN = 0 -> base mod TABLES_ALIGN = 0 -> room b base ->
  exists fs rsdp' tables', files b = Ok fs /\ edk2_pass1 fs bases = Ok (two_files rb rsdp' base tables') /\
  let start := first_of tables in
  rsdp_checksums_ok rsdp' = true /\
  (forall r, r ∈ tables -> is_rsdp r = true -> of_le (sub (tb_bytes r) RSDP_XSDT_OFFSET 8) <> 0 ->
     of_le (sub rsdp' RSDP_XSDT_OFFSET 8) = of_le (sub (tb_bytes r) RSDP_XSDT_OFFSET 8) - start + base) /\
  (forall t, t ∈ tables -> is_rsdp t = false ->
     start <= tb_gpa t /\ relocated start base t (sub tables' (Z.to_nat (tb_gpa t - start)) (length (tb_bytes t)))).
Proof.
  intros Hb B1 B2 A1 A2 Hroom. destruct (script_encodes _ _ Hb) as (l & El & Hlen & Hread).
  set (fs := [(RSDP_FILE, lb_rsdp b); (TABLES_FILE, lb_tables b); (LOADER_FILE, l)]).
  destruct (script_relocates tables b fs bases rb base Hb eq_refl eq_refl B1 B2 A1 A2 Hroom) as (r & t & Hrun & H).
  exists fs, r, t. split; [unfold files; by rewrite El|]. split; [|exact H].
  unfold edk2_pass1. change (find_by LOADER_FILE fs) with (Some l). cbn [ok_or mbind result_bind].
  rewrite Hlen. rewrite bool_decide_eq_true_2 by (rewrite Nat.mul_comm; apply Nat.Div0.mod_mul). cbn [negb].
  rewrite Nat.mul_comm, Nat.div_mul by done. by rewrite Hread.
Qed.

(** *** The platform's tables *)

Definition demo_tables : list Table :=
  match build ACPI_BASE ACPI_SIZE (vm_acpi_config 1 true true) with Ok T => at_tables T | Err _ => [] end.
Definition demo_blobs : LoaderBlobs :=
  match blobs_build demo_tables with Ok b => b | Err _ => {| lb_rsdp := []; lb_tables := []; lb_commands := [] |} end.

Lemma demo_blobs_ok : blobs_build demo_tables = Ok demo_blobs.
Proof. vm_compute. reflexivity. Qed.

(** The whole set is offered: three files beside the built-in items, ten tables. *)
Example demo_offered :
  length demo_tables = 10%nat /\ length (lb_commands demo_blobs) = 22%nat /\
  match fw_cfg_for demo_tables None with Ok d => file_names d = [RSDP_FILE; TABLES_FILE; LOADER_FILE] | Err _ => False end.
Proof. vm_compute. done. Qed.

Definition demo_bases : list (list Z * Z) := [(RSDP_FILE, 0x4c4b0000); (TABLES_FILE, 0x7fff0000)].

Lemma demo_room : room demo_blobs 0x7fff0000.
Proof. split; [lia|]. left. apply (bool_decide_unpack _). vm_compute. exact I. Qed.

Lemma loader_script_relocates_witness :
  exists fs rsdp' tables', files demo_blobs = Ok fs /\ edk2_pass1 fs demo_bases = Ok (two_files 0x4c4b0000 rsdp' 0x7fff0000 tables') /\
    rsdp_checksums_ok rsdp' = true.
Proof.
  destruct (loader_script_relocates demo_tables demo_blobs 0x4c4b0000 0x7fff0000 demo_bases demo_blobs_ok eq_refl eq_refl eq_refl eq_refl demo_room)
    as (fs & r & t & H1 & H2 & H3 & _).
  exists fs, r, t. split; [exact H1|]. split; [exact H2|exact H3].
Defined.

(** The platform's script patches no 32-bit field: it also runs above 4 GiB. *)
Example demo_wide : forallb (fun c => match c with AddPointer _ _ _ size => size =? 8 | _ => true end) (lb_commands demo_blobs) = true.
Proof. vm_compute. reflexivity. Qed.
