(* ===== verification/Virtiofs.v ===== *)
(** * The virtio-fs server

    Model of [ternvale-virtiofs/src]: [wire.rs], [fuse.rs], [opcode.rs], [error.rs],
    [name.rs], [sys.rs], [xattr.rs], [inode.rs], [handle.rs], [server.rs] and
    [server/].  Host system calls are answered by a parameter that sees every
    call made before; a computation returns its result together with the calls
    it made, and dropping an owned descriptor is a [Close] call.  Text is UTF-8
    bytes, an error is its errno, and a handler's error is the reply that
    carries it. *)

From stdpp Require Import list strings gmap sorting.
From S2P Require Import Prelude FwCfg.

(** ** Host constants ([libc], Darwin) *)

Definition EPERM : Z := 1.
Definition ENOENT : Z := 2.
Definition EIO : Z := 5.
Definition EBADF : Z := 9.
Definition EEXIST : Z := 17.
Definition ENOTDIR : Z := 20.
Definition EISDIR : Z := 21.
Definition EINVAL : Z := 22.
Definition ENFILE : Z := 23.
Definition EROFS : Z := 30.
Definition ELOOP : Z := 62.
Definition ENAMETOOLONG : Z := 63.
Definition ENOSYS : Z := 78.
Definition O_RDONLY : Z := 0.
Definition O_WRONLY : Z := 1.
Definition O_RDWR : Z := 2.
Definition O_NOFOLLOW : Z := 0x100.
Definition O_CREAT : Z := 0x200.
Definition O_EXCL : Z := 0x800.
Definition O_DIRECTORY : Z := 0x100000.
Definition O_CLOEXEC : Z := 0x1000000.
Definition O_SYMLINK : Z := 0x200000.
Definition S_IFMT : Z := 0xf000.
Definition S_IFDIR : Z := 0x4000.

(** ** Loads ([wire.rs]) and FUSE headers ([fuse.rs]) *)

Definition load_at (n : nat) (buf : list Z) (off : nat) : Z := default 0 (le_at n buf off).
Definition u32_at (buf : list Z) (off : nat) : Z := load_at 4 buf off.
Definition u64_at (buf : list Z) (off : nat) : Z := load_at 8 buf off.

Definition ROOT_ID : Z := 1.
Definition IN_HEADER : nat := 40.
Definition OUT_HEADER : nat := 16.
Definition ATTR_SIZE : nat := 88.
Definition KERNEL_MAJOR : Z := 7.
Definition KERNEL_MINOR : Z := 31.

Record InHeader := { ih_len : Z; ih_opcode : Z; ih_unique : Z; ih_nodeid : Z }.

Record Attr := {
  at_ino : Z; at_size : Z; at_blocks : Z; at_atime : Z; at_mtime : Z; at_ctime : Z; at_atimensec : Z; at_mtimensec : Z; at_ctimensec : Z;
  at_mode : Z; at_nlink : Z; at_uid : Z; at_gid : Z; at_rdev : Z; at_blksize : Z;
}.

Definition in_parse (buf : list Z) : option InHeader :=
  if bool_decide (length buf < IN_HEADER)%nat then None
  else Some {| ih_len := u32_at buf 0; ih_opcode := u32_at buf 4; ih_unique := u64_at buf 8; ih_nodeid := u64_at buf 16 |}.

Definition until_zero (bytes : list Z) : list Z :=
  match position (fun b => b =? 0) bytes with Some end_ => take end_ bytes | None => bytes end.

Definition c_string (bytes : list Z) : option (list Z) := let s := until_zero bytes in if utf8_valid s then Some s else None.

Definition reply (unique error : Z) (payload : list Z) : list Z :=
  le_bytes 4 (wrap 32 (Z.of_nat (OUT_HEADER + length payload))) ++ le_bytes 4 (wrap 32 (- error)) ++ le_bytes 8 unique ++ payload.

Definition encode_attr (a : Attr) : list Z :=
  le_bytes 8 (at_ino a) ++ le_bytes 8 (at_size a) ++ le_bytes 8 (at_blocks a) ++ le_bytes 8 (at_atime a) ++ le_bytes 8 (at_mtime a)
  ++ le_bytes 8 (at_ctime a) ++ le_bytes 4 (at_atimensec a) ++ le_bytes 4 (at_mtimensec a) ++ le_bytes 4 (at_ctimensec a) ++ le_bytes 4 (at_mode a)
  ++ le_bytes 4 (at_nlink a) ++ le_bytes 4 (at_uid a) ++ le_bytes 4 (at_gid a) ++ le_bytes 4 (at_rdev a) ++ le_bytes 4 (at_blksize a) ++ replicate 4 0.

Definition encode_entry (nodeid generation : Z) (a : Attr) : list Z :=
  le_bytes 8 nodeid ++ le_bytes 8 generation ++ le_bytes 8 1 ++ le_bytes 8 1 ++ le_bytes 4 0 ++ le_bytes 4 0 ++ encode_attr a.

Definition dirent_record (ino off typ : Z) (name : list Z) : list Z :=
  let reclen := ((24 + length name + 7) / 8 * 8)%nat in
  le_bytes 8 ino ++ le_bytes 8 off ++ le_bytes 4 (wrap 32 (Z.of_nat (length name))) ++ le_bytes 4 typ ++ name
  ++ replicate (reclen - (24 + length name)) 0.

(** ** Opcodes ([opcode.rs]) *)

Definition LOOKUP : Z := 1.
Definition FORGET : Z := 2.
Definition GETATTR : Z := 3.
Definition SETATTR : Z := 4.
Definition READLINK : Z := 5.
Definition SYMLINK : Z := 6.
Definition MKDIR : Z := 9.
Definition UNLINK : Z := 10.
Definition RMDIR : Z := 11.
Definition RENAME : Z := 12.
Definition OPEN : Z := 14.
Definition READ : Z := 15.
Definition WRITE : Z := 16.
Definition STATFS : Z := 17.
Definition RELEASE : Z := 18.
Definition FSYNC : Z := 20.
Definition SETXATTR : Z := 21.
Definition GETXATTR : Z := 22.
Definition LISTXATTR : Z := 23.
Definition REMOVEXATTR : Z := 24.
Definition FLUSH : Z := 25.
Definition INIT : Z := 26.
Definition OPENDIR : Z := 27.
Definition READDIR : Z := 28.
Definition RELEASEDIR : Z := 29.
Definition FSYNCDIR : Z := 30.
Definition ACCESS : Z := 34.
Definition CREATE : Z := 35.
Definition READDIRPLUS : Z := 44.
Definition RENAME2 : Z := 45.

(** ** Paths ([std::path]) and names ([name.rs]) *)

Definition SLASH : Z := 47.
Definition DOT : Z := 46.
Definition BACKSLASH : Z := 92.

Fixpoint split_on (sep : Z) (l : list Z) : list (list Z) :=
  match l with
  | [] => [[]]
  | b :: l => if b =? sep then [] :: split_on sep l
              else match split_on sep l with s :: rest => (b :: s) :: rest | [] => [[b]] end
  end.

(** [Path::components]: repeated separators and inner [.] vanish. *)
Definition components (p : list Z) : list (list Z) :=
  let segs := split_on SLASH p in
  let keep := List.filter (fun s => negb (bool_decide (s = []) || bool_decide (s = [DOT]))) segs in
  match p with
  | b :: _ => if b =? SLASH then [SLASH] :: keep
              else match segs with s :: _ => if bool_decide (s = [DOT]) then [DOT] :: keep else keep | [] => keep end
  | [] => []
  end.

Fixpoint strip_prefix (pre l : list (list Z)) : option (list (list Z)) :=
  match pre, l with
  | [], _ => Some l
  | x :: pre, y :: l => if bool_decide (x = y) then strip_prefix pre l else None
  | _ :: _, [] => None
  end.

(** [sys::under_root]. *)
Definition under_root (path root : list Z) : bool :=
  bool_decide (components path = components root) || bool_decide (is_Some (strip_prefix (components root) (components path))).

Definition MAX_NAME : nat := 255.
Definition WIN_MAX_PATH : nat := 260.
Definition WIN_ILLEGAL : list Z := [60; 62; 58; 34; 47; 92; 124; 63; 42].

Definition check (name : list Z) : result Z unit :=
  if bool_decide (name = []) || bool_decide (MAX_NAME < length name)%nat then Err EINVAL
  else if bool_decide (name = [DOT]) || bool_decide (name = [DOT; DOT]) || bool_decide (SLASH ∈ name) || bool_decide (0 ∈ name) then Err EPERM
  else Ok tt.

Definition upper (b : Z) : Z := if in_range 97 122 b then b - 32 else b.
Definition eq_ignore_ascii_case (a b : list Z) : bool := bool_decide ((upper <$> a) = (upper <$> b)).

Definition RESERVED : list (list Z) :=
  ascii_bytes <$> ["CON"; "PRN"; "AUX"; "NUL"; "COM1"; "COM2"; "COM3"; "COM4"; "COM5"; "COM6"; "COM7"; "COM8"; "COM9";
                   "LPT1"; "LPT2"; "LPT3"; "LPT4"; "LPT5"; "LPT6"; "LPT7"; "LPT8"; "LPT9"]%string.
Definition is_reserved (name : list Z) : bool :=
  let stem := match split_on DOT name with s :: _ => s | [] => name end in bool_decide ((upper <$> stem) ∈ RESERVED).

(** A control or illegal character is one byte, so the test on bytes is the test on characters. *)
Definition check_windows (name : list Z) : result Z unit :=
  _ ← check name;
  if match list.last name with Some b => (b =? 32) || (b =? DOT) | None => false end then Err EINVAL
  else if existsb (fun b => (b <? 32) || bool_decide (b ∈ WIN_ILLEGAL)) name then Err EINVAL
  else if is_reserved name then Err EINVAL
  else Ok tt.

Definition check_windows_path (root parent name : list Z) : result Z unit :=
  let rel := default (components parent) (strip_prefix (components root) (components parent)) in
  let guest := [90; 58] ++ (part ← rel; BACKSLASH :: part) ++ BACKSLASH :: name in
  if bool_decide (WIN_MAX_PATH < length guest)%nat then Err ENAMETOOLONG else Ok tt.

(** ** System calls ([sys.rs], [xattr.rs]) *)

Record Stat := {
  st_mode : Z; st_size : Z; st_blocks : Z; st_atime : Z; st_mtime : Z; st_ctime : Z; st_atime_nsec : Z; st_mtime_nsec : Z; st_ctime_nsec : Z;
  st_nlink : Z; st_rdev : Z; st_blksize : Z;
}.
Record Statfs := { f_blocks : Z; f_bfree : Z; f_bavail : Z; f_files : Z; f_ffree : Z; f_bsize : Z; f_iosize : Z }.

Inductive Sys : Type -> Type :=
  | Open (path : list Z) (flags : Z) : Sys Z
  | Openat (dir : Z) (name : list Z) (flags mode : Z) : Sys Z
  | Dup (fd : Z) : Sys Z
  | Close (fd : Z) : Sys unit
  | Fstat (fd : Z) : Sys Stat
  | Getpath (fd : Z) : Sys (list Z)
  | Mkdirat (dir : Z) (name : list Z) (mode : Z) : Sys unit
  | Unlinkat (dir : Z) (name : list Z) (removedir : bool) : Sys unit
  | Renameat (olddir : Z) (old : list Z) (newdir : Z) (new : list Z) : Sys unit
  | Symlinkat (target : list Z) (dir : Z) (name : list Z) : Sys unit
  | Pread (fd : Z) (len : nat) (off : Z) : Sys (list Z)
  | Pwrite (fd : Z) (buf : list Z) (off : Z) : Sys nat
  | Fsync (fd : Z) : Sys unit
  | Ftruncate (fd : Z) (size : Z) : Sys unit
  | Fchmod (fd : Z) (mode : Z) : Sys unit
  | Fstatfs (fd : Z) : Sys Statfs
  | Readdir (fd : Z) : Sys (list (list Z * Z))
  | Readlink (path : list Z) (len : nat) : Sys (list Z)
  | Getxattr (fd : Z) (name : list Z) (len : nat) : Sys (nat * list Z)
  | Setxattr (fd : Z) (name buf : list Z) : Sys unit
  | Listxattr (fd : Z) (len : nat) : Sys (nat * list Z)
  | Removexattr (fd : Z) (name : list Z) : Sys unit.

(** A call and its answer. *)
Inductive Event : Type :=
  | Ev (A : Type) (c : Sys A) (r : result Z A).
Arguments Ev {A} _ _.

(** The host answers a call as it likes, knowing every call before it. *)
Definition Host : Type := list Event -> forall A, Sys A -> result Z A.

(** Computations of the server: a state [S] and the calls made. *)
Definition FS (S A : Type) : Type := S -> list Event -> result Z A * S * list Event.

#[export] Instance FS_ret S : MRet (FS S) := fun _ a s tr => (Ok a, s, tr).
#[export] Instance FS_bind S : MBind (FS S) := fun _ _ k c s tr =>
  match c s tr with (Ok a, s, tr) => k a s tr | (Err e, s, tr) => (Err e, s, tr) end.

Definition fail {S A} (e : Z) : FS S A := fun s tr => (Err e, s, tr).
Definition lift {S A} (r : result Z A) : FS S A := fun s tr => (r, s, tr).
Definition of_option {S A} (o : option A) (e : Z) : FS S A := match o with Some a => mret a | None => fail e end.
Definition get_state {S} : FS S S := fun s tr => (Ok s, s, tr).
Definition put_state {S} (s' : S) : FS S unit := fun _ tr => (Ok tt, s', tr).

(** A computation whose own errors are values. *)
Definition try {S A} (c : FS S A) : FS S (result Z A) := fun s tr => let '(r, s, tr) := c s tr in (Ok r, s, tr).

Section Server.
Variable host : Host.
Variables host_uid host_gid : Z.

Definition call {S A} (c : Sys A) : FS S A := fun s tr => let r := host tr A c in (r, s, tr ++ [Ev c r]).
(** Dropping an [OwnedFd]. *)
Definition close {S} (fd : Z) : FS S unit := fun s tr => (Ok tt, s, tr ++ [Ev (Close fd) (host tr unit (Close fd))]).
(** Run [c] while owning [fd]: an error drops it. *)
Definition owning {S A} (fd : Z) (c : FS S A) : FS S A :=
  r ← try c; match r with Ok a => mret a | Err e => _ ← close fd; fail e end.

Definition c_name {S} (name : list Z) : FS S (list Z) := if bool_decide (0 ∈ name) then fail EINVAL else mret name.

Definition open_dir {S} (path : list Z) : FS S Z := c ← c_name path; call (Open c (Z.lor (Z.lor O_RDONLY O_DIRECTORY) O_CLOEXEC)).

Definition openat_at {S} (dir : Z) (name : list Z) (flags mode : Z) : FS S Z :=
  c ← c_name name;
  let flags := Z.lor (Z.lor flags O_CLOEXEC) O_NOFOLLOW in
  r ← try (call (Openat dir c flags mode));
  match r with
  | Ok fd => mret fd
  | Err e =>
      if e =? ELOOP then call (Openat dir c (Z.lor (Z.lor (Z.land flags (Z.lnot O_NOFOLLOW)) O_SYMLINK) O_CLOEXEC) mode)
      else fail e
  end.
Definition openat_nofollow {S} (dir : Z) (name : list Z) (flags : Z) : FS S Z := openat_at dir name flags 0x1b6.
Definition openat_create {S} (dir : Z) (name : list Z) (flags mode : Z) : FS S Z := openat_at dir name (Z.lor flags O_CREAT) mode.

Definition fstat {S} (fd : Z) : FS S Stat := call (Fstat fd).
Definition fd_path {S} (fd : Z) : FS S (list Z) :=
  buf ← call (Getpath fd); let text := until_zero buf in if utf8_valid text then mret text else fail EIO.

Definition mkdirat {S} (dir : Z) (name : list Z) (mode : Z) : FS S unit := c ← c_name name; call (Mkdirat dir c mode).
Definition unlinkat {S} (dir : Z) (name : list Z) (removedir : bool) : FS S unit := c ← c_name name; call (Unlinkat dir c removedir).
Definition renameat {S} (olddir : Z) (old : list Z) (newdir : Z) (new : list Z) : FS S unit :=
  oc ← c_name old; nc ← c_name new; call (Renameat olddir oc newdir nc).
Definition symlinkat {S} (dir : Z) (name target : list Z) : FS S unit := t ← c_name target; n ← c_name name; call (Symlinkat t dir n).
Definition pread {S} (fd : Z) (len : nat) (off : Z) : FS S (list Z) := call (Pread fd len off).
Definition pwrite {S} (fd : Z) (buf : list Z) (off : Z) : FS S nat := call (Pwrite fd buf off).
Definition sys_fsync {S} (fd : Z) : FS S unit := call (Fsync fd).
Definition ftruncate {S} (fd size : Z) : FS S unit := call (Ftruncate fd size).
Definition fchmod {S} (fd mode : Z) : FS S unit := call (Fchmod fd mode).
Definition fstatfs {S} (fd : Z) : FS S Statfs := call (Fstatfs fd).

Definition readdir_names {S} (dir : Z) : FS S (list (list Z * Z)) :=
  entries ← call (Readdir dir);
  mret (List.filter (fun e => utf8_valid e.1 && negb (bool_decide (e.1 = [DOT]) || bool_decide (e.1 = [DOT; DOT])))
          ((fun e => (until_zero e.1, e.2)) <$> entries)).

Definition readlink_fd {S} (fd : Z) : FS S (list Z) := path ← fd_path fd; c ← c_name path; call (Readlink c 1024).
Definition dup_fd {S} (fd : Z) : FS S Z := call (Dup fd).

Definition xattr_get {S} (fd : Z) (name : list Z) (len : nat) : FS S (nat * list Z) := c ← c_name name; call (Getxattr fd c len).
Definition xattr_set {S} (fd : Z) (name buf : list Z) : FS S unit := c ← c_name name; call (Setxattr fd c buf).
Definition xattr_list {S} (fd : Z) (len : nat) : FS S (nat * list Z) := call (Listxattr fd len).
Definition xattr_remove {S} (fd : Z) (name : list Z) : FS S unit := c ← c_name name; call (Removexattr fd c).

(** *** Names against the host directory ([name.rs]) *)

Definition fold_lookup {S} (dir : Z) (name : list Z) : FS S (list Z) :=
  names ← readdir_names dir;
  let hits := List.filter (fun n => eq_ignore_ascii_case n name && negb (bool_decide (n = [DOT]) || bool_decide (n = [DOT; DOT]))) (fst <$> names) in
  if existsb (fun n => bool_decide (n = name)) hits then mret name
  else match remove_dups hits with [] => mret name | [h] => mret h | _ => fail EEXIST end.

Definition reject_case_create {S} (dir : Z) (name : list Z) : FS S unit :=
  names ← readdir_names dir;
  if existsb (fun e => negb (bool_decide (e.1 = name)) && eq_ignore_ascii_case e.1 name) names then fail EEXIST else mret tt.

Definition prepare {S} (dir : Z) (name : list Z) (windows creating : bool) : FS S (list Z) :=
  if windows then
    _ ← lift (check_windows name);
    if creating then _ ← reject_case_create dir name; mret name else fold_lookup dir name
  else _ ← lift (check name); mret name.

(** ** Inodes ([inode.rs]) *)

Record Inode := { in_nodeid : Z; in_generation : Z; in_nlookup : Z; in_fd : Z; in_mode : Z }.
Record Table := { ta_root : list Z; ta_next_id : Z; ta_next_gen : Z; ta_by_id : gmap Z Inode }.

Definition MAX_INODES : nat := 4096.

Definition table_new (root_fd : Z) (mode : Z) (root_real : list Z) : Table :=
  {| ta_root := root_real; ta_next_id := 2; ta_next_gen := 2;
     ta_by_id := {[ ROOT_ID := {| in_nodeid := ROOT_ID; in_generation := 1; in_nlookup := 1; in_fd := root_fd; in_mode := mode |} ]} |}.

(** ** Handles ([handle.rs]) *)

Record Handle := { ha_nodeid : Z; ha_fd : Z; ha_dir : bool }.
Record Handles := { hs_next : Z; hs_max : nat; hs_by_fh : gmap Z Handle }.
Definition DEFAULT_MAX : nat := 256.
Definition handles_new (max : nat) : Handles := {| hs_next := 1; hs_max := Nat.max max 1; hs_by_fh := ∅ |}.

(** ** The session ([server.rs]) *)

Record Options := { op_read_only : bool; op_max_handles : nat; op_windows_names : bool }.
Record Server := { sv_inodes : Table; sv_handles : Handles; sv_read_only : bool; sv_windows_names : bool; sv_inited : bool }.

Definition set_inodes (t : Table) (s : Server) : Server :=
  {| sv_inodes := t; sv_handles := sv_handles s; sv_read_only := sv_read_only s; sv_windows_names := sv_windows_names s; sv_inited := sv_inited s |}.
Definition set_handles (h : Handles) (s : Server) : Server :=
  {| sv_inodes := sv_inodes s; sv_handles := h; sv_read_only := sv_read_only s; sv_windows_names := sv_windows_names s; sv_inited := sv_inited s |}.
Definition set_inited (s : Server) : Server :=
  {| sv_inodes := sv_inodes s; sv_handles := sv_handles s; sv_read_only := sv_read_only s; sv_windows_names := sv_windows_names s; sv_inited := true |}.

Notation M := (FS Server).

Definition server_open (root : list Z) (opts : Options) : FS unit Server :=
  fd ← open_dir root;
  real ← owning fd (fd_path fd);
  st ← try (fstat fd);
  let mode := match st with Ok st => st_mode st | Err _ => 0x41ed end in
  mret {| sv_inodes := table_new fd mode real; sv_handles := handles_new (op_max_handles opts);
          sv_read_only := op_read_only opts; sv_windows_names := op_windows_names opts; sv_inited := false |}.

Definition inode_get (nodeid : Z) : M (option Inode) := s ← get_state; mret (ta_by_id (sv_inodes s) !! nodeid).
Definition handle_get (fh : Z) : M (option Handle) := s ← get_state; mret (hs_by_fh (sv_handles s) !! fh).

(** [Table::insert]; it owns the descriptor. *)
Definition inode_insert (fd mode : Z) : M (Z * Z) :=
  owning fd (
    path ← fd_path fd;
    s ← get_state;
    let t := sv_inodes s in
    if negb (under_root path (ta_root t)) then fail EPERM
    else if bool_decide (MAX_INODES <= size (ta_by_id t))%nat then fail ENFILE
    else
      let nodeid := ta_next_id t in
      let generation := ta_next_gen t in
      let inode := {| in_nodeid := nodeid; in_generation := generation; in_nlookup := 1; in_fd := fd; in_mode := mode |} in
      _ ← put_state (set_inodes {| ta_root := ta_root t; ta_next_id := add_w 64 nodeid 1; ta_next_gen := add_w 64 generation 1;
                                   ta_by_id := <[nodeid := inode]> (ta_by_id t) |} s);
      mret (nodeid, generation)).

Definition inode_forget (nodeid nlookup : Z) : M unit :=
  if nodeid =? ROOT_ID then mret tt
  else
    s ← get_state;
    let t := sv_inodes s in
    match ta_by_id t !! nodeid with
    | None => mret tt
    | Some i =>
        let left := Z.max 0 (in_nlookup i - nlookup) in
        if left =? 0 then
          _ ← put_state (set_inodes {| ta_root := ta_root t; ta_next_id := ta_next_id t; ta_next_gen := ta_next_gen t;
                                       ta_by_id := delete nodeid (ta_by_id t) |} s);
          close (in_fd i)
        else
          let i := {| in_nodeid := in_nodeid i; in_generation := in_generation i; in_nlookup := left; in_fd := in_fd i; in_mode := in_mode i |} in
          put_state (set_inodes {| ta_root := ta_root t; ta_next_id := ta_next_id t; ta_next_gen := ta_next_gen t;
                                   ta_by_id := <[nodeid := i]> (ta_by_id t) |} s)
    end.

Definition stat_to_attr (ino : Z) (st : Stat) (uid gid : Z) : Attr :=
  {| at_ino := ino; at_size := wrap 64 (st_size st); at_blocks := wrap 64 (st_blocks st); at_atime := wrap 64 (st_atime st);
     at_mtime := wrap 64 (st_mtime st); at_ctime := wrap 64 (st_ctime st); at_atimensec := wrap 32 (st_atime_nsec st);
     at_mtimensec := wrap 32 (st_mtime_nsec st); at_ctimensec := wrap 32 (st_ctime_nsec st); at_mode := st_mode st;
     at_nlink := wrap 32 (st_nlink st); at_uid := uid; at_gid := gid; at_rdev := wrap 32 (st_rdev st); at_blksize := wrap 32 (st_blksize st) |}.

Definition attr_of (i : Inode) : M Attr := st ← fstat (in_fd i); mret (stat_to_attr (in_nodeid i) st host_uid host_gid).

(** [Handles::insert]; it owns the descriptor. *)
Definition handle_insert (nodeid fd : Z) (dir : bool) : M Z :=
  owning fd (
    s ← get_state;
    let h := sv_handles s in
    if bool_decide (hs_max h <= size (hs_by_fh h))%nat then fail ENFILE
    else
      let fh := hs_next h in
      _ ← put_state (set_handles {| hs_next := saturating_add 64 fh 1; hs_max := hs_max h;
                                    hs_by_fh := <[fh := {| ha_nodeid := nodeid; ha_fd := fd; ha_dir := dir |}]> (hs_by_fh h) |} s);
      mret fh).

Definition handle_release (fh : Z) : M unit :=
  s ← get_state;
  let h := sv_handles s in
  match hs_by_fh h !! fh with
  | None => fail EBADF
  | Some x =>
      _ ← put_state (set_handles {| hs_next := hs_next h; hs_max := hs_max h; hs_by_fh := delete fh (hs_by_fh h) |} s);
      close (ha_fd x)
  end.

Definition child_name (parent_id : Z) (name : list Z) (creating : bool) : M (list Z) :=
  p ← inode_get parent_id;
  parent ← of_option p ENOENT;
  s ← get_state;
  _ ← (if sv_windows_names s then
         r ← try (fd_path (in_fd parent));
         match r with Ok path => lift (check_windows_path (ta_root (sv_inodes s)) path name) | Err _ => mret tt end
       else mret tt);
  prepare (in_fd parent) name (sv_windows_names s) creating.

Definition want_write : M unit := s ← get_state; if sv_read_only s then fail EROFS else mret tt.

(** ** Requests ([server/]): the payload of the reply *)

Definition need (n : nat) (body : list Z) : M unit := if bool_decide (length body < n)%nat then fail EINVAL else mret tt.

(** *** INIT, ACCESS, LOOKUP, FORGET *)

Definition INIT_IN : nat := 16.
Definition FLAGS : Z := Z.lor (Z.lor 1 (Z.shiftl 1 5)) (Z.lor (Z.shiftl 1 6) (Z.shiftl 1 3)).
Definition MAX_WRITE : Z := 1024 * 1024.

Definition init (body : list Z) : M (list Z) :=
  _ ← need INIT_IN body;
  s ← get_state;
  _ ← put_state (set_inited s);
  let out := le_bytes 4 KERNEL_MAJOR ++ le_bytes 4 KERNEL_MINOR ++ le_bytes 4 MAX_WRITE ++ le_bytes 4 FLAGS ++ le_bytes 2 0 ++ le_bytes 2 0
             ++ le_bytes 4 MAX_WRITE ++ le_bytes 4 1 in
  mret (out ++ replicate (64 - length out) 0).

Definition W_OK : Z := 2.
Definition access (hdr : InHeader) (body : list Z) : M (list Z) :=
  i ← inode_get (ih_nodeid hdr);
  _ ← of_option i ENOENT;
  s ← get_state;
  if sv_read_only s && negb (Z.land (u32_at body 0) W_OK =? 0) then fail EROFS else mret [].

Definition lookup (hdr : InHeader) (body : list Z) : M (list Z) :=
  raw ← of_option (c_string body) EINVAL;
  name ← child_name (ih_nodeid hdr) raw false;
  p ← inode_get (ih_nodeid hdr);
  parent ← of_option p ENOENT;
  child ← openat_nofollow (in_fd parent) name O_RDONLY;
  st ← owning child (fstat child);
  ids ← inode_insert child (st_mode st);
  i ← inode_get ids.1;
  inode ← of_option i ENOENT;
  attr ← attr_of inode;
  mret (encode_entry ids.1 ids.2 attr).

Definition forget (hdr : InHeader) (body : list Z) : M unit :=
  inode_forget (ih_nodeid hdr) (if bool_decide (8 <= length body)%nat then u64_at body 0 else 1).

(** *** GETATTR, SETATTR, STATFS *)

Definition FATTR_MODE : Z := Z.shiftl 1 0.
Definition FATTR_SIZE : Z := Z.shiftl 1 3.
Definition FATTR_FH : Z := Z.shiftl 1 6.

Definition getattr (hdr : InHeader) : M (list Z) :=
  i ← inode_get (ih_nodeid hdr);
  inode ← of_option i ENOENT;
  attr ← attr_of inode;
  mret (le_bytes 8 1 ++ le_bytes 4 0 ++ le_bytes 4 0 ++ encode_attr attr).

Definition setattr (hdr : InHeader) (body : list Z) : M (list Z) :=
  _ ← want_write;
  _ ← need 16 body;
  let valid := u32_at body 0 in
  let fh := u64_at body 8 in
  let size := u64_at body 16 in
  let mode := u32_at body 80 in
  fd ← (if negb (Z.land valid FATTR_FH =? 0) then h ← handle_get fh; h ← of_option h EBADF; mret (ha_fd h)
        else i ← inode_get (ih_nodeid hdr); i ← of_option i ENOENT; mret (in_fd i));
  _ ← (if negb (Z.land valid FATTR_SIZE =? 0) then ftruncate fd size else mret tt);
  _ ← (if negb (Z.land valid FATTR_MODE =? 0) then fchmod fd (Z.land mode 0xfff) else mret tt);
  getattr hdr.

Definition statfs : M (list Z) :=
  i ← inode_get ROOT_ID;
  root ← of_option i ENOENT;
  st ← fstatfs (in_fd root);
  mret (le_bytes 8 (f_blocks st) ++ le_bytes 8 (f_bfree st) ++ le_bytes 8 (f_bavail st) ++ le_bytes 8 (f_files st) ++ le_bytes 8 (f_ffree st)
        ++ le_bytes 4 (f_bsize st) ++ le_bytes 4 255 ++ le_bytes 4 (wrap 32 (f_iosize st)) ++ replicate 28 0).

(** *** OPEN, RELEASE, READ, WRITE, FLUSH, FSYNC *)

Definition MAX_IO : nat := 1024 * 1024.

Definition open (hdr : InHeader) (body : list Z) : M (list Z) :=
  let flags := u32_at body 0 in
  s ← get_state;
  if sv_read_only s && negb (Z.land flags (Z.lor O_WRONLY O_RDWR) =? 0) then fail EROFS
  else
    i ← inode_get (ih_nodeid hdr);
    inode ← of_option i ENOENT;
    let dir := ih_opcode hdr =? OPENDIR in
    let is_dir := Z.land (in_mode inode) S_IFMT =? S_IFDIR in
    if dir && negb is_dir then fail ENOTDIR
    else if negb dir && is_dir then fail EISDIR
    else
      fd ← dup_fd (in_fd inode);
      fh ← handle_insert (ih_nodeid hdr) fd dir;
      mret (le_bytes 8 fh ++ replicate 8 0).

Definition release (body : list Z) : M (list Z) := _ ← handle_release (u64_at body 0); mret [].

Definition read (body : list Z) : M (list Z) :=
  let fh := u64_at body 0 in
  let offset := u64_at body 8 in
  let size := Nat.min (Z.to_nat (u32_at body 16)) MAX_IO in
  h ← handle_get fh;
  handle ← of_option h EBADF;
  if ha_dir handle then fail EISDIR
  else buf ← pread (ha_fd handle) size offset; mret (take size buf).

Definition write (body : list Z) : M (list Z) :=
  _ ← want_write;
  _ ← need 24 body;
  let fh := u64_at body 0 in
  let offset := u64_at body 8 in
  let size := Z.to_nat (u32_at body 16) in
  let data := drop (if bool_decide (40 <= length body)%nat then 40 else 24) body in
  let take_ := Nat.min (Nat.min size (length data)) MAX_IO in
  h ← handle_get fh;
  handle ← of_option h EBADF;
  n ← pwrite (ha_fd handle) (take take_ data) offset;
  mret (le_bytes 4 (wrap 32 (Z.of_nat n))).

Definition fsync (body : list Z) : M (list Z) :=
  h ← handle_get (u64_at body 0);
  handle ← of_option h EBADF;
  _ ← sys_fsync (ha_fd handle);
  mret [].
Definition flush (body : list Z) : M (list Z) := fsync body.

(** *** MKDIR, CREATE, UNLINK, RMDIR, RENAME, READDIR *)

Definition lookup_child (hdr : InHeader) (name : list Z) : M (list Z) := lookup hdr (name ++ [0]).

Definition mkdir (hdr : InHeader) (body : list Z) : M (list Z) :=
  _ ← want_write;
  _ ← need 8 body;
  let mode := u32_at body 0 in
  raw ← of_option (c_string (drop 8 body)) EINVAL;
  name ← child_name (ih_nodeid hdr) raw true;
  p ← inode_get (ih_nodeid hdr);
  parent ← of_option p ENOENT;
  _ ← mkdirat (in_fd parent) name (Z.land mode 0xfff);
  lookup_child hdr name.

Definition create (hdr : InHeader) (body : list Z) : M (list Z) :=
  _ ← want_write;
  _ ← need 16 body;
  let mode := u32_at body 4 in
  raw ← of_option (c_string (drop 16 body)) EINVAL;
  name ← child_name (ih_nodeid hdr) raw true;
  p ← inode_get (ih_nodeid hdr);
  parent ← of_option p ENOENT;
  child ← openat_create (in_fd parent) name (Z.lor O_EXCL O_RDWR) (Z.land mode 0xfff);
  st ← owning child (fstat child);
  ids ← inode_insert child (st_mode st);
  i ← inode_get ids.1;
  inode ← of_option i ENOENT;
  open_fd ← dup_fd (in_fd inode);
  fh ← handle_insert ids.1 open_fd false;
  i ← inode_get ids.1;
  inode ← of_option i ENOENT;
  attr ← (r ← try (attr_of inode); match r with Ok a => mret a | Err _ => fail ENOENT end);
  mret (encode_entry ids.1 ids.2 attr ++ le_bytes 8 fh ++ le_bytes 4 0 ++ le_bytes 4 0).

Definition unlink (hdr : InHeader) (body : list Z) (rmdir : bool) : M (list Z) :=
  _ ← want_write;
  raw ← of_option (c_string body) EINVAL;
  name ← child_name (ih_nodeid hdr) raw false;
  p ← inode_get (ih_nodeid hdr);
  parent ← of_option p ENOENT;
  _ ← unlinkat (in_fd parent) name rmdir;
  mret [].

(** A text before a zero byte, and what follows it. *)
Definition split_zero (l : list Z) : option (list Z * list Z) :=
  end_ ← position (fun b => b =? 0) l;
  let old := take end_ l in
  if utf8_valid old then Some (old, drop (S end_) l) else None.

Definition rename (hdr : InHeader) (body : list Z) (rename2 : bool) : M (list Z) :=
  _ ← want_write;
  let names_off := if rename2 then 16%nat else 8%nat in
  _ ← need names_off body;
  let newdir := u64_at body 0 in
  p ← of_option (split_zero (drop names_off body)) EINVAL;
  new ← of_option (c_string p.2) EINVAL;
  old_name ← child_name (ih_nodeid hdr) p.1 false;
  new_name ← child_name newdir new false;
  i ← inode_get (ih_nodeid hdr);
  src ← of_option i ENOENT;
  i ← inode_get newdir;
  dst ← of_option i ENOENT;
  _ ← renameat (in_fd src) old_name (in_fd dst) new_name;
  mret [].

Definition placeholder_attr : Attr :=
  {| at_ino := 0; at_size := 0; at_blocks := 0; at_atime := 0; at_mtime := 0; at_ctime := 0; at_atimensec := 0; at_mtimensec := 0; at_ctimensec := 0;
     at_mode := 0; at_nlink := 1; at_uid := 0; at_gid := 0; at_rdev := 0; at_blksize := 4096 |}.

Fixpoint dirents (plus : bool) (offset : Z) (size : nat) (off : Z) (names : list (list Z * Z)) (out : list Z) : list Z :=
  match names with
  | [] => out
  | (name, typ) :: names =>
      if off <=? offset then dirents plus offset size (off + 1) names out
      else
        let rec := (if plus then encode_entry 0 0 placeholder_attr else []) ++ dirent_record 0 off typ name in
        if bool_decide (size < length out + length rec)%nat then out
        else dirents plus offset size (off + 1) names (out ++ rec)
  end.

Definition readdir (body : list Z) (plus : bool) : M (list Z) :=
  let fh := u64_at body 0 in
  let offset := u64_at body 8 in
  let size := Z.to_nat (u32_at body 16) in
  h ← handle_get fh;
  handle ← of_option h EBADF;
  names ← readdir_names (ha_fd handle);
  mret (dirents plus offset size 1 names []).

(** *** SYMLINK, READLINK and extended attributes *)

Definition MAX_XATTR : nat := 64 * 1024.

Definition symlink (hdr : InHeader) (body : list Z) : M (list Z) :=
  _ ← want_write;
  p ← of_option (split_zero body) EINVAL;
  target ← of_option (c_string p.2) EINVAL;
  link_name ← child_name (ih_nodeid hdr) p.1 true;
  i ← inode_get (ih_nodeid hdr);
  parent ← of_option i ENOENT;
  if bool_decide (target = []) || bool_decide (1024 < length target)%nat then fail EINVAL
  else
    _ ← symlinkat (in_fd parent) link_name target;
    lookup hdr (link_name ++ [0]).

Definition readlink (hdr : InHeader) : M (list Z) :=
  i ← inode_get (ih_nodeid hdr);
  inode ← of_option i ENOENT;
  readlink_fd (in_fd inode).

Definition getxattr (hdr : InHeader) (body : list Z) : M (list Z) :=
  _ ← need 8 body;
  let size := Z.to_nat (u32_at body 0) in
  xname ← of_option (c_string (drop 8 body)) EINVAL;
  i ← inode_get (ih_nodeid hdr);
  inode ← of_option i ENOENT;
  if bool_decide (size = 0)%nat then p ← xattr_get (in_fd inode) xname 0; mret (le_bytes 4 (wrap 32 (Z.of_nat p.1)) ++ replicate 4 0)
  else let len := Nat.min size MAX_XATTR in p ← xattr_get (in_fd inode) xname len; mret (take p.1 (take len p.2)).

Definition setxattr (hdr : InHeader) (body : list Z) : M (list Z) :=
  _ ← want_write;
  _ ← need 8 body;
  let size := Z.to_nat (u32_at body 0) in
  xname ← of_option (c_string (drop 8 body)) EINVAL;
  let name_end := default 0%nat (position (fun b => b =? 0) (drop 8 body)) in
  let value := drop (8 + name_end + 1) body in
  let take_ := Nat.min (Nat.min size (length value)) MAX_XATTR in
  i ← inode_get (ih_nodeid hdr);
  inode ← of_option i ENOENT;
  _ ← xattr_set (in_fd inode) xname (take take_ value);
  mret [].

Definition listxattr (hdr : InHeader) (body : list Z) : M (list Z) :=
  let size := Z.to_nat (u32_at body 0) in
  i ← inode_get (ih_nodeid hdr);
  inode ← of_option i ENOENT;
  if bool_decide (size = 0)%nat then p ← xattr_list (in_fd inode) 0; mret (le_bytes 4 (wrap 32 (Z.of_nat p.1)) ++ replicate 4 0)
  else let len := Nat.min size MAX_XATTR in p ← xattr_list (in_fd inode) len; mret (take p.1 (take len p.2)).

Definition removexattr (hdr : InHeader) (body : list Z) : M (list Z) :=
  _ ← want_write;
  xname ← of_option (c_string body) EINVAL;
  i ← inode_get (ih_nodeid hdr);
  inode ← of_option i ENOENT;
  _ ← xattr_remove (in_fd inode) xname;
  mret [].

(** *** Dispatch *)

Definition serve (hdr : InHeader) (body : list Z) : M (list Z) :=
  let op := ih_opcode hdr in
  s ← get_state;
  if negb (op =? INIT) && negb (sv_inited s) then fail EIO
  else if op =? INIT then init body
  else if op =? LOOKUP then lookup hdr body
  else if op =? GETATTR then getattr hdr
  else if op =? SETATTR then setattr hdr body
  else if op =? STATFS then statfs
  else if op =? ACCESS then access hdr body
  else if (op =? OPEN) || (op =? OPENDIR) then open hdr body
  else if (op =? RELEASE) || (op =? RELEASEDIR) then release body
  else if op =? READ then read body
  else if op =? WRITE then write body
  else if op =? FLUSH then flush body
  else if (op =? FSYNC) || (op =? FSYNCDIR) then fsync body
  else if op =? MKDIR then mkdir hdr body
  else if op =? CREATE then create hdr body
  else if op =? UNLINK then unlink hdr body false
  else if op =? RMDIR then unlink hdr body true
  else if op =? RENAME then rename hdr body false
  else if op =? RENAME2 then rename hdr body true
  else if op =? READDIR then readdir body false
  else if op =? READDIRPLUS then readdir body true
  else if op =? SYMLINK then symlink hdr body
  else if op =? READLINK then readlink hdr
  else if op =? GETXATTR then getxattr hdr body
  else if op =? SETXATTR then setxattr hdr body
  else if op =? LISTXATTR then listxattr hdr body
  else if op =? REMOVEXATTR then removexattr hdr body
  else fail ENOSYS.

Definition dispatch (hdr : InHeader) (body : list Z) (s : Server) (tr : list Event) : list Z * Server * list Event :=
  match serve hdr body s tr with
  | (Ok payload, s, tr) => (reply (ih_unique hdr) 0 payload, s, tr)
  | (Err errno, s, tr) => (reply (ih_unique hdr) errno [], s, tr)
  end.

(** One request: its reply, [None] for FORGET. *)
Definition handle (request : list Z) (s : Server) (tr : list Event) : option (list Z) * Server * list Event :=
  match in_parse request with
  | None => (Some (reply 0 EINVAL []), s, tr)
  | Some hdr =>
      let body := drop IN_HEADER request in
      if ih_opcode hdr =? FORGET then let '(_, s, tr) := forget hdr body s tr in (None, s, tr)
      else let '(out, s, tr) := dispatch hdr body s tr in (Some out, s, tr)
  end.
End Server.
