(* ===== verification/VirtiofsSafe.v ===== *)
(** * Confinement and ownership in the virtio-fs server

    The server of [Virtiofs] against a reference monitor: an automaton over the
    system calls that knows the share's root and whether it is read-only, keeps
    the open descriptors and whether each was seen under the root, and stops at
    a call the share does not allow.  [Inv] ties the monitor to the server's two
    tables; the rules below execute a handler symbolically against it. *)

From stdpp Require Import list strings gmap sorting.
From S2P Require Import Prelude FwCfg Virtiofs.

(** ** The monitor *)

(** Open descriptors, [true] once vetted, and the path last answered for a vetted one. *)
Record Monitor := { mo_live : gmap Z bool; mo_path : option (list Z) }.
Definition monitor_new : Monitor := {| mo_live := ∅; mo_path := None |}.

Definition component (name : list Z) : bool := match check name with Ok _ => true | Err _ => false end.

(** A final symbolic link is not followed. *)
Definition nofollow (flags : Z) : bool := Z.testbit flags 8 || Z.testbit flags 21.
Definition writes (flags : Z) : bool := negb (Z.land flags (Z.lor (Z.lor O_WRONLY O_RDWR) O_CREAT) =? 0).

Definition opened (b : bool) (r : result Z Z) (m : Monitor) : Monitor :=
  match r with Ok fd => {| mo_live := <[fd := b]> (mo_live m); mo_path := mo_path m |} | Err _ => m end.

Definition mstep (ro : bool) (root : list Z) (m : Monitor) (e : Event) : option Monitor :=
  let open fd := bool_decide (is_Some (mo_live m !! fd)) in
  let vetted fd := bool_decide (mo_live m !! fd = Some true) in
  let keep (b : bool) := if b then Some m else None in
  match e with
  | @Ev A c r =>
    match c in Sys A return result Z A -> option Monitor with
    | Open _ _ => fun r => if bool_decide (mo_live m = ∅) then Some (opened false r m) else None
    | Openat dir name flags _ => fun r =>
        if vetted dir && component name && nofollow flags && negb (ro && writes flags) then Some (opened false r m) else None
    | Dup fd => fun r => if vetted fd then Some (opened true r m) else None
    | Close fd => fun _ => if open fd then Some {| mo_live := delete fd (mo_live m); mo_path := mo_path m |} else None
    | Fstat fd => fun _ => keep (open fd)
    | Getpath fd => fun r =>
        if open fd then
          match r with
          | Ok buf =>
              if vetted fd || under_root (until_zero buf) root
              then Some {| mo_live := <[fd := true]> (mo_live m); mo_path := Some (until_zero buf) |}
              else Some m
          | Err _ => Some m
          end
        else None
    | Mkdirat dir name _ => fun _ => keep (negb ro && vetted dir && component name)
    | Unlinkat dir name _ => fun _ => keep (negb ro && vetted dir && component name)
    | Renameat olddir old newdir new => fun _ => keep (negb ro && vetted olddir && component old && (vetted newdir && component new))
    | Symlinkat _ dir name => fun _ => keep (negb ro && vetted dir && component name)
    | Pread fd len _ => fun _ => keep (vetted fd && bool_decide (len <= MAX_IO)%nat)
    | Pwrite fd buf _ => fun _ => keep (negb ro && vetted fd && bool_decide (length buf <= MAX_IO)%nat)
    | Fsync fd | Fstatfs fd | Readdir fd => fun _ => keep (vetted fd)
    | Ftruncate fd _ | Fchmod fd _ => fun _ => keep (negb ro && vetted fd)
    | Readlink path _ => fun _ => keep (bool_decide (mo_path m = Some path))
    | Getxattr fd _ len | Listxattr fd len => fun _ => keep (vetted fd && bool_decide (len <= MAX_XATTR)%nat)
    | Setxattr fd _ buf => fun _ => keep (negb ro && vetted fd && bool_decide (length buf <= MAX_XATTR)%nat)
    | Removexattr fd _ => fun _ => keep (negb ro && vetted fd)
    end r
  end.

Definition audit (ro : bool) (root : list Z) (tr : list Event) : option Monitor :=
  foldl (fun m e => m ≫= fun m => mstep ro root m e) (Some monitor_new) tr.

(** The descriptors a trace leaves open, whatever the calls were. *)
Definition fd_step (X : gset Z) (e : Event) : gset Z :=
  match e with
  | @Ev A c r =>
    match c in Sys A return result Z A -> gset Z with
    | Open _ _ | Openat _ _ _ _ | Dup _ => fun r => match r with Ok fd => {[fd]} ∪ X | Err _ => X end
    | Close fd => fun _ => X ∖ {[fd]}
    | _ => fun _ => X
    end r
  end.
Definition open_fds (tr : list Event) : gset Z := foldl fd_step ∅ tr.

(** POSIX: a new descriptor is not one of those open. *)
Record FreshFds (host : Host) : Prop := {
  fresh_open tr p f fd : host tr Z (Open p f) = Ok fd -> fd ∉ open_fds tr;
  fresh_openat tr d n f m fd : host tr Z (Openat d n f m) = Ok fd -> fd ∉ open_fds tr;
  fresh_dup tr d fd : host tr Z (Dup d) = Ok fd -> fd ∉ open_fds tr;
}.

Lemma audit_snoc ro root tr e : audit ro root (tr ++ [e]) = audit ro root tr ≫= fun m => mstep ro root m e.
Proof. unfold audit. by rewrite foldl_app. Qed.

Lemma open_fds_snoc tr e : open_fds (tr ++ [e]) = fd_step (open_fds tr) e.
Proof. unfold open_fds. by rewrite foldl_app. Qed.

(** The monitor's descriptors are the open ones. *)
Lemma mstep_dom ro root m m' e X : mstep ro root m e = Some m' -> dom (mo_live m) = X -> dom (mo_live m') = fd_step X e.
Proof.
  intros H <-. destruct e as [A c r]; destruct c; simpl in *; repeat case_match; simplify_eq; simpl; try done.
  all: unfold opened in *; simpl in *; try set_solver.
  all: rewrite dom_insert_L; match goal with H : bool_decide (is_Some _) = true |- _ => apply bool_decide_eq_true, elem_of_dom in H end; set_solver.
Qed.

Lemma audit_dom ro root tr m : audit ro root tr = Some m -> dom (mo_live m) = open_fds tr.
Proof.
  revert m. induction tr as [|e tr IH] using rev_ind; intros m H.
  - injection H as <-. done.
  - rewrite audit_snoc in H. apply bind_Some in H as (m0 & H0 & H). rewrite open_fds_snoc. eapply mstep_dom; eauto.
Qed.

(** ** The invariant *)

Definition owned (s : Server) : list Z :=
  (in_fd ∘ snd <$> map_to_list (ta_by_id (sv_inodes s))) ++ (ha_fd ∘ snd <$> map_to_list (hs_by_fh (sv_handles s))).

(** The descriptors open when [X] is held by the running request. *)
Definition live (X : list (Z * bool)) (s : Server) : gmap Z bool := list_to_map (X ++ ((., true) <$> owned s)).

(** The two tables, when at most [n] descriptors were put in them. *)
Record tables_ok (n : Z) (s : Server) : Prop := {
  to_root : exists i, ta_by_id (sv_inodes s) !! ROOT_ID = Some i;
  to_ids : map_Forall (fun k i => 1 <= k < ta_next_id (sv_inodes s) /\ in_nodeid i = k) (ta_by_id (sv_inodes s));
  to_fhs : map_Forall (fun k _ => 1 <= k < hs_next (sv_handles s)) (hs_by_fh (sv_handles s));
  to_next : 2 <= ta_next_id (sv_inodes s) /\ 1 <= hs_next (sv_handles s) /\ ta_next_id (sv_inodes s) + hs_next (sv_handles s) <= 3 + n;
  to_inodes : (size (ta_by_id (sv_inodes s)) <= MAX_INODES)%nat;
  to_handles : (size (hs_by_fh (sv_handles s)) <= hs_max (sv_handles s))%nat;
}.

(** Fewer calls than any 64-bit counter can count. *)
Definition short (tr : list Event) : Prop := Z.of_nat (length tr) < 2 ^ 63.

Definition wp {S A} (c : FS S A) (Q : result Z A -> S -> list Event -> Prop) (s : S) (tr : list Event) : Prop :=
  let '(r, s, tr) := c s tr in Q r s tr.

Section Rules.
Context (host : Host) (host_uid host_gid : Z) (Hfresh : FreshFds host).
Context (ro : bool) (root : list Z) (maxh : nat).

Record inv (X : list (Z * bool)) (s : Server) (tr : list Event) : Prop := {
  inv_audit : exists m, audit ro root tr = Some m /\ mo_live m = live X s;
  inv_nodup : NoDup (X.*1 ++ owned s);
  inv_root : ta_root (sv_inodes s) = root;
  inv_ro : sv_read_only s = ro;
  inv_maxh : hs_max (sv_handles s) = maxh;
  inv_tables : tables_ok (Z.of_nat (length tr) - Z.of_nat (length X)) s;
}.

Definition Inv X s tr : Prop := short tr -> inv X s tr.

Lemma vetted_fst (l : list Z) : ((., true) <$> l).*1 = l.
Proof. induction l as [|x l IH]; [done|]. csimpl. by f_equal. Qed.

Lemma live_dom X s fd : fd ∈ dom (live X s) <-> fd ∈ X.*1 ++ owned s.
Proof.
  unfold live. rewrite dom_list_to_map_L, elem_of_list_to_set, fmap_app.
  by rewrite vetted_fst.
Qed.

Lemma live_nodup X s : NoDup (X.*1 ++ owned s) <-> NoDup (X ++ ((., true) <$> owned s)).*1.
Proof. by rewrite fmap_app, vetted_fst. Qed.

Lemma live_owned X s fd : NoDup (X.*1 ++ owned s) -> fd ∈ owned s -> live X s !! fd = Some true.
Proof.
  intros Hn Hin. apply elem_of_list_to_map; [by apply live_nodup|]. apply elem_of_app; right. apply list_elem_of_fmap. eauto.
Qed.

Lemma owned_inode s k i : ta_by_id (sv_inodes s) !! k = Some i -> in_fd i ∈ owned s.
Proof. intros H. apply elem_of_app; left. apply list_elem_of_fmap. exists (k, i). split; [done|]. by apply elem_of_map_to_list. Qed.

Lemma owned_handle s k h : hs_by_fh (sv_handles s) !! k = Some h -> ha_fd h ∈ owned s.
Proof. intros H. apply elem_of_app; right. apply list_elem_of_fmap. exists (k, h). split; [done|]. by apply elem_of_map_to_list. Qed.

Lemma tables_ok_mono n n' s : n <= n' -> tables_ok n s -> tables_ok n' s.
Proof. intros ? [? ? ? (? & ? & ?)]. split; auto; split_and!; lia. Qed.

Lemma short_snoc tr e : short (tr ++ [e]) -> short tr.
Proof. unfold short. rewrite length_app. simpl. lia. Qed.

(** One call that the monitor accepts. *)
Lemma Inv_step X X' s tr e :
  Inv X s tr -> (length X' <= S (length X))%nat ->
  (forall m, inv X s tr -> audit ro root tr = Some m -> mo_live m = live X s -> exists m', mstep ro root m e = Some m' /\ mo_live m' = live X' s /\ NoDup (X'.*1 ++ owned s)) ->
  Inv X' s (tr ++ [e]).
Proof.
  intros HI Hx Hm Hs%short_snoc. specialize (HI Hs). destruct (inv_audit _ _ _ HI) as (m & Ha & Hl).
  destruct (Hm m HI Ha Hl) as (m' & Hst & Hl' & Hn). split.
  - exists m'. rewrite audit_snoc, Ha. done.
  - done.
  - apply HI.
  - apply HI.
  - apply HI.
  - eapply tables_ok_mono; [|apply HI]. rewrite length_app. simpl. lia.
Qed.

(** A new descriptor is held by the request. *)
Lemma live_opened X s b fd : fd ∉ dom (live X s) -> NoDup (X.*1 ++ owned s) ->
  <[fd := b]> (live X s) = live ((fd, b) :: X) s /\ NoDup (((fd, b) :: X).*1 ++ owned s).
Proof. intros Hd Hn. split; [done|]. csimpl. constructor; [by rewrite <-live_dom|done]. Qed.

Lemma live_closed X s b fd : NoDup (((fd, b) :: X).*1 ++ owned s) ->
  delete fd (live ((fd, b) :: X) s) = live X s /\ NoDup (X.*1 ++ owned s).
Proof.
  intros Hn. csimpl in Hn. apply list.NoDup_cons in Hn as [Hd Hn]. split; [|done].
  unfold live at 1. simpl. apply delete_insert_id. apply not_elem_of_dom. by rewrite live_dom.
Qed.

(** *** Calls *)

Lemma wp_bind {S A B} (c : FS S A) (k : A -> FS S B) Q s tr :
  wp c (fun r s tr => match r with Ok a => wp (k a) Q s tr | Err e => Q (Err e) s tr end) s tr -> wp (c ≫= k) Q s tr.
Proof. unfold wp, mbind, FS_bind. destruct (c s tr) as [[[a|e] s'] tr']; done. Qed.

Lemma wp_try {S A} (c : FS S A) Q s tr : wp c (fun r s tr => Q (Ok r) s tr) s tr -> wp (try c) Q s tr.
Proof. unfold wp, try. destruct (c s tr) as [[r s'] tr']; done. Qed.

Lemma wp_mono {S A} (c : FS S A) (P Q : result Z A -> S -> list Event -> Prop) s tr :
  wp c P s tr -> (forall r s tr, P r s tr -> Q r s tr) -> wp c Q s tr.
Proof. unfold wp. destruct (c s tr) as [[r s'] tr']; auto. Qed.

Lemma wp_keep {A} (c : Sys A) X (Q : result Z A -> Server -> list Event -> Prop) s tr :
  Inv X s tr ->
  (forall m r, inv X s tr -> mo_live m = live X s -> mstep ro root m (Ev c r) = Some m) ->
  (forall r tr, Inv X s tr -> Q r s tr) -> wp (call host c) Q s tr.
Proof.
  intros HI Hm HQ. apply HQ. eapply Inv_step; [done|simpl; lia|]. intros m Hi Ha Hl. exists m. split_and!; [by apply Hm|done|apply Hi].
Qed.

Lemma fresh_live X s tr m fd : audit ro root tr = Some m -> mo_live m = live X s -> fd ∉ open_fds tr -> fd ∉ dom (live X s).
Proof. intros Ha <-. by rewrite (audit_dom _ _ _ _ Ha). Qed.

(** The descriptors held after an attempt to open one. *)
Definition held (b : bool) (r : result Z Z) (X : list (Z * bool)) : list (Z * bool) := match r with Ok fd => (fd, b) :: X | Err _ => X end.

Lemma Inv_opened X s tr b (c : Sys Z) r :
  Inv X s tr -> (forall fd, r = Ok fd -> fd ∉ open_fds tr) ->
  (forall m, inv X s tr -> mo_live m = live X s -> mstep ro root m (Ev c r) = Some (opened b r m)) ->
  Inv (held b r X) s (tr ++ [Ev c r]).
Proof.
  intros HI Hf Hm. eapply Inv_step; [done|destruct r; simpl; lia|]. intros m Hi Ha Hl. eexists. split; [by apply Hm|].
  destruct r as [fd|e]; simpl; [|split; [done|apply Hi]]. rewrite Hl.
  apply live_opened; [|apply Hi]. eapply fresh_live; eauto.
Qed.

Lemma wp_close X b (Q : result Z unit -> Server -> list Event -> Prop) s tr fd :
  Inv ((fd, b) :: X) s tr -> (forall tr, Inv X s tr -> Q (Ok tt) s tr) -> wp (close host fd) Q s tr.
Proof.
  intros HI HQ. apply HQ. eapply Inv_step; [done|simpl; lia|]. intros m Hi Ha Hl. simpl. rewrite bool_decide_eq_true_2.
  - eexists. split; [done|]. simpl. rewrite Hl. apply live_closed, Hi.
  - rewrite Hl. unfold live. simpl. rewrite lookup_insert_eq. eauto.
Qed.

Lemma wp_owning {A} X (c : FS Server A) (Q : result Z A -> Server -> list Event -> Prop) s tr fd :
  wp c (fun r s tr => match r with
                      | Ok a => Q (Ok a) s tr
                      | Err e => exists b, Inv ((fd, b) :: X) s tr /\ forall tr, Inv X s tr -> Q (Err e) s tr
                      end) s tr -> wp (owning host fd c) Q s tr.
Proof.
  intros H. unfold owning. apply wp_bind, wp_try. eapply wp_mono; [exact H|].
  intros [a|e] s' tr'; [done|]. intros (b & HI & HQ). apply wp_bind. eapply wp_close; eauto.
Qed.

Lemma wp_c_name {S} (Q : result Z (list Z) -> S -> list Event -> Prop) name s tr :
  (0 ∉ name -> Q (Ok name) s tr) -> Q (Err EINVAL) s tr -> wp (c_name name) Q s tr.
Proof. intros H1 H2. unfold c_name. case_bool_decide; [exact H2|by apply H1]. Qed.

Definition flags_ok (flags : Z) : bool := nofollow flags && negb (ro && writes flags).

Lemma accept_openat X s tr m dir name flags mode r :
  inv X s tr -> mo_live m = live X s -> dir ∈ owned s -> component name = true -> flags_ok flags = true ->
  mstep ro root m (Ev (Openat dir name flags mode) r) = Some (opened false r m).
Proof.
  intros Hi Hl Hd Hc Hf. unfold flags_ok in Hf. simpl. rewrite Hl, Hc, bool_decide_eq_true_2 by (apply live_owned; [apply Hi|done]).
  destruct (nofollow flags); [|done]. simpl in *. by rewrite Hf.
Qed.

Lemma wp_openat_at X (Q : result Z Z -> Server -> list Event -> Prop) s tr dir name flags mode :
  let flags1 := Z.lor (Z.lor flags O_CLOEXEC) O_NOFOLLOW in
  Inv X s tr -> dir ∈ owned s -> component name = true ->
  (sv_read_only s = ro -> flags_ok flags1 = true /\ flags_ok (Z.lor (Z.lor (Z.land flags1 (Z.lnot O_NOFOLLOW)) O_SYMLINK) O_CLOEXEC) = true) ->
  (forall r tr, Inv (held false r X) s tr -> Q r s tr) ->
  wp (openat_at host dir name flags mode) Q s tr.
Proof.
  intros flags1 HI Hd Hc Hf HQ. unfold openat_at. fold flags1. apply wp_bind, wp_c_name; [intros _|by apply HQ].
  apply wp_bind, wp_try. unfold wp at 1, call at 1.
  assert (H1 : Inv (held false (host tr Z (Openat dir name flags1 mode)) X) s (tr ++ [Ev (Openat dir name flags1 mode) (host tr Z (Openat dir name flags1 mode))])).
  { apply Inv_opened; [done|intros fd; apply Hfresh|]. intros m Hi Hl. eapply accept_openat; [done..|apply Hf, Hi]. }
  destruct (host tr Z _) as [fd|e]; [by apply HQ|]. case_match; [|by apply HQ].
  unfold wp, call. apply HQ. apply Inv_opened; [done|intros fd; apply Hfresh|]. intros m Hi Hl. eapply accept_openat; [done..|apply Hf, Hi].
Qed.

Lemma wp_dup X (Q : result Z Z -> Server -> list Event -> Prop) s tr fd :
  Inv X s tr -> fd ∈ owned s -> (forall r tr, Inv (held true r X) s tr -> Q r s tr) -> wp (dup_fd host fd) Q s tr.
Proof.
  intros HI Hd HQ. unfold wp, dup_fd, call. apply HQ. apply Inv_opened; [done|intros fd'; apply Hfresh|].
  intros m Hi Hl. simpl. rewrite Hl, bool_decide_eq_true_2; [done|]. apply live_owned; [apply Hi|done].
Qed.

Lemma insert_owned X s (fd : Z) : NoDup (X.*1 ++ owned s) -> fd ∈ owned s -> <[fd := true]> (live X s) = live X s.
Proof. intros. apply insert_id. by apply live_owned. Qed.

(** The path of a descriptor of the tables, and the monitor's record of it. *)
Lemma Inv_getpath_owned X s tr fd r : Inv X s tr -> fd ∈ owned s -> Inv X s (tr ++ [Ev (Getpath fd) r]).
Proof.
  intros HI Hd. eapply Inv_step; [done|simpl; lia|]. intros m Hi Ha Hl. simpl. pose proof (inv_nodup _ _ _ Hi) as Hn. pose proof (live_owned X s fd Hn Hd) as Hv.
  rewrite Hl, Hv, bool_decide_eq_true_2 by eauto. destruct r as [buf|e].
  - rewrite bool_decide_eq_true_2 by done. simpl. eexists. split; [done|]. simpl. by rewrite insert_owned.
  - eauto.
Qed.

Lemma wp_fd_path_owned X (Q : result Z (list Z) -> Server -> list Event -> Prop) s tr fd :
  Inv X s tr -> fd ∈ owned s -> (forall r tr, Inv X s tr -> Q r s tr) -> wp (fd_path host fd) Q s tr.
Proof.
  intros HI Hd HQ. unfold fd_path. apply wp_bind. unfold wp at 1, call at 1. pose proof (Inv_getpath_owned X s tr fd (host tr _ (Getpath fd)) HI Hd) as H'.
  destruct (host tr _ _) as [buf|e]; [|by apply HQ]. destruct (utf8_valid _); by apply HQ.
Qed.

(** The path of a descriptor the request holds: under the root, it is vetted. *)
Lemma wp_fd_path_held X b (Q : result Z (list Z) -> Server -> list Event -> Prop) s tr fd :
  Inv ((fd, b) :: X) s tr ->
  (forall text tr, Inv ((fd, b || under_root text root) :: X) s tr -> Q (Ok text) s tr) ->
  (forall e b tr, Inv ((fd, b) :: X) s tr -> Q (Err e) s tr) -> wp (fd_path host fd) Q s tr.
Proof.
  intros HI HQ HE. unfold fd_path. apply wp_bind. unfold wp at 1, call at 1.
  assert (H' : forall r, Inv ((fd, match r with Ok buf => b || under_root (until_zero buf) root | Err _ => b end) :: X) s (tr ++ [Ev (Getpath fd) r])).
  { intros r. eapply Inv_step; [done|simpl; lia|]. intros m Hi Ha Hl. pose proof (inv_nodup _ _ _ Hi) as Hn.
    assert (Hv : mo_live m !! fd = Some b) by (rewrite Hl; unfold live; simpl; by rewrite lookup_insert_eq).
    simpl. rewrite Hv, bool_decide_eq_true_2 by eauto. destruct r as [buf|e]; [|eauto].
    replace (bool_decide (Some b = Some true)) with b by (destruct b; [by rewrite bool_decide_eq_true_2|by rewrite bool_decide_eq_false_2]).
    destruct (b || under_root (until_zero buf) root) eqn:Hu.
    - eexists. split; [done|]. simpl. rewrite Hl. unfold live. simpl. split; [by rewrite insert_insert_eq|done].
    - apply orb_false_iff in Hu as [-> _]. eauto. }
  destruct (host tr _ _) as [buf|e]; [|eapply HE, H'; exact (Err e)]. destruct (utf8_valid _); [apply HQ, (H' (Ok buf))|eapply HE, (H' (Ok buf))].
Qed.

(** *** Table updates: a descriptor moves between the request and a table *)

Lemma Inv_move X X' s s' tr :
  Inv X s tr -> X ++ ((., true) <$> owned s) ≡ₚ X' ++ ((., true) <$> owned s') ->
  ta_root (sv_inodes s') = ta_root (sv_inodes s) -> sv_read_only s' = sv_read_only s -> hs_max (sv_handles s') = hs_max (sv_handles s) ->
  (short tr -> tables_ok (Z.of_nat (length tr) - Z.of_nat (length X)) s -> tables_ok (Z.of_nat (length tr) - Z.of_nat (length X')) s') -> Inv X' s' tr.
Proof.
  intros HI Hp H1 H2 H3 Ht Hs. destruct (HI Hs) as [(m & Ha & Hl) Hn ? ? ? Hto].
  apply live_nodup in Hn. split; [|apply live_nodup; by rewrite <-Hp|congruence..|by apply Ht].
  exists m. split; [done|]. rewrite Hl. unfold live. by apply list_to_map_proper.
Qed.

Definition with_inodes (next_id next_gen : Z) (m : gmap Z Inode) (s : Server) : Server :=
  set_inodes {| ta_root := ta_root (sv_inodes s); ta_next_id := next_id; ta_next_gen := next_gen; ta_by_id := m |} s.
Definition with_handles (next : Z) (m : gmap Z Handle) (s : Server) : Server :=
  set_handles {| hs_next := next; hs_max := hs_max (sv_handles s); hs_by_fh := m |} s.

Lemma map_fds_insert {A} (f : A -> Z) (m : gmap Z A) k x : m !! k = None -> (f ∘ snd <$> map_to_list (<[k := x]> m)) ≡ₚ f x :: (f ∘ snd <$> map_to_list m).
Proof. intros H. by rewrite map_to_list_insert by done. Qed.

Lemma map_fds_delete {A} (f : A -> Z) (m : gmap Z A) k x : m !! k = Some x -> (f ∘ snd <$> map_to_list m) ≡ₚ f x :: (f ∘ snd <$> map_to_list (delete k m)).
Proof. intros H. by rewrite <-(map_to_list_delete m k x H). Qed.

Lemma Inv_inode_insert X s tr i gen :
  let k := ta_next_id (sv_inodes s) in
  Inv ((in_fd i, true) :: X) s tr -> in_nodeid i = k -> (size (ta_by_id (sv_inodes s)) < MAX_INODES)%nat ->
  Inv X (with_inodes (add_w 64 k 1) gen (<[k := i]> (ta_by_id (sv_inodes s))) s) tr.
Proof.
  intros k HI Hi Hsz Hs. destruct (inv_tables _ _ _ (HI Hs)) as [(ri & Hr) Hids Hfhs (Hn1 & Hn2 & Hn3) Hz1 Hz2].
  assert (Hk : ta_by_id (sv_inodes s) !! k = None).
  { destruct (_ !! k) as [j|] eqn:E; [|done]. apply Hids in E. lia. }
  assert (Hw : add_w 64 k 1 = k + 1) by (unfold short in Hs; simpl in Hn3; apply wrap_small; unfold fits; lia).
  revert Hs. apply (Inv_move ((in_fd i, true) :: X) X s); [done| |done..|].
  - unfold owned. simpl. rewrite (map_fds_insert in_fd _ k i Hk). simpl. by rewrite Permutation_middle.
  - intros _ _. split; simpl; rewrite ?Hw.
    + rewrite lookup_insert_ne by (unfold ROOT_ID, k; lia). eauto.
    + apply map_Forall_insert_2; [split; [lia|done]|]. eapply map_Forall_impl; [exact Hids|]. simpl. lia.
    + done.
    + simpl in Hn3. lia.
    + rewrite map_size_insert_None by done. lia.
    + done.
Qed.

Lemma Inv_drop X s s' tr fd r :
  Inv X s tr -> owned s ≡ₚ fd :: owned s' ->
  ta_root (sv_inodes s') = ta_root (sv_inodes s) -> sv_read_only s' = sv_read_only s -> hs_max (sv_handles s') = hs_max (sv_handles s) ->
  (forall n, tables_ok n s -> tables_ok n s') -> Inv X s' (tr ++ [Ev (Close fd) r]).
Proof.
  intros HI Hp H1 H2 H3 Ht Hs%short_snoc. destruct (HI Hs) as [(m & Ha & Hl) Hn ? ? ? Hto].
  assert (Hl' : live X s = live ((fd, true) :: X) s').
  { apply live_nodup in Hn. unfold live. apply list_to_map_proper; [done|]. rewrite Hp. simpl. by rewrite <-Permutation_middle. }
  assert (Hn' : NoDup (((fd, true) :: X).*1 ++ owned s')) by (csimpl; rewrite Hp, <-Permutation_middle in Hn; done).
  split; [|eapply live_closed, Hn'|congruence..|].
  - rewrite audit_snoc, Ha. simpl. rewrite bool_decide_eq_true_2.
    + eexists. split; [done|]. simpl. rewrite Hl, Hl'. by apply live_closed.
    + rewrite Hl, Hl'. unfold live. simpl. rewrite lookup_insert_eq. eauto.
  - apply Ht. eapply tables_ok_mono; [|done]. rewrite length_app. lia.
Qed.

Lemma Inv_inode_drop X s tr k i r :
  k <> ROOT_ID -> ta_by_id (sv_inodes s) !! k = Some i -> Inv X s tr ->
  Inv X (with_inodes (ta_next_id (sv_inodes s)) (ta_next_gen (sv_inodes s)) (delete k (ta_by_id (sv_inodes s))) s) (tr ++ [Ev (Close (in_fd i)) r]).
Proof.
  intros Hk Hi HI. eapply Inv_drop; [done| |done..|].
  - unfold owned. simpl. by rewrite (map_fds_delete in_fd _ k i Hi).
  - intros n [(ri & Hr) Hids Hfhs Hnx Hz1 Hz2]. split; simpl; auto.
    + rewrite lookup_delete_ne by done. eauto.
    + by apply map_Forall_delete.
    + rewrite map_size_delete_Some by eauto. lia.
Qed.

Lemma Inv_inode_update X s tr k i i' :
  ta_by_id (sv_inodes s) !! k = Some i -> in_fd i' = in_fd i -> in_nodeid i' = in_nodeid i -> Inv X s tr ->
  Inv X (with_inodes (ta_next_id (sv_inodes s)) (ta_next_gen (sv_inodes s)) (<[k := i']> (ta_by_id (sv_inodes s))) s) tr.
Proof.
  intros Hi Hf Hid HI. eapply Inv_move; [done| |done..|].
  - unfold owned. simpl. rewrite (map_fds_delete in_fd _ k i Hi), <-insert_delete_eq.
    rewrite (map_fds_insert in_fd _ k i') by apply lookup_delete_eq. by rewrite Hf.
  - intros _ [(ri & Hr) Hids Hfhs Hnx Hz1 Hz2]. split; simpl; auto.
    + destruct (decide (k = ROOT_ID)) as [->|]; [rewrite lookup_insert_eq; eauto|rewrite lookup_insert_ne; eauto].
    + apply map_Forall_insert_2; [|done]. rewrite Hid. by apply Hids.
    + by rewrite map_size_insert_Some by eauto.
Qed.

Lemma Inv_handle_insert X s tr h :
  let k := hs_next (sv_handles s) in
  Inv ((ha_fd h, true) :: X) s tr -> (size (hs_by_fh (sv_handles s)) < hs_max (sv_handles s))%nat ->
  Inv X (with_handles (saturating_add 64 k 1) (<[k := h]> (hs_by_fh (sv_handles s))) s) tr.
Proof.
  intros k HI Hsz Hs. destruct (inv_tables _ _ _ (HI Hs)) as [(ri & Hr) Hids Hfhs (Hn1 & Hn2 & Hn3) Hz1 Hz2].
  assert (Hk : hs_by_fh (sv_handles s) !! k = None).
  { destruct (_ !! k) as [j|] eqn:E; [|done]. apply Hfhs in E. lia. }
  assert (Hw : saturating_add 64 k 1 = k + 1) by (unfold short in Hs; simpl in Hn3; unfold saturating_add; lia).
  revert Hs. apply (Inv_move ((ha_fd h, true) :: X) X s); [done| |done..|].
  - unfold owned. simpl. rewrite (map_fds_insert ha_fd _ k h Hk), !fmap_app. simpl.
    rewrite <-(Permutation_middle (_ <$> _) _ (ha_fd h, true)). by rewrite Permutation_middle.
  - intros _ _. split; simpl; rewrite ?Hw; eauto.
    + apply map_Forall_insert_2; [lia|]. eapply map_Forall_impl; [exact Hfhs|]. simpl. lia.
    + simpl in Hn3. lia.
    + rewrite map_size_insert_None by done. lia.
Qed.

Lemma Inv_handle_drop X s tr k h r :
  hs_by_fh (sv_handles s) !! k = Some h -> Inv X s tr ->
  Inv X (with_handles (hs_next (sv_handles s)) (delete k (hs_by_fh (sv_handles s))) s) (tr ++ [Ev (Close (ha_fd h)) r]).
Proof.
  intros Hi HI. eapply Inv_drop; [done| |done..|].
  - unfold owned. simpl. rewrite (map_fds_delete ha_fd _ k h Hi). by rewrite Permutation_middle.
  - intros n [Hr Hids Hfhs Hnx Hz1 Hz2]. split; simpl; auto.
    + by apply map_Forall_delete.
    + rewrite map_size_delete_Some by eauto. lia.
Qed.

(** *** Operations of the tables *)

Definition Keep {A} (X : list (Z * bool)) (c : FS Server A) : Prop := forall s tr, Inv X s tr -> wp c (fun _ s tr => Inv X s tr) s tr.

Lemma wp_inode_insert X (Q : result Z (Z * Z) -> Server -> list Event -> Prop) s tr fd b mode :
  Inv ((fd, b) :: X) s tr -> b = false -> (forall r s tr, Inv X s tr -> Q r s tr) -> wp (inode_insert host fd mode) Q s tr.
Proof.
  intros HI -> HQ. unfold inode_insert. apply (wp_owning X), wp_bind. eapply wp_fd_path_held; [exact HI| |eauto].
  intros text tr' HI'. cbv beta iota. apply wp_bind. unfold wp at 1, get_state. 
  assert (HE : forall (e : Z), exists b, Inv ((fd, b) :: X) s tr' /\ (forall tr, Inv X s tr -> Q (Err e) s tr)) by eauto.
  destruct (negb _) eqn:Hu; [apply HE|]. case_bool_decide as Hsz; [apply HE|].
  apply wp_bind. unfold wp at 1, put_state. unfold wp, mret, FS_ret. apply HQ.
  apply (Inv_inode_insert X s tr' {| in_nodeid := _; in_fd := fd |}); simpl; [|done|lia].
  intros Hs. specialize (HI' Hs). apply negb_false_iff in Hu. rewrite (inv_root _ _ _ HI') in Hu. by rewrite Hu in HI'.
Qed.

Lemma wp_handle_insert X (Q : result Z Z -> Server -> list Event -> Prop) s tr nodeid fd dir :
  Inv ((fd, true) :: X) s tr -> (forall r s tr, Inv X s tr -> Q r s tr) -> wp (handle_insert host nodeid fd dir) Q s tr.
Proof.
  intros HI HQ. unfold handle_insert. apply (wp_owning X), wp_bind. unfold wp at 1, get_state. cbv zeta.
  case_bool_decide as Hsz; [exists true; auto|]. apply wp_bind. unfold wp at 1, put_state. apply HQ.
  apply (Inv_handle_insert X s tr {| ha_fd := fd |}); simpl; [done|lia].
Qed.

Lemma inode_forget_keep X nodeid n : Keep X (inode_forget host nodeid n).
Proof.
  intros s tr HI. unfold inode_forget. destruct (nodeid =? ROOT_ID) eqn:Hk; [done|]. apply Z.eqb_neq in Hk. apply wp_bind. unfold wp at 1, get_state. cbv zeta.
  destruct (_ !! nodeid) as [i|] eqn:Hi; [|done]. case_match.
  - apply wp_bind. unfold wp at 1, put_state. by apply (Inv_inode_drop X s tr nodeid i).
  - by eapply (Inv_inode_update X s tr nodeid i).
Qed.

Lemma handle_release_keep X fh : Keep X (handle_release host fh).
Proof.
  intros s tr HI. unfold handle_release. apply wp_bind. unfold wp at 1, get_state. cbv zeta.
  destruct (_ !! fh) as [h|] eqn:Hh; [|done]. apply wp_bind. unfold wp at 1, put_state. by apply (Inv_handle_drop X s tr fh h).
Qed.

(** *** Calls on the descriptors of the tables *)

Lemma vetted_true X s tr m fd : inv X s tr -> mo_live m = live X s -> fd ∈ owned s -> bool_decide (mo_live m !! fd = Some true) = true.
Proof. intros Hi -> Hd. apply bool_decide_eq_true_2, live_owned; [apply Hi|done]. Qed.

Lemma open_true X s tr m fd : inv X s tr -> mo_live m = live X s -> fd ∈ X.*1 ++ owned s -> bool_decide (is_Some (mo_live m !! fd)) = true.
Proof. intros Hi -> Hd. by apply bool_decide_eq_true_2, elem_of_dom, live_dom. Qed.

Lemma writable X s tr : inv X s tr -> sv_read_only s = false -> ro = false.
Proof. intros Hi <-. symmetry. apply Hi. Qed.

Create HintDb fs.
#[local] Hint Resolve owned_inode owned_handle : fs.

Ltac accept Hi Hl :=
  cbn [mstep]; rewrite ?(vetted_true _ _ _ _ _ Hi Hl) by eauto with fs;
  repeat match goal with H : component _ = true |- _ => rewrite H end;
  try rewrite (writable _ _ _ Hi) by done; simpl; rewrite ?bool_decide_eq_true_2 by (rewrite ?length_take; lia); try done.

Section Steps.
Context {S A : Type} (Q : result Z A -> S -> list Event -> Prop) (s : S) (tr : list Event).
Lemma wp_ret (a : A) : Q (Ok a) s tr -> wp (mret a) Q s tr.
Proof. done. Qed.
Lemma wp_fail e : Q (Err e) s tr -> wp (fail e) Q s tr.
Proof. done. Qed.
Lemma wp_lift r : Q r s tr -> wp (lift r) Q s tr.
Proof. done. Qed.
Lemma wp_of_option o e : (forall a, o = Some a -> Q (Ok a) s tr) -> Q (Err e) s tr -> wp (of_option o e) Q s tr.
Proof. intros H1 H2. destruct o; [by apply H1|done]. Qed.
End Steps.

Lemma wp_get_state {S} (Q : result Z S -> S -> list Event -> Prop) s tr : Q (Ok s) s tr -> wp get_state Q s tr.
Proof. done. Qed.
Lemma wp_inode_get Q s tr k : Q (Ok (ta_by_id (sv_inodes s) !! k)) s tr -> wp (inode_get k) Q s tr.
Proof. done. Qed.
Lemma wp_handle_get Q s tr k : Q (Ok (hs_by_fh (sv_handles s) !! k)) s tr -> wp (handle_get k) Q s tr.
Proof. done. Qed.
Lemma wp_need Q s tr n body : Q (Ok tt) s tr -> Q (Err EINVAL) s tr -> wp (need n body) Q s tr.
Proof. unfold need. by case_bool_decide. Qed.
Lemma wp_want_write Q s tr : (sv_read_only s = false -> Q (Ok tt) s tr) -> Q (Err EROFS) s tr -> wp want_write Q s tr.
Proof. intros H1 H2. apply wp_bind, wp_get_state. destruct (sv_read_only s); [done|by apply H1]. Qed.

(** Execute one step of a handler; a call on a descriptor of the tables is accepted. *)
Ltac fs_step :=
  lazymatch goal with
  | |- wp (mbind _ _) _ _ _ => apply wp_bind
  | |- wp (mret _) _ _ _ => apply wp_ret
  | |- wp (fail _) _ _ _ => apply wp_fail
  | |- wp (lift _) _ _ _ => apply wp_lift
  | |- wp (try _) _ _ _ => apply wp_try
  | |- wp get_state _ _ _ => apply wp_get_state
  | |- wp (inode_get _) _ _ _ => apply wp_inode_get
  | |- wp (handle_get _) _ _ _ => apply wp_handle_get
  | |- wp (of_option _ _) _ _ _ => apply wp_of_option; [intros ?a ?Ha|]
  | |- wp (need _ _) _ _ _ => apply wp_need
  | |- wp want_write _ _ _ => apply wp_want_write; [intros ?Hw|]
  | |- wp (c_name _) _ _ _ => apply wp_c_name; [intros ?H0|]
  | |- wp (if ?b then _ else _) _ _ _ => destruct b eqn:?
  | |- wp (match ?r with Ok _ => _ | Err _ => _ end) _ _ _ => destruct r
  | |- wp (call _ _) _ _ _ => eapply wp_keep; [eassumption|intros ?m ?r ?Hi ?Hl; accept Hi Hl|intros [?a|?e] ?tr' ?HI']
  end; cbv beta iota zeta; try eassumption.
Ltac fs := repeat fs_step; try eassumption.

(** *** Names *)

Lemma component_check name : component name = true <-> check name = Ok tt.
Proof. unfold component. destruct (check name) as [[]|]; naive_solver. Qed.

Lemma check_Ok name : check name = Ok tt <->
  (name <> [] /\ (length name <= MAX_NAME)%nat /\ name <> [DOT] /\ name <> [DOT; DOT] /\ SLASH ∉ name /\ 0 ∉ name).
Proof.
  unfold check. destruct (bool_decide (name = []) || _) eqn:E1.
  - apply orb_true_iff in E1 as [E%bool_decide_eq_true|E%bool_decide_eq_true]; split; try done; [intuition|]. lia.
  - apply orb_false_iff in E1 as [E1%bool_decide_eq_false E2%bool_decide_eq_false].
    destruct (_ || _) eqn:E3.
    + rewrite !orb_true_iff, !bool_decide_eq_true in E3. split; [done|]. intuition.
    + rewrite !orb_false_iff, !bool_decide_eq_false in E3. split; [|done]. intros _. intuition lia.
Qed.

Lemma check_windows_Ok name : check_windows name = Ok tt -> check name = Ok tt.
Proof. unfold check_windows. destruct (check name) as [[]|]; done. Qed.

Lemma upper_inv b c : c < 65 -> upper b = upper c -> b = c.
Proof. unfold upper, in_range. repeat case_match; lia. Qed.

Lemma upper_elem c (a b : list Z) : c < 65 -> (upper <$> a) = (upper <$> b) -> c ∈ a -> c ∈ b.
Proof.
  intros Hc He Hin. assert (H : upper c ∈ upper <$> b) by (rewrite <-He; by apply list_elem_of_fmap_2).
  apply list_elem_of_fmap in H as (x & Hx & Hin'). by rewrite <-(upper_inv x c).
Qed.

(** A host name equal up to case to a component is one. *)
Lemma check_fold h name : eq_ignore_ascii_case h name = true -> h <> [DOT] -> h <> [DOT; DOT] -> check name = Ok tt -> check h = Ok tt.
Proof.
  unfold eq_ignore_ascii_case. rewrite bool_decide_eq_true, !check_Ok. intros He H1 H2 (Hn & Hl & _ & _ & Hs & H0).
  pose proof (f_equal length He) as Hlen. rewrite !length_fmap in Hlen. split_and!; try done.
  - intros ->. by destruct name.
  - lia.
  - intros Hin. apply Hs. by eapply upper_elem.
  - intros Hin. apply H0. by eapply upper_elem.
Qed.

Lemma wp_readdir_names X Q s tr dir :
  Inv X s tr -> dir ∈ owned s -> (forall r tr, Inv X s tr -> Q r s tr) -> wp (readdir_names host dir) Q s tr.
Proof. intros HI Hd HQ. unfold readdir_names. fs; auto. Qed.

Lemma wp_prepare X Q s tr dir name windows creating :
  Inv X s tr -> dir ∈ owned s -> (forall r tr, Inv X s tr -> (forall n, r = Ok n -> component n = true) -> Q r s tr) ->
  wp (prepare host dir name windows creating) Q s tr.
Proof.
  intros HI Hd HQ. unfold prepare, reject_case_create, fold_lookup. destruct windows.
  - fs_step. fs_step. destruct (check_windows name) as [[]|] eqn:Hc; [|by apply HQ].
    apply check_windows_Ok in Hc. destruct creating; fs_step; [fs_step|]; (eapply wp_readdir_names; [done..|intros [names|e] tr' HI']; [|by apply HQ]); cbv zeta.
    + case_match; apply HQ; [done..|]. intros n [= <-]. by apply component_check.
    + destruct (existsb _ _); [apply HQ; [done|intros n [= <-]; by apply component_check]|].
      destruct (remove_dups _) as [|h [|]] eqn:Hd'; [apply HQ; [done|intros n [= <-]; by apply component_check]| |by apply HQ].
      apply HQ; [done|]. intros n [= <-]. apply component_check.
      assert (Hin : h ∈ remove_dups (List.filter (fun n => eq_ignore_ascii_case n name && negb (bool_decide (n = [DOT]) || bool_decide (n = [DOT; DOT]))) (fst <$> names)))
        by (rewrite Hd'; set_solver).
      apply elem_of_remove_dups, list_elem_of_In, filter_In in Hin as [_ Hin].
      apply andb_true_iff in Hin as [He Hin]. rewrite negb_true_iff, orb_false_iff, !bool_decide_eq_false in Hin. destruct Hin. by eapply check_fold.
  - fs_step. fs_step. destruct (check name) as [[]|] eqn:Hc; apply HQ; [done| |done..]. intros n [= <-]. by apply component_check.
Qed.

Lemma wp_child_name X Q s tr pid name creating :
  Inv X s tr -> (forall r tr, Inv X s tr -> (forall n, r = Ok n -> component n = true) -> Q r s tr) ->
  wp (child_name host pid name creating) Q s tr.
Proof.
  intros HI HQ. unfold child_name. do 4 fs_step; [|by apply HQ]. do 3 fs_step. assert (Hd : in_fd a ∈ owned s) by eauto with fs.
  assert (HP : forall tr, Inv X s tr -> wp (prepare host (in_fd a) name (sv_windows_names s) creating) Q s tr) by (intros; by eapply wp_prepare).
  destruct (sv_windows_names s); [|fs_step; by apply HP]. do 2 fs_step. eapply wp_fd_path_owned; [done..|intros [path|e] tr' HI'].
  - fs_step. destruct (check_windows_path _ _ _); [by apply HP|by apply HQ].
  - fs_step. by apply HP.
Qed.

(** ** The handlers *)

Lemma attr_of_keep Q X s tr i : Inv X s tr -> in_fd i ∈ owned s -> (forall r tr, Inv X s tr -> Q r s tr) -> wp (attr_of host host_uid host_gid i) Q s tr.
Proof.
  intros HI Hd HQ. unfold attr_of, fstat. fs_step. eapply wp_keep; [done| |].
  - intros m r Hi Hl. simpl. by rewrite (open_true _ _ _ _ _ Hi Hl) by (apply elem_of_app; auto).
  - intros [st|e] tr' HI'; [fs_step|]; auto.
Qed.

Lemma lookup_keep hdr body : Keep [] (lookup host host_uid host_gid hdr body).
Proof.
  intros s tr HI. unfold lookup. fs. eapply wp_child_name; [done|intros [name|e] tr' HI' Hn; [|done]]. fs. 
  eapply wp_openat_at; [done|by eauto with fs|by apply Hn| |].
  { intros _. unfold flags_ok. by destruct ro. }
  intros [child|e] tr1 HI1; [|done]. cbn [held] in HI1. fs_step. eapply wp_owning. unfold fstat. eapply wp_keep; [done| |].
  { intros m r Hi Hl. simpl. by rewrite (open_true _ _ _ _ _ Hi Hl) by (csimpl; set_solver). }
  intros [st|e] tr2 HI2; [|by eauto]. fs_step. eapply wp_inode_insert; [done..|].
  intros [ids|e] s' tr3 HI3; [|done]. fs. eapply attr_of_keep; [done|by eauto with fs|intros [at_|e] tr4 HI4; fs]. 
Qed.

Lemma getattr_keep hdr : Keep [] (getattr host host_uid host_gid hdr).
Proof.
  intros s tr HI. unfold getattr. fs. eapply attr_of_keep; [done|by eauto with fs|intros [at_|e] tr' HI'; fs].
Qed.

Lemma init_keep body : Keep [] (init body).
Proof.
  intros s tr HI. unfold init. fs. unfold wp at 1, put_state. fs_step. 
  eapply Inv_move; [done|done..|]. intros _ [? ? ?]. by split.
Qed.

Lemma access_keep hdr body : Keep [] (access hdr body).
Proof. intros s tr HI. unfold access. fs. Qed.

Lemma setattr_keep hdr body : Keep [] (setattr host host_uid host_gid hdr body).
Proof.
  intros s tr HI. unfold setattr, ftruncate, fchmod. fs; by apply getattr_keep.
Qed.

Lemma statfs_keep : Keep [] (statfs host).
Proof. intros s tr HI. unfold statfs, fstatfs. fs. Qed.

Lemma open_keep hdr body : Keep [] (Virtiofs.open host hdr body).
Proof.
  intros s tr HI. unfold Virtiofs.open. fs. eapply wp_dup; [done|by eauto with fs|intros [fd|e] tr' HI'; [|done]].
  fs_step. eapply wp_handle_insert; [done|intros [fh|e] s' tr2 HI2; fs].
Qed.

Lemma release_keep body : Keep [] (release host body).
Proof. intros s tr HI. unfold release. fs_step. eapply wp_mono; [by apply handle_release_keep|]. intros [[]|e] s' tr' HI'; fs. Qed.

Lemma read_keep body : Keep [] (read host body).
Proof. intros s tr HI. unfold read, pread. fs. Qed.

Lemma write_keep body : Keep [] (write host body).
Proof. intros s tr HI. unfold write, pwrite. fs. Qed.

Lemma fsync_keep body : Keep [] (fsync host body).
Proof. intros s tr HI. unfold fsync, sys_fsync. fs. Qed.

Lemma mkdir_keep hdr body : Keep [] (mkdir host host_uid host_gid hdr body).
Proof.
  intros s tr HI. unfold mkdir, lookup_child, mkdirat. fs. eapply wp_child_name; [done|intros [name|e] tr' HI' Hn; [|done]].
  specialize (Hn _ eq_refl). fs. by apply lookup_keep.
Qed.

Lemma create_keep hdr body : Keep [] (create host host_uid host_gid hdr body).
Proof.
  intros s tr HI. unfold create. fs. eapply wp_child_name; [done|intros [name|e] tr' HI' Hn; [|done]]. specialize (Hn _ eq_refl). fs.
  eapply wp_openat_at; [done|by eauto with fs|done| |].
  { intros Hr. rewrite Hw in Hr. unfold flags_ok. rewrite <-Hr. done. }
  intros [child|e] tr1 HI1; [|done]. cbn [held] in HI1. fs_step. eapply wp_owning. unfold fstat. eapply wp_keep; [done| |].
  { intros m r Hi Hl. simpl. by rewrite (open_true _ _ _ _ _ Hi Hl) by (csimpl; set_solver). }
  intros [st|e] tr2 HI2; [|by eauto]. fs_step. eapply wp_inode_insert; [done..|].
  intros [ids|e] s' tr3 HI3; [|done]. fs. eapply wp_dup; [done|by eauto with fs|intros [fd|e] tr4 HI4; [|done]].
  fs_step. eapply wp_handle_insert; [done|intros [fh|e] s2 tr5 HI5; [|done]]. fs.
  eapply attr_of_keep; [done|by eauto with fs|intros [at_|e] tr6 HI6; fs].
Qed.

Lemma unlink_keep hdr body rmdir : Keep [] (unlink host hdr body rmdir).
Proof.
  intros s tr HI. unfold unlink, unlinkat. fs. eapply wp_child_name; [done|intros [name|e] tr' HI' Hn; [|done]].
  specialize (Hn _ eq_refl). fs.
Qed.

Lemma rename_keep hdr body rename2 : Keep [] (rename host hdr body rename2).
Proof.
  intros s tr HI. unfold rename, renameat. fs. eapply wp_child_name; [done|intros [old|e] tr' HI' Hn; [|done]].
  specialize (Hn _ eq_refl). fs. eapply wp_child_name; [done|intros [new|e] tr2 HI2 Hn2; [|done]]. specialize (Hn2 _ eq_refl). fs.
Qed.

Lemma readdir_keep body plus : Keep [] (readdir host body plus).
Proof.
  intros s tr HI. unfold readdir. fs. eapply wp_readdir_names; [done|by eauto with fs|intros [names|e] tr' HI'; fs].
Qed.

Lemma symlink_keep hdr body : Keep [] (symlink host host_uid host_gid hdr body).
Proof.
  intros s tr HI. unfold symlink, symlinkat. fs. eapply wp_child_name; [done|intros [name|e] tr' HI' Hn; [|done]].
  specialize (Hn _ eq_refl). fs. by apply lookup_keep.
Qed.

Lemma readlink_keep hdr : Keep [] (readlink host hdr).
Proof.
  intros s tr HI. unfold readlink, readlink_fd, fd_path. do 4 fs_step. do 2 fs_step. unfold wp at 1, call at 1.
  assert (Hd : in_fd a ∈ owned s) by eauto with fs. pose proof (Inv_getpath_owned _ _ _ _ (host tr _ (Getpath (in_fd a))) HI Hd) as HI1.
  destruct (host tr _ _) as [buf|e]; [|done]. fs_step. do 3 fs_step.
  unfold wp, call. eapply Inv_step; [done|simpl; lia|]. intros m Hi Ha' Hl. clear Ha. rename Ha' into Ha.
  rewrite audit_snoc in Ha. apply bind_Some in Ha as (m0 & Ha0 & Ha). exists m. split_and!; [|done|apply Hi].
  simpl in Ha |- *. destruct (bool_decide (is_Some _)); [|done]. destruct (bool_decide (_ = Some true) || _) eqn:Hv; simplify_eq.
  - by rewrite bool_decide_eq_true_2.
  - apply orb_false_iff in Hv as [Hv _]. by rewrite (vetted_true _ _ _ _ _ Hi Hl Hd) in Hv.
Qed.

Lemma getxattr_keep hdr body : Keep [] (getxattr host hdr body).
Proof. intros s tr HI. unfold getxattr, xattr_get. fs. Qed.

Lemma setxattr_keep hdr body : Keep [] (setxattr host hdr body).
Proof. intros s tr HI. unfold setxattr, xattr_set. fs. Qed.

Lemma listxattr_keep hdr body : Keep [] (listxattr host hdr body).
Proof. intros s tr HI. unfold listxattr, xattr_list. fs. Qed.

Lemma removexattr_keep hdr body : Keep [] (removexattr host hdr body).
Proof. intros s tr HI. unfold removexattr, xattr_remove. fs. Qed.

Lemma Keep_if {A} X (b : bool) (c1 c2 : FS Server A) : Keep X c1 -> Keep X c2 -> Keep X (if b then c1 else c2).
Proof. by destruct b. Qed.
Lemma Keep_fail {A} X e : Keep X (@fail Server A e).
Proof. by intros s tr HI. Qed.
Lemma flush_keep body : Keep [] (flush host body).
Proof. apply fsync_keep. Qed.

#[local] Hint Resolve init_keep lookup_keep getattr_keep setattr_keep statfs_keep access_keep open_keep release_keep read_keep write_keep
  fsync_keep flush_keep mkdir_keep create_keep unlink_keep rename_keep readdir_keep symlink_keep readlink_keep getxattr_keep setxattr_keep
  listxattr_keep removexattr_keep Keep_fail : fs.

Lemma serve_keep hdr body : Keep [] (serve host host_uid host_gid hdr body).
Proof.
  intros s tr HI. unfold serve. do 2 fs_step.
  match goal with |- wp ?c _ _ _ => assert (HK : Keep [] c); [|by apply HK] end. repeat apply Keep_if; auto with fs.
Qed.

Lemma handle_keep request s tr : Inv [] s tr -> let '(_, s, tr) := handle host host_uid host_gid request s tr in Inv [] s tr.
Proof.
  intros HI. unfold handle, dispatch, forget. destruct (in_parse request) as [hdr|]; [|done]. cbv zeta. destruct (_ =? FORGET).
  - pose proof (inode_forget_keep [] (ih_nodeid hdr) (if bool_decide (8 <= length (drop IN_HEADER request))%nat then u64_at (drop IN_HEADER request) 0 else 1) s tr HI) as H.
    unfold wp in H. by destruct (inode_forget _ _ _ _ _) as [[? ?] ?].
  - pose proof (serve_keep hdr (drop IN_HEADER request) s tr HI) as H. unfold wp in H. by destruct (serve _ _ _ _ _ _ _) as [[[|] ?] ?].
Qed.
End Rules.

(** ** Sessions *)

Section Session.
Context (host : Host) (host_uid host_gid : Z).

(** Serve requests in order: the replies. *)
Fixpoint serve_all (requests : list (list Z)) (s : Server) (tr : list Event) : list (option (list Z)) * Server * list Event :=
  match requests with
  | [] => ([], s, tr)
  | r :: rest => let '(out, s, tr) := handle host host_uid host_gid r s tr in
                 let '(outs, s, tr) := serve_all rest s tr in (out :: outs, s, tr)
  end.

(** A share opened on an empty trace, then its requests; [None] when it does not open. *)
Definition session (root : list Z) (opts : Options) (requests : list (list Z)) : option (list (option (list Z)) * Server * list Event) :=
  match server_open host root opts tt [] with
  | (Ok s, _, tr) => Some (serve_all requests s tr)
  | _ => None
  end.

Context (Hfresh : FreshFds host).

Lemma serve_all_keep ro root maxh requests s tr :
  Inv ro root maxh [] s tr -> let '(_, s, tr) := serve_all requests s tr in Inv ro root maxh [] s tr.
Proof.
  revert s tr. induction requests as [|r rest IH]; intros s tr HI; simpl; [done|].
  pose proof (handle_keep host host_uid host_gid Hfresh _ _ _ r s tr HI) as H. destruct (handle _ _ _ _ _ _) as [[o s1] tr1].
  specialize (IH s1 tr1 H). by destruct (serve_all rest s1 tr1) as [[os s2] tr2].
Qed.

Lemma under_root_refl root : under_root root root = true.
Proof. unfold under_root. by rewrite bool_decide_eq_true_2. Qed.

Lemma server_open_inv root opts s u tr :
  server_open host root opts tt [] = (Ok s, u, tr) -> Inv (op_read_only opts) (ta_root (sv_inodes s)) (Nat.max (op_max_handles opts) 1) [] s tr.
Proof.
  unfold server_open, open_dir, owning, fd_path, fstat, c_name, try, call, close, mbind, FS_bind, mret, FS_ret, fail. simpl.
  destruct (bool_decide (0 ∈ root)); [done|]. destruct (host [] Z _) as [fd|] eqn:Hop; [|done]. 
  destruct (host _ _ (Getpath fd)) as [buf|] eqn:Hgp; [|done]. destruct (utf8_valid _) eqn:Hu; [|done]. simpl. intros [= <- _ <-] _.
  split; simpl; try done.
  - eexists. split.
    + unfold audit. cbn. rewrite (bool_decide_eq_true_2 (∅ = ∅)) by done. cbn. rewrite lookup_insert_eq, bool_decide_eq_true_2 by eauto.
      rewrite under_root_refl, orb_true_r. cbn. by rewrite lookup_insert_eq, bool_decide_eq_true_2 by eauto.
    + simpl. unfold live, owned. simpl. rewrite insert_insert_eq, map_to_list_singleton, map_to_list_empty. done.
  - unfold owned. simpl. rewrite map_to_list_singleton, map_to_list_empty. simpl. apply NoDup_singleton.
  - split; simpl; rewrite ?map_size_singleton, ?map_size_empty; try (unfold MAX_INODES; lia).
    + eexists. apply lookup_singleton_eq.
    + apply map_Forall_singleton. unfold ROOT_ID. simpl. lia.
    + apply map_Forall_empty.
Qed.

Lemma session_inv root opts requests outs s tr :
  session root opts requests = Some (outs, s, tr) -> Inv (op_read_only opts) (ta_root (sv_inodes s)) (Nat.max (op_max_handles opts) 1) [] s tr.
Proof.
  unfold session. destruct (server_open _ _ _ _ _) as [[[s0|] u] tr0] eqn:Hop; [|done]. intros [= H].
  pose proof (serve_all_keep _ _ _ requests s0 tr0 (server_open_inv _ _ _ _ _ Hop)) as HI. rewrite H in HI. intros Hs.
  specialize (HI Hs). by rewrite (inv_root _ _ _ _ _ _ HI).
Qed.
End Session.

(** ** Directory pages *)

(** The record of entry number [i] of a listing, whose offset field is [i + 1]. *)
Definition entry_record (plus : bool) (i : nat) (e : list Z * Z) : list Z :=
  (if plus then encode_entry 0 0 placeholder_attr else []) ++ dirent_record 0 (Z.of_nat i + 1) e.2 e.1.

(** The longest run of records of at most [size] bytes in all. *)
Fixpoint fitting (size : nat) (l : list (list Z)) : nat :=
  match l with
  | [] => 0
  | x :: l => if bool_decide (length x <= size)%nat then S (fitting (size - length x) l) else 0
  end.

(** A page of a listing from entry [n] on. *)
Definition page (plus : bool) (n size : nat) (names : list (list Z * Z)) : list (list Z) :=
  let rest := drop n (imap (entry_record plus) names) in take (fitting size rest) rest.

Lemma fitting_length size l : (length (concat (take (fitting size l) l)) <= size)%nat.
Proof.
  revert size. induction l as [|x l IH]; intros size; simpl; [lia|]. case_bool_decide; simpl; [|lia].
  rewrite length_app. specialize (IH (size - length x)%nat). lia.
Qed.

Lemma dirents_fitting plus offset size names k out :
  offset <= Z.of_nat k -> (length out <= size)%nat ->
  dirents plus offset size (Z.of_nat k + 1) names out
  = out ++ (let rest := imap (fun i => entry_record plus (k + i)) names in concat (take (fitting (size - length out) rest) rest)).
Proof.
  cbv zeta. revert k out. induction names as [|[name typ] names IH]; intros k out Ho Hout; cbn [dirents imap]; [by rewrite app_nil_r|].
  destruct (Z.leb_spec (Z.of_nat k + 1) offset); [lia|]. cbn [fitting].
  replace ((if plus then encode_entry 0 0 placeholder_attr else []) ++ dirent_record 0 (Z.of_nat k + 1) typ name)
    with (entry_record plus (k + 0) (name, typ)) by (unfold entry_record; by rewrite Nat.add_0_r).
  set (x := entry_record plus (k + 0) (name, typ)).
  destruct (decide (length out + length x <= size)%nat) as [Hle|Hgt].
  - rewrite bool_decide_eq_false_2, (bool_decide_eq_true_2 (length x <= size - length out)%nat) by lia.
    replace (Z.of_nat k + 1 + 1) with (Z.of_nat (S k) + 1) by lia. rewrite IH by (rewrite ?length_app; lia).
    rewrite <-app_assoc. cbn [take concat]. f_equal. f_equal. rewrite length_app, Nat.sub_add_distr.
    replace (imap _ names) with (imap ((fun i => entry_record plus (k + i)) ∘ S) names); [done|].
    apply imap_ext. intros i e _. simpl. by rewrite Nat.add_succ_r.
  - rewrite bool_decide_eq_true_2, (bool_decide_eq_false_2 (length x <= size - length out)%nat) by lia. by rewrite app_nil_r.
Qed.

Lemma dirents_skip plus offset size names k out :
  Z.of_nat k <= offset ->
  dirents plus offset size (Z.of_nat k + 1) names out
  = dirents plus offset size (Z.of_nat (Nat.max k (Nat.min (Z.to_nat offset) (k + length names))) + 1) (drop (Z.to_nat offset - k) names) out.
Proof.
  revert k. induction names as [|[name typ] names IH]; intros k Hk; [by rewrite drop_nil|].
  destruct (Z.to_nat offset - k)%nat as [|d] eqn:Hd.
  - replace (Nat.max _ _) with k by lia. done.
  - cbn [dirents drop]. rewrite (proj2 (Z.leb_le _ _)) by lia. replace (Z.of_nat k + 1 + 1) with (Z.of_nat (S k) + 1) by lia.
    rewrite IH by lia. replace (Z.to_nat offset - S k)%nat with d by lia. f_equal. simpl. lia.
Qed.

Lemma imap_drop {A B} (f : nat -> A -> B) n l : drop n (imap f l) = imap (fun i => f (n + i)%nat) (drop n l).
Proof.
  revert f l. induction n as [|n IH]; intros f l; [done|]. destruct l as [|x l]; [done|]. simpl. rewrite IH. done.
Qed.

Lemma dirents_page plus offset size names : 0 <= offset -> dirents plus offset size 1 names [] = concat (page plus (Z.to_nat offset) size names).
Proof.
  intros Ho. change 1 with (Z.of_nat 0 + 1). rewrite dirents_skip by lia. rewrite Nat.sub_0_r. unfold page. rewrite imap_drop.
  destruct (decide (length names <= Z.to_nat offset)%nat).
  - by rewrite drop_ge by lia.
  - replace (Nat.max _ _) with (Z.to_nat offset) by lia. rewrite dirents_fitting by (simpl; lia). simpl. by rewrite Nat.sub_0_r.
Qed.

Lemma page_nonempty plus n size names x :
  imap (entry_record plus) names !! n = Some x -> (length x <= size)%nat -> (0 < length (page plus n size names))%nat.
Proof.
  intros Hx Hf. unfold page. rewrite (drop_S _ _ _ Hx). cbv zeta. cbn [fitting]. rewrite bool_decide_eq_true_2 by done. simpl. lia.
Qed.

Lemma page_prefix plus n size names :
  let p := page plus n size names in drop n (imap (entry_record plus) names) = p ++ drop (n + length p) (imap (entry_record plus) names).
Proof.
  cbv zeta. unfold page. set (rest := drop n _). rewrite <-drop_drop. fold rest.
  rewrite <-(take_drop (fitting size rest) rest) at 1. f_equal. rewrite length_take.
  destruct (decide (fitting size rest <= length rest)%nat); [by rewrite Nat.min_l by lia|]. by rewrite Nat.min_r, !drop_ge by lia.
Qed.

(** *** A guest that lists a directory *)

(** [fuse_read_in]: the handle, the offset and the size of the reply. *)
Definition readdir_in (fh off size : Z) : list Z := le_bytes 8 fh ++ le_bytes 8 off ++ le_bytes 4 size ++ replicate 20 0.

(** The guest's reading of a reply: offset, name and type of each record. *)
Fixpoint parse_dirents (plus : bool) (fuel : nat) (bs : list Z) : list (Z * (list Z * Z)) :=
  match fuel with
  | O => []
  | S fuel =>
      let bs := if plus then drop 128 bs else bs in
      if bool_decide (length bs < 24)%nat then []
      else
        let n := Z.to_nat (u32_at bs 16) in
        (u64_at bs 8, (take n (drop 24 bs), u32_at bs 20)) :: parse_dirents plus fuel (drop ((24 + n + 7) / 8 * 8) bs)
  end.

(** The guest asks again from the offset of the last record it got, until a
    reply has none. *)
Fixpoint read_dir (host : Host) (plus : bool) (fh size : Z) (fuel : nat) (off : Z) (s : Server) (tr : list Event) : list (list Z * Z) :=
  match fuel with
  | O => []
  | S fuel =>
      match readdir host (readdir_in fh off size) plus s tr with
      | (Ok reply, s, tr) =>
          let got := parse_dirents plus (length reply) reply in
          match list.last got with
          | Some (off, _) => (snd <$> got) ++ read_dir host plus fh size fuel off s tr
          | None => []
          end
      | (Err _, _, _) => []
      end
  end.

(** Names and types as [struct dirent] has them. *)
Definition names_ok (names : list (list Z * Z)) : Prop :=
  Forall (fun e => Z.of_nat (length e.1) < 2 ^ 32 /\ fits 8 e.2) names /\ Z.of_nat (length names) < 2 ^ 63.

(** Every listing of the descriptor gives the same names. *)
Definition lists_same (host : Host) (fd : Z) (s : Server) (names : list (list Z * Z)) : Prop :=
  forall tr, exists tr', readdir_names host fd s tr = (Ok names, s, tr').

(** The duplicates share the offset of the directory, as POSIX has it: after the
    listing at [tr] has read to the end, the next ones give nothing. *)
Definition lists_once (host : Host) (fd : Z) (s : Server) (tr : list Event) (names : list (list Z * Z)) : Prop :=
  exists tr1, readdir_names host fd s tr = (Ok names, s, tr1) /\
    forall tr2, tr1 `prefix_of` tr2 -> exists tr3, readdir_names host fd s tr2 = (Ok [], s, tr3).

Lemma load_at_app n pre v rest : fits (8 * Z.of_nat n) v -> load_at n (pre ++ le_bytes n v ++ rest) (length pre) = v.
Proof.
  intros Hv. unfold load_at, le_at. rewrite slice_Some by (rewrite !length_app, length_le_bytes; lia). cbn.
  rewrite drop_app_length, take_app_length' by (by rewrite length_le_bytes). by apply of_le_le_bytes_fits.
Qed.

(** The fields of a request and of a record. *)
Lemma readdir_in_fields fh off size :
  fits 64 fh -> fits 64 off -> fits 32 size ->
  u64_at (readdir_in fh off size) 0 = fh /\ u64_at (readdir_in fh off size) 8 = off /\ u32_at (readdir_in fh off size) 16 = size.
Proof.
  intros Hf Ho Hs. unfold readdir_in, u64_at, u32_at. split; [exact (load_at_app 8 [] fh _ Hf)|]. split.
  - pose proof (load_at_app 8 (le_bytes 8 fh) off (le_bytes 4 size ++ replicate 20 0) Ho) as H. by rewrite length_le_bytes in H.
  - pose proof (load_at_app 4 (le_bytes 8 fh ++ le_bytes 8 off) size (replicate 20 0) Hs) as H.
    by rewrite length_app, !length_le_bytes, <- app_assoc in H.
Qed.

Lemma dirent_record_fields off typ name rest :
  fits 64 off -> fits 8 typ -> Z.of_nat (length name) < 2 ^ 32 ->
  let bs := dirent_record 0 off typ name ++ rest in
  (24 <= length bs)%nat /\ u64_at bs 8 = off /\ u32_at bs 16 = Z.of_nat (length name) /\ u32_at bs 20 = typ /\
  take (length name) (drop 24 bs) = name /\ drop ((24 + length name + 7) / 8 * 8) bs = rest.
Proof.
  intros Ho Ht Hn bs. assert (Htf : fits 32 typ) by (unfold fits in *; lia). subst bs. unfold dirent_record. cbv zeta.
  set (r := ((24 + length name + 7) / 8 * 8)%nat). set (pad := replicate (r - (24 + length name)) 0).
  assert (Hr : (24 + length name <= r)%nat).
  { subst r. pose proof (Nat.div_mod (24 + length name + 7) 8 ltac:(lia)). pose proof (Nat.mod_upper_bound (24 + length name + 7) 8 ltac:(lia)). lia. }
  rewrite (wrap_small 32) by (unfold fits; lia). rewrite <- !app_assoc. set (nl := Z.of_nat (length name)).
  assert (Hnl : fits 32 nl) by (unfold fits; lia). unfold u64_at, u32_at. split_and!.
  - rewrite !length_app, !length_le_bytes. lia.
  - exact (load_at_app 8 (le_bytes 8 0) off _ Ho).
  - pose proof (load_at_app 4 (le_bytes 8 0 ++ le_bytes 8 off) nl (le_bytes 4 typ ++ name ++ pad ++ rest) Hnl) as H.
    by rewrite length_app, !length_le_bytes, <- app_assoc in H.
  - pose proof (load_at_app 4 (le_bytes 8 0 ++ le_bytes 8 off ++ le_bytes 4 nl) typ (name ++ pad ++ rest) Htf) as H.
    by rewrite !length_app, !length_le_bytes, <- !app_assoc in H.
  - rewrite !(app_assoc (le_bytes 8 0)), !(app_assoc (_ ++ le_bytes 8 off)), (app_assoc (_ ++ le_bytes 4 nl)).
    rewrite drop_app_length' by (rewrite !length_app, !length_le_bytes; done). by rewrite take_app_length.
  - rewrite !(app_assoc (le_bytes 8 0)), !(app_assoc (_ ++ le_bytes 8 off)), !(app_assoc (_ ++ le_bytes 4 nl)), !(app_assoc (_ ++ le_bytes 4 typ)), !(app_assoc (_ ++ name)).
    apply drop_app_length'. rewrite !length_app, !length_le_bytes. subst pad. rewrite length_replicate. lia.
Qed.

Lemma length_encode_entry n g a : length (encode_entry n g a) = 128%nat.
Proof. unfold encode_entry, encode_attr. by rewrite !length_app, !length_le_bytes. Qed.

(** The guest reads back exactly what the records hold. *)
Lemma parse_records plus n es fuel :
  Forall (fun e => Z.of_nat (length e.1) < 2 ^ 32 /\ fits 8 e.2) es -> Z.of_nat (n + length es) < 2 ^ 64 -> (length es <= fuel)%nat ->
  parse_dirents plus fuel (concat (imap (fun i => entry_record plus (n + i)) es)) = imap (fun i e => (Z.of_nat (n + i) + 1, e)) es.
Proof.
  intros He. revert n fuel. induction He as [|[name typ] es [Hl Ht] _ IH]; intros n fuel Hn Hf.
  { destruct fuel, plus; done. }
  destruct fuel as [|fuel]; [cbn in Hf; lia|]. cbn [length fst snd] in *. cbn [imap concat parse_dirents].
  set (tail := concat _). unfold entry_record at 1. cbn [fst snd].
  assert (Hoff : fits 64 (Z.of_nat (n + 0) + 1)) by (unfold fits; lia).
  destruct (dirent_record_fields (Z.of_nat (n + 0) + 1) typ name tail Hoff Ht Hl) as (F1 & F2 & F3 & F4 & F5 & F6).
  set (bs := if plus then _ else _). assert (Hbs : bs = dirent_record 0 (Z.of_nat (n + 0) + 1) typ name ++ tail).
  { subst bs. destruct plus; [|done]. rewrite <- app_assoc. apply drop_app_length'. symmetry. apply length_encode_entry. }
  rewrite Hbs. cbv zeta. rewrite bool_decide_eq_false_2 by lia. rewrite F2, F3, F4, Nat2Z.id, F5, F6. f_equal.
  subst tail. replace (imap _ es) with (imap (fun i => entry_record plus (S n + i)) es) by (apply imap_ext; intros i e _; simpl; by rewrite Nat.add_succ_r).
  rewrite IH by lia. apply imap_ext. intros i e _. simpl. f_equal. lia.
Qed.

Lemma page_entries plus n size names :
  page plus n size names = imap (fun i => entry_record plus (n + i)) (take (length (page plus n size names)) (drop n names)).
Proof.
  unfold page. rewrite imap_drop. set (rest := imap _ (drop n names)). rewrite length_take.
  set (k := fitting size rest).
  assert (Hl : length rest = length (drop n names)) by (subst rest; apply length_imap).
  rewrite Hl. apply list_eq. intros i. rewrite list_lookup_imap. destruct (decide (i < k `min` length (drop n names))%nat) as [Hi|Hi].
  - rewrite !lookup_take_lt by lia. subst rest. by rewrite list_lookup_imap.
  - rewrite (lookup_take_ge (drop n names)) by lia. cbn. apply lookup_ge_None. rewrite length_take. lia.
Qed.

Lemma entry_record_length plus i e : (24 <= length (entry_record plus i e))%nat.
Proof. unfold entry_record, dirent_record. rewrite !length_app, !length_le_bytes. lia. Qed.

Lemma concat_length_records plus n es : (length es <= length (concat (imap (fun i => entry_record plus (n + i)) es)))%nat.
Proof.
  revert n. induction es as [|e es IH]; intros n; [done|]. cbn [imap concat length]. rewrite length_app.
  pose proof (entry_record_length plus (n + 0) e). specialize (IH (S n)).
  replace (imap _ es) with (imap (fun i => entry_record plus (S n + i)) es) by (apply imap_ext; intros i x _; simpl; by rewrite Nat.add_succ_r). lia.
Qed.

(** One request on an open directory. *)
Lemma readdir_reply host plus s tr tr' fh h names off size :
  hs_by_fh (sv_handles s) !! fh = Some h -> fits 64 fh -> fits 64 off -> fits 32 size ->
  readdir_names host (ha_fd h) s tr = (Ok names, s, tr') ->
  readdir host (readdir_in fh off size) plus s tr = (Ok (concat (page plus (Z.to_nat off) (Z.to_nat size) names)), s, tr').
Proof.
  intros Hh Hf Ho Hs Hn. destruct (readdir_in_fields fh off size Hf Ho Hs) as (E1 & E2 & E3).
  unfold readdir. rewrite E1, E2, E3. unfold mbind, FS_bind, handle_get, get_state, mret, FS_ret, of_option. simpl. rewrite Hh. unfold mret, FS_ret.
  rewrite Hn. rewrite dirents_page; [done|apply Ho].
Qed.

(** What the guest reads from a page. *)
Lemma parse_page plus n size names :
  names_ok names ->
  let p := page plus n size names in
  parse_dirents plus (length (concat p)) (concat p) = imap (fun i e => (Z.of_nat (n + i) + 1, e)) (take (length p) (drop n names)).
Proof.
  intros [Hn Hl]. cbv zeta. destruct (decide (n <= length names)%nat) as [Hle|Hgt].
  - rewrite page_entries at 1 2. set (es := take _ (drop n names)). apply parse_records.
    + by apply Forall_take, Forall_drop.
    + subst es. rewrite length_take, length_drop. lia.
    + apply concat_length_records.
  - assert (E : page plus n size names = []) by (unfold page; rewrite drop_ge by (rewrite length_imap; lia); by destruct size).
    rewrite E. by destruct plus.
Qed.

Lemma last_imap {A B} (f : nat -> A -> B) l x : list.last l = Some x -> list.last (imap f l) = Some (f (length l - 1)%nat x).
Proof.
  intros H. apply list.last_Some in H as [l' ->]. rewrite imap_app. cbn [imap]. rewrite list.last_snoc, length_app. cbn. do 2 f_equal. lia.
Qed.

(** One round of the guest's loop. *)
Lemma read_dir_round host plus s tr tr' fh h names n size fuel :
  hs_by_fh (sv_handles s) !! fh = Some h -> fits 64 fh -> fits 32 size -> names_ok names -> (n <= length names)%nat ->
  readdir_names host (ha_fd h) s tr = (Ok names, s, tr') ->
  let k := length (page plus n (Z.to_nat size) names) in
  read_dir host plus fh size (S fuel) (Z.of_nat n) s tr =
    if bool_decide (k = 0)%nat then []
    else take k (drop n names) ++ read_dir host plus fh size fuel (Z.of_nat (n + k)) s tr'.
Proof.
  intros Hh Hf Hs Hok Hle Hn k. cbn [read_dir]. rewrite (readdir_reply host plus s tr tr' fh h names) by (done || (destruct Hok; unfold fits; lia)).
  rewrite Nat2Z.id. cbv zeta. rewrite parse_page by done. fold k. set (es := take k (drop n names)).
  assert (Hk : length es = k).
  { subst es k. rewrite length_take, length_drop. enough (length (page plus n (Z.to_nat size) names) <= length names - n)%nat by lia.
    unfold page. rewrite length_take, length_drop, length_imap. lia. }
  case_bool_decide as H0; [destruct es; [done|cbn in Hk; lia]|].
  destruct (list.last es) as [e|] eqn:He; [|apply list.last_None in He; rewrite He in Hk; cbn in Hk; lia].
  rewrite (last_imap _ _ _ He), Hk. f_equal; [|f_equal; lia].
  apply list_eq. intros i. rewrite list_lookup_fmap, list_lookup_imap. by destruct (es !! i).
Qed.

(** On a directory that lists the same each time, the loop reads the rest of it. *)
Lemma read_dir_all host plus s tr fh h names n size fuel :
  hs_by_fh (sv_handles s) !! fh = Some h -> fits 64 fh -> fits 32 size -> names_ok names ->
  lists_same host (ha_fd h) s names -> Forall (fun x => length x <= Z.to_nat size)%nat (imap (entry_record plus) names) ->
  (n <= length names)%nat -> (length names < n + fuel)%nat ->
  read_dir host plus fh size fuel (Z.of_nat n) s tr = drop n names.
Proof.
  intros Hh Hf Hs Hok Hsame Hfit. revert n tr. induction fuel as [|fuel IH]; intros n tr Hle Hfuel; [lia|].
  destruct (Hsame tr) as [tr' Hn]. rewrite (read_dir_round host plus s tr tr' fh h names) by done. cbv zeta.
  pose proof (page_prefix plus n (Z.to_nat size) names) as Hp. cbv zeta in Hp. set (k := length (page plus n (Z.to_nat size) names)) in *.
  assert (Hk : (n + k <= length names)%nat).
  { subst k. unfold page. rewrite length_take, length_drop, length_imap. lia. }
  destruct (decide (n = length names)) as [->|Hlt].
  { assert (k = 0)%nat as -> by lia. rewrite drop_all. by rewrite bool_decide_eq_true_2. }
  assert (Hpos : (0 < k)%nat).
  { destruct (imap (entry_record plus) names !! n) as [x|] eqn:Hx; [|apply lookup_ge_None in Hx; rewrite length_imap in Hx; lia].
    apply (page_nonempty plus n (Z.to_nat size) names x Hx). by apply (list.Forall_lookup_1 _ _ _ _ Hfit Hx). }
  rewrite bool_decide_eq_false_2 by lia. rewrite IH by lia. rewrite <- drop_drop. apply take_drop.
Qed.

(** On one that lists once, it reads the first page. *)
Lemma read_dir_once host plus s tr fh h names size fuel :
  hs_by_fh (sv_handles s) !! fh = Some h -> fits 64 fh -> fits 32 size -> names_ok names ->
  lists_once host (ha_fd h) s tr names -> (2 <= fuel)%nat ->
  read_dir host plus fh size fuel 0 s tr = take (length (page plus 0 (Z.to_nat size) names)) names.
Proof.
  intros Hh Hf Hs Hok (tr1 & Hn & Hno) Hfuel. destruct fuel as [|[|fuel]]; [lia|lia|].
  change 0 with (Z.of_nat 0) at 1. rewrite (read_dir_round host plus s tr tr1 fh h names) by (done || lia). cbv zeta.
  set (k := length _). case_bool_decide as H0; [by rewrite H0|]. rewrite drop_0. destruct (Hno tr1 ltac:(done)) as [tr3 Hn3].
  cbn [read_dir]. rewrite (readdir_reply host plus s tr1 tr3 fh h []) by (done || (destruct Hok; subst k; unfold fits, page in *; rewrite length_take, length_drop, length_imap in *; lia)).
  assert (E : page plus (Z.to_nat (Z.of_nat (0 + k))) (Z.to_nat size) [] = []) by (unfold page; cbn [imap]; rewrite drop_nil; done).
  rewrite E. cbn. by rewrite app_nil_r.
Qed.

(** ** A host for the examples: [/s] holds one file, and every call succeeds *)

Definition demo_stat (mode : Z) : Stat :=
  {| st_mode := mode; st_size := 3; st_blocks := 8; st_atime := 0; st_mtime := 0; st_ctime := 0; st_atime_nsec := 0; st_mtime_nsec := 0;
     st_ctime_nsec := 0; st_nlink := 1; st_rdev := 0; st_blksize := 4096 |}.
Definition demo_file : list Z := ascii_bytes "note".

Definition demo_host : Host := fun tr A c =>
  let fd := fresh (open_fds tr) in
  let first := bool_decide (length tr <= 2)%nat in
  match c in Sys A return result Z A with
  | Open _ _ | Openat _ _ _ _ | Dup _ => Ok fd
  | Fstat _ => Ok (demo_stat (if first then 0x41ed else 0x81a4))
  | Getpath _ => Ok (if first then ascii_bytes "/s" else ascii_bytes "/s/note")
  | Pread _ len _ => Ok (replicate (Nat.min len 3) 7)
  | Pwrite _ buf _ => Ok (length buf)
  | Fstatfs _ => Err EIO
  | Readdir _ => Ok [([DOT], 4); (demo_file, 8); (ascii_bytes "two", 8)]
  | Readlink _ _ => Err EINVAL
  | Getxattr _ _ _ | Listxattr _ _ => Ok (0%nat, [])
  | Close _ | Mkdirat _ _ _ | Unlinkat _ _ _ | Renameat _ _ _ _ | Symlinkat _ _ _ | Fsync _ | Ftruncate _ _ | Fchmod _ _ | Setxattr _ _ _
  | Removexattr _ _ => Ok tt
  end.

Lemma demo_fresh : FreshFds demo_host.
Proof. split; intros; simpl in *; simplify_eq; apply is_fresh. Qed.

(** A request: header, then body. *)
Definition demo_request (opcode nodeid : Z) (body : list Z) : list Z :=
  le_bytes 4 (40 + Z.of_nat (length body)) ++ le_bytes 4 opcode ++ le_bytes 8 77 ++ le_bytes 8 nodeid ++ replicate 16 0 ++ body.

Definition demo_options : Options := {| op_read_only := false; op_max_handles := 4; op_windows_names := false |}.
Definition demo_requests : list (list Z) :=
  [ demo_request INIT 0 (replicate 16 0);
    demo_request LOOKUP 1 (ascii_bytes ".." ++ [0]);
    demo_request CREATE 1 (le_bytes 4 0 ++ le_bytes 4 0x1a4 ++ replicate 8 0 ++ demo_file ++ [0]);
    demo_request WRITE 2 (le_bytes 8 1 ++ le_bytes 8 0 ++ le_bytes 4 3 ++ replicate 20 0 ++ [1; 2; 3]);
    demo_request RELEASE 2 (le_bytes 8 1);
    demo_request FORGET 2 (le_bytes 8 1) ].
Definition demo_session := session demo_host 501 20 (ascii_bytes "/s") demo_options demo_requests.

(** *** Where the wire format and the server differ *)

(** [fuse_setattr_in] has the mode at byte 68 and the group at byte 80. *)
Definition fuse_setattr_in (valid mode uid gid : Z) : list Z :=
  le_bytes 4 valid ++ replicate 64 0 ++ le_bytes 4 mode ++ replicate 4 0 ++ le_bytes 4 uid ++ le_bytes 4 gid ++ replicate 4 0.

Definition demo_root_server : Server :=
  {| sv_inodes := table_new 0 0x41ed (ascii_bytes "/s"); sv_handles := handles_new 4; sv_read_only := false; sv_windows_names := false; sv_inited := true |}.

(** A guest that sets mode 0755 has the mode set to its group id. *)
Lemma setattr_mode_is_group :
  let hdr := {| ih_len := 128; ih_opcode := SETATTR; ih_unique := 1; ih_nodeid := 1 |} in
  head (setattr demo_host 501 20 hdr (fuse_setattr_in FATTR_MODE 0x1ed 501 20) demo_root_server []).2 = Some (Ev (Fchmod 0 20) (Ok tt)).
Proof. vm_compute. reflexivity. Qed.

(** OPEN for writing duplicates the descriptor LOOKUP opened, and that one is read-only. *)
Lemma open_reuses_lookup_descriptor :
  let hdr op node := {| ih_len := 48; ih_opcode := op; ih_unique := 1; ih_nodeid := node |} in
  let '(_, s1, tr1) := lookup demo_host 501 20 (hdr LOOKUP 1) (demo_file ++ [0]) demo_root_server
    [Ev (Open (ascii_bytes "/s") O_RDONLY) (Ok 0); Ev (Getpath 0) (Ok (ascii_bytes "/s")); Ev (Fstat 0) (Ok (demo_stat 0x41ed))] in
  let '(_, s2, tr2) := Virtiofs.open demo_host (hdr OPEN 2) (le_bytes 4 O_RDWR) s1 tr1 in
  tr2 !! 3%nat = Some (Ev (Openat 0 demo_file (Z.lor (Z.lor O_RDONLY O_CLOEXEC) O_NOFOLLOW) 0x1b6) (Ok 1)) /\ list.last tr2 = Some (Ev (Dup 1) (Ok 2)).
Proof. vm_compute. split; reflexivity. Qed.

(** ** Claims *)

(** C15: A share never leaves its root and never loses a descriptor.  Over any
    sequence of requests, on any host that hands out fresh descriptors, the
    trace of system calls is accepted by the monitor: a directory argument is
    always a descriptor seen under the root, a name is one component that
    cannot climb, no final link is followed, transfers stay within their
    limits, and a read-only share changes nothing.  The descriptors open at the
    end are exactly those of the inode and handle tables, each owned once, and
    the tables keep their identities and bounds. *)
Theorem virtiofs_share_monitored host host_uid host_gid root opts requests outs s tr :
  FreshFds host -> session host host_uid host_gid root opts requests = Some (outs, s, tr) -> short tr ->
  (exists m, audit (op_read_only opts) (ta_root (sv_inodes s)) tr = Some m /\ mo_live m = list_to_map ((., true) <$> owned s)) /\
  NoDup (owned s) /\ tables_ok (Z.of_nat (length tr)) s.
Proof.
  intros Hf Hs Ht. destruct (session_inv _ _ _ Hf _ _ _ _ _ _ Hs Ht) as [Ha Hn _ _ _ Hto].
  split_and!; [exact Ha|exact Hn|]. eapply tables_ok_mono; [|done]. simpl. lia.
Qed.

Lemma virtiofs_share_monitored_witness :
  (fun x => length x.2) <$> demo_session = Some 11%nat /\
  forall outs s tr, demo_session = Some (outs, s, tr) ->
  (exists m, audit false (ta_root (sv_inodes s)) tr = Some m /\ mo_live m = list_to_map ((., true) <$> owned s)) /\
  NoDup (owned s) /\ tables_ok (Z.of_nat (length tr)) s.
Proof.
  assert (Hl : (fun x => length x.2) <$> demo_session = Some 11%nat) by (vm_compute; reflexivity).
  split; [exact Hl|]. intros outs s tr H. apply (virtiofs_share_monitored demo_host 501 20 (ascii_bytes "/s") demo_options demo_requests outs s tr).
  - exact demo_fresh.
  - exact H.
  - rewrite H in Hl. injection Hl as Hl. unfold short. rewrite Hl. reflexivity.
Defined.

(** C17: What a guest reads of a directory.  A READDIR or READDIRPLUS of an open
    handle answers with whole records of the names the host listed for that
    request, in order, starting after the offset asked for and as many as fit in
    the size asked for, from which the guest's parser gets back exactly those
    names and types with the offset to resume from.  Each request lists the
    directory anew, so what a guest that keeps asking from the last offset gets
    depends on the host: if every listing of the descriptor gives the same names
    and every record fits the buffer, it reads every name and type once, in
    order, and stops; if the duplicates share the directory's offset, as POSIX
    has it, it reads the first page and then nothing, so that a directory of
    more than a page is cut short. *)
Theorem readdir_pages_exact host plus s tr tr' fh h names size :
  hs_by_fh (sv_handles s) !! fh = Some h -> fits 64 fh -> fits 32 size -> names_ok names ->
  readdir_names host (ha_fd h) s tr = (Ok names, s, tr') ->
  (forall off, (off <= length names)%nat ->
     let p := page plus off (Z.to_nat size) names in
     readdir host (readdir_in fh (Z.of_nat off) size) plus s tr = (Ok (concat p), s, tr') /\ (length (concat p) <= Z.to_nat size)%nat /\
     parse_dirents plus (length (concat p)) (concat p) = imap (fun i e => (Z.of_nat (off + i) + 1, e)) (take (length p) (drop off names))) /\
  (lists_same host (ha_fd h) s names -> Forall (fun x => length x <= Z.to_nat size)%nat (imap (entry_record plus) names) ->
     read_dir host plus fh size (S (length names)) 0 s tr = names) /\
  (lists_once host (ha_fd h) s tr names ->
     read_dir host plus fh size (S (S (length names))) 0 s tr = take (length (page plus 0 (Z.to_nat size) names)) names).
Proof.
  intros Hh Hf Hs Hok Hn. split; [|split].
  - intros off Hoff. cbv zeta. split; [|split; [apply fitting_length|by apply parse_page]].
    rewrite (readdir_reply host plus s tr tr' fh h names) by (done || (destruct Hok; unfold fits; lia)). by rewrite Nat2Z.id.
  - intros Hsame Hfit. change 0 with (Z.of_nat 0). rewrite (read_dir_all host plus s tr fh h names) by (done || lia). done.
  - intros Honce. apply (read_dir_once host plus s tr fh h names); [done..|lia].
Qed.

(** A server with a directory handle 1, read in pages of 40 bytes. *)
Definition demo_dir_server : Server :=
  {| sv_inodes := table_new 0 0x41ed (ascii_bytes "/s");
     sv_handles := {| hs_next := 2; hs_max := 4; hs_by_fh := {[ 1 := {| ha_nodeid := 1; ha_fd := 3; ha_dir := true |} ]} |};
     sv_read_only := true; sv_windows_names := false; sv_inited := true |}.
Lemma demo_names_ok : names_ok [(demo_file, 8); (ascii_bytes "two", 8)].
Proof. split; [|vm_compute; reflexivity]. repeat constructor; vm_compute; discriminate. Qed.

Lemma readdir_pages_exact_witness :
  read_dir demo_host false 1 40 3 0 demo_dir_server [] = [(demo_file, 8); (ascii_bytes "two", 8)].
Proof.
  destruct (readdir_pages_exact demo_host false demo_dir_server [] [Ev (Readdir 3) (demo_host [] _ (Readdir 3))] 1
              {| ha_nodeid := 1; ha_fd := 3; ha_dir := true |} [(demo_file, 8); (ascii_bytes "two", 8)] 40
              ltac:(reflexivity) ltac:(fits_closed) ltac:(fits_closed) demo_names_ok ltac:(vm_compute; reflexivity)) as (_ & H & _).
  apply H.
  - intros tr. eexists. vm_compute. reflexivity.
  - vm_compute. repeat constructor.
Defined.

(** *** A host whose duplicated descriptors share the directory's offset *)

Definition listed (tr : list Event) : bool := existsb (fun e => match e with Ev (Readdir _) _ => true | _ => false end) tr.
Definition posix_host : Host := fun tr A c =>
  match c in Sys A return result Z A with
  | Readdir _ => if listed tr then Ok [] else Ok [([DOT], 4); (demo_file, 8); (ascii_bytes "two", 8)]
  | c => demo_host tr _ c
  end.

(** A directory of two names read in pages of one: the second is lost. *)
Lemma shared_offset_cuts_listing :
  lists_once posix_host 3 demo_dir_server [] [(demo_file, 8); (ascii_bytes "two", 8)] /\
  read_dir posix_host false 1 40 4 0 demo_dir_server [] = [(demo_file, 8)].
Proof.
  split; [|vm_compute; reflexivity]. eexists. split; [vm_compute; reflexivity|]. intros tr2 [l ->]. eexists. cbn. reflexivity.
Qed.
