(* ===== verification/VirtiofsDev.v ===== *)
(** * The virtio-fs device

    Model of [ternvale-virtiofs/src/device.rs]: the worker that binds the two
    queues, reads a FUSE request out of each chain, hands it to the server of
    [Virtiofs] and writes the reply back.  One message of [worker_loop] is
    [on_kick]; [bound.values_mut()] visits the queues in an order the map
    chooses, so the order is an argument. *)

From stdpp Require Import list strings gmap.
From S2P Require Import Prelude GuestMemory VirtioQueue QueueDevice VirtioIrq VirtioCore FwCfg Virtiofs VirtiofsSafe.

Definition VIRTIO_FS_ID : Z := 26.
Definition VIRTIO_FS_TAG_LEN : nat := 36.
Definition FS_NUM_QUEUES : Z := 2.
Definition FS_INT_VRING : Z := 1.

Record FsStats := { fs_requests : Z; fs_bytes : Z; fs_errors : Z }.

Inductive FsKick := FsNotify (n : QueueNotify) | FsReset.

Record FsBound := { fb_key : Z * Z * Z * Z; fb_queue : SplitQueue }.

(** The server with its trace of system calls, and the counters. *)
Record FsState := { fs_server : Server; fs_trace : list Event; fs_stats : FsStats }.
Record FsWorker := { fw_state : FsState; fw_bound : gmap Z FsBound }.

Definition add_errors (n : Z) (t : FsStats) : FsStats := {| fs_requests := fs_requests t; fs_bytes := fs_bytes t; fs_errors := add_w 64 (fs_errors t) n |}.
Definition add_request (used : Z) (t : FsStats) : FsStats :=
  {| fs_requests := add_w 64 (fs_requests t) 1; fs_bytes := add_w 64 (fs_bytes t) used; fs_errors := fs_errors t |}.

(** [VirtioFs::open]: the tag as the configuration space shows it. *)
Definition tag_bytes (tag : list Z) : list Z := take VIRTIO_FS_TAG_LEN tag ++ replicate (VIRTIO_FS_TAG_LEN - length tag) 0.

Definition fs_config (tag : list Z) : list Z := tag ++ le_bytes 4 1.

Definition fs_read_config (tag : list Z) (offset size : Z) : Z :=
  let cfg := fs_config tag in
  let start := Z.to_nat offset in
  if bool_decide (start < length cfg)%nat
  then of_le (take (Nat.min (Nat.min (Z.to_nat size) (length cfg - start)) 8) (drop start cfg))
  else 0.

Definition fs_notify_key (n : QueueNotify) : Z * Z * Z * Z := (n_size n, n_desc n, n_avail n, n_used n).

Definition fs_bind_queue (bound : gmap Z FsBound) (n : QueueNotify) : gmap Z FsBound :=
  if FS_NUM_QUEUES <=? n_index n then bound
  else if match bound !! n_index n with Some b => bool_decide (fb_key b = fs_notify_key n) | None => false end then bound
  else <[n_index n := {| fb_key := fs_notify_key n;
                         fb_queue := VirtioQueue.new (n_size n) (n_desc n) (n_avail n) (n_used n)
                           (negb (Z.land (n_features n) VIRTIO_F_INDIRECT_DESC =? 0))
                           (negb (Z.land (n_features n) VIRTIO_F_EVENT_IDX =? 0)) |}]> bound.

Section device.
Context {M : Type} `{!ByteMemory M} (host : Host) (host_uid host_gid : Z).

Fixpoint read_bufs (mem : M) (bufs : list Buffer) : option (list Z) :=
  match bufs with
  | [] => Some []
  | b :: bufs => match bm_read mem (buf_addr b) (Z.to_nat (buf_len b)) with
                 | Err _ => None
                 | Ok chunk => rest ← read_bufs mem bufs; Some (chunk ++ rest)
                 end
  end.
Definition fs_read_chain (mem : M) (c : Chain) : option (list Z) := read_bufs mem (c_readable c).

(** The bytes written so far stay when a later buffer fails. *)
Fixpoint write_bufs (mem : M) (bufs : list Buffer) (response : list Z) (offset : nat) : Z * M :=
  match bufs with
  | [] => (wrap 32 (Z.of_nat offset), mem)
  | b :: bufs =>
      let take_ := Nat.min (Z.to_nat (buf_len b)) (length response - offset) in
      if bool_decide (take_ = 0)%nat then (wrap 32 (Z.of_nat offset), mem)
      else match bm_write mem (buf_addr b) (take take_ (drop offset response)) with
           | Err _ => (0, mem)
           | Ok mem => write_bufs mem bufs response (offset + take_)
           end
  end.
Definition fs_write_chain (mem : M) (c : Chain) (response : list Z) : Z * M :=
  if bool_decide (response = []) then (0, mem) else write_bufs mem (c_writable c) response 0.

Definition request_was_forget (response : list Z) : bool := bool_decide (response = []).

(** One chain of [serve_queue]. *)
Definition fs_step (mem : M) (c : Chain) (s : FsState) : option (M * FsState * Z) :=
  let '(response, s) :=
    match fs_read_chain mem c with
    | Some req => let '(out, sv, tr) := handle host host_uid host_gid req (fs_server s) (fs_trace s) in
                  (default [] out, {| fs_server := sv; fs_trace := tr; fs_stats := fs_stats s |})
    | None => ([], {| fs_server := fs_server s; fs_trace := fs_trace s; fs_stats := add_errors 1 (fs_stats s) |})
    end in
  let '(used, mem) := fs_write_chain mem c response in
  let stats := if (0 <? used) || request_was_forget response then add_request used (fs_stats s)
               else if negb (bool_decide (response = [])) then add_errors 1 (fs_stats s) else fs_stats s in
  Some (mem, {| fs_server := fs_server s; fs_trace := fs_trace s; fs_stats := stats |}, used).

Definition FS_CHAINS : nat := Z.to_nat (2 ^ 16).

Definition fs_serve_queue (b : FsBound) (mem : M) (irq : Irq) (s : FsState) : option (FsBound * M * Irq * FsState) :=
  let '(q, cs, _) := chains mem FS_CHAINS (fb_queue b) in
  match serve_loop fs_step mem q cs s false with
  | None => None
  | Some (mem, q, s, completed) =>
      let '(q, needed) := if completed then notification_needed q mem else (q, false) in
      Some ({| fb_key := fb_key b; fb_queue := q |}, mem, (if needed then raise FS_INT_VRING irq else irq), s)
  end.

Fixpoint fs_serve_bound (order : list Z) (bound : gmap Z FsBound) (mem : M) (irq : Irq) (s : FsState) : option (gmap Z FsBound * M * Irq * FsState) :=
  match order with
  | [] => Some (bound, mem, irq, s)
  | i :: order =>
      match bound !! i with
      | None => fs_serve_bound order bound mem irq s
      | Some b => match fs_serve_queue b mem irq s with
                  | None => None
                  | Some (b, mem, irq, s) => fs_serve_bound order (<[i := b]> bound) mem irq s
                  end
      end
  end.

(** Dropping a server closes what its tables own. *)
Definition drop_server (s : Server) (tr : list Event) : list Event :=
  foldl (fun tr fd => tr ++ [Ev (Close fd) (host tr unit (Close fd))]) tr (owned s).

(** One message of [worker_loop]; [order] lists the bound queues as the map visits them. *)
Definition fs_on_kick (root : list Z) (opts : Options) (order : list Z) (w : FsWorker) (mem : M) (irq : Irq) (k : FsKick) :
    option (FsWorker * M * Irq) :=
  match k with
  | FsReset =>
      let s := fw_state w in
      let st := match server_open host root opts tt (fs_trace s) with
                | (Ok next, _, tr) => {| fs_server := next; fs_trace := drop_server (fs_server s) tr; fs_stats := fs_stats s |}
                | (Err _, _, tr) => {| fs_server := fs_server s; fs_trace := tr; fs_stats := fs_stats s |}
                end in
      Some ({| fw_state := st; fw_bound := ∅ |}, mem, irq)
  | FsNotify n =>
      match fs_serve_bound order (fs_bind_queue (fw_bound w) n) mem irq (fw_state w) with
      | None => None
      | Some (bound, mem, irq, s) => Some ({| fw_state := s; fw_bound := bound |}, mem, irq)
      end
  end.

(** ** Replies are bytes *)

Create HintDb bytes.

Record ByteHost : Prop := {
  bh_pread tr fd len off buf : host tr _ (Pread fd len off) = Ok buf -> Forall (fits 8) buf;
  bh_readdir tr fd names : host tr _ (Readdir fd) = Ok names -> Forall (fun e => Forall (fits 8) e.1) names;
  bh_readlink tr p len buf : host tr _ (Readlink p len) = Ok buf -> Forall (fits 8) buf;
  bh_getxattr tr fd n len p : host tr _ (Getxattr fd n len) = Ok p -> Forall (fits 8) p.2;
  bh_listxattr tr fd len p : host tr _ (Listxattr fd len) = Ok p -> Forall (fits 8) p.2;
}.
Context (Hbytes : ByteHost).

Definition Bytes (c : FS Server (list Z)) : Prop := forall s tr, wp c (fun r _ _ => forall p, r = Ok p -> Forall (fits 8) p) s tr.

Lemma Bytes_bind {A} (c : FS Server A) k : (forall a, Bytes (k a)) -> Bytes (c ≫= k).
Proof. intros H s tr. apply wp_bind. unfold wp at 1. destruct (c s tr) as [[[a|e] s'] tr']; [apply H|done]. Qed.

Lemma Bytes_call {A} (c : Sys A) (f : A -> list Z) :
  (forall tr a, host tr A c = Ok a -> Forall (fits 8) (f a)) -> Bytes (a ← call host c; mret (f a)).
Proof.
  intros H s tr. apply wp_bind. unfold wp at 1, call. destruct (host tr A c) as [a|e] eqn:E; [|done]. intros p [= <-]. by eapply H.
Qed.

Lemma Bytes_ret p : Forall (fits 8) p -> Bytes (mret p).
Proof. by intros H s tr _ [= <-]. Qed.
Lemma Bytes_fail e : Bytes (fail e).
Proof. done. Qed.
Lemma Bytes_if (b : bool) c1 c2 : Bytes c1 -> Bytes c2 -> Bytes (if b then c1 else c2).
Proof. by destruct b. Qed.

Lemma encode_attr_bytes a : Forall (fits 8) (encode_attr a).
Proof. unfold encode_attr. rewrite !Forall_app. split_and!; first [apply le_bytes_fits|by apply Forall_replicate]. Qed.
Lemma encode_entry_bytes n g a : Forall (fits 8) (encode_entry n g a).
Proof. unfold encode_entry. rewrite !Forall_app. split_and!; first [apply le_bytes_fits|apply encode_attr_bytes]. Qed.
Lemma dirent_record_bytes ino off typ name : Forall (fits 8) name -> Forall (fits 8) (dirent_record ino off typ name).
Proof. intros. unfold dirent_record. rewrite !Forall_app. split_and!; first [apply le_bytes_fits|apply zeros_fit|done]. Qed.

Lemma dirents_bytes plus offset size off names out :
  Forall (fun e => Forall (fits 8) e.1) names -> Forall (fits 8) out -> Forall (fits 8) (dirents plus offset size off names out).
Proof.
  intros Hn. revert off out. induction Hn as [|[name typ] names Hx _ IH]; intros off out Ho; cbn [dirents]; [done|].
  destruct (_ <=? _); [by apply IH|]. case_bool_decide; [done|]. apply IH. rewrite !Forall_app. split_and!; [done| |by apply dirent_record_bytes].
  destruct plus; [apply encode_entry_bytes|constructor].
Qed.

#[local] Hint Resolve le_bytes_fits encode_attr_bytes encode_entry_bytes zeros_fit : bytes.
Ltac bytes :=
  repeat first [apply Bytes_fail|apply Bytes_if|apply Bytes_ret; rewrite ?Forall_app; solve [auto with bytes|split_and!; auto with bytes|constructor]|
                apply Bytes_bind; intros ?|progress cbv zeta].

Lemma lookup_bytes hdr body : Bytes (lookup host host_uid host_gid hdr body).
Proof. unfold lookup. bytes. Qed.
Lemma getattr_bytes hdr : Bytes (getattr host host_uid host_gid hdr).
Proof. unfold getattr. bytes. Qed.
Lemma fsync_bytes body : Bytes (fsync host body).
Proof. unfold fsync. bytes. Qed.

Lemma init_bytes body : Bytes (init body).
Proof. unfold init. bytes. Qed.

Lemma readdir_bytes body plus : Bytes (readdir host body plus).
Proof.
  unfold readdir. do 2 (apply Bytes_bind; intros ?). intros s tr. apply wp_bind. unfold readdir_names. apply wp_bind. unfold wp at 1, call.
  destruct (host tr _ _) as [names|e] eqn:E; [|done]. apply wp_ret. intros p [= <-]. apply dirents_bytes; [|constructor].
  apply list.Forall_forall. intros e He. apply list_elem_of_In, filter_In in He as [He _]. apply list_elem_of_In, list_elem_of_fmap in He as (e0 & -> & He0).
  cbn [fst]. eapply list.Forall_forall in He0; [|exact (bh_readdir Hbytes _ _ _ E)]. unfold until_zero. case_match; [by apply Forall_take|done].
Qed.

Lemma xattr_bytes (c : FS Server (nat * list Z)) f :
  (forall s tr, wp c (fun r _ _ => forall p, r = Ok p -> Forall (fits 8) p.2) s tr) -> (forall p, Forall (fits 8) p.2 -> Forall (fits 8) (f p)) ->
  Bytes (p ← c; mret (f p)).
Proof.
  intros Hc Hf s tr. apply wp_bind. eapply wp_mono; [apply Hc|]. intros [p|e] s' tr' H; [|done]. intros q [= <-]. by apply Hf, H.
Qed.

Lemma getxattr_bytes hdr body : Bytes (getxattr host hdr body).
Proof.
  unfold getxattr. do 4 (apply Bytes_bind; intros ?). apply Bytes_if; [bytes|]. apply xattr_bytes; [|intros; by do 2 apply Forall_take].
  intros s tr. unfold xattr_get. apply wp_bind, wp_c_name; [intros _|done]. unfold wp, call. intros p. apply bh_getxattr, Hbytes.
Qed.
Lemma listxattr_bytes hdr body : Bytes (listxattr host hdr body).
Proof.
  unfold listxattr. do 2 (apply Bytes_bind; intros ?). apply Bytes_if; [bytes|]. apply xattr_bytes; [|intros; by do 2 apply Forall_take].
  intros s tr. unfold wp, xattr_list, call. intros p. apply bh_listxattr, Hbytes.
Qed.

Lemma access_bytes hdr body : Bytes (access hdr body).
Proof. unfold access. bytes. Qed.
Lemma setattr_bytes hdr body : Bytes (setattr host host_uid host_gid hdr body).
Proof. unfold setattr. bytes. Qed.
Lemma statfs_bytes : Bytes (statfs host).
Proof. unfold statfs. bytes. Qed.
Lemma open_bytes hdr body : Bytes (Virtiofs.open host hdr body).
Proof. unfold Virtiofs.open. bytes. Qed.
Lemma release_bytes body : Bytes (release host body).
Proof. unfold release. bytes. Qed.
Lemma read_bytes_ok body : Bytes (Virtiofs.read host body).
Proof.
  unfold Virtiofs.read. do 2 (apply Bytes_bind; intros ?). apply Bytes_if; [apply Bytes_fail|]. apply Bytes_call. intros tr buf H.
  apply Forall_take. by apply (bh_pread Hbytes) in H.
Qed.
Lemma write_bytes_ok body : Bytes (Virtiofs.write host body).
Proof. unfold Virtiofs.write. bytes. Qed.
Lemma flush_bytes body : Bytes (flush host body).
Proof. apply fsync_bytes. Qed.
Lemma mkdir_bytes hdr body : Bytes (mkdir host host_uid host_gid hdr body).
Proof. unfold mkdir. bytes. Qed.
Lemma create_bytes hdr body : Bytes (create host host_uid host_gid hdr body).
Proof. unfold create. bytes. Qed.
Lemma unlink_bytes hdr body rmdir : Bytes (unlink host hdr body rmdir).
Proof. unfold unlink. bytes. Qed.
Lemma rename_bytes hdr body rename2 : Bytes (rename host hdr body rename2).
Proof. unfold rename. bytes. Qed.
Lemma symlink_bytes hdr body : Bytes (symlink host host_uid host_gid hdr body).
Proof. unfold symlink. bytes. Qed.
Lemma readlink_bytes hdr : Bytes (readlink host hdr).
Proof.
  unfold readlink, readlink_fd. do 4 (apply Bytes_bind; intros ?). intros s tr. unfold wp, call. intros p. apply bh_readlink, Hbytes.
Qed.
Lemma setxattr_bytes hdr body : Bytes (setxattr host hdr body).
Proof. unfold setxattr. bytes. Qed.
Lemma removexattr_bytes hdr body : Bytes (removexattr host hdr body).
Proof. unfold removexattr. bytes. Qed.

#[local] Hint Resolve init_bytes lookup_bytes getattr_bytes setattr_bytes statfs_bytes access_bytes open_bytes release_bytes read_bytes_ok
  write_bytes_ok fsync_bytes flush_bytes mkdir_bytes create_bytes unlink_bytes rename_bytes readdir_bytes symlink_bytes readlink_bytes
  getxattr_bytes setxattr_bytes listxattr_bytes removexattr_bytes Bytes_fail : bytes.

Lemma serve_bytes hdr body : Bytes (Virtiofs.serve host host_uid host_gid hdr body).
Proof. unfold Virtiofs.serve. apply Bytes_bind. intros s. repeat apply Bytes_if; auto with bytes. Qed.

Lemma reply_bytes unique error payload : Forall (fits 8) payload -> Forall (fits 8) (reply unique error payload).
Proof. intros. unfold reply. rewrite !Forall_app. auto with bytes. Qed.

Lemma handle_bytes request s tr out : (handle host host_uid host_gid request s tr).1.1 = Some out -> Forall (fits 8) out.
Proof.
  unfold handle, dispatch. destruct (in_parse request) as [hdr|]; [|intros [= <-]; by apply reply_bytes].
  destruct (_ =? FORGET); [by destruct (forget _ _ _ _ _) as [[? ?] ?]|].
  pose proof (serve_bytes hdr (drop IN_HEADER request) s tr) as H. unfold wp in H.
  destruct (Virtiofs.serve _ _ _ _ _ _ _) as [[[p|e] s'] tr']; intros [= <-]; apply reply_bytes; [by apply H|done].
Qed.

(** ** The worker *)

Lemma write_bufs_inv mem bufs response offset :
  bm_inv mem -> Forall buf_ok bufs -> Forall (fits 8) response -> bm_inv (write_bufs mem bufs response offset).2.
Proof.
  intros Hm Hb Hf. revert mem offset Hm. induction Hb as [|b bufs (Ha & _) _ IH]; intros mem offset Hm; cbn [write_bufs]; [done|].
  case_bool_decide; [done|]. destruct (bm_write mem (buf_addr b) _) as [mem1|] eqn:Hw; [|done].
  apply bm_write_spec in Hw as (Hm1 & _); [by apply IH|done|done|by apply Forall_take, Forall_drop].
Qed.

Context (Hfresh : FreshFds host) (ro : bool) (root : list Z) (maxh : nat).
Definition state_ok (s : FsState) : Prop := Inv ro root maxh [] (fs_server s) (fs_trace s).

Lemma fs_step_ok mem c s : bm_inv mem -> chain_ok c -> state_ok s -> exists mem' s' used, fs_step mem c s = Some (mem', s', used) /\ bm_inv mem' /\ state_ok s'.
Proof.
  intros Hm Hc Hs. unfold fs_step, fs_write_chain.
  assert (exists response s1, match fs_read_chain mem c with
    | Some req => let '(out, sv, tr) := handle host host_uid host_gid req (fs_server s) (fs_trace s) in
                  (default [] out, {| fs_server := sv; fs_trace := tr; fs_stats := fs_stats s |})
    | None => ([], {| fs_server := fs_server s; fs_trace := fs_trace s; fs_stats := add_errors 1 (fs_stats s) |})
    end = (response, s1) /\ Forall (fits 8) response /\ state_ok s1) as (response & s1 & -> & Hf & Hs1).
  { destruct (fs_read_chain mem c) as [req|]; [|eexists _, _; split; [done|split; [constructor|done]]].
    pose proof (handle_bytes req (fs_server s) (fs_trace s)) as Hb. pose proof (handle_keep host host_uid host_gid Hfresh _ _ _ req _ _ Hs) as Hk.
    destruct (handle _ _ _ _ _ _) as [[out sv] tr]. eexists _, _. split; [done|]. split; [|done]. destruct out as [out|]; [by apply Hb|constructor]. }
  destruct (if bool_decide (response = []) then _ else _) as [used mem1] eqn:Hw. eexists _, _, _. split; [done|]. split; [|by destruct s1].
  case_bool_decide; [by simplify_eq|]. pose proof (write_bufs_inv mem (c_writable c) response 0 Hm (cn_writable _ Hc) Hf) as Hi. by rewrite Hw in Hi.
Qed.

Definition bound_ok (bound : gmap Z FsBound) : Prop := map_Forall (fun _ b => wf_queue (fb_queue b)) bound.
Definition fs_kick_ok (k : FsKick) : Prop :=
  match k with FsNotify n => fits 16 (n_size n) /\ fits 64 (n_desc n) /\ fits 64 (n_avail n) /\ fits 64 (n_used n) | FsReset => True end.

Lemma fs_serve_queue_ok b mem irq s : bm_inv mem -> wf_queue (fb_queue b) -> state_ok s ->
  exists b' mem' irq' s', fs_serve_queue b mem irq s = Some (b', mem', irq', s') /\ wf_queue (fb_queue b') /\ bm_inv mem' /\ state_ok s'.
Proof.
  intros Hm Hq Hs. unfold fs_serve_queue. destruct (chains_keeps mem FS_CHAINS (fb_queue b) Hm Hq) as [Hq1 Hcs].
  destruct (chains mem FS_CHAINS _) as [[q1 cs] fin]. cbn [fst snd] in *.
  destruct (serve_loop_ok fs_step state_ok fs_step_ok mem q1 cs s false Hm Hq1 Hcs Hs) as (mem2 & q2 & s2 & done_ & -> & Hm2 & Hq2 & Hs2).
  assert (wf_queue (if done_ then notification_needed q2 mem2 else (q2, false)).1) as Hq3 by (destruct done_; [by apply notification_keeps|done]).
  destruct (if done_ then _ else _) as [q3 needed]. eexists _, _, _, _. done.
Qed.

Lemma fs_serve_bound_ok order bound mem irq s : bm_inv mem -> bound_ok bound -> state_ok s ->
  exists bound' mem' irq' s', fs_serve_bound order bound mem irq s = Some (bound', mem', irq', s') /\ bound_ok bound' /\ bm_inv mem' /\ state_ok s'.
Proof.
  revert bound mem irq s. induction order as [|i order IH]; intros bound mem irq s Hm Hb Hs; cbn [fs_serve_bound]; [eexists _, _, _, _; done|].
  destruct (bound !! i) as [b|] eqn:Hi; [|by apply IH].
  destruct (fs_serve_queue_ok b mem irq s Hm (Hb _ _ Hi) Hs) as (b' & mem' & irq' & s' & -> & Hq & Hm' & Hs').
  apply IH; [done| |done]. by apply map_Forall_insert_2.
Qed.

Lemma fs_bind_queue_ok bound n : bound_ok bound -> fs_kick_ok (FsNotify n) -> bound_ok (fs_bind_queue bound n).
Proof.
  intros Hb (? & ? & ? & ?). unfold fs_bind_queue. destruct (_ <=? _); [done|]. case_match; [done|]. apply map_Forall_insert_2; [|done].
  by apply queue_new_wf.
Qed.

(** Notifications in order, each with the order in which the queues are visited. *)
Fixpoint fs_notifies (share : list Z) (opts : Options) (ks : list (QueueNotify * list Z)) (w : FsWorker) (mem : M) (irq : Irq) : option (FsWorker * M * Irq) :=
  match ks with
  | [] => Some (w, mem, irq)
  | (n, order) :: ks =>
      match fs_on_kick share opts order w mem irq (FsNotify n) with
      | Some (w, mem, irq) => fs_notifies share opts ks w mem irq
      | None => None
      end
  end.

Lemma fs_notifies_ok share opts ks w mem irq :
  Forall (fun k => fs_kick_ok (FsNotify k.1)) ks -> bm_inv mem -> bound_ok (fw_bound w) -> state_ok (fw_state w) ->
  exists w' mem' irq', fs_notifies share opts ks w mem irq = Some (w', mem', irq') /\ bm_inv mem' /\ bound_ok (fw_bound w') /\ state_ok (fw_state w').
Proof.
  intros Hk. revert w mem irq. induction Hk as [|[n order] ks Hn _ IH]; intros w mem irq Hm Hb Hs; cbn [fs_notifies fs_on_kick]; [eexists _, _, _; done|].
  destruct (fs_serve_bound_ok order _ mem irq _ Hm (fs_bind_queue_ok _ n Hb Hn) Hs) as (b' & mem' & irq' & s' & -> & Hb' & Hm' & Hs').
  by apply IH.
Qed.
End device.

Definition fs_no_stats : FsStats := {| fs_requests := 0; fs_bytes := 0; fs_errors := 0 |}.
Definition fs_worker_new (s : Server) (tr : list Event) : FsWorker :=
  {| fw_state := {| fs_server := s; fs_trace := tr; fs_stats := fs_no_stats |}; fw_bound := ∅ |}.

(** C16: The whole share, from the guest's rings to the host's system calls.
    After the worker opened its share, whatever the guest puts in its rings,
    descriptors and request bytes, and in whatever order the queues are visited,
    the worker serves every notification without a panic, the queues and guest
    memory stay sound, every system call it made was accepted by the share's
    monitor, and the descriptors still open are those of the server's tables. *)
Theorem fs_device_confined {M} `{!ByteMemory M} host host_uid host_gid share opts s u tr0 ks (mem : M) irq :
  FreshFds host -> ByteHost host -> server_open host share opts tt [] = (Ok s, u, tr0) ->
  Forall (fun k : QueueNotify * list Z => fs_kick_ok (FsNotify k.1)) ks -> bm_inv mem ->
  exists w mem' irq', fs_notifies host host_uid host_gid share opts ks (fs_worker_new s tr0) mem irq = Some (w, mem', irq') /\
    bm_inv mem' /\ bound_ok (fw_bound w) /\
    (short (fs_trace (fw_state w)) ->
     exists m, audit (op_read_only opts) (ta_root (sv_inodes s)) (fs_trace (fw_state w)) = Some m /\
       mo_live m = list_to_map ((., true) <$> owned (fs_server (fw_state w)))).
Proof.
  intros Hf Hb Ho Hk Hm. pose proof (server_open_inv host share opts s u tr0 Ho) as HI.
  destruct (fs_notifies_ok host host_uid host_gid Hb Hf _ _ _ share opts ks (fs_worker_new s tr0) mem irq Hk Hm (map_Forall_empty _) HI)
    as (w & mem' & irq' & Hr & Hm' & Hb' & Hs).
  exists w, mem', irq'. split; [exact Hr|]. split; [exact Hm'|]. split; [exact Hb'|]. intros Ht. exact (inv_audit _ _ _ _ _ _ (Hs Ht)).
Qed.

Lemma demo_bytes : ByteHost demo_host.
Proof.
  split; intros; simpl in *; simplify_eq; first [by apply Forall_replicate|by constructor|idtac].
  repeat (apply list.Forall_cons; split; [by apply all_bytes_fits|]). constructor.
Qed.

Definition demo_notify : QueueNotify :=
  {| n_index := 1; n_size := 4; n_desc := demo_base + 0x1000; n_avail := demo_base + 0x2000; n_used := demo_base + 0x3000; n_features := VIRTIO_F_INDIRECT_DESC |}.

Lemma fs_device_confined_witness :
  exists s u tr0, server_open demo_host (ascii_bytes "/s") demo_options tt [] = (Ok s, u, tr0) /\
  exists w mem' irq', fs_notifies demo_host 501 20 (ascii_bytes "/s") demo_options [(demo_notify, [1])] (fs_worker_new s tr0) demo_ram VirtioIrq.new
    = Some (w, mem', irq') /\ bm_inv mem' /\ bound_ok (fw_bound w) /\
    (short (fs_trace (fw_state w)) ->
     exists m, audit false (ta_root (sv_inodes s)) (fs_trace (fw_state w)) = Some m /\
       mo_live m = list_to_map ((., true) <$> owned (fs_server (fw_state w)))).
Proof.
  destruct (server_open demo_host (ascii_bytes "/s") demo_options tt []) as [[[s|] u] tr0] eqn:E; [|vm_compute in E; discriminate E].
  exists s, u, tr0. split; [reflexivity|]. 
  apply (fs_device_confined demo_host 501 20 (ascii_bytes "/s") demo_options s u tr0 [(demo_notify, [1])] demo_ram VirtioIrq.new demo_fresh demo_bytes E).
  - constructor; [|constructor]. split; [fits_closed|]. split; [fits_closed|]. split; fits_closed.
  - exact demo_ram_wf.
Defined.
