(* ===== verification/QueueWorker.v ===== *)
(** * Workers over bound queues

    What the small virtio devices share: a queue is bound to the addresses of
    the notification that named it, bound again when they change, and drained
    with one step per chain.  The devices are proved against the lemmas here. *)

From S2P Require Import Prelude GuestMemory VirtioQueue QueueDevice VirtioIrq VirtioCore.

Record Bound := { bd_key : Z * Z * Z * Z; bd_queue : SplitQueue }.

Definition notify_key (n : QueueNotify) : Z * Z * Z * Z := (n_size n, n_desc n, n_avail n, n_used n).

(** A queue at the notification's addresses. *)
Definition queue_of (n : QueueNotify) : SplitQueue :=
  VirtioQueue.new (n_size n) (n_desc n) (n_avail n) (n_used n)
    (negb (Z.land (n_features n) VIRTIO_F_INDIRECT_DESC =? 0)) (negb (Z.land (n_features n) VIRTIO_F_EVENT_IDX =? 0)).

(** The binding after a notification: kept when the addresses are the same. *)
Definition rebind (n : QueueNotify) (slot : option Bound) : Bound :=
  match slot with
  | Some b => if bool_decide (bd_key b = notify_key n) then b else {| bd_key := notify_key n; bd_queue := queue_of n |}
  | None => {| bd_key := notify_key n; bd_queue := queue_of n |}
  end.

Definition with_queue (b : Bound) (q : SplitQueue) : Bound := {| bd_key := bd_key b; bd_queue := q |}.

(** Enough pops to drain a queue of any size: the available index is 16 bits. *)
Definition DRAIN : nat := Z.to_nat (2 ^ 16).

(** The values a transport puts in a notification. *)
Definition notify_fits (n : QueueNotify) : Prop := fits 16 (n_size n) /\ fits 64 (n_desc n) /\ fits 64 (n_avail n) /\ fits 64 (n_used n).
Definition bound_wf (b : Bound) : Prop := wf_queue (bd_queue b).
Definition slot_ok (slot : option Bound) : Prop := forall b, slot = Some b -> bound_wf b.

Lemma queue_of_wf n : notify_fits n -> wf_queue (queue_of n).
Proof. intros (? & ? & ? & ?). by apply queue_new_wf. Qed.

Lemma rebind_wf n slot : notify_fits n -> slot_ok slot -> bound_wf (rebind n slot).
Proof.
  intros Hn Hs. unfold rebind. destruct slot as [b|]; [case_bool_decide; [by apply Hs|]|]; by apply queue_of_wf.
Qed.

(** No queue is bound. *)
Lemma no_slots_ok k i : slot_ok (mjoin (replicate k (@None Bound) !! i)).
Proof. intros b. destruct (replicate k None !! i) as [o|] eqn:E; [|done]. by apply lookup_replicate in E as [-> _]. Qed.

Section drain.
Context {M : Type} `{!ByteMemory M} {S : Type} (step : M -> Chain -> S -> option (M * S * Z)).

(** Take what is available and serve it; [None] when something panics. *)
Definition drain (q : SplitQueue) (mem : M) (s : S) : option (SplitQueue * M * S * bool) :=
  let '(q, cs, _) := chains mem DRAIN q in
  match serve_loop step mem q cs s false with
  | Some (mem, q, s, completed) => Some (q, mem, s, completed)
  | None => None
  end.

(** The same, and an interrupt when the driver wants one. *)
Definition drain_notify (b : Bound) (mem : M) (irq : Irq) (vring : Z) (s : S) : option (Bound * M * Irq * S) :=
  match drain (bd_queue b) mem s with
  | None => None
  | Some (q, mem, s, completed) =>
      let '(q, needed) := if completed then notification_needed q mem else (q, false) in
      Some (with_queue b q, mem, (if needed then raise vring irq else irq), s)
  end.

Context (P : S -> Prop).
Hypothesis step_ok : forall mem c s, bm_inv mem -> chain_ok c -> P s ->
  exists mem' s' used, step mem c s = Some (mem', s', used) /\ bm_inv mem' /\ P s'.

Lemma drain_ok q mem s : bm_inv mem -> wf_queue q -> P s ->
  exists q' mem' s' completed, drain q mem s = Some (q', mem', s', completed) /\ wf_queue q' /\ bm_inv mem' /\ P s'.
Proof.
  intros Hm Hq Hs. unfold drain. destruct (chains_keeps mem DRAIN q Hm Hq) as [Hq1 Hcs]. destruct (chains mem DRAIN q) as [[q1 cs] fin]. cbn [fst snd] in *.
  destruct (serve_loop_ok step P step_ok mem q1 cs s false Hm Hq1 Hcs Hs) as (mem2 & q2 & s2 & c2 & -> & ? & ? & ?). eexists _, _, _, _. done.
Qed.

Lemma finish_wf (completed : bool) q mem : wf_queue q -> wf_queue (if completed then notification_needed q mem else (q, false)).1.
Proof. intros. destruct completed; [by apply notification_keeps|done]. Qed.

Lemma drain_notify_ok b mem irq vring s : bm_inv mem -> bound_wf b -> P s ->
  exists b' mem' irq' s', drain_notify b mem irq vring s = Some (b', mem', irq', s') /\ bound_wf b' /\ bm_inv mem' /\ P s'.
Proof.
  intros Hm Hb Hs. unfold drain_notify. destruct (drain_ok (bd_queue b) mem s Hm Hb Hs) as (q & mem' & s' & c & -> & Hq & Hm' & Hs').
  pose proof (finish_wf c q mem' Hq) as Hf. destruct (if c then _ else _) as [q2 needed]. eexists _, _, _, _. done.
Qed.
End drain.

(** Bytes of readable buffers, those that are not mapped left out. *)
Section buffers.
Context {M : Type} `{!ByteMemory M}.

Definition read_mapped (mem : M) (bufs : list Buffer) : list Z :=
  bufs ≫= fun b => match bm_read mem (buf_addr b) (Z.to_nat (buf_len b)) with Ok bs => bs | Err _ => [] end.

Lemma read_mapped_fits mem bufs : bm_inv mem -> Forall buf_ok bufs -> Forall (fits 8) (read_mapped mem bufs).
Proof.
  intros Hm. induction 1 as [|b bufs (Ha & _) _ IH]; [constructor|]. unfold read_mapped. cbn [mbind list_bind]. apply Forall_app. split; [|done].
  destruct (bm_read mem _ _) as [bs|] eqn:E; [exact (bm_read_fits mem _ _ bs Hm Ha E)|constructor].
Qed.

(** A write to the first buffer that may fail. *)
Definition write_or_keep (mem : M) (a : Z) (bs : list Z) : bool * M := match bm_write mem a bs with Ok m => (true, m) | Err _ => (false, mem) end.

Lemma write_or_keep_inv mem a bs : bm_inv mem -> 0 <= a -> Forall (fits 8) bs -> bm_inv (write_or_keep mem a bs).2.
Proof. intros Hm Ha Hf. unfold write_or_keep. destruct (bm_write mem a bs) as [m|] eqn:E; [|done]. by apply bm_write_spec in E as (? & _). Qed.
End buffers.

(** Scattering over writable buffers: as much of the data as goes before the
    first buffer that is not mapped; the result is what was written. *)
Section scatter.
Context {M : Type} `{!ByteMemory M}.

Fixpoint scatter (mem : M) (bufs : list Buffer) (data : list Z) : M * nat :=
  match bufs with
  | [] => (mem, 0%nat)
  | b :: bufs =>
      if bool_decide (data = []) then (mem, 0%nat)
      else
        let n := Nat.min (Z.to_nat (buf_len b)) (length data) in
        match bm_write mem (buf_addr b) (take n data) with
        | Err _ => (mem, 0%nat)
        | Ok mem => let '(mem, k) := scatter mem bufs (drop n data) in (mem, (n + k)%nat)
        end
  end.

Lemma scatter_spec bufs : forall mem data, bm_inv mem -> Forall buf_ok bufs -> Forall (fits 8) data ->
  bm_inv (scatter mem bufs data).1 /\ ((scatter mem bufs data).2 <= length data)%nat.
Proof.
  induction bufs as [|b bufs IH]; intros mem data Hm Hb Hd; cbn [scatter]; [split; [done|cbn; lia]|]. case_bool_decide; [split; [done|cbn; lia]|].
  apply Forall_cons_iff in Hb as [(Ha & _) Hb]. destruct (bm_write mem _ _) as [m1|] eqn:W; [|split; [done|cbn; lia]].
  apply bm_write_spec in W as (Hm1 & _); [|done|done|by apply Forall_take].
  destruct (IH m1 (drop (Nat.min (Z.to_nat (buf_len b)) (length data)) data) Hm1 Hb) as [I1 I2]; [by apply Forall_drop|].
  destruct (scatter m1 bufs _) as [m2 k]. cbn in *. rewrite length_drop in I2. split; [done|lia].
Qed.
End scatter.

(** Chains taken one at a time, while [more] says so: each is served and completed
    before the next is taken.  [fuel] rounds at most; the last component says
    whether the loop ended by itself. *)
Section pops.
Context {M : Type} `{!ByteMemory M} {S : Type} (more : S -> bool) (step : M -> Chain -> S -> M * S * Z).

Fixpoint pop_loop (fuel : nat) (mem : M) (q : SplitQueue) (s : S) (completed : bool) : option (M * SplitQueue * S * bool * bool) :=
  match fuel with
  | O => Some (mem, q, s, completed, false)
  | Datatypes.S fuel =>
      if negb (more s) then Some (mem, q, s, completed, true)
      else match pop mem q with
           | (q, Stop) => Some (mem, q, s, completed, true)
           | (_, Panic) => None
           | (q, Ret c) =>
               let '(mem, s, used) := step mem c s in
               match add_used q mem (c_head c) used with
               | (q, mem, Ret b) => pop_loop fuel mem q s (completed || b)
               | _ => None
               end
           end
  end.

Context (P : S -> Prop).
Hypothesis step_ok : forall mem c s, bm_inv mem -> chain_ok c -> P s -> more s = true -> bm_inv (step mem c s).1.1 /\ P (step mem c s).1.2.

Lemma pop_loop_ok fuel : forall mem q s completed, bm_inv mem -> wf_queue q -> P s ->
  exists mem' q' s' completed' fin, pop_loop fuel mem q s completed = Some (mem', q', s', completed', fin) /\ bm_inv mem' /\ wf_queue q' /\ P s'.
Proof.
  induction fuel as [|fuel IH]; intros mem q s completed Hm Hq Hs; cbn [pop_loop]; [by eexists _, _, _, _, _|].
  destruct (more s) eqn:Em; cbn [negb]; [|by eexists _, _, _, _, _]. pose proof (pop_keeps mem q Hm Hq) as Hp.
  destruct (pop mem q) as [q1 [c| |]]; [|by eexists _, _, _, _, _|done]. destruct Hp as [Hq1 Hc].
  pose proof (step_ok mem c s Hm Hc Hs Em) as [Hm1 Hs1]. destruct (step mem c s) as [[m1 s1] used]. cbn [fst snd] in *.
  pose proof (add_used_keeps m1 q1 (c_head c) used Hm1 Hq1) as Hu. destruct (add_used q1 m1 (c_head c) used) as [[q2 m2] [b| |]]; try done.
  destruct Hu as (Hq2 & Hm2 & _). by apply IH.
Qed.
End pops.
