(* ===== verification/VirtioNet.v ===== *)
(** * The virtio-net device

    Model of [ternvale-devices/src/virtio/net.rs], [net/worker.rs],
    [net/backend.rs], [net/loopback.rs], [net/packet.rs] and [net/pcap.rs].  The
    trait [NetBackend] is a class; the loopback gateway, the user-mode NAT of
    [UserNet] and the policy filter of [NetPolicy] in front of it are instances.
    One message of [Worker::run] is [net_on_kick].  What the host decides (the
    sockets behind the NAT, the clock, the capture file) is given per call by
    functions of the number of calls made before. *)

From stdpp Require Import list strings gmap.
From S2P Require Import Prelude GuestMemory VirtioQueue QueueDevice VirtioIrq VirtioCore NetPacket NetPolicy UserNet.

Definition VIRTIO_NET_ID : Z := 1.
Definition VIRTIO_NET_F_MAC : Z := Z.shiftl 1 5.
Definition VIRTIO_NET_F_MRG_RXBUF : Z := Z.shiftl 1 15.
Definition VIRTIO_NET_F_STATUS : Z := Z.shiftl 1 16.
Definition VIRTIO_NET_S_LINK_UP : Z := 1.
Definition NET_HDR_LEN : nat := 12.
Definition MAX_FRAME : Z := 65535.
Definition DEFAULT_MAC : list Z := [0x52; 0x54; 0x00; 0x12; 0x34; 0x56].
Definition RX_QUEUE : Z := 0.
Definition TX_QUEUE : Z := 1.

Inductive NetError :=
| NSpawn | NBadSlot (slot : Z) | NPcap | NUnknownBackend (name : string) | NUnsupported (backend : string) | NVmnet | NUser.

Record NetStats := { ns_tx_packets : Z; ns_tx_bytes : Z; ns_tx_dropped : Z; ns_rx_packets : Z; ns_rx_bytes : Z; ns_rx_dropped : Z }.
Definition net_no_stats : NetStats :=
  {| ns_tx_packets := 0; ns_tx_bytes := 0; ns_tx_dropped := 0; ns_rx_packets := 0; ns_rx_bytes := 0; ns_rx_dropped := 0 |}.

Definition count_tx (frame : list Z) (t : NetStats) : NetStats :=
  {| ns_tx_packets := add_w 64 (ns_tx_packets t) 1; ns_tx_bytes := add_w 64 (ns_tx_bytes t) (Z.of_nat (length frame)); ns_tx_dropped := ns_tx_dropped t;
     ns_rx_packets := ns_rx_packets t; ns_rx_bytes := ns_rx_bytes t; ns_rx_dropped := ns_rx_dropped t |}.
Definition count_tx_drop (t : NetStats) : NetStats :=
  {| ns_tx_packets := ns_tx_packets t; ns_tx_bytes := ns_tx_bytes t; ns_tx_dropped := add_w 64 (ns_tx_dropped t) 1;
     ns_rx_packets := ns_rx_packets t; ns_rx_bytes := ns_rx_bytes t; ns_rx_dropped := ns_rx_dropped t |}.
Definition count_rx (frame : list Z) (t : NetStats) : NetStats :=
  {| ns_tx_packets := ns_tx_packets t; ns_tx_bytes := ns_tx_bytes t; ns_tx_dropped := ns_tx_dropped t;
     ns_rx_packets := add_w 64 (ns_rx_packets t) 1; ns_rx_bytes := add_w 64 (ns_rx_bytes t) (Z.of_nat (length frame)); ns_rx_dropped := ns_rx_dropped t |}.
Definition count_rx_drop (t : NetStats) : NetStats :=
  {| ns_tx_packets := ns_tx_packets t; ns_tx_bytes := ns_tx_bytes t; ns_tx_dropped := ns_tx_dropped t;
     ns_rx_packets := ns_rx_packets t; ns_rx_bytes := ns_rx_bytes t; ns_rx_dropped := add_w 64 (ns_rx_dropped t) 1 |}.

(** ** Configuration space ([net.rs]) *)

Definition net_features : Z := Z.lor VIRTIO_NET_F_MAC VIRTIO_NET_F_STATUS.
Definition net_read_le (bytes : list Z) (offset size : Z) : Z :=
  let start := Z.to_nat offset in
  if bool_decide (length bytes <= start)%nat then 0
  else of_le (take (Nat.min (Nat.min (Z.to_nat size) 8) (length bytes - start)) (drop start bytes)).
Definition net_read_config (mac : list Z) (link : Z) (offset size : Z) : Z := net_read_le (mac ++ le_bytes 2 link) offset size.

(** ** Summaries and the checksum ([packet.rs]) *)

(** An assignment to a range of an array. *)
Definition put_bytes (i : nat) (new l : list Z) : list Z := take i l ++ new ++ drop (i + length new) l.

Inductive Kind :=
| Arp (op : Z) (spa tpa : list Z)
| KIpv4 (proto : Z) (src dst : list Z) (total_len : Z) (icmp : option (Z * Z))
| Other.
Record Summary := { su_dst : list Z; su_src : list Z; su_ethertype : Z; su_len : nat; su_kind : Kind }.

Definition at_ (bs : list Z) (i : nat) : Z := default 0 (bs !! i).
Definition be16_at (bs : list Z) (i : nat) : Z := of_be (take 2 (drop i bs)).

Definition summarize (frame : list Z) : option Summary :=
  if bool_decide (length frame < 14)%nat then None
  else
    let ethertype := be16_at frame 12 in
    let body := drop 14 frame in
    let kind :=
      if (ethertype =? ETHERTYPE_ARP) && bool_decide (28 <= length body)%nat
      then Arp (be16_at body 6) (take 4 (drop 14 body)) (take 4 (drop 24 body))
      else if (ethertype =? ETHERTYPE_IPV4) && bool_decide (20 <= length body)%nat && (Z.shiftr (at_ body 0) 4 =? 4) then
        let ihl := Z.to_nat (Z.land (at_ body 0) 0x0f * 4) in
        let proto := at_ body 9 in
        let icmp := if (proto =? 1) && bool_decide (ihl + 2 <= length body)%nat then Some (at_ body ihl, at_ body (ihl + 1)) else None in
        KIpv4 proto (take 4 (drop 12 body)) (take 4 (drop 16 body)) (be16_at body 2) icmp
      else Other in
    Some {| su_dst := take 6 frame; su_src := take 6 (drop 6 frame); su_ethertype := ethertype; su_len := length frame; su_kind := kind |}.

(** The sum is a [u32]; three folds bring any such sum below 2^16. *)
Definition net_checksum (bytes : list Z) : Z := not_w 16 (wrap 16 (fold_carries 3 (sum_words bytes 0))).

(** ** The loopback gateway ([loopback.rs]) *)

Definition MAX_QUEUED : nat := 64.
Definition ARP_LEN : nat := 28.
Definition ICMP_ECHO_REPLY : Z := 0.
Definition ICMP_ECHO_REQUEST : Z := 8.

Definition lo_arp_reply (frame : list Z) : option (list Z) :=
  if bool_decide (length frame < ETH_HLEN + ARP_LEN)%nat then None
  else
    let arp := take ARP_LEN (drop ETH_HLEN frame) in
    if negb (be16_at arp 0 =? 1) || negb (be16_at arp 2 =? ETHERTYPE_IPV4) || negb (at_ arp 4 =? 6) || negb (at_ arp 5 =? 4) || negb (be16_at arp 6 =? 1)
    then None
    else
      let sha := take 6 (drop 8 arp) in
      let spa := take 4 (drop 14 arp) in
      let tpa := take 4 (drop 24 arp) in
      if negb (bool_decide (tpa = GATEWAY_IP)) then None
      else Some (sha ++ GATEWAY_MAC ++ be_bytes 2 ETHERTYPE_ARP ++ [0; 1; 0x08; 0x00; 6; 4; 0; 2] ++ GATEWAY_MAC ++ GATEWAY_IP ++ sha ++ spa).

Definition lo_echo_reply (frame : list Z) : option (list Z) :=
  if bool_decide (length frame < ETH_HLEN)%nat then None
  else
    let ip := drop ETH_HLEN frame in
    if bool_decide (length ip < 20)%nat || negb (Z.shiftr (at_ ip 0) 4 =? 4) then None
    else
      let ihl := Z.to_nat (Z.land (at_ ip 0) 0x0f * 4) in
      let total := Z.to_nat (be16_at ip 2) in
      if bool_decide (ihl < 20)%nat || bool_decide (total < ihl + 8)%nat || bool_decide (length ip < total)%nat then None
      else if negb (Z.land (be16_at ip 6) 0x3fff =? 0) || negb (at_ ip 9 =? IP_PROTO_ICMP) || negb (bool_decide (take 4 (drop 16 ip) = GATEWAY_IP)) then None
      else if negb (net_checksum (take ihl ip) =? 0) then None
      else
        let icmp := take (total - ihl) (drop ihl ip) in
        if negb (at_ icmp 0 =? ICMP_ECHO_REQUEST) || negb (at_ icmp 1 =? 0) then None
        else if negb (net_checksum icmp =? 0) then None
        else
          let header := put_bytes 16 (take 4 (drop 12 ip)) (put_bytes 12 GATEWAY_IP (put_bytes 10 [0; 0] (put_bytes 8 [REPLY_TTL] (take ihl ip)))) in
          let header := put_bytes 10 (be_bytes 2 (net_checksum header)) header in
          let body := put_bytes 2 [0; 0] (put_bytes 0 [ICMP_ECHO_REPLY] icmp) in
          let body := put_bytes 2 (be_bytes 2 (net_checksum body)) body in
          Some (take 6 (drop 6 frame) ++ GATEWAY_MAC ++ be_bytes 2 ETHERTYPE_IPV4 ++ header ++ body).

Record LoopbackBackend := { lo_replies : list (list Z) }.
Definition lo_queue (frame : list Z) (b : LoopbackBackend) : LoopbackBackend :=
  if bool_decide (MAX_QUEUED <= length (lo_replies b))%nat then b else {| lo_replies := lo_replies b ++ [frame] |}.
Definition lo_send (frame : list Z) (b : LoopbackBackend) : LoopbackBackend :=
  if bool_decide (length frame < ETH_HLEN)%nat then b
  else
    let ethertype := be16_at frame 12 in
    let reply := if ethertype =? ETHERTYPE_ARP then lo_arp_reply frame else if ethertype =? ETHERTYPE_IPV4 then lo_echo_reply frame else None in
    match reply with Some r => lo_queue r b | None => b end.

(** ** Backends ([backend.rs]) *)

Class NetBackend (B : Type) := {
  be_send : list Z -> B -> result NetError unit * B;
  be_recv : B -> result NetError (option (list Z)) * B;
  be_link_up : B -> bool;
  be_guest_mac : B -> option (list Z);
  be_attach_policy : list Z -> B -> B;
}.

#[export] Instance loopback_backend : NetBackend LoopbackBackend := {|
  be_send f b := (Ok tt, lo_send f b);
  be_recv b := match lo_replies b with [] => (Ok None, b) | f :: rest => (Ok (Some f), {| lo_replies := rest |}) end;
  be_link_up _ := true;
  be_guest_mac _ := None;
  be_attach_policy _ b := b;
|}.

(** The NAT, with the calls made so far and the host's answers to each. *)
Record UserBackend := { ub_inner : UserNet; ub_calls : nat; ub_send_host : nat -> SendHost; ub_poll_host : nat -> PollHost }.
Definition ub_step (n : UserNet) (b : UserBackend) : UserBackend :=
  {| ub_inner := n; ub_calls := S (ub_calls b); ub_send_host := ub_send_host b; ub_poll_host := ub_poll_host b |}.

#[export] Instance user_backend : NetBackend UserBackend := {|
  be_send f b := (Ok tt, ub_step (UserNet.send (ub_send_host b (ub_calls b)) f (ub_inner b)) b);
  be_recv b := let '(f, n) := UserNet.poll (ub_poll_host b (ub_calls b)) (ub_inner b) in (Ok f, ub_step n b);
  be_link_up _ := true;
  be_guest_mac _ := None;
  be_attach_policy _ b := b;
|}.

(** The policy filter, with its clock and the drops it recorded. *)
Record PolicyBackend (B : Type) := { pb_inner : B; pb_policy : PolicyEngine; pb_calls : nat; pb_clock : nat -> Z; pb_drops : list DropRule }.
Arguments pb_inner {B} _.
Arguments pb_policy {B} _.
Arguments pb_calls {B} _.
Arguments pb_clock {B} _.
Arguments pb_drops {B} _.
Definition pb_step {B} (inner : B) (e : PolicyEngine) (drops : list DropRule) (b : PolicyBackend B) : PolicyBackend B :=
  {| pb_inner := inner; pb_policy := e; pb_calls := S (pb_calls b); pb_clock := pb_clock b; pb_drops := drops |}.
Definition pb_wrap {B} (inner : B) (policy : PolicyEngine) (clock : nat -> Z) : PolicyBackend B :=
  {| pb_inner := inner; pb_policy := policy; pb_calls := 0; pb_clock := clock; pb_drops := [] |}.

#[export] Instance policy_backend {B} `{!NetBackend B} : NetBackend (PolicyBackend B) := {|
  be_send f b :=
    match decide_tx f (pb_clock b (pb_calls b)) (pb_policy b) with
    | (Some rule, e) => (Ok tt, pb_step (pb_inner b) e (pb_drops b ++ [rule]) b)
    | (None, e) => let '(r, inner) := be_send f (pb_inner b) in (r, pb_step inner e (pb_drops b) b)
    end;
  be_recv b :=
    match be_recv (pb_inner b) with
    | (Ok (Some f), inner) => (Ok (Some f), pb_step inner (observe_rx f (pb_policy b)) (pb_drops b) b)
    | (r, inner) => (r, pb_step inner (pb_policy b) (pb_drops b) b)
    end;
  be_link_up b := be_link_up (pb_inner b);
  be_guest_mac b := be_guest_mac (pb_inner b);
  be_attach_policy mac b :=
    {| pb_inner := pb_inner b; pb_policy := NetPolicy.set_mac mac (pb_policy b); pb_calls := pb_calls b; pb_clock := pb_clock b; pb_drops := pb_drops b |};
|}.

(** ** Captures ([pcap.rs]) *)

Definition MAGIC : Z := 0xa1b2c3d4.
Definition VERSION_MAJOR : Z := 2.
Definition VERSION_MINOR : Z := 4.
Definition LINKTYPE_ETHERNET : Z := 1.

(** A capture file; the clock and whether a write succeeds are given per record. *)
Record PcapWriter := { pw_file : list Z; pw_packets : Z; pw_now : Z -> Z * Z; pw_disk : Z -> bool }.

Definition pcap_header : list Z :=
  le_bytes 4 MAGIC ++ le_bytes 2 VERSION_MAJOR ++ le_bytes 2 VERSION_MINOR ++ le_bytes 4 0 ++ le_bytes 4 0 ++ le_bytes 4 MAX_FRAME ++ le_bytes 4 LINKTYPE_ETHERNET.
Definition pcap_create (now : Z -> Z * Z) (disk : Z -> bool) : PcapWriter := {| pw_file := pcap_header; pw_packets := 0; pw_now := now; pw_disk := disk |}.

Definition pcap_record (now : Z * Z) (frame : list Z) : list Z :=
  let len := Z.min (Z.of_nat (length frame)) MAX_FRAME in
  le_bytes 4 (wrap 32 now.1) ++ le_bytes 4 now.2 ++ le_bytes 4 len ++ le_bytes 4 (wrap 32 (Z.of_nat (length frame))) ++ take (Z.to_nat len) frame.
Definition pcap_write (frame : list Z) (w : PcapWriter) : result NetError PcapWriter :=
  if pw_disk w (pw_packets w)
  then Ok {| pw_file := pw_file w ++ pcap_record (pw_now w (pw_packets w)) frame; pw_packets := add_w 64 (pw_packets w) 1; pw_now := pw_now w; pw_disk := pw_disk w |}
  else Err NPcap.

(** ** The worker ([worker.rs]) *)

Definition NET_INT_VRING : Z := 1.
Definition NET_INT_CONFIG : Z := 2.
Definition HDR_F_NEEDS_CSUM : Z := 1.
Definition GSO_NONE : Z := 0.

Inductive NetKick := NNotify (n : QueueNotify) | NReset | NTimeout.
Record NetBound := { nb_key : Z * Z * Z * Z; nb_queue : SplitQueue }.

Record NetWorker (B : Type) := {
  nw_backend : B; nw_stats : NetStats; nw_link : Z; nw_generation : Z; nw_pcap : option PcapWriter; nw_rx : option NetBound; nw_tx : option NetBound;
  nw_pending : option (list Z);
}.
Arguments nw_backend {B} _.
Arguments nw_stats {B} _.
Arguments nw_link {B} _.
Arguments nw_generation {B} _.
Arguments nw_pcap {B} _.
Arguments nw_rx {B} _.
Arguments nw_tx {B} _.
Arguments nw_pending {B} _.

Definition net_notify_key (n : QueueNotify) : Z * Z * Z * Z := (n_size n, n_desc n, n_avail n, n_used n).
Definition net_bind_slot (n : QueueNotify) (slot : option NetBound) : option NetBound :=
  if match slot with Some b => bool_decide (nb_key b = net_notify_key n) | None => false end then slot
  else Some {| nb_key := net_notify_key n;
               nb_queue := VirtioQueue.new (n_size n) (n_desc n) (n_avail n) (n_used n)
                 (negb (Z.land (n_features n) VIRTIO_F_INDIRECT_DESC =? 0)) (negb (Z.land (n_features n) VIRTIO_F_EVENT_IDX =? 0)) |}.

Section worker.
Context {B : Type} `{!NetBackend B}.
Implicit Types w : NetWorker B.

Definition net_set_queues (rx tx : option NetBound) w : NetWorker B :=
  {| nw_backend := nw_backend w; nw_stats := nw_stats w; nw_link := nw_link w; nw_generation := nw_generation w; nw_pcap := nw_pcap w; nw_rx := rx; nw_tx := tx;
     nw_pending := nw_pending w |}.
Definition net_set_pending (p : option (list Z)) w : NetWorker B :=
  {| nw_backend := nw_backend w; nw_stats := nw_stats w; nw_link := nw_link w; nw_generation := nw_generation w; nw_pcap := nw_pcap w; nw_rx := nw_rx w;
     nw_tx := nw_tx w; nw_pending := p |}.
Definition net_set_backend (b : B) w : NetWorker B :=
  {| nw_backend := b; nw_stats := nw_stats w; nw_link := nw_link w; nw_generation := nw_generation w; nw_pcap := nw_pcap w; nw_rx := nw_rx w; nw_tx := nw_tx w;
     nw_pending := nw_pending w |}.
Definition net_set_stats (t : NetStats) w : NetWorker B :=
  {| nw_backend := nw_backend w; nw_stats := t; nw_link := nw_link w; nw_generation := nw_generation w; nw_pcap := nw_pcap w; nw_rx := nw_rx w; nw_tx := nw_tx w;
     nw_pending := nw_pending w |}.
Definition net_set_pcap (p : option PcapWriter) w : NetWorker B :=
  {| nw_backend := nw_backend w; nw_stats := nw_stats w; nw_link := nw_link w; nw_generation := nw_generation w; nw_pcap := p; nw_rx := nw_rx w; nw_tx := nw_tx w;
     nw_pending := nw_pending w |}.

Definition net_bind (n : QueueNotify) w : NetWorker B :=
  if n_index n =? RX_QUEUE then net_set_queues (net_bind_slot n (nw_rx w)) (nw_tx w) w
  else if n_index n =? TX_QUEUE then net_set_queues (nw_rx w) (net_bind_slot n (nw_tx w)) w
  else w.

Definition sync_link w (irq : Irq) : NetWorker B * Irq :=
  let want := if be_link_up (nw_backend w) then VIRTIO_NET_S_LINK_UP else 0 in
  if nw_link w =? want then (w, irq)
  else ({| nw_backend := nw_backend w; nw_stats := nw_stats w; nw_link := want; nw_generation := add_w 32 (nw_generation w) 1; nw_pcap := nw_pcap w;
           nw_rx := nw_rx w; nw_tx := nw_tx w; nw_pending := nw_pending w |}, raise NET_INT_CONFIG irq).

Definition capture (frame : list Z) w : NetWorker B :=
  match nw_pcap w with
  | None => w
  | Some p => match pcap_write frame p with Ok p => net_set_pcap (Some p) w | Err _ => net_set_pcap None w end
  end.

Context {M : Type} `{!ByteMemory M}.

Fixpoint gather_tx (mem : M) (bufs : list Buffer) : option (list Z) :=
  match bufs with
  | [] => Some []
  | b :: bufs => match bm_read mem (buf_addr b) (Z.to_nat (buf_len b)) with
                 | Err _ => None
                 | Ok chunk => match gather_tx mem bufs with Some rest => Some (chunk ++ rest) | None => None end
                 end
  end.

Definition bufs_total (bufs : list Buffer) : Z := foldr (fun b n => buf_len b + n) 0 bufs.

Definition read_tx (mem : M) (c : Chain) : option (list Z) :=
  if negb (bool_decide (c_writable c = [])) then None
  else
    let total := Z.min (bufs_total (c_readable c)) (2 ^ 64 - 1) in
    if Z.of_nat NET_HDR_LEN + MAX_FRAME <? total then None
    else if total <? Z.of_nat (NET_HDR_LEN + ETH_HLEN) then None
    else match gather_tx mem (c_readable c) with
         | None => None
         | Some bytes =>
             if negb (Z.land (at_ bytes 0) HDR_F_NEEDS_CSUM =? 0) then None
             else if negb (at_ bytes 1 =? GSO_NONE) then None
             else Some (drop NET_HDR_LEN bytes)
         end.

Definition rx_header : list Z := replicate 10 0 ++ le_bytes 2 1.

(** The bytes before a buffer that is not mapped stay written. *)
Fixpoint scatter_rx (mem : M) (bufs : list Buffer) (bytes : list Z) : bool * M :=
  match bufs with
  | [] => (true, mem)
  | b :: bufs =>
      if bool_decide (bytes = []) then (true, mem)
      else
        let n := Nat.min (Z.to_nat (buf_len b)) (length bytes) in
        match bm_write mem (buf_addr b) (take n bytes) with
        | Err _ => (false, mem)
        | Ok mem => scatter_rx mem bufs (drop n bytes)
        end
  end.

Definition write_rx (mem : M) (c : Chain) (frame : list Z) : Z * M :=
  if negb (bool_decide (c_readable c = [])) then (0, mem)
  else
    let capacity := bufs_total (c_writable c) in
    let needed := Z.of_nat (NET_HDR_LEN + length frame) in
    if (MAX_FRAME <? Z.of_nat (length frame)) || (capacity <? needed) then (0, mem)
    else match scatter_rx mem (c_writable c) (rx_header ++ frame) with
         | (true, mem) => (wrap 32 needed, mem)
         | (false, mem) => (0, mem)
         end.

(** One TX chain: its frame, or one more dropped. *)
Definition tx_step (mem : M) (c : Chain) (s : list (list Z) * NetStats) : option (M * (list (list Z) * NetStats) * Z) :=
  Some (mem, match read_tx mem c with Some f => (s.1 ++ [f], s.2) | None => (s.1, count_tx_drop s.2) end, 0).

Definition send_frame w (frame : list Z) : NetWorker B :=
  let w := capture frame w in
  match be_send frame (nw_backend w) with
  | (Ok _, b) => net_set_stats (count_tx frame (nw_stats w)) (net_set_backend b w)
  | (Err _, b) => net_set_stats (count_tx_drop (nw_stats w)) (net_set_backend b w)
  end.

Definition NET_CHAINS : nat := Z.to_nat (2 ^ 16).

(** [None] when a queue method panics. *)
Definition process_tx w (mem : M) (irq : Irq) : option (NetWorker B * M * Irq) :=
  match nw_tx w with
  | None => Some (w, mem, irq)
  | Some b =>
      let '(q, cs, _) := chains mem NET_CHAINS (nb_queue b) in
      match serve_loop tx_step mem q cs ([], nw_stats w) false with
      | None => None
      | Some (mem, q, (frames, stats), completed) =>
          let '(q, needed) := if completed then notification_needed q mem else (q, false) in
          let irq := if needed then raise NET_INT_VRING irq else irq in
          let w := net_set_queues (nw_rx w) (Some {| nb_key := nb_key b; nb_queue := q |}) (net_set_stats stats w) in
          Some (foldl send_frame w frames, mem, irq)
      end
  end.

(** The loop of [deliver_rx]: one frame per round, [fuel] rounds at most; the last
    component says whether the loop ended by itself. *)
Fixpoint deliver_loop (fuel : nat) w (q : SplitQueue) (mem : M) (completed : bool) : option (NetWorker B * SplitQueue * M * bool * bool) :=
  match fuel with
  | O => Some (w, q, mem, completed, false)
  | S fuel =>
      let next :=
        match nw_pending w with
        | Some f => (Some f, net_set_pending None w)
        | None => match be_recv (nw_backend w) with
                  | (Ok (Some f), b) => (Some f, net_set_backend b w)
                  | (_, b) => (None, net_set_backend b w)
                  end
        end in
      match next with
      | (None, w) => Some (w, q, mem, completed, true)
      | (Some f, w) =>
          match pop mem q with
          | (q, Stop) => Some (net_set_pending (Some f) w, q, mem, completed, true)
          | (_, Panic) => None
          | (q, Ret c) =>
              let '(used, mem) := write_rx mem c f in
              match add_used q mem (c_head c) used with
              | (q, mem, Ret b) =>
                  let w := if used =? 0 then net_set_stats (count_rx_drop (nw_stats w)) w
                           else capture f (net_set_stats (count_rx f (nw_stats w)) w) in
                  deliver_loop fuel w q mem (completed || b)
              | _ => None
              end
          end
      end
  end.

Definition deliver_rx (fuel : nat) w (mem : M) (irq : Irq) : option (NetWorker B * M * Irq * bool) :=
  match nw_rx w with
  | None => Some (w, mem, irq, true)
  | Some b =>
      match deliver_loop fuel w (nb_queue b) mem false with
      | None => None
      | Some (w, q, mem, completed, fin) =>
          let '(q, needed) := if completed then notification_needed q mem else (q, false) in
          Some (net_set_queues (Some {| nb_key := nb_key b; nb_queue := q |}) (nw_tx w) w, mem, (if needed then raise NET_INT_VRING irq else irq), fin)
      end
  end.

(** One message of [run]. *)
Definition net_on_kick (fuel : nat) w (mem : M) (irq : Irq) (k : NetKick) : option (NetWorker B * M * Irq * bool) :=
  match k with
  | NReset => Some (net_set_pending None (net_set_queues None None w), mem, irq, true)
  | _ =>
      let w := match k with NNotify n => net_bind n w | _ => w end in
      let '(w, irq) := sync_link w irq in
      match process_tx w mem irq with
      | None => None
      | Some (w, mem, irq) => deliver_rx fuel w mem irq
      end
  end.

(** [VirtioNet::open]. *)
Definition net_open (mac : list Z) (b : B) (pcap : option PcapWriter) : NetWorker B :=
  {| nw_backend := be_attach_policy mac b; nw_stats := net_no_stats; nw_link := if be_link_up b then VIRTIO_NET_S_LINK_UP else 0; nw_generation := 0;
     nw_pcap := pcap; nw_rx := None; nw_tx := None; nw_pending := None |}.
End worker.
