(* ===== verification/VirtioNetSafe.v ===== *)
(** * What the virtio-net worker guarantees

    The backend's contract [NetBackendLaws] and its three instances; the effect
    of one receive and one transmit chain on guest memory; and the worker's
    account of every frame. *)

From stdpp Require Import list strings gmap.
From S2P Require Import Prelude GuestMemory VirtioQueue QueueDevice VirtioIrq VirtioCore NetPacket NetPolicy UserNet Blk VirtioNet.

(** ** Backends *)

(** A backend gives frames of bytes, from any sound state. *)
Class NetBackendLaws (B : Type) `{!NetBackend B} := {
  be_inv : B -> Prop;
  be_send_inv f b : Forall (fits 8) f -> be_inv b -> be_inv (be_send f b).2;
  be_recv_inv b : be_inv b -> be_inv (be_recv b).2 /\ (forall f, (be_recv b).1 = Ok (Some f) -> Forall (fits 8) f);
}.

(** *** The loopback gateway *)

Lemma take_fits n (l : list Z) : Forall (fits 8) l -> Forall (fits 8) (take n l).
Proof. apply Forall_take. Qed.
Lemma drop_fits n (l : list Z) : Forall (fits 8) l -> Forall (fits 8) (drop n l).
Proof. apply Forall_drop. Qed.
Lemma put_bytes_fits i new l : Forall (fits 8) new -> Forall (fits 8) l -> Forall (fits 8) (put_bytes i new l).
Proof. intros. unfold put_bytes. rewrite !Forall_app. auto using take_fits, drop_fits. Qed.

Create HintDb netbytes.
#[export] Hint Resolve take_fits drop_fits put_bytes_fits be_bytes_fits le_bytes_fits : netbytes.

Lemma gateway_mac_fits : Forall (fits 8) GATEWAY_MAC.
Proof. by apply all_bytes_fits. Qed.
Lemma gateway_ip_fits : Forall (fits 8) GATEWAY_IP.
Proof. by apply all_bytes_fits. Qed.
#[export] Hint Resolve gateway_mac_fits gateway_ip_fits : netbytes.

Lemma lo_arp_reply_fits f r : Forall (fits 8) f -> lo_arp_reply f = Some r -> Forall (fits 8) r.
Proof.
  intros Hf. unfold lo_arp_reply. repeat case_match; try done. intros Hr. apply (inj Some) in Hr. rewrite <-Hr, !Forall_app.
  split_and!; auto 10 with netbytes. by apply all_bytes_fits.
Qed.

Lemma lo_echo_reply_fits f r : Forall (fits 8) f -> lo_echo_reply f = Some r -> Forall (fits 8) r.
Proof.
  intros Hf. unfold lo_echo_reply. repeat case_match; try done. intros Hr. apply (inj Some) in Hr. rewrite <-Hr, !Forall_app.
  assert (Ha1 : Forall (fits 8) [0; 0]) by (by apply all_bytes_fits). assert (Ha2 : Forall (fits 8) [REPLY_TTL]) by (by apply all_bytes_fits).
  assert (Ha3 : Forall (fits 8) [ICMP_ECHO_REPLY]) by (by apply all_bytes_fits).
  split_and!; auto 20 with netbytes.
Qed.

Definition lo_inv (b : LoopbackBackend) : Prop := Forall (Forall (fits 8)) (lo_replies b) /\ (length (lo_replies b) <= VirtioNet.MAX_QUEUED)%nat.

#[export] Program Instance loopback_laws : NetBackendLaws LoopbackBackend := {| be_inv := lo_inv |}.
Next Obligation.
  intros f b Hf [Hb Hl]. cbn. unfold lo_send. case_bool_decide; [done|]. cbv zeta.
  match goal with |- context [match ?r with Some _ => _ | None => _ end] => set (reply := r) end.
  assert (Hr : forall r, reply = Some r -> Forall (fits 8) r).
  { unfold reply. intros r. destruct (_ =? ETHERTYPE_ARP); [by apply lo_arp_reply_fits|]. destruct (_ =? ETHERTYPE_IPV4); [by apply lo_echo_reply_fits|done]. }
  destruct reply as [r|]; [|done]. unfold lo_queue. case_bool_decide; [done|]. split; cbn.
  - apply Forall_app. split; [done|]. constructor; [by apply Hr|constructor].
  - rewrite length_app. simpl. lia.
Qed.
Next Obligation.
  intros b [Hb Hl]. cbn. destruct (lo_replies b) as [|f rest] eqn:E; cbn.
  - split; [|done]. split; by rewrite E.
  - apply list.Forall_cons in Hb as [Hf Hb]. split; [split; [done|cbn in *; lia]|]. by intros ? [= <-].
Qed.

(** *** The NAT, on a host whose answers have the right types *)

Definition ub_inv (b : UserBackend) : Prop := net_ok (ub_inner b) /\ forall i, reply_ok (ub_send_host b i) /\ poll_host_ok (ub_poll_host b i).

#[export] Program Instance user_laws : NetBackendLaws UserBackend := {| be_inv := ub_inv |}.
Next Obligation.
  intros f b Hf [Hn Hh]. split; [|done]. cbn. apply nat_send_ok; [done|done|apply Hh].
Qed.
Next Obligation.
  intros b [Hn Hh]. cbn. destruct (nat_poll_ok (ub_poll_host b (ub_calls b)) (ub_inner b) Hn (proj2 (Hh _))) as [Hp Hf].
  destruct (UserNet.poll _ _) as [f n]. cbn in *. split; [by split|]. intros f' [= ->]. by destruct (Hf _ eq_refl).
Qed.

(** *** The policy filter in front of a backend *)

#[export] Program Instance policy_laws {B} `{!NetBackend B} `{!NetBackendLaws B} : NetBackendLaws (PolicyBackend B) :=
  {| be_inv b := be_inv (pb_inner b) |}.
Next Obligation.
  intros B HB HL f b Hf Hb. cbn. destruct (decide_tx _ _ _) as [[rule|] e]; [done|].
  pose proof (be_send_inv f (pb_inner b) Hf Hb) as H. by destruct (be_send f (pb_inner b)).
Qed.
Next Obligation.
  intros B HB HL b Hb. cbn. destruct (be_recv_inv (pb_inner b) Hb) as [H1 H2].
  destruct (be_recv (pb_inner b)) as [[[f|]|e] inner]; cbn in *; (split; [done|]); [|done|done]. intros f' [= <-]. by apply H2.
Qed.

(** What passes the filter is what the rules permit: the inner backend gets the
    frames for which [decide_tx] names no rule, and each of the others is recorded. *)
Lemma policy_send_filters {B} `{!NetBackend B} (b : PolicyBackend B) f :
  let '(d, e) := decide_tx f (pb_clock b (pb_calls b)) (pb_policy b) in
  (pb_inner (be_send f b).2 = match d with None => (be_send f (pb_inner b)).2 | Some _ => pb_inner b end) /\
  pb_drops (be_send f b).2 = pb_drops b ++ option_list d.
Proof.
  cbn. destruct (decide_tx _ _ _) as [[rule|] e]; [done|]. destruct (be_send f (pb_inner b)). cbn. by rewrite app_nil_r.
Qed.

(** ** One chain *)

Section chains.
Context {M : Type} `{!ByteMemory M}.
Implicit Types mem : M.

Lemma bufs_total_nonneg bufs : Forall buf_ok bufs -> 0 <= bufs_total bufs.
Proof. induction 1 as [|b bufs (_ & [Hl _] & _) _ IH]; [done|]. cbn. unfold bufs_total in IH. lia. Qed.

Lemma scatter_rx_inv mem bufs bytes : bm_inv mem -> Forall buf_ok bufs -> Forall (fits 8) bytes -> bm_inv (scatter_rx mem bufs bytes).2.
Proof.
  intros Hm Hb. revert mem bytes Hm. induction Hb as [|b bufs (Ha & _) _ IH]; intros mem bytes Hm Hf; cbn [scatter_rx]; [done|].
  case_bool_decide; [done|]. destruct (bm_write mem _ _) as [m1|] eqn:Hw; [|done].
  apply bm_write_spec in Hw as (Hm1 & _); [|done|done|by apply Forall_take]. apply IH; [done|by apply Forall_drop].
Qed.

(** The bytes land at the successive addresses of the buffers, nowhere else. *)
Lemma scatter_rx_bytes mem bufs bytes mem' :
  bm_inv mem -> Forall buf_ok bufs -> Forall (fits 8) bytes -> Z.of_nat (length bytes) <= bufs_total bufs ->
  scatter_rx mem bufs bytes = (true, mem') -> forall x, bm_byte mem' x = upd (bm_byte mem) (bufs_flat bufs) bytes x.
Proof.
  intros Hm Hb. revert mem bytes Hm. induction Hb as [|b bufs (Ha & [Hl0 _] & _) Hbs IH]; intros mem bytes Hm Hf Hl; cbn [scatter_rx].
  - intros [= <-] x. cbn in Hl. destruct bytes; [done|cbn in Hl; lia].
  - case_bool_decide as He; [intros [= <-] x; by rewrite He, upd_nil|]. cbv zeta.
    set (n := Nat.min (Z.to_nat (buf_len b)) (length bytes)). destruct (bm_write mem _ _) as [m1|] eqn:Hw; [|done]. intros Hs x.
    apply bm_write_spec in Hw as (Hm1 & Hb1 & _); [|done|done|by apply Forall_take]. cbn in Hl.
    assert (Hd : Z.of_nat (length (drop n bytes)) <= bufs_total bufs).
    { pose proof (bufs_total_nonneg bufs Hbs). rewrite length_drop. unfold bufs_total in *. lia. }
    rewrite (IH m1 (drop n bytes) Hm1 (drop_fits _ _ Hf) Hd Hs x). change (bufs_flat (b :: bufs)) with (seqZ (buf_addr b) (buf_len b) ++ bufs_flat bufs).
    rewrite upd_app, length_seqZ.
    destruct (decide (length bytes <= Z.to_nat (buf_len b))%nat) as [Hle|Hgt].
    + rewrite !(drop_ge bytes), !upd_nil by (unfold n; lia). rewrite Hb1, (take_ge bytes (Z.to_nat _)) by lia.
      rewrite upd_seqZ by lia. unfold n. by rewrite Nat.min_r, take_ge by lia.
    + assert (Hn : n = Z.to_nat (buf_len b)) by (unfold n; lia). rewrite Hn. apply upd_ext. intros y. rewrite Hb1, Hn, upd_seqZ by (rewrite length_take; lia). done.
Qed.

Lemma rx_header_fits : Forall (fits 8) rx_header.
Proof. by apply all_bytes_fits. Qed.

Lemma write_rx_inv mem c f : bm_inv mem -> chain_ok c -> Forall (fits 8) f -> bm_inv (write_rx mem c f).2.
Proof.
  intros Hm Hc Hf. unfold write_rx. destruct (negb _); [done|]. destruct (_ || _); [done|].
  assert (Hb : Forall (fits 8) (rx_header ++ f)) by (apply Forall_app; split; [apply rx_header_fits|done]).
  pose proof (scatter_rx_inv mem (c_writable c) (rx_header ++ f) Hm (cn_writable _ Hc) Hb) as H. by destruct (scatter_rx _ _ _) as [[|] m].
Qed.

(** A frame that is delivered is in the guest's buffers behind a header that asks
    for nothing and says one buffer was used, and the length reported is theirs. *)
Lemma write_rx_delivers mem c f used mem' :
  bm_inv mem -> chain_ok c -> Forall (fits 8) f -> write_rx mem c f = (used, mem') -> used <> 0 ->
  used = Z.of_nat (12 + length f) /\ Z.of_nat (length f) <= MAX_FRAME /\ forall x, bm_byte mem' x = upd (bm_byte mem) (bufs_flat (c_writable c)) (rx_header ++ f) x.
Proof.
  intros Hm Hc Hf. unfold write_rx. destruct (negb _); [by intros [= <-]|]. destruct (Z.ltb_spec MAX_FRAME (Z.of_nat (length f))); [by intros [= <-]|].
  destruct (Z.ltb_spec (bufs_total (c_writable c)) (Z.of_nat (NET_HDR_LEN + length f))) as [|Hcap]; [by intros [= <-]|]. cbn [orb].
  assert (Hb : Forall (fits 8) (rx_header ++ f)) by (apply Forall_app; split; [apply rx_header_fits|done]).
  destruct (scatter_rx _ _ _) as [[|] m] eqn:Hs; intros [= <- <-] Hu; [|done].
  split; [|split; [done|]].
  - unfold NET_HDR_LEN, MAX_FRAME in *. apply wrap_small. unfold fits. lia.
  - eapply scatter_rx_bytes; [done|apply Hc|done| |done]. rewrite length_app. exact Hcap.
Qed.

(** What a receive chain needs to get a frame. *)
Definition rx_room mem (c : Chain) (f : list Z) : Prop :=
  c_readable c = [] /\ Z.of_nat (length f) <= MAX_FRAME /\ Z.of_nat (12 + length f) <= bufs_total (c_writable c) /\
  Forall (fun b => 0 < buf_len b /\ bm_span mem (buf_addr b) (buf_len b)) (c_writable c).

(** One receive chain: header and frame are in its buffers and nothing else has
    changed, or the chain has no room and only its buffers may have changed. *)
Definition rx_written mem (c : Chain) (f : list Z) (used : Z) (mem' : M) : Prop :=
  (used = Z.of_nat (12 + length f) /\ c_readable c = [] /\ Z.of_nat (12 + length f) <= bufs_total (c_writable c) /\ Z.of_nat (length f) <= MAX_FRAME /\
   forall x, bm_byte mem' x = upd (bm_byte mem) (bufs_flat (c_writable c)) (rx_header ++ f) x) \/
  (used = 0 /\ ~ rx_room mem c f /\ only (covers (c_writable c)) mem mem').

Lemma scatter_rx_only mem bufs bytes : bm_inv mem -> Forall buf_ok bufs -> Forall (fits 8) bytes -> only (covers bufs) mem (scatter_rx mem bufs bytes).2.
Proof.
  intros Hm Hb. revert mem bytes Hm. induction Hb as [|b bufs (Ha & [Hl0 _] & _) _ IH]; intros mem bytes Hm Hf; cbn [scatter_rx]; [by apply only_refl|].
  case_bool_decide; [by apply only_refl|]. cbv zeta. destruct (bm_write mem _ _) as [m1|] eqn:Hw; [|by apply only_refl].
  apply write_only in Hw; [|done|done|by apply Forall_take]. eapply only_trans.
  - eapply only_weaken; [|exact Hw]. intros x Hx. exists b. split; [left|]. unfold within in *. rewrite length_take in Hx. lia.
  - eapply only_weaken; [|apply IH; [apply Hw|by apply Forall_drop]]. intros x (b' & Hin & Hx). exists b'. split; [by right|done].
Qed.

Lemma scatter_rx_succeeds mem bufs bytes :
  bm_inv mem -> Forall buf_ok bufs -> Forall (fits 8) bytes -> Forall (fun b => 0 < buf_len b /\ bm_span mem (buf_addr b) (buf_len b)) bufs ->
  (scatter_rx mem bufs bytes).1 = true.
Proof.
  intros Hm Hb. revert mem bytes Hm. induction Hb as [|b bufs (Ha & _) _ IH]; intros mem bytes Hm Hf Hs; cbn [scatter_rx]; [done|].
  case_bool_decide as He; [done|]. cbv zeta. apply list.Forall_cons in Hs as [[Hl Hsp] Hs].
  assert (Hn : (0 < length bytes)%nat) by (destruct bytes; [done|cbn; lia]). set (n := Nat.min _ _).
  destruct (proj2 (bm_write_Ok mem (buf_addr b) (take n bytes) Hm Ha ltac:(intros E; apply (f_equal length) in E; rewrite length_take in E; cbn in E; lia))) as [m1 W].
  { eapply bm_span_sub; [exact Hsp|lia|]. rewrite length_take. lia. }
  rewrite W. apply bm_write_spec in W as (Hm1 & _ & Hsp1); [|done|done|by apply Forall_take]. apply IH; [done|by apply Forall_drop|].
  eapply list.Forall_impl; [exact Hs|]. cbn. intros b' [? ?]. split; [done|]. by apply Hsp1.
Qed.

Lemma write_rx_written mem c f used mem' :
  bm_inv mem -> chain_ok c -> Forall (fits 8) f -> write_rx mem c f = (used, mem') -> rx_written mem c f used mem'.
Proof.
  intros Hm Hc Hf E. assert (Hb : Forall (fits 8) (rx_header ++ f)) by (apply Forall_app; split; [apply rx_header_fits|done]).
  destruct (Z.eqb_spec used 0) as [Hu|Hu].
  - right. revert E. unfold write_rx, rx_room. case_bool_decide as Hr; cbn [negb].
    2: { intros [= <- <-]. split; [done|]. split; [naive_solver|by apply only_refl]. }
    destruct (Z.ltb_spec MAX_FRAME (Z.of_nat (length f))) as [Hl|Hl]; cbn [orb]; [intros [= <- <-]; split; [done|]; split; [lia|by apply only_refl]|].
    destruct (Z.ltb_spec (bufs_total (c_writable c)) (Z.of_nat (NET_HDR_LEN + length f))) as [Hcap|Hcap];
      [intros [= <- <-]; split; [done|]; split; [unfold NET_HDR_LEN in Hcap; lia|by apply only_refl]|].
    pose proof (scatter_rx_only mem (c_writable c) _ Hm (cn_writable _ Hc) Hb) as Ho.
    pose proof (scatter_rx_succeeds mem (c_writable c) _ Hm (cn_writable _ Hc) Hb) as Hs.
    destruct (scatter_rx _ _ _) as [[|] m]; intros [= <- <-]; cbn [fst snd] in *.
    { exfalso. unfold NET_HDR_LEN, MAX_FRAME in *. rewrite wrap_small in Hu by (unfold fits; lia). lia. }
    split; [done|]. split; [|done]. intros (_ & _ & _ & H). by apply Hs in H.
  - left. pose proof (write_rx_delivers mem c f used mem' Hm Hc Hf E Hu) as (H1 & H2 & H3). revert E. unfold write_rx.
    case_bool_decide as Hr; cbn [negb]; [|by intros [= <- _]]. destruct (Z.ltb_spec (bufs_total (c_writable c)) (Z.of_nat (NET_HDR_LEN + length f))) as [|Hcap];
      [rewrite orb_true_r; by intros [= <- _]|]. done.
Qed.
End chains.

Section transmit.
Context {M : Type} `{!ByteMemory M}.
Implicit Types mem : M.

Lemma gather_tx_fits mem bufs bytes : bm_inv mem -> Forall buf_ok bufs -> gather_tx mem bufs = Some bytes -> Forall (fits 8) bytes.
Proof.
  intros Hm Hb. revert bytes. induction Hb as [|b bufs (Ha & _) _ IH]; intros bytes; cbn [gather_tx]; [by intros [= <-]|].
  destruct (bm_read mem _ _) as [chunk|] eqn:Hr; [|done]. destruct (gather_tx mem bufs) as [rest|]; [|done]. intros [= <-].
  apply Forall_app. split; [exact (bm_read_fits mem _ _ _ Hm Ha Hr)|by apply IH].
Qed.

Lemma read_tx_fits mem c f : bm_inv mem -> chain_ok c -> read_tx mem c = Some f -> Forall (fits 8) f.
Proof.
  intros Hm Hc. unfold read_tx. destruct (negb _); [done|]. destruct (_ <? _); [done|]. destruct (_ <? _); [done|].
  destruct (gather_tx mem (c_readable c)) as [bytes|] eqn:Hg; [|done]. destruct (negb _); [done|]. destruct (negb _); [done|]. intros [= <-].
  eapply drop_fits, gather_tx_fits; [done|apply Hc|done].
Qed.
(** A transmit chain carries frame [f]: only readable buffers, all mapped, that
    hold a 12-byte header asking for no checksum and no segmentation and then the
    frame, of 14 to 65535 bytes. *)
Definition carries mem (c : Chain) (f : list Z) : Prop :=
  c_writable c = [] /\ 26 <= bufs_total (c_readable c) <= 12 + MAX_FRAME /\
  exists chunks hdr, Forall2 (fun b chunk => bm_read mem (buf_addr b) (Z.to_nat (buf_len b)) = Ok chunk) (c_readable c) chunks /\
    concat chunks = hdr ++ f /\ length hdr = 12%nat /\ Z.land (at_ hdr 0) 1 = 0 /\ at_ hdr 1 = 0.

Lemma gather_tx_chunks mem bufs bytes :
  gather_tx mem bufs = Some bytes <-> exists chunks, Forall2 (fun b chunk => bm_read mem (buf_addr b) (Z.to_nat (buf_len b)) = Ok chunk) bufs chunks /\ bytes = concat chunks.
Proof.
  revert bytes. induction bufs as [|b bufs IH]; intros bytes; cbn [gather_tx].
  - split; [intros [= <-]; by exists []|]. intros (chunks & H & ->). by inversion H.
  - split.
    + destruct (bm_read mem _ _) as [chunk|] eqn:Er; [|done]. destruct (gather_tx mem bufs) as [rest|]; [|done]. intros [= <-].
      destruct (proj1 (IH rest) eq_refl) as (chunks & H & ->). exists (chunk :: chunks). split; [by constructor|done].
    + intros (chunks & H & ->). inversion H as [|? chunk ? chunks' Hc H' E1 E2]. subst. rewrite Hc. by rewrite (proj2 (IH (concat chunks'))) by by exists chunks'.
Qed.

Lemma chunks_length mem bufs chunks :
  bm_inv mem -> Forall buf_ok bufs -> Forall2 (fun b chunk => bm_read mem (buf_addr b) (Z.to_nat (buf_len b)) = Ok chunk) bufs chunks ->
  bufs_total bufs <= Z.of_nat (length (concat chunks)).
Proof.
  intros Hm Hb. revert chunks. induction Hb as [|b bufs (Ha & [Hl _] & _) _ IH]; intros chunks H; inversion H as [|? chunk ? chunks' Hc H' E1 E2]; subst; [done|].
  cbn [bufs_total foldr concat]. rewrite length_app. specialize (IH chunks' H'). unfold bufs_total in IH.
  destruct (decide (buf_len b = 0)) as [->|]; [lia|]. apply bm_read_spec in Hc as (_ & Hlen & _); [lia|done|done|lia].
Qed.

(** The code reads exactly the frame a chain carries, and nothing from a chain
    that carries none. *)
Lemma read_tx_carries mem c f : bm_inv mem -> chain_ok c -> read_tx mem c = Some f <-> carries mem c f.
Proof.
  intros Hm Hc. unfold read_tx, carries. case_bool_decide as Hw; cbn [negb]; [|split; [done|]; by intros [? _]].
  pose proof (bufs_total_nonneg _ (cn_readable _ Hc)) as H0. unfold NET_HDR_LEN, ETH_HLEN, MAX_FRAME in *. change (Z.of_nat 12) with 12. change (Z.of_nat (12 + 14)) with 26.
  destruct (Z.ltb_spec (12 + 65535) (Z.min (bufs_total (c_readable c)) (2 ^ 64 - 1))); [split; [done|]; intros (_ & ? & _); lia|].
  destruct (Z.ltb_spec (Z.min (bufs_total (c_readable c)) (2 ^ 64 - 1)) 26); [split; [done|]; intros (_ & ? & _); lia|]. split.
  - destruct (gather_tx mem (c_readable c)) as [bytes|] eqn:Eg; [|done]. apply gather_tx_chunks in Eg as (chunks & Hf & ->).
    destruct (Z.eqb_spec (Z.land (at_ (concat chunks) 0) HDR_F_NEEDS_CSUM) 0) as [E1|]; cbn [negb]; [|done].
    destruct (Z.eqb_spec (at_ (concat chunks) 1) GSO_NONE) as [E2|]; cbn [negb]; [|done]. intros [= <-].
    pose proof (chunks_length mem _ _ Hm (cn_readable _ Hc) Hf) as Hl. split; [done|]. split; [lia|].
    exists chunks, (take 12 (concat chunks)). split; [done|]. split; [by rewrite take_drop|]. split; [rewrite length_take; lia|].
    unfold at_ in *. rewrite !lookup_take_lt by lia. done.
  - intros (_ & _ & chunks & hdr & Hf & E & Hh & E1 & E2). rewrite (proj2 (gather_tx_chunks mem (c_readable c) (concat chunks))) by by exists chunks.
    rewrite E. unfold at_ in *. rewrite !lookup_app_l by lia. unfold HDR_F_NEEDS_CSUM, GSO_NONE. rewrite E1, E2. cbn [Z.eqb negb]. by rewrite drop_app_length'.
Qed.

(** The transmit chains in turn: each is answered with length 0, those that carry
    a frame give it, the others are counted. *)
Inductive tx_rounds : M -> SplitQueue -> list Chain -> list (list Z) -> nat -> M -> SplitQueue -> Prop :=
| tx_none mem q : tx_rounds mem q [] [] 0 mem q
| tx_frame mem q c f q1 mem1 b cs fs n mem' q' :
    carries mem c f -> add_used q mem (c_head c) 0 = (q1, mem1, Ret b) -> tx_rounds mem1 q1 cs fs n mem' q' ->
    tx_rounds mem q (c :: cs) (f :: fs) n mem' q'
| tx_refused mem q c q1 mem1 b cs fs n mem' q' :
    (forall f, ~ carries mem c f) -> add_used q mem (c_head c) 0 = (q1, mem1, Ret b) -> tx_rounds mem1 q1 cs fs n mem' q' ->
    tx_rounds mem q (c :: cs) fs (S n) mem' q'.

(** Draining a ring the driver has stopped filling ends: its index is 16 bits. *)
Lemma chains_end n : forall mem q, bm_inv mem -> wf_queue q ->
  (forall idx, avail_idx mem q = Some idx -> published q idx < Z.of_nat n) -> (0 < n)%nat -> (chains mem n q).2 = true.
Proof.
  induction n as [|n IH]; intros mem q Hm Hq Hp Hn; [lia|]. destruct (q_broken q) eqn:Hb; [by rewrite chains_broken|].
  rewrite chains_S. destruct (pop_cases mem q Hm Hq Hb) as [->|[[-> _]|(idx & head & c & Hi & Hne & _ & _ & _ & ->)]]; [done..|].
  specialize (Hp idx Hi). pose proof (published_advance q idx) as Hpa. assert (Hla : fits 16 (q_last_avail q)) by (by destruct Hq as (_ & _ & _ & _ & ? & _)).
  specialize (Hpa Hla (avail_idx_fits _ _ _ Hm Hq Hi) Hne). pose proof (Z.mod_pos_bound (idx - q_last_avail (advance q)) (2 ^ 16) ltac:(lia)) as Hmod.
  specialize (IH mem (advance q) Hm (advance_wf q Hq)). destruct (chains mem n (advance q)) as [[q' cs] fin]. apply IH; [|unfold published in *; lia].
  intros i Hi'. assert (i = idx) as -> by (change (avail_idx mem q = Some i) in Hi'; congruence). lia.
Qed.

Lemma net_chains_end mem q : bm_inv mem -> wf_queue q -> (chains mem NET_CHAINS q).2 = true.
Proof.
  intros Hm Hq. apply chains_end; [done|done| |unfold NET_CHAINS; lia]. intros idx _. unfold NET_CHAINS. rewrite Z2Nat.id by lia. by apply Z.mod_pos_bound.
Qed.

Lemma iter_drop_tx n t : Nat.iter n count_tx_drop (count_tx_drop t) = Nat.iter (S n) count_tx_drop t.
Proof. by rewrite Nat.iter_succ_r. Qed.

Lemma serve_tx_rounds mem q cs fs0 t completed :
  bm_inv mem -> wf_queue q -> Forall chain_ok cs ->
  exists mem' q' fs n completed', serve_loop tx_step mem q cs (fs0, t) completed = Some (mem', q', (fs0 ++ fs, Nat.iter n count_tx_drop t), completed') /\
    bm_inv mem' /\ wf_queue q' /\ tx_rounds mem q cs fs n mem' q' /\ Forall (Forall (fits 8)) fs.
Proof.
  intros Hm Hq Hcs. revert mem q fs0 t completed Hm Hq. induction Hcs as [|c cs Hc _ IH]; intros mem q fs0 t completed Hm Hq; cbn [serve_loop].
  { eexists _, _, [], 0%nat, _. rewrite app_nil_r. split; [done|]. split_and!; [done..|constructor|constructor]. }
  cbn [tx_step mbind option_bind]. pose proof (add_used_keeps mem q (c_head c) 0 Hm Hq) as Hu.
  destruct (add_used q mem (c_head c) 0) as [[q1 mem1] [b| |]] eqn:Eu; try done. destruct Hu as (Hq1 & Hm1 & _).
  destruct (read_tx mem c) as [f|] eqn:Er; cbn [fst snd].
  - destruct (IH mem1 q1 (fs0 ++ [f]) t (completed || b) Hm1 Hq1) as (mem' & q' & fs & n & c' & E & Hm' & Hq' & Hr & Hf).
    eexists mem', q', (f :: fs), n, c'. rewrite E, <- app_assoc. split; [done|]. split; [done|]. split; [done|].
    split; [eapply tx_frame; [by apply read_tx_carries|exact Eu|done]|]. constructor; [by apply (read_tx_fits mem c f)|done].
  - destruct (IH mem1 q1 fs0 (count_tx_drop t) (completed || b) Hm1 Hq1) as (mem' & q' & fs & n & c' & E & Hm' & Hq' & Hr & Hf).
    eexists mem', q', fs, (S n), c'. rewrite E. split; [by rewrite iter_drop_tx|]. split; [done|]. split; [done|]. split; [|done].
    eapply tx_refused; [|exact Eu|done]. intros f Hcar. apply (read_tx_carries mem c f Hm Hc) in Hcar. congruence.
Qed.

End transmit.

(** ** The receive loop *)

Section deliver.
Context {B : Type} `{!NetBackend B} `{!NetBackendLaws B} {M : Type} `{!ByteMemory M}.
Implicit Types (w : NetWorker B) (mem : M) (b : B).

(** The backend gave exactly these frames. *)
Inductive feeds : B -> list (list Z) -> B -> Prop :=
| feeds_nil b : feeds b [] b
| feeds_cons b f b1 fs b2 : be_recv b = (Ok (Some f), b1) -> feeds b1 fs b2 -> feeds b (f :: fs) b2.

(** A frame and the length reported for it, zero when it was dropped. *)
Definition account (t : NetStats) (e : list Z * Z) : NetStats := if e.2 =? 0 then count_rx_drop t else count_rx e.1 t.
Definition record (p : option PcapWriter) (e : list Z * Z) : option PcapWriter :=
  if e.2 =? 0 then p
  else match p with None => None | Some p => match pcap_write e.1 p with Ok p => Some p | Err _ => None end end.
Definition reported (e : list Z * Z) : Prop := e.2 = 0 \/ (e.2 = Z.of_nat (12 + length e.1) /\ Z.of_nat (length e.1) <= MAX_FRAME).

(** The receive chains in turn: each frame of the log is written to the next
    available chain, which is answered with the length reported; the flag says
    that the ring was found empty at the end. *)
Inductive rx_rounds : M -> SplitQueue -> list (list Z * Z) -> M -> SplitQueue -> bool -> Prop :=
| rx_done mem q : rx_rounds mem q [] mem q false
| rx_empty mem q q' : pop mem q = (q', Stop) -> rx_rounds mem q [] mem q' true
| rx_frame mem q q1 c f used mem1 q2 mem2 (written : bool) log mem' q' e :
    pop mem q = (q1, Ret c) -> rx_written mem c f used mem1 -> add_used q1 mem1 (c_head c) used = (q2, mem2, Ret written) ->
    rx_rounds mem2 q2 log mem' q' e -> rx_rounds mem q ((f, used) :: log) mem' q' e.

(** What a run of the loop did to the worker. *)
Record delivered (fuel : nat) w w' (fin : bool) (fs : list (list Z)) (log : list (list Z * Z)) : Prop := {
  dl_feeds : exists b, feeds (nw_backend w) fs b /\
    if fin && bool_decide (nw_pending w' = None)
    then nw_backend w' = (be_recv b).2 /\ (forall f, (be_recv b).1 <> Ok (Some f)) else nw_backend w' = b;
  dl_frames : option_list (nw_pending w) ++ fs = log.*1 ++ option_list (nw_pending w');
  dl_reported : Forall reported log;
  dl_stats : nw_stats w' = foldl account (nw_stats w) log;
  dl_pcap : nw_pcap w' = foldl record (nw_pcap w) log;
  dl_same : nw_link w' = nw_link w /\ nw_generation w' = nw_generation w /\ nw_rx w' = nw_rx w /\ nw_tx w' = nw_tx w;
  dl_fuel : fin = false -> length log = fuel;
}.

Definition worker_sound w : Prop := be_inv (nw_backend w) /\ (forall f, nw_pending w = Some f -> Forall (fits 8) f).

Lemma capture_pcap f w : nw_pcap (capture f w) = match nw_pcap w with None => None | Some p => match pcap_write f p with Ok p => Some p | Err _ => None end end.
Proof. unfold capture. destruct (nw_pcap w) as [p|] eqn:E; [|by rewrite E]. by destruct (pcap_write f p). Qed.

Lemma capture_rest f w : nw_backend (capture f w) = nw_backend w /\ nw_stats (capture f w) = nw_stats w /\ nw_link (capture f w) = nw_link w /\
  nw_generation (capture f w) = nw_generation w /\ nw_rx (capture f w) = nw_rx w /\ nw_tx (capture f w) = nw_tx w /\ nw_pending (capture f w) = nw_pending w.
Proof. unfold capture. destruct (nw_pcap w) as [p|]; [|by split_and!]. by destruct (pcap_write f p). Qed.

(** The frame a round works on, and the worker without it. *)
Definition next_frame w : option (list Z) * NetWorker B :=
  match nw_pending w with
  | Some f => (Some f, net_set_pending None w)
  | None => match be_recv (nw_backend w) with
            | (Ok (Some f), b) => (Some f, net_set_backend b w)
            | (_, b) => (None, net_set_backend b w)
            end
  end.

Lemma next_frame_sound w : worker_sound w -> worker_sound (next_frame w).2 /\ (forall f, (next_frame w).1 = Some f -> Forall (fits 8) f).
Proof.
  intros [Hb Hp]. unfold next_frame. destruct (nw_pending w) as [f|] eqn:E.
  - split; [by split|]. intros ? [= <-]. by apply Hp.
  - destruct (be_recv_inv (nw_backend w) Hb) as [H1 H2].
    destruct (be_recv (nw_backend w)) as [[[f|]|e] b]; cbn in *; (split; [split; [done|intros f' Hf'; cbn in Hf'; congruence]|]); try done.
    intros ? [= <-]. by apply H2.
Qed.

(** After a round, the rest of the loop accounts for the rest. *)
Definition after_round w (f : list Z) (used : Z) : NetWorker B :=
  if used =? 0 then net_set_stats (count_rx_drop (nw_stats w)) w else capture f (net_set_stats (count_rx f (nw_stats w)) w).

Lemma after_round_fields w f used :
  let w' := after_round w f used in
  nw_backend w' = nw_backend w /\ nw_stats w' = account (nw_stats w) (f, used) /\ nw_pcap w' = record (nw_pcap w) (f, used) /\ nw_pending w' = nw_pending w /\
  nw_link w' = nw_link w /\ nw_generation w' = nw_generation w /\ nw_rx w' = nw_rx w /\ nw_tx w' = nw_tx w.
Proof.
  unfold after_round, account, record. cbn. destruct (used =? 0); [by split_and!|].
  destruct (capture_rest f (net_set_stats (count_rx f (nw_stats w)) w)) as (H1 & H2 & H3 & H4 & H5 & H6 & H7). rewrite H1, H2, H3, H4, H5, H6, H7, capture_pcap.
  by split_and!.
Qed.

Lemma delivered_cons fuel w w' f used fin fs log :
  (next_frame w).1 = Some f -> reported (f, used) -> delivered fuel (after_round (next_frame w).2 f used) w' fin fs log ->
  exists fs', delivered (S fuel) w w' fin fs' ((f, used) :: log).
Proof.
  intros Hn Hr Hd. destruct (after_round_fields (next_frame w).2 f used) as (E1 & E2 & E3 & E4 & E5 & E6 & E7 & E8).
  destruct Hd as [(b & Hf & Hb) Hfr Hre Hst Hpc (S1 & S2 & S3 & S4) Hfu]. rewrite E1 in Hf. rewrite E4 in Hfr. rewrite E2 in Hst. rewrite E3 in Hpc.
  rewrite E5 in S1. rewrite E6 in S2. rewrite E7 in S3. rewrite E8 in S4. unfold next_frame in *. destruct (nw_pending w) as [g|] eqn:Ep.
  - injection Hn as ->. cbn in *. exists fs. split; rewrite ?Ep; cbn; try done; [by exists b|by rewrite Hfr|by constructor|by intros ->%Hfu].
  - destruct (be_recv (nw_backend w)) as [[[g|]|e] b1] eqn:Er; try done. injection Hn as ->. cbn in *. rewrite Ep in Hfr. cbn in Hfr.
    exists (f :: fs). split; rewrite ?Ep; cbn; try done; [exists b; split; [by econstructor|done]|by rewrite Hfr|by constructor|by intros ->%Hfu].
Qed.

Lemma deliver_loop_unfold fuel w q mem completed :
  deliver_loop (S fuel) w q mem completed =
  match next_frame w with
  | (None, w) => Some (w, q, mem, completed, true)
  | (Some f, w) =>
      match pop mem q with
      | (q, Stop) => Some (net_set_pending (Some f) w, q, mem, completed, true)
      | (_, Panic) => None
      | (q, Ret c) =>
          let '(used, mem) := write_rx mem c f in
          match add_used q mem (c_head c) used with
          | (q, mem, Ret b) => deliver_loop fuel (after_round w f used) q mem (completed || b)
          | _ => None
          end
      end
  end.
Proof. done. Qed.

Lemma after_round_sound w f used : worker_sound w -> worker_sound (after_round w f used).
Proof. destruct (after_round_fields w f used) as (E1 & _ & _ & E4 & _). unfold worker_sound. by rewrite E1, E4. Qed.

Lemma deliver_loop_ok fuel w q mem completed :
  worker_sound w -> bm_inv mem -> wf_queue q ->
  exists w' q' mem' completed' fin fs log, deliver_loop fuel w q mem completed = Some (w', q', mem', completed', fin) /\
    worker_sound w' /\ bm_inv mem' /\ wf_queue q' /\ delivered fuel w w' fin fs log /\
    rx_rounds mem q log mem' q' (fin && bool_decide (is_Some (nw_pending w'))).
Proof.
  revert w q mem completed. induction fuel as [|fuel IH]; intros w q mem completed Hw Hm Hq.
  { eexists _, _, _, _, _, [], []. split; [done|]. split_and!; [done..| |constructor]. split; cbn; try done; [exists (nw_backend w); split; [constructor|done]|by rewrite app_nil_r]. }
  rewrite deliver_loop_unfold. destruct (next_frame_sound w Hw) as [Hw1 Hf].
  destruct (next_frame w) as [[f|] w1] eqn:En; cbn [fst snd] in *.
  2: { unfold next_frame in En. destruct (nw_pending w) as [g|] eqn:Ep; [done|].
       destruct (be_recv (nw_backend w)) as [[[g|]|e] b1] eqn:Er; try done; injection En as <-;
         (eexists _, _, _, _, _, [], []; split; [done|]; split_and!; [done..| |rewrite (bool_decide_eq_false_2 (is_Some _)) by (cbn; rewrite Ep; apply is_Some_None); constructor];
          split; cbn; rewrite ?Ep; try done;
          exists (nw_backend w); split; [constructor|]; rewrite bool_decide_eq_true_2, Er by done; done). }
  specialize (Hf f eq_refl). pose proof (pop_keeps mem q Hm Hq) as Hp. destruct (pop mem q) as [q1 [c| |]] eqn:Epop; [| |done].
  - destruct Hp as [Hq1 Hc]. pose proof (write_rx_inv mem c f Hm Hc Hf) as Hm1. destruct (write_rx mem c f) as [used mem1] eqn:Hwr. cbn [snd] in Hm1.
    pose proof (add_used_keeps mem1 q1 (c_head c) used Hm1 Hq1) as Hu. destruct (add_used q1 mem1 (c_head c) used) as [[q2 mem2] [b| |]] eqn:Eu; try done.
    destruct Hu as (Hq2 & Hm2 & _).
    destruct (IH (after_round w1 f used) q2 mem2 (completed || b) (after_round_sound _ _ _ Hw1) Hm2 Hq2) as (w' & q' & mem' & c' & fin & fs & log & -> & ? & ? & ? & Hd & Hrr).
    pose proof (write_rx_written mem c f used mem1 Hm Hc Hf Hwr) as Hwn.
    assert (Hr : reported (f, used)) by (destruct Hwn as [(? & _ & _ & ? & _)|(? & _)]; [by right|by left]).
    destruct (delivered_cons fuel w w' f used fin fs log) as [fs' Hd']; [by rewrite En|done|by rewrite En|]. eexists _, _, _, _, _, fs', _.
    split; [done|]. split_and!; [done..|]. by eapply rx_frame.
  - assert (Hd : exists fs, delivered (S fuel) w (net_set_pending (Some f) w1) true fs []).
    { unfold next_frame in En. destruct (nw_pending w) as [g|] eqn:Ep.
      - injection En as -> <-. exists []. split; cbn; rewrite ?Ep; try done. exists (nw_backend w). split; [constructor|done].
      - destruct (be_recv (nw_backend w)) as [[[g|]|e] b1] eqn:Er; try done. injection En as -> <-. exists [f]. split; cbn; rewrite ?Ep; try done.
        exists b1. split; [econstructor; [done|constructor]|done]. }
    destruct Hd as [fs Hd]. eexists _, _, _, _, _, fs, []. split; [done|]. split_and!; [|done..|by apply rx_empty]. split; [apply Hw1|]. by intros ? [= <-].
Qed.
End deliver.

(** ** One message of the worker *)

Section kicks.
Context {B : Type} `{!NetBackend B} `{!NetBackendLaws B} {M : Type} `{!ByteMemory M}.
Implicit Types (w : NetWorker B) (mem : M) (b : B).

Definition slot_wf (s : option NetBound) : Prop := forall nb, s = Some nb -> wf_queue (nb_queue nb).
Definition net_kick_ok (k : NetKick) : Prop :=
  match k with NNotify n => fits 16 (n_size n) /\ fits 64 (n_desc n) /\ fits 64 (n_avail n) /\ fits 64 (n_used n) | _ => True end.

Record net_sound w : Prop := { so_worker : worker_sound w; so_rx : slot_wf (nw_rx w); so_tx : slot_wf (nw_tx w) }.

(** One frame to the backend, and its place in the counters. *)
Definition send_counted (s : B * NetStats) (f : list Z) : B * NetStats :=
  match be_send f s.1 with (Ok _, b) => (b, count_tx f s.2) | (Err _, b) => (b, count_tx_drop s.2) end.

(** What the transmit part did: the chains the driver had made available were
    taken and answered; the frames they carry, in the order of the ring, went to
    the backend once each; the others were counted as dropped. *)
Record transmitted w mem w1 mem1 (frames : list (list Z)) (refused : nat) : Prop := {
  tr_rounds : match nw_tx w with
              | None => frames = [] /\ refused = 0%nat /\ mem1 = mem
              | Some b => exists q cs q', chains mem NET_CHAINS (nb_queue b) = (q, cs, true) /\ tx_rounds mem q cs frames refused mem1 q'
              end;
  tr_backend : (nw_backend w1, nw_stats w1) = foldl send_counted (nw_backend w, Nat.iter refused count_tx_drop (nw_stats w)) frames;
  tr_pending : nw_pending w1 = nw_pending w;
  tr_rx : nw_rx w1 = nw_rx w;
  tr_pcap : nw_pcap w1 = foldl (fun p f => record p (f, 1)) (nw_pcap w) frames;
}.

Lemma net_bind_slot_wf n s : slot_wf s -> net_kick_ok (NNotify n) -> slot_wf (net_bind_slot n s).
Proof.
  intros Hs (? & ? & ? & ?). unfold net_bind_slot. case_match; [done|]. intros b [= <-]. by apply queue_new_wf.
Qed.

Lemma net_bind_sound n w : net_sound w -> net_kick_ok (NNotify n) -> net_sound (net_bind n w).
Proof.
  intros [Hw Hr Ht] Hk. unfold net_bind. destruct (_ =? RX_QUEUE); [split; [done|by apply net_bind_slot_wf|done]|].
  destruct (_ =? TX_QUEUE); [split; [done|done|by apply net_bind_slot_wf]|done].
Qed.

Lemma send_frame_fields f w :
  (nw_backend (send_frame w f), nw_stats (send_frame w f)) = send_counted (nw_backend w, nw_stats w) f /\
  nw_pending (send_frame w f) = nw_pending w /\ nw_pcap (send_frame w f) = record (nw_pcap w) (f, 1) /\
  nw_rx (send_frame w f) = nw_rx w /\ nw_tx (send_frame w f) = nw_tx w.
Proof.
  unfold send_frame, send_counted. destruct (capture_rest f w) as (E1 & E2 & _ & _ & E5 & E6 & E7). rewrite E1, E2. cbn [fst snd].
  destruct (be_send f (nw_backend w)) as [[[]|e] b]; cbn; rewrite ?E5, ?E6, ?E7, ?capture_pcap; done.
Qed.

Lemma send_frames_fields frames w :
  let w' := foldl send_frame w frames in
  (nw_backend w', nw_stats w') = foldl send_counted (nw_backend w, nw_stats w) frames /\ nw_pending w' = nw_pending w /\
  nw_pcap w' = foldl (fun p f => record p (f, 1)) (nw_pcap w) frames /\ nw_rx w' = nw_rx w /\ nw_tx w' = nw_tx w.
Proof.
  cbn zeta. revert w. induction frames as [|f frames IH]; intros w; cbn [foldl]; [done|].
  destruct (send_frame_fields f w) as (E1 & E2 & E3 & E4 & E5). destruct (IH (send_frame w f)) as (-> & -> & -> & -> & ->). by rewrite E1, E2, E3, E4, E5.
Qed.

Lemma sends_inv frames (s : B * NetStats) : Forall (Forall (fits 8)) frames -> be_inv s.1 -> be_inv (foldl send_counted s frames).1.
Proof.
  intros Hf. revert s. induction Hf as [|f frames Hf _ IH]; intros s Hb; cbn; [done|]. apply IH. unfold send_counted.
  pose proof (be_send_inv f s.1 Hf Hb). by destruct (be_send f s.1) as [[[]|e] b].
Qed.

Lemma net_process_tx_ok w mem irq : net_sound w -> bm_inv mem ->
  exists w1 mem1 irq1 frames refused, process_tx w mem irq = Some (w1, mem1, irq1) /\ net_sound w1 /\ bm_inv mem1 /\ transmitted w mem w1 mem1 frames refused.
Proof.
  intros [Hw Hr Ht] Hm. unfold process_tx. destruct (nw_tx w) as [b|] eqn:Etx.
  2: { eexists _, _, _, [], 0%nat. split; [done|]. split; [split; [done|done|by rewrite Etx]|]. split; [done|]. by split; rewrite ?Etx. }
  destruct (chains_keeps mem NET_CHAINS (nb_queue b) Hm (Ht b eq_refl)) as [Hq1 Hcs]. 
  pose proof (net_chains_end mem (nb_queue b) Hm (Ht b eq_refl)) as Hend. destruct (chains mem NET_CHAINS _) as [[q1 cs] fin] eqn:Ec. cbn [fst snd] in *. subst fin.
  destruct (serve_tx_rounds mem q1 cs [] (nw_stats w) false Hm Hq1 Hcs) as (mem2 & q2 & frames & n & done_ & -> & Hm2 & Hq2 & Hrounds & Hfr). cbn [app].
  assert (wf_queue (if done_ then notification_needed q2 mem2 else (q2, false)).1) as Hq3 by (destruct done_; [by apply notification_keeps|done]).
  destruct (if done_ then _ else _) as [q3 needed]. cbn [fst snd] in *. eexists _, _, _, frames, n. split; [done|].
  set (w0 := net_set_queues _ _ _). destruct (send_frames_fields frames w0) as (E1 & E2 & E3 & E4 & E5).
  split; [|split; [done|]].
  - split; [split|by rewrite E4|rewrite E5; intros ? [= <-]; done].
    + pose proof (sends_inv frames (nw_backend w0, nw_stats w0) Hfr (proj1 Hw)) as Hi. by rewrite <- E1 in Hi.
    + rewrite E2. apply Hw.
  - split; [|done..]. rewrite Etx. by eexists _, _, _.
Qed.

Lemma sync_link_keeps w irq : net_sound w -> net_sound (sync_link w irq).1 /\ nw_backend (sync_link w irq).1 = nw_backend w /\
  nw_pending (sync_link w irq).1 = nw_pending w /\ nw_pcap (sync_link w irq).1 = nw_pcap w.
Proof. intros Hs. unfold sync_link. destruct (_ =? _); [done|]. destruct Hs as [[] ? ?]. by split_and!. Qed.

(** Enough rounds for a backend that has few frames. *)
Lemma delivered_fin fuel w w' fin fs log :
  delivered fuel w w' fin fs log -> (forall fs b, feeds (nw_backend w) fs b -> (length fs + 1 < fuel)%nat) -> fin = true.
Proof.
  intros [(b & Hf & _) Hfr _ _ _ _ Hfu] Hlim. destruct fin; [done|]. specialize (Hfu eq_refl). specialize (Hlim _ _ Hf).
  apply (f_equal length) in Hfr. rewrite !length_app, length_fmap in Hfr. destruct (nw_pending w), (nw_pending w'); cbn in Hfr; lia.
Qed.

(** What the receive part did, if the receive queue is bound. *)
Definition received (fuel : nat) w1 mem1 w' mem' (fin : bool) : Prop :=
  match nw_rx w1 with
  | None => w' = w1 /\ mem' = mem1 /\ fin = true
  | Some nb => exists w2 fs log q' rx, delivered fuel w1 w2 fin fs log /\
      rx_rounds mem1 (nb_queue nb) log mem' q' (fin && bool_decide (is_Some (nw_pending w2))) /\ w' = net_set_queues rx (nw_tx w2) w2 /\
      ((forall fs b, feeds (nw_backend w1) fs b -> (length fs + 1 < fuel)%nat) -> fin = true)
  end.

Lemma net_deliver_rx_ok fuel w mem irq : net_sound w -> bm_inv mem ->
  exists w' mem' irq' fin, deliver_rx fuel w mem irq = Some (w', mem', irq', fin) /\ net_sound w' /\ bm_inv mem' /\ received fuel w mem w' mem' fin.
Proof.
  intros [Hw Hr Ht] Hm. unfold deliver_rx, received. destruct (nw_rx w) as [nb|] eqn:Erx.
  2: { eexists _, _, _, _. split; [done|]. split; [split; [done|by rewrite Erx|done]|]. done. }
  destruct (deliver_loop_ok fuel w (nb_queue nb) mem false Hw Hm (Hr nb eq_refl)) as (w2 & q2 & mem2 & c2 & fin & fs & log & -> & Hw2 & Hm2 & Hq2 & Hd & Hrr).
  assert (wf_queue (if c2 then notification_needed q2 mem2 else (q2, false)).1) as Hq3 by (destruct c2; [by apply notification_keeps|done]).
  destruct (if c2 then _ else _) as [q3 needed]. cbn [fst] in Hq3. eexists _, _, _, _. split; [done|]. split.
  - split; [done|cbn; intros ? [= <-]; done|]. cbn. destruct (dl_same _ _ _ _ _ _ Hd) as (_ & _ & _ & ->). done.
  - split; [done|]. eexists w2, fs, log, q2, _. split; [done|]. split; [done|]. split; [done|]. by eapply delivered_fin.
Qed.

(** The worker once a message has bound its queue and the link state is in step. *)
Definition prepared (k : NetKick) w (irq : Irq) : NetWorker B := (sync_link (match k with NNotify n => net_bind n w | _ => w end) irq).1.
End kicks.

(** ** Captures *)

(** The frames of a capture, as a reader of the format finds them. *)
Fixpoint pcap_frames (fuel : nat) (bs : list Z) : option (list (list Z)) :=
  match fuel, bs with
  | _, [] => Some []
  | O, _ => None
  | S fuel, _ =>
      if bool_decide (length bs < 16)%nat then None
      else
        let len := Z.to_nat (of_le (take 4 (drop 8 bs))) in
        match pcap_frames fuel (drop (16 + len) bs) with Some rest => Some (take len (drop 16 bs) :: rest) | None => None end
  end.

Lemma pcap_record_read now f rest fuel :
  Z.of_nat (length f) <= MAX_FRAME ->
  pcap_frames (S fuel) (pcap_record now f ++ rest) = match pcap_frames fuel rest with Some fs => Some (f :: fs) | None => None end.
Proof.
  intros Hl. unfold pcap_record. rewrite Z.min_l by done. rewrite Nat2Z.id, take_ge by lia.
  set (h1 := le_bytes 4 (wrap 32 now.1)). set (h2 := le_bytes 4 now.2). set (h3 := le_bytes 4 (Z.of_nat (length f))). set (h4 := le_bytes 4 _).
  assert (L1 : length h1 = 4%nat) by apply length_le_bytes. assert (L2 : length h2 = 4%nat) by apply length_le_bytes.
  assert (L3 : length h3 = 4%nat) by apply length_le_bytes. assert (L4 : length h4 = 4%nat) by apply length_le_bytes.
  rewrite <-!app_assoc. cbn [pcap_frames]. destruct (h1 ++ h2 ++ h3 ++ h4 ++ f ++ rest) as [|x l] eqn:E.
  { apply (f_equal length) in E. rewrite !length_app in E. simpl in E. lia. }
  rewrite <-E. clear E x l. rewrite bool_decide_eq_false_2 by (rewrite !length_app; lia).
  assert (D8 : drop 8 (h1 ++ h2 ++ h3 ++ h4 ++ f ++ rest) = h3 ++ h4 ++ f ++ rest).
  { rewrite app_assoc. apply drop_app_length'. rewrite length_app. lia. }
  assert (D16 : drop 16 (h1 ++ h2 ++ h3 ++ h4 ++ f ++ rest) = f ++ rest).
  { rewrite !app_assoc, <-(app_assoc _ f rest). apply drop_app_length'. rewrite !length_app. lia. }
  assert (V : of_le h3 = Z.of_nat (length f)) by (apply of_le_le_bytes_fits; unfold fits, MAX_FRAME in *; lia).
  rewrite D8, take_app_length' by done. rewrite V, Nat2Z.id. rewrite D16, take_app_length, <-drop_drop, D16, drop_app_length. done.
Qed.

(** What a capture holds is what went through the device. *)
Lemma pcap_reads_back (recs : list ((Z * Z) * list Z)) :
  Forall (fun r => Z.of_nat (length r.2) <= MAX_FRAME) recs ->
  pcap_frames (length recs) (concat ((fun r => pcap_record r.1 r.2) <$> recs)) = Some recs.*2.
Proof.
  induction 1 as [|r recs Hr _ IH]; [done|]. cbn [length]. change (concat (_ <$> r :: recs)) with (pcap_record r.1 r.2 ++ concat ((fun r => pcap_record r.1 r.2) <$> recs)).
  rewrite pcap_record_read by done. by rewrite IH.
Qed.

(** C27: One message of the virtio-net worker, whatever the guest put in its
    rings and buffers and whatever the backend answers: it never panics and
    leaves queues, memory and backend sound.  Transmit: every chain available in
    the bound transmit ring is taken in ring order and answered in the used ring
    with length 0; a chain that carries a frame (only readable buffers, mapped,
    with a 12-byte header that asks for no offload and then 14 to 65535 bytes) has
    it recorded in the capture and given to the backend, each once and in ring
    order, and is counted as sent or, if the backend refuses it, as dropped; any
    other chain is counted as dropped.  Receive: the frame held back from before
    and the frames the backend gives are, in order, exactly the frames delivered
    or dropped now and then the one held back for want of a chain; each takes the
    next available chain, into whose writable buffers go a 12-byte header and the
    frame with no other byte changed, and which is answered in the used ring with
    that length, or with 0 if it has no room (its own buffers at most having
    changed); counters and capture are the account of those frames.  The round
    ends when the backend has no more frames or the ring no more chains, which the
    fuel allows if the backend has fewer frames than rounds.  A reset forgets the
    queues and the frame held back. *)
Theorem net_kick_accounts {B} `{!NetBackend B} `{!NetBackendLaws B} {M} `{!ByteMemory M} fuel (w : NetWorker B) (mem : M) irq k :
  net_sound w -> bm_inv mem -> net_kick_ok k ->
  exists w' mem' irq' fin, net_on_kick fuel w mem irq k = Some (w', mem', irq', fin) /\ net_sound w' /\ bm_inv mem' /\
    match k with
    | NReset => nw_pending w' = None /\ nw_rx w' = None /\ nw_tx w' = None /\ mem' = mem
    | _ => exists w1 mem1 frames refused, transmitted (prepared k w irq) mem w1 mem1 frames refused /\ received fuel w1 mem1 w' mem' fin
    end.
Proof.
  intros Hs Hm Hk.
  assert (Hgo : forall w0, net_sound w0 ->
    exists w' mem' irq' fin, (let '(w, irq) := sync_link w0 irq in match process_tx w mem irq with None => None | Some (w, mem, irq) => deliver_rx fuel w mem irq end)
      = Some (w', mem', irq', fin) /\ net_sound w' /\ bm_inv mem' /\
      exists w1 mem1 frames refused, transmitted (sync_link w0 irq).1 mem w1 mem1 frames refused /\ received fuel w1 mem1 w' mem' fin).
  { intros w0 Hs0. destruct (sync_link_keeps w0 irq Hs0) as (Hs1 & _). destruct (sync_link w0 irq) as [w1 irq1]. cbn [fst] in *.
    destruct (net_process_tx_ok w1 mem irq1 Hs1 Hm) as (w2 & mem2 & irq2 & frames & n & -> & Hs2 & Hm2 & Ht).
    destruct (net_deliver_rx_ok fuel w2 mem2 irq2 Hs2 Hm2) as (w3 & mem3 & irq3 & fin & -> & Hs3 & Hm3 & Hrc).
    eexists _, _, _, _. split; [done|]. split; [done|]. split; [done|]. by exists w2, mem2, frames, n. }
  destruct k as [n| |]; cbn [net_on_kick].
  - apply Hgo. by apply net_bind_sound.
  - eexists _, _, _, _. split; [done|]. destruct Hs as [[Hb _] _ _]. split; [|done]. split; [split; [done|cbn; done]|by intros ?|by intros ?].
  - by apply Hgo.
Qed.

(** *** An ARP request is answered through both rings *)

(** The transmit ring at [base + 0x1000] holds one chain with an ARP request for
    the gateway; the receive ring at [base + 0x1400] one buffer of 128 bytes. *)
Definition arp_request : list Z :=
  replicate 6 255 ++ DEFAULT_MAC ++ be_bytes 2 ETHERTYPE_ARP ++ [0; 1; 8; 0; 6; 4; 0; 1] ++ DEFAULT_MAC ++ GUEST_IP ++ replicate 6 0 ++ GATEWAY_IP.
Definition arp_ram : Memory :=
  foldl (fun m '(off, bs) => match write_bytes m (demo_base + off) bs with Ok m => m | Err _ => m end) demo_memory
    [(0x1000, demo_desc (demo_base + 0x1800) 54 0 0); (0x1100, [0; 0; 1; 0; 0; 0]); (0x1800, replicate 12 0 ++ arp_request);
     (0x1400, demo_desc (demo_base + 0x1900) 128 2 0); (0x1500, [0; 0; 1; 0; 0; 0])].
Definition arp_queue (off : Z) : QueueNotify :=
  {| n_index := 1; n_size := 4; n_desc := demo_base + off; n_avail := demo_base + off + 0x100; n_used := demo_base + off + 0x200; n_features := 0 |}.
Definition sample_worker : NetWorker LoopbackBackend :=
  net_set_queues (net_bind_slot (arp_queue 0x1400) None) None (net_open DEFAULT_MAC {| lo_replies := [] |} None).

Lemma arp_ram_wf : bm_inv arp_ram.
Proof. apply (bool_decide_unpack (wf arp_ram)). vm_compute. exact I. Qed.
Lemma sample_worker_sound : net_sound sample_worker.
Proof.
  split; [split; [split; [constructor|cbn; unfold VirtioNet.MAX_QUEUED; lia]|cbn; discriminate]| |cbn; intros ? H; discriminate H].
  apply (net_bind_slot_wf (arp_queue 0x1400) None); [intros ? H; discriminate H|]. split; [fits_closed|]. split; [fits_closed|]. split; fits_closed.
Qed.

(** The kick takes one frame from the transmit ring and one chain from the
    receive ring, and the reply is in the guest's buffer. *)
Lemma net_kick_accounts_witness :
  exists w' mem' irq' fin, net_on_kick 3 sample_worker arp_ram VirtioIrq.new (NNotify (arp_queue 0x1000)) = Some (w', mem', irq', fin) /\
    ns_tx_packets (nw_stats w') = 1 /\ ns_rx_packets (nw_stats w') = 1 /\ bm_read mem' (demo_base + 0x1900 + 12) 6 = Ok DEFAULT_MAC /\
    exists w1 mem1 frames refused, transmitted (prepared (NNotify (arp_queue 0x1000)) sample_worker VirtioIrq.new) arp_ram w1 mem1 frames refused /\ received 3 w1 mem1 w' mem' fin.
Proof.
  destruct (net_kick_accounts 3 sample_worker arp_ram VirtioIrq.new (NNotify (arp_queue 0x1000)) sample_worker_sound arp_ram_wf) as (w' & mem' & irq' & fin & E & _ & _ & H).
  - split; [fits_closed|]. split; [fits_closed|]. split; fits_closed.
  - exists w', mem', irq', fin. split; [exact E|].
    assert (Hr : match net_on_kick 3 sample_worker arp_ram VirtioIrq.new (NNotify (arp_queue 0x1000)) with
                 | Some (w, m, _, _) => ns_tx_packets (nw_stats w) = 1 /\ ns_rx_packets (nw_stats w) = 1 /\ bm_read m (demo_base + 0x1900 + 12) 6 = Ok DEFAULT_MAC
                 | None => False end) by (vm_compute; repeat split).
    rewrite E in Hr. destruct Hr as (H1 & H2 & H3). split; [exact H1|]. split; [exact H2|]. split; [exact H3|exact H].
Defined.
