(* ===== verification/VirtioRng.v ===== *)
(** * The virtio entropy device

    Model of [ternvale-devices/src/virtio/rng.rs].  A notification binds the one
    queue and fills the writable buffers of every chain.  It also models
    [ternvale-hv/src/entropy.rs]; [getentropy] itself is a parameter: the bytes the
    host returns for a call, by the number of calls made before and the length. *)

From S2P Require Import Prelude GuestMemory VirtioQueue QueueDevice VirtioIrq VirtioCore QueueWorker.

Definition VIRTIO_RNG_ID : Z := 4.
Definition RNG_MAX_PER_CHAIN : Z := 64 * 1024.
Definition GETENTROPY_MAX : nat := 256.
Definition RNG_INT_VRING : Z := 1.

Record RngStats := { rs_requests : Z; rs_bytes : Z; rs_errors : Z }.
Definition rng_no_stats : RngStats := {| rs_requests := 0; rs_bytes := 0; rs_errors := 0 |}.

(** The device, and how often it asked the host. *)
Record VirtioRng := { rng_queue : option Bound; rng_stats : RngStats; rng_calls : nat }.
Definition rng_new : VirtioRng := {| rng_queue := None; rng_stats := rng_no_stats; rng_calls := 0 |}.

Section device.
Context {M : Type} `{!ByteMemory M} (getentropy : nat -> nat -> option (list Z)).

(** [fill_entropy]: the chunks of at most [GETENTROPY_MAX] bytes; [fuel] of them. *)
Fixpoint fill_chunks (fuel calls n : nat) : nat * option (list Z) :=
  match fuel, n with
  | S fuel, S _ =>
      let k := Nat.min n GETENTROPY_MAX in
      match getentropy calls k with
      | None => (S calls, None)
      | Some chunk => let '(calls, rest) := fill_chunks fuel (S calls) (n - k) in (calls, (fun r => chunk ++ r) <$> rest)
      end
  | _, _ => (calls, Some [])
  end.
Definition fill_entropy (calls n : nat) : nat * option (list Z) := fill_chunks n calls n.

(** The loop over the writable buffers: what was written before an error stays. *)
Fixpoint fill_bufs (mem : M) (bufs : list Buffer) (calls : nat) (written : Z) : M * nat * option Z :=
  match bufs with
  | [] => (mem, calls, Some written)
  | b :: bufs =>
      let take := Z.min (buf_len b) (RNG_MAX_PER_CHAIN - written) in
      if take =? 0 then (mem, calls, Some written)
      else match fill_entropy calls (Z.to_nat take) with
           | (calls, None) => (mem, calls, None)
           | (calls, Some bytes) => match bm_write mem (buf_addr b) bytes with
                                    | Err _ => (mem, calls, None)
                                    | Ok mem => fill_bufs mem bufs calls (written + take)
                                    end
           end
  end.

Definition fill_chain (mem : M) (c : Chain) (calls : nat) : M * nat * option Z :=
  if negb (bool_decide (c_readable c = [])) then (mem, calls, None) else fill_bufs mem (c_writable c) calls 0.

Definition rng_count (used : option Z) (t : RngStats) : RngStats :=
  match used with
  | Some n => {| rs_requests := add_w 64 (rs_requests t) 1; rs_bytes := add_w 64 (rs_bytes t) n; rs_errors := rs_errors t |}
  | None => {| rs_requests := rs_requests t; rs_bytes := rs_bytes t; rs_errors := add_w 64 (rs_errors t) 1 |}
  end.

Definition rng_step (mem : M) (c : Chain) (s : RngStats * nat) : option (M * (RngStats * nat) * Z) :=
  let '(mem, calls, used) := fill_chain mem c s.2 in Some (mem, (rng_count used s.1, calls), default 0 used).

Definition rng_serve (d : VirtioRng) (mem : M) (irq : Irq) : option (VirtioRng * M * Irq) :=
  match rng_queue d with
  | None => Some (d, mem, irq)
  | Some b => match drain_notify rng_step b mem irq RNG_INT_VRING (rng_stats d, rng_calls d) with
              | None => None
              | Some (b, mem, irq, s) => Some ({| rng_queue := Some b; rng_stats := s.1; rng_calls := s.2 |}, mem, irq)
              end
  end.

Definition rng_notify (n : QueueNotify) (d : VirtioRng) (mem : M) (irq : Irq) : option (VirtioRng * M * Irq) :=
  if negb (n_index n =? 0) then Some (d, mem, irq)
  else rng_serve {| rng_queue := Some (rebind n (rng_queue d)); rng_stats := rng_stats d; rng_calls := rng_calls d |} mem irq.

Definition rng_status_changed (status : Z) (d : VirtioRng) : VirtioRng :=
  if status =? 0 then {| rng_queue := None; rng_stats := rng_stats d; rng_calls := rng_calls d |} else d.

(** ** What a chain receives *)

(** [getentropy] fills the whole buffer or fails. *)
Hypothesis getentropy_fills : forall k n bs, getentropy k n = Some bs -> length bs = n /\ Forall (fits 8) bs.

Lemma fill_chunks_length fuel : forall calls n bs, (n <= fuel)%nat -> (fill_chunks fuel calls n).2 = Some bs -> length bs = n /\ Forall (fits 8) bs.
Proof.
  induction fuel as [|fuel IH]; intros calls [|n] bs Hn; cbn [fill_chunks]; [by intros [= <-]|lia|by intros [= <-]|].
  destruct (getentropy calls _) as [chunk|] eqn:E; [|done]. apply getentropy_fills in E as [El Ef].
  specialize (IH (S calls) (S n - Nat.min (S n) GETENTROPY_MAX)%nat). destruct (fill_chunks fuel _ _) as [calls' [rest|]]; [|done]. cbn.
  intros [= <-]. assert (0 < GETENTROPY_MAX)%nat as Hpos by (unfold GETENTROPY_MAX; lia). destruct (IH rest ltac:(lia) eq_refl) as [IHl IHf].
  split; [rewrite length_app; lia|by apply Forall_app].
Qed.

(** The addresses of the buffers, and their length. *)
Definition in_bufs (bufs : list Buffer) (x : Z) : Prop := Exists (fun b => buf_addr b <= x < buf_addr b + buf_len b) bufs.
Definition rng_total (bufs : list Buffer) : Z := foldr (fun b t => buf_len b + t) 0 bufs.

Lemma rng_total_nonneg bufs : Forall buf_ok bufs -> 0 <= rng_total bufs.
Proof. induction 1 as [|b bufs (_ & [? _] & _) _ IH]; unfold rng_total in *; cbn [foldr]; lia. Qed.

Lemma fill_bufs_spec bufs : forall mem calls written,
  bm_inv mem -> Forall buf_ok bufs -> 0 <= written <= RNG_MAX_PER_CHAIN ->
  let '(mem', _, used) := fill_bufs mem bufs calls written in
  bm_inv mem' /\ (forall x, ~ in_bufs bufs x -> bm_byte mem' x = bm_byte mem x) /\
  (forall n, used = Some n -> written <= n <= Z.min RNG_MAX_PER_CHAIN (written + rng_total bufs) /\
     (Forall (fun b => 0 < buf_len b) bufs -> n = Z.min RNG_MAX_PER_CHAIN (written + rng_total bufs))).
Proof.
  induction bufs as [|b bufs IH]; intros mem calls written Hm Hb Hw; cbn [fill_bufs rng_total foldr].
  { split_and!; [done|done|]. intros n [= <-]. split; [lia|]. intros _. lia. }
  apply Forall_cons_iff in Hb as [Hb0 Hb]. pose proof (rng_total_nonneg bufs Hb) as Ht. destruct Hb0 as (Ha & [Hl _] & Hend). fold (rng_total bufs).
  destruct (Z.eqb_spec (Z.min (buf_len b) (RNG_MAX_PER_CHAIN - written)) 0) as [Hz|Hz].
  { split_and!; [done|done|]. intros n [= <-]. split; [lia|]. intros Hp. apply Forall_cons_iff in Hp as [Hp _]. lia. }
  pose proof (fill_chunks_length (Z.to_nat (Z.min (buf_len b) (RNG_MAX_PER_CHAIN - written))) calls (Z.to_nat (Z.min (buf_len b) (RNG_MAX_PER_CHAIN - written)))) as Hf.
  fold (fill_entropy calls (Z.to_nat (Z.min (buf_len b) (RNG_MAX_PER_CHAIN - written)))) in Hf.
  destruct (fill_entropy calls _) as [calls' [bytes|]]; [|by split_and!]. destruct (Hf bytes ltac:(lia) eq_refl) as [Hlen Hfit]. clear Hf.
  destruct (bm_write mem (buf_addr b) bytes) as [m1|] eqn:W; [|by split_and!].
  apply bm_write_spec in W as (Hm1 & Hby & _); [|done..]. specialize (IH m1 calls' (written + Z.min (buf_len b) (RNG_MAX_PER_CHAIN - written)) Hm1 Hb ltac:(lia)).
  destruct (fill_bufs m1 bufs calls' _) as [[m2 c2] used]. destruct IH as (Hm2 & Hout & Hused). split_and!; [done|..].
  - intros x Hx. unfold in_bufs in Hx. rewrite Exists_cons in Hx. rewrite Hout by tauto. rewrite Hby. destruct (decide _); [|done]. lia.
  - intros n Hn. destruct (Hused n Hn) as [H1 H2]. split; [lia|]. intros Hp. apply Forall_cons_iff in Hp as [_ Hp]. rewrite (H2 Hp). lia.
Qed.

(** One chain of the entropy device: the memory is changed only inside its
    writable buffers, at most [RNG_MAX_PER_CHAIN] bytes are reported, and without
    empty buffers exactly the capacity, up to that bound. *)
Lemma fill_chain_spec mem c calls :
  bm_inv mem -> chain_ok c ->
  let '(mem', _, used) := fill_chain mem c calls in
  bm_inv mem' /\ (forall x, ~ in_bufs (c_writable c) x -> bm_byte mem' x = bm_byte mem x) /\
  (forall n, used = Some n -> c_readable c = [] /\ 0 <= n <= RNG_MAX_PER_CHAIN /\
     (Forall (fun b => 0 < buf_len b) (c_writable c) -> n = Z.min RNG_MAX_PER_CHAIN (rng_total (c_writable c)))).
Proof.
  intros Hm [_ _ Hw]. unfold fill_chain. case_bool_decide as Hr; cbn [negb]; [|by split_and!].
  pose proof (fill_bufs_spec (c_writable c) mem calls 0 Hm Hw ltac:(unfold RNG_MAX_PER_CHAIN; lia)) as H. destruct (fill_bufs _ _ _ _) as [[m1 c1] used].
  destruct H as (Hm1 & Hout & Hu). split_and!; [done|done|]. intros n Hn. destruct (Hu n Hn) as [H1 H2]. split_and!; [done|lia|lia|]. intros Hp. by rewrite (H2 Hp).
Qed.

(** A notification never panics the device, and its queue and the memory stay sound. *)
Lemma rng_notify_ok n d mem irq :
  bm_inv mem -> notify_fits n -> slot_ok (rng_queue d) ->
  exists d' mem' irq', rng_notify n d mem irq = Some (d', mem', irq') /\ bm_inv mem' /\ slot_ok (rng_queue d').
Proof.
  intros Hm Hn Hs. unfold rng_notify. destruct (n_index n =? 0); cbn [negb]; [|by eexists _, _, _]. unfold rng_serve. cbn [rng_queue rng_stats rng_calls].
  destruct (drain_notify_ok rng_step (fun _ => True)) with (b := rebind n (rng_queue d)) (mem := mem) (irq := irq) (vring := RNG_INT_VRING) (s := (rng_stats d, rng_calls d))
    as (b & mem' & irq' & s & -> & Hb & Hm' & _); [|done|by apply rebind_wf|done|].
  - intros m c s Hm1 Hc _. pose proof (fill_chain_spec m c s.2 Hm1 Hc) as H. unfold rng_step. destruct (fill_chain m c s.2) as [[m1 c1] used]. destruct H as (? & _). by eexists _, _, _.
  - eexists _, _, _. split_and!; [done..|]. by intros ? [= <-].
Qed.
End device.

(** An empty writable buffer ends the fill: the buffers after it get nothing. *)
Lemma rng_empty_buffer_stops {M} `{!ByteMemory M} getentropy (mem : M) b bufs head calls :
  buf_len b = 0 -> fill_chain getentropy mem {| c_head := head; c_readable := []; c_writable := b :: bufs |} calls = (mem, calls, Some 0).
Proof. intros Hb. unfold fill_chain. cbn [c_readable c_writable]. rewrite bool_decide_true by done. cbn [negb fill_bufs]. by rewrite Hb. Qed.
