(* ===== verification/VirtioConsole.v ===== *)
(** * The virtio console with the agent port

    Model of [ternvale-devices/src/virtio/console.rs], [console/spec.rs] and
    [console/worker.rs].  One message of [Worker::run] is [console_on_kick]; a time-out
    is the message [CTimeout].  What the host socket answers is given by functions
    of the number of socket calls made before, and what the worker did to it is
    kept in a log. *)

From stdpp Require Import list strings.
From S2P Require Import Prelude GuestMemory VirtioQueue QueueDevice VirtioIrq VirtioCore QueueWorker FwCfg.

(** ** Control messages ([spec.rs]) *)

Definition VIRTIO_CONSOLE_ID : Z := 3.
Definition F_MULTIPORT : Z := Z.shiftl 1 1.
Definition AGENT_PORT_ID : Z := 1.
Definition MAX_PORTS : Z := 2.
Definition CON_NUM_QUEUES : Z := 2 * MAX_PORTS + 2.
Definition CONTROL_RX : Z := 2.
Definition CONTROL_TX : Z := 3.
Definition AGENT_RX : Z := 2 * AGENT_PORT_ID + 2.
Definition AGENT_TX : Z := 2 * AGENT_PORT_ID + 3.
Definition AGENT_PORT_NAME : string := "org.ternvale.agent".
Definition DEVICE_READY : Z := 0.
Definition PORT_ADD : Z := 1.
Definition PORT_READY : Z := 3.
Definition PORT_OPEN : Z := 6.
Definition PORT_NAME : Z := 7.

Record Control := { ct_id : Z; ct_event : Z; ct_value : Z }.
Definition ct_encode (c : Control) : list Z := le_bytes 4 (ct_id c) ++ le_bytes 2 (ct_event c) ++ le_bytes 2 (ct_value c).
Definition ct_decode (bytes : list Z) : option Control :=
  if bool_decide (length bytes < 8)%nat then None
  else Some {| ct_id := of_le (take 4 bytes); ct_event := of_le (take 2 (drop 4 bytes)); ct_value := of_le (take 2 (drop 6 bytes)) |}.
Definition encode_port_name (id : Z) (name : string) : list Z :=
  ct_encode {| ct_id := id; ct_event := PORT_NAME; ct_value := 1 |} ++ ascii_bytes name ++ [0].

(** ** Configuration space ([console.rs]) *)

Definition con_config : list Z := replicate 4 0 ++ le_bytes 4 MAX_PORTS.
Definition con_read_config (offset size : Z) : Z :=
  if Z.of_nat (length con_config) <? offset + size then 0 else of_le (take (Z.to_nat size) (drop (Z.to_nat offset) con_config)).

(** ** The worker ([worker.rs]) *)

Definition CON_INT_VRING : Z := 1.
Definition READ_MAX : nat := 4096.

Inductive SockRead := SClosed | SBytes (bs : list Z) | SWouldBlock | SFailed.
Record HostSocket := { hs_connect : nat -> bool; hs_write_all : nat -> list Z -> bool; hs_read : nat -> SockRead }.
Inductive HostEvent := Connected | Sent (bs : list Z) | Closed.
Inductive ConKick := CNotify (n : QueueNotify) | CReset | CTimeout.

Record Console := {
  co_queues : list (option Bound); co_pending : list (list Z); co_socket : bool; co_guest_open : bool; co_announced : bool;
  co_tx_bytes : Z; co_rx_bytes : Z; co_connections : Z; co_calls : nat; co_log : list HostEvent;
}.

Create HintDb console.

Definition con_new : Console :=
  {| co_queues := replicate 6 None; co_pending := []; co_socket := false; co_guest_open := false; co_announced := false; co_tx_bytes := 0; co_rx_bytes := 0;
     co_connections := 0; co_calls := 0; co_log := [] |}.

Definition set_queue (i : Z) (b : Bound) (c : Console) : Console :=
  {| co_queues := <[Z.to_nat i := Some b]> (co_queues c); co_pending := co_pending c; co_socket := co_socket c; co_guest_open := co_guest_open c;
     co_announced := co_announced c; co_tx_bytes := co_tx_bytes c; co_rx_bytes := co_rx_bytes c; co_connections := co_connections c; co_calls := co_calls c;
     co_log := co_log c |}.
Definition set_pending (p : list (list Z)) (c : Console) : Console :=
  {| co_queues := co_queues c; co_pending := p; co_socket := co_socket c; co_guest_open := co_guest_open c; co_announced := co_announced c;
     co_tx_bytes := co_tx_bytes c; co_rx_bytes := co_rx_bytes c; co_connections := co_connections c; co_calls := co_calls c; co_log := co_log c |}.
(** [self.socket = None]: a socket that was open is closed. *)
Definition close_socket (c : Console) : Console :=
  {| co_queues := co_queues c; co_pending := co_pending c; co_socket := false; co_guest_open := co_guest_open c; co_announced := co_announced c;
     co_tx_bytes := co_tx_bytes c; co_rx_bytes := co_rx_bytes c; co_connections := co_connections c; co_calls := co_calls c;
     co_log := co_log c ++ if co_socket c then [Closed] else [] |}.
Definition count_call (c : Console) : Console :=
  {| co_queues := co_queues c; co_pending := co_pending c; co_socket := co_socket c; co_guest_open := co_guest_open c; co_announced := co_announced c;
     co_tx_bytes := co_tx_bytes c; co_rx_bytes := co_rx_bytes c; co_connections := co_connections c; co_calls := S (co_calls c); co_log := co_log c |}.

Definition con_slot (i : Z) (c : Console) : option Bound := mjoin (co_queues c !! Z.to_nat i).

Definition con_bind (n : QueueNotify) (c : Console) : Console := set_queue (n_index n) (rebind n (con_slot (n_index n) c)) c.

Definition con_reset (c : Console) : Console :=
  {| co_queues := replicate 6 None; co_pending := []; co_socket := false; co_guest_open := false; co_announced := false; co_tx_bytes := co_tx_bytes c;
     co_rx_bytes := co_rx_bytes c; co_connections := co_connections c; co_calls := co_calls c; co_log := co_log (close_socket c) |}.

Definition announcement : list (list Z) :=
  [ct_encode {| ct_id := AGENT_PORT_ID; ct_event := PORT_ADD; ct_value := 1 |}; encode_port_name AGENT_PORT_ID AGENT_PORT_NAME].

Definition announce_ports (c : Console) : Console :=
  if co_announced c then c
  else {| co_queues := co_queues c; co_pending := co_pending c ++ announcement; co_socket := co_socket c; co_guest_open := co_guest_open c; co_announced := true;
          co_tx_bytes := co_tx_bytes c; co_rx_bytes := co_rx_bytes c; co_connections := co_connections c; co_calls := co_calls c; co_log := co_log c |}.

Definition set_guest_open (v : bool) (c : Console) : Console :=
  {| co_queues := co_queues c; co_pending := co_pending c; co_socket := co_socket c; co_guest_open := v; co_announced := co_announced c;
     co_tx_bytes := co_tx_bytes c; co_rx_bytes := co_rx_bytes c; co_connections := co_connections c; co_calls := co_calls c; co_log := co_log c |}.

Definition on_control (c : Console) (msg : Control) : Console :=
  if (ct_event msg =? DEVICE_READY) && (ct_value msg =? 1) then announce_ports c
  else if (ct_event msg =? PORT_READY) && (ct_id msg =? AGENT_PORT_ID) && (ct_value msg =? 1) then c
  else if (ct_event msg =? PORT_OPEN) && (ct_id msg =? AGENT_PORT_ID) then
    let c := set_guest_open (ct_value msg =? 1) c in if negb (co_guest_open c) then close_socket c else c
  else c.

Section worker.
Context {M : Type} `{!ByteMemory M} (host : HostSocket).
Implicit Types (c : Console) (mem : M).

Definition control_step mem (ch : Chain) (msgs : list Control) : option (M * list Control * Z) :=
  Some (mem, match ct_decode (read_mapped mem (c_readable ch)) with Some m => msgs ++ [m] | None => msgs end, 0).

(** [None] when a queue method panics. *)
Definition control_rx c mem (irq : Irq) : option (Console * M * Irq) :=
  match con_slot CONTROL_RX c with
  | None => Some (c, mem, irq)
  | Some b =>
      let '(q, cs, _) := chains mem DRAIN (bd_queue b) in
      match serve_loop control_step mem q cs [] false with
      | None => None
      | Some (mem, q, msgs, _) =>
          Some (foldl on_control (set_queue CONTROL_RX (with_queue b q) c) msgs, mem, if bool_decide (cs = []) then irq else raise CON_INT_VRING irq)
      end
  end.

Definition ensure_socket c : Console :=
  if negb (co_guest_open c) || co_socket c then c
  else if hs_connect host (co_calls c)
  then {| co_queues := co_queues c; co_pending := co_pending c; co_socket := true; co_guest_open := co_guest_open c; co_announced := co_announced c;
          co_tx_bytes := co_tx_bytes c; co_rx_bytes := co_rx_bytes c; co_connections := add_w 64 (co_connections c) 1; co_calls := S (co_calls c);
          co_log := co_log c ++ [Connected] |}
  else count_call c.

Definition con_write_chain (index : Z) (data : list Z) c mem (irq : Irq) : option (bool * Console * M * Irq) :=
  match con_slot index c with
  | None => Some (false, c, mem, irq)
  | Some b =>
      match pop mem (bd_queue b) with
      | (q, Stop) => Some (false, set_queue index (with_queue b q) c, mem, irq)
      | (_, Panic) => None
      | (q, Ret ch) =>
          let '(mem, written) := scatter mem (c_writable ch) data in
          match add_used q mem (c_head ch) (wrap 32 (Z.of_nat written)) with
          | (q, mem, Ret _) =>
              Some (bool_decide (written = length data) || (index =? AGENT_RX), set_queue index (with_queue b q) c, mem, raise CON_INT_VRING irq)
          | _ => None
          end
      end
  end.

(** The [while let] of [control_tx] over what is pending. *)
Fixpoint control_tx_loop (msgs : list (list Z)) c mem (irq : Irq) : option (Console * M * Irq) :=
  match msgs with
  | [] => Some (set_pending [] c, mem, irq)
  | msg :: rest =>
      match con_write_chain CONTROL_TX msg c mem irq with
      | None => None
      | Some (true, c, mem, irq) => control_tx_loop rest c mem irq
      | Some (false, c, mem, irq) => Some (set_pending (msg :: rest) c, mem, irq)
      end
  end.
Definition control_tx c mem (irq : Irq) : option (Console * M * Irq) := control_tx_loop (co_pending c) c mem irq.

Definition send_payload (payload : list Z) c : Console :=
  if co_socket c then
    if hs_write_all host (co_calls c) payload
    then {| co_queues := co_queues c; co_pending := co_pending c; co_socket := true; co_guest_open := co_guest_open c; co_announced := co_announced c;
            co_tx_bytes := add_w 64 (co_tx_bytes c) (Z.of_nat (length payload)); co_rx_bytes := co_rx_bytes c; co_connections := co_connections c;
            co_calls := S (co_calls c); co_log := co_log c ++ [Sent payload] |}
    else close_socket (count_call c)
  else c.

Definition agent_step mem (ch : Chain) c : option (M * Console * Z) := Some (mem, send_payload (read_mapped mem (c_readable ch)) c, 0).

Definition agent_tx c mem (irq : Irq) : option (Console * M * Irq) :=
  match con_slot AGENT_TX c with
  | None => Some (c, mem, irq)
  | Some b =>
      let '(q, cs, _) := chains mem DRAIN (bd_queue b) in
      match serve_loop agent_step mem q cs c false with
      | None => None
      | Some (mem, q, c, _) => Some (set_queue AGENT_TX (with_queue b q) c, mem, if bool_decide (cs = []) then irq else raise CON_INT_VRING irq)
      end
  end.

Definition agent_rx c mem (irq : Irq) : option (Console * M * Irq) :=
  if negb (co_socket c) then Some (c, mem, irq)
  else
    let read := hs_read host (co_calls c) in
    let c := count_call c in
    match read with
    | SClosed | SFailed => Some (close_socket c, mem, irq)
    | SWouldBlock => Some (c, mem, irq)
    | SBytes bs =>
        match con_write_chain AGENT_RX bs c mem irq with
        | None => None
        | Some (false, c, mem, irq) => Some (c, mem, irq)
        | Some (true, c, mem, irq) =>
            Some ({| co_queues := co_queues c; co_pending := co_pending c; co_socket := co_socket c; co_guest_open := co_guest_open c;
                     co_announced := co_announced c; co_tx_bytes := co_tx_bytes c; co_rx_bytes := add_w 64 (co_rx_bytes c) (Z.of_nat (length bs));
                     co_connections := co_connections c; co_calls := co_calls c; co_log := co_log c |}, mem, irq)
        end
    end.

Definition pump c mem (irq : Irq) : option (Console * M * Irq) :=
  match control_rx c mem irq with
  | None => None
  | Some (c, mem, irq) =>
      match control_tx (ensure_socket c) mem irq with
      | None => None
      | Some (c, mem, irq) => match agent_tx c mem irq with None => None | Some (c, mem, irq) => agent_rx c mem irq end
      end
  end.

Definition con_on_notify (n : QueueNotify) c mem (irq : Irq) : option (Console * M * Irq) :=
  if CON_NUM_QUEUES <=? n_index n then Some (c, mem, irq) else pump (con_bind n c) mem irq.

(** One message of [run]. *)
Definition console_on_kick (k : ConKick) c mem (irq : Irq) : option (Console * M * Irq) :=
  match k with CNotify n => con_on_notify n c mem irq | CReset => Some (con_reset c, mem, irq) | CTimeout => pump c mem irq end.
End worker.

(** ** The worker's invariant *)

(** The log of a socket replayed: what happened is possible, and whether it is open. *)
Definition log_step (s : option bool) (e : HostEvent) : option bool :=
  match s, e with
  | Some false, Connected => Some true
  | Some true, Sent _ => Some true
  | Some true, Closed => Some false
  | _, _ => None
  end.
Definition replay_log (l : list HostEvent) : option bool := foldl log_step (Some false) l.

(** The queues are sound; the socket is open only while the guest holds the port
    open, and the log says so; what is pending is what is left of one announcement. *)
Record con_inv (c : Console) : Prop := {
  ci_queues : length (co_queues c) = 6%nat;
  ci_bound : forall i, slot_ok (con_slot i c);
  ci_open : co_socket c = true -> co_guest_open c = true;
  ci_log : replay_log (co_log c) = Some (co_socket c);
  ci_pending : co_pending c `suffix_of` announcement;
  ci_announced : co_announced c = false -> co_pending c = [];
}.

Lemma con_slot_set i j b c : con_slot j (set_queue i b c) = con_slot j c \/ con_slot j (set_queue i b c) = Some b.
Proof.
  unfold con_slot, set_queue. cbn [co_queues]. destruct (decide (Z.to_nat i = Z.to_nat j)) as [->|H].
  - destruct (decide (Z.to_nat j < length (co_queues c))%nat) as [Hl|Hl]; [right; by rewrite list_lookup_insert_eq by done|left].
    by rewrite list_insert_ge by lia.
  - left. by rewrite list_lookup_insert_ne by done.
Qed.

Lemma set_queue_inv i b c : bound_wf b -> con_inv c -> con_inv (set_queue i b c).
Proof.
  intros Hb [H1 H2 H3 H4 H5 H6]. split; cbn; try done.
  - by rewrite length_insert.
  - intros j b' Hj. destruct (con_slot_set i j b c) as [E|E]; rewrite E in Hj; [by eapply H2|]. by injection Hj as <-.
Qed.

Lemma close_inv c : con_inv c -> con_inv (close_socket c).
Proof.
  intros [H1 H2 H3 H4 H5 H6]. split; cbn; try done. unfold replay_log in *. rewrite foldl_app, H4. by destruct (co_socket c).
Qed.

Lemma reset_inv c : con_inv c -> con_inv (con_reset c).
Proof.
  intros H. pose proof (ci_log _ (close_inv c H)) as Hl. split; cbn; try done. 
  - intros i. apply no_slots_ok.
  - apply suffix_nil.
Qed.

Lemma announce_inv c : con_inv c -> con_inv (announce_ports c).
Proof.
  intros H. unfold announce_ports. destruct (co_announced c) eqn:E; [done|]. destruct H as [H1 H2 H3 H4 H5 H6]. split; cbn; try done. by rewrite H6.
Qed.

Lemma open_inv v c : (co_socket c = true -> v = true) -> con_inv c -> con_inv (set_guest_open v c).
Proof. intros Hv [H1 H2 H3 H4 H5 H6]. by split. Qed.

Lemma closed_open_inv c : con_inv c -> con_inv (close_socket (set_guest_open false c)).
Proof. intros H. by apply (open_inv false (close_socket c)), close_inv. Qed.

Lemma on_control_inv c msg : con_inv c -> con_inv (on_control c msg).
Proof.
  intros H. unfold on_control.
  case_match; [by apply announce_inv|]. case_match; [done|]. case_match; [|done]. cbv zeta.
  destruct (ct_value msg =? 1); cbn [set_guest_open co_guest_open negb]; [by apply open_inv|by apply closed_open_inv].
Qed.

Lemma controls_inv msgs c : con_inv c -> con_inv (foldl on_control c msgs).
Proof. revert c. induction msgs; intros c H; [done|]. cbn. auto using on_control_inv. Qed.

Lemma call_inv c : con_inv c -> con_inv (count_call c).
Proof. by intros []. Qed.

Lemma announcement_fits : Forall (Forall (fits 8)) announcement.
Proof. constructor; [by apply all_bytes_fits|]. constructor; [by apply all_bytes_fits|constructor]. Qed.

#[export] Hint Resolve set_queue_inv close_inv reset_inv call_inv controls_inv : console.

Section safety.
Context {M : Type} `{!ByteMemory M} (host : HostSocket).
(** [read] returns at most the buffer it is given, and bytes. *)
Hypothesis read_bytes_fit : forall k bs, hs_read host k = SBytes bs -> Forall (fits 8) bs.
Implicit Types (c : Console) (mem : M).

Definition con_result (r : option (Console * M * Irq)) : Prop := exists c mem irq, r = Some (c, mem, irq) /\ con_inv c /\ bm_inv mem.

Lemma con_result_ret c mem irq : con_inv c -> bm_inv mem -> con_result (Some (c, mem, irq)).
Proof. intros. by eexists _, _, _. Qed.

Lemma control_rx_ok c mem irq : con_inv c -> bm_inv mem -> con_result (control_rx c mem irq).
Proof.
  intros Hc Hm. unfold control_rx. destruct (con_slot CONTROL_RX c) as [b|] eqn:Eb; [|by apply con_result_ret].
  pose proof (ci_bound c Hc _ _ Eb) as Hb. destruct (chains_keeps mem DRAIN (bd_queue b) Hm Hb) as [Hq Hcs]. destruct (chains _ _ _) as [[q cs] fin]. cbn [fst snd] in *.
  destruct (serve_loop_ok control_step (fun _ => True)) with (mem := mem) (q := q) (cs := cs) (s := @nil Control) (completed := false)
    as (m1 & q1 & s1 & k1 & -> & Hm1 & Hq1 & _); [|done..|]; [intros; by eexists _, _, _|]. apply con_result_ret; [|done]. by apply controls_inv, set_queue_inv.
Qed.

Lemma ensure_inv c : con_inv c -> con_inv (ensure_socket host c).
Proof.
  intros [H1 H2 H3 H4 H5 H6]. unfold ensure_socket. destruct (co_guest_open c) eqn:Eg; cbn [negb orb]; [|by split; try rewrite Eg].
  destruct (co_socket c) eqn:Es; [by split; rewrite ?Es, ?Eg|]. destruct (hs_connect host _); split; cbn; rewrite ?Eg, ?Es; try done.
  unfold replay_log in *. by rewrite foldl_app, H4.
Qed.

Lemma write_chain_ok index data c mem irq :
  Forall (fits 8) data -> con_inv c -> bm_inv mem ->
  exists r c' mem' irq', con_write_chain index data c mem irq = Some (r, c', mem', irq') /\ con_inv c' /\ bm_inv mem'.
Proof.
  intros Hd Hc Hm. unfold con_write_chain. destruct (con_slot index c) as [b|] eqn:Eb; [|by eexists _, _, _, _].
  pose proof (pop_keeps mem (bd_queue b) Hm (ci_bound c Hc _ _ Eb)) as Hp. destruct (pop mem (bd_queue b)) as [q [ch| |]]; [|by eexists _, _, _, _; eauto with console|done].
  destruct Hp as [Hq Hch]. pose proof (scatter_spec (c_writable ch) mem data Hm (cn_writable _ Hch) Hd) as [Hm1 _]. destruct (scatter mem _ _) as [m1 w]. cbn [fst] in Hm1.
  pose proof (add_used_keeps m1 q (c_head ch) (wrap 32 (Z.of_nat w)) Hm1 Hq) as Hu. destruct (add_used _ _ _ _) as [[q1 m2] [u| |]]; try done.
  destruct Hu as (Hq1 & Hm2 & _). eexists _, _, _, _. split_and!; [done| |done]. by apply set_queue_inv.
Qed.

Lemma pending_inv p c : p `suffix_of` announcement -> co_announced c = true \/ p = [] -> con_inv c -> con_inv (set_pending p c).
Proof. intros Hp Ha [H1 H2 H3 H4 H5 H6]. split; cbn; try done. intros E. destruct Ha as [Ha|Ha]; [congruence|done]. Qed.

Lemma write_chain_announced index data c mem irq r c' mem' irq' :
  con_write_chain index data c mem irq = Some (r, c', mem', irq') -> co_announced c' = co_announced c.
Proof. unfold con_write_chain. intros H. repeat case_match; simplify_eq; done. Qed.

Lemma control_tx_loop_ok msgs c mem irq :
  msgs `suffix_of` announcement -> co_announced c = true \/ msgs = [] -> con_inv c -> bm_inv mem -> con_result (control_tx_loop msgs c mem irq).
Proof.
  revert c mem irq. induction msgs as [|msg rest IH]; intros c mem irq Hs Ha Hc Hm; cbn [control_tx_loop].
  { apply con_result_ret; [|done]. by apply pending_inv. }
  assert (Hf : Forall (fits 8) msg) by (pose proof announcement_fits as F; destruct Hs as [pre Hs]; rewrite Hs, Forall_app in F; destruct F as [_ F]; by apply Forall_cons_iff in F as [? _]).
  destruct (write_chain_ok CONTROL_TX msg c mem irq Hf Hc Hm) as (r & c' & mem' & irq' & E & Hc' & Hm'). rewrite E.
  destruct Ha as [Ha|]; [|done]. rewrite <- (write_chain_announced _ _ _ _ _ _ _ _ _ E) in Ha.
  destruct r; [apply IH; [by eapply suffix_cons_l|by left|done..]|]. apply con_result_ret; [|done]. apply pending_inv; [done|by left|done].
Qed.

Lemma send_inv payload c : con_inv c -> con_inv (send_payload host payload c).
Proof.
  intros Hc. unfold send_payload. destruct (co_socket c) eqn:Es; [|done]. destruct (hs_write_all _ _ _); [|by auto with console].
  destruct Hc as [H1 H2 H3 H4 H5 H6]. split; cbn; try done; [by intros _; apply H3|]. unfold replay_log in *. by rewrite foldl_app, H4, Es.
Qed.

Lemma agent_tx_ok c mem irq : con_inv c -> bm_inv mem -> con_result (agent_tx host c mem irq).
Proof.
  intros Hc Hm. unfold agent_tx. destruct (con_slot AGENT_TX c) as [b|] eqn:Eb; [|by apply con_result_ret].
  pose proof (ci_bound c Hc _ _ Eb) as Hb. destruct (chains_keeps mem DRAIN (bd_queue b) Hm Hb) as [Hq Hcs]. destruct (chains _ _ _) as [[q cs] fin]. cbn [fst snd] in *.
  destruct (serve_loop_ok (agent_step host) con_inv) with (mem := mem) (q := q) (cs := cs) (s := c) (completed := false)
    as (m1 & q1 & s1 & k1 & -> & Hm1 & Hq1 & Hs1); [|done..|]; [intros; eexists _, _, _; split; [done|auto using send_inv]|]. apply con_result_ret; [|done]. by apply set_queue_inv.
Qed.

Lemma agent_rx_ok c mem irq : con_inv c -> bm_inv mem -> con_result (agent_rx host c mem irq).
Proof.
  intros Hc Hm. unfold agent_rx. destruct (co_socket c); cbn [negb]; [|by apply con_result_ret]. cbv zeta.
  destruct (hs_read host (co_calls c)) as [|bs| |] eqn:Er; [apply con_result_ret; auto with console| |apply con_result_ret; auto with console|apply con_result_ret; auto with console].
  destruct (write_chain_ok AGENT_RX bs (count_call c) mem irq (read_bytes_fit _ _ Er) (call_inv _ Hc) Hm) as ([|] & c' & mem' & irq' & -> & [H1 H2 H3 H4 H5 H6] & Hm');
    apply con_result_ret; done.
Qed.

Lemma pump_ok c mem irq : con_inv c -> bm_inv mem -> con_result (pump host c mem irq).
Proof.
  intros Hc Hm. unfold pump. destruct (control_rx_ok c mem irq Hc Hm) as (c1 & m1 & i1 & -> & Hc1 & Hm1). pose proof (ensure_inv c1 Hc1) as Hc2. unfold control_tx.
  destruct (control_tx_loop_ok (co_pending (ensure_socket host c1)) (ensure_socket host c1) m1 i1) as (c3 & m3 & i3 & -> & Hc3 & Hm3); [apply Hc2| |done|done|].
  { destruct (co_announced (ensure_socket host c1)) eqn:E; [by left|right; by apply Hc2]. }
  destruct (agent_tx_ok c3 m3 i3 Hc3 Hm3) as (c4 & m4 & i4 & -> & Hc4 & Hm4). by apply agent_rx_ok.
Qed.

(** The virtio-console worker, over any message (a notification, a reset or a
    time-out), any guest memory and any answers of the host socket: it never
    panics; the socket to the agent server is open only while the guest holds the
    agent port open, and every send happened between a connect and a close; the
    control messages waiting are always what is left of one announcement of the
    port, so a driver that repeats DEVICE_READY cannot make them grow. *)
Theorem console_invariant (k : ConKick) c mem irq :
  con_inv c -> bm_inv mem -> (forall n, k = CNotify n -> notify_fits n) ->
  exists c' mem' irq', console_on_kick host k c mem irq = Some (c', mem', irq') /\ con_inv c' /\ bm_inv mem' /\ (length (co_pending c') <= 2)%nat.
Proof.
  intros Hc Hm Hk. assert (H : con_result (console_on_kick host k c mem irq)).
  - destruct k as [n| |]; cbn [console_on_kick].
    + unfold con_on_notify. destruct (_ <=? _); [by apply con_result_ret|]. apply pump_ok; [|done]. apply set_queue_inv; [|done]. apply rebind_wf; [by apply Hk|apply Hc].
    + apply con_result_ret; auto with console.
    + by apply pump_ok.
  - destruct H as (c' & mem' & irq' & -> & Hc' & Hm'). eexists _, _, _. split_and!; [done..|]. apply (suffix_length _ announcement), Hc'.
Qed.

(** What a driver that follows the virtio specification sees: its control receive
    queue, queue 2, holds empty buffers for the device to fill.  The device takes
    them as messages, so it never learns that the driver is ready. *)
Lemma control_rx_eats_receive_buffers c mem irq b :
  con_slot CONTROL_RX c = Some b -> Forall (fun ch => c_readable ch = []) (chains mem DRAIN (bd_queue b)).1.2 ->
  forall c' mem' irq', control_rx c mem irq = Some (c', mem', irq') -> co_announced c' = co_announced c /\ co_pending c' = co_pending c.
Proof.
  intros Hb Hr c' mem' irq'. unfold control_rx. rewrite Hb. destruct (chains _ _ _) as [[q cs] fin]. cbn [fst snd] in Hr.
  assert (H : forall mem q completed m1 q1 msgs k1, serve_loop control_step mem q cs [] completed = Some (m1, q1, msgs, k1) -> msgs = []).
  { clear -Hr. induction Hr as [|ch cs Hch _ IH]; intros mem q completed m1 q1 msgs k1; cbn [serve_loop]; [by intros [= _ _ <- _]|].
    assert (E : control_step mem ch [] = Some (mem, [], 0)) by (unfold control_step; by rewrite Hch). rewrite E. cbn [mbind option_bind].
    destruct (add_used _ _ _ _) as [[q' m'] [u| |]]; try done. apply IH. }
  destruct (serve_loop _ _ _ _ _ _) as [[[[m1 q1] msgs] k1]|] eqn:E; [|done]. apply H in E as ->. cbn [foldl]. intros [= <- _ _]. done.
Qed.
End safety.

(** Control messages survive the wire. *)
Lemma control_roundtrip id event value rest :
  fits 32 id -> fits 16 event -> fits 16 value ->
  ct_decode (ct_encode {| ct_id := id; ct_event := event; ct_value := value |} ++ rest) = Some {| ct_id := id; ct_event := event; ct_value := value |}.
Proof.
  intros H1 H2 H3. unfold ct_decode, ct_encode. cbn [ct_id ct_event ct_value]. rewrite bool_decide_false by (rewrite !length_app, !length_le_bytes; lia).
  rewrite <- !app_assoc. rewrite (take_app_length' (le_bytes 4 id)), !(drop_app_length' (le_bytes 4 id)) by by rewrite length_le_bytes.
  change 6%nat with (4 + 2)%nat. rewrite <- drop_drop, (drop_app_length' (le_bytes 4 id)) by by rewrite length_le_bytes.
  rewrite (take_app_length' (le_bytes 2 event)), (drop_app_length' (le_bytes 2 event)), (take_app_length' (le_bytes 2 value)) by by rewrite length_le_bytes.
  by rewrite !of_le_le_bytes_fits.
Qed.

Lemma con_new_inv : con_inv con_new.
Proof. split; [done|intros i; apply no_slots_ok|done|done|apply suffix_nil|done]. Qed.

(** A host socket that is up and has five bytes for the guest. *)
Definition demo_socket : HostSocket := {| hs_connect _ := true; hs_write_all _ _ := true; hs_read k := SBytes [1; 2; 3; 4; 5] |}.

Lemma console_invariant_witness :
  exists c' mem' irq', console_on_kick demo_socket (CNotify {| n_index := AGENT_TX; n_size := 4; n_desc := demo_base + 0x1000; n_avail := demo_base + 0x2000;
      n_used := demo_base + 0x3000; n_features := VIRTIO_F_INDIRECT_DESC |}) con_new demo_ram VirtioIrq.new = Some (c', mem', irq')
    /\ con_inv c' /\ bm_inv mem' /\ (length (co_pending c') <= 2)%nat.
Proof.
  apply console_invariant.
  - intros k bs H. injection H as <-. by apply all_bytes_fits.
  - exact con_new_inv.
  - exact demo_ram_wf.
  - intros n H. injection H as <-. split; [fits_closed|]. split; [fits_closed|]. split; fits_closed.
Defined.
