(* ===== verification/VirtioBalloon.v ===== *)
(** * The virtio balloon

    Model of [ternvale-devices/src/virtio/balloon.rs] and
    [balloon/{guest_stats,pages,policy,queues}.rs].  The state [Balloon] is the shared
    [Inner]; [BEvent] has the messages of the worker and the calls of the other
    threads (the policy thread, the control socket, the pressure callback, the
    driver's configuration writes), and [balloon_step] is one of them.  The host's
    [madvise] and its clock are parameters; every [madvise] and its answer is kept in
    a log.  The comparison of busy time in floating point is a parameter too. *)

From stdpp Require Import list gmap sorting.
From S2P Require Import Prelude GuestMemory VirtioQueue QueueDevice VirtioIrq VirtioCore QueueWorker PciIntx.

Definition VIRTIO_BALLOON_ID : Z := 5.
Definition F_MUST_TELL_HOST : Z := Z.shiftl 1 0.
Definition F_STATS_VQ : Z := Z.shiftl 1 1.
Definition F_DEFLATE_ON_OOM : Z := Z.shiftl 1 2.
Definition F_PAGE_REPORTING : Z := Z.shiftl 1 5.
Definition NQUEUE : Z := 4.
Definition BAL_INT_CONFIG : Z := 2.
Definition BAL_INT_VRING : Z := 1.
Definition MAX_PFNS : nat := 4096.
Definition STAT_SIZE : nat := 10.
Definition Q_INFLATE : Z := 0.
Definition Q_DEFLATE : Z := 1.
Definition Q_STATS : Z := 2.
Definition Q_REPORTING : Z := 3.
Definition balloon_features : Z :=
  Z.lor F_MUST_TELL_HOST (Z.lor F_STATS_VQ (Z.lor F_DEFLATE_ON_OOM (Z.lor F_PAGE_REPORTING VIRTIO_F_EVENT_IDX))).

(** ** What the guest says of its memory ([guest_stats.rs]) *)

Definition S_MEMFREE : Z := 4.
Definition S_MEMTOT : Z := 5.
Definition S_AVAIL : Z := 6.
Definition S_CACHES : Z := 7.
Definition TAG_MAX : Z := 16.

Record GuestMem := { gm_memfree : Z; gm_memtot : Z; gm_avail : Z; gm_caches : Z; gm_seen : Z }.
Definition no_guest_mem : GuestMem := {| gm_memfree := 0; gm_memtot := 0; gm_avail := 0; gm_caches := 0; gm_seen := 0 |}.

Definition gm_update (g : GuestMem) (tag val : Z) : GuestMem :=
  if TAG_MAX <? tag then g
  else {| gm_memfree := if tag =? S_MEMFREE then val else gm_memfree g;
          gm_memtot := if tag =? S_MEMTOT then val else gm_memtot g;
          gm_avail := if tag =? S_AVAIL then val else gm_avail g;
          gm_caches := if tag =? S_CACHES then val else gm_caches g;
          gm_seen := Z.lor (gm_seen g) (Z.shiftl 1 tag) |}.

Definition has_tot (g : GuestMem) : bool := negb (Z.land (gm_seen g) (Z.shiftl 1 S_MEMTOT) =? 0).
Definition in_use_bytes (g : GuestMem) : option Z :=
  if negb (has_tot g) then None
  else
    let free := if negb (Z.land (gm_seen g) (Z.shiftl 1 S_AVAIL) =? 0) then gm_avail g else gm_memfree g in
    Some (saturating_sub (gm_memtot g) free).

(** ** Inflated pages ([pages.rs]) *)

Definition PFN_SHIFT : Z := 12.
Definition GUEST_PAGE : Z := Z.shiftl 1 PFN_SHIFT.

Inductive Advice := FreeReusable | FreeReuse.
#[export] Instance Advice_eq_dec : EqDecision Advice.
Proof. solve_decision. Defined.
(** Who calls [madvise]: the inflated set, or a free-page report. *)
Inductive Caller := BySync | ByReport.
#[export] Instance Caller_eq_dec : EqDecision Caller.
Proof. solve_decision. Defined.
Record AdviseCall := { ac_by : Caller; ac_advice : Advice; ac_gpa : Z; ac_len : Z; ac_ok : bool }.
Record Inflated := { in_pfns : gset Z; in_advised : gset Z; in_log : list AdviseCall }.
Definition inflated_new : Inflated := {| in_pfns := ∅; in_advised := ∅; in_log := [] |}.
Definition inflated_len (i : Inflated) : Z := Z.of_nat (size (in_pfns i)).
Definition set_pfns (s : gset Z) (i : Inflated) : Inflated := {| in_pfns := s; in_advised := in_advised i; in_log := in_log i |}.

(** A [BTreeSet] is read in ascending order. *)
Definition ascending (s : gset Z) : list Z := merge_sort Z.le (elements s).

(** The host page of a guest page, and whether all of it is inflated. *)
Definition host_of (pfn : Z) : Z := let gpa := Z.shiftl pfn PFN_SHIFT in gpa - gpa mod HOST_PAGE_SIZE.
Definition per_host : Z := HOST_PAGE_SIZE / GUEST_PAGE.
Definition full (pfns : gset Z) (host : Z) : bool := forallb (fun i => bool_decide (Z.shiftr host PFN_SHIFT + i ∈ pfns)) (seqZ 0 per_host).
Definition want (pfns : gset Z) : gset Z := list_to_set (filter (fun h => full pfns h = true) (host_of <$> elements pfns)).

Section pages.
Context {M : Type} `{!ByteMemory M} (madvise : nat -> bool).
Implicit Types (mem : M) (i : Inflated).

(** [host_ptr] succeeds exactly where a read does. *)
Definition page_mapped mem (gpa len : Z) : bool := match bm_read mem gpa (Z.to_nat len) with Ok _ => true | Err _ => false end.

(** [GuestMemory::advise] behind the [PageReclaim] trait. *)
Definition advise_page mem (by_ : Caller) (a : Advice) (gpa len : Z) i : bool * Inflated :=
  let ok := if len =? 0 then true else page_mapped mem gpa len && madvise (length (in_log i)) in
  (ok, {| in_pfns := in_pfns i; in_advised := in_advised i; in_log := in_log i ++ [{| ac_by := by_; ac_advice := a; ac_gpa := gpa; ac_len := len; ac_ok := ok |}] |}).

Definition advise_in mem i (host : Z) : Inflated :=
  let '(ok, i) := advise_page mem BySync FreeReusable host HOST_PAGE_SIZE i in
  if ok then {| in_pfns := in_pfns i; in_advised := {[host]} ∪ in_advised i; in_log := in_log i |} else i.
Definition advise_out mem i (host : Z) : Inflated :=
  let '(ok, i) := advise_page mem BySync FreeReuse host HOST_PAGE_SIZE i in
  if ok then {| in_pfns := in_pfns i; in_advised := in_advised i ∖ {[host]}; in_log := in_log i |} else i.

Definition sync_host mem i : Inflated :=
  let wanted := want (in_pfns i) in
  let i := foldl (advise_in mem) i (ascending (wanted ∖ in_advised i)) in
  foldl (advise_out mem) i (ascending (in_advised i ∖ wanted)).

Definition inflate mem (pfns : list Z) i : Inflated :=
  sync_host mem (set_pfns (foldl (fun s pfn => if page_mapped mem (Z.shiftl pfn PFN_SHIFT) GUEST_PAGE then {[pfn]} ∪ s else s) (in_pfns i) pfns) i).
Definition deflate mem (pfns : list Z) i : Inflated :=
  sync_host mem (set_pfns (foldl (fun s pfn => s ∖ {[pfn]}) (in_pfns i) pfns) i).

Definition report_unused mem i (b : Buffer) : Inflated :=
  let aligned := Z.land (buf_len b) (Z.lnot (HOST_PAGE_SIZE - 1)) in
  if (aligned <? HOST_PAGE_SIZE) || negb (buf_addr b mod HOST_PAGE_SIZE =? 0) then i
  else (advise_page mem ByReport FreeReusable (buf_addr b) aligned i).2.

(** ** The queues ([queues.rs]) *)

Fixpoint chunks_exact (fuel n : nat) (bs : list Z) : list (list Z) :=
  match fuel with
  | O => []
  | S fuel => if bool_decide (length bs < n)%nat then [] else take n bs :: chunks_exact fuel n (drop n bs)
  end.

(** The page numbers of a chain's readable buffers, at most [MAX_PFNS]. *)
Definition read_pfns mem (c : Chain) : list Z :=
  take MAX_PFNS (c_readable c ≫= fun b => match bm_read mem (buf_addr b) (Z.to_nat (buf_len b)) with
                                          | Ok bs => of_le <$> chunks_exact (length bs) 4 bs
                                          | Err _ => []
                                          end).

Definition stat_record (g : GuestMem) (rec : list Z) : GuestMem := gm_update g (of_le (take 2 rec)) (of_le (take 8 (drop 2 rec))).
Definition parse_stats mem (c : Chain) (g : GuestMem) : GuestMem :=
  foldl (fun g b => match bm_read mem (buf_addr b) (Z.to_nat (buf_len b)) with
                    | Ok bs => foldl stat_record g (chunks_exact (length bs) STAT_SIZE bs)
                    | Err _ => g
                    end) g (c_readable c).

Definition balloon_chain (index : Z) mem (c : Chain) (s : Inflated * GuestMem) : option (M * (Inflated * GuestMem) * Z) :=
  let '(i, g) := s in
  let s := if index =? Q_INFLATE then (inflate mem (read_pfns mem c) i, g)
           else if index =? Q_DEFLATE then (deflate mem (read_pfns mem c) i, g)
           else if index =? Q_STATS then (i, parse_stats mem c g)
           else if index =? Q_REPORTING then (foldl (report_unused mem) i (c_readable c ++ c_writable c), g)
           else (i, g) in
  Some (mem, s, 0).
End pages.

(** ** The target ([policy.rs]) *)

Inductive MemoryPressure := Normal | Warn | Critical.
#[export] Instance MemoryPressure_eq_dec : EqDecision MemoryPressure.
Proof. solve_decision. Defined.

Record Policy := {
  po_ram_pages : Z; po_floor_pages : Z; po_target : Z; po_pressure : MemoryPressure; po_idle : bool; po_manual : bool; po_manual_pages : Z; po_vcpus : Z;
}.
Record IdleSample := { sm_idle : bool; sm_last_guest_ns : Z; sm_last_at : Z }.

Definition IDLE_WINDOW : Z := 2 * 10 ^ 9.
Definition mib_to_pages (mib : Z) : Z := let pages := wrap 64 (Z.shiftl mib 20) / GUEST_PAGE in if pages <? 2 ^ 32 then pages else 2 ^ 32 - 1.
Definition policy_new (ram_mib ram_min_mib vcpus : Z) : Policy :=
  {| po_ram_pages := mib_to_pages ram_mib; po_floor_pages := mib_to_pages (Z.min ram_min_mib ram_mib); po_target := 0; po_pressure := Normal; po_idle := true;
     po_manual := false; po_manual_pages := 0; po_vcpus := Z.max vcpus 1 |}.

Definition cap_for_guest (p : Policy) (g : GuestMem) : Z :=
  let floor := po_floor_pages p * GUEST_PAGE in
  let reserved := match in_use_bytes g with Some used => Z.max floor used | None => po_ram_pages p * GUEST_PAGE end in
  wrap 32 (saturating_sub (po_ram_pages p * GUEST_PAGE) reserved / GUEST_PAGE).

Definition set_policy_target (t : Z) (p : Policy) : Policy :=
  {| po_ram_pages := po_ram_pages p; po_floor_pages := po_floor_pages p; po_target := t; po_pressure := po_pressure p; po_idle := po_idle p;
     po_manual := po_manual p; po_manual_pages := po_manual_pages p; po_vcpus := po_vcpus p |}.
Definition set_manual (on : bool) (pages : Z) (p : Policy) : Policy :=
  {| po_ram_pages := po_ram_pages p; po_floor_pages := po_floor_pages p; po_target := po_target p; po_pressure := po_pressure p; po_idle := po_idle p;
     po_manual := on; po_manual_pages := pages; po_vcpus := po_vcpus p |}.
Definition set_manual_mib (mib : Z) (g : GuestMem) (p : Policy) : Z * Policy :=
  let target := Z.min (mib_to_pages mib) (cap_for_guest p g) in (target, set_manual true target p).
Definition clear_manual (p : Policy) : Policy := set_manual false (po_manual_pages p) p.
Definition set_pressure (l : MemoryPressure) (p : Policy) : Policy :=
  {| po_ram_pages := po_ram_pages p; po_floor_pages := po_floor_pages p; po_target := po_target p; po_pressure := l; po_idle := po_idle p;
     po_manual := po_manual p; po_manual_pages := po_manual_pages p; po_vcpus := po_vcpus p |}.
Definition set_idle (v : bool) (p : Policy) : Policy :=
  {| po_ram_pages := po_ram_pages p; po_floor_pages := po_floor_pages p; po_target := po_target p; po_pressure := po_pressure p; po_idle := v;
     po_manual := po_manual p; po_manual_pages := po_manual_pages p; po_vcpus := po_vcpus p |}.

Section policy.
(** [(delta as f64) > IDLE_BUSY_FRAC * wall as f64]. *)
Context (busier : Z -> Z -> bool).

(** What the metrics say when they are there: the time and the guest time, in nanoseconds. *)
Definition sample_update (now guest_ns vcpus : Z) (s : IdleSample) : IdleSample :=
  let dt := saturating_sub now (sm_last_at s) in
  if IDLE_WINDOW <=? dt then
    let delta := saturating_sub guest_ns (sm_last_guest_ns s) in
    let wall := wrap 64 (wrap 64 dt * Z.max vcpus 1) in
    {| sm_idle := negb ((0 <? wall) && busier delta wall); sm_last_guest_ns := guest_ns; sm_last_at := now |}
  else s.

Definition refresh (g : GuestMem) (metrics : option (Z * Z)) (p : Policy) (s : IdleSample) : Z * Policy * IdleSample :=
  let '(s, p) := match metrics with
                 | Some (now, guest_ns) => let s := sample_update now guest_ns (po_vcpus p) s in (s, set_idle (sm_idle s) p)
                 | None => (s, p)
                 end in
  let wanted := if po_manual p then po_manual_pages p
                else if bool_decide (po_pressure p = Normal) || negb (sm_idle s) then 0
                else saturating_sub (po_ram_pages p) (po_floor_pages p) in
  let target := Z.min wanted (cap_for_guest p g) in
  (target, set_policy_target target p, s).
End policy.

(** ** The device ([balloon.rs]) *)

Record Balloon := {
  bl_queues : list (option Bound); bl_inflated : Inflated; bl_guest : GuestMem; bl_policy : Policy; bl_actual : Z; bl_generation : Z;
  bl_worker : IdleSample; bl_ticker : IdleSample;
}.

Inductive BEvent :=
| BNotify (n : QueueNotify)
| BRefresh (metrics : option (Z * Z))
| BReset
| BTick (metrics : option (Z * Z))
| BSetTarget (mib : Z)
| BSetAuto
| BPressure (l : MemoryPressure)
| BWriteConfig (offset size value : Z).

Definition set_target (pages : Z) (b : Balloon) (irq : Irq) : Balloon * Irq :=
  let changed := negb (po_target (bl_policy b) =? pages) in
  ({| bl_queues := bl_queues b; bl_inflated := bl_inflated b; bl_guest := bl_guest b; bl_policy := set_policy_target pages (bl_policy b); bl_actual := bl_actual b;
      bl_generation := if changed then add_w 32 (bl_generation b) 1 else bl_generation b; bl_worker := bl_worker b; bl_ticker := bl_ticker b |},
   if changed then raise BAL_INT_CONFIG irq else irq).
Definition with_policy (p : Policy) (b : Balloon) : Balloon :=
  {| bl_queues := bl_queues b; bl_inflated := bl_inflated b; bl_guest := bl_guest b; bl_policy := p; bl_actual := bl_actual b; bl_generation := bl_generation b;
     bl_worker := bl_worker b; bl_ticker := bl_ticker b |}.
Definition with_samples (w t : IdleSample) (b : Balloon) : Balloon :=
  {| bl_queues := bl_queues b; bl_inflated := bl_inflated b; bl_guest := bl_guest b; bl_policy := bl_policy b; bl_actual := bl_actual b;
     bl_generation := bl_generation b; bl_worker := w; bl_ticker := t |}.

Definition balloon_new (ram_mib ram_min_mib vcpus now : Z) : Balloon :=
  let s := {| sm_idle := true; sm_last_guest_ns := 0; sm_last_at := now |} in
  {| bl_queues := replicate 4 None; bl_inflated := inflated_new; bl_guest := no_guest_mem; bl_policy := policy_new ram_mib ram_min_mib vcpus; bl_actual := 0;
     bl_generation := 0; bl_worker := s; bl_ticker := s |}.

Definition bal_read_config (b : Balloon) (offset size : Z) : Z :=
  let raw := le_bytes 4 (po_target (bl_policy b)) ++ le_bytes 4 (bl_actual b) in
  if 8 <=? offset then 0 else of_le (take (Z.to_nat (Z.min (offset + size) 8 - offset)) (drop (Z.to_nat offset) raw)).
Definition bal_write_config (offset size value : Z) (b : Balloon) : Balloon :=
  if (offset =? 4) && (size =? 4)
  then {| bl_queues := bl_queues b; bl_inflated := bl_inflated b; bl_guest := bl_guest b; bl_policy := bl_policy b; bl_actual := wrap 32 value;
          bl_generation := bl_generation b; bl_worker := bl_worker b; bl_ticker := bl_ticker b |}
  else b.

Section device.
Context {M : Type} `{!ByteMemory M} (madvise : nat -> bool) (busier : Z -> Z -> bool).
Implicit Types (b : Balloon) (mem : M).

(** [None] when a queue method panics. *)
Definition bal_serve (n : QueueNotify) b mem (irq : Irq) : option (Balloon * M * Irq) :=
  if NQUEUE <=? n_index n then Some (b, mem, irq)
  else
    let slot := rebind n (mjoin (bl_queues b !! Z.to_nat (n_index n))) in
    match drain_notify (balloon_chain madvise (n_index n)) slot mem irq BAL_INT_VRING (bl_inflated b, bl_guest b) with
    | None => None
    | Some (slot, mem, irq, (i, g)) =>
        Some ({| bl_queues := <[Z.to_nat (n_index n) := Some slot]> (bl_queues b); bl_inflated := i; bl_guest := g; bl_policy := bl_policy b;
                 bl_actual := wrap 32 (inflated_len i); bl_generation := bl_generation b; bl_worker := bl_worker b; bl_ticker := bl_ticker b |}, mem, irq)
    end.

Definition bal_forget b : Balloon :=
  {| bl_queues := replicate 4 None; bl_inflated := bl_inflated b; bl_guest := bl_guest b; bl_policy := bl_policy b; bl_actual := bl_actual b;
     bl_generation := bl_generation b; bl_worker := bl_worker b; bl_ticker := bl_ticker b |}.

Definition balloon_step (e : BEvent) b mem (irq : Irq) : option (Balloon * M * Irq) :=
  match e with
  | BNotify n => bal_serve n b mem irq
  | BRefresh metrics =>
      let '(target, p, s) := refresh busier (bl_guest b) metrics (bl_policy b) (bl_worker b) in
      let '(b, irq) := set_target target (with_samples s (bl_ticker b) (with_policy p b)) irq in Some (b, mem, irq)
  | BReset => Some (bal_forget b, mem, irq)
  | BTick metrics =>
      let '(target, p, s) := refresh busier (bl_guest b) metrics (bl_policy b) (bl_ticker b) in
      let '(b, irq) := set_target target (with_samples (bl_worker b) s (with_policy p b)) irq in Some (b, mem, irq)
  | BSetTarget mib =>
      let '(pages, p) := set_manual_mib mib (bl_guest b) (bl_policy b) in
      let '(b, irq) := set_target pages (with_policy p b) irq in Some (b, mem, irq)
  | BSetAuto => Some (with_policy (clear_manual (bl_policy b)) b, mem, irq)
  | BPressure l => Some (with_policy (set_pressure l (bl_policy b)) b, mem, irq)
  | BWriteConfig offset size value => Some (bal_write_config offset size value b, mem, irq)
  end.
End device.

(** ** Which host pages are given back *)

(** The call is about all of host page [h]. *)
Definition about (h : Z) (c : AdviseCall) : bool := (ac_gpa c <=? h) && (h + HOST_PAGE_SIZE <=? ac_gpa c + ac_len c).

(** Host page [h] as the host has it: whether the last call about it that
    succeeded marked it reusable. *)
Definition reusable_now (h : Z) (log : list AdviseCall) : bool :=
  foldl (fun now c => if ac_ok c && about h c then bool_decide (ac_advice c = FreeReusable) else now) false log.

(** The guest has reported [h] unused since it was last taken back. *)
Definition reported_now (h : Z) (log : list AdviseCall) : bool :=
  foldl (fun now c => if ac_ok c && about h c
                      then match ac_advice c, ac_by c with FreeReuse, _ => false | FreeReusable, ByReport => true | FreeReusable, BySync => now end
                      else now) false log.

(** The last call the inflated set made about [h] failed. *)
Definition sync_failed (h : Z) (log : list AdviseCall) : bool :=
  foldl (fun now c => if bool_decide (ac_by c = BySync) && about h c then negb (ac_ok c) else now) false log.

Section pages_spec.
Context {M : Type} `{!ByteMemory M} (madvise : nat -> bool).
Implicit Types (mem : M) (i : Inflated).

(** The host pages the device counts as given back are those whose guest pages
    are all inflated, except where its last attempt at the page failed; and the
    pages the host has as reusable are those counted and those reported. *)
Record pages_ok i : Prop := {
  pg_counted : forall h, sync_failed h (in_log i) = false -> h ∈ in_advised i <-> h ∈ want (in_pfns i);
  pg_reusable : forall h, reusable_now h (in_log i) = true <-> h ∈ in_advised i \/ reported_now h (in_log i) = true;
  pg_fits : forall p, p ∈ in_pfns i -> fits 32 p;
}.

Lemma ascending_elem s h : h ∈ ascending s <-> h ∈ s.
Proof. unfold ascending. rewrite merge_sort_Permutation. apply elem_of_elements. Qed.

(** A host page is wanted exactly when it is aligned and all its guest pages are inflated. *)
Lemma want_spec (pfns : gset Z) h :
  (forall p, p ∈ pfns -> 0 <= p) ->
  h ∈ want pfns <-> h mod HOST_PAGE_SIZE = 0 /\ forall k, 0 <= k < 4 -> Z.shiftr h PFN_SHIFT + k ∈ pfns.
Proof.
  intros Hp. unfold want. rewrite elem_of_list_to_set, list_elem_of_filter, list_elem_of_fmap.
  assert (Hfull : full pfns h = true <-> forall k, 0 <= k < 4 -> Z.shiftr h PFN_SHIFT + k ∈ pfns).
  { unfold full. rewrite forallb_forall. change per_host with 4. split; intros H k Hk.
    - specialize (H k). rewrite bool_decide_eq_true in H. apply H. apply list_elem_of_In, elem_of_seqZ. lia.
    - apply bool_decide_eq_true, H. apply list_elem_of_In, elem_of_seqZ in Hk. lia. }
  rewrite Hfull. unfold host_of, PFN_SHIFT, HOST_PAGE_SIZE in *. split.
  - intros [H (p & -> & _)]. split; [|done]. rewrite Z.shiftl_mul_pow2 by lia. change (2 ^ 12) with 4096. change (16 * 1024) with 16384.
    rewrite Zminus_mod_idemp_r, Z.sub_diag. done.
  - intros [Hm H]. split; [done|]. exists (Z.shiftr h 12). split.
    + rewrite Z.shiftl_mul_pow2, Z.shiftr_div_pow2 by lia. change (2 ^ 12) with 4096. change (16 * 1024) with 16384 in *.
      pose proof (Z_div_mod_eq_full h 16384). assert (h = (h / 16384 * 4) * 4096) as E by lia.
      assert (h / 4096 * 4096 = h) as ->. { rewrite E at 1. rewrite Z.div_mul by done. lia. } rewrite Hm. lia.
    + apply elem_of_elements. specialize (H 0 ltac:(lia)). by rewrite Z.add_0_r in H.
Qed.

Lemma about_page h x by_ a ok : about h {| ac_by := by_; ac_advice := a; ac_gpa := x; ac_len := HOST_PAGE_SIZE; ac_ok := ok |} = bool_decide (h = x).
Proof. unfold about. cbn [ac_gpa ac_len]. unfold HOST_PAGE_SIZE. case_bool_decide; zbool; lia || done. Qed.

(** One call of the inflated set about [x]: the log, seen from page [h]. *)
Lemma log_sync h x a ok log :
  let log' := log ++ [{| ac_by := BySync; ac_advice := a; ac_gpa := x; ac_len := HOST_PAGE_SIZE; ac_ok := ok |}] in
  reusable_now h log' = (if ok && bool_decide (h = x) then bool_decide (a = FreeReusable) else reusable_now h log) /\
  reported_now h log' = (if ok && bool_decide (h = x) then bool_decide (a = FreeReusable) && reported_now h log else reported_now h log) /\
  sync_failed h log' = (if bool_decide (h = x) then negb ok else sync_failed h log).
Proof.
  cbv zeta. unfold reusable_now, reported_now, sync_failed. rewrite !foldl_app. cbn [foldl]. rewrite about_page. cbn [ac_ok ac_advice ac_by].
  rewrite (bool_decide_eq_true_2 (BySync = BySync)) by done. cbn [andb]. split; [done|]. split; [|done].
  destruct (ok && _); [|done]. by destruct a.
Qed.

Definition views_agree i : Prop := forall h, reusable_now h (in_log i) = true <-> h ∈ in_advised i \/ reported_now h (in_log i) = true.

Lemma advise_in_step mem i x : let i' := advise_in madvise mem i x in
  in_pfns i' = in_pfns i /\ (views_agree i -> views_agree i') /\
  (x ∈ in_advised i' \/ sync_failed x (in_log i') = true) /\
  forall h, h <> x -> (h ∈ in_advised i' <-> h ∈ in_advised i) /\ sync_failed h (in_log i') = sync_failed h (in_log i).
Proof.
  cbv zeta. unfold advise_in, advise_page. set (ok := if HOST_PAGE_SIZE =? 0 then true else _). clearbody ok.
  pose proof (fun h => log_sync h x FreeReusable ok (in_log i)) as L. cbv zeta in L. destruct ok; cbn [in_pfns in_advised in_log andb] in *.
  - split; [done|]. split; [|split; [set_solver|]].
    + intros Hv h. cbn [in_log in_advised]. destruct (L h) as (-> & -> & _). specialize (Hv h). rewrite elem_of_union, elem_of_singleton.
      destruct (decide (h = x)) as [->|Hne]; [rewrite !bool_decide_eq_true_2 by done|rewrite !(bool_decide_eq_false_2 (h = x)) by done]; cbn; tauto.
    + intros h Hne. destruct (L h) as (_ & _ & ->). rewrite bool_decide_eq_false_2 by done. split; [set_solver|done].
  - split; [done|]. split; [|split].
    + intros Hv h. cbn [in_log in_advised]. destruct (L h) as (-> & -> & _). apply Hv.
    + right. destruct (L x) as (_ & _ & ->). by rewrite bool_decide_eq_true_2.
    + intros h Hne. destruct (L h) as (_ & _ & ->). by rewrite bool_decide_eq_false_2.
Qed.

Lemma advise_out_step mem i x : let i' := advise_out madvise mem i x in
  in_pfns i' = in_pfns i /\ (views_agree i -> views_agree i') /\
  (x ∉ in_advised i' \/ sync_failed x (in_log i') = true) /\
  forall h, h <> x -> (h ∈ in_advised i' <-> h ∈ in_advised i) /\ sync_failed h (in_log i') = sync_failed h (in_log i).
Proof.
  cbv zeta. unfold advise_out, advise_page. set (ok := if HOST_PAGE_SIZE =? 0 then true else _). clearbody ok.
  pose proof (fun h => log_sync h x FreeReuse ok (in_log i)) as L. cbv zeta in L. destruct ok; cbn [in_pfns in_advised in_log andb] in *.
  - split; [done|]. split; [|split; [set_solver|]].
    + intros Hv h. cbn [in_log in_advised]. destruct (L h) as (-> & -> & _). specialize (Hv h). rewrite elem_of_difference, elem_of_singleton.
      destruct (decide (h = x)) as [->|Hne]; [rewrite !(bool_decide_eq_true_2 (x = x)) by done; cbn; naive_solver|rewrite !(bool_decide_eq_false_2 (h = x)) by done; cbn; tauto].
    + intros h Hne. destruct (L h) as (_ & _ & ->). rewrite bool_decide_eq_false_2 by done. split; [set_solver|done].
  - split; [done|]. split; [|split].
    + intros Hv h. cbn [in_log in_advised]. destruct (L h) as (-> & -> & _). apply Hv.
    + right. destruct (L x) as (_ & _ & ->). by rewrite bool_decide_eq_true_2.
    + intros h Hne. destruct (L h) as (_ & _ & ->). by rewrite bool_decide_eq_false_2.
Qed.

(** A pass over pages: each is attempted, the others are left alone. *)
Lemma pass_over (step : Inflated -> Z -> Inflated) (done_ : Z -> Inflated -> Prop) l :
  (forall h i i', (h ∈ in_advised i' <-> h ∈ in_advised i) -> done_ h i -> done_ h i') ->
  (forall i x, let i' := step i x in
     in_pfns i' = in_pfns i /\ (views_agree i -> views_agree i') /\ (done_ x i' \/ sync_failed x (in_log i') = true) /\
     forall h, h <> x -> (h ∈ in_advised i' <-> h ∈ in_advised i) /\ sync_failed h (in_log i') = sync_failed h (in_log i)) ->
  forall i, let i' := foldl step i l in
    in_pfns i' = in_pfns i /\ (views_agree i -> views_agree i') /\
    (forall h, h ∈ l -> done_ h i' \/ sync_failed h (in_log i') = true) /\
    forall h, h ∉ l -> (h ∈ in_advised i' <-> h ∈ in_advised i) /\ sync_failed h (in_log i') = sync_failed h (in_log i).
Proof.
  intros Hd Hs. induction l as [|x l IH]; intros i; cbn [foldl].
  { split_and!; [done|done|by intros h ?%elem_of_nil|done]. }
  destruct (Hs i x) as (S1 & S2 & S3 & S4). destruct (IH (step i x)) as (I1 & I2 & I3 & I4). cbv zeta in *. set (i1 := step i x) in *. set (i' := foldl step i1 l) in *.
  split; [congruence|]. split; [auto|]. split.
  - intros h Hh. destruct (decide (h ∈ l)) as [Hl|Hl]; [by apply I3|]. apply elem_of_cons in Hh as [->|]; [|done].
    destruct (I4 x Hl) as [E1 E2]. rewrite E2. destruct S3 as [S3|S3]; [left|by right]. by eapply Hd.
  - intros h Hh. apply not_elem_of_cons in Hh as [Hx Hl]. destruct (I4 h Hl) as [E1 E2]. destruct (S4 h Hx) as [E3 E4]. rewrite E1, E2. done.
Qed.

Lemma sync_host_ok mem i :
  views_agree i -> (forall p, p ∈ in_pfns i -> fits 32 p) -> pages_ok (sync_host madvise mem i) /\ in_pfns (sync_host madvise mem i) = in_pfns i.
Proof.
  intros Hv Hf. unfold sync_host. cbv zeta.
  destruct (pass_over (advise_in madvise mem) (fun h i => h ∈ in_advised i) (ascending (want (in_pfns i) ∖ in_advised i)) ltac:(naive_solver)
    (advise_in_step mem) i) as (A1 & A2 & A3 & A4).
  set (i1 := foldl (advise_in madvise mem) i _) in *. cbv zeta in *.
  destruct (pass_over (advise_out madvise mem) (fun h i => h ∉ in_advised i) (ascending (in_advised i1 ∖ want (in_pfns i))) ltac:(naive_solver)
    (advise_out_step mem) i1) as (B1 & B2 & B3 & B4).
  set (i2 := foldl (advise_out madvise mem) i1 _) in *. cbv zeta in *. split; [|congruence]. split; [|by apply B2, A2|by rewrite B1, A1].
  intros h Hok. rewrite B1, A1. setoid_rewrite ascending_elem in B3. setoid_rewrite ascending_elem in B4.
  setoid_rewrite ascending_elem in A3. setoid_rewrite ascending_elem in A4.
  destruct (decide (h ∈ in_advised i1 ∖ want (in_pfns i))) as [H2|H2].
  { destruct (B3 h H2) as [H3|H3]; [apply elem_of_difference in H2; tauto|congruence]. }
  destruct (B4 h H2) as [E1 E2]. rewrite E1, E2 in *. destruct (decide (h ∈ want (in_pfns i) ∖ in_advised i)) as [H1|H1].
  { destruct (A3 h H1) as [H3|H3]; [apply elem_of_difference in H1; tauto|congruence]. }
  destruct (A4 h H1) as [E3 _]. rewrite elem_of_difference in H1, H2. destruct (decide (h ∈ want (in_pfns i))), (decide (h ∈ in_advised i)); tauto.
Qed.

Lemma inflate_ok mem pfns i : Forall (fits 32) pfns -> pages_ok i -> pages_ok (inflate madvise mem pfns i).
Proof.
  intros Hp [_ Hv Hf]. apply sync_host_ok; [exact Hv|]. cbn [set_pfns in_pfns]. revert Hf. generalize (in_pfns i). clear -Hp.
  induction Hp as [|p pfns Hp _ IH]; intros s Hs; [done|]. cbn [foldl]. apply IH. destruct (page_mapped _ _ _); [|done]. intros q. rewrite elem_of_union, elem_of_singleton. intros [->|]; auto.
Qed.

Lemma deflate_ok mem pfns i : pages_ok i -> pages_ok (deflate madvise mem pfns i).
Proof.
  intros [_ Hv Hf]. apply sync_host_ok; [exact Hv|]. cbn [set_pfns in_pfns]. revert Hf. generalize (in_pfns i). clear.
  induction pfns as [|p pfns IH]; intros s Hs; [done|]. cbn [foldl]. apply IH. set_solver.
Qed.

Lemma report_ok mem b i : pages_ok i -> pages_ok (report_unused madvise mem i b).
Proof.
  intros [H1 H2 H3]. unfold report_unused. case_match; [done|]. cbn [advise_page snd]. set (c := {| ac_by := ByReport; ac_advice := _ |}).
  split; cbn [in_log in_advised in_pfns]; [| |done]; intros h; unfold sync_failed, reusable_now, reported_now in *; rewrite !foldl_app; cbn [foldl].
  - apply H1.
  - specialize (H2 h). destruct (ac_ok c && about h c); [|done]. cbn. naive_solver.
Qed.

Lemma chunks_exact_fits fuel n bs : Forall (fits 8) bs -> Forall (fun c => length c = n /\ Forall (fits 8) c) (chunks_exact fuel n bs).
Proof.
  revert bs. induction fuel as [|fuel IH]; intros bs Hb; cbn [chunks_exact]; [constructor|]. case_bool_decide; constructor; [|by apply IH, Forall_drop].
  split; [rewrite length_take; lia|by apply Forall_take].
Qed.

Lemma read_pfns_fits mem c : bm_inv mem -> chain_ok c -> Forall (fits 32) (read_pfns mem c).
Proof.
  intros Hm Hc. apply Forall_take. apply list.Forall_forall. intros p Hp. apply list_elem_of_bind in Hp as (b & Hp & Hb).
  pose proof (cn_readable _ Hc) as Hr. eapply list.Forall_forall in Hr as (Ha & _); [|exact Hb]. destruct (bm_read mem _ _) as [bs|] eqn:E; [|by apply elem_of_nil in Hp].
  apply list_elem_of_fmap in Hp as (ch & -> & Hch). pose proof (chunks_exact_fits (length bs) 4 bs (bm_read_fits mem _ _ bs Hm Ha E)) as Hf.
  eapply list.Forall_forall in Hf as [Hl Hf]; [|exact Hch]. pose proof (of_le_bound ch Hf) as B. rewrite Hl in B. exact B.
Qed.

Lemma reports_ok mem bufs i : pages_ok i -> pages_ok (foldl (report_unused madvise mem) i bufs).
Proof. revert i. induction bufs; intros i H; [done|]. cbn. auto using report_ok. Qed.

Lemma balloon_chain_ok index mem c s :
  bm_inv mem -> chain_ok c -> pages_ok s.1 ->
  exists mem' s' used, balloon_chain madvise index mem c s = Some (mem', s', used) /\ bm_inv mem' /\ pages_ok s'.1.
Proof.
  intros Hm Hc Hs. destruct s as [i g]. unfold balloon_chain. eexists _, _, _. split; [done|]. split; [done|].
  destruct (index =? Q_INFLATE); [by apply inflate_ok; [apply read_pfns_fits|]|]. destruct (index =? Q_DEFLATE); [by apply deflate_ok|].
  destruct (index =? Q_STATS); [done|]. destruct (index =? Q_REPORTING); [by apply reports_ok|done].
Qed.
End pages_spec.

(** ** The device's invariant *)

Record policy_ok (p : Policy) : Prop := {
  pl_floor : 0 <= po_floor_pages p <= po_ram_pages p;
  pl_ram : fits 32 (po_ram_pages p);
  pl_target : 0 <= po_target p <= po_ram_pages p - po_floor_pages p;
  pl_manual : 0 <= po_manual_pages p <= po_ram_pages p - po_floor_pages p;
}.

Record bal_inv (b : Balloon) : Prop := {
  bi_queues : forall i, slot_ok (mjoin (bl_queues b !! i));
  bi_pages : pages_ok (bl_inflated b);
  bi_policy : policy_ok (bl_policy b);
}.

(** What the guest keeps: the floor and what it says it uses. *)
Definition target_safe (p : Policy) (g : GuestMem) (target : Z) : Prop :=
  target = 0 \/ exists used, in_use_bytes g = Some used /\ target * GUEST_PAGE + Z.max (po_floor_pages p * GUEST_PAGE) used <= po_ram_pages p * GUEST_PAGE.

Lemma saturating_sub_le a b : 0 <= a -> 0 <= b -> 0 <= saturating_sub a b <= a.
Proof. unfold saturating_sub. lia. Qed.

Lemma in_use_nonneg g used : in_use_bytes g = Some used -> 0 <= used.
Proof. unfold in_use_bytes. destruct (has_tot g); [|done]. intros [= <-]. unfold saturating_sub. lia. Qed.

Lemma cap_safe p g t : policy_ok p -> 0 <= t <= cap_for_guest p g -> target_safe p g t /\ t <= po_ram_pages p - po_floor_pages p.
Proof.
  intros [[Hf0 Hf] [Hr0 Hr] _ _]. unfold cap_for_guest, target_safe. change GUEST_PAGE with 4096.
  set (res := match in_use_bytes g with Some used => _ | None => _ end).
  assert (Hd : 0 <= saturating_sub (po_ram_pages p * 4096) res / 4096 <= po_ram_pages p).
  { assert (0 <= saturating_sub (po_ram_pages p * 4096) res <= po_ram_pages p * 4096).
    { apply saturating_sub_le; [lia|]. unfold res. destruct (in_use_bytes g); lia. }
    split; [apply Z.div_pos; lia|]. apply Z.div_le_upper_bound; lia. }
  rewrite wrap_small by (unfold fits; lia). pose proof (Z.mul_div_le (saturating_sub (po_ram_pages p * 4096) res) 4096 ltac:(lia)) as Hm. intros Ht. subst res.
  destruct (in_use_bytes g) as [used|] eqn:Eu; unfold saturating_sub in *.
  - destruct (decide (t = 0)) as [->|Hn]; [split; [by left|lia]|]. split; [right; exists used; split; [done|]|]; lia.
  - rewrite Z.sub_diag in Ht. change (Z.max 0 0 / 4096) with 0 in Ht. split; [left|]; lia.
Qed.

Lemma mib_to_pages_fits mib : fits 32 (mib_to_pages mib).
Proof.
  unfold mib_to_pages. pose proof (wrap_fits 64 (Z.shiftl mib 20) ltac:(lia)) as [H _]. set (w := wrap 64 _) in *.
  assert (0 <= w / GUEST_PAGE) by (apply Z.div_pos; [done|reflexivity]). destruct (Z.ltb_spec (w / GUEST_PAGE) (2 ^ 32)); unfold fits; lia.
Qed.

Lemma set_target_inv pages b irq :
  0 <= pages <= po_ram_pages (bl_policy b) - po_floor_pages (bl_policy b) -> bal_inv b -> bal_inv (set_target pages b irq).1.
Proof. intros Hp [H1 H2 [P1 P2 P3 P4]]. by split. Qed.

Lemma cap_nonneg p g : 0 <= cap_for_guest p g.
Proof. apply wrap_fits. lia. Qed.

Lemma refresh_ok busier g metrics p s :
  policy_ok p -> let '(t, p', _) := refresh busier g metrics p s in
  policy_ok p' /\ po_target p' = t /\ target_safe p' g t /\ po_ram_pages p' = po_ram_pages p /\ po_floor_pages p' = po_floor_pages p.
Proof.
  intros Hp. unfold refresh. set (sp := match metrics with Some _ => _ | None => _ end).
  assert (Hsp : policy_ok sp.2 /\ po_ram_pages sp.2 = po_ram_pages p /\ po_floor_pages sp.2 = po_floor_pages p).
  { subst sp. destruct metrics as [[now ns]|]; [|done]. by destruct Hp. }
  destruct sp as [s' p']. cbn [snd] in Hsp. destruct Hsp as (Hp' & E1 & E2). cbv zeta. set (w := if po_manual p' then _ else _).
  assert (Hw : 0 <= w). { subst w. destruct Hp' as [? ? ? ?]. destruct (po_manual p'); [lia|]. destruct (_ || _); [done|]. unfold saturating_sub. lia. }
  pose proof (cap_nonneg p' g) as Hc. destruct (cap_safe p' g (Z.min w (cap_for_guest p' g)) Hp' ltac:(lia)) as [Hs Hl].
  destruct Hp' as [P1 P2 P3 P4]. split_and!; [split; cbn; try done; lia|done|exact Hs|done|done].
Qed.

Definition bevent_ok (e : BEvent) : Prop := match e with BNotify n => notify_fits n | _ => True end.
Definition retargets (e : BEvent) : bool := match e with BRefresh _ | BTick _ | BSetTarget _ => true | _ => false end.

Section device_spec.
Context {M : Type} `{!ByteMemory M} (madvise : nat -> bool) (busier : Z -> Z -> bool).
Implicit Types (b : Balloon) (mem : M).

Lemma bal_serve_ok n b mem irq :
  notify_fits n -> bal_inv b -> bm_inv mem ->
  exists b' mem' irq', bal_serve madvise n b mem irq = Some (b', mem', irq') /\ bal_inv b' /\ bm_inv mem'.
Proof.
  intros Hn [H1 H2 H3] Hm. unfold bal_serve. destruct (_ <=? _); [by eexists _, _, _|].
  destruct (drain_notify_ok (balloon_chain madvise (n_index n)) (fun s => pages_ok s.1)) with (b := rebind n (mjoin (bl_queues b !! Z.to_nat (n_index n)))) (mem := mem) (irq := irq)
    (vring := BAL_INT_VRING) (s := (bl_inflated b, bl_guest b)) as (q & mem' & irq' & [i g] & -> & Hb & Hm' & Hi); [|done|by apply rebind_wf|done|].
  { intros m c s Hm1 Hc Hs. by apply balloon_chain_ok. }
  eexists _, _, _. split_and!; [done| |done]. split; cbn; [|done|done]. intros j b0 Hb0.
  destruct (decide (Z.to_nat (n_index n) = j)) as [<-|Hne]; [|rewrite list_lookup_insert_ne in Hb0 by done; by eapply H1].
  destruct (decide (Z.to_nat (n_index n) < length (bl_queues b))%nat); [rewrite list_lookup_insert_eq in Hb0 by done; by injection Hb0 as <-|].
  rewrite list_insert_ge in Hb0 by lia. by eapply H1.
Qed.

(** Every event keeps the invariant. *)
Lemma balloon_step_ok (e : BEvent) b mem irq :
  bal_inv b -> bm_inv mem -> bevent_ok e ->
  exists b' mem' irq', balloon_step madvise busier e b mem irq = Some (b', mem', irq') /\ bal_inv b' /\ bm_inv mem' /\
    (retargets e = true -> target_safe (bl_policy b') (bl_guest b') (po_target (bl_policy b'))).
Proof.
  intros Hb Hm He. pose proof Hb as [H1 H2 H3]. destruct e as [n|metrics| |metrics|mib| |l|offset size value]; cbn [balloon_step retargets].
  - destruct (bal_serve_ok n b mem irq He Hb Hm) as (b' & mem' & irq' & -> & ? & ?). by eexists _, _, _.
  - pose proof (refresh_ok busier (bl_guest b) metrics (bl_policy b) (bl_worker b) H3) as H. destruct (refresh _ _ _ _ _) as [[t p] s]. destruct H as (Hp & <- & Hs & _).
    eexists _, _, _. split; [done|]. split_and!; [|done|by intros _]. destruct Hp. by split.
  - eexists _, _, _. split_and!; [done| |done|done]. split; [|done|done]. intros i. apply no_slots_ok.
  - pose proof (refresh_ok busier (bl_guest b) metrics (bl_policy b) (bl_ticker b) H3) as H. destruct (refresh _ _ _ _ _) as [[t p] s]. destruct H as (Hp & <- & Hs & _).
    eexists _, _, _. split; [done|]. split_and!; [|done|by intros _]. destruct Hp. by split.
  - unfold set_manual_mib. pose proof (mib_to_pages_fits mib) as [Hw _]. pose proof (cap_nonneg (bl_policy b) (bl_guest b)) as Hc.
    destruct (cap_safe (bl_policy b) (bl_guest b) (Z.min (mib_to_pages mib) (cap_for_guest (bl_policy b) (bl_guest b))) H3 ltac:(lia)) as [Hs Hl].
    eexists _, _, _. split; [done|]. split_and!; [|done|by intros _]. destruct H3 as [P1 P2 P3 P4]. split; [done|done|]. split; cbn; try done; lia.
  - eexists _, _, _. split_and!; [done| |done|done]. destruct H3. by split.
  - eexists _, _, _. split_and!; [done| |done|done]. destruct H3. by split.
  - eexists _, _, _. split_and!; [done| |done|done]. unfold bal_write_config. by destruct (_ && _).
Qed.

(** C40: The balloon device over any event (a notification of any of its queues
    with any contents, a refresh, a tick of the policy thread, a target or the
    automatic policy from the control socket, a change of host pressure, a
    configuration write, a reset), whatever [madvise] answers: it never panics
    and keeps its invariant.  Afterwards, for every host page: the page is one
    the device counts as given back exactly if its four guest pages are all
    inflated, unless the device's last [madvise] on that page failed; and the
    last successful [madvise] covering the page has marked it reusable exactly if
    the device counts it or the guest has reported it free since it was last
    taken back.  So a page the host may take is fully inflated, or reported free
    by the guest, or one whose last attempt failed.  The target never exceeds
    RAM less the floor, and a target just computed is zero or leaves the guest
    both the floor and what it reports to be using. *)
Theorem balloon_invariant (e : BEvent) b mem irq :
  bal_inv b -> bm_inv mem -> bevent_ok e ->
  exists b' mem' irq', balloon_step madvise busier e b mem irq = Some (b', mem', irq') /\ bal_inv b' /\ bm_inv mem' /\
    (let i := bl_inflated b' in forall h,
       let inflated_all := h mod HOST_PAGE_SIZE = 0 /\ forall k, 0 <= k < 4 -> Z.shiftr h PFN_SHIFT + k ∈ in_pfns i in
       (sync_failed h (in_log i) = false -> h ∈ in_advised i <-> inflated_all) /\
       (reusable_now h (in_log i) = true <-> h ∈ in_advised i \/ reported_now h (in_log i) = true) /\
       (reusable_now h (in_log i) = true -> inflated_all \/ reported_now h (in_log i) = true \/ sync_failed h (in_log i) = true)) /\
    0 <= po_target (bl_policy b') <= po_ram_pages (bl_policy b') - po_floor_pages (bl_policy b') /\
    (retargets e = true -> target_safe (bl_policy b') (bl_guest b') (po_target (bl_policy b'))).
Proof.
  intros Hb Hm He. destruct (balloon_step_ok e b mem irq Hb Hm He) as (b' & mem' & irq' & E & Hb' & Hm' & Ht).
  exists b', mem', irq'. split; [done|]. split; [done|]. split; [done|]. pose proof Hb' as [_ [P1 P2 P3] [_ _ P4 _]].
  split; [|by split]. cbv zeta. intros h. rewrite <- want_spec by (intros p Hp; apply P3 in Hp; apply Hp).
  specialize (P1 h). specialize (P2 h). split; [done|]. split; [done|]. intros Hr. apply P2 in Hr as [Hr|Hr]; [|by right; left].
  destruct (sync_failed h (in_log (bl_inflated b'))); [by right; right|]. left. by apply P1.
Qed.

(** [refresh] has stored the new target before [set_target] compares with it, so a
    target the policy changes reaches the driver neither by an interrupt nor by a
    new configuration generation. *)
Lemma policy_change_is_silent e b mem irq b' mem' irq' :
  (exists m, e = BRefresh m \/ e = BTick m) -> balloon_step madvise busier e b mem irq = Some (b', mem', irq') ->
  irq' = irq /\ bl_generation b' = bl_generation b.
Proof.
  intros (m & [-> | ->]); cbn [balloon_step]; unfold refresh; destruct m as [[now ns]|]; unfold set_target; cbn [bl_policy with_samples with_policy po_target set_policy_target];
    rewrite Z.eqb_refl; cbn [negb]; intros [= <- _ <-]; done.
Qed.

(** After a reset the pages of the driver that is gone are still inflated. *)
Lemma reset_keeps_inflated b mem irq :
  balloon_step madvise busier BReset b mem irq = Some (bal_forget b, mem, irq) /\ bl_inflated (bal_forget b) = bl_inflated b /\ bl_actual (bal_forget b) = bl_actual b.
Proof. done. Qed.
End device_spec.

Lemma balloon_new_inv ram_mib ram_min_mib vcpus now :
  0 <= ram_min_mib -> 0 <= ram_mib < 2 ^ 44 -> bal_inv (balloon_new ram_mib ram_min_mib vcpus now).
Proof.
  intros Hm Hr. split; cbn [balloon_new bl_queues bl_inflated bl_policy].
  - intros i. exact (no_slots_ok 4 i).
  - split; [|intros h; split; [done|]; intros [Hh|Hh]; [by apply elem_of_empty in Hh|done]|intros p Hh; by apply elem_of_empty in Hh].
    intros h _. cbn [inflated_new in_advised in_pfns]. unfold want. by rewrite elements_empty.
  - assert (Hle : mib_to_pages (Z.min ram_min_mib ram_mib) <= mib_to_pages ram_mib).
    { unfold mib_to_pages. rewrite !Z.shiftl_mul_pow2, !wrap_small by (unfold fits; lia). change GUEST_PAGE with 4096.
      assert (Z.min ram_min_mib ram_mib * 2 ^ 20 / 4096 <= ram_mib * 2 ^ 20 / 4096) by (apply Z.div_le_mono; lia).
      destruct (Z.ltb_spec (Z.min ram_min_mib ram_mib * 2 ^ 20 / 4096) (2 ^ 32)), (Z.ltb_spec (ram_mib * 2 ^ 20 / 4096) (2 ^ 32)); lia. }
    pose proof (mib_to_pages_fits (Z.min ram_min_mib ram_mib)) as [? _]. split; cbn; [lia|apply mib_to_pages_fits|lia|lia].
Qed.

(** Critical pressure on an idle guest of 256 MiB that uses 56: the target moves, and nothing tells the driver. *)
Definition squeezed : Balloon :=
  let b := balloon_new 256 64 1 0 in
  {| bl_queues := bl_queues b; bl_inflated := bl_inflated b; bl_guest := gm_update (gm_update no_guest_mem S_MEMTOT (256 * 2 ^ 20)) S_AVAIL (200 * 2 ^ 20);
     bl_policy := set_pressure Critical (bl_policy b); bl_actual := 0; bl_generation := 0; bl_worker := bl_worker b; bl_ticker := bl_ticker b |}.

Example squeezed_target : exists b', balloon_step (fun _ => true) (fun _ _ => false) (BRefresh None) squeezed demo_ram VirtioIrq.new = Some (b', demo_ram, VirtioIrq.new)
  /\ po_target (bl_policy squeezed) = 0 /\ po_target (bl_policy b') = 49152.
Proof. eexists. split; [reflexivity|]. by vm_compute. Qed.

Lemma squeezed_inv : bal_inv squeezed.
Proof.
  pose proof (balloon_new_inv 256 64 1 0 ltac:(lia) ltac:(lia)) as [H1 H2 [P1 P2 P3 P4]]. split; [exact H1|exact H2|]. split; [exact P1|exact P2|exact P3|exact P4].
Qed.

Lemma balloon_invariant_witness :
  exists b' mem' irq', balloon_step (fun _ => true) (fun _ _ => false) (BSetTarget 100) squeezed demo_ram VirtioIrq.new = Some (b', mem', irq') /\ bal_inv b' /\ bm_inv mem' /\
    (retargets (BSetTarget 100) = true -> target_safe (bl_policy b') (bl_guest b') (po_target (bl_policy b'))).
Proof.
  destruct (balloon_invariant (fun _ => true) (fun _ _ => false) (BSetTarget 100) squeezed demo_ram VirtioIrq.new squeezed_inv demo_ram_wf I)
    as (b' & mem' & irq' & E & Hb & Hm & _ & _ & Ht).
  exists b', mem', irq'. split; [exact E|]. split; [exact Hb|]. split; [exact Hm|exact Ht].
Defined.

(** A report marks a page reusable that is not inflated: the guest has offered it. *)
Example report_marks_uninflated :
  let i := report_unused (fun _ => true) demo_ram inflated_new {| buf_addr := demo_base; buf_len := HOST_PAGE_SIZE |} in
  in_advised i = ∅ /\ reusable_now demo_base (in_log i) = true /\ reported_now demo_base (in_log i) = true.
Proof. vm_compute. repeat split. Qed.
