(* ===== verification/VirtioInput.v ===== *)
(** * The virtio input devices

    Model of [ternvale-devices/src/virtio/input.rs] and
    [input/{codes,config,keymap,sink}.rs]: a keyboard or a tablet whose events the
    host queues with [InputSink::report].  [Shared] is the state behind its lock;
    [i_queued] and [i_delivered] record, since the last reset, the events accepted
    and the events written to the guest, as [event_rounds] says where.  The locks are the subject of
    [InputKicks]; here a thread holds them for a whole call. *)

From stdpp Require Import list gmap strings.
From S2P Require Import Prelude GuestMemory VirtioQueue QueueDevice VirtioIrq VirtioCore QueueWorker FwCfg.

(** ** Event codes ([codes.rs]) *)

Definition EV_SYN : Z := 0x00.
Definition EV_KEY : Z := 0x01.
Definition EV_REL : Z := 0x02.
Definition EV_ABS : Z := 0x03.
Definition EV_REP : Z := 0x14.
Definition SYN_REPORT : Z := 0.
Definition REL_HWHEEL : Z := 0x06.
Definition REL_WHEEL : Z := 0x08.
Definition ABS_X : Z := 0x00.
Definition ABS_Y : Z := 0x01.
Definition BTN_LEFT : Z := 0x110.
Definition BTN_RIGHT : Z := 0x111.
Definition BTN_MIDDLE : Z := 0x112.
Definition ABS_MAX_VALUE : Z := 0x7fff.

Record InputEvent := { ev_type : Z; ev_code : Z; ev_value : Z }.
#[export] Instance InputEvent_eq_dec : EqDecision InputEvent.
Proof. solve_decision. Defined.
Definition ev_key (code : Z) (pressed : bool) : InputEvent := {| ev_type := EV_KEY; ev_code := code; ev_value := if pressed then 1 else 0 |}.
Definition ev_abs (axis value : Z) : InputEvent := {| ev_type := EV_ABS; ev_code := axis; ev_value := value |}.
(** [delta as u32] of an [i32]. *)
Definition ev_rel (axis delta : Z) : InputEvent := {| ev_type := EV_REL; ev_code := axis; ev_value := wrap 32 delta |}.
Definition ev_syn : InputEvent := {| ev_type := EV_SYN; ev_code := SYN_REPORT; ev_value := 0 |}.
Definition ev_to_bytes (e : InputEvent) : list Z := le_bytes 2 (ev_type e) ++ le_bytes 2 (ev_code e) ++ le_bytes 4 (ev_value e).
Definition ev_from_bytes (bs : list Z) : InputEvent :=
  {| ev_type := of_le (take 2 bs); ev_code := of_le (take 2 (drop 2 bs)); ev_value := of_le (take 4 (drop 4 bs)) |}.

(** ** Key codes ([keymap.rs]) *)

Definition KEY_MAP : list (Z * Z) :=
  [(0x00, 30); (0x01, 31); (0x02, 32); (0x03, 33); (0x04, 35); (0x05, 34); (0x06, 44); (0x07, 45); (0x08, 46); (0x09, 47); (0x0a,
   86); (0x0b, 48); (0x0c, 16); (0x0d, 17); (0x0e, 18); (0x0f, 19); (0x10, 21); (0x11, 20); (0x12, 2); (0x13, 3); (0x14, 4);
   (0x15, 5); (0x16, 7); (0x17, 6); (0x18, 13); (0x19, 10); (0x1a, 8); (0x1b, 12); (0x1c, 9); (0x1d, 11); (0x1e, 27); (0x1f, 24);
   (0x20, 22); (0x21, 26); (0x22, 23); (0x23, 25); (0x24, 28); (0x25, 38); (0x26, 36); (0x27, 40); (0x28, 37); (0x29, 39); (0x2a,
   43); (0x2b, 51); (0x2c, 53); (0x2d, 49); (0x2e, 50); (0x2f, 52); (0x30, 15); (0x31, 57); (0x32, 41); (0x33, 14); (0x35, 1);
   (0x36, 126); (0x37, 125); (0x38, 42); (0x39, 58); (0x3a, 56); (0x3b, 29); (0x3c, 54); (0x3d, 100); (0x3e, 97); (0x40, 187);
   (0x41, 83); (0x43, 55); (0x45, 78); (0x47, 69); (0x48, 115); (0x49, 114); (0x4a, 113); (0x4b, 98); (0x4c, 96); (0x4e, 74);
   (0x4f, 188); (0x50, 189); (0x51, 117); (0x52, 82); (0x53, 79); (0x54, 80); (0x55, 81); (0x56, 75); (0x57, 76); (0x58, 77);
   (0x59, 71); (0x5a, 190); (0x5b, 72); (0x5c, 73); (0x5d, 124); (0x5e, 89); (0x5f, 95); (0x60, 63); (0x61, 64); (0x62, 65);
   (0x63, 61); (0x64, 66); (0x65, 67); (0x67, 87); (0x69, 183); (0x6a, 186); (0x6b, 184); (0x6d, 68); (0x6e, 127); (0x6f, 88);
   (0x71, 185); (0x72, 110); (0x73, 102); (0x74, 104); (0x75, 111); (0x76, 62); (0x77, 107); (0x78, 60); (0x79, 109); (0x7a, 59);
   (0x7b, 105); (0x7c, 106); (0x7d, 108); (0x7e, 103)].
Definition linux_key (kvk : Z) : option Z := snd <$> List.find (fun p => p.1 =? kvk) KEY_MAP.
Definition linux_keys : list Z := KEY_MAP.*2.

(** ** Configuration space ([config.rs], [input.rs]) *)

Definition CFG_ID_NAME : Z := 0x01.
Definition CFG_ID_SERIAL : Z := 0x02.
Definition CFG_ID_DEVIDS : Z := 0x03.
Definition CFG_EV_BITS : Z := 0x11.
Definition CFG_ABS_INFO : Z := 0x12.
Definition UNION_OFFSET : Z := 8.
Definition UNION_LEN : nat := 128.
Definition CONFIG_LEN : Z := UNION_OFFSET + Z.of_nat UNION_LEN.
Definition BUS_VIRTUAL : Z := 0x06.
Definition VENDOR : Z := 0x0627.

Inductive InputKind := Keyboard | Tablet.
#[export] Instance InputKind_eq_dec : EqDecision InputKind.
Proof. solve_decision. Defined.
Definition kind_short (k : InputKind) : string := match k with Keyboard => "keyboard" | Tablet => "tablet" end.
Definition kind_name (k : InputKind) : string := match k with Keyboard => "Ternvale Virtio Keyboard" | Tablet => "Ternvale Virtio Tablet" end.
Definition kind_product (k : InputKind) : Z := match k with Keyboard => 0x0001 | Tablet => 0x0003 end.

Definition kind_codes (k : InputKind) (ty : Z) : list Z :=
  match k with
  | Keyboard => if ty =? EV_KEY then linux_keys else []
  | Tablet => if ty =? EV_KEY then [BTN_LEFT; BTN_RIGHT; BTN_MIDDLE] else if ty =? EV_ABS then [ABS_X; ABS_Y] else if ty =? EV_REL then [REL_HWHEEL; REL_WHEEL] else []
  end.
Definition supports (k : InputKind) (ty code : Z) : bool := (ty =? EV_SYN) || bool_decide (code ∈ kind_codes k ty).

Definition set_bit (out : list Z) (code : Z) : list Z := alter (fun b => Z.lor b (Z.shiftl 1 (code mod 8))) (Z.to_nat (code / 8)) out.
Definition bitmap (codes : list Z) : list Z :=
  match codes with
  | [] => []
  | c :: rest => foldl set_bit (replicate (Z.to_nat (foldl Z.max c rest / 8) + 1) 0) codes
  end.
Definition ev_bits (k : InputKind) (ty : Z) : list Z := if bool_decide (k = Keyboard) && (ty =? EV_REP) then [0x03] else bitmap (kind_codes k ty).

Definition payload (k : InputKind) (select subsel : Z) : list Z :=
  if (select =? CFG_ID_NAME) && (subsel =? 0) then ascii_bytes (kind_name k)
  else if (select =? CFG_ID_SERIAL) && (subsel =? 0) then ascii_bytes ("ternvale-" +:+ kind_short k)
  else if (select =? CFG_ID_DEVIDS) && (subsel =? 0) then [BUS_VIRTUAL; VENDOR; kind_product k; 0x0001] ≫= le_bytes 2
  else if select =? CFG_EV_BITS then ev_bits k subsel
  else if (select =? CFG_ABS_INFO) && bool_decide (k = Tablet) && (subsel <=? ABS_Y) then [0; ABS_MAX_VALUE; 0; 0; 0] ≫= le_bytes 4
  else [].

Definition config_byte (k : InputKind) (select subsel at_ : Z) : Z :=
  if at_ =? 0 then select
  else if at_ =? 1 then subsel
  else if at_ =? 2 then wrap 8 (Z.of_nat (Nat.min (length (payload k select subsel)) UNION_LEN))
  else if (UNION_OFFSET <=? at_) && (at_ <? CONFIG_LEN) then default 0 (payload k select subsel !! Z.to_nat (at_ - UNION_OFFSET))
  else 0.
Definition in_read_config (k : InputKind) (select subsel offset size : Z) : Z :=
  of_le ((fun i => config_byte k select subsel (offset + i)) <$> seqZ 0 (Z.min size 8)).

(** The bytes of a write, until one is not [select] or [subsel]. *)
Fixpoint write_config_loop (n : nat) (at_ value : Z) (s : Z * Z) : Z * Z :=
  match n with
  | O => s
  | S n => let byte := wrap 8 value in
           if at_ =? 0 then write_config_loop n (at_ + 1) (Z.shiftr value 8) (byte, s.2)
           else if at_ =? 1 then write_config_loop n (at_ + 1) (Z.shiftr value 8) (s.1, byte)
           else s
  end.
Definition in_write_config (offset size value : Z) (s : Z * Z) : Z * Z := write_config_loop (Z.to_nat (Z.min size 8)) offset value s.

(** ** The device and its sink ([sink.rs], [input.rs]) *)

Definition VIRTIO_INPUT_ID : Z := 18.
Definition INPUT_EVENTQ : Z := 0.
Definition INPUT_STATUSQ : Z := 1.
Definition MAX_PENDING : nat := 64.
Definition IN_INT_VRING : Z := 1.

Record Shared := {
  i_kind : InputKind; i_eventq : option Bound; i_pending : list InputEvent; i_held : gset Z; i_kick : bool; i_kicked : option QueueNotify;
  i_injected : Z; i_dropped : Z; i_status : Z; i_queued : list InputEvent; i_delivered : list InputEvent;
}.
Definition in_new (k : InputKind) : Shared :=
  {| i_kind := k; i_eventq := None; i_pending := []; i_held := ∅; i_kick := false; i_kicked := None; i_injected := 0; i_dropped := 0; i_status := 0;
     i_queued := []; i_delivered := [] |}.

Definition set_eventq (b : option Bound) (s : Shared) : Shared :=
  {| i_kind := i_kind s; i_eventq := b; i_pending := i_pending s; i_held := i_held s; i_kick := i_kick s; i_kicked := i_kicked s; i_injected := i_injected s;
     i_dropped := i_dropped s; i_status := i_status s; i_queued := i_queued s; i_delivered := i_delivered s |}.
Definition set_kick (v : bool) (n : option QueueNotify) (s : Shared) : Shared :=
  {| i_kind := i_kind s; i_eventq := i_eventq s; i_pending := i_pending s; i_held := i_held s; i_kick := v; i_kicked := n; i_injected := i_injected s;
     i_dropped := i_dropped s; i_status := i_status s; i_queued := i_queued s; i_delivered := i_delivered s |}.

Definition releases_held_keys (held : gset Z) (report : list InputEvent) : bool :=
  let keys := filter (fun e => ev_type e <> EV_SYN) report in
  negb (bool_decide (keys = [])) && forallb (fun e => (ev_type e =? EV_KEY) && (ev_value e =? 0) && bool_decide (ev_code e ∈ held)) keys.

Definition track_key (held : gset Z) (e : InputEvent) : gset Z :=
  if ev_type e =? EV_KEY then if ev_value e =? 0 then held ∖ {[ev_code e]} else {[ev_code e]} ∪ held else held.
Definition track_keys (report : list InputEvent) (held : gset Z) : gset Z := foldl track_key held report.

Section sink.
Context {M : Type} `{!ByteMemory M}.
Implicit Types (mem : M) (s : Shared).

(** One event buffer: the first writable buffer of a chain without readable ones. *)
Definition inject mem (c : Chain) (e : InputEvent) : option M :=
  match c_writable c with
  | b :: _ => if (buf_len b <? 8) || negb (bool_decide (c_readable c = [])) then None
              else match bm_write mem (buf_addr b) (ev_to_bytes e) with Ok mem => Some mem | Err _ => None end
  | [] => None
  end.

(** The backlog, the count of events injected, and the events written. *)
Definition flush_step mem (c : Chain) (s : list InputEvent * Z * list InputEvent) : M * (list InputEvent * Z * list InputEvent) * Z :=
  match s with
  | (e :: rest, n, out) => match inject mem c e with Some mem => (mem, (rest, add_w 64 n 1, out ++ [e]), 8) | None => (mem, s, 0) end
  | _ => (mem, s, 0)
  end.

(** [None] when a queue method panics. *)
Definition flush (fuel : nat) s mem (irq : Irq) : option (Shared * M * Irq) :=
  match i_eventq s with
  | None => Some (s, mem, irq)
  | Some b =>
      match pop_loop (fun t => negb (bool_decide (t.1.1 = []))) flush_step fuel mem (bd_queue b) (i_pending s, i_injected s, i_delivered s) false with
      | None => None
      | Some (mem, q, (pending, injected, delivered), completed, _) =>
          let '(q, needed) := if completed then notification_needed q mem else (q, false) in
          Some ({| i_kind := i_kind s; i_eventq := Some (with_queue b q); i_pending := pending; i_held := i_held s; i_kick := i_kick s; i_kicked := i_kicked s;
                   i_injected := injected; i_dropped := i_dropped s; i_status := i_status s; i_queued := i_queued s; i_delivered := delivered |},
                mem, if needed then raise IN_INT_VRING irq else irq)
      end
  end.

(** [serve_kicks] with the state lock free: one round serves the kick. *)
Definition serve_kicks (fuel : nat) s mem (irq : Irq) : option (Shared * M * Irq) :=
  if i_kick s then
    let bound := match i_kicked s with Some n => Some (rebind n (i_eventq s)) | None => i_eventq s end in
    flush fuel (set_eventq bound (set_kick false None s)) mem irq
  else Some (s, mem, irq).

Definition kick_eventq (fuel : nat) (n : QueueNotify) s mem (irq : Irq) : option (Shared * M * Irq) := serve_kicks fuel (set_kick true (Some n) s) mem irq.

Definition in_reset s : Shared :=
  {| i_kind := i_kind s; i_eventq := None; i_pending := []; i_held := ∅; i_kick := false; i_kicked := None; i_injected := i_injected s; i_dropped := i_dropped s;
     i_status := i_status s; i_queued := []; i_delivered := [] |}.

Definition drop_report (n : nat) s : Shared :=
  {| i_kind := i_kind s; i_eventq := i_eventq s; i_pending := i_pending s; i_held := i_held s; i_kick := i_kick s; i_kicked := i_kicked s; i_injected := i_injected s;
     i_dropped := add_w 64 (i_dropped s) (Z.of_nat n); i_status := i_status s; i_queued := i_queued s; i_delivered := i_delivered s |}.
Definition enqueue (report : list InputEvent) s : Shared :=
  {| i_kind := i_kind s; i_eventq := i_eventq s; i_pending := i_pending s ++ report; i_held := track_keys report (i_held s); i_kick := i_kick s;
     i_kicked := i_kicked s; i_injected := i_injected s; i_dropped := i_dropped s; i_status := i_status s; i_queued := i_queued s ++ report;
     i_delivered := i_delivered s |}.

(** Whether a report is taken, once the backlog has been flushed. *)
Definition over_limit (report : list InputEvent) s : bool := bool_decide (MAX_PENDING < length (i_pending s) + length report)%nat.
Definition accepts (events : list InputEvent) s : bool :=
  let report := events ++ [ev_syn] in
  if existsb (fun e => negb (supports (i_kind s) (ev_type e) (ev_code e))) events then false
  else match i_eventq s with
       | None => false
       | Some _ => negb (over_limit report s) || releases_held_keys (i_held s) report
       end.

Definition report_locked (fuel : nat) (events : list InputEvent) s mem (irq : Irq) : option (bool * Shared * M * Irq) :=
  let report := events ++ [ev_syn] in
  match (if over_limit report s then flush fuel s mem irq else Some (s, mem, irq)) with
  | None => None
  | Some (s, mem, irq) =>
      if accepts events s
      then match flush fuel (enqueue report s) mem irq with None => None | Some (s, mem, irq) => Some (true, s, mem, irq) end
      else Some (false, drop_report (length report) s, mem, irq)
  end.

(** [InputSink::report] while the device lives. *)
Definition report (fuel : nat) (events : list InputEvent) s mem (irq : Irq) : option (bool * Shared * M * Irq) :=
  match serve_kicks fuel s mem irq with
  | None => None
  | Some (s, mem, irq) =>
      match report_locked fuel events s mem irq with
      | None => None
      | Some (queued, s, mem, irq) => match serve_kicks fuel s mem irq with None => None | Some (s, mem, irq) => Some (queued, s, mem, irq) end
      end
  end.

Definition key (fuel : nat) (code : Z) (pressed : bool) := report fuel [ev_key code pressed].
Definition move_to (fuel : nat) (x y : Z) := report fuel [ev_abs ABS_X (Z.min x ABS_MAX_VALUE); ev_abs ABS_Y (Z.min y ABS_MAX_VALUE)].
Definition scroll_events (dx dy : Z) : list InputEvent := (if dy =? 0 then [] else [ev_rel REL_WHEEL dy]) ++ (if dx =? 0 then [] else [ev_rel REL_HWHEEL dx]).
Definition scroll (fuel : nat) (dx dy : Z) s mem (irq : Irq) : option (bool * Shared * M * Irq) :=
  if bool_decide (scroll_events dx dy = []) then Some (true, s, mem, irq) else report fuel (scroll_events dx dy) s mem irq.

(** One status buffer from the guest. *)
Definition status_step mem (c : Chain) (n : Z) : M * Z * Z :=
  let read := match c_readable c with
              | b :: _ => negb (buf_len b <? 8) && match bm_read mem (buf_addr b) 8 with Ok _ => true | Err _ => false end
              | [] => false
              end in
  (mem, if read then add_w 64 n 1 else n, 0).
Definition serve_status (fuel : nat) (statusq : option Bound) s mem (irq : Irq) : option (option Bound * Shared * M * Irq) :=
  match statusq with
  | None => Some (None, s, mem, irq)
  | Some b =>
      match pop_loop (fun _ => true) status_step fuel mem (bd_queue b) (i_status s) false with
      | None => None
      | Some (mem, q, n, completed, _) =>
          let '(q, needed) := if completed then notification_needed q mem else (q, false) in
          Some (Some (with_queue b q),
                {| i_kind := i_kind s; i_eventq := i_eventq s; i_pending := i_pending s; i_held := i_held s; i_kick := i_kick s; i_kicked := i_kicked s;
                   i_injected := i_injected s; i_dropped := i_dropped s; i_status := n; i_queued := i_queued s; i_delivered := i_delivered s |},
                mem, if needed then raise IN_INT_VRING irq else irq)
      end
  end.

(** The device: the shared state, the status queue and the selected configuration. *)
Record VirtioInput := { vi_shared : Shared; vi_statusq : option Bound; vi_select : Z * Z }.
Definition in_notify (fuel : nat) (n : QueueNotify) (d : VirtioInput) mem (irq : Irq) : option (VirtioInput * M * Irq) :=
  if n_index n =? INPUT_EVENTQ then
    match kick_eventq fuel n (vi_shared d) mem irq with
    | None => None
    | Some (s, mem, irq) => Some ({| vi_shared := s; vi_statusq := vi_statusq d; vi_select := vi_select d |}, mem, irq)
    end
  else if n_index n =? INPUT_STATUSQ then
    match serve_status fuel (Some (rebind n (vi_statusq d))) (vi_shared d) mem irq with
    | None => None
    | Some (q, s, mem, irq) => Some ({| vi_shared := s; vi_statusq := q; vi_select := vi_select d |}, mem, irq)
    end
  else Some (d, mem, irq).
Definition in_status_changed (status : Z) (d : VirtioInput) : VirtioInput :=
  if status =? 0 then {| vi_shared := in_reset (vi_shared d); vi_statusq := None; vi_select := (0, 0) |} else d.
End sink.

(** ** What the guest sees of the keys *)

Definition event_fits (e : InputEvent) : Prop := fits 16 (ev_type e) /\ fits 16 (ev_code e) /\ fits 32 (ev_value e).

(** The events accepted are those delivered and then the backlog, in order; the keys
    held are those the guest will see down once it has read them all. *)
Record in_inv (s : Shared) : Prop := {
  ii_queue : slot_ok (i_eventq s);
  ii_kicked : forall n, i_kicked s = Some n -> notify_fits n;
  ii_fifo : i_queued s = i_delivered s ++ i_pending s;
  ii_held : i_held s = track_keys (i_queued s) ∅;
  ii_known : forall c, c ∈ i_held s -> c ∈ kind_codes (i_kind s) EV_KEY;
}.

(** What a flush leaves alone. *)
Record flushed (s s' : Shared) : Prop := {
  fl_kind : i_kind s' = i_kind s;
  fl_held : i_held s' = i_held s;
  fl_queued : i_queued s' = i_queued s;
  fl_bound : is_Some (i_eventq s) -> is_Some (i_eventq s');
  fl_pending : (length (i_pending s') <= length (i_pending s))%nat;
}.
#[export] Instance flushed_preorder : PreOrder flushed.
Proof.
  split; [by intros s; split|]. intros s1 s2 s3 [A1 A2 A3 A4 A5] [B1 B2 B3 B4 B5]. split; [congruence..|auto|lia].
Qed.

Lemma ev_to_bytes_fits e : Forall (fits 8) (ev_to_bytes e).
Proof. unfold ev_to_bytes. rewrite !Forall_app. auto using le_bytes_fits. Qed.

(** An event the driver parses is the event that was written. *)
Lemma event_roundtrip e : event_fits e -> ev_from_bytes (ev_to_bytes e) = e.
Proof.
  intros (H1 & H2 & H3). unfold ev_from_bytes, ev_to_bytes. destruct e as [t c v]. cbn [ev_type ev_code ev_value] in *.
  rewrite (take_app_length' (le_bytes 2 t)), !(drop_app_length' (le_bytes 2 t)) by by rewrite length_le_bytes.
  rewrite (take_app_length' (le_bytes 2 c)) by by rewrite length_le_bytes. change 4%nat with (2 + 2)%nat at 2. rewrite <- drop_drop, (drop_app_length' (le_bytes 2 t)) by by rewrite length_le_bytes.
  rewrite (drop_app_length' (le_bytes 2 c)), (take_ge (le_bytes 4 v)) by (rewrite length_le_bytes; lia). by rewrite !of_le_le_bytes_fits.
Qed.

Lemma track_keys_app l1 l2 held : track_keys (l1 ++ l2) held = track_keys l2 (track_keys l1 held).
Proof. apply foldl_app. Qed.

Lemma track_keys_sub (codes : list Z) l held :
  (forall c, c ∈ held -> c ∈ codes) -> (forall e, e ∈ l -> ev_type e = EV_KEY -> ev_code e ∈ codes) -> forall c, c ∈ track_keys l held -> c ∈ codes.
Proof.
  revert held. induction l as [|e l IH]; intros held Hh Hl; [done|]. unfold track_keys. cbn [foldl]. apply (IH (track_key held e)); [|intros e' He'; apply Hl; by right].
  intros c. unfold track_key. destruct (Z.eqb_spec (ev_type e) EV_KEY) as [Ek|]; [|apply Hh].
  destruct (ev_value e =? 0); [rewrite elem_of_difference; intros [? _]; by apply Hh|]. rewrite elem_of_union, elem_of_singleton.
  intros [->|?]; [apply Hl; [left|done]|by apply Hh].
Qed.

Section sink_spec.
Context {M : Type} `{!ByteMemory M}.
Implicit Types (mem : M) (s : Shared).

(** A chain an event can be written to: its first writable buffer has eight mapped
    bytes and there is nothing to read. *)
Definition event_room mem (c : Chain) : Prop :=
  c_readable c = [] /\ exists b bs, c_writable c = b :: bs /\ 8 <= buf_len b /\ bm_span mem (buf_addr b) 8.

(** The eight bytes of the event are at the start of that buffer and no other byte
    of memory has changed. *)
Definition event_written mem (c : Chain) (e : InputEvent) (mem' : M) : Prop :=
  exists b bs, c_readable c = [] /\ c_writable c = b :: bs /\ 8 <= buf_len b /\
    forall x, bm_byte mem' x = if decide (buf_addr b <= x < buf_addr b + 8) then ev_to_bytes e !! Z.to_nat (x - buf_addr b) else bm_byte mem x.

(** [k] chains in turn: the oldest event goes to the next available chain, which
    is answered with length 8; a chain with no room is answered with 0 and the
    event waits for the next.  The events written are listed. *)
Inductive event_rounds : nat -> list InputEvent -> M -> SplitQueue -> list InputEvent -> M -> SplitQueue -> Prop :=
| er_stop p mem q : event_rounds 0 p mem q [] mem q
| er_idle p mem q q' : pop mem q = (q', Stop) -> event_rounds 0 p mem q [] mem q'
| er_event k e rest mem q q1 c mem1 q2 mem2 used written mem' q' :
    pop mem q = (q1, Ret c) -> event_written mem c e mem1 -> add_used q1 mem1 (c_head c) 8 = (q2, mem2, Ret used) ->
    event_rounds k rest mem2 q2 written mem' q' -> event_rounds (S k) (e :: rest) mem q (e :: written) mem' q'
| er_unusable k e rest mem q q1 c q2 mem2 used written mem' q' :
    pop mem q = (q1, Ret c) -> ~ event_room mem c -> add_used q1 mem (c_head c) 0 = (q2, mem2, Ret used) ->
    event_rounds k (e :: rest) mem2 q2 written mem' q' -> event_rounds (S k) (e :: rest) mem q written mem' q'.

(** The driver has no more chains to offer, or its ring is unusable. *)
Definition idle mem (q : SplitQueue) : Prop := q_broken q = true \/ avail_idx mem q = Some (q_last_avail q).

Lemma pop_idle mem q q' : bm_inv mem -> wf_queue q -> pop mem q = (q', Stop) -> idle mem q'.
Proof.
  intros Hm Hq Hp. destruct (q_broken q) eqn:Hb; [left; unfold pop, mbind, Q_bind, self in Hp; rewrite Hb in Hp; by injection Hp as <-|].
  destruct (pop_cases mem q Hm Hq Hb) as [E|[[E Hi]|(i & head & c & _ & _ & _ & _ & _ & E)]]; rewrite E in Hp; [injection Hp as <-; by left|injection Hp as <-; by right|discriminate Hp].
Qed.

Lemma notification_idle (completed : bool) mem q : idle mem q -> idle mem (if completed then notification_needed q mem else (q, false)).1.
Proof. intros Hi. destruct completed; [|done]. unfold notification_needed. repeat case_match; try done; by left. Qed.

Lemma inject_cases mem c e : bm_inv mem -> chain_ok c ->
  match inject mem c e with Some mem' => event_written mem c e mem' /\ bm_inv mem' | None => ~ event_room mem c end.
Proof.
  intros Hm Hc. unfold inject, event_written, event_room. pose proof (cn_writable _ Hc) as Hw.
  destruct (c_writable c) as [|b bs]; [by intros (_ & ? & ? & ? & _)|]. apply Forall_cons_iff in Hw as [(Ha & _) _].
  destruct (Z.ltb_spec (buf_len b) 8) as [|Hl]; cbn [orb]; [intros (_ & ? & ? & [= <- <-] & ? & _); lia|].
  case_bool_decide as Hr; cbn [negb]; [|by intros [? _]]. destruct (bm_write mem _ _) as [m1|] eqn:W.
  - apply bm_write_spec in W as (Hm1 & Hb & _); [|done|done|apply ev_to_bytes_fits]. split; [|done]. by exists b, bs.
  - intros (_ & ? & ? & [= <- <-] & _ & Hs). destruct (proj2 (bm_write_Ok mem (buf_addr b) (ev_to_bytes e) Hm Ha ltac:(done)) Hs). congruence.
Qed.

Lemma flush_rounds fuel : forall mem q p n out completed, bm_inv mem -> wf_queue q ->
  exists mem' q' p' k written completed' fin,
    pop_loop (fun t => negb (bool_decide (t.1.1 = []))) flush_step fuel mem q (p, n, out) completed =
      Some (mem', q', (p', Nat.iter (length written) (fun i => add_w 64 i 1) n, out ++ written), completed', fin) /\
    bm_inv mem' /\ wf_queue q' /\ p = written ++ p' /\ event_rounds k p mem q written mem' q' /\ (k = fuel \/ p' = [] \/ idle mem' q').
Proof.
  induction fuel as [|fuel IH]; intros mem q p n out completed Hm Hq; cbn [pop_loop].
  { eexists _, _, _, 0%nat, [], _, _. rewrite app_nil_r. split; [done|]. split_and!; [done..|constructor|by left]. }
  cbn [fst snd]. rewrite negb_involutive. destruct p as [|e rest].
  { eexists _, _, _, 0%nat, [], _, _. rewrite app_nil_r. split; [done|]. split_and!; [done..|constructor|by right; left]. }
  rewrite bool_decide_false by done. pose proof (pop_keeps mem q Hm Hq) as Hp. destruct (pop mem q) as [q1 [c| |]] eqn:Ep; [| |done].
  2: { eexists _, _, _, 0%nat, [], _, _. rewrite app_nil_r. split; [done|]. split_and!; [done..|by apply er_idle|right; right; exact (pop_idle mem q q1 Hm Hq Ep)]. }
  destruct Hp as [Hq1 Hc]. cbn [flush_step]. pose proof (inject_cases mem c e Hm Hc) as Hi. destruct (inject mem c e) as [m1|].
  - destruct Hi as [Hw Hm1]. pose proof (add_used_keeps m1 q1 (c_head c) 8 Hm1 Hq1) as Hu. destruct (add_used q1 m1 (c_head c) 8) as [[q2 m2] [b| |]] eqn:Eu; try done.
    destruct Hu as (Hq2 & Hm2 & _). destruct (IH m2 q2 rest (add_w 64 n 1) (out ++ [e]) (completed || b) Hm2 Hq2) as (mem' & q' & p' & k & written & c' & fin & -> & ? & ? & -> & Hr & Hk).
    eexists _, _, _, (S k), (e :: written), _, _. cbn [length]. rewrite Nat.iter_succ_r, <- app_assoc. split; [done|]. split_and!; [done..|by eapply er_event|].
    destruct Hk as [->|Hk]; [by left|by right].
  - pose proof (add_used_keeps mem q1 (c_head c) 0 Hm Hq1) as Hu. destruct (add_used q1 mem (c_head c) 0) as [[q2 m2] [b| |]] eqn:Eu; try done.
    destruct Hu as (Hq2 & Hm2 & _). destruct (IH m2 q2 (e :: rest) n out (completed || b) Hm2 Hq2) as (mem' & q' & p' & k & written & c' & fin & -> & ? & ? & Hp & Hr & Hk).
    eexists _, _, _, (S k), written, _, _. split; [done|]. split_and!; [done..|by eapply er_unusable|]. destruct Hk as [->|Hk]; [by left|by right].
Qed.

(** What a flush did: without a queue nothing; otherwise the oldest events of the
    backlog were written to the guest, and it stopped because none was left, the
    driver's ring was idle, or after [fuel] chains. *)
Definition flush_done (fuel : nat) s mem s' mem' : Prop :=
  match i_eventq s with
  | None => s' = s /\ mem' = mem
  | Some b => exists k written q q', event_rounds k (i_pending s) mem (bd_queue b) written mem' q /\
      i_eventq s' = Some (with_queue b q') /\ (q' = q \/ q' = (notification_needed q mem').1) /\
      i_delivered s' = i_delivered s ++ written /\ i_pending s = written ++ i_pending s' /\
      i_injected s' = Nat.iter (length written) (fun i => add_w 64 i 1) (i_injected s) /\
      (k = fuel \/ i_pending s' = [] \/ idle mem' q')
  end.

Lemma input_flush_ok fuel s mem irq :
  in_inv s -> bm_inv mem ->
  exists s' mem' irq', flush fuel s mem irq = Some (s', mem', irq') /\ in_inv s' /\ bm_inv mem' /\ flushed s s' /\ flush_done fuel s mem s' mem'.
Proof.
  intros [H1 H2 H3 H4 H5] Hm. unfold flush, flush_done. destruct (i_eventq s) as [b|] eqn:Eb; [|eexists _, _, _; split_and!; [done|by split; rewrite ?Eb|done|done|done..]].
  destruct (flush_rounds fuel mem (bd_queue b) (i_pending s) (i_injected s) (i_delivered s) false Hm (H1 b eq_refl))
    as (mem' & q & p' & k & written & completed & fin & -> & Hm' & Hq & Hp & Hr & Hk).
  pose proof (finish_wf completed q mem' Hq) as Hf. pose proof (notification_idle completed mem' q) as Hid.
  assert (Hq' : (if completed then notification_needed q mem' else (q, false)).1 = q \/ (if completed then notification_needed q mem' else (q, false)).1 = (notification_needed q mem').1)
    by (destruct completed; auto).
  destruct (if completed then _ else _) as [q2 needed]. cbn [fst snd] in *. eexists _, _, _. split_and!; [done| |done| |].
  - split; cbn; try done; [by intros ? [= <-]|]. rewrite H3, Hp. by rewrite app_assoc.
  - split; cbn; try done. rewrite Hp, length_app. lia.
  - exists k, written, q, q2. cbn. split_and!; [done..|]. destruct Hk as [?|[?|?]]; auto.
Qed.

(** A kick left behind is served: the queue is the one it names, and is flushed. *)
Definition kick_bound s : option Bound := match i_kicked s with Some n => Some (rebind n (i_eventq s)) | None => i_eventq s end.
Definition kicks_served (fuel : nat) s mem s' mem' : Prop :=
  if i_kick s then flush_done fuel (set_eventq (kick_bound s) (set_kick false None s)) mem s' mem' else s' = s /\ mem' = mem.

Lemma serve_kicks_ok fuel s mem irq :
  in_inv s -> bm_inv mem ->
  exists s' mem' irq', serve_kicks fuel s mem irq = Some (s', mem', irq') /\ in_inv s' /\ bm_inv mem' /\ flushed s s' /\ kicks_served fuel s mem s' mem'.
Proof.
  intros Hs Hm. unfold serve_kicks, kicks_served. destruct (i_kick s) eqn:Ek; [|by eexists _, _, _]. cbv zeta. fold (kick_bound s).
  destruct (input_flush_ok fuel (set_eventq (kick_bound s) (set_kick false None s)) mem irq) as (s' & mem' & irq' & -> & Hs' & Hm' & Hf & Hk); [|done|].
  - destruct Hs as [H1 H2 H3 H4 H5]. split; cbn; try done. unfold kick_bound. destruct (i_kicked s) as [n|] eqn:En; [|done]. intros b [= <-]. apply rebind_wf; auto.
  - eexists _, _, _. split_and!; [done..| |done]. etrans; [|exact Hf]. split; cbn; try done. intros [b Hb]. unfold kick_bound. destruct (i_kicked s); [done|by rewrite Hb].
Qed.

Lemma enqueue_inv events s :
  accepts events s = true -> in_inv s -> in_inv (enqueue (events ++ [ev_syn]) s).
Proof.
  intros Ha [H1 H2 H3 H4 H5]. split; cbn; try done.
  - by rewrite H3, <- app_assoc.
  - rewrite H4. symmetry. apply track_keys_app.
  - apply track_keys_sub; [done|]. intros e He Ht. unfold accepts in Ha. destruct (existsb _ events) eqn:Ex; [done|].
    apply elem_of_app in He as [He|He]; [|apply list_elem_of_singleton in He as ->; done].
    apply list_elem_of_In in He. destruct (supports (i_kind s) (ev_type e) (ev_code e)) eqn:Es.
    + unfold supports in Es. rewrite Ht in Es. cbn in Es. by apply bool_decide_eq_true in Es.
    + exfalso. apply eq_true_false_abs in Ex; [done|]. apply existsb_exists. exists e. by rewrite Es.
Qed.

(** What becomes of a report. *)
Definition report_outcome (events : list InputEvent) s (queued : bool) s' : Prop :=
  i_kind s' = i_kind s /\
  if queued then i_queued s' = i_queued s ++ events ++ [ev_syn] else i_queued s' = i_queued s /\ i_held s' = i_held s.

Lemma accepts_flushed events s s' : flushed s s' -> is_Some (i_eventq s) -> releases_held_keys (i_held s) (events ++ [ev_syn]) = true ->
  existsb (fun e => negb (supports (i_kind s) (ev_type e) (ev_code e))) events = false -> accepts events s' = true.
Proof.
  intros [F1 F2 F3 F4 F5] Hb Hr Hs. unfold accepts. rewrite F1, Hs. destruct (F4 Hb) as [b ->]. rewrite F2, Hr. apply orb_true_r.
Qed.

(** What a report did: a kick left behind was served; a backlog that would go over
    the limit was flushed; the report was then taken whole and flushed, or
    dropped and counted; and a kick left meanwhile was served. *)
Definition report_done (fuel : nat) (events : list InputEvent) s mem (queued : bool) s' mem' : Prop :=
  exists s1 m1 s2 m2 s3 m3, kicks_served fuel s mem s1 m1 /\
    (if over_limit (events ++ [ev_syn]) s1 then flush_done fuel s1 m1 s2 m2 else s2 = s1 /\ m2 = m1) /\
    queued = accepts events s2 /\
    (if queued then flush_done fuel (enqueue (events ++ [ev_syn]) s2) m2 s3 m3 else s3 = drop_report (S (length events)) s2 /\ m3 = m2) /\
    kicks_served fuel s3 m3 s' mem'.

Lemma input_report_ok fuel events s mem irq :
  in_inv s -> bm_inv mem ->
  exists queued s' mem' irq', report fuel events s mem irq = Some (queued, s', mem', irq') /\ in_inv s' /\ bm_inv mem' /\ report_outcome events s queued s' /\
    (is_Some (i_eventq s) -> releases_held_keys (i_held s) (events ++ [ev_syn]) = true ->
     existsb (fun e => negb (supports (i_kind s) (ev_type e) (ev_code e))) events = false -> queued = true) /\
    (exists s0, flushed s s0 /\ in_inv s0 /\ if queued then accepts events s0 = true /\ flushed (enqueue (events ++ [ev_syn]) s0) s' else flushed s0 s') /\
    report_done fuel events s mem queued s' mem'.
Proof.
  intros Hs Hm. unfold report. destruct (serve_kicks_ok fuel s mem irq Hs Hm) as (s1 & m1 & i1 & -> & Hs1 & Hm1 & F1 & D1). unfold report_locked.
  assert (Hfl : exists s2 m2 i2, (if over_limit (events ++ [ev_syn]) s1 then flush fuel s1 m1 i1 else Some (s1, m1, i1)) = Some (s2, m2, i2) /\ in_inv s2 /\ bm_inv m2 /\ flushed s1 s2 /\
    if over_limit (events ++ [ev_syn]) s1 then flush_done fuel s1 m1 s2 m2 else s2 = s1 /\ m2 = m1).
  { destruct (over_limit _ s1); [|by eexists _, _, _]. exact (input_flush_ok fuel s1 m1 i1 Hs1 Hm1). }
  destruct Hfl as (s2 & m2 & i2 & -> & Hs2 & Hm2 & F2 & D2). assert (F12 : flushed s s2) by (by etrans). destruct (accepts events s2) eqn:Ea.
  - destruct (input_flush_ok fuel (enqueue (events ++ [ev_syn]) s2) m2 i2 (enqueue_inv _ _ Ea Hs2) Hm2) as (s3 & m3 & i3 & -> & Hs3 & Hm3 & F3 & D3).
    destruct (serve_kicks_ok fuel s3 m3 i3 Hs3 Hm3) as (s4 & m4 & i4 & -> & Hs4 & Hm4 & F4 & D4). assert (F34 : flushed (enqueue (events ++ [ev_syn]) s2) s4) by (by etrans).
    eexists true, s4, m4, i4. split_and!; [done..| |done|by exists s2; split_and!|by exists s1, m1, s2, m2, s3, m3].
    destruct F34 as [K1 K2 K3 _ _]. cbn in K1, K3. destruct F12 as [L1 L2 L3 _ _]. split; congruence.
  - destruct (serve_kicks_ok fuel (drop_report (length (events ++ [ev_syn])) s2) m2 i2) as (s4 & m4 & i4 & -> & Hs4 & Hm4 & F4 & D4); [by destruct Hs2|done|].
    eexists false, s4, m4, i4. split_and!; [done..| | | |].
    + destruct F4 as [K1 K2 K3 _ _]. cbn in K1, K2, K3. destruct F12 as [L1 L2 L3 _ _]. split; [|split]; congruence.
    + intros Hb Hr Hx. by rewrite (accepts_flushed events s s2 F12 Hb Hr Hx) in Ea.
    + exists s2. split; [done|]. split; [done|]. etrans; [|exact F4]. by split.
    + replace (length (events ++ [ev_syn])) with (S (length events)) in D4 by (rewrite length_app; cbn; lia).
      by exists s1, m1, s2, m2, (drop_report (S (length events)) s2), m2.
Qed.
End sink_spec.

(** ** The bound on the backlog *)

(** The reports [key], [move_to] and [scroll] make: no event twice, no [EV_SYN]. *)
Definition simple_report (events : list InputEvent) : Prop := Forall (fun e => ev_type e <> EV_SYN) events /\ NoDup (ev_code <$> events).

(** Each key held may still send its release and a [SYN_REPORT] over the limit. *)
Definition backlog_bounded (s : Shared) : Prop :=
  (length (i_pending s) + 2 * size (i_held s) <= MAX_PENDING + 2 * length (kind_codes (i_kind s) EV_KEY))%nat.

Lemma held_size (codes : list Z) (held : gset Z) : (forall c, c ∈ held -> c ∈ codes) -> (size held <= length codes)%nat.
Proof.
  intros H. transitivity (size (list_to_set codes : gset Z)); [apply subseteq_size; set_solver|].
  clear H. induction codes as [|c codes IH]; [done|]. cbn [list_to_set length foldr]. pose proof (size_union_alt ({[c]} : gset Z) (list_to_set codes)) as E. cbn in E. rewrite E, size_singleton.
  pose proof (subseteq_size (list_to_set codes ∖ {[c]} : gset Z) (list_to_set codes) ltac:(set_solver)). lia.
Qed.

Lemma track_releases events (held : gset Z) :
  NoDup (ev_code <$> events) -> Forall (fun e => ev_type e = EV_KEY /\ ev_value e = 0 /\ ev_code e ∈ held) events ->
  (size (track_keys events held) + length events = size held)%nat.
Proof.
  revert held. induction events as [|e events IH]; intros held Hn Hf; [cbn; lia|]. rewrite fmap_cons in Hn. apply list.NoDup_cons in Hn as [He Hn].
  apply Forall_cons_iff in Hf as [(E1 & E2 & E3) Hf]. unfold track_keys. cbn [foldl length]. fold (track_keys events (track_key held e)).
  assert (Ht : track_key held e = held ∖ {[ev_code e]}) by (unfold track_key; by rewrite E1, E2). rewrite Ht.
  assert (Hs : (size (held ∖ {[ev_code e]}) + 1 = size held)%nat).
  { rewrite size_difference by set_solver. rewrite size_singleton. pose proof (subseteq_size {[ev_code e]} held ltac:(set_solver)) as Hsub. rewrite size_singleton in Hsub. lia. }
  rewrite <- Hs, <- (IH (held ∖ {[ev_code e]})); [lia|done|]. apply list.Forall_forall. intros e' He'. eapply list.Forall_forall in Hf as (F1 & F2 & F3); [|exact He'].
  split_and!; [done|done|]. apply elem_of_difference. split; [done|]. rewrite elem_of_singleton. intros E. apply He. rewrite <- E. by apply list_elem_of_fmap_2.
Qed.

Lemma filter_non_syn events : Forall (fun e => ev_type e <> EV_SYN) events -> filter (fun e => ev_type e <> EV_SYN) (events ++ [ev_syn]) = events.
Proof.
  induction 1 as [|e events He _ IH]; [done|]. cbn [app]. rewrite filter_cons, decide_True by done. by rewrite IH.
Qed.

Lemma enqueue_bounded events s :
  simple_report events -> accepts events s = true -> in_inv s -> backlog_bounded s -> backlog_bounded (enqueue (events ++ [ev_syn]) s).
Proof.
  intros [Hs Hn] Ha Hi Hb. pose proof (held_size _ _ (ii_known _ (enqueue_inv _ _ Ha Hi))) as Hsz. unfold backlog_bounded in *. cbn [enqueue i_pending i_held i_kind] in *.
  rewrite length_app. unfold accepts in Ha. destruct (existsb _ _); [done|]. destruct (i_eventq s); [|done]. unfold over_limit in Ha.
  case_bool_decide as Ho; cbn [negb orb] in Ha; [|lia]. unfold releases_held_keys in Ha. rewrite filter_non_syn in Ha by done.
  apply andb_true_iff in Ha as [He Hf]. apply negb_true_iff, bool_decide_eq_false in He.
  assert (Hr : (size (track_keys events (i_held s)) + length events = size (i_held s))%nat).
  { apply track_releases; [done|]. apply list.Forall_forall. intros e Hin. apply list_elem_of_In in Hin. pose proof (proj1 (forallb_forall _ _) Hf e Hin) as Hx. cbn beta in Hx.
    rewrite !andb_true_iff, !Z.eqb_eq, bool_decide_eq_true in Hx. tauto. }
  rewrite track_keys_app. change (track_keys [ev_syn] (track_keys events (i_held s))) with (track_keys events (i_held s)). rewrite length_app. cbn [length].
  destruct events; [done|]. cbn [length] in *. lia.
Qed.

Lemma flushed_bounded s s' : flushed s s' -> backlog_bounded s -> backlog_bounded s'.
Proof. intros [F1 F2 F3 F4 F5]. unfold backlog_bounded. rewrite F1, F2. lia. Qed.

(** ** One operation *)

Inductive InputOp := OpNotify (n : QueueNotify) | OpReport (events : list InputEvent) | OpStatus (status : Z).
Definition in_op_ok (op : InputOp) : Prop := match op with OpNotify n => notify_fits n | _ => True end.

Section ops.
Context {M : Type} `{!ByteMemory M}.
Implicit Types (mem : M) (d : VirtioInput).

Definition input_step (fuel : nat) (op : InputOp) d mem (irq : Irq) : option (option bool * VirtioInput * M * Irq) :=
  match op with
  | OpNotify n => match in_notify fuel n d mem irq with None => None | Some (d, mem, irq) => Some (None, d, mem, irq) end
  | OpReport events =>
      match report fuel events (vi_shared d) mem irq with
      | None => None
      | Some (queued, s, mem, irq) => Some (Some queued, {| vi_shared := s; vi_statusq := vi_statusq d; vi_select := vi_select d |}, mem, irq)
      end
  | OpStatus status => Some (None, in_status_changed status d, mem, irq)
  end.

Lemma serve_status_ok fuel b s mem irq :
  bound_wf b -> bm_inv mem -> in_inv s ->
  exists q s' mem' irq', serve_status fuel (Some b) s mem irq = Some (q, s', mem', irq') /\ slot_ok q /\ in_inv s' /\ bm_inv mem' /\
    i_delivered s' = i_delivered s /\ i_pending s' = i_pending s /\ (backlog_bounded s -> backlog_bounded s').
Proof.
  intros Hb Hm Hs. unfold serve_status. destruct (pop_loop_ok (fun _ => true) status_step (fun _ => True)) with (fuel := fuel) (mem := mem) (q := bd_queue b) (s := i_status s) (completed := false)
    as (mem' & q' & n & completed & fin & -> & Hm' & Hq' & _); [|done..|]; [by intros|].
  pose proof (finish_wf completed q' mem' Hq') as Hf. destruct (if completed then _ else _) as [q2 needed]. cbn [fst] in Hf. eexists _, _, _, _. split_and!; [done|by intros ? [= <-]| |done..].
  by destruct Hs.
Qed.

Lemma in_reset_inv s : in_inv (in_reset s) /\ backlog_bounded (in_reset s).
Proof. split; [split; cbn; try done; intros c Hc; by apply elem_of_empty in Hc|]. unfold backlog_bounded. cbn [in_reset i_pending i_held i_kind length]. rewrite size_empty. lia. Qed.

(** C30: The virtio keyboard and tablet over any operation (a notification of
    either queue, a report from the host, a status change), any guest memory and
    any contents of the rings.  Nothing panics.  The events accepted since the
    last reset are, in order and without loss or repetition, those delivered and
    then the backlog.  A delivery is a write to guest memory: the oldest event's
    eight bytes go to the start of the first writable buffer of the next
    available chain, no other byte changes, and the used ring answers the chain
    with length 8; a chain without room is answered with 0.  A notification and
    an accepted report deliver until the backlog is empty, the ring idle or the
    given number of chains taken.  The keys tracked as held are those the guest
    will see down when it has read them all.  A report is taken whole with its
    SYN_REPORT, exactly when [accepts] says so after the flush, or dropped and
    counted; the release of one held key is always taken while the event queue is
    bound.  If every report is as [key], [move_to] and [scroll] make them (no code
    twice, no EV_SYN of its own), the backlog never exceeds 64 events by more than
    two per key of the device; other reports have no such bound
    ([repeated_releases_accepted]). *)
Theorem input_keys_faithful fuel (op : InputOp) d mem irq :
  in_inv (vi_shared d) -> slot_ok (vi_statusq d) -> bm_inv mem -> in_op_ok op ->
  exists r d' mem' irq', input_step fuel op d mem irq = Some (r, d', mem', irq') /\ in_inv (vi_shared d') /\ slot_ok (vi_statusq d') /\ bm_inv mem' /\
    match op with
    | OpNotify n =>
        if n_index n =? INPUT_EVENTQ then kicks_served fuel (set_kick true (Some n) (vi_shared d)) mem (vi_shared d') mem'
        else i_delivered (vi_shared d') = i_delivered (vi_shared d) /\ i_pending (vi_shared d') = i_pending (vi_shared d)
    | OpReport events =>
        exists queued, r = Some queued /\ report_done fuel events (vi_shared d) mem queued (vi_shared d') mem' /\ report_outcome events (vi_shared d) queued (vi_shared d') /\
          forall code, events = [ev_key code false] -> is_Some (i_eventq (vi_shared d)) -> code ∈ i_held (vi_shared d) -> queued = true
    | OpStatus status => mem' = mem /\ vi_shared d' = if status =? 0 then in_reset (vi_shared d) else vi_shared d
    end /\
    ((forall events, op = OpReport events -> simple_report events) -> backlog_bounded (vi_shared d) -> backlog_bounded (vi_shared d')).
Proof.
  intros Hs Hq Hm Ho. destruct op as [n|events|status]; cbn [input_step].
  - unfold in_notify. destruct (_ =? _); [|destruct (_ =? _)].
    + unfold kick_eventq. destruct (serve_kicks_ok fuel (set_kick true (Some n) (vi_shared d)) mem irq) as (s' & mem' & irq' & -> & Hs' & Hm' & Hf & Hd); [|done|].
      { destruct Hs. split; cbn; try done. by intros ? [= <-]. }
      eexists _, _, _, _. split_and!; [done..|]. intros _ Hb. by eapply flushed_bounded.
    + destruct (serve_status_ok fuel (rebind n (vi_statusq d)) (vi_shared d) mem irq) as (q & s' & mem' & irq' & -> & Hq' & Hs' & Hm' & Hd & Hp & Hb); [by apply rebind_wf|done|done|].
      eexists _, _, _, _. split_and!; [done..|]. by intros _.
    + by eexists _, _, _, _.
  - destruct (input_report_ok fuel events (vi_shared d) mem irq Hs Hm) as (queued & s' & mem' & irq' & -> & Hs' & Hm' & Hr & Hrel & (s0 & F0 & Hs0 & Hc) & Hd).
    eexists _, _, _, _. split_and!; [done..| |].
    + exists queued. split_and!; [done|done|done|]. intros code -> Hb Hcode. apply Hrel; [done| |].
      * unfold releases_held_keys. rewrite filter_non_syn by (constructor; [done|constructor]). cbn. by rewrite bool_decide_true.
      * cbn. unfold supports. cbn. rewrite bool_decide_true by by apply Hs. done.
    + intros Hsim Hb. specialize (Hsim events eq_refl). pose proof (flushed_bounded _ _ F0 Hb) as Hb0. destruct queued; [|by eapply flushed_bounded].
      destruct Hc as [Ha Hf]. eapply flushed_bounded; [exact Hf|]. by apply enqueue_bounded.
  - eexists _, _, _, _. split; [done|]. unfold in_status_changed. destruct (status =? 0); [|by split_and!]. destruct (in_reset_inv (vi_shared d)). by split_and!.
Qed.
End ops.

(** A report may release one held key any number of times, and is then taken over any limit. *)
Lemma repeated_releases_accepted n code s :
  in_inv s -> is_Some (i_eventq s) -> code ∈ i_held s -> accepts (replicate (S n) (ev_key code false)) s = true.
Proof.
  intros Hi [b Hb] Hc. unfold accepts. rewrite Hb.
  assert (Hin : forall e, In e (replicate (S n) (ev_key code false)) -> e = ev_key code false) by (intros e He; by apply list_elem_of_In, elem_of_replicate in He as [-> _]).
  destruct (existsb _ _) eqn:E.
  - apply existsb_exists in E as (e & He & Hs). apply Hin in He as ->. unfold supports in Hs. cbn in Hs. by rewrite bool_decide_true in Hs by by apply Hi.
  - apply orb_true_iff. right. unfold releases_held_keys. rewrite filter_non_syn by (apply list.Forall_forall; intros e He; apply list_elem_of_In, Hin in He as ->; done).
    apply andb_true_iff. split; [done|]. apply forallb_forall. intros e He. apply Hin in He as ->. cbn. by rewrite bool_decide_true.
Qed.

(** What the keyboard and the tablet advertise fits the union, for every selection. *)
Lemma payload_fits k select subsel : 0 <= subsel -> (length (payload k select subsel) <= UNION_LEN)%nat.
Proof.
  intros Hs. unfold payload. destruct (_ && _); [destruct k; vm_compute; lia|]. destruct (_ && _); [destruct k; vm_compute; lia|].
  destruct (_ && _); [destruct k; vm_compute; lia|]. destruct (_ =? _); [|destruct (_ && _ && _); vm_compute; lia].
  unfold ev_bits. destruct (_ && _); [vm_compute; lia|]. destruct k; cbn [kind_codes]; repeat (destruct (_ =? _); [vm_compute; lia|]); vm_compute; lia.
Qed.

(** No two keys of the Mac share a Linux key, and none is listed twice. *)
Lemma linux_key_injective k1 k2 c : linux_key k1 = Some c -> linux_key k2 = Some c -> k1 = k2.
Proof.
  assert (Hn : NoDup linux_keys) by (apply (bool_decide_unpack _); by vm_compute).
  assert (Hl : forall k, linux_key k = Some c -> exists i, KEY_MAP !! i = Some (k, c)).
  { intros k Hk. unfold linux_key in Hk. destruct (List.find _ KEY_MAP) as [[k' c']|] eqn:E; [|done]. apply find_some in E as [Hin Heq]. apply Z.eqb_eq in Heq. cbn [fst] in Heq.
    cbn in Hk. injection Hk as ->. subst k'. apply list_elem_of_In, list_elem_of_lookup_1 in Hin. exact Hin. }
  intros H1 H2. destruct (Hl _ H1) as [i Hi], (Hl _ H2) as [j Hj].
  assert (i = j) as ->. { apply (NoDup_lookup linux_keys i j c Hn); unfold linux_keys; by rewrite list_lookup_fmap, ?Hi, ?Hj. }
  congruence.
Qed.

(** *** A key press reaches the guest *)

(** The event ring at [base + 0x1000] offers a buffer with room for one event and
    one of four bytes. *)
Definition input_ram : Memory :=
  foldl (fun m '(off, bs) => match write_bytes m (demo_base + off) bs with Ok m => m | Err _ => m end) demo_memory
    [(0x1000, demo_desc (demo_base + 0x1800) 8 2 0 ++ demo_desc (demo_base + 0x1900) 4 2 0); (0x1100, [0; 0; 2; 0; 0; 0; 1; 0])].
Definition input_queue : QueueNotify :=
  {| n_index := 0; n_size := 4; n_desc := demo_base + 0x1000; n_avail := demo_base + 0x1100; n_used := demo_base + 0x1200; n_features := 0 |}.
Definition demo_input : VirtioInput :=
  {| vi_shared := set_eventq (Some (rebind input_queue None)) (in_new Keyboard); vi_statusq := None; vi_select := (0, 0) |}.

Lemma input_ram_wf : bm_inv input_ram.
Proof. apply (bool_decide_unpack (wf input_ram)). vm_compute. exact I. Qed.
Lemma demo_input_inv : in_inv (vi_shared demo_input).
Proof.
  split; [|done..|intros c Hc; by apply elem_of_empty in Hc]. intros b [= <-]. apply queue_of_wf.
  split; [fits_closed|]. split; [fits_closed|]. split; fits_closed.
Qed.

(** Key 30 goes down: the press is in the guest's buffer, the four-byte buffer is
    given back unused, and the SYN_REPORT is the backlog. *)
Lemma input_keys_faithful_witness :
  exists r d' mem' irq', input_step 4 (OpReport [ev_key 30 true]) demo_input input_ram VirtioIrq.new = Some (r, d', mem', irq') /\
    r = Some true /\ bm_read mem' (demo_base + 0x1800) 8 = Ok [1; 0; 30; 0; 1; 0; 0; 0] /\ bm_read mem' (demo_base + 0x1200) 20 = Ok ([0; 0; 2; 0] ++ [0; 0; 0; 0; 8; 0; 0; 0] ++ [1; 0; 0; 0; 0; 0; 0; 0]) /\
    i_pending (vi_shared d') = [ev_syn] /\ report_done 4 [ev_key 30 true] (vi_shared demo_input) input_ram true (vi_shared d') mem' /\ backlog_bounded (vi_shared d').
Proof.
  destruct (input_keys_faithful 4 (OpReport [ev_key 30 true]) demo_input input_ram VirtioIrq.new) as (r & d' & mem' & irq' & E & _ & _ & _ & (queued & Hr & Hd & _) & Hb).
  - exact demo_input_inv.
  - intros b H. discriminate H.
  - exact input_ram_wf.
  - exact I.
  - exists r, d', mem', irq'. split; [exact E|].
    assert (Hc : match input_step 4 (OpReport [ev_key 30 true]) demo_input input_ram VirtioIrq.new with
                 | Some (r, d, m, _) => r = Some true /\ bm_read m (demo_base + 0x1800) 8 = Ok [1; 0; 30; 0; 1; 0; 0; 0] /\
                     bm_read m (demo_base + 0x1200) 20 = Ok ([0; 0; 2; 0] ++ [0; 0; 0; 0; 8; 0; 0; 0] ++ [1; 0; 0; 0; 0; 0; 0; 0]) /\ i_pending (vi_shared d) = [ev_syn]
                 | None => False end) by (vm_compute; repeat split).
    rewrite E in Hc. destruct Hc as (H1 & H2 & H3 & H4). rewrite H1 in Hr. injection Hr as <-. split; [exact H1|]. split; [exact H2|]. split; [exact H3|]. split; [exact H4|]. split; [exact Hd|].
    apply Hb.
    + intros events H. injection H as <-. split; [constructor; [discriminate|constructor]|]. apply NoDup_singleton.
    + unfold backlog_bounded. vm_compute. lia.
Defined.
