(* ===== verification/InputKicks.v ===== *)
(** * Event queue kicks of the input devices, thread by thread

    The locking of [ternvale-devices/src/virtio/input/sink.rs]: [kick_eventq] on the
    vCPU thread, [report] on host threads and [serve_kicks] in both, one atomic
    action per step.  A kick is the flag [k_kick]; the state lock is [k_lock].  The
    field [k_raced] records that a thread released the lock while a kick waited and
    returned without looking again. *)

From stdpp Require Import list.
From S2P Require Import Prelude.

(** Where [serve_kicks] returns to: its caller is done, or [report] goes on. *)
Inductive after := AIdle | AReport.

(** The next action of a thread. *)
Inductive kpc :=
| KIdle
| KStore              (* [kick_eventq]: store the flag *)
| KLoad (a : after)   (* [serve_kicks]: load the flag *)
| KTry (a : after)    (* try the state lock *)
| KSwap (a : after)   (* with the lock: swap the flag *)
| KFlush (a : after)  (* with the lock: bind, flush, unlock *)
| KReturn (a : after) (* with the lock: another thread served the kick; unlock and return *)
| KLock               (* [report]: wait for the lock *)
| KBody.              (* with the lock: queue the report, flush, unlock *)

Record kconf := { k_kick : bool; k_lock : option nat; k_raced : bool; k_pcs : list kpc }.

Definition resume (a : after) : kpc := match a with AIdle => KIdle | AReport => KLock end.
Definition goto (i : nat) (p : kpc) (c : kconf) : kconf := {| k_kick := k_kick c; k_lock := k_lock c; k_raced := k_raced c; k_pcs := <[i := p]> (k_pcs c) |}.
Definition with_kick (v : bool) (c : kconf) : kconf := {| k_kick := v; k_lock := k_lock c; k_raced := k_raced c; k_pcs := k_pcs c |}.
Definition with_lock (l : option nat) (c : kconf) : kconf := {| k_kick := k_kick c; k_lock := l; k_raced := k_raced c; k_pcs := k_pcs c |}.
Definition leave (c : kconf) : kconf := {| k_kick := k_kick c; k_lock := None; k_raced := k_raced c || k_kick c; k_pcs := k_pcs c |}.

(** The next state of thread [i] from its program counter; [start] chooses what an
    idle thread begins (a kick or a report).  [None]: it cannot run. *)
Definition kstep (start : bool) (i : nat) (c : kconf) : option kconf :=
  match k_pcs c !! i with
  | None => None
  | Some KIdle => Some (goto i (if start then KStore else KLoad AReport) c)
  | Some KStore => Some (goto i (KLoad AIdle) (with_kick true c))
  | Some (KLoad a) => Some (goto i (if k_kick c then KTry a else resume a) c)
  | Some (KTry a) => match k_lock c with None => Some (goto i (KSwap a) (with_lock (Some i) c)) | Some _ => Some (goto i (resume a) c) end
  | Some (KSwap a) => if k_kick c then Some (goto i (KFlush a) (with_kick false c)) else Some (goto i (KReturn a) c)
  | Some (KFlush a) => Some (goto i (KLoad a) (with_lock None c))
  | Some (KReturn a) => Some (goto i (resume a) (leave c))
  | Some KLock => match k_lock c with None => Some (goto i KBody (with_lock (Some i) c)) | Some _ => None end
  | Some KBody => Some (goto i (KLoad AIdle) (with_lock None c))
  end.

Definition kstart (n : nat) : kconf := {| k_kick := false; k_lock := None; k_raced := false; k_pcs := replicate n KIdle |}.
Inductive kreach (n : nat) : kconf -> Prop :=
| kreach_start : kreach n (kstart n)
| kreach_step start i c c' : kreach n c -> kstep start i c = Some c' -> kreach n c'.

(** A schedule: which thread runs, and what it starts when idle. *)
Fixpoint krun (sched : list (bool * nat)) (c : kconf) : option kconf :=
  match sched with [] => Some c | (b, i) :: sched => match kstep b i c with Some c => krun sched c | None => None end end.

(** ** Invariant *)

(** A thread that holds the lock, and one that will look at the flag again. *)
Definition holds (p : kpc) : bool := match p with KSwap _ | KFlush _ | KReturn _ | KBody => true | _ => false end.
Definition looks (p : kpc) : bool := match p with KIdle | KStore => false | _ => true end.

Record kinv (c : kconf) : Prop := {
  kv_lock : forall i p, k_pcs c !! i = Some p -> holds p = true -> k_lock c = Some i;
  kv_holder : forall i, k_lock c = Some i -> exists p, k_pcs c !! i = Some p /\ holds p = true;
  kv_kick : k_kick c = true -> k_raced c = true \/ exists i p, k_pcs c !! i = Some p /\ looks p = true;
}.

Lemma holder_looks p : holds p = true -> looks p = true.
Proof. by destruct p. Qed.

Section step.
Context (c : kconf) (i : nat) (p0 : kpc).
Hypothesis Hc : kinv c.
Hypothesis Hi : k_pcs c !! i = Some p0.

Lemma pcs_other q j p : <[i := q]> (k_pcs c) !! j = Some p -> (j = i /\ p = q) \/ (j <> i /\ k_pcs c !! j = Some p).
Proof.
  pose proof (lookup_lt_Some _ _ _ Hi). intros H1. destruct (decide (j = i)) as [->|]; [left; rewrite list_lookup_insert_eq in H1 by done; by simplify_eq|right].
  by rewrite list_lookup_insert_ne in H1 by done.
Qed.
Lemma pcs_self q : <[i := q]> (k_pcs c) !! i = Some q.
Proof. apply list_lookup_insert_eq. by eapply lookup_lt_Some. Qed.

(** A step that leaves the lock alone. *)
Lemma keep_inv q v :
  holds q = holds p0 -> (v = true -> k_raced c = true \/ looks q = true \/ exists j p, j <> i /\ k_pcs c !! j = Some p /\ looks p = true) ->
  kinv (goto i q (with_kick v c)).
Proof.
  intros Hh Hk. destruct Hc as [H1 H2 H3]. split; cbn.
  - intros j p Hj Hp. destruct (pcs_other q j p Hj) as [[-> ->]|[_ Hj']]; [|by eapply H1]. eapply H1; [exact Hi|]. by rewrite <- Hh.
  - intros j Hj. destruct (H2 j Hj) as (p & Hp & Hpp). destruct (decide (j = i)) as [->|Hne]; [exists q; split; [apply pcs_self|]; simplify_eq; congruence|].
    exists p. by rewrite list_lookup_insert_ne.
  - intros Hv. destruct (Hk Hv) as [?|[?|(j & p & Hne & Hj & Hl)]]; [by left|right; exists i, q; by split; [apply pcs_self|]|].
    right. exists j, p. by rewrite list_lookup_insert_ne.
Qed.

(** A step that takes the lock. *)
Lemma take_inv q : holds p0 = false -> holds q = true -> k_lock c = None -> kinv (goto i q (with_lock (Some i) c)).
Proof.
  intros Hp Hq Hl. destruct Hc as [H1 H2 H3]. split; cbn.
  - intros j p Hj Hpp. destruct (pcs_other q j p Hj) as [[-> _]|[_ Hj']]; [done|]. specialize (H1 j p Hj' Hpp). congruence.
  - intros j [= <-]. exists q. by split; [apply pcs_self|].
  - intros _. right. exists i, q. split; [apply pcs_self|by apply holder_looks].
Qed.

(** A step that releases it. *)
Lemma release_inv q raced :
  holds p0 = true -> holds q = false -> (k_kick c = true -> raced = true \/ looks q = true) ->
  kinv {| k_kick := k_kick c; k_lock := None; k_raced := raced; k_pcs := <[i := q]> (k_pcs c) |}.
Proof.
  intros Hp Hq Hk. destruct Hc as [H1 H2 H3]. split; cbn; [| |].
  - intros j p Hj Hpp. destruct (pcs_other q j p Hj) as [[-> ->]|[Hne Hj']]; [congruence|]. specialize (H1 j p Hj' Hpp) as E1. specialize (H1 i p0 Hi Hp) as E2. congruence.
  - done.
  - intros Hv. destruct (Hk Hv); [by left|right; exists i, q; by split; [apply pcs_self|]].
Qed.
End step.

Lemma kstep_inv start i c c' : kinv c -> kstep start i c = Some c' -> kinv c'.
Proof.
  intros Hc. unfold kstep. destruct (k_pcs c !! i) as [p|] eqn:Hi; [|done]. pose proof (kv_kick c Hc) as Hk.
  assert (Hother : forall q, k_kick c = true -> looks p = false -> k_raced c = true \/ looks q = true \/ exists j p', j <> i /\ k_pcs c !! j = Some p' /\ looks p' = true).
  { intros q Hv Hp. destruct (Hk Hv) as [?|(j & p' & Hj & Hl)]; [by left|]. right; right. exists j, p'. split; [|done]. intros ->. congruence. }
  destruct p; cbn [resume].
  - intros [= <-]. apply (keep_inv c i KIdle Hc Hi _ (k_kick c)); [by destruct start|]. intros Hv. by apply Hother.
  - intros [= <-]. apply (keep_inv c i KStore Hc Hi); [done|]. intros _. by right; left.
  - intros [= <-]. apply (keep_inv c i (KLoad a) Hc Hi (if k_kick c then KTry a else resume a) (k_kick c)); [by destruct (k_kick c), a|]. intros ->. by right; left.
  - destruct (k_lock c) as [j|] eqn:El; intros [= <-]; [|by apply (take_inv c i (KTry a) Hc Hi)].
    apply (keep_inv c i (KTry a) Hc Hi (resume a) (k_kick c)); [by destruct a|]. intros _. right; right. destruct (kv_holder c Hc j El) as (p & Hp & Hh). exists j, p. split_and!; [|done|by apply holder_looks].
    intros ->. by simplify_eq.
  - destruct (k_kick c) eqn:Ek; intros [= <-].
    + by apply (keep_inv c i (KSwap a) Hc Hi (KFlush a) false).
    + apply (keep_inv c i (KSwap a) Hc Hi (KReturn a) (k_kick c)); [done|]. by right; left.
  - intros [= <-]. apply (release_inv c i (KFlush a) Hc Hi (KLoad a)); [done|done|by right].
  - intros [= <-]. apply (release_inv c i (KReturn a) Hc Hi (resume a) (k_raced c || k_kick c)); [done|by destruct a|]. intros ->. left. apply orb_true_r.
  - destruct (k_lock c) eqn:El; [done|]. intros [= <-]. by apply (take_inv c i KLock Hc Hi).
  - intros [= <-]. apply (release_inv c i KBody Hc Hi (KLoad AIdle)); [done|done|by right].
Qed.

Lemma kreach_inv n c : kreach n c -> kinv c.
Proof.
  induction 1 as [|start i c c' _ IH Hs]; [|by eapply kstep_inv]. split; cbn; [| |done].
  - intros i p Hp Hh. by apply lookup_replicate in Hp as [-> _].
  - done.
Qed.

(** Two threads are never inside the state lock together, and when every thread is
    idle again a kick still waits only if one of them released the lock by the
    early return of [serve_kicks]. *)
Theorem kick_waits_only_by_early_return n c :
  kreach n c ->
  (forall i j p q, k_pcs c !! i = Some p -> k_pcs c !! j = Some q -> holds p = true -> holds q = true -> i = j) /\
  (k_kick c = true -> Forall (fun p => p = KIdle) (k_pcs c) -> k_raced c = true).
Proof.
  intros Hr. destruct (kreach_inv n c Hr) as [H1 H2 H3]. split.
  - intros i j p q Hp Hq Hhp Hhq. specialize (H1 i p Hp Hhp) as E1. specialize (H1 j q Hq Hhq) as E2. congruence.
  - intros Hk Hi. destruct (H3 Hk) as [?|(i & p & Hp & Hl)]; [done|]. apply list_elem_of_lookup_2 in Hp. eapply list.Forall_forall in Hi; [|exact Hp]. by subst p.
Qed.

Lemma krun_reach n sched c c' : kreach n c -> krun sched c = Some c' -> kreach n c'.
Proof.
  revert c. induction sched as [|[b i] sched IH]; intros c Hc; cbn [krun]; [by intros [= <-]|]. destruct (kstep b i c) as [c1|] eqn:E; [|done]. apply IH. by econstructor.
Qed.

(** Thread 0 is the vCPU, thread 1 finishes a report: the second kick of the vCPU is
    left to a lock holder that returns without looking, and waits with every thread
    idle. *)
Definition lost_schedule : list (bool * nat) :=
  [(false, 1%nat); (false, 1%nat); (false, 1%nat);              (* report: no kick yet, lock, body done *)
   (false, 1%nat);                                               (* its body unlocks *)
   (true, 0%nat); (true, 0%nat);                                 (* first kick stored *)
   (false, 1%nat);                                               (* report's last serve_kicks sees it *)
   (true, 0%nat); (true, 0%nat); (true, 0%nat); (true, 0%nat);   (* vCPU takes the lock, swaps, flushes *)
   (true, 0%nat);                                                (* no more kicks: returns *)
   (false, 1%nat); (false, 1%nat);                               (* report takes the lock, swaps: nothing *)
   (true, 0%nat); (true, 0%nat); (true, 0%nat); (true, 0%nat);   (* second kick: the lock is held, returns *)
   (false, 1%nat)].                                              (* report unlocks and returns *)

Lemma kick_can_be_lost : exists c, kreach 2 c /\ k_kick c = true /\ k_lock c = None /\ k_pcs c = [KIdle; KIdle].
Proof.
  destruct (krun lost_schedule (kstart 2)) as [c|] eqn:E; [|by vm_compute in E]. exists c. split; [exact (krun_reach 2 lost_schedule _ c (kreach_start 2) E)|].
  vm_compute in E. by injection E as <-.
Qed.
