(* ===== verification/VirtioSound.v ===== *)
(** * The virtio sound device

    Model of [ternvale-devices/src/virtio/sound.rs], [sound/protocol.rs] and
    [sound/worker.rs].  One round of [Worker::run] is [sound_on_kick].  The host's
    playback sink answers by the number of calls made before; the calls are kept in
    a log.  A panic of the worker is [None]. *)

From stdpp Require Import list.
From S2P Require Import Prelude GuestMemory VirtioQueue QueueDevice VirtioIrq VirtioCore QueueWorker PciIntx.

(** ** Wire format ([protocol.rs]) *)

Definition VIRTIO_SND_ID : Z := 25.
Definition VQ_CONTROL : Z := 0.
Definition VQ_EVENT : Z := 1.
Definition VQ_TX : Z := 2.
Definition VQ_RX : Z := 3.
Definition D_OUTPUT : Z := 0.
Definition R_PCM_INFO : Z := 0x0100.
Definition R_PCM_SET_PARAMS : Z := 0x0101.
Definition R_PCM_PREPARE : Z := 0x0102.
Definition R_PCM_RELEASE : Z := 0x0103.
Definition R_PCM_START : Z := 0x0104.
Definition R_PCM_STOP : Z := 0x0105.
Definition EVT_PCM_PERIOD_ELAPSED : Z := 0x1100.
Definition S_OK : Z := 0x8000.
Definition S_BAD_MSG : Z := 0x8001.
Definition S_NOT_SUPP : Z := 0x8002.
Definition S_IO_ERR : Z := 0x8003.
Definition PCM_F_MSG_POLLING : Z := 2.
Definition FMT_S16 : Z := 5.
Definition FMT_S32 : Z := 15.
Definition FMT_FLOAT : Z := 17.
Definition RATE_44100 : Z := 6.
Definition RATE_48000 : Z := 7.

Record PcmParams := { pp_buffer_bytes : Z; pp_period_bytes : Z; pp_channels : Z; pp_format : Z; pp_rate : Z }.

Definition RATE_TABLE : list Z := [5512; 8000; 11025; 16000; 22050; 32000; 44100; 48000; 64000; 88200; 96000; 176400; 192000; 384000].
Definition rate_hz (rate : Z) : Z := default 48000 (RATE_TABLE !! Z.to_nat rate).
Definition bytes_per_sample (format : Z) : Z := if format =? FMT_S16 then 2 else if (format =? FMT_S32) || (format =? FMT_FLOAT) then 4 else 2.
Definition bytes_per_frame (p : PcmParams) : Z := pp_channels p * bytes_per_sample (pp_format p).

Definition le32_at (bs : list Z) (i : nat) : Z := of_le (take 4 (drop i bs)).

(** [None] when an index is out of bounds; otherwise the parameters, if they are. *)
Definition parse_set_params (bytes : list Z) : option (option PcmParams) :=
  if bool_decide (length bytes < 20)%nat then Some None
  else if negb (le32_at bytes 0 =? R_PCM_SET_PARAMS) then Some None
  else match bytes !! 20%nat, bytes !! 21%nat, bytes !! 22%nat with
       | Some channels, Some format, Some rate =>
           Some (Some {| pp_buffer_bytes := le32_at bytes 8; pp_period_bytes := le32_at bytes 12; pp_channels := channels; pp_format := format; pp_rate := rate |})
       | _, _, _ => None
       end.

Definition encode_pcm_info : list Z :=
  le_bytes 4 0 ++ le_bytes 4 (Z.shiftl 1 PCM_F_MSG_POLLING) ++ le_bytes 8 (Z.lor (Z.lor (Z.shiftl 1 FMT_S16) (Z.shiftl 1 FMT_S32)) (Z.shiftl 1 FMT_FLOAT))
  ++ le_bytes 8 (Z.lor (Z.shiftl 1 RATE_44100) (Z.shiftl 1 RATE_48000)) ++ [D_OUTPUT; 1; 2] ++ replicate 5 0.
Definition encode_pcm_event (event_type stream_id : Z) : list Z := le_bytes 4 event_type ++ le_bytes 4 stream_id.
(** [write_status] into a zeroed buffer of [n] bytes. *)
Definition status_bytes (n : nat) (status : Z) : list Z := if bool_decide (4 <= n)%nat then le_bytes 4 status ++ replicate (n - 4) 0 else replicate n 0.

(** ** The device ([sound.rs]) *)

Definition snd_features : Z := Z.lor VIRTIO_F_INDIRECT_DESC VIRTIO_F_EVENT_IDX.
Definition snd_config : list Z := replicate 4 0 ++ le_bytes 4 1 ++ replicate 4 0.
Definition snd_read_config (offset size : Z) : Z :=
  if 12 <=? offset then 0 else of_le (take (Nat.min (Z.to_nat (Z.min size 8)) (12 - Z.to_nat offset)) (drop (Z.to_nat offset) snd_config)).

(** ** The worker ([worker.rs]) *)

Definition SND_INT_VRING : Z := 1.
Definition STREAM_ID : Z := 0.

Record SampleFormat := { sf_rate_hz : Z; sf_channels : Z; sf_bytes_per_frame : Z }.
Inductive PlayCall := Configure (f : SampleFormat) | PushPcm (bs : list Z) | ClosePlayback.
(** What the sink answers to a call. *)
Definition Playback := nat -> PlayCall -> bool.

Inductive SndKick := SNotify (n : QueueNotify) | SReset | STimeout.
Record Sound := {
  sd_control : option SplitQueue; sd_event : option SplitQueue; sd_tx : option SplitQueue; sd_rx : option SplitQueue; sd_params : option PcmParams;
  sd_running : bool; sd_bytes : Z; sd_pending : list Chain; sd_log : list PlayCall;
}.
Definition snd_new : Sound :=
  {| sd_control := None; sd_event := None; sd_tx := None; sd_rx := None; sd_params := None; sd_running := false; sd_bytes := 0; sd_pending := []; sd_log := [] |}.

Definition set_queues (c e t r : option SplitQueue) (d : Sound) : Sound :=
  {| sd_control := c; sd_event := e; sd_tx := t; sd_rx := r; sd_params := sd_params d; sd_running := sd_running d; sd_bytes := sd_bytes d; sd_pending := sd_pending d;
     sd_log := sd_log d |}.
Definition set_stream (p : option PcmParams) (running : bool) (bytes : Z) (d : Sound) : Sound :=
  {| sd_control := sd_control d; sd_event := sd_event d; sd_tx := sd_tx d; sd_rx := sd_rx d; sd_params := p; sd_running := running; sd_bytes := bytes;
     sd_pending := sd_pending d; sd_log := sd_log d |}.
Definition set_events (p : list Chain) (d : Sound) : Sound :=
  {| sd_control := sd_control d; sd_event := sd_event d; sd_tx := sd_tx d; sd_rx := sd_rx d; sd_params := sd_params d; sd_running := sd_running d;
     sd_bytes := sd_bytes d; sd_pending := p; sd_log := sd_log d |}.
Definition log_call (c : PlayCall) (d : Sound) : Sound :=
  {| sd_control := sd_control d; sd_event := sd_event d; sd_tx := sd_tx d; sd_rx := sd_rx d; sd_params := sd_params d; sd_running := sd_running d;
     sd_bytes := sd_bytes d; sd_pending := sd_pending d; sd_log := sd_log d ++ [c] |}.

Definition snd_reset (d : Sound) : Sound :=
  log_call ClosePlayback {| sd_control := None; sd_event := None; sd_tx := None; sd_rx := None; sd_params := None; sd_running := false; sd_bytes := 0;
                            sd_pending := []; sd_log := sd_log d |}.

(** Every notification makes a new queue. *)
Definition snd_bind (n : QueueNotify) (d : Sound) : Sound :=
  let q := Some (queue_of n) in
  if n_index n =? VQ_CONTROL then set_queues q (sd_event d) (sd_tx d) (sd_rx d) d
  else if n_index n =? VQ_EVENT then set_queues (sd_control d) q (sd_tx d) (sd_rx d) d
  else if n_index n =? VQ_TX then set_queues (sd_control d) (sd_event d) q (sd_rx d) d
  else if n_index n =? VQ_RX then set_queues (sd_control d) (sd_event d) (sd_tx d) q d
  else d.

Section worker.
Context {M : Type} `{!ByteMemory M} (playback : Playback).
Implicit Types (d : Sound) (mem : M).

Definition play (c : PlayCall) d : bool * Sound := (playback (length (sd_log d)) c, log_call c d).

Definition handle_set_params (req : list Z) d : option (Z * Sound) :=
  match parse_set_params req with
  | None => None
  | Some None => Some (S_BAD_MSG, d)
  | Some (Some p) =>
      if (pp_channels p =? 0) || (2 <? pp_channels p) then Some (S_BAD_MSG, d)
      else
        let d := set_stream (Some p) (sd_running d) (sd_bytes d) d in
        let '(ok, d) := play (Configure {| sf_rate_hz := rate_hz (pp_rate p); sf_channels := pp_channels p; sf_bytes_per_frame := bytes_per_frame p |}) d in
        if negb ok then Some (S_IO_ERR, d) else Some (S_OK, set_stream (sd_params d) (sd_running d) 0 d)
  end.

Definition handle_control (req : list Z) d : option (Z * Sound) :=
  if bool_decide (length req < 4)%nat then Some (S_BAD_MSG, d)
  else
    let code := le32_at req 0 in
    if code =? R_PCM_INFO then
      if bool_decide (8 <= length req)%nat && negb (le32_at req 4 =? STREAM_ID) then Some (S_BAD_MSG, d) else Some (S_OK, d)
    else if code =? R_PCM_SET_PARAMS then handle_set_params req d
    else if code =? R_PCM_PREPARE then Some (S_OK, d)
    else if code =? R_PCM_START then Some (S_OK, set_stream (sd_params d) true (sd_bytes d) d)
    else if code =? R_PCM_STOP then Some (S_OK, set_stream (sd_params d) false (sd_bytes d) d)
    else if code =? R_PCM_RELEASE then
      Some (S_OK, set_stream None false (sd_bytes d) (play ClosePlayback (set_stream (sd_params d) false (sd_bytes d) d)).2)
    else Some (S_NOT_SUPP, d).

(** A write to the first writable buffer. *)
Definition write_first mem (c : Chain) (bs : list Z) : bool * M :=
  match c_writable c with [] => (false, mem) | w :: _ => write_or_keep mem (buf_addr w) bs end.

Definition write_control_response mem (c : Chain) (status : Z) : bool * M :=
  let req := read_mapped mem (c_readable c) in
  let code := if bool_decide (4 <= length req)%nat then le32_at req 0 else 0 in
  if (status =? S_OK) && (code =? R_PCM_INFO) then write_first mem c encode_pcm_info else write_first mem c (status_bytes 4 status).

(** The chains a handler took: [step] serves one and says with which length it is
    completed, if it is. *)
Fixpoint snd_loop (step : M -> Chain -> Sound -> option (M * Sound * option Z)) mem (q : SplitQueue) (cs : list Chain) d (irq : bool)
  : option (M * SplitQueue * Sound * bool) :=
  match cs with
  | [] => Some (mem, q, d, irq)
  | c :: cs =>
      match step mem c d with
      | None => None
      | Some (mem, d, None) => snd_loop step mem q cs d irq
      | Some (mem, d, Some len) =>
          match add_used q mem (c_head c) len with
          | (q, mem, Ret b) => snd_loop step mem q cs d (irq || b)
          | _ => None
          end
      end
  end.

Definition control_chain mem (c : Chain) d : option (M * Sound * option Z) :=
  match handle_control (read_mapped mem (c_readable c)) d with
  | None => None
  | Some (status, d) => let '(ok, mem) := write_control_response mem c status in Some (mem, d, if ok then Some 0 else None)
  end.

Definition event_chain mem (c : Chain) d : option (M * Sound * option Z) := Some (mem, set_events (sd_pending d ++ [c]) d, Some 0).

(** [Vec::pop] takes the last event buffer. *)
Definition post_period_event mem d : M * Sound :=
  match reverse (sd_pending d) with
  | [] => (mem, d)
  | c :: rest =>
      let '(ok, mem) := write_first mem c (encode_pcm_event EVT_PCM_PERIOD_ELAPSED STREAM_ID) in
      (mem, if ok then set_events (reverse rest) d else d)
  end.

Definition count_period mem (pcm_len : Z) d : M * Sound :=
  match sd_params d with
  | None => (mem, d)
  | Some p =>
      let n := add_w 32 (sd_bytes d) pcm_len in
      if (0 <? pp_period_bytes p) && (pp_period_bytes p <=? n)
      then post_period_event mem (set_stream (sd_params d) (sd_running d) (n - pp_period_bytes p) d)
      else (mem, set_stream (sd_params d) (sd_running d) n d)
  end.

(** [play_tx]: the bytes played, or a status. *)
Definition play_tx mem (c : Chain) d : M * Sound * result Z Z :=
  match c_readable c with
  | [] => (mem, d, Err S_BAD_MSG)
  | b :: _ =>
      match bm_read mem (buf_addr b) 4 with
      | Err _ => (mem, d, Err S_IO_ERR)
      | Ok hdr =>
          if negb (of_le hdr =? STREAM_ID) then (mem, d, Err S_BAD_MSG)
          else
            let pcm_len := saturating_sub (buf_len b) 4 in
            match (if 0 <? pcm_len then bm_read mem (add_w 64 (buf_addr b) 4) (Z.to_nat pcm_len) else Ok []) with
            | Err _ => (mem, d, Err S_IO_ERR)
            | Ok pcm =>
                let '(ok, d) := play (PushPcm pcm) d in
                if negb ok then (mem, d, Err S_IO_ERR)
                else match c_writable c with
                     | [] => (mem, d, Err S_BAD_MSG)
                     | _ => let '(ok, mem) := write_first mem c (status_bytes 8 S_OK) in
                            if negb ok then (mem, d, Err S_IO_ERR)
                            else let '(mem, d) := count_period mem pcm_len d in (mem, d, Ok pcm_len)
                     end
            end
      end
  end.

Definition tx_chain mem (c : Chain) d : option (M * Sound * option Z) :=
  match play_tx mem c d with
  | (mem, d, Ok bytes) => Some (mem, d, Some bytes)
  | (mem, d, Err status) => let '(ok, mem) := write_first mem c (status_bytes 8 status) in Some (mem, d, if ok then Some 0 else None)
  end.

Definition rx_chain mem (c : Chain) d : option (M * Sound * option Z) :=
  let '(ok, mem) := write_first mem c (status_bytes 8 S_NOT_SUPP) in Some (mem, d, if ok then Some 0 else None).

(** A handler over one queue. *)
Definition snd_process (step : M -> Chain -> Sound -> option (M * Sound * option Z)) (q : SplitQueue) d mem (irq : Irq) : option (SplitQueue * Sound * M * Irq) :=
  let '(q, cs, _) := chains mem DRAIN q in
  match snd_loop step mem q cs d false with
  | None => None
  | Some (mem, q, d, completed) =>
      let '(q, needed) := if completed then notification_needed q mem else (q, false) in
      Some (q, d, mem, if needed then raise SND_INT_VRING irq else irq)
  end.

Definition drain_control d mem (irq : Irq) : option (Sound * M * Irq) :=
  match sd_control d with
  | None => Some (d, mem, irq)
  | Some q => match snd_process control_chain q d mem irq with
              | None => None
              | Some (q, d, mem, irq) => Some (set_queues (Some q) (sd_event d) (sd_tx d) (sd_rx d) d, mem, irq)
              end
  end.
Definition drain_event d mem (irq : Irq) : option (Sound * M * Irq) :=
  match sd_event d with
  | None => Some (d, mem, irq)
  | Some q => match snd_process event_chain q d mem irq with
              | None => None
              | Some (q, d, mem, irq) => Some (set_queues (sd_control d) (Some q) (sd_tx d) (sd_rx d) d, mem, irq)
              end
  end.
Definition drain_tx d mem (irq : Irq) : option (Sound * M * Irq) :=
  match sd_tx d with
  | None => Some (d, mem, irq)
  | Some q => if negb (sd_running d) then Some (d, mem, irq)
              else match snd_process tx_chain q d mem irq with
                   | None => None
                   | Some (q, d, mem, irq) => Some (set_queues (sd_control d) (sd_event d) (Some q) (sd_rx d) d, mem, irq)
                   end
  end.
Definition drain_rx d mem (irq : Irq) : option (Sound * M * Irq) :=
  match sd_rx d with
  | None => Some (d, mem, irq)
  | Some q => match snd_process rx_chain q d mem irq with
              | None => None
              | Some (q, d, mem, irq) => Some (set_queues (sd_control d) (sd_event d) (sd_tx d) (Some q) d, mem, irq)
              end
  end.

Definition drain_queues d mem (irq : Irq) : option (Sound * M * Irq) :=
  match drain_control d mem irq with
  | None => None
  | Some (d, mem, irq) =>
      match drain_event d mem irq with
      | None => None
      | Some (d, mem, irq) => match drain_tx d mem irq with None => None | Some (d, mem, irq) => drain_rx d mem irq end
      end
  end.

(** One round of [run]. *)
Definition sound_on_kick (k : SndKick) d mem (irq : Irq) : option (Sound * M * Irq) :=
  drain_queues (match k with SNotify n => snd_bind n d | SReset => snd_reset d | STimeout => d end) mem irq.
End worker.

(** ** Safety *)

Definition queue_ok (o : option SplitQueue) : Prop := forall q, o = Some q -> wf_queue q.
Record snd_inv (d : Sound) : Prop := {
  sv_control : queue_ok (sd_control d);
  sv_event : queue_ok (sd_event d);
  sv_tx : queue_ok (sd_tx d);
  sv_rx : queue_ok (sd_rx d);
  sv_params : forall p, sd_params d = Some p -> 1 <= pp_channels p <= 2;
  sv_pending : Forall chain_ok (sd_pending d);
}.

(** The requests that are parsed without leaving the bytes: less than twenty, or
    all of the structure. *)
Definition request_safe (n : nat) : Prop := (n < 20 \/ 23 <= n)%nat.
(** A chain whose mapped buffers can only make such a request. *)
Definition bufs_sum (bufs : list Buffer) : Z := foldr (fun b t => buf_len b + t) 0 bufs.
Definition chain_safe (c : Chain) : Prop :=
  Forall (fun b => 0 < buf_len b) (c_readable c) /\ (bufs_sum (c_readable c) < 20 \/ Forall (fun b => 23 <= buf_len b) (c_readable c)).

Section safety.
Context {M : Type} `{!ByteMemory M} (playback : Playback).
Implicit Types (d : Sound) (mem : M).

Lemma read_length mem a n bs : bm_inv mem -> 0 <= a -> bm_read mem a (Z.to_nat n) = Ok bs -> 0 < n -> Z.of_nat (length bs) = n.
Proof. intros Hm Ha Hr Hn. apply bm_read_spec in Hr as (_ & Hl & _); [lia|done|done|lia]. Qed.

Lemma safe_request mem c : bm_inv mem -> chain_ok c -> chain_safe c -> request_safe (length (read_mapped mem (c_readable c))).
Proof.
  intros Hm Hc [Hp Hs]. pose proof (cn_readable _ Hc) as Hr. unfold request_safe. destruct Hs as [Hs|Hs].
  - left. assert (Z.of_nat (length (read_mapped mem (c_readable c))) <= bufs_sum (c_readable c)); [|lia]. clear Hs Hc. unfold bufs_sum, read_mapped.
    induction Hr as [|b bufs (Ha & _ & _) _ IH]; [done|]. apply Forall_cons_iff in Hp as [Hb Hp]. specialize (IH Hp). cbn [mbind list_bind foldr]. rewrite length_app.
    cbn [mbind] in IH. destruct (bm_read mem (buf_addr b) _) as [bs|] eqn:E; [|cbn [length]; lia]. pose proof (read_length mem _ _ _ Hm Ha E Hb). lia.
  - assert (length (read_mapped mem (c_readable c)) = 0 \/ 23 <= length (read_mapped mem (c_readable c)))%nat; [|lia]. clear Hc Hp.
    induction Hr as [|b bufs (Ha & _ & _) _ IH]; [by left|]. apply Forall_cons_iff in Hs as [Hb Hs]. specialize (IH Hs). unfold read_mapped in *. cbn [mbind list_bind]. rewrite length_app.
    destruct (bm_read mem (buf_addr b) _) as [bs|] eqn:E; [|exact IH]. pose proof (read_length mem _ _ _ Hm Ha E ltac:(lia)). right. lia.
Qed.

(** A request panics the worker exactly when it is a SET_PARAMS cut inside its last fields. *)
Lemma set_params_panics req :
  parse_set_params req = None <-> (20 <= length req < 23)%nat /\ le32_at req 0 = R_PCM_SET_PARAMS.
Proof.
  unfold parse_set_params. case_bool_decide as Hl; [split; [done|lia]|]. destruct (Z.eqb_spec (le32_at req 0) R_PCM_SET_PARAMS) as [E|E]; cbn [negb]; [|by split; [|tauto]].
  destruct (decide (23 <= length req)%nat) as [Hg|Hg].
  - destruct (lookup_lt_is_Some_2 req 20 ltac:(lia)) as [x ->], (lookup_lt_is_Some_2 req 21 ltac:(lia)) as [y ->], (lookup_lt_is_Some_2 req 22 ltac:(lia)) as [z ->]. split; [done|lia].
  - rewrite (lookup_ge_None_2 req 22) by lia. split; [intros _; split; [lia|done]|]. intros _. by destruct (req !! 20%nat), (req !! 21%nat).
Qed.

Lemma parsed_channels req p : Forall (fits 8) req -> parse_set_params req = Some (Some p) -> 0 <= pp_channels p.
Proof.
  intros Hf. unfold parse_set_params. case_bool_decide; [done|]. destruct (negb _); [done|]. destruct (req !! 20%nat) as [ch|] eqn:E; [|done].
  destruct (req !! 21%nat), (req !! 22%nat); try done. intros [= <-]. eapply list.Forall_lookup_1 in Hf as [? _]; [|exact E]. done.
Qed.

Lemma handle_control_ok req d :
  Forall (fits 8) req -> request_safe (length req) -> snd_inv d -> exists status d', handle_control playback req d = Some (status, d') /\ snd_inv d'.
Proof.
  intros Hf Hr [H1 H2 H3 H4 H5 H6]. unfold handle_control. case_bool_decide; [by eexists _, _|]. cbv zeta.
  destruct (_ =? _); [destruct (_ && _); by eexists _, _|]. destruct (_ =? _).
  { unfold handle_set_params. destruct (parse_set_params req) as [[p|]|] eqn:E; [|by eexists _, _|apply set_params_panics in E; unfold request_safe in Hr; lia].
    pose proof (parsed_channels req p Hf E). destruct (Z.eqb_spec (pp_channels p) 0); [by eexists _, _|]. destruct (Z.ltb_spec 2 (pp_channels p)); [by eexists _, _|]. cbn [orb].
    unfold play. destruct (negb _); eexists _, _; (split; [done|]); split; cbn; try done; intros ? [= <-]; lia. }
  destruct (_ =? _); [by eexists _, _|]. destruct (_ =? _); [by eexists _, _|]. destruct (_ =? _); [by eexists _, _|]. destruct (_ =? _); by eexists _, _.
Qed.

Lemma write_first_inv mem c bs : bm_inv mem -> chain_ok c -> Forall (fits 8) bs -> bm_inv (write_first mem c bs).2.
Proof.
  intros Hm Hc Hf. unfold write_first. pose proof (cn_writable _ Hc) as Hw. destruct (c_writable c) as [|b bs']; [done|]. apply Forall_cons_iff in Hw as [(Ha & _) _]. by apply write_or_keep_inv.
Qed.

Lemma status_bytes_fits n v : Forall (fits 8) (status_bytes n v).
Proof.
  unfold status_bytes. assert (Hz : forall k, Forall (fits 8) (replicate k 0)) by (intros k; apply Forall_replicate; fits_closed).
  case_bool_decide; [apply Forall_app; split; [apply le_bytes_fits|done]|done].
Qed.

Lemma control_response_inv mem c status : bm_inv mem -> chain_ok c -> bm_inv (write_control_response mem c status).2.
Proof. intros Hm Hc. unfold write_control_response. destruct (_ && _); apply write_first_inv; try done; [by apply all_bytes_fits|apply status_bytes_fits]. Qed.

(** A step that keeps memory and device sound on the chains it may meet. *)
Definition step_total (step : M -> Chain -> Sound -> option (M * Sound * option Z)) (Q : Chain -> Prop) : Prop :=
  forall mem c d, bm_inv mem -> chain_ok c -> Q c -> snd_inv d -> exists mem' d' len, step mem c d = Some (mem', d', len) /\ bm_inv mem' /\ snd_inv d'.

Lemma snd_loop_ok step Q cs : step_total step Q -> forall mem q d irq,
  bm_inv mem -> wf_queue q -> Forall chain_ok cs -> Forall Q cs -> snd_inv d ->
  exists mem' q' d' irq', snd_loop step mem q cs d irq = Some (mem', q', d', irq') /\ bm_inv mem' /\ wf_queue q' /\ snd_inv d'.
Proof.
  intros Ht. induction cs as [|c cs IH]; intros mem q d irq Hm Hq Hc HQ Hd; cbn [snd_loop]; [by eexists _, _, _, _|]. apply Forall_cons_iff in Hc as [Hc Hcs], HQ as [HQ HQs].
  destruct (Ht mem c d Hm Hc HQ Hd) as (m1 & d1 & [len|] & -> & Hm1 & Hd1); [|by apply IH].
  pose proof (add_used_keeps m1 q (c_head c) len Hm1 Hq) as Hu. destruct (add_used _ _ _ _) as [[q1 m2] [b| |]]; try done. destruct Hu as (Hq1 & Hm2 & _). by apply IH.
Qed.

Lemma snd_process_ok step Q q d mem irq : step_total step Q -> bm_inv mem -> wf_queue q -> Forall Q (chains mem DRAIN q).1.2 -> snd_inv d ->
  exists q' d' mem' irq', snd_process step q d mem irq = Some (q', d', mem', irq') /\ wf_queue q' /\ bm_inv mem' /\ snd_inv d'.
Proof.
  intros Ht Hm Hq HQ Hd. unfold snd_process. destruct (chains_keeps mem DRAIN q Hm Hq) as [Hq1 Hcs]. destruct (chains mem DRAIN q) as [[q1 cs] fin]. cbn [fst snd] in *.
  destruct (snd_loop_ok step Q cs Ht mem q1 d false Hm Hq1 Hcs HQ Hd) as (m2 & q2 & d2 & comp & -> & Hm2 & Hq2 & Hd2).
  pose proof (finish_wf comp q2 m2 Hq2) as Hf. destruct (if comp then _ else _) as [q3 needed]. by eexists _, _, _, _.
Qed.

Lemma control_total : step_total (control_chain playback) chain_safe.
Proof.
  intros mem c d Hm Hc Hs Hd. unfold control_chain. destruct (handle_control_ok (read_mapped mem (c_readable c)) d) as (status & d' & -> & Hd'); [by apply read_mapped_fits, Hc|by apply safe_request|done|].
  pose proof (control_response_inv mem c status Hm Hc) as Hm'. destruct (write_control_response mem c status) as [ok m']. by eexists _, _, _.
Qed.

Lemma event_total : step_total event_chain (fun _ => True).
Proof.
  intros mem c d Hm Hc _ [H1 H2 H3 H4 H5 H6]. eexists _, _, _. split_and!; [done|done|]. split; cbn; try done. apply Forall_app. by split; [|constructor].
Qed.

Lemma count_period_ok mem n d : bm_inv mem -> snd_inv d -> bm_inv (count_period mem n d).1 /\ snd_inv (count_period mem n d).2.
Proof.
  intros Hm Hd. unfold count_period. destruct (sd_params d) as [p|] eqn:Ep; [|done]. assert (Hset : forall v, snd_inv (set_stream (Some p) (sd_running d) v d)) by (intros v; destruct Hd; by split; cbn; rewrite <- ?Ep).
  destruct (_ && _); [|by split; [|apply Hset]]. unfold post_period_event. cbn [sd_pending set_stream]. destruct (reverse (sd_pending d)) as [|c rest] eqn:Er; [by split; [|apply Hset]|].
  assert (Hp : Forall chain_ok (c :: rest)) by (rewrite <- Er; apply Forall_reverse, Hd). apply Forall_cons_iff in Hp as [Hc Hrest].
  pose proof (write_first_inv mem c (encode_pcm_event EVT_PCM_PERIOD_ELAPSED STREAM_ID) Hm Hc ltac:(by apply all_bytes_fits)) as Hw. destruct (write_first mem c _) as [[|] m']; cbn in *; [|by split; [|apply Hset]].
  split; [done|]. destruct (Hset (add_w 32 (sd_bytes d) n - pp_period_bytes p)) as [H1 H2 H3 H4 H5 H6]. split; cbn; try done. by apply Forall_reverse.
Qed.

Lemma play_tx_ok mem c d : bm_inv mem -> chain_ok c -> snd_inv d -> bm_inv (play_tx playback mem c d).1.1 /\ snd_inv (play_tx playback mem c d).1.2.
Proof.
  intros Hm Hc Hd. unfold play_tx. destruct (c_readable c) as [|b bs]; [done|]. destruct (bm_read mem (buf_addr b) 4) as [hdr|]; [|done]. destruct (negb _); [done|].
  destruct (if 0 <? _ then _ else _) as [pcm|]; [|done]. unfold play. assert (Hd' : snd_inv (log_call (PushPcm pcm) d)) by (by destruct Hd). destruct (negb (playback _ _)); [done|].
  destruct (c_writable c) as [|w ws] eqn:Ew; [done|]. pose proof (write_first_inv mem c (status_bytes 8 S_OK) Hm Hc (status_bytes_fits 8 S_OK)) as Hw. destruct (write_first mem c _) as [[|] m1]; [|done]. cbn [negb snd] in *.
  destruct (count_period_ok m1 (saturating_sub (buf_len b) 4) _ Hw Hd') as [? ?]. destruct (count_period m1 _ _) as [m2 d2]. done.
Qed.

Lemma tx_total : step_total (tx_chain playback) (fun _ => True).
Proof.
  intros mem c d Hm Hc _ Hd. unfold tx_chain. destruct (play_tx_ok mem c d Hm Hc Hd) as [Hm1 Hd1]. destruct (play_tx playback mem c d) as [[m1 d1] [n|e]]; [by eexists _, _, _|]. cbn [fst snd] in *.
  pose proof (write_first_inv m1 c (status_bytes 8 e) Hm1 Hc (status_bytes_fits 8 e)) as Hw. destruct (write_first m1 c _) as [ok m2]. by eexists _, _, _.
Qed.

Lemma rx_total : step_total rx_chain (fun _ => True).
Proof.
  intros mem c d Hm Hc _ Hd. unfold rx_chain. pose proof (write_first_inv mem c (status_bytes 8 S_NOT_SUPP) Hm Hc (status_bytes_fits 8 S_NOT_SUPP)) as Hw.
  destruct (write_first mem c _) as [ok m2]. by eexists _, _, _.
Qed.

Lemma queues_inv c e t r d : queue_ok c -> queue_ok e -> queue_ok t -> queue_ok r -> snd_inv d -> snd_inv (set_queues c e t r d).
Proof. intros ? ? ? ? []. by split. Qed.

Lemma some_queue_ok q : wf_queue q -> queue_ok (Some q).
Proof. by intros ? ? [= <-]. Qed.

Lemma all_true {A} (l : list A) : Forall (fun _ => True) l.
Proof. by apply list.Forall_forall. Qed.

(** One round of the sound worker returns, with queues, memory and negotiated
    parameters sound, when the requests its control queue holds are not SET_PARAMS
    cut inside their last fields. *)
Theorem sound_round_ok k d mem irq :
  snd_inv d -> bm_inv mem -> (forall n, k = SNotify n -> notify_fits n) ->
  (forall q, sd_control (match k with SNotify n => snd_bind n d | SReset => snd_reset d | STimeout => d end) = Some q -> Forall chain_safe (chains mem DRAIN q).1.2) ->
  exists d' mem' irq', sound_on_kick playback k d mem irq = Some (d', mem', irq') /\ snd_inv d' /\ bm_inv mem'.
Proof.
  intros Hd Hm Hn Hs. unfold sound_on_kick. set (d0 := match k with SNotify n => _ | SReset => _ | STimeout => _ end) in *.
  assert (Hd0 : snd_inv d0).
  { subst d0. destruct k as [n| |]; [|by split; cbn; try done; intros ?|done]. pose proof (some_queue_ok _ (queue_of_wf n (Hn n eq_refl))) as Hq. destruct Hd as [H1 H2 H3 H4 H5 H6].
    unfold snd_bind. repeat (destruct (_ =? _); [by apply queues_inv|]). done. }
  clearbody d0. unfold drain_queues.
  assert (A : exists d1 m1 i1, drain_control playback d0 mem irq = Some (d1, m1, i1) /\ snd_inv d1 /\ bm_inv m1).
  { unfold drain_control. destruct (sd_control d0) as [q|] eqn:Eq; [|by eexists _, _, _].
    destruct (snd_process_ok _ _ q d0 mem irq control_total Hm (sv_control _ Hd0 q Eq) (Hs q eq_refl) Hd0) as (q' & d1 & m1 & i1 & -> & Hq' & Hm1 & Hd1).
    eexists _, _, _. split_and!; [done| |done]. apply queues_inv; [by apply some_queue_ok|apply Hd1..|done]. }
  destruct A as (d1 & m1 & i1 & -> & Hd1 & Hm1).
  assert (A : exists d2 m2 i2, drain_event d1 m1 i1 = Some (d2, m2, i2) /\ snd_inv d2 /\ bm_inv m2).
  { unfold drain_event. destruct (sd_event d1) as [q|] eqn:Eq; [|by eexists _, _, _].
    destruct (snd_process_ok _ _ q d1 m1 i1 event_total Hm1 (sv_event _ Hd1 q Eq) (all_true _) Hd1) as (q' & d2 & m2 & i2 & -> & Hq' & Hm2 & Hd2).
    eexists _, _, _. split_and!; [done| |done]. apply queues_inv; [apply Hd2|by apply some_queue_ok|apply Hd2..|done]. }
  destruct A as (d2 & m2 & i2 & -> & Hd2 & Hm2).
  assert (A : exists d3 m3 i3, drain_tx playback d2 m2 i2 = Some (d3, m3, i3) /\ snd_inv d3 /\ bm_inv m3).
  { unfold drain_tx. destruct (sd_tx d2) as [q|] eqn:Eq; [|by eexists _, _, _]. destruct (negb _); [by eexists _, _, _|].
    destruct (snd_process_ok _ _ q d2 m2 i2 tx_total Hm2 (sv_tx _ Hd2 q Eq) (all_true _) Hd2) as (q' & d3 & m3 & i3 & -> & Hq' & Hm3 & Hd3).
    eexists _, _, _. split_and!; [done| |done]. apply queues_inv; [apply Hd3|apply Hd3|by apply some_queue_ok|apply Hd3|done]. }
  destruct A as (d3 & m3 & i3 & -> & Hd3 & Hm3). unfold drain_rx. destruct (sd_rx d3) as [q|] eqn:Eq; [|by eexists _, _, _].
  destruct (snd_process_ok _ _ q d3 m3 i3 rx_total Hm3 (sv_rx _ Hd3 q Eq) (all_true _) Hd3) as (q' & d4 & m4 & i4 & -> & Hq' & Hm4 & Hd4).
  eexists _, _, _. split_and!; [done| |done]. apply queues_inv; [apply Hd4..|by apply some_queue_ok|done].
Qed.
End safety.

(** A notification starts its queue over: the chains served before are served again. *)
Lemma sound_bind_rewinds n d : n_index n = VQ_TX -> exists q, sd_tx (snd_bind n d) = Some q /\ q_last_avail q = 0 /\ q_used_idx q = 0.
Proof. intros E. unfold snd_bind. rewrite E. eexists. split; [reflexivity|]. unfold queue_of, VirtioQueue.new. repeat case_match; done. Qed.
