(* ===== verification/VirtioP9.v ===== *)
(** * The 9p file server

    Model of [ternvale-devices/src/virtio/p9.rs] and [p9/server.rs].  The host file
    system is the class [P9Host] over a state of its own; the server keeps, besides
    its fields, the host paths it touched.  [None] is a panic of the worker: a slice
    out of bounds.  Names are bytes; the conversion of a name that is not UTF-8
    ([from_utf8_lossy]) and the hash of a path are parameters. *)

From stdpp Require Import list gmap strings.
From S2P Require Import Prelude GuestMemory VirtioQueue QueueDevice VirtioIrq VirtioCore QueueWorker FwCfg Virtiofs VirtiofsDev.

Definition TVERSION : Z := 100.
Definition RVERSION : Z := 101.
Definition RLERROR : Z := 9.
Definition TATTACH : Z := 104.
Definition RATTACH : Z := 105.
Definition TWALK : Z := 176.
Definition RWALK : Z := 177.
Definition TLOPEN : Z := 12.
Definition RLOPEN : Z := 13.
Definition TREAD : Z := 16.
Definition RREAD : Z := 17.
Definition TWRITE : Z := 18.
Definition RWRITE : Z := 19.
Definition TGETATTR : Z := 24.
Definition RGETATTR : Z := 25.
Definition TREADDIR : Z := 40.
Definition RREADDIR : Z := 41.
Definition TCLUNK : Z := 22.
Definition RCLUNK : Z := 23.
Definition QTDIR : Z := 0x80.
Definition QTFILE : Z := 0x00.

Definition path := list Z.
Record P9Fid := { fd_path : path; fd_offset : Z }.
Record Qid := { qd_type : Z; qd_version : Z; qd_path : Z }.
Record P9Server := { p9_root : path; p9_msize : Z; p9_fids : gmap Z P9Fid; p9_touched : list path }.
Definition p9_new (root : path) : P9Server := {| p9_root := root; p9_msize := 8192; p9_fids := ∅; p9_touched := [] |}.

Definition set_fids (f : gmap Z P9Fid) (s : P9Server) : P9Server := {| p9_root := p9_root s; p9_msize := p9_msize s; p9_fids := f; p9_touched := p9_touched s |}.
Definition touch (host : path) (s : P9Server) : P9Server :=
  {| p9_root := p9_root s; p9_msize := p9_msize s; p9_fids := p9_fids s; p9_touched := p9_touched s ++ [host] |}.

(** What the host does with a canonical path. *)
Class P9Host (F : Type) := {
  h_canonicalize : F -> path -> option path;
  h_exists : F -> path -> bool;
  h_is_dir : F -> path -> bool;
  h_openable : F -> path -> bool -> bool;            (* for writing? *)
  h_read : F -> path -> Z -> nat -> option (list Z); (* seek and one read of at most so many bytes *)
  h_write : F -> path -> Z -> list Z -> bool * F;    (* seek and [write_all] *)
  h_len : F -> path -> option Z;
  h_read_dir : F -> path -> option (list (list Z));
}.

(** ** Frames *)

Definition p9_string (s : list Z) : list Z := le_bytes 2 (wrap 16 (Z.of_nat (length s))) ++ s.
Definition p9_qid (q : Qid) : list Z := [qd_type q] ++ le_bytes 4 (qd_version q) ++ le_bytes 8 (qd_path q).
(** [push_header], the payload, and [finalize]. *)
Definition p9_frame (msg_type tag : Z) (payload : list Z) : list Z :=
  let rest := [msg_type] ++ le_bytes 2 tag ++ payload in le_bytes 4 (wrap 32 (4 + Z.of_nat (length rest))) ++ rest.
Definition rlerror (tag errno : Z) : list Z := p9_frame RLERROR tag (le_bytes 4 errno ++ p9_string (ascii_bytes "error")).
Definition qid_dir (p : Z) : Qid := {| qd_type := QTDIR; qd_version := 0; qd_path := p |}.

Definition slice (bs : list Z) (i n : nat) : list Z := take n (drop i bs).
Definition read_string (lossy : list Z -> list Z) (body : list Z) (at_ : nat) : result Z (list Z * nat) :=
  if bool_decide (length body < at_ + 2)%nat then Err EINVAL
  else
    let len := Z.to_nat (of_le (slice body at_ 2)) in
    if bool_decide (length body < at_ + 2 + len)%nat then Err EINVAL else Ok (lossy (slice body (at_ + 2) len), (at_ + 2 + len)%nat).
Definition parse_u32 (body : list Z) (at_ : nat) : result Z Z :=
  if bool_decide (length body < at_ + 4)%nat then Err EINVAL else Ok (of_le (slice body at_ 4)).
(** [body[4..12]]: [None] when it is out of bounds. *)
Definition offset_at (body : list Z) : option Z := if bool_decide (length body < 12)%nat then None else Some (of_le (slice body 4 8)).

Section server.
Context (lossy : list Z -> list Z) (hash_path : path -> Z).

Definition parse_version (body : list Z) : result Z Z := msize ← parse_u32 body 0; _ ← read_string lossy body 4; Ok msize.
Definition parse_attach (body : list Z) : result Z Z :=
  fid ← parse_u32 body 0; _ ← parse_u32 body 4; un ← read_string lossy body 8; _ ← read_string lossy body un.2; Ok fid.
Fixpoint read_names (n : nat) (body : list Z) (at_ : nat) : result Z (list (list Z)) :=
  match n with
  | O => Ok []
  | S n => x ← read_string lossy body at_; rest ← read_names n body x.2; Ok (x.1 :: rest)
  end.
Definition parse_walk (body : list Z) : result Z (Z * Z * list (list Z)) :=
  fid ← parse_u32 body 0;
  newfid ← parse_u32 body 4;
  if bool_decide (length body < 10)%nat then Err EINVAL
  else names ← read_names (Z.to_nat (of_le (slice body 8 2))) body 10; Ok (fid, newfid, names).
Definition parse_lopen (body : list Z) : result Z Z := fid ← parse_u32 body 0; _ ← parse_u32 body 4; Ok fid.

(** [None]: the slice panics. *)
Definition parse_read (body : list Z) : option (result Z (Z * Z * Z)) :=
  match parse_u32 body 0 with
  | Err e => Some (Err e)
  | Ok fid => match offset_at body with
              | None => None
              | Some offset => Some (match parse_u32 body 12 with Err e => Err e | Ok count => Ok (fid, offset, count) end)
              end
  end.
Definition parse_write (body : list Z) : option (result Z (Z * Z * list Z)) :=
  match parse_read body with
  | None => None
  | Some (Err e) => Some (Err e)
  | Some (Ok (fid, offset, count)) =>
      Some (if Z.of_nat (length body) <? 16 + count then Err EINVAL else Ok (fid, offset, slice body 16 (Z.to_nat count)))
  end.
Definition parse_getattr (body : list Z) : option (result Z Z) :=
  match parse_u32 body 0 with
  | Err e => Some (Err e)
  | Ok fid => match offset_at body with None => None | Some _ => Some (Ok fid) end
  end.

(** ** Paths *)

(** [PathBuf::push]. *)
Definition path_push (p name : path) : path :=
  match name with
  | b :: _ => if b =? SLASH then name
              else match list.last p with None => name | Some c => if c =? SLASH then p ++ name else p ++ [SLASH] ++ name end
  | [] => match list.last p with None => [] | Some c => if c =? SLASH then p else p ++ [SLASH] end
  end.
(** [Path::parent], up to repeated separators. *)
Definition path_parent (p : path) : option path :=
  match reverse (components p) with
  | [] => None
  | c :: rest => if bool_decide (c = [SLASH]) then None else Some (foldl path_push [] (reverse rest))
  end.

Context {F : Type} `{!P9Host F}.
Implicit Types (s : P9Server) (fs : F).

(** [resolve]; a Unix path has no prefix component. *)
Definition p9_resolve s fs (rel : path) : result Z path :=
  match h_canonicalize fs (path_push (p9_root s) rel) with
  | None => Err ENOENT
  | Some canon => match h_canonicalize fs (p9_root s) with
                  | None => Err ENOENT
                  | Some root => if under_root canon root then Ok canon else Err EPERM
                  end
  end.

Definition qid_for_path s fs (rel : path) : option Qid * P9Server :=
  match p9_resolve s fs rel with
  | Err _ => (None, s)
  | Ok host => (Some {| qd_type := if h_is_dir fs host then QTDIR else QTFILE; qd_version := 0; qd_path := hash_path rel |}, touch host s)
  end.
Definition qid_or_dir s fs (rel : path) : Qid * P9Server := let '(q, s) := qid_for_path s fs rel in (default (qid_dir 0) q, s).

(** ** Requests *)

Definition tversion (tag : Z) (body : list Z) s : list Z * P9Server :=
  match parse_version body with
  | Err e => (rlerror tag e, s)
  | Ok msize =>
      let msize := Z.max 512 (Z.min msize (128 * 1024)) in
      (p9_frame RVERSION tag (le_bytes 4 msize ++ p9_string (ascii_bytes "9P2000.L")), {| p9_root := p9_root s; p9_msize := msize; p9_fids := ∅; p9_touched := p9_touched s |})
  end.

Definition tattach (tag : Z) (body : list Z) s fs : list Z * P9Server :=
  match parse_attach body with
  | Err e => (rlerror tag e, s)
  | Ok fid =>
      if bool_decide (is_Some (p9_fids s !! fid)) then (rlerror tag EINVAL, s)
      else
        let s := set_fids (<[fid := {| fd_path := []; fd_offset := 0 |}]> (p9_fids s)) s in
        let '(qid, s) := qid_or_dir s fs [] in (p9_frame RATTACH tag (p9_qid qid), s)
  end.

(** The names of a walk: the path reached and the identifiers, or an error. *)
Fixpoint walk_names (names : list (list Z)) (p : path) (qids : list Qid) s fs : result Z (path * list Qid) * P9Server :=
  match names with
  | [] => (Ok (p, qids), s)
  | name :: names =>
      if bool_decide (name = []) then (Err ENOENT, s)
      else
        let p := if bool_decide (name = [DOT; DOT]) then default p (path_parent p) else path_push p name in
        match p9_resolve s fs p with
        | Err e => (Err e, s)
        | Ok host =>
            let s := touch host s in
            if negb (h_exists fs host) then (Err ENOENT, s)
            else let '(qid, s) := qid_or_dir s fs p in walk_names names p (qids ++ [qid]) s fs
        end
  end.

Definition twalk (tag : Z) (body : list Z) s fs : list Z * P9Server :=
  match parse_walk body with
  | Err e => (rlerror tag e, s)
  | Ok (fid, newfid, names) =>
      match p9_fids s !! fid with
      | None => (rlerror tag EINVAL, s)
      | Some f =>
          match walk_names names (fd_path f) [] s fs with
          | (Err e, s) => (rlerror tag e, s)
          | (Ok (p, qids), s) =>
              let s := if negb (fid =? newfid) then set_fids (<[newfid := {| fd_path := p; fd_offset := 0 |}]> (p9_fids s)) s
                       else if bool_decide (qids = []) then s
                       else set_fids (alter (fun _ => {| fd_path := p; fd_offset := 0 |}) fid (p9_fids s)) s in
              (p9_frame RWALK tag (le_bytes 2 (wrap 16 (Z.of_nat (length qids))) ++ (qids ≫= p9_qid)), s)
          end
      end
  end.

(** The host path of a fid: the start of every request on one. *)
Definition fid_host (fid : Z) s fs : result Z (path * path) :=
  match p9_fids s !! fid with
  | None => Err EINVAL
  | Some f => match p9_resolve s fs (fd_path f) with Err e => Err e | Ok host => Ok (fd_path f, host) end
  end.
Definition set_offset (fid offset : Z) s : P9Server :=
  set_fids (alter (fun f => {| fd_path := fd_path f; fd_offset := offset |}) fid (p9_fids s)) s.

Definition tlopen (tag : Z) (body : list Z) s fs : list Z * P9Server :=
  match parse_lopen body with
  | Err e => (rlerror tag e, s)
  | Ok fid =>
      match fid_host fid s fs with
      | Err e => (rlerror tag e, s)
      | Ok (p, host) =>
          let s := touch host s in
          if negb (h_exists fs host) then (rlerror tag ENOENT, s)
          else let '(qid, s) := qid_or_dir (set_offset fid 0 s) fs p in
               (p9_frame RLOPEN tag (p9_qid qid ++ le_bytes 4 (Z.max (p9_msize s - 24) 512)), s)
      end
  end.

Definition tread (tag : Z) (body : list Z) s fs : option (list Z * P9Server) :=
  match parse_read body with
  | None => None
  | Some (Err e) => Some (rlerror tag e, s)
  | Some (Ok (fid, offset, count)) =>
      match fid_host fid s fs with
      | Err e => Some (rlerror tag e, s)
      | Ok (_, host) =>
          let s := touch host s in
          if h_is_dir fs host then Some (rlerror tag EISDIR, s)
          else if negb (h_openable fs host false) then Some (rlerror tag ENOENT, s)
          else match h_read fs host offset (Z.to_nat (Z.min count (p9_msize s - 24))) with
               | None => Some (rlerror tag EINVAL, s)
               | Some bs =>
                   let n := Z.of_nat (length bs) in
                   Some (p9_frame RREAD tag (le_bytes 4 (wrap 32 n) ++ bs), set_offset fid (add_w 64 offset n) s)
               end
      end
  end.

Definition twrite (tag : Z) (body : list Z) s fs : option (list Z * P9Server * F) :=
  match parse_write body with
  | None => None
  | Some (Err e) => Some (rlerror tag e, s, fs)
  | Some (Ok (fid, offset, data)) =>
      match fid_host fid s fs with
      | Err e => Some (rlerror tag e, s, fs)
      | Ok (_, host) =>
          let s := touch host s in
          if h_is_dir fs host then Some (rlerror tag EISDIR, s, fs)
          else if negb (h_openable fs host true) then Some (rlerror tag ENOENT, s, fs)
          else match h_write fs host offset data with
               | (false, fs) => Some (rlerror tag EINVAL, s, fs)
               | (true, fs) => Some (p9_frame RWRITE tag (le_bytes 4 (wrap 32 (Z.of_nat (length data)))), s, fs)
               end
      end
  end.

Definition attr_bytes (qid : Qid) (len : Z) : list Z :=
  p9_qid qid ++ le_bytes 4 0 ++ le_bytes 4 (qd_type qid) ++ le_bytes 4 0 ++ le_bytes 4 1 ++ le_bytes 8 0 ++ le_bytes 8 0 ++ le_bytes 8 len ++ le_bytes 8 512
  ++ le_bytes 8 ((len + 511) / 512) ++ le_bytes 8 0 ++ le_bytes 8 0 ++ le_bytes 8 0 ++ le_bytes 8 0.
Definition tgetattr (tag : Z) (body : list Z) s fs : option (list Z * P9Server) :=
  match parse_getattr body with
  | None => None
  | Some (Err e) => Some (rlerror tag e, s)
  | Some (Ok fid) =>
      match fid_host fid s fs with
      | Err e => Some (rlerror tag e, s)
      | Ok (p, host) =>
          let s := touch host s in
          match h_len fs host with
          | None => Some (rlerror tag ENOENT, s)
          | Some len => let '(qid, s) := qid_or_dir s fs p in Some (p9_frame RGETATTR tag (attr_bytes qid len), s)
          end
      end
  end.

(** The two bytes of length count what follows the offset, which is left out. *)
Definition encode_dirent (qid : Qid) (name : list Z) : list Z :=
  let rest := p9_qid qid ++ p9_string name in le_bytes 2 (wrap 16 (Z.of_nat (length rest))) ++ rest.
Fixpoint dirents (names : list (list Z)) (index offset count : Z) (p : path) (payload : list Z) s fs : list Z * P9Server :=
  match names with
  | [] => (payload, s)
  | name :: names =>
      if index <? offset then dirents names (index + 1) offset count p payload s fs
      else
        let '(qid, s) := qid_or_dir s fs (path_push p (lossy name)) in
        let stat := encode_dirent qid (lossy name) in
        if count <? Z.of_nat (length payload + length stat) then (payload, s) else dirents names (index + 1) offset count p (payload ++ stat) s fs
  end.
Definition treaddir (tag : Z) (body : list Z) s fs : option (list Z * P9Server) :=
  match parse_read body with
  | None => None
  | Some (Err e) => Some (rlerror tag e, s)
  | Some (Ok (fid, offset, count)) =>
      match fid_host fid s fs with
      | Err e => Some (rlerror tag e, s)
      | Ok (p, host) =>
          let s := touch host s in
          if negb (h_is_dir fs host) then Some (rlerror tag ENOTDIR, s)
          else match h_read_dir fs host with
               | None => Some (rlerror tag ENOENT, s)
               | Some names => let '(payload, s) := dirents names 0 offset count p [] s fs in
                               Some (p9_frame RREADDIR tag (le_bytes 4 (wrap 32 (Z.of_nat (length payload))) ++ payload), s)
               end
      end
  end.

Definition tclunk (tag : Z) (body : list Z) s : list Z * P9Server :=
  match parse_u32 body 0 with Err e => (rlerror tag e, s) | Ok fid => (p9_frame RCLUNK tag [], set_fids (delete fid (p9_fids s)) s) end.

(** [Server::handle]. *)
Definition p9_handle (request : list Z) s fs : option (list Z * P9Server * F) :=
  if bool_decide (length request < 7)%nat then Some (rlerror 0 EINVAL, s, fs)
  else if negb (of_le (slice request 0 4) =? Z.of_nat (length request)) then Some (rlerror 0 EINVAL, s, fs)
  else
    let ty := default 0 (request !! 4%nat) in
    let tag := of_le (slice request 5 2) in
    let body := drop 7 request in
    let keep (r : list Z * P9Server) := Some (r.1, r.2, fs) in
    let keep_opt (r : option (list Z * P9Server)) := match r with Some r => Some (r.1, r.2, fs) | None => None end in
    if ty =? TVERSION then keep (tversion tag body s)
    else if ty =? TATTACH then keep (tattach tag body s fs)
    else if ty =? TWALK then keep (twalk tag body s fs)
    else if ty =? TLOPEN then keep (tlopen tag body s fs)
    else if ty =? TREAD then keep_opt (tread tag body s fs)
    else if ty =? TWRITE then twrite tag body s fs
    else if ty =? TGETATTR then keep_opt (tgetattr tag body s fs)
    else if ty =? TREADDIR then keep_opt (treaddir tag body s fs)
    else if ty =? TCLUNK then keep (tclunk tag body s)
    else keep (rlerror tag EINVAL, s).

(** ** The device ([p9.rs]) *)

Record P9Stats := { ps_requests : Z; ps_bytes : Z; ps_errors : Z }.
Record P9Worker := { pw9_server : P9Server; pw9_fs : F; pw9_bound : option Bound; pw9_stats : P9Stats }.
Inductive P9Kick := P9Notify (n : QueueNotify) | P9Reset | P9Timeout.

Definition p9_count (response : list Z) (used : Z) (t : P9Stats) : P9Stats :=
  if 0 <? used then {| ps_requests := add_w 64 (ps_requests t) 1; ps_bytes := add_w 64 (ps_bytes t) used; ps_errors := ps_errors t |}
  else if bool_decide (response = []) then t
  else {| ps_requests := ps_requests t; ps_bytes := ps_bytes t; ps_errors := add_w 64 (ps_errors t) 1 |}.

Context {M : Type} `{!ByteMemory M}.

Definition p9_step (mem : M) (c : Chain) (w : P9Server * F * P9Stats) : option (M * (P9Server * F * P9Stats) * Z) :=
  let '(s, fs, t) := w in
  match read_bufs mem (c_readable c) with
  | None => Some (mem, (s, fs, {| ps_requests := ps_requests t; ps_bytes := ps_bytes t; ps_errors := add_w 64 (ps_errors t) 1 |}), 0)
  | Some req =>
      match p9_handle req s fs with
      | None => None
      | Some (response, s, fs) => let '(used, mem) := fs_write_chain mem c response in Some (mem, (s, fs, p9_count response used t), used)
      end
  end.

(** One message of [worker_loop]; a time-out does nothing. *)
Definition p9_on_kick (k : P9Kick) (w : P9Worker) (mem : M) (irq : Irq) : option (P9Worker * M * Irq) :=
  match k with
  | P9Reset => Some ({| pw9_server := {| p9_root := p9_root (pw9_server w); p9_msize := 8192; p9_fids := ∅; p9_touched := p9_touched (pw9_server w) |};
                        pw9_fs := pw9_fs w; pw9_bound := None; pw9_stats := pw9_stats w |}, mem, irq)
  | P9Timeout => Some (w, mem, irq)
  | P9Notify n =>
      let bound := if n_index n =? 0 then Some (rebind n (pw9_bound w)) else pw9_bound w in
      match bound with
      | None => Some ({| pw9_server := pw9_server w; pw9_fs := pw9_fs w; pw9_bound := bound; pw9_stats := pw9_stats w |}, mem, irq)
      | Some b =>
          match drain_notify p9_step b mem irq 1 (pw9_server w, pw9_fs w, pw9_stats w) with
          | None => None
          | Some (b, mem, irq, (s, fs, t)) => Some ({| pw9_server := s; pw9_fs := fs; pw9_bound := Some b; pw9_stats := t |}, mem, irq)
          end
      end
  end.
End server.

(** ** Confinement and framing *)

Section safety.
Context (lossy : list Z -> list Z) (hash_path : path -> Z) {F : Type} `{!P9Host F}.
Implicit Types (s : P9Server) (fs : F).

(** A host path below what the export resolves to. *)
Definition below (root host : path) : Prop := exists fs r, h_canonicalize fs root = Some r /\ under_root host r = true.
Record p9_inv s : Prop := {
  p9i_touched : Forall (below (p9_root s)) (p9_touched s);
  p9i_msize : 512 <= p9_msize s <= 128 * 1024;
}.
(** A step of the server. *)
Record p9_keeps s s' : Prop := { pk_root : p9_root s' = p9_root s; pk_inv : p9_inv s -> p9_inv s' }.
#[local] Instance p9_keeps_preorder : PreOrder p9_keeps.
Proof. split; [by split|]. intros s1 s2 s3 [A1 A2] [B1 B2]. split; [congruence|auto]. Qed.

(** A reply begins with its own length. *)
Definition framed (reply : list Z) : Prop := of_le (take 4 reply) = wrap 32 (Z.of_nat (length reply)) /\ (7 <= length reply)%nat.

Lemma frame_framed ty tag payload : framed (p9_frame ty tag payload).
Proof.
  unfold framed, p9_frame. cbv zeta. rewrite take_app_length' by by rewrite length_le_bytes. rewrite of_le_le_bytes_fits by by apply wrap_fits.
  rewrite !length_app, !length_le_bytes. cbn [length]. split; [f_equal; lia|lia].
Qed.
Lemma error_framed tag e : framed (rlerror tag e).
Proof. unfold rlerror. apply frame_framed. Qed.

Lemma set_fids_keeps f s : p9_keeps s (set_fids f s).
Proof. by split; [|intros []]. Qed.

Lemma touch_keeps s0 s fs rel host : p9_root s0 = p9_root s -> p9_resolve s0 fs rel = Ok host -> p9_keeps s (touch host s).
Proof.
  intros Hr H. split; [done|]. intros [H1 H2]. split; [|done]. cbn. apply Forall_app. split; [done|]. constructor; [|constructor].
  unfold p9_resolve in H. destruct (h_canonicalize fs (path_push _ _)) as [c|]; [|done]. destruct (h_canonicalize fs (p9_root s0)) as [r|] eqn:E; [|done].
  destruct (under_root c r) eqn:U; [|done]. injection H as <-. exists fs, r. by rewrite <- Hr.
Qed.

Lemma qid_keeps s fs rel : p9_keeps s (qid_or_dir hash_path s fs rel).2.
Proof.
  unfold qid_or_dir, qid_for_path. destruct (p9_resolve s fs rel) as [host|] eqn:E; [|done]. cbn. by eapply touch_keeps.
Qed.

Lemma walk_names_keeps names : forall p qids s fs, p9_keeps s (walk_names hash_path names p qids s fs).2.
Proof.
  induction names as [|name names IH]; intros p qids s fs; cbn [walk_names]; [done|]. case_bool_decide; [done|]. cbv zeta.
  destruct (p9_resolve s fs _) as [host|] eqn:E; [|done]. assert (K : p9_keeps s (touch host s)) by (by eapply touch_keeps). destruct (negb _); [exact K|].
  pose proof (qid_keeps (touch host s) fs (if bool_decide (name = [DOT; DOT]) then default p (path_parent p) else path_push p name)) as K2.
  destruct (qid_or_dir _ _ _ _) as [qid s2]. etrans; [exact K|]. etrans; [exact K2|]. apply IH.
Qed.

Lemma fid_host_keeps fid s fs p host : fid_host fid s fs = Ok (p, host) -> p9_keeps s (touch host s).
Proof.
  unfold fid_host. destruct (p9_fids s !! fid) as [f|]; [|done]. destruct (p9_resolve s fs (fd_path f)) as [h|] eqn:E; [|done]. intros [= _ <-]. by eapply touch_keeps.
Qed.

Lemma dirents_keeps names : forall index offset count p payload s fs, p9_keeps s (dirents lossy hash_path names index offset count p payload s fs).2.
Proof.
  induction names as [|name names IH]; intros index offset count p payload s fs; cbn [dirents]; [done|]. destruct (_ <? _); [apply IH|].
  pose proof (qid_keeps s fs (path_push p (lossy name))) as K. destruct (qid_or_dir _ _ _ _) as [qid s2]. cbv zeta. destruct (_ <? _); [exact K|]. etrans; [exact K|apply IH].
Qed.

(** What a handler guarantees. *)
Definition served s (r : list Z * P9Server) : Prop := framed r.1 /\ p9_keeps s r.2.

(** A reply and the state it leaves. *)
Local Ltac ok := split; cbn [fst snd]; [lazymatch goal with |- framed (rlerror _ _) => apply error_framed | _ => apply frame_framed end|first [assumption|reflexivity]].

Lemma tversion_served tag body s : served s (tversion lossy tag body s).
Proof. unfold tversion. destruct (parse_version lossy body) as [m|]; [|ok]. split; [apply frame_framed|]. split; [done|]. intros [H1 H2]. split; [done|cbn]. lia. Qed.

Lemma tattach_served tag body s fs : served s (tattach lossy hash_path tag body s fs).
Proof.
  unfold tattach. destruct (parse_attach lossy body) as [fid|]; [|ok]. case_bool_decide; [ok|].
  pose proof (qid_keeps (set_fids (<[fid := {| fd_path := []; fd_offset := 0 |}]> (p9_fids s)) s) fs []) as K. destruct (qid_or_dir _ _ _ _) as [q s2].
  split; [apply frame_framed|]. etrans; [apply set_fids_keeps|exact K].
Qed.

Lemma twalk_served tag body s fs : served s (twalk lossy hash_path tag body s fs).
Proof.
  unfold twalk. destruct (parse_walk lossy body) as [[[fid newfid] names]|]; [|ok]. destruct (p9_fids s !! fid) as [f|]; [|ok].
  pose proof (walk_names_keeps names (fd_path f) [] s fs) as K. destruct (walk_names _ _ _ _ _ _) as [[[p qids]|e] s2]; [|ok]. split; [apply frame_framed|].
  cbn [snd] in *. etrans; [exact K|]. destruct (negb _); [apply set_fids_keeps|]. case_bool_decide; [done|apply set_fids_keeps].
Qed.

Lemma tlopen_served tag body s fs : served s (tlopen hash_path tag body s fs).
Proof.
  unfold tlopen. destruct (parse_lopen body) as [fid|]; [|ok]. destruct (fid_host fid s fs) as [[p host]|] eqn:E; [|ok]. pose proof (fid_host_keeps _ _ _ _ _ E) as K.
  destruct (negb _); [ok|]. pose proof (qid_keeps (set_offset fid 0 (touch host s)) fs p) as K2. destruct (qid_or_dir _ _ _ _) as [q s2]. split; [apply frame_framed|].
  etrans; [exact K|]. etrans; [apply set_fids_keeps|exact K2].
Qed.

Lemma tclunk_served tag body s : served s (tclunk tag body s).
Proof. unfold tclunk. destruct (parse_u32 body 0) as [fid|]; [split; [apply frame_framed|apply set_fids_keeps]|ok]. Qed.

Definition served_opt s (r : option (list Z * P9Server)) : Prop := match r with Some r => served s r | None => True end.

Lemma tread_served tag body s fs : served_opt s (tread tag body s fs).
Proof.
  unfold tread. destruct (parse_read body) as [[[[fid offset] count]|]|]; [|ok|done]. destruct (fid_host fid s fs) as [[p host]|] eqn:E; [|ok]. pose proof (fid_host_keeps _ _ _ _ _ E) as K.
  cbv zeta. destruct (h_is_dir _ _); [ok|]. destruct (negb _); [ok|]. destruct (h_read _ _ _ _); [|ok]. split; [apply frame_framed|]. etrans; [exact K|apply set_fids_keeps].
Qed.

Lemma twrite_served tag body s fs : match twrite tag body s fs with Some (reply, s', _) => served s (reply, s') | None => True end.
Proof.
  unfold twrite. destruct (parse_write body) as [[[[fid offset] data]|]|]; [|ok|done]. destruct (fid_host fid s fs) as [[p host]|] eqn:E; [|ok]. pose proof (fid_host_keeps _ _ _ _ _ E) as K.
  cbv zeta. destruct (h_is_dir _ _); [ok|]. destruct (negb _); [ok|]. destruct (h_write _ _ _ _) as [[|] fs']; ok.
Qed.

Lemma tgetattr_served tag body s fs : served_opt s (tgetattr hash_path tag body s fs).
Proof.
  unfold tgetattr. destruct (parse_getattr body) as [[fid|]|]; [|ok|done]. destruct (fid_host fid s fs) as [[p host]|] eqn:E; [|ok]. pose proof (fid_host_keeps _ _ _ _ _ E) as K.
  cbv zeta. destruct (h_len _ _); [|ok]. pose proof (qid_keeps (touch host s) fs p) as K2. destruct (qid_or_dir _ _ _ _) as [q s2]. split; [apply frame_framed|]. by etrans.
Qed.

Lemma treaddir_served tag body s fs : served_opt s (treaddir lossy hash_path tag body s fs).
Proof.
  unfold treaddir. destruct (parse_read body) as [[[[fid offset] count]|]|]; [|ok|done]. destruct (fid_host fid s fs) as [[p host]|] eqn:E; [|ok]. pose proof (fid_host_keeps _ _ _ _ _ E) as K.
  cbv zeta. destruct (negb _); [ok|]. destruct (h_read_dir _ _) as [names|]; [|ok]. pose proof (dirents_keeps names 0 offset count p [] (touch host s) fs) as K2.
  destruct (dirents _ _ _ _ _ _ _ _ _ _) as [payload s2]. split; [apply frame_framed|]. by etrans.
Qed.

(** A body that the slice [body[4..12]] cuts: a fid, and less than an offset. *)
Definition cut_body (body : list Z) : Prop := (4 <= length body < 12)%nat.
Lemma parse_read_panics body : parse_read body = None <-> cut_body body.
Proof.
  unfold parse_read, parse_u32, offset_at, cut_body. case_bool_decide; [split; [done|lia]|]. case_bool_decide; [by split; [lia|]|]. split; [|lia]. by case_bool_decide.
Qed.
Lemma parse_getattr_panics body : parse_getattr body = None <-> cut_body body.
Proof. unfold parse_getattr, parse_u32, offset_at, cut_body. case_bool_decide; [split; [done|lia]|]. case_bool_decide; [by split; [lia|]|]. split; [done|lia]. Qed.
Lemma parse_write_panics body : parse_write body = None <-> cut_body body.
Proof. rewrite <- parse_read_panics. unfold parse_write. by destruct (parse_read body) as [[[[? ?] ?]|]|]. Qed.

(** The requests with such a body. *)
Definition cut_request (request : list Z) : Prop :=
  (7 <= length request)%nat /\ of_le (slice request 0 4) = Z.of_nat (length request) /\ default 0 (request !! 4%nat) ∈ [TREAD; TWRITE; TGETATTR; TREADDIR] /\ cut_body (drop 7 request).

Lemma opt_served s fs r : served_opt s r -> r <> None ->
  exists reply s', match r with Some r => Some (r.1, r.2, fs) | None => None end = Some (reply, s', fs) /\ framed reply /\ p9_keeps s s'.
Proof. destruct r as [[reply s']|]; [|done]. intros [? ?] _. by eexists _, _. Qed.

Lemma readers_total tag body s fs : ~ cut_body body ->
  tread tag body s fs <> None /\ twrite tag body s fs <> None /\ tgetattr hash_path tag body s fs <> None /\ treaddir lossy hash_path tag body s fs <> None.
Proof.
  intros Hc. unfold tread, twrite, tgetattr, treaddir. split_and!.
  - destruct (parse_read body) as [[[[fid off] n]|]|] eqn:E; [|done|by apply parse_read_panics in E]. destruct (fid_host fid s fs) as [[p host]|]; [|done]. cbv zeta.
    destruct (h_is_dir _ _); [done|]. destruct (negb _); [done|]. by destruct (h_read _ _ _ _).
  - destruct (parse_write body) as [[[[fid off] data]|]|] eqn:E; [|done|by apply parse_write_panics in E]. destruct (fid_host fid s fs) as [[p host]|]; [|done]. cbv zeta.
    destruct (h_is_dir _ _); [done|]. destruct (negb _); [done|]. by destruct (h_write _ _ _ _) as [[|] ?].
  - destruct (parse_getattr body) as [[fid|]|] eqn:E; [|done|by apply parse_getattr_panics in E]. destruct (fid_host fid s fs) as [[p host]|]; [|done]. cbv zeta.
    destruct (h_len _ _); [|done]. by destruct (qid_or_dir _ _ _ _).
  - destruct (parse_read body) as [[[[fid off] n]|]|] eqn:E; [|done|by apply parse_read_panics in E]. destruct (fid_host fid s fs) as [[p host]|]; [|done]. cbv zeta.
    destruct (negb _); [done|]. destruct (h_read_dir _ _) as [names|]; [|done]. by destruct (dirents _ _ _ _ _ _ _ _ _ _).
Qed.

(** One request to the 9p server, of any bytes, unless it is a read, write,
    getattr or readdir cut between its fid and its offset: the server replies with
    one frame that begins with its own length, and every host path it examined,
    opened, read or wrote lies below what the exported directory resolves to. *)
Theorem p9_request_confined request s fs :
  ~ cut_request request -> p9_inv s ->
  exists reply s' fs', p9_handle lossy hash_path request s fs = Some (reply, s', fs') /\ framed reply /\ p9_root s' = p9_root s /\ p9_inv s'.
Proof.
  intros Hc Hi. unfold p9_handle. pose proof (error_framed 0 EINVAL) as He. case_bool_decide as Hl; [by eexists _, _, _|].
  destruct (Z.eqb_spec (of_le (slice request 0 4)) (Z.of_nat (length request))) as [Hsz|]; cbn [negb]; [|by eexists _, _, _]. clear He.
  cbv zeta. set (ty := default 0 _) in *. set (body := drop 7 request) in *. set (tag := of_le (slice request 5 2)) in *.
  assert (Hdone : forall fs' r, served s r -> exists reply s' fs'', Some (r.1, r.2, fs') = Some (reply, s', fs'') /\ framed reply /\ p9_root s' = p9_root s /\ p9_inv s').
  { intros fs' r [Hf [K1 K2]]. eexists _, _, _. split; [done|]. split; [done|auto]. }
  assert (Hcut : ty ∈ [TREAD; TWRITE; TGETATTR; TREADDIR] -> ~ cut_body body).
  { intros Ht Hb. apply Hc. split; [lia|]. by split. }
  destruct (ty =? TVERSION); [by apply Hdone, tversion_served|]. destruct (ty =? TATTACH); [by apply Hdone, tattach_served|].
  destruct (ty =? TWALK); [by apply Hdone, twalk_served|]. destruct (ty =? TLOPEN); [by apply Hdone, tlopen_served|].
  destruct (Z.eqb_spec ty TREAD) as [E|_].
  { destruct (readers_total tag body s fs) as (H & _); [apply Hcut; rewrite E; set_solver|]. pose proof (tread_served tag body s fs) as Hs. destruct (tread _ _ _ _) as [r|]; [by apply Hdone|done]. }
  destruct (Z.eqb_spec ty TWRITE) as [E|_].
  { destruct (readers_total tag body s fs) as (_ & H & _); [apply Hcut; rewrite E; set_solver|]. pose proof (twrite_served tag body s fs) as Hs. destruct (twrite _ _ _ _) as [[[reply s'] fs']|]; [|done].
    destruct (Hdone fs' (reply, s') Hs) as (? & ? & ? & [= <- <- <-] & ?). by eexists _, _, _. }
  destruct (Z.eqb_spec ty TGETATTR) as [E|_].
  { destruct (readers_total tag body s fs) as (_ & _ & H & _); [apply Hcut; rewrite E; set_solver|]. pose proof (tgetattr_served tag body s fs) as Hs. destruct (tgetattr _ _ _ _ _) as [r|]; [by apply Hdone|done]. }
  destruct (Z.eqb_spec ty TREADDIR) as [E|_].
  { destruct (readers_total tag body s fs) as (_ & _ & _ & H); [apply Hcut; rewrite E; set_solver|]. pose proof (treaddir_served tag body s fs) as Hs. destruct (treaddir _ _ _ _ _ _) as [r|]; [by apply Hdone|done]. }
  destruct (ty =? TCLUNK); [by apply Hdone, tclunk_served|]. apply (Hdone fs (rlerror tag EINVAL, s)). ok.
Qed.

(** The others panic the worker: eleven to eighteen bytes from the guest. *)
Lemma cut_read_panics request s fs : cut_request request -> p9_handle lossy hash_path request s fs = None.
Proof.
  intros (Hl & Hsz & Ht & Hb). unfold p9_handle. rewrite bool_decide_false by lia. rewrite Hsz, Z.eqb_refl. cbn [negb]. cbv zeta. set (ty := default 0 _) in *.
  unfold tread, twrite, tgetattr, treaddir. rewrite (proj2 (parse_read_panics _) Hb), (proj2 (parse_write_panics _) Hb), (proj2 (parse_getattr_panics _) Hb).
  rewrite !elem_of_cons in Ht. destruct Ht as [-> |[-> |[-> |[-> |Ht]]]]; [done..|by apply elem_of_nil in Ht].
Qed.
End safety.

(** A host with one directory and one file of two bytes. *)
Definition demo_file : path := ascii_bytes "/s/hello.txt".
#[export] Instance demo_p9_host : P9Host unit := {|
  h_canonicalize _ p := if bool_decide (p = ascii_bytes "/s" \/ p = demo_file) then Some p else None;
  h_exists _ _ := true;
  h_is_dir _ p := bool_decide (p = ascii_bytes "/s");
  h_openable _ _ _ := true;
  h_read _ _ _ n := Some (take n [104; 105]);
  h_write fs _ _ _ := (true, fs);
  h_len _ _ := Some 2;
  h_read_dir _ _ := Some [ascii_bytes "hello.txt"];
|}.

Definition demo_attached : P9Server := set_fids {[0 := {| fd_path := []; fd_offset := 0 |}]} (p9_new (ascii_bytes "/s")).
Definition demo_walk : list Z := p9_frame TWALK 3 (le_bytes 4 0 ++ le_bytes 4 1 ++ le_bytes 2 1 ++ p9_string (ascii_bytes "hello.txt")).

Lemma p9_request_confined_witness :
  exists reply s' fs', p9_handle id (fun _ => 7) demo_walk demo_attached tt = Some (reply, s', fs') /\ framed reply /\ p9_root s' = p9_root demo_attached /\ p9_inv s'.
Proof.
  apply (p9_request_confined id (fun _ => 7) demo_walk demo_attached tt).
  - intros (_ & _ & Ht & _). vm_compute in Ht. repeat (apply elem_of_cons in Ht as [Ht|Ht]; [discriminate Ht|]). by apply elem_of_nil in Ht.
  - split; [constructor|cbn; lia].
Defined.

(** The walk reaches the file. *)
Example demo_walk_reaches : exists reply s', p9_handle id (fun _ => 7) demo_walk demo_attached tt = Some (reply, s', tt) /\ default 0 (reply !! 4%nat) = RWALK
  /\ p9_touched s' = [demo_file; demo_file] /\ fd_path <$> p9_fids s' !! 1 = Some (ascii_bytes "hello.txt").
Proof. eexists _, _. split; [vm_compute; reflexivity|]. by vm_compute. Qed.
