(* ===== verification/LinuxBoot.v ===== *)
(** * Loading a Linux kernel

    Model of [ternvale-vmm/src/linux.rs]: the header of an arm64 [Image], the choice
    of addresses, the copies into guest memory and the boot registers.  A register
    write may fail; what was done before an error stays done, so the functions
    return the memory and the registers with the result. *)

From stdpp Require Import list strings.
From S2P Require Import Prelude GuestMemory PciIntx.

Definition IMAGE_MAGIC : Z := 0x644d5241.
Definition HEADER_LEN : nat := 64.
Definition TEXT_OFFSET_AT : nat := 8.
Definition IMAGE_SIZE_AT : nat := 16.
Definition FLAGS_AT : nat := 24.
Definition MAGIC_AT : nat := 56.
Definition KERNEL_ALIGN : Z := 2 * 1024 * 1024.
Definition DTB_MAX : Z := 2 * 1024 * 1024.
Definition INITRD_WINDOW_MAX : Z := 32 * 1024 * 1024 * 1024.
Definition CPSR_EL1H_MASKED : Z := 0x3c5.
Definition FLAG_BE : Z := 1.

Record ImageHeader := { ih_text_offset : Z; ih_image_size : Z; ih_flags : Z }.
Record LinuxLayout := { ly_kernel : Z; ly_kernel_bytes : Z; ly_initrd : Z; ly_initrd_bytes : Z; ly_dtb : Z; ly_dtb_bytes : Z }.

Inductive LinuxBootError :=
| LTruncated (len : nat)
| LBadMagic (magic : Z)
| LZeroImageSize
| LBigEndian
| LDtbSize (size : Z)
| LNoFit (ram_base ram_size : Z) (reason : string)
| LMemory (what : string) (gpa : Z) (source : MemoryError)
| LVcpu.

Definition image_le (image : list Z) (offset n : nat) : Z := of_le (take n (drop offset image)).

Definition parse_header (image : list Z) : result LinuxBootError ImageHeader :=
  if bool_decide (length image < HEADER_LEN)%nat then Err (LTruncated (length image))
  else if negb (image_le image MAGIC_AT 4 =? IMAGE_MAGIC) then Err (LBadMagic (image_le image MAGIC_AT 4))
  else
    let h := {| ih_text_offset := image_le image TEXT_OFFSET_AT 8; ih_image_size := image_le image IMAGE_SIZE_AT 8; ih_flags := image_le image FLAGS_AT 8 |} in
    if ih_image_size h =? 0 then Err LZeroImageSize
    else if negb (Z.land (ih_flags h) FLAG_BE =? 0) then Err LBigEndian
    else Ok h.

Definition align_up (value align : Z) : option Z :=
  let mask := align - 1 in
  if Z.land value mask =? 0 then Some value else checked_add 64 value (align - Z.land value mask).

Section place.
Context (ram_base ram_size : Z).

Definition fit {A} (o : option A) (reason : string) : result LinuxBootError A := match o with Some a => Ok a | None => Err (LNoFit ram_base ram_size reason) end.

(** Where the initramfs goes: after the DTB, with the kernel in one window of 32 GiB
    aligned to 1 GiB. *)
Definition place_initrd (ram_end kernel dtb_end initrd_len : Z) : result LinuxBootError Z :=
  if initrd_len =? 0 then Ok 0
  else
    initrd ← fit (align_up dtb_end 0x1000) "initrd align overflow";
    initrd_end ← fit (checked_add 64 initrd initrd_len) "initrd end overflow";
    let window := Z.land kernel (Z.lnot (1024 * 1024 * 1024 - 1)) in
    let window_end := saturating_add 64 window INITRD_WINDOW_MAX in
    if (ram_end <? initrd_end) || (initrd <? window) || (window_end <? initrd_end) then Err (LNoFit ram_base ram_size "initrd does not fit") else Ok initrd.

Definition place (h : ImageHeader) (kernel_len initrd_len dtb_len : Z) : result LinuxBootError LinuxLayout :=
  if (dtb_len =? 0) || (DTB_MAX <? dtb_len) then Err (LDtbSize dtb_len)
  else
    ram_end ← fit (checked_add 64 ram_base ram_size) "ram end overflow";
    aligned ← fit (align_up ram_base KERNEL_ALIGN) "kernel align overflow";
    kernel ← fit (checked_add 64 aligned (ih_text_offset h)) "text_offset overflow";
    let kernel_bytes := Z.max (ih_image_size h) kernel_len in
    kernel_end ← fit (checked_add 64 kernel kernel_bytes) "kernel end overflow";
    if (kernel <? ram_base) || (ram_end <? kernel_end) then Err (LNoFit ram_base ram_size "kernel does not fit")
    else
      dtb ← fit (align_up kernel_end 8) "dtb align overflow";
      dtb_end ← fit (checked_add 64 dtb dtb_len) "dtb end overflow";
      if ram_end <? dtb_end then Err (LNoFit ram_base ram_size "dtb does not fit")
      else
        initrd ← place_initrd ram_end kernel dtb_end initrd_len;
        Ok {| ly_kernel := kernel; ly_kernel_bytes := kernel_bytes; ly_initrd := initrd; ly_initrd_bytes := initrd_len; ly_dtb := dtb; ly_dtb_bytes := dtb_len |}.
End place.

(** The trait [BootRegs]: a write, or an error of the hypervisor. *)
Inductive BootReg := RX (index : Z) | RPC | RCPSR.
Class BootRegs (C : Type) := { set_reg : BootReg -> Z -> C -> option C }.

Section load.
Context {M : Type} `{!ByteMemory M} {C : Type} `{!BootRegs C}.
Implicit Types (mem : M) (cpu : C).

Definition copy (what : string) (gpa : Z) (bytes : list Z) mem : result LinuxBootError unit * M :=
  match bm_write mem gpa bytes with
  | Err e => (Err (LMemory what gpa e), mem)
  | Ok mem =>
      if bool_decide (what = "initrd") && bool_decide (6 <= length bytes)%nat
      then match bm_read mem gpa 6 with Err e => (Err (LMemory what gpa e), mem) | Ok _ => (Ok tt, mem) end
      else (Ok tt, mem)
  end.

Fixpoint set_regs (l : list (BootReg * Z)) cpu : bool * C :=
  match l with
  | [] => (true, cpu)
  | (r, v) :: l => match set_reg r v cpu with Some cpu => set_regs l cpu | None => (false, cpu) end
  end.

Definition boot_regs (layout : LinuxLayout) : list (BootReg * Z) :=
  [(RX 0, ly_dtb layout); (RX 1, 0); (RX 2, 0); (RX 3, 0); (RPC, ly_kernel layout); (RCPSR, CPSR_EL1H_MASKED)].

(** The three copies. *)
Definition copy_images (layout : LinuxLayout) (kernel initrd dtb : list Z) mem : result LinuxBootError unit * M :=
  match copy "kernel" (ly_kernel layout) kernel mem with
  | (Err e, mem) => (Err e, mem)
  | (Ok _, mem) =>
      match (if bool_decide (initrd = []) then (Ok tt, mem) else copy "initrd" (ly_initrd layout) initrd mem) with
      | (Err e, mem) => (Err e, mem)
      | (Ok _, mem) => copy "dtb" (ly_dtb layout) dtb mem
      end
  end.

Definition load_linux (ram_base ram_size : Z) (kernel initrd dtb : list Z) mem cpu : result LinuxBootError LinuxLayout * M * C :=
  match (h ← parse_header kernel; place ram_base ram_size h (Z.of_nat (length kernel)) (Z.of_nat (length initrd)) (Z.of_nat (length dtb))) with
  | Err e => (Err e, mem, cpu)
  | Ok layout =>
      match copy_images layout kernel initrd dtb mem with
      | (Err e, mem) => (Err e, mem, cpu)
      | (Ok _, mem) => match set_regs (boot_regs layout) cpu with
                       | (true, cpu) => (Ok layout, mem, cpu)
                       | (false, cpu) => (Err LVcpu, mem, cpu)
                       end
      end
  end.
End load.

(** ** Placement *)

(** The next multiple of [2 ^ k]. *)
Definition next_multiple (k v : Z) : Z := (v + 2 ^ k - 1) / 2 ^ k * 2 ^ k.

Lemma next_multiple_spec k v : 0 <= k -> next_multiple k v mod 2 ^ k = 0 /\ v <= next_multiple k v < v + 2 ^ k.
Proof.
  intros Hk. unfold next_multiple. assert (0 < 2 ^ k) by (apply Z.pow_pos_nonneg; lia). split; [apply Z.mod_mul; lia|].
  pose proof (Z.div_mod (v + 2 ^ k - 1) (2 ^ k) ltac:(lia)). pose proof (Z.mod_pos_bound (v + 2 ^ k - 1) (2 ^ k) ltac:(lia)). nia.
Qed.

Lemma next_multiple_unique k v a : 0 <= k -> a mod 2 ^ k = 0 -> v <= a < v + 2 ^ k -> a = next_multiple k v.
Proof.
  intros Hk Ha Hb. destruct (next_multiple_spec k v Hk) as [Hm Hn]. assert (0 < 2 ^ k) by (apply Z.pow_pos_nonneg; lia).
  apply Z.mod_divide in Ha as [x ->]; [|lia]. apply Z.mod_divide in Hm as [y Hy]; [|lia]. rewrite Hy in *. assert (x = y); [|by subst]. nia.
Qed.

Lemma align_up_eq k v : 0 <= k <= 32 -> fits 64 v -> align_up v (2 ^ k) = if next_multiple k v <? 2 ^ 64 then Some (next_multiple k v) else None.
Proof.
  intros Hk [Hv0 Hv]. unfold align_up. cbv zeta. assert (H2 : 0 < 2 ^ k) by (apply Z.pow_pos_nonneg; lia).
  rewrite (land_low v k (2 ^ k - 1)) by (try rewrite Z.ones_equiv; lia). pose proof (Z.mod_pos_bound v (2 ^ k) H2).
  destruct (Z.eqb_spec (v mod 2 ^ k) 0) as [E|E].
  - rewrite <- (next_multiple_unique k v v) by (lia || done). destruct (Z.ltb_spec v (2 ^ 64)); [done|lia].
  - assert (Hn : v + (2 ^ k - v mod 2 ^ k) = next_multiple k v).
    { apply next_multiple_unique; [lia| |lia]. replace (v + (2 ^ k - v mod 2 ^ k)) with (v - v mod 2 ^ k + 1 * 2 ^ k) by lia. rewrite Z.mod_add by lia.
      rewrite Zminus_mod_idemp_r, Z.sub_diag. by apply Z.mod_0_l; lia. }
    unfold checked_add. rewrite Hn. done.
Qed.

(** The lowest addresses in order: kernel, DTB, initramfs. *)
Definition layout_of (ram_base : Z) (h : ImageHeader) (kernel_len initrd_len dtb_len : Z) : LinuxLayout :=
  let kernel := next_multiple 21 ram_base + ih_text_offset h in
  let kernel_bytes := Z.max (ih_image_size h) kernel_len in
  let dtb := next_multiple 3 (kernel + kernel_bytes) in
  {| ly_kernel := kernel; ly_kernel_bytes := kernel_bytes; ly_initrd := if initrd_len =? 0 then 0 else next_multiple 12 (dtb + dtb_len);
     ly_initrd_bytes := initrd_len; ly_dtb := dtb; ly_dtb_bytes := dtb_len |}.

(** What the boot protocol asks of a layout in RAM. *)
Record layout_fits (ram_base ram_size : Z) (l : LinuxLayout) : Prop := {
  lf_dtb : 0 < ly_dtb_bytes l <= DTB_MAX;
  lf_ram : ram_base + ram_size < 2 ^ 64;
  lf_kernel_end : ly_kernel l + ly_kernel_bytes l <= ram_base + ram_size;
  lf_dtb_end : ly_dtb l + ly_dtb_bytes l <= ram_base + ram_size;
  lf_initrd_end : ly_initrd_bytes l <> 0 ->
    ly_initrd l + ly_initrd_bytes l <= ram_base + ram_size /\
    ly_initrd l + ly_initrd_bytes l <= ly_kernel l - ly_kernel l mod 2 ^ 30 + INITRD_WINDOW_MAX;
}.

Section placement.
Context (ram_base ram_size : Z) (h : ImageHeader) (kernel_len initrd_len dtb_len : Z).
Hypothesis ram_base_fits : fits 64 ram_base.
Hypothesis text_offset_fits : fits 64 (ih_text_offset h).
Hypothesis image_size_fits : fits 64 (ih_image_size h).
Hypothesis lens : 0 <= kernel_len /\ 0 <= initrd_len /\ 0 <= dtb_len /\ 0 <= ram_size.
Let layout := layout_of ram_base h kernel_len initrd_len dtb_len.

Lemma layout_order :
  ram_base <= ly_kernel layout /\ ly_kernel layout + ly_kernel_bytes layout <= ly_dtb layout /\ kernel_len <= ly_kernel_bytes layout /\
  (initrd_len <> 0 -> ly_dtb layout + dtb_len <= ly_initrd layout).
Proof.
  destruct text_offset_fits, image_size_fits. subst layout. cbn. destruct (next_multiple_spec 21 ram_base ltac:(lia)) as [_ ?].
  destruct (next_multiple_spec 3 (next_multiple 21 ram_base + ih_text_offset h + Z.max (ih_image_size h) kernel_len) ltac:(lia)) as [_ ?].
  destruct (next_multiple_spec 12 (next_multiple 3 (next_multiple 21 ram_base + ih_text_offset h + Z.max (ih_image_size h) kernel_len) + dtb_len) ltac:(lia)) as [_ ?].
  split_and!; [lia..|]. intros Hi. destruct (Z.eqb_spec initrd_len 0); [done|lia].
Qed.

Lemma window_start kernel : Z.land kernel (Z.lnot (1024 * 1024 * 1024 - 1)) = kernel - kernel mod 2 ^ 30.
Proof.
  change (1024 * 1024 * 1024 - 1) with (Z.ones 30). rewrite <- Z.ldiff_land, Z.ldiff_ones_r by lia. rewrite Z.shiftl_mul_pow2, Z.shiftr_div_pow2 by lia.
  pose proof (Z.div_mod kernel (2 ^ 30) ltac:(lia)). lia.
Qed.

Lemma place_initrd_Ok i : fits 64 (ly_dtb layout + dtb_len) -> ram_base + ram_size < 2 ^ 64 ->
  place_initrd ram_base ram_size (ram_base + ram_size) (ly_kernel layout) (ly_dtb layout + dtb_len) initrd_len = Ok i <->
  i = ly_initrd layout /\ (initrd_len <> 0 -> ly_initrd layout + initrd_len <= ram_base + ram_size /\
    ly_initrd layout + initrd_len <= ly_kernel layout - ly_kernel layout mod 2 ^ 30 + INITRD_WINDOW_MAX).
Proof.
  intros Hd Hram. pose proof layout_order as (Hk & Hkd & Hkl & Hi). destruct lens as (? & ? & ? & ?). unfold place_initrd. assert (Hin : ly_initrd layout = if initrd_len =? 0 then 0 else next_multiple 12 (ly_dtb layout + dtb_len)) by done.
  destruct (Z.eqb_spec initrd_len 0) as [E|E]; [rewrite Hin; split; [by intros [= <-]|by intros [-> _]]|]. specialize (Hi E).
  change 0x1000 with (2 ^ 12). rewrite align_up_eq by (lia || done). rewrite <- Hin. rewrite window_start. pose proof (Z.mod_pos_bound (ly_kernel layout) (2 ^ 30) ltac:(lia)).
  destruct (Z.ltb_spec (ly_initrd layout) (2 ^ 64)); cbn [fit mbind result_bind]; [|split; [done|intros [_ Hx]; specialize (Hx E); lia]].
  destruct (checked_add 64 (ly_initrd layout) initrd_len) as [ie|] eqn:Ec; cbn [fit mbind result_bind].
  - apply checked_add_Some in Ec as [-> Hlt]. unfold saturating_add.
    destruct (Z.ltb_spec (ram_base + ram_size) (ly_initrd layout + initrd_len)); cbn [orb]; [split; [done|intros [_ Hx]; specialize (Hx E); lia]|].
    destruct (Z.ltb_spec (ly_initrd layout) (ly_kernel layout - ly_kernel layout mod 2 ^ 30)); cbn [orb]; [lia|].
    destruct (Z.ltb_spec (Z.min (ly_kernel layout - ly_kernel layout mod 2 ^ 30 + INITRD_WINDOW_MAX) (2 ^ 64 - 1)) (ly_initrd layout + initrd_len)).
    + split; [done|]. intros [_ Hx]. specialize (Hx E). lia.
    + split; [intros [= <-]; split; [done|]; lia|by intros [-> _]].
  - apply checked_add_None in Ec. split; [done|]. intros [_ Hx]. specialize (Hx E). lia.
Qed.

(** The placement succeeds exactly when the lowest layout fits in RAM, and returns it. *)
Lemma place_exact l : place ram_base ram_size h kernel_len initrd_len dtb_len = Ok l <-> l = layout /\ layout_fits ram_base ram_size layout.
Proof.
  pose proof layout_order as (Hk & Hkd & Hkl & Hi). destruct lens as (? & ? & ? & ?). pose proof text_offset_fits as [Ht0 _]. pose proof image_size_fits as [Hs0 _]. pose proof ram_base_fits as [Hr0 _].
  unfold place. destruct (Z.eqb_spec dtb_len 0) as [E|E]; cbn [orb]; [split; [done|intros [_ [Hx _ _ _ _]]; cbn in Hx; lia]|].
  destruct (Z.ltb_spec DTB_MAX dtb_len); [split; [done|intros [_ [Hx _ _ _ _]]; cbn in Hx; lia]|].
  destruct (checked_add 64 ram_base ram_size) as [re|] eqn:Ec; cbn [fit mbind result_bind]; [|apply checked_add_None in Ec; split; [done|intros [_ [_ Hx _ _ _]]; lia]].
  apply checked_add_Some in Ec as [-> Hram]. change KERNEL_ALIGN with (2 ^ 21). rewrite align_up_eq by (lia || done). assert (Hka : ly_kernel layout = next_multiple 21 ram_base + ih_text_offset h) by done.
  destruct (next_multiple_spec 21 ram_base ltac:(lia)) as [_ Hal]. assert (Hkb : ly_kernel_bytes layout = Z.max (ih_image_size h) kernel_len) by done.
  destruct (Z.ltb_spec (next_multiple 21 ram_base) (2 ^ 64)); cbn [fit mbind result_bind]; [|split; [done|intros [_ [_ Hx Hy _ _]]; lia]].
  destruct (checked_add 64 (next_multiple 21 ram_base) (ih_text_offset h)) as [k|] eqn:Ec; cbn [fit mbind result_bind]; [|apply checked_add_None in Ec; split; [done|intros [_ [_ Hx Hy _ _]]; lia]].
  apply checked_add_Some in Ec as [-> _]. rewrite <- Hka, <- Hkb. cbv zeta.
  destruct (checked_add 64 (ly_kernel layout) (ly_kernel_bytes layout)) as [ke|] eqn:Ec; cbn [fit mbind result_bind]; [|apply checked_add_None in Ec; split; [done|intros [_ [_ Hx Hy _ _]]; lia]].
  apply checked_add_Some in Ec as [-> Hke]. destruct (Z.ltb_spec (ly_kernel layout) ram_base); [lia|]. cbn [orb].
  destruct (Z.ltb_spec (ram_base + ram_size) (ly_kernel layout + ly_kernel_bytes layout)); [split; [done|intros [_ [_ Hx Hy _ _]]; lia]|].
  change 8 with (2 ^ 3). rewrite align_up_eq by (unfold fits; lia). assert (Hdt : ly_dtb layout = next_multiple 3 (ly_kernel layout + ly_kernel_bytes layout)) by done. rewrite <- Hdt.
  destruct (Z.ltb_spec (ly_dtb layout) (2 ^ 64)); cbn [fit mbind result_bind]; [|split; [done|intros [_ [_ Hx _ Hy _]]; change (ly_dtb_bytes layout) with dtb_len in Hy; lia]].
  destruct (checked_add 64 (ly_dtb layout) dtb_len) as [de|] eqn:Ec; cbn [fit mbind result_bind]; [|apply checked_add_None in Ec; split; [done|intros [_ [_ Hx _ Hy _]]; change (ly_dtb_bytes layout) with dtb_len in Hy; lia]].
  apply checked_add_Some in Ec as [-> Hde]. destruct (Z.ltb_spec (ram_base + ram_size) (ly_dtb layout + dtb_len)); [split; [done|intros [_ [_ Hx _ Hy _]]; change (ly_dtb_bytes layout) with dtb_len in Hy; lia]|].
  assert (Hfd : fits 64 (ly_dtb layout + dtb_len)) by (unfold fits; lia).
  destruct (place_initrd _ _ _ _ _ _) as [i|e] eqn:Ep; cbn [mbind result_bind].
  - apply place_initrd_Ok in Ep as [-> Hw]; [|done|done]. split; [intros [= <-]; split; [done|]|by intros [-> _]]. split; cbn; try done; lia.
  - split; [done|]. intros [_ [_ _ _ _ Hw]]. pose proof (proj2 (place_initrd_Ok (ly_initrd layout) Hfd Hram) (conj eq_refl Hw)) as Hx. congruence.
Qed.
End placement.

(** ** Loading *)

Lemma image_le_fits image offset n : Forall (fits 8) image -> fits (8 * Z.of_nat n) (image_le image offset n).
Proof.
  intros Hf. unfold image_le. destruct (of_le_bound (take n (drop offset image))) as [H0 H1]; [by apply list.Forall_take, list.Forall_drop|].
  split; [done|]. eapply Z.lt_le_trans; [exact H1|]. change 256 with (2 ^ 8). rewrite <- Z.pow_mul_r by lia. apply Z.pow_le_mono_r; [lia|]. rewrite length_take. lia.
Qed.

Lemma parse_header_Ok image h : Forall (fits 8) image -> parse_header image = Ok h ->
  (HEADER_LEN <= length image)%nat /\ fits 64 (ih_text_offset h) /\ fits 64 (ih_image_size h).
Proof.
  intros Hf. unfold parse_header. case_bool_decide; [done|]. case_match; [done|]. cbn. case_match; [done|]. case_match; [done|]. intros [= <-]. cbn.
  split_and!; [lia|apply (image_le_fits image TEXT_OFFSET_AT 8 Hf)|apply (image_le_fits image IMAGE_SIZE_AT 8 Hf)].
Qed.

Section loading.
Context {M : Type} `{!ByteMemory M} {C : Type} `{!BootRegs C}.
Implicit Types (mem : M) (cpu : C).

(** [mem'] is [mem] with [bytes] at [gpa]. *)
Definition stored (gpa : Z) (bytes : list Z) mem mem' : Prop :=
  forall x, bm_byte mem' x = if decide (gpa <= x < gpa + Z.of_nat (length bytes)) then bytes !! Z.to_nat (x - gpa) else bm_byte mem x.

Lemma copy_stores what gpa bytes mem : bm_inv mem -> 0 <= gpa -> Forall (fits 8) bytes -> bytes <> [] -> bm_span mem gpa (Z.of_nat (length bytes)) ->
  exists mem', copy what gpa bytes mem = (Ok tt, mem') /\ bm_inv mem' /\ stored gpa bytes mem mem' /\ (forall x n, bm_span mem' x n <-> bm_span mem x n).
Proof.
  intros Hm Hg Hf Hn Hs. pose proof (proj2 (bm_write_Ok mem gpa bytes Hm Hg Hn) Hs) as [mem' Hw]. destruct (bm_write_spec mem gpa bytes mem' Hm Hg Hf Hw) as (Hm' & Hb & Hsp).
  exists mem'. split; [|by split_and!]. unfold copy. rewrite Hw. destruct (bool_decide (what = "initrd")); [|done]. cbn [andb]. case_bool_decide as H6; [|done].
  destruct (bm_span_read mem' gpa 6 Hm' Hg ltac:(lia)) as [bs ->]; [|done]. apply Hsp. eapply bm_span_sub; [exact Hs|lia|lia].
Qed.

(** The bytes in guest memory at an address. *)
Definition holds_at (gpa : Z) (bytes : list Z) mem : Prop := forall i b, bytes !! i = Some b -> bm_byte mem (gpa + Z.of_nat i) = Some b.

(** The images in guest memory: each file at its place, and every byte outside them
    as it was. *)
Record loaded (l : LinuxLayout) (kernel initrd dtb : list Z) mem mem' : Prop := {
  ld_kernel : holds_at (ly_kernel l) kernel mem';
  ld_initrd : holds_at (ly_initrd l) initrd mem';
  ld_dtb : holds_at (ly_dtb l) dtb mem';
  ld_rest x : ~ (ly_kernel l <= x < ly_kernel l + Z.of_nat (length kernel)) -> ~ (ly_initrd l <= x < ly_initrd l + Z.of_nat (length initrd)) ->
    ~ (ly_dtb l <= x < ly_dtb l + Z.of_nat (length dtb)) -> bm_byte mem' x = bm_byte mem x;
}.

Lemma stored_holds gpa bytes mem mem' : stored gpa bytes mem mem' -> holds_at gpa bytes mem'.
Proof.
  intros Hs i b Hb. pose proof (lookup_lt_Some _ _ _ Hb). rewrite Hs, decide_True by lia. by replace (Z.to_nat (gpa + Z.of_nat i - gpa)) with i by lia.
Qed.

Lemma stored_keeps gpa bytes gpa' bytes' mem mem' : stored gpa bytes mem mem' ->
  gpa' + Z.of_nat (length bytes') <= gpa \/ gpa + Z.of_nat (length bytes) <= gpa' -> holds_at gpa' bytes' mem -> holds_at gpa' bytes' mem'.
Proof. intros Hs Hd Hh i b Hb. pose proof (lookup_lt_Some _ _ _ Hb). rewrite Hs, decide_False by lia. by apply Hh. Qed.

Lemma stored_nil gpa mem : stored gpa [] mem mem.
Proof. intros x. rewrite decide_False; [done|cbn; lia]. Qed.

Lemma copy_images_loads ram_base ram_size l kernel initrd dtb mem :
  bm_inv mem -> 0 <= ram_base -> bm_span mem ram_base ram_size ->
  Forall (fits 8) kernel -> Forall (fits 8) initrd -> Forall (fits 8) dtb -> kernel <> [] ->
  layout_fits ram_base ram_size l -> ly_dtb_bytes l = Z.of_nat (length dtb) -> ly_initrd_bytes l = Z.of_nat (length initrd) ->
  ram_base <= ly_kernel l -> ly_kernel l + ly_kernel_bytes l <= ly_dtb l -> Z.of_nat (length kernel) <= ly_kernel_bytes l ->
  (initrd <> [] -> ly_dtb l + Z.of_nat (length dtb) <= ly_initrd l) ->
  exists mem', copy_images l kernel initrd dtb mem = (Ok tt, mem') /\ bm_inv mem' /\ loaded l kernel initrd dtb mem mem'.
Proof.
  intros Hm Hr Hs Hfk Hfi Hfd Hk [Hd _ Hke Hde Hie] Ed Ei H1 H2 H3 H4. unfold copy_images.
  destruct (copy_stores "kernel" (ly_kernel l) kernel mem Hm ltac:(lia) Hfk Hk) as (m1 & -> & Hm1 & Hs1 & Hp1); [by eapply bm_span_sub; [exact Hs|lia..]|].
  assert (exists m2, (if bool_decide (initrd = []) then (Ok tt, m1) else copy "initrd" (ly_initrd l) initrd m1) = (Ok tt, m2) /\ bm_inv m2 /\
    stored (ly_initrd l) initrd m1 m2 /\ (forall x n, bm_span m2 x n <-> bm_span m1 x n)) as (m2 & -> & Hm2 & Hs2 & Hp2).
  { case_bool_decide as E; [subst; exists m1; split_and!; [done|done|apply stored_nil|done]|]. specialize (H4 E).
    destruct Hie as [? ?]; [rewrite Ei; by destruct initrd|]. apply copy_stores; try done; [lia|]. apply Hp1. eapply bm_span_sub; [exact Hs|lia..]. }
  assert (Hdn : dtb <> []) by (intros ->; cbn in Ed; lia).
  destruct (copy_stores "dtb" (ly_dtb l) dtb m2 Hm2 ltac:(lia) Hfd Hdn) as (m3 & -> & Hm3 & Hs3 & Hp3); [apply Hp2, Hp1; by eapply bm_span_sub; [exact Hs|lia..]|].
  exists m3. split_and!; [done|done|]. split.
  - eapply stored_keeps; [exact Hs3|lia|]. destruct initrd; [|specialize (H4 ltac:(done))].
    + intros i b Hb. rewrite Hs2, decide_False by (cbn; lia). by eapply stored_holds.
    + eapply stored_keeps; [exact Hs2|lia|]. by eapply stored_holds.
  - destruct initrd; [by intros i b Hb|]. specialize (H4 ltac:(done)). eapply stored_keeps; [exact Hs3|lia|]. by eapply stored_holds.
  - by eapply stored_holds.
  - intros x ? ? ?. by rewrite Hs3, decide_False, Hs2, decide_False, Hs1, decide_False.
Qed.

(** C23: with the RAM mapped, [load_linux] has one of three outcomes.  A header that
    does not parse, or a lowest layout (kernel at [text_offset] above a 2 MiB
    boundary, DTB, initramfs) that does not fit in RAM and in the 32 GiB window,
    is refused with memory and registers untouched.  Otherwise each file is in
    memory byte for byte at its place, no other byte has changed, and the boot
    registers are written in order: the call returns that layout when the vCPU
    accepts all of them and [LVcpu] at the first it refuses. *)
Theorem load_linux_outcome ram_base ram_size kernel initrd dtb mem cpu :
  bm_inv mem -> fits 64 ram_base -> 0 <= ram_size -> bm_span mem ram_base ram_size ->
  Forall (fits 8) kernel -> Forall (fits 8) initrd -> Forall (fits 8) dtb ->
  let layout h := layout_of ram_base h (Z.of_nat (length kernel)) (Z.of_nat (length initrd)) (Z.of_nat (length dtb)) in
  match parse_header kernel with
  | Err e => load_linux ram_base ram_size kernel initrd dtb mem cpu = (Err e, mem, cpu)
  | Ok h =>
      (~ layout_fits ram_base ram_size (layout h) /\ exists e, load_linux ram_base ram_size kernel initrd dtb mem cpu = (Err e, mem, cpu)) \/
      (layout_fits ram_base ram_size (layout h) /\ exists mem', bm_inv mem' /\ loaded (layout h) kernel initrd dtb mem mem' /\
        let (ok, cpu') := set_regs (boot_regs (layout h)) cpu in
        load_linux ram_base ram_size kernel initrd dtb mem cpu = (if ok then Ok (layout h) else Err LVcpu, mem', cpu'))
  end.
Proof.
  intros Hm Hr Hsz Hs Hfk Hfi Hfd layout. unfold load_linux. destruct (parse_header kernel) as [h|e] eqn:Ep; [|done]. cbn [mbind result_bind].
  destruct (parse_header_Ok kernel h Hfk Ep) as (Hlen & Ht & Hi).
  pose proof (place_exact ram_base ram_size h (Z.of_nat (length kernel)) (Z.of_nat (length initrd)) (Z.of_nat (length dtb)) Hr Ht Hi ltac:(lia)) as Hx.
  pose proof (layout_order ram_base h (Z.of_nat (length kernel)) (Z.of_nat (length initrd)) (Z.of_nat (length dtb)) Ht Hi) as (H1 & H2 & H3 & H4).
  fold (layout h) in Hx, H1, H2, H3, H4. destruct (place _ _ _ _ _ _) as [l|e].
  - right. destruct (proj1 (Hx l) eq_refl) as [-> Hl]. split; [done|].
    destruct (copy_images_loads ram_base ram_size (layout h) kernel initrd dtb mem) as (mem' & -> & Hm' & Hld); try done.
    { destruct Hr; lia. } { intros ->. cbn in Hlen. unfold HEADER_LEN in Hlen. lia. } { intros Hn. apply H4. by destruct initrd. }
    exists mem'. split_and!; [done|done|]. by destruct (set_regs _ _) as [[] cpu'].
  - left. split; [|by eexists]. intros Hl. pose proof (proj2 (Hx (layout h)) (conj eq_refl Hl)). done.
Qed.
End loading.

(** A vCPU that takes every write and keeps the writes, newest first. *)
#[export] Instance demo_boot_regs : BootRegs (list (BootReg * Z)) := {| set_reg r v cpu := Some ((r, v) :: cpu) |}.

(** A header with [image_size] 0x800 and a body of two bytes. *)
Definition demo_image : list Z :=
  replicate 16 0 ++ le_bytes 8 0x800 ++ replicate 32 0 ++ le_bytes 4 IMAGE_MAGIC ++ replicate 4 0 ++ [7; 8].

Definition demo_layout : LinuxLayout :=
  {| ly_kernel := 2 ^ 30; ly_kernel_bytes := 0x800; ly_initrd := 2 ^ 30 + 0x1000; ly_initrd_bytes := 4; ly_dtb := 2 ^ 30 + 0x800; ly_dtb_bytes := 3 |}.

Lemma load_linux_outcome_witness :
  exists mem', loaded demo_layout demo_image [1; 2; 3; 4] [5; 6; 7] demo_memory mem' /\
    load_linux (2 ^ 30) 32768 demo_image [1; 2; 3; 4] [5; 6; 7] demo_memory [] =
      (Ok demo_layout, mem', [(RCPSR, 0x3c5); (RPC, 2 ^ 30); (RX 3, 0); (RX 2, 0); (RX 1, 0); (RX 0, 2 ^ 30 + 0x800)]).
Proof.
  assert (Hb : forall l, forallb (fun b => (0 <=? b) && (b <? 2 ^ 8)) l = true -> Forall (fits 8) l).
  { intros l Hl. apply list.Forall_forall. intros x Hx. apply list_elem_of_In in Hx. rewrite forallb_forall in Hl. specialize (Hl x Hx). apply andb_true_iff in Hl as [H1 H2]. split; lia. }
  assert (Hs : bm_span demo_memory (2 ^ 30) 32768).
  { exists 1%nat. eexists. split; [reflexivity|]. cbn. lia. }
  pose proof (load_linux_outcome (2 ^ 30) 32768 demo_image [1; 2; 3; 4] [5; 6; 7] demo_memory [] demo_memory_wf ltac:(unfold fits; lia) ltac:(lia) Hs
    (Hb demo_image eq_refl) (Hb [1; 2; 3; 4] eq_refl) (Hb [5; 6; 7] eq_refl)) as H.
  destruct (parse_header demo_image) as [h|] eqn:Eh; [|vm_compute in Eh; discriminate]. assert (El : layout_of (2 ^ 30) h (Z.of_nat (length demo_image)) 4 3 = demo_layout).
  { vm_compute in Eh. injection Eh as <-. reflexivity. }
  cbv beta zeta in H. change (Z.of_nat (length [1; 2; 3; 4])) with 4 in H. change (Z.of_nat (length [5; 6; 7])) with 3 in H. rewrite El in H.
  destruct H as [[Hn _]|(_ & mem' & _ & Hl & H)]; [|by exists mem'].
  exfalso. apply Hn. split; [|..|intros _]; try split; vm_compute; congruence || reflexivity.
Defined.
