(* ===== verification/GicRedist.v ===== *)
(** * GIC redistributor identification

    Model of [ternvale-vmm/src/gic_redist.rs]: the table of redistributor frames and
    the registers a guest CPU reads to find its own ([GICR_TYPER], [GICR_PIDR2]).
    The table is behind one lock; an operation is a function of it.  The walk a CPU
    makes over the frames, as the file's header describes it, is defined here over
    the device's reads, and shown to end at the frame the framework bound. *)

From stdpp Require Import list strings.
From S2P Require Import Prelude Platform MmioBus Smp.

Definition PIDR2_GICV3 : Z := 0x30.
Definition PIDR2_OFFSET : Z := 0xffe8.
Definition TYPER_OFFSET : Z := 0x8.
Definition TYPER_LAST : Z := Z.shiftl 1 4.
Definition REDIST_STRIDE : Z := 0x20000.
Definition FRAMES : nat := Z.to_nat (GIC_REDIST_SIZE / REDIST_STRIDE).

Record Frame := { f_cpu : Z; f_mpidr : Z }.
#[export] Instance Frame_eq_dec : EqDecision Frame.
Proof. solve_decision. Defined.

Notation RedistMap := (list (option Frame)).
Implicit Types frames : RedistMap.

Definition redist_new (cpus : Z) : RedistMap :=
  foldl (fun frames cpu => <[Z.to_nat cpu := Some {| f_cpu := cpu; f_mpidr := mpidr cpu |}]> frames) (replicate FRAMES None) (seqZ 0 (Z.min cpus (Z.of_nat FRAMES))).

(** The slots of one CPU, emptied. *)
Definition forget (cpu : Z) (slot : option Frame) : option Frame :=
  match slot with Some other => if f_cpu other =? cpu then None else slot | None => None end.

Definition record (cpu mpidr base : Z) frames : RedistMap :=
  let offset := wrap 64 (base - GIC_REDIST_BASE) in
  let index := Z.to_nat (offset / REDIST_STRIDE) in
  let frame := {| f_cpu := cpu; f_mpidr := mpidr |} in
  if (base <? GIC_REDIST_BASE) || negb (offset mod REDIST_STRIDE =? 0) || bool_decide (FRAMES <= index)%nat then frames
  else if bool_decide (frames !! index = Some (Some frame)) then frames
  else <[index := Some frame]> (forget cpu <$> frames).

(** [iter().rposition(Option::is_some)]. *)
Fixpoint rposition frames : option nat :=
  match frames with
  | [] => None
  | s :: frames => match rposition frames with Some i => Some (S i) | None => match s with Some _ => Some O | None => None end end
  end.

Definition typer frames (index : nat) : Z :=
  match frames !! index with
  | Some (Some frame) =>
      Z.lor (Z.lor (wrap 64 (Z.shiftl (gicr_affinity (f_mpidr frame)) 32)) (wrap 64 (Z.shiftl (f_cpu frame) 8)))
        (if bool_decide (rposition frames = Some index) then TYPER_LAST else 0)
  | _ => 0
  end.

Definition redist_read frames (offset size : Z) : Z :=
  let index := Z.to_nat (offset / REDIST_STRIDE) in
  let within := offset mod REDIST_STRIDE in
  if Z.land within 0xffff =? PIDR2_OFFSET then PIDR2_GICV3
  else if within =? TYPER_OFFSET then typer frames index
  else if (within =? TYPER_OFFSET + 4) && (size =? 4) then Z.shiftr (typer frames index) 32
  else 0.

#[export] Instance RedistId : MmioDevice RedistMap := {|
  dev_name _ := "gic-redist";
  dev_read frames offset size := (redist_read frames offset size, frames);
  dev_write frames _ _ _ := frames;
  dev_try_kick _ _ _ := None;
|}.

(** ** The walk of a guest CPU *)

(** Frame after frame from [i]: its [GICR_TYPER] in one 64-bit read; the affinity in
    bits 63:32 decides, [Last] in bit 4 ends the walk. *)
Fixpoint walk_frames (fuel : nat) (affinity : Z) (i : nat) frames : option nat :=
  match fuel with
  | O => None
  | S fuel =>
      let (t, frames) := dev_read frames (Z.of_nat i * REDIST_STRIDE + TYPER_OFFSET) 8 in
      if Z.shiftr t 32 =? affinity then Some i
      else if Z.testbit t 4 then None
      else walk_frames fuel affinity (S i) frames
  end.

Definition own_frame (cpu : Z) : Frame := {| f_cpu := cpu; f_mpidr := mpidr cpu |}.

(** A table of [n] CPUs: each frame is a CPU's with its MPIDR, no CPU has two. *)
Record redist_inv (n : Z) frames : Prop := {
  ri_len : length frames = FRAMES;
  ri_own i f : frames !! i = Some (Some f) -> 0 <= f_cpu f < n /\ f = own_frame (f_cpu f);
  ri_one i j f g : frames !! i = Some (Some f) -> frames !! j = Some (Some g) -> f_cpu f = f_cpu g -> i = j;
}.

(** ** The register *)

Lemma gicr_affinity_mpidr i : 0 <= i < 2 ^ 20 -> gicr_affinity (mpidr i) = affinity i.
Proof.
  intros Hi. rewrite <- mpidr_affinity by done. unfold gicr_affinity, MPIDR_AFFINITY_MASK.
  assert (Hm : fits 32 (mpidr i)).
  { unfold mpidr, CLUSTER, MPIDR_RES1. assert (0 <= i / 16 < 2 ^ 16) by (split; [apply Z.div_pos; lia|apply Z.div_lt_upper_bound; lia]). pose proof (Z.mod_pos_bound i 16 ltac:(lia)).
    rewrite wrap_small by (rewrite Z.shiftl_mul_pow2 by done; unfold fits; lia). repeat apply lor_fits; try done; [rewrite Z.shiftl_mul_pow2 by done|]; unfold fits; lia. }
  destruct Hm as [H0 H1]. rewrite Z.shiftr_div_pow2, Z.div_small by lia. cbn [Z.land Z.shiftl wrap]. rewrite Z.lor_0_l.
  change 0xff00ffffff with (Z.lor (Z.shiftl 0xff 32) 0xffffff). rewrite Z.land_lor_distr_r. replace (Z.land (mpidr i) (Z.shiftl 255 32)) with 0; [by rewrite Z.lor_0_l|].
  symmetry. apply Z.bits_inj'. intros k Hk. rewrite Z.land_spec, Z.bits_0. destruct (decide (k < 32)).
  - rewrite Z.shiftl_spec_low by lia. apply andb_false_r.
  - by rewrite (testbit_high (mpidr i) 32) by (split || lia; done).
Qed.

Lemma affinity_fits i : 0 <= i < 2 ^ 20 -> fits 24 (affinity i).
Proof. intros Hi. unfold affinity, fits. Z.div_mod_to_equations. lia. Qed.

Lemma typer_owned frames i cpu : 0 <= cpu < 2 ^ 20 -> frames !! i = Some (Some (own_frame cpu)) ->
  Z.shiftr (typer frames i) 32 = affinity cpu /\ Z.testbit (typer frames i) 4 = bool_decide (rposition frames = Some i).
Proof.
  intros Hc Hi. unfold typer. rewrite Hi. cbn [own_frame f_cpu f_mpidr]. rewrite gicr_affinity_mpidr by done. destruct (affinity_fits cpu Hc) as [Ha0 Ha].
  rewrite !wrap_small by (unfold fits; rewrite Z.shiftl_mul_pow2 by done; lia). set (l := if bool_decide (rposition frames = Some i) then TYPER_LAST else 0).
  assert (Hl : Z.shiftr l 32 = 0 /\ Z.testbit l 4 = bool_decide (rposition frames = Some i)) by (subst l; by case_bool_decide). destruct Hl as [Hl0 Hl4]. split.
  - rewrite !Z.shiftr_lor, Hl0, Z.shiftr_shiftl_l by lia. change (32 - 32) with 0. rewrite Z.shiftl_0_r, (Z.shiftr_div_pow2 (Z.shiftl cpu 8)), Z.div_small by (rewrite ?Z.shiftl_mul_pow2; lia).
    by rewrite !Z.lor_0_r.
  - by rewrite !Z.lor_spec, !Z.shiftl_spec_low, Hl4 by lia.
Qed.

Lemma typer_hole frames i : frames !! i = Some None -> typer frames i = 0.
Proof. unfold typer. by intros ->. Qed.

(** A 64-bit read of [GICR_TYPER], or its two halves, at any frame. *)
Lemma redist_read_typer frames i : (i < FRAMES)%nat -> redist_read frames (Z.of_nat i * REDIST_STRIDE + TYPER_OFFSET) 8 = typer frames i.
Proof.
  intros Hi. unfold redist_read. rewrite Z.div_add_l, (Z.add_comm (_ * _)), Z.mod_add by done. change (TYPER_OFFSET / REDIST_STRIDE) with 0. rewrite Z.add_0_r, Nat2Z.id. done.
Qed.

Lemma rposition_None frames j f : rposition frames = None -> frames !! j <> Some (Some f).
Proof.
  revert j. induction frames as [|s frames IH]; intros j; [done|]. cbn [rposition]. destruct (rposition frames); [done|]. destruct s; [done|]. intros _. destruct j; [done|]. by apply IH.
Qed.

Lemma rposition_Some frames i : rposition frames = Some i <-> (exists f, frames !! i = Some (Some f)) /\ forall j f, frames !! j = Some (Some f) -> (j <= i)%nat.
Proof.
  revert i. induction frames as [|s frames IH]; intros i; cbn [rposition]; [split; [done|by intros [[f Hf] _]]|].
  destruct (rposition frames) as [k|] eqn:E.
  - destruct (proj1 (IH k) eq_refl) as [[f Hf] Hk]. split.
    + intros [= <-]. split; [by exists f|]. intros [|j] g Hg; [lia|]. apply Hk in Hg. lia.
    + intros [[g Hg] Hi]. specialize (Hi (S k) f Hf). destruct i as [|i]; [lia|]. apply Hk in Hg. f_equal. lia.
  - pose proof (rposition_None frames) as Hn. split.
    + destruct s as [f|]; [|done]. intros [= <-]. split; [by exists f|]. intros [|j] g Hg; [lia|]. by apply Hn in Hg.
    + intros [[g Hg] _]. destruct i as [|i]; [|by apply Hn in Hg]. injection Hg as ->. done.
Qed.

(** ** The walk *)

Section walk.
Context (n : Z) frames (n_small : n <= 2 ^ 20) (inv : redist_inv n frames).

(** What the frames below answer: a frame of another CPU sends the walk on, and so
    does a hole, unless affinity 0 is looked for. *)
Lemma walk_frames_passes fuel cpu i k :
  0 <= cpu < n -> frames !! i = Some (Some (own_frame cpu)) -> (k <= i)%nat -> (i - k < fuel)%nat ->
  (forall j, (k <= j < i)%nat -> frames !! j = Some None -> cpu <> 0) ->
  walk_frames fuel (affinity cpu) k frames = Some i.
Proof.
  intros Hc Hi. revert k. induction fuel as [|fuel IH]; intros k Hk Hf Hh; [lia|].
  assert (Hl : (i < FRAMES)%nat) by (rewrite <- (ri_len _ _ inv); by eapply lookup_lt_Some).
  cbn [walk_frames dev_read RedistId]. rewrite redist_read_typer by lia. destruct (decide (k = i)) as [->|Hne].
  { destruct (typer_owned frames i cpu ltac:(lia) Hi) as [-> _]. by rewrite Z.eqb_refl. }
  destruct (frames !! k) as [[f|]|] eqn:Ek.
  - destruct (ri_own _ _ inv k f Ek) as [Hfc Hfo]. rewrite Hfo in Ek. destruct (typer_owned frames k (f_cpu f) ltac:(lia) Ek) as [-> ->].
    destruct (Z.eqb_spec (affinity (f_cpu f)) (affinity cpu)) as [E|_].
    + apply affinity_inj in E; [|lia..]. contradict Hne. eapply (ri_one _ _ inv); [exact Ek|exact Hi|done].
    + rewrite bool_decide_eq_false_2; [apply IH; [lia|lia|intros j Hj; apply Hh; lia]|]. rewrite rposition_Some. intros [_ Hlast]. apply Hlast in Hi. lia.
  - rewrite (typer_hole frames k Ek). change (Z.shiftr 0 32) with 0. change (Z.testbit 0 4) with false.
    destruct (Z.eqb_spec 0 (affinity cpu)) as [E|_]; [|apply IH; [lia|lia|intros j Hj; apply Hh; lia]].
    exfalso. apply (Hh k); [lia|done|]. change 0 with (affinity 0) in E. symmetry. apply affinity_inj in E; lia.
  - apply lookup_ge_None in Ek. rewrite (ri_len _ _ inv) in Ek. lia.
Qed.

(** A hole answers affinity 0: the walk of CPU 0 stops at the first hole or at its own frame. *)
Lemma hole_answers_cpu0 fuel i : frames !! i = Some None -> (forall j, (j < i)%nat -> exists f, frames !! j = Some (Some f) /\ f_cpu f <> 0) ->
  (exists j f, (i < j)%nat /\ frames !! j = Some (Some f)) -> (i < fuel)%nat ->
  walk_frames fuel (affinity 0) 0 frames = Some i.
Proof.
  intros Hi Hb (last & g & Hlast & Hg). assert (Hl : (i < FRAMES)%nat) by (rewrite <- (ri_len _ _ inv); by eapply lookup_lt_Some).
  assert (forall k fuel, (k <= i)%nat -> (i - k < fuel)%nat -> walk_frames fuel (affinity 0) k frames = Some i) as H; [|intros; apply H; lia].
  clear fuel. intros k fuel. revert k. induction fuel as [|fuel IH]; intros k Hk Hf; [lia|]. cbn [walk_frames dev_read RedistId]. rewrite redist_read_typer by lia.
  destruct (decide (k = i)) as [->|Hne]; [by rewrite (typer_hole frames i Hi)|]. destruct (Hb k ltac:(lia)) as (f & Ek & H0).
  destruct (ri_own _ _ inv k f Ek) as [Hfc Hfo]. rewrite Hfo in Ek. destruct (typer_owned frames k (f_cpu f) ltac:(lia) Ek) as [-> ->].
  destruct (Z.eqb_spec (affinity (f_cpu f)) (affinity 0)) as [E|_]; [apply affinity_inj in E; lia|].
  rewrite bool_decide_eq_false_2; [apply IH; lia|]. rewrite rposition_Some. intros [_ Hx]. apply Hx in Hg. lia.
Qed.
End walk.

(** ** The table *)

Lemma redist_new_lookup cpus i : 0 <= cpus -> (i < FRAMES)%nat ->
  redist_new cpus !! i = Some (if decide (Z.of_nat i < cpus) then Some (own_frame (Z.of_nat i)) else None).
Proof.
  intros Hc Hi. unfold redist_new. set (step := fun frames cpu => _).
  assert (H : forall k, (k <= FRAMES)%nat -> length (foldl step (replicate FRAMES None) (seqZ 0 (Z.of_nat k))) = FRAMES /\
    foldl step (replicate FRAMES None) (seqZ 0 (Z.of_nat k)) !! i = Some (if decide (i < k)%nat then Some (own_frame (Z.of_nat i)) else None)).
  { induction k as [|k IH]; intros Hk; [change (seqZ 0 (Z.of_nat 0)) with (@nil Z); cbn [foldl]; split; [apply length_replicate|by rewrite lookup_replicate_2]|]. destruct (IH ltac:(lia)) as [Hl Hk']. rewrite seqZ_S, foldl_app. cbn [foldl].
    unfold step at 1 3. rewrite Z.add_0_l, Nat2Z.id. split; [by rewrite length_insert|]. destruct (decide (k = i)) as [->|Hne].
    - rewrite list_lookup_insert_eq by lia. by rewrite decide_True by lia.
    - rewrite list_lookup_insert_ne, Hk' by done. do 2 f_equal. destruct (decide (i < k)%nat), (decide (i < S k)%nat); done || lia. }
  destruct (H (Z.to_nat (Z.min cpus (Z.of_nat FRAMES))) ltac:(lia)) as [_ He]. rewrite Z2Nat.id in He by lia. rewrite He. do 2 f_equal.
  destruct (decide _), (decide (Z.of_nat i < cpus)); done || lia.
Qed.

Lemma redist_new_length cpus : length (redist_new cpus) = FRAMES.
Proof.
  unfold redist_new. generalize (seqZ 0 (Z.min cpus (Z.of_nat FRAMES))). intros l. assert (H : forall frames, length (foldl (fun frames cpu => <[Z.to_nat cpu := Some {| f_cpu := cpu; f_mpidr := mpidr cpu |}]> frames) frames l) = length frames).
  { induction l as [|x l IH]; intros frames; [done|]. cbn [foldl]. rewrite IH. apply length_insert. }
  rewrite H. apply length_replicate.
Qed.

Lemma redist_new_inv n : 0 <= n -> redist_inv n (redist_new n).
Proof.
  intros Hn. assert (Hl : forall i f, redist_new n !! i = Some (Some f) -> Z.of_nat i < n /\ f = own_frame (Z.of_nat i)).
  { intros i f Hi. pose proof (lookup_lt_Some _ _ _ Hi) as Hlt. rewrite redist_new_length in Hlt. rewrite redist_new_lookup in Hi by done. injection Hi as Hi. by destruct (decide _); [injection Hi as <-|]. }
  split; [apply redist_new_length| |].
  - intros i f Hi. apply Hl in Hi as [? ->]. cbn. split; [lia|done].
  - intros i j f g Hi Hj E. apply Hl in Hi as [_ ->]. apply Hl in Hj as [_ ->]. cbn in E. lia.
Qed.

(** The address of a frame. *)
Definition redist_base (i : nat) : Z := GIC_REDIST_BASE + Z.of_nat i * REDIST_STRIDE.

Lemma redist_base_index i : (i < FRAMES)%nat -> wrap 64 (redist_base i - GIC_REDIST_BASE) = Z.of_nat i * REDIST_STRIDE.
Proof.
  intros Hi. unfold redist_base. replace (GIC_REDIST_BASE + Z.of_nat i * REDIST_STRIDE - GIC_REDIST_BASE) with (Z.of_nat i * REDIST_STRIDE) by lia.
  apply wrap_small. change FRAMES with 123%nat in Hi. unfold fits, REDIST_STRIDE. lia.
Qed.

Lemma forget_Some cpu s f : forget cpu s = Some f <-> s = Some f /\ f_cpu f <> cpu.
Proof. destruct s as [g|]; cbn; [|naive_solver]. destruct (Z.eqb_spec (f_cpu g) cpu); naive_solver. Qed.

(** What the framework says of a CPU: its frame is its own alone, and the frame's
    former owner has none until its turn. *)
Lemma record_lookup n frames cpu i j f : redist_inv n frames -> 0 <= cpu < n -> (i < FRAMES)%nat ->
  record cpu (mpidr cpu) (redist_base i) frames !! j = Some (Some f) <->
  (j = i /\ f = own_frame cpu) \/ (j <> i /\ frames !! j = Some (Some f) /\ f_cpu f <> cpu).
Proof.
  intros [Hl Ho H1] Hc Hi. unfold record. rewrite redist_base_index, Z.mod_mul, Z.div_mul by done. rewrite Nat2Z.id. fold (own_frame cpu).
  destruct (Z.ltb_spec (redist_base i) GIC_REDIST_BASE); [unfold redist_base, REDIST_STRIDE in *; lia|]. rewrite bool_decide_eq_false_2 by lia. cbn [orb negb Z.eqb].
  case_bool_decide as E.
  - destruct (decide (j = i)) as [->|Hne]; [rewrite E; naive_solver|]. split; [|naive_solver]. intros Hj. right. split_and!; [done|done|]. intros Hf. apply Hne. by eapply H1.
  - destruct (decide (j = i)) as [->|Hne].
    + rewrite list_lookup_insert_eq by (rewrite length_fmap; lia). naive_solver.
    + rewrite list_lookup_insert_ne, list_lookup_fmap by done. destruct (frames !! j) as [s|]; cbn; [|naive_solver].
      split; [intros [= Hs]; apply forget_Some in Hs as [-> ?]; naive_solver|]. intros [[? _]|(_ & [= ->] & Hf)]; [done|]. f_equal. by apply forget_Some.
Qed.

Lemma record_length cpu m base frames : length (record cpu m base frames) = length frames.
Proof. unfold record. case_match; [done|]. case_match; [done|]. by rewrite length_insert, length_fmap. Qed.

Lemma record_inv n frames cpu i : redist_inv n frames -> 0 <= cpu < n -> (i < FRAMES)%nat -> redist_inv n (record cpu (mpidr cpu) (redist_base i) frames).
Proof.
  intros Hinv Hc Hi. pose proof (fun j f => record_lookup n frames cpu i j f Hinv Hc Hi) as Hr. destruct Hinv as [Hl Ho H1]. split; [by rewrite record_length| |].
  - intros j f [[-> ->]|(? & Hj & ?)]%Hr; [done|by eapply Ho].
  - intros j k f g [[-> ->]|(? & Hj & ?)]%Hr [[-> ->]|(? & Hk & ?)]%Hr Hfg; cbn in *; [done|congruence|congruence|by eapply H1].
Qed.

(** An address that is no frame's is ignored. *)
Lemma record_refuses cpu m base frames : fits 64 base -> (forall i, (i < FRAMES)%nat -> base <> redist_base i) -> record cpu m base frames = frames.
Proof.
  intros [Hb0 Hb] Hn. unfold record. destruct (Z.ltb_spec base GIC_REDIST_BASE); [done|]. cbn [orb]. rewrite wrap_small by (unfold fits, GIC_REDIST_BASE in *; lia).
  destruct (Z.eqb_spec ((base - GIC_REDIST_BASE) mod REDIST_STRIDE) 0) as [E|]; [|done]. cbn [negb orb]. case_bool_decide as Hi; [done|]. exfalso.
  apply (Hn (Z.to_nat ((base - GIC_REDIST_BASE) / REDIST_STRIDE))); [lia|]. unfold redist_base. pose proof (Z.div_mod (base - GIC_REDIST_BASE) REDIST_STRIDE ltac:(done)) as Hd.
  rewrite Z2Nat.id by (apply Z.div_pos; [lia|done]). lia.
Qed.

(** ** Bring-up *)

Section bringup.
Context (n : Z) (bound : Z -> nat).
Hypothesis n_small : 0 <= n <= 2 ^ 20.
Hypothesis bound_range : forall c, 0 <= c < n -> (bound c < FRAMES)%nat.
Hypothesis bound_inj : forall c d, 0 <= c < n -> 0 <= d < n -> bound c = bound d -> c = d.

(** Each vCPU thread records the frame the framework bound to it. *)
Definition bring_up (cpus : list Z) : RedistMap := foldl (fun frames c => record c (mpidr c) (redist_base (bound c)) frames) (redist_new n) cpus.

Lemma bring_up_spec cpus : Forall (fun c => 0 <= c < n) cpus -> redist_inv n (bring_up cpus) /\
  (forall c, c ∈ cpus -> bring_up cpus !! bound c = Some (Some (own_frame c))).
Proof.
  induction cpus as [|d cpus IH] using rev_ind; intros Hf; [split; [apply redist_new_inv; lia|by intros c ?%not_elem_of_nil]|].
  apply list.Forall_app in Hf as [Hf Hd]. apply list.Forall_cons in Hd as [Hd _]. destruct (IH Hf) as [Hinv Hown]. unfold bring_up in *. rewrite foldl_app. cbn [foldl].
  cbv beta in Hd. split; [exact (record_inv n _ d (bound d) Hinv Hd (bound_range d Hd))|]. intros c Hc. apply (record_lookup n _ d (bound d) _ _ Hinv Hd (bound_range d Hd)). destruct (decide (c = d)) as [->|Hne]; [by left|].
  apply elem_of_app in Hc as [Hc|Hc%list_elem_of_singleton]; [|done]. right. rewrite list.Forall_forall in Hf. split_and!; [|by apply Hown|done].
  intros Hb. apply Hne, bound_inj; auto.
Qed.

(** Once every vCPU has recorded its frame, in any order of the threads, a CPU's walk
    over the frames ends at the frame the framework bound to it; for CPU 0, whose
    affinity is also what a hole answers, when no hole lies below. *)
Theorem redist_walk_finds_frame cpus c :
  cpus ≡ₚ seqZ 0 n -> 0 <= c < n -> (c = 0 -> forall j, (j < bound 0)%nat -> exists d, 0 <= d < n /\ bound d = j) ->
  walk_frames FRAMES (affinity c) 0 (bring_up cpus) = Some (bound c).
Proof.
  intros Hp Hc Hz. assert (Hm : forall d, 0 <= d < n <-> d ∈ cpus) by (intros d; rewrite Hp, elem_of_seqZ; lia).
  destruct (bring_up_spec cpus) as [Hinv Hown]; [apply list.Forall_forall; intros d; apply Hm|]. pose proof (bound_range c Hc).
  apply (walk_frames_passes n); [lia|done|done|by apply Hown, Hm|lia|lia|]. intros j Hj Hh ->. destruct (Hz eq_refl j ltac:(lia)) as (d & Hd & <-). apply Hm in Hd. rewrite Hown in Hh by done. done.
Qed.
End bringup.

(** One CPU whose frame is the second: its first frame is emptied, and the walk of
    CPU 0 takes the hole for its own. *)
Example cpu0_misses_its_frame : walk_frames FRAMES (affinity 0) 0 (bring_up 1 (fun _ => 1%nat) [0]) = Some 0%nat.
Proof. vm_compute. reflexivity. Qed.
