(* ===== verification/Metrics.v ===== *)
(** * Counters and latency histograms

    Model of the crate [ternvale-metrics]: relaxed atomic counters, the log-scale
    histogram with its percentiles, the tables of one VM and the snapshot for
    [query-stats].  A [fetch_add] or [fetch_max] is one atomic step, so a histogram
    record is four steps and threads interleave between them; registration of a
    name is a loop of atomic steps over write-once cells.  A duration is its number
    of nanoseconds. *)

From stdpp Require Import list strings.
From Stdlib Require Import Sorting.Sorted.
From S2P Require Import Prelude NetPolicy.

(** [AtomicU64::fetch_add] wraps. *)
Definition fetch_add (v n : Z) : Z := wrap 64 (v + n).

(** ** The histogram *)

Definition BUCKETS : nat := 64.

Record Histogram := { hi_counts : list Z; hi_sum_ns : Z; hi_samples : Z; hi_max_ns : Z }.
Definition hist_new : Histogram := {| hi_counts := replicate BUCKETS 0; hi_sum_ns := 0; hi_samples := 0; hi_max_ns := 0 |}.

Definition leading_zeros (v : Z) : Z := if v =? 0 then 64 else 63 - Z.log2 v.
Definition bucket (ns : Z) : Z := if ns <=? 1 then 0 else Z.min (63 - leading_zeros ns) (Z.of_nat BUCKETS - 1).
Definition bucket_high (index : Z) : Z :=
  if index =? 0 then 1 else if 63 <=? index then 2 ^ 64 - 1 else wrap 64 (Z.shiftl 1 (index + 1)) - 1.

(** The atomic steps of [record]. *)
Inductive hist_step := HCount (i : nat) | HSum (ns : Z) | HSample | HMax (ns : Z).
Definition record_steps (ns : Z) : list hist_step := [HCount (Z.to_nat (bucket ns)); HSum ns; HSample; HMax ns].
Definition hist_apply (h : Histogram) (s : hist_step) : Histogram :=
  match s with
  | HCount i => {| hi_counts := alter (fun c => fetch_add c 1) i (hi_counts h); hi_sum_ns := hi_sum_ns h; hi_samples := hi_samples h; hi_max_ns := hi_max_ns h |}
  | HSum ns => {| hi_counts := hi_counts h; hi_sum_ns := fetch_add (hi_sum_ns h) ns; hi_samples := hi_samples h; hi_max_ns := hi_max_ns h |}
  | HSample => {| hi_counts := hi_counts h; hi_sum_ns := hi_sum_ns h; hi_samples := fetch_add (hi_samples h) 1; hi_max_ns := hi_max_ns h |}
  | HMax ns => {| hi_counts := hi_counts h; hi_sum_ns := hi_sum_ns h; hi_samples := hi_samples h; hi_max_ns := Z.max (hi_max_ns h) ns |}
  end.
Definition hist_record (ns : Z) (h : Histogram) : Histogram := foldl hist_apply h (record_steps ns).

Fixpoint percentile_loop (counts : list Z) (i seen want : Z) : Z :=
  match counts with
  | [] => bucket_high (Z.of_nat BUCKETS - 1)
  | count :: counts => let seen := saturating_add 64 seen count in if want <=? seen then bucket_high i else percentile_loop counts (i + 1) seen want
  end.
Definition want_rank (samples pct : Z) : Z := Z.max ((Z.min (samples * pct) (2 ^ 64 - 1) + 99) / 100) 1.
Definition percentile (counts : list Z) (samples pct : Z) : Z := if samples =? 0 then 0 else percentile_loop counts 0 0 (want_rank samples pct).

Record HistSnapshot := { hs_samples : Z; hs_sum_ns : Z; hs_max_ns : Z; hs_p50_ns : Z; hs_p99_ns : Z }.

(** [snapshot]: the loads are separate, so each may see a later histogram. *)
Definition snapshot_loads (counts_from : nat -> Histogram) (samples_from sum_from max_from : Histogram) : HistSnapshot :=
  let counts := (fun i => default 0 (hi_counts (counts_from i) !! i)) <$> seq 0 BUCKETS in
  let samples := hi_samples samples_from in
  {| hs_samples := samples; hs_sum_ns := hi_sum_ns sum_from; hs_max_ns := hi_max_ns max_from;
     hs_p50_ns := percentile counts samples 50; hs_p99_ns := percentile counts samples 99 |}.
Definition hist_snapshot (h : Histogram) : HistSnapshot := snapshot_loads (fun _ => h) h h h.

(** ** Tables of one VM *)

Inductive ExitKind := KMmio | KWfi | KWfe | KHvc | KSmc | KSysReg | KVtimer | KUnknown | KCanceled | KOther.
Definition EXIT_KINDS : nat := 10.
Definition ALL_KINDS : list ExitKind := [KMmio; KWfi; KWfe; KHvc; KSmc; KSysReg; KVtimer; KUnknown; KCanceled; KOther].
Definition kind_index (k : ExitKind) : nat :=
  match k with KMmio => 0 | KWfi => 1 | KWfe => 2 | KHvc => 3 | KSmc => 4 | KSysReg => 5 | KVtimer => 6 | KUnknown => 7 | KCanceled => 8 | KOther => 9 end.
Definition kind_str (k : ExitKind) : string :=
  match k with KMmio => "mmio" | KWfi => "wfi" | KWfe => "wfe" | KHvc => "hvc" | KSmc => "smc" | KSysReg => "sysreg" | KVtimer => "vtimer" | KUnknown => "unknown" | KCanceled => "canceled" | KOther => "other" end.

Definition POLICY_RULES : list string := ["spoof_mac"; "spoof_ip"; "allow_lan"; "deny"; "allow"; "pps"; "bandwidth"].
Definition MAX_VCPUS : nat := 16.
Definition MAX_DEVICES : nat := 64.
Definition MAX_BLK_DISKS : nat := 16.

Record VcpuCell := { vc_exits : list Z; vc_guest_ns : Z; vc_handle_ns : Z }.
Record DeviceCell := { dc_name : option string; dc_accesses : Z; dc_latency : Histogram }.
Record IoCell := { io_count : Z; io_bytes : Z; io_latency : Histogram }.
Record BlkDiskCell := { bd_name : option string; bd_io : IoCell }.
Record Metrics := { me_vcpus : list VcpuCell; me_devices : list DeviceCell; me_blk : IoCell; me_disks : list BlkDiskCell; me_net : IoCell; me_interrupts : Z; me_policy : list Z }.

Definition io_new : IoCell := {| io_count := 0; io_bytes := 0; io_latency := hist_new |}.
Definition metrics_new : Metrics := {|
  me_vcpus := replicate MAX_VCPUS {| vc_exits := replicate EXIT_KINDS 0; vc_guest_ns := 0; vc_handle_ns := 0 |};
  me_devices := replicate MAX_DEVICES {| dc_name := None; dc_accesses := 0; dc_latency := hist_new |};
  me_blk := io_new; me_disks := replicate MAX_BLK_DISKS {| bd_name := None; bd_io := io_new |}; me_net := io_new;
  me_interrupts := 0; me_policy := replicate (length POLICY_RULES) 0 |}.

Definition nanos (elapsed : Z) : Z := if elapsed <? 2 ^ 64 then elapsed else 2 ^ 64 - 1.

Definition set_vcpus f (m : Metrics) : Metrics := {| me_vcpus := f (me_vcpus m); me_devices := me_devices m; me_blk := me_blk m; me_disks := me_disks m; me_net := me_net m; me_interrupts := me_interrupts m; me_policy := me_policy m |}.
Definition set_devices f (m : Metrics) : Metrics := {| me_vcpus := me_vcpus m; me_devices := f (me_devices m); me_blk := me_blk m; me_disks := me_disks m; me_net := me_net m; me_interrupts := me_interrupts m; me_policy := me_policy m |}.
Definition set_blk f (m : Metrics) : Metrics := {| me_vcpus := me_vcpus m; me_devices := me_devices m; me_blk := f (me_blk m); me_disks := me_disks m; me_net := me_net m; me_interrupts := me_interrupts m; me_policy := me_policy m |}.
Definition set_disks f (m : Metrics) : Metrics := {| me_vcpus := me_vcpus m; me_devices := me_devices m; me_blk := me_blk m; me_disks := f (me_disks m); me_net := me_net m; me_interrupts := me_interrupts m; me_policy := me_policy m |}.
Definition set_net f (m : Metrics) : Metrics := {| me_vcpus := me_vcpus m; me_devices := me_devices m; me_blk := me_blk m; me_disks := me_disks m; me_net := f (me_net m); me_interrupts := me_interrupts m; me_policy := me_policy m |}.
Definition set_interrupts f (m : Metrics) : Metrics := {| me_vcpus := me_vcpus m; me_devices := me_devices m; me_blk := me_blk m; me_disks := me_disks m; me_net := me_net m; me_interrupts := f (me_interrupts m); me_policy := me_policy m |}.
Definition set_policy f (m : Metrics) : Metrics := {| me_vcpus := me_vcpus m; me_devices := me_devices m; me_blk := me_blk m; me_disks := me_disks m; me_net := me_net m; me_interrupts := me_interrupts m; me_policy := f (me_policy m) |}.

(** An index out of the table changes nothing ([alter]). *)
Definition record_exit (cpu : nat) (kind : ExitKind) : Metrics -> Metrics :=
  set_vcpus (alter (fun c => {| vc_exits := alter (fun n => fetch_add n 1) (kind_index kind) (vc_exits c); vc_guest_ns := vc_guest_ns c; vc_handle_ns := vc_handle_ns c |}) cpu).
Definition record_guest (cpu : nat) (elapsed : Z) : Metrics -> Metrics :=
  set_vcpus (alter (fun c => {| vc_exits := vc_exits c; vc_guest_ns := fetch_add (vc_guest_ns c) (nanos elapsed); vc_handle_ns := vc_handle_ns c |}) cpu).
Definition record_handle (cpu : nat) (elapsed : Z) : Metrics -> Metrics :=
  set_vcpus (alter (fun c => {| vc_exits := vc_exits c; vc_guest_ns := vc_guest_ns c; vc_handle_ns := fetch_add (vc_handle_ns c) (nanos elapsed) |}) cpu).
Definition record_mmio (id : nat) (elapsed : Z) : Metrics -> Metrics :=
  set_devices (alter (fun c => {| dc_name := dc_name c; dc_accesses := fetch_add (dc_accesses c) 1; dc_latency := hist_record (nanos elapsed) (dc_latency c) |}) id).
Definition record_io (requests bytes : Z) (complete : option Z) (c : IoCell) : IoCell :=
  {| io_count := fetch_add (io_count c) requests; io_bytes := fetch_add (io_bytes c) bytes;
     io_latency := match complete with Some elapsed => hist_record (nanos elapsed) (io_latency c) | None => io_latency c end |}.
Definition record_blk (requests bytes : Z) (complete : option Z) : Metrics -> Metrics := set_blk (record_io requests bytes complete).
Definition record_blk_disk (id : nat) (requests bytes : Z) (complete : option Z) (m : Metrics) : Metrics :=
  set_disks (alter (fun c => {| bd_name := bd_name c; bd_io := record_io requests bytes complete (bd_io c) |}) id) (set_blk (record_io requests bytes complete) m).
Definition record_net (packets bytes : Z) (complete : option Z) : Metrics -> Metrics := set_net (record_io packets bytes complete).
Definition record_interrupt : Metrics -> Metrics := set_interrupts (fun n => fetch_add n 1).

(** [iter().position]. *)
Fixpoint position (rule : string) (l : list string) : option nat :=
  match l with [] => None | name :: l => if bool_decide (name = rule) then Some O else S <$> position rule l end.
Definition record_policy_drop (rule : string) (m : Metrics) : Metrics :=
  match position rule POLICY_RULES with Some index => set_policy (alter (fun n => fetch_add n 1) index) m | None => m end.

(** ** Snapshot *)

Record VcpuSnapshot := { vs_cpu : nat; vs_guest_ns : Z; vs_handle_ns : Z; vs_exits : list (string * Z) }.
Record DeviceSnapshot := { ds_name : string; ds_accesses : Z; ds_latency : HistSnapshot }.
Record IoSnapshot := { is_count : Z; is_bytes : Z; is_latency : HistSnapshot }.
Record Snapshot := { ss_vcpus : list VcpuSnapshot; ss_devices : list DeviceSnapshot; ss_blk : IoSnapshot; ss_disks : list (string * IoSnapshot); ss_net : IoSnapshot; ss_interrupts : Z; ss_net_policy : list (string * Z) }.

Definition vcpu_snapshot (cpu : nat) (c : VcpuCell) : option VcpuSnapshot :=
  let exits := (fun k => (kind_str k, default 0 (vc_exits c !! kind_index k))) <$> ALL_KINDS in
  let total := wrap 64 (foldr Z.add 0 (snd <$> exits)) in
  if (vc_guest_ns c =? 0) && (vc_handle_ns c =? 0) && (total =? 0) then None
  else Some {| vs_cpu := cpu; vs_guest_ns := vc_guest_ns c; vs_handle_ns := vc_handle_ns c; vs_exits := exits |}.
Definition vcpu_snapshots (m : Metrics) : list VcpuSnapshot := omap id (imap vcpu_snapshot (me_vcpus m)).
Definition device_snapshots (m : Metrics) : list DeviceSnapshot :=
  omap (fun c => name ← dc_name c; Some {| ds_name := name; ds_accesses := dc_accesses c; ds_latency := hist_snapshot (dc_latency c) |}) (me_devices m).
Definition policy_snapshots (m : Metrics) : list (string * Z) :=
  omap (fun p => if p.2 =? 0 then None else Some (p.1, p.2)) (zip POLICY_RULES (me_policy m)).
Definition io_snapshot (c : IoCell) : IoSnapshot := {| is_count := io_count c; is_bytes := io_bytes c; is_latency := hist_snapshot (io_latency c) |}.
Definition disk_snapshots (m : Metrics) : list (string * IoSnapshot) := omap (fun c => name ← bd_name c; Some (name, io_snapshot (bd_io c))) (me_disks m).
Definition metrics_snapshot (m : Metrics) : Snapshot :=
  {| ss_vcpus := vcpu_snapshots m; ss_devices := device_snapshots m; ss_blk := io_snapshot (me_blk m); ss_disks := disk_snapshots m;
     ss_net := io_snapshot (me_net m); ss_interrupts := me_interrupts m; ss_net_policy := policy_snapshots m |}.

(** ** Registration *)

(** A caller of [register_device] or [register_blk_disk]: the first loop looks for
    the name, the second takes the first free cell ([OnceLock::set]) or finds that
    another caller has just set the name there. *)
Inductive reg_pc := Look (i : nat) | Take (i : nat) | Returned (id : option nat).

Definition reg_step (name : string) (pc : reg_pc) (names : list (option string)) : reg_pc * list (option string) :=
  match pc with
  | Look i => match names !! i with
              | None => (Take 0, names)
              | Some have => if bool_decide (have = Some name) then (Returned (Some i), names) else (Look (S i), names)
              end
  | Take i => match names !! i with
              | None => (Returned None, names)
              | Some None => (Returned (Some i), <[i := Some name]> names)
              | Some (Some have) => if bool_decide (have = name) then (Returned (Some i), names) else (Take (S i), names)
              end
  | Returned id => (Returned id, names)
  end.

(** One caller, to its return. *)
Fixpoint reg_run (fuel : nat) (name : string) (pc : reg_pc) (names : list (option string)) : reg_pc * list (option string) :=
  match fuel with
  | O => (pc, names)
  | S fuel => let (pc, names) := reg_step name pc names in reg_run fuel name pc names
  end.
Definition register (name : string) (names : list (option string)) : reg_pc * list (option string) :=
  reg_run (2 * length names + 2) name (Look 0) names.

Definition register_device (name : string) (m : Metrics) : option nat * Metrics :=
  let (pc, names) := register name (dc_name <$> me_devices m) in
  (match pc with Returned id => id | _ => None end,
   set_devices (zip_with (fun n c => {| dc_name := n; dc_accesses := dc_accesses c; dc_latency := dc_latency c |}) names) m).
Definition register_blk_disk (name : string) (m : Metrics) : option nat * Metrics :=
  let (pc, names) := register name (bd_name <$> me_disks m) in
  (match pc with Returned id => id | _ => None end,
   set_disks (zip_with (fun n c => {| bd_name := n; bd_io := bd_io c |}) names) m).

(** Many callers: one of them takes a step. *)
Record reg_conf := { rc_names : list (option string); rc_callers : list (string * reg_pc) }.
Inductive reg_steps : reg_conf -> reg_conf -> Prop :=
| reg_one names callers k name pc pc' names' :
    callers !! k = Some (name, pc) -> reg_step name pc names = (pc', names') ->
    reg_steps {| rc_names := names; rc_callers := callers |} {| rc_names := names'; rc_callers := <[k := (name, pc')]> callers |}.

(** No name has two cells; a caller in its second loop has passed only cells taken by
    others; one that returned a cell finds its name there, one that returned none
    found every cell taken. *)
Definition caller_ok (names : list (option string)) (c : string * reg_pc) : Prop :=
  match c.2 with
  | Look _ => True
  | Take i => (i <= length names)%nat /\ forall j, (j < i)%nat -> exists have, names !! j = Some (Some have) /\ have <> c.1
  | Returned (Some i) => names !! i = Some (Some c.1)
  | Returned None => forall j, (j < length names)%nat -> exists have, names !! j = Some (Some have) /\ have <> c.1
  end.
Record reg_inv (c : reg_conf) : Prop := {
  rg_unique i j name : rc_names c !! i = Some (Some name) -> rc_names c !! j = Some (Some name) -> i = j;
  rg_prefix i j : (i < j)%nat -> is_Some (rc_names c !! j ≫= id) -> is_Some (rc_names c !! i ≫= id);
  rg_callers : Forall (caller_ok (rc_names c)) (rc_callers c);
}.

Definition grows (names names' : list (option string)) : Prop :=
  length names' = length names /\ forall i have, names !! i = Some (Some have) -> names' !! i = Some (Some have).

Lemma caller_ok_grows names names' c : grows names names' -> caller_ok names c -> caller_ok names' c.
Proof.
  intros [Hl Hg]. destruct c as [name [i|i|[i|]]]; cbn; [done| |by apply Hg|].
  - intros [Hi Hj]. rewrite Hl. split; [done|]. intros j Hlt. destruct (Hj j Hlt) as (have & ? & ?). exists have. auto.
  - rewrite Hl. intros Hj j Hlt. destruct (Hj j Hlt) as (have & ? & ?). exists have. auto.
Qed.

Lemma reg_step_grows name pc names : grows names (reg_step name pc names).2.
Proof.
  assert (Hr : grows names names) by (split; [done|auto]). unfold reg_step. repeat case_match; try exact Hr. split; [apply length_insert|]. cbn. intros j have Hj.
  rewrite list_lookup_insert_ne; [done|]. intros ->. congruence.
Qed.

(** A step keeps what a caller may assume, its own state included. *)
Lemma reg_step_ok name pc names : caller_ok names (name, pc) -> caller_ok (reg_step name pc names).2 (name, (reg_step name pc names).1).
Proof.
  intros Hok. destruct pc as [i|i|id]; cbn in *.
  - destruct (names !! i) as [have|] eqn:E; [|cbn; split; [lia|intros; lia]]. case_bool_decide; cbn; [congruence|done].
  - destruct Hok as [Hi Hj]. destruct (names !! i) as [[have|]|] eqn:E; cbn.
    + case_bool_decide; cbn; [congruence|]. split; [apply lookup_lt_Some in E; lia|]. intros j Hlt. destruct (decide (j = i)) as [->|]; [by exists have|apply Hj; lia].
    + apply list_lookup_insert_eq. by eapply lookup_lt_Some.
    + apply lookup_ge_None in E. intros j Hlt. apply Hj. lia.
  - done.
Qed.

Lemma reg_step_names name pc names : caller_ok names (name, pc) ->
  (reg_step name pc names).2 = names \/
  exists i, (reg_step name pc names).2 = <[i := Some name]> names /\ names !! i = Some None /\ forall j, (j < i)%nat -> exists have, names !! j = Some (Some have) /\ have <> name.
Proof.
  intros Hok. destruct pc as [i|i|id]; cbn in *; [repeat case_match; by left| |by left]. destruct Hok as [_ Hj]. destruct (names !! i) as [[have|]|] eqn:E; [case_bool_decide; by left| |by left].
  right. by exists i.
Qed.

(** Registration is safe under any interleaving of its callers. *)
Lemma reg_steps_inv c c' : reg_inv c -> reg_steps c c' -> reg_inv c'.
Proof.
  intros [Hu Hp Hc] Hs. inversion Hs as [names callers k name pc pc' names' Hk Hst]; subst. cbn in *.
  pose proof (proj1 (Forall_lookup _ _) Hc k _ Hk) as Hok. pose proof (reg_step_grows name pc names) as Hg. pose proof (reg_step_ok name pc names Hok) as Hok'.
  pose proof (reg_step_names name pc names Hok) as Hn. rewrite Hst in Hg, Hok', Hn. cbn in *.
  assert (Hcs : Forall (caller_ok names') (<[k := (name, pc')]> callers)).
  { apply Forall_insert; [|done]. eapply list.Forall_impl; [exact Hc|]. intros x. by apply caller_ok_grows. }
  destruct Hn as [->|(i & -> & Hi & Hj)]; [by split|]. pose proof (lookup_lt_Some _ _ _ Hi) as Hlt.
  assert (Hfree : forall j, names !! j <> Some (Some name)).
  { intros j E. destruct (Nat.lt_trichotomy j i) as [H|[->|H]]; [|congruence|].
    - destruct (Hj j H) as (have & ? & ?). congruence.
    - destruct (Hp i j H) as [x Hx]; [rewrite E; by eexists|]. rewrite Hi in Hx. done. }
  split; cbn; [| |done].
  - intros a b nm Ha Hb. destruct (decide (a = i)) as [->|Ha']; destruct (decide (b = i)) as [->|Hb']; [done| | |].
    + rewrite list_lookup_insert_eq in Ha by done. injection Ha as <-. rewrite list_lookup_insert_ne in Hb by done. by apply Hfree in Hb.
    + rewrite list_lookup_insert_eq in Hb by done. injection Hb as <-. rewrite list_lookup_insert_ne in Ha by done. by apply Hfree in Ha.
    + rewrite list_lookup_insert_ne in Ha, Hb by done. by eapply Hu.
  - intros a b Hab Hb. destruct (decide (a = i)) as [->|Ha']; [rewrite list_lookup_insert_eq by done; by eexists|]. rewrite list_lookup_insert_ne by done.
    destruct (decide (b = i)) as [->|Hb']; [destruct (Hj a Hab) as (have & -> & _); by eexists|]. rewrite list_lookup_insert_ne in Hb by done. by eapply Hp.
Qed.

(** From an empty table, with any callers: two callers with the same name get the
    same cell, two with different names get different cells, and a caller is turned
    away only when every cell is taken. *)
Theorem registration_agrees (size : nat) (wanted : list string) c k1 k2 name1 name2 id1 id2 :
  rtc reg_steps {| rc_names := replicate size None; rc_callers := (fun name => (name, Look 0)) <$> wanted |} c ->
  rc_callers c !! k1 = Some (name1, Returned (Some id1)) -> rc_callers c !! k2 = Some (name2, Returned id2) ->
  match id2 with
  | Some id2 => id1 = id2 <-> name1 = name2
  | None => forall j, (j < length (rc_names c))%nat -> exists have, rc_names c !! j = Some (Some have) /\ have <> name2
  end.
Proof.
  intros Hr H1 H2. assert (Hinv : reg_inv c).
  { revert Hr. apply (rtc_ind_r (fun c => reg_inv c)); [|intros; by eapply reg_steps_inv]. assert (He : forall i nm, replicate size (@None string) !! i <> Some (Some nm)) by (intros i nm [? _]%lookup_replicate; done).
    split; cbn.
    - intros i j nm Hi. by apply He in Hi.
    - intros i j _ [x Hx]. destruct (replicate size None !! j) as [[y|]|] eqn:E; [by apply He in E|done..].
    - apply list.Forall_fmap, list.Forall_true. done. }
  destruct Hinv as [Hu _ Hc]. pose proof (proj1 (Forall_lookup _ _) Hc _ _ H1) as Hn1. pose proof (proj1 (Forall_lookup _ _) Hc _ _ H2) as Hn2. cbn in *.
  destruct id2 as [id2|]; [|done]. split; [intros ->; congruence|intros ->; by eapply Hu].
Qed.

(** A caller on its own returns: the cell of the name, or the first free one, or
    none when the table is full. *)
Lemma reg_run_take name names i fuel : (length names - i < fuel)%nat -> (i <= length names)%nat -> exists id, (reg_run fuel name (Take i) names).1 = Returned id.
Proof.
  assert (Hret : forall fuel id names, (reg_run fuel name (Returned id) names).1 = Returned id) by (induction fuel0; cbn; auto).
  revert i. induction fuel as [|fuel IH]; intros i Hf Hi; [lia|]. cbn [reg_run reg_step]. destruct (names !! i) as [[have|]|] eqn:E; [|by eexists; apply Hret..].
  case_bool_decide; [by eexists; apply Hret|]. pose proof (lookup_lt_Some _ _ _ E). apply IH; lia.
Qed.

Lemma register_returns name names : exists id, (register name names).1 = Returned id.
Proof.
  assert (Hret : forall fuel id names, (reg_run fuel name (Returned id) names).1 = Returned id) by (induction fuel; cbn; auto).
  assert (Hlook : forall fuel i, (2 * length names + 1 - i < fuel)%nat -> (i <= length names)%nat -> exists id, (reg_run fuel name (Look i) names).1 = Returned id); [|apply Hlook; lia].
  induction fuel as [|fuel IH]; intros i Hf Hi; [lia|]. cbn [reg_run reg_step]. destruct (names !! i) as [have|] eqn:E.
  - case_bool_decide; [by eexists; apply Hret|]. pose proof (lookup_lt_Some _ _ _ E). apply IH; lia.
  - apply lookup_ge_None in E. apply reg_run_take; lia.
Qed.

(** ** Recording from many threads *)

Lemma hist_apply_comm h a b : hist_apply (hist_apply h a) b = hist_apply (hist_apply h b) a.
Proof.
  destruct a, b; cbn; f_equal; try done; try (unfold fetch_add, wrap; rewrite !Zplus_mod_idemp_l; f_equal; lia); try lia.
  destruct (decide (i = i0)) as [->|Hne]; [done|]. by apply list_alter_alter_ne.
Qed.

Lemma hist_steps_perm h l l' : l ≡ₚ l' -> foldl hist_apply h l = foldl hist_apply h l'.
Proof.
  intros Hp. revert h. induction Hp as [|x l l' _ IH|x y l|l l' l'' _ IH1 _ IH2]; intros h; cbn; [done|apply IH|by rewrite hist_apply_comm|by rewrite IH1].
Qed.

(** The histogram of a list of samples, in the order given. *)
Definition hist_of (xs : list Z) : Histogram := foldl (fun h x => hist_record x h) hist_new xs.

(** However the atomic steps of the records interleave, the result is that of the
    records one after another. *)
Lemma hist_interleaving xs steps : steps ≡ₚ concat (record_steps <$> xs) -> foldl hist_apply hist_new steps = hist_of xs.
Proof.
  intros Hp. rewrite (hist_steps_perm _ _ _ Hp). unfold hist_of. generalize hist_new. clear. induction xs as [|x xs IH]; intros h; [done|]. cbn [fmap list_fmap concat]. rewrite foldl_app. apply IH.
Qed.

(** ** Percentiles *)

Definition in_bucket (i : Z) (xs : list Z) : Z := Z.of_nat (length (filter (fun x => bucket x = i) xs)).
Definition upto_bucket (i : Z) (xs : list Z) : Z := Z.of_nat (length (filter (fun x => bucket x <= i) xs)).

Lemma filter_none {A} (P : A -> Prop) `{!forall x, Decision (P x)} l : (forall x, x ∈ l -> ~ P x) -> filter P l = [].
Proof.
  induction l as [|x l IH]; intros Hl; [done|]. rewrite filter_cons_False by (apply Hl; left). apply IH. intros y Hy. apply Hl. by right.
Qed.

Lemma bucket_log2 x : fits 64 x -> bucket x = Z.log2 (Z.max x 1) /\ 0 <= bucket x < 64.
Proof.
  intros [H0 H1]. unfold bucket, leading_zeros. destruct (Z.leb_spec x 1); [by replace (Z.max x 1) with 1 by lia|]. destruct (Z.eqb_spec x 0); [lia|].
  replace (Z.max x 1) with x by lia. assert (0 <= Z.log2 x < 64) by (split; [apply Z.log2_nonneg|apply Z.log2_lt_pow2; lia]). change (Z.of_nat BUCKETS) with 64. lia.
Qed.

Lemma bucket_mono x y : fits 64 x -> fits 64 y -> x <= y -> bucket x <= bucket y.
Proof. intros Hx Hy Hle. destruct (bucket_log2 x Hx) as [-> _], (bucket_log2 y Hy) as [-> _]. apply Z.log2_le_mono. lia. Qed.

(** The edge of a sample's bucket is at least the sample and less than twice it. *)
Lemma bucket_high_edge x : fits 64 x -> x <= bucket_high (bucket x) /\ (bucket_high (bucket x) = 1 \/ bucket_high (bucket x) < 2 * x).
Proof.
  intros Hx. destruct (bucket_log2 x Hx) as [E Hb]. destruct Hx as [H0 H1]. unfold bucket_high. destruct (Z.eqb_spec (bucket x) 0) as [Ez|Ez].
  - rewrite E in Ez. apply Z.log2_null in Ez. lia.
  - assert (1 < x) by (destruct (Z.leb_spec x 1); [|done]; replace (Z.max x 1) with 1 in E by lia; done). replace (Z.max x 1) with x in E by lia.
    pose proof (Z.log2_spec x ltac:(lia)) as Hs. rewrite <- E in Hs. rewrite Z.pow_succ_r in Hs by lia. destruct (Z.leb_spec 63 (bucket x)) as [H63|H63].
    + assert (bucket x = 63) as E63 by lia. rewrite E63 in Hs. lia.
    + rewrite Z.shiftl_mul_pow2, Z.mul_1_l, wrap_small by (lia || (split; [lia|apply Z.pow_lt_mono_r; lia])). rewrite Z.pow_add_r by lia. lia.
Qed.

(** What the counters hold, while fewer than [2^64] samples were recorded. *)
Lemma hist_of_counts xs : Forall (fits 64) xs -> Z.of_nat (length xs) < 2 ^ 64 ->
  hi_samples (hist_of xs) = Z.of_nat (length xs) /\ length (hi_counts (hist_of xs)) = BUCKETS /\
  (forall i, (i < BUCKETS)%nat -> hi_counts (hist_of xs) !! i = Some (in_bucket (Z.of_nat i) xs)).
Proof.
  induction xs as [|x xs IH] using rev_ind; intros Hf Hl; [split_and!; [done|done|intros i Hi; exact (lookup_replicate_2 BUCKETS 0 i Hi)]|].
  rewrite length_app in Hl. cbn in Hl. apply list.Forall_app in Hf as [Hf Hx]. apply list.Forall_cons in Hx as [Hx _]. destruct (IH Hf ltac:(lia)) as (Hs & Hc & Hi).
  unfold hist_of in *. rewrite foldl_app. cbn [foldl]. set (h := foldl _ hist_new xs) in *. clearbody h. unfold hist_record, record_steps. cbn [foldl hist_apply hi_samples hi_counts]. unfold fetch_add at 1. rewrite Hs, length_app, Nat2Z.inj_add.
  split_and!; [apply wrap_small; cbn; split; lia|by rewrite length_alter|]. intros i Hlt. unfold in_bucket. rewrite list.filter_app, length_app, Nat2Z.inj_add. destruct (bucket_log2 x Hx) as [_ Hb].
  assert (Hle : 0 <= in_bucket (Z.of_nat i) xs <= Z.of_nat (length xs)) by (unfold in_bucket; pose proof (list.length_filter (fun x => bucket x = Z.of_nat i) xs); lia).
  destruct (decide (bucket x = Z.of_nat i)) as [E|E].
  - rewrite filter_cons_True, filter_nil, E, Nat2Z.id, list_lookup_alter_eq, Hi by done. cbn [fmap option_fmap option_map length]. f_equal. unfold fetch_add. apply wrap_small. unfold in_bucket in Hle. split; cbn; lia.
  - rewrite filter_cons_False, filter_nil, list_lookup_alter_ne, Hi by (done || lia). unfold in_bucket. cbn. f_equal. lia.
Qed.

Lemma upto_split xs i : upto_bucket i xs = upto_bucket (i - 1) xs + in_bucket i xs.
Proof.
  unfold upto_bucket, in_bucket. induction xs as [|x xs IH]; [done|]. rewrite !filter_cons. repeat case_decide; cbn [length]; lia.
Qed.

(** In sorted samples, the rank of an element against the buckets. *)
Lemma sorted_rank ys k x i : Forall (fits 64) ys -> StronglySorted Z.le ys -> ys !! k = Some x -> Z.of_nat k < upto_bucket i ys <-> bucket x <= i.
Proof.
  unfold upto_bucket. revert k. induction ys as [|y ys IH]; intros k Hf Hs Hk; [done|]. apply list.Forall_cons in Hf as [Hy Hf]. apply StronglySorted_inv in Hs as [Hs Hall].
  destruct k as [|k]; cbn in Hk.
  - injection Hk as ->. destruct (decide (bucket x <= i)) as [H|H]; [rewrite filter_cons_True by done; cbn [length]; lia|]. rewrite filter_cons_False by done.
    replace (filter (fun x => bucket x <= i) ys) with (@nil Z); [cbn; lia|]. symmetry. apply filter_none. intros z Hz Hzi. rewrite list.Forall_forall in Hf. rewrite List.Forall_forall in Hall.
    pose proof (bucket_mono x z Hy (Hf z Hz) (Hall z (proj1 (list_elem_of_In _ _) Hz))). lia.
  - specialize (IH k Hf Hs Hk). assert (Hx : x ∈ ys) by (by eapply list_elem_of_lookup_2). rewrite list.Forall_forall in Hf. rewrite List.Forall_forall in Hall.
    pose proof (bucket_mono y x Hy (Hf x Hx) (Hall x (proj1 (list_elem_of_In _ _) Hx))). destruct (decide (bucket y <= i)) as [H'|H'].
    + rewrite filter_cons_True by done. cbn [length]. lia.
    + rewrite filter_cons_False by done. lia.
Qed.

Lemma percentile_loop_finds ys counts i x k : Forall (fits 64) ys -> StronglySorted Z.le ys -> ys !! k = Some x -> Z.of_nat (length ys) < 2 ^ 64 ->
  (forall j c, counts !! j = Some c -> c = in_bucket (i + Z.of_nat j) ys) -> i <= bucket x < i + Z.of_nat (length counts) ->
  percentile_loop counts i (upto_bucket (i - 1) ys) (Z.of_nat k + 1) = bucket_high (bucket x).
Proof.
  intros Hf Hs Hk Hl. revert i. induction counts as [|c counts IH]; intros i Hc Hb; cbn [length] in Hb; [lia|]. cbn [percentile_loop]. cbv zeta.
  assert (Hle : forall j, 0 <= upto_bucket j ys <= Z.of_nat (length ys)) by (intros j; unfold upto_bucket; pose proof (list.length_filter (fun x => bucket x <= j) ys); lia).
  rewrite (Hc 0%nat c eq_refl), Nat2Z.inj_0, Z.add_0_r. unfold saturating_add. rewrite <- upto_split, Z.min_l by (specialize (Hle i); lia).
  pose proof (sorted_rank ys k x i Hf Hs Hk) as Hr. destruct (Z.leb_spec (Z.of_nat k + 1) (upto_bucket i ys)) as [H|H].
  - f_equal. lia.
  - replace (upto_bucket i ys) with (upto_bucket (i + 1 - 1) ys) by (f_equal; lia). apply IH; [|lia]. intros j c' Hj. rewrite (Hc (S j) c' Hj). f_equal. lia.
Qed.

Lemma in_bucket_perm i xs ys : xs ≡ₚ ys -> in_bucket i xs = in_bucket i ys.
Proof. intros Hp. unfold in_bucket. by rewrite Hp. Qed.

(** A percentile of a histogram that threads have filled, in any interleaving, is the
    edge of the bucket of the sample of that rank: at least the sample, and either 1
    or less than twice the sample. *)
Theorem percentile_brackets_sample xs steps ys pct x :
  Forall (fits 64) xs -> steps ≡ₚ concat (record_steps <$> xs) -> xs ≡ₚ ys -> StronglySorted Z.le ys -> 100 * Z.of_nat (length xs) < 2 ^ 64 -> 0 < pct <= 100 ->
  let h := foldl hist_apply hist_new steps in
  let p := percentile (hi_counts h) (hi_samples h) pct in
  ys !! Z.to_nat (want_rank (Z.of_nat (length xs)) pct - 1) = Some x ->
  p = bucket_high (bucket x) /\ x <= p /\ (p = 1 \/ p < 2 * x).
Proof.
  intros Hf Hst Hp Hs Hl Hpct h p Hx. subst p h. rewrite (hist_interleaving xs steps Hst). destruct (hist_of_counts xs Hf ltac:(lia)) as (Hn & Hc & Hi).
  assert (Hfy : Forall (fits 64) ys) by (by rewrite <- Hp). pose proof (Permutation_length Hp) as Hlen. assert (Hx64 : fits 64 x) by (rewrite list.Forall_forall in Hfy; by eapply Hfy, list_elem_of_lookup_2).
  assert (E : percentile (hi_counts (hist_of xs)) (hi_samples (hist_of xs)) pct = bucket_high (bucket x)); [|rewrite E; split; [done|by apply bucket_high_edge]].
  unfold percentile. rewrite Hn. pose proof (lookup_lt_Some _ _ _ Hx). destruct (Z.eqb_spec (Z.of_nat (length xs)) 0); [lia|].
  assert (Hw : 1 <= want_rank (Z.of_nat (length xs)) pct) by (unfold want_rank; lia).
  replace (want_rank (Z.of_nat (length xs)) pct) with (Z.of_nat (Z.to_nat (want_rank (Z.of_nat (length xs)) pct - 1)) + 1) by lia. destruct (bucket_log2 x Hx64) as [_ Hb].
  assert (H0 : upto_bucket (0 - 1) ys = 0).
  { unfold upto_bucket. replace (filter (fun x => bucket x <= 0 - 1) ys) with (@nil Z); [done|]. symmetry. apply filter_none. intros z Hz Hzi. rewrite list.Forall_forall in Hfy. destruct (bucket_log2 z (Hfy z Hz)). lia. }
  rewrite <- H0 at 2. apply percentile_loop_finds; [done|done|done|lia| |rewrite Hc; unfold BUCKETS; lia].
  intros j c Hj. pose proof (lookup_lt_Some _ _ _ Hj) as Hjl. rewrite Hi in Hj by lia. injection Hj as <-. by apply in_bucket_perm.
Qed.

(** The rank asked for exists. *)
Lemma want_rank_bound n pct : 0 < n -> 0 < pct <= 100 -> n * 100 < 2 ^ 64 -> 1 <= want_rank n pct <= n.
Proof. intros Hn Hp Hl. unfold want_rank. rewrite Z.min_l by nia. split; [lia|]. apply Z.max_lub; [|lia]. apply Z.lt_succ_r, Z.div_lt_upper_bound; nia. Qed.

(** A record between the loads of the buckets and the load of the sample count: the
    percentile falls off the table and reads as the largest 64-bit value. *)
Example torn_snapshot : let h := hist_record 100 hist_new in hs_p50_ns (snapshot_loads (fun _ => hist_new) h h h) = 2 ^ 64 - 1 /\ hs_p50_ns (hist_snapshot h) = 127.
Proof. vm_compute. done. Qed.

(** ** Policy drops *)

(** The name under which a dropped frame is counted. *)
Definition rule_name (r : DropRule) : string :=
  match r with RULE_SPOOF_MAC => "spoof_mac" | RULE_SPOOF_IP => "spoof_ip" | RULE_ALLOW_LAN => "allow_lan" | RULE_DENY => "deny" | RULE_ALLOW => "allow" | RULE_PPS => "pps" | RULE_BANDWIDTH => "bandwidth" end.

Lemma position_complete r : exists i, position (rule_name r) POLICY_RULES = Some i /\ POLICY_RULES !! i = Some (rule_name r) /\ forall r', position (rule_name r') POLICY_RULES = Some i -> r' = r.
Proof. destruct r; eexists; (split; [reflexivity|split; [reflexivity|by intros []]]). Qed.

Definition drops_of (rs : list DropRule) (name : string) : Z := Z.of_nat (length (filter (fun r => rule_name r = name) rs)).
Definition count_drops (rs : list DropRule) : Metrics := foldl (fun m r => record_policy_drop (rule_name r) m) metrics_new rs.

Lemma count_drops_policy rs : Z.of_nat (length rs) < 2 ^ 64 -> me_policy (count_drops rs) = drops_of rs <$> POLICY_RULES.
Proof.
  induction rs as [|r rs IH] using rev_ind; intros Hl; [done|]. rewrite length_app in Hl. cbn [length] in Hl. specialize (IH ltac:(lia)).
  assert (Hd : forall name, drops_of (rs ++ [r]) name = if bool_decide (rule_name r = name) then fetch_add (drops_of rs name) 1 else drops_of rs name).
  { intros name. unfold drops_of. rewrite list.filter_app, length_app. pose proof (list.length_filter (fun r => rule_name r = name) rs). case_bool_decide.
    - rewrite filter_cons_True, filter_nil by done. unfold fetch_add. rewrite wrap_small by (split; lia). cbn [length]. lia.
    - rewrite filter_cons_False, filter_nil by done. cbn [length]. lia. }
  unfold count_drops in *. rewrite foldl_app. cbn [foldl]. set (m := foldl _ metrics_new rs) in *. clearbody m. unfold record_policy_drop. destruct (position (rule_name r) POLICY_RULES) as [i|] eqn:Ei; [|by destruct r]. cbn [me_policy set_policy]. rewrite IH.
  unfold POLICY_RULES. cbn [fmap list_fmap]. rewrite !Hd. destruct r; injection Ei as <-; reflexivity.
Qed.

(** Every rule of the policy engine has a row: after any drops, the snapshot lists
    exactly the rules that fired, each with its number of drops. *)
Theorem policy_drops_counted rs r n : Z.of_nat (length rs) < 2 ^ 64 ->
  (rule_name r, n) ∈ policy_snapshots (count_drops rs) <-> 0 < n /\ n = drops_of rs (rule_name r).
Proof.
  intros Hl. unfold policy_snapshots. rewrite count_drops_policy by done. rewrite list_elem_of_omap. split.
  - intros ([name k] & Hin & Hk). cbn in Hk. destruct (Z.eqb_spec k 0); [done|]. injection Hk as -> ->. apply elem_of_lookup_zip_with in Hin as (i & name & k & [= <- <-] & Hi & Hc).
    rewrite list_lookup_fmap, Hi in Hc. injection Hc as <-. unfold drops_of in *. lia.
  - intros [Hn ->]. exists (rule_name r, drops_of rs (rule_name r)). split; [|cbn [fst snd]; destruct (Z.eqb_spec (drops_of rs (rule_name r)) 0); [lia|done]].
    destruct (position_complete r) as (i & _ & Hi & _). apply elem_of_lookup_zip_with. exists i, (rule_name r), (drops_of rs (rule_name r)). split_and!; [done|done|]. by rewrite list_lookup_fmap, Hi.
Qed.
